(* ===== verification/_CoqProject ===== *)
-Q . S2P
Prelude.v
Queue.v
Iovec.v
Ringbuffer.v
Bits.v
Pages.v
Kmalloc.v
Builtins.v
Cstring.v
Numconv.v
Printf.v
Time.v
Result.v
Device.v
Vfs.v
Vfsinv.v
Procfs.v
Procinv.v
Alloc.v
Bufcache.v
Blockstore.v
Minixmap.v
Minixzone.v
Minixfile.v
Minixrun.v
Minixnode.v
Minixdir.v
Minixmkfs.v
Minixvfs.v
Minixpath.v
Minixtree.v
Process.v
Schedinv.v
Signal.v
Sched.v
Schedrun.v
Memmap.v
Mapinv.v
Mapops.v
Mapspace.v
Maprun.v
Mapexec.v
Mmu.v
Mmuinv.v
Mmuops.v
Mmumap.v
Mmupool.v
Mmurun.v
Packet.v
Inet.v
Slip.v
Slipinv.v
Bh.v
Serial.v
Serialinv.v
Sliprun.v
Tty.v
Ttyinv.v
Ttyrun.v
Udp.v
Tcp.v
Tcpwire.v
Tcpinv.v
Tcpops.v
Tcprun.v
Tcplink.v
Net.v
Socket.v
Netrun.v
