(* ===== verification/Prelude.v ===== *)
(** * Gloworm: a verification of parts of its kernel and library

    Gloworm is a Unix-like kernel for the 68000 family with its C library.
    This development translates a large part of its C code into Rocq functions
    and proves what they do.  File names below are under src/src and
    src/include of the repository; "kernel/" is src/src/kernel.

    ** The program and its parts

    The kernel allocates pages (mm/pages.c) and, from pages, memory of its own
    (mm/kmalloc.c).  Processes (proc/) run in turn and wait in queues
    (utils/queue.h), get signals and timers, and have a memory map (mm/map.c),
    with page tables where there is an MMU (arch/m68k/mm/mmu.c).  Files are
    reached through the virtual file system (fs/vfs.c), which calls the file
    systems (fs/minix, fs/procfs); these use a cache of blocks (fs/bufcache.c)
    over the driver table (drivers.c).  Interrupts of the serial chip fill ring
    buffers (utils/ringbuffer.h) and request bottom halves (irq/bh.c), which
    run the terminals (drivers/tty/tty.c) and the network: SLIP frames become
    packets, which IPv4, UDP and TCP give to sockets (net/).

    ** How the code is modelled

    - Integers are of type Z and kept at their width: [u8] to [u32], [s8] to
      [s32] and [uwrap] wrap where the C code stores or computes at that
      width.  An array is a list; [rd], [wr], [rd_range] and [wr_range] are
      accesses that are undefined out of range.  A string is the list of the
      characters from a pointer to the end of its object.
    - Pointers into structures that the code links together are keys of a
      finite map (queue nodes, processes, segments, buffers, vnodes, page
      tables), so that sharing and dangling pointers are those of the code.
    - Code that cannot stop the machine returns an [option], [None] being
      undefined behaviour; code that can panic returns a [res] (Result.v):
      [Val], [Halt] or [Undef].  [wp r H Q] says that [r] is not undefined, that
      it halts only if [H], and that its value is in [Q].  A theorem with [wp]
      and [H] False therefore says that the call returns.
    - Loops that are not structural have fuel, with [None] or [Undef] when it
      runs out; each function passes fuel that the theorems show to be enough:
      the number of nodes of a queue, of entries of a table, of pages of a
      range, of characters of a format, of bytes of the input.
    - Runs are lists of operations ([run], [run_out], or a step relation) from
      any state that satisfies the invariant, or from the initial state.
    - What one part relies on in another is a class with laws, for which the
      other part gives an instance: [PageSource]/[PageLaws] (heap over pages),
      [Allocator]/[AllocLaws] (the rest over the heap), [DiskLaws] (cache over
      driver), [BlockStore]/[StoreLaws] (file system over cache),
      [FileSystem]/[FsLaws] (VFS over file systems), [PagePool]/[PoolLaws]
      (page tables over pages), [ByteDevice]/[DeviceLaws] (SLIP and terminals
      over the serial driver), [Uart]/[UartLaws] (the serial chip, by its data
      sheet), [NetWorld] (endpoints over the network), [TtyHost]/[TtyLaws].

    ** The files

    Prelude (this file: integers, arrays, tactics, list lemmas), Result
    (outcomes and error numbers), Bits (bitmaps in words).

    Utilities.  Queue: utils/queue.h refines lists.  Iovec: utils/iovec.c
    refines a byte string with a position.  Ringbuffer: utils/ringbuffer.h is a
    FIFO; what its peek and its get do at the edges.

    Library.  Builtins: the 32 bit arithmetic of libc/arch/m68k/builtins,
    instruction by instruction, and byte swaps.  Cstring: libc/common/string
    and ctype.  Numconv: itoa, strtol, rand.  Printf: vsnprintf, vsscanf and
    vprintk; a round trip for decimal numbers.

    Memory.  Pages: mm/pages.c against reference counts.  Kmalloc: mm/kmalloc.c;
    live blocks never overlap, and a panic means that there are no pages.
    Alloc: its interface.  Memmap, Mapinv, Mapops, Mapspace, Maprun, Mapexec:
    mm/map.c without CONFIG_MMU; segments in order and disjoint, exact
    reference counts, and what each operation does to each address.  Mmu,
    Mmuinv, Mmuops, Mmumap, Mmupool, Mmurun: mmu.c; mapping and unmapping of a
    range, other addresses and address spaces left alone.

    Processes.  Process, Schedinv, Sched, Schedrun: proc/process.c and
    scheduler.c; the invariant of the queues and of the table in every
    reachable state, and the turns of the scheduler.  Signal: proc/signal.c and
    the mask part of arch/m68k/proc/context.c; the exact effect of a signal on
    the process table.  Time: time.c, proc/timer.c and gmtime.

    Files.  Device: drivers.c and the RAM disk.  Bufcache, Blockstore:
    fs/bufcache.c as an array of blocks, and after a sync as what is on the
    device.  Minixmap, Minixzone, Minixfile, Minixrun, Minixnode, Minixdir,
    Minixmkfs: fs/minix; files as byte strings, directories as finite maps,
    inodes that survive the disk, a new file system that can be mounted.  Vfs,
    Vfsinv: fs/vfs.c, fileptr.c, access.c; lookup follows paths over any file
    system with the laws and keeps references in balance.  Procfs, Procinv:
    fs/procfs, an instance.  Minixvfs, Minixpath, Minixtree: minix.c behind the
    VFS, an instance over the buffer cache, and paths on a Minix disk.

    Devices and network.  Bh: irq/bh.c.  Serial, Serialinv: the MC68681 driver;
    bytes in order, none twice.  Tty, Ttyinv, Ttyrun: tty.c; lines as they were
    edited.  Slip, Slipinv, Sliprun: drivers/net/slip; packets arrive as sent.
    Packet, Inet: net/packet.c, ipv4.c and the headers; the checksum is that of
    RFC 1071.  Udp, Net, Socket, Netrun: udp.c, if.c, protocol.c, socket.c; from
    one process to another, datagrams arrive.  Tcp, Tcpwire, Tcpinv, Tcpops,
    Tcprun, Tcplink: tcp.c; over a network that loses, repeats and reorders, what
    is read is the beginning of what was written.

    ** Conditions

    The theorems hold under conditions where the code needs them, and say so.
    Those that leave out what the code gets wrong are explained by an example
    next to them: TCP reads only when there is data and does not send from the
    end of its ring buffer (Tcplink.v, Ringbuffer.v); timers have delays of
    less than three seconds (Time.v); 32 bit division is exact for divisors of 16
    bits only (Builtins.v); a fixed mapping stops at tables that are in its
    way (Mmumap.v); signals are not sent to the idle process, and some not to
    stopped or exited ones (Signal.v, Schedrun.v).

    ** What is not modelled

    The restarted system call itself (do_syscall is only recorded in [calls]),
    system call handlers, exec and the binary loaders, file descriptors,
    select, pipes and device files, devfs and ext2, the partition table, the
    ATA driver, entry code and interrupt vectors, user memory access in
    assembly, the monitor, and user programs: they are input and output on
    hardware, glue between the parts above, or programs on top of the kernel.
    Locks only keep interrupts out; an operation that runs with interrupts
    masked is one step here.  *)

From stdpp Require Export base numbers list list_numbers option gmap.
From Stdlib Require Export ZArith Lia ZifyBool Bool.

#[export] Set Default Goal Selector "!".

Declare Scope gw_scope.
Delimit Scope gw_scope with gw.
#[global] Open Scope Z_scope.

(** ** Machine integers

    The kernel is compiled for the m68k: [char] 8 bits, [short] 16 bits,
    [int], [long], [size_t] and pointers 32 bits.  Unsigned types are the
    residues [0, 2^w), signed types the two's complement range. *)

Definition uwrap (w x : Z) : Z := x mod 2 ^ w.
Definition swrap (w x : Z) : Z := (x + 2 ^ (w - 1)) mod 2 ^ w - 2 ^ (w - 1).

Definition u8 : Z → Z := uwrap 8.
Definition u16 : Z → Z := uwrap 16.
Definition u32 : Z → Z := uwrap 32.
Definition s8 : Z → Z := swrap 8.
Definition s16 : Z → Z := swrap 16.
Definition s32 : Z → Z := swrap 32.

Lemma uwrap_small w x : 0 ≤ x < 2 ^ w → uwrap w x = x.
Proof. apply Z.mod_small. Qed.

Lemma uwrap_range w x : 0 ≤ w → 0 ≤ uwrap w x < 2 ^ w.
Proof. intros. apply Z.mod_pos_bound. lia. Qed.

Lemma swrap_small w x : - 2 ^ (w - 1) ≤ x < 2 ^ w - 2 ^ (w - 1) → swrap w x = x.
Proof. intros. unfold swrap. rewrite Z.mod_small; lia. Qed.

(** The signed reading of a value does not depend on where it was cut. *)
Lemma swrap_uwrap w x : 0 ≤ w → swrap w (uwrap w x) = swrap w x.
Proof. intros. unfold swrap, uwrap. by rewrite Zplus_mod_idemp_l. Qed.

Lemma u8_small x : 0 ≤ x < 256 → u8 x = x.
Proof. apply (uwrap_small 8). Qed.
Lemma u16_small x : 0 ≤ x < 65536 → u16 x = x.
Proof. apply (uwrap_small 16). Qed.
Lemma u32_small x : 0 ≤ x < 4294967296 → u32 x = x.
Proof. apply (uwrap_small 32). Qed.
Lemma s8_small x : -128 ≤ x < 128 → s8 x = x.
Proof. intros. apply swrap_small. lia. Qed.
Lemma s16_small x : -32768 ≤ x < 32768 → s16 x = x.
Proof. intros. apply swrap_small. lia. Qed.
Lemma s32_small x : -2147483648 ≤ x < 2147483648 → s32 x = x.
Proof. intros. apply swrap_small. lia. Qed.

Create HintDb gw.
Create Rewrite HintDb gw.
#[export] Hint Rewrite u8_small u16_small u32_small s8_small s16_small s32_small
  using lia : gw.

(** Removes the machine-integer wrappers whose argument is provably in range. *)
Ltac unwrap := autorewrite with gw in *.

(** Splits on the first boolean test of the goal and keeps its equation. *)
Ltac zif :=
  match goal with
  | |- context [if ?b then _ else _] => destruct b eqn:?
  end.

(** Same for a hypothesis. *)
Ltac zif_in H :=
  match type of H with
  | context [if ?b then _ else _] => destruct b eqn:?
  end.

(** All the tests of the goal and the hypotheses. *)
Ltac zcases :=
  repeat match goal with
  | |- context [if ?b then _ else _] => destruct b eqn:?
  | H : context [if ?b then _ else _] |- _ => destruct b eqn:?
  end.

(** ** Alignment (include/kernel/utils/macros.h) *)

Definition align_up (value size : Z) : Z := Z.land (value + (size - 1)) (Z.lnot (size - 1)).
Definition align_down (value size : Z) : Z := Z.land value (Z.lnot (size - 1)).
Definition align_remainder (value size : Z) : Z := Z.land value (size - 1).

Lemma align_down_pow2 v p : 0 ≤ p → align_down v (2 ^ p) = v / 2 ^ p * 2 ^ p.
Proof.
  intros Hp. unfold align_down. rewrite Z.sub_1_r, <- Z.ones_equiv, <- Z.ldiff_land.
  by rewrite Z.ldiff_ones_r, Z.shiftr_div_pow2, Z.shiftl_mul_pow2.
Qed.

Lemma align_up_pow2 v p : 0 ≤ p → align_up v (2 ^ p) = (v + (2 ^ p - 1)) / 2 ^ p * 2 ^ p.
Proof. apply align_down_pow2. Qed.

Lemma align_remainder_pow2 v p : 0 ≤ p → align_remainder v (2 ^ p) = v mod 2 ^ p.
Proof. intros Hp. unfold align_remainder. rewrite Z.sub_1_r, <- Z.ones_equiv. by apply Z.land_ones. Qed.

(** ** Arrays

    A C array is a list; every access is checked.  [None] is undefined
    behaviour (an access outside the object), so a theorem concluding
    [= Some _] also states memory safety. *)

Abbreviation zlen l := (Z.of_nat (length l)).

(** Rewriting with this instead of computing keeps the kernel from comparing
    the rest of the code with the value that is bound. *)
Lemma bind_some {A B} (f : A → option B) x : Some x ≫= f = f x.
Proof. done. Qed.

Definition rd {A} (l : list A) (i : Z) : option A :=
  if i <? 0 then None else l !! Z.to_nat i.

Definition wr {A} (l : list A) (i : Z) (x : A) : option (list A) :=
  if (0 <=? i) && (i <? zlen l) then Some (<[Z.to_nat i := x]> l) else None.

(** Elements [i, i+n) of [l]. *)
Definition slice {A} (l : list A) (i n : nat) : list A := take n (drop i l).

(** [l] with [bs] written over the elements from [i] on. *)
Definition splice {A} (l : list A) (i : nat) (bs : list A) : list A :=
  take i l ++ bs ++ drop (i + length bs) l.

Definition rd_range {A} (l : list A) (i n : Z) : option (list A) :=
  if (0 <=? i) && (0 <=? n) && (i + n <=? zlen l)
  then Some (slice l (Z.to_nat i) (Z.to_nat n)) else None.

Definition wr_range {A} (l : list A) (i : Z) (bs : list A) : option (list A) :=
  if (0 <=? i) && (i + zlen bs <=? zlen l)
  then Some (splice l (Z.to_nat i) bs) else None.

Section arrays.
Context {A : Type}.
Implicit Types (l bs : list A) (i n : nat).

Lemma rd_some l (i : Z) x : rd l i = Some x ↔ 0 ≤ i ∧ l !! Z.to_nat i = Some x.
Proof. unfold rd. zif; naive_solver auto with lia. Qed.

Lemma rd_nat l i : rd l (Z.of_nat i) = l !! i.
Proof. unfold rd. zif; [lia|]. by rewrite Nat2Z.id. Qed.

Lemma rd_in_range l (i : Z) : 0 ≤ i < zlen l → ∃ x, rd l i = Some x.
Proof.
  intros. destruct (lookup_lt_is_Some_2 l (Z.to_nat i)) as [x ?]; [lia|].
  exists x. apply rd_some. split; [lia|done].
Qed.

Lemma wr_in_range l (i : Z) x :
  0 ≤ i < zlen l → wr l i x = Some (<[Z.to_nat i := x]> l).
Proof. intros. unfold wr. by zif; [|lia]. Qed.

Lemma wr_some l (i : Z) x l' :
  wr l i x = Some l' ↔ 0 ≤ i < zlen l ∧ l' = <[Z.to_nat i := x]> l.
Proof. unfold wr. zif; naive_solver auto with lia. Qed.

Lemma rd_range_ok l (i n : Z) :
  0 ≤ i → 0 ≤ n → i + n ≤ zlen l →
  rd_range l i n = Some (slice l (Z.to_nat i) (Z.to_nat n)).
Proof. intros. unfold rd_range. by zif; [|lia]. Qed.

Lemma wr_range_ok l (i : Z) bs :
  0 ≤ i → i + zlen bs ≤ zlen l →
  wr_range l i bs = Some (splice l (Z.to_nat i) bs).
Proof. intros. unfold wr_range. by zif; [|lia]. Qed.

Lemma length_slice l i n : length (slice l i n) = (n `min` (length l - i))%nat.
Proof. unfold slice. by rewrite length_take, length_drop. Qed.

Lemma length_splice l i bs :
  (i + length bs ≤ length l)%nat → length (splice l i bs) = length l.
Proof. intros. unfold splice. rewrite !length_app, length_take, length_drop. lia. Qed.

Lemma lookup_slice l i n k :
  slice l i n !! k = if (k <? n)%nat then l !! (i + k)%nat else None.
Proof.
  unfold slice. zif.
  - rewrite lookup_take_lt by (apply Nat.ltb_lt; done). apply lookup_drop.
  - apply lookup_take_ge. apply Nat.ltb_ge; done.
Qed.

Lemma lookup_splice l i bs k :
  (i + length bs ≤ length l)%nat →
  splice l i bs !! k =
    if (k <? i)%nat then l !! k
    else if (k <? i + length bs)%nat then bs !! (k - i)%nat else l !! k.
Proof.
  intros Hl. unfold splice.
  assert (Ht : length (take i l) = i) by (rewrite length_take; lia).
  repeat zif.
  - apply Nat.ltb_lt in Heqb. rewrite lookup_app_l by lia.
    by apply lookup_take_lt.
  - apply Nat.ltb_ge in Heqb. apply Nat.ltb_lt in Heqb0.
    rewrite lookup_app_r, lookup_app_l by lia. by rewrite Ht.
  - apply Nat.ltb_ge in Heqb, Heqb0.
    rewrite !lookup_app_r by lia. rewrite lookup_drop. f_equal. lia.
Qed.

Lemma splice_nil l i : splice l i [] = l.
Proof. unfold splice. simpl. rewrite Nat.add_0_r. apply take_drop. Qed.

Lemma slice_splice l i bs :
  (i + length bs ≤ length l)%nat → slice (splice l i bs) i (length bs) = bs.
Proof.
  intros Hl. apply list_eq. intros k. rewrite lookup_slice.
  destruct (Nat.ltb_spec k (length bs)).
  - rewrite lookup_splice by done.
    destruct (Nat.ltb_spec (i + k) i); [lia|].
    destruct (Nat.ltb_spec (i + k) (i + length bs)); [|lia]. f_equal. lia.
  - symmetry. apply lookup_ge_None_2. lia.
Qed.

Lemma splice_splice_adj l i j bs1 bs2 :
  j = (i + length bs1)%nat → (i + length bs1 + length bs2 ≤ length l)%nat →
  splice (splice l i bs1) j bs2 = splice l i (bs1 ++ bs2).
Proof.
  intros -> Hl. apply list_eq. intros k.
  assert (length (splice l i bs1) = length l) as Hs by (apply length_splice; lia).
  rewrite !lookup_splice by (rewrite ?Hs, ?length_app; lia).
  rewrite length_app.
  destruct (Nat.ltb_spec k i), (Nat.ltb_spec k (i + length bs1)),
    (Nat.ltb_spec k (i + length bs1 + length bs2)),
    (Nat.ltb_spec k (i + (length bs1 + length bs2))); try lia; try done.
  - by rewrite lookup_app_l by lia.
  - rewrite lookup_app_r by lia. f_equal. lia.
Qed.

Lemma slice_app_adj l i n m :
  (i + n ≤ length l)%nat →
  slice l i n ++ slice l (i + n) m = slice l i (n + m).
Proof.
  intros. unfold slice. rewrite <- drop_drop.
  rewrite <- take_take_drop. f_equal.
Qed.
End arrays.

(** ** Bytes *)

Definition byte_ok (b : Z) : Prop := 0 ≤ b < 256.

#[export] Instance byte_ok_dec b : Decision (byte_ok b).
Proof. unfold byte_ok. apply _. Defined.

Section arrays_more.
Context {A : Type}.
Implicit Types (l a b c bs : list A) (i n : nat).

(** Writing inside the middle part of a concatenation. *)
Lemma splice_app_mid a b c i bs :
  (i + length bs ≤ length b)%nat →
  splice (a ++ b ++ c) (length a + i) bs = a ++ splice b i bs ++ c.
Proof.
  intros. unfold splice. rewrite <- !app_assoc.
  rewrite take_app_add, <- app_assoc. f_equal.
  rewrite take_app_le by lia. f_equal. f_equal.
  rewrite <- Nat.add_assoc, drop_app_add, drop_app_le by lia. done.
Qed.

Lemma slice_app_mid a b c i n :
  (i + n ≤ length b)%nat →
  slice (a ++ b ++ c) (length a + i) n = slice b i n.
Proof.
  intros. unfold slice. rewrite drop_app_add, drop_app_le by lia.
  rewrite take_app_le; [done|]. rewrite length_drop. lia.
Qed.

Lemma insert_splice l i x : (i < length l)%nat → <[i := x]> l = splice l i [x].
Proof.
  intros. rewrite insert_take_drop by done. unfold splice. simpl. by rewrite Nat.add_1_r.
Qed.

Lemma slice_0 l i : slice l i 0 = [].
Proof. done. Qed.

Lemma slice_all l : slice l 0 (length l) = l.
Proof. unfold slice. by rewrite drop_0, take_ge by lia. Qed.
Lemma take_slice l i n k : take k (slice l i n) = slice l i (k `min` n).
Proof. unfold slice. by rewrite take_take. Qed.

Lemma drop_slice l i n k : drop k (slice l i n) = slice l (i + k) (n - k).
Proof. unfold slice. by rewrite skipn_firstn_comm, drop_drop. Qed.

(** A slice on one side of what is written is not affected. *)
Lemma slice_splice_disjoint l i bs j n :
  (i + length bs ≤ length l)%nat → (j + n ≤ i ∨ i + length bs ≤ j)%nat →
  slice (splice l i bs) j n = slice l j n.
Proof.
  intros Hl Hd. apply list_eq. intros k. rewrite !lookup_slice.
  destruct (Nat.ltb_spec k n); [|done]. rewrite lookup_splice by done.
  zif; [done|]. zif; [lia|done].
Qed.

(** A slice that ends with what is written. *)
Lemma slice_splice_tail l i bs j :
  (i + length bs ≤ length l)%nat → (j ≤ i)%nat →
  slice (splice l i bs) j (i - j + length bs) = slice l j (i - j) ++ bs.
Proof.
  intros Hl Hj.
  assert (length (splice l i bs) = length l) by (by apply length_splice).
  rewrite <- slice_app_adj by lia.
  rewrite slice_splice_disjoint by (done || lia).
  replace (j + (i - j))%nat with i by lia. by rewrite slice_splice.
Qed.

(** What is written may go past the end. *)
Lemma lookup_splice_grow l i bs k :
  (i ≤ length l)%nat →
  splice l i bs !! k =
    if (k <? i)%nat then l !! k
    else if (k <? i + length bs)%nat then bs !! (k - i)%nat else l !! k.
Proof.
  intros Hl. unfold splice. assert (Ht : length (take i l) = i) by (rewrite length_take; lia).
  destruct (Nat.ltb_spec k i).
  { rewrite lookup_app_l, lookup_take_lt by lia. done. }
  rewrite lookup_app_r, Ht by lia. destruct (Nat.ltb_spec k (i + length bs)).
  - by rewrite lookup_app_l by lia.
  - rewrite lookup_app_r, lookup_drop by lia. f_equal. lia.
Qed.

Lemma length_splice_grow l i bs :
  (i ≤ length l)%nat → length (splice l i bs) = (length l `max` (i + length bs))%nat.
Proof. intros. unfold splice. rewrite !length_app, length_take, length_drop. lia. Qed.

Lemma splice_splice_grow l i bs1 bs2 :
  (i ≤ length l)%nat → splice (splice l i bs1) (i + length bs1) bs2 = splice l i (bs1 ++ bs2).
Proof.
  intros Hl. apply list_eq. intros k.
  rewrite !lookup_splice_grow by (rewrite ?length_splice_grow; lia). rewrite length_app, lookup_app.
  destruct (Nat.ltb_spec k (i + length bs1)), (Nat.ltb_spec k i), (Nat.ltb_spec k (i + length bs1 + length bs2)),
    (Nat.ltb_spec k (i + (length bs1 + length bs2))); try lia; try done.
  - destruct (bs1 !! (k - i)%nat) eqn:E; [done|]. apply lookup_ge_None in E. lia.
  - destruct (bs1 !! (k - i)%nat) eqn:E; [apply lookup_lt_Some in E; lia|]. f_equal. lia.
Qed.

Lemma splice_splice_pre l i bs1 bs2 :
  (i + length bs1 + length bs2 ≤ length l)%nat →
  splice (splice l (i + length bs1) bs2) i bs1 = splice l i (bs1 ++ bs2).
Proof.
  intros Hl. apply list_eq. intros k.
  assert (length (splice l (i + length bs1) bs2) = length l) as Hs by (apply length_splice; lia).
  rewrite !lookup_splice by (rewrite ?Hs, ?length_app; lia). rewrite length_app, lookup_app.
  destruct (Nat.ltb_spec k i); [by destruct (Nat.ltb_spec k (i + length bs1)); [|lia]|].
  destruct (Nat.ltb_spec k (i + length bs1)), (Nat.ltb_spec k (i + length bs1 + length bs2)),
    (Nat.ltb_spec k (i + (length bs1 + length bs2))); try lia; try done.
  - destruct (bs1 !! (k - i)%nat) eqn:E; [done|]. apply lookup_ge_None in E. lia.
  - destruct (bs1 !! (k - i)%nat) eqn:E; [apply lookup_lt_Some in E; lia|]. f_equal. lia.
Qed.

Lemma splice_within l i bs j bs2 :
  (i + length bs ≤ length l)%nat → (j + length bs2 ≤ length bs)%nat →
  splice (splice l i bs) (i + j) bs2 = splice l i (splice bs j bs2).
Proof.
  intros Hl Hj. apply list_eq. intros k.
  assert (length (splice l i bs) = length l) as Hs by (by apply length_splice).
  assert (length (splice bs j bs2) = length bs) as Hb by (by apply length_splice).
  rewrite !lookup_splice by (rewrite ?Hs, ?Hb; lia). rewrite Hb.
  destruct (Nat.ltb_spec k (i + j)), (Nat.ltb_spec k i), (Nat.ltb_spec k (i + length bs)),
    (Nat.ltb_spec k (i + j + length bs2)), (Nat.ltb_spec (k - i) j), (Nat.ltb_spec (k - i) (j + length bs2));
    try lia; try done. f_equal. lia.
Qed.
End arrays_more.

(** ** Runs of a step function *)

Fixpoint run {S O} (step : S → O → option S) (s : S) (ops : list O) : option S :=
  match ops with [] => Some s | op :: ops => s' ← step s op; run step s' ops end.

(** The same, collecting what each step returns. *)
Fixpoint run_out {S O R} (step : S → O → option (S * R)) (s : S) (ops : list O) :
    option (S * list R) :=
  match ops with
  | [] => Some (s, [])
  | op :: ops => '(s1, r) ← step s op; '(s2, rs) ← run_out step s1 ops; Some (s2, r :: rs)
  end.

(** The same for a total step. *)
Fixpoint run_all {S O R} (step : S → O → S * R) (s : S) (ops : list O) : S * list R :=
  match ops with
  | [] => (s, [])
  | op :: ops =>
      let '(s1, r) := step s op in let '(s2, rs) := run_all step s1 ops in (s2, r :: rs)
  end.
