(* ===== verification/Queue.v ===== *)
(** * Queue: the intrusive doubly linked list (include/kernel/utils/queue.h)

    The nodes live in a heap indexed by their address; a queue is the pair of
    its head and tail pointers.  The operations dereference pointers through
    the heap, [None] being a dereference of NULL or of an address that is not
    a node.  The theorems relate them to operations on the list of the node
    addresses. *)

From S2P Require Import Prelude.

(** ** The structures *)

Definition NULL : Z := 0.

Record queue_node := mk_node { next : Z; prev : Z }.
Record queue := mk_queue { head : Z; tail : Z }.

Abbreviation heap := (gmap Z queue_node).

Definition set_next (h : heap) (p v : Z) : option heap :=
  n ← h !! p; Some (<[p := mk_node v (prev n)]> h).

Definition set_prev (h : heap) (p v : Z) : option heap :=
  n ← h !! p; Some (<[p := mk_node (next n) v]> h).

(** ** The operations *)

Definition _queue_init : queue := mk_queue NULL NULL.

Definition _queue_node_init (h : heap) (node : Z) : option heap :=
  h1 ← set_next h node NULL; set_prev h1 node NULL.

(** [if (x) x->prev = v; else queue->tail = v;] *)
Definition link_prev (h : heap) (q : queue) (x v : Z) : option (heap * queue) :=
  if x =? NULL then Some (h, mk_queue (head q) v)
  else h1 ← set_prev h x v; Some (h1, q).

(** [if (x) x->next = v; else queue->head = v;] *)
Definition link_next (h : heap) (q : queue) (x v : Z) : option (heap * queue) :=
  if x =? NULL then Some (h, mk_queue v (tail q))
  else h1 ← set_next h x v; Some (h1, q).

Definition _queue_insert (h : heap) (q : queue) (node : Z) : option (heap * queue) :=
  '(h1, q1) ← link_prev h q (head q) node;
  h2 ← set_next h1 node (head q1);
  h3 ← set_prev h2 node NULL;
  Some (h3, mk_queue node (tail q1)).

Definition _queue_insert_after (h : heap) (q : queue) (node after : Z) :
    option (heap * queue) :=
  tl ← (if after =? NULL then Some (head q) else next <$> h !! after);
  '(h1, q1) ← link_prev h q tl node;
  h2 ← set_next h1 node tl;
  '(h3, q3) ← link_next h2 q1 after node;
  h4 ← set_prev h3 node after;
  Some (h4, q3).

Definition _queue_remove (h : heap) (q : queue) (node : Z) : option (heap * queue) :=
  n ← h !! node;
  '(h1, q1) ← link_prev h q (next n) (prev n);
  n1 ← h1 !! node;
  '(h2, q2) ← link_next h1 q1 (prev n1) (next n1);
  h3 ← set_next h2 node NULL;
  h4 ← set_prev h3 node NULL;
  Some (h4, q2).

Definition _queue_head (q : queue) : Z := head q.
Definition _queue_tail (q : queue) : Z := tail q.
Definition _queue_next (h : heap) (node : Z) : option Z := next <$> h !! node.
Definition _queue_prev (h : heap) (node : Z) : option Z := prev <$> h !! node.

(** The nodes from [cur] on, for the statements about states that hold queues;
    [fuel] bounds their number. *)
Fixpoint queue_walk (fuel : nat) (h : heap) (cur : Z) : option (list Z) :=
  if cur =? NULL then Some []
  else match fuel with
       | O => None
       | S fuel => nx ← _queue_next h cur; rest ← queue_walk fuel h nx; Some (cur :: rest)
       end.

(** ** Representation predicate *)

Definition first_of (d : Z) (l : list Z) : Z := match l with [] => d | x :: _ => x end.
Definition last_of (d : Z) (l : list Z) : Z := List.last l d.

(** [l] is linked in [h], preceded by [p] and followed by [n]. *)
Fixpoint dlseg (h : heap) (p : Z) (l : list Z) (n : Z) : Prop :=
  match l with
  | [] => True
  | x :: l' => x ≠ NULL ∧ h !! x = Some (mk_node (first_of n l') p) ∧ dlseg h x l' n
  end.

Definition is_queue (h : heap) (q : queue) (l : list Z) : Prop :=
  NoDup l ∧ dlseg h NULL l NULL ∧ head q = first_of NULL l ∧ tail q = last_of NULL l.

Lemma last_of_app d l x : last_of d (l ++ [x]) = x.
Proof. apply List.last_last. Qed.

Lemma last_of_cons d x l : last_of d (x :: l) = last_of x l.
Proof.
  revert d x. induction l as [|y l IH]; intros d x; [done|].
  change (last_of d (y :: l) = last_of x (y :: l)). by rewrite !IH.
Qed.

Lemma last_of_app_cons d l1 x l2 : last_of d (l1 ++ x :: l2) = last_of x l2.
Proof.
  revert d. induction l1 as [|y l1 IH]; intros d; simpl app; rewrite last_of_cons; [done|].
  apply IH.
Qed.

Lemma first_of_app d l1 l2 : first_of d (l1 ++ l2) = first_of (first_of d l2) l1.
Proof. by destruct l1. Qed.

Lemma dlseg_app h p l1 l2 n :
  dlseg h p (l1 ++ l2) n ↔ dlseg h p l1 (first_of n l2) ∧ dlseg h (last_of p l1) l2 n.
Proof.
  revert p. induction l1 as [|x l1 IH]; intros p; cbn [app dlseg].
  { simpl. naive_solver. }
  rewrite IH, last_of_cons, first_of_app. naive_solver.
Qed.

Lemma dlseg_ext h h' p l n :
  (∀ x, x ∈ l → h' !! x = h !! x) → dlseg h p l n → dlseg h' p l n.
Proof.
  revert p. induction l as [|y l IH]; intros p Hx; cbn [dlseg]; [done|].
  intros (? & ? & ?). rewrite Hx by set_solver. split_and!; try done.
  apply IH; set_solver.
Qed.

Lemma dlseg_in h p l n x : dlseg h p l n → x ∈ l → x ≠ NULL ∧ is_Some (h !! x).
Proof.
  revert p. induction l as [|y l IH]; intros p; simpl.
  - intros _ H. by apply elem_of_nil in H.
  - intros (? & Hy & Hl) [->|?]%elem_of_cons; [by rewrite Hy|eauto].
Qed.

Lemma first_of_nonnull h p l n :
  dlseg h p l n → (first_of NULL l =? NULL) = match l with [] => true | _ => false end.
Proof. destruct l; simpl; [done|]. intros (? & _). by apply Z.eqb_neq. Qed.

Lemma last_of_nonnull h p l n :
  dlseg h p l n → (last_of NULL l =? NULL) = match l with [] => true | _ => false end.
Proof.
  destruct l as [|x l _] using rev_ind; [done|].
  rewrite last_of_app, dlseg_app. simpl. intros (_ & Hx & _).
  destruct l; by apply Z.eqb_neq.
Qed.

(** Redirecting the link from a segment to what precedes it. *)
Lemma link_prev_spec h q p v l :
  NoDup l → dlseg h p l NULL →
  ∃ h' q', link_prev h q (first_of NULL l) v = Some (h', q') ∧
    dlseg h' v l NULL ∧ head q' = head q ∧
    tail q' = match l with [] => v | _ => tail q end ∧
    (∀ y, y ∉ l → h' !! y = h !! y).
Proof.
  intros Hnd Hs. unfold link_prev. rewrite (first_of_nonnull _ _ _ _ Hs).
  destruct l as [|x l]; [by eauto 10|].
  cbn [dlseg first_of] in *. destruct Hs as (Hnz & Hx & Hs).
  apply NoDup_cons in Hnd as [Hxl _].
  unfold set_prev. rewrite Hx. simpl. do 2 eexists. split; [done|].
  split_and!; try done.
  - by rewrite lookup_insert_eq.
  - revert Hs. apply dlseg_ext. intros y Hy. rewrite lookup_insert_ne; [done|set_solver].
  - intros y Hy. rewrite lookup_insert_ne; [done|set_solver].
Qed.

(** Redirecting the link from a segment to what follows it. *)
Lemma link_next_spec h q n v l :
  NoDup l → dlseg h NULL l n →
  ∃ h' q', link_next h q (last_of NULL l) v = Some (h', q') ∧
    dlseg h' NULL l v ∧ tail q' = tail q ∧
    head q' = match l with [] => v | _ => head q end ∧
    (∀ y, y ∉ l → h' !! y = h !! y).
Proof.
  intros Hnd Hs. unfold link_next. rewrite (last_of_nonnull _ _ _ _ Hs).
  destruct l as [|x l _] using rev_ind; [by eauto 10|].
  rewrite last_of_app. rewrite dlseg_app in *. cbn [dlseg first_of] in *.
  destruct Hs as (Hs & Hnz & Hx & _).
  apply NoDup_app in Hnd as (_ & Hxl & _).
  assert (Hx' : x ∉ l) by set_solver.
  assert (Hne : ∀ A (a b : A), match l ++ [x] with [] => a | _ => b end = b)
    by (by destruct l).
  rewrite Hne. unfold set_next. rewrite Hx. simpl. do 2 eexists. split; [done|].
  rewrite Hne, dlseg_app. cbn [dlseg first_of]. split_and!; try done.
  - revert Hs. apply dlseg_ext. intros y Hy. rewrite lookup_insert_ne; [done|set_solver].
  - by rewrite lookup_insert_eq.
  - intros y Hy. rewrite lookup_insert_ne; [done|set_solver].
Qed.

(** ** The operations refine list operations *)

(** Insertion after the last node of a prefix [l1] (NULL when it is empty). *)
Lemma queue_insert_after_split h q l1 l2 node :
  is_queue h q (l1 ++ l2) → node ∉ l1 ++ l2 → node ≠ NULL → is_Some (h !! node) →
  ∃ h' q', _queue_insert_after h q node (last_of NULL l1) = Some (h', q') ∧
    is_queue h' q' (l1 ++ node :: l2) ∧
    (∀ y, y ∉ node :: l1 ++ l2 → h' !! y = h !! y).
Proof.
  intros (Hnd & Hs & Hh & Ht) Hni Hnz [nd Hnode].
  apply not_elem_of_app in Hni as [Hn1 Hn2].
  apply NoDup_app in Hnd as (Hnd1 & Hdis & Hnd2).
  apply dlseg_app in Hs as [Hs1 Hs2].
  assert (Htl : (if last_of NULL l1 =? NULL then Some (head q)
                 else next <$> h !! last_of NULL l1) = Some (first_of NULL l2)).
  { rewrite (last_of_nonnull _ _ _ _ Hs1). rewrite Hh.
    destruct l1 as [|x l1 _] using rev_ind; [done|].
    apply dlseg_app in Hs1 as [_ (_ & Hx & _)].
    rewrite last_of_app, Hx. by destruct l1. }
  unfold _queue_insert_after. rewrite Htl. simpl.
  destruct (link_prev_spec h q _ node l2 Hnd2 Hs2) as (h1 & q1 & -> & Hs2' & Hh1 & Ht1 & Hf1).
  simpl. assert (Hnode1 : h1 !! node = Some nd) by (by rewrite Hf1).
  unfold set_next at 1. rewrite Hnode1. simpl.
  set (h2 := <[node := _]> h1).
  assert (Hs1' : dlseg h2 NULL l1 (first_of NULL l2)).
  { revert Hs1. apply dlseg_ext. intros y Hy. unfold h2.
    rewrite lookup_insert_ne by set_solver. apply Hf1. set_solver. }
  destruct (link_next_spec h2 q1 _ node l1 Hnd1 Hs1') as (h3 & q3 & -> & Hs3 & Ht3 & Hh3 & Hf3).
  simpl. assert (Hnode3 : h3 !! node = Some (mk_node (first_of NULL l2) (prev nd))).
  { rewrite Hf3 by done. apply lookup_insert_eq. }
  unfold set_prev. rewrite Hnode3. simpl. do 2 eexists. split; [done|]. split.
  - split_and!.
    + apply NoDup_app. split_and!; [done| |by apply NoDup_cons]. set_solver.
    + apply dlseg_app. cbn [dlseg first_of]. split_and!; try done.
      * revert Hs3. apply dlseg_ext. intros y Hy. rewrite lookup_insert_ne; [done|set_solver].
      * apply lookup_insert_eq.
      * revert Hs2'. apply dlseg_ext. intros y Hy. rewrite lookup_insert_ne by set_solver.
        rewrite Hf3 by set_solver. unfold h2. rewrite lookup_insert_ne; [done|set_solver].
    + rewrite Hh3, Hh1, Hh. by destruct l1.
    + rewrite Ht3, Ht1, Ht, !last_of_app_cons.
      destruct l2; [done|]. by rewrite last_of_app_cons, last_of_cons.
  - intros y Hy. rewrite lookup_insert_ne by set_solver. rewrite Hf3 by set_solver.
    unfold h2. rewrite lookup_insert_ne by set_solver. apply Hf1. set_solver.
Qed.

(** [_queue_insert] performs the same stores as inserting after NULL. *)
Lemma queue_insert_as_insert_after h q node :
  _queue_insert h q node = _queue_insert_after h q node NULL.
Proof.
  unfold _queue_insert, _queue_insert_after, link_prev, link_next.
  simpl. destruct (head q =? NULL) eqn:E; simpl; [done|].
  by destruct (set_prev h (head q) node).
Qed.

Lemma queue_remove_split h q l1 node l2 :
  is_queue h q (l1 ++ node :: l2) →
  ∃ h' q', _queue_remove h q node = Some (h', q') ∧
    is_queue h' q' (l1 ++ l2) ∧ h' !! node = Some (mk_node NULL NULL) ∧
    (∀ y, y ∉ l1 ++ node :: l2 → h' !! y = h !! y).
Proof.
  intros (Hnd & Hs & Hh & Ht).
  apply NoDup_app in Hnd as (Hnd1 & Hdis & [Hn2 Hnd2]%NoDup_cons).
  apply dlseg_app in Hs as [Hs1 (Hnz & Hnode & Hs2)]. cbn [first_of] in *.
  assert (Hn1 : node ∉ l1) by set_solver.
  unfold _queue_remove. rewrite Hnode. simpl.
  destruct (link_prev_spec h q _ (last_of NULL l1) l2 Hnd2 Hs2)
    as (h1 & q1 & -> & Hs2' & Hh1 & Ht1 & Hf1).
  simpl. rewrite Hf1, Hnode by done. simpl.
  assert (Hs1' : dlseg h1 NULL l1 node).
  { revert Hs1. apply dlseg_ext. intros y Hy. apply Hf1. set_solver. }
  destruct (link_next_spec h1 q1 _ (first_of NULL l2) l1 Hnd1 Hs1')
    as (h2 & q2 & -> & Hs3 & Ht2 & Hh2 & Hf2).
  simpl. unfold set_next. rewrite Hf2, Hf1, Hnode by done. simpl.
  unfold set_prev. rewrite lookup_insert_eq. simpl. rewrite insert_insert_eq.
  do 2 eexists. split; [done|]. split_and!.
  - split_and!.
    + apply NoDup_app. set_solver.
    + apply dlseg_app. split.
      * revert Hs3. apply dlseg_ext. intros y Hy. rewrite lookup_insert_ne; [done|set_solver].
      * revert Hs2'. apply dlseg_ext. intros y Hy. rewrite lookup_insert_ne by set_solver.
        apply Hf2. set_solver.
    + rewrite Hh2, Hh1, Hh. by destruct l1.
    + rewrite Ht2, Ht1, Ht. rewrite last_of_app_cons. destruct l2 as [|x l2].
      * by rewrite app_nil_r.
      * by rewrite last_of_app_cons, last_of_cons.
  - apply lookup_insert_eq.
  - intros y Hy. rewrite lookup_insert_ne by set_solver. rewrite Hf2 by set_solver.
    apply Hf1. set_solver.
Qed.

Lemma queue_walk_dlseg h p l : dlseg h p l NULL →
  ∀ fuel, (length l ≤ fuel)%nat → queue_walk fuel h (first_of NULL l) = Some l.
Proof.
  revert p. induction l as [|x l IH]; intros p Hs fuel Hf; [by destruct fuel|].
  destruct fuel as [|fuel]; [simpl in Hf; lia|]. destruct Hs as (Hnz & Hx & Hs).
  simpl. destruct (Z.eqb_spec x NULL); [done|].
  unfold _queue_next. rewrite Hx. simpl. erewrite IH; [done|done|simpl in Hf; lia].
Qed.

(** ** Abstract specification: sequences of operations on a list of nodes *)

Inductive queue_op :=
  | OpInsert (node : Z)
  | OpInsertAfter (node after : Z)
  | OpRemove (node : Z).

Definition queue_step (s : heap * queue) (op : queue_op) : option (heap * queue) :=
  match op with
  | OpInsert n => _queue_insert s.1 s.2 n
  | OpInsertAfter n a => _queue_insert_after s.1 s.2 n a
  | OpRemove n => _queue_remove s.1 s.2 n
  end.

Fixpoint list_insert_after (l : list Z) (n a : Z) : option (list Z) :=
  match l with
  | [] => None
  | x :: l' => if x =? a then Some (x :: n :: l') else (x ::.) <$> list_insert_after l' n a
  end.

Fixpoint list_remove_first (l : list Z) (n : Z) : option (list Z) :=
  match l with
  | [] => None
  | x :: l' => if x =? n then Some l' else (x ::.) <$> list_remove_first l' n
  end.

(** What a caller may ask for ([dom] is the set of allocated nodes) and the
    list that results: insert only nodes that are not queued, insert after and
    remove only queued ones. *)
Definition spec_step (nodes : gset Z) (l : list Z) (op : queue_op) : option (list Z) :=
  match op with
  | OpInsert n => if decide (n ∈ nodes ∧ n ∉ l) then Some (n :: l) else None
  | OpInsertAfter n a =>
      if decide (n ∈ nodes ∧ n ∉ l)
      then (if a =? NULL then Some (n :: l) else list_insert_after l n a) else None
  | OpRemove n => list_remove_first l n
  end.

Lemma list_insert_after_Some l n a l' : list_insert_after l n a = Some l' →
  ∃ l1 l2, l = l1 ++ a :: l2 ∧ l' = l1 ++ a :: n :: l2.
Proof.
  revert l'. induction l as [|x l IH]; intros l'; simpl; [done|].
  destruct (Z.eqb_spec x a) as [->|]; intros H; simplify_eq.
  - by exists [], l.
  - apply fmap_Some in H as (l'' & (l1 & l2 & -> & ->)%IH & ->). by exists (x :: l1), l2.
Qed.

Lemma list_remove_first_Some l n l' : list_remove_first l n = Some l' →
  ∃ l1 l2, l = l1 ++ n :: l2 ∧ l' = l1 ++ l2.
Proof.
  revert l'. induction l as [|x l IH]; intros l'; simpl; [done|].
  destruct (Z.eqb_spec x n) as [->|]; intros H; simplify_eq.
  - by exists [], l'.
  - apply fmap_Some in H as (l'' & (l1 & l2 & -> & ->)%IH & ->). by exists (x :: l1), l2.
Qed.

(** The state represents the list, and every node of [nodes] is allocated. *)
Definition queue_rel (nodes : gset Z) (s : heap * queue) (l : list Z) : Prop :=
  is_queue s.1 s.2 l ∧ (NULL ∉ nodes) ∧ (∀ n, n ∈ nodes → is_Some (s.1 !! n)).

Lemma is_queue_elem h q l x : is_queue h q l → x ∈ l → x ≠ NULL ∧ is_Some (h !! x).
Proof. intros (_ & Hs & _). by apply dlseg_in with (1 := Hs). Qed.

Lemma queue_next_at h q l1 p l2 : is_queue h q (l1 ++ p :: l2) → _queue_next h p = Some (first_of NULL l2).
Proof. intros (_ & Hs & _). apply dlseg_app in Hs as [_ (_ & Hp & _)]. unfold _queue_next. by rewrite Hp. Qed.

Lemma queue_prev_at h q l1 p l2 : is_queue h q (l1 ++ p :: l2) → _queue_prev h p = Some (last_of NULL l1).
Proof. intros (_ & Hs & _). apply dlseg_app in Hs as [_ (_ & Hp & _)]. unfold _queue_prev. by rewrite Hp. Qed.

Lemma queue_fuel (h : gmap Z queue_node) qu q : is_queue h qu q → (length q ≤ size h)%nat.
Proof.
  intros Hq. pose proof Hq as [Hnd _].
  rewrite <- (size_list_to_set (C := gset Z)) by done. rewrite <- (size_dom (D := gset Z)).
  apply subseteq_size. intros x Hx%elem_of_list_to_set.
  apply elem_of_dom. by destruct (is_queue_elem _ _ _ _ Hq Hx).
Qed.

Lemma queue_rel_update nodes s l h' q' l' :
  queue_rel nodes s l → is_queue h' q' l' →
  (∀ y, y ∉ l' → is_Some (s.1 !! y) → is_Some (h' !! y)) →
  queue_rel nodes (h', q') l'.
Proof.
  intros (Hq & Hn & Hd) Hq' Hf. split_and!; [done|done|]. intros n Hin. simpl.
  destruct (decide (n ∈ l')) as [Hl|Hl]; [eapply is_queue_elem; eauto|]. eauto.
Qed.

Lemma insert_split_step nodes s l1 l2 n :
  queue_rel nodes s (l1 ++ l2) → n ∈ nodes → n ∉ l1 ++ l2 →
  ∃ s', _queue_insert_after s.1 s.2 n (last_of NULL l1) = Some s' ∧
        queue_rel nodes s' (l1 ++ n :: l2).
Proof.
  intros Hrel Hin Hni. pose proof Hrel as (Hq & Hnn & Hd).
  destruct (queue_insert_after_split _ _ _ _ n Hq Hni) as (h' & q' & Heq & Hq' & Hf);
    [set_solver|by apply Hd|].
  exists (h', q'). split; [done|]. eapply queue_rel_update; [done..|].
  intros y Hy Hs. rewrite Hf; [done|set_solver].
Qed.

(** One operation, any of the three, simulates its list counterpart. *)
Lemma queue_step_refines nodes s l op l' :
  queue_rel nodes s l → spec_step nodes l op = Some l' →
  ∃ s', queue_step s op = Some s' ∧ queue_rel nodes s' l'.
Proof.
  intros Hrel. destruct op as [n|n a|n]; simpl.
  - case_decide as Hn; [|done]. intros [= <-]. rewrite queue_insert_as_insert_after.
    apply (insert_split_step nodes s [] l n); naive_solver.
  - case_decide as Hn; [|done]. destruct (Z.eqb_spec a NULL) as [->|].
    + intros [= <-]. apply (insert_split_step nodes s [] l n); naive_solver.
    + intros (l1 & l2 & -> & ->)%list_insert_after_Some.
      pose proof (insert_split_step nodes s (l1 ++ [a]) l2 n) as Hins.
      rewrite last_of_app in Hins.
      replace (l1 ++ a :: n :: l2) with ((l1 ++ [a]) ++ n :: l2) by (by rewrite <- app_assoc).
      replace (l1 ++ a :: l2) with ((l1 ++ [a]) ++ l2) in * by (by rewrite <- app_assoc).
      apply Hins; naive_solver.
  - intros (l1 & l2 & -> & ->)%list_remove_first_Some. destruct Hrel as (Hq & Hnn & Hd).
    destruct (queue_remove_split _ _ _ _ _ Hq) as (h' & q' & Heq & Hq' & Hno & Hf).
    exists (h', q'). split; [done|]. eapply queue_rel_update; [done..|].
    intros y Hy Hs. destruct (decide (y = n)) as [->|]; [by rewrite Hno|].
    rewrite Hf; [done|set_solver].
Qed.

(** C17: Any sequence of [_queue_insert], [_queue_insert_after] and
    [_queue_remove] calls that respects the callers' contract (insert nodes
    that are allocated and not queued, insert after and remove nodes that are
    queued) runs without a NULL or dangling dereference and leaves a well
    linked queue of exactly the list the same operations give on a list. *)
Theorem queue_run_refines nodes s l ops l' :
  queue_rel nodes s l → run (spec_step nodes) l ops = Some l' →
  ∃ s', run queue_step s ops = Some s' ∧ queue_rel nodes s' l'.
Proof.
  revert s l. induction ops as [|op ops IH]; intros s l Hrel; simpl.
  { intros [= <-]. by exists s. }
  intros (l1 & Hstep & Hrun)%bind_Some.
  destruct (queue_step_refines _ _ _ _ _ Hrel Hstep) as (s1 & -> & Hrel1). simpl.
  by apply (IH s1 l1).
Qed.

Definition example_heap : heap :=
  {[ 16 := mk_node 7 7; 32 := mk_node 7 7; 48 := mk_node 7 7 ]}.

Lemma example_rel : queue_rel {[16; 32; 48]} (example_heap, _queue_init) [].
Proof.
  split_and!.
  - split_and!; [by apply NoDup_nil|done..].
  - set_solver.
  - intros n Hn. assert (n = 16 ∨ n = 32 ∨ n = 48) as [->|[->| ->]] by set_solver;
      by eexists.
Qed.

Lemma queue_run_refines_witness :
  ∃ s', run queue_step (example_heap, _queue_init)
          [OpInsert 16; OpInsertAfter 32 16; OpInsert 48; OpRemove 16] = Some s' ∧
        queue_rel {[16; 32; 48]} s' [48; 32].
Proof.
  apply (queue_run_refines {[16; 32; 48]} (example_heap, _queue_init) []).
  - apply example_rel.
  - vm_compute. reflexivity.
Defined.
