(* ===== verification/Iovec.v ===== *)
(** * Iovec: scatter/gather buffers (include/kernel/utils/iovec.h,
      src/kernel/utils/iovec.c)

    A [kvec] segment is a buffer with its size, an [iovec_iter] a position in
    a user buffer or in an array of segments.  Buffers are modelled by their
    contents, so distinct segments are distinct memory.  The reference model
    of an array of segments is the concatenation of their contents ([flat]),
    the reference model of an iterator a byte string with a position. *)

From S2P Require Import Prelude.

Definition EINVAL : Z := -22.
Definition SEEK_SET : Z := 0.
Definition SEEK_CUR : Z := 1.
Definition SEEK_END : Z := 2.

Record kvec := mk_kvec { buf : list Z; bytes : Z }.

Inductive iter_data :=
  | ITER_USER_BUF (ubuf : list Z) (nbytes : Z)
  | ITER_KVEC (segs : list kvec)
  | ITER_INVALID (type : Z).

Record iovec_iter := mk_iter {
  it_length : Z; seg_start : Z; seg_offset : Z;
  cur_seg : Z; num_segs : Z; it_data : iter_data
}.

(** ** Copying to and from an array of segments *)

(** [if (seg_offset >= kvec[cur_seg].bytes) ...] at the head of both copy
    loops: [inl] leaves the loop, [inr] gives the segment and offset to use. *)
Definition kvec_advance (kv : list kvec) (nsegs cseg off : Z) :
    option (unit + Z * Z) :=
  k ← rd kv cseg;
  Some (if bytes k <=? u32 off
        then if nsegs <=? cseg + 1 then inl tt else inr (cseg + 1, 0)
        else inr (cseg, off)).

Definition chunk_size (nbytes index bufsize off : Z) : Z :=
  if u32 (nbytes - index) <? u32 (bufsize - off)
  then u32 (nbytes - index) else u32 (bufsize - off).

Fixpoint memcpy_into_kvec_loop (fuel : nat) (kv : list kvec) (nsegs cseg off : Z)
    (src : list Z) (src_index nbytes : Z) : option (list kvec * Z) :=
  match fuel with
  | O => None
  | S fuel =>
      adv ← kvec_advance kv nsegs cseg off;
      match adv with
      | inl _ => Some (kv, src_index)
      | inr (cseg, off) =>
          k ← rd kv cseg;
          let chunk := chunk_size nbytes src_index (bytes k) off in
          part ← rd_range src src_index chunk;
          b ← wr_range (buf k) off part;
          kv' ← wr kv cseg (mk_kvec b (bytes k));
          let off := s32 (off + chunk) in
          let src_index := u32 (src_index + chunk) in
          if nbytes <=? src_index then Some (kv', src_index)
          else memcpy_into_kvec_loop fuel kv' nsegs cseg off src src_index nbytes
      end
  end.

Definition memcpy_into_kvec (kv : list kvec) (nsegs off : Z) (src : list Z) (nbytes : Z) :
    option (list kvec * Z) :=
  memcpy_into_kvec_loop (S (length kv)) kv nsegs 0 off src 0 nbytes.

Fixpoint memcpy_out_of_kvec_loop (fuel : nat) (kv : list kvec) (nsegs cseg off : Z)
    (dest : list Z) (dest_index nbytes : Z) : option (list Z * Z) :=
  match fuel with
  | O => None
  | S fuel =>
      adv ← kvec_advance kv nsegs cseg off;
      match adv with
      | inl _ => Some (dest, dest_index)
      | inr (cseg, off) =>
          k ← rd kv cseg;
          let chunk := chunk_size nbytes dest_index (bytes k) off in
          part ← rd_range (buf k) off chunk;
          dest' ← wr_range dest dest_index part;
          let off := s32 (off + chunk) in
          let dest_index := u32 (dest_index + chunk) in
          if nbytes <=? dest_index then Some (dest', dest_index)
          else memcpy_out_of_kvec_loop fuel kv nsegs cseg off dest' dest_index nbytes
      end
  end.

Definition memcpy_out_of_kvec (kv : list kvec) (nsegs off : Z) (dest : list Z) (nbytes : Z) :
    option (list Z * Z) :=
  memcpy_out_of_kvec_loop (S (length kv)) kv nsegs 0 off dest 0 nbytes.

(** ** The reference model *)

Definition kvec_wf (k : kvec) : Prop := bytes k = zlen (buf k).
Definition flat (kv : list kvec) : list Z := concat (buf <$> kv).

(** The segments are well formed and their total size fits an [int]. *)
Definition segs_wf (kv : list kvec) : Prop :=
  Forall kvec_wf kv ∧ zlen (flat kv) < 2 ^ 31.

Lemma flat_split kv i k :
  kv !! i = Some k →
  flat kv = flat (take i kv) ++ buf k ++ flat (drop (S i) kv).
Proof.
  intros Hk. rewrite <- (take_drop_middle kv i k Hk) at 1.
  unfold flat. by rewrite fmap_app, concat_app.
Qed.

Lemma flat_insert kv i k k' :
  kv !! i = Some k →
  flat (<[i := k']> kv) = flat (take i kv) ++ buf k' ++ flat (drop (S i) kv).
Proof.
  intros Hk. assert (i < length kv)%nat by (by eapply lookup_lt_Some).
  rewrite (flat_split _ i k') by (by apply list_lookup_insert_eq).
  rewrite take_insert_ge, drop_insert_lt by lia. done.
Qed.

Lemma flat_take_S kv i k :
  kv !! i = Some k → flat (take (S i) kv) = flat (take i kv) ++ buf k.
Proof.
  intros Hk. rewrite (take_S_r _ _ _ Hk). unfold flat.
  rewrite fmap_app, concat_app. simpl. by rewrite app_nil_r.
Qed.

(** Segment [cseg], which is [k], at offset [off] is byte [pos] of the whole. *)
Definition at_pos (kv : list kvec) (cseg off : nat) (k : kvec) (pos : nat) : Prop :=
  kv !! cseg = Some k ∧ (off ≤ length (buf k))%nat ∧
  pos = (length (flat (take cseg kv)) + off)%nat.

(** Iterations the copy loops still need from there. *)
Definition iters (kv : list kvec) (cseg off : nat) (k : kvec) : nat :=
  (length kv - cseg) + (if (off <? length (buf k))%nat then 1 else 0).

Lemma segs_wf_lookup kv i k :
  segs_wf kv → kv !! i = Some k → bytes k = zlen (buf k) ∧ zlen (buf k) < 2 ^ 31.
Proof.
  intros [Hf Hl] Hk. split; [by eapply (Forall_lookup_1 _ _ _ _ Hf)|].
  rewrite (flat_split _ _ _ Hk), !length_app in Hl. lia.
Qed.

Lemma at_pos_bound kv cseg off k pos :
  at_pos kv cseg off k pos →
  (cseg < length kv)%nat ∧ (pos + (length (buf k) - off) ≤ length (flat kv))%nat.
Proof.
  intros (Hk & ? & ->). split; [by eapply lookup_lt_Some|].
  rewrite (flat_split _ _ _ Hk), !length_app. lia.
Qed.

Lemma flat_drop_all kv cseg k pos :
  at_pos kv cseg (length (buf k)) k pos → S cseg = length kv → pos = length (flat kv).
Proof.
  intros (Hk & _ & ->) Hl.
  rewrite (flat_split _ _ _ Hk), drop_ge, !length_app by lia. simpl. lia.
Qed.

Lemma kvec_advance_spec kv cseg off k pos fuel :
  segs_wf kv → at_pos kv cseg off k pos → (iters kv cseg off k ≤ S fuel)%nat →
  (kvec_advance kv (zlen kv) (Z.of_nat cseg) (Z.of_nat off) = Some (inl tt) ∧
   pos = length (flat kv)) ∨
  (∃ cseg' off' k',
     kvec_advance kv (zlen kv) (Z.of_nat cseg) (Z.of_nat off) =
       Some (inr (Z.of_nat cseg', Z.of_nat off')) ∧
     at_pos kv cseg' off' k' pos ∧ (length kv - cseg' ≤ fuel)%nat).
Proof.
  intros Hwf Hp Hfuel. pose proof Hp as (Hk & Hoff & Hpos).
  destruct (segs_wf_lookup _ _ _ Hwf Hk) as [Hb Hl].
  assert (Hc : (cseg < length kv)%nat) by (by eapply lookup_lt_Some).
  unfold kvec_advance. rewrite rd_nat, Hk. simpl. rewrite u32_small, Hb by lia.
  unfold iters in Hfuel.
  destruct (Nat.ltb_spec off (length (buf k))).
  - right. exists cseg, off, k. zif; [lia|]. split; [done|]. split; [done|lia].
  - assert (off = length (buf k)) as -> by lia.
    zif; [|lia]. destruct (decide (S cseg = length kv)) as [Hlast|Hnl].
    + left. zif; [|lia]. split; [done|]. by eapply flat_drop_all.
    + right. destruct (lookup_lt_is_Some_2 kv (S cseg)) as [k' Hk']; [lia|].
      exists (S cseg), 0%nat, k'. zif; [lia|]. split; [do 4 f_equal; lia|].
      split; [|lia]. split_and!; [done|lia|].
      rewrite (flat_take_S _ _ _ Hk), length_app. lia.
Qed.

Lemma chunk_size_spec nbytes index bufsize off :
  0 ≤ index ≤ nbytes → nbytes < 2 ^ 32 → 0 ≤ off ≤ bufsize → bufsize < 2 ^ 32 →
  chunk_size nbytes index bufsize off = (nbytes - index) `min` (bufsize - off).
Proof. intros. unfold chunk_size. rewrite !u32_small by lia. zif; lia. Qed.

(** The shape of an array of segments: a copy changes the contents only. *)
Definition same_shape (kv kv' : list kvec) : Prop :=
  length <$> (buf <$> kv') = length <$> (buf <$> kv) ∧ segs_wf kv'.

Lemma same_shape_trans kv1 kv2 kv3 :
  same_shape kv1 kv2 → same_shape kv2 kv3 → same_shape kv1 kv3.
Proof. intros [E1 _] [E2 W]. split; [by rewrite E2|done]. Qed.

Lemma same_shape_length kv kv' : same_shape kv kv' → length kv' = length kv.
Proof. intros [E _]. apply (f_equal length) in E. by rewrite !length_fmap in E. Qed.

Lemma flat_length_shape kv : length (flat kv) = sum_list (length <$> (buf <$> kv)).
Proof. unfold flat. apply length_concat. Qed.

Lemma same_shape_flat kv kv' : same_shape kv kv' → length (flat kv') = length (flat kv).
Proof. intros [E _]. by rewrite !flat_length_shape, E. Qed.

(** Overwriting part of one segment overwrites the same part of the whole. *)
Lemma write_segment kv cseg off k pos part :
  segs_wf kv → at_pos kv cseg off k pos → (off + length part ≤ length (buf k))%nat →
  let k' := mk_kvec (splice (buf k) off part) (bytes k) in
  let kv' := <[cseg := k']> kv in
  same_shape kv kv' ∧ flat kv' = splice (flat kv) pos part ∧
  at_pos kv' cseg (off + length part) k' (pos + length part) ∧
  length kv' = length kv.
Proof.
  intros Hwf Hp Hpart k' kv'. pose proof Hp as (Hk & Hoff & ->).
  assert (Hc : (cseg < length kv)%nat) by (by eapply lookup_lt_Some).
  assert (Hlen : length (buf k') = length (buf k)) by (by apply length_splice).
  assert (Hsh : length <$> (buf <$> kv') = length <$> (buf <$> kv)).
  { unfold kv'. rewrite !list_fmap_insert, Hlen.
    apply list_insert_id. by rewrite !list_lookup_fmap, Hk. }
  split_and!.
  - split; [done|]. destruct Hwf as [Hf Hl]. split.
    + apply Forall_insert; [done|]. unfold kvec_wf. rewrite Hlen.
      by apply (Forall_lookup_1 _ _ _ _ Hf Hk).
    + by rewrite flat_length_shape, Hsh, <- flat_length_shape.
  - unfold kv'. rewrite (flat_insert _ _ _ _ Hk), (flat_split _ _ _ Hk).
    by rewrite splice_app_mid.
  - unfold at_pos, kv'. rewrite list_lookup_insert_eq, take_insert_ge, Hlen by lia.
    split_and!; [done|lia..].
  - apply length_insert.
Qed.

Lemma memcpy_into_kvec_loop_spec fuel kv cseg off k pos src (si nb : nat) :
  segs_wf kv → at_pos kv cseg off k pos → (iters kv cseg off k ≤ fuel)%nat →
  (si ≤ nb ≤ length src)%nat → Z.of_nat nb < 2 ^ 32 →
  let n := ((nb - si) `min` (length (flat kv) - pos))%nat in
  ∃ kv', memcpy_into_kvec_loop fuel kv (zlen kv) (Z.of_nat cseg) (Z.of_nat off)
           src (Z.of_nat si) (Z.of_nat nb) = Some (kv', Z.of_nat (si + n)) ∧
    same_shape kv kv' ∧ flat kv' = splice (flat kv) pos (slice src si n).
Proof.
  revert kv cseg off k pos si. induction fuel as [|fuel IH];
    intros kv cseg off k pos si Hwf Hp Hfuel Hsi Hnb n.
  { destruct Hp as (Hk & _). apply lookup_lt_Some in Hk. unfold iters in Hfuel. lia. }
  cbn [memcpy_into_kvec_loop].
  destruct (kvec_advance_spec _ _ _ _ _ _ Hwf Hp Hfuel)
    as [[-> ->]|(cseg' & off' & k' & -> & Hp' & Hf')]; simpl.
  { exists kv. replace n with 0%nat by lia. rewrite Nat.add_0_r, slice_0, splice_nil.
    by split_and!. }
  pose proof Hp' as (Hk' & Hoff' & _). destruct (segs_wf_lookup _ _ _ Hwf Hk') as [Hb Hl].
  destruct (at_pos_bound _ _ _ _ _ Hp') as [Hc Hbound].
  rewrite rd_nat, Hk'. simpl. rewrite Hb, chunk_size_spec by lia.
  set (c := ((nb - si) `min` (length (buf k') - off'))%nat).
  replace ((Z.of_nat nb - Z.of_nat si) `min` (zlen (buf k') - Z.of_nat off')) with (Z.of_nat c) by lia.
  rewrite rd_range_ok by lia. simpl. rewrite !Nat2Z.id.
  assert (Hls : length (slice src si c) = c) by (rewrite length_slice; lia).
  rewrite wr_range_ok by lia. simpl. rewrite Nat2Z.id.
  destruct (write_segment _ _ _ _ _ (slice src si c) Hwf Hp') as (Hsh & Hfl & Hp1 & Hl1); [lia|].
  rewrite wr_in_range by lia. simpl. rewrite Nat2Z.id, u32_small, s32_small by lia.
  rewrite Hb in Hsh, Hfl, Hp1, Hl1. rewrite Hls in Hp1.
  set (kv1 := <[cseg' := _]> kv) in *.
  destruct (Z.leb_spec (Z.of_nat nb) (Z.of_nat si + Z.of_nat c)) as [Hdone|Hmore].
  { exists kv1. assert (c = n) as <- by lia. by rewrite Nat2Z.inj_add. }
  edestruct (IH kv1 cseg' (off' + c)%nat) with (si := (si + c)%nat) as (kv' & Heq & Hsh' & Hfl');
    [apply Hsh|exact Hp1| |lia|done|].
  { unfold iters. simpl. rewrite length_splice by lia.
    destruct (Nat.ltb_spec (off' + c) (length (buf k'))); lia. }
  exists kv'. rewrite (same_shape_flat _ _ Hsh) in Heq, Hfl'. split_and!.
  - replace (zlen kv) with (zlen kv1) by lia. rewrite <- !Nat2Z.inj_add.
    etrans; [exact Heq|]. do 3 f_equal. lia.
  - by eapply same_shape_trans.
  - rewrite Hfl', Hfl.
    rewrite splice_splice_adj by (rewrite ?length_slice; lia).
    rewrite slice_app_adj by lia. do 2 f_equal. lia.
Qed.

Lemma memcpy_out_of_kvec_loop_spec fuel kv cseg off k pos dest (di nb : nat) :
  segs_wf kv → at_pos kv cseg off k pos → (iters kv cseg off k ≤ fuel)%nat →
  (di ≤ nb ≤ length dest)%nat → Z.of_nat nb < 2 ^ 32 →
  let n := ((nb - di) `min` (length (flat kv) - pos))%nat in
  memcpy_out_of_kvec_loop fuel kv (zlen kv) (Z.of_nat cseg) (Z.of_nat off)
    dest (Z.of_nat di) (Z.of_nat nb) =
  Some (splice dest di (slice (flat kv) pos n), Z.of_nat (di + n)).
Proof.
  intros Hwf. revert cseg off k pos di dest. induction fuel as [|fuel IH];
    intros cseg off k pos di dest Hp Hfuel Hdi Hnb n.
  { destruct Hp as (Hk & _). apply lookup_lt_Some in Hk. unfold iters in Hfuel. lia. }
  cbn [memcpy_out_of_kvec_loop].
  destruct (kvec_advance_spec _ _ _ _ _ _ Hwf Hp Hfuel)
    as [[-> ->]|(cseg' & off' & k' & -> & Hp' & Hf')]; simpl.
  { replace n with 0%nat by lia. by rewrite Nat.add_0_r, slice_0, splice_nil. }
  pose proof Hp' as (Hk' & Hoff' & Hpos). destruct (segs_wf_lookup _ _ _ Hwf Hk') as [Hb Hl].
  destruct (at_pos_bound _ _ _ _ _ Hp') as [Hc Hbound].
  rewrite rd_nat, Hk'. simpl. rewrite Hb, chunk_size_spec by lia.
  set (c := ((nb - di) `min` (length (buf k') - off'))%nat).
  replace ((Z.of_nat nb - Z.of_nat di) `min` (zlen (buf k') - Z.of_nat off')) with (Z.of_nat c) by lia.
  rewrite rd_range_ok by lia. simpl. rewrite !Nat2Z.id.
  assert (Hls : length (slice (buf k') off' c) = c) by (rewrite length_slice; lia).
  assert (Hsl : slice (buf k') off' c = slice (flat kv) pos c).
  { rewrite Hpos, (flat_split _ _ _ Hk'). rewrite slice_app_mid; [done|lia]. }
  rewrite wr_range_ok by lia. simpl. rewrite Nat2Z.id, u32_small, s32_small by lia.
  rewrite Hsl in *. destruct (Z.leb_spec (Z.of_nat nb) (Z.of_nat di + Z.of_nat c)) as [Hdone|Hmore].
  { assert (c = n) as <- by lia. by rewrite Nat2Z.inj_add. }
  rewrite <- !Nat2Z.inj_add.
  erewrite (IH cseg' (off' + c)%nat k' (pos + c)%nat (di + c)%nat);
    [|split_and!; [done|lia..]| |rewrite length_splice; lia|done].
  - f_equal. f_equal; [|lia].
    rewrite splice_splice_adj by (rewrite ?length_slice; lia).
    rewrite slice_app_adj by lia. do 2 f_equal. lia.
  - unfold iters. destruct (Nat.ltb_spec (off' + c) (length (buf k'))); lia.
Qed.

(** The public entry points: an array of at least one segment, an offset in
    the first one. *)
Lemma memcpy_into_kvec_spec kv k off src (nb : nat) :
  segs_wf kv → kv !! 0%nat = Some k → (off ≤ length (buf k))%nat →
  (nb ≤ length src)%nat → Z.of_nat nb < 2 ^ 32 →
  let n := (nb `min` (length (flat kv) - off))%nat in
  ∃ kv', memcpy_into_kvec kv (zlen kv) (Z.of_nat off) src (Z.of_nat nb) = Some (kv', Z.of_nat n) ∧
    same_shape kv kv' ∧ flat kv' = splice (flat kv) off (take n src).
Proof.
  intros Hwf Hk Hoff Hnb Hlt n.
  destruct (memcpy_into_kvec_loop_spec (S (length kv)) kv 0 off k off src 0 nb)
    as (kv' & Heq & Hsh & Hfl); [done|done| |lia|done|].
  { unfold iters. zif; lia. }
  rewrite Nat.sub_0_r in *. exists kv'. split; [exact Heq|]. by split.
Qed.

Lemma memcpy_out_of_kvec_spec kv k off dest (nb : nat) :
  segs_wf kv → kv !! 0%nat = Some k → (off ≤ length (buf k))%nat →
  (nb ≤ length dest)%nat → Z.of_nat nb < 2 ^ 32 →
  let n := (nb `min` (length (flat kv) - off))%nat in
  memcpy_out_of_kvec kv (zlen kv) (Z.of_nat off) dest (Z.of_nat nb) =
    Some (splice dest 0 (slice (flat kv) off n), Z.of_nat n).
Proof.
  intros Hwf Hk Hoff Hnb Hlt n.
  pose proof (memcpy_out_of_kvec_loop_spec (S (length kv)) kv 0 off k off dest 0 nb) as H.
  rewrite Nat.sub_0_r in H. apply H; [done|done| |lia|done].
  unfold iters. zif; lia.
Qed.

(** ** Copying strings to and from an array of segments *)

(** Both nested loops of [strncpy_into_kvec] as one: the inner loop leaves a
    full segment by moving to the next one.  [None] on the fuel running out. *)
Fixpoint strncpy_into_kvec_loop (fuel : nat) (kv : list kvec) (nsegs cseg off : Z)
    (src : list Z) (src_index max : Z) : option (list kvec * Z) :=
  match fuel with
  | O => None
  | S fuel =>
      if cseg <? nsegs then
        k ← rd kv cseg;
        if bytes k <=? u32 off
        then strncpy_into_kvec_loop fuel kv nsegs (cseg + 1) 0 src src_index max
        else if max <=? src_index then
          b ← wr (buf k) off 0;
          kv' ← wr kv cseg (mk_kvec b (bytes k));
          Some (kv', src_index)
        else
          c ← rd src src_index;
          b ← wr (buf k) off c;
          kv' ← wr kv cseg (mk_kvec b (bytes k));
          if c =? 0 then Some (kv', src_index)
          else strncpy_into_kvec_loop fuel kv' nsegs cseg (off + 1) src (src_index + 1) max
      else
        k ← rd kv (nsegs - 1);
        b ← wr (buf k) (bytes k - 1) 0;
        kv' ← wr kv (nsegs - 1) (mk_kvec b (bytes k));
        Some (kv', src_index)
  end.

Definition strncpy_into_kvec (kv : list kvec) (nsegs off : Z) (src : list Z) (max : Z) :
    option (list kvec * Z) :=
  strncpy_into_kvec_loop (S (length kv + length (flat kv))) kv nsegs 0 off src 0 max.

Fixpoint strncpy_out_of_kvec_loop (fuel : nat) (kv : list kvec) (nsegs cseg off : Z)
    (dest : list Z) (dest_index max : Z) : option (list kvec * list Z * Z) :=
  match fuel with
  | O => None
  | S fuel =>
      if cseg <? nsegs then
        k ← rd kv cseg;
        if bytes k <=? u32 off
        then strncpy_out_of_kvec_loop fuel kv nsegs (cseg + 1) 0 dest dest_index max
        else if max <=? dest_index then
          dest' ← wr dest (dest_index - 1) 0;
          Some (kv, dest', dest_index)
        else
          c ← rd (buf k) off;
          dest' ← wr dest dest_index c;
          if c =? 0 then Some (kv, dest', dest_index)
          else strncpy_out_of_kvec_loop fuel kv nsegs cseg (off + 1) dest' (dest_index + 1) max
      else
        k ← rd kv (nsegs - 1);
        b ← wr (buf k) (bytes k - 1) 0;
        kv' ← wr kv (nsegs - 1) (mk_kvec b (bytes k));
        Some (kv', dest, dest_index)
  end.

Definition strncpy_out_of_kvec (kv : list kvec) (nsegs off : Z) (dest : list Z) (max : Z) :
    option (list kvec * list Z * Z) :=
  strncpy_out_of_kvec_loop (S (length kv + length (flat kv))) kv nsegs 0 off dest 0 max.

(** ** Iterators *)

Definition iovec_iter_init_user_buf (b : list Z) (nbytes : Z) : iovec_iter :=
  mk_iter nbytes 0 0 0 1 (ITER_USER_BUF b nbytes).

Definition iovec_iter_init_simple_kvec (b : list Z) (nbytes : Z) : iovec_iter :=
  mk_iter nbytes 0 0 0 1 (ITER_KVEC [mk_kvec b nbytes]).

Definition iovec_iter_init_kvec (segs : list kvec) (nsegs : Z) : option iovec_iter :=
  ks ← rd_range segs 0 nsegs;
  Some (mk_iter (foldl (λ len k, u32 (len + bytes k)) 0 ks) 0 0 0 nsegs (ITER_KVEC segs)).

Definition iovec_iter_remaining (it : iovec_iter) : Z :=
  u32 (it_length it - seg_start it - seg_offset it).

Definition set_position (it : iovec_iter) (start off cseg : Z) : iovec_iter :=
  mk_iter (it_length it) start off cseg (num_segs it) (it_data it).

Definition set_data (it : iovec_iter) (d : iter_data) : iovec_iter :=
  mk_iter (it_length it) (seg_start it) (seg_offset it) (cur_seg it) (num_segs it) d.

Definition bump_position (it : iovec_iter) (bytes : Z) : iovec_iter :=
  if bytes <=? u32 (seg_offset it + 1)
  then set_position it (u32 (seg_start it + bytes)) 0 (cur_seg it + 1)
  else set_position it (seg_start it) (u32 (seg_offset it + 1)) (cur_seg it).

Definition copy_uint8_into_iter (it : iovec_iter) (byte : Z) : option (iovec_iter * Z) :=
  match it_data it with
  | ITER_USER_BUF b n =>
      b' ← wr b (seg_offset it) byte;
      Some (set_position (set_data it (ITER_USER_BUF b' n))
              (seg_start it) (u32 (seg_offset it + 1)) (cur_seg it), 1)
  | ITER_KVEC segs =>
      if num_segs it <? cur_seg it then Some (it, 0)
      else
        k ← rd segs (cur_seg it);
        b' ← wr (buf k) (seg_offset it) byte;
        segs' ← wr segs (cur_seg it) (mk_kvec b' (bytes k));
        Some (bump_position (set_data it (ITER_KVEC segs')) (bytes k), 1)
  | ITER_INVALID _ => Some (it, EINVAL)
  end.

Definition copy_uint8_out_of_iter (it : iovec_iter) : option (iovec_iter * Z) :=
  match it_data it with
  | ITER_USER_BUF b n =>
      c ← rd b (seg_offset it);
      Some (set_position it (seg_start it) (u32 (seg_offset it + 1)) (cur_seg it), c)
  | ITER_KVEC segs =>
      if num_segs it <? cur_seg it then Some (it, 0)
      else
        k ← rd segs (cur_seg it);
        c ← rd (buf k) (seg_offset it);
        Some (bump_position it (bytes k), c)
  | ITER_INVALID _ => Some (it, u8 (-1))
  end.

(** The two loops of [iovec_iter_seek] over the segments. *)
Fixpoint seek_forward (fuel : nat) (segs : list kvec) (nsegs offset start cseg : Z) :
    option (Z * Z) :=
  match fuel with
  | O => None
  | S fuel =>
      if cseg <? nsegs - 1 then
        k ← rd segs cseg;
        if u32 (start + bytes k) <=? offset
        then seek_forward fuel segs nsegs offset (u32 (start + bytes k)) (cseg + 1)
        else Some (start, cseg)
      else Some (start, cseg)
  end.

Fixpoint seek_backward (fuel : nat) (segs : list kvec) (offset start cseg : Z) :
    option (Z * Z) :=
  match fuel with
  | O => None
  | S fuel =>
      if (0 <? cseg) && (offset <? start) then
        k ← rd segs (cseg - 1);
        seek_backward fuel segs offset (u32 (start - bytes k)) (cseg - 1)
      else Some (start, cseg)
  end.

Definition seek_target (it : iovec_iter) (offset whence : Z) : option Z :=
  if whence =? SEEK_SET then Some offset
  else if whence =? SEEK_CUR then Some (u32 (seg_start it + seg_offset it + offset))
  else if whence =? SEEK_END then Some (u32 (it_length it + offset))
  else None.

Definition iovec_iter_seek (it : iovec_iter) (offset whence : Z) : option (iovec_iter * Z) :=
  match seek_target it offset whence with
  | None => Some (it, u32 EINVAL)
  | Some offset =>
      let offset := if it_length it <? offset then it_length it else offset in
      match it_data it with
      | ITER_KVEC segs =>
          '(start, cseg) ←
            (if u32 (seg_start it + seg_offset it) <=? offset
             then seek_forward (S (length segs)) segs (num_segs it) offset
                    (seg_start it) (cur_seg it)
             else seek_backward (S (length segs)) segs offset (seg_start it) (cur_seg it));
          let it' := set_position it start (u32 (offset - start)) cseg in
          Some (it', u32 (seg_start it' + seg_offset it'))
      | _ =>
          let it' := set_position it (seg_start it) offset (cur_seg it) in
          Some (it', u32 (seg_start it' + seg_offset it'))
      end
  end.

Definition copy_amount (it : iovec_iter) (nbytes : Z) : Z :=
  if nbytes <? iovec_iter_remaining it then nbytes else iovec_iter_remaining it.

Definition memcpy_into_iter (it : iovec_iter) (src : list Z) (nbytes : Z) :
    option (iovec_iter * Z) :=
  let amount := s32 (copy_amount it nbytes) in
  match it_data it with
  | ITER_USER_BUF b n =>
      part ← rd_range src 0 amount;
      b' ← wr_range b (seg_offset it) part;
      Some (set_position (set_data it (ITER_USER_BUF b' n))
              (seg_start it) (u32 (seg_offset it + amount)) (cur_seg it), amount)
  | ITER_KVEC segs =>
      sub ← rd_range segs (cur_seg it) (zlen segs - cur_seg it);
      '(sub', n) ← memcpy_into_kvec sub (num_segs it - cur_seg it) (seg_offset it) src (u32 amount);
      segs' ← wr_range segs (cur_seg it) sub';
      let it' := set_data it (ITER_KVEC segs') in
      if 0 <? s32 n then
        '(it'', error) ← iovec_iter_seek it' n SEEK_CUR;
        if s32 error <? 0 then Some (it'', s32 error) else Some (it'', s32 n)
      else Some (it', s32 n)
  | ITER_INVALID _ => Some (it, EINVAL)
  end.

Definition memcpy_out_of_iter (it : iovec_iter) (dest : list Z) (nbytes : Z) :
    option (iovec_iter * list Z * Z) :=
  let amount := s32 (copy_amount it nbytes) in
  match it_data it with
  | ITER_USER_BUF b n =>
      part ← rd_range b (seg_offset it) amount;
      dest' ← wr_range dest 0 part;
      Some (set_position it (seg_start it) (u32 (seg_offset it + amount)) (cur_seg it), dest', amount)
  | ITER_KVEC segs =>
      sub ← rd_range segs (cur_seg it) (zlen segs - cur_seg it);
      '(dest', n) ← memcpy_out_of_kvec sub (num_segs it - cur_seg it) (seg_offset it) dest (u32 amount);
      if 0 <? s32 n then
        '(it', error) ← iovec_iter_seek it n SEEK_CUR;
        if s32 error <? 0 then Some (it', dest', s32 error) else Some (it', dest', s32 n)
      else Some (it, dest', s32 n)
  | ITER_INVALID _ => Some (it, dest, EINVAL)
  end.

Definition iovec_iter_push_back (it : iovec_iter) (value : list Z) (size : Z) :
    option (iovec_iter * Z) :=
  '(it1, error) ← iovec_iter_seek it (u32 (- size)) SEEK_CUR;
  if s32 error <? 0 then Some (it1, u32 (seg_start it1 + seg_offset it1))
  else
    '(it2, _) ← memcpy_into_iter it1 value size;
    let it3 := set_position it2 (seg_start it1) (seg_offset it1) (cur_seg it1) in
    Some (it3, u32 (seg_start it3 + seg_offset it3)).

(** ** Iterators refine a byte string with a position *)

Definition iter_rel (it : iovec_iter) (s : list Z) (pos : nat) : Prop :=
  it_length it = zlen s ∧ (pos ≤ length s)%nat ∧ zlen s < 2 ^ 31 ∧
  match it_data it with
  | ITER_USER_BUF b n => b = s ∧ n = zlen s ∧ seg_start it = 0 ∧ seg_offset it = Z.of_nat pos
  | ITER_KVEC segs =>
      segs_wf segs ∧ flat segs = s ∧ num_segs it = zlen segs ∧
      ∃ cseg off k, at_pos segs cseg off k pos ∧ cur_seg it = Z.of_nat cseg ∧
        seg_offset it = Z.of_nat off ∧ seg_start it = zlen (flat (take cseg segs))
  | ITER_INVALID _ => False
  end.

Lemma iter_rel_pos it s pos :
  iter_rel it s pos → seg_start it + seg_offset it = Z.of_nat pos.
Proof.
  intros (_ & _ & _ & H). destruct (it_data it); [lia| |done].
  destruct H as (_ & _ & _ & cseg & off & k & (_ & _ & ->) & _ & -> & ->). lia.
Qed.

Lemma iter_remaining_spec it s pos :
  iter_rel it s pos → iovec_iter_remaining it = Z.of_nat (length s - pos).
Proof.
  intros H. pose proof (iter_rel_pos _ _ _ H). destruct H as (Hl & Hp & Hs & _).
  unfold iovec_iter_remaining. rewrite u32_small; lia.
Qed.

Lemma flat_take_le kv i : (length (flat (take i kv)) ≤ length (flat kv))%nat.
Proof.
  rewrite <- (take_drop i kv) at 2. unfold flat. rewrite fmap_app, concat_app, length_app. lia.
Qed.

Lemma seek_forward_spec fuel segs (target cseg : nat) :
  segs_wf segs → (target ≤ length (flat segs))%nat → (cseg < length segs)%nat →
  (length (flat (take cseg segs)) ≤ target)%nat → (length segs - cseg ≤ fuel)%nat →
  ∃ cseg' off' k', seek_forward fuel segs (zlen segs) (Z.of_nat target)
      (zlen (flat (take cseg segs))) (Z.of_nat cseg) =
    Some (zlen (flat (take cseg' segs)), Z.of_nat cseg') ∧ at_pos segs cseg' off' k' target.
Proof.
  intros Hwf Ht. revert cseg. induction fuel as [|fuel IH]; intros cseg Hc Hle Hf; [lia|].
  cbn [seek_forward]. destruct (lookup_lt_is_Some_2 segs cseg Hc) as [k Hk].
  destruct (segs_wf_lookup _ _ _ Hwf Hk) as [Hb Hl].
  pose proof (flat_take_S _ _ _ Hk) as HS. pose proof (flat_take_le segs (S cseg)) as HS2.
  destruct Hwf as [Hwf Htot]. rewrite HS, length_app in HS2.
  destruct (Z.ltb_spec (Z.of_nat cseg) (zlen segs - 1)).
  - rewrite rd_nat, Hk. simpl. rewrite Hb, u32_small by lia.
    destruct (Z.leb_spec (zlen (flat (take cseg segs)) + zlen (buf k)) (Z.of_nat target)).
    + destruct (IH (S cseg)) as (c' & o' & k' & Heq & Hp); [lia|rewrite HS, length_app; lia|lia|].
      exists c', o', k'. split; [|done]. rewrite HS, length_app, Nat2Z.inj_add in Heq.
      rewrite <- Heq. f_equal. lia.
    + exists cseg, (target - length (flat (take cseg segs)))%nat, k. split; [done|].
      split_and!; [done|lia..].
  - exists cseg, (target - length (flat (take cseg segs)))%nat, k. split; [done|].
    rewrite (flat_split _ _ _ Hk), drop_ge, !length_app in Ht by lia. simpl in Ht.
    split_and!; [done|lia..].
Qed.

Lemma seek_backward_spec fuel segs (target cseg : nat) k off :
  segs_wf segs → segs !! cseg = Some k → (off ≤ length (buf k))%nat →
  (target ≤ length (flat (take cseg segs)) + off)%nat → (cseg < fuel)%nat →
  ∃ cseg' off' k', seek_backward fuel segs (Z.of_nat target)
      (zlen (flat (take cseg segs))) (Z.of_nat cseg) =
    Some (zlen (flat (take cseg' segs)), Z.of_nat cseg') ∧ at_pos segs cseg' off' k' target.
Proof.
  intros Hwf. revert cseg k off. induction fuel as [|fuel IH];
    intros cseg k off Hk Hoff Hle Hf; [lia|].
  cbn [seek_backward].
  destruct (Z.ltb_spec (Z.of_nat target) (zlen (flat (take cseg segs)))) as [Hlt|Hge].
  - destruct cseg as [|cseg]; [simpl in Hlt; lia|].
    destruct (Z.ltb_spec 0 (Z.of_nat (S cseg))); [|lia]. simpl andb.
    destruct (lookup_lt_is_Some_2 segs cseg) as [k0 Hk0];
      [apply lookup_lt_Some in Hk; lia|].
    replace (Z.of_nat (S cseg) - 1) with (Z.of_nat cseg) by lia.
    rewrite rd_nat, Hk0. simpl. destruct (segs_wf_lookup _ _ _ Hwf Hk0) as [Hb Hl].
    pose proof (flat_take_S _ _ _ Hk0) as HS. pose proof (flat_take_le segs (S cseg)).
    destruct Hwf as [Hwf Htot]. rewrite HS, length_app in *.
    rewrite Hb, u32_small by lia.
    replace (Z.of_nat (length (flat (take cseg segs)) + length (buf k0)) - zlen (buf k0))
      with (zlen (flat (take cseg segs))) by lia.
    apply (IH cseg k0 (length (buf k0)) Hk0); lia.
  - rewrite andb_false_r.
    exists cseg, (target - length (flat (take cseg segs)))%nat, k. split; [done|].
    split_and!; [done|lia..].
Qed.

Lemma iovec_iter_seek_spec it s pos offset whence t :
  iter_rel it s pos → seek_target it offset whence = Some t → 0 ≤ t →
  let t' := Z.to_nat (t `min` zlen s) in
  ∃ it', iovec_iter_seek it offset whence = Some (it', Z.of_nat t') ∧
    iter_rel it' s t' ∧ it_data it' = it_data it.
Proof.
  intros Hrel Htgt Ht t'. pose proof (iter_rel_pos _ _ _ Hrel) as Hpos.
  destruct Hrel as (Hl & Hp & Hs & H). unfold iovec_iter_seek. rewrite Htgt.
  replace (if it_length it <? t then it_length it else t) with (Z.of_nat t') by (zif; lia).
  destruct (it_data it) as [b n|segs|] eqn:Hd; [| |done].
  - destruct H as (-> & -> & H0 & Ho). simpl. rewrite H0, u32_small by lia.
    eexists. split; [done|]. split; [|done]. unfold iter_rel. simpl. rewrite Hd.
    split_and!; first [done|lia].
  - destruct H as (Hwf & <- & Hn & cseg & off & k & Hat & Hc & Ho & Hst).
    pose proof Hat as (Hk & Hoff & Hps). rewrite Ho, Hst, Hc, Hn in *.
    assert ((cseg < length segs)%nat) by (by eapply lookup_lt_Some).
    pose proof (flat_take_le segs cseg).
    assert (∃ cseg' off' k', (if u32 (zlen (flat (take cseg segs)) + Z.of_nat off) <=? Z.of_nat t'
        then seek_forward (S (length segs)) segs (zlen segs) (Z.of_nat t') (zlen (flat (take cseg segs))) (Z.of_nat cseg)
        else seek_backward (S (length segs)) segs (Z.of_nat t') (zlen (flat (take cseg segs))) (Z.of_nat cseg))
      = Some (zlen (flat (take cseg' segs)), Z.of_nat cseg') ∧ at_pos segs cseg' off' k' t')
      as (cseg' & off' & k' & -> & Hat').
    { rewrite u32_small by lia. zif.
      - apply seek_forward_spec; [done|lia..].
      - apply (seek_backward_spec _ _ _ _ k off); [done|done|lia..]. }
    simpl. pose proof Hat' as (Hk' & Hoff' & Hps'). pose proof (flat_take_le segs cseg').
    rewrite !(u32_small (Z.of_nat t' - _)) by lia. rewrite u32_small by lia.
    eexists. split; [do 2 f_equal; lia|]. split; [|done].
    unfold iter_rel. simpl. rewrite Hd. split_and!; [lia|lia|done|done|done|done|].
    exists cseg', off', k'. split_and!; [done|done|lia|done].
Qed.

Lemma same_shape_refl kv : segs_wf kv → same_shape kv kv.
Proof. by split. Qed.

Lemma same_shape_app kv1 kv2 kv2' :
  segs_wf (kv1 ++ kv2) → same_shape kv2 kv2' → same_shape (kv1 ++ kv2) (kv1 ++ kv2').
Proof.
  intros [Hf Hl] [E [Hf2 _]].
  assert (E' : length <$> (buf <$> kv1 ++ kv2') = length <$> (buf <$> kv1 ++ kv2))
    by (by rewrite !fmap_app, E).
  split; [done|]. apply Forall_app in Hf as [Hf1 _]. split; [by apply Forall_app|].
  by rewrite flat_length_shape, E', <- flat_length_shape.
Qed.

Lemma at_pos_shape kv kv' cseg off k pos :
  same_shape kv kv' → at_pos kv cseg off k pos →
  length (flat (take cseg kv')) = length (flat (take cseg kv)) ∧
  ∃ k', at_pos kv' cseg off k' pos.
Proof.
  intros [E W] (Hk & Ho & ->).
  assert (Ht : length (flat (take cseg kv')) = length (flat (take cseg kv))).
  { rewrite !flat_length_shape, !fmap_take. by rewrite E. }
  split; [done|].
  assert (Hk' : (length <$> (buf <$> kv')) !! cseg = Some (length (buf k)))
    by (rewrite E, !list_lookup_fmap, Hk; done).
  rewrite !list_lookup_fmap in Hk'. destruct (kv' !! cseg) as [k'|] eqn:E'; [|done].
  simpl in Hk'. exists k'. split_and!; [done|congruence|congruence].
Qed.

Lemma copy_amount_spec it s pos (nb : nat) :
  iter_rel it s pos → Z.of_nat nb < 2 ^ 32 →
  s32 (copy_amount it (Z.of_nat nb)) = Z.of_nat (nb `min` (length s - pos)).
Proof.
  intros H Hnb. unfold copy_amount. rewrite (iter_remaining_spec _ _ _ H).
  destruct H as (_ & Hp & Hs & _). rewrite s32_small; zif; lia.
Qed.

(** The part of the array that starts at the current segment. *)
Lemma sub_array segs cseg off k pos :
  segs_wf segs → at_pos segs cseg off k pos →
  rd_range segs (Z.of_nat cseg) (zlen segs - Z.of_nat cseg) = Some (drop cseg segs) ∧
  segs_wf (drop cseg segs) ∧ drop cseg segs !! 0%nat = Some k ∧
  zlen segs - Z.of_nat cseg = zlen (drop cseg segs) ∧
  flat segs = flat (take cseg segs) ++ flat (drop cseg segs).
Proof.
  intros [Hf Hl] (Hk & Ho & Hps). assert ((cseg < length segs)%nat) by (by eapply lookup_lt_Some).
  assert (Hsp : flat segs = flat (take cseg segs) ++ flat (drop cseg segs)).
  { unfold flat. by rewrite <- concat_app, <- fmap_app, take_drop. }
  split_and!.
  - rewrite rd_range_ok by lia. unfold slice. f_equal. rewrite Nat2Z.id.
    rewrite take_ge; [done|]. rewrite length_drop. lia.
  - split; [by apply Forall_drop|]. rewrite Hsp, length_app in Hl. lia.
  - by rewrite lookup_drop, Nat.add_0_r.
  - rewrite length_drop. lia.
  - done.
Qed.

(** Advancing by a number of bytes that remain. *)
Lemma iter_advance it s pos (n : nat) :
  iter_rel it s pos → (pos + n ≤ length s)%nat →
  ∃ it', iovec_iter_seek it (Z.of_nat n) SEEK_CUR = Some (it', Z.of_nat (pos + n)) ∧
    iter_rel it' s (pos + n) ∧ it_data it' = it_data it.
Proof.
  intros Hrel Hn. pose proof (iter_rel_pos _ _ _ Hrel). pose proof Hrel as (_ & _ & Hs & _).
  destruct (iovec_iter_seek_spec it s pos (Z.of_nat n) SEEK_CUR (Z.of_nat (pos + n)) Hrel)
    as (it' & Heq & Hrel' & Hd); [|lia|].
  { unfold seek_target. simpl. rewrite u32_small; [f_equal|]; lia. }
  replace (Z.to_nat _) with (pos + n)%nat in * by lia. eauto.
Qed.

(** Copying into the array from the current segment on, seen on the whole. *)
Lemma write_segs segs cseg off k pos src (n : nat) :
  segs_wf segs → at_pos segs cseg off k pos →
  (n ≤ length src)%nat → (pos + n ≤ length (flat segs))%nat →
  ∃ sub' segs', memcpy_into_kvec (drop cseg segs) (zlen (drop cseg segs)) (Z.of_nat off)
                  src (Z.of_nat n) = Some (sub', Z.of_nat n) ∧
    wr_range segs (Z.of_nat cseg) sub' = Some segs' ∧ same_shape segs segs' ∧
    flat segs' = splice (flat segs) pos (take n src).
Proof.
  intros Hwf Hat Hsrc Hn. pose proof Hat as (Hk & Hoff & Hps). pose proof Hwf as [_ Htot].
  destruct (sub_array _ _ _ _ _ Hwf Hat) as (Hrd & Hwf' & Hk' & Hns & Hsp).
  assert ((cseg < length segs)%nat) by (by eapply lookup_lt_Some).
  assert (Hfd : (length (flat segs) = length (flat (take cseg segs)) + length (flat (drop cseg segs)))%nat)
    by (by rewrite Hsp at 1; rewrite length_app).
  destruct (memcpy_into_kvec_spec _ k off src n Hwf' Hk' Hoff) as (sub' & Heq & Hsh & Hfl); [lia..|].
  replace (n `min` (length (flat (drop cseg segs)) - off))%nat with n in * by lia.
  assert (Hls : length sub' = length (drop cseg segs)) by (by apply same_shape_length).
  rewrite length_drop in Hls.
  exists sub', (take cseg segs ++ sub'). split_and!; [done| | |].
  - rewrite wr_range_ok by lia. unfold splice. rewrite Nat2Z.id.
    rewrite (drop_ge segs) by lia. by rewrite app_nil_r.
  - rewrite <- (take_drop cseg segs) at 1. apply same_shape_app; [|done]. by rewrite take_drop.
  - unfold flat at 1. rewrite fmap_app, concat_app. fold (flat sub') (flat (take cseg segs)).
    rewrite Hfl, Hsp, Hps.
    pose proof (splice_app_mid (flat (take cseg segs)) (flat (drop cseg segs)) [] off (take n src)) as Hm.
    rewrite !app_nil_r in Hm. rewrite Hm; [done|]. rewrite length_take. lia.
Qed.

(** A copy changes contents, not where the segments are. *)
Definition same_layout (d d' : iter_data) : Prop :=
  match d, d' with
  | ITER_USER_BUF _ n, ITER_USER_BUF _ n' => n = n'
  | ITER_KVEC segs, ITER_KVEC segs' => same_shape segs segs'
  | _, _ => False
  end.

Lemma memcpy_into_iter_spec it s pos src (nb : nat) :
  iter_rel it s pos → (nb ≤ length src)%nat → Z.of_nat nb < 2 ^ 32 →
  let n := (nb `min` (length s - pos))%nat in
  ∃ it', memcpy_into_iter it src (Z.of_nat nb) = Some (it', Z.of_nat n) ∧
    iter_rel it' (splice s pos (take n src)) (pos + n) ∧
    same_layout (it_data it) (it_data it').
Proof.
  intros Hrel Hsrc Hnb n. pose proof Hrel as (Hl & Hp & Hs & H).
  assert (Htk : length (take n src) = n) by (rewrite length_take; lia).
  assert (Hlen : length (splice s pos (take n src)) = length s) by (apply length_splice; lia).
  unfold memcpy_into_iter. rewrite (copy_amount_spec _ _ _ _ Hrel Hnb).
  change (nb `min` (length s - pos))%nat with n.
  destruct (it_data it) as [b m|segs|] eqn:Hd; [| |done].
  - destruct H as (-> & -> & H0 & Ho). rewrite rd_range_ok by lia. simpl.
    unfold slice. rewrite drop_0, Nat2Z.id, Ho. rewrite wr_range_ok by lia. simpl.
    eexists. split; [done|]. split; [|done].
    unfold iter_rel. simpl. rewrite Hlen, Nat2Z.id, u32_small by lia.
    split_and!; first [done|lia].
  - destruct H as (Hwf & <- & Hn & cseg & off & k & Hat & Hc & Ho & Hst).
    destruct (sub_array _ _ _ _ _ Hwf Hat) as (Hrd & _ & _ & Hns & _).
    rewrite Hc, Ho, Hn, Hrd. simpl. rewrite u32_small, Hns by lia.
    destruct (write_segs _ _ _ _ _ src n Hwf Hat) as (sub' & segs' & -> & Hwr & Hsh & Hfl); [lia..|].
    simpl. rewrite Hwr. simpl. destruct (at_pos_shape _ _ _ _ _ _ Hsh Hat) as (Htl & k' & Hat').
    assert (Hrel' : iter_rel (set_data it (ITER_KVEC segs')) (splice (flat segs) pos (take n src)) pos).
    { unfold iter_rel. simpl. rewrite Hlen. split_and!; try first [done|lia|apply Hsh].
      - by rewrite Hn, (same_shape_length _ _ Hsh).
      - exists cseg, off, k'. split_and!; try done. by rewrite Htl. }
    rewrite s32_small by lia. zif.
    + destruct (iter_advance _ _ _ n Hrel') as (it' & -> & Hrel'' & Hd'); [lia|].
      simpl. rewrite s32_small by lia. zif; [lia|]. exists it'. by rewrite Hd'.
    + eexists. split; [done|]. by replace (pos + n)%nat with pos by lia.
Qed.

Lemma memcpy_out_of_iter_spec it s pos dest (nb : nat) :
  iter_rel it s pos → (nb ≤ length dest)%nat → Z.of_nat nb < 2 ^ 32 →
  let n := (nb `min` (length s - pos))%nat in
  ∃ it', memcpy_out_of_iter it dest (Z.of_nat nb) =
           Some (it', splice dest 0 (slice s pos n), Z.of_nat n) ∧
    iter_rel it' s (pos + n).
Proof.
  intros Hrel Hdest Hnb n. pose proof Hrel as (Hl & Hp & Hs & H).
  unfold memcpy_out_of_iter. rewrite (copy_amount_spec _ _ _ _ Hrel Hnb).
  change (nb `min` (length s - pos))%nat with n.
  assert (Hls : length (slice s pos n) = n) by (rewrite length_slice; lia).
  destruct (it_data it) as [b m|segs|] eqn:Hd; [| |done].
  - destruct H as (-> & -> & H0 & Ho). rewrite Ho, rd_range_ok by lia. simpl.
    rewrite !Nat2Z.id, wr_range_ok by lia. simpl.
    eexists. split; [done|]. unfold iter_rel. simpl. rewrite Hd, u32_small by lia.
    split_and!; first [done|lia].
  - destruct H as (Hwf & <- & Hn & cseg & off & k & Hat & Hc & Ho & Hst).
    pose proof Hat as (Hk & Hoff & Hps).
    destruct (sub_array _ _ _ _ _ Hwf Hat) as (Hrd & Hwf' & Hk' & Hns & Hsp).
    assert (Hfd : (length (flat segs) = length (flat (take cseg segs)) + length (flat (drop cseg segs)))%nat)
      by (by rewrite Hsp at 1; rewrite length_app).
    rewrite Hc, Ho, Hn, Hrd. simpl. rewrite u32_small, Hns by lia.
    rewrite (memcpy_out_of_kvec_spec _ k off dest n Hwf' Hk' Hoff) by lia. simpl.
    replace (n `min` (length (flat (drop cseg segs)) - off))%nat with n by lia.
    replace (slice (flat (drop cseg segs)) off n) with (slice (flat segs) pos n).
    2: { rewrite Hsp, Hps. pose proof (slice_app_mid (flat (take cseg segs)) (flat (drop cseg segs)) [] off n) as Hm.
         rewrite app_nil_r in Hm. apply Hm. lia. }
    rewrite s32_small by lia. zif.
    + destruct (iter_advance _ _ _ n Hrel) as (it' & -> & Hrel'' & _); [lia|].
      simpl. rewrite s32_small by lia. zif; [lia|]. by exists it'.
    + eexists. split; [done|]. by replace (pos + n)%nat with pos by lia.
Qed.

(** Moving the iterator of a copy back to an earlier position. *)
Lemma iter_rel_restore it1 it2 s1 pos1 s2 pos2 :
  iter_rel it1 s1 pos1 → iter_rel it2 s2 pos2 → same_layout (it_data it1) (it_data it2) →
  iter_rel (set_position it2 (seg_start it1) (seg_offset it1) (cur_seg it1)) s2 pos1.
Proof.
  intros (Hl1 & Hp1 & Hs1 & H1) (Hl2 & Hp2 & Hs2 & H2) Hlay. unfold iter_rel. simpl.
  destruct (it_data it1) as [b1 n1|sg1|], (it_data it2) as [b2 n2|sg2|]; try done; simpl in Hlay.
  - destruct H1 as (-> & -> & ? & ?), H2 as (-> & -> & ? & ?). split_and!; first [done|lia].
  - destruct H1 as (Hwf1 & <- & Hn1 & cseg & off & k & Hat & Hc & Ho & Hst).
    destruct H2 as (Hwf2 & <- & Hn2 & _).
    destruct (at_pos_shape _ _ _ _ _ _ Hlay Hat) as (Ht & k' & Hat').
    split_and!; try first [done|rewrite (same_shape_flat _ _ Hlay); done].
    exists cseg, off, k'. split_and!; try done. by rewrite Ht.
Qed.

Lemma iovec_iter_push_back_spec it s pos value :
  iter_rel it s pos → (length value ≤ pos)%nat →
  ∃ it', iovec_iter_push_back it value (zlen value) = Some (it', Z.of_nat (pos - length value)) ∧
    iter_rel it' (splice s (pos - length value) value) (pos - length value).
Proof.
  intros Hrel Hv. pose proof Hrel as (_ & Hp & Hs & _). unfold iovec_iter_push_back.
  destruct (iovec_iter_seek_spec it s pos (u32 (- zlen value)) SEEK_CUR
              (Z.of_nat (pos - length value)) Hrel) as (it1 & -> & Hrel1 & _); [|lia|].
  { unfold seek_target. simpl. pose proof (iter_rel_pos _ _ _ Hrel). f_equal.
    unfold u32, uwrap. rewrite Zplus_mod_idemp_r, Z.mod_small; lia. }
  replace (Z.to_nat _) with (pos - length value)%nat in * by lia.
  simpl. rewrite s32_small by lia. zif; [lia|].
  destruct (memcpy_into_iter_spec it1 s (pos - length value) value (length value) Hrel1)
    as (it2 & -> & Hrel2 & Hlay); [lia..|]. simpl.
  replace (length value `min` (length s - (pos - length value)))%nat with (length value) in * by lia.
  rewrite take_ge in Hrel2 by lia.
  eexists. split; [|eapply iter_rel_restore; eassumption].
  rewrite (iter_rel_pos _ _ _ Hrel1), u32_small by lia. done.
Qed.

(** ** Abstract specification: a byte string and a position *)

Inductive iter_op :=
  | OpInto (src : list Z)               (* memcpy_into_iter(iter, src, len) *)
  | OpOutOf (nbytes : nat)              (* memcpy_out_of_iter(iter, dest, nbytes) *)
  | OpSeek (offset whence : Z)          (* iovec_iter_seek *)
  | OpPushBack (value : list Z).        (* iovec_iter_push_back *)

(** The iterator, what was copied out and the C return value. *)
Definition iter_step (it : iovec_iter) (op : iter_op) : option (iovec_iter * (list Z * Z)) :=
  match op with
  | OpInto src => '(it', n) ← memcpy_into_iter it src (zlen src); Some (it', ([], n))
  | OpOutOf nb =>
      '(it', dest, n) ← memcpy_out_of_iter it (replicate nb 0) (Z.of_nat nb);
      Some (it', (take (Z.to_nat n) dest, n))
  | OpSeek off wh => '(it', n) ← iovec_iter_seek it (u32 off) wh; Some (it', ([], n))
  | OpPushBack v => '(it', n) ← iovec_iter_push_back it v (zlen v); Some (it', ([], n))
  end.

(** What the operations mean on the string; [None] when a caller asks for
    something the iterator cannot represent. *)
Definition string_step (st : list Z * nat) (op : iter_op) : option ((list Z * nat) * (list Z * Z)) :=
  let '(s, pos) := st in
  match op with
  | OpInto src =>
      let n := (length src `min` (length s - pos))%nat in
      if zlen src <? 2 ^ 32
      then Some ((splice s pos (take n src), (pos + n)%nat), ([], Z.of_nat n)) else None
  | OpOutOf nb =>
      let n := (nb `min` (length s - pos))%nat in
      if Z.of_nat nb <? 2 ^ 32
      then Some ((s, (pos + n)%nat), (slice s pos n, Z.of_nat n)) else None
  | OpSeek off wh =>
      let base := if wh =? SEEK_SET then Some 0 else if wh =? SEEK_CUR then Some (Z.of_nat pos)
                  else if wh =? SEEK_END then Some (zlen s) else None in
      base ← base;
      if (0 <=? base + off) && (base + off <? 2 ^ 32)
      then let t := Z.to_nat ((base + off) `min` zlen s) in Some ((s, t), ([], Z.of_nat t))
      else None
  | OpPushBack v =>
      if (length v <=? pos)%nat
      then let t := (pos - length v)%nat in Some ((splice s t v, t), ([], Z.of_nat t)) else None
  end.

Lemma seek_target_spec it s pos off wh base :
  iter_rel it s pos →
  (if wh =? SEEK_SET then Some 0 else if wh =? SEEK_CUR then Some (Z.of_nat pos)
   else if wh =? SEEK_END then Some (zlen s) else None) = Some base →
  0 ≤ base + off < 2 ^ 32 → seek_target it (u32 off) wh = Some (base + off).
Proof.
  intros Hrel Hb Hr. unfold seek_target. rewrite (iter_rel_pos _ _ _ Hrel).
  destruct Hrel as (-> & _). unfold u32, uwrap in *. rewrite !Zplus_mod_idemp_r.
  destruct (wh =? SEEK_SET); [|destruct (wh =? SEEK_CUR); [|destruct (wh =? SEEK_END); [|done]]];
    injection Hb as <-; f_equal; rewrite Z.mod_small; lia.
Qed.

Lemma iter_step_refines it s pos op s' pos' out :
  iter_rel it s pos → string_step (s, pos) op = Some ((s', pos'), out) →
  ∃ it', iter_step it op = Some (it', out) ∧ iter_rel it' s' pos'.
Proof.
  intros Hrel. pose proof Hrel as (_ & Hp & Hs & _). destruct op as [src|nb|off wh|v]; simpl.
  - zif; [|done]. intros [= <- <- <-].
    destruct (memcpy_into_iter_spec it s pos src (length src) Hrel) as (it' & -> & ? & _); [lia..|].
    simpl. eauto.
  - zif; [|done]. intros [= <- <- <-].
    destruct (memcpy_out_of_iter_spec it s pos (replicate nb 0) nb Hrel) as (it' & -> & ?);
      [rewrite length_replicate; lia|lia|].
    simpl. exists it'. split; [|done]. do 3 f_equal. rewrite Nat2Z.id. unfold splice. simpl.
    rewrite take_app_le by (rewrite length_slice; lia).
    rewrite take_ge; [done|]. rewrite length_slice; lia.
  - intros (base & Hb & H)%bind_Some. zif_in H; [|done]. simplify_eq.
    destruct (iovec_iter_seek_spec it s' pos (u32 off) wh (base + off) Hrel) as (it' & -> & ? & _);
      [by eapply seek_target_spec; [done|done|lia]|lia|].
    simpl. eauto.
  - zif; [|done]. intros [= <- <- <-].
    destruct (iovec_iter_push_back_spec it s pos v Hrel) as (it' & -> & ?); [lia|].
    simpl. eauto.
Qed.

(** C18: A scatter/gather iterator, over a user buffer or over any array of
    kernel segments, behaves as one byte string with a position: every
    sequence of copies in and out, seeks and push-backs returns the counts and
    the bytes the string gives and leaves the iterator at the string's
    position, with no access outside a segment and no overflow, however the
    string is cut into segments. *)
Theorem iter_run_refines it s pos ops s' pos' outs :
  iter_rel it s pos → run_out string_step (s, pos) ops = Some ((s', pos'), outs) →
  ∃ it', run_out iter_step it ops = Some (it', outs) ∧ iter_rel it' s' pos'.
Proof.
  revert it s pos outs. induction ops as [|op ops IH]; intros it s pos outs Hrel; simpl.
  { intros [= <- <- <-]. eauto. }
  intros (((s1 & p1) & r) & Hstep & H)%bind_Some.
  apply bind_Some in H as ((st2 & rs) & Hrun & [= -> <-]).
  destruct (iter_step_refines _ _ _ _ _ _ _ Hrel Hstep) as (it1 & -> & Hrel1). simpl.
  destruct (IH _ _ _ _ Hrel1 Hrun) as (it' & -> & Hrel'). simpl. eauto.
Qed.

Definition example_segs : list kvec :=
  [mk_kvec [0; 0; 0] 3; mk_kvec [] 0; mk_kvec [9; 9] 2].

Definition example_iter : iovec_iter := mk_iter 5 0 0 0 3 (ITER_KVEC example_segs).

Lemma example_iter_rel : iter_rel example_iter [0; 0; 0; 9; 9] 0.
Proof.
  unfold iter_rel, segs_wf, kvec_wf. simpl. split_and!; try first [done|lia].
  - repeat constructor.
  - exists 0%nat, 0%nat, (mk_kvec [0; 0; 0] 3).
    by split_and!; [split_and!; [|simpl; lia|]|..].
Qed.

Lemma iter_run_refines_witness :
  ∃ it', run_out iter_step example_iter
    [OpInto [1; 2; 3; 4]; OpSeek (-2) SEEK_CUR; OpOutOf 9; OpPushBack [7; 8]] =
    Some (it', [([], 4); ([], 2); ([3; 4; 9], 3); ([], 3)]) ∧
    iter_rel it' [1; 2; 3; 7; 8] 3.
Proof.
  apply (iter_run_refines example_iter [0; 0; 0; 9; 9] 0).
  - apply example_iter_rel.
  - vm_compute. reflexivity.
Defined.

(** ** Single bytes and strings *)

Lemma write_byte kv cseg off k pos c :
  segs_wf kv → at_pos kv cseg off k pos → (off < length (buf k))%nat →
  ∃ b kv' k', wr (buf k) (Z.of_nat off) c = Some b ∧
    wr kv (Z.of_nat cseg) (mk_kvec b (bytes k)) = Some kv' ∧
    same_shape kv kv' ∧ flat kv' = splice (flat kv) pos [c] ∧
    at_pos kv' cseg (S off) k' (S pos) ∧ length (buf k') = length (buf k).
Proof.
  intros Hwf Hat Hoff. pose proof Hat as (Hk & _ & _).
  assert ((cseg < length kv)%nat) by (by eapply lookup_lt_Some).
  destruct (write_segment kv cseg off k pos [c] Hwf Hat) as (Hsh & Hfl & Hat' & _); [simpl; lia|].
  simpl in Hat'. rewrite !Nat.add_1_r in Hat'.
  exists (splice (buf k) off [c]). do 2 eexists.
  rewrite !wr_in_range, !Nat2Z.id, insert_splice by lia. split_and!; try done.
  simpl. apply length_splice. simpl. lia.
Qed.

(** A C string: the bytes before the first NUL. *)
Fixpoint cstring (l : list Z) : list Z :=
  match l with [] => [] | c :: l' => if c =? 0 then [] else c :: cstring l' end.

(** What [strncpy_into_kvec] takes of its source: at most [m] bytes of the string. *)
Definition clipped (src : list Z) (m : nat) : list Z := take m (cstring src).

(** Either the source has [m] readable bytes or a terminator before that. *)
Definition readable (src : list Z) (m : nat) : Prop := (m ≤ length src)%nat ∨ 0 ∈ src.

(** The outcome on the flat contents: the clipped string and a NUL if they
    fit, else what fits with the last byte of the last segment set to NUL. *)
Definition strncpy_result (s : list Z) (pos : nat) (str : list Z) : list Z * nat :=
  let room := (length s - pos)%nat in
  if (length str <? room)%nat then (splice s pos (str ++ [0]), length str)
  else (splice (splice s pos (take room str)) (length s - 1) [0], room).

(** The position as the loop holds it: in a segment, or past the last one. *)
Definition loop_pos (kv : list kvec) (cseg off pos : nat) : Prop :=
  (∃ k, at_pos kv cseg off k pos) ∨ (cseg = length kv ∧ pos = length (flat kv)).

Lemma terminate_last kv kl :
  segs_wf kv → last kv = Some kl → buf kl ≠ [] →
  ∃ b kv', rd kv (zlen kv - 1) = Some kl ∧ wr (buf kl) (bytes kl - 1) 0 = Some b ∧
    wr kv (zlen kv - 1) (mk_kvec b (bytes kl)) = Some kv' ∧
    same_shape kv kv' ∧ flat kv' = splice (flat kv) (length (flat kv) - 1) [0].
Proof.
  intros Hwf Hl Hne. rewrite last_lookup in Hl.
  assert ((pred (length kv) < length kv)%nat) by (by eapply lookup_lt_Some).
  destruct (segs_wf_lookup _ _ _ Hwf Hl) as [Hb _].
  assert (length (buf kl) ≠ 0)%nat by (by destruct (buf kl)).
  assert (Hat : at_pos kv (pred (length kv)) (length (buf kl) - 1) kl (length (flat kv) - 1)).
  { split_and!; [done|lia|]. rewrite (flat_split _ _ _ Hl) at 1.
    rewrite drop_ge, !length_app by lia. simpl. lia. }
  destruct (write_byte _ _ _ _ _ 0 Hwf Hat) as (b & kv' & k' & Hw & Hw' & Hsh & Hfl & _); [lia|].
  exists b, kv'. rewrite Hb in *.
  replace (zlen kv - 1) with (Z.of_nat (pred (length kv))) by lia.
  replace (zlen (buf kl) - 1) with (Z.of_nat (length (buf kl) - 1)) by lia.
  rewrite rd_nat. by split_and!.
Qed.

Lemma last_nonempty_shape kv kv' kl :
  same_shape kv kv' → last kv = Some kl → buf kl ≠ [] →
  ∃ kl', last kv' = Some kl' ∧ buf kl' ≠ [].
Proof.
  intros [E _] Hl Hne. apply (f_equal last) in E. rewrite !fmap_last, Hl in E.
  destruct (last kv') as [kl'|]; [|done]. simpl in E. exists kl'. split; [done|].
  intros H0. rewrite H0 in E. simpl in E. by destruct (buf kl).
Qed.

Lemma strncpy_result_cons s pos c str :
  (pos < length s)%nat →
  strncpy_result s pos (c :: str) =
    ((strncpy_result (splice s pos [c]) (S pos) str).1,
     S (strncpy_result (splice s pos [c]) (S pos) str).2).
Proof.
  intros Hp. unfold strncpy_result. cbn [length].
  rewrite length_splice by (simpl; lia).
  replace (S (length str) <? length s - pos)%nat with (length str <? length s - S pos)%nat.
  2: { destruct (Nat.ltb_spec (length str) (length s - S pos)),
         (Nat.ltb_spec (S (length str)) (length s - pos)); lia || done. }
  destruct (Nat.ltb_spec (length str) (length s - S pos)); simpl.
  - f_equal. rewrite splice_splice_adj; [done|simpl; lia|].
    rewrite length_app. simpl. lia.
  - f_equal; [|lia]. f_equal. destruct (length s - pos)%nat as [|r] eqn:Er; [lia|].
    rewrite firstn_cons. replace (length s - S pos)%nat with r by lia.
    rewrite splice_splice_adj; [done|simpl; lia|]. simpl. rewrite length_take. lia.
Qed.

Lemma loop_pos_next kv cseg k pos :
  segs_wf kv → at_pos kv cseg (length (buf k)) k pos → loop_pos kv (S cseg) 0 pos.
Proof.
  intros Hwf Hat. pose proof Hat as (Hk & _ & Hps). pose proof (lookup_lt_Some _ _ _ Hk).
  destruct (decide (S cseg = length kv)) as [He|Hne].
  - right. split; [done|]. by eapply flat_drop_all.
  - left. destruct (lookup_lt_is_Some_2 kv (S cseg)) as [k' Hk']; [lia|]. exists k'.
    split_and!; [done|lia|]. rewrite (flat_take_S _ _ _ Hk), length_app. lia.
Qed.

Lemma loop_pos_bound kv cseg off pos : loop_pos kv cseg off pos → (pos ≤ length (flat kv))%nat.
Proof. intros [[k Hat]|[_ ->]]; [|done]. apply at_pos_bound in Hat. lia. Qed.

(** Writing the terminator where the string ends inside a segment. *)
Lemma strncpy_finish kv cseg off k pos :
  segs_wf kv → at_pos kv cseg off k pos → (off < length (buf k))%nat →
  let r := strncpy_result (flat kv) pos [] in
  ∃ b kv', wr (buf k) (Z.of_nat off) 0 = Some b ∧
    wr kv (Z.of_nat cseg) (mk_kvec b (bytes k)) = Some kv' ∧
    same_shape kv kv' ∧ flat kv' = r.1 ∧ r.2 = 0%nat.
Proof.
  intros Hwf Hat Hoff r. pose proof (at_pos_bound _ _ _ _ _ Hat) as [_ Hb2].
  destruct (write_byte _ _ _ _ _ 0 Hwf Hat Hoff) as (b & kv' & _ & Hw & Hw' & Hsh & Hfl & _).
  exists b, kv'. unfold r, strncpy_result. simpl.
  destruct (Nat.ltb_spec 0 (length (flat kv) - pos)); [|lia]. by split_and!.
Qed.

(** The clipped string after its first character. *)
Lemma clipped_cons src si mx c rest :
  (si < mx)%nat → drop si src = c :: rest → c ≠ 0 → readable (drop si src) (mx - si) →
  src !! si = Some c ∧ drop (S si) src = rest ∧ readable rest (mx - S si) ∧
  clipped (c :: rest) (mx - si) = c :: clipped rest (mx - S si).
Proof.
  intros Hlt Hd Hc Hr. split_and!.
  - pose proof (lookup_drop src si 0) as Hl. rewrite Hd, Nat.add_0_r in Hl. by rewrite <- Hl.
  - replace (S si) with (si + 1)%nat by lia. by rewrite <- drop_drop, Hd.
  - rewrite Hd in Hr. destruct Hr as [Hr|Hr]; [left; simpl in Hr; lia|right].
    apply elem_of_cons in Hr as [?|?]; [congruence|done].
  - unfold clipped. simpl. destruct (Z.eqb_spec c 0); [done|].
    by replace (mx - si)%nat with (S (mx - S si)) by lia.
Qed.

Lemma strncpy_into_kvec_loop_spec fuel kv kl cseg off pos src (si mx : nat) :
  segs_wf kv → last kv = Some kl → buf kl ≠ [] → loop_pos kv cseg off pos →
  (length kv - cseg + (length (flat kv) - pos) < fuel)%nat →
  (si ≤ mx)%nat → readable (drop si src) (mx - si) →
  let r := strncpy_result (flat kv) pos (clipped (drop si src) (mx - si)) in
  ∃ kv', strncpy_into_kvec_loop fuel kv (zlen kv) (Z.of_nat cseg) (Z.of_nat off)
           src (Z.of_nat si) (Z.of_nat mx) = Some (kv', Z.of_nat (si + r.2)) ∧
    same_shape kv kv' ∧ flat kv' = r.1.
Proof.
  revert kv kl cseg off pos si. induction fuel as [|fuel IH];
    intros kv kl cseg off pos si Hwf Hlast Hne Hpos Hfuel Hsi Hrd r; [lia|].
  cbn [strncpy_into_kvec_loop]. pose proof (loop_pos_bound _ _ _ _ Hpos) as Hle.
  destruct Hpos as [[k Hat]|[-> ->]].
  2: { (* past the last segment *)
    zif; [lia|]. destruct (terminate_last _ _ Hwf Hlast Hne) as (b & kv' & -> & Hw & Hw' & Hsh & Hfl).
    simpl. rewrite Hw. simpl. rewrite Hw'. simpl. exists kv'.
    assert (r = (splice (flat kv) (length (flat kv) - 1) [0], 0%nat)) as ->.
    { unfold r, strncpy_result. rewrite Nat.sub_diag.
      zif; [lia|]. by rewrite take_0, splice_nil. }
    by rewrite Nat.add_0_r. }
  pose proof Hat as (Hk & Hoff & Hps). pose proof (lookup_lt_Some _ _ _ Hk).
  destruct (segs_wf_lookup _ _ _ Hwf Hk) as [Hb Hl].
  zif; [|lia]. rewrite (rd_nat kv), Hk. simpl. rewrite u32_small by lia.
  destruct (Z.leb_spec (bytes k) (Z.of_nat off)) as [Hfull|Hfit].
  { (* the segment is full *)
    assert (off = length (buf k)) as -> by lia. rewrite Z.add_1_r, <- Nat2Z.inj_succ.
    apply (IH _ kl _ 0%nat); try done; [by eapply loop_pos_next|lia]. }
  pose proof (at_pos_bound _ _ _ _ _ Hat) as [_ Hb2].
  destruct (strncpy_finish _ _ _ _ _ Hwf Hat) as (b0 & kv0 & Hw0 & Hw0' & Hsh0 & Hfl0 & Hr0); [lia|].
  destruct (Z.leb_spec (Z.of_nat mx) (Z.of_nat si)) as [Hmax|Hmore].
  { unfold r, clipped. replace (mx - si)%nat with 0%nat by lia. rewrite take_0, Hr0.
    rewrite Hw0. simpl. rewrite Hw0'. simpl. exists kv0. by rewrite Nat.add_0_r. }
  destruct (drop si src) as [|c rest] eqn:Hdrop.
  { exfalso. destruct Hrd as [Hrd|Hrd]; [simpl in Hrd; lia|]. by apply elem_of_nil in Hrd. }
  destruct (decide (c = 0)) as [->|Hcz].
  { pose proof (lookup_drop src si 0) as Hl0. rewrite Hdrop, Nat.add_0_r in Hl0.
    rewrite rd_nat, <- Hl0. simpl. unfold r, clipped. simpl. rewrite take_nil, Hr0.
    rewrite Hw0. simpl. rewrite Hw0'. simpl. exists kv0. by rewrite Nat.add_0_r. }
  rewrite <- Hdrop in Hrd.
  destruct (clipped_cons src si mx c rest) as (Hc & Hrest & Hrd' & Hcl); [lia|done..|].
  rewrite rd_nat, Hc. simpl.
  destruct (write_byte _ _ _ _ _ c Hwf Hat) as (b & kv' & k' & -> & Hw' & Hsh & Hfl & Hat' & Hlk); [lia|].
  simpl. rewrite Hw'. simpl. rewrite (proj2 (Z.eqb_neq c 0) Hcz).
  destruct (last_nonempty_shape _ _ _ Hsh Hlast Hne) as (kl' & Hlast' & Hne').
  pose proof (same_shape_length _ _ Hsh) as Hkl. pose proof (same_shape_flat _ _ Hsh) as Hfll.
  rewrite <- Hrest in Hrd'.
  destruct (IH kv' kl' cseg (S off) (S pos) (S si)) as (kv'' & Heq & Hsh' & Hfl');
    [apply Hsh|done|done|left; by exists k'|lia|lia|done|].
  exists kv''. unfold r. rewrite Hcl, strncpy_result_cons by lia. rewrite Hrest, Hfl in *. simpl.
  split_and!; [|by eapply same_shape_trans|done].
  rewrite Hkl in Heq. rewrite !Z.add_1_r, <- !Nat2Z.inj_succ, Heq. do 2 f_equal. lia.
Qed.

Lemma flat_last_nonempty kv kl : last kv = Some kl → buf kl ≠ [] → (0 < length (flat kv))%nat.
Proof.
  intros Hl Hne. rewrite last_lookup in Hl. rewrite (flat_split _ _ _ Hl), !length_app.
  destruct (buf kl); [done|simpl; lia].
Qed.

(** Either outcome leaves a NUL at or after the start of the copy, or at the
    very end of the segments. *)
Lemma strncpy_result_terminated s pos str :
  (pos ≤ length s)%nat → (0 < length s)%nat →
  let r := strncpy_result s pos str in
  length r.1 = length s ∧ r.1 !! ((pos + r.2) `min` (length s - 1))%nat = Some 0.
Proof.
  intros Hp H0 r. unfold r, strncpy_result.
  destruct (Nat.ltb_spec (length str) (length s - pos)) as [Hlt|Hge]; simpl.
  - rewrite length_splice by (rewrite length_app; simpl; lia). split; [done|].
    rewrite lookup_splice by (rewrite length_app; simpl; lia). rewrite length_app. simpl.
    zif; [lia|]. zif; [|lia]. rewrite lookup_app_r by lia.
    by replace (_ - _ - _)%nat with 0%nat by lia.
  - assert (Hl : length (splice s pos (take (length s - pos) str)) = length s)
      by (apply length_splice; rewrite length_take; lia).
    rewrite length_splice by (simpl; lia). split; [done|].
    rewrite lookup_splice by (simpl; lia). simpl. zif; [lia|]. zif; [|lia].
    by replace (_ - _)%nat with 0%nat by lia.
Qed.

(** [strncpy_into_kvec] copies the source string, clipped to [max] bytes,
    and a terminating NUL across the segments from the given offset; when they
    do not fit it fills the segments and forces the last byte to NUL.  Either
    way it returns, stays inside the segments, reports the number of
    characters placed, and the byte after them (the last byte of the segments
    at the latest) is NUL. *)
Theorem strncpy_into_kvec_result kv k kl off src (mx : nat) :
  segs_wf kv → kv !! 0%nat = Some k → (off ≤ length (buf k))%nat →
  last kv = Some kl → buf kl ≠ [] → readable src mx →
  ∃ kv' n, strncpy_into_kvec kv (zlen kv) (Z.of_nat off) src (Z.of_nat mx) =
             Some (kv', Z.of_nat n) ∧
    (flat kv', n) = strncpy_result (flat kv) off (clipped src mx) ∧ segs_wf kv' ∧
    flat kv' !! ((off + n) `min` (length (flat kv) - 1))%nat = Some 0.
Proof.
  intros Hwf Hk Hoff Hl Hne Hrd. assert (Hat : at_pos kv 0 off k off) by done.
  destruct (strncpy_into_kvec_loop_spec (S (length kv + length (flat kv))) kv kl 0 off off src 0 mx)
    as (kv' & Heq & Hsh & Hfl); [done|done|done|left; by exists k|lia|lia| |].
  { by rewrite Nat.sub_0_r. }
  rewrite Nat.sub_0_r in *. destruct (strncpy_result_terminated (flat kv) off (clipped src mx))
    as [_ Hz]; [|by eapply flat_last_nonempty|].
  { apply at_pos_bound in Hat. lia. }
  do 2 eexists. split; [exact Heq|]. rewrite Hfl. split_and!; [|apply Hsh|done].
  by destruct (strncpy_result _ _ _).
Qed.

Lemma strncpy_into_kvec_result_witness :
  ∃ kv' n, strncpy_into_kvec example_segs 3 1 [72; 105; 0; 1] 10 = Some (kv', Z.of_nat n) ∧
    (flat kv', n) = ([0; 72; 105; 0; 9], 2%nat).
Proof.
  destruct (strncpy_into_kvec_result example_segs (mk_kvec [0; 0; 0] 3) (mk_kvec [9; 9] 2)
    1 [72; 105; 0; 1] 10) as (kv' & n & H1 & H2 & _).
  - unfold segs_wf, kvec_wf, example_segs. split; [by repeat constructor|vm_compute; reflexivity].
  - reflexivity.
  - simpl. lia.
  - reflexivity.
  - discriminate.
  - right. set_solver.
  - exists kv', n. split; [exact H1|exact H2].
Defined.

(** The current segment still has a byte (always so in a user buffer). *)
Definition in_segment (it : iovec_iter) : Prop :=
  match it_data it with
  | ITER_KVEC segs => ∃ k, rd segs (cur_seg it) = Some k ∧ seg_offset it < bytes k
  | _ => True
  end.

(** Stepping over one byte of segment [k]. *)
Lemma bump_position_rel it s pos segs cseg off k :
  it_data it = ITER_KVEC segs → it_length it = zlen s → zlen s < 2 ^ 31 →
  segs_wf segs → flat segs = s → num_segs it = zlen segs →
  at_pos segs cseg off k pos → (off < length (buf k))%nat → (S pos < length s)%nat →
  cur_seg it = Z.of_nat cseg → seg_offset it = Z.of_nat off →
  seg_start it = zlen (flat (take cseg segs)) →
  iter_rel (bump_position it (bytes k)) s (S pos).
Proof.
  intros Hd Hlen Hs Hwf <- Hn Hat Hoff Hps Hc Ho Hst.
  pose proof Hat as (Hk & _ & Hp). destruct (segs_wf_lookup _ _ _ Hwf Hk) as [Hb Hl].
  unfold bump_position. rewrite Ho, Hst, Hc, Hb, u32_small by lia.
  unfold iter_rel. zif; simpl; rewrite Hd; (split_and!; try first [done|lia]).
  - assert (Hoff' : S off = length (buf k)) by lia.
    assert (Hat' : at_pos segs cseg (length (buf k)) k (S pos)) by (split_and!; [done|lia..]).
    destruct (loop_pos_next _ _ _ _ Hwf Hat') as [[k' Hat'']|[_ He]]; [|lia].
    exists (S cseg), 0%nat, k'. split_and!; [done|lia|done|].
    rewrite (flat_take_S _ _ _ Hk), length_app, u32_small; [lia|].
    pose proof (flat_take_le segs (S cseg)) as Hle.
    rewrite (flat_take_S _ _ _ Hk), length_app in Hle. lia.
  - exists cseg, (S off), k. split_and!; [split_and!; [done|lia..]|done|lia|done].
Qed.

(** [copy_uint8_into_iter] and [copy_uint8_out_of_iter] write and read the
    byte at the position and move past it, crossing to the next segment when
    the current one is used up, as long as a byte remains after it. *)
Theorem copy_uint8_iter_spec it s pos byte :
  iter_rel it s pos → in_segment it → (S pos < length s)%nat →
  (∃ it', copy_uint8_into_iter it byte = Some (it', 1) ∧
          iter_rel it' (splice s pos [byte]) (S pos)) ∧
  (∃ it' c, copy_uint8_out_of_iter it = Some (it', c) ∧ s !! pos = Some c ∧
            iter_rel it' s (S pos)).
Proof.
  intros (Hlen & Hp & Hs & H) Hin Hps. unfold copy_uint8_into_iter, copy_uint8_out_of_iter.
  unfold in_segment in Hin. assert (Hsl : length (splice s pos [byte]) = length s)
    by (apply length_splice; simpl; lia).
  destruct (it_data it) as [b m|segs|] eqn:Hd; [| |done].
  - destruct H as (-> & -> & Hst & Ho). rewrite Ho, Hst, wr_in_range by lia.
    rewrite rd_nat, Nat2Z.id, insert_splice by lia.
    destruct (lookup_lt_is_Some_2 s pos) as [c Hc]; [lia|]. rewrite Hc. simpl.
    rewrite u32_small by lia. split.
    + eexists. split; [done|]. unfold iter_rel. simpl. rewrite Hsl. split_and!; first [done|lia].
    + do 2 eexists. split; [done|]. split; [done|]. unfold iter_rel. simpl. rewrite Hd.
      split_and!; first [done|lia].
  - destruct H as (Hwf & <- & Hn & cseg & off & k & Hat & Hc & Ho & Hst).
    destruct Hin as (k0 & Hk0 & Hoff). rewrite Hc, rd_nat in Hk0. pose proof Hat as (Hk & _ & Hpos).
    rewrite Hk0 in Hk. injection Hk as ->. destruct (segs_wf_lookup _ _ _ Hwf Hk0) as [Hb Hl].
    pose proof (lookup_lt_Some _ _ _ Hk0). rewrite Hn, Hc, Ho. zif; [lia|].
    rewrite (rd_nat segs), Hk0. simpl. split.
    + destruct (write_byte _ _ _ _ _ byte Hwf Hat) as (b & kv' & k' & -> & Hw & Hsh & Hfl & Hat' & Hlk); [lia|].
      simpl. rewrite Hw. simpl. eexists. split; [done|].
      destruct (at_pos_shape _ _ _ _ _ _ Hsh Hat) as (Htl & k2 & Hat2).
      assert (k2 = k') as -> by (destruct Hat2 as (E1 & _), Hat' as (E2 & _); congruence).
      assert (Hb' : bytes k' = bytes k).
      { destruct Hat2 as (E1 & _). destruct Hsh as [_ Hwf'].
        destruct (segs_wf_lookup _ _ _ Hwf' E1) as [-> _]. by rewrite Hlk. }
      rewrite <- Hb'. pose proof (same_shape_length _ _ Hsh).
      apply (bump_position_rel _ _ _ kv' cseg off); simpl; rewrite ?Hsl, ?Htl;
        first [done|lia|apply Hsh].
    + destruct (lookup_lt_is_Some_2 (buf k) off) as [c Hcc]; [lia|].
      rewrite rd_nat, Hcc. simpl. do 2 eexists. split; [done|]. split.
      * rewrite (flat_split _ _ _ Hk0), Hpos, lookup_app_r by lia.
        rewrite Nat.add_sub_swap, Nat.sub_diag by lia. rewrite lookup_app_l by lia. done.
      * apply (bump_position_rel _ _ _ segs cseg off); first [done|lia].
Qed.

Lemma copy_uint8_iter_spec_witness :
  ∃ it', copy_uint8_into_iter example_iter 42 = Some (it', 1) ∧
         iter_rel it' [42; 0; 0; 9; 9] 1.
Proof.
  apply (copy_uint8_iter_spec example_iter [0; 0; 0; 9; 9] 0 42).
  - apply example_iter_rel.
  - exists (mk_kvec [0; 0; 0] 3). split; reflexivity.
  - simpl. lia.
Defined.

(** Reading a string out: at most [mx] bytes of [str] from index [di] of the
    destination on, NUL at the end, or over the last byte when [str] is cut. *)
Definition strncpy_out_result (dest : list Z) (di mx : nat) (str : list Z) : list Z * nat :=
  if (length str <? mx - di)%nat then (splice dest di (str ++ [0]), (di + length str)%nat)
  else (splice (splice dest di (take (mx - di) str)) (mx - 1) [0], mx).

Lemma strncpy_out_result_cons dest di mx c str :
  (di < mx ≤ length dest)%nat →
  strncpy_out_result dest di mx (c :: str) = strncpy_out_result (splice dest di [c]) (S di) mx str.
Proof.
  intros Hd. unfold strncpy_out_result. cbn [length].
  replace (S (length str) <? mx - di)%nat with (length str <? mx - S di)%nat.
  2: { destruct (Nat.ltb_spec (length str) (mx - S di)), (Nat.ltb_spec (S (length str)) (mx - di));
         lia || done. }
  destruct (Nat.ltb_spec (length str) (mx - S di)).
  - rewrite splice_splice_adj; [f_equal; simpl; lia|simpl; lia|].
    rewrite length_app. simpl. lia.
  - f_equal. f_equal. destruct (mx - di)%nat as [|r] eqn:Er; [lia|].
    rewrite firstn_cons. replace (mx - S di)%nat with r by lia.
    rewrite splice_splice_adj; [done|simpl; lia|]. simpl. rewrite length_take. lia.
Qed.

Lemma flat_lookup kv cseg off k pos :
  at_pos kv cseg off k pos → (off < length (buf k))%nat → flat kv !! pos = buf k !! off.
Proof.
  intros (Hk & _ & ->) Ho. rewrite (flat_split _ _ _ Hk), lookup_app_r by lia.
  rewrite Nat.add_sub_swap, Nat.sub_diag by lia. by rewrite lookup_app_l by lia.
Qed.

Lemma strncpy_out_of_kvec_loop_spec fuel kv cseg off pos dest (di mx : nat) :
  segs_wf kv → loop_pos kv cseg off pos → 0 ∈ drop pos (flat kv) →
  (length kv - cseg + (length (flat kv) - pos) < fuel)%nat →
  (di ≤ mx ≤ length dest)%nat → (0 < mx)%nat →
  let r := strncpy_out_result dest di mx (cstring (drop pos (flat kv))) in
  strncpy_out_of_kvec_loop fuel kv (zlen kv) (Z.of_nat cseg) (Z.of_nat off)
    dest (Z.of_nat di) (Z.of_nat mx) = Some (kv, r.1, Z.of_nat r.2).
Proof.
  intros Hwf. revert cseg off pos dest di. induction fuel as [|fuel IH];
    intros cseg off pos dest di Hpos Hnul Hfuel Hdi Hmx r; [lia|].
  cbn [strncpy_out_of_kvec_loop]. pose proof (loop_pos_bound _ _ _ _ Hpos) as Hle.
  destruct Hpos as [[k Hat]|[-> ->]].
  2: { rewrite drop_ge in Hnul by lia. by apply elem_of_nil in Hnul. }
  pose proof Hat as (Hk & Hoff & Hps). pose proof (lookup_lt_Some _ _ _ Hk).
  destruct (segs_wf_lookup _ _ _ Hwf Hk) as [Hb Hl].
  zif; [|lia]. rewrite (rd_nat kv), Hk. simpl. rewrite u32_small by lia.
  destruct (Z.leb_spec (bytes k) (Z.of_nat off)) as [Hfull|Hfit].
  { assert (off = length (buf k)) as -> by lia. rewrite Z.add_1_r, <- Nat2Z.inj_succ.
    apply (IH _ 0%nat); try done; [by eapply loop_pos_next|lia]. }
  pose proof (at_pos_bound _ _ _ _ _ Hat) as [_ Hb2].
  destruct (Z.leb_spec (Z.of_nat mx) (Z.of_nat di)) as [Hmax|Hmore].
  { rewrite wr_in_range by lia. simpl. unfold r, strncpy_out_result.
    replace (mx - di)%nat with 0%nat by lia. zif; [lia|].
    rewrite insert_splice by lia. rewrite take_0, splice_nil. simpl. do 2 f_equal; [|lia].
    do 2 f_equal. lia. }
  pose proof (flat_lookup _ _ _ _ _ Hat) as Hc.
  destruct (lookup_lt_is_Some_2 (buf k) off) as [c Hbc]; [lia|].
  rewrite Hbc in Hc. rewrite rd_nat, Hbc. simpl. rewrite wr_in_range by lia. simpl.
  rewrite Nat2Z.id, insert_splice by lia.
  unfold r. rewrite (drop_S _ _ _ (Hc ltac:(lia))) in *. cbn [cstring].
  destruct (Z.eqb_spec c 0) as [->|Hcz].
  { unfold strncpy_out_result. simpl. destruct (Nat.ltb_spec 0 (mx - di)); [|lia].
    simpl. by rewrite Nat.add_0_r. }
  rewrite strncpy_out_result_cons by lia.
  rewrite !Z.add_1_r, <- !Nat2Z.inj_succ. apply IH; try done.
  - left. exists k. split_and!; [done|lia..].
  - apply elem_of_cons in Hnul as [?|?]; [congruence|done].
  - lia.
  - rewrite length_splice; simpl; lia.
Qed.

(** When the segments hold a NUL terminated string at the offset,
    [strncpy_out_of_kvec] copies it with its terminator, or, when it needs
    more than [max] bytes, its first [max - 1] characters and a NUL; the
    destination always holds a terminated string and the source is unchanged. *)
Theorem strncpy_out_of_kvec_result kv k off dest (mx : nat) :
  segs_wf kv → kv !! 0%nat = Some k → (off ≤ length (buf k))%nat →
  0 ∈ drop off (flat kv) → (0 < mx ≤ length dest)%nat →
  let str := cstring (drop off (flat kv)) in
  strncpy_out_of_kvec kv (zlen kv) (Z.of_nat off) dest (Z.of_nat mx) =
    Some (if (length str <? mx)%nat then (kv, splice dest 0 (str ++ [0]), zlen str)
          else (kv, splice (splice dest 0 (take mx str)) (mx - 1) [0], Z.of_nat mx)).
Proof.
  intros Hwf Hk Hoff Hnul Hmx str. assert (Hat : at_pos kv 0 off k off) by done.
  pose proof (strncpy_out_of_kvec_loop_spec (S (length kv + length (flat kv))) kv 0 off off
    dest 0 mx Hwf) as H.
  unfold strncpy_out_of_kvec. change 0 with (Z.of_nat 0). rewrite H; clear H;
    [|left; by exists k|done|lia|lia|lia].
  unfold strncpy_out_result. rewrite Nat.sub_0_r. subst str. by zif.
Qed.

Lemma strncpy_out_of_kvec_result_witness :
  strncpy_out_of_kvec [mk_kvec [9; 72] 2; mk_kvec [105; 0; 7] 3] 2 1 [5; 5; 5; 5; 5] 4 =
    Some ([mk_kvec [9; 72] 2; mk_kvec [105; 0; 7] 3], [72; 105; 0; 5; 5], 2).
Proof.
  refine (strncpy_out_of_kvec_result _ (mk_kvec [9; 72] 2) 1 _ 4 _ _ _ _ _).
  - split; [by repeat constructor|vm_compute; reflexivity].
  - reflexivity.
  - simpl. lia.
  - simpl. set_solver.
  - simpl. lia.
Defined.

(** When the segments hold no NUL, the closing store of [strncpy_out_of_kvec]
    hits the source's last byte instead of the destination's. *)
Lemma strncpy_out_of_kvec_clobbers_source :
  strncpy_out_of_kvec [mk_kvec [65; 66] 2] 1 0 [9; 9; 9; 9] 4 =
    Some ([mk_kvec [65; 0] 2], [65; 66; 9; 9], 2).
Proof. reflexivity. Qed.

(** The guard of the single byte copies lets [cur_seg = num_segs] through: the
    byte after the last one is an access outside the array of segments. *)
Lemma copy_uint8_guard_off_by_one :
  ∃ it', copy_uint8_into_iter (iovec_iter_init_simple_kvec [0] 1) 7 = Some (it', 1) ∧
         iovec_iter_remaining it' = 0 ∧ copy_uint8_into_iter it' 8 = None.
Proof. eexists. split; [reflexivity|]. split; reflexivity. Qed.
