(* ===== verification/Ringbuffer.v ===== *)
(** * Ringbuffer: the byte FIFO of the tty, serial and network code
      (include/kernel/utils/ringbuffer.h)

    [in] and [out] are indices into a circular buffer of [max] bytes, one slot
    of which stays free to tell a full buffer from an empty one.  The reference
    model is the list of the queued bytes ([contents]). *)

From S2P Require Import Prelude Iovec.

Definition RING_BUFFER_SIZE : Z := 512.

Record ringbuffer := mk_rb { rb_max : Z; rb_in : Z; rb_out : Z; buffer : list Z }.

(** ** The operations *)

Definition _buf_init (cb : ringbuffer) (total_size : Z) : ringbuffer :=
  mk_rb (s16 (if total_size =? 0 then RING_BUFFER_SIZE else total_size - 2 * 3)) 0 0 (buffer cb).

Definition _buf_next_in (cb : ringbuffer) : Z :=
  s16 (if rb_in cb + 1 <? rb_max cb then rb_in cb + 1 else 0).

Definition _buf_is_full (cb : ringbuffer) : bool := _buf_next_in cb =? rb_out cb.
Definition _buf_is_empty (cb : ringbuffer) : bool := rb_in cb =? rb_out cb.

Definition _buf_used_space (cb : ringbuffer) : Z :=
  s16 (if rb_out cb <=? rb_in cb then rb_in cb - rb_out cb
       else rb_max cb - rb_out cb + rb_in cb).

Definition _buf_free_space (cb : ringbuffer) : Z :=
  s16 (if rb_in cb <? rb_out cb then rb_out cb - rb_in cb - 1
       else rb_max cb - rb_in cb + rb_out cb - 1).

Definition set_in (cb : ringbuffer) (i : Z) : ringbuffer :=
  mk_rb (rb_max cb) i (rb_out cb) (buffer cb).
Definition set_out (cb : ringbuffer) (o : Z) : ringbuffer :=
  mk_rb (rb_max cb) (rb_in cb) o (buffer cb).
Definition set_buffer (cb : ringbuffer) (b : list Z) : ringbuffer :=
  mk_rb (rb_max cb) (rb_in cb) (rb_out cb) b.

(** [ch = buffer[out++]; if (out >= max) out = 0;] *)
Definition take_out (cb : ringbuffer) : option (ringbuffer * Z) :=
  ch ← rd (buffer cb) (rb_out cb);
  let o := s16 (rb_out cb + 1) in
  Some (set_out cb (if rb_max cb <=? o then 0 else o), ch).

Definition _buf_get_char (cb : ringbuffer) : option (ringbuffer * Z) :=
  if rb_out cb =? rb_in cb then Some (cb, -1) else take_out cb.

Definition _buf_put_char (cb : ringbuffer) (ch : Z) : option (ringbuffer * Z) :=
  let next := _buf_next_in cb in
  if next =? rb_out cb then Some (cb, -1)
  else
    b ← wr (buffer cb) (rb_in cb) ch;
    Some (set_in (set_buffer cb b) next, ch).

(** The [for] loops run [n] more times, with index [i]. *)
Fixpoint _buf_get_loop (n : nat) (cb : ringbuffer) (data : list Z) (i : Z) :
    option (ringbuffer * list Z * Z) :=
  match n with
  | O => Some (cb, data, i)
  | S n =>
      if rb_out cb =? rb_in cb then Some (cb, data, i)
      else
        '(cb', ch) ← take_out cb;
        data' ← wr data i ch;
        _buf_get_loop n cb' data' (i + 1)
  end.

Definition _buf_get (cb : ringbuffer) (data : list Z) (size : Z) :
    option (ringbuffer * list Z * Z) := _buf_get_loop (Z.to_nat size) cb data 0.

Fixpoint _buf_peek_loop (n : nat) (cb : ringbuffer) (data : list Z) (i j : Z) :
    option (list Z * Z) :=
  match n with
  | O => Some (data, i)
  | S n =>
      if j =? rb_in cb then Some (data, i)
      else
        ch ← rd (buffer cb) j;
        data' ← wr data i ch;
        let j := s16 (j + 1) in
        _buf_peek_loop n cb data' (i + 1) (if rb_max cb <=? j then 0 else j)
  end.

Definition _buf_peek (cb : ringbuffer) (data : list Z) (offset size : Z) :
    option (list Z * Z) :=
  let avail := _buf_used_space cb in
  let offset := if avail <? offset then avail else offset in
  let j := s16 (rb_out cb + offset) in
  let j := if rb_max cb <? j then s16 (j - rb_max cb) else j in
  _buf_peek_loop (Z.to_nat size) cb data 0 j.

Fixpoint _buf_put_loop (n : nat) (cb : ringbuffer) (data : list Z) (i : Z) :
    option (ringbuffer * Z) :=
  match n with
  | O => Some (cb, i)
  | S n =>
      ch ← rd data i;
      b ← wr (buffer cb) (rb_in cb) ch;
      let cb' := set_buffer cb b in
      let next := _buf_next_in cb' in
      if next =? rb_out cb' then Some (cb', i)
      else _buf_put_loop n (set_in cb' next) data (i + 1)
  end.

Definition _buf_put (cb : ringbuffer) (data : list Z) (size : Z) : option (ringbuffer * Z) :=
  _buf_put_loop (Z.to_nat size) cb data 0.

Definition _buf_drop (cb : ringbuffer) (size : Z) : ringbuffer * Z :=
  let avail := _buf_used_space cb in
  let size := if avail <? size then avail else size in
  let o := s16 (rb_out cb + size) in
  (set_out cb (if rb_max cb <=? o then s16 (o - rb_max cb) else o), size).

(** [memcpy_into_iter(iter, &buffer[i], n)] and back. *)
Definition copy_to_iter (cb : ringbuffer) (it : iovec_iter) (i n : Z) : option iovec_iter :=
  src ← rd_range (buffer cb) i (zlen (buffer cb) - i);
  '(it', _) ← memcpy_into_iter it src (u32 n);
  Some it'.

Definition copy_from_iter (cb : ringbuffer) (it : iovec_iter) (i n : Z) :
    option (ringbuffer * iovec_iter) :=
  dest ← rd_range (buffer cb) i (zlen (buffer cb) - i);
  '(it', dest', _) ← memcpy_out_of_iter it dest (u32 n);
  b ← wr_range (buffer cb) i dest';
  Some (set_buffer cb b, it').

Definition _buf_get_iter (cb : ringbuffer) (it : iovec_iter) :
    option (ringbuffer * iovec_iter * Z) :=
  let size := iovec_iter_remaining it in
  let chunk1 :=
    s16 (if rb_out cb <? rb_in cb
         then (if u32 (rb_in cb - rb_out cb) <? size then rb_in cb - rb_out cb else size)
         else (if u32 (rb_max cb - rb_out cb) <? size then rb_max cb - rb_out cb else size)) in
  it1 ← copy_to_iter cb it (rb_out cb) chunk1;
  let o := s16 (rb_out cb + chunk1) in
  let cb1 := set_out cb (if rb_max cb <=? o then 0 else o) in
  let size := u32 (size - chunk1) in
  if (size <=? 0) || (rb_out cb1 =? rb_in cb1) then Some (cb1, it1, chunk1)
  else
    let chunk2 :=
      s16 (if u32 (rb_in cb1 - rb_out cb1) <? size then rb_in cb1 - rb_out cb1 else size) in
    it2 ← copy_to_iter cb1 it1 (rb_out cb1) chunk2;
    Some (set_out cb1 (s16 (rb_out cb1 + chunk2)), it2, s16 (chunk1 + chunk2)).

Definition _buf_put_iter (cb : ringbuffer) (it : iovec_iter) :
    option (ringbuffer * iovec_iter * Z) :=
  let size := iovec_iter_remaining it in
  let chunk1 :=
    s16 (if rb_in cb <? rb_out cb
         then (if u32 (rb_out cb - rb_in cb - 1) <? size then rb_out cb - rb_in cb - 1 else size)
         else (if u32 (rb_max cb - rb_in cb) <? size
               then rb_max cb - rb_in cb - (if rb_out cb =? 0 then 1 else 0) else size)) in
  '(cb1, it1) ← copy_from_iter cb it (rb_in cb) chunk1;
  let i := s16 (rb_in cb1 + chunk1) in
  let cb2 := set_in cb1 (if rb_max cb1 <=? i then 0 else i) in
  let size := u32 (size - chunk1) in
  if (size <=? 0) || (rb_in cb2 + 1 =? rb_out cb2) || (rb_in cb2 + 1 =? rb_max cb2)
  then Some (cb2, it1, chunk1)
  else
    let chunk2 :=
      s16 (if u32 (rb_out cb2 - rb_in cb2 - 1) <? size then rb_out cb2 - rb_in cb2 - 1 else size) in
    '(cb3, it2) ← copy_from_iter cb2 it1 (rb_in cb2) chunk2;
    Some (set_in cb3 (s16 (rb_in cb3 + chunk2)), it2, s16 (chunk1 + chunk2)).

(** ** Invariant and contents *)

Definition rb_wf (cb : ringbuffer) : Prop :=
  0 ≤ rb_in cb < rb_max cb ∧ 0 ≤ rb_out cb < rb_max cb ∧
  rb_max cb ≤ zlen (buffer cb) ∧ zlen (buffer cb) < 2 ^ 14.

Definition contents (cb : ringbuffer) : list Z :=
  let i := Z.to_nat (rb_in cb) in
  let o := Z.to_nat (rb_out cb) in
  if rb_out cb <=? rb_in cb then slice (buffer cb) o (i - o)
  else slice (buffer cb) o (Z.to_nat (rb_max cb) - o) ++ slice (buffer cb) 0 i.

(** The same with natural number indices. *)
Definition cont (m i o : nat) (b : list Z) : list Z :=
  if (o <=? i)%nat then slice b o (i - o) else slice b o (m - o) ++ slice b 0 i.

Definition wrapi (m x : nat) : nat := if (m <=? x)%nat then 0%nat else x.

Record rb_nat (cb : ringbuffer) (m i o : nat) : Prop := mk_rb_nat {
  rbn_max : rb_max cb = Z.of_nat m;
  rbn_in : rb_in cb = Z.of_nat i;
  rbn_out : rb_out cb = Z.of_nat o;
  rbn_i : (i < m)%nat;
  rbn_o : (o < m)%nat;
  rbn_m : (m ≤ length (buffer cb))%nat;
  rbn_l : zlen (buffer cb) < 2 ^ 14
}.

Lemma rb_wf_nat cb : rb_wf cb ↔ ∃ m i o, rb_nat cb m i o.
Proof.
  split.
  - intros (Hi & Ho & Hm & Hl).
    exists (Z.to_nat (rb_max cb)), (Z.to_nat (rb_in cb)), (Z.to_nat (rb_out cb)). split; lia.
  - intros (m & i & o & []). unfold rb_wf. lia.
Qed.

Lemma contents_nat cb m i o : rb_nat cb m i o → contents cb = cont m i o (buffer cb).
Proof.
  intros [Em Ei Eo ? ? ? ?]. unfold contents, cont. rewrite Em, Ei, Eo, !Nat2Z.id.
  destruct (Nat.leb_spec o i); zif; lia || done.
Qed.

Lemma length_cont m i o b :
  (i < m)%nat → (o < m)%nat → (m ≤ length b)%nat →
  length (cont m i o b) = if (o <=? i)%nat then (i - o)%nat else (m - o + i)%nat.
Proof. intros. unfold cont. zif; rewrite ?length_app, !length_slice; lia. Qed.

(** Reading [n] bytes from [out] on, up to [in] or the end of the buffer. *)
Lemma cont_out m i o b n :
  (i < m)%nat → (o < m)%nat → (m ≤ length b)%nat →
  (n ≤ if (o <=? i)%nat then i - o else m - o)%nat →
  slice b o n = take n (cont m i o b) ∧
  cont m i (wrapi m (o + n)) b = drop n (cont m i o b).
Proof.
  intros Hi Ho Hm Hn. unfold cont, wrapi. destruct (Nat.leb_spec o i).
  - rewrite take_slice, drop_slice. split; [f_equal; lia|].
    destruct (Nat.leb_spec m (o + n)); [lia|]. zif; [f_equal; lia|lia].
  - rewrite take_app_le, drop_app_le by (rewrite length_slice; lia).
    rewrite take_slice, drop_slice. split; [f_equal; lia|].
    destruct (Nat.leb_spec m (o + n)).
    + assert (n = m - o)%nat as -> by lia. zif; [|lia].
      rewrite Nat.sub_diag, slice_0, Nat.sub_0_r. done.
    + zif; [lia|]. do 2 f_equal. lia.
Qed.

(** Writing [bs] from [in] on, up to the byte before [out] or the end. *)
Lemma cont_in m i o b bs :
  (i < m)%nat → (o < m)%nat → (m ≤ length b)%nat →
  (length bs ≤ if (i <? o)%nat then o - i - 1 else m - i - (if (o =? 0)%nat then 1 else 0))%nat →
  cont m (wrapi m (i + length bs)) o (splice b i bs) = cont m i o b ++ bs.
Proof.
  intros Hi Ho Hm Hn. unfold cont, wrapi.
  assert (Hsl : (i + length bs ≤ length b)%nat) by (repeat zif_in Hn; lia).
  destruct (Nat.ltb_spec i o).
  - destruct (Nat.leb_spec o i); [lia|]. destruct (Nat.leb_spec m (i + length bs)); [lia|].
    zif; [lia|]. rewrite slice_splice_disjoint by (done || lia). rewrite <- app_assoc. f_equal.
    pose proof (slice_splice_tail b i bs 0 Hsl) as Ht. rewrite Nat.sub_0_r in Ht. apply Ht. lia.
  - destruct (Nat.leb_spec o i); [|lia]. destruct (Nat.leb_spec m (i + length bs)).
    + assert ((o =? 0)%nat = false) as Hz by (zif_in Hn; lia). rewrite Hz in Hn.
      zif; [lia|]. rewrite slice_0, app_nil_r.
      replace (m - o)%nat with (i - o + length bs)%nat by lia. by apply slice_splice_tail.
    + zif; [|lia]. replace (i + length bs - o)%nat with (i - o + length bs)%nat by lia.
      by apply slice_splice_tail.
Qed.

(** The free slot at [in] is not part of the contents. *)
Lemma cont_slot m i o b c :
  (i < m)%nat → (o < m)%nat → (m ≤ length b)%nat →
  cont m i o (<[i := c]> b) = cont m i o b.
Proof.
  intros. rewrite insert_splice by lia. unfold cont. zif.
  - rewrite slice_splice_disjoint; [done|simpl; lia|lia].
  - rewrite !slice_splice_disjoint; [done|simpl; lia..].
Qed.

(** ** Functional specifications *)

Lemma used_space_spec cb : rb_wf cb → _buf_used_space cb = zlen (contents cb).
Proof.
  intros (m & i & o & H)%rb_wf_nat. rewrite (contents_nat _ _ _ _ H).
  destruct H as [Em Ei Eo Hi Ho Hm Hl]. rewrite length_cont by done.
  unfold _buf_used_space. rewrite Em, Ei, Eo.
  destruct (Nat.leb_spec o i); zif; try lia; rewrite s16_small; lia.
Qed.

Lemma free_space_spec cb :
  rb_wf cb → _buf_free_space cb = rb_max cb - 1 - zlen (contents cb).
Proof.
  intros Hwf. rewrite <- (used_space_spec _ Hwf). destruct Hwf as (Hi & Ho & Hm & Hl).
  unfold _buf_free_space, _buf_used_space. repeat zif; rewrite !s16_small; lia.
Qed.

Lemma next_in_nat cb m i o : rb_nat cb m i o → _buf_next_in cb = Z.of_nat (wrapi m (S i)).
Proof.
  intros [Em Ei Eo Hi Ho Hm Hl]. unfold _buf_next_in, wrapi. rewrite Em, Ei.
  destruct (Nat.leb_spec m (S i)); zif; try lia; rewrite s16_small; lia.
Qed.

(** The next write position meets [out] exactly when no space is left. *)
Lemma full_nat cb m i o :
  rb_nat cb m i o → (wrapi m (S i) = o ↔ length (contents cb) = (m - 1)%nat).
Proof.
  intros H. rewrite (contents_nat _ _ _ _ H). destruct H as [Em Ei Eo Hi Ho Hm Hl].
  rewrite length_cont by done. unfold wrapi. repeat zif; lia.
Qed.

Lemma empty_nat cb m i o : rb_nat cb m i o → (o = i ↔ contents cb = []).
Proof.
  intros H. rewrite (contents_nat _ _ _ _ H), <- length_zero_iff_nil.
  destruct H as [Em Ei Eo Hi Ho Hm Hl]. rewrite length_cont by done. zif; lia.
Qed.

Lemma take_out_spec cb m i o :
  rb_nat cb m i o → o ≠ i →
  ∃ c cb', take_out cb = Some (cb', c) ∧ rb_nat cb' m i (wrapi m (S o)) ∧
    contents cb = c :: contents cb' ∧ rb_max cb' = rb_max cb.
Proof.
  intros H Hne. pose proof H as [Em Ei Eo Hi Ho Hm Hl].
  destruct (cont_out m i o (buffer cb) 1) as [Hs Hc]; [lia..|zif; lia|].
  destruct (lookup_lt_is_Some_2 (buffer cb) o) as [c Hbc]; [lia|].
  unfold take_out. rewrite Em, Eo, rd_nat, Hbc. simpl.
  rewrite s16_small by lia. set (cb' := set_out _ _).
  assert (Hcb' : rb_nat cb' m i (wrapi m (S o))).
  { unfold cb', wrapi. split; simpl; try done; [|zif; lia].
    destruct (Nat.leb_spec m (S o)); zif; lia. }
  exists c, cb'. split_and!; [done|done| |done].
  rewrite (contents_nat _ _ _ _ H), (contents_nat _ _ _ _ Hcb').
  change (buffer cb') with (buffer cb). rewrite Nat.add_1_r in Hc. rewrite Hc.
  assert (H1 : slice (buffer cb) o 1 = [c]).
  { unfold slice. by rewrite (drop_S _ _ _ Hbc). }
  rewrite Hs in H1. rewrite <- (take_drop 1 (cont _ _ _ _)) at 1. by rewrite H1.
Qed.

(** Storing [c] at [in], whether or not the index then moves on. *)
Lemma store_in_spec cb m i o c :
  rb_nat cb m i o →
  ∃ b, wr (buffer cb) (rb_in cb) c = Some b ∧
    rb_nat (set_buffer cb b) m i o ∧ contents (set_buffer cb b) = contents cb ∧
    (wrapi m (S i) ≠ o →
     rb_nat (set_in (set_buffer cb b) (Z.of_nat (wrapi m (S i)))) m (wrapi m (S i)) o ∧
     contents (set_in (set_buffer cb b) (Z.of_nat (wrapi m (S i)))) = contents cb ++ [c]).
Proof.
  intros H. pose proof H as [Em Ei Eo Hi Ho Hm Hl].
  rewrite Ei, wr_in_range by lia. eexists. split; [done|]. rewrite Nat2Z.id.
  assert (H1 : rb_nat (set_buffer cb (<[i := c]> (buffer cb))) m i o).
  { split; simpl; by rewrite ?length_insert. }
  split_and!; [done| |].
  - rewrite (contents_nat _ _ _ _ H), (contents_nat _ _ _ _ H1). by apply cont_slot.
  - intros Hne. assert (H2 : rb_nat (set_in (set_buffer cb (<[i := c]> (buffer cb)))
                               (Z.of_nat (wrapi m (S i)))) m (wrapi m (S i)) o).
    { split; simpl; rewrite ?length_insert; try done. unfold wrapi; zif; lia. }
    split; [done|]. rewrite (contents_nat _ _ _ _ H), (contents_nat _ _ _ _ H2). simpl.
    pose proof (cont_in m i o (buffer cb) [c] Hi Ho Hm) as Hc. simpl in Hc.
    rewrite Nat.add_1_r in Hc. rewrite insert_splice by lia. apply Hc.
    unfold wrapi in Hne. repeat zif; zif_in Hne; lia.
Qed.

(** A well formed buffer holding [l], of capacity [cap] (one slot stays free). *)
Definition holds (cb : ringbuffer) (cap : nat) (l : list Z) : Prop :=
  rb_wf cb ∧ rb_max cb = Z.of_nat (S cap) ∧ contents cb = l.

Lemma holds_nat cb cap l :
  holds cb cap l ↔ ∃ i o, rb_nat cb (S cap) i o ∧ contents cb = l.
Proof.
  split.
  - intros ((m & i & o & H)%rb_wf_nat & Hm & Hl). pose proof (rbn_max _ _ _ _ H).
    assert (m = S cap) as -> by lia. eauto.
  - intros (i & o & H & Hl). split_and!; [apply rb_wf_nat; eauto|apply H|done].
Qed.

Lemma holds_bound cb cap l : holds cb cap l → (length l ≤ cap)%nat ∧ Z.of_nat cap < 2 ^ 14 - 1.
Proof.
  intros (i & o & H & <-)%holds_nat. rewrite (contents_nat _ _ _ _ H).
  destruct H as [Em Ei Eo Hi Ho Hm Hl]. rewrite length_cont by done. zif; lia.
Qed.

Lemma get_char_spec cb cap l :
  holds cb cap l →
  match l with
  | [] => _buf_get_char cb = Some (cb, -1)
  | c :: l' => ∃ cb', _buf_get_char cb = Some (cb', c) ∧ holds cb' cap l'
  end.
Proof.
  intros (i & o & H & Hl)%holds_nat. unfold _buf_get_char. rewrite (rbn_in _ _ _ _ H), (rbn_out _ _ _ _ H).
  pose proof (empty_nat _ _ _ _ H) as He. rewrite Hl in He. zif.
  - destruct l; [done|]. exfalso. by destruct He as [He _]; discriminate He; lia.
  - destruct (take_out_spec _ _ _ _ H) as (c & cb' & -> & H' & Hc & _); [lia|].
    rewrite <- Hl, Hc. exists cb'. split; [done|]. apply holds_nat. eauto.
Qed.

Lemma put_char_spec cb cap l c :
  holds cb cap l →
  if (length l <? cap)%nat
  then ∃ cb', _buf_put_char cb c = Some (cb', c) ∧ holds cb' cap (l ++ [c])
  else _buf_put_char cb c = Some (cb, -1).
Proof.
  intros Hh. pose proof (holds_bound _ _ _ Hh) as [Hb _]. apply holds_nat in Hh as (i & o & H & Hl).
  unfold _buf_put_char. rewrite (next_in_nat _ _ _ _ H), (rbn_out _ _ _ _ H).
  pose proof (full_nat _ _ _ _ H) as Hf. rewrite Hl in Hf.
  destruct (Nat.ltb_spec (length l) cap); zif; try lia; [|done].
  destruct (store_in_spec _ _ _ _ c H) as (b & -> & _ & _ & Hn). simpl.
  destruct Hn as [Hn1 Hn2]; [lia|]. rewrite Hl in Hn2. eexists. split; [done|].
  apply holds_nat. eauto.
Qed.

Lemma get_loop_spec n cb cap l data (i : nat) :
  holds cb cap l → (i + n ≤ length data)%nat →
  let k := (n `min` length l)%nat in
  ∃ cb', _buf_get_loop n cb data (Z.of_nat i) =
           Some (cb', splice data i (take k l), Z.of_nat (i + k)) ∧ holds cb' cap (drop k l).
Proof.
  revert cb l data i. induction n as [|n IH]; intros cb l data i Hh Hd; cbn [_buf_get_loop].
  { exists cb. cbv zeta. by rewrite Nat.min_0_l, take_0, Nat.add_0_r, splice_nil. }
  pose proof Hh as (x & o & H & Hl)%holds_nat.
  rewrite (rbn_in _ _ _ _ H), (rbn_out _ _ _ _ H). pose proof (empty_nat _ _ _ _ H) as He.
  rewrite Hl in He. zif.
  - assert (l = []) as -> by (apply He; lia). exists cb. cbv zeta. simpl length.
    by rewrite Nat.min_0_r, take_0, Nat.add_0_r, splice_nil.
  - destruct (take_out_spec _ _ _ _ H) as (c & cb1 & -> & H1 & Hc & _); [lia|]. simpl.
    rewrite Hl in Hc. subst l. rewrite wr_in_range by lia. simpl. rewrite Nat2Z.id, insert_splice by lia.
    rewrite Z.add_1_r, <- Nat2Z.inj_succ.
    destruct (IH cb1 (contents cb1) (splice data i [c]) (S i)) as (cb' & -> & Hh');
      [apply holds_nat; eauto|rewrite length_splice; simpl; lia|].
    rewrite Hc. simpl. exists cb'. split; [|done]. rewrite splice_splice_adj;
      [do 2 f_equal; lia|simpl; lia|simpl; rewrite length_take; lia].
Qed.

Lemma put_loop_spec n cb cap l data (i : nat) :
  holds cb cap l → (i + n ≤ length data)%nat →
  let k := (n `min` (cap - length l))%nat in
  ∃ cb', _buf_put_loop n cb data (Z.of_nat i) = Some (cb', Z.of_nat (i + k)) ∧
    holds cb' cap (l ++ slice data i k).
Proof.
  revert cb l i. induction n as [|n IH]; intros cb l i Hh Hd k; cbn [_buf_put_loop].
  { exists cb. replace k with 0%nat by lia. by rewrite Nat.add_0_r, slice_0, app_nil_r. }
  pose proof (holds_bound _ _ _ Hh) as [Hb _]. pose proof Hh as (x & o & H & Hl)%holds_nat.
  destruct (lookup_lt_is_Some_2 data i) as [c Hc]; [lia|]. rewrite rd_nat, Hc. simpl.
  destruct (store_in_spec _ _ _ _ c H) as (b & -> & H1 & Hl1 & Hn). simpl.
  rewrite (next_in_nat _ _ _ _ H1). pose proof (rbn_out _ _ _ _ H1) as Eo. simpl in Eo. rewrite Eo.
  pose proof (full_nat _ _ _ _ H) as Hf. rewrite Hl in *. zif.
  - replace k with 0%nat by lia.
    eexists. rewrite Nat.add_0_r, slice_0, app_nil_r. split; [done|].
    apply holds_nat. eauto.
  - destruct Hn as [H2 Hl2]; [lia|]. rewrite Z.add_1_r, <- Nat2Z.inj_succ.
    destruct (IH _ (l ++ [c]) (S i) (proj2 (holds_nat _ _ _)
      (ex_intro _ _ (ex_intro _ _ (conj H2 Hl2))))) as (cb' & -> & Hh'); [lia|].
    assert (k = S (n `min` (cap - (length l + 1)))) as -> by lia.
    exists cb'. rewrite length_app in *. simpl in *. split; [f_equal; f_equal; lia|].
    rewrite <- app_assoc in Hh'. simpl in Hh'.
    unfold slice in *. rewrite (drop_S _ _ _ Hc). done.
Qed.

Lemma drop_spec cb cap l (n : nat) :
  holds cb cap l → Z.of_nat n < 2 ^ 15 →
  let k := (n `min` length l)%nat in
  ∃ cb', _buf_drop cb (Z.of_nat n) = (cb', Z.of_nat k) ∧ holds cb' cap (drop k l).
Proof.
  intros Hh Hn k. pose proof Hh as (Hwf & _ & Hl). pose proof (used_space_spec _ Hwf) as Hu.
  rewrite Hl in Hu. unfold _buf_drop. rewrite Hu.
  replace (if zlen l <? Z.of_nat n then zlen l else Z.of_nat n) with (Z.of_nat k) by (zif; lia).
  apply holds_nat in Hh as (i & o & H & _). pose proof H as [Em Ei Eo Hi Ho Hm Hlb].
  rewrite Eo, Em.
  assert (Hlc : length l = if (o <=? i)%nat then (i - o)%nat else (S cap - o + i)%nat).
  { rewrite <- Hl, (contents_nat _ _ _ _ H). by apply length_cont. }
  (* dropping [k] bytes is dropping up to the end of the buffer, then the rest *)
  set (o' := if (S cap <=? o + k)%nat then (o + k - S cap)%nat else (o + k)%nat).
  assert (Ho' : (o' < S cap)%nat) by (unfold o'; repeat zif; zif_in Hlc; lia).
  eexists. split; [done|]. rewrite s16_small by (zif_in Hlc; lia).
  replace (if Z.of_nat (S cap) <=? _ then _ else _) with (Z.of_nat o').
  2: { unfold o'. destruct (Nat.leb_spec (S cap) (o + k)); zif; rewrite ?s16_small; zif_in Hlc; lia. }
  apply holds_nat. exists i, o'. assert (H' : rb_nat (set_out cb (Z.of_nat o')) (S cap) i o') by done.
  split; [done|]. rewrite (contents_nat _ _ _ _ H'). simpl. rewrite <- Hl, (contents_nat _ _ _ _ H).
  destruct (decide (k ≤ if (o <=? i)%nat then i - o else S cap - o)%nat) as [Hk|Hk].
  - destruct (cont_out (S cap) i o (buffer cb) k) as [_ <-]; [done..|]. f_equal.
    unfold o', wrapi. repeat zif; zif_in Hk; lia.
  - zif_in Hk; [lia|]. destruct (cont_out (S cap) i o (buffer cb) (S cap - o)) as [_ Hc]; [done..|zif; lia|].
    replace k with (S cap - o + (k - (S cap - o)))%nat by lia. rewrite <- drop_drop, <- Hc.
    replace (wrapi (S cap) (o + (S cap - o))) with 0%nat by (unfold wrapi; zif; lia).
    destruct (cont_out (S cap) i 0 (buffer cb) (k - (S cap - o))) as [_ <-];
      [lia..|zif; try zif_in Hlc; lia|].
    f_equal. unfold o', wrapi. repeat zif; try zif_in Hlc; lia.
Qed.

(** The slot of the [p]-th queued byte. *)
Definition slot (m o p : nat) : nat := if (o + p <? m)%nat then (o + p)%nat else (o + p - m)%nat.

Lemma cont_lookup m i o b p :
  (i < m)%nat → (o < m)%nat → (m ≤ length b)%nat → (p < length (cont m i o b))%nat →
  cont m i o b !! p = b !! slot m o p.
Proof.
  intros Hi Ho Hm. rewrite length_cont by done. unfold cont, slot. intros Hp.
  destruct (Nat.leb_spec o i).
  - rewrite lookup_slice. zif; [|lia]. zif; [done|lia].
  - destruct (Nat.ltb_spec (o + p) m).
    + rewrite lookup_app_l by (rewrite length_slice; lia). rewrite lookup_slice. by zif; [|lia].
    + rewrite lookup_app_r by (rewrite length_slice; lia). rewrite lookup_slice, length_slice.
      zif; [|lia]. f_equal. lia.
Qed.

Lemma slot_in cb m i o p :
  rb_nat cb m i o → (p ≤ length (contents cb))%nat →
  (slot m o p = i ↔ p = length (contents cb)) ∧ (slot m o p < m)%nat ∧
  ((p < length (contents cb))%nat →
   slot m o (S p) = if (m <=? S (slot m o p))%nat then 0%nat else S (slot m o p)).
Proof.
  intros H. rewrite (contents_nat _ _ _ _ H). destruct H as [Em Ei Eo Hi Ho Hm Hl].
  rewrite length_cont by done. unfold slot. intros Hp.
  destruct (Nat.leb_spec o i), (Nat.ltb_spec (o + p) m); (split_and!; [lia..|]); intros;
    repeat zif; lia.
Qed.

Lemma peek_loop_spec n cb m i o data (k p : nat) :
  rb_nat cb m i o → (p ≤ length (contents cb))%nat → (k + n ≤ length data)%nat →
  let c := (n `min` (length (contents cb) - p))%nat in
  _buf_peek_loop n cb data (Z.of_nat k) (Z.of_nat (slot m o p)) =
    Some (splice data k (slice (contents cb) p c), Z.of_nat (k + c)).
Proof.
  intros H. revert data k p. induction n as [|n IH]; intros data k p Hp Hd c; cbn [_buf_peek_loop].
  { replace c with 0%nat by lia. by rewrite slice_0, splice_nil, Nat.add_0_r. }
  destruct (slot_in _ _ _ _ p H Hp) as (Hin & Hlt & Hnext).
  pose proof H as [Em Ei Eo Hi Ho Hm Hl]. rewrite Ei, Em. zif.
  - replace c with 0%nat by lia. by rewrite slice_0, splice_nil, Nat.add_0_r.
  - assert (Hplt : (p < length (contents cb))%nat) by lia.
    pose proof (cont_lookup m i o (buffer cb) p Hi Ho Hm) as Hc.
    rewrite <- (contents_nat _ _ _ _ H) in Hc. specialize (Hc Hplt).
    destruct (lookup_lt_is_Some_2 (contents cb) p Hplt) as [x Hx]. rewrite Hx in Hc.
    rewrite rd_nat, <- Hc. simpl. rewrite wr_in_range by lia. simpl.
    rewrite Nat2Z.id, insert_splice, s16_small by lia.
    replace (if Z.of_nat m <=? _ then _ else _) with (Z.of_nat (slot m o (S p))).
    2: { rewrite Hnext by done. destruct (Nat.leb_spec m (S (slot m o p))); zif; lia. }
    rewrite Z.add_1_r, <- Nat2Z.inj_succ, IH; [|lia|rewrite length_splice; simpl; lia].
    f_equal. f_equal; [|lia]. rewrite splice_splice_adj;
      [|simpl; lia|simpl; rewrite length_slice; lia].
    f_equal. replace c with (S (n `min` (length (contents cb) - S p))) by lia.
    unfold slice. by rewrite (drop_S _ _ _ Hx).
Qed.

(** [_buf_peek] forgets to wrap when [out + offset] is exactly [max]. *)
Lemma peek_spec cb cap l data (off n : nat) :
  holds cb cap l → (n ≤ length data)%nat → Z.of_nat off < 2 ^ 14 →
  rb_out cb + Z.of_nat (off `min` length l) ≠ rb_max cb →
  let c := (n `min` (length l - off))%nat in
  _buf_peek cb data (Z.of_nat off) (Z.of_nat n) =
    Some (splice data 0 (slice l off c), Z.of_nat c).
Proof.
  intros Hh Hn Hoff Hne c. pose proof Hh as (Hwf & _ & Hl). pose proof (used_space_spec _ Hwf) as Hu.
  pose proof (holds_bound _ _ _ Hh). apply holds_nat in Hh as (i & o & H1 & _).
  unfold _buf_peek. rewrite Hu, Hl in *.
  set (off' := (off `min` length l)%nat) in *.
  replace (if zlen l <? Z.of_nat off then zlen l else Z.of_nat off) with (Z.of_nat off') by (zif; lia).
  pose proof H1 as [Em Ei Eo Hi Ho Hm Hlb]. rewrite Eo, Em in *.
  rewrite s16_small by lia.
  replace (if Z.of_nat (S cap) <? _ then _ else _) with (Z.of_nat (slot (S cap) o off')).
  2: { unfold slot. destruct (Nat.ltb_spec (o + off') (S cap)); zif; rewrite ?s16_small; lia. }
  rewrite Nat2Z.id. pose proof (peek_loop_spec n cb (S cap) i o data 0 off' H1) as Hp.
  rewrite Hl in Hp. change 0 with (Z.of_nat 0) at 1. rewrite Hp by lia. f_equal. f_equal; [|lia].
  f_equal. destruct (decide (off ≤ length l)%nat).
  - by replace off' with off by lia.
  - replace c with 0%nat by lia. replace (n `min` _)%nat with 0%nat by lia. done.
Qed.

Lemma copy_to_iter_spec cb it s pos (i n : nat) :
  iter_rel it s pos → (i + n ≤ length (buffer cb))%nat → zlen (buffer cb) < 2 ^ 14 →
  (pos + n ≤ length s)%nat →
  ∃ it', copy_to_iter cb it (Z.of_nat i) (Z.of_nat n) = Some it' ∧
    iter_rel it' (splice s pos (slice (buffer cb) i n)) (pos + n).
Proof.
  intros Hrel Hi Hl Hn. unfold copy_to_iter. rewrite rd_range_ok by lia. simpl.
  rewrite Nat2Z.id, u32_small by lia.
  assert (Hsl : slice (buffer cb) i (Z.to_nat (zlen (buffer cb) - Z.of_nat i)) = drop i (buffer cb)).
  { unfold slice. apply take_ge. rewrite length_drop. lia. }
  rewrite Hsl. destruct (memcpy_into_iter_spec it s pos (drop i (buffer cb)) n Hrel)
    as (it' & -> & Hrel' & _); [rewrite length_drop; lia|lia|].
  replace (n `min` (length s - pos))%nat with n in * by lia. simpl. eauto.
Qed.

Lemma copy_from_iter_spec cb it s pos (i n : nat) :
  iter_rel it s pos → (i + n ≤ length (buffer cb))%nat → zlen (buffer cb) < 2 ^ 14 →
  (pos + n ≤ length s)%nat →
  ∃ it', copy_from_iter cb it (Z.of_nat i) (Z.of_nat n) =
           Some (set_buffer cb (splice (buffer cb) i (slice s pos n)), it') ∧
    iter_rel it' s (pos + n).
Proof.
  intros Hrel Hi Hl Hn. unfold copy_from_iter. rewrite rd_range_ok by lia. simpl.
  rewrite Nat2Z.id, u32_small by lia.
  assert (Hsl : slice (buffer cb) i (Z.to_nat (zlen (buffer cb) - Z.of_nat i)) = drop i (buffer cb)).
  { unfold slice. apply take_ge. rewrite length_drop. lia. }
  rewrite Hsl. destruct (memcpy_out_of_iter_spec it s pos (drop i (buffer cb)) n Hrel)
    as (it' & -> & Hrel'); [rewrite length_drop; lia|lia|].
  replace (n `min` (length s - pos))%nat with n in * by lia. simpl.
  assert (Hls : length (slice s pos n) = n) by (rewrite length_slice; lia).
  assert (Hd : splice (drop i (buffer cb)) 0 (slice s pos n) =
               slice s pos n ++ drop (i + n) (buffer cb)).
  { unfold splice. simpl. by rewrite drop_drop, Hls. }
  rewrite Hd, wr_range_ok by (rewrite ?length_app, ?length_drop; lia). simpl.
  exists it'. split; [|done]. do 3 f_equal. unfold splice. rewrite Nat2Z.id, <- app_assoc.
  f_equal. f_equal. rewrite Hls, length_app, length_drop, Hls.
  rewrite (drop_ge (buffer cb) (i + (n + (length (buffer cb) - (i + n))))) by lia.
  by rewrite app_nil_r.
Qed.

(** One block copy out of the buffer, up to [in] or the end. *)
Lemma get_chunk_spec cb m i o it s pos n :
  rb_nat cb m i o → iter_rel it s pos →
  (n ≤ if (o <=? i)%nat then i - o else m - o)%nat → (pos + n ≤ length s)%nat →
  let cb' := set_out cb (Z.of_nat (wrapi m (o + n))) in
  ∃ it', copy_to_iter cb it (Z.of_nat o) (Z.of_nat n) = Some it' ∧
    iter_rel it' (splice s pos (take n (contents cb))) (pos + n) ∧
    rb_nat cb' m i (wrapi m (o + n)) ∧ contents cb' = drop n (contents cb).
Proof.
  intros H Hrel Hn Hp cb'. pose proof H as [Em Ei Eo Hi Ho Hm Hlb].
  destruct (cont_out m i o (buffer cb) n Hi Ho Hm Hn) as [Hs1 Hd1].
  rewrite <- (contents_nat _ _ _ _ H) in Hs1, Hd1.
  destruct (copy_to_iter_spec cb it s pos o n Hrel) as (it1 & -> & Hrel1);
    [zif_in Hn; lia|lia|lia|].
  assert (H' : rb_nat cb' m i (wrapi m (o + n))).
  { split; simpl; try done. unfold wrapi. zif; lia. }
  exists it1. rewrite <- Hs1. split_and!; try done. by rewrite (contents_nat _ _ _ _ H').
Qed.

(** One block copy into the buffer, up to the byte before [out] or the end. *)
Lemma put_chunk_spec cb m i o it s pos n :
  rb_nat cb m i o → iter_rel it s pos →
  (n ≤ if (i <? o)%nat then o - i - 1 else m - i - (if (o =? 0)%nat then 1 else 0))%nat →
  (pos + n ≤ length s)%nat →
  ∃ cb1 it', copy_from_iter cb it (Z.of_nat i) (Z.of_nat n) = Some (cb1, it') ∧
    iter_rel it' s (pos + n) ∧
    rb_max cb1 = rb_max cb ∧ rb_in cb1 = rb_in cb ∧ rb_out cb1 = rb_out cb ∧
    let cb' := set_in cb1 (Z.of_nat (wrapi m (i + n))) in
    rb_nat cb' m (wrapi m (i + n)) o ∧ contents cb' = contents cb ++ slice s pos n.
Proof.
  intros H Hrel Hn Hp. pose proof H as [Em Ei Eo Hi Ho Hm Hlb].
  assert (Hsl : length (slice s pos n) = n) by (rewrite length_slice; lia).
  assert (Hin : (i + n ≤ length (buffer cb))%nat) by (repeat zif_in Hn; lia).
  destruct (copy_from_iter_spec cb it s pos i n Hrel) as (it1 & -> & Hrel1); [done|lia..|].
  pose proof (cont_in m i o (buffer cb) (slice s pos n) Hi Ho Hm) as Hc.
  rewrite Hsl in Hc. specialize (Hc Hn).
  do 2 eexists. split; [done|]. split_and!; try done.
  assert (Hlen : length (splice (buffer cb) i (slice s pos n)) = length (buffer cb))
    by (apply length_splice; lia).
  set (cb' := set_in _ _). assert (H' : rb_nat cb' m (wrapi m (i + n)) o).
  { split; simpl; rewrite ?Hlen; try done. unfold wrapi. zif; lia. }
  split; [done|]. rewrite (contents_nat _ _ _ _ H'), (contents_nat _ _ _ _ H). done.
Qed.

(** The C expression that wraps an index. *)
Lemma wrap_index m x n :
  Z.of_nat m < 2 ^ 14 → (x < m)%nat → (n ≤ m)%nat →
  (if Z.of_nat m <=? s16 (Z.of_nat x + Z.of_nat n) then 0 else s16 (Z.of_nat x + Z.of_nat n)) =
  Z.of_nat (wrapi m (x + n)).
Proof.
  intros. unfold wrapi. rewrite s16_small by lia.
  destruct (Nat.leb_spec m (x + n)); zif; lia.
Qed.

(** [_buf_get_iter] on a buffer that holds at least one byte moves
    [min(remaining, used)] bytes from the front of the FIFO to the iterator,
    in order, in at most two block copies, and removes exactly those. *)
Theorem buf_get_iter_spec cb cap l it s pos :
  holds cb cap l → l ≠ [] → iter_rel it s pos →
  let n := (length l `min` (length s - pos))%nat in
  ∃ cb' it', _buf_get_iter cb it = Some (cb', it', Z.of_nat n) ∧
    holds cb' cap (drop n l) ∧ iter_rel it' (splice s pos (take n l)) (pos + n).
Proof.
  intros Hh Hne Hrel n. pose proof (holds_bound _ _ _ Hh) as [Hlen Hcap].
  apply holds_nat in Hh as (i & o & H & <-). pose proof H as [Em Ei Eo Hi Ho Hm Hlb].
  pose proof (iter_remaining_spec _ _ _ Hrel) as Hr. pose proof Hrel as (_ & Hp & Hs & _).
  pose proof (empty_nat _ _ _ _ H) as He.
  assert (Hll : length (contents cb) = if (o <=? i)%nat then (i - o)%nat else (S cap - o + i)%nat)
    by (rewrite (contents_nat _ _ _ _ H); by apply length_cont).
  unfold _buf_get_iter. rewrite Hr, Em, Ei, Eo.
  set (r := (length s - pos)%nat) in *.
  set (c1 := (r `min` if (o <=? i)%nat then i - o else S cap - o)%nat).
  match goal with |- context [s16 (if Z.of_nat o <? Z.of_nat i then ?a else ?b)] =>
    replace (s16 (if Z.of_nat o <? Z.of_nat i then a else b)) with (Z.of_nat c1) end.
  2: { assert (o ≠ i) by tauto. unfold c1.
       destruct (Nat.leb_spec o i); zif; try lia; rewrite u32_small by lia;
         zif; rewrite s16_small; lia. }
  assert (Hc1 : (c1 ≤ if (o <=? i)%nat then i - o else S cap - o)%nat) by (unfold c1; lia).
  destruct (get_chunk_spec cb _ _ _ it s pos c1 H Hrel Hc1) as (it1 & -> & Hrel1 & H1 & Hd1); [lia|].
  simpl. rewrite wrap_index by (zif_in Hc1; lia).
  set (o1 := wrapi (S cap) (o + c1)) in *. simpl rb_in. rewrite Ei.
  rewrite u32_small by lia. zif.
  { assert (n = c1) as ->.
    { unfold n, o1, wrapi, c1 in *. zcases; lia. }
    do 2 eexists. split; [done|]. split; [|done]. apply holds_nat. eauto. }
  assert ((i < o)%nat ∧ c1 = (S cap - o)%nat ∧ o1 = 0%nat) as (Hio & Hc1e & Ho1).
  { unfold o1, wrapi, c1 in *. zcases; lia. }
  rewrite Ho1 in *. set (c2 := ((r - c1) `min` i)%nat).
  match goal with |- context [copy_to_iter _ _ _ (s16 ?x)] =>
    replace (s16 x) with (Z.of_nat c2) end.
  2: { rewrite Z.sub_0_r, u32_small by lia. zif; rewrite s16_small; lia. }
  destruct (get_chunk_spec _ _ _ _ it1 _ (pos + c1) c2 H1 Hrel1) as (it2 & -> & Hrel2 & H2 & Hd2);
    [zif; lia|rewrite length_splice; rewrite ?length_take; lia|].
  assert (Hn : n = (c1 + c2)%nat) by (destruct (o <=? i)%nat; lia).
  assert (Hw : wrapi (S cap) (0 + c2) = c2) by (unfold wrapi; zif; lia).
  rewrite Hw, Hd1, ?drop_drop in *. rewrite Hn. simpl. rewrite !s16_small by lia.
  do 2 eexists. split; [by rewrite Nat2Z.inj_add|]. split.
  - apply holds_nat. do 2 eexists. split; [exact H2|done].
  - rewrite Nat.add_assoc. rewrite splice_splice_adj in Hrel2;
      [|rewrite length_take; lia|rewrite !length_take, length_drop; lia].
    by rewrite take_take_drop in Hrel2.
Qed.

(** The arithmetic of the two copies into the buffer: how far the first one
    may go, and when a second one from the bottom of the buffer follows. *)
Definition put_limit (m i o : nat) : nat :=
  if (i <? o)%nat then (o - i - 1)%nat else (m - i - (if (o =? 0)%nat then 1 else 0))%nat.

Definition used (m i o : nat) : nat := if (o <=? i)%nat then (i - o)%nat else (m - o + i)%nat.

Lemma put_split m i o r :
  (i < m)%nat → (o < m)%nat → ¬ (o = 0 ∧ r = m - i)%nat →
  let c1 := (r `min` put_limit m i o)%nat in
  let i1 := wrapi m (i + c1) in
  let n := ((m - 1 - used m i o) `min` r)%nat in
  (c1 ≤ r ∧ c1 ≤ m)%nat ∧
  ((n = c1 ∧ (r = c1 ∨ S i1 = o ∨ S i1 = m)) ∨
   (r ≠ c1 ∧ S i1 ≠ o ∧ S i1 ≠ m ∧ i1 = 0 ∧ 0 < o ∧ n = c1 + (r - c1) `min` (o - 1)))%nat.
Proof.
  intros Hi Ho Hb.
  assert (Hb' : o = 0%nat → r ≠ (m - i)%nat) by tauto. clear Hb.
  unfold put_limit, used, wrapi.
  destruct (Nat.ltb_spec i o), (Nat.eqb_spec o 0), (Nat.leb_spec o i); try (exfalso; lia);
    cbv zeta.
  - destruct (Nat.min_spec r (o - i - 1)) as [[? ->]|[? ->]];
      (zif; [exfalso; lia|]); (split; [lia|left; lia]).
  - specialize (Hb' e). subst o.
    destruct (Nat.min_spec r (m - i - 1)) as [[? ->]|[? ->]];
      (zif; [exfalso; lia|]); (split; [lia|left; lia]).
  - clear Hb'. rewrite Nat.sub_0_r. destruct (Nat.min_spec r (m - i)) as [[? ->]|[? ->]].
    + destruct (Nat.leb_spec m (i + r)); [exfalso; lia|]. split; [lia|left; lia].
    + destruct (Nat.leb_spec m (i + (m - i))); [|exfalso; lia]. split; [lia|].
      destruct (decide (r = m - i)%nat); [left; lia|]. destruct (decide (o = 1)%nat); [left; lia|].
      destruct (decide (m = 1)%nat); [exfalso; lia|]. right. lia.
Qed.

(** The first chunk as the C code computes it. *)
Lemma put_chunk1 m i o r :
  (i < m)%nat → (o < m)%nat → Z.of_nat m < 2 ^ 14 → Z.of_nat r < 2 ^ 31 →
  ¬ (o = 0 ∧ r = m - i)%nat →
  s16 (if Z.of_nat i <? Z.of_nat o
       then (if u32 (Z.of_nat o - Z.of_nat i - 1) <? Z.of_nat r
             then Z.of_nat o - Z.of_nat i - 1 else Z.of_nat r)
       else (if u32 (Z.of_nat m - Z.of_nat i) <? Z.of_nat r
             then Z.of_nat m - Z.of_nat i - (if Z.of_nat o =? 0 then 1 else 0) else Z.of_nat r)) =
  Z.of_nat (r `min` put_limit m i o).
Proof.
  intros Hi Ho Hm Hr Hb. unfold put_limit.
  destruct (Nat.ltb_spec i o), (Nat.eqb_spec o 0); zif; try lia;
    rewrite u32_small by lia; zif; try zif; rewrite s16_small; lia.
Qed.

(** [_buf_put_iter] moves [min(remaining, free)] bytes from the iterator
    to the end of the FIFO, in order, in at most two block copies, and reports
    how many.  (The one excluded case, [out] at 0 and exactly the [max - in]
    bytes up to the end of the buffer to store, overwrites the free slot.) *)
Theorem buf_put_iter_spec cb cap l it s pos :
  holds cb cap l → iter_rel it s pos →
  ¬ (rb_out cb = 0 ∧ Z.of_nat (length s - pos) = rb_max cb - rb_in cb) →
  let n := ((cap - length l) `min` (length s - pos))%nat in
  ∃ cb' it', _buf_put_iter cb it = Some (cb', it', Z.of_nat n) ∧
    holds cb' cap (l ++ slice s pos n) ∧ iter_rel it' s (pos + n).
Proof.
  intros Hh Hrel Hbad n. pose proof (holds_bound _ _ _ Hh) as [_ Hcap].
  apply holds_nat in Hh as (i & o & H & <-). pose proof H as [Em Ei Eo Hi Ho Hm Hlb].
  pose proof (iter_remaining_spec _ _ _ Hrel) as Hr. pose proof Hrel as (_ & Hp & Hs & _).
  assert (Hn : n = ((S cap - 1 - used (S cap) i o) `min` (length s - pos))%nat).
  { unfold n, used. rewrite (contents_nat _ _ _ _ H), length_cont by done. lia. }
  clearbody n. rewrite Em, Ei, Eo in Hbad.
  assert (Hr31 : Z.of_nat (length s - pos) < 2 ^ 31) by lia.
  assert (Hpr : length s = (pos + (length s - pos))%nat) by lia.
  set (r := (length s - pos)%nat) in *. clearbody r.
  assert (Hb : ¬ (o = 0 ∧ r = S cap - i)%nat) by lia. clear Hbad Hs.
  destruct (put_split (S cap) i o r Hi Ho Hb) as [[Hc1r Hc1m] Hcase]. rewrite <- Hn in Hcase.
  unfold _buf_put_iter. rewrite Hr, Em, Ei, Eo, put_chunk1 by (done || lia).
  set (c1 := (r `min` put_limit (S cap) i o)%nat) in *.
  destruct (put_chunk_spec cb _ _ _ it s pos c1 H Hrel) as
    (cb1 & it1 & -> & Hrel1 & Em1 & Ei1 & Eo1 & H1 & Hd1);
    [unfold c1, put_limit; apply Nat.le_min_r|lia|].
  simpl. rewrite Em1, Ei1, Eo1, Em, Ei, Eo, wrap_index, u32_small by lia.
  clear Hb Hn Hr. clearbody c1. set (i1 := wrapi (S cap) (i + c1)) in *. clearbody i1.
  destruct Hcase as [[-> Hstop]|(Hrc & Hso & Hsm & -> & Ho0 & ->)]; zif; try lia.
  { do 2 eexists. split; [done|]. split; [|done]. apply holds_nat. eauto. }
  set (c2 := ((r - c1) `min` (o - 1))%nat).
  match goal with |- context [copy_from_iter _ _ _ (s16 ?x)] =>
    replace (s16 x) with (Z.of_nat c2) end.
  2: { rewrite u32_small by lia. zif; rewrite s16_small; lia. }
  assert (Hc2 : (c2 ≤ r - c1 ∧ c2 ≤ o - 1)%nat) by lia. clearbody c2.
  destruct (put_chunk_spec _ _ _ _ it1 _ (pos + c1) c2 H1 Hrel1) as
    (cb2 & it2 & -> & Hrel2 & Em2 & Ei2 & Eo2 & H2 & Hd2); [zif; lia|lia|].
  assert (Hw : wrapi (S cap) (0 + c2) = c2) by (unfold wrapi; zif; lia).
  rewrite Hw, Hd1, <- app_assoc, slice_app_adj in * by lia.
  simpl. rewrite Ei2. simpl. rewrite !s16_small by lia.
  do 2 eexists. split; [by rewrite Nat2Z.inj_add|]. split.
  - apply holds_nat. do 2 eexists. split; [exact H2|done].
  - by rewrite Nat.add_assoc.
Qed.

(** ** Abstract specification: a bounded FIFO *)

Inductive fifo_op :=
  | OpPutChar (ch : Z) | OpGetChar
  | OpPut (data : list Z) | OpGet (size : nat) | OpDrop (size : nat).

(** The buffer, the bytes handed to the caller and the C return value. *)
Definition buf_step (cb : ringbuffer) (op : fifo_op) : option (ringbuffer * (list Z * Z)) :=
  match op with
  | OpPutChar ch => '(cb', r) ← _buf_put_char cb ch; Some (cb', ([], r))
  | OpGetChar => '(cb', r) ← _buf_get_char cb; Some (cb', ([], r))
  | OpPut data => '(cb', r) ← _buf_put cb data (zlen data); Some (cb', ([], r))
  | OpGet n =>
      '(cb', data, r) ← _buf_get cb (replicate n 0) (Z.of_nat n);
      Some (cb', (take (Z.to_nat r) data, r))
  | OpDrop n => let '(cb', r) := _buf_drop cb (Z.of_nat n) in Some (cb', ([], r))
  end.

Definition fifo_step (cap : nat) (l : list Z) (op : fifo_op) : list Z * (list Z * Z) :=
  match op with
  | OpPutChar ch => if (length l <? cap)%nat then (l ++ [ch], ([], ch)) else (l, ([], -1))
  | OpGetChar => match l with [] => (l, ([], -1)) | c :: l' => (l', ([], c)) end
  | OpPut data =>
      let k := (length data `min` (cap - length l))%nat in (l ++ take k data, ([], Z.of_nat k))
  | OpGet n => let k := (n `min` length l)%nat in (drop k l, (take k l, Z.of_nat k))
  | OpDrop n => let k := (n `min` length l)%nat in (drop k l, ([], Z.of_nat k))
  end.

(** Sizes are passed as [short]. *)
Definition op_ok (op : fifo_op) : bool :=
  match op with
  | OpPut data => zlen data <? 2 ^ 15
  | OpGet n | OpDrop n => Z.of_nat n <? 2 ^ 15
  | _ => true
  end.

Lemma buf_step_refines cb cap l op :
  holds cb cap l → op_ok op = true →
  ∃ cb', buf_step cb op = Some (cb', (fifo_step cap l op).2) ∧
         holds cb' cap (fifo_step cap l op).1.
Proof.
  intros Hh Hok. destruct op as [ch| |data|n|n]; cbn [buf_step fifo_step op_ok] in *.
  - pose proof (put_char_spec _ _ _ ch Hh) as H. zif.
    + destruct H as (cb' & -> & ?). simpl. eauto.
    + rewrite H. simpl. eauto.
  - pose proof (get_char_spec _ _ _ Hh) as H. destruct l as [|c l].
    + rewrite H. simpl. eauto.
    + destruct H as (cb' & -> & ?). simpl. eauto.
  - unfold _buf_put. destruct (put_loop_spec (length data) cb cap l data 0 Hh) as (cb' & H & Hh'); [lia|].
    rewrite Nat2Z.id. change 0 with (Z.of_nat 0) at 1. rewrite H. simpl.
    exists cb'. split; [done|]. unfold slice in Hh'. by rewrite drop_0 in Hh'.
  - unfold _buf_get.
    destruct (get_loop_spec n cb cap l (replicate n 0) 0 Hh) as (cb' & H & Hh');
      [rewrite length_replicate; lia|].
    rewrite Nat2Z.id. change 0 with (Z.of_nat 0) at 2. rewrite H. simpl.
    exists cb'. split; [|done]. do 3 f_equal. rewrite Nat2Z.id. unfold splice. simpl.
    rewrite take_app_le by (rewrite length_take; lia). rewrite take_take. f_equal. lia.
  - destruct (drop_spec cb cap l n Hh) as (cb' & -> & Hh'); [lia|]. eauto.
Qed.

(** C19: The ring buffer is a bounded FIFO of capacity [max - 1]: every sequence
    of character and block puts, gets and drops returns the counts and bytes
    the FIFO gives, stores nothing outside the buffer, and keeps the indices
    in range; the free and used space it reports are those of the FIFO. *)
Theorem buf_run_refines cb cap l ops :
  holds cb cap l → forallb op_ok ops = true →
  ∃ cb', run_out buf_step cb ops =
           Some (cb', (run_all (fifo_step cap) l ops).2) ∧
    holds cb' cap (run_all (fifo_step cap) l ops).1 ∧
    _buf_used_space cb' = zlen (run_all (fifo_step cap) l ops).1 ∧
    _buf_free_space cb' = Z.of_nat cap - zlen (run_all (fifo_step cap) l ops).1.
Proof.
  revert cb l. induction ops as [|op ops IH]; intros cb l Hh Hok; simpl in *.
  - exists cb. pose proof Hh as (Hwf & Hm & Hl). split_and!; [done|done| |].
    + by rewrite (used_space_spec _ Hwf), Hl.
    + rewrite (free_space_spec _ Hwf), Hl. lia.
  - apply andb_true_iff in Hok as [Hok1 Hok2].
    destruct (buf_step_refines _ _ _ _ Hh Hok1) as (cb1 & -> & Hh1). simpl.
    destruct (fifo_step cap l op) as [l1 out1]. simpl in *.
    destruct (IH _ _ Hh1 Hok2) as (cb' & -> & Hh' & Hu & Hf). simpl.
    destruct (run_all _ l1 ops) as [l2 outs]. simpl in *. eauto.
Qed.

Lemma init_holds (b : list Z) :
  length b = 512%nat → holds (_buf_init (mk_rb 0 0 0 b) 0) 511 [].
Proof. intros Hb. unfold holds, rb_wf. simpl. rewrite Hb. split_and!; done. Qed.

Lemma buf_run_refines_witness :
  ∃ cb', run_out buf_step (_buf_init (mk_rb 0 0 0 (replicate 512 0)) 0)
    [OpPutChar 7; OpPut [1; 2; 3]; OpGetChar; OpGet 2; OpDrop 5; OpGetChar] =
    Some (cb', [([], 7); ([], 3); ([], 7); ([1; 2], 2); ([], 1); ([], -1)]).
Proof.
  destruct (buf_run_refines (_buf_init (mk_rb 0 0 0 (replicate 512 0)) 0) 511 []
    [OpPutChar 7; OpPut [1; 2; 3]; OpGetChar; OpGet 2; OpDrop 5; OpGetChar]) as (cb' & H & _).
  - apply init_holds. reflexivity.
  - reflexivity.
  - exists cb'. exact H.
Defined.

Definition example_rb : ringbuffer := mk_rb 4 1 2 [30; 40; 10; 20].

Lemma example_rb_holds : holds example_rb 3 [10; 20; 30].
Proof. split_and!; [|done..]. unfold rb_wf. simpl. lia. Qed.

Lemma buf_get_iter_spec_witness :
  ∃ cb' it', _buf_get_iter example_rb example_iter = Some (cb', it', 3) ∧
    holds cb' 3 [] ∧ iter_rel it' [10; 20; 30; 9; 9] 3.
Proof.
  apply (buf_get_iter_spec example_rb 3 [10; 20; 30] example_iter [0; 0; 0; 9; 9] 0).
  - apply example_rb_holds.
  - discriminate.
  - apply example_iter_rel.
Defined.

Lemma buf_put_iter_spec_witness :
  ∃ cb' it', _buf_put_iter (mk_rb 4 3 2 [1; 1; 10; 1]) example_iter = Some (cb', it', 2) ∧
    holds cb' 3 [10; 0; 0] ∧ iter_rel it' [0; 0; 0; 9; 9] 2.
Proof.
  apply (buf_put_iter_spec (mk_rb 4 3 2 [1; 1; 10; 1]) 3 [10] example_iter [0; 0; 0; 9; 9] 0).
  - split_and!; [|done..]. unfold rb_wf. simpl. lia.
  - apply example_iter_rel.
  - simpl. lia.
Defined.

(** C27: [_buf_peek] returns the queued bytes from an offset on without
    removing them, unless [out + offset] is exactly [max]: there the index is
    not wrapped and the first byte read is the one after the buffer. *)
Theorem buf_peek_spec cb cap l data (off n : nat) :
  holds cb cap l → (n ≤ length data)%nat → Z.of_nat off < 2 ^ 14 →
  (rb_out cb + Z.of_nat (off `min` length l) ≠ rb_max cb →
   _buf_peek cb data (Z.of_nat off) (Z.of_nat n) =
     Some (splice data 0 (slice l off (n `min` (length l - off))),
           Z.of_nat (n `min` (length l - off)))) ∧
  (rb_out cb + Z.of_nat (off `min` length l) = rb_max cb → (0 < n)%nat →
   zlen (buffer cb) = rb_max cb → _buf_peek cb data (Z.of_nat off) (Z.of_nat n) = None).
Proof.
  intros Hh Hn Hoff. split; [intros; by eapply peek_spec|].
  intros He Hn0 Hlb. pose proof (holds_bound _ _ _ Hh) as [Hb1 Hb2].
  pose proof Hh as (Hwf & Hm & Hl). pose proof (used_space_spec _ Hwf) as Hu.
  destruct Hwf as (Hi & Ho & _). unfold _buf_peek. rewrite Hu, Hl.
  replace (if zlen l <? Z.of_nat off then zlen l else Z.of_nat off)
    with (Z.of_nat (off `min` length l)) by (zif; lia).
  rewrite He, s16_small by lia. zif; [lia|]. destruct n as [|n]; [lia|].
  rewrite Nat2Z.id. cbn [_buf_peek_loop]. zif; [lia|].
  replace (rd (buffer cb) (rb_max cb)) with (@None Z); [done|].
  unfold rd. zif; [done|]. symmetry. apply lookup_ge_None_2. lia.
Qed.

Lemma buf_peek_spec_witness :
  _buf_peek example_rb [0; 0; 0] 1 2 = Some ([20; 30; 0], 2).
Proof.
  refine (proj1 (buf_peek_spec example_rb 3 [10; 20; 30] [0; 0; 0] 1 2 _ _ _) _).
  - apply example_rb_holds.
  - simpl. lia.
  - lia.
  - simpl. lia.
Defined.

(** [_buf_get_iter] on an empty buffer delivers stale bytes. *)
Lemma buf_get_iter_empty_delivers_garbage :
  ∃ it', _buf_get_iter (mk_rb 4 1 1 [91; 92; 93; 94]) (iovec_iter_init_simple_kvec [0; 0] 2) =
    Some (mk_rb 4 1 3 [91; 92; 93; 94], it', 2) ∧ it_data it' = ITER_KVEC [mk_kvec [92; 93] 2].
Proof. eexists. split; reflexivity. Qed.

(** The case [_buf_put_iter] gets wrong: four bytes stored in an empty buffer
    of four slots leave it empty. *)
Lemma buf_put_iter_overwrites_free_slot :
  ∃ it', _buf_put_iter (mk_rb 4 0 0 [0; 0; 0; 0]) (iovec_iter_init_simple_kvec [1; 2; 3; 4] 4) =
    Some (mk_rb 4 0 0 [1; 2; 3; 4], it', 4) ∧ contents (mk_rb 4 0 0 [1; 2; 3; 4]) = [].
Proof. eexists. split; reflexivity. Qed.
