(* ===== verification/Bits.v ===== *)
(** * Bits: bitmaps stored in arrays of words

    The page allocator keeps a bitmap of 16 bit words, the filesystems bitmaps
    of bytes.  This file gives both the same reading: bit [i] of an array of
    [W]-bit words, what setting and clearing a mask does to it, and how many
    bits are clear. *)

From S2P Require Import Prelude.

(** [1 << k] tests, sets and clears bit [k] of a word. *)
Lemma land_pow2_test w k : 0 ≤ k → (Z.land w (2 ^ k) =? 0) = negb (Z.testbit w k).
Proof.
  intros Hk. destruct (Z.testbit w k) eqn:E; simpl.
  - apply Z.eqb_neq. intros H. apply (f_equal (λ x, Z.testbit x k)) in H.
    rewrite Z.land_spec, Z.bits_0, Z.pow2_bits_true, E in H by done. done.
  - apply Z.eqb_eq. apply Z.bits_inj'. intros n Hn. rewrite Z.land_spec, Z.bits_0.
    destruct (decide (n = k)) as [->|]; [by rewrite E|].
    rewrite Z.pow2_bits_false by done. apply andb_false_r.
Qed.

Lemma testbit_set w k j :
  0 ≤ k → 0 ≤ j → Z.testbit (Z.lor w (2 ^ k)) j = (j =? k) || Z.testbit w j.
Proof.
  intros Hk Hj. rewrite Z.lor_spec, Z.pow2_bits_eqb by done.
  rewrite (Z.eqb_sym k j). apply orb_comm.
Qed.

Lemma testbit_clear w k j :
  0 ≤ k → 0 ≤ j → Z.testbit (Z.land w (Z.lnot (2 ^ k))) j = negb (j =? k) && Z.testbit w j.
Proof.
  intros Hk Hj. rewrite Z.land_spec, Z.lnot_spec, Z.pow2_bits_eqb by done.
  rewrite (Z.eqb_sym k j). apply andb_comm.
Qed.

(** Words as the residues of their width. *)
Lemma word_range_bits W w :
  0 ≤ W → (0 ≤ w < 2 ^ W ↔ 0 ≤ w ∧ ∀ j, W ≤ j → Z.testbit w j = false).
Proof.
  intros HW. split.
  - intros [H0 H1]. split; [done|]. intros j Hj.
    destruct (decide (w = 0)) as [->|]; [apply Z.bits_0|].
    apply Z.bits_above_log2; [done|]. apply Z.log2_lt_pow2; [lia|].
    assert (2 ^ W ≤ 2 ^ j) by (apply Z.pow_le_mono_r; lia). lia.
  - intros [H0 Hb]. split; [done|]. destruct (decide (w = 0)) as [->|]; [lia|].
    destruct (Z.lt_ge_cases w (2 ^ W)) as [|Hge]; [done|]. exfalso.
    assert (Hl : W ≤ Z.log2 w) by (apply Z.log2_le_pow2; lia).
    pose proof (Z.bit_log2 w ltac:(lia)) as Hbit. rewrite Hb in Hbit by done. done.
Qed.

Lemma word_set_range W w k : 0 ≤ k < W → 0 ≤ w < 2 ^ W → 0 ≤ Z.lor w (2 ^ k) < 2 ^ W.
Proof.
  intros Hk Hw. apply word_range_bits in Hw as [H0 Hb]; [|lia]. apply word_range_bits; [lia|].
  split; [apply Z.lor_nonneg; split; lia|]. intros j Hj.
  rewrite testbit_set, Hb by lia. destruct (Z.eqb_spec j k); [lia|done].
Qed.

Lemma word_clear_range W w k :
  0 ≤ k < W → 0 ≤ w < 2 ^ W → 0 ≤ Z.land w (Z.lnot (2 ^ k)) < 2 ^ W.
Proof.
  intros Hk Hw. apply word_range_bits in Hw as [H0 Hb]; [|lia]. apply word_range_bits; [lia|].
  split; [apply Z.land_nonneg; by left|]. intros j Hj.
  rewrite testbit_clear, Hb by lia. apply andb_false_r.
Qed.

(** A word with every bit set is the all-ones word. *)
Lemma word_all_ones W w :
  0 ≤ W → 0 ≤ w < 2 ^ W → (w = 2 ^ W - 1 ↔ ∀ j, 0 ≤ j < W → Z.testbit w j = true).
Proof.
  intros HW Hw. split.
  - intros -> j Hj. rewrite Z.sub_1_r, <- Z.ones_equiv, Z.ones_spec_low; [done|lia].
  - intros Hb. apply word_range_bits in Hw as [_ Ha]; [|done].
    rewrite Z.sub_1_r, <- Z.ones_equiv. apply Z.bits_inj'. intros j Hj.
    destruct (Z.lt_ge_cases j W).
    + rewrite Hb, Z.ones_spec_low by lia. done.
    + rewrite Ha, Z.ones_spec_high by lia. done.
Qed.

(** ** Arrays of words *)

Section bitmap.
Context (W : nat) (HW : (0 < W)%nat).
Implicit Types (l : list Z) (i j n : nat).

Definition bit_at l i : bool :=
  match l !! (i / W)%nat with
  | Some w => Z.testbit w (Z.of_nat (i mod W)%nat)
  | None => false
  end.

Definition words_ok l : Prop := Forall (λ w, 0 ≤ w < 2 ^ Z.of_nat W) l.

Definition set_bit l i : list Z :=
  alter (λ w, Z.lor w (2 ^ Z.of_nat (i mod W))) (i / W)%nat l.

Definition clear_bit l i : list Z :=
  alter (λ w, Z.land w (Z.lnot (2 ^ Z.of_nat (i mod W)))) (i / W)%nat l.

Lemma same_word i j : (i / W = j / W → i ≠ j → i mod W ≠ j mod W)%nat.
Proof. intros Hd Hne Hm. apply Hne. rewrite (Nat.div_mod i W), (Nat.div_mod j W) by lia. congruence. Qed.

Lemma word_exists l i : (i < length l * W)%nat → is_Some (l !! (i / W)%nat).
Proof. intros Hi. apply lookup_lt_is_Some_2. apply Nat.Div0.div_lt_upper_bound. lia. Qed.

Lemma bit_at_set l i j :
  (i < length l * W)%nat → bit_at (set_bit l i) j = (j =? i)%nat || bit_at l j.
Proof.
  intros Hi. destruct (word_exists l i Hi) as [w Hw]. unfold bit_at, set_bit.
  destruct (decide (i / W = j / W)%nat) as [He|Hne].
  - rewrite <- He, list_lookup_alter_eq, Hw. simpl. rewrite testbit_set by lia.
    f_equal. destruct (Nat.eqb_spec j i) as [->|]; [apply Z.eqb_refl|].
    apply Z.eqb_neq. pose proof (same_word i j He). lia.
  - rewrite list_lookup_alter_ne by done. destruct (Nat.eqb_spec j i) as [->|]; done.
Qed.

Lemma bit_at_clear l i j : bit_at (clear_bit l i) j = negb (j =? i)%nat && bit_at l j.
Proof.
  unfold bit_at, clear_bit. destruct (decide (i / W = j / W)%nat) as [He|Hne].
  - rewrite <- He, list_lookup_alter_eq. destruct (l !! (i / W)%nat) as [w|]; simpl;
      [|by rewrite andb_false_r].
    rewrite testbit_clear by lia. f_equal. f_equal.
    destruct (Nat.eqb_spec j i) as [->|]; [apply Z.eqb_refl|].
    apply Z.eqb_neq. pose proof (same_word i j He). lia.
  - rewrite list_lookup_alter_ne by done. destruct (Nat.eqb_spec j i) as [->|]; done.
Qed.

Lemma words_ok_alter l k f :
  words_ok l → (∀ w, 0 ≤ w < 2 ^ Z.of_nat W → 0 ≤ f w < 2 ^ Z.of_nat W) → words_ok (alter f k l).
Proof. intros Hl Hf. apply Forall_alter; [done|]. intros w Hk Hw. by apply Hf. Qed.

Lemma words_ok_set l i : words_ok l → words_ok (set_bit l i).
Proof.
  intros Hl. apply words_ok_alter; [done|]. intros w. apply word_set_range.
  pose proof (Nat.mod_upper_bound i W). lia.
Qed.

Lemma words_ok_clear l i : words_ok l → words_ok (clear_bit l i).
Proof.
  intros Hl. apply words_ok_alter; [done|]. intros w. apply word_clear_range.
  pose proof (Nat.mod_upper_bound i W). lia.
Qed.

Lemma length_set_bit l i : length (set_bit l i) = length l.
Proof. apply length_alter. Qed.
Lemma length_clear_bit l i : length (clear_bit l i) = length l.
Proof. apply length_alter. Qed.

(** ** Counting the clear bits *)

Fixpoint count_clear l n : nat :=
  match n with
  | O => 0
  | S n => ((if bit_at l n then 0 else 1) + count_clear l n)%nat
  end.

Lemma count_clear_ext l l' n :
  (∀ i, (i < n)%nat → bit_at l' i = bit_at l i) → count_clear l' n = count_clear l n.
Proof.
  induction n as [|n IH]; intros H; simpl; [done|].
  rewrite H, IH by (intros; try apply H; lia). done.
Qed.

Lemma count_clear_set l i n :
  (i < length l * W)%nat → (i < n)%nat → bit_at l i = false →
  S (count_clear (set_bit l i) n) = count_clear l n.
Proof.
  intros Hi Hin Hb. induction n as [|n IH]; [lia|]. simpl. rewrite bit_at_set by done.
  destruct (Nat.eqb_spec n i) as [->|Hne]; simpl.
  - rewrite Hb. simpl. f_equal. apply count_clear_ext. intros j Hj.
    rewrite bit_at_set by done. destruct (Nat.eqb_spec j i); [lia|done].
  - rewrite <- IH by lia. lia.
Qed.

Lemma count_clear_clear l i n :
  (i < n)%nat → bit_at l i = true →
  count_clear (clear_bit l i) n = S (count_clear l n).
Proof.
  intros Hin Hb. induction n as [|n IH]; [lia|]. simpl. rewrite bit_at_clear.
  destruct (Nat.eqb_spec n i) as [->|Hne]; simpl.
  - rewrite Hb. simpl. f_equal. apply count_clear_ext. intros j Hj.
    rewrite bit_at_clear. destruct (Nat.eqb_spec j i); [lia|done].
  - rewrite IH by lia. lia.
Qed.

Lemma count_clear_pos l n : (0 < count_clear l n)%nat → ∃ i, (i < n)%nat ∧ bit_at l i = false.
Proof.
  induction n as [|n IH]; simpl; [lia|]. destruct (bit_at l n) eqn:E; intros Hc.
  - destruct (IH Hc) as (i & ? & ?). exists i. split; [lia|done].
  - exists n. split; [lia|done].
Qed.

Lemma count_clear_le l n : (count_clear l n ≤ n)%nat.
Proof. induction n; simpl; [lia|]. destruct (bit_at l n); lia. Qed.
End bitmap.
