(* ===== verification/Pages.v ===== *)
(** * Pages: the physical page allocator

    Models include/kernel/mm/pages.h and src/kernel/mm/pages.c: page blocks
    (a bitmap of 16 bit words, one bit per page, and with an MMU a reference
    count per page), the first-fit search for contiguous pages, freeing,
    sharing, and the table of global blocks.

    A block owns the memory behind [bitmap] and [page_descriptors]: an access
    past their end is undefined ([None]).  [mmu] is CONFIG_MMU and
    [PAGE_ADDR_BITS] the configured page size.

    The specification is a list with the number of references of each page:
    allocation takes the first run of pages without references, freeing drops
    a reference of each page, making a reference adds one. *)

From S2P Require Import Prelude Bits.

(** ** Data *)

Record page_block := PageBlock {
  pb_flags : Z;
  total_pages : Z;
  free_pages : Z;
  base : Z;
  bitmap_size : Z;
  bitmap : list Z;
  page_descriptors : list Z;   (** the reference counts *)
}.

Definition set_bitmap (b : page_block) (bm : list Z) : page_block :=
  PageBlock (pb_flags b) (total_pages b) (free_pages b) (base b) (bitmap_size b) bm
    (page_descriptors b).
Definition set_descriptors (b : page_block) (d : list Z) : page_block :=
  PageBlock (pb_flags b) (total_pages b) (free_pages b) (base b) (bitmap_size b) (bitmap b) d.
Definition set_free_pages (b : page_block) (n : Z) : page_block :=
  PageBlock (pb_flags b) (total_pages b) n (base b) (bitmap_size b) (bitmap b)
    (page_descriptors b).

Definition NULL_PAGE : Z := 0.
Definition PAGE_F_TYPE : Z := 15.
Definition ALL_PAGES_AT_INDEX : Z := 65535.
Definition PAGES_PER_INDEX : Z := 16.
Definition LOG_OF_PAGES_PER_INDEX : Z := 4.
Definition BIT_INDEX (bit : Z) : Z := Z.shiftr bit LOG_OF_PAGES_PER_INDEX.
Definition BIT_MASK (bit : Z) : Z := Z.shiftl 1 (Z.land bit (PAGES_PER_INDEX - 1)).

(** [memset(p, 0, n)] on an array of big endian 16 bit words. *)
Definition memset_words (l : list Z) (n : Z) : option (list Z) :=
  if (0 <=? n) && (n <=? 2 * zlen l) then
    Some (imap (λ k w, let k := Z.of_nat k in
      if 2 * k + 2 <=? n then 0 else if 2 * k + 1 <=? n then w mod 256 else w) l)
  else None.

Section pages.
Context (mmu : bool) (PAGE_ADDR_BITS : Z).

Definition PAGE_SIZE : Z := Z.shiftl 1 PAGE_ADDR_BITS.

(** ** Initialisation *)

Definition init_page_block_with_bitmap (size addr : Z) (bm : list Z) (bm_size : Z)
    (descriptors : list Z) (flags : Z) : option (page_block * Z) :=
  let total := Z.shiftr size PAGE_ADDR_BITS in
  bm' ← memset_words bm bm_size;
  d' ← (if mmu then memset_words descriptors total else Some descriptors);
  let block := PageBlock flags total total addr bm_size bm' d' in
  if Z.shiftl bm_size LOG_OF_PAGES_PER_INDEX <? total then Some (block, -1)
  else Some (block, 0).

Definition block_bitmap_size (total : Z) : Z :=
  align_up (Z.shiftr total LOG_OF_PAGES_PER_INDEX) PAGES_PER_INDEX.
Definition block_bitmap_pages (total : Z) : Z :=
  Z.shiftr (align_up (block_bitmap_size total) PAGE_SIZE) PAGE_ADDR_BITS.
Definition block_descriptors_pages (total : Z) : Z :=
  if mmu then
    Z.shiftr (align_up ((total - block_bitmap_pages total) * 2) PAGE_SIZE) PAGE_ADDR_BITS
  else 0.

(** The memory at [addr] is given by its 16 bit words [mem]: the bitmap takes
    the first pages, the descriptors the next ones. *)
Definition init_page_block (mem : list Z) (addr size flags : Z) : option (page_block * Z) :=
  let total := Z.shiftr size PAGE_ADDR_BITS in
  let bm_size := block_bitmap_size total in
  let bitmap_pages := block_bitmap_pages total in
  let descriptors_pages := block_descriptors_pages total in
  let allocatable_pages := total - bitmap_pages - descriptors_pages in
  let pages_addr := addr + (bitmap_pages + descriptors_pages) * PAGE_SIZE in
  let words n := Z.to_nat (n * PAGE_SIZE / 2) in
  init_page_block_with_bitmap (Z.shiftl allocatable_pages PAGE_ADDR_BITS) pages_addr
    (slice mem 0 (words bitmap_pages)) bm_size
    (slice mem (words bitmap_pages) (words descriptors_pages)) flags.

(** ** One block *)

Definition test_bit (b : page_block) (bit : Z) : option bool :=
  w ← rd (bitmap b) (BIT_INDEX bit);
  Some (negb (Z.land w (BIT_MASK bit) =? 0)).

(** [for (end_bit = ...; end_bit < total_pages && end_bit - start_bit < contiguous_pages; ...)] *)
Fixpoint alloc_scan (fuel : nat) (b : page_block) (contiguous start_bit end_bit : Z) : option Z :=
  if (end_bit <? u32 (total_pages b)) && (u32 (end_bit - start_bit) <? u32 contiguous) then
    used ← test_bit b end_bit;
    if used : bool then Some end_bit
    else match fuel with
         | O => None
         | S fuel => alloc_scan fuel b contiguous start_bit (u32 (end_bit + 1))
         end
  else Some end_bit.

(** [for (bit = start_bit; bit < end_bit; bit++)] *)
Fixpoint alloc_mark (fuel : nat) (b : page_block) (bit end_bit : Z) : option page_block :=
  if bit <? end_bit then
    match fuel with
    | O => None
    | S fuel =>
        d ← (if mmu then wr (page_descriptors b) bit 1 else Some (page_descriptors b));
        w ← rd (bitmap b) (BIT_INDEX bit);
        bm ← wr (bitmap b) (BIT_INDEX bit) (u16 (Z.lor w (BIT_MASK bit)));
        alloc_mark fuel (set_bitmap (set_descriptors b d) bm) (u32 (bit + 1)) end_bit
    end
  else Some b.

(** [while (start_bit < block->total_pages)] *)
Fixpoint alloc_from (fuel : nat) (b : page_block) (contiguous start_bit : Z) :
    option (page_block * Z) :=
  if start_bit <? u32 (total_pages b) then
    match fuel with
    | O => None
    | S fuel =>
        w ← rd (bitmap b) (BIT_INDEX start_bit);
        if w =? ALL_PAGES_AT_INDEX then
          alloc_from fuel b contiguous (u32 (start_bit + PAGES_PER_INDEX))
        else if negb (Z.land w (BIT_MASK start_bit) =? 0) then
          alloc_from fuel b contiguous (u32 (start_bit + 1))
        else
          end_bit ← alloc_scan (Z.to_nat (total_pages b)) b contiguous start_bit (u32 (start_bit + 1));
          if (u32 (total_pages b) <? end_bit) || (u32 (end_bit - start_bit) <? u32 contiguous) then
            alloc_from fuel b contiguous (u32 (start_bit + 1))
          else
            b' ← alloc_mark (Z.to_nat (total_pages b)) b start_bit end_bit;
            Some (set_free_pages b' (s32 (free_pages b' - contiguous)),
                  u32 (base b' + start_bit * PAGE_SIZE))
    end
  else Some (b, NULL_PAGE).

Definition page_block_alloc (b : page_block) (size : Z) : option (page_block * Z) :=
  alloc_from (S (Z.to_nat (total_pages b))) b (s32 (Z.shiftr size PAGE_ADDR_BITS)) 0.

Definition page_number (b : page_block) (ptr : Z) : Z :=
  s32 (Z.shiftr (u32 (ptr - base b)) PAGE_ADDR_BITS).

(** The body of the loop of page_block_free for one page. *)
Definition free_one (b : page_block) (page : Z) : option page_block :=
  let clear b :=
    w ← rd (bitmap b) (BIT_INDEX page);
    bm ← wr (bitmap b) (BIT_INDEX page) (u16 (Z.land w (Z.lnot (BIT_MASK page))));
    Some (set_free_pages (set_bitmap b bm) (s32 (free_pages b + 1))) in
  if mmu then
    r ← rd (page_descriptors b) page;
    d ← wr (page_descriptors b) page (u16 (r - 1));
    if negb (u16 (r - 1) =? 0) then Some (set_descriptors b d) else clear (set_descriptors b d)
  else clear b.

(** [for (; size >= PAGE_SIZE; page_number++, size -= PAGE_SIZE)] *)
Fixpoint each_page (fuel : nat) (f : page_block → Z → option page_block)
    (b : page_block) (page size : Z) : option page_block :=
  if PAGE_SIZE <=? size then
    match fuel with
    | O => None
    | S fuel => b' ← f b page; each_page fuel f b' (s32 (page + 1)) (u32 (size - PAGE_SIZE))
    end
  else Some b.

Definition page_loop_fuel (size : Z) : nat := Z.to_nat (Z.shiftr size PAGE_ADDR_BITS).

Definition page_block_free (b : page_block) (ptr size : Z) : option page_block :=
  each_page (page_loop_fuel size) free_one b (page_number b ptr) size.

Definition ref_one (b : page_block) (page : Z) : option page_block :=
  r ← rd (page_descriptors b) page;
  d ← wr (page_descriptors b) page (u16 (r + 1));
  Some (set_descriptors b d).

Definition page_block_make_ref (b : page_block) (ptr size : Z) : option (page_block * Z) :=
  b' ← each_page (page_loop_fuel size) ref_one b (page_number b ptr) size;
  Some (b', ptr).

Definition page_block_get_ref_single (b : page_block) (ptr : Z) : option Z :=
  rd (page_descriptors b) (page_number b ptr).

(** ** The global blocks *)

Record global_pages := GlobalPages {
  num_global_blocks : Z;
  global_blocks : list page_block;   (** CONFIG_MAX_PAGE_BLOCKS entries *)
}.

Definition block_end (b : page_block) : Z := u32 (base b + total_pages b * PAGE_SIZE).

Definition append_global_page_block (g : global_pages) (mem : list Z) (start size flags : Z) :
    option (global_pages * Z) :=
  let append :=
    let n := num_global_blocks g + 1 in
    '(block, error) ← init_page_block mem start size flags;
    bs ← wr (global_blocks g) (n - 1) block;
    Some (GlobalPages n bs, error) in
  if 0 <? num_global_blocks g then
    prev ← rd (global_blocks g) (num_global_blocks g);
    if start <? block_end prev then Some (g, -22 (* EINVAL *)) else append
  else append.

Definition init_pages (g : global_pages) (mem : list Z) (start size flags : Z) :
    option (global_pages * Z) :=
  '(g', error) ← append_global_page_block (GlobalPages 0 (global_blocks g)) mem start size flags;
  if error <? 0 then Some (g', error) else Some (g', 0).

(** [for (int i = 0; i < num_global_blocks; i++)] up to the first block that
    satisfies the condition. *)
Fixpoint find_block (fuel : nat) (g : global_pages) (cond : page_block → bool) (i : Z) :
    option (option (Z * page_block)) :=
  if i <? num_global_blocks g then
    match fuel with
    | O => None
    | S fuel =>
        b ← rd (global_blocks g) i;
        if cond b then Some (Some (i, b)) else find_block fuel g cond (i + 1)
    end
  else Some None.

Definition set_block (g : global_pages) (i : Z) (b : page_block) : option global_pages :=
  bs ← wr (global_blocks g) i b; Some (GlobalPages (num_global_blocks g) bs).

Definition page_alloc (g : global_pages) (size flags : Z) : option (global_pages * Z) :=
  let contiguous_pages := s32 (Z.shiftr size PAGE_ADDR_BITS) in
  let t := Z.land PAGE_F_TYPE flags in
  r ← find_block (Z.to_nat (num_global_blocks g)) g
        (λ b, (Z.land (pb_flags b) t =? t) && (contiguous_pages <? free_pages b)) 0;
  match r with
  | Some (i, b) =>
      '(b', ptr) ← page_block_alloc b size; g' ← set_block g i b'; Some (g', ptr)
  | None => Some (g, NULL_PAGE)
  end.

Definition in_block (ptr : Z) (b : page_block) : bool :=
  (base b <=? ptr) && (ptr <=? block_end b).

Definition page_free (g : global_pages) (ptr size : Z) : option global_pages :=
  r ← find_block (Z.to_nat (num_global_blocks g)) g (in_block ptr) 0;
  match r with
  | Some (i, b) => b' ← page_block_free b ptr size; set_block g i b'
  | None => Some g
  end.

(** The loops of page_make_ref and page_get_ref_single have no return inside:
    every block that contains the address is visited. *)
Fixpoint make_ref_blocks (fuel : nat) (g : global_pages) (ptr size i : Z) : option global_pages :=
  if i <? num_global_blocks g then
    match fuel with
    | O => None
    | S fuel =>
        b ← rd (global_blocks g) i;
        g' ← (if in_block ptr b then
                '(b', _) ← page_block_make_ref b ptr size; set_block g i b'
              else Some g);
        make_ref_blocks fuel g' ptr size (i + 1)
    end
  else Some g.

Definition page_make_ref (g : global_pages) (ptr size : Z) : option (global_pages * Z) :=
  g' ← make_ref_blocks (Z.to_nat (num_global_blocks g)) g ptr size 0;
  Some (g', NULL_PAGE).

Fixpoint get_ref_blocks (fuel : nat) (g : global_pages) (ptr i : Z) : option unit :=
  if i <? num_global_blocks g then
    match fuel with
    | O => None
    | S fuel =>
        b ← rd (global_blocks g) i;
        _ ← (if in_block ptr b then page_block_get_ref_single b ptr else Some 0);
        get_ref_blocks fuel g ptr (i + 1)
    end
  else Some tt.

Definition page_get_ref_single (g : global_pages) (ptr : Z) : option Z :=
  _ ← get_ref_blocks (Z.to_nat (num_global_blocks g)) g ptr 0; Some 0.

(** ** Specification: references per page *)

Definition run_at (l : list Z) (n s : nat) : bool :=
  forallb (λ k, bool_decide (l !! (s + k)%nat = Some 0)) (seq 0 n).

(** The first page from which [n] pages have no references. *)
Definition first_fit (l : list Z) (n : nat) : option nat :=
  List.find (run_at l n) (seq 0 (length l)).

Fixpoint count0 (l : list Z) : Z :=
  match l with [] => 0 | r :: l => (if r =? 0 then 1 else 0) + count0 l end.

(** The bitmap and the descriptors of [b] record the references [l]. *)
Record tracks (b : page_block) (l : list Z) : Prop := {
  tr_words : words_ok 16 (bitmap b);
  tr_total : total_pages b = zlen l;
  tr_bitmap : (length l ≤ length (bitmap b) * 16)%nat;
  tr_descriptors : mmu = true → (length l ≤ length (page_descriptors b))%nat;
  tr_base : 0 < base b;
  tr_end : base b + zlen l * PAGE_SIZE ≤ 2 ^ 32;
  tr_refs : ∀ i r, l !! i = Some r →
    0 ≤ r < 65536 ∧ bit_at 16 (bitmap b) i = negb (r =? 0) ∧
    if mmu then r = 0 ∨ page_descriptors b !! i = Some r else r ≤ 1;
}.

(** ... and its counter the number of pages without one. *)
Definition block_rel (b : page_block) (l : list Z) : Prop :=
  tracks b l ∧ free_pages b = count0 l.

Definition same_block (b b' : page_block) : Prop :=
  base b' = base b ∧ total_pages b' = total_pages b ∧ pb_flags b' = pb_flags b.

Lemma same_block_refl b : same_block b b.
Proof. done. Qed.
Lemma same_block_trans b1 b2 b3 : same_block b1 b2 → same_block b2 b3 → same_block b1 b3.
Proof. unfold same_block. intuition congruence. Qed.

Hypothesis page_bits : 8 ≤ PAGE_ADDR_BITS ≤ 16.

Lemma PAGE_SIZE_pow : PAGE_SIZE = 2 ^ PAGE_ADDR_BITS.
Proof. unfold PAGE_SIZE. rewrite Z.shiftl_mul_pow2 by lia. lia. Qed.

Lemma PAGE_SIZE_range : 256 ≤ PAGE_SIZE ≤ 65536.
Proof.
  rewrite PAGE_SIZE_pow. change 256 with (2 ^ 8). change 65536 with (2 ^ 16).
  split; apply Z.pow_le_mono_r; lia.
Qed.

Lemma shiftr_page x : Z.shiftr x PAGE_ADDR_BITS = x / PAGE_SIZE.
Proof. rewrite PAGE_SIZE_pow. apply Z.shiftr_div_pow2. lia. Qed.

Lemma tracks_small b l : tracks b l → zlen l < 2 ^ 24.
Proof. intros H. pose proof PAGE_SIZE_range. destruct H. nia. Qed.

Lemma BIT_INDEX_nat i : BIT_INDEX (Z.of_nat i) = Z.of_nat (i / 16).
Proof.
  unfold BIT_INDEX, LOG_OF_PAGES_PER_INDEX. rewrite Z.shiftr_div_pow2 by lia.
  by rewrite Nat2Z.inj_div.
Qed.

Lemma BIT_MASK_nat i : BIT_MASK (Z.of_nat i) = 2 ^ Z.of_nat (i mod 16).
Proof.
  unfold BIT_MASK, PAGES_PER_INDEX. change (16 - 1) with (Z.ones 4).
  rewrite Z.land_ones by lia. rewrite Z.shiftl_mul_pow2 by (apply Z.mod_pos_bound; lia).
  rewrite Z.mul_1_l. by rewrite Nat2Z.inj_mod.
Qed.

Lemma alter_insert {A} (f : A → A) (l : list A) i x :
  l !! i = Some x → alter f i l = <[i := f x]> l.
Proof.
  intros Hx. apply list_eq. intros j. destruct (decide (i = j)) as [<-|].
  - rewrite list_lookup_alter_eq, Hx, list_lookup_insert_eq; [done|].
    by eapply lookup_lt_Some.
  - by rewrite list_lookup_alter_ne, list_lookup_insert_ne.
Qed.

(** The word of page [i] and what its masked updates write. *)
Lemma tracks_word b l i :
  tracks b l → (i < length l)%nat →
  ∃ w, bitmap b !! (i / 16)%nat = Some w ∧ 0 ≤ w < 65536 ∧
    rd (bitmap b) (BIT_INDEX (Z.of_nat i)) = Some w ∧
    wr (bitmap b) (BIT_INDEX (Z.of_nat i)) (u16 (Z.lor w (BIT_MASK (Z.of_nat i))))
      = Some (set_bit 16 (bitmap b) i) ∧
    wr (bitmap b) (BIT_INDEX (Z.of_nat i)) (u16 (Z.land w (Z.lnot (BIT_MASK (Z.of_nat i)))))
      = Some (clear_bit 16 (bitmap b) i).
Proof.
  intros [] Hi. destruct (word_exists 16 ltac:(lia) (bitmap b) i) as [w Hw]; [lia|].
  pose proof (Forall_lookup_1 _ _ _ _ tr_words0 Hw) as Hr. simpl in Hr.
  pose proof (Nat.mod_upper_bound i 16) as Hm.
  exists w. rewrite BIT_INDEX_nat, BIT_MASK_nat, rd_nat.
  rewrite !wr_in_range by (apply lookup_lt_Some in Hw; lia). rewrite Nat2Z.id.
  pose proof (word_set_range 16 w (Z.of_nat (i mod 16)) ltac:(lia) Hr).
  pose proof (word_clear_range 16 w (Z.of_nat (i mod 16)) ltac:(lia) Hr).
  rewrite !u16_small by lia. unfold set_bit, clear_bit.
  rewrite !(alter_insert _ _ _ w) by done. done.
Qed.

Lemma test_bit_ok b l i r :
  tracks b l → l !! i = Some r → test_bit b (Z.of_nat i) = Some (negb (r =? 0)).
Proof.
  intros Ht Hi. pose proof (lookup_lt_Some _ _ _ Hi) as Hlt.
  destruct (tracks_word b l i Ht Hlt) as (w & Hw & _ & Hrd & _).
  unfold test_bit. rewrite Hrd. simpl. rewrite BIT_MASK_nat, land_pow2_test by lia.
  destruct (tr_refs _ _ Ht i r Hi) as (_ & Hb & _). unfold bit_at in Hb. rewrite Hw in Hb.
  by rewrite Hb, negb_involutive.
Qed.

(** ** Updating one page *)

Lemma tracks_insert b l i r bm d n :
  tracks b l → (i < length l)%nat → 0 ≤ r < 65536 →
  d = (if mmu then <[i := r]> (page_descriptors b) else page_descriptors b) →
  (mmu = false → r ≤ 1) →
  words_ok 16 bm → length bm = length (bitmap b) →
  (∀ j, bit_at 16 bm j = if (j =? i)%nat then negb (r =? 0) else bit_at 16 (bitmap b) j) →
  tracks (set_free_pages (set_bitmap (set_descriptors b d) bm) n) (<[i := r]> l).
Proof.
  intros [] Hi Hr -> Hr1 Hw Hl Hb. constructor; simpl; rewrite ?length_insert, ?Hl; try done.
  - intros Hm. rewrite Hm, length_insert. auto.
  - intros j x Hx. rewrite Hb. destruct (Nat.eqb_spec j i) as [->|Hne].
    + rewrite list_lookup_insert_eq in Hx by done. injection Hx as <-.
      split; [lia|]. split; [done|]. destruct mmu; [|auto]. right.
      apply list_lookup_insert_eq. pose proof (tr_descriptors0 eq_refl). lia.
    + rewrite list_lookup_insert_ne in Hx by done.
      destruct (tr_refs0 j x Hx) as (? & ? & Hd). split; [done|]. split; [done|].
      destruct mmu; [|done]. by rewrite list_lookup_insert_ne.
Qed.

Lemma tracks_set_free b l n : tracks b l → tracks (set_free_pages b n) l.
Proof. intros []. by constructor. Qed.

Lemma set_free_same b : set_free_pages b (free_pages b) = b.
Proof. by destruct b. Qed.

Lemma count0_range l : 0 ≤ count0 l ≤ zlen l.
Proof. induction l as [|r l IH]; simpl; [lia|]. destruct (r =? 0); lia. Qed.

Lemma count0_app l1 l2 : count0 (l1 ++ l2) = count0 l1 + count0 l2.
Proof. induction l1 as [|r l IH]; simpl; lia. Qed.

Lemma count0_insert l i r r' :
  l !! i = Some r →
  count0 (<[i := r']> l) = count0 l - (if r =? 0 then 1 else 0) + (if r' =? 0 then 1 else 0).
Proof.
  intros Hr. rewrite insert_take_drop by (by eapply lookup_lt_Some).
  rewrite <- (take_drop_middle l i r Hr) at 3. rewrite !count0_app. simpl. lia.
Qed.

Lemma count0_replicate n r : count0 (replicate n r) = if r =? 0 then Z.of_nat n else 0.
Proof. induction n as [|n IH]; simpl; [by destruct (r =? 0)|]. rewrite IH. destruct (r =? 0); lia. Qed.

Lemma count0_splice l s bs :
  (s + length bs ≤ length l)%nat →
  count0 (splice l s bs) = count0 l - count0 (slice l s (length bs)) + count0 bs.
Proof.
  intros H. unfold splice, slice. rewrite !count0_app.
  assert (E : ∀ k l, count0 l = count0 (take k l) + count0 (drop k l))
    by (intros k l0; by rewrite <- count0_app, take_drop).
  rewrite (E s l), (E (length bs) (drop s l)), drop_drop. lia.
Qed.

(** One page marked as allocated: one iteration of the marking loop. *)
Lemma mark_one b l i fuel e :
  tracks b l → (i < length l)%nat → (i < e)%nat →
  ∃ b', alloc_mark (S fuel) b (Z.of_nat i) (Z.of_nat e)
          = alloc_mark fuel b' (Z.of_nat (S i)) (Z.of_nat e) ∧
        tracks b' (<[i := 1]> l) ∧ free_pages b' = free_pages b ∧ same_block b b'.
Proof.
  intros Ht Hi He. pose proof (tracks_small b l Ht).
  destruct (tracks_word b l i Ht Hi) as (w & Hw & Hwr & Hrd & Hset & _).
  set (d := if mmu then <[i := 1]> (page_descriptors b) else page_descriptors b).
  exists (set_free_pages (set_bitmap (set_descriptors b d) (set_bit 16 (bitmap b) i)) (free_pages b)).
  split; [|split; [|done]].
  - simpl. destruct (Z.ltb_spec (Z.of_nat i) (Z.of_nat e)) as [_|]; [|lia].
    assert (Hd : (if mmu then wr (page_descriptors b) (Z.of_nat i) 1
                  else Some (page_descriptors b)) = Some d).
    { unfold d. destruct mmu eqn:Em; [|done]. pose proof (tr_descriptors _ _ Ht Em).
      rewrite wr_in_range by lia. by rewrite Nat2Z.id. }
    rewrite Hd. simpl. rewrite Hrd. simpl. rewrite Hset. simpl. unwrap.
    by rewrite Nat2Z.inj_succ.
  - apply tracks_insert; try done; try lia.
    + apply words_ok_set; [lia|]. apply Ht.
    + apply length_set_bit.
    + intros j. rewrite bit_at_set by (pose proof (tr_bitmap _ _ Ht); lia).
      by destruct (j =? i)%nat.
Qed.

Lemma splice_replicate_S l i n (x : Z) :
  (i + S n ≤ length l)%nat →
  splice (<[i := x]> l) (S i) (replicate n x) = splice l i (replicate (S n) x).
Proof.
  intros H. rewrite insert_splice by lia.
  rewrite (splice_splice_adj l i (S i) [x] (replicate n x)); [done|simpl; lia|].
  rewrite length_replicate. simpl. lia.
Qed.

Lemma alloc_mark_ok n : ∀ fuel b l i,
  (n ≤ fuel)%nat → tracks b l → (i + n ≤ length l)%nat →
  ∃ b', alloc_mark fuel b (Z.of_nat i) (Z.of_nat (i + n)) = Some b' ∧
        tracks b' (splice l i (replicate n 1)) ∧ free_pages b' = free_pages b ∧ same_block b b'.
Proof.
  induction n as [|n IH]; intros fuel b l i Hf Ht Hi.
  - exists b. simpl. rewrite splice_nil, Nat.add_0_r. split; [|done].
    destruct fuel; simpl; by rewrite Z.ltb_irrefl.
  - destruct fuel as [|fuel]; [lia|].
    destruct (mark_one b l i fuel (i + S n) Ht) as (b1 & E1 & Ht1 & Hf1 & Hs1); [lia|lia|].
    destruct (IH fuel b1 (<[i := 1]> l) (S i)) as (b2 & E2 & Ht2 & Hf2 & Hs2);
      [lia|done|rewrite length_insert; lia|].
    exists b2. rewrite E1. rewrite <- splice_replicate_S by lia.
    replace (i + S n)%nat with (S i + n)%nat by lia. rewrite E2.
    split; [done|]. split; [done|]. split; [congruence|]. by eapply same_block_trans.
Qed.

(** ** The search *)

Lemma run_at_true l n s :
  run_at l n s = true ↔ ∀ k, (k < n)%nat → l !! (s + k)%nat = Some 0.
Proof.
  unfold run_at. rewrite forallb_forall. split.
  - intros H k Hk. apply (bool_decide_eq_true_1 _), H, in_seq. lia.
  - intros H k [_ Hk]%in_seq. apply bool_decide_eq_true_2, H. lia.
Qed.

Lemma run_at_first l n s r :
  (0 < n)%nat → l !! s = Some r → r ≠ 0 → run_at l n s = false.
Proof.
  intros Hn Hs Hr. apply not_true_is_false. intros H.
  pose proof (proj1 (run_at_true l n s) H 0%nat Hn) as E. rewrite Nat.add_0_r in E. congruence.
Qed.

Lemma find_seq_first (f : nat → bool) a n s :
  (a ≤ s < a + n)%nat → f s = true → (∀ k, (a ≤ k < s)%nat → f k = false) →
  List.find f (seq a n) = Some s.
Proof.
  revert a. induction n as [|n IH]; intros a Hs Hf Hb; [lia|]. simpl.
  destruct (decide (a = s)) as [->|]; [by rewrite Hf|].
  rewrite Hb by lia. apply IH; [lia|done|]. intros. apply Hb. lia.
Qed.

Lemma find_seq_none (f : nat → bool) a n :
  (∀ k, (a ≤ k < a + n)%nat → f k = false) → List.find f (seq a n) = None.
Proof.
  revert a. induction n as [|n IH]; intros a Hb; [done|]. simpl.
  rewrite Hb by lia. apply IH. intros. apply Hb. lia.
Qed.

(** A used page, or the end of the block, cuts the run at [s] short. *)
Lemma run_at_cut l n s e :
  (s ≤ e < s + n)%nat → l !! e ≠ Some 0 → run_at l n s = false.
Proof.
  intros He Hl. apply not_true_is_false. intros Hr. apply Hl.
  pose proof (proj1 (run_at_true l n s) Hr (e - s)%nat ltac:(lia)) as E.
  by replace (s + (e - s))%nat with e in E by lia.
Qed.

Definition scanned (l : list Z) (n s e : nat) : Prop :=
  (s < e ≤ length l)%nat ∧
  ((e = s + n)%nat ∧ run_at l n s = true ∨ (e < s + n)%nat ∧ run_at l n s = false).

Lemma scanned_stop l n s e :
  (s < e ≤ length l)%nat → (e - s ≤ n)%nat → (∀ k, (s ≤ k < e)%nat → l !! k = Some 0) →
  (e < s + n)%nat ∧ l !! e ≠ Some 0 ∨ e = (s + n)%nat → scanned l n s e.
Proof.
  intros He Hn Hfree [[Hlt Hr]| ->]; (split; [done|]).
  - right. split; [done|]. apply (run_at_cut l n s e); [lia|done].
  - left. split; [done|]. apply run_at_true. intros. apply Hfree. lia.
Qed.

(** The inner loop extends the free run at [s] as far as needed. *)
Lemma alloc_scan_ok b l n s : ∀ fuel e,
  tracks b l → Z.of_nat n < 2 ^ 31 →
  (s < e ≤ length l)%nat → (e - s ≤ n)%nat → (length l - e ≤ fuel)%nat →
  (∀ k, (s ≤ k < e)%nat → l !! k = Some 0) →
  ∃ e', alloc_scan fuel b (Z.of_nat n) (Z.of_nat s) (Z.of_nat e) = Some (Z.of_nat e') ∧
    scanned l n s e'.
Proof.
  intros fuel. induction fuel as [|fuel IH]; intros e Ht Hnb He Hen Hf Hfree;
    pose proof (tracks_small b l Ht); pose proof (tr_total _ _ Ht) as Htot;
    pose proof (scanned_stop l n s e He Hen Hfree) as Hstop;
    pose proof (lookup_ge_None_2 l e) as Hnone; simpl; rewrite Htot; unwrap;
    destruct (Z.ltb_spec (Z.of_nat e) (zlen l)), (Z.ltb_spec (Z.of_nat e - Z.of_nat s) (Z.of_nat n));
    simpl; try (exists e; split; [done|]; apply Hstop; lia);
    try (exists e; split; [done|]; apply Hstop; left; rewrite Hnone by lia; split; [lia|done]); [lia|].
  destruct (lookup_lt_is_Some_2 l e) as [r Hr]; [lia|].
  rewrite (test_bit_ok b l e r) by done. simpl.
  destruct (Z.eqb_spec r 0) as [->|Hr0]; simpl.
  - unwrap. replace (Z.of_nat e + 1) with (Z.of_nat (S e)) by lia.
    apply IH; try done; try lia. intros k Hk.
    destruct (decide (k = e)) as [->|]; [done|]. apply Hfree. lia.
  - exists e. split; [done|]. apply Hstop. left. split; [lia|]. congruence.
Qed.

(** Where the search stands: no run starts before [s], and [s] is at the
    start of its word when all the pages of the word are taken. *)
Definition searched (b : page_block) (l : list Z) (n s : nat) : Prop :=
  (∀ k, (k < s)%nat → run_at l n k = false) ∧
  (bitmap b !! (s / 16)%nat = Some 65535 → (s mod 16 = 0)%nat).

Lemma searched_step b l n s w :
  searched b l n s → bitmap b !! (s / 16)%nat = Some w → w ≠ 65535 →
  run_at l n s = false → searched b l n (S s).
Proof.
  intros [Hno Hal] Hw Hne Hs. split.
  - intros k Hk. destruct (decide (k = s)) as [->|]; [done|]. apply Hno. lia.
  - intros Hfull. destruct (decide (S s / 16 = s / 16)%nat) as [E|].
    + rewrite E in Hfull. congruence.
    + pose proof (Nat.div_mod_eq s 16). pose proof (Nat.mod_upper_bound s 16).
      pose proof (Nat.div_mod_eq (S s) 16). pose proof (Nat.mod_upper_bound (S s) 16). lia.
Qed.

Lemma searched_skip b l n s :
  tracks b l → (0 < n)%nat → searched b l n s → bitmap b !! (s / 16)%nat = Some 65535 →
  searched b l n (s + 16).
Proof.
  intros Ht Hn [Hno Hal] Hw. specialize (Hal Hw). split.
  - intros k Hk. destruct (decide (k < s)%nat) as [|Hge]; [auto|].
    destruct (l !! k) as [r|] eqn:Hr; [|apply (run_at_cut l n k k); [lia|congruence]].
    apply (run_at_first l n k r); [done|done|]. intros ->.
    destruct (tr_refs _ _ Ht k 0 Hr) as (_ & Hb & _). unfold bit_at in Hb.
    pose proof (Nat.div_mod_eq s 16). pose proof (Nat.div_mod_eq k 16).
    pose proof (Nat.mod_upper_bound k 16).
    replace (k / 16)%nat with (s / 16)%nat in Hb by lia. rewrite Hw in Hb.
    rewrite (proj1 (word_all_ones 16 65535 ltac:(lia) ltac:(lia)) eq_refl) in Hb by lia. done.
  - intros _. replace (s + 16)%nat with (s + 1 * 16)%nat by lia.
    by rewrite Nat.Div0.mod_add.
Qed.

(** What a search for [n] pages gives: the first fit, marked, or NULL. *)
Definition alloc_result (b : page_block) (l : list Z) (n : nat)
    (res : option (page_block * Z)) : Prop :=
  match first_fit l n with
  | None => res = Some (b, NULL_PAGE)
  | Some s => ∃ b', tracks b' (splice l s (replicate n 1)) ∧
      free_pages b' = free_pages b ∧ same_block b b' ∧ (s + n ≤ length l)%nat ∧
      run_at l n s = true ∧
      res = Some (set_free_pages b' (s32 (free_pages b' - Z.of_nat n)),
                  base b + Z.of_nat s * PAGE_SIZE)
  end.

Lemma alloc_found b l n s :
  tracks b l → (0 < n)%nat → (∀ k, (k < s)%nat → run_at l n k = false) →
  run_at l n s = true → (s + n ≤ length l)%nat →
  alloc_result b l n
    (b' ← alloc_mark (Z.to_nat (total_pages b)) b (Z.of_nat s) (Z.of_nat (s + n));
     Some (set_free_pages b' (s32 (free_pages b' - Z.of_nat n)),
           u32 (base b' + Z.of_nat s * PAGE_SIZE))).
Proof.
  intros Ht Hn Hno Hrun Hle. unfold alloc_result, first_fit.
  rewrite (find_seq_first _ 0 (length l) s); [|lia|done|intros; apply Hno; lia].
  destruct (alloc_mark_ok n (Z.to_nat (total_pages b)) b l s) as (b' & E & Ht' & Hf & Hs);
    [pose proof (tr_total _ _ Ht); lia|done|done|].
  exists b'. rewrite E. simpl. split; [done|]. split; [done|]. split; [done|].
  split; [done|]. split; [done|]. destruct Hs as (-> & _). rewrite u32_small; [done|].
  pose proof PAGE_SIZE_range. destruct Ht. nia.
Qed.

Lemma alloc_from_ok b l n : ∀ fuel s,
  tracks b l → (0 < n)%nat → Z.of_nat n < 2 ^ 31 → (length l - s < fuel)%nat →
  Z.of_nat s < 2 ^ 30 → searched b l n s →
  alloc_result b l n (alloc_from fuel b (Z.of_nat n) (Z.of_nat s)).
Proof.
  induction fuel as [|fuel IH]; intros s Ht Hn Hnb Hf Hs Hse; [lia|].
  pose proof (tracks_small b l Ht). pose proof (tr_total _ _ Ht) as Htot. simpl.
  rewrite Htot. unwrap. destruct (Z.ltb_spec (Z.of_nat s) (zlen l)) as [Hlt|Hge]; cycle 1.
  { unfold alloc_result, first_fit. rewrite find_seq_none; [done|].
    intros k Hk. apply (proj1 Hse). lia. }
  destruct (tracks_word b l s Ht) as (w & Hw & Hwr & Hrd & _); [lia|].
  destruct (lookup_lt_is_Some_2 l s) as [r Hr]; [lia|].
  pose proof (test_bit_ok b l s r Ht Hr) as Htest. unfold test_bit in Htest.
  rewrite Hrd in *. simpl in Htest |- *. injection Htest as ->.
  replace (u32 (Z.of_nat s + 1)) with (Z.of_nat (S s)) by (rewrite u32_small; lia).
  unfold ALL_PAGES_AT_INDEX. destruct (Z.eqb_spec w 65535) as [->|Hne].
  { unfold PAGES_PER_INDEX. replace (Z.of_nat s + 16) with (Z.of_nat (s + 16)) by lia.
    unwrap. apply IH; [done|done|done|lia|lia|]. by apply searched_skip. }
  pose proof (searched_step b l n s w Hse Hw Hne) as Hnext.
  destruct (Z.eqb_spec r 0) as [->|Hr0]; simpl; cycle 1.
  { apply IH; [done|done|done|lia|lia|]. by apply Hnext, (run_at_first l n s r). }
  destruct (alloc_scan_ok b l n s (Z.to_nat (total_pages b)) (S s)) as (e & Ee & He1 & He2);
    [done|lia|lia|lia|lia| |].
  { intros k Hk. by replace k with s by lia. }
  rewrite Htot in Ee. rewrite Ee. simpl. unwrap.
  destruct (Z.ltb_spec (zlen l) (Z.of_nat e)); [lia|]. simpl.
  destruct He2 as [[-> Hrun]|[Hlt' Hrun]].
  - zif; [lia|]. rewrite <- Htot. apply alloc_found; [done|done|apply Hse|done|lia].
  - zif; [|lia]. apply IH; [done|done|done|lia|lia|]. by apply Hnext.
Qed.

Lemma slice_run l n s : run_at l n s = true → slice l s n = replicate n 0.
Proof.
  intros H. rewrite run_at_true in H. apply list_eq. intros k. rewrite lookup_slice.
  destruct (Nat.ltb_spec k n).
  - rewrite H by done. symmetry. by apply lookup_replicate_2.
  - symmetry. apply lookup_ge_None_2. rewrite length_replicate. lia.
Qed.

Definition page_count (size : Z) : nat := Z.to_nat (size / PAGE_SIZE).

Lemma page_count_range size :
  0 ≤ size < 2 ^ 32 → Z.of_nat (page_count size) = size / PAGE_SIZE ∧ size / PAGE_SIZE < 2 ^ 24.
Proof.
  intros H. pose proof PAGE_SIZE_range. unfold page_count.
  assert (0 ≤ size / PAGE_SIZE) by (apply Z.div_pos; lia). split; [lia|].
  apply Z.div_lt_upper_bound; lia.
Qed.

(** Allocation takes the first run of free pages that is long enough; it
    fails exactly when there is none. *)
Lemma page_block_alloc_ok b l size :
  block_rel b l → PAGE_SIZE ≤ size < 2 ^ 32 →
  match first_fit l (page_count size) with
  | None => page_block_alloc b size = Some (b, NULL_PAGE)
  | Some s => ∃ b', page_block_alloc b size = Some (b', base b + Z.of_nat s * PAGE_SIZE) ∧
      block_rel b' (splice l s (replicate (page_count size) 1)) ∧ same_block b b' ∧
      (s + page_count size ≤ length l)%nat ∧ run_at l (page_count size) s = true
  end.
Proof.
  intros [Ht Hfree] Hsize. pose proof PAGE_SIZE_range.
  destruct (page_count_range size) as [Hn Hn']; [lia|].
  assert (0 < page_count size)%nat by (pose proof (Z.div_str_pos size PAGE_SIZE); lia).
  pose proof (alloc_from_ok b l (page_count size) (S (Z.to_nat (total_pages b))) 0 Ht) as Hr.
  unfold page_block_alloc. rewrite shiftr_page, s32_small by lia. rewrite <- Hn.
  specialize (Hr ltac:(lia) ltac:(lia)). rewrite (tr_total _ _ Ht) in *.
  specialize (Hr ltac:(lia) ltac:(lia) ltac:(by split; [lia|])).
  unfold alloc_result in Hr. destruct (first_fit l (page_count size)) as [s|]; [|exact Hr].
  destruct Hr as (b' & Ht' & Hf' & Hs & Hle & Hrun & E). eexists. split; [exact E|].
  split; [|done]. split; [by apply tracks_set_free|]. simpl.
  rewrite count0_splice by (rewrite length_replicate; lia).
  rewrite length_replicate, slice_run by done. rewrite !count0_replicate. simpl.
  pose proof (count0_range l). pose proof (tracks_small b l Ht). rewrite s32_small; lia.
Qed.

(** Dropping and adding a reference of one page. *)
Definition page_step (f : page_block → Z → option page_block) (d lo hi : Z) : Prop :=
  ∀ b l i r, block_rel b l → l !! i = Some r → lo ≤ r < hi →
    ∃ b', f b (Z.of_nat i) = Some b' ∧ block_rel b' (<[i := r + d]> l) ∧ same_block b b'.

Lemma block_rel_desc b l i r r' :
  block_rel b l → l !! i = Some r → mmu = true → 0 < r → 0 < r' < 65536 →
  block_rel (set_descriptors b (<[i := r']> (page_descriptors b))) (<[i := r']> l).
Proof.
  intros [Ht Hf] Hi Hm Hr Hr'. destruct (tr_refs _ _ Ht i r Hi) as (_ & Hb & _). split; simpl.
  - rewrite <- (set_free_same (set_descriptors _ _)).
    apply (tracks_insert b l i r' (bitmap b)); try done; try lia.
    + by eapply lookup_lt_Some.
    + by rewrite Hm.
    + apply Ht.
    + intros j. destruct (Nat.eqb_spec j i) as [->|]; [|done]. rewrite Hb.
      destruct (Z.eqb_spec r 0), (Z.eqb_spec r' 0); (done || lia).
  - rewrite (count0_insert l i r r' Hi), Hf.
    destruct (Z.eqb_spec r 0), (Z.eqb_spec r' 0); lia.
Qed.

Lemma free_last b l i d :
  block_rel b l → l !! i = Some 1 →
  d = (if mmu then <[i := 0]> (page_descriptors b) else page_descriptors b) →
  block_rel (set_free_pages (set_bitmap (set_descriptors b d) (clear_bit 16 (bitmap b) i))
               (s32 (free_pages b + 1))) (<[i := 0]> l).
Proof.
  intros [Ht Hf] Hi Hd. pose proof (lookup_lt_Some _ _ _ Hi). split.
  - apply tracks_insert; try done; try lia.
    + apply words_ok_clear; [lia|]. apply Ht.
    + apply length_clear_bit.
    + intros j. rewrite bit_at_clear by lia. by destruct (j =? i)%nat.
  - simpl. rewrite (count0_insert l i 1 0 Hi), Hf. simpl.
    pose proof (count0_range l). pose proof (tracks_small b l Ht). rewrite s32_small; lia.
Qed.

Lemma free_one_ok : page_step free_one (-1) 1 65536.
Proof.
  intros b l i r Hrel Hi Hr. pose proof Hrel as [Ht Hf].
  pose proof (lookup_lt_Some _ _ _ Hi) as Hlt.
  destruct (tr_refs _ _ Ht i r Hi) as (Hrr & Hb & Hd).
  destruct (tracks_word b l i Ht Hlt) as (w & Hw & Hwr & Hrd & _ & Hclr).
  pose proof (free_last b l i) as Hlast. unfold free_one.
  destruct mmu eqn:Em.
  - pose proof (tr_descriptors _ _ Ht Em). destruct Hd as [->|Hd]; [lia|].
    rewrite rd_nat, Hd. simpl.
    rewrite wr_in_range by lia. rewrite Nat2Z.id. simpl. unwrap.
    destruct (Z.eqb_spec (r - 1) 0) as [E|]; simpl.
    + assert (r = 1) as -> by lia. rewrite Hrd. simpl. rewrite Hclr. simpl.
      eexists. split; [done|]. split; [|done]. by apply Hlast.
    + eexists. split; [done|]. split; [|done]. apply (block_rel_desc b l i r); [done..|lia|lia].
  - assert (r = 1) as -> by lia. rewrite Hrd. simpl. rewrite Hclr. simpl.
    eexists. split; [done|]. split; [|done].
    pose proof (Hlast (page_descriptors b) Hrel Hi eq_refl) as Hres.
    destruct b. exact Hres.
Qed.

Lemma ref_one_ok : mmu = true → page_step ref_one 1 1 65535.
Proof.
  intros Hm b l i r Hrel Hi Hr. pose proof Hrel as [Ht Hf].
  pose proof (lookup_lt_Some _ _ _ Hi) as Hlt.
  destruct (tr_refs _ _ Ht i r Hi) as (Hrr & Hb & Hd). rewrite Hm in Hd.
  destruct Hd as [->|Hd]; [lia|]. pose proof (tr_descriptors _ _ Ht Hm). unfold ref_one. rewrite rd_nat, Hd. simpl.
  rewrite wr_in_range by lia. rewrite Nat2Z.id. simpl. unwrap.
  eexists. split; [done|]. split; [|done]. apply (block_rel_desc b l i r); [done..|lia|lia].
Qed.

(** [n] pages from [s] on with [d] more references each. *)
Definition add_refs (l : list Z) (s n : nat) (d : Z) : list Z :=
  splice l s (map (λ r, r + d) (slice l s n)).

Lemma add_refs_S l i n d r :
  l !! i = Some r → (i + S n ≤ length l)%nat →
  add_refs (<[i := r + d]> l) (S i) n d = add_refs l i (S n) d.
Proof.
  intros Hr H. unfold add_refs. rewrite insert_splice by lia.
  rewrite slice_splice_disjoint by (simpl; lia).
  rewrite (splice_splice_adj l i (S i) [r + d]);
    [|simpl; lia|rewrite length_map, length_slice; simpl; lia].
  f_equal. unfold slice. rewrite (drop_S l r i) by done. done.
Qed.

Lemma each_page_ok f d lo hi : page_step f d lo hi → ∀ n fuel b l i size,
  block_rel b l → (i + n ≤ length l)%nat → Forall (λ r, lo ≤ r < hi) (slice l i n) →
  0 ≤ size < 2 ^ 32 → size / PAGE_SIZE = Z.of_nat n → (n ≤ fuel)%nat →
  ∃ b', each_page fuel f b (Z.of_nat i) size = Some b' ∧
    block_rel b' (add_refs l i n d) ∧ same_block b b'.
Proof.
  intros Hf n. pose proof PAGE_SIZE_range as Hps.
  induction n as [|n IH]; intros fuel b l i size Hrel Hi Hall Hsize Hdiv Hfuel.
  - exists b. unfold add_refs. rewrite slice_0. simpl. rewrite splice_nil.
    assert (size < PAGE_SIZE) by (pose proof (Z.div_str_pos size PAGE_SIZE); lia).
    split; [|done]. destruct fuel; simpl; by zif; [lia|].
  - destruct fuel as [|fuel]; [lia|]. destruct (lookup_lt_is_Some_2 l i) as [r Hr]; [lia|].
    assert (Hsl : slice l i (S n) = r :: slice l (S i) n) by (unfold slice; by rewrite (drop_S l r i)).
    rewrite Hsl in Hall. apply Forall_cons in Hall as [Hr1 Hall].
    destruct (Hf b l i r Hrel Hr Hr1) as (b1 & E1 & Hrel1 & Hs1).
    pose proof (Z.div_mod size PAGE_SIZE ltac:(lia)).
    pose proof (Z.mod_pos_bound size PAGE_SIZE ltac:(lia)).
    assert (PAGE_SIZE ≤ size) by nia.
    destruct (IH fuel b1 (<[i := r + d]> l) (S i) (size - PAGE_SIZE)) as (b2 & E2 & Hrel2 & Hs2).
    + done.
    + rewrite length_insert. lia.
    + rewrite insert_splice, slice_splice_disjoint by (simpl; lia). done.
    + lia.
    + replace (size - PAGE_SIZE) with (size + (-1) * PAGE_SIZE) by lia.
      rewrite Z.div_add by lia. lia.
    + lia.
    + exists b2. rewrite add_refs_S in Hrel2 by (done || lia).
      split; [|split; [done|by eapply same_block_trans]].
      simpl. zif; [|lia]. rewrite E1. simpl. rewrite u32_small by lia.
      pose proof (tracks_small b l (proj1 Hrel)). rewrite s32_small by lia.
      by replace (Z.of_nat i + 1) with (Z.of_nat (S i)) by lia.
Qed.

(** The page an address belongs to. *)
Definition page_of (start ptr : Z) : nat := Z.to_nat ((ptr - start) / PAGE_SIZE).

Lemma page_number_ok b ptr :
  0 < base b ≤ ptr → ptr < 2 ^ 32 → page_number b ptr = Z.of_nat (page_of (base b) ptr).
Proof.
  intros. pose proof PAGE_SIZE_range. unfold page_number, page_of.
  rewrite u32_small by lia. rewrite shiftr_page.
  assert (0 ≤ (ptr - base b) / PAGE_SIZE < 2 ^ 24)
    by (split; [apply Z.div_pos; lia|apply Z.div_lt_upper_bound; lia]).
  rewrite s32_small by lia. lia.
Qed.

Section each_page_ops.
Context (b : page_block) (l : list Z) (ptr size : Z).
Hypothesis (Hrel : block_rel b l) (Hptr : base b ≤ ptr < 2 ^ 32) (Hsize : 0 ≤ size < 2 ^ 32).
Hypothesis (Hin : (page_of (base b) ptr + page_count size ≤ length l)%nat).

Lemma page_range_ok f d lo hi :
  page_step f d lo hi → Forall (λ r, lo ≤ r < hi) (slice l (page_of (base b) ptr) (page_count size)) →
  ∃ b', each_page (page_loop_fuel size) f b (page_number b ptr) size = Some b' ∧
    block_rel b' (add_refs l (page_of (base b) ptr) (page_count size) d) ∧ same_block b b'.
Proof.
  intros Hf Hall. pose proof (tr_base _ _ (proj1 Hrel)). rewrite page_number_ok by lia.
  eapply each_page_ok; try done; [symmetry; by apply page_count_range|].
  unfold page_loop_fuel. by rewrite shiftr_page.
Qed.

(** Freeing drops one reference of each page of the range. *)
Lemma page_block_free_ok :
  Forall (λ r, 1 ≤ r < 65536) (slice l (page_of (base b) ptr) (page_count size)) →
  ∃ b', page_block_free b ptr size = Some b' ∧
    block_rel b' (add_refs l (page_of (base b) ptr) (page_count size) (-1)) ∧ same_block b b'.
Proof. apply page_range_ok, free_one_ok. Qed.

Lemma page_block_make_ref_ok :
  mmu = true → Forall (λ r, 1 ≤ r < 65535) (slice l (page_of (base b) ptr) (page_count size)) →
  ∃ b', page_block_make_ref b ptr size = Some (b', ptr) ∧
    block_rel b' (add_refs l (page_of (base b) ptr) (page_count size) 1) ∧ same_block b b'.
Proof.
  intros Hm Hall. destruct (page_range_ok _ _ _ _ (ref_one_ok Hm) Hall) as (b' & E & ? & ?).
  exists b'. unfold page_block_make_ref. by rewrite E.
Qed.
End each_page_ops.

(** ** Sequences of operations on a block *)

Inductive page_op :=
  | PageAlloc (size : Z)
  | PageFree (ptr size : Z)
  | PageRef (ptr size : Z)
  | PageGetRef (ptr : Z).

Definition page_op_step (b : page_block) (op : page_op) : option (page_block * Z) :=
  match op with
  | PageAlloc size => page_block_alloc b size
  | PageFree ptr size => b' ← page_block_free b ptr size; Some (b', 0)
  | PageRef ptr size => page_block_make_ref b ptr size
  | PageGetRef ptr => r ← page_block_get_ref_single b ptr; Some (b, r)
  end.

(** The pages of [ptr], [size] are in the block and have between 1 and [hi] references. *)
Definition held (start : Z) (l : list Z) (hi ptr size : Z) : bool :=
  (start <=? ptr) && (ptr <? 2 ^ 32) && (0 <=? size) && (size <? 2 ^ 32) &&
  (page_of start ptr + page_count size <=? length l)%nat &&
  forallb (λ r, (1 <=? r) && (r <=? hi)) (slice l (page_of start ptr) (page_count size)).

Definition page_spec (start : Z) (l : list Z) (op : page_op) : option (list Z * Z) :=
  match op with
  | PageAlloc size =>
      if (PAGE_SIZE <=? size) && (size <? 2 ^ 32) then
        match first_fit l (page_count size) with
        | Some s => Some (splice l s (replicate (page_count size) 1), start + Z.of_nat s * PAGE_SIZE)
        | None => Some (l, NULL_PAGE)
        end
      else None
  | PageFree ptr size =>
      if held start l 65535 ptr size
      then Some (add_refs l (page_of start ptr) (page_count size) (-1), 0) else None
  | PageRef ptr size =>
      if mmu && held start l 65534 ptr size
      then Some (add_refs l (page_of start ptr) (page_count size) 1, ptr) else None
  | PageGetRef ptr =>
      if mmu && held start l 65535 ptr PAGE_SIZE
      then r ← l !! page_of start ptr; Some (l, r) else None
  end.

Lemma held_spec start l hi ptr size :
  held start l hi ptr size = true →
  start ≤ ptr < 2 ^ 32 ∧ 0 ≤ size < 2 ^ 32 ∧
  (page_of start ptr + page_count size ≤ length l)%nat ∧
  Forall (λ r, 1 ≤ r < hi + 1) (slice l (page_of start ptr) (page_count size)).
Proof.
  unfold held. rewrite !andb_true_iff, forallb_forall. intros (((((? & ?) & ?) & ?) & ?) & Hall).
  split; [lia|]. split; [lia|]. split; [lia|]. apply Forall_forall. intros r Hr.
  apply list_elem_of_In in Hr. apply Hall in Hr. lia.
Qed.

Lemma page_op_refines b l op l' r :
  block_rel b l → page_spec (base b) l op = Some (l', r) →
  ∃ b', page_op_step b op = Some (b', r) ∧ block_rel b' l' ∧ base b' = base b.
Proof.
  intros Hrel Hspec. destruct op as [size|ptr size|ptr size|ptr]; simpl in Hspec |- *.
  - zif_in Hspec; [|done]. pose proof (page_block_alloc_ok b l size Hrel ltac:(lia)) as H.
    destruct (first_fit l (page_count size)); injection Hspec as <- <-; [|eauto].
    destruct H as (b' & E & ? & (? & _) & _). eauto.
  - zif_in Hspec; [|done]. injection Hspec as <- <-.
    apply held_spec in Heqb0 as (? & ? & ? & ?).
    destruct (page_block_free_ok b l ptr size) as (b' & -> & ? & (? & _)); [done..|].
    simpl. eauto.
  - destruct mmu eqn:Em; [|done]. simpl in Hspec. zif_in Hspec; [|done].
    injection Hspec as <- <-. apply held_spec in Heqb0 as (? & ? & ? & ?).
    destruct (page_block_make_ref_ok b l ptr size) as (b' & -> & ? & (? & _)); [done..|]. eauto.
  - destruct mmu eqn:Em; [|done]. simpl in Hspec. zif_in Hspec; [|done].
    apply held_spec in Heqb0 as (? & ? & Hle & Hall).
    destruct (l !! page_of (base b) ptr) as [x|] eqn:Hx; [|done].
    simpl in Hspec. injection Hspec as <- <-.
    destruct (tr_refs _ _ (proj1 Hrel) _ _ Hx) as (_ & _ & Hd). rewrite Em in Hd.
    assert (1 ≤ x).
    { assert (page_count PAGE_SIZE = 1)%nat as E1
        by (unfold page_count; rewrite Z.div_same by (pose proof PAGE_SIZE_range; lia); done).
      rewrite E1 in Hall. unfold slice in Hall. rewrite (drop_S l x _ Hx) in Hall.
      simpl in Hall. apply Forall_cons in Hall as [? _]. lia. }
    destruct Hd as [->|Hd]; [lia|]. pose proof (tr_base _ _ (proj1 Hrel)).
    unfold page_block_get_ref_single. rewrite page_number_ok by lia. rewrite rd_nat, Hd. simpl. eauto.
Qed.

(** C16: any sequence of allocations, frees and references on a page block,
    within the contract (sizes of at least a page, only held pages freed or
    shared), returns what the specification on reference counts returns: each
    allocation the first run of unreferenced pages, NULL only when there is
    none, and no page is handed out while it is held.  The bitmap, counters
    and descriptors stay consistent and no access leaves them. *)
Theorem pages_run_refines b l ops l' rs :
  block_rel b l → run_out (page_spec (base b)) l ops = Some (l', rs) →
  ∃ b', run_out page_op_step b ops = Some (b', rs) ∧ block_rel b' l' ∧ base b' = base b.
Proof.
  revert b l rs. induction ops as [|op ops IH]; intros b l rs Hrel Hrun; simpl in *.
  - injection Hrun as <- <-. eauto.
  - destruct (page_spec (base b) l op) as [[l1 r]|] eqn:E; [|done]. simpl in Hrun.
    destruct (page_op_refines b l op l1 r Hrel E) as (b1 & E1 & Hrel1 & Hb1).
    destruct (run_out (page_spec (base b)) l1 ops) as [[l2 rs2]|] eqn:E2; [|done].
    simpl in Hrun. injection Hrun as <- <-. rewrite <- Hb1 in E2.
    destruct (IH b1 l1 rs2 Hrel1 E2) as (b2 & E3 & Hrel2 & Hb2).
    exists b2. rewrite E1. simpl. rewrite E3. split; [done|]. split; [done|congruence].
Qed.

(** ** The global blocks *)

Record global_rel (g : global_pages) (ls : list (list Z)) : Prop := {
  gr_num : num_global_blocks g = zlen ls;
  gr_len : (length ls ≤ length (global_blocks g))%nat;
  gr_rel : ∀ i b l, global_blocks g !! i = Some b → ls !! i = Some l →
    block_rel b l ∧ base b + zlen l * PAGE_SIZE < 2 ^ 32;
  gr_apart : ∀ i j b b', (i < j < length ls)%nat →
    global_blocks g !! i = Some b → global_blocks g !! j = Some b' →
    base b + total_pages b * PAGE_SIZE < base b';
}.

(** The block loop stops at the first block that satisfies the condition. *)
Lemma find_block_ok g ls cond : global_rel g ls → ∀ fuel i,
  (length ls - i ≤ fuel)%nat → (i ≤ length ls)%nat →
  (∃ j b l, find_block fuel g cond (Z.of_nat i) = Some (Some (Z.of_nat j, b)) ∧
     global_blocks g !! j = Some b ∧ ls !! j = Some l ∧ cond b = true ∧ (i ≤ j)%nat ∧
     ∀ k b', (i ≤ k < j)%nat → global_blocks g !! k = Some b' → cond b' = false) ∨
  (find_block fuel g cond (Z.of_nat i) = Some None ∧
     ∀ k b', (i ≤ k < length ls)%nat → global_blocks g !! k = Some b' → cond b' = false).
Proof.
  intros Hg fuel. induction fuel as [|fuel IH]; intros i Hf Hi; simpl;
    rewrite (gr_num _ _ Hg); destruct (Z.ltb_spec (Z.of_nat i) (zlen ls));
    try lia; try (right; split; [done|]; intros; lia).
  destruct (lookup_lt_is_Some_2 ls i) as [l Hl]; [lia|].
  destruct (lookup_lt_is_Some_2 (global_blocks g) i) as [b Hb]; [pose proof (gr_len _ _ Hg); lia|].
  rewrite rd_nat, Hb. simpl. destruct (cond b) eqn:Ec.
  - left. exists i, b, l. do 5 (split; [done || lia|]). intros; lia.
  - replace (Z.of_nat i + 1) with (Z.of_nat (S i)) by lia.
    destruct (IH (S i)) as [(j & b' & l' & ? & ? & ? & ? & ? & Hno)|[? Hno]]; [lia|lia| |].
    + left. exists j, b', l'. do 4 (split; [done|]). split; [lia|]. intros k b0 Hk Hb0.
      destruct (decide (k = i)) as [->|]; [congruence|]. apply (Hno k); [lia|done].
    + right. split; [done|]. intros k b0 Hk Hb0.
      destruct (decide (k = i)) as [->|]; [congruence|]. apply (Hno k); [lia|done].
Qed.

Lemma set_block_rel g ls i b b' l' :
  global_rel g ls → global_blocks g !! i = Some b → (i < length ls)%nat →
  block_rel b' l' → same_block b b' →
  ∃ g', set_block g (Z.of_nat i) b' = Some g' ∧ global_rel g' (<[i := l']> ls) ∧
    global_blocks g' !! i = Some b' ∧ num_global_blocks g' = num_global_blocks g ∧
    (∀ k, k ≠ i → global_blocks g' !! k = global_blocks g !! k).
Proof.
  intros Hg Hb Hi Hrel' (Hs1 & Hs2 & _). pose proof (lookup_lt_Some _ _ _ Hb).
  unfold set_block. rewrite wr_in_range by lia. simpl. rewrite Nat2Z.id.
  eexists. split; [done|]. simpl. split; [|split; [by apply list_lookup_insert_eq|split; [done|]]];
    [|intros; by apply list_lookup_insert_ne].
  destruct (lookup_lt_is_Some_2 ls i Hi) as [l Hl].
  destruct (gr_rel _ _ Hg i b l Hb Hl) as [Hrel Hend].
  pose proof (tr_total _ _ (proj1 Hrel)). pose proof (tr_total _ _ (proj1 Hrel')).
  constructor; simpl; rewrite ?length_insert; [apply Hg..| |].
  - intros k c m Hc Hm. destruct (decide (k = i)) as [->|].
    + rewrite list_lookup_insert_eq in Hc by done. rewrite list_lookup_insert_eq in Hm by done.
      injection Hc as <-. injection Hm as <-.
      split; [done|]. rewrite Hs1. replace (zlen l') with (zlen l) by congruence. done.
    + rewrite list_lookup_insert_ne in Hc by done. rewrite list_lookup_insert_ne in Hm by done.
      by apply (gr_rel _ _ Hg k).
  - assert (Hold : ∀ k c, <[i:=b']> (global_blocks g) !! k = Some c → ∃ c0,
      global_blocks g !! k = Some c0 ∧ base c = base c0 ∧ total_pages c = total_pages c0).
    { intros k c Hc. destruct (decide (k = i)) as [->|].
      - rewrite list_lookup_insert_eq in Hc by done. injection Hc as <-. eauto.
      - rewrite list_lookup_insert_ne in Hc by done. eauto. }
    intros k m c c' Hk (c0 & Hc0 & -> & ->)%Hold (c1 & Hc1 & -> & _)%Hold.
    by apply (gr_apart _ _ Hg k m).
Qed.

(** Dropping the references an allocation made gives the old counts back. *)
Lemma add_refs_undo l n s :
  run_at l n s = true → (s + n ≤ length l)%nat →
  add_refs (splice l s (replicate n 1)) s n (-1) = l.
Proof.
  intros Hrun Hle. unfold add_refs.
  pose proof (slice_splice l s (replicate n 1)) as Hs. rewrite length_replicate in Hs.
  rewrite Hs, fmap_replicate by lia. simpl. apply list_eq. intros k.
  rewrite !lookup_splice by (rewrite ?length_splice, ?length_replicate; rewrite ?length_replicate; lia).
  rewrite !length_replicate. zif; [done|]. zif; [|done].
  rewrite lookup_replicate_2 by lia. rewrite run_at_true in Hrun.
  change (1 + -1) with 0. rewrite <- (Hrun (k - s)%nat) by lia. f_equal. lia.
Qed.

Definition eligible (size flags : Z) (b : page_block) : bool :=
  (Z.land (pb_flags b) (Z.land PAGE_F_TYPE flags) =? Z.land PAGE_F_TYPE flags) &&
  (size / PAGE_SIZE <? free_pages b).

Lemma page_alloc_unfold g size flags :
  0 ≤ size < 2 ^ 32 →
  page_alloc g size flags =
    r ← find_block (Z.to_nat (num_global_blocks g)) g (eligible size flags) 0;
    match r with
    | Some (i, b) =>
        '(b', ptr) ← page_block_alloc b size; g' ← set_block g i b'; Some (g', ptr)
    | None => Some (g, NULL_PAGE)
    end.
Proof.
  intros H. unfold page_alloc, eligible. pose proof (page_count_range size H).
  rewrite shiftr_page, s32_small by lia. done.
Qed.

Lemma in_block_own g ls i b l ptr :
  global_rel g ls → global_blocks g !! i = Some b → ls !! i = Some l →
  base b ≤ ptr ≤ base b + zlen l * PAGE_SIZE →
  find_block (Z.to_nat (num_global_blocks g)) g (in_block ptr) 0 = Some (Some (Z.of_nat i, b)).
Proof.
  intros Hg Hb Hl Hptr. pose proof (lookup_lt_Some _ _ _ Hl).
  destruct (gr_rel _ _ Hg i b l Hb Hl) as [[Ht _] Hend].
  assert (Hin : in_block ptr b = true).
  { unfold in_block, block_end. rewrite (tr_total _ _ Ht). pose proof (tr_base _ _ Ht).
    pose proof PAGE_SIZE_range. rewrite u32_small by nia. lia. }
  assert (Hno : ∀ k c, (k < i)%nat → global_blocks g !! k = Some c → in_block ptr c = false).
  { intros k c Hk Hc. destruct (lookup_lt_is_Some_2 ls k) as [lc Hlc]; [lia|].
    destruct (gr_rel _ _ Hg k c lc Hc Hlc) as [[Htc _] Hendc].
    pose proof (gr_apart _ _ Hg k i c b ltac:(lia) Hc Hb) as Hap.
    unfold in_block, block_end. rewrite (tr_total _ _ Htc) in *. pose proof (tr_base _ _ Htc).
    pose proof PAGE_SIZE_range. rewrite u32_small by nia. lia. }
  rewrite (gr_num _ _ Hg).
  destruct (find_block_ok g ls (in_block ptr) Hg (Z.to_nat (zlen ls)) 0)
    as [(j & b' & l' & E & Hb' & Hl' & Hc & _ & Hbefore)|[E Hnone]]; [lia|lia| |].
  - change 0 with (Z.of_nat 0). rewrite E.
    destruct (Nat.lt_trichotomy i j) as [Hij|[->|Hij]].
    + rewrite (Hbefore i b) in Hin by (done || lia). done.
    + congruence.
    + rewrite (Hno j b') in Hc by done. done.
  - rewrite (Hnone i b) in Hin by (done || lia). done.
Qed.

(** Freeing the pages an allocation returned undoes it. *)
Lemma page_block_free_undo b l b' s size :
  block_rel b l → PAGE_SIZE ≤ size < 2 ^ 32 →
  block_rel b' (splice l s (replicate (page_count size) 1)) → same_block b b' →
  (s + page_count size ≤ length l)%nat → run_at l (page_count size) s = true →
  ∃ b'', page_block_free b' (base b + Z.of_nat s * PAGE_SIZE) size = Some b'' ∧
    block_rel b'' l ∧ same_block b' b''.
Proof.
  intros [Ht _] Hsize Hrel' (Hbase & _) Hle Hrun. pose proof PAGE_SIZE_range.
  set (n := page_count size) in *. set (ptr := base b + Z.of_nat s * PAGE_SIZE).
  pose proof (page_count_range size ltac:(lia)). pose proof (tr_end _ _ Ht).
  assert (0 < n)%nat by (unfold n; pose proof (Z.div_str_pos size PAGE_SIZE); lia).
  assert (Hpage : page_of (base b') ptr = s).
  { rewrite Hbase. unfold page_of, ptr.
    replace (base b + Z.of_nat s * PAGE_SIZE - base b) with (Z.of_nat s * PAGE_SIZE) by lia.
    rewrite Z.div_mul by lia. lia. }
  assert (Hptr : base b' ≤ ptr < 2 ^ 32) by (rewrite Hbase; unfold ptr; nia).
  pose proof (slice_splice l s (replicate n 1)) as Hsl. rewrite length_replicate in Hsl.
  destruct (page_block_free_ok b' _ ptr size Hrel' Hptr ltac:(lia)) as (b'' & E & Hr & Hs).
  - rewrite Hpage, length_splice by (rewrite length_replicate; lia). done.
  - fold n. rewrite Hpage, Hsl by lia. apply Forall_replicate. lia.
  - fold n in Hr. rewrite Hpage, add_refs_undo in Hr by done. eauto.
Qed.
(** What page_alloc does: NULL, or the first run of an eligible block. *)
(** Block [i] is the first that qualifies. *)
Definition first_eligible (g : global_pages) (size flags : Z) (i : nat) : Prop :=
  (∃ b, global_blocks g !! i = Some b ∧ eligible size flags b = true) ∧
  ∀ k c, (k < i)%nat → global_blocks g !! k = Some c → eligible size flags c = false.

(** What page_alloc does: NULL, or the first run of the first eligible block. *)
Lemma page_alloc_ok g ls size flags :
  global_rel g ls → PAGE_SIZE ≤ size < 2 ^ 32 →
  (page_alloc g size flags = Some (g, NULL_PAGE) ∧
   ((∀ k b, (k < length ls)%nat → global_blocks g !! k = Some b → eligible size flags b = false) ∨
    (∃ i b l, global_blocks g !! i = Some b ∧ ls !! i = Some l ∧
       first_eligible g size flags i ∧ first_fit l (page_count size) = None))) ∨
  (∃ i b l s g' b',
     global_blocks g !! i = Some b ∧ ls !! i = Some l ∧ first_eligible g size flags i ∧
     first_fit l (page_count size) = Some s ∧ run_at l (page_count size) s = true ∧
     (s + page_count size ≤ length l)%nat ∧
     page_alloc g size flags = Some (g', base b + Z.of_nat s * PAGE_SIZE) ∧
     global_rel g' (<[i := splice l s (replicate (page_count size) 1)]> ls) ∧
     global_blocks g' !! i = Some b' ∧ same_block b b' ∧
     (∀ k, k ≠ i → global_blocks g' !! k = global_blocks g !! k)).
Proof.
  intros Hg Hsize. pose proof PAGE_SIZE_range. rewrite page_alloc_unfold by lia.
  rewrite (gr_num _ _ Hg). change 0 with (Z.of_nat 0).
  destruct (find_block_ok g ls (eligible size flags) Hg (Z.to_nat (zlen ls)) 0)
    as [(i & b & l & -> & Hb & Hl & He & _ & Hearly)|[-> Hnone]]; [lia|lia| |]; cycle 1.
  { left. split; [done|]. left. intros. eapply Hnone; [|done]. lia. }
  simpl. destruct (gr_rel _ _ Hg i b l Hb Hl) as [Hrel Hend].
  assert (Hfe : first_eligible g size flags i) by (split; [by exists b|]; intros k c Hk; apply Hearly; lia).
  pose proof (page_block_alloc_ok b l size Hrel Hsize) as Ha.
  destruct (first_fit l (page_count size)) as [s|] eqn:Ef; cycle 1.
  { left. rewrite Ha. simpl. split; [|eauto 10]. unfold set_block.
    rewrite wr_in_range by (apply lookup_lt_Some in Hb; lia). simpl.
    rewrite Nat2Z.id, list_insert_id by done. by destruct g. }
  right. destruct Ha as (b' & E & Hrel' & Hsame & Hle & Hrun). rewrite E. simpl.
  pose proof (lookup_lt_Some _ _ _ Hl) as Hil.
  destruct (set_block_rel g ls i b b' _ Hg Hb Hil Hrel' Hsame) as (g' & -> & Hg' & Hb' & _ & Hoth).
  exists i, b, l, s, g', b'. simpl. done.
Qed.

(** C28: page_alloc takes pages from the first block of the requested type with
    more free pages than asked for: the first run of free pages, or NULL when
    no block qualifies or that block has no such run; page_free of what was
    returned finds the block again and restores every reference count. *)
Theorem page_alloc_free g ls size flags :
  global_rel g ls → PAGE_SIZE ≤ size < 2 ^ 32 →
  (page_alloc g size flags = Some (g, NULL_PAGE) ∧
   ((∀ k b, (k < length ls)%nat → global_blocks g !! k = Some b → eligible size flags b = false) ∨
    (∃ i b l, global_blocks g !! i = Some b ∧ ls !! i = Some l ∧
       first_eligible g size flags i ∧ first_fit l (page_count size) = None))) ∨
  (∃ i b l s g' g'',
     global_blocks g !! i = Some b ∧ ls !! i = Some l ∧ first_eligible g size flags i ∧
     first_fit l (page_count size) = Some s ∧
     page_alloc g size flags = Some (g', base b + Z.of_nat s * PAGE_SIZE) ∧
     global_rel g' (<[i := splice l s (replicate (page_count size) 1)]> ls) ∧
     page_free g' (base b + Z.of_nat s * PAGE_SIZE) size = Some g'' ∧ global_rel g'' ls).
Proof.
  intros Hg Hsize. pose proof PAGE_SIZE_range.
  destruct (page_alloc_ok g ls size flags Hg Hsize) as
    [|(i & b & l & s & g' & b' & Hb & Hl & He & Ef & Hrun & Hle & E & Hg' & Hb' & Hsame & _)];
    [by left|right].
  destruct (gr_rel _ _ Hg i b l Hb Hl) as [Hrel _]. pose proof (lookup_lt_Some _ _ _ Hl) as Hil.
  set (l' := splice l s (replicate (page_count size) 1)) in *.
  assert (Hl' : <[i := l']> ls !! i = Some l') by (by apply list_lookup_insert_eq).
  destruct (gr_rel _ _ Hg' i b' l' Hb' Hl') as [Hrel' _].
  destruct (page_block_free_undo b l b' s size Hrel Hsize Hrel' Hsame Hle Hrun)
    as (b'' & E'' & Hrel'' & Hsame'').
  destruct (set_block_rel g' _ i b' b'' l Hg' Hb') as (g'' & Eg & Hg'' & _);
    [rewrite length_insert; done|done|done|].
  rewrite list_insert_insert, decide_True, list_insert_id in Hg'' by done.
  exists i, b, l, s, g', g''. do 6 (split; [done|]). split; [|done].
  assert (Hlen : length l' = length l)
    by (apply length_splice; rewrite length_replicate; lia).
  unfold page_free. rewrite (in_block_own g' (<[i := l']> ls) i b' l');
    [simpl; by rewrite E''|done..|]. destruct Hsame as (-> & _). nia.
Qed.

(** ** The addresses handed out *)

Definition owns (g : global_pages) (x : Z) : Prop :=
  ∃ i b k, global_blocks g !! i = Some b ∧ Z.of_nat i < num_global_blocks g ∧
    Z.of_nat k < total_pages b ∧ bit_at 16 (bitmap b) k = true ∧
    base b + Z.of_nat k * PAGE_SIZE ≤ x < base b + (Z.of_nat k + 1) * PAGE_SIZE.

Lemma owns_refs g ls x :
  global_rel g ls → owns g x ↔ ∃ i b l k r,
    global_blocks g !! i = Some b ∧ ls !! i = Some l ∧ l !! k = Some r ∧ r ≠ 0 ∧
    base b + Z.of_nat k * PAGE_SIZE ≤ x < base b + (Z.of_nat k + 1) * PAGE_SIZE.
Proof.
  intros Hg. split.
  - intros (i & b & k & Hb & Hi & Hk & Hbit & Hx). rewrite (gr_num _ _ Hg) in Hi.
    destruct (lookup_lt_is_Some_2 ls i) as [l Hl]; [lia|].
    destruct (gr_rel _ _ Hg i b l Hb Hl) as [[Ht _] _]. rewrite (tr_total _ _ Ht) in Hk.
    destruct (lookup_lt_is_Some_2 l k) as [r Hr]; [lia|].
    destruct (tr_refs _ _ Ht k r Hr) as (_ & Hbr & _). rewrite Hbit in Hbr.
    exists i, b, l, k, r. do 3 (split; [done|]). split; [|done]. intros ->. done.
  - intros (i & b & l & k & r & Hb & Hl & Hr & Hr0 & Hx).
    destruct (gr_rel _ _ Hg i b l Hb Hl) as [[Ht _] _].
    destruct (tr_refs _ _ Ht k r Hr) as (_ & Hbr & _).
    exists i, b, k. split; [done|]. pose proof (lookup_lt_Some _ _ _ Hl).
    pose proof (lookup_lt_Some _ _ _ Hr). rewrite (gr_num _ _ Hg), (tr_total _ _ Ht), Hbr.
    split; [lia|]. split; [lia|]. split; [|done]. by destruct (Z.eqb_spec r 0).
Qed.

(** An address in the pages of one block is in no other block. *)
Lemma block_unique g ls i j b c l lc k kc x :
  global_rel g ls → global_blocks g !! i = Some b → ls !! i = Some l → (k < length l)%nat →
  global_blocks g !! j = Some c → ls !! j = Some lc → (kc < length lc)%nat →
  base b + Z.of_nat k * PAGE_SIZE ≤ x < base b + (Z.of_nat k + 1) * PAGE_SIZE →
  base c + Z.of_nat kc * PAGE_SIZE ≤ x < base c + (Z.of_nat kc + 1) * PAGE_SIZE →
  i = j ∧ k = kc.
Proof.
  intros Hg Hb Hl Hk Hc Hlc Hkc Hx Hxc. pose proof PAGE_SIZE_range.
  pose proof (lookup_lt_Some _ _ _ Hl). pose proof (lookup_lt_Some _ _ _ Hlc).
  destruct (gr_rel _ _ Hg i b l Hb Hl) as [[Ht _] _].
  destruct (gr_rel _ _ Hg j c lc Hc Hlc) as [[Htc _] _].
  pose proof (tr_total _ _ Ht). pose proof (tr_total _ _ Htc).
  destruct (Nat.lt_trichotomy i j) as [Hij|[->|Hij]].
  - pose proof (gr_apart _ _ Hg i j b c ltac:(lia) Hb Hc). nia.
  - split; [done|]. assert (b = c) by congruence. subst c. nia.
  - pose proof (gr_apart _ _ Hg j i c b ltac:(lia) Hc Hb). nia.
Qed.

Lemma lookup_alloc l s n k :
  (s + n ≤ length l)%nat →
  splice l s (replicate n 1) !! k =
    if ((s <=? k) && (k <? s + n))%nat then Some 1 else l !! k.
Proof.
  intros Hle. rewrite lookup_splice, length_replicate by (rewrite length_replicate; lia).
  destruct (Nat.ltb_spec k s), (Nat.leb_spec s k), (Nat.ltb_spec k (s + n)); try lia; try done.
  simpl. by rewrite lookup_replicate_2 by lia.
Qed.

(** The addresses of a new allocation were not handed out before, and are the
    only ones added. *)
Lemma page_alloc_owns g ls i b l s n g' b' :
  global_rel g ls → global_blocks g !! i = Some b → ls !! i = Some l →
  run_at l n s = true → (s + n ≤ length l)%nat →
  global_rel g' (<[i := splice l s (replicate n 1)]> ls) → global_blocks g' !! i = Some b' →
  same_block b b' → (∀ k, k ≠ i → global_blocks g' !! k = global_blocks g !! k) →
  let a := base b + Z.of_nat s * PAGE_SIZE in
  (∀ x, a ≤ x < a + Z.of_nat n * PAGE_SIZE → ¬ owns g x) ∧
  (∀ x, owns g' x ↔ a ≤ x < a + Z.of_nat n * PAGE_SIZE ∨ owns g x).
Proof.
  intros Hg Hb Hl Hrun Hle Hg' Hb' (Hbase & _) Hoth a. pose proof PAGE_SIZE_range.
  pose proof (lookup_lt_Some _ _ _ Hl) as Hil. rewrite run_at_true in Hrun.
  assert (Hin : ∀ x, a ≤ x < a + Z.of_nat n * PAGE_SIZE → ∃ k, (s ≤ k < s + n)%nat ∧
    base b + Z.of_nat k * PAGE_SIZE ≤ x < base b + (Z.of_nat k + 1) * PAGE_SIZE).
  { intros x Hx. exists (Z.to_nat ((x - base b) / PAGE_SIZE)).
    pose proof (Z.div_mod (x - base b) PAGE_SIZE ltac:(lia)).
    pose proof (Z.mod_pos_bound (x - base b) PAGE_SIZE ltac:(lia)).
    assert (Z.of_nat s ≤ (x - base b) / PAGE_SIZE) by (apply Z.div_le_lower_bound; lia).
    assert ((x - base b) / PAGE_SIZE < Z.of_nat s + Z.of_nat n) by (apply Z.div_lt_upper_bound; nia).
    rewrite Z2Nat.id by lia. split; [lia|]. lia. }
  split; intros x.
  - intros (k & Hk & Hx)%Hin (j & c & lc & kc & r & Hc & Hlc & Hr & Hr0 & Hxc)%(owns_refs g ls x Hg).
    destruct (block_unique g ls i j b c l lc k kc x) as [-> ->]; try done; [lia|by eapply lookup_lt_Some|].
    assert (lc = l) as -> by congruence. specialize (Hrun (kc - s)%nat ltac:(lia)).
    replace (s + (kc - s))%nat with kc in Hrun by lia. congruence.
  - rewrite (owns_refs g' _ x Hg'), (owns_refs g ls x Hg). split.
    + intros (j & c & lc & kc & r & Hc & Hlc & Hr & Hr0 & Hxc). destruct (decide (j = i)) as [->|Hne].
      * rewrite list_lookup_insert_eq in Hlc by done. injection Hlc as <-.
        rewrite lookup_alloc in Hr by done. assert (c = b') as -> by congruence. rewrite Hbase in Hxc.
        zif_in Hr; [left; unfold a; nia|]. right. exists i, b, l, kc, r. done.
      * rewrite list_lookup_insert_ne in Hlc by done. rewrite Hoth in Hc by done.
        right. exists j, c, lc, kc, r. done.
    + intros [(k & Hk & Hx)%Hin|(j & c & lc & kc & r & Hc & Hlc & Hr & Hr0 & Hxc)].
      * exists i, b', (splice l s (replicate n 1)), k, 1. rewrite list_lookup_insert_eq, Hbase by done.
        split; [done|]. split; [done|]. split; [|done]. rewrite lookup_alloc by done. zif; [done|lia].
      * destruct (decide (j = i)) as [->|Hne].
        -- assert (c = b) as -> by congruence. assert (lc = l) as -> by congruence.
           exists i, b', (splice l s (replicate n 1)), kc. rewrite list_lookup_insert_eq, Hbase by done.
           rewrite lookup_alloc by done. zif; [exists 1|exists r]; done.
        -- exists j, c, lc, kc, r. rewrite list_lookup_insert_ne, Hoth by done. done.
Qed.

(** ** Initialisation *)

Lemma memset_words_length l n :
  0 ≤ n ≤ 2 * zlen l → ∃ l', memset_words l n = Some l' ∧ length l' = length l.
Proof.
  intros Hn. unfold memset_words. zif; [|lia]. eexists. split; [done|]. apply length_imap.
Qed.

Lemma memset_words_ok l n :
  0 ≤ n ≤ 2 * zlen l →
  (∀ k w, n / 2 ≤ Z.of_nat k → l !! k = Some w → w = 0) →
  ∃ l', memset_words l n = Some l' ∧ length l' = length l ∧ Forall (λ w, w = 0) l'.
Proof.
  intros Hn Hz. unfold memset_words. zif; [|lia]. eexists. split; [done|].
  split; [apply length_imap|]. apply Forall_lookup_2. intros k w Hk.
  rewrite list_lookup_imap in Hk. destruct (l !! k) as [x|] eqn:Hx; [|done].
  simpl in Hk. injection Hk as <-. specialize (Hz k x).
  pose proof (Z.div_mod n 2 ltac:(lia)). pose proof (Z.mod_pos_bound n 2 ltac:(lia)).
  repeat zif; [done|rewrite (Hz ltac:(lia) Hx); done|apply Hz; [lia|done]].
Qed.

Lemma bit_at_zeros l i : Forall (λ w, w = 0) l → bit_at 16 l i = false.
Proof.
  intros Hl. unfold bit_at. destruct (l !! (i / 16)%nat) as [w|] eqn:Hw; [|done].
  rewrite (Forall_lookup_1 _ _ _ _ Hl Hw). apply Z.bits_0.
Qed.

Lemma pages_up v :
  Z.shiftr (align_up v PAGE_SIZE) PAGE_ADDR_BITS * PAGE_SIZE = align_up v PAGE_SIZE ∧
  v ≤ align_up v PAGE_SIZE.
Proof.
  pose proof PAGE_SIZE_range. rewrite shiftr_page.
  rewrite PAGE_SIZE_pow, align_up_pow2 by lia. rewrite <- PAGE_SIZE_pow.
  rewrite Z.div_mul by lia. split; [done|].
  pose proof (Z.div_mod (v + (PAGE_SIZE - 1)) PAGE_SIZE ltac:(lia)).
  pose proof (Z.mod_pos_bound (v + (PAGE_SIZE - 1)) PAGE_SIZE ltac:(lia)). lia.
Qed.

(** The layout leaves room for the descriptors of the pages that remain. *)
Lemma descriptors_room v :
  let d := Z.shiftr (align_up (v * 2) PAGE_SIZE) PAGE_ADDR_BITS in
  0 ≤ v - d → 0 ≤ d ∧ 2 * (v - d) ≤ d * PAGE_SIZE.
Proof. intros d Hd. pose proof PAGE_SIZE_range. destruct (pages_up (v * 2)). fold d in H0. nia. Qed.

Lemma block_bitmap_size_range total : 0 ≤ total → 0 ≤ block_bitmap_size total.
Proof.
  intros H. unfold block_bitmap_size, PAGES_PER_INDEX, LOG_OF_PAGES_PER_INDEX.
  change 16 with (2 ^ 4). rewrite align_up_pow2, Z.shiftr_div_pow2 by lia.
  pose proof (Z.div_pos total (2 ^ 4)). apply Z.mul_nonneg_nonneg; [|lia]. apply Z.div_pos; lia.
Qed.

Definition allocatable (total : Z) : Z :=
  total - block_bitmap_pages total - block_descriptors_pages total.

Lemma layout_ok total :
  0 ≤ total → 0 ≤ allocatable total →
  0 ≤ block_bitmap_size total ≤ block_bitmap_pages total * PAGE_SIZE ∧
  0 ≤ block_bitmap_pages total ∧ 0 ≤ block_descriptors_pages total ∧
  (mmu = true → 2 * allocatable total ≤ block_descriptors_pages total * PAGE_SIZE).
Proof.
  intros Ht Ha. pose proof PAGE_SIZE_range.
  pose proof (block_bitmap_size_range total Ht).
  destruct (pages_up (block_bitmap_size total)) as [Hbp Hbs].
  fold (block_bitmap_pages total) in Hbp. split; [lia|]. split; [nia|].
  unfold allocatable, block_descriptors_pages in *. destruct mmu; [|split; [lia|done]].
  apply descriptors_room in Ha. destruct Ha. auto.
Qed.

Lemma page_slice (mem : list Z) i n :
  0 ≤ i → 0 ≤ n → (i + n) * PAGE_SIZE ≤ 2 * zlen mem →
  2 * zlen (slice mem (Z.to_nat (i * PAGE_SIZE / 2)) (Z.to_nat (n * PAGE_SIZE / 2))) = n * PAGE_SIZE.
Proof.
  intros Hi Hn Hle. rewrite length_slice.
  assert (Heven : PAGE_SIZE = 2 ^ (PAGE_ADDR_BITS - 1) * 2).
  { rewrite PAGE_SIZE_pow. rewrite <- (Z.pow_1_r 2) at 3. rewrite <- Z.pow_add_r by lia. f_equal. lia. }
  pose proof PAGE_SIZE_range. set (h := 2 ^ (PAGE_ADDR_BITS - 1)) in *. clearbody h.
  rewrite Heven, !Z.mul_assoc, !Z.div_mul in * by lia. nia.
Qed.

(** C29: a block initialised over memory whose bitmap area is clear where
    memset does not reach starts with all its pages free, at the address
    after the bitmap and the descriptors, provided the bitmap is long enough
    for them in words and in the pages reserved for it. *)
Theorem init_page_block_ok mem addr size flags :
  let total := size / PAGE_SIZE in
  let reserved := block_bitmap_pages total * PAGE_SIZE in
  0 < addr → 0 ≤ size → addr + size ≤ 2 ^ 32 → size ≤ 2 * zlen mem →
  0 ≤ allocatable total ≤ 16 * block_bitmap_size total → allocatable total ≤ 8 * reserved →
  (∀ k w, block_bitmap_size total / 2 ≤ Z.of_nat k < reserved / 2 → mem !! k = Some w → w = 0) →
  ∃ b, init_page_block mem addr size flags = Some (b, 0) ∧
    block_rel b (replicate (Z.to_nat (allocatable total)) 0) ∧ pb_flags b = flags ∧
    base b = addr + (block_bitmap_pages total + block_descriptors_pages total) * PAGE_SIZE.
Proof.
  intros total reserved Haddr Hsize Haend Hmem Ha Hres Hclear.
  pose proof PAGE_SIZE_range as Hps.
  assert (Ht : total * PAGE_SIZE ≤ size) by (unfold total; pose proof (Z.mul_div_le size PAGE_SIZE); lia).
  destruct (layout_ok total) as (Hbs & Hbp & Hd0 & Hd); [apply Z.div_pos; lia|lia|].
  fold reserved in Hbs. set (a := allocatable total) in *.
  set (d := block_descriptors_pages total) in *. set (bp := block_bitmap_pages total) in *.
  assert (Hroom : total = bp + d + a) by (unfold a, allocatable; fold d bp; lia).
  pose proof (page_slice mem 0 bp ltac:(lia) Hbp ltac:(nia)) as Hl1. fold reserved in Hl1.
  pose proof (page_slice mem bp d Hbp Hd0 ltac:(nia)) as Hl2. fold reserved in Hl2.
  change (Z.to_nat (0 * PAGE_SIZE / 2)) with 0%nat in Hl1.
  destruct (memset_words_ok (slice mem 0 (Z.to_nat (reserved / 2))) (block_bitmap_size total))
    as (bm & Ebm & Hbml & Hbmz); [lia| |].
  { intros k w Hk Hw. rewrite lookup_slice in Hw. zif_in Hw; [|done]. apply (Hclear k w); [lia|done]. }
  set (ds := slice mem (Z.to_nat (reserved / 2)) (Z.to_nat (d * PAGE_SIZE / 2))) in *.
  assert (∃ ds', (if mmu then memset_words ds a else Some ds) = Some ds' ∧ length ds' = length ds)
    as (ds' & Eds & Hdsl).
  { destruct mmu; [|eauto]. apply memset_words_length. pose proof (Hd eq_refl). lia. }
  unfold init_page_block, init_page_block_with_bitmap. rewrite !(shiftr_page size). fold total.
  fold bp d. replace (total - bp - d) with a by lia. fold reserved.
  replace (Z.shiftr (Z.shiftl a PAGE_ADDR_BITS) PAGE_ADDR_BITS) with a; cycle 1.
  { rewrite shiftr_page, Z.shiftl_mul_pow2, <- PAGE_SIZE_pow, Z.div_mul by lia. done. }
  fold ds. rewrite Ebm. simpl. rewrite Eds. simpl. rewrite Z.shiftl_mul_pow2 by done.
  unfold LOG_OF_PAGES_PER_INDEX. zif; [lia|]. eexists. split; [done|]. split; [|done]. split; simpl.
  - constructor; simpl; rewrite ?length_replicate; [|lia|lia| |nia|nia|].
    + apply Forall_forall. intros w Hw. rewrite Forall_forall in Hbmz. rewrite (Hbmz w Hw). lia.
    + intros Hm. pose proof (Hd Hm). lia.
    + intros i r [-> Hi]%lookup_replicate. rewrite bit_at_zeros by done.
      split; [lia|]. split; [done|]. destruct mmu; [by left|lia].
  - rewrite count0_replicate. simpl. lia.
Qed.
End pages.

(** ** Examples *)

Definition example_block : page_block :=
  PageBlock 3 30 30 66048 16 (replicate 128 0) (replicate 128 0).

Lemma example_block_rel : block_rel true 8 example_block (replicate 30 0).
Proof.
  split; [|done]. constructor; [apply Forall_replicate; lia|done|vm_compute; lia|intros _; vm_compute; lia|done|done|].
  intros i r [-> Hi]%lookup_replicate. rewrite bit_at_zeros by (apply Forall_replicate; done).
  split; [lia|]. split; [done|]. by left.
Qed.

Definition example_page_ops : list page_op :=
  [PageAlloc 512; PageAlloc 256; PageRef 66048 256; PageFree 66048 512; PageGetRef 66048;
   PageAlloc 300; PageAlloc 8192].

Lemma pages_run_refines_witness :
  ∃ b', run_out (page_op_step true 8) example_block example_page_ops
          = Some (b', [66048; 66560; 66048; 0; 1; 66304; 0]) ∧
        block_rel true 8 b' ([1; 1; 1] ++ replicate 27 0) ∧ base b' = 66048.
Proof.
  apply (pages_run_refines true 8 ltac:(lia) example_block (replicate 30 0) example_page_ops).
  - apply example_block_rel.
  - vm_compute. reflexivity.
Defined.

Definition example_global : global_pages := GlobalPages 1 [example_block].

Lemma example_global_rel : global_rel true 8 example_global [replicate 30 0].
Proof.
  constructor; [done|vm_compute; lia| |].
  - intros [|i] b l Hb Hl; [|done]. injection Hb as <-. injection Hl as <-.
    split; [apply example_block_rel|]. vm_compute. done.
  - intros i j b b' Hij. simpl in Hij. lia.
Qed.

Lemma page_alloc_free_witness :
  (page_alloc true 8 example_global 512 1 = Some (example_global, NULL_PAGE) ∧
   ((∀ k b, (k < 1)%nat → global_blocks example_global !! k = Some b →
       eligible 8 512 1 b = false) ∨
    (∃ i b l, global_blocks example_global !! i = Some b ∧ [replicate 30 0] !! i = Some l ∧
       first_eligible 8 example_global 512 1 i ∧ first_fit l (page_count 8 512) = None))) ∨
  (∃ i b l s g' g'',
     global_blocks example_global !! i = Some b ∧ [replicate 30 0] !! i = Some l ∧
     first_eligible 8 example_global 512 1 i ∧ first_fit l (page_count 8 512) = Some s ∧
     page_alloc true 8 example_global 512 1 = Some (g', base b + Z.of_nat s * PAGE_SIZE 8) ∧
     global_rel true 8 g' (<[i := splice l s (replicate (page_count 8 512) 1)]> [replicate 30 0]) ∧
     page_free true 8 g' (base b + Z.of_nat s * PAGE_SIZE 8) 512 = Some g'' ∧
     global_rel true 8 g'' [replicate 30 0]).
Proof.
  apply (page_alloc_free true 8 ltac:(lia) example_global [replicate 30 0] 512 1).
  - apply example_global_rel.
  - vm_compute. split; [discriminate|reflexivity].
Defined.

Lemma init_page_block_ok_witness :
  ∃ b, init_page_block true 8 (replicate 4096 0) 65536 8192 3 = Some (b, 0) ∧
    block_rel true 8 b (replicate 30 0) ∧ pb_flags b = 3 ∧ base b = 66048.
Proof.
  apply (init_page_block_ok true 8 ltac:(lia) (replicate 4096 0) 65536 8192 3);
    try (vm_compute; intuition congruence).
  intros k w _ Hw. by apply lookup_replicate in Hw as [-> _].
Defined.

(** ** Deviations *)

(** memset clears [bitmap_size] bytes but the bitmap has [bitmap_size] words:
    in memory that is not zero the second half of the pages is never
    available, although the block counts them as free. *)
Lemma init_page_block_stale_bitmap :
  match init_page_block true 8 (replicate (144 * 128) 65535) 65536 (144 * 256) 3 with
  | Some (b, error) => error = 0 ∧ free_pages b = 141 ∧
      page_block_alloc true 8 b (128 * 256) ≠ Some (b, NULL_PAGE) ∧
      page_block_alloc true 8 b (129 * 256) = Some (b, NULL_PAGE)
  | None => False
  end.
Proof. vm_compute. intuition congruence. Qed.

(** A block of fewer than 16 pages gets no bitmap at all. *)
Lemma init_page_block_small :
  ∃ b, init_page_block true 8 (replicate 768 0) 65536 1536 3 = Some (b, -1) ∧
    bitmap_size b = 0 ∧ bitmap b = [] ∧ free_pages b = 5.
Proof. eexists. vm_compute. done. Qed.

(** The overlap check reads the slot after the last block, so a second block
    over the same memory is accepted. *)
Lemma append_global_page_block_overlap :
  let empty := PageBlock 0 0 0 0 0 [] [] in
  match init_pages true 8 (GlobalPages 0 (replicate 4 empty)) (replicate 4096 0) 65536 8192 3 with
  | Some (g, 0) =>
      match append_global_page_block true 8 g (replicate 4096 0) 65536 8192 3 with
      | Some (g', 0) => num_global_blocks g' = 2
      | _ => False
      end
  | _ => False
  end.
Proof. vm_compute. done. Qed.

(** The last free pages of a block are refused by page_alloc. *)
Lemma page_alloc_refuses_exact_fit :
  page_alloc true 8 example_global (30 * 256) 1 = Some (example_global, NULL_PAGE) ∧
  page_block_alloc true 8 example_block (30 * 256) ≠ Some (example_block, NULL_PAGE).
Proof. vm_compute. split; [done|congruence]. Qed.
