(* ===== verification/Kmalloc.v ===== *)
(** * Kmalloc: the kernel heap

    Models src/kernel/mm/kmalloc.c: a singly linked list of free blocks sorted
    by address, first-fit allocation with splitting, freeing with coalescing,
    and growth by whole pages.

    The memory is a map from addresses to block headers (the payloads are not
    represented); reading an address without a header is undefined ([None]).
    [panic] does not return: it is the outcome [Panic].

    The page allocator is used through the interface [PageSource], whose laws
    [PageLaws] are all the heap relies on.  The file ends with the instance
    for the page allocator of [Pages]. *)

From S2P Require Import Prelude Bits Pages.

(** ** The page allocator as the heap sees it *)

Class PageSource (P : Type) := {
  source_alloc : P → Z → Z → option (P * Z);
  source_free : P → Z → Z → option P;
}.

(** A successful allocation returns an aligned range of addresses none of
    which was handed out, and hands out exactly that range. *)
Class PageLaws (P : Type) `{PageSource P} (PAGE_ADDR_BITS : Z) := {
  source_inv : P → Prop;
  source_owns : P → Z → Prop;
  source_alloc_law p size flags :
    source_inv p → PAGE_SIZE PAGE_ADDR_BITS ≤ size < 2 ^ 32 →
    (source_alloc p size flags = Some (p, NULL_PAGE)) ∨
    (∃ p' a n, source_alloc p size flags = Some (p', a) ∧ source_inv p' ∧
       n = size / PAGE_SIZE PAGE_ADDR_BITS * PAGE_SIZE PAGE_ADDR_BITS ∧
       0 < a ∧ a + n < 2 ^ 32 ∧ a mod 4 = 0 ∧
       (∀ x, a ≤ x < a + n → ¬ source_owns p x) ∧
       (∀ x, source_owns p' x ↔ a ≤ x < a + n ∨ source_owns p x));
}.

(** ** Data *)

Record block := Block { b_size : Z; b_next : Z }.

Record heap := Heap {
  free_blocks : Z;
  heap_total_pages : Z;
  bytes_free : Z;
  bytes_allocated : Z;
}.

Abbreviation memory := (gmap Z block).

Inductive outcome (A : Type) :=
  | Ret (x : A)
  | Panic.
Arguments Ret {A} x.
Arguments Panic {A}.

Definition BLOCK_HEADER : Z := 8.     (** sizeof(struct block) *)
Definition PTR_SIZE : Z := 4.         (** sizeof(uintptr_t) *)
Definition PAGE_F_SUPERVISOR : Z := 16384.

Definition init_kernel_heap : heap * Z := (Heap 0 0 0 0, 0).

Definition set_free_blocks (h : heap) (p : Z) : heap :=
  Heap p (heap_total_pages h) (bytes_free h) (bytes_allocated h).

(** [if (prev) prev->next = b; else main_heap.free_blocks = b;] *)
Definition link_block (h : heap) (m : memory) (prev b : Z) : option (heap * memory) :=
  if prev =? 0 then Some (set_free_blocks h b, m)
  else pb ← m !! prev; Some (h, <[prev := Block (b_size pb) b]> m).

(** ** Freeing *)

(** The loop of kmfree from [cur] on. *)
Fixpoint kmfree_loop (fuel : nat) (h : heap) (m : memory) (blk prev cur : Z) :
    option (outcome (heap * memory)) :=
  if cur =? 0 then
    b ← m !! blk;
    let m := <[blk := Block (b_size b) 0]> m in
    if negb (prev =? 0) then
      '(h, m) ← link_block h m prev blk; Some (Ret (h, m))
    else if free_blocks h =? 0 then Some (Ret (set_free_blocks h blk, m))
    else Some Panic
  else
    match fuel with
    | O => None
    | S fuel =>
        c ← m !! cur;
        b ← m !! blk;
        if b_next c =? blk then Some Panic
        else if u32 (cur + b_size c) =? blk then
          let size := u32 (b_size c + b_size b) in
          let m := <[cur := Block size (b_next c)]> m in
          if u32 (cur + size) =? b_next c then
            n ← m !! b_next c;
            Some (Ret (h, <[cur := Block (u32 (size + b_size n)) (b_next n)]> m))
          else Some (Ret (h, m))
        else if blk <=? cur then
          '(h, m) ← link_block h m prev blk;
          let m := <[blk := Block (b_size b) cur]> m in
          if u32 (blk + b_size b) =? cur then
            c ← m !! cur;
            Some (Ret (h, <[blk := Block (u32 (b_size b + b_size c)) (b_next c)]> m))
          else Some (Ret (h, m))
        else kmfree_loop fuel h m blk cur (b_next c)
    end.

Definition kmfree (h : heap) (m : memory) (ptr : Z) : option (outcome (heap * memory)) :=
  let blk := u32 (ptr - BLOCK_HEADER) in
  b ← m !! blk;
  if negb (b_next b =? 0) then Some Panic
  else
    let h := Heap (free_blocks h) (heap_total_pages h) (u32 (bytes_free h + b_size b))
                  (u32 (bytes_allocated h - b_size b)) in
    kmfree_loop (size m) h m blk 0 (free_blocks h).

Section kmalloc.
Context {P : Type} `{PageSource P} (PAGE_ADDR_BITS : Z).

(** ** Allocating *)

(** The search through the free list; [Some None] is the end of the list. *)
Fixpoint kmalloc_search (fuel : nat) (h : heap) (m : memory) (block_size prev cur : Z) :
    option (option (heap * memory * Z)) :=
  if cur =? 0 then Some None
  else
    match fuel with
    | O => None
    | S fuel =>
        c ← m !! cur;
        if block_size <=? b_size c then
          let '(m, nextfree, c) :=
            if u32 (block_size + BLOCK_HEADER + 8) <=? b_size c then
              let nf := u32 (cur + block_size) in
              (<[cur := Block block_size (b_next c)]>
                 (<[nf := Block (u32 (b_size c - block_size)) (b_next c)]> m),
               nf, Block block_size (b_next c))
            else (m, b_next c, c) in
          let m := <[cur := Block (b_size c) 0]> m in
          '(h, m) ← link_block h m prev nextfree;
          let h := Heap (free_blocks h) (heap_total_pages h) (u32 (bytes_free h - b_size c))
                        (u32 (bytes_allocated h + b_size c)) in
          Some (Some (h, m, u32 (cur + BLOCK_HEADER)))
        else kmalloc_search fuel h m block_size cur (b_next c)
    end.

Definition kmalloc_block_size (sz : Z) : Z := u32 (u32 (align_up sz PTR_SIZE) + BLOCK_HEADER).

Definition kmalloc (h : heap) (m : memory) (p : P) (sz : Z) :
    option (outcome (heap * memory * P * Z)) :=
  let block_size := kmalloc_block_size sz in
  r ← kmalloc_search (size m) h m block_size 0 (free_blocks h);
  match r with
  | Some (h, m, ptr) => Some (Ret (h, m, p, ptr))
  | None =>
      let page_size := u32 (align_up block_size (PAGE_SIZE PAGE_ADDR_BITS)) in
      '(p, cur) ← source_alloc p page_size PAGE_F_SUPERVISOR;
      if cur =? NULL_PAGE then Some Panic
      else
        let m := <[cur := Block page_size 0]> m in
        let h := Heap (free_blocks h) (u32 (heap_total_pages h + page_size)) (bytes_free h)
                      (u32 (bytes_allocated h + page_size)) in
        if BLOCK_HEADER + 8 <? u32 (page_size - block_size) then
          let nextfree := u32 (cur + block_size) in
          let m := <[nextfree := Block (u32 (page_size - block_size)) 0]>
                     (<[cur := Block block_size 0]> m) in
          o ← kmfree h m (u32 (nextfree + BLOCK_HEADER));
          match o with
          | Ret (h, m) => Some (Ret (h, m, p, u32 (cur + BLOCK_HEADER)))
          | Panic => Some Panic
          end
        else Some (Ret (h, m, p, u32 (cur + BLOCK_HEADER)))
  end.

(** kzalloc also clears the payload; the bytes it writes are returned. *)
Definition kzalloc (h : heap) (m : memory) (p : P) (sz : Z) :
    option (outcome (heap * memory * P * Z * list Z)) :=
  o ← kmalloc h m p sz;
  match o with
  | Ret (h, m, p, alloc) =>
      if alloc =? 0 then Some (Ret (h, m, p, 0, []))
      else Some (Ret (h, m, p, alloc, replicate (Z.to_nat sz) 0))
  | Panic => Some Panic
  end.

(** The loop of kernel_heap_compact. *)
Fixpoint compact_loop (fuel : nat) (h : heap) (m : memory) (p : P) (prev cur : Z) :
    option (heap * memory * P) :=
  if cur =? 0 then Some (h, m, p)
  else
    match fuel with
    | O => None
    | S fuel =>
        c ← m !! cur;
        if (align_remainder cur (PAGE_SIZE PAGE_ADDR_BITS) =? 0) &&
           (align_remainder (b_size c) (PAGE_SIZE PAGE_ADDR_BITS) =? 0) then
          '(h, m) ← link_block h m prev (b_next c);
          p ← source_free p cur (Z.shiftr (b_size c) PAGE_ADDR_BITS);
          c ← m !! cur;
          let h := Heap (free_blocks h) (u32 (heap_total_pages h - b_size c))
                        (u32 (bytes_free h - b_size c)) (bytes_allocated h) in
          compact_loop fuel h m p cur (b_next c)
        else compact_loop fuel h m p cur (b_next c)
    end.

Definition kernel_heap_compact (h : heap) (m : memory) (p : P) : option (heap * memory * P) :=
  compact_loop (size m) h m p 0 (free_blocks h).
End kmalloc.

(** ** Specification: free regions

    A region is an address and a size.  The free list is a list of regions in
    ascending order with a gap between any two. *)

Abbreviation region := (Z * Z)%type.

Definition disj (r1 r2 : region) : Prop := r1.1 + r1.2 ≤ r2.1 ∨ r2.1 + r2.2 ≤ r1.1.

Definition covered (l : list region) (x : Z) : Prop :=
  ∃ a s, (a, s) ∈ l ∧ a ≤ x < a + s.

Fixpoint total (l : list region) : Z :=
  match l with [] => 0 | (_, s) :: l => s + total l end.

Definition region_ok (r : region) : Prop :=
  0 < r.1 ∧ 8 ≤ r.2 ∧ r.1 + r.2 < 2 ^ 32 ∧ r.1 mod 4 = 0 ∧ r.2 mod 4 = 0.

Fixpoint wf_free (lo : Z) (l : list region) : Prop :=
  match l with
  | [] => True
  | (a, s) :: l => lo ≤ a ∧ region_ok (a, s) ∧ wf_free (a + s + 1) l
  end.

(** First fit, splitting when another header and 8 bytes remain. *)
Fixpoint free_take (bs : Z) (l : list region) : option (region * list region) :=
  match l with
  | [] => None
  | (a, s) :: l =>
      if bs <=? s then
        if bs + 16 <=? s then Some ((a, bs), (a + bs, s - bs) :: l) else Some ((a, s), l)
      else '(r, l') ← free_take bs l; Some (r, (a, s) :: l')
  end.

(** Insertion in order, merged with the neighbours it touches. *)
Fixpoint free_insert (a s : Z) (l : list region) : list region :=
  match l with
  | [] => [(a, s)]
  | (c, t) :: l' =>
      if c + t =? a then
        match l' with
        | (n, u) :: l'' => if c + t + s =? n then (c, t + s + u) :: l'' else (c, t + s) :: l'
        | [] => [(c, t + s)]
        end
      else if a <=? c then if a + s =? c then (a, s + t) :: l' else (a, s) :: l
      else (c, t) :: free_insert a s l'
  end.

(** A chain of headers from [p] to [q]. *)
Fixpoint chain (m : memory) (p : Z) (l : list region) (q : Z) : Prop :=
  match l with
  | [] => p = q
  | (a, s) :: l => p = a ∧ a ≠ 0 ∧ ∃ nx, m !! a = Some (Block s nx) ∧ chain m nx l q
  end.

Lemma chain_app m p l1 l2 q :
  chain m p (l1 ++ l2) q ↔ ∃ r, chain m p l1 r ∧ chain m r l2 q.
Proof.
  revert p. induction l1 as [|[a s] l1 IH]; intros p; simpl.
  - naive_solver.
  - split.
    + intros (-> & ? & nx & ? & Hc). apply IH in Hc as (r & ? & ?). naive_solver.
    + intros (r & (-> & ? & nx & ? & ?) & ?). split; [done|]. split; [done|].
      exists nx. split; [done|]. apply IH. eauto.
Qed.

Lemma chain_frame m m' p l q :
  (∀ a, a ∈ l.*1 → m' !! a = m !! a) → chain m p l q → chain m' p l q.
Proof.
  revert p. induction l as [|[a s] l IH]; intros p Hm; simpl; [done|].
  intros (-> & ? & nx & Ha & Hc). split; [done|]. split; [done|]. exists nx.
  rewrite Hm by (simpl; set_solver). split; [done|]. apply IH; [|done]. set_solver.
Qed.

Lemma chain_insert m p l q a b : a ∉ l.*1 → chain m p l q → chain (<[a := b]> m) p l q.
Proof.
  intros Ha. apply chain_frame. intros x Hx. apply lookup_insert_ne. intros ->. done.
Qed.

Lemma wf_free_weaken lo lo' l : lo' ≤ lo → wf_free lo l → wf_free lo' l.
Proof. destruct l as [|[a s] l]; simpl; [done|]. intros ? (? & ? & ?). split; [lia|done]. Qed.

Lemma wf_free_elem lo l a s : wf_free lo l → (a, s) ∈ l → lo ≤ a ∧ region_ok (a, s).
Proof.
  revert lo. induction l as [|[c t] l IH]; intros lo Hw Hin; [by apply not_elem_of_nil in Hin|].
  simpl in Hw. destruct Hw as (? & Hok & Hw). apply elem_of_cons in Hin as [E|Hin].
  - injection E as -> ->. done.
  - destruct (IH _ Hw Hin). unfold region_ok in *. simpl in *. split; [lia|done].
Qed.

Lemma wf_free_addr lo l a : wf_free lo l → a < lo → a ∉ l.*1.
Proof.
  intros Hw Ha ([c t] & -> & Hin)%list_elem_of_fmap. apply (wf_free_elem lo) in Hin; [|done].
  simpl in *. lia.
Qed.

Lemma wf_free_NoDup lo l : wf_free lo l → NoDup l.*1.
Proof.
  revert lo. induction l as [|[a s] l IH]; intros lo; simpl; [constructor|].
  intros (_ & Hok & Hw). constructor; [|eauto]. apply (wf_free_addr _ _ _ Hw).
  unfold region_ok in Hok. simpl in *. lia.
Qed.

(** A chain in order is no longer than the memory has headers. *)
Lemma chain_fuel m p l q lo : chain m p l q → wf_free lo l → (length l ≤ size m)%nat.
Proof.
  intros Hc Hw. pose proof (wf_free_NoDup lo l Hw) as Hnd.
  transitivity (length l.*1); [by rewrite length_fmap|].
  rewrite <- (size_list_to_set (C := gset Z)) by done.
  rewrite <- (size_dom (D := gset Z) m). apply subseteq_size. clear Hw Hnd. revert p Hc.
  induction l as [|[a s] l IH]; intros p; simpl; [set_solver|].
  intros (-> & _ & nx & Ha & Hc). apply union_subseteq. split; [|eauto].
  apply singleton_subseteq_l. by eapply elem_of_dom_2.
Qed.

(** ** Linking after the last block of a prefix *)

Definition last_addr (l : list region) : Z := default 0 (fst <$> last l).

Definition same_counts (h h' : heap) : Prop :=
  heap_total_pages h' = heap_total_pages h ∧ bytes_free h' = bytes_free h ∧
  bytes_allocated h' = bytes_allocated h.

Lemma link_block_ok h m pre cur nb :
  chain m (free_blocks h) pre cur → NoDup pre.*1 →
  ∃ h' m', link_block h m (last_addr pre) nb = Some (h', m') ∧
    chain m' (free_blocks h') pre nb ∧ same_counts h h' ∧
    (∀ x, x ∉ pre.*1 → m' !! x = m !! x).
Proof.
  intros Hc Hnd. unfold link_block, last_addr.
  destruct pre as [|[a s] pre _] using rev_ind; simpl.
  - exists (set_free_blocks h nb), m. done.
  - rewrite last_snoc. simpl. apply chain_app in Hc as (r & Hc & -> & Ha & nx & Hm & ->).
    destruct (Z.eqb_spec a 0) as [|_]; [done|]. rewrite Hm. simpl.
    exists h, (<[a := Block s nb]> m). split; [done|].
    rewrite fmap_app in *. apply NoDup_app in Hnd as (_ & Hna & _). split; [|split; [done|]].
    + apply chain_app. exists a. split.
      * apply chain_insert; [|done]. intros Hin. apply (Hna a Hin). set_solver.
      * split; [done|]. split; [done|]. exists nb. by rewrite lookup_insert_eq.
    + intros x Hx. apply lookup_insert_ne. intros ->. apply Hx. set_solver.
Qed.

(** ** kmfree *)

Lemma covered_nil x : covered [] x ↔ False.
Proof. unfold covered. set_solver. Qed.

Lemma covered_cons a s l x : covered ((a, s) :: l) x ↔ a ≤ x < a + s ∨ covered l x.
Proof.
  unfold covered. split.
  - intros (c & t & Hin & Hx). apply elem_of_cons in Hin as [E|Hin]; [|eauto].
    injection E as -> ->. by left.
  - intros [Hx|(c & t & Hin & Hx)]; [exists a, s|exists c, t]; set_solver.
Qed.

Lemma covered_app l1 l2 x : covered (l1 ++ l2) x ↔ covered l1 x ∨ covered l2 x.
Proof.
  induction l1 as [|[a s] l1 IH]; simpl; [rewrite covered_nil; tauto|].
  rewrite !covered_cons, IH. tauto.
Qed.

(** The list after a free covers the old list and the freed region. *)
Lemma free_insert_covers lo a s l x :
  0 < s → wf_free lo l → covered (free_insert a s l) x ↔ a ≤ x < a + s ∨ covered l x.
Proof.
  intros Hs. revert lo. induction l as [|[c t] l IH]; intros lo Hw; simpl.
  - rewrite covered_cons. done.
  - simpl in Hw. destruct Hw as (_ & (_ & Ht & _) & Hw). simpl in Ht.
    destruct (Z.eqb_spec (c + t) a); [|destruct (Z.leb_spec a c)].
    + destruct l as [|[n u] l]; [|destruct (Z.eqb_spec (c + t + s) n)];
        rewrite !covered_cons; rewrite ?covered_nil; [intuition lia| |intuition lia].
      destruct Hw as (_ & (_ & Hu & _) & _). simpl in Hu. intuition lia.
    + destruct (Z.eqb_spec (a + s) c); rewrite !covered_cons; intuition lia.
    + rewrite !covered_cons, (IH _ Hw). tauto.
Qed.

Lemma free_insert_total a s l : total (free_insert a s l) = s + total l.
Proof.
  induction l as [|[c t] l IH]; simpl; [lia|].
  destruct (c + t =? a), (a <=? c), (a + s =? c); simpl; try lia;
    destruct l as [|[n u] l]; simpl; try destruct (c + t + s =? n); simpl in *; lia.
Qed.

Lemma mod4_add x y : x mod 4 = 0 → y mod 4 = 0 → (x + y) mod 4 = 0.
Proof. intros Hx Hy. rewrite Z.add_mod, Hx, Hy by lia. done. Qed.

Lemma mod4_sub x y : x mod 4 = 0 → y mod 4 = 0 → (x - y) mod 4 = 0.
Proof. intros Hx Hy. rewrite Zminus_mod, Hx, Hy. done. Qed.

Lemma region_ok_join a s t :
  region_ok (a, s) → region_ok (a + s, t) → region_ok (a, s + t).
Proof.
  unfold region_ok. simpl. intros (? & ? & ? & ? & ?) (? & ? & ? & ? & ?).
  split_and!; try lia. by apply mod4_add.
Qed.

Lemma free_insert_wf lo a s l :
  wf_free lo l → lo ≤ a → region_ok (a, s) → (∀ r, r ∈ l → disj (a, s) r) →
  wf_free lo (free_insert a s l).
Proof.
  revert lo. induction l as [|[c t] l IH]; intros lo Hw Hlo Hok Hd; simpl; [done|].
  simpl in Hw. destruct Hw as (Hc & Hokc & Hw).
  assert (Hdc : disj (a, s) (c, t)) by (apply Hd; set_solver). unfold disj in Hdc. simpl in Hdc.
  pose proof Hok as (? & ? & ? & _). pose proof Hokc as (? & ? & ? & _). simpl in *.
  destruct (Z.eqb_spec (c + t) a) as [<-|Hne].
  - pose proof (region_ok_join c t s Hokc Hok) as Hj.
    destruct l as [|[n u] l]; [done|]. destruct Hw as (Hn & Hokn & Hw).
    assert (Hdn : disj (c + t, s) (n, u)) by (apply Hd; set_solver).
    unfold disj in Hdn. simpl in Hdn. pose proof Hokn as (? & ? & ? & _). simpl in *.
    destruct (Z.eqb_spec (c + t + s) n) as [<-|].
    + split; [done|]. split; [|by replace (c + (t + s + u) + 1) with (c + t + s + u + 1) by lia].
      apply (region_ok_join c (t + s) u); [done|]. by rewrite Z.add_assoc.
    + simpl. split; [done|]. split; [done|]. split; [lia|done].
  - destruct (Z.leb_spec a c); [destruct (Z.eqb_spec (a + s) c) as [<-|]|]; simpl.
    + split; [done|]. split; [by apply region_ok_join|]. by rewrite Z.add_assoc.
    + split; [done|]. split; [done|]. split; [lia|]. done.
    + split; [done|]. split; [done|]. apply IH; [done|lia|done|]. intros; apply Hd. set_solver.
Qed.

Lemma wf_free_app lo l1 l2 :
  wf_free lo (l1 ++ l2) →
  wf_free lo l1 ∧ ∃ lo', lo ≤ lo' ∧ wf_free lo' l2 ∧ ∀ a s, (a, s) ∈ l1 → a + s < lo'.
Proof.
  revert lo. induction l1 as [|[a s] l1 IH]; intros lo; simpl.
  - intros Hw. split; [done|]. exists lo. set_solver.
  - intros (Hlo & Hok & Hw). pose proof Hok as (? & ? & _). simpl in *.
    destruct (IH _ Hw) as (Hw1 & lo' & Hlo' & Hw2 & Hin). split; [done|]. exists lo'.
    split; [lia|]. split; [done|]. intros c t Hc. apply elem_of_cons in Hc as [E|Hc]; [|eauto].
    injection E as -> ->. lia.
Qed.

Lemma wf_free_app_ne lo pre suf a s x :
  wf_free lo (pre ++ ((a, s) :: suf)) → x ∈ pre.*1 → x < a.
Proof.
  intros (Hpre & lo' & _ & (Hlo & _) & Hin)%wf_free_app ([c t] & -> & Hc)%list_elem_of_fmap.
  destruct (wf_free_elem _ _ _ _ Hpre Hc) as (_ & _ & ? & _). specialize (Hin c t Hc).
  simpl in *. lia.
Qed.

Lemma last_addr_zero lo l : 1 ≤ lo → wf_free lo l → (last_addr l =? 0) = bool_decide (l = []).
Proof.
  intros Hlo Hw. destruct l as [|[a s] l _] using rev_ind; [done|].
  unfold last_addr. rewrite last_snoc. simpl. rewrite bool_decide_eq_false_2 by (destruct l; done).
  destruct (wf_free_elem lo (l ++ [(a, s)]) a s Hw); [set_solver|]. lia.
Qed.

Lemma not_in_split (pre suf : list region) c t x :
  x ∉ (pre ++ ((c, t) :: suf)).*1 → x ≠ c ∧ (x ∉ pre.*1) ∧ x ∉ suf.*1.
Proof. rewrite fmap_app, not_elem_of_app. simpl. rewrite not_elem_of_cons. tauto. Qed.

(** The headers outside the list and the freed block are untouched. *)
Definition untouched (m m' : memory) (l : list region) (a : Z) : Prop :=
  ∀ x, x ∉ l.*1 → x ≠ a → m' !! x = m !! x.

Section kmfree.
Context (a s : Z) (Hok : region_ok (a, s)).

Definition freed (h : heap) (m : memory) (pre suf : list region)
    (o : option (outcome (heap * memory))) : Prop :=
  ∃ h' m', o = Some (Ret (h', m')) ∧ chain m' (free_blocks h') (pre ++ free_insert a s suf) 0 ∧
    same_counts h h' ∧ untouched m m' (pre ++ suf) a.

Lemma kmfree_at_end fuel h m pre nx :
  chain m (free_blocks h) pre 0 → wf_free 1 pre → m !! a = Some (Block s nx) → a ∉ pre.*1 →
  freed h m pre [] (kmfree_loop fuel h m a (last_addr pre) 0).
Proof.
  intros Hc Hw Ha Hna. assert (Ha0 : a ≠ 0) by (destruct Hok; simpl in *; lia).
  assert (Hc1 : chain (<[a := Block s 0]> m) (free_blocks h) pre 0) by (by apply chain_insert).
  assert (E : kmfree_loop fuel h m a (last_addr pre) 0 =
    '(h', m') ← link_block h (<[a := Block s 0]> m) (last_addr pre) a; Some (Ret (h', m'))).
  { destruct fuel; simpl; rewrite Ha; simpl; rewrite (last_addr_zero 1) by done;
      unfold link_block; rewrite (last_addr_zero 1) by done; destruct pre; simpl; try done;
      (simpl in Hc; rewrite Hc; done). }
  destruct (link_block_ok h (<[a := Block s 0]> m) pre 0 a Hc1) as (h' & m' & El & Hc' & Hs & Hfr);
    [by eapply wf_free_NoDup|].
  exists h', m'. rewrite E, El. split; [done|]. split; [|split; [done|]].
  - apply chain_app. exists a. split; [done|]. simpl. split; [done|]. split; [done|].
    exists 0. rewrite Hfr by done. by rewrite lookup_insert_eq.
  - intros x Hx Hxa. rewrite app_nil_r in Hx. rewrite Hfr by done. by rewrite lookup_insert_ne.
Qed.

Lemma kmfree_merge_prev h m pre c t suf nx :
  chain m (free_blocks h) pre c → m !! c = Some (Block t nx) → chain m nx suf 0 →
  wf_free 1 (pre ++ ((c, t) :: suf)) → a = c + t → nx ≠ a →
  freed h m pre ((c, t) :: suf)
    (let size := u32 (t + s) in
     let m := <[c := Block size nx]> m in
     if u32 (c + size) =? nx then
       n ← m !! nx; Some (Ret (h, <[c := Block (u32 (size + b_size n)) (b_next n)]> m))
     else Some (Ret (h, m))).
Proof.
  intros Hpre Hc Hsuf Hw Ha Hnx. destruct Hok as (_ & Hs & Hb & _). simpl in Hs, Hb.
  assert (Hcp : c ∉ pre.*1).
  { intros Hin. apply (wf_free_app_ne 1 pre suf c t c) in Hin; [lia|done]. }
  apply wf_free_app in Hw as (_ & lo & _ & (Hlo & (Hc0 & Ht & Hct & _) & Hws) & _). simpl in *.
  rewrite (u32_small (t + s)) by lia. rewrite (u32_small (c + (t + s))) by lia.
  assert (Hcs : c ∉ suf.*1) by (apply (wf_free_addr (c + t + 1)); [done|lia]).
  unfold freed. simpl. rewrite (proj2 (Z.eqb_eq (c + t) a)) by lia.
  destruct suf as [|[n u] suf]; simpl in Hsuf.
  - subst nx. destruct (Z.eqb_spec (c + (t + s)) 0); [lia|]. eexists _, _. split; [done|].
    split; [|split; [done|]].
    + apply chain_app. exists c. split; [by apply chain_insert|]. split; [done|]. split; [lia|].
      exists 0. by rewrite lookup_insert_eq.
    + intros x (Hx & _)%not_in_split _. by rewrite lookup_insert_ne.
  - destruct Hsuf as (-> & Hn0 & nn & Hn & Hsuf). simpl in Hcs.
    apply not_elem_of_cons in Hcs as [Hcn Hcs].
    destruct (Z.eqb_spec (c + (t + s)) n) as [En|En], (Z.eqb_spec (c + t + s) n); try lia;
      [rewrite lookup_insert_ne, Hn by done; simpl|]; eexists _, _; (split; [done|]);
      (split; [|split; [done|]]).
    + apply chain_app. exists c. rewrite insert_insert_eq. split; [by apply chain_insert|].
      destruct Hws as (_ & (? & ? & ? & _) & _). simpl in *. split; [done|]. split; [lia|].
      exists nn. rewrite lookup_insert_eq, u32_small by lia. split; [done|].
      by apply chain_insert.
    + intros x (Hx & _)%not_in_split _. by rewrite !lookup_insert_ne.
    + apply chain_app. exists c. split; [by apply chain_insert|]. split; [done|]. split; [lia|].
      exists n. rewrite lookup_insert_eq. split; [done|]. split; [done|]. split; [done|].
      exists nn. rewrite lookup_insert_ne by done. split; [done|]. by apply chain_insert.
    + intros x (Hx & _)%not_in_split _. by rewrite lookup_insert_ne.
Qed.

Lemma kmfree_insert_before h m pre c t suf nx bn :
  chain m (free_blocks h) pre c → m !! c = Some (Block t nx) → chain m nx suf 0 →
  wf_free 1 (pre ++ ((c, t) :: suf)) → m !! a = Some (Block s bn) → a ∉ pre.*1 →
  a + s ≤ c →
  freed h m pre ((c, t) :: suf)
    ('(h, m) ← link_block h m (last_addr pre) a;
     let m := <[a := Block s c]> m in
     if u32 (a + s) =? c then
       c ← m !! c; Some (Ret (h, <[a := Block (u32 (s + b_size c)) (b_next c)]> m))
     else Some (Ret (h, m))).
Proof.
  intros Hpre Hc Hsuf Hw Ha Hap Hac. destruct Hok as (Ha0 & Hs & Hb & _). simpl in Ha0, Hs, Hb.
  assert (Hcp : c ∉ pre.*1).
  { intros Hin. apply (wf_free_app_ne 1 pre suf c t c) in Hin; [lia|done]. }
  assert (Hsp : ∀ x, x ∈ suf.*1 → (x ∉ pre.*1) ∧ c < x).
  { intros x Hx. assert (Hcx : c < x).
    { apply wf_free_app in Hw as (_ & lo & _ & (_ & (_ & Ht & _) & Hws) & _). simpl in *.
      destruct (decide (c < x)) as [|Hge]; [done|]. exfalso.
      apply (wf_free_addr _ _ x Hws); [lia|done]. }
    split; [|done]. intros Hin. apply (wf_free_app_ne 1 pre suf c t x) in Hin; [lia|done]. }
  pose proof (wf_free_app _ _ _ Hw) as (Hwp & lo & _ & (_ & (_ & Ht & Hct & _) & Hws) & _).
  simpl in *.
  destruct (link_block_ok h m pre c a Hpre) as (h' & m' & -> & Hc' & Hsame & Hfr);
    [by eapply wf_free_NoDup|]. simpl.
  unfold freed. simpl. destruct (Z.eqb_spec (c + t) a); [lia|]. destruct (Z.leb_spec a c); [|lia].
  rewrite u32_small by lia. assert (Hac' : a ≠ c) by lia.
  assert (Hsuf' : ∀ b, chain (<[a := b]> m') nx suf 0).
  { intros b. apply (chain_frame m); [|done]. intros x Hx. destruct (Hsp x Hx).
    rewrite lookup_insert_ne by lia. by apply Hfr. }
  assert (Hun : ∀ b, untouched m (<[a := b]> m') (pre ++ ((c, t) :: suf)) a).
  { intros b x (_ & Hx & _)%not_in_split Hxa. rewrite lookup_insert_ne by done. by apply Hfr. }
  destruct (Z.eqb_spec (a + s) c) as [Hj|Hj].
  - rewrite lookup_insert_ne, Hfr, Hc by done. simpl. eexists _, _. split; [done|].
    rewrite insert_insert_eq. split; [|split; [done|apply Hun]].
    apply chain_app. exists a. split; [by apply chain_insert|]. split; [done|]. split; [lia|].
    exists nx. rewrite lookup_insert_eq, u32_small by lia. done.
  - eexists _, _. split; [done|]. split; [|split; [done|apply Hun]].
    apply chain_app. exists a. split; [by apply chain_insert|]. split; [done|]. split; [lia|].
    exists c. rewrite lookup_insert_eq. split; [done|]. split; [done|]. split; [lia|].
    exists nx. rewrite lookup_insert_ne, Hfr by done. done.
Qed.

Lemma kmfree_loop_ok suf : ∀ fuel h m pre cur bn,
  chain m (free_blocks h) pre cur → chain m cur suf 0 → wf_free 1 (pre ++ suf) →
  m !! a = Some (Block s bn) → (∀ r, r ∈ pre ++ suf → disj (a, s) r) →
  (length suf ≤ fuel)%nat → a ∉ pre.*1 →
  freed h m pre suf (kmfree_loop fuel h m a (last_addr pre) cur).
Proof.
  destruct Hok as (Ha0 & Hs & Hb & _). simpl in Ha0, Hs, Hb.
  induction suf as [|[c t] suf IH]; intros fuel h m pre cur bn Hpre Hsuf Hw Ha Hd Hf Hna.
  - simpl in Hsuf. subst cur. rewrite app_nil_r in Hw. by eapply kmfree_at_end.
  - simpl in Hsuf. destruct Hsuf as (-> & Hc0 & nx & Hc & Hsuf).
    destruct fuel as [|fuel]; [simpl in Hf; lia|]. cbn [kmfree_loop].
    destruct (Z.eqb_spec c 0) as [|_]; [done|]. rewrite Hc. cbn [mbind option_bind b_next b_size].
    rewrite Ha. cbn [mbind option_bind b_next b_size].
    assert (Hdc : disj (a, s) (c, t)) by (apply Hd; set_solver). unfold disj in Hdc. simpl in Hdc.
    pose proof (wf_free_app _ _ _ Hw) as (_ & lo & _ & (_ & (Hcp & Ht & Hct & _) & Hws) & _).
    simpl in Hcp, Ht, Hct. assert (Hnx : nx ≠ a).
    { destruct suf as [|[n u] suf]; simpl in Hsuf; [lia|]. destruct Hsuf as (-> & _).
      assert (Hdn : disj (a, s) (n, u)) by (apply Hd; set_solver).
      destruct Hws as (_ & (_ & ? & _) & _). unfold disj in Hdn. simpl in *. lia. }
    destruct (Z.eqb_spec nx a); [done|]. rewrite (u32_small (c + t)) by lia.
    destruct (Z.eqb_spec (c + t) a) as [E|Hne]; [by apply kmfree_merge_prev|].
    destruct (Z.leb_spec a c); [by apply (kmfree_insert_before h m pre c t suf nx bn); try done; lia|].
    destruct (IH fuel h m (pre ++ [(c, t)]) nx bn) as (h' & m' & E & Hc' & Hsame & Hun).
    + apply chain_app. exists c. split; [done|]. simpl. split; [done|]. split; [done|].
      exists nx. done.
    + done.
    + by rewrite <- app_assoc.
    + done.
    + by rewrite <- app_assoc.
    + simpl in Hf. lia.
    + rewrite fmap_app, not_elem_of_app. simpl. split; [done|]. apply not_elem_of_cons.
      split; [lia|]. apply not_elem_of_nil.
    + exists h', m'. unfold last_addr in E at 1. rewrite last_snoc in E. simpl in E.
      split; [done|]. simpl. destruct (Z.eqb_spec (c + t) a); [done|].
      destruct (Z.leb_spec a c); [lia|]. rewrite <- app_assoc in Hc'. split; [done|].
      split; [done|]. by rewrite <- app_assoc in Hun.
Qed.
End kmfree.

(** ** The search of kmalloc *)

Lemma free_take_ok lo bs l a s l' :
  8 ≤ bs → bs mod 4 = 0 → wf_free lo l → free_take bs l = Some ((a, s), l') →
  wf_free lo l' ∧ region_ok (a, s) ∧ lo ≤ a ∧ bs ≤ s ∧ total l = s + total l' ∧
  (∀ x, covered l x ↔ a ≤ x < a + s ∨ covered l' x) ∧ (∀ f, f ∈ l' → disj (a, s) f).
Proof.
  intros Hbs Hm4. revert lo l'. induction l as [|[c t] l IH]; intros lo l' Hw E; [done|].
  simpl in E. simpl in Hw. destruct Hw as (Hlo & Hok & Hw).
  pose proof Hok as (Hc & Ht & Hb & Hc4 & Ht4). simpl in *.
  assert (Hafter : ∀ f, f ∈ l → c + t < f.1).
  { intros [f u] Hf. destruct (wf_free_elem _ _ _ _ Hw Hf). simpl. lia. }
  destruct (Z.leb_spec bs t); [destruct (Z.leb_spec (bs + 16) t)|].
  - injection E as -> <- <-. simpl. unfold region_ok, disj. simpl.
    split_and!; try lia; try (by apply mod4_add); try (by apply mod4_sub).
    + by replace (a + bs + (t - bs) + 1) with (a + t + 1) by lia.
    + intros x. rewrite !covered_cons. intuition lia.
    + intros f [->|Hf]%elem_of_cons; simpl; [lia|]. specialize (Hafter f Hf). lia.
  - injection E as -> -> <-. unfold disj. split; [by eapply wf_free_weaken; [|done]; lia|].
    split; [done|]. split; [done|]. split; [done|]. split; [done|]. split; [apply covered_cons|].
    intros f Hf. specialize (Hafter f Hf). simpl. lia.
  - destruct (free_take bs l) as [[[a' s'] l1]|] eqn:E1; [|done]. simpl in E.
    injection E as <- <- <-. destruct (IH _ _ Hw eq_refl) as (Hw' & Hok' & Hlo' & Hs & Htot & Hcov & Hd).
    split_and!; try done; try lia.
    + simpl. lia.
    + intros x. rewrite !covered_cons, Hcov. tauto.
    + intros f [->|Hf]%elem_of_cons; [|auto]. unfold disj. simpl. lia.
Qed.

Lemma chain_in_covered lo l x : wf_free lo l → x ∈ l.*1 → covered l x.
Proof.
  intros Hw ([a s] & -> & Hin)%list_elem_of_fmap. exists a, s. split; [done|].
  destruct (wf_free_elem _ _ _ _ Hw Hin) as (_ & _ & ? & _). simpl in *. lia.
Qed.

(** What the search leaves: the region taken, its header, and the rest of the
    memory outside the free regions untouched. *)
Definition taken (h : heap) (m : memory) (l : list region) (a s : Z) (l' : list region)
    (o : option (option (heap * memory * Z))) : Prop :=
  ∃ h' m', o = Some (Some (h', m', a + 8)) ∧ chain m' (free_blocks h') l' 0 ∧
    m' !! a = Some (Block s 0) ∧ heap_total_pages h' = heap_total_pages h ∧
    bytes_free h' = u32 (bytes_free h - s) ∧ bytes_allocated h' = u32 (bytes_allocated h + s) ∧
    (∀ x, ¬ covered l x → m' !! x = m !! x).

(** Unlinking [a] once its successor [nb] heads the rest of the list. *)
Lemma take_link h m0 m pre suf suf' c t a s nb :
  chain m (free_blocks h) pre c → wf_free 1 (pre ++ ((c, t) :: suf)) →
  m !! a = Some (Block s 0) → a = c → region_ok (c, t) → chain m nb suf' 0 →
  (∀ x, x ∈ suf'.*1 → c < x) →
  (∀ x, ¬ covered (pre ++ ((c, t) :: suf)) x → m !! x = m0 !! x) →
  taken h m0 (pre ++ ((c, t) :: suf)) a s (pre ++ suf')
    ('(h, m) ← link_block h m (last_addr pre) nb;
     Some (Some (Heap (free_blocks h) (heap_total_pages h) (u32 (bytes_free h - s))
                   (u32 (bytes_allocated h + s)), m, u32 (c + BLOCK_HEADER)))).
Proof.
  intros Hpre Hw Ha -> (Hc & Ht & Hb & _) Hsuf' Hafter Hm. simpl in Hc, Ht, Hb.
  assert (Hprec : ∀ x, x ∈ pre.*1 → x < c) by (intros x Hx; by apply (wf_free_app_ne 1 pre suf c t x)).
  pose proof (wf_free_app _ _ _ Hw) as (Hwp & _).
  destruct (link_block_ok h m pre c nb Hpre) as (h' & m' & -> & Hc' & (Hs1 & Hs2 & Hs3) & Hfr);
    [by eapply wf_free_NoDup|].
  simpl. unfold BLOCK_HEADER. rewrite (u32_small (c + 8)) by lia. eexists _, m'. split; [done|]. simpl.
  rewrite Hs1, Hs2, Hs3. split; [|split; [|split; [done|split; [done|split; [done|]]]]].
  - apply chain_app. exists nb. split; [done|]. eapply chain_frame; [|done]. intros x Hx.
    apply Hfr. intros Hxp. specialize (Hprec x Hxp). specialize (Hafter x Hx). lia.
  - rewrite Hfr; [done|]. intros Hin. specialize (Hprec c Hin). lia.
  - intros x Hx. rewrite Hfr; [by apply Hm|]. intros Hin. apply Hx. rewrite covered_app. left.
    by apply (chain_in_covered 1).
Qed.

Lemma kmalloc_search_ok bs : 8 ≤ bs → bs mod 4 = 0 → bs < 2 ^ 31 → ∀ suf fuel h m pre cur,
  chain m (free_blocks h) pre cur → chain m cur suf 0 → wf_free 1 (pre ++ suf) →
  (length suf ≤ fuel)%nat →
  match free_take bs suf with
  | None => kmalloc_search fuel h m bs (last_addr pre) cur = Some None
  | Some ((a, s), suf') => taken h m (pre ++ suf) a s (pre ++ suf')
                             (kmalloc_search fuel h m bs (last_addr pre) cur)
  end.
Proof.
  intros Hbs Hm4 Hbs2 suf. induction suf as [|[c t] suf IH]; intros fuel h m pre cur Hpre Hsuf Hw Hf.
  - simpl in Hsuf. subst cur. by destruct fuel.
  - simpl in Hsuf. destruct Hsuf as (-> & Hc0 & nx & Hc & Hsuf).
    destruct fuel as [|fuel]; [simpl in Hf; lia|]. cbn [kmalloc_search free_take].
    destruct (Z.eqb_spec c 0) as [|_]; [done|]. rewrite Hc. cbn [mbind option_bind b_next b_size].
    pose proof (wf_free_app _ _ _ Hw) as (Hwp & lo & _ & (_ & Hok & Hws) & _).
    pose proof Hok as (Hcp & Ht & Hb & _). simpl in Hcp, Ht, Hb.
    assert (Hcpre : c ∉ pre.*1).
    { intros Hin. apply (wf_free_app_ne 1 pre suf c t c) in Hin; [lia|done]. }
    assert (Hsc : ∀ x, x ∈ suf.*1 → c + t < x).
    { intros x ([f u] & -> & Hin)%list_elem_of_fmap. destruct (wf_free_elem _ _ _ _ Hws Hin). simpl. lia. }
    assert (Hcov : ∀ x, c ≤ x < c + t → covered (pre ++ ((c, t) :: suf)) x).
    { intros x Hx. rewrite covered_app, covered_cons. tauto. }
    unfold BLOCK_HEADER at 1. rewrite (u32_small (bs + 8 + 8)) by lia.
    replace (bs + 8 + 8) with (bs + 16) by lia.
    destruct (Z.leb_spec bs t) as [Hfit|Hno]; [destruct (Z.leb_spec (bs + 16) t) as [Hsp|Hns]|].
    + rewrite !(u32_small (c + bs)), (u32_small (t - bs)) by lia. cbn [b_size b_next].
      rewrite insert_insert_eq.
      apply (take_link h m _ pre suf ((c + bs, t - bs) :: suf) c t c bs (c + bs)); try done.
      * do 2 (apply chain_insert; [done || (intros Hin;
          pose proof (wf_free_app_ne 1 pre suf c t (c + bs) Hw Hin); lia)|]). done.
      * by rewrite lookup_insert_eq.
      * simpl. split; [done|]. split; [lia|]. exists nx.
        rewrite lookup_insert_ne, lookup_insert_eq by lia. split; [done|].
        do 2 (apply chain_insert; [intros Hin; specialize (Hsc _ Hin); lia|]). done.
      * simpl. intros x [->|Hx]%elem_of_cons; [lia|]. specialize (Hsc x Hx). lia.
      * intros x Hx. rewrite !lookup_insert_ne; [done| |]; intros <-; apply Hx, Hcov; lia.
    + cbn [b_size b_next]. apply (take_link h m _ pre suf suf c t c t nx); try done.
      * by apply chain_insert.
      * by rewrite lookup_insert_eq.
      * apply chain_insert; [|done]. intros Hin. specialize (Hsc _ Hin). lia.
      * intros x Hx. specialize (Hsc x Hx). lia.
      * intros x Hx. rewrite lookup_insert_ne; [done|]. intros <-. apply Hx, Hcov. lia.
    + specialize (IH fuel h m (pre ++ [(c, t)]) nx).
      rewrite <- app_assoc in IH. unfold last_addr in IH at 1 2. rewrite last_snoc in IH. simpl in IH.
      assert (Hpre' : chain m (free_blocks h) (pre ++ [(c, t)]) nx).
      { apply chain_app. exists c. split; [done|]. simpl. eauto. }
      specialize (IH Hpre' Hsuf Hw ltac:(simpl in Hf; lia)).
      destruct (free_take bs suf) as [[[a s] suf']|]; simpl; [|done].
      by rewrite <- app_assoc in IH.
Qed.

(** Putting a region back where it was taken from restores the list. *)
Lemma free_take_insert lo bs l a s l' :
  8 ≤ bs → wf_free lo l → free_take bs l = Some ((a, s), l') → free_insert a s l' = l.
Proof.
  intros Hbs. revert lo l'. induction l as [|[c t] l IH]; intros lo l' Hw E; [done|].
  simpl in E, Hw. destruct Hw as (_ & (_ & Ht & _) & Hw). simpl in Ht.
  destruct (Z.leb_spec bs t); [destruct (Z.leb_spec (bs + 16) t)|].
  - injection E as -> <- <-. simpl. destruct (Z.eqb_spec (a + bs + (t - bs)) a); [lia|].
    destruct (Z.leb_spec a (a + bs)); [|lia]. rewrite Z.eqb_refl.
    by replace (bs + (t - bs)) with t by lia.
  - injection E as -> -> <-. destruct l as [|[n u] l]; [done|]. simpl.
    destruct Hw as (Hn & (_ & Hu & _) & _). simpl in Hu.
    destruct (Z.eqb_spec (n + u) a); [lia|]. destruct (Z.leb_spec a n); [|lia].
    by destruct (Z.eqb_spec (a + s) n); [lia|].
  - destruct (free_take bs l) as [[[a' s'] l1]|] eqn:E1; [|done]. simpl in E.
    injection E as <- <- <-. simpl.
    assert (Ha : c + t + 1 ≤ a').
    { assert (Hin : covered l a').
      { clear IH. revert l1 E1. generalize (c + t + 1) Hw. clear Hw.
        induction l as [|[d u] l IHl]; intros lo' Hw' l1 E1; [done|]. simpl in E1, Hw'.
        destruct Hw' as (_ & (_ & Hu & _) & Hw'). simpl in Hu. rewrite covered_cons.
        destruct (bs <=? u); [destruct (bs + 16 <=? u); injection E1 as -> _ _; left; lia|].
        destruct (free_take bs l) as [[[a2 s2] l2]|]; [|done]. simpl in E1. injection E1 as -> -> _.
        right. by eapply IHl. }
      destruct Hin as (d & u & Hd & Hx). apply (wf_free_elem _ _ _ _ Hw) in Hd as [? _]. lia. }
    destruct (Z.eqb_spec (c + t) a'); [lia|]. destruct (Z.leb_spec a' c); [lia|].
    f_equal. by eapply IH.
Qed.

(** ** The invariant of the heap *)

Fixpoint apart (l : list region) : Prop :=
  match l with [] => True | r :: l => Forall (disj r) l ∧ apart l end.

Lemma disj_sym r1 r2 : disj r1 r2 → disj r2 r1.
Proof. unfold disj. lia. Qed.

#[export] Instance apart_perm : Proper ((≡ₚ) ==> iff) apart.
Proof.
  assert (Hone : ∀ l l', l ≡ₚ l' → apart l → apart l').
  { induction 1 as [|r l l' HP IH|r1 r2 l|l1 l2 l3 _ IH1 _ IH2]; simpl.
    - done.
    - intros [HF Ha]. split; [by rewrite <- HP|auto].
    - intros [HF [HF2 Ha]]. apply Forall_cons in HF as [Hd HF].
      split; [constructor; [by apply disj_sym|done]|]. done.
    - auto. }
  intros l l' HP. split; apply Hone; [done|by symmetry].
Qed.

#[export] Instance total_perm : Proper ((≡ₚ) ==> eq) total.
Proof. induction 1 as [|[] l l' HP IH|[] [] l|]; simpl; lia. Qed.

#[export] Instance covered_perm : Proper ((≡ₚ) ==> eq ==> iff) covered.
Proof. intros l l' HP x _ <-. unfold covered. by setoid_rewrite HP. Qed.

Section heap_inv.
Context {P : Type} `{PageSource P} (PAGE_ADDR_BITS : Z) `{!PageLaws P PAGE_ADDR_BITS}.
Hypothesis page_bits : 8 ≤ PAGE_ADDR_BITS ≤ 16.

(** [fl] are the free regions, [al] the regions handed out. *)
Record heap_inv (h : heap) (m : memory) (p : P) (fl al : list region) : Prop := {
  hi_chain : chain m (free_blocks h) fl 0;
  hi_free : wf_free 1 fl;
  hi_alloc : ∀ a s, (a, s) ∈ al → m !! a = Some (Block s 0) ∧ region_ok (a, s);
  hi_apart : ∀ r f, r ∈ al → f ∈ fl → disj r f;
  hi_disj : apart al;
  hi_bytes_free : bytes_free h = u32 (total fl);
  hi_bytes_allocated : bytes_allocated h = u32 (total al);
  hi_source : source_inv p;
  hi_owned : ∀ x, covered (fl ++ al) x → source_owns p x;
}.

#[export] Instance heap_inv_perm h m p fl : Proper ((≡ₚ) ==> iff) (heap_inv h m p fl).
Proof.
  assert (Hone : ∀ l l', l ≡ₚ l' → heap_inv h m p fl l → heap_inv h m p fl l').
  { intros l l' HP []. constructor; try done.
    - intros a s. rewrite <- HP. auto.
    - intros r f. rewrite <- HP. auto.
    - by rewrite <- HP.
    - by rewrite <- HP.
    - intros x. rewrite <- HP. auto. }
  intros l l' HP. split; apply Hone; [done|by symmetry].
Qed.

(** Regions apart from a list are apart from the regions covering the same. *)
Lemma disj_covered r l :
  0 < r.2 → (∀ f, f ∈ l → 0 < f.2) →
  (∀ f, f ∈ l → disj r f) ↔ (∀ x, covered l x → ¬ (r.1 ≤ x < r.1 + r.2)).
Proof.
  intros Hr Hl. split.
  - intros Hd x (a & s & Hin & Hx). specialize (Hd _ Hin). unfold disj in Hd. simpl in Hd. lia.
  - intros Hc [a s] Hin. specialize (Hl _ Hin). simpl in Hl. unfold disj. simpl.
    destruct (decide (r.1 + r.2 ≤ a)) as [|H1]; [by left|].
    destruct (decide (a + s ≤ r.1)) as [|H2]; [by right|]. exfalso.
    destruct (decide (a ≤ r.1)).
    + apply (Hc r.1); [exists a, s; split; [done|lia]|lia].
    + apply (Hc a); [exists a, s; split; [done|lia]|lia].
Qed.

Lemma wf_free_pos lo l f : wf_free lo l → f ∈ l → 0 < f.2.
Proof. intros Hw Hin. destruct f as [a s]. destruct (wf_free_elem _ _ _ _ Hw Hin) as (_ & _ & ? & _). simpl in *. lia. Qed.

Lemma disj_free_insert lo a s fl r :
  wf_free lo fl → lo ≤ a → region_ok (a, s) → (∀ f, f ∈ fl → disj (a, s) f) →
  0 < r.2 → disj (a, s) r → (∀ f, f ∈ fl → disj r f) →
  ∀ f, f ∈ free_insert a s fl → disj r f.
Proof.
  intros Hw Hlo Hok Hd Hr Har Hrf. pose proof Hok as (_ & Hs & _). simpl in Hs.
  apply disj_covered; [done|intros f; eapply wf_free_pos; by apply free_insert_wf|].
  intros x Hx. apply (free_insert_covers lo) in Hx as [Hx|Hx]; [|revert x Hx|lia|done].
  - unfold disj in Har. simpl in Har. lia.
  - apply disj_covered; [done|intros f; by eapply wf_free_pos|done].
Qed.

(** kmfree of a live allocation returns it to the free list. *)
Lemma kmfree_ok h m p fl al a s :
  heap_inv h m p fl ((a, s) :: al) →
  ∃ h' m', kmfree h m (a + 8) = Some (Ret (h', m')) ∧
    heap_inv h' m' p (free_insert a s fl) al.
Proof.
  intros Hinv. destruct (hi_alloc _ _ _ _ _ Hinv a s) as [Ha Hok]; [set_solver|].
  pose proof Hok as (Ha0 & Hs & Hb & _). simpl in Ha0, Hs, Hb.
  assert (Hd : ∀ f, f ∈ fl → disj (a, s) f)
    by (intros f; apply (hi_apart _ _ _ _ _ Hinv); set_solver).
  assert (Hal : ∀ c t, (c, t) ∈ al → disj (a, s) (c, t) ∧ 0 < t).
  { intros c t Hin. destruct (hi_disj _ _ _ _ _ Hinv) as [HF _]. rewrite Forall_forall in HF.
    split; [by apply HF|]. destruct (hi_alloc _ _ _ _ _ Hinv c t) as [_ (_ & ? & _)]; [set_solver|].
    simpl in *. lia. }
  unfold kmfree, BLOCK_HEADER. rewrite u32_small by lia. replace (a + 8 - 8) with a by lia.
  rewrite Ha. simpl. set (h1 := Heap _ _ _ _).
  destruct (kmfree_loop_ok a s Hok fl (size m) h1 m [] (free_blocks h) 0)
    as (h' & m' & E & Hc' & (_ & Hbf & Hba) & Hun); try done; try apply Hinv.
  { eapply chain_fuel; apply Hinv. }
  { apply not_elem_of_nil. }
  exists h', m'. split; [done|]. simpl in Hc', Hun. constructor.
  - done.
  - apply free_insert_wf; try done; [apply Hinv|lia].
  - intros c t Hin. destruct (hi_alloc _ _ _ _ _ Hinv c t) as [Hm Hokc]; [set_solver|].
    split; [|done]. destruct (Hal c t Hin) as [Hdc Ht]. unfold disj in Hdc. simpl in Hdc.
    rewrite Hun; [done| |lia]. intros ([f u] & -> & Hf)%list_elem_of_fmap.
    pose proof (wf_free_pos _ _ _ (hi_free _ _ _ _ _ Hinv) Hf) as Hu. simpl in Hu.
    assert (Hdf : disj (f, t) (f, u)) by (apply (hi_apart _ _ _ _ _ Hinv); set_solver).
    unfold disj in Hdf. simpl in Hdf. lia.
  - intros [c t] f Hin. destruct (Hal c t Hin) as [Hdc Ht]. revert f.
    apply (disj_free_insert 1); try done; [apply Hinv|lia|].
    intros f Hf. apply (hi_apart _ _ _ _ _ Hinv); set_solver.
  - apply Hinv.
  - rewrite Hbf, free_insert_total. simpl. rewrite (hi_bytes_free _ _ _ _ _ Hinv).
    unfold u32, uwrap. rewrite Z.add_mod_idemp_l by lia. f_equal. lia.
  - rewrite Hba. simpl. rewrite (hi_bytes_allocated _ _ _ _ _ Hinv).
    unfold u32, uwrap. simpl. rewrite Zminus_mod_idemp_l. f_equal. lia.
  - apply Hinv.
  - intros x Hx. apply (hi_owned _ _ _ _ _ Hinv). rewrite covered_app in *.
    rewrite covered_cons. destruct Hx as [Hx|Hx]; [|tauto].
    apply (free_insert_covers 1) in Hx; [tauto|lia|apply Hinv].
Qed.

(** kmalloc from the free list. *)
Lemma kmalloc_free_list h m p fl al bs a s fl' :
  heap_inv h m p fl al → 8 ≤ bs → bs mod 4 = 0 → bs < 2 ^ 31 →
  free_take bs fl = Some ((a, s), fl') →
  ∃ h' m', kmalloc_search (size m) h m bs 0 (free_blocks h) = Some (Some (h', m', a + 8)) ∧
    heap_inv h' m' p fl' ((a, s) :: al).
Proof.
  intros Hinv Hbs Hm4 Hbs2 Ht.
  pose proof (kmalloc_search_ok bs Hbs Hm4 Hbs2 fl (size m) h m [] (free_blocks h) eq_refl) as Hs.
  rewrite Ht in Hs. destruct Hs as (h' & m' & E & Hc & Ha & _ & Hbf & Hba & Hun);
    [apply Hinv|apply Hinv|eapply chain_fuel; apply Hinv|].
  destruct (free_take_ok 1 bs fl a s fl' Hbs Hm4 (hi_free _ _ _ _ _ Hinv) Ht)
    as (Hw' & Hok & _ & Hle & Htot & Hcov & Hd).
  assert (Hal : ∀ c t, (c, t) ∈ al → ∀ x, c ≤ x < c + t → ¬ covered fl x).
  { intros c t Hin x Hx Hcx. destruct (hi_alloc _ _ _ _ _ Hinv c t Hin) as [_ (_ & ? & _)].
    revert x Hcx Hx. apply (disj_covered (c, t)); [simpl in *; lia|intros f; eapply wf_free_pos; apply Hinv|].
    intros f. by apply (hi_apart _ _ _ _ _ Hinv). }
  exists h', m'. split; [done|]. constructor.
  - done.
  - done.
  - intros c t [E'|Hin]%elem_of_cons; [by injection E' as -> ->|].
    destruct (hi_alloc _ _ _ _ _ Hinv c t Hin) as [Hm Hokc]. split; [|done].
    rewrite Hun; [done|]. destruct Hokc as (_ & ? & _). apply (Hal c t Hin). simpl in *. lia.
  - intros r f [->|Hin]%elem_of_cons Hf; [by apply Hd|]. destruct r as [c t]. revert f Hf.
    destruct (hi_alloc _ _ _ _ _ Hinv c t Hin) as [_ (_ & ? & _)].
    apply disj_covered; [simpl in *; lia|intros f; by eapply wf_free_pos|].
    intros x Hx Hx'. apply (Hal c t Hin x Hx'), Hcov. by right.
  - split; [|apply Hinv]. apply Forall_forall. intros [c t] Hin. unfold disj. simpl.
    destruct (hi_alloc _ _ _ _ _ Hinv c t Hin) as [_ (_ & ? & _)]. simpl in *.
    destruct (decide (a + s ≤ c)); [by left|]. destruct (decide (c + t ≤ a)); [by right|]. exfalso.
    destruct Hok as (_ & ? & _). simpl in *.
    destruct (decide (a ≤ c)); [apply (Hal c t Hin c)|apply (Hal c t Hin a)]; try lia;
      apply Hcov; left; lia.
  - rewrite Hbf, (hi_bytes_free _ _ _ _ _ Hinv), Htot. unfold u32, uwrap.
    rewrite Zminus_mod_idemp_l. f_equal. lia.
  - rewrite Hba, (hi_bytes_allocated _ _ _ _ _ Hinv). unfold u32, uwrap. simpl.
    rewrite Z.add_mod_idemp_l by lia. f_equal. lia.
  - apply Hinv.
  - intros x Hx. apply (hi_owned _ _ _ _ _ Hinv). rewrite covered_app, covered_cons in *.
    rewrite Hcov. tauto.
Qed.

(** A fresh region joins the allocated ones. *)
Lemma heap_inv_grow h m p p' fl al c n :
  heap_inv h m p fl al → source_inv p' → region_ok (c, n) →
  (∀ x, c ≤ x < c + n → ¬ source_owns p x) →
  (∀ x, source_owns p' x ↔ c ≤ x < c + n ∨ source_owns p x) →
  heap_inv (Heap (free_blocks h) (u32 (heap_total_pages h + n)) (bytes_free h)
                 (u32 (bytes_allocated h + n)))
           (<[c := Block n 0]> m) p' fl ((c, n) :: al).
Proof.
  intros Hinv Hp' Hok Hfresh Howns. pose proof Hok as (_ & Hn & _). simpl in Hn.
  assert (Hnew : ∀ f, f ∈ fl ++ al → disj (c, n) f).
  { apply disj_covered; [simpl; lia| |].
    - intros [a s] [Hf|Hf]%elem_of_app; [by eapply wf_free_pos; [apply Hinv|]|].
      destruct (hi_alloc _ _ _ _ _ Hinv a s Hf) as [_ (_ & ? & _)]. simpl in *. lia.
    - intros x Hx Hx'. apply (Hfresh x Hx'). by apply (hi_owned _ _ _ _ _ Hinv). }
  assert (Hne : ∀ a s, (a, s) ∈ fl ++ al → 0 < s → a ≠ c).
  { intros a s Hin Hs ->. specialize (Hnew _ Hin). unfold disj in Hnew. simpl in Hnew. lia. }
  constructor; simpl.
  - apply chain_insert; [|apply Hinv]. intros ([a s] & -> & Hin)%list_elem_of_fmap.
    apply (Hne a s); [set_solver| |done]. by apply (wf_free_pos _ _ _ (hi_free _ _ _ _ _ Hinv)) in Hin.
  - apply Hinv.
  - intros a s [E|Hin]%elem_of_cons; [injection E as -> ->; by rewrite lookup_insert_eq|].
    destruct (hi_alloc _ _ _ _ _ Hinv a s Hin) as [Hm Hoka]. split; [|done].
    rewrite lookup_insert_ne; [done|]. destruct Hoka as (_ & ? & _). simpl in *.
    intros <-. apply (Hne c s); [set_solver|lia|done].
  - intros r f [->|Hin]%elem_of_cons Hf; [apply Hnew; set_solver|]. by apply (hi_apart _ _ _ _ _ Hinv).
  - split; [|apply Hinv]. apply Forall_forall. intros f Hf. apply Hnew. set_solver.
  - apply Hinv.
  - rewrite (hi_bytes_allocated _ _ _ _ _ Hinv). unfold u32, uwrap. simpl.
    rewrite Z.add_mod_idemp_l by lia. f_equal. lia.
  - done.
  - intros x Hx. apply Howns. rewrite covered_app, covered_cons in Hx.
    pose proof (hi_owned _ _ _ _ _ Hinv x) as Ho. rewrite covered_app in Ho. tauto.
Qed.

(** An allocated region is two allocated regions, once the second has a header. *)
Lemma heap_inv_split h m p fl al c n bs :
  heap_inv h m p fl ((c, n) :: al) → 8 ≤ bs → bs + 8 ≤ n → bs mod 4 = 0 →
  heap_inv h (<[c + bs := Block (n - bs) 0]> (<[c := Block bs 0]> m)) p fl
    ((c + bs, n - bs) :: (c, bs) :: al).
Proof.
  intros Hinv Hbs Hn Hm4.
  destruct (hi_alloc _ _ _ _ _ Hinv c n) as [Hc Hok]; [set_solver|].
  pose proof Hok as (Hc0 & _ & Hb & Hc4 & Hn4). simpl in Hc0, Hb, Hc4, Hn4.
  destruct (hi_disj _ _ _ _ _ Hinv) as [HF Hap]. rewrite Forall_forall in HF.
  assert (Hin : ∀ a s, (a, s) ∈ fl ++ al → 0 < s → ¬ (c ≤ a < c + n)).
  { intros a s [Hi|Hi]%elem_of_app Hs; [|specialize (HF _ Hi); unfold disj in HF; simpl in HF; lia].
    assert (Hd : disj (c, n) (a, s)) by (apply (hi_apart _ _ _ _ _ Hinv); set_solver).
    unfold disj in Hd. simpl in Hd. lia. }
  assert (Hsub : ∀ f, disj (c, n) f → disj (c + bs, n - bs) f ∧ disj (c, bs) f)
    by (unfold disj; simpl; lia).
  constructor.
  - do 2 (apply chain_insert; [intros ([a s] & E & Hi)%list_elem_of_fmap; simpl in E; subst a;
      pose proof (wf_free_pos _ _ _ (hi_free _ _ _ _ _ Hinv) Hi); simpl in *;
      eapply Hin; [apply elem_of_app; by left| |]; simpl; lia|]).
    apply Hinv.
  - apply Hinv.
  - intros a s [E|[E|Hi]%elem_of_cons]%elem_of_cons.
    + injection E as -> ->. rewrite lookup_insert_eq. split; [done|].
      unfold region_ok. simpl. split_and!; try lia; [by apply mod4_add|by apply mod4_sub].
    + injection E as -> ->. rewrite lookup_insert_ne, lookup_insert_eq by lia. split; [done|].
      unfold region_ok. simpl. split_and!; try lia; done.
    + destruct (hi_alloc _ _ _ _ _ Hinv a s) as [Hm Hoka]; [set_solver|]. split; [|done].
      destruct Hoka as (_ & ? & _). simpl in *.
      rewrite !lookup_insert_ne; [done| |]; intros <-; (eapply Hin; [apply elem_of_app; by right| |]); lia.
  - intros r f [->|[->|Hi]%elem_of_cons]%elem_of_cons Hf; [apply Hsub| apply Hsub|];
      apply (hi_apart _ _ _ _ _ Hinv); set_solver.
  - simpl. split; [|split; [|done]]; apply Forall_forall.
    + intros f [->|Hf]%elem_of_cons; [unfold disj; simpl; lia|]. by apply Hsub, HF.
    + intros f Hf. by apply Hsub, HF.
  - apply Hinv.
  - rewrite (hi_bytes_allocated _ _ _ _ _ Hinv). simpl. f_equal. lia.
  - apply Hinv.
  - intros x Hx. apply (hi_owned _ _ _ _ _ Hinv). rewrite covered_app, !covered_cons in *.
    intuition lia.
Qed.

Lemma kmalloc_block_size_ok sz :
  0 ≤ sz ≤ 2 ^ 30 →
  sz + 8 ≤ kmalloc_block_size sz ≤ sz + 12 ∧ kmalloc_block_size sz mod 4 = 0.
Proof.
  intros Hsz. unfold kmalloc_block_size, PTR_SIZE, BLOCK_HEADER.
  pose proof (align_up_pow2 sz 2 ltac:(lia)) as E. change (2 ^ 2) with 4 in E. rewrite !E.
  pose proof (Z.div_mod (sz + (4 - 1)) 4 ltac:(lia)).
  pose proof (Z.mod_pos_bound (sz + (4 - 1)) 4 ltac:(lia)).
  rewrite (u32_small (_ * 4)) by lia. rewrite u32_small by lia. split; [lia|].
  apply mod4_add; [apply Z.mod_mul; lia|done].
Qed.

Lemma page_up_ok bs :
  8 ≤ bs ≤ 2 ^ 31 →
  let ps := align_up bs (PAGE_SIZE PAGE_ADDR_BITS) in
  u32 ps = ps ∧ bs ≤ ps < bs + PAGE_SIZE PAGE_ADDR_BITS ∧ PAGE_SIZE PAGE_ADDR_BITS ≤ ps ∧
  ps / PAGE_SIZE PAGE_ADDR_BITS * PAGE_SIZE PAGE_ADDR_BITS = ps ∧ ps mod 4 = 0.
Proof.
  intros Hbs ps. pose proof (PAGE_SIZE_range _ page_bits) as Hps. unfold ps.
  rewrite (PAGE_SIZE_pow _ page_bits) in *. rewrite align_up_pow2 by lia.
  set (q := 2 ^ PAGE_ADDR_BITS) in *.
  assert (Hq : q = 2 ^ (PAGE_ADDR_BITS - 2) * 4)
    by (unfold q; change 4 with (2 ^ 2); rewrite <- Z.pow_add_r by lia; f_equal; lia).
  pose proof (Z.div_mod (bs + (q - 1)) q ltac:(lia)).
  pose proof (Z.mod_pos_bound (bs + (q - 1)) q ltac:(lia)).
  assert (1 ≤ (bs + (q - 1)) / q) by (apply Z.div_le_lower_bound; lia).
  split; [apply u32_small; lia|]. split; [lia|]. split; [nia|].
  rewrite Z.div_mul by lia. split; [done|].
  generalize ((bs + (q - 1)) / q). intros k. rewrite Hq, Z.mul_assoc. by apply Z.mod_mul.
Qed.

(** kmalloc on a heap in order: the first free region that is large enough, a
    region of fresh pages, or panic when there are none. *)
Definition kmalloc_result (h : heap) (m : memory) (p : P) (fl al : list region) (sz : Z)
    (o : option (outcome (heap * memory * P * Z))) : Prop :=
  (o = Some Panic ∧ free_take (kmalloc_block_size sz) fl = None ∧
   source_alloc p (align_up (kmalloc_block_size sz) (PAGE_SIZE PAGE_ADDR_BITS)) PAGE_F_SUPERVISOR
     = Some (p, NULL_PAGE)) ∨
  (∃ h' m' p' fl' a s, o = Some (Ret (h', m', p', a + 8)) ∧
     heap_inv h' m' p' fl' ((a, s) :: al) ∧ sz + 8 ≤ s ∧
     (free_take (kmalloc_block_size sz) fl = Some ((a, s), fl') ∧ p' = p ∨
      free_take (kmalloc_block_size sz) fl = None ∧ ∀ x, a ≤ x < a + s → ¬ source_owns p x)).

Lemma kmalloc_ok h m p fl al sz :
  heap_inv h m p fl al → 0 ≤ sz ≤ 2 ^ 30 →
  kmalloc_result h m p fl al sz (kmalloc PAGE_ADDR_BITS h m p sz).
Proof.
  intros Hinv Hsz. destruct (kmalloc_block_size_ok sz Hsz) as [Hbs Hm4]. unfold kmalloc, kmalloc_result.
  set (bs := kmalloc_block_size sz) in *. cbv zeta.
  destruct (free_take bs fl) as [[[a s] fl']|] eqn:Et.
  - right. destruct (kmalloc_free_list h m p fl al bs a s fl') as (h' & m' & -> & Hinv'); try done; try lia.
    destruct (free_take_ok 1 bs fl a s fl' ltac:(lia) Hm4 (hi_free _ _ _ _ _ Hinv) Et) as (_ & _ & _ & ? & _).
    exists h', m', p, fl', a, s. simpl. split; [done|]. split; [done|]. split; [lia|]. by left.
  - pose proof (kmalloc_search_ok bs ltac:(lia) Hm4 ltac:(lia) fl (size m) h m [] (free_blocks h) eq_refl) as Hs.
    rewrite Et in Hs. simpl in Hs. unfold last_addr in Hs. simpl in Hs.
    rewrite Hs by (try apply Hinv; eapply chain_fuel; apply Hinv). simpl.
    destruct (page_up_ok bs ltac:(lia)) as (Hu & Hps & Hpl & Hdiv & Hps4).
    set (ps := align_up bs _) in *. rewrite Hu. pose proof (PAGE_SIZE_range _ page_bits).
    destruct (source_alloc_law p ps PAGE_F_SUPERVISOR (hi_source _ _ _ _ _ Hinv)) as
      [E|(p' & c & n & E & Hp' & Hn & Hc0 & Hcn & Hc4 & Hfresh & Howns)]; [lia|left; by rewrite E|].
    rewrite Hdiv in Hn. subst n. right. rewrite E. simpl. unfold NULL_PAGE.
    destruct (Z.eqb_spec c 0); [lia|].
    assert (Hok : region_ok (c, ps)) by (unfold region_ok; simpl; split_and!; done || lia).
    pose proof (heap_inv_grow h m p p' fl al c ps Hinv Hp' Hok Hfresh Howns) as Hg.
    unfold BLOCK_HEADER. rewrite (u32_small (c + 8)), (u32_small (ps - bs)) by lia.
    destruct (Z.ltb_spec (8 + 8) (ps - bs)); cycle 1.
    { eexists _, _, _, _, c, ps. split; [done|]. split; [done|]. split; [lia|]. by right. }
    rewrite !(u32_small (c + bs)) by lia. rewrite (u32_small (c + bs + 8)) by lia.
    rewrite insert_insert_eq.
    pose proof (heap_inv_split _ _ _ _ _ c ps bs Hg ltac:(lia) ltac:(lia) Hm4) as Hsp.
    rewrite insert_insert_eq in Hsp.
    destruct (kmfree_ok _ _ _ _ _ _ _ Hsp) as (h' & m' & -> & Hfin). simpl.
    eexists _, _, _, _, c, bs. split; [done|]. split; [done|]. split; [lia|]. right.
    split; [done|]. intros x Hx. apply Hfresh. lia.
Qed.

(** C30: freeing what kmalloc took from the free list gives the free list
    back as it was: splitting and coalescing leave no fragments. *)
Theorem kmalloc_kmfree_roundtrip h m p fl al sz a s fl' :
  heap_inv h m p fl al → 0 ≤ sz ≤ 2 ^ 30 →
  free_take (kmalloc_block_size sz) fl = Some ((a, s), fl') →
  ∃ h1 m1 h2 m2, kmalloc PAGE_ADDR_BITS h m p sz = Some (Ret (h1, m1, p, a + 8)) ∧
    heap_inv h1 m1 p fl' ((a, s) :: al) ∧
    kmfree h1 m1 (a + 8) = Some (Ret (h2, m2)) ∧ heap_inv h2 m2 p fl al.
Proof.
  intros Hinv Hsz Ht. destruct (kmalloc_block_size_ok sz Hsz) as [Hbs _].
  destruct (kmalloc_ok h m p fl al sz Hinv Hsz) as
    [(_ & E & _)|(h1 & m1 & p1 & fl1 & a1 & s1 & E1 & Hinv1 & _ & [[E ->]|[E _]])]; [congruence| |congruence].
  rewrite Ht in E. injection E as <- <- <-.
  destruct (kmfree_ok h1 m1 p fl' al a s Hinv1) as (h2 & m2 & E2 & Hinv2).
  rewrite (free_take_insert 1 (kmalloc_block_size sz) fl) in Hinv2
    by (done || lia || apply Hinv). exists h1, m1, h2, m2. done.
Qed.

(** The end of the list is reached by way of its last block. *)
Lemma kmfree_double_last pre : ∀ fuel h m prev cur a s c t,
  chain m cur (pre ++ [(c, t)]) a → wf_free 1 (pre ++ [(c, t); (a, s)]) →
  m !! a = Some (Block s 0) → (length pre < fuel)%nat →
  kmfree_loop fuel h m a prev cur = Some Panic.
Proof.
  clear page_bits.
  induction pre as [|[d u] pre IH]; intros fuel h m prev cur a s c t Hc Hw Ha Hf;
    (destruct fuel as [|fuel]; [simpl in Hf; lia|]); cbn [kmfree_loop].
  - destruct Hc as (-> & Hc0 & nx & Hc & ->). destruct (Z.eqb_spec c 0); [done|].
    rewrite Hc. simpl. rewrite Ha. simpl. by rewrite Z.eqb_refl.
  - destruct Hc as (-> & Hd0 & nx & Hd & Hc). destruct (Z.eqb_spec d 0); [done|].
    rewrite Hd. simpl. rewrite Ha. simpl.
    simpl in Hw. destruct Hw as (_ & (Hdp & Hu & Hb & _) & Hw). simpl in Hdp, Hu, Hb.
    destruct (wf_free_elem _ _ a s Hw) as [Hlt _]; [set_solver|].
    rewrite (u32_small (d + u)) by lia.
    destruct (Z.eqb_spec nx a) as [->|]; [done|]. destruct (Z.eqb_spec (d + u) a); [lia|].
    destruct (Z.leb_spec a d); [lia|]. apply (IH fuel h m d nx a s c t); try done.
    + by eapply wf_free_weaken; [|done]; lia.
    + simpl in Hf. lia.
Qed.

(** C31: a block on a free list of at least two blocks cannot be freed again:
    kmfree panics. *)
Theorem kmfree_double_free h m p fl al a s :
  heap_inv h m p fl al → (a, s) ∈ fl → (2 ≤ length fl)%nat → kmfree h m (a + 8) = Some Panic.
Proof.
  clear page_bits. intros Hinv Hin Hlen. destruct (wf_free_elem _ _ _ _ (hi_free _ _ _ _ _ Hinv) Hin) as [Ha (? & ? & ? & _)].
  simpl in *. apply list_elem_of_split in Hin as (pre & suf & ->).
  pose proof (hi_chain _ _ _ _ _ Hinv) as Hc. pose proof (hi_free _ _ _ _ _ Hinv) as Hw.
  apply chain_app in Hc as (r & Hpre & -> & _ & nx & Hm & Hsuf).
  unfold kmfree, BLOCK_HEADER. rewrite u32_small by lia. replace (a + 8 - 8) with a by lia.
  rewrite Hm. simpl. destruct suf as [|[n u] suf]; cycle 1.
  { destruct Hsuf as (-> & Hn & _). by destruct (Z.eqb_spec n 0). }
  simpl in Hsuf. subst nx. simpl. destruct pre as [|[c t] pre _] using rev_ind; [simpl in Hlen; lia|].
  rewrite <- app_assoc in Hw. simpl in Hw. apply (kmfree_double_last pre _ _ _ _ _ a s c t); try done.
  pose proof (chain_fuel _ _ _ _ _ (hi_chain _ _ _ _ _ Hinv) (hi_free _ _ _ _ _ Hinv)) as Hfu.
  rewrite !length_app in Hfu. simpl in Hfu. lia.
Qed.

(** ** Sequences of operations

    A client allocates and frees what it holds: [HeapFree i] frees its [i]-th
    live pointer. *)

Inductive heap_op :=
  | HeapAlloc (sz : Z)
  | HeapFree (i : nat).

Definition heap_state := (heap * memory * P * list Z)%type.

Definition heap_step (st : heap_state) (op : heap_op) : option (outcome heap_state) :=
  let '(h, m, p, live) := st in
  match op with
  | HeapAlloc sz =>
      o ← kmalloc PAGE_ADDR_BITS h m p sz;
      match o with
      | Ret (h, m, p, ptr) => Some (Ret (h, m, p, ptr :: live))
      | Panic => Some Panic
      end
  | HeapFree i =>
      match live !! i with
      | None => Some (Ret st)
      | Some ptr =>
          o ← kmfree h m ptr;
          match o with
          | Ret (h, m) => Some (Ret (h, m, p, delete i live))
          | Panic => Some Panic
          end
      end
  end.

Fixpoint heap_run (st : heap_state) (ops : list heap_op) : option (outcome heap_state) :=
  match ops with
  | [] => Some (Ret st)
  | op :: ops =>
      o ← heap_step st op;
      match o with Ret st => heap_run st ops | Panic => Some Panic end
  end.

Definition heap_op_ok (op : heap_op) : Prop :=
  match op with HeapAlloc sz => 0 ≤ sz ≤ 2 ^ 30 | HeapFree _ => True end.

(** The state of the heap is in order and [al] are the regions of the live pointers. *)
Definition heap_state_inv (st : heap_state) (al : list region) : Prop :=
  let '(h, m, p, live) := st in
  live = map (λ r, r.1 + 8) al ∧ ∃ fl, heap_inv h m p fl al.

(** What a step does to the live regions: one more, apart from the others and
    large enough, or one less. *)
Definition heap_step_spec (op : heap_op) (al al' : list region) : Prop :=
  match op with
  | HeapAlloc sz => ∃ a s, al' = (a, s) :: al ∧ sz + 8 ≤ s ∧ Forall (disj (a, s)) al ∧ (a + 8) mod 4 = 0
  | HeapFree i => al' = delete i al
  end.

(** There is no memory for [sz] bytes: no free block is large enough, and the
    page allocator has no page for what kmalloc asks of it. *)
Definition out_of_memory (st : heap_state) (al : list region) (sz : Z) : Prop :=
  let '(h, m, p, live) := st in
  ∃ fl, heap_inv h m p fl al ∧ Forall (λ r, r.2 < kmalloc_block_size sz) fl ∧
    source_alloc p (align_up (kmalloc_block_size sz) (PAGE_SIZE PAGE_ADDR_BITS)) PAGE_F_SUPERVISOR = Some (p, NULL_PAGE).

Lemma free_take_none bs l : free_take bs l = None → Forall (λ r, r.2 < bs) l.
Proof.
  induction l as [|[a s] l IH]; intros Ht; [constructor|]. simpl in Ht. destruct (Z.leb_spec bs s); [by destruct (bs + 16 <=? s)|].
  destruct (free_take bs l) as [[r l']|]; [done|]. constructor; [done|]. by apply IH.
Qed.

Lemma heap_step_ok st al op :
  heap_state_inv st al → heap_op_ok op →
  (heap_step st op = Some Panic ∧ ∃ sz, op = HeapAlloc sz ∧ out_of_memory st al sz) ∨
  (∃ st' al', heap_step st op = Some (Ret st') ∧ heap_state_inv st' al' ∧ heap_step_spec op al al').
Proof.
  destruct st as [[[h m] p] live]. intros (-> & fl & Hinv) Hop. destruct op as [sz|i]; simpl.
  - destruct (kmalloc_ok h m p fl al sz Hinv Hop) as
      [(-> & Hno & E)|(h' & m' & p' & fl' & a & s & -> & Hinv' & Hs & _)]; simpl.
    { left. split; [done|]. exists sz. split; [done|]. exists fl. split_and!; [done|by apply free_take_none|done]. }
    right. eexists (h', m', p', _), ((a, s) :: al). split; [done|]. split; [by split; [|exists fl']|].
    exists a, s. split; [done|]. split; [done|]. split; [apply (hi_disj _ _ _ _ _ Hinv')|].
    destruct (hi_alloc _ _ _ _ _ Hinv' a s) as [_ (_ & _ & _ & ? & _)]; [set_solver|].
    by apply mod4_add.
  - right. rewrite list_lookup_fmap. destruct (al !! i) as [[a s]|] eqn:Hi; simpl.
    + rewrite (delete_Permutation al i (a, s) Hi) in Hinv.
      destruct (kmfree_ok h m p fl (delete i al) a s Hinv) as (h' & m' & -> & Hinv'). simpl.
      eexists (h', m', p, _), (delete i al). split; [done|]. split; [|done].
      split; [|eauto]. by rewrite <- list_fmap_delete.
    + eexists (h, m, p, _), al. split; [done|]. split; [split; [done|eauto]|].
      apply lookup_ge_None_1 in Hi. rewrite delete_take_drop, take_ge, drop_ge by lia.
      by rewrite app_nil_r.
Qed.

(** The live regions after a sequence of operations. *)
Inductive live_run : list heap_op → list region → list region → Prop :=
  | live_nil al : live_run [] al al
  | live_cons op ops al al1 al2 : heap_step_spec op al al1 → live_run ops al1 al2 → live_run (op :: ops) al al2.

(** C7: a client that allocates, and frees what it holds, in any order, never
    takes the heap outside its memory or out of order: the free list stays
    sorted, coalesced and apart from the live blocks, the byte counters exact;
    every allocation adds a live block that is large enough, aligned and apart
    from all others, every free takes away the block that was freed and no
    other.  kmalloc panics only if no free block is large enough and the page
    allocator, as it is at that moment, refuses the pages that kmalloc needs;
    kmfree never does. *)
Theorem heap_run_safe st al ops :
  heap_state_inv st al → Forall heap_op_ok ops →
  (heap_run st ops = Some Panic ∧
     ∃ ops1 sz ops2 st1 al1, ops = ops1 ++ HeapAlloc sz :: ops2 ∧ heap_run st ops1 = Some (Ret st1) ∧
       heap_state_inv st1 al1 ∧ live_run ops1 al al1 ∧ out_of_memory st1 al1 sz) ∨
  (∃ st' al', heap_run st ops = Some (Ret st') ∧ heap_state_inv st' al' ∧ live_run ops al al').
Proof.
  revert st al. induction ops as [|op ops IH]; intros st al Hst Hops; simpl.
  { right. exists st, al. split; [done|]. split; [done|]. constructor. }
  apply Forall_cons in Hops as [Hop Hops].
  destruct (heap_step_ok st al op Hst Hop) as [(E & sz & -> & Hoom)|(st' & al' & E & Hst' & Hsp)].
  { rewrite E. left. split; [done|]. exists [], sz, ops, st, al. split_and!; try done. constructor. }
  rewrite E. simpl. destruct (IH st' al' Hst' Hops) as [(-> & ops1 & sz & ops2 & st1 & al1 & -> & E1 & H1 & Hl1 & Ho)|(st2 & al2 & -> & H2 & Hl2)].
  - left. split; [done|]. exists (op :: ops1), sz, ops2, st1, al1. split; [done|]. split; [simpl; by rewrite E|]. split; [done|]. split; [by econstructor|done].
  - right. exists st2, al2. split_and!; try done. by econstructor.
Qed.
End heap_inv.

(** ** The page allocator provides the interface *)

#[export] Instance pages_source (mmu : bool) (bits : Z) : PageSource global_pages := {
  source_alloc := page_alloc mmu bits;
  source_free := page_free mmu bits;
}.

Definition pages_inv (mmu : bool) (bits : Z) (g : global_pages) : Prop :=
  (∃ ls, global_rel mmu bits g ls) ∧
  ∀ i b, global_blocks g !! i = Some b → base b mod 4 = 0.

#[export] Instance pages_laws mmu bits (Hbits : 8 ≤ bits ≤ 16) :
  @PageLaws global_pages (pages_source mmu bits) bits.
Proof.
  refine {| source_inv := pages_inv mmu bits; source_owns := owns bits |}.
  intros g size flags [[ls Hg] Hal] Hsize. pose proof (PAGE_SIZE_range bits Hbits) as Hps.
  destruct (page_alloc_ok mmu bits Hbits g ls size flags Hg Hsize) as
    [[E _]|(i & b & l & s & g' & b' & Hb & Hl & _ & _ & Hrun & Hle & E & Hg' & Hb' & Hsame & Hoth)];
    [by left|right].
  destruct (page_count_range bits Hbits size ltac:(lia)) as [Hn _].
  destruct (gr_rel _ _ _ _ Hg i b l Hb Hl) as [[Ht _] Hend].
  pose proof (tr_base _ _ _ _ Ht).
  pose proof (page_alloc_owns mmu bits Hbits g ls i b l s (page_count bits size) g' b'
    Hg Hb Hl Hrun Hle Hg' Hb' Hsame Hoth) as [Hfresh Howns]. rewrite Hn in Hfresh, Howns.
  eexists g', _, _. split; [done|]. split.
  { split; [eauto|]. intros j c Hc. destruct (decide (j = i)) as [->|].
    - assert (c = b') as -> by congruence. destruct Hsame as (-> & _). by apply (Hal i).
    - rewrite Hoth in Hc by done. by apply (Hal j). }
  split; [done|]. split; [nia|]. split; [nia|]. split; [|split; done].
  apply mod4_add; [by apply (Hal i)|].
  assert (Hq : PAGE_SIZE bits = 2 ^ (bits - 2) * 4).
  { rewrite PAGE_SIZE_pow by done. change 4 with (2 ^ 2). rewrite <- Z.pow_add_r by lia. f_equal. lia. }
  rewrite Hq, Z.mul_assoc. by apply Z.mod_mul.
Defined.

(** ** Examples *)

Lemma example_bits : 8 ≤ 8 ≤ 16.
Proof. lia. Qed.

#[local] Instance example_source : PageSource global_pages := pages_source true 8.
#[local] Instance example_laws : PageLaws global_pages 8 := pages_laws true 8 example_bits.

Definition example_heap : heap_state := (init_kernel_heap.1, ∅, example_global, []).

Lemma empty_heap_inv : heap_state_inv 8 example_heap [].
Proof.
  split; [done|]. exists []. constructor; try done; try (intros; set_solver).
  - split; [eexists; apply example_global_rel|]. intros [|i] b Hb; [|done]. by injection Hb as <-.
  - intros x Hx. exfalso. by apply covered_nil in Hx.
Qed.

Definition example_heap_ops : list heap_op :=
  [HeapAlloc 10; HeapAlloc 30; HeapFree 1; HeapAlloc 300; HeapFree 0; HeapFree 0].

Lemma heap_run_safe_witness :
  (heap_run 8 example_heap example_heap_ops = Some Panic ∧
     ∃ ops1 sz ops2 st1 al1, example_heap_ops = ops1 ++ HeapAlloc sz :: ops2 ∧ heap_run 8 example_heap ops1 = Some (Ret st1) ∧
       heap_state_inv 8 st1 al1 ∧ live_run ops1 [] al1 ∧ out_of_memory 8 st1 al1 sz) ∨
  (∃ st' al', heap_run 8 example_heap example_heap_ops = Some (Ret st') ∧ heap_state_inv 8 st' al' ∧ live_run example_heap_ops [] al').
Proof.
  apply (heap_run_safe 8 example_bits example_heap []).
  - apply empty_heap_inv.
  - repeat constructor; simpl; lia.
Defined.

(** The same run evaluates to a heap with nothing live and two free regions. *)
Lemma example_heap_runs :
  match heap_run 8 example_heap example_heap_ops with
  | Some (Ret (h, m, _, live)) =>
      live = [] ∧ bytes_allocated h = 0 ∧ bytes_free h = 768 ∧ heap_total_pages h = 768
  | _ => False
  end.
Proof. vm_compute. done. Qed.

(** A page allocator without pages, for heaps given by their memory. *)
#[local] Instance no_pages : PageSource unit :=
  { source_alloc p _ _ := Some (p, NULL_PAGE); source_free p _ _ := Some p }.
#[local] Instance no_pages_laws : PageLaws unit 8 :=
  { source_inv _ := True; source_owns _ _ := True; source_alloc_law _ _ _ _ _ := or_introl eq_refl }.

Definition small_heap : heap := Heap 4096 256 128 96.
Definition small_memory : memory :=
  {[ 4096 := Block 64 4224; 4160 := Block 64 0; 4224 := Block 64 0; 4288 := Block 32 0 ]}.

Lemma small_heap_inv :
  heap_inv 8 small_heap small_memory tt [(4096, 64); (4224, 64)] [(4160, 64); (4288, 32)].
Proof.
  constructor; try done.
  - simpl. split; [done|]. split; [done|]. eexists. split; [done|].
    split; [done|]. split; [done|]. eexists. done.
  - intros a s [E|[E|E%not_elem_of_nil]%elem_of_cons]%elem_of_cons; [..|done];
      injection E as -> ->; done.
  - intros r f [->|[->|[]%not_elem_of_nil]%elem_of_cons]%elem_of_cons
      [->|[->|[]%not_elem_of_nil]%elem_of_cons]%elem_of_cons; unfold disj; simpl; lia.
  - simpl. split; [|split; [constructor|done]]. constructor; [|constructor]. unfold disj. simpl. lia.
Qed.

Lemma kmalloc_kmfree_roundtrip_witness :
  ∃ h1 m1 h2 m2, kmalloc 8 small_heap small_memory tt 10 = Some (Ret (h1, m1, tt, 4104)) ∧
    heap_inv 8 h1 m1 tt [(4116, 44); (4224, 64)] [(4096, 20); (4160, 64); (4288, 32)] ∧
    kmfree h1 m1 4104 = Some (Ret (h2, m2)) ∧
    heap_inv 8 h2 m2 tt [(4096, 64); (4224, 64)] [(4160, 64); (4288, 32)].
Proof.
  apply (kmalloc_kmfree_roundtrip 8 example_bits small_heap small_memory tt
    [(4096, 64); (4224, 64)] [(4160, 64); (4288, 32)] 10 4096 20).
  - apply small_heap_inv.
  - lia.
  - vm_compute. reflexivity.
Defined.

Lemma kmfree_double_free_witness : kmfree small_heap small_memory 4232 = Some Panic.
Proof.
  apply (kmfree_double_free 8 small_heap small_memory tt
    [(4096, 64); (4224, 64)] [(4160, 64); (4288, 32)] 4224 64).
  - apply small_heap_inv.
  - apply elem_of_cons. right. by apply list_elem_of_singleton.
  - simpl. lia.
Defined.

(** ** Deviations *)

(** Freeing the only block of the free list again is not detected: the block
    becomes its own successor. *)
Lemma kmfree_double_free_undetected :
  kmfree (Heap 4096 256 256 0) {[ 4096 := Block 256 0 ]} 4104 =
    Some (Ret (Heap 4096 256 512 4294967040, {[ 4096 := Block 256 4096 ]})).
Proof. vm_compute. done. Qed.

(** kernel_heap_compact passes a number of pages where page_free takes bytes:
    the pages leave the heap but are not given back. *)
Lemma kernel_heap_compact_leaks :
  match page_alloc true 8 example_global 256 0 with
  | Some (g, 66048) =>
      kernel_heap_compact 8 (Heap 66048 256 256 0) {[ 66048 := Block 256 0 ]} g
        = Some (Heap 0 0 0 0, {[ 66048 := Block 256 0 ]}, g)
  | _ => False
  end.
Proof. vm_compute. done. Qed.

(** After removing a block its address stays [prev], so the next whole page is
    unlinked from the removed block and remains in the free list. *)
Lemma kernel_heap_compact_keeps_block :
  kernel_heap_compact 8 (Heap 4096 512 512 0) {[ 4096 := Block 256 8192; 8192 := Block 256 0 ]} tt
    = Some (Heap 8192 0 0 0, {[ 4096 := Block 256 0; 8192 := Block 256 0 ]}, tt).
Proof. vm_compute. done. Qed.
