(* ===== verification/Builtins.v ===== *)
(** * Builtins: integer arithmetic in software

    Models src/libc/arch/m68k/builtins (the 32 bit multiplication, division and
    remainder the compiler calls on a 68000, in inline assembly), the bit
    scans of src/libc/common/builtins, and the byte swaps of
    src/libc/arch/m68k/include/bits/byteswap.h.

    The assembly is modelled instruction by instruction on the data registers;
    a division by zero traps ([None]). *)

From S2P Require Import Prelude Bits.

(** ** The instructions used *)

Definition low (x : Z) : Z := x mod 2 ^ 16.
Definition high (x : Z) : Z := x / 2 ^ 16.

Definition move_w (src dst : Z) : Z := high dst * 2 ^ 16 + low src.
Definition clr_w (dst : Z) : Z := high dst * 2 ^ 16.
Definition swap (dst : Z) : Z := low dst * 2 ^ 16 + high dst.
Definition add_l (src dst : Z) : Z := u32 (dst + src).
Definition mulu_w (src dst : Z) : Z := low src * low dst.
Definition rol8_w (dst : Z) : Z := high dst * 2 ^ 16 + (low dst mod 2 ^ 8 * 2 ^ 8 + low dst / 2 ^ 8).

(** 32 by 16 bits: quotient in the low word, remainder in the high word; on
    overflow the operand is left as it was. *)
Definition divu_w (src dst : Z) : option Z :=
  if low src =? 0 then None
  else if 2 ^ 16 <=? dst / low src then Some dst
  else Some (dst mod low src * 2 ^ 16 + dst / low src).

(** ** Multiplication *)

Definition mul32 (a b : Z) : Z :=
  let d0 := a in
  let d1 := swap d0 in
  let d2 := b in
  let d3 := swap d2 in
  let d0 := mulu_w d2 d0 in
  let d2 := mulu_w d1 d2 in
  let d1 := move_w a d1 in
  let d1 := mulu_w d3 d1 in
  let d1 := clr_w (swap d1) in
  let d2 := clr_w (swap d2) in
  let d0 := add_l d2 d0 in
  add_l d1 d0.

Definition __umulsi3 (a b : Z) : Z := mul32 a b.
Definition __mulsi3 (a b : Z) : Z := s32 (mul32 (u32 a) (u32 b)).

(** ** Division *)

Definition div32 (a b : Z) : option Z :=
  let d0 := move_w a 0 in
  let d1 := move_w b 0 in
  let d2 := swap (clr_w a) in
  d2 ← divu_w d1 d2;
  let d3 := clr_w (swap (move_w d2 0)) in
  let d2 := clr_w d2 in
  let d0 := add_l d2 d0 in
  d0 ← divu_w d1 d0;
  let d0 := swap (clr_w (swap d0)) in
  Some (add_l d3 d0).

Definition __udivsi3 (a b : Z) : option Z := div32 a b.
Definition __divsi3 (a b : Z) : option Z := c ← div32 (u32 a) (u32 b); Some (s32 c).

(** ** Remainder

    [c] is what the output register holds before the [move.w] that ends the
    code: only its low word is written. *)
Definition mod32 (c a b : Z) : option Z :=
  let d0 := move_w a 0 in
  let d1 := move_w b 0 in
  let d2 := swap (clr_w a) in
  d2 ← divu_w d1 d2;
  let d2 := clr_w d2 in
  let d0 := add_l d2 d0 in
  d0 ← divu_w d1 d0;
  let d0 := swap (clr_w d0) in
  Some (move_w d0 c).

Definition __umodsi3 (c a b : Z) : option Z := mod32 c a b.

(** ** Bit scans *)

Definition __clzsi2 (a : Z) : Z :=
  let index := 32 in
  let '(index, a) := if Z.land a 0xFFFF0000 =? 0 then (index - 16, u32 (Z.shiftl a 16)) else (index, a) in
  let '(index, a) := if Z.land a 0xFF000000 =? 0 then (index - 8, u32 (Z.shiftl a 8)) else (index, a) in
  let '(index, a) := if Z.land a 0xF0000000 =? 0 then (index - 4, u32 (Z.shiftl a 4)) else (index, a) in
  let '(index, a) := if Z.land a 0xC0000000 =? 0 then (index - 2, u32 (Z.shiftl a 2)) else (index, a) in
  let index := if Z.land a 0x80000000 =? 0 then index - 1 else index in
  32 - index.

Definition __ffsdi2 (a : Z) : Z :=
  let index := 0 in
  let '(index, a) := if Z.land a 0xffff =? 0 then (index + 16, Z.shiftr a 16) else (index, a) in
  let '(index, a) := if Z.land a 0xff =? 0 then (index + 8, Z.shiftr a 8) else (index, a) in
  let '(index, a) := if Z.land a 0xf =? 0 then (index + 4, Z.shiftr a 4) else (index, a) in
  let '(index, a) := if Z.land a 0x3 =? 0 then (index + 2, Z.shiftr a 2) else (index, a) in
  if Z.land a 0x1 =? 0 then index + 1 else index.

Definition __ctzsi2 (a : Z) : Z := __ffsdi2 a.

(** ** Byte swaps *)

Definition __bswap_16 (x : Z) : Z := rol8_w x.
Definition __bswap_32 (x : Z) : Z := rol8_w (swap (rol8_w x)).
Definition __bswap_64 (x : Z) : Z :=
  Z.lor (__bswap_32 (u32 (Z.shiftr x 32))) (Z.shiftl (__bswap_32 (u32 (Z.land x 0xFFFFFFFF))) 32).

(** ** Words *)

Lemma word_split x : x = high x * 2 ^ 16 + low x.
Proof. unfold high, low. pose proof (Z.div_mod x (2 ^ 16)). lia. Qed.

Lemma low_range x : 0 ≤ low x < 2 ^ 16.
Proof. apply Z.mod_pos_bound. lia. Qed.

Lemma high_range x : 0 ≤ x < 2 ^ 32 → 0 ≤ high x < 2 ^ 16.
Proof. intros. unfold high. split; [apply Z.div_pos; lia|apply Z.div_lt_upper_bound; lia]. Qed.

Lemma high_join h l : 0 ≤ l < 2 ^ 16 → high (h * 2 ^ 16 + l) = h.
Proof. intros. unfold high. rewrite Z.div_add_l by lia. rewrite Z.div_small; lia. Qed.

Lemma low_join h l : 0 ≤ l < 2 ^ 16 → low (h * 2 ^ 16 + l) = l.
Proof. intros. unfold low. rewrite Z.add_comm, Z.mod_add by lia. by apply Z.mod_small. Qed.



Lemma low_swap x : 0 ≤ x < 2 ^ 32 → low (swap x) = high x.
Proof. intros. apply low_join, high_range. done. Qed.

Lemma high_swap x : 0 ≤ x < 2 ^ 32 → high (swap x) = low x.
Proof. intros. apply high_join, high_range. done. Qed.

Lemma low_move_w s d : low (move_w s d) = low s.
Proof. apply low_join, low_range. Qed.

Lemma clr_swap x : 0 ≤ x < 2 ^ 32 → clr_w (swap x) = low x * 2 ^ 16.
Proof. intros. unfold clr_w. by rewrite high_swap. Qed.

Lemma mul_words x y : 0 ≤ x < 2 ^ 16 → 0 ≤ y < 2 ^ 16 → 0 ≤ x * y < 2 ^ 32.
Proof. nia. Qed.

Lemma mul32_ok a b : 0 ≤ a < 2 ^ 32 → 0 ≤ b < 2 ^ 32 → mul32 a b = u32 (a * b).
Proof.
  intros Ha Hb. unfold mul32, mulu_w. rewrite !low_move_w, !low_swap by done.
  pose proof (low_range a). pose proof (low_range b).
  pose proof (high_range a Ha). pose proof (high_range b Hb).
  rewrite !clr_swap by (by apply mul_words). unfold add_l, u32, uwrap.
  rewrite Z.add_mod_idemp_l by lia.
  rewrite (word_split a) at 4. rewrite (word_split b) at 4.
  set (al := low a) in *. set (ah := high a) in *. set (bl := low b) in *. set (bh := high b) in *.
  unfold low. clearbody al ah bl bh.
  pose proof (Z.div_mod (ah * bl) (2 ^ 16) ltac:(lia)) as E1.
  pose proof (Z.div_mod (bh * al) (2 ^ 16) ltac:(lia)) as E2.
  generalize dependent (ah * bl / 2 ^ 16). generalize dependent (bh * al / 2 ^ 16).
  generalize dependent ((ah * bl) mod 2 ^ 16). generalize dependent ((bh * al) mod 2 ^ 16).
  intros r2 r1 q2 E2 q1 E1.
  replace ((ah * 2 ^ 16 + al) * (bh * 2 ^ 16 + bl)) with
    (bl * al + r1 * 2 ^ 16 + r2 * 2 ^ 16 + (ah * bh + q1 + q2) * 2 ^ 32) by nia.
  by rewrite Z.mod_add by lia.
Qed.

(** the multiplication of the 68000 library is multiplication modulo
    2^32, unsigned and signed. *)
Theorem mulsi3_ok a b :
  __umulsi3 (u32 a) (u32 b) = u32 (a * b) ∧ __mulsi3 a b = s32 (a * b).
Proof.
  assert (H : mul32 (u32 a) (u32 b) = u32 (a * b)).
  { rewrite mul32_ok by (apply (uwrap_range 32); lia). unfold u32, uwrap. by rewrite <- Z.mul_mod. }
  split; [done|]. unfold __mulsi3. rewrite H. unfold s32, swrap, u32, uwrap.
  f_equal. by rewrite Z.add_mod_idemp_l.
Qed.













(** The signs of the operands are not looked at. *)
Lemma divsi3_negative : __divsi3 (-6) 2 = Some 2147483645 ∧ Z.quot (-6) 2 = -3.
Proof. done. Qed.

(** A divisor that does not fit 16 bits gives another quotient: the value a
    test of the repository expects is 10. *)
Lemma udivsi3_wide_divisor : __udivsi3 1029358 98235 = Some 31 ∧ 1029358 / 98235 = 10.
Proof. done. Qed.

(** The high word of the output register survives in the remainder. *)
Lemma umodsi3_high_word : __umodsi3 65536 7 5 = Some 65538.
Proof. done. Qed.

(** ** Byte swaps reverse the bytes *)

Lemma rol8_w_join h a b :
  0 ≤ a < 256 → 0 ≤ b < 256 →
  rol8_w (h * 2 ^ 16 + (a * 2 ^ 8 + b)) = h * 2 ^ 16 + (b * 2 ^ 8 + a).
Proof.
  intros Ha Hb. unfold rol8_w. rewrite high_join, low_join by lia.
  rewrite (Z.add_comm (a * 2 ^ 8) b), Z.mod_add, Z.mod_small by lia.
  rewrite Z.div_add, Z.div_small by lia. lia.
Qed.

Lemma bswap_32_bytes a b c d :
  0 ≤ a < 256 → 0 ≤ b < 256 → 0 ≤ c < 256 → 0 ≤ d < 256 →
  __bswap_32 ((a * 2 ^ 8 + b) * 2 ^ 16 + (c * 2 ^ 8 + d)) = (d * 2 ^ 8 + c) * 2 ^ 16 + (b * 2 ^ 8 + a).
Proof.
  intros. unfold __bswap_32. rewrite rol8_w_join by done. unfold swap.
  rewrite low_join, high_join by lia. by apply rol8_w_join.
Qed.

(** The bytes of a word, most significant first, and the word of some bytes. *)
Fixpoint bytes_be (n : nat) (x : Z) : list Z :=
  match n with O => [] | S n => bytes_be n (x / 2 ^ 8) ++ [x mod 2 ^ 8] end.

Lemma bytes_be_join n x y m k w :
  w = 8 * Z.of_nat n → k = (m + n)%nat → 0 ≤ y < 2 ^ w →
  bytes_be k (x * 2 ^ w + y) = bytes_be m x ++ bytes_be n y.
Proof.
  intros -> ->. revert x y. induction n as [|n IH]; intros x y Hy.
  - rewrite Nat.add_0_r, app_nil_r. change (2 ^ (8 * Z.of_nat 0)) with 1 in *. f_equal. lia.
  - rewrite Nat.add_succ_r. simpl.
    replace (8 * Z.of_nat (S n)) with (8 * Z.of_nat n + 8) in * by lia.
    rewrite Z.pow_add_r in * by lia. rewrite Z.mul_assoc.
    rewrite Z.div_add_l, (Z.add_comm _ y), Z.mod_add by lia.
    assert (0 ≤ y / 2 ^ 8 < 2 ^ (8 * Z.of_nat n))
      by (split; [apply Z.div_pos; lia|apply Z.div_lt_upper_bound; lia]).
    rewrite IH by done. by rewrite app_assoc.
Qed.

Lemma bytes_be_4 a b c d :
  0 ≤ a < 256 → 0 ≤ b < 256 → 0 ≤ c < 256 → 0 ≤ d < 256 →
  bytes_be 4 ((a * 2 ^ 8 + b) * 2 ^ 16 + (c * 2 ^ 8 + d)) = [a; b; c; d].
Proof.
  intros. rewrite (bytes_be_join 2 _ _ 2 4 16) by lia.
  rewrite !(bytes_be_join 1 _ _ 1 2 8) by lia.
  simpl. by rewrite !Z.mod_small by lia.
Qed.

Lemma bytes_of_u32 x :
  0 ≤ x < 2 ^ 32 → ∃ a b c d, 0 ≤ a < 256 ∧ 0 ≤ b < 256 ∧ 0 ≤ c < 256 ∧ 0 ≤ d < 256 ∧
    x = (a * 2 ^ 8 + b) * 2 ^ 16 + (c * 2 ^ 8 + d).
Proof.
  intros Hx. pose proof (high_range x Hx) as Hh. pose proof (low_range x) as Hl.
  exists (high x / 2 ^ 8), (high x mod 2 ^ 8), (low x / 2 ^ 8), (low x mod 2 ^ 8).
  pose proof (Z.mod_pos_bound (high x) (2 ^ 8)). pose proof (Z.mod_pos_bound (low x) (2 ^ 8)).
  pose proof (word_split x). pose proof (Z.div_mod (high x) (2 ^ 8)). pose proof (Z.div_mod (low x) (2 ^ 8)).
  assert (0 ≤ high x / 2 ^ 8 < 256) by (split; [apply Z.div_pos; lia|apply Z.div_lt_upper_bound; lia]).
  assert (0 ≤ low x / 2 ^ 8 < 256) by (split; [apply Z.div_pos; lia|apply Z.div_lt_upper_bound; lia]).
  split_and!; lia.
Qed.

Lemma bswap_32_ok x :
  0 ≤ x < 2 ^ 32 → bytes_be 4 (__bswap_32 x) = rev (bytes_be 4 x) ∧ 0 ≤ __bswap_32 x < 2 ^ 32.
Proof.
  intros (a & b & c & d & Ha & Hb & Hc & Hd & ->)%bytes_of_u32.
  rewrite bswap_32_bytes, !bytes_be_4 by done. split; [done|]. lia.
Qed.

Lemma lor_shift_join x y n : 0 ≤ x < 2 ^ n → 0 ≤ n → Z.lor x (Z.shiftl y n) = y * 2 ^ n + x.
Proof.
  intros Hx Hn. rewrite Z.shiftl_mul_pow2 by done. rewrite Z.add_comm. symmetry.
  apply Z.add_nocarry_lor. apply Z.bits_inj'. intros k Hk. rewrite Z.land_spec, Z.bits_0.
  destruct (Z.lt_ge_cases k n).
  - rewrite Z.mul_pow2_bits_low by done. apply andb_false_r.
  - destruct (proj1 (word_range_bits n x Hn) Hx) as [_ Hb]. by rewrite Hb.
Qed.

(** The byte swaps reverse the bytes of 16, 32 and 64 bit words. *)
Theorem bswap_reverses x :
  bytes_be 2 (__bswap_16 (u16 x)) = rev (bytes_be 2 (u16 x)) ∧
  bytes_be 4 (__bswap_32 (u32 x)) = rev (bytes_be 4 (u32 x)) ∧
  bytes_be 8 (__bswap_64 (uwrap 64 x)) = rev (bytes_be 8 (uwrap 64 x)).
Proof.
  split; [|split].
  - pose proof (uwrap_range 16 x ltac:(lia)) as Hx. fold u16 in Hx. set (y := u16 x) in *. clearbody y.
    pose proof (Z.div_mod y (2 ^ 8) ltac:(lia)). pose proof (Z.mod_pos_bound y (2 ^ 8) ltac:(lia)).
    assert (0 ≤ y / 2 ^ 8 < 256) by (split; [apply Z.div_pos; lia|apply Z.div_lt_upper_bound; lia]).
    set (a := y / 2 ^ 8) in *. set (b := y mod 2 ^ 8) in *. clearbody a b.
    replace y with (0 * 2 ^ 16 + (a * 2 ^ 8 + b)) by lia. unfold __bswap_16.
    rewrite rol8_w_join by lia. rewrite !Z.mul_0_l, !Z.add_0_l.
    rewrite !(bytes_be_join 1 _ _ 1 2 8) by lia.
    simpl. by rewrite !Z.mod_small by lia.
  - apply bswap_32_ok, (uwrap_range 32). lia.
  - pose proof (uwrap_range 64 x ltac:(lia)) as Hx. set (y := uwrap 64 x) in *. clearbody y.
    unfold __bswap_64. change 0xFFFFFFFF with (Z.ones 32). rewrite Z.land_ones, Z.shiftr_div_pow2 by lia.
    pose proof (Z.mod_pos_bound y (2 ^ 32) ltac:(lia)) as Hl.
    assert (Hh : 0 ≤ y / 2 ^ 32 < 2 ^ 32) by (split; [apply Z.div_pos; lia|apply Z.div_lt_upper_bound; lia]).
    rewrite !u32_small by lia.
    destruct (bswap_32_ok _ Hl) as [El Rl]. destruct (bswap_32_ok _ Hh) as [Eh Rh].
    rewrite lor_shift_join by (done || lia).
    rewrite (bytes_be_join 4 _ _ 4 8 32), El, Eh by (done || lia).
    rewrite <- rev_app_distr, <- (bytes_be_join 4 (y / 2 ^ 32) _ 4 8 32) by (done || lia).
    f_equal. f_equal. pose proof (Z.div_mod y (2 ^ 32)). lia.
Qed.

(** ** Bit scans *)

(** A step of the search from the right: the low [2k] bits are not all zero
    before, the low [k] bits after, and the shifts are accounted for. *)
Lemma ctz_step k mask index a :
  0 < k → mask = Z.ones k → 0 ≤ a → a mod 2 ^ (2 * k) ≠ 0 →
  ∃ d a', (if Z.land a mask =? 0 then (index + k, Z.shiftr a k) else (index, a)) = (index + d, a') ∧
    0 ≤ d ∧ 0 ≤ a' ∧ a = a' * 2 ^ d ∧ a' mod 2 ^ k ≠ 0.
Proof.
  intros Hk -> Ha Hne. rewrite Z.land_ones by lia.
  destruct (Z.eqb_spec (a mod 2 ^ k) 0) as [E|E].
  - exists k, (Z.shiftr a k). rewrite Z.shiftr_div_pow2 by lia.
    pose proof (Z.div_mod a (2 ^ k) ltac:(lia)) as Hd. rewrite E in Hd.
    split; [done|]. split; [lia|]. split; [apply Z.div_pos; lia|]. split; [lia|].
    intros E'. apply Hne. replace (2 * k) with (k + k) by lia. rewrite Z.pow_add_r by lia.
    rewrite Z.rem_mul_r by lia. rewrite E, E'. lia.
  - exists 0, a. rewrite Z.add_0_r. change (2 ^ 0) with 1. split; [done|]. split; [lia|]. lia.
Qed.

Lemma land_high a k :
  0 ≤ a < 2 ^ 32 → 0 ≤ k ≤ 32 → Z.land a (2 ^ 32 - 2 ^ k) = a / 2 ^ k * 2 ^ k.
Proof.
  intros Ha Hk.
  assert (E : 2 ^ 32 - 2 ^ k = Z.shiftl (Z.ones (32 - k)) k).
  { rewrite Z.shiftl_mul_pow2, Z.ones_equiv, <- Z.sub_1_r, Z.mul_sub_distr_r by lia.
    rewrite <- Z.pow_add_r by lia. f_equal; [f_equal; lia|lia]. }
  rewrite E, <- Z.shiftr_div_pow2, <- Z.shiftl_mul_pow2 by lia.
  apply Z.bits_inj'. intros j Hj. rewrite Z.land_spec, !Z.shiftl_spec by done.
  destruct (Z.lt_ge_cases j k).
  - rewrite !(Z.testbit_neg_r _ (j - k)) by lia. apply andb_false_r.
  - rewrite Z.shiftr_spec by lia. replace (j - k + k) with j by lia.
    destruct (Z.lt_ge_cases j 32).
    + rewrite Z.ones_spec_low by lia. apply andb_true_r.
    + destruct (proj1 (word_range_bits 32 a ltac:(lia)) Ha) as [_ ->]; [done|lia].
Qed.

(** A step of the search from the left: the top [2k] bits are not all zero
    before, the top [k] bits after. *)
Lemma clz_step k mask index a :
  0 < k → 2 * k ≤ 32 → mask = 2 ^ 32 - 2 ^ (32 - k) → 2 ^ (32 - 2 * k) ≤ a < 2 ^ 32 →
  ∃ d a', (if Z.land a mask =? 0 then (index - k, u32 (Z.shiftl a k)) else (index, a)) = (index - d, a') ∧
    Z.log2 a' = Z.log2 a + d ∧ 2 ^ (32 - k) ≤ a' < 2 ^ 32.
Proof.
  intros Hk Hk2 -> Ha. rewrite land_high by lia.
  pose proof (Z.pow_pos_nonneg 2 (32 - k) ltac:(lia) ltac:(lia)).
  pose proof (Z.pow_pos_nonneg 2 (32 - 2 * k) ltac:(lia) ltac:(lia)).
  pose proof (Z.pow_pos_nonneg 2 k ltac:(lia) ltac:(lia)).
  pose proof (Z.div_mod a (2 ^ (32 - k)) ltac:(lia)).
  pose proof (Z.mod_pos_bound a (2 ^ (32 - k)) ltac:(lia)).
  destruct (Z.eqb_spec (a / 2 ^ (32 - k) * 2 ^ (32 - k)) 0) as [E|E].
  - exists k, (a * 2 ^ k). rewrite Z.shiftl_mul_pow2 by lia.
    pose proof (Z.pow_add_r 2 (32 - k) k ltac:(lia) ltac:(lia)) as Hp.
    replace (32 - k + k) with 32 in Hp by lia.
    assert (Hlt : a * 2 ^ k < 2 ^ 32) by (rewrite Hp; apply Z.mul_lt_mono_pos_r; lia).
    pose proof (Z.pow_add_r 2 (32 - 2 * k) k ltac:(lia) ltac:(lia)) as Hp'.
    replace (32 - 2 * k + k) with (32 - k) in Hp' by lia.
    assert (Hge : 2 ^ (32 - k) ≤ a * 2 ^ k) by (rewrite Hp'; apply Z.mul_le_mono_nonneg_r; lia).
    rewrite u32_small by lia. split; [done|]. rewrite Z.log2_mul_pow2 by lia. split; [lia|done].
  - exists 0, a. rewrite Z.sub_0_r. split; [done|]. split; [lia|].
    split; [|lia]. assert (0 ≤ a / 2 ^ (32 - k)) by (apply Z.div_pos; lia).
    destruct (Z.eq_dec (a / 2 ^ (32 - k)) 0) as [Hq|]; [rewrite Hq in E; lia|].
    assert (2 ^ (32 - k) * 1 ≤ 2 ^ (32 - k) * (a / 2 ^ (32 - k))) by (apply Z.mul_le_mono_nonneg_l; lia).
    lia.
Qed.

(** on a non-zero word, __ctzsi2 and __ffsdi2 give the index of the lowest
    bit set, and __clzsi2 the number of zeros above the highest bit set. *)
Theorem bit_scans_ok a :
  0 < a < 2 ^ 32 →
  (∃ q, 0 ≤ __ctzsi2 a ∧ Z.odd q = true ∧ a = q * 2 ^ __ctzsi2 a ∧ __ffsdi2 a = __ctzsi2 a) ∧
  __clzsi2 a = 31 - Z.log2 a.
Proof.
  intros Ha. split.
  - unfold __ctzsi2, __ffsdi2. cbv zeta.
    destruct (ctz_step 16 0xffff 0 a) as (d1 & a1 & -> & H1 & P1 & E1 & N1);
      [lia|done|lia|rewrite Z.mod_small; lia|].
    destruct (ctz_step 8 0xff (0 + d1) a1) as (d2 & a2 & -> & H2 & P2 & E2 & N2); [lia|done|lia|done|].
    destruct (ctz_step 4 0xf (0 + d1 + d2) a2) as (d3 & a3 & -> & H3 & P3 & E3 & N3); [lia|done|lia|done|].
    destruct (ctz_step 2 0x3 (0 + d1 + d2 + d3) a3) as (d4 & a4 & -> & H4 & P4 & E4 & N4);
      [lia|done|lia|done|].
    destruct (ctz_step 1 0x1 (0 + d1 + d2 + d3 + d4) a4) as (d5 & a5 & E & H5 & P5 & E5 & N5);
      [lia|done|lia|done|].
    exists a5.
    assert (Hidx : (if Z.land a4 0x1 =? 0 then 0 + d1 + d2 + d3 + d4 + 1 else 0 + d1 + d2 + d3 + d4)
                   = d1 + d2 + d3 + d4 + d5) by (destruct (Z.land a4 1 =? 0); injection E; lia).
    rewrite Hidx. split; [lia|]. split; [|split; [|done]].
    + rewrite Zodd_mod. change (2 ^ 1) with 2 in N5. pose proof (Z.mod_pos_bound a5 2 ltac:(lia)).
      apply Z.eqb_eq. lia.
    + rewrite !Z.pow_add_r by lia. rewrite E1 at 1. rewrite E2 at 1. rewrite E3 at 1. rewrite E4 at 1.
      rewrite E5 at 1. lia.
  - unfold __clzsi2. cbv zeta.
    destruct (clz_step 16 0xFFFF0000 32 a) as (d1 & a1 & -> & L1 & R1); [lia..|done|simpl; lia|].
    destruct (clz_step 8 0xFF000000 (32 - d1) a1) as (d2 & a2 & -> & L2 & R2); [lia..|done|done|].
    destruct (clz_step 4 0xF0000000 (32 - d1 - d2) a2) as (d3 & a3 & -> & L3 & R3); [lia..|done|done|].
    destruct (clz_step 2 0xC0000000 (32 - d1 - d2 - d3) a3) as (d4 & a4 & -> & L4 & R4); [lia..|done|done|].
    destruct (clz_step 1 0x80000000 (32 - d1 - d2 - d3 - d4) a4) as (d5 & a5 & E & L5 & R5);
      [lia..|done|done|].
    assert (Hlog : Z.log2 a5 = 31) by (apply Z.log2_unique; simpl in R5 |- *; lia).
    destruct (Z.land a4 0x80000000 =? 0); injection E; lia.
Qed.

Lemma bit_scans_ok_witness :
  (∃ q, 0 ≤ __ctzsi2 0x1234 ∧ Z.odd q = true ∧ 0x1234 = q * 2 ^ __ctzsi2 0x1234 ∧
     __ffsdi2 0x1234 = __ctzsi2 0x1234) ∧ __clzsi2 0x1234 = 19.
Proof. apply (bit_scans_ok 0x1234). lia. Defined.
