(* ===== verification/Cstring.v ===== *)
(** * Cstring: the string and character functions of the library

    Models src/libc/common/string and src/libc/common/ctype.  A pointer to
    characters is the list of the characters from it to the end of its object:
    [*p] is the head, [p++] the tail, and a read past the end is undefined
    ([None]).  A function that writes through a pointer returns what the
    memory from it on holds afterwards.  Characters are signed, as [char] is
    on the m68k; [unsigned char] accesses wrap.

    [cstr s] is the string a pointer denotes: the characters before the first
    NUL. *)

From S2P Require Import Prelude.

Implicit Types (s t dest src : list Z).

Fixpoint cstr s : option (list Z) :=
  match s with
  | [] => None
  | c :: s => if c =? 0 then Some [] else l ← cstr s; Some (c :: l)
  end.

(** ** Scanning *)

Fixpoint strlen s : option Z :=
  match s with
  | [] => None
  | c :: s => if negb (c =? 0) then n ← strlen s; Some (n + 1) else Some 0
  end.

(** [i < maxlen] compares an int with a size_t. *)
Fixpoint strnlen_from s (i maxlen : Z) : option Z :=
  if u32 i <? maxlen then
    match s with
    | [] => None
    | c :: s => if negb (c =? 0) then strnlen_from s (s32 (i + 1)) maxlen else Some i
    end
  else Some i.
Definition strnlen s (maxlen : Z) : option Z := strnlen_from s 0 maxlen.

Fixpoint strcmp s t : option Z :=
  match s, t with
  | c :: s, d :: t =>
      if d <? c then Some 1
      else if c <? d then Some (-1)
      else if (c =? d) && (c =? 0) then Some 0
      else strcmp s t
  | _, _ => None
  end.

Fixpoint strncmp (max : nat) s t {struct max} : option Z :=
  match max with
  | O => Some 0
  | S max =>
      match s, t with
      | c :: s, d :: t =>
          if d <? c then Some 1
          else if c <? d then Some (-1)
          else if (c =? d) && (c =? 0) then Some 0
          else strncmp max s t
      | _, _ => None
      end
  end.

(** The result is the offset of the character found, [None] for NULL. *)
Fixpoint strchr_from s (ch : Z) (i : nat) : option (option nat) :=
  match s with
  | [] => None
  | c :: s => if c =? 0 then Some None else if c =? ch then Some (Some i) else strchr_from s ch (S i)
  end.
Definition strchr s (ch : Z) : option (option nat) := strchr_from s ch 0.

Fixpoint strrchr_from s (ch : Z) (i : nat) (pos : option nat) : option (option nat) :=
  match s with
  | [] => None
  | c :: s =>
      if c =? 0 then Some pos
      else strrchr_from s ch (S i) (if c =? ch then Some i else pos)
  end.
Definition strrchr s (ch : Z) : option (option nat) := strrchr_from s ch 0 None.

Fixpoint _search t (ch : Z) : option bool :=
  match t with
  | [] => None
  | d :: t => if d =? 0 then Some false else if d =? ch then Some true else _search t ch
  end.

Fixpoint strcspn s t : option nat :=
  match s with
  | [] => None
  | c :: s =>
      if c =? 0 then Some O
      else b ← _search t c; if b : bool then Some O else n ← strcspn s t; Some (S n)
  end.

Fixpoint strspn s t : option nat :=
  match s with
  | [] => None
  | c :: s =>
      if c =? 0 then Some O
      else b ← _search t c; if negb b then Some O else n ← strspn s t; Some (S n)
  end.

Fixpoint _compare s t : option bool :=
  match s with
  | [] => None
  | c :: s =>
      if c =? 0 then Some true
      else match t with
           | [] => None
           | d :: t => if d =? 0 then Some true else if negb (c =? d) then Some false else _compare s t
           end
  end.

Fixpoint strstr_from s t (i : nat) : option (option nat) :=
  match s with
  | [] => None
  | c :: s' =>
      if c =? 0 then Some None
      else b ← _compare s t; if b : bool then Some (Some i) else strstr_from s' t (S i)
  end.
Definition strstr s t : option (option nat) := strstr_from s t 0.

(** ** Copying *)

Fixpoint strcpy dest src : option (list Z) :=
  match src, dest with
  | c :: src, d :: dest =>
      if negb (c =? 0) then r ← strcpy dest src; Some (c :: r) else Some (0 :: dest)
  | _, _ => None
  end.

Fixpoint strncpy dest src (max : nat) {struct max} : option (list Z) :=
  match max with
  | O => Some dest
  | S max =>
      match src, dest with
      | c :: src', d :: dest =>
          if negb (c =? 0) then r ← strncpy dest src' max; Some (c :: r)
          else r ← strncpy dest src max; Some (0 :: r)
      | _, _ => None
      end
  end.

(** [for (; *dest; dest++) { }] and then the copy. *)
Fixpoint strcat dest src : option (list Z) :=
  match dest with
  | [] => None
  | d :: dest' => if negb (d =? 0) then r ← strcat dest' src; Some (d :: r) else strcpy dest src
  end.

Fixpoint strncat_copy dest src (max : nat) : option (list Z) :=
  match src with
  | [] => None
  | c :: src =>
      if negb (c =? 0) && (0 <? max)%nat then
        match dest with
        | [] => None
        | _ :: dest => r ← strncat_copy dest src (Nat.pred max); Some (c :: r)
        end
      else if (0 <? max)%nat then
        match dest with [] => None | _ :: dest => Some (0 :: dest) end
      else Some dest
  end.

Fixpoint strncat dest src (max : nat) : option (list Z) :=
  match dest with
  | [] => None
  | d :: dest' =>
      if negb (d =? 0) then r ← strncat dest' src max; Some (d :: r) else strncat_copy dest src max
  end.

Fixpoint memcpy dest src (num : nat) {struct num} : option (list Z) :=
  match num with
  | O => Some dest
  | S num =>
      match dest, src with
      | _ :: dest, c :: src => r ← memcpy dest src num; Some (u8 c :: r)
      | _, _ => None
      end
  end.

Fixpoint memset dest (value : Z) (num : nat) {struct num} : option (list Z) :=
  match num with
  | O => Some dest
  | S num =>
      match dest with
      | _ :: dest => r ← memset dest value num; Some (u8 (s8 value) :: r)
      | [] => None
      end
  end.

(** The difference of the two unsigned characters is kept in a signed char. *)
Fixpoint memcmp s t (num : nat) {struct num} : option Z :=
  match num with
  | O => Some 0
  | S num =>
      match s, t with
      | c :: s, d :: t =>
          let data := s8 (u8 c - u8 d) in
          if negb (data =? 0) then Some (if data <? 0 then -1 else 1) else memcmp s t num
      | _, _ => None
      end
  end.

(** ** Character classes *)

Definition between (lo c hi : Z) : bool := (lo <=? c) && (c <=? hi).

Definition isalnum (c : Z) : bool := between 65 c 90 || between 97 c 122 || between 48 c 57.
Definition isalpha (c : Z) : bool := between 97 c 122 || between 65 c 90.
Definition iscntrl (c : Z) : bool := between 0 c 0x1F.
Definition isdigit (c : Z) : bool := between 48 c 57.
Definition isgraph (c : Z) : bool := between 0x21 c 0x7f.
Definition islower (c : Z) : bool := between 97 c 122.
Definition isprint (c : Z) : bool := between 0x20 c 0x7f.
Definition ispunct (c : Z) : bool :=
  between 0x21 c 0x2f || between 0x3a c 0x40 || between 0x5b c 0x60 || between 0x7b c 0x7e.
Definition isspace (c : Z) : bool := (c =? 32) || (c =? 9) || between 10 c 13.
Definition isupper (c : Z) : bool := between 65 c 90.
Definition isxdigit (c : Z) : bool := between 48 c 57 || between 97 c 102 || between 65 c 70.
Definition tolower (c : Z) : Z := if between 65 c 90 then c + 0x20 else c.
Definition toupper (c : Z) : Z := if between 97 c 122 then c - 0x20 else c.

(** ** Lengths *)

Lemma cstr_cons c s l :
  cstr (c :: s) = Some l →
  c = 0 ∧ l = [] ∨ c ≠ 0 ∧ ∃ k, cstr s = Some k ∧ l = c :: k.
Proof.
  simpl. destruct (Z.eqb_spec c 0); [intros [= <-]; by left|].
  destruct (cstr s) as [k|]; [|done]. simpl. intros [= <-]. right. eauto.
Qed.

Lemma cstr_length s l : cstr s = Some l → (length l < length s)%nat.
Proof.
  revert l. induction s as [|c s IH]; intros l H; [done|].
  apply cstr_cons in H as [[-> ->]|(? & k & H & ->)]; simpl; [lia|]. apply IH in H. lia.
Qed.

Lemma strnlen_from_ok s l maxlen : ∀ i,
  cstr s = Some l → 0 ≤ i ≤ maxlen → maxlen < 2 ^ 31 →
  strnlen_from s i maxlen = Some (Z.min (i + zlen l) maxlen).
Proof.
  revert l. induction s as [|c s IH]; intros l i H Hi Hm; [done|]. simpl.
  apply cstr_cons in H as [[-> ->]|(Hc & k & H & ->)]; rewrite (u32_small i) by lia;
    destruct (Z.ltb_spec i maxlen); simpl.
  - f_equal. lia.
  - f_equal. lia.
  - destruct (Z.eqb_spec c 0); [done|]. simpl. rewrite s32_small by lia. rewrite (IH k) by (done || lia).
    f_equal. lia.
  - f_equal. lia.
Qed.

(** strlen is the number of characters before the first NUL, strnlen the
    same up to a bound. *)
Theorem strlen_ok s l maxlen :
  cstr s = Some l → 0 ≤ maxlen < 2 ^ 31 →
  strlen s = Some (zlen l) ∧ strnlen s maxlen = Some (Z.min (zlen l) maxlen).
Proof.
  intros H Hm. split; [|by apply (strnlen_from_ok s l maxlen 0); [done|lia|lia]].
  revert l H. induction s as [|c s IH]; intros l H; [done|]. simpl.
  apply cstr_cons in H as [[-> ->]|(Hc & k & H & ->)]; [done|].
  destruct (Z.eqb_spec c 0); [done|]. simpl. rewrite (IH k) by done. simpl. f_equal. lia.
Qed.

Lemma strlen_ok_witness :
  strlen [104; 105; 0; 7] = Some 2 ∧ strnlen [104; 105; 0; 7] 1 = Some 1.
Proof. apply (strlen_ok [104; 105; 0; 7] [104; 105] 1); [reflexivity|lia]. Defined.

(** ** Comparison *)

(** The sign of the first difference of two strings, terminators included. *)
Fixpoint order s t : Z :=
  match s, t with
  | [], [] => 0
  | [], d :: _ => if d <? 0 then 1 else -1
  | c :: _, [] => if c <? 0 then -1 else 1
  | c :: s, d :: t => if d <? c then 1 else if c <? d then -1 else order s t
  end.

Definition nonzero s : Prop := Forall (λ c, c ≠ 0) s.

Lemma cstr_nonzero s l : cstr s = Some l → nonzero l.
Proof.
  revert l. induction s as [|c s IH]; intros l H; [done|].
  apply cstr_cons in H as [[-> ->]|(Hc & k & H & ->)]; constructor; [done|by apply IH].
Qed.

Lemma order_eq s t : order s t = 0 ↔ s = t.
Proof.
  revert t. induction s as [|c s IH]; intros [|d t]; simpl.
  - done.
  - destruct (d <? 0); split; intros; congruence || lia.
  - destruct (c <? 0); split; intros; congruence || lia.
  - destruct (Z.ltb_spec d c); [split; [lia|intros [= -> _]; lia]|].
    destruct (Z.ltb_spec c d); [split; [lia|intros [= -> _]; lia]|].
    rewrite IH. assert (c = d) as -> by lia. split; congruence.
Qed.

Lemma order_sym s t : order t s = - order s t.
Proof.
  revert t. induction s as [|c s IH]; intros [|d t]; simpl; try done.
  - by destruct (d <? 0).
  - by destruct (c <? 0).
  - destruct (Z.ltb_spec c d), (Z.ltb_spec d c); try lia. apply IH.
Qed.

Lemma strcmp_spec s t l k : cstr s = Some l → cstr t = Some k → strcmp s t = Some (order l k).
Proof.
  revert t l k. induction s as [|c s IH]; intros [|d t] l k Hl Hk; try done. simpl.
  apply cstr_cons in Hl as [[-> ->]|(Hc & l' & Hl & ->)];
    apply cstr_cons in Hk as [[-> ->]|(Hd & k' & Hk & ->)]; simpl.
  - done.
  - destruct (Z.ltb_spec d 0), (Z.ltb_spec 0 d); done || lia.
  - destruct (Z.ltb_spec c 0), (Z.ltb_spec 0 c); done || lia.
  - destruct (d <? c) eqn:E1; [done|]. destruct (c <? d) eqn:E2; [done|].
    destruct (Z.eqb_spec c 0); [done|]. rewrite andb_false_r. by apply IH.
Qed.

Lemma strncmp_spec n : ∀ s t l k,
  cstr s = Some l → cstr t = Some k → strncmp n s t = Some (order (take n l) (take n k)).
Proof.
  induction n as [|n IH]; intros s t l k Hl Hk; [done|].
  destruct s as [|c s]; [done|]. destruct t as [|d t]; [done|]. simpl.
  apply cstr_cons in Hl as [[-> ->]|(Hc & l' & Hl & ->)];
    apply cstr_cons in Hk as [[-> ->]|(Hd & k' & Hk & ->)]; simpl.
  - done.
  - destruct (Z.ltb_spec d 0), (Z.ltb_spec 0 d); done || lia.
  - destruct (Z.ltb_spec c 0), (Z.ltb_spec 0 c); done || lia.
  - destruct (d <? c) eqn:E1; [done|]. destruct (c <? d) eqn:E2; [done|].
    destruct (Z.eqb_spec c 0); [done|]. rewrite andb_false_r. by apply IH.
Qed.

(** The character at [i], with the NUL at the end. *)
Definition char_at (l : list Z) (i : nat) : Z := default 0 (l !! i).

(** [r] is the sign of the first of the differences of the two strings, if
    there is one before position [n]. *)
Definition first_difference (l k : list Z) (n : nat) (r : Z) : Prop :=
  (r = 0 ∧ ∀ i, (i < n)%nat → char_at l i = char_at k i) ∨
  ∃ i, (i < n)%nat ∧ (∀ j, (j < i)%nat → char_at l j = char_at k j) ∧ char_at l i ≠ char_at k i ∧
    r = if char_at l i <? char_at k i then -1 else 1.

Lemma first_difference_cons c l k n r : first_difference l k n r → first_difference (c :: l) (c :: k) (S n) r.
Proof.
  intros [[-> H]|(i & Hi & Hb & Hd & ->)]; [left|right; exists (S i)].
  - split; [done|]. intros [|j] Hj; [done|]. apply (H j). lia.
  - split; [lia|]. split; [|done]. intros [|j] Hj; [done|]. apply (Hb j). lia.
Qed.

Lemma order_first l : ∀ k n, nonzero l → nonzero k → first_difference l k n (order (take n l) (take n k)).
Proof.
  induction l as [|c l IH]; intros [|d k] [|n] Hl Hk; try (left; split; [done|]; intros; lia).
  - right. exists 0%nat. apply Forall_cons in Hk as [Hk _]. unfold char_at. simpl. split_and!; [lia|intros; lia|lia|].
    destruct (Z.ltb_spec d 0), (Z.ltb_spec 0 d); lia.
  - right. exists 0%nat. apply Forall_cons in Hl as [Hl _]. unfold char_at. simpl. split_and!; [lia|intros; lia|lia|].
    destruct (Z.ltb_spec c 0); lia.
  - destruct (Z.eq_dec c d) as [->|Hne].
    + simpl. rewrite !Z.ltb_irrefl. apply Forall_cons in Hl as [_ Hl]. apply Forall_cons in Hk as [_ Hk]. by apply first_difference_cons, IH.
    + right. exists 0%nat. unfold char_at. simpl. split_and!; [lia|intros; lia|done|]. destruct (Z.ltb_spec d c), (Z.ltb_spec c d); lia.
Qed.

(** C33: strcmp gives the sign of the first difference of the two strings,
    whose characters are compared as signed, the NUL at the end included;
    strncmp gives the same of their first [n] characters.  Each is 0 exactly
    when there is no such difference, and strcmp changes its sign with the
    arguments. *)
Theorem strcmp_ok s t l k n :
  cstr s = Some l → cstr t = Some k →
  ∃ r rn, strcmp s t = Some r ∧ strcmp t s = Some (- r) ∧ (r = 0 ↔ l = k) ∧
    first_difference l k (S (length l `max` length k)) r ∧
    strncmp n s t = Some rn ∧ (rn = 0 ↔ take n l = take n k) ∧ first_difference l k n rn.
Proof.
  intros Hl Hk. exists (order l k), (order (take n l) (take n k)).
  pose proof (λ n, order_first l k n (cstr_nonzero _ _ Hl) (cstr_nonzero _ _ Hk)) as Hd. pose proof (Hd (S (length l `max` length k))) as Hr.
  rewrite !take_ge in Hr by lia. rewrite (strcmp_spec s t l k), (strcmp_spec t s k l), (strncmp_spec n s t l k), (order_sym l k), !order_eq by done.
  split_and!; done.
Qed.

Lemma strcmp_ok_witness :
  ∃ r rn, strcmp [97; 98; 0] [97; 99; 0] = Some r ∧ strcmp [97; 99; 0] [97; 98; 0] = Some (- r) ∧
    (r = 0 ↔ [97; 98] = [97; 99]) ∧ first_difference [97; 98] [97; 99] 3 r ∧
    strncmp 1 [97; 98; 0] [97; 99; 0] = Some rn ∧ (rn = 0 ↔ take 1 [97; 98] = take 1 [97; 99]) ∧ first_difference [97; 98] [97; 99] 1 rn.
Proof. apply (strcmp_ok [97; 98; 0] [97; 99; 0] [97; 98] [97; 99] 1); reflexivity. Defined.

(** ** Copying *)

Lemma strcpy_spec dest src l :
  cstr src = Some l →
  strcpy dest src =
    if (length l <? length dest)%nat then Some (l ++ 0 :: drop (S (length l)) dest) else None.
Proof.
  revert dest l. induction src as [|c src IH]; intros dest l H; [done|].
  destruct dest as [|d dest]; [simpl; by destruct (cstr_cons _ _ _ H) as [[-> ->]|(? & ? & ? & ->)]|].
  simpl. apply cstr_cons in H as [[-> ->]|(Hc & k & H & ->)]; simpl; [done|].
  destruct (Z.eqb_spec c 0); [done|]. simpl. rewrite (IH dest k H). simpl.
  change (S (length k) <? S (length dest))%nat with (length k <? length dest)%nat.
  by destruct (length k <? length dest)%nat.
Qed.

(** strncpy fills exactly [n] characters: the string cut at [n] and padded
    with NULs. *)
Lemma strncpy_spec dest src l n :
  cstr src = Some l → (n ≤ length dest)%nat →
  strncpy dest src n = Some (take n l ++ replicate (n - length l) 0 ++ drop n dest).
Proof.
  revert dest src l. induction n as [|n IH]; intros dest src l Hl Hn; [done|].
  destruct dest as [|d dest]; [simpl in Hn; lia|]. destruct src as [|c src]; [done|].
  simpl in Hn. cbn [strncpy]. pose proof Hl as Hl0.
  apply cstr_cons in Hl as [[-> ->]|(Hc & k & Hl & ->)].
  - rewrite (IH dest (0 :: src) []) by (done || lia). simpl. by rewrite take_nil, Nat.sub_0_r.
  - destruct (Z.eqb_spec c 0); [done|]. cbn [negb]. rewrite (IH dest src k) by (done || lia). done.
Qed.

(** Strcpy and strcat write the string and its terminator and nothing
    after it, when the destination has room for them, and otherwise write past
    its end; strncpy writes exactly [n] characters, the string cut at [n] and
    padded with NULs. *)
Theorem strcpy_ok dest src l n :
  cstr src = Some l → (n ≤ length dest)%nat →
  strncpy dest src n = Some (take n l ++ replicate (n - length l) 0 ++ drop n dest) ∧
  (strcpy dest src =
     if (length l <? length dest)%nat then Some (l ++ 0 :: drop (S (length l)) dest) else None) ∧
  (∀ k, cstr dest = Some k →
     strcat dest src =
       if (length k + length l <? length dest)%nat
       then Some (k ++ l ++ 0 :: drop (S (length k + length l)) dest) else None).
Proof.
  intros Hl Hn. split; [by apply strncpy_spec|]. split; [by apply strcpy_spec|].
  clear Hn. induction dest as [|d dest IH]; intros k Hk; [done|]. cbn [strcat].
  apply cstr_cons in Hk as [[-> ->]|(Hd & k' & Hk & ->)]; cbn [Z.eqb negb].
  - rewrite (strcpy_spec _ _ l Hl). done.
  - destruct (Z.eqb_spec d 0); [done|]. cbn [negb]. rewrite (IH k' Hk). simpl.
    change (S (length k' + length l) <? S (length dest))%nat
      with (length k' + length l <? length dest)%nat.
    by destruct (length k' + length l <? length dest)%nat.
Qed.

Lemma strcpy_ok_witness :
  strncpy [9; 9; 9; 9] [104; 105; 0] 1 = Some [104; 9; 9; 9] ∧
  (strcpy [9; 9; 9; 9] [104; 105; 0] = Some [104; 105; 0; 9]) ∧
  (∀ k, cstr [9; 9; 9; 9] = Some k →
     strcat [9; 9; 9; 9] [104; 105; 0] =
       if (length k + 2 <? 4)%nat
       then Some (k ++ [104; 105] ++ 0 :: drop (S (length k + 2)) [9; 9; 9; 9]) else None).
Proof. apply (strcpy_ok [9; 9; 9; 9] [104; 105; 0] [104; 105] 1); [reflexivity|simpl; lia]. Defined.

(** ** Searching *)

(** The length of the longest prefix whose characters satisfy [p]. *)
Fixpoint prefix_len (p : Z → bool) s : nat :=
  match s with [] => O | c :: s => if p c then S (prefix_len p s) else O end.

Lemma search_spec t k ch : cstr t = Some k → _search t ch = Some (bool_decide (ch ∈ k)).
Proof.
  revert k. induction t as [|d t IH]; intros k H; [done|]. cbn [_search].
  apply cstr_cons in H as [[-> ->]|(Hd & k' & H & ->)].
  - by rewrite bool_decide_eq_false_2 by (apply not_elem_of_nil).
  - destruct (Z.eqb_spec d 0); [done|]. destruct (Z.eqb_spec d ch) as [->|].
    + by rewrite bool_decide_eq_true_2 by (apply elem_of_cons; by left).
    + rewrite (IH k') by done. f_equal. apply bool_decide_ext. rewrite elem_of_cons. naive_solver.
Qed.

Definition not_char (ch c : Z) : bool := negb (c =? ch).

(** The first index of [ch] in [l]. *)
Definition first_index l (ch : Z) : option nat :=
  let n := prefix_len (not_char ch) l in if (n <? length l)%nat then Some n else None.

Lemma strchr_from_spec s l ch : ∀ i, cstr s = Some l →
  strchr_from s ch i = Some (Nat.add i <$> first_index l ch).
Proof.
  revert l. induction s as [|c s IH]; intros l i H; [done|]. cbn [strchr_from].
  apply cstr_cons in H as [[-> ->]|(Hc & k & H & ->)]; [done|].
  destruct (Z.eqb_spec c 0); [done|]. unfold first_index. cbn [prefix_len length].
  unfold not_char at 1 3. destruct (Z.eqb_spec c ch); cbn [negb];
    [rewrite (proj2 (Nat.ltb_lt 0 (S (length k)))) by lia; simpl; by rewrite Nat.add_0_r|].
  rewrite (IH k) by done. unfold first_index.
  change (S (prefix_len (not_char ch) k) <? S (length k))%nat
    with (prefix_len (not_char ch) k <? length k)%nat.
  destruct (prefix_len (not_char ch) k <? length k)%nat; [|done]. simpl. do 2 f_equal. lia.
Qed.

(** The last index of [ch] in [l], [pos] when there is none. *)
Fixpoint last_index l (ch : Z) (i : nat) (pos : option nat) : option nat :=
  match l with [] => pos | c :: l => last_index l ch (S i) (if c =? ch then Some i else pos) end.

Lemma last_index_spec l ch : ∀ i pos,
  match last_index l ch i pos with
  | Some j => pos = Some j ∧ ch ∉ l ∨
      (i ≤ j)%nat ∧ l !! (j - i)%nat = Some ch ∧ ∀ k, (j - i < k)%nat → l !! k ≠ Some ch
  | None => pos = None ∧ ch ∉ l
  end.
Proof.
  induction l as [|c l IH]; intros i pos; simpl; [destruct pos; [left|]; set_solver|].
  specialize (IH (S i) (if c =? ch then Some i else pos)).
  destruct (Z.eqb_spec c ch) as [->|Hne]; destruct (last_index l ch _ _) as [j|].
  - right. destruct IH as [[[= <-] Hno]|(Hij & Hl & Hmax)].
    + split; [lia|]. rewrite Nat.sub_diag. split; [done|]. intros [|k] Hk; [lia|]. simpl.
      intros E. apply Hno. by eapply list_elem_of_lookup_2.
    + split; [lia|]. replace (j - i)%nat with (S (j - S i)) by lia. split; [done|].
      intros [|k] Hk; [lia|]. simpl. apply Hmax. lia.
  - by destruct IH.
  - destruct IH as [[-> Hno]|(Hij & Hl & Hmax)]; [left; set_solver|right]. split; [lia|].
    replace (j - i)%nat with (S (j - S i)) by lia. split; [done|].
    intros [|k] Hk; [lia|]. simpl. apply Hmax. lia.
  - set_solver.
Qed.

Lemma strrchr_from_spec s l ch : ∀ i pos, cstr s = Some l →
  strrchr_from s ch i pos = Some (last_index l ch i pos).
Proof.
  revert l. induction s as [|c s IH]; intros l i pos H; [done|]. simpl.
  apply cstr_cons in H as [[-> ->]|(Hc & k & H & ->)]; simpl; [done|].
  destruct (Z.eqb_spec c 0); [done|]. by apply IH.
Qed.

Lemma prefix_len_spec (p : Z → bool) l :
  Forall (λ c, p c = true) (take (prefix_len p l) l) ∧
  (prefix_len p l ≤ length l)%nat ∧ ∀ c, l !! prefix_len p l = Some c → p c = false.
Proof.
  induction l as [|c l (IH1 & IH2 & IH3)]; simpl; [done|].
  destruct (p c) eqn:E; simpl; [|split; [constructor|split; [lia|by intros ? [= <-]]]].
  split; [by constructor|]. split; [lia|done].
Qed.

Definition in_string (k : list Z) (c : Z) : bool := bool_decide (c ∈ k).
Definition not_in_string (k : list Z) (c : Z) : bool := negb (in_string k c).

(** Strchr and strrchr give the first and the last position of a
    character, strspn and strcspn the length of the longest prefix inside and
    outside a set of characters. *)
Theorem string_search_ok s t l k ch :
  cstr s = Some l → cstr t = Some k →
  strchr s ch = Some (first_index l ch) ∧ strrchr s ch = Some (last_index l ch 0 None) ∧
  strspn s t = Some (prefix_len (in_string k) l) ∧
  strcspn s t = Some (prefix_len (not_in_string k) l).
Proof.
  intros Hl Hk. split; [|split].
  - unfold strchr. rewrite (strchr_from_spec s l) by done. by destruct (first_index l ch).
  - by apply strrchr_from_spec.
  - unfold not_in_string, in_string. revert l Hl. induction s as [|c s IH]; intros l Hl; [done|].
    cbn [strspn strcspn]. apply cstr_cons in Hl as [[-> ->]|(Hc & l' & Hl & ->)]; [done|].
    destruct (IH l' Hl) as [E1 E2]. destruct (Z.eqb_spec c 0); [done|].
    rewrite (search_spec t k c Hk). cbn [mbind option_bind prefix_len].
    destruct (bool_decide (c ∈ k)); cbn [negb]; [by rewrite E1|by rewrite E2].
Qed.

Lemma string_search_ok_witness :
  strchr [97; 98; 97; 0] 97 = Some (Some 0%nat) ∧ strrchr [97; 98; 97; 0] 97 = Some (Some 2%nat) ∧
  strspn [97; 98; 97; 0] [97; 0] = Some 1%nat ∧ strcspn [97; 98; 97; 0] [97; 0] = Some 0%nat.
Proof. apply (string_search_ok [97; 98; 97; 0] [97; 0] [97; 98; 97] [97] 97); reflexivity. Defined.

(** ** Substrings *)

(** The shorter of two strings is a prefix of the other. *)
Fixpoint agree s t : bool :=
  match s, t with c :: s, d :: t => (c =? d) && agree s t | _, _ => true end.

Lemma compare_spec s t l k : cstr s = Some l → cstr t = Some k → _compare s t = Some (agree l k).
Proof.
  revert t l k. induction s as [|c s IH]; intros t l k Hl Hk; [done|]. cbn [_compare].
  apply cstr_cons in Hl as [[-> ->]|(Hc & l' & Hl & ->)]; [done|].
  destruct (Z.eqb_spec c 0); [done|]. destruct t as [|d t]; [done|].
  apply cstr_cons in Hk as [[-> ->]|(Hd & k' & Hk & ->)]; [done|].
  destruct (Z.eqb_spec d 0); [done|]. simpl. destruct (Z.eqb_spec c d); simpl; [|done]. by apply IH.
Qed.

(** The first suffix of [l] that agrees with [k]. *)
Fixpoint find_agree l k (i : nat) : option nat :=
  match l with [] => None | c :: l' => if agree l k then Some i else find_agree l' k (S i) end.

Lemma strstr_from_spec s t l k : ∀ i, cstr s = Some l → cstr t = Some k →
  strstr_from s t i = Some (find_agree l k i).
Proof.
  revert l. induction s as [|c s IH]; intros l i Hl Hk; [done|]. cbn [strstr_from].
  pose proof Hl as Hl0. apply cstr_cons in Hl as [[-> ->]|(Hc & l' & Hl & ->)]; [done|].
  destruct (Z.eqb_spec c 0); [done|]. rewrite (compare_spec _ t _ k Hl0 Hk).
  cbn [mbind option_bind find_agree]. destruct (agree (c :: l') k); [done|]. by apply IH.
Qed.

Lemma agree_prefix l k : (length k ≤ length l)%nat → agree l k = true ↔ take (length k) l = k.
Proof.
  revert l. induction k as [|d k IH]; intros [|c l] Hl; simpl in *; try done; try lia.
  rewrite andb_true_iff, Z.eqb_eq, IH by lia. split; [intros [-> ->]; done|intros [= -> ->]; done].
Qed.

Lemma find_agree_spec l k : ∀ i,
  match find_agree l k i with
  | Some j => (i ≤ j < i + length l)%nat ∧ agree (drop (j - i) l) k = true ∧
      ∀ m, (m < j - i)%nat → agree (drop m l) k = false
  | None => ∀ m, (m < length l)%nat → agree (drop m l) k = false
  end.
Proof.
  induction l as [|c l IH]; intros i; cbn [find_agree]; [simpl; lia|].
  destruct (agree (c :: l) k) eqn:E.
  - rewrite Nat.sub_diag. simpl length. split; [lia|]. split; [done|lia].
  - specialize (IH (S i)). destruct (find_agree l k (S i)) as [j|].
    + destruct IH as (Hj & Ha & Hno). simpl length. split; [lia|].
      replace (j - i)%nat with (S (j - S i)) by lia. split; [done|].
      intros [|m] Hm; [done|]. apply Hno. lia.
    + simpl length. intros [|m] Hm; [done|]. apply IH. lia.
Qed.

(** At position [j] the rest of the haystack and the needle are the same up to
    the end of the shorter one. *)
Definition matches_at (l k : list Z) (j : nat) : Prop := take (length k) (drop j l) = take (length (drop j l)) k.

Lemma agree_matches l k : agree l k = true ↔ take (length k) l = take (length l) k.
Proof.
  revert k. induction l as [|c l IH]; intros [|d k]; simpl; try done. rewrite andb_true_iff, Z.eqb_eq, IH.
  split; [intros [-> ->]; done|intros [= -> ->]; done].
Qed.

Lemma agree_false l k j : agree (drop j l) k = false ↔ ¬ matches_at l k j.
Proof. unfold matches_at. rewrite <- agree_matches. destruct (agree (drop j l) k); naive_solver. Qed.

(** C34: strstr returns the first position at which the rest of the haystack
    and the needle agree up to the end of the shorter one, and NULL when there
    is none.  That is the first occurrence of the needle, unless the haystack
    ends with a beginning of the needle before it has all of it. *)
Theorem strstr_ok s t l k :
  cstr s = Some l → cstr t = Some k →
  ∃ r, strstr s t = Some r ∧
    match r with
    | Some j => (j < length l)%nat ∧ matches_at l k j ∧ ((j + length k ≤ length l)%nat → take (length k) (drop j l) = k) ∧
        ∀ m, (m < j)%nat → ¬ matches_at l k m
    | None => ∀ m, (m < length l)%nat → ¬ matches_at l k m
    end.
Proof.
  intros Hl Hk. exists (find_agree l k 0). split; [by apply strstr_from_spec|].
  pose proof (find_agree_spec l k 0) as H. destruct (find_agree l k 0) as [j|].
  - rewrite Nat.sub_0_r in H. destruct H as (Hj & Ha & Hbefore). split; [lia|]. split; [by apply agree_matches|].
    split; [intros Hle; apply agree_prefix; [rewrite length_drop; lia|done]|].
    intros m Hm. by apply agree_false, Hbefore.
  - intros m Hm. by apply agree_false, H.
Qed.

Lemma strstr_ok_witness :
  ∃ r, strstr [97; 98; 99; 0] [98; 99; 0] = Some r ∧
    match r with
    | Some j => (j < 3)%nat ∧ matches_at [97; 98; 99] [98; 99] j ∧ ((j + 2 ≤ 3)%nat → take 2 (drop j [97; 98; 99]) = [98; 99]) ∧
        ∀ m, (m < j)%nat → ¬ matches_at [97; 98; 99] [98; 99] m
    | None => ∀ m, (m < 3)%nat → ¬ matches_at [97; 98; 99] [98; 99] m
    end.
Proof. apply (strstr_ok [97; 98; 99; 0] [98; 99; 0] [97; 98; 99] [98; 99]); reflexivity. Defined.

(** The end of the haystack counts as a match of a longer needle. *)
Lemma strstr_short_haystack : strstr [120; 97; 0] [97; 98; 99; 0] = Some (Some 1%nat).
Proof. reflexivity. Qed.

(** A copy cut by [max] is left without a terminator. *)
Lemma strncat_no_terminator : strncat [97; 0; 9; 9] [98; 99; 0] 1 = Some [97; 98; 9; 9].
Proof. reflexivity. Qed.

(** ** Memory *)

Lemma s8_sub_zero a b : s8 (u8 a - u8 b) = 0 ↔ u8 a = u8 b.
Proof.
  unfold s8, swrap, u8, uwrap. change (2 ^ (8 - 1)) with 128. change (2 ^ 8) with 256.
  pose proof (Z.mod_pos_bound a 256 ltac:(lia)). pose proof (Z.mod_pos_bound b 256 ltac:(lia)).
  set (x := a mod 256) in *. set (y := b mod 256) in *. clearbody x y. split; [|intros ->; by rewrite Z.sub_diag].
  intros E. assert (Hm : (x - y + 128) mod 256 = 128) by lia.
  pose proof (Z.div_mod (x - y + 128) 256 ltac:(lia)). lia.
Qed.

(** C35: memcpy and memset write exactly their [n] bytes; memcmp returns 0
    exactly when the first [n] bytes are equal. *)
Theorem mem_ok dest src value n :
  (n ≤ length dest)%nat → (n ≤ length src)%nat →
  memcpy dest src n = Some (map u8 (take n src) ++ drop n dest) ∧
  memset dest value n = Some (replicate n (u8 value) ++ drop n dest) ∧
  ∃ r, memcmp dest src n = Some r ∧ (r = 0 ↔ map u8 (take n dest) = map u8 (take n src)).
Proof.
  revert dest src. induction n as [|n IH]; intros dest src Hd Hs.
  - split; [done|]. split; [done|]. exists 0. done.
  - destruct dest as [|d dest]; [simpl in Hd; lia|]. destruct src as [|c src]; [simpl in Hs; lia|].
    destruct (IH dest src) as (E1 & E2 & r & E3 & Hr); [simpl in *; lia..|].
    cbn [memcpy memset memcmp]. rewrite E1, E2. simpl. split; [done|]. split.
    + do 2 f_equal. unfold u8, uwrap, s8, swrap. change (2 ^ (8 - 1)) with 128. change (2 ^ 8) with 256.
      rewrite Zminus_mod_idemp_l. f_equal. lia.
    + pose proof (s8_sub_zero d c) as Hz. destruct (Z.eqb_spec (s8 (u8 d - u8 c)) 0) as [E|E]; simpl.
      * exists r. split; [done|]. rewrite Hr. apply Hz in E. rewrite E. split; congruence.
      * eexists. split; [done|]. split; [destruct (_ <? 0); lia|]. intros [= E' _]. tauto.
Qed.

Lemma mem_ok_witness :
  memcpy [1; 2; 3] [4; 5] 2 = Some [4; 5; 3] ∧ memset [1; 2; 3] 300 2 = Some [44; 44; 3] ∧
  ∃ r, memcmp [1; 2; 3] [4; 5] 2 = Some r ∧ (r = 0 ↔ [1; 2] = [4; 5]).
Proof. apply (mem_ok [1; 2; 3] [4; 5] 300 2); simpl; lia. Defined.

(** The sign is that of the difference kept in a char. *)
Lemma memcmp_sign : memcmp [200] [0] 1 = Some (-1).
Proof. reflexivity. Qed.

(** ** Character classes *)

(** the character classes nest as they should on every int, and the case
    conversions exchange upper and lower case and leave the rest alone. *)
Theorem ctype_ok c :
  isalpha c = isupper c || islower c ∧ isalnum c = isalpha c || isdigit c ∧
  (isupper c && islower c) = false ∧ (isxdigit c = true → isalnum c = true) ∧
  (ispunct c = isgraph c && negb (isalnum c) && negb (c =? 0x7f)) ∧
  (isprint c = isgraph c || (c =? 32)) ∧ (iscntrl c = true → isprint c = false) ∧
  islower (tolower c) = isalpha c ∧ isupper (toupper c) = isalpha c ∧
  toupper (tolower c) = toupper c ∧ tolower (toupper c) = tolower c ∧
  (isalpha c = false → tolower c = c ∧ toupper c = c).
Proof.
  unfold isalpha, isupper, islower, isalnum, isdigit, isxdigit, ispunct, isgraph, isprint,
    iscntrl, tolower, toupper, between.
  split_and!; try lia; repeat zif; lia.
Qed.
