(* ===== verification/Numconv.v ===== *)
(** * Numconv: numbers to text and back

    Models src/libc/common/stdlib: [itoa], [itoa_padded], [atoi], [strtol] and
    [rand].  Strings are as in [Cstring]; the buffer of itoa is an array that
    is written by index.  Arithmetic on [int] wraps as the compiled code does. *)

From S2P Require Import Prelude Cstring.

(** ** itoa *)

(** A 32 bit number has at most 32 digits. *)
Definition max_digits : nat := 32.

(** [do { ... } while (num > 0)] *)
Fixpoint itoa_digits (fuel : nat) (buffer : list Z) (num radix i : Z) : option (list Z * Z) :=
  match fuel with
  | O => None
  | S fuel =>
      let c := s8 (num mod radix + 48) in
      let c := if 57 <? c then s8 (c + 0x07) else c in
      buffer ← wr buffer i c;
      let num := num / radix in
      if 0 <? num then itoa_digits fuel buffer num radix (i + 1) else Some (buffer, i + 1)
  end.

(** [for (; i < width; i++)] *)
Fixpoint itoa_pad (fuel : nat) (buffer : list Z) (i width ch : Z) : option (list Z * Z) :=
  if i <? width then
    match fuel with
    | O => None
    | S fuel => buffer ← wr buffer i ch; itoa_pad fuel buffer (i + 1) width ch
    end
  else Some (buffer, i).

(** [for (; j < i; j++, i--)] *)
Fixpoint itoa_rev (fuel : nat) (buffer : list Z) (j i : Z) : option (list Z) :=
  if j <? i then
    match fuel with
    | O => None
    | S fuel =>
        c ← rd buffer j;
        d ← rd buffer i;
        buffer ← wr buffer j d;
        buffer ← wr buffer i c;
        itoa_rev fuel buffer (j + 1) (i - 1)
    end
  else Some buffer.

Definition itoa_padded (num : Z) (buffer : list Z) (radix width zeropad : Z) (is_signed : bool) :
    option (list Z) :=
  let sign := is_signed && (s32 num <? 0) in
  let num := if sign then u32 (- num) else num in
  '(buffer, i) ← itoa_digits max_digits buffer num radix 0;
  '(buffer, i) ← (if sign then b ← wr buffer i 45; Some (b, i + 1) else Some (buffer, i));
  '(buffer, i) ← itoa_pad 128 buffer i width (if negb (zeropad =? 0) then 48 else 32);
  buffer ← wr buffer i 0;
  itoa_rev (length buffer) buffer 0 (i - 1).

Definition itoa (num : Z) (buffer : list Z) (radix : Z) : option (list Z) :=
  itoa_padded num buffer radix 0 0 (radix =? 10).

(** ** atoi and strtol *)

Definition is_blank (c : Z) : bool := (c =? 32) || (c =? 10) || (c =? 9) || (c =? 13).

Fixpoint skip_blanks (s : list Z) : option (list Z) :=
  match s with
  | [] => None
  | c :: s' => if is_blank c then skip_blanks s' else Some s
  end.

Fixpoint atoi_digits (s : list Z) (num : Z) : option Z :=
  match s with
  | [] => None
  | c :: s => if (48 <=? c) && (c <=? 57) then atoi_digits s (s32 (s32 (num * 10) + (c - 48))) else Some num
  end.

Definition atoi (s : list Z) : option Z :=
  s ← skip_blanks s;
  c ← head s;
  let '(sign, s) := if c =? 45 then (-1, tail s) else (1, s) in
  num ← atoi_digits s 0;
  Some (s32 (num * sign)).

Definition strtol_digit (c base : Z) : Z :=
  if (48 <=? c) && (c <=? 57) then s8 (c - 48)
  else if (65 <=? c) && (c <=? 90) then s8 (c - 65 + 10)
  else if (97 <=? c) && (c <=? 122) then s8 (c - 97 + 10)
  else s8 base.

(** The loop over the digits; the second component is [endptr]. *)
Fixpoint strtol_digits (s : list Z) (num base : Z) : option (Z * list Z) :=
  match s with
  | [] => None
  | c :: s' =>
      let b := strtol_digit c base in
      if base <=? b then Some (num, s) else strtol_digits s' (s32 (s32 (num * base) + b)) base
  end.

Definition strtol (s : list Z) (base : Z) : option (Z * list Z) :=
  s ← skip_blanks s;
  c ← head s;
  '(sign, base, s) ←
    (if c =? 45 then Some (-1, base, tail s)
     else if c =? 48 then
       d ← tail s !! 0%nat;
       if d =? 120 then Some (1, 16, drop 2 s) else Some (1, 8, tail s)
     else Some (1, base, s));
  '(num, endptr) ← strtol_digits s 0 base;
  Some (s32 (num * sign), endptr).

(** ** rand *)

Definition RAND_MAX : Z := 0x7fff.
Definition srand (seed : Z) : Z := u32 seed.
Definition rand (rand_next : Z) : Z * Z :=
  let n := u32 (rand_next * 1103515245 + 12345) in
  (n, Z.land (Z.shiftr n 16) RAND_MAX).

(** ** The digits of a number *)

Definition digit_char (d : Z) : Z := if d <? 10 then 48 + d else 55 + d.

(** Least significant digit first. *)
Fixpoint digits (fuel : nat) (radix num : Z) : list Z :=
  match fuel with
  | O => []
  | S fuel =>
      num mod radix :: if 0 <? num / radix then digits fuel radix (num / radix) else []
  end.

Fixpoint value (radix : Z) (ds : list Z) : Z :=
  match ds with [] => 0 | d :: ds => d + radix * value radix ds end.

(** What itoa_padded writes, in reading order. *)
Definition itoa_text (num radix width zeropad : Z) (is_signed : bool) : list Z :=
  let sign := is_signed && (s32 num <? 0) in
  let n := if sign then u32 (- num) else num in
  let ds := map digit_char (digits max_digits radix n) ++ (if sign then [45] else []) in
  rev (ds ++ replicate (Z.to_nat (width - zlen ds)) (if negb (zeropad =? 0) then 48 else 32)).

Lemma max_digits_pos : (0 < max_digits)%nat.
Proof. apply Nat.lt_0_succ. Qed.

Lemma max_digits_32 : max_digits = 32%nat.
Proof. done. Qed.

Lemma radix_pow radix : 2 ≤ radix ≤ 36 → 2 ^ 32 ≤ radix ^ Z.of_nat max_digits.
Proof. intros. apply (Z.pow_le_mono_l 2 radix 32). lia. Qed.

#[local] Opaque max_digits.

(** ** itoa writes the text *)

Lemma wr_app {A} (l r : list A) x y : wr (l ++ x :: r) (zlen l) y = Some (l ++ y :: r).
Proof.
  rewrite wr_in_range by (rewrite length_app; simpl; lia). rewrite Nat2Z.id.
  f_equal. rewrite <- (Nat.add_0_r (length l)) at 1. by rewrite insert_app_r.
Qed.

Lemma rd_app {A} (l r : list A) x : rd (l ++ x :: r) (zlen l) = Some x.
Proof. rewrite rd_nat, lookup_app_r, Nat.sub_diag by lia. done. Qed.

Lemma digit_range radix num : 2 ≤ radix ≤ 36 → 0 ≤ num → 0 ≤ num mod radix < radix.
Proof. intros. apply Z.mod_pos_bound. lia. Qed.

Lemma digit_char_code radix num :
  2 ≤ radix ≤ 36 → 0 ≤ num →
  (let c := s8 (num mod radix + 48) in if 57 <? c then s8 (c + 0x07) else c)
    = digit_char (num mod radix).
Proof.
  intros Hr Hn. pose proof (digit_range radix num Hr Hn). unfold digit_char.
  rewrite s8_small by lia. zif; zif; rewrite ?s8_small; lia.
Qed.

Lemma itoa_digits_ok radix : 2 ≤ radix ≤ 36 → ∀ fuel num l r,
  0 ≤ num < radix ^ Z.of_nat fuel → (0 < fuel)%nat →
  (length (digits fuel radix num) ≤ length r)%nat →
  itoa_digits fuel (l ++ r) num radix (zlen l) =
    Some (l ++ map digit_char (digits fuel radix num) ++ drop (length (digits fuel radix num)) r,
          zlen l + zlen (digits fuel radix num)).
Proof.
  intros Hr fuel. induction fuel as [|fuel IH]; intros num l r Hn Hf Hlen; [lia|].
  cbn [itoa_digits digits] in *. rewrite digit_char_code by lia.
  destruct r as [|x r]; [simpl in Hlen; lia|]. rewrite wr_app. cbn [mbind option_bind].
  assert (Hdiv : 0 ≤ num / radix < radix ^ Z.of_nat fuel).
  { rewrite Nat2Z.inj_succ, Z.pow_succ_r in Hn by lia.
    split; [apply Z.div_pos; lia|apply Z.div_lt_upper_bound; lia]. }
  destruct (Z.ltb_spec 0 (num / radix)) as [Hpos|Hz]; simpl in *.
  - destruct fuel as [|fuel]; [simpl in Hdiv; lia|].
    specialize (IH (num / radix) (l ++ [digit_char (num mod radix)]) r ltac:(done) ltac:(lia) ltac:(lia)).
    remember (digits (S fuel) radix (num / radix)) as ds eqn:Eds. clear Eds.
    rewrite length_app in IH. simpl length in IH.
    rewrite <- !app_assoc in IH. simpl app in IH.
    replace (zlen l + 1) with (Z.of_nat (length l + 1)) by lia. rewrite IH.
    f_equal. f_equal. lia.
  - done.
Qed.

Lemma itoa_pad_ok ch : ∀ fuel l r width,
  (Z.to_nat (width - zlen l) ≤ fuel)%nat → (Z.to_nat (width - zlen l) ≤ length r)%nat →
  itoa_pad fuel (l ++ r) (zlen l) width ch =
    Some (l ++ replicate (Z.to_nat (width - zlen l)) ch ++ drop (Z.to_nat (width - zlen l)) r,
          zlen l + Z.of_nat (Z.to_nat (width - zlen l))).
Proof.
  induction fuel as [|fuel IH]; intros l r width Hf Hr; cbn [itoa_pad];
    destruct (Z.ltb_spec (zlen l) width) as [Hlt|Hge]; try lia.
  1, 3: replace (Z.to_nat (width - zlen l)) with 0%nat by lia; simpl; by rewrite Z.add_0_r.
  destruct r as [|x r]; [simpl in Hr; lia|]. rewrite wr_app. cbn [mbind option_bind].
  specialize (IH (l ++ [ch]) r width). rewrite length_app in IH. simpl length in *.
  replace (Z.to_nat (width - zlen l)) with (S (Z.to_nat (width - Z.of_nat (length l + 1)))) in * by lia.
  rewrite <- !app_assoc in IH. simpl app in IH. replace (zlen l + 1) with (Z.of_nat (length l + 1)) by lia.
  rewrite IH by lia. simpl. f_equal. f_equal. lia.
Qed.

Lemma itoa_rev_ok n : ∀ fuel l (mid r : list Z),
  (length mid ≤ n)%nat → (length mid ≤ fuel)%nat →
  itoa_rev fuel (l ++ mid ++ r) (zlen l) (zlen l + zlen mid - 1) = Some (l ++ rev mid ++ r).
Proof.
  induction n as [|n IH]; intros fuel l mid r Hn Hf.
  - destruct mid; [|simpl in Hn; lia]. destruct fuel; simpl; by zif; [lia|].
  - destruct mid as [|x mid]; [destruct fuel; simpl; by zif; [lia|]|].
    destruct mid as [|y mid _] using rev_ind; [destruct fuel; simpl; by zif; [lia|]|].
    destruct fuel as [|fuel]; [simpl in Hf; lia|]. simpl in *. rewrite !length_app in *. simpl in *.
    zif; [|lia]. rewrite (rd_app l). simpl.
    assert (E : ∀ z, l ++ z :: (mid ++ [y]) ++ r = (l ++ z :: mid) ++ y :: r)
      by (intros; by rewrite <- !app_assoc).
    assert (Hi : zlen l + Z.of_nat (S (length mid + 1)) - 1 = zlen (l ++ x :: mid))
      by (rewrite length_app; simpl; lia).
    rewrite E at 1. rewrite Hi at 1. rewrite rd_app. simpl. rewrite (wr_app l). simpl.
    rewrite (E y). replace (zlen l + Z.of_nat (S (length mid + 1)) - 1) with (zlen (l ++ y :: mid))
      by (rewrite length_app; simpl; lia).
    rewrite wr_app. simpl. specialize (IH fuel (l ++ [y]) mid (x :: r)).
    rewrite length_app in IH. simpl in IH. rewrite <- !app_assoc in IH. simpl in IH.
    rewrite <- app_assoc. simpl. rewrite length_app. simpl length.
    replace (zlen l + 1) with (Z.of_nat (length l + 1)) by lia.
    replace (Z.of_nat (length l + S (length mid)) - 1) with (Z.of_nat (length l + 1) + zlen mid - 1) by lia.
    rewrite IH by lia. rewrite rev_app_distr. simpl. by rewrite <- app_assoc.
Qed.

(** itoa_padded writes the text and its terminator, in place. *)
Lemma itoa_padded_ok num buffer radix width zeropad is_signed :
  0 ≤ num < 2 ^ 32 → 2 ≤ radix ≤ 36 → width < 128 →
  let text := itoa_text num radix width zeropad is_signed in
  (length text < length buffer)%nat →
  itoa_padded num buffer radix width zeropad is_signed
    = Some (text ++ 0 :: drop (S (length text)) buffer).
Proof.
  intros Hnum Hr Hw text Hlen. unfold itoa_padded. unfold text, itoa_text in *. clear text.
  set (sign := is_signed && (s32 num <? 0)) in *.
  set (n := if sign then u32 (- num) else num) in *.
  assert (Hn : 0 ≤ n < radix ^ Z.of_nat max_digits).
  { pose proof (radix_pow radix Hr). pose proof (uwrap_range 32 (- num) ltac:(lia)).
    unfold n, u32. destruct sign; lia. }
  pose proof (itoa_digits_ok radix Hr max_digits n [] buffer Hn max_digits_pos) as E.
  rewrite !app_nil_l in E. change (zlen []) with 0 in E.
  remember (digits max_digits radix n) as dg eqn:Edg. clear Edg Hn. clearbody n.
  set (ds := map digit_char dg) in *.
  set (sg := if sign then [45] else []) in *. set (pad := if negb (zeropad =? 0) then 48 else 32) in *.
  rewrite length_rev, !length_app, length_replicate in Hlen.
  assert (Hds : length ds = length dg) by apply length_map.
  rewrite E by lia. cbn [mbind option_bind]. clear E. rewrite <- Hds, Z.add_0_l. set (r := drop (length ds) buffer).
  assert (Hr' : length r = (length buffer - length ds)%nat) by (unfold r; by rewrite length_drop).
  assert (E : (if sign then b ← wr (ds ++ r) (zlen ds) 45; Some (b, zlen ds + 1)
               else Some (ds ++ r, zlen ds))
              = Some ((ds ++ sg) ++ drop (length sg) r, zlen (ds ++ sg))).
  { unfold sg in *. destruct sign.
    - destruct r as [|x r]; [simpl in *; lia|]. rewrite wr_app. simpl.
      rewrite <- app_assoc, length_app. simpl. f_equal. f_equal. lia.
    - simpl. by rewrite app_nil_r. }
  rewrite E. cbn [mbind option_bind]. clear E.
  rewrite itoa_pad_ok by (rewrite ?length_drop, ?length_app in *; lia). cbn [mbind option_bind].
  set (pd := replicate _ pad) in *. set (body := (ds ++ sg) ++ pd).
  assert (Hpd : length pd = Z.to_nat (width - zlen (ds ++ sg))) by apply length_replicate.
  rewrite <- Hpd, drop_drop. rewrite app_assoc. fold body.
  assert (Hb : zlen (ds ++ sg) + zlen pd = zlen body) by (unfold body; rewrite (length_app (ds ++ sg)); lia).
  rewrite Hb. assert (Hbl : (length body < length buffer)%nat) by (unfold body; rewrite !length_app in *; lia).
  assert (Hrest : drop (length sg + length pd) r = drop (length body) buffer).
  { unfold r, body. rewrite drop_drop, !length_app. f_equal. lia. }
  rewrite Hrest. destruct (lookup_lt_is_Some_2 buffer (length body) Hbl) as [x Hx].
  rewrite (drop_S buffer x _ Hx). rewrite wr_app. cbn [mbind option_bind].
  pose proof (itoa_rev_ok (length body) (length (body ++ 0 :: drop (S (length body)) buffer))
    [] body (0 :: drop (S (length body)) buffer)) as E. rewrite !app_nil_l in E.
  change (zlen []) with 0 in E. rewrite Z.add_0_l in E.
  rewrite E by (rewrite ?length_app; lia). by rewrite length_rev.
Qed.

(** ** Reading the digits back *)

Fixpoint horner (radix acc : Z) (l : list Z) : Z :=
  match l with [] => acc | d :: l => horner radix (acc * radix + d) l end.

Lemma value_digits radix : 2 ≤ radix → ∀ fuel num,
  0 ≤ num < radix ^ Z.of_nat fuel → value radix (digits fuel radix num) = num.
Proof.
  intros Hr fuel. induction fuel as [|fuel IH]; intros num Hn; [simpl in *; lia|].
  cbn [digits]. pose proof (Z.div_mod num radix ltac:(lia)) as Hd.
  rewrite Nat2Z.inj_succ, Z.pow_succ_r in Hn by lia.
  assert (0 ≤ num / radix < radix ^ Z.of_nat fuel)
    by (split; [apply Z.div_pos; lia|apply Z.div_lt_upper_bound; lia]).
  destruct (Z.ltb_spec 0 (num / radix)); cbn [value]; [rewrite IH by done|]; lia.
Qed.

Lemma horner_app radix acc l1 l2 : horner radix acc (l1 ++ l2) = horner radix (horner radix acc l1) l2.
Proof. revert acc. induction l1; intros; simpl; auto. Qed.

Lemma horner_rev radix ds : horner radix 0 (rev ds) = value radix ds.
Proof. induction ds as [|d ds IH]; simpl; [done|]. rewrite horner_app, IH. simpl. lia. Qed.

Lemma digits_range radix fuel num : 2 ≤ radix → Forall (λ d, 0 ≤ d < radix) (digits fuel radix num).
Proof.
  intros Hr. revert num. induction fuel as [|fuel IH]; intros num; simpl; [constructor|].
  constructor; [apply Z.mod_pos_bound; lia|]. destruct (0 <? num / radix); [apply IH|constructor].
Qed.

Lemma horner_le radix l : 1 ≤ radix → Forall (λ d, 0 ≤ d < radix) l → ∀ acc,
  0 ≤ acc → acc ≤ horner radix acc l.
Proof.
  intros Hr. induction 1 as [|d l Hd _ IH]; intros acc Ha; simpl; [lia|].
  specialize (IH (acc * radix + d) ltac:(nia)). nia.
Qed.

Lemma strtol_digit_char d base : 0 ≤ d < 36 → strtol_digit (digit_char d) base = d.
Proof.
  intros Hd. unfold strtol_digit, digit_char.
  destruct (Z.ltb_spec d 10); repeat zif; rewrite ?s8_small; lia.
Qed.

(** A character that ends a number. *)
Definition ends_number (base c : Z) : Prop := base ≤ strtol_digit c base.

Lemma ends_zero base : 2 ≤ base ≤ 36 → ends_number base 0.
Proof. intros. unfold ends_number, strtol_digit. simpl. rewrite s8_small; lia. Qed.

Lemma strtol_digits_ok base l c rest : 2 ≤ base ≤ 36 → ends_number base c → Forall (λ d, 0 ≤ d < base) l → ∀ acc,
  0 ≤ acc → horner base acc l < 2 ^ 31 →
  strtol_digits (map digit_char l ++ c :: rest) acc base = Some (horner base acc l, c :: rest).
Proof.
  intros Hb Hc. induction 1 as [|d l Hd HF IH]; intros acc Ha Hlt; cbn [map app strtol_digits horner].
  - unfold ends_number in Hc. by zif; [|lia].
  - rewrite strtol_digit_char by lia. zif; [lia|].
    simpl in Hlt. pose proof (horner_le base l ltac:(lia) HF (acc * base + d) ltac:(nia)).
    rewrite (s32_small (acc * base)) by nia. rewrite s32_small by nia. apply IH; [nia|done].
Qed.

Lemma atoi_digits_ok l rest : Forall (λ d, 0 ≤ d < 10) l → ∀ acc,
  0 ≤ acc → horner 10 acc l < 2 ^ 31 →
  atoi_digits (map digit_char l ++ 0 :: rest) acc = Some (horner 10 acc l).
Proof.
  induction 1 as [|d l Hd HF IH]; intros acc Ha Hlt; cbn [map app atoi_digits horner]; [done|].
  assert (Ec : digit_char d = 48 + d) by (unfold digit_char; by zif; [|lia]). rewrite Ec.
  zif; [|lia]. simpl in Hlt.
  pose proof (horner_le 10 l ltac:(lia) HF (acc * 10 + d) ltac:(lia)).
  rewrite (s32_small (acc * 10)) by lia. replace (48 + d - 48) with d by lia.
  rewrite s32_small by lia. apply IH; [lia|done].
Qed.

Lemma digits_last radix : 2 ≤ radix → ∀ fuel num,
  0 < num < radix ^ Z.of_nat fuel → ∃ d, last (digits fuel radix num) = Some d ∧ 0 < d < radix.
Proof.
  intros Hr fuel. induction fuel as [|fuel IH]; intros num Hn; [simpl in *; lia|].
  cbn [digits]. pose proof (Z.div_mod num radix ltac:(lia)) as Hd.
  pose proof (Z.mod_pos_bound num radix ltac:(lia)).
  rewrite Nat2Z.inj_succ, Z.pow_succ_r in Hn by lia.
  assert (0 ≤ num / radix < radix ^ Z.of_nat fuel)
    by (split; [apply Z.div_pos; lia|apply Z.div_lt_upper_bound; lia]).
  destruct (Z.ltb_spec 0 (num / radix)).
  - destruct (IH (num / radix) ltac:(lia)) as (d & E & Hdr). exists d. split; [|done].
    rewrite last_cons, E. done.
  - exists (num mod radix). split; [done|]. lia.
Qed.

Lemma digits_length radix fuel num : (length (digits fuel radix num) ≤ fuel)%nat.
Proof.
  revert num. induction fuel as [|fuel IH]; intros num; simpl; [lia|].
  destruct (0 <? num / radix); simpl; [|lia]. specialize (IH (num / radix)). lia.
Qed.

(** The digits of a positive number, most significant first. *)
Lemma digits_msd radix num :
  2 ≤ radix ≤ 36 → 0 < num < 2 ^ 32 →
  ∃ d l, rev (digits max_digits radix num) = d :: l ∧ 0 < d < radix ∧ Forall (λ d, 0 ≤ d < radix) l ∧
    horner radix 0 (d :: l) = num ∧ (length l < max_digits)%nat.
Proof.
  intros Hr Hn. pose proof (radix_pow radix Hr).
  destruct (digits_last radix ltac:(lia) max_digits num ltac:(lia)) as (d & E & Hd).
  apply last_Some in E as [l E]. exists d, (rev l). rewrite E, rev_app_distr.
  split; [done|]. split; [done|].
  pose proof (digits_range radix max_digits num ltac:(lia)) as HF. rewrite E in HF.
  apply Forall_app in HF as [HF _]. split; [by apply Forall_rev|].
  split; [|pose proof (digits_length radix max_digits num) as Hl; rewrite E, length_app in Hl;
           rewrite length_rev; simpl in Hl; lia].
  rewrite <- (value_digits radix ltac:(lia) max_digits num) by lia. rewrite E, <- horner_rev, rev_app_distr. done.
Qed.

(** The text of itoa for a zero, a positive and a negative number. *)
Lemma itoa_text_pos num radix :
  0 ≤ num < 2 ^ 31 → itoa_text num radix 0 0 (radix =? 10) = map digit_char (rev (digits max_digits radix num)).
Proof.
  intros Hn. unfold itoa_text. rewrite s32_small by lia. destruct (Z.ltb_spec num 0); [lia|].
  rewrite andb_false_r, app_nil_r.
  replace (Z.to_nat (0 - zlen (map digit_char (digits max_digits radix num)))) with 0%nat by lia.
  rewrite app_nil_r. by rewrite map_rev.
Qed.

Lemma itoa_text_neg n :
  - 2 ^ 31 < n < 0 → itoa_text (u32 n) 10 0 0 true = 45 :: map digit_char (rev (digits max_digits 10 (- n))).
Proof.
  intros Hn. assert (Hu : u32 n = n + 2 ^ 32).
  { unfold u32, uwrap. symmetry. apply (Z.mod_unique _ _ (-1)); lia. }
  assert (Hs : s32 (u32 n) = n).
  { rewrite Hu. unfold s32, swrap. replace (n + 2 ^ 32 + 2 ^ (32 - 1)) with (n + 2 ^ 31 + 1 * 2 ^ 32) by lia.
    rewrite Z.mod_add, Z.mod_small by lia. lia. }
  assert (Hneg : u32 (- u32 n) = - n).
  { rewrite Hu. unfold u32, uwrap. symmetry. apply (Z.mod_unique _ _ (-1)); lia. }
  unfold itoa_text. rewrite Hs, Hneg. destruct (Z.ltb_spec n 0); [|lia]. simpl andb. cbv iota.
  set (ds := map digit_char (digits max_digits 10 (- n))).
  replace (Z.to_nat (0 - zlen (ds ++ [45]))) with 0%nat by lia.
  rewrite app_nil_r, rev_app_distr. simpl. unfold ds. by rewrite map_rev.
Qed.

(** Reading a positive number's text, after the blanks and the sign. *)
Lemma read_positive radix num e rest :
  2 ≤ radix ≤ 36 → 0 < num < 2 ^ 31 → ends_number radix e →
  ∃ c t, map digit_char (rev (digits max_digits radix num)) ++ e :: rest = c :: t ∧
    is_blank c = false ∧ c ≠ 45 ∧ c ≠ 48 ∧
    strtol_digits (c :: t) 0 radix = Some (num, e :: rest).
Proof.
  intros Hr Hn He. destruct (digits_msd radix num Hr ltac:(lia)) as (d & l & E & Hd & HF & Hh & _).
  rewrite E. cbn [map app]. eexists _, _. split; [done|].
  assert (Hc : 48 < digit_char d < 128) by (unfold digit_char; zif; lia).
  unfold is_blank. split; [lia|]. split; [lia|]. split; [lia|].
  rewrite <- Hh. apply (strtol_digits_ok radix (d :: l) e rest Hr He); [by constructor; [lia|]|lia|lia].
Qed.

(** The same with atoi. *)
Lemma read_decimal num rest :
  0 < num < 2 ^ 31 → atoi_digits (map digit_char (rev (digits max_digits 10 num)) ++ 0 :: rest) 0 = Some num.
Proof.
  intros Hn. destruct (digits_msd 10 num ltac:(lia) ltac:(lia)) as (d & l & E & Hd & HF & Hh & _). rewrite E, <- Hh.
  apply atoi_digits_ok; [by constructor; [lia|]|lia|lia].
Qed.

Lemma itoa_text_zero radix : 2 ≤ radix ≤ 36 → itoa_text (u32 0) radix 0 0 (radix =? 10) = [48].
Proof.
  intros. change (u32 0) with 0. rewrite itoa_text_pos by lia. rewrite max_digits_32. cbn [digits].
  rewrite Z.mod_0_l, Z.div_0_l by lia. done.
Qed.

(** After a zero the base is 8, or 16 if there is an x. *)
Lemma ends_octal base e : 10 ≤ base ≤ 36 → ends_number base e → ends_number 8 e.
Proof.
  unfold ends_number, strtol_digit. intros Hb. repeat zif; rewrite ?s8_small by lia; lia.
Qed.

(** strtol reads the text of itoa, up to a character that ends it. *)
Lemma strtol_text n radix e rest :
  - 2 ^ 31 < n < 2 ^ 31 → 2 ≤ radix ≤ 36 → (n < 0 → radix = 10) → ends_number radix e → ends_number 8 e → (n = 0 → e ≠ 120) →
  strtol (itoa_text (u32 n) radix 0 0 (radix =? 10) ++ e :: rest) radix = Some (n, e :: rest).
Proof.
  intros Hn Hr Hneg He He8 Hx. destruct (Z.lt_trichotomy n 0) as [Hlt|[->|Hgt]].
  - rewrite (Hneg Hlt) in *. simpl Z.eqb. rewrite itoa_text_neg by lia.
    destruct (read_positive 10 (- n) e rest ltac:(lia) ltac:(lia) He) as (c & t & E & _ & _ & _ & Es).
    unfold strtol. rewrite <- app_comm_cons, E. cbn [skip_blanks is_blank Z.eqb orb mbind option_bind head tail].
    simpl. simpl in Es. rewrite Es. simpl. rewrite s32_small by lia. do 2 f_equal. lia.
  - rewrite itoa_text_zero by done. unfold strtol. cbn [app skip_blanks is_blank Z.eqb orb mbind option_bind head tail lookup list_lookup].
    simpl. destruct (Z.eqb_spec e 120); [by destruct Hx|]. simpl.
    pose proof (strtol_digits_ok 8 [] e rest ltac:(lia) He8 ltac:(constructor) 0 ltac:(lia) ltac:(simpl; lia)) as Es. cbn [map app horner] in Es. simpl in Es. rewrite Es. done.
  - rewrite u32_small, itoa_text_pos by lia.
    destruct (read_positive radix n e rest Hr ltac:(lia) He) as (c & t & E & Hb & H45 & H48 & Es).
    rewrite E. unfold strtol. cbn [skip_blanks]. rewrite Hb. cbn [mbind option_bind head].
    destruct (Z.eqb_spec c 45); [done|]. destruct (Z.eqb_spec c 48); [done|].
    cbn [mbind option_bind]. rewrite Es. cbn [mbind option_bind]. by rewrite Z.mul_1_r, s32_small by lia.
Qed.

(** And so does atoi in base 10. *)
Lemma atoi_text n rest : - 2 ^ 31 < n < 2 ^ 31 → atoi (itoa_text (u32 n) 10 0 0 true ++ 0 :: rest) = Some n.
Proof.
  intros Hn. destruct (Z.lt_trichotomy n 0) as [Hlt|[->|Hgt]].
  - rewrite itoa_text_neg by lia. unfold atoi. rewrite <- app_comm_cons. cbn [skip_blanks is_blank Z.eqb orb mbind option_bind head tail].
    simpl. pose proof (read_decimal (- n) rest ltac:(lia)) as E. simpl in E. rewrite E. simpl. f_equal. rewrite s32_small by lia. lia.
  - pose proof (itoa_text_zero 10 ltac:(lia)) as E. change (10 =? 10) with true in E. by rewrite E.
  - rewrite u32_small by lia. pose proof (itoa_text_pos n 10 ltac:(lia)) as Et. change (10 =? 10) with true in Et. rewrite Et. pose proof (read_decimal n rest ltac:(lia)) as Ea.
    destruct (read_positive 10 n 0 rest ltac:(lia) ltac:(lia) (ends_zero 10 ltac:(lia))) as (c & t & E & Hb & H45 & _).
    rewrite E in *. unfold atoi. cbn [skip_blanks]. rewrite Hb. cbn [mbind option_bind head]. destruct (Z.eqb_spec c 45); [done|].
    rewrite Ea. cbn [mbind option_bind]. by rewrite Z.mul_1_r, s32_small by lia.
Qed.

(** C36: what itoa writes strtol reads back, for every number of type int
    (except the smallest) in base 10 and every non-negative one in any base
    up to 36, and so does atoi in base 10; the rest of the buffer is kept. *)
Theorem itoa_roundtrip n radix buffer :
  - 2 ^ 31 < n < 2 ^ 31 → 2 ≤ radix ≤ 36 → (n < 0 → radix = 10) → (34 ≤ length buffer)%nat →
  ∃ b rest, itoa (u32 n) buffer radix = Some b ∧ length b = length buffer ∧
    strtol b radix = Some (n, 0 :: rest) ∧ (radix = 10 → atoi b = Some n).
Proof.
  intros Hn Hr Hneg Hlen. unfold itoa.
  set (text := itoa_text (u32 n) radix 0 0 (radix =? 10)).
  assert (Htl : (length text ≤ 33)%nat).
  { pose proof (digits_length radix max_digits n). pose proof (digits_length 10 max_digits (- n)).
    pose proof max_digits_32.
    unfold text. destruct (Z.lt_ge_cases n 0) as [Hlt|Hge].
    - rewrite (Hneg Hlt). rewrite itoa_text_neg by lia. simpl length. rewrite length_map, length_rev. lia.
    - rewrite u32_small by lia. rewrite itoa_text_pos by lia. rewrite length_map, length_rev. lia. }
  rewrite itoa_padded_ok by (try apply (uwrap_range 32); fold text; lia). fold text.
  set (rest := drop (S (length text)) buffer). exists (text ++ 0 :: rest), rest. split; [done|].
  split; [unfold rest; rewrite length_app; simpl; rewrite length_drop; lia|]. unfold text in *. clear text Htl.
  split; [apply strtol_text; try done; by apply ends_zero|]. intros ->. by apply atoi_text.
Qed.

Lemma itoa_roundtrip_witness :
  ∃ b rest, itoa (u32 (-1205)) (replicate 40 7) 10 = Some b ∧ length b = 40%nat ∧
    strtol b 10 = Some (-1205, 0 :: rest) ∧ (10 = 10 → atoi b = Some (-1205)).
Proof. apply (itoa_roundtrip (-1205) 10 (replicate 40 7)); [lia|lia|lia|simpl; lia]. Defined.

(** A leading zero selects base 8 whatever base was asked for. *)
Lemma strtol_octal : strtol [48; 56; 0] 10 = Some (0, [56; 0]).
Proof. reflexivity. Qed.
