(* ===== verification/Printf.v ===== *)
(** * Printf: formatted output and input (libc/common/stdio/vsnprintf.c, vsscanf.c, kernel/utils/printk.c)

    A format is a string as in [Cstring], the rest of it that is still to be
    read; the buffer is an array that is written by index.  The arguments are
    the list that va_arg takes from: a 32 bit word, a 64 bit word or a pointer
    to a string; taking an argument of another type is undefined.  What vsscanf
    stores through its pointers is a list.

    vsnprintf writes the text that the format asks for ([render]) when there is
    room for it, and decimal numbers that it prints come back from vsscanf. *)

From S2P Require Import Prelude Cstring Numconv.

Inductive arg := ArgInt (d : Z) | ArgLong (d : Z) | ArgStr (s : list Z).

(** ** Conversion specifications *)

Record spec := Spec {
  sp_zeropad : bool;
  sp_numprefix : bool;
  sp_width : Z;
  sp_length : Z;
  sp_type : Z;
}.

(** A number at the beginning of [f], as a char. *)
Definition parse_width (f : list Z) : option (Z * list Z) :=
  c ← head f;
  if isdigit c then '(w, endptr) ← strtol f 10; Some (s8 w, endptr) else Some (0, f).

(** sizeof(unsigned int), or that of the type that the letters say. *)
Definition parse_length (f : list Z) : option (Z * list Z) :=
  c ← head f;
  if c =? 104 then d ← f !! 1%nat; if d =? 104 then Some (1, drop 2 f) else Some (2, drop 1 f)
  else if c =? 108 then d ← f !! 1%nat; if d =? 108 then Some (8, drop 2 f) else Some (4, drop 1 f)
  else Some (4, f).

(** What follows a percent sign, and the format after it. *)
Definition parse_spec (f : list Z) : option (spec * list Z) :=
  c ← head f;
  let '(zeropad, numprefix, f) := if c =? 48 then (true, false, tail f) else if c =? 35 then (false, true, tail f) else (false, false, f) in
  '(width, f) ← parse_width f;
  '(len, f) ← parse_length f;
  type ← head f;
  Some (Spec zeropad numprefix width len type, tail f).

(** ** vsnprintf *)

Definition is_hex (t : Z) : bool := (t =? 120) || (t =? 88) || (t =? 112).
Definition is_signed (t : Z) : bool := (t =? 100) || (t =? 105).
Definition is_number (t : Z) : bool := is_hex t || is_signed t || (t =? 117) || (t =? 111).
Definition type_radix (t : Z) : Z := if is_hex t then 16 else if t =? 111 then 8 else 10.

(** The characters that go before a number. *)
Definition number_prefix (sp : spec) (d : Z) : list Z :=
  if sp_numprefix sp && negb (d =? 0) then if is_hex (sp_type sp) then [48; 120] else if sp_type sp =? 111 then [48] else [] else [].

(** The words of a variadic argument list. *)
Definition va_number (sp : spec) (args : list arg) : option (Z * list arg) :=
  match args with
  | ArgInt d :: args => if sp_length sp <=? 4 then Some (d, args) else None
  | ArgLong d :: args => if sp_length sp <=? 4 then None else Some (d, args)
  | _ => None
  end.

(** One conversion into [buffer] at [i]. *)
Definition format_arg (sp : spec) (buffer : list Z) (n i : Z) (args : list arg) : option (list Z * Z * list arg) :=
  if sp_type sp =? 115 then
    match args with
    | ArgStr s :: args =>
        len ← strlen s;
        suffix ← strncpy (drop (Z.to_nat i) buffer) s (Z.to_nat (u32 (n - i - 1)));
        Some (take (Z.to_nat i) buffer ++ suffix, i + len, args)
    | _ => None
    end
  else if is_number (sp_type sp) then
    '(d, args) ← va_number sp args;
    let prefix := number_prefix sp d in
    buffer ← wr_range buffer i prefix;
    let i := i + zlen prefix in
    suffix ← itoa_padded (u32 d) (drop (Z.to_nat i) buffer) (type_radix (sp_type sp)) (sp_width sp) (Z.b2z (sp_zeropad sp)) (is_signed (sp_type sp));
    len ← strlen suffix;
    Some (take (Z.to_nat i) buffer ++ suffix, i + len, args)
  else if sp_type sp =? 99 then
    match args with
    | ArgInt c :: args => buffer ← wr buffer i (u8 c); Some (buffer, i + 1, args)
    | _ => None
    end
  else Some (buffer, i, args).

Fixpoint vsnprintf_loop (fuel : nat) (buffer : list Z) (n : Z) (f : list Z) (args : list arg) (i : Z) : option (list Z * Z) :=
  match fuel with
  | O => None
  | S fuel =>
      if i <? u32 (n - 1) then
        c ← head f;
        if c =? 0 then Some (buffer, i)
        else if c =? 37 then
          '(sp, f) ← parse_spec (tail f);
          '(buffer, i, args) ← format_arg sp buffer n i args;
          vsnprintf_loop fuel buffer n f args i
        else buffer ← wr buffer i c; vsnprintf_loop fuel buffer n (tail f) args (i + 1)
      else Some (buffer, i)
  end.

(** Every turn of the loop takes at least one character of the format. *)
Definition vsnprintf (buffer : list Z) (n : Z) (fmt : list Z) (args : list arg) : option (list Z * Z) :=
  '(buffer, i) ← vsnprintf_loop (S (length fmt)) buffer n fmt args 0;
  buffer ← wr buffer i 0;
  Some (buffer, i).

(** ** printk *)

Definition PRINTK_BUFFER : nat := 512.

(** What goes to the console, and the number of characters.  [buffer] is the
    array on the stack, with what was there before. *)
Fixpoint put_all (n : nat) (buffer : list Z) : list Z :=
  match n, buffer with
  | S n, c :: buffer => if c =? 0 then [] else c :: put_all n buffer
  | _, _ => []
  end.
Definition vprintk (buffer fmt : list Z) (args : list arg) : option (list Z * Z) :=
  '(buffer, _) ← vsnprintf buffer (Z.of_nat PRINTK_BUFFER) fmt args;
  let out := put_all PRINTK_BUFFER buffer in Some (out, zlen out).

(** ** vsscanf *)

(** What is stored: a number of so many bytes, a string with its terminator,
    or characters. *)
Inductive scanned := ScanNumber (bytes value : Z) | ScanStr (s : list Z) | ScanChars (s : list Z).

Record scan_spec := ScanSpec {
  sc_ignore : bool;
  sc_width : Z;
  sc_length : Z;
  sc_type : Z;
}.

Definition parse_scan_spec (f : list Z) : option (scan_spec * list Z) :=
  c ← head f;
  let '(ignore, f) := if c =? 42 then (true, tail f) else (false, f) in
  '(width, f) ← parse_width f;
  '(len, f) ← parse_length f;
  type ← head f;
  Some (ScanSpec ignore width len type, tail f).

(** The characters from [i] up to the next space, which there has to be. *)
Fixpoint take_word (s : list Z) : option (list Z) :=
  match s with
  | [] => None
  | c :: s => if isspace c then Some [] else w ← take_word s; Some (c :: w)
  end.

Fixpoint skip_space (s : list Z) : option (list Z) :=
  match s with
  | [] => None
  | c :: s' => if isspace c then skip_space s' else Some s
  end.

(** One conversion of [str] at [i]: the new position and what is stored, or
    [None] inside if vsscanf returns at once. *)
Definition scan_arg (sp : scan_spec) (str : list Z) (i : Z) : option (option (Z * list scanned)) :=
  let t := sc_type sp in
  if (t =? 105) || (t =? 100) || (t =? 120) || (t =? 88) then
    '(number, endptr) ← strtol (drop (Z.to_nat i) str) (if (t =? 100) || (t =? 105) then 10 else 16);
    let i := zlen str - zlen endptr in
    if sc_ignore sp then Some (Some (i, []))
    else if (sc_length sp =? 2) || (sc_length sp =? 4) || (sc_length sp =? 8)
    then Some (Some (i, [ScanNumber (sc_length sp) (uwrap (8 * sc_length sp) number)]))
    else Some None
  else if t =? 115 then
    w ← take_word (drop (Z.to_nat i) str);
    Some (Some (i + zlen w, if sc_ignore sp then [] else [ScanStr (w ++ [0])]))
  else if t =? 99 then
    let width := if sc_width sp =? 0 then 1 else sc_width sp in
    if sc_ignore sp then Some (Some (i + width, []))
    else
      cs ← rd_range str i (u8 width);
      Some (Some (i + u8 width, [ScanChars cs]))
  else Some None.

Fixpoint vsscanf_loop (fuel : nat) (str f : list Z) (i count : Z) (out : list scanned) : option (Z * list scanned) :=
  match fuel with
  | O => None
  | S fuel =>
      c ← head f;
      if c =? 0 then Some (count, out)
      else
        d ← rd str i;
        if d =? 0 then Some (count, out)
        else if c =? 37 then
          '(sp, f) ← parse_scan_spec (tail f);
          r ← scan_arg sp str i;
          match r with
          | None => Some (count, out)
          | Some (i, o) => vsscanf_loop fuel str f i (count + 1) (out ++ o)
          end
        else if isspace c then
          s ← skip_space (drop (Z.to_nat i) str);
          vsscanf_loop fuel str (tail f) (zlen str - zlen s) count out
        else if c =? d then vsscanf_loop fuel str (tail f) (i + 1) count out
        else Some (count, out)
  end.

Definition vsscanf (str fmt : list Z) : option (Z * list scanned) := vsscanf_loop (S (length fmt)) str fmt 0 0 [].

(** ** What is printed *)

(** A format with its arguments: characters and conversions. *)
Inductive item := Lit (c : Z) | Conv (sp : spec) (a : arg).

Definition arg_text (sp : spec) (a : arg) : list Z :=
  match a with
  | ArgStr s => default [] (cstr s)
  | ArgInt d | ArgLong d =>
      if is_number (sp_type sp)
      then number_prefix sp d ++ itoa_text (u32 d) (type_radix (sp_type sp)) (sp_width sp) (Z.b2z (sp_zeropad sp)) (is_signed (sp_type sp))
      else [u8 d]
  end.
Definition render (its : list item) : list Z := its ≫= λ it, match it with Lit c => [c] | Conv sp a => arg_text sp a end.

Definition show_length (len : Z) : list Z := if len =? 1 then [104; 104] else if len =? 2 then [104] else if len =? 8 then [108; 108] else [].
Definition show_width (w : Z) : list Z := if w =? 0 then [] else itoa_text (u32 w) 10 0 0 true.
Definition show_spec (sp : spec) : list Z :=
  (if sp_zeropad sp then [48] else if sp_numprefix sp then [35] else []) ++ show_width (sp_width sp) ++ show_length (sp_length sp) ++ [sp_type sp].
Definition show (its : list item) : list Z := its ≫= λ it, match it with Lit c => [c] | Conv sp _ => 37 :: show_spec sp end.
Definition args_of (its : list item) : list arg := its ≫= λ it, match it with Lit _ => [] | Conv _ a => [a] end.

Definition spec_ok (sp : spec) : Prop :=
  0 ≤ sp_width sp < 128 ∧ sp_length sp ∈ [1; 2; 4; 8] ∧ sp_zeropad sp && sp_numprefix sp = false.
(** The type goes with the argument. *)
Definition arg_ok (sp : spec) (a : arg) : Prop :=
  match a with
  | ArgStr s => sp_type sp = 115 ∧ is_Some (cstr s)
  | ArgInt _ => is_number (sp_type sp) = true ∧ sp_length sp ≤ 4 ∨ sp_type sp = 99
  | ArgLong _ => is_number (sp_type sp) = true ∧ sp_length sp = 8
  end.
Definition item_ok (it : item) : Prop :=
  match it with Lit c => c ≠ 0 ∧ c ≠ 37 | Conv sp a => spec_ok sp ∧ arg_ok sp a end.

(** ** Reading the format *)

Lemma ends_10 c : isdigit c = false → 10 ≤ strtol_digit c 10.
Proof. unfold isdigit, between, strtol_digit. intros E. rewrite E. repeat zif; rewrite ?s8_small by lia; lia. Qed.

Lemma parse_width_ok w c rest : 0 ≤ w < 128 → isdigit c = false → parse_width (show_width w ++ c :: rest) = Some (w, c :: rest).
Proof.
  intros Hw Hc. unfold show_width. destruct (Z.eqb_spec w 0) as [->|Hne]; [unfold parse_width; cbn [app head]; by rewrite bind_some, Hc|].
  pose proof (strtol_text w 10 c rest ltac:(lia) ltac:(lia) ltac:(lia) (ends_10 c Hc) (ends_octal 10 c ltac:(lia) (ends_10 c Hc)) ltac:(lia)) as Es. change (10 =? 10) with true in Es.
  unfold parse_width. assert (Hd : ∃ d t, itoa_text (u32 w) 10 0 0 true = d :: t ∧ isdigit d = true).
  { pose proof (itoa_text_pos w 10 ltac:(lia)) as Et. change (10 =? 10) with true in Et. rewrite u32_small, Et by lia. destruct (digits_msd 10 w ltac:(lia) ltac:(lia)) as (d & l & -> & Hd & _). cbn [map].
    eexists _, _. split; [done|]. unfold isdigit, between, digit_char. zif; lia. }
  destruct Hd as (d & t & Et & Hd). rewrite Et in *. cbn [app head] in *. rewrite bind_some, Hd, Es, bind_some. by rewrite s8_small by lia.
Qed.

Definition type_char (t : Z) : bool := is_number t || (t =? 115) || (t =? 99).
Lemma type_char_cases t : type_char t = true → 88 ≤ t ≤ 120 ∧ t ≠ 104 ∧ t ≠ 108.
Proof. unfold type_char, is_number, is_hex, is_signed. lia. Qed.

Lemma parse_length_ok len t rest : len ∈ [1; 2; 4; 8] → t ≠ 104 → t ≠ 108 → parse_length (show_length len ++ t :: rest) = Some (len, t :: rest).
Proof.
  intros Hl H1 H2. unfold parse_length. rewrite !elem_of_cons in Hl. destruct Hl as [->|[->|[->|[->|Hl%elem_of_nil]]]]; [done| | |done|done]; cbn [show_length Z.eqb Pos.eqb app head].
  - rewrite bind_some. cbn. by destruct (Z.eqb_spec t 104).
  - rewrite bind_some. by destruct (Z.eqb_spec t 104), (Z.eqb_spec t 108).
Qed.

(** The first character after the width. *)
Lemma show_length_head len t : type_char t = true → ∃ c r, show_length len ++ [t] = c :: r ∧ isdigit c = false ∧ c ≠ 48 ∧ c ≠ 35.
Proof.
  intros Ht. apply type_char_cases in Ht. unfold show_length, isdigit, between. destruct (len =? 1), (len =? 2), (len =? 8); eexists _, _; (split; [done|]); lia.
Qed.

Lemma show_width_head w c rest : 0 ≤ w < 128 → isdigit c = false → c ≠ 35 → ∃ d t, show_width w ++ c :: rest = d :: t ∧ d ≠ 48 ∧ d ≠ 35.
Proof.
  intros Hw Hc Hn. unfold show_width. destruct (Z.eqb_spec w 0) as [->|Hne]; [exists c, rest; split; [done|]; split; [by intros ->|done]|].
  pose proof (itoa_text_pos w 10 ltac:(lia)) as Et. change (10 =? 10) with true in Et. rewrite u32_small, Et by lia. destruct (digits_msd 10 w ltac:(lia) ltac:(lia)) as (d & l & -> & Hd & _). cbn [map].
  eexists _, _. split; [done|]. unfold digit_char. zif; lia.
Qed.

Lemma parse_spec_ok sp rest : spec_ok sp → type_char (sp_type sp) = true → parse_spec (show_spec sp ++ rest) = Some (sp, rest).
Proof.
  destruct sp as [zp np w len t]. intros (Hw & Hl & Hz) Ht. cbn [sp_width sp_length sp_zeropad sp_numprefix sp_type] in *. pose proof (type_char_cases t Ht) as (Hr & H1 & H2).
  unfold show_spec. cbn [sp_width sp_length sp_zeropad sp_numprefix sp_type]. destruct (show_length_head len t Ht) as (c & r & Ec & Hc & _ & Hc35).
  assert (El : parse_length ((show_length len ++ [t]) ++ rest) = Some (len, t :: rest)) by (rewrite <- app_assoc; by apply parse_length_ok).
  rewrite Ec in El. assert (Ew : parse_width (show_width w ++ (c :: r) ++ rest) = Some (w, (c :: r) ++ rest)) by (by apply parse_width_ok).
  assert (Ef : (w0 ← parse_width (show_width w ++ (c :: r) ++ rest); let '(width, f) := w0 in '(l, f) ← parse_length f; type ← head f; Some (Spec zp np width l type, tail f)) = Some (Spec zp np w len t, rest))
    by (by rewrite Ew, bind_some, El, bind_some).
  destruct (show_width_head w c (r ++ rest) Hw Hc Hc35) as (d & u & Ed & Hd48 & Hd35). rewrite Ec, <- !app_assoc. cbn [app] in Ef, Ed. unfold parse_spec.
  destruct zp, np; try done; cbn [app head tail Z.eqb Pos.eqb]; rewrite ?bind_some; try exact Ef. rewrite Ed at 1. cbn [head]. rewrite bind_some. replace (d =? 48) with false by lia. replace (d =? 35) with false by lia. exact Ef.
Qed.

(** ** Writing the text *)

Lemma itoa_text_nonzero num radix width zeropad sg : 2 ≤ radix → nonzero (itoa_text num radix width zeropad sg).
Proof.
  intros Hr. unfold itoa_text, nonzero. cbv zeta. set (n := if _ : bool then _ else _). clearbody n. apply Forall_rev, Forall_app. split; [apply Forall_app; split|].
  - apply Forall_map. eapply Forall_impl; [exact (digits_range radix max_digits n Hr)|]. intros d Hd. cbn beta in *. unfold digit_char. zif; lia.
  - destruct (sg && _); [by constructor|constructor].
  - apply Forall_replicate. by destruct (negb _).
Qed.

Lemma cstr_text l r : nonzero l → cstr (l ++ 0 :: r) = Some l.
Proof. induction 1 as [|c l Hc Hl IH]; [done|]. cbn [app cstr]. destruct (Z.eqb_spec c 0); [done|]. by rewrite IH. Qed.

Lemma strlen_app l r : nonzero l → zlen l < 2 ^ 31 → strlen (l ++ 0 :: r) = Some (zlen l).
Proof. intros Hl Hn. destruct (strlen_ok (l ++ 0 :: r) l 0 (cstr_text l r Hl) ltac:(lia)) as [E _]. exact E. Qed.

Lemma take_drop_app (pre suf : list Z) : take (Z.to_nat (zlen pre)) (pre ++ suf) = pre ∧ drop (Z.to_nat (zlen pre)) (pre ++ suf) = suf.
Proof. rewrite Nat2Z.id. by rewrite take_app_length, drop_app_length. Qed.

Lemma wr_range_app (pre suf l : list Z) : (length l ≤ length suf)%nat → wr_range (pre ++ suf) (zlen pre) l = Some ((pre ++ l) ++ drop (length l) suf).
Proof.
  intros Hl. rewrite wr_range_ok by (rewrite ?length_app; lia). f_equal. unfold splice. rewrite Nat2Z.id, take_app_length, drop_app_add, app_assoc. done.
Qed.

(** The text of a conversion goes to [suf], and only there. *)
Lemma format_arg_ok sp a args pre suf n : spec_ok sp → arg_ok sp a → 0 ≤ n < 2 ^ 31 → zlen pre + zlen (arg_text sp a) < n → n ≤ zlen (pre ++ suf) →
  ∃ suf', format_arg sp (pre ++ suf) n (zlen pre) (a :: args) = Some ((pre ++ arg_text sp a) ++ suf', zlen (pre ++ arg_text sp a), args) ∧
    length (arg_text sp a ++ suf') = length suf.
Proof.
  intros (Hw & Hl & _) Ha Hn Hfit Hlen. rewrite length_app in Hlen.
  assert (Hnum : ∀ d, is_number (sp_type sp) = true → va_number sp (a :: args) = Some (d, args) → arg_text sp a = number_prefix sp d ++ itoa_text (u32 d) (type_radix (sp_type sp)) (sp_width sp) (Z.b2z (sp_zeropad sp)) (is_signed (sp_type sp)) →
    ∃ suf', format_arg sp (pre ++ suf) n (zlen pre) (a :: args) = Some ((pre ++ arg_text sp a) ++ suf', zlen (pre ++ arg_text sp a), args) ∧ length (arg_text sp a ++ suf') = length suf).
  { intros d Hd Hva Et. unfold format_arg. replace (sp_type sp =? 115) with false by (unfold is_number, is_hex, is_signed in Hd; lia). rewrite Hd, Hva, bind_some.
    set (pf := number_prefix sp d) in *. set (tx := itoa_text _ _ _ _ _) in *. rewrite Et, length_app in Hfit.
    rewrite wr_range_app by lia. rewrite bind_some. replace (zlen pre + zlen pf) with (zlen (pre ++ pf)) by (rewrite length_app; lia).
    destruct (take_drop_app (pre ++ pf) (drop (length pf) suf)) as [-> ->]. assert (Hr : 2 ≤ type_radix (sp_type sp) ≤ 36) by (unfold type_radix; destruct (is_hex _); [lia|destruct (_ =? _); lia]).
    rewrite itoa_padded_ok; [|apply (uwrap_range 32); lia|done|lia|fold tx; rewrite length_drop; lia]. fold tx. rewrite bind_some.
    rewrite strlen_app; [|apply itoa_text_nonzero; lia|lia]. rewrite bind_some. eexists (0 :: drop (S (length tx)) (drop (length pf) suf)). rewrite Et. split.
    - f_equal. f_equal. f_equal; [by rewrite <- !app_assoc|]. rewrite !length_app. lia.
    - rewrite !length_app. cbn [length]. rewrite !length_drop. lia. }
  destruct a as [d|d|s]; cbn [arg_ok] in Ha.
  - destruct Ha as [[Hd Hl4]|Hc]; [apply (Hnum d Hd); [cbn [va_number]; by replace (sp_length sp <=? 4) with true by lia|by cbn [arg_text]; rewrite Hd]|].
    unfold format_arg. cbn [arg_text] in *. rewrite Hc in *. cbn [Z.eqb Pos.eqb is_number is_hex is_signed orb] in *. destruct suf as [|x suf]; [simpl in *; lia|]. rewrite wr_app, bind_some. exists suf.
    split; [|done]. rewrite <- app_assoc. f_equal. f_equal. f_equal. rewrite length_app. simpl. lia.
  - destruct Ha as [Hd H8]. apply (Hnum d Hd); [cbn [va_number]; by rewrite H8|by cbn [arg_text]; rewrite Hd].
  - destruct Ha as [Ht [l Es]]. unfold format_arg. cbn [arg_text] in *. rewrite Es in *. unfold default, id in *. rewrite Ht. cbn [Z.eqb Pos.eqb].
    destruct (strlen_ok s l 0 Es ltac:(lia)) as [-> _]. rewrite bind_some. destruct (take_drop_app pre suf) as [-> ->]. rewrite u32_small by lia.
    rewrite (strncpy_spec _ _ l) by (done || lia). rewrite bind_some. rewrite take_ge by lia. eexists (replicate _ 0 ++ drop _ suf). split; [rewrite <- app_assoc; f_equal; f_equal; f_equal; rewrite length_app; lia|].
    rewrite !length_app, length_replicate, length_drop. lia.
Qed.

Lemma arg_type sp a : arg_ok sp a → type_char (sp_type sp) = true.
Proof. unfold type_char. destruct a; cbn [arg_ok]; [intros [[-> _]| ->]|intros [-> _]|intros [-> _]]; done. Qed.

Lemma vsnprintf_loop_ok its junk n : Forall item_ok its → 0 ≤ n < 2 ^ 31 → ∀ fuel pre suf, (length (show its) < fuel)%nat → zlen pre + zlen (render its) < n → n ≤ zlen (pre ++ suf) →
  ∃ suf', vsnprintf_loop fuel (pre ++ suf) n (show its ++ 0 :: junk) (args_of its) (zlen pre) = Some ((pre ++ render its) ++ suf', zlen (pre ++ render its)) ∧ length (render its ++ suf') = length suf.
Proof.
  intros Hits Hn. induction Hits as [|it its Hit Hits IH]; intros fuel pre suf Hf Hfit Hlen; (destruct fuel as [|fuel]; [lia|]).
  - exists suf. cbn [render mbind list_bind show vsnprintf_loop app]. rewrite app_nil_r. split; [|done]. by destruct (_ <? _).
  - change (show (it :: its)) with ((match it with Lit c => [c] | Conv sp _ => 37 :: show_spec sp end) ++ show its) in *. change (args_of (it :: its)) with ((match it with Lit _ => [] | Conv _ a => [a] end) ++ args_of its).
    change (render (it :: its)) with ((match it with Lit c => [c] | Conv sp a => arg_text sp a end) ++ render its) in *. rewrite !length_app in Hf, Hfit. cbn [vsnprintf_loop].
    rewrite u32_small by lia. destruct (Z.ltb_spec (zlen pre) (n - 1)) as [Hlt|Hge].
    2: { assert (E : (match it with Lit c => [c] | Conv sp a => arg_text sp a end) ++ render its = []) by (apply length_zero_iff_nil; rewrite length_app; lia). rewrite E, app_nil_r. by exists suf. }
    destruct it as [c|sp a].
    + destruct Hit as [H0 H37]. cbn [app head tail]. rewrite bind_some. replace (c =? 0) with false by lia. replace (c =? 37) with false by lia. cbn [length] in Hf, Hfit. rewrite length_app in Hlen.
      destruct suf as [|x suf]; [simpl in Hlen; lia|]. rewrite wr_app, bind_some. destruct (IH fuel (pre ++ [c]) suf) as (suf' & E & El); [lia|rewrite length_app; simpl; lia|rewrite !length_app; simpl in *; lia|].
      rewrite <- !app_assoc in E. cbn [app] in E. replace (zlen pre + 1) with (zlen (pre ++ [c])) by (rewrite length_app; simpl; lia). rewrite E. exists suf'. rewrite <- !app_assoc. cbn [app]. split; [done|]. simpl. by rewrite El.
    + destruct Hit as [Hsp Ha]. cbn [app head tail]. rewrite bind_some. cbn [Z.eqb Pos.eqb]. rewrite <- app_assoc, parse_spec_ok by (done || by eapply arg_type). rewrite bind_some.
      destruct (format_arg_ok sp a (args_of its) pre suf n Hsp Ha Hn ltac:(lia) Hlen) as (s1 & -> & El1). rewrite bind_some. rewrite length_app in El1.
      destruct (IH fuel (pre ++ arg_text sp a) s1) as (suf' & -> & El); [cbn [length] in Hf; lia|rewrite length_app; lia|rewrite !length_app in *; lia|].
      exists suf'. rewrite <- !app_assoc, !length_app in *. split; [done|lia].
Qed.

(** The text and its terminator are in the buffer, when there is room for them. *)
Lemma vsnprintf_ok its junk buffer n : Forall item_ok its → n < 2 ^ 31 → zlen (render its) < n ≤ zlen buffer →
  ∃ rest, vsnprintf buffer n (show its ++ 0 :: junk) (args_of its) = Some (render its ++ 0 :: rest, zlen (render its)) ∧ length (render its ++ 0 :: rest) = length buffer.
Proof.
  intros Hits Hn [Hfit Hlen]. unfold vsnprintf. destruct (vsnprintf_loop_ok its junk n Hits ltac:(lia) (S (length (show its ++ 0 :: junk))) [] buffer) as (suf & E & El); [rewrite length_app; lia|simpl; lia|simpl; lia|].
  cbn [app length] in E. change (Z.of_nat 0) with 0 in E. rewrite E, bind_some. rewrite length_app in El. destruct suf as [|x suf]; [simpl in El; lia|]. rewrite wr_app, bind_some. exists suf. split; [done|].
  rewrite length_app. simpl in *. lia.
Qed.

(** ** Numbers come back *)

(** A character between numbers that is matched as it is, or a space. *)
Definition separator (c : Z) : Prop := c ≠ 0 ∧ c ≠ 37 ∧ isalnum c = false.
Definition decimal : spec := Spec false false 0 4 100.
(** The numbers, each with the separator after it. *)
Definition number_items (l : list (Z * Z)) : list item := l ≫= λ p, [Conv decimal (ArgInt (u32 p.1)); Lit p.2].

Definition number_text (n : Z) : list Z := itoa_text (u32 n) 10 0 0 true.

Lemma render_numbers n c l : render (number_items ((n, c) :: l)) = number_text n ++ c :: render (number_items l).
Proof. unfold number_text. cbn -[itoa_text u32]. unfold decimal. cbn -[itoa_text u32]. by rewrite (u32_small (u32 n)) by (apply (uwrap_range 32); lia). Qed.

Lemma show_numbers n c l : show (number_items ((n, c) :: l)) = 37 :: 100 :: c :: show (number_items l).
Proof. done. Qed.

Lemma separator_ends c : separator c → ends_number 10 c ∧ ends_number 8 c ∧ c ≠ 120.
Proof.
  intros (_ & _ & Hc). assert (isdigit c = false) as Hd by (unfold isalnum, isdigit in *; by destruct (between 48 c 57); [rewrite orb_true_r in Hc|]).
  pose proof (ends_10 c Hd) as H10. split; [done|]. split; [by apply (ends_octal 10)|]. intros ->. done.
Qed.

Lemma number_text_head n : - 2 ^ 31 < n < 2 ^ 31 → ∃ c t, number_text n = c :: t ∧ c ≠ 0 ∧ isspace c = false.
Proof.
  intros Hn. unfold number_text. pose proof (itoa_text_pos n 10) as Hp. change (10 =? 10) with true in Hp. destruct (Z.lt_trichotomy n 0) as [Hlt|[->|Hgt]].
  - rewrite itoa_text_neg by lia. by eexists _, _.
  - pose proof (itoa_text_zero 10 ltac:(lia)) as Ez. change (10 =? 10) with true in Ez. rewrite Ez. by eexists _, _.
  - rewrite u32_small, Hp by lia. destruct (digits_msd 10 n ltac:(lia) ltac:(lia)) as (d & l & -> & Hd & _). cbn [map]. eexists _, _. split; [done|]. unfold digit_char, isspace, between. zif; lia.
Qed.

Lemma scan_number n c pre rest : - 2 ^ 31 < n < 2 ^ 31 → separator c →
  scan_arg (ScanSpec false 0 4 100) (pre ++ number_text n ++ c :: rest) (zlen pre) = Some (Some (zlen (pre ++ number_text n), [ScanNumber 4 (u32 n)])).
Proof.
  intros Hn Hc. destruct (separator_ends c Hc) as (H10 & H8 & Hx). unfold scan_arg. cbn [sc_type sc_ignore sc_length Z.eqb Pos.eqb orb]. destruct (take_drop_app pre (number_text n ++ c :: rest)) as [_ ->].
  pose proof (strtol_text n 10 c rest Hn ltac:(lia) ltac:(lia) H10 H8 ltac:(done)) as E. change (10 =? 10) with true in E. fold (number_text n) in E. rewrite E, bind_some. do 3 f_equal. rewrite !length_app. simpl. lia.
Qed.

(** After the separator comes a number or the end. *)
Lemma skip_separator c l rest : Forall (λ p, - 2 ^ 31 < p.1 < 2 ^ 31 ∧ separator p.2) l → isspace c = true →
  skip_space (c :: render (number_items l) ++ 0 :: rest) = Some (render (number_items l) ++ 0 :: rest).
Proof.
  intros Hl Hc. cbn [skip_space]. rewrite Hc. destruct Hl as [|[n d] l [Hn _] _]; [done|]. rewrite render_numbers. destruct (number_text_head n Hn) as (c' & t & -> & _ & Hs). cbn [app skip_space]. by rewrite Hs.
Qed.

Lemma vsscanf_numbers l junk rest : Forall (λ p, - 2 ^ 31 < p.1 < 2 ^ 31 ∧ separator p.2) l → ∀ fuel pre count out, (3 * length l < fuel)%nat →
  vsscanf_loop fuel (pre ++ render (number_items l) ++ 0 :: rest) (show (number_items l) ++ 0 :: junk) (zlen pre) count out =
    Some (count + zlen l, out ++ map (λ p, ScanNumber 4 (u32 p.1)) l).
Proof.
  induction 1 as [|[n c] l [Hn Hc] Hl IH]; intros fuel pre count out Hf; (destruct fuel as [|fuel]; [lia|]).
  - cbn. by rewrite Z.add_0_r, app_nil_r.
  - cbn [fst snd length] in *. destruct fuel as [|fuel]; [lia|]. rewrite render_numbers, show_numbers. cbn [app]. destruct (number_text_head n Hn) as (c0 & t & Et & Hc0 & _).
    cbn [vsscanf_loop head tail]. rewrite bind_some. cbn [Z.eqb Pos.eqb]. rewrite Et at 1. rewrite <- !app_assoc. cbn [app]. rewrite rd_app, bind_some. replace (c0 =? 0) with false by lia.
    change (parse_scan_spec (100 :: c :: show (number_items l) ++ 0 :: junk)) with (Some (ScanSpec false 0 4 100, c :: show (number_items l) ++ 0 :: junk)). rewrite bind_some, scan_number, bind_some by done.
    cbn [head tail]. rewrite bind_some. destruct Hc as (Hz & Hp & Ha). replace (c =? 0) with false by lia. rewrite app_assoc, rd_app, bind_some. replace (c =? 0) with false by lia. replace (c =? 37) with false by lia.
    set (p := pre ++ number_text n). assert (Hnext : ∀ k, k = zlen (p ++ [c]) → vsscanf_loop fuel (p ++ c :: render (number_items l) ++ 0 :: rest) (show (number_items l) ++ 0 :: junk) k (count + 1) (out ++ [ScanNumber 4 (u32 n)]) =
      Some (count + zlen ((n, c) :: l), out ++ map (λ p, ScanNumber 4 (u32 p.1)) ((n, c) :: l))).
    { intros k ->. pose proof (IH fuel (p ++ [c]) (count + 1) (out ++ [ScanNumber 4 (u32 n)]) ltac:(lia)) as E. rewrite <- !app_assoc in E. cbn [app] in E. cbn [app map fst]. rewrite E. f_equal. f_equal. simpl. lia. }
    destruct (isspace c) eqn:Es; [|rewrite Z.eqb_refl; apply Hnext; rewrite length_app; simpl; lia].
    destruct (take_drop_app p (c :: render (number_items l) ++ 0 :: rest)) as [_ ->]. rewrite skip_separator, bind_some by done. apply Hnext. rewrite !length_app. cbn [length]. rewrite !length_app. cbn [length]. lia.
Qed.

(** C25: decimal numbers that vsnprintf prints come back from vsscanf with the
    same format, when that format is made of plain [%d]s, each followed by one
    character that is not part of a number nor a percent sign: any such
    sequence of ints, but for the smallest, in a buffer that has room.  The
    buffer then holds the text and a zero, and is not written past its end.
    (Formats with a width or of another type do not come back in general: a
    number printed with leading zeros is read as octal, and vsscanf has no
    [%u] and no [%o].) *)
Theorem printf_scanf_roundtrip l junk buffer n : Forall (λ p, - 2 ^ 31 < p.1 < 2 ^ 31 ∧ separator p.2) l → n < 2 ^ 31 → zlen (render (number_items l)) < n ≤ zlen buffer →
  ∃ rest, vsnprintf buffer n (show (number_items l) ++ 0 :: junk) (args_of (number_items l)) = Some (render (number_items l) ++ 0 :: rest, zlen (render (number_items l))) ∧
    length (render (number_items l) ++ 0 :: rest) = length buffer ∧
    vsscanf (render (number_items l) ++ 0 :: rest) (show (number_items l) ++ 0 :: junk) = Some (zlen l, map (λ p, ScanNumber 4 (u32 p.1)) l).
Proof.
  intros Hl Hn Hfit. assert (Hits : Forall item_ok (number_items l)).
  { clear - Hl. induction Hl as [|[k c] l [_ (H0 & H37 & _)] _ IH]; [constructor|]. cbn [number_items mbind list_bind app snd]. constructor; [|constructor; [done|exact IH]].
    split; [split_and!; [done|done|set_solver|done]|]. by left. }
  destruct (vsnprintf_ok (number_items l) junk buffer n Hits Hn Hfit) as (rest & E & El). exists rest. split; [exact E|]. split; [exact El|].
  assert (Hlen : length (show (number_items l)) = (3 * length l)%nat) by (clear; induction l as [|[k c] l IH]; [done|rewrite show_numbers; simpl in *; lia]).
  apply (vsscanf_numbers l junk rest Hl (S (length (show (number_items l) ++ 0 :: junk))) [] 0 []). rewrite length_app, Hlen. simpl. lia.
Qed.

Lemma printf_scanf_roundtrip_witness :
  ∃ rest, vsnprintf (replicate 20 7) 20 [37; 100; 44; 37; 100; 32; 0] [ArgInt 17; ArgInt (u32 (-350))] = Some ([49; 55; 44; 45; 51; 53; 48; 32] ++ 0 :: rest, 8) ∧
    length ([49; 55; 44; 45; 51; 53; 48; 32] ++ 0 :: rest) = 20%nat ∧
    vsscanf ([49; 55; 44; 45; 51; 53; 48; 32] ++ 0 :: rest) [37; 100; 44; 37; 100; 32; 0] = Some (2, [ScanNumber 4 17; ScanNumber 4 (u32 (-350))]).
Proof. apply (printf_scanf_roundtrip [(17, 44); (-350, 32)] [] (replicate 20 7) 20); [repeat constructor; done|done|done]. Defined.

(** A number printed with leading zeros is read as octal. *)
Lemma padded_is_octal : ∃ b, vsnprintf (replicate 8 7) 8 [37; 48; 52; 100; 0] [ArgInt 10] = Some (b, 4) ∧ vsscanf b [37; 100; 0] = Some (1, [ScanNumber 4 8]).
Proof. eexists. split; [vm_compute; reflexivity|]. vm_compute. reflexivity. Qed.

(** vprintk puts the text of the format on the console. *)
Lemma put_all_app l rest n : nonzero l → (length l < n)%nat → put_all n (l ++ 0 :: rest) = l.
Proof.
  intros Hl. revert n. induction Hl as [|c l Hc Hl IH]; intros n Hn; (destruct n as [|n]; [simpl in Hn; lia|]); [done|]. cbn [app put_all]. replace (c =? 0) with false by lia. simpl in Hn. by rewrite IH by lia.
Qed.

Lemma vprintk_ok its junk buffer : Forall item_ok its → nonzero (render its) → (length (render its) < PRINTK_BUFFER)%nat → length buffer = PRINTK_BUFFER →
  vprintk buffer (show its ++ 0 :: junk) (args_of its) = Some (render its, zlen (render its)).
Proof.
  intros Hits Hnz Hn Hb. assert (Hp : Z.of_nat PRINTK_BUFFER = 512) by done. destruct (vsnprintf_ok its junk buffer (Z.of_nat PRINTK_BUFFER) Hits ltac:(lia) ltac:(lia)) as (rest & E & _).
  unfold vprintk. rewrite E, bind_some. by rewrite put_all_app.
Qed.

(** ** Where it falls short *)

(** A percent sign cannot be printed. *)
Lemma percent_dropped : vsnprintf (replicate 8 7) 8 [97; 37; 37; 98; 0] [] = Some ([97; 98; 0; 7; 7; 7; 7; 7], 2).
Proof. done. Qed.

(** A string that does not fit moves the end past the buffer. *)
Lemma string_overflows : vsnprintf (replicate 4 7) 4 [37; 115; 0] [ArgStr [97; 98; 99; 100; 101; 102; 0]] = None.
Proof. done. Qed.

(** A word at the end of the string is not found by vsscanf, which goes on past the end. *)
Lemma last_word_overruns : vsscanf [97; 98; 0] [37; 115; 0] = None.
Proof. done. Qed.
