(* ===== verification/Time.v ===== *)
(** * Time: dates, the system clock and timers

    Models src/libc/common/time/gmtime.c (module [Date]), src/kernel/time.c
    (module [Clock]) and src/kernel/proc/timer.c (module [Timer], over the
    queues of [Queue]). *)

From S2P Require Import Prelude Queue.

Module Date.

Record tm := Tm {
  tm_sec : Z; tm_min : Z; tm_hour : Z; tm_mday : Z; tm_mon : Z; tm_year : Z;
  tm_wday : Z; tm_yday : Z; tm_isdst : Z;
}.

Definition SEC_PER_HOUR : Z := 60 * 60.

Definition LEAPYEAR (year : Z) : bool :=
  (Z.rem year 4 =? 0) && (negb (Z.rem year 100 =? 0) || (Z.rem year 400 =? 0)).

Definition _monthdays : list Z := [31; 28; 31; 30; 31; 30; 31; 31; 30; 31; 30; 31].

(** The loop over the years: [(tm_year, tm_yday)]. *)
Fixpoint gmtime_years (fuel : nat) (year yday : Z) : option (Z * Z) :=
  let days := if LEAPYEAR year then 366 else 365 in
  if yday <? days then Some (year, yday)
  else match fuel with
       | O => None
       | S fuel => gmtime_years fuel (year + 1) (yday - days)
       end.

(** The loop over the months: [(tm_mon, tm_mday)]. *)
Fixpoint gmtime_months (fuel : nat) (year mon mday : Z) : option (Z * Z) :=
  d ← rd _monthdays mon;
  let days := if (mon =? 1) && LEAPYEAR year then d + 1 else d in
  if mday <? days then Some (mon, mday)
  else match fuel with
       | O => None
       | S fuel => gmtime_months fuel year (mon + 1) (mday - days)
       end.

Definition gmtime (time : Z) : option tm :=
  let hournum := Z.quot time SEC_PER_HOUR in
  let hoursec := Z.rem time SEC_PER_HOUR in
  let daynum := Z.quot hournum 24 in
  let daysec := Z.rem hournum 24 * SEC_PER_HOUR + hoursec in
  '(year, yday) ← gmtime_years (Z.to_nat daynum) 1970 daynum;
  let year := year - 1900 in
  '(mon, mday) ← gmtime_months 12 year 0 (yday + 1);
  Some (Tm (Z.rem daysec 60) (Z.quot (Z.rem daysec 3600) 60) (Z.quot daysec 3600) mday mon year
           (Z.rem (daynum + 4) 7) yday 0).

(** ** The calendar *)

Definition year_days (y : Z) : Z := if LEAPYEAR y then 366 else 365.

Definition month_days (leap : bool) (m : nat) : Z :=
  default 0 (_monthdays !! m) + if leap && (m =? 1)%nat then 1 else 0.

(** The days of the months before [m]. *)
Fixpoint days_before (leap : bool) (m : nat) : Z :=
  match m with O => 0 | S m => days_before leap m + month_days leap m end.

(** The days of the [n] years from 1970 on. *)
Fixpoint days_of_years (n : nat) : Z :=
  match n with O => 0 | S n => days_of_years n + year_days (1970 + Z.of_nat n) end.

(** [t] seconds after the epoch are this date and time. *)
Record denotes (t : Z) (d : tm) : Prop := {
  den_sec : 0 ≤ tm_sec d < 60;
  den_min : 0 ≤ tm_min d < 60;
  den_hour : 0 ≤ tm_hour d < 24;
  den_mon : 0 ≤ tm_mon d < 12;
  den_mday : 1 ≤ tm_mday d ≤ month_days (LEAPYEAR (1900 + tm_year d)) (Z.to_nat (tm_mon d));
  den_yday : tm_yday d = days_before (LEAPYEAR (1900 + tm_year d)) (Z.to_nat (tm_mon d)) + tm_mday d - 1;
  den_year : 70 ≤ tm_year d;
  den_time : t = (((days_of_years (Z.to_nat (tm_year d - 70)) + tm_yday d) * 24 + tm_hour d) * 60
                  + tm_min d) * 60 + tm_sec d;
  den_wday : tm_wday d = (days_of_years (Z.to_nat (tm_year d - 70)) + tm_yday d + 4) mod 7;
}.

Lemma year_days_range y : 365 ≤ year_days y ≤ 366.
Proof. unfold year_days. destruct (LEAPYEAR y); lia. Qed.

Lemma gmtime_years_ok : ∀ fuel n yday,
  0 ≤ yday ≤ Z.of_nat fuel →
  ∃ n' yday', gmtime_years fuel (1970 + Z.of_nat n) yday = Some (1970 + Z.of_nat n', yday') ∧
    0 ≤ yday' < year_days (1970 + Z.of_nat n') ∧
    days_of_years n' + yday' = days_of_years n + yday ∧ (n ≤ n')%nat.
Proof.
  induction fuel as [|fuel IH]; intros n yday Hy; cbn [gmtime_years];
    fold (year_days (1970 + Z.of_nat n)); pose proof (year_days_range (1970 + Z.of_nat n)) as Hr;
    destruct (Z.ltb_spec yday (year_days (1970 + Z.of_nat n))); try lia;
    try (exists n, yday; split; [done|]; split; [lia|]; split; [done|lia]).
  destruct (IH (S n) (yday - year_days (1970 + Z.of_nat n))) as (n' & y' & E & Hy' & Hs & Hn); [lia|].
  exists n', y'. split; [|split; [done|split; [|lia]]].
  - rewrite <- E. f_equal. lia.
  - rewrite Hs. simpl. lia.
Qed.

Lemma month_days_code leap m :
  (m < 12)%nat → ∃ d, rd _monthdays (Z.of_nat m) = Some d ∧
    (if (Z.of_nat m =? 1) && leap then d + 1 else d) = month_days leap m ∧ 0 < month_days leap m.
Proof.
  intros Hm. destruct (lookup_lt_is_Some_2 _monthdays m) as [d Hd]; [done|].
  exists d. rewrite rd_nat. split; [done|]. unfold month_days. rewrite Hd. simpl.
  assert (0 < d) by (do 12 (destruct m as [|m]; [injection Hd as <-; lia|]); lia).
  destruct (Z.eqb_spec (Z.of_nat m) 1), (Nat.eqb_spec m 1), leap; simpl; try lia; split; try done; lia.
Qed.

Lemma days_before_mono leap m k :
  (m + k ≤ 12)%nat → days_before leap m ≤ days_before leap (m + k).
Proof.
  induction k as [|k IH]; intros Hk; [by rewrite Nat.add_0_r|]. rewrite Nat.add_succ_r. simpl.
  destruct (month_days_code leap (m + k)) as (_ & _ & _ & ?); [lia|]. specialize (IH ltac:(lia)). lia.
Qed.

(** The month loop subtracts whole months while the day reaches their length. *)
Lemma gmtime_months_ok year day k : ∀ fuel m,
  (m + k < 12)%nat → (k ≤ fuel)%nat →
  days_before (LEAPYEAR year) (m + k) ≤ day < days_before (LEAPYEAR year) (S (m + k)) →
  gmtime_months fuel year (Z.of_nat m) (day - days_before (LEAPYEAR year) m)
    = Some (Z.of_nat (m + k), day - days_before (LEAPYEAR year) (m + k)).
Proof.
  induction k as [|k IH]; intros fuel m Hm Hf Hd.
  - rewrite Nat.add_0_r in *. simpl in Hd. destruct (month_days_code (LEAPYEAR year) m) as (d & E & Hdays & _); [lia|].
    destruct fuel; cbn [gmtime_months]; rewrite E; cbn [mbind option_bind]; rewrite Hdays; zif; done || lia.
  - destruct fuel as [|fuel]; [lia|].
    destruct (month_days_code (LEAPYEAR year) m) as (d & E & Hdays & _); [lia|].
    pose proof (days_before_mono (LEAPYEAR year) (S m) k ltac:(lia)) as Hmono.
    replace (S m + k)%nat with (m + S k)%nat in Hmono by lia.
    change (days_before (LEAPYEAR year) (S m))
      with (days_before (LEAPYEAR year) m + month_days (LEAPYEAR year) m) in Hmono.
    cbn [gmtime_months]. rewrite E. cbn [mbind option_bind]. rewrite Hdays. zif; [lia|].
    replace (Z.of_nat m + 1) with (Z.of_nat (S m)) by lia.
    replace (day - days_before (LEAPYEAR year) m - month_days (LEAPYEAR year) m)
      with (day - days_before (LEAPYEAR year) (S m)) by (simpl; lia).
    replace (m + S k)%nat with (S m + k)%nat in * by lia. apply IH; [lia|lia|done].
Qed.

(** The leap years of the calendar and of the years counted from 1900 differ
    only in the years that are multiples of 100. *)
Lemma leap_1900 y : 0 ≤ y → y mod 100 ≠ 0 → LEAPYEAR y = LEAPYEAR (1900 + y).
Proof.
  intros Hy Hc. unfold LEAPYEAR. rewrite !Z.rem_mod_nonneg by lia.
  assert (E4 : (1900 + y) mod 4 = y mod 4).
  { replace (1900 + y) with (y + 475 * 4) by lia. apply Z.mod_add. lia. }
  assert (E100 : (1900 + y) mod 100 = y mod 100).
  { replace (1900 + y) with (y + 19 * 100) by lia. apply Z.mod_add. lia. }
  rewrite E4, E100. destruct (Z.eqb_spec (y mod 100) 0); [done|]. by rewrite !orb_true_l.
Qed.

(** A day of the year falls in one month. *)
Lemma month_of leap yday :
  0 ≤ yday < days_before leap 12 →
  ∃ m, (m < 12)%nat ∧ days_before leap m ≤ yday < days_before leap (S m).
Proof.
  intros Hy. assert (H : ∀ k, yday < days_before leap k →
    ∃ m, (m < k)%nat ∧ days_before leap m ≤ yday < days_before leap (S m)).
  { induction k as [|k IH]; intros Hk; [simpl in Hk; lia|].
    destruct (Z.lt_ge_cases yday (days_before leap k)) as [Hlt|]; [|exists k; split; [lia|done]].
    destruct (IH Hlt) as (m & ? & ?). exists m. split; [lia|done]. }
  apply H. lia.
Qed.

Lemma days_before_12 leap : days_before leap 12 = if leap then 366 else 365.
Proof. by destruct leap. Qed.

(** The date has a day after it in its month. *)
Definition before_month_end (yday : Z) (leap : bool) : Prop :=
  ∀ m, (m < 12)%nat → yday + 1 ≠ days_before leap (S m).

Lemma days_of_years_lt n n' :
  (n < n')%nat → days_of_years n + year_days (1970 + Z.of_nat n) ≤ days_of_years n'.
Proof.
  induction 1 as [|m _ IH]; simpl; [lia|].
  pose proof (year_days_range (1970 + Z.of_nat m)). lia.
Qed.

Lemma year_unique n n' y y' :
  days_of_years n + y = days_of_years n' + y' → 0 ≤ y < year_days (1970 + Z.of_nat n) →
  0 ≤ y' < year_days (1970 + Z.of_nat n') → n = n' ∧ y = y'.
Proof.
  intros E Hy Hy'. destruct (Nat.lt_trichotomy n n') as [H|[->|H]]; [|lia|];
    apply days_of_years_lt in H; lia.
Qed.

(** The time of day. *)
Lemma day_seconds t :
  0 ≤ t →
  let s := (t / 3600) mod 24 * 3600 + t mod 3600 in
  t / 3600 / 24 = t / 86400 ∧ 0 ≤ s < 86400 ∧ t = t / 86400 * 86400 + s ∧
  0 ≤ s mod 60 < 60 ∧ 0 ≤ s mod 3600 / 60 < 60 ∧ 0 ≤ s / 3600 < 24 ∧
  s = (s / 3600 * 60 + s mod 3600 / 60) * 60 + s mod 60.
Proof.
  intros Ht s. assert (E : t / 3600 / 24 = t / 86400) by (rewrite Z.div_div by lia; done).
  split; [done|].
  pose proof (Z.div_mod t 3600 ltac:(lia)). pose proof (Z.mod_pos_bound t 3600 ltac:(lia)).
  pose proof (Z.div_mod (t / 3600) 24 ltac:(lia)). pose proof (Z.mod_pos_bound (t / 3600) 24 ltac:(lia)).
  assert (Hs : 0 ≤ s < 86400) by (unfold s; lia). split; [done|].
  split; [unfold s; rewrite <- E; lia|]. clearbody s. clear -Hs.
  pose proof (Z.div_mod s 3600 ltac:(lia)). pose proof (Z.mod_pos_bound s 3600 ltac:(lia)).
  pose proof (Z.div_mod (s mod 3600) 60 ltac:(lia)).
  pose proof (Z.mod_pos_bound (s mod 3600) 60 ltac:(lia)).
  assert (Em : (s mod 3600) mod 60 = s mod 60).
  { replace 3600 with (60 * 60) by lia. rewrite Z.rem_mul_r by lia.
    rewrite (Z.mul_comm 60 ((s / 60) mod 60)), Z.mod_add, Z.mod_mod by lia. done. }
  rewrite Em in *. pose proof (Z.mod_pos_bound s 60 ltac:(lia)). lia.
Qed.

(** C37: gmtime gives the date and time of every second since the epoch,
    except on the last day of a month and in years that are multiples of 100:
    the fields are in range and denote the argument. *)
Theorem gmtime_ok t n yday :
  0 ≤ t < 2 ^ 31 → t / 86400 = days_of_years n + yday → 0 ≤ yday < year_days (1970 + Z.of_nat n) →
  (1970 + Z.of_nat n) mod 100 ≠ 0 → before_month_end yday (LEAPYEAR (1970 + Z.of_nat n)) →
  ∃ d, gmtime t = Some d ∧ denotes t d ∧ tm_year d = 70 + Z.of_nat n ∧ tm_yday d = yday.
Proof.
  intros Ht Hday Hyd Hcent Hend.
  destruct (day_seconds t ltac:(lia)) as (Edn & _ & Et & Hsec & Hmin & Hhour & Es).
  unfold gmtime, SEC_PER_HOUR. change (60 * 60) with 3600.
  rewrite !(Z.quot_div_nonneg t), !(Z.rem_mod_nonneg t) by lia.
  assert (0 ≤ t / 3600) by (apply Z.div_pos; lia).
  rewrite (Z.quot_div_nonneg (t / 3600)), (Z.rem_mod_nonneg (t / 3600)) by lia. rewrite Edn.
  set (s := (t / 3600) mod 24 * 3600 + t mod 3600) in *.
  rewrite !(Z.quot_div_nonneg s), !(Z.rem_mod_nonneg s) by lia.
  rewrite (Z.quot_div_nonneg (s mod 3600)) by (pose proof (Z.mod_pos_bound s 3600); lia).
  assert (0 ≤ t / 86400) by (apply Z.div_pos; lia).
  rewrite Z.rem_mod_nonneg by lia.
  destruct (gmtime_years_ok (Z.to_nat (t / 86400)) 0 (t / 86400) ltac:(lia))
    as (n' & yday' & Ey & Hyd' & Esum & _).
  destruct (year_unique n n' yday yday') as [<- <-]; [simpl in Esum; lia|done|done|].
  change (1970 + Z.of_nat 0) with 1970 in Ey. rewrite Ey. cbn [mbind option_bind].
  replace (1970 + Z.of_nat n - 1900) with (70 + Z.of_nat n) by lia.
  assert (Eleap : LEAPYEAR (70 + Z.of_nat n) = LEAPYEAR (1970 + Z.of_nat n)).
  { rewrite leap_1900; [f_equal; lia|lia|]. intros E. apply Hcent.
    replace (1970 + Z.of_nat n) with (70 + Z.of_nat n + 19 * 100) by lia. by rewrite Z.mod_add. }
  set (leap := LEAPYEAR (1970 + Z.of_nat n)) in *.
  destruct (month_of leap yday) as (m & Hm & Hym).
  { rewrite days_before_12. exact Hyd. }
  specialize (Hend m Hm).
  pose proof (gmtime_months_ok (70 + Z.of_nat n) (yday + 1) m 12 0 ltac:(lia) ltac:(lia)) as Em.
  rewrite Eleap in Em. simpl plus in Em. change (days_before leap 0) with 0 in Em.
  change (Z.of_nat 0) with 0 in Em. rewrite Z.sub_0_r in Em. rewrite Em by lia. cbn [mbind option_bind].
  eexists. split; [done|]. simpl. split; [|done].
  assert (Ey' : 1900 + (70 + Z.of_nat n) = 1970 + Z.of_nat n) by lia.
  constructor; simpl; rewrite ?Ey', ?Nat2Z.id; fold leap; try lia;
    try replace (Z.to_nat (70 + Z.of_nat n - 70)) with n by lia; simpl in Hym; try lia.
  f_equal. lia.
Qed.

Lemma gmtime_ok_witness :
  ∃ d, gmtime 1700000000 = Some d ∧ denotes 1700000000 d ∧ tm_year d = 70 + 53 ∧ tm_yday d = 317.
Proof.
  apply (gmtime_ok 1700000000 53 317).
  - lia.
  - vm_compute. reflexivity.
  - vm_compute. split; [discriminate|reflexivity].
  - vm_compute. discriminate.
  - intros m Hm. do 12 (destruct m as [|m]; [vm_compute; discriminate|]). lia.
Defined.

(** ** Deviations *)

(** The last day of a month is day 0 of the next one. *)
Lemma gmtime_january_31 :
  gmtime (30 * 86400) = Some (Tm 0 0 0 0 1 70 6 30 0).
Proof. reflexivity. Qed.

(** The last day of a year reads past the table of months. *)
Lemma gmtime_december_31 : gmtime (364 * 86400) = None.
Proof. reflexivity. Qed.

(** The years are counted from 1900 when the leap year is tested: 29 February
    2000 is given as 1 March. *)
Lemma gmtime_leap_2000 : gmtime 951825600 = Some (Tm 0 0 12 1 2 100 2 59 0).
Proof. vm_compute. reflexivity. Qed.
End Date.

Module Clock.

Definition NANOS_PER_SECOND : Z := 1000000000.

Record clocksource := ClockSource {
  rating : Z;
  max_cycles : Z;
  cycles_to_nanos : Z → Z;
}.

Record clock_state := ClockState {
  current_clock : option clocksource;
  system_seconds : Z;
  system_subseconds_nanos : Z;
  current_clock_last_cycle : Z;
  monotonic_uptime_nanos : Z;
  clock_warning_given : bool;
}.

Definition init_time : clock_state := ClockState None 0 0 0 0 false.

Definition register_clock (st : clock_state) (clock : clocksource) : clock_state * Z :=
  let better := match current_clock st with
                | None => true
                | Some c => rating c <? rating clock
                end in
  if better then
    (ClockState (Some clock) (system_seconds st) (system_subseconds_nanos st)
       (current_clock_last_cycle st) (monotonic_uptime_nanos st) (clock_warning_given st), 1)
  else (st, 0).

(** [while (system_subseconds_nanos >= NANOS_PER_SECOND)] *)
Fixpoint carry_seconds (fuel : nat) (subs secs : Z) : option (Z * Z) :=
  if NANOS_PER_SECOND <=? subs then
    match fuel with
    | O => None
    | S fuel => carry_seconds fuel (s32 (subs - NANOS_PER_SECOND)) (s32 (secs + 1))
    end
  else Some (subs, secs).

(** The cycles since the last reading; [None] when the counter has not moved. *)
Definition cycle_diff (clock : clocksource) (last cycles : Z) : option Z :=
  if cycles =? last then None
  else if last <? cycles then Some (cycles - last)
  else Some (uwrap 64 (max_cycles clock - last + cycles)).

(** [cycles] is what the clock reads; the boolean is the request of BH_TIMER. *)
Definition update_time (st : clock_state) (cycles : Z) : option (clock_state * bool) :=
  let add (last : Z) (warned : bool) (diff : Z) :=
    '(subs, secs) ← carry_seconds 3 (s32 (uwrap 64 (system_subseconds_nanos st + diff)))
                      (system_seconds st);
    Some (ClockState (current_clock st) secs subs last
            (uwrap 64 (monotonic_uptime_nanos st + diff)) warned, true) in
  match current_clock st with
  | Some clock =>
      match cycle_diff clock (current_clock_last_cycle st) cycles with
      | None => Some (st, false)
      | Some diff => add cycles (clock_warning_given st) (cycles_to_nanos clock diff)
      end
  | None => add (current_clock_last_cycle st) true 1000000
  end.

Definition set_system_time (st : clock_state) (t : Z) : clock_state :=
  ClockState (current_clock st) t (system_subseconds_nanos st) (current_clock_last_cycle st)
    (monotonic_uptime_nanos st) (clock_warning_given st).
Definition get_system_time (st : clock_state) : Z := system_seconds st.
Definition get_monotonic_uptime (st : clock_state) : Z := monotonic_uptime_nanos st.

(** Time in nanoseconds. *)
Definition epoch_nanos (st : clock_state) : Z :=
  system_seconds st * NANOS_PER_SECOND + system_subseconds_nanos st.

Record clock_ok (st : clock_state) : Prop := {
  ok_subs : 0 ≤ system_subseconds_nanos st < NANOS_PER_SECOND;
  ok_secs : 0 ≤ system_seconds st;
  ok_mono : 0 ≤ monotonic_uptime_nanos st;
}.

Lemma carry_seconds_ok : ∀ fuel subs secs,
  0 ≤ subs < 2 ^ 31 → subs < NANOS_PER_SECOND * (Z.of_nat fuel + 1) →
  0 ≤ secs → secs + Z.of_nat fuel < 2 ^ 31 →
  ∃ subs' secs', carry_seconds fuel subs secs = Some (subs', secs') ∧
    0 ≤ subs' < NANOS_PER_SECOND ∧ secs ≤ secs' ∧
    secs' * NANOS_PER_SECOND + subs' = secs * NANOS_PER_SECOND + subs.
Proof.
  unfold NANOS_PER_SECOND. induction fuel as [|fuel IH]; intros subs secs Hs Hf Hp Hsecs;
    cbn [carry_seconds]; unfold NANOS_PER_SECOND;
    destruct (Z.leb_spec 1000000000 subs); try lia; try (exists subs, secs; split; [done|]; lia).
  rewrite !s32_small by lia.
  destruct (IH (subs - 1000000000) (secs + 1)) as (s' & c' & E & ? & ? & ?); [lia..|].
  exists s', c'. split; [done|]. lia.
Qed.

(** The wrap-around of the counter is accounted for. *)
Lemma cycle_diff_ok clock c0 c :
  0 < max_cycles clock < 2 ^ 63 → c0 ≤ c < c0 + max_cycles clock →
  cycle_diff clock (c0 mod max_cycles clock) (c mod max_cycles clock)
    = if c =? c0 then None else Some (c - c0).
Proof.
  intros HM Hc. unfold cycle_diff. set (M := max_cycles clock) in *.
  pose proof (Z.div_mod c M ltac:(lia)) as E. pose proof (Z.div_mod c0 M ltac:(lia)) as E0.
  pose proof (Z.mod_pos_bound c M ltac:(lia)). pose proof (Z.mod_pos_bound c0 M ltac:(lia)).
  set (q := c / M) in *. set (q0 := c0 / M) in *. set (r := c mod M) in *. set (r0 := c0 mod M) in *.
  clearbody q q0 r r0. assert (Hq : M * q = M * q0 ∨ M * q = M * q0 + M).
  { assert (M * (q - q0) < M * 2) by lia. assert (M * -1 < M * (q - q0)) by lia.
    assert (q - q0 = 0 ∨ q - q0 = 1) as [Hd|Hd] by nia; [left|right];
      replace q with (q0 + (q - q0)) by lia; rewrite Hd; lia. }
  destruct (Z.eqb_spec c c0), (Z.eqb_spec r r0), (Z.ltb_spec r0 r); try done; try lia; f_equal; [lia|].
  rewrite uwrap_small; lia.
Qed.

(** The nanoseconds of a sequence of counter values after [c0]. *)
Fixpoint elapsed (clock : clocksource) (c0 : Z) (cs : list Z) : Z :=
  match cs with
  | [] => 0
  | c :: cs => (if c =? c0 then 0 else cycles_to_nanos clock (c - c0)) + elapsed clock c cs
  end.

(** Each reading comes before the counter goes round, and within a second. *)
Fixpoint in_time (clock : clocksource) (c0 : Z) (cs : list Z) : Prop :=
  match cs with
  | [] => True
  | c :: cs => c0 ≤ c < c0 + max_cycles clock ∧
      0 ≤ cycles_to_nanos clock (c - c0) ≤ NANOS_PER_SECOND ∧ in_time clock c cs
  end.

Fixpoint clock_run (st : clock_state) (reads : list Z) : option clock_state :=
  match reads with
  | [] => Some st
  | r :: reads => '(st, _) ← update_time st r; clock_run st reads
  end.

Lemma update_time_ok st clock c0 c :
  clock_ok st → current_clock st = Some clock → 0 < max_cycles clock < 2 ^ 63 →
  current_clock_last_cycle st = c0 mod max_cycles clock → in_time clock c0 [c] →
  epoch_nanos st < (2 ^ 31 - 4) * NANOS_PER_SECOND →
  monotonic_uptime_nanos st + elapsed clock c0 [c] < 2 ^ 64 →
  ∃ st' b, update_time st (c mod max_cycles clock) = Some (st', b) ∧ clock_ok st' ∧
    current_clock st' = Some clock ∧ current_clock_last_cycle st' = c mod max_cycles clock ∧
    epoch_nanos st' = epoch_nanos st + elapsed clock c0 [c] ∧
    monotonic_uptime_nanos st' = monotonic_uptime_nanos st + elapsed clock c0 [c].
Proof.
  intros [Hsub Hsec Hmono] Hclk HM Hlast (Hc & Hn & _) Hep Hmb. unfold update_time.
  rewrite Hclk, Hlast, cycle_diff_ok by done. cbn [elapsed] in *. rewrite Z.add_0_r in *.
  destruct (Z.eqb_spec c c0) as [->|Hne].
  - exists st, false. rewrite !Z.add_0_r. split; [done|]. split; [by constructor|done].
  - set (d := cycles_to_nanos clock (c - c0)) in *. unfold epoch_nanos, NANOS_PER_SECOND in *.
    rewrite (uwrap_small 64 (system_subseconds_nanos st + d)), s32_small by lia.
    destruct (carry_seconds_ok 3 (system_subseconds_nanos st + d) (system_seconds st))
      as (s' & c' & -> & Hs' & Hc' & Hsum); unfold NANOS_PER_SECOND in *; [lia..|].
    cbn [mbind option_bind]. eexists _, true. split; [done|]. simpl.
    rewrite uwrap_small by lia. split; [constructor; simpl; unfold NANOS_PER_SECOND; lia|].
    split; [done|]. split; [done|]. split; [lia|done].
Qed.

Lemma elapsed_nonneg clock cs : ∀ c0, in_time clock c0 cs → 0 ≤ elapsed clock c0 cs.
Proof.
  induction cs as [|c cs IH]; intros c0; simpl; [lia|]. intros (_ & Hn & Ht).
  specialize (IH c Ht). destruct (c =? c0); lia.
Qed.

(** C38: whatever the times at which the clock is read, as long as it is read
    before its counter goes round and once a second, the system time and the
    uptime advance by exactly the nanoseconds that passed, and the
    subsecond part stays below a second. *)
Theorem clock_run_ok clock cs st c0 :
  clock_ok st → current_clock st = Some clock → 0 < max_cycles clock < 2 ^ 63 →
  current_clock_last_cycle st = c0 mod max_cycles clock → in_time clock c0 cs →
  epoch_nanos st + elapsed clock c0 cs < (2 ^ 31 - 4) * NANOS_PER_SECOND →
  monotonic_uptime_nanos st + elapsed clock c0 cs < 2 ^ 64 →
  ∃ st', clock_run st (map (λ c, c mod max_cycles clock) cs) = Some st' ∧ clock_ok st' ∧
    epoch_nanos st' = epoch_nanos st + elapsed clock c0 cs ∧
    get_monotonic_uptime st' = get_monotonic_uptime st + elapsed clock c0 cs.
Proof.
  unfold get_monotonic_uptime. revert st c0.
  induction cs as [|c cs IH]; intros st c0 Hok Hclk HM Hlast Hin Hep Hmb.
  - exists st. simpl. rewrite !Z.add_0_r. done.
  - simpl in Hin. destruct Hin as (Hc & Hn & Hin). pose proof (elapsed_nonneg clock cs c Hin).
    cbn [elapsed] in *. set (d := if c =? c0 then 0 else cycles_to_nanos clock (c - c0)) in *.
    assert (0 ≤ d) by (unfold d; destruct (c =? c0); lia).
    destruct (update_time_ok st clock c0 c Hok Hclk HM Hlast) as
      (st1 & b & E & Hok1 & Hclk1 & Hlast1 & Hep1 & Hm1); [exact (conj Hc (conj Hn I))|lia|simpl; fold d; lia|].
    simpl in Hep1, Hm1. fold d in Hep1, Hm1. rewrite Z.add_0_r in *.
    destruct (IH st1 c Hok1 Hclk1 HM Hlast1 Hin) as (st2 & E2 & Hok2 & Hep2 & Hm2); [lia..|].
    exists st2. cbn [map clock_run]. rewrite E. cbn [mbind option_bind]. split; [done|].
    split; [done|]. lia.
Qed.

Definition example_clock : clocksource := ClockSource 100 1000 (λ c, c * 1000000).

Lemma clock_run_ok_witness :
  ∃ st', clock_run (ClockState (Some example_clock) 5 0 900 7 false)
           (map (λ c, c mod 1000) [950; 1200; 1200; 2100]) = Some st' ∧ clock_ok st' ∧
    epoch_nanos st' = 5000000000 + 1200000000 ∧ get_monotonic_uptime st' = 7 + 1200000000.
Proof.
  apply (clock_run_ok example_clock [950; 1200; 1200; 2100]
    (ClockState (Some example_clock) 5 0 900 7 false) 900);
    [constructor; vm_compute; intuition congruence|reflexivity|simpl; lia|reflexivity
    |vm_compute; intuition congruence|reflexivity|reflexivity].
Defined.

(** A pause of more than 1.1 seconds between two readings overflows the
    subsecond counter and the time is lost. *)
Lemma update_time_overflow :
  let st := ClockState (Some (ClockSource 100 (2 ^ 62) (λ c, c))) 5 999999999 0 0 false in
  match update_time st 1200000000 with
  | Some (st', _) => system_seconds st' = 5 ∧ system_subseconds_nanos st' < 0
  | None => False
  end.
Proof. vm_compute. done. Qed.
End Clock.

Module Timer.
Import Clock.

(** The timers are known by the address of their queue node, the first field
    of [struct timer]. *)
Record timers := Timers {
  node_heap : gmap Z queue_node;
  timer_list : queue;
  expires_time : gmap Z Z;
}.

Definition init_timer_list (st : timers) : timers :=
  Timers (node_heap st) _queue_init (expires_time st).

Definition init_timer (st : timers) (timer : Z) : option timers :=
  h ← _queue_node_init (node_heap st) timer;
  Some (Timers h (timer_list st) (<[timer := 0]> (expires_time st))).

(** The products are of type int. *)
Definition expiry (uptime seconds microseconds : Z) : Z :=
  uwrap 64 (uptime + s32 (seconds * NANOS_PER_SECOND) + s32 (microseconds * 1000)).

Definition add_timer (st : timers) (uptime timer seconds microseconds : Z) : option (timers * Z) :=
  e ← expires_time st !! timer;
  '(h, q) ← (if negb (e =? 0) then _queue_remove (node_heap st) (timer_list st) timer
             else Some (node_heap st, timer_list st));
  '(h, q) ← _queue_insert h q timer;
  Some (Timers h q (<[timer := expiry uptime seconds microseconds]> (expires_time st)), 0).

Definition remove_timer (st : timers) (timer : Z) : option (timers * Z) :=
  e ← expires_time st !! timer;
  if e =? 0 then Some (st, -1)
  else
    '(h, q) ← _queue_remove (node_heap st) (timer_list st) timer;
    Some (Timers h q (<[timer := 0]> (expires_time st)), 0).

(** The loop of check_timers; the timers whose callback runs are collected in
    order (what a callback does is not part of the model). *)
Fixpoint check_loop (fuel : nat) (st : timers) (uptime cur : Z) : option (timers * list Z) :=
  if cur =? NULL then Some (st, [])
  else
    match fuel with
    | O => None
    | S fuel =>
        next ← _queue_next (node_heap st) cur;
        e ← expires_time st !! cur;
        if e <? uptime then
          '(st, _) ← remove_timer st cur;
          '(st, fired) ← check_loop fuel st uptime next;
          Some (st, cur :: fired)
        else check_loop fuel st uptime next
    end.

Definition check_timers (st : timers) (uptime : Z) : option (timers * list Z) :=
  check_loop (size (expires_time st)) st uptime (_queue_head (timer_list st)).

(** ** Specification: the pending timers with their expiry times *)

Inductive timer_op :=
  | TimerAdd (uptime timer seconds microseconds : Z)
  | TimerRemove (timer : Z)
  | TimerCheck (uptime : Z).

Definition timer_step (st : timers) (op : timer_op) : option (timers * list Z) :=
  match op with
  | TimerAdd up t s us => '(st, r) ← add_timer st up t s us; Some (st, [r])
  | TimerRemove t => '(st, r) ← remove_timer st t; Some (st, [r])
  | TimerCheck up => check_timers st up
  end.

Abbreviation pending := (list (Z * Z)).

Definition without (t : Z) (l : pending) : pending := filter (λ p, p.1 ≠ t) l.

Definition timer_spec (l : pending) (op : timer_op) : pending * list Z :=
  match op with
  | TimerAdd up t s us => ((t, up + s * NANOS_PER_SECOND + us * 1000) :: without t l, [0])
  | TimerRemove t => (without t l, [if bool_decide (t ∈ l.*1) then 0 else -1])
  | TimerCheck up => (filter (λ p, up ≤ p.2) l, (filter (λ p, p.2 < up) l).*1)
  end.

(** The calls for which the code computes the time that it means to: those on
    the timers that there are, with a delay whose two products fit an int (see
    [add_timer_overflow]). *)
Definition timer_ok (known : gset Z) (op : timer_op) : bool :=
  match op with
  | TimerAdd up t s us =>
      let e := up + s * NANOS_PER_SECOND + us * 1000 in
      bool_decide (t ∈ known) && (0 <=? s) && (s <=? 2) && (0 <=? us) && (us <=? 2147483) && (0 <=? up) && (0 <? e) && (e <? 2 ^ 64)
  | TimerRemove t => bool_decide (t ∈ known)
  | TimerCheck _ => true
  end.

(** The list of the queue is the list of the pending timers; the others have
    no expiry time. *)
Record timers_rel (known : gset Z) (st : timers) (l : pending) : Prop := {
  tm_queue : is_queue (node_heap st) (timer_list st) l.*1;
  tm_known : dom (expires_time st) = known;
  tm_nodes : ∀ t, t ∈ known → t ≠ NULL ∧ is_Some (node_heap st !! t);
  tm_pending : ∀ t e, (t, e) ∈ l → expires_time st !! t = Some e ∧ e ≠ 0;
  tm_idle : ∀ t, t ∈ known → t ∉ l.*1 → expires_time st !! t = Some 0;
}.

Lemma expiry_ok up s us :
  0 ≤ s ≤ 2 → 0 ≤ us ≤ 2147483 → 0 ≤ up → up + s * NANOS_PER_SECOND + us * 1000 < 2 ^ 64 →
  expiry up s us = up + s * NANOS_PER_SECOND + us * 1000.
Proof.
  unfold expiry, NANOS_PER_SECOND. intros. rewrite !s32_small by lia. apply uwrap_small. lia.
Qed.

Lemma pending_known known st l t e : timers_rel known st l → (t, e) ∈ l → t ∈ known.
Proof.
  intros Hrel Hin. destruct (tm_pending _ _ _ Hrel t e Hin) as [He _].
  rewrite <- (tm_known _ _ _ Hrel). by eapply elem_of_dom_2.
Qed.

Lemma without_none t (l : pending) : t ∉ l.*1 → without t l = l.
Proof.
  unfold without. induction l as [|[x e] l IH]; intros H; [done|].
  apply not_elem_of_cons in H as [Hx Hl]. rewrite filter_cons_True by (simpl in *; congruence).
  by rewrite IH.
Qed.

Lemma without_split t l1 e l2 :
  NoDup (l1 ++ (t, e) :: l2).*1 → without t (l1 ++ (t, e) :: l2) = l1 ++ l2.
Proof.
  intros Hnd. rewrite fmap_app in Hnd. apply NoDup_app in Hnd as (_ & Hd & [Ht2 _]%NoDup_cons).
  unfold without. rewrite filter_app, filter_cons_False by (simpl; tauto).
  fold (without t l1) (without t l2). rewrite !without_none; [done|done|].
  intros Hin. apply (Hd t Hin). simpl. apply elem_of_cons. by left.
Qed.

Lemma elem_fmap_fst t (l : pending) : t ∈ l.*1 ↔ ∃ e, (t, e) ∈ l.
Proof.
  rewrite list_elem_of_fmap. split; [intros ([x e] & -> & H); eauto|intros [e H]; by exists (t, e)].
Qed.

(** Taking a pending timer off the queue. *)
Lemma unlink known st l1 t e l2 :
  timers_rel known st (l1 ++ (t, e) :: l2) →
  ∃ h q, _queue_remove (node_heap st) (timer_list st) t = Some (h, q) ∧
    is_queue h q (l1 ++ l2).*1 ∧ h !! t = Some (mk_node NULL NULL) ∧
    (∀ x, x ∈ known → x ≠ NULL ∧ is_Some (h !! x)).
Proof.
  intros Hrel. pose proof (tm_queue _ _ _ Hrel) as Hq. rewrite fmap_app in Hq. simpl in Hq.
  destruct (queue_remove_split _ _ _ _ _ Hq) as (h & q & E & Hq' & Ht & Hf).
  exists h, q. split; [done|]. rewrite fmap_app. split; [done|]. split; [done|].
  intros x Hx. destruct (tm_nodes _ _ _ Hrel x Hx) as [Hx0 Hxs]. split; [done|].
  destruct (decide (x = t)) as [->|Hne]; [by rewrite Ht|].
  destruct (decide (x ∈ l1.*1 ++ l2.*1)) as [Hin|Hni]; [by eapply is_queue_elem|].
  rewrite Hf; [done|]. rewrite not_elem_of_app in *. rewrite not_elem_of_cons. tauto.
Qed.

Lemma timers_nodup known st l : timers_rel known st l → NoDup l.*1.
Proof. intros Hrel. apply (tm_queue _ _ _ Hrel). Qed.

Lemma remove_pending known st l1 t e l2 :
  timers_rel known st (l1 ++ (t, e) :: l2) →
  ∃ st', remove_timer st t = Some (st', 0) ∧ timers_rel known st' (l1 ++ l2) ∧
    expires_time st' = <[t := 0]> (expires_time st).
Proof.
  intros Hrel. destruct (tm_pending _ _ _ Hrel t e) as [He He0]; [set_solver|].
  destruct (unlink _ _ _ _ _ _ Hrel) as (h & q & E & Hq & _ & Hn).
  unfold remove_timer. rewrite He. simpl. destruct (Z.eqb_spec e 0); [done|]. rewrite E. simpl.
  eexists. split; [done|]. split; [|done].
  pose proof (timers_nodup _ _ _ Hrel) as Hnd. rewrite fmap_app in Hnd.
  apply NoDup_app in Hnd as (_ & Hd & [Ht2 _]%NoDup_cons).
  assert (Hne : ∀ x y, (x, y) ∈ l1 ++ l2 → x ≠ t).
  { intros x y [Hin|Hin]%elem_of_app ->.
    - apply (Hd t); [apply elem_fmap_fst; eauto|simpl; set_solver].
    - apply Ht2, elem_fmap_fst. eauto. }
  constructor; simpl; try done.
  - rewrite dom_insert_lookup_L by done. apply Hrel.
  - intros x y Hin. rewrite lookup_insert_ne by (intros ->; by eapply Hne).
    apply (tm_pending _ _ _ Hrel). set_solver.
  - intros x Hx Hni. destruct (decide (x = t)) as [->|Hxt]; [by rewrite lookup_insert_eq|].
    rewrite lookup_insert_ne by done. apply (tm_idle _ _ _ Hrel); [done|].
    rewrite fmap_app, not_elem_of_app in *. simpl. rewrite not_elem_of_cons. tauto.
Qed.

Lemma remove_timer_ok known st l t :
  timers_rel known st l → t ∈ known →
  ∃ st', remove_timer st t = Some (st', if bool_decide (t ∈ l.*1) then 0 else -1) ∧
    timers_rel known st' (without t l).
Proof.
  intros Hrel Hk. destruct (decide (t ∈ l.*1)) as [Hin|Hni].
  - rewrite bool_decide_eq_true_2 by done. apply elem_fmap_fst in Hin as [e Hin].
    apply list_elem_of_split in Hin as (l1 & l2 & ->).
    destruct (remove_pending _ _ _ _ _ _ Hrel) as (st' & E & Hrel' & _). exists st'.
    rewrite without_split by (by eapply timers_nodup). done.
  - rewrite bool_decide_eq_false_2, without_none by done. exists st.
    unfold remove_timer. by rewrite (tm_idle _ _ _ Hrel t Hk Hni).
Qed.

(** Queueing a timer that is not pending. *)
Lemma link_timer known st h q l t e :
  is_queue h q l.*1 → t ∉ l.*1 → t ∈ known → e ≠ 0 →
  (∀ x, x ∈ known → x ≠ NULL ∧ is_Some (h !! x)) → dom (expires_time st) = known →
  (∀ x y, (x, y) ∈ l → expires_time st !! x = Some y ∧ y ≠ 0) →
  (∀ x, x ∈ known → x ∉ l.*1 → x ≠ t → expires_time st !! x = Some 0) →
  ∃ h' q', _queue_insert h q t = Some (h', q') ∧
    timers_rel known (Timers h' q' (<[t := e]> (expires_time st))) ((t, e) :: l).
Proof.
  intros Hq Hni Hk He Hn Hdom Hp Hidle. destruct (Hn t Hk) as [Ht0 Hts].
  destruct (queue_insert_after_split h q [] l.*1 t Hq Hni Ht0 Hts) as (h' & q' & E & Hq' & Hf).
  exists h', q'. rewrite queue_insert_as_insert_after. split; [done|]. constructor; simpl; try done.
  - rewrite dom_insert_L, Hdom. set_solver.
  - intros x Hx. destruct (Hn x Hx) as [Hx0 Hxs]. split; [done|].
    destruct (decide (x ∈ t :: l.*1)) as [Hin|Hnin]; [by eapply is_queue_elem|]. by rewrite Hf.
  - intros x y [[= -> ->]|Hin]%elem_of_cons; [by rewrite lookup_insert_eq|].
    rewrite lookup_insert_ne; [auto|]. intros ->. apply Hni, elem_fmap_fst. eauto.
  - intros x Hx [Hxt Hxl]%not_elem_of_cons. rewrite lookup_insert_ne by done. by apply Hidle.
Qed.

Lemma add_timer_ok known st l t up s us :
  timers_rel known st l → t ∈ known → expiry up s us ≠ 0 →
  ∃ st', add_timer st up t s us = Some (st', 0) ∧
    timers_rel known st' ((t, expiry up s us) :: without t l).
Proof.
  intros Hrel Hk He. unfold add_timer. destruct (decide (t ∈ l.*1)) as [Hin|Hni].
  - apply elem_fmap_fst in Hin as [e Hin]. apply list_elem_of_split in Hin as (l1 & l2 & ->).
    destruct (tm_pending _ _ _ Hrel t e) as [Hte He0]; [set_solver|]. rewrite Hte. simpl.
    destruct (Z.eqb_spec e 0); [done|]. simpl.
    destruct (unlink _ _ _ _ _ _ Hrel) as (h & q & -> & Hq & _ & Hn). simpl.
    pose proof (timers_nodup _ _ _ Hrel) as Hnd. rewrite without_split by done.
    rewrite fmap_app in Hnd. apply NoDup_app in Hnd as (_ & Hd & [Ht2 _]%NoDup_cons).
    destruct (link_timer known st h q (l1 ++ l2) t (expiry up s us)) as (h' & q' & -> & Hrel'); try done.
    + rewrite fmap_app, not_elem_of_app. split; [|done]. intros H1. apply (Hd t H1). simpl. set_solver.
    + apply Hrel.
    + intros x y Hin. apply (tm_pending _ _ _ Hrel). set_solver.
    + intros x Hx Hxl Hxt. apply (tm_idle _ _ _ Hrel); [done|].
      rewrite fmap_app, not_elem_of_app in *. simpl. rewrite not_elem_of_cons. tauto.
    + simpl. eauto.
  - rewrite (tm_idle _ _ _ Hrel t Hk Hni). simpl. rewrite without_none by done.
    destruct (link_timer known st (node_heap st) (timer_list st) l t (expiry up s us))
      as (h' & q' & -> & Hrel'); try done; try apply Hrel.
    + intros x Hx Hxl _. by apply (tm_idle _ _ _ Hrel).
    + simpl. eauto.
Qed.

Lemma queue_next_split h q l1 x l2 :
  is_queue h q (l1 ++ x :: l2) → _queue_next h x = Some (first_of NULL l2).
Proof.
  intros (_ & Hs & _). apply dlseg_app in Hs as [_ (_ & Hx & _)]. unfold _queue_next. by rewrite Hx.
Qed.

Lemma check_loop_ok known up l2 : ∀ fuel st l1,
  timers_rel known st (l1 ++ l2) → (length l2 ≤ fuel)%nat →
  ∃ st', check_loop fuel st up (first_of NULL l2.*1) = Some (st', (filter (λ p, p.2 < up) l2).*1) ∧
    timers_rel known st' (l1 ++ filter (λ p, up ≤ p.2) l2).
Proof.
  induction l2 as [|[t e] l2 IH]; intros fuel st l1 Hrel Hf.
  - exists st. destruct fuel; done.
  - destruct fuel as [|fuel]; [simpl in Hf; lia|]. rewrite fmap_cons. cbn [check_loop first_of fst].
    destruct (tm_pending _ _ _ Hrel t e) as [Hte He0]; [set_solver|].
    destruct (tm_nodes _ _ _ Hrel t) as [Ht0 _]; [apply (pending_known known st _ t e Hrel); set_solver|].
    destruct (Z.eqb_spec t NULL); [done|].
    pose proof (tm_queue _ _ _ Hrel) as Hq. rewrite fmap_app, fmap_cons in Hq. cbn [fst] in Hq.
    rewrite (queue_next_split _ _ _ _ _ Hq). cbn [mbind option_bind]. rewrite Hte. cbn [mbind option_bind].
    destruct (Z.ltb_spec e up) as [Hlt|Hge].
    + rewrite filter_cons_True, filter_cons_False by (simpl; lia).
      destruct (remove_pending _ _ _ _ _ _ Hrel) as (st1 & -> & Hrel1 & _). cbn [mbind option_bind].
      destruct (IH fuel st1 l1 Hrel1 ltac:(simpl in Hf; lia)) as (st2 & -> & Hrel2). simpl. eauto.
    + rewrite filter_cons_False, filter_cons_True by (simpl; lia).
      replace (l1 ++ (t, e) :: l2) with ((l1 ++ [(t, e)]) ++ l2) in Hrel by (by rewrite <- app_assoc).
      destruct (IH fuel st (l1 ++ [(t, e)]) Hrel ltac:(simpl in Hf; lia)) as (st2 & -> & Hrel2).
      exists st2. split; [done|]. by rewrite <- app_assoc in Hrel2.
Qed.

Lemma timers_size known st l : timers_rel known st l → (length l ≤ size (expires_time st))%nat.
Proof.
  intros Hrel. rewrite <- (length_fmap fst l). rewrite <- (size_list_to_set (C := gset Z))
    by (by eapply timers_nodup).
  rewrite <- (size_dom (D := gset Z)). apply subseteq_size. intros t Ht.
  apply elem_of_list_to_set, elem_fmap_fst in Ht as [e Ht].
  rewrite (tm_known _ _ _ Hrel). by eapply pending_known.
Qed.

Lemma timer_step_ok known st l op : timers_rel known st l → timer_ok known op = true →
  ∃ st', timer_step st op = Some (st', (timer_spec l op).2) ∧ timers_rel known st' (timer_spec l op).1.
Proof.
  intros Hrel Hs. destruct op as [up t s us|t|up]; simpl in Hs |- *.
  - rewrite !andb_true_iff, bool_decide_eq_true in Hs. destruct Hs as (((((((? & ?) & ?) & ?) & ?) & ?) & ?) & ?).
    destruct (add_timer_ok known st l t up s us Hrel) as (st' & -> & Hrel'); [done|rewrite expiry_ok; lia|].
    rewrite expiry_ok in Hrel' by lia. simpl. eauto.
  - apply bool_decide_eq_true in Hs.
    destruct (remove_timer_ok known st l t Hrel) as (st' & -> & Hrel'); [done|]. simpl. eauto.
  - pose proof (timers_size _ _ _ Hrel) as Hsz. unfold check_timers.
    destruct (tm_queue _ _ _ Hrel) as (_ & _ & Hh & _). unfold _queue_head. rewrite Hh.
    destruct (check_loop_ok known up l (size (expires_time st)) st [] Hrel Hsz) as (st' & -> & Hrel').
    eauto.
Qed.

(** C26: any sequence of starting, stopping and checking timers, in which the
    delays are of at most 2 seconds and 2147483 microseconds: exactly the
    pending timers are queued with their expiry times, a check fires those
    that have expired, each once, and leaves the rest pending.  The condition
    is needed: with 3 seconds the product in add_timer overflows. *)
Theorem timers_run_refines known st l ops : timers_rel known st l → forallb (timer_ok known) ops = true →
  ∃ st' l' out, run_out timer_step st ops = Some (st', out) ∧
    run_out (λ l op, Some (timer_spec l op)) l ops = Some (l', out) ∧ timers_rel known st' l'.
Proof.
  revert st l. induction ops as [|op ops IH]; intros st l Hrel Hok; simpl in *; [by eexists _, _, _|].
  apply andb_true_iff in Hok as [Hop Hok]. destruct (timer_step_ok known st l op Hrel Hop) as (st1 & -> & Hrel1). simpl.
  destruct (timer_spec l op) as [l1 o1]. destruct (IH st1 l1 Hrel1 Hok) as (st2 & l2 & o2 & -> & -> & Hrel2). simpl. by eexists _, _, _.
Qed.

Definition example_timers : timers :=
  Timers {[ 16 := mk_node 0 0; 32 := mk_node 0 0 ]} _queue_init {[ 16 := 0; 32 := 0 ]}.

Lemma example_timers_rel : timers_rel {[ 16; 32 ]} example_timers [].
Proof.
  constructor; simpl.
  - split; [constructor|]. done.
  - set_solver.
  - intros t [->%elem_of_singleton| ->%elem_of_singleton]%elem_of_union; (split; [done|eexists; reflexivity]).
  - intros t e []%not_elem_of_nil.
  - intros t [->%elem_of_singleton| ->%elem_of_singleton]%elem_of_union _; reflexivity.
Qed.

Lemma timers_run_refines_witness :
  ∃ st' l' out, run_out timer_step example_timers
    [TimerAdd 1000 16 1 0; TimerAdd 2000 32 0 500; TimerCheck 600000; TimerRemove 32; TimerCheck 2000000000] = Some (st', out) ∧
    run_out (λ l op, Some (timer_spec l op)) []
    [TimerAdd 1000 16 1 0; TimerAdd 2000 32 0 500; TimerCheck 600000; TimerRemove 32; TimerCheck 2000000000] = Some (l', out) ∧
    timers_rel {[ 16; 32 ]} st' l'.
Proof.
  apply (timers_run_refines {[ 16; 32 ]} example_timers []).
  - apply example_timers_rel.
  - vm_compute. reflexivity.
Defined.

Example timers_fire : snd <$> run_out timer_step example_timers
  [TimerAdd 1000 16 1 0; TimerAdd 2000 32 0 500; TimerCheck 600000; TimerRemove 32; TimerCheck 2000000000] = Some [[0]; [0]; [32]; [-1]; [16]].
Proof. vm_compute. reflexivity. Qed.

(** The product with the nanoseconds of a second is an int: three seconds
    overflow it and the timer has expired before it starts. *)
Lemma add_timer_overflow : expiry (5 * NANOS_PER_SECOND) 3 0 = 3705032704.
Proof. reflexivity. Qed.
End Timer.
