(* ===== verification/Result.v ===== *)
(** * Result: what a call into the kernel can do

    A call returns, stops the machine ([panic] in include/kernel/printk.h) or
    has undefined behaviour.  [wp r H Q] is the partial order of outcomes a
    specification allows: no undefined behaviour, a halt only under the
    condition [H], and a returned value in [Q]. *)

From S2P Require Import Prelude.

Inductive res (A : Type) :=
  | Val (a : A)
  | Halt
  | Undef.
Arguments Val {_} _.
Arguments Halt {_}.
Arguments Undef {_}.

#[export] Instance res_ret : MRet res := λ A a, Val a.
#[export] Instance res_bind : MBind res := λ A B f r,
  match r with Val a => f a | Halt => Halt | Undef => Undef end.

(** A computation that only the memory it touches can stop. *)
Definition lift {A} (o : option A) : res A := match o with Some a => Val a | None => Undef end.

Definition wp {A} (r : res A) (H : Prop) (Q : A → Prop) : Prop :=
  match r with Val a => Q a | Halt => H | Undef => False end.

Lemma wp_bind {A B} (f : A → res B) r H Q :
  wp r H (λ a, wp (f a) H Q) → wp (r ≫= f) H Q.
Proof. by destruct r. Qed.

Lemma wp_mono {A} (r : res A) (H H' : Prop) (Q Q' : A → Prop) :
  wp r H Q → (H → H') → (∀ a, Q a → Q' a) → wp r H' Q'.
Proof. destruct r; simpl; auto. Qed.

(** A call whose specification is known, followed by the rest of the code. *)
Lemma wp_call {A B} (f : A → res B) r H Q Q' :
  wp r H Q → (∀ a, Q a → wp (f a) H Q') → wp (r ≫= f) H Q'.
Proof. intros Hr Hf. apply wp_bind. by eapply wp_mono. Qed.

Lemma wp_lift {A} (o : option A) a H Q : o = Some a → Q a → wp (lift o) H Q.
Proof. by intros ->. Qed.

(** Without a reason to halt, the call returns. *)
Lemma wp_returns {A} (r : res A) Q : wp r False Q → ∃ a, r = Val a ∧ Q a.
Proof. destruct r; simpl; [eauto|done..]. Qed.

(** Runs the steps whose result is known. *)
Ltac res_simpl := cbn [mbind res_bind lift].

Ltac wp_step lem := eapply wp_call; [eapply lem|].

(** Follows a chain of steps that is known to succeed. *)
Ltac chain H :=
  repeat match type of H with
  | ?o ≫= _ = Some _ =>
      let E := fresh "E" in let b := fresh "b" in
      destruct o as [b|] eqn:E; cbn [mbind option_bind] in H; [|done]; cbn [lift]; res_simpl
  end.

(** ** Error numbers (include/errno.h) *)
Definition ENOENT : Z := -2.
Definition EIO : Z := -5.
Definition ENXIO : Z := -6.
Definition ENOMEM : Z := -12.
Definition EEXIST : Z := -17.
Definition ENOTDIR : Z := -20.
Definition EISDIR : Z := -21.
Definition ENOSPC : Z := -28.
Definition ENAMETOOLONG : Z := -36.
Definition ENOTEMPTY : Z := -39.
