(* ===== verification/Device.v ===== *)
(** * Device: the driver table (src/kernel/drivers.c) and the RAM disk
      (src/kernel/drivers/block/mem.c)

    A driver is its table of functions on the state [D] of the machine its
    drivers work on; a function pointer may be NULL ([None]).  [DiskLaws] is
    what the buffer cache relies on: in range, reads and writes transfer all
    they were asked for.  The RAM disk, reached through the driver table,
    fulfils it. *)

From S2P Require Import Prelude Iovec Result.

Definition DEVMAJOR_MEM : Z := 3.
Definition VFS_POLL_READ : Z := 1.
Definition VFS_POLL_WRITE : Z := 2.

(** device_t is a short, the major and minor numbers unsigned characters. *)
Definition DEVNUM (major minor : Z) : Z := s16 (Z.lor (Z.shiftl major 8) minor).
Definition DEVMAJOR (dev : Z) : Z := u8 (Z.shiftr dev 8).
Definition DEVMINOR (dev : Z) : Z := Z.land dev 255.

(** ** The driver table *)
Section drivers.
Context {D : Type}.

Record driver := Driver {
  drv_init : bool;   (** called by main.c; the table only looks whether it is there *)
  drv_open : option (D → Z → Z → res (D * Z));
  drv_close : option (D → Z → res (D * Z));
  drv_read : option (D → Z → Z → iovec_iter → res (D * iovec_iter * Z));
  drv_write : option (D → Z → Z → iovec_iter → res (D * iovec_iter * Z));
  drv_ioctl : option (D → Z → Z → iovec_iter → Z → res (D * iovec_iter * Z));
  drv_poll : option (D → Z → Z → res (D * Z));
  drv_seek : option (D → Z → Z → Z → Z → res (D * Z));
}.

Definition MAX_DRIVERS : nat := 6.

Definition init_drivers : list (option driver) := replicate MAX_DRIVERS None.

Definition complete (d : driver) : bool :=
  drv_init d && bool_decide (is_Some (drv_open d)) &&
  bool_decide (is_Some (drv_close d)) && bool_decide (is_Some (drv_read d)) &&
  bool_decide (is_Some (drv_write d)) && bool_decide (is_Some (drv_ioctl d)) &&
  bool_decide (is_Some (drv_poll d)) && bool_decide (is_Some (drv_seek d)).

Definition register_driver (drv_table : list (option driver)) (major : Z) (d : driver) :
    res (list (option driver) * Z) :=
  if Z.of_nat MAX_DRIVERS <=? major then Val (drv_table, -1)
  else
    cur ← lift (rd drv_table major);
    match cur with
    | Some _ => Val (drv_table, -1)
    | None =>
        if negb (complete d) then Val (drv_table, -1)
        else t ← lift (wr drv_table major (Some d)); Val (t, 0)
    end.

Definition get_driver (drv_table : list (option driver)) (major : Z) : res (option driver) :=
  if Z.of_nat MAX_DRIVERS <=? major then Val None else lift (rd drv_table major).

(** [if (major >= MAX_DRIVERS || !drv_table[major]) return ENXIO;] at the
    head of the calls below, then the driver's function. *)
Definition dispatch {A} (drv_table : list (option driver)) (dev : Z) (enxio : A)
    (call : driver → Z → res A) : res A :=
  let major := DEVMAJOR dev in
  let minor := DEVMINOR dev in
  if Z.of_nat MAX_DRIVERS <=? major then Val enxio
  else
    d ← lift (rd drv_table major);
    match d with None => Val enxio | Some d => call d minor end.

Definition dev_open (t : list (option driver)) (s : D) (dev access : Z) : res (D * Z) :=
  dispatch t dev (s, ENXIO) (λ d minor, f ← lift (drv_open d); f s minor access).

Definition dev_close (t : list (option driver)) (s : D) (dev : Z) : res (D * Z) :=
  dispatch t dev (s, ENXIO) (λ d minor, f ← lift (drv_close d); f s minor).

Definition dev_read (t : list (option driver)) (s : D) (dev offset : Z) (iter : iovec_iter) :
    res (D * iovec_iter * Z) :=
  dispatch t dev (s, iter, ENXIO) (λ d minor, f ← lift (drv_read d); f s minor offset iter).

Definition dev_write (t : list (option driver)) (s : D) (dev offset : Z) (iter : iovec_iter) :
    res (D * iovec_iter * Z) :=
  dispatch t dev (s, iter, ENXIO) (λ d minor, f ← lift (drv_write d); f s minor offset iter).

Definition dev_ioctl (t : list (option driver)) (s : D) (dev request : Z) (iter : iovec_iter)
    (uid : Z) : res (D * iovec_iter * Z) :=
  dispatch t dev (s, iter, ENXIO) (λ d minor, f ← lift (drv_ioctl d); f s minor request iter uid).

Definition dev_poll (t : list (option driver)) (s : D) (dev events : Z) : res (D * Z) :=
  dispatch t dev (s, ENXIO) (λ d minor, f ← lift (drv_poll d); f s minor events).

(** offset_t is unsigned. *)
Definition dev_seek (t : list (option driver)) (s : D) (dev position whence offset : Z) :
    res (D * Z) :=
  dispatch t dev (s, u32 ENXIO) (λ d minor, f ← lift (drv_seek d); f s minor position whence offset).

(** A sequence of registrations, the table they leave and their results. *)
Definition register_step (t : list (option driver)) (r : Z * driver) :
    res (list (option driver) * Z) :=
  register_driver t r.1 r.2.

Fixpoint register_all (t : list (option driver)) (rs : list (Z * driver)) :
    res (list (option driver) * list Z) :=
  match rs with
  | [] => Val (t, [])
  | r :: rs => '(t, n) ← register_step t r; '(t, ns) ← register_all t rs; Val (t, n :: ns)
  end.

(** The driver that owns a major number: the first complete one. *)
Definition owner (rs : list (Z * driver)) (major : Z) : option driver :=
  snd <$> head (filter (λ r, r.1 = major ∧ complete r.2 = true) rs).
End drivers.
Arguments driver : clear implicits.

Section driver_table.
Context {D : Type}.
Implicit Types (t : list (option (driver D))) (rs : list (Z * driver D)).

Lemma register_driver_ok t major d :
  length t = MAX_DRIVERS → 0 ≤ major →
  ∃ t' n, register_driver t major d = Val (t', n) ∧ length t' = MAX_DRIVERS ∧
    ∀ i : nat, (i < MAX_DRIVERS)%nat → t' !! i = Some
      (match t !! i with
       | Some (Some d') => Some d'
       | _ => if bool_decide (major = Z.of_nat i) && complete d then Some d else None
       end).
Proof.
  intros Hl Hm. unfold register_driver.
  assert (Hget : ∀ i : nat, (i < MAX_DRIVERS)%nat → ∃ o, t !! i = Some o)
    by (intros i Hi; apply lookup_lt_is_Some_2; lia).
  assert (Hsame : Z.of_nat MAX_DRIVERS ≤ major ∨
      (∃ d', t !! Z.to_nat major = Some (Some d')) ∨ complete d = false →
    ∀ i : nat, (i < MAX_DRIVERS)%nat → t !! i = Some
      (match t !! i with
       | Some (Some d') => Some d'
       | _ => if bool_decide (major = Z.of_nat i) && complete d then Some d else None
       end)).
  { intros Hno i Hi. destruct (Hget i Hi) as [o Ho]. rewrite Ho.
    destruct o; [done|]. case_bool_decide; [|done]. subst major.
    destruct Hno as [?|[[d' Hd]|Hc]]; [lia| |by rewrite Hc].
    rewrite Nat2Z.id in Hd. congruence. }
  destruct (Z.leb_spec (Z.of_nat MAX_DRIVERS) major); [by eexists _, _; eauto 6|].
  destruct (Hget (Z.to_nat major)) as [o Ho]; [lia|].
  assert (rd t major = Some o) as -> by (apply rd_some; split; [lia|done]). simpl.
  destruct o as [d'|]; [eexists _, _; split; [done|]; split; [done|]; apply Hsame; eauto 6|].
  destruct (complete d) eqn:Hc; simpl; [|eexists _, _; eauto 6].
  rewrite wr_in_range by lia. simpl. eexists _, _. split; [done|].
  split; [by rewrite length_insert|]. intros i Hi. destruct (Hget i Hi) as [o' Hi'].
  destruct (decide (i = Z.to_nat major)) as [->|Hne].
  - rewrite list_lookup_insert_eq by lia. rewrite Ho, bool_decide_true by lia. done.
  - rewrite list_lookup_insert_ne by done. rewrite Hi', bool_decide_false by lia.
    by destruct o'.
Qed.

(** The table after some registrations, seen as a function of the majors. *)
Definition table_is t (f : nat → option (driver D)) : Prop :=
  length t = MAX_DRIVERS ∧ ∀ i, (i < MAX_DRIVERS)%nat → t !! i = Some (f i).

Lemma register_all_ok rs t f :
  table_is t f → Forall (λ r, 0 ≤ r.1) rs →
  ∃ t' ns, register_all t rs = Val (t', ns) ∧
    table_is t' (λ i, match f i with Some d => Some d | None => owner rs (Z.of_nat i) end).
Proof.
  revert t f. induction rs as [|[major d] rs IH]; intros t f [Hl Ht] Hrs; simpl.
  { eexists _, _. split; [done|]. split; [done|]. intros i Hi. rewrite Ht by done.
    by destruct (f i). }
  apply Forall_cons in Hrs as [Hm Hrs].
  destruct (register_driver_ok t major d Hl Hm) as (t1 & n & E & Hl1 & Ht1).
  unfold register_step. simpl. rewrite E. simpl.
  destruct (IH t1 (λ i, match f i with Some d' => Some d'
    | None => if bool_decide (major = Z.of_nat i) && complete d then Some d else None end))
    as (t2 & ns & -> & Hl2 & Ht2); [|done|].
  { split; [done|]. intros i Hi. rewrite Ht1, Ht by done. by destruct (f i). }
  simpl. eexists _, _. split; [done|]. split; [done|]. intros i Hi. rewrite Ht2 by done.
  f_equal. destruct (f i); [done|]. unfold owner. case_bool_decide; simpl.
  - destruct (complete d) eqn:Hc; simpl.
    + by rewrite filter_cons_True.
    + rewrite filter_cons_False; [done|]. simpl. intros [_ ?]. congruence.
  - rewrite filter_cons_False; [done|]. simpl. intros [? _]. lia.
Qed.

(** C39: every major number belongs to the first complete driver registered
    under it; a later registration, an incomplete driver or a number beyond the
    table is refused, and a call to a device goes to the owner of its major
    number or returns ENXIO. *)
Theorem driver_table_ok rs :
  Forall (λ r, 0 ≤ r.1) rs →
  ∃ t ns, register_all init_drivers rs = Val (t, ns) ∧
    ∀ A dev (enxio : A) call,
      dispatch t dev enxio call =
        match (if DEVMAJOR dev <? 6 then owner rs (DEVMAJOR dev) else None) with
        | Some d => call d (DEVMINOR dev)
        | None => Val enxio
        end.
Proof.
  intros Hrs. destruct (register_all_ok rs init_drivers (λ _, None)) as (t & ns & E & Hl & Ht).
  { split; [done|]. intros i Hi. unfold init_drivers. by rewrite lookup_replicate_2. }
  { done. }
  exists t, ns. split; [done|]. intros A dev enxio call. unfold dispatch.
  change (Z.of_nat MAX_DRIVERS) with 6. pose proof (uwrap_range 8 (Z.shiftr dev 8)) as Hr.
  fold (DEVMAJOR dev) in Hr. change (uwrap 8 (Z.shiftr dev 8)) with (DEVMAJOR dev) in Hr.
  destruct (Z.leb_spec 6 (DEVMAJOR dev)), (Z.ltb_spec (DEVMAJOR dev) 6); try lia; [done|].
  assert (rd t (DEVMAJOR dev) = Some (owner rs (DEVMAJOR dev))) as ->.
  { apply rd_some. split; [lia|]. rewrite Ht by (unfold MAX_DRIVERS; lia).
    by rewrite Z2Nat.id by lia. }
  simpl. by destruct (owner rs (DEVMAJOR dev)).
Qed.
End driver_table.

(** ** What a client of a disk relies on *)
Class DiskLaws {D : Type} (t : list (option (driver D))) (dev : Z) := {
  disk_is : D → list Z → Prop;
  disk_read_law s c off it old :
    disk_is s c → iter_rel it old 0 → 0 ≤ off → off + zlen old ≤ zlen c →
    ∃ s' it', dev_read t s dev off it = Val (s', it', zlen old) ∧ disk_is s' c ∧
      iter_rel it' (slice c (Z.to_nat off) (length old)) (length old) ∧
      same_layout (it_data it) (it_data it');
  disk_write_law s c off it bs :
    disk_is s c → iter_rel it bs 0 → 0 ≤ off → off + zlen bs ≤ zlen c →
    ∃ s' it', dev_write t s dev off it = Val (s', it', zlen bs) ∧
      disk_is s' (splice c (Z.to_nat off) bs);
}.

(** ** The RAM disk *)
Record mem_geometry := Geometry { geo_base : Z; geo_size : Z }.

(** The static variables of mem.c, and the memory [geo_base] points into: the
    bytes [ram] from the address [ram_start] on. *)
Record memdisk := Memdisk {
  num_devices : Z;
  devices : list mem_geometry;
  ram_start : Z;
  ram : list Z;
}.

Definition MAX_DEVICES : Z := 1.

Definition mem_add_geometry (st : memdisk) (b n : Z) : res (memdisk * Z) :=
  if MAX_DEVICES <=? num_devices st then Val (st, EINVAL)
  else
    d ← lift (wr (devices st) (num_devices st) (Geometry b n));
    Val (Memdisk (num_devices st + 1) d (ram_start st) (ram st), 0).

Definition mem_open (st : memdisk) (minor access : Z) : res (memdisk * Z) :=
  Val (st, if num_devices st <=? minor then ENXIO else 0).

Definition mem_close (st : memdisk) (minor : Z) : res (memdisk * Z) :=
  Val (st, if num_devices st <=? minor then ENXIO else 0).

(** The index into [ram] of an address; the end of the memory is an address,
    but nothing can be read there. *)
Definition ram_index (st : memdisk) (a : Z) : option nat :=
  if (ram_start st <=? a) && (a <=? ram_start st + zlen (ram st))
  then Some (Z.to_nat (a - ram_start st)) else None.

(** How much of a request is inside the device. *)
Definition clip (geo : mem_geometry) (offset n : Z) : Z :=
  if geo_size geo <? u32 (offset + n) then u32 (geo_size geo - offset) else n.

Definition mem_read (st : memdisk) (minor offset : Z) (iter : iovec_iter) :
    res (memdisk * iovec_iter * Z) :=
  if num_devices st <=? minor then Val (st, iter, ENXIO)
  else
    geo ← lift (rd (devices st) minor);
    if geo_size geo <? offset then Val (st, iter, EINVAL)
    else
      let n := clip geo offset (iovec_iter_remaining iter) in
      i ← lift (ram_index st (u32 (geo_base geo + offset)));
      '(iter, _) ← lift (memcpy_into_iter iter (drop i (ram st)) n);
      Val (st, iter, s32 n).

Definition mem_write (st : memdisk) (minor offset : Z) (iter : iovec_iter) :
    res (memdisk * iovec_iter * Z) :=
  if num_devices st <=? minor then Val (st, iter, ENXIO)
  else
    geo ← lift (rd (devices st) minor);
    if geo_size geo <? offset then Val (st, iter, EINVAL)
    else
      let n := clip geo offset (iovec_iter_remaining iter) in
      i ← lift (ram_index st (u32 (geo_base geo + offset)));
      '(iter, dest, _) ← lift (memcpy_out_of_iter iter (drop i (ram st)) n);
      Val (Memdisk (num_devices st) (devices st) (ram_start st) (take i (ram st) ++ dest),
           iter, s32 n).

Definition mem_ioctl (st : memdisk) (minor request : Z) (iter : iovec_iter) (uid : Z) :
    res (memdisk * iovec_iter * Z) :=
  Val (st, iter, if num_devices st <=? minor then ENXIO else EINVAL).

Definition mem_poll (st : memdisk) (minor events : Z) : res (memdisk * Z) :=
  Val (st, Z.land events (Z.lor VFS_POLL_READ VFS_POLL_WRITE)).

(** [EINVAL] and [ENXIO] come back as an offset_t, which is unsigned. *)
Definition mem_seek (st : memdisk) (minor position whence offset : Z) : res (memdisk * Z) :=
  if num_devices st <=? minor then Val (st, u32 ENXIO)
  else
    geo ← lift (rd (devices st) minor);
    let target :=
      if whence =? SEEK_SET then Some position
      else if whence =? SEEK_CUR then Some (u32 (offset + position))
      else if whence =? SEEK_END then Some (u32 (geo_size geo + position))
      else None in
    match target with
    | None => Val (st, u32 EINVAL)
    | Some position => Val (st, if geo_size geo <? position then geo_size geo else position)
    end.

Definition mem_driver : driver memdisk :=
  Driver true (Some mem_open) (Some mem_close) (Some mem_read) (Some mem_write)
    (Some mem_ioctl) (Some mem_poll) (Some mem_seek).

(** MEMDISK0_START and CONFIG_MEMDISK0_SIZE are the arguments [start] and [n]. *)
Definition mem_init (start n : Z) (t : list (option (driver memdisk))) (st : memdisk) :
    res (list (option (driver memdisk)) * memdisk * Z) :=
  '(st, error) ← mem_add_geometry (Memdisk 0 (devices st) (ram_start st) (ram st)) start n;
  if error <? 0 then Val (t, st, error)
  else
    '(t, error) ← register_driver t DEVMAJOR_MEM mem_driver;
    if error <? 0 then Val (t, st, error) else Val (t, st, 0).

Definition mem_dev : Z := DEVNUM DEVMAJOR_MEM 0.

(** The RAM disk holds the bytes [c]. *)
Definition memdisk_is (st : memdisk) (c : list Z) : Prop :=
  num_devices st = 1 ∧
  ∃ geo, devices st = [geo] ∧ geo_size geo = zlen c ∧ 0 ≤ ram_start st ≤ geo_base geo ∧
    geo_base geo + zlen c ≤ ram_start st + zlen (ram st) < 2 ^ 32 ∧
    slice (ram st) (Z.to_nat (geo_base geo - ram_start st)) (length c) = c.

Lemma clip_min geo off n :
  0 ≤ off ≤ geo_size geo → 0 ≤ n → geo_size geo + n < 2 ^ 32 → clip geo off n = n `min` (geo_size geo - off).
Proof.
  intros. unfold clip. rewrite (u32_small (off + n)) by lia.
  destruct (Z.ltb_spec (geo_size geo) (off + n)); [rewrite u32_small by lia|]; lia.
Qed.

Lemma slice_sub {A} (l : list A) i n j k : (j + k ≤ n)%nat →
  slice (slice l i n) j k = slice l (i + j) k.
Proof. intros. unfold slice at 1. rewrite drop_slice, take_slice. f_equal. lia. Qed.

Lemma splice_sub {A} (l : list A) i n j bs : (i + n ≤ length l)%nat → (j + length bs ≤ n)%nat →
  slice (splice l (i + j) bs) i n = splice (slice l i n) j bs.
Proof.
  intros Hl Hj. apply list_eq. intros k. rewrite lookup_slice.
  rewrite !lookup_splice by (rewrite ?length_slice; lia). rewrite lookup_slice.
  repeat zif; try done; try lia; f_equal; lia.
Qed.

Lemma ram_index_ok st geo (c : list Z) off :
  devices st = [geo] → geo_size geo = zlen c → 0 ≤ ram_start st ≤ geo_base geo →
  geo_base geo + zlen c ≤ ram_start st + zlen (ram st) < 2 ^ 32 → 0 ≤ off ≤ zlen c →
  ram_index st (u32 (geo_base geo + off)) = Some (Z.to_nat (geo_base geo - ram_start st) + Z.to_nat off)%nat.
Proof.
  intros Hd Hs Hb Hr Ho. unfold ram_index. rewrite u32_small by lia.
  destruct (Z.leb_spec (ram_start st) (geo_base geo + off)); [|lia].
  destruct (Z.leb_spec (geo_base geo + off) (ram_start st + zlen (ram st))); [|lia].
  simpl. f_equal. lia.
Qed.

(** How many bytes a request for [n] bytes at [off] moves. *)
Definition moved (c : list Z) (off : Z) (n : nat) : nat := n `min` (length c - Z.to_nat off).

Lemma splice_all {A} (l bs : list A) : length bs = length l → splice l 0 bs = bs.
Proof. intros H. unfold splice. simpl. by rewrite drop_ge, app_nil_r by lia. Qed.

Lemma splice_over {A} (l bs : list A) i : (i + length bs ≤ length l)%nat →
  take i l ++ splice (drop i l) 0 bs = splice l i bs.
Proof. intros. unfold splice. simpl. by rewrite drop_drop. Qed.

Lemma mem_read_ok st c off it s pos :
  memdisk_is st c → zlen c < 2 ^ 31 → iter_rel it s pos → 0 ≤ off ≤ zlen c →
  let n := moved c off (length s - pos) in
  ∃ it', mem_read st 0 off it = Val (st, it', Z.of_nat n) ∧
    iter_rel it' (splice s pos (slice c (Z.to_nat off) n)) (pos + n) ∧
    same_layout (it_data it) (it_data it').
Proof.
  intros (Hn & geo & Hd & Hs & Hb & Hr & Hc) Hcl Hit Ho n.
  pose proof Hit as (_ & _ & Hsz & _). unfold mem_read. rewrite Hn, Hd. simpl.
  destruct (Z.ltb_spec (geo_size geo) off); [lia|].
  rewrite (iter_remaining_spec _ _ _ Hit), clip_min, (ram_index_ok st geo c) by (done || lia).
  replace (Z.of_nat (length s - pos) `min` (geo_size geo - off)) with (Z.of_nat n)
    by (unfold n, moved; lia).
  assert (Hnb : (n ≤ length s - pos)%nat ∧ (Z.to_nat off + n ≤ length c)%nat)
    by (unfold n, moved; lia).
  clearbody n. simpl.
  set (i := (Z.to_nat (geo_base geo - ram_start st) + Z.to_nat off)%nat).
  destruct (memcpy_into_iter_spec it s pos (drop i (ram st)) n Hit)
    as (it' & -> & Hit' & Hlay); [rewrite length_drop; lia|lia|].
  simpl. rewrite s32_small by lia.
  rewrite Nat.min_l in Hit' by lia.
  exists it'. split; [done|]. split; [|done].
  rewrite <- Hc, slice_sub by lia. exact Hit'.
Qed.

Lemma mem_write_ok st c off it s pos :
  memdisk_is st c → zlen c < 2 ^ 31 → iter_rel it s pos → 0 ≤ off ≤ zlen c →
  let n := moved c off (length s - pos) in
  ∃ st' it', mem_write st 0 off it = Val (st', it', Z.of_nat n) ∧ iter_rel it' s (pos + n) ∧
    memdisk_is st' (splice c (Z.to_nat off) (slice s pos n)).
Proof.
  intros (Hn & geo & Hd & Hs & Hb & Hr & Hc) Hcl Hit Ho n.
  pose proof Hit as (_ & Hp & Hsz & _). unfold mem_write. rewrite Hn, Hd. simpl.
  destruct (Z.ltb_spec (geo_size geo) off); [lia|].
  rewrite (iter_remaining_spec _ _ _ Hit), clip_min, (ram_index_ok st geo c) by (done || lia).
  replace (Z.of_nat (length s - pos) `min` (geo_size geo - off)) with (Z.of_nat n)
    by (unfold n, moved; lia).
  assert (Hnb : (n ≤ length s - pos)%nat ∧ (Z.to_nat off + n ≤ length c)%nat)
    by (unfold n, moved; lia).
  clearbody n. simpl.
  set (i := (Z.to_nat (geo_base geo - ram_start st) + Z.to_nat off)%nat).
  destruct (memcpy_out_of_iter_spec it s pos (drop i (ram st)) n Hit)
    as (it' & -> & Hit'); [rewrite length_drop; lia|lia|].
  simpl. rewrite s32_small by lia.
  rewrite Nat.min_l in Hit' |- * by lia.
  eexists _, it'. split; [done|]. split; [done|].
  assert (Hm : length (slice s pos n) = n) by (rewrite length_slice; lia).
  rewrite splice_over by lia. split; [done|]. exists geo. simpl.
  rewrite !length_splice by lia. split_and!; try done; try lia.
  unfold i. rewrite splice_sub by lia. by rewrite Hc.
Qed.

(** The table mem_init leaves behind. *)
Definition mem_table : list (option (driver memdisk)) :=
  <[3%nat := Some mem_driver]> init_drivers.

Lemma dispatch_mem {A} (e : A) call : dispatch mem_table mem_dev e call = call mem_driver 0.
Proof. reflexivity. Qed.

#[export] Instance memdisk_laws : DiskLaws mem_table mem_dev.
Proof.
  apply (Build_DiskLaws _ _ _ (λ st c, memdisk_is st c ∧ zlen c < 2 ^ 31)).
  - intros s c off it old [Hs Hc] Hit Ho Hl. unfold dev_read. rewrite dispatch_mem.
    destruct (mem_read_ok s c off it old 0 Hs Hc Hit) as (it' & E & Hit' & Hlay); [lia|].
    assert (moved c off (length old - 0) = length old) as Hm by (unfold moved; lia).
    rewrite Hm in E, Hit'. exists s, it'. split; [exact E|].
    rewrite splice_all in Hit' by (rewrite length_slice; lia). done.
  - intros s c off it bs [Hs Hc] Hit Ho Hl. unfold dev_write. rewrite dispatch_mem.
    destruct (mem_write_ok s c off it bs 0 Hs Hc Hit) as (s' & it' & E & _ & Hs'); [lia|].
    assert (moved c off (length bs - 0) = length bs) as Hm by (unfold moved; lia).
    rewrite Hm, slice_all in Hs'. rewrite Hm in E.
    exists s', it'. split; [exact E|]. split; [done|]. rewrite length_splice; lia.
Defined.

Lemma mem_init_table start n st :
  length (devices st) = 1%nat →
  mem_init start n init_drivers st =
    Val (mem_table, Memdisk 1 [Geometry start n] (ram_start st) (ram st), 0).
Proof. by destruct st as [? [|? [|]] ? ?]. Qed.

(** C40: a transfer between an iterator and the RAM disk moves the bytes at the
    device's offset, as many as both sides have left, and nothing else; an
    offset past the end is EINVAL, a minor number without a device ENXIO. *)
Theorem mem_transfer_ok st c minor off it s pos :
  memdisk_is st c → zlen c < 2 ^ 31 → iter_rel it s pos → 0 ≤ minor → 0 ≤ off →
  let n := moved c off (length s - pos) in
  if 0 <? minor then
    mem_read st minor off it = Val (st, it, ENXIO) ∧ mem_write st minor off it = Val (st, it, ENXIO)
  else if zlen c <? off then
    mem_read st minor off it = Val (st, it, EINVAL) ∧ mem_write st minor off it = Val (st, it, EINVAL)
  else
    (∃ it', mem_read st minor off it = Val (st, it', Z.of_nat n) ∧
       iter_rel it' (splice s pos (slice c (Z.to_nat off) n)) (pos + n)) ∧
    (∃ st' it', mem_write st minor off it = Val (st', it', Z.of_nat n) ∧ iter_rel it' s (pos + n) ∧
       memdisk_is st' (splice c (Z.to_nat off) (slice s pos n))).
Proof.
  intros Hst Hc Hit Hm Ho n. pose proof Hst as (Hn & geo & Hd & Hs & _).
  destruct (Z.ltb_spec 0 minor).
  { unfold mem_read, mem_write. rewrite Hn. by destruct (Z.leb_spec 1 minor); [|lia]. }
  replace minor with 0 by lia. destruct (Z.ltb_spec (zlen c) off).
  { unfold mem_read, mem_write. rewrite Hn, Hd. simpl.
    by destruct (Z.ltb_spec (geo_size geo) off); [|lia]. }
  destruct (mem_read_ok st c off it s pos Hst Hc Hit) as (it' & E & Hr & _); [lia|].
  destruct (mem_write_ok st c off it s pos Hst Hc Hit) as (st' & it2 & E' & Hw); [lia|].
  eauto 8.
Qed.

Lemma simple_kvec_rel b : zlen b < 2 ^ 31 →
  iter_rel (iovec_iter_init_simple_kvec b (zlen b)) b 0.
Proof.
  intros Hl. assert (Hf : flat [mk_kvec b (zlen b)] = b) by (unfold flat; simpl; apply app_nil_r).
  split_and!; [done|lia|done|]. cbn [it_data iovec_iter_init_simple_kvec num_segs].
  unfold segs_wf. rewrite Hf. split_and!; [by repeat constructor|done..|].
  exists 0%nat, 0%nat, (mk_kvec b (zlen b)).
  by split_and!; [split_and!; [|simpl; lia|]|..].
Qed.

Definition example_memdisk : memdisk := Memdisk 1 [Geometry 4096 6] 4096 [10; 20; 30; 40; 50; 60].

Lemma mem_transfer_ok_witness :
  ∃ it', mem_read example_memdisk 0 4 (iovec_iter_init_simple_kvec [0; 0; 0] 3) =
           Val (example_memdisk, it', 2) ∧
         iter_rel it' [50; 60; 0] 2.
Proof.
  assert (Hit : iter_rel (iovec_iter_init_simple_kvec [0; 0; 0] 3) [0; 0; 0] 0).
  { by apply simple_kvec_rel. }
  assert (Hst : memdisk_is example_memdisk [10; 20; 30; 40; 50; 60]).
  { split; [done|]. exists (Geometry 4096 6). simpl. split_and!; try done; lia. }
  destruct (mem_transfer_ok example_memdisk [10; 20; 30; 40; 50; 60] 0 4
    (iovec_iter_init_simple_kvec [0; 0; 0] 3) [0; 0; 0] 0 Hst ltac:(done) Hit ltac:(done) ltac:(done))
    as [(it' & E & Hr) _].
  exists it'. split; [exact E|exact Hr].
Defined.

Lemma driver_table_ok_witness :
  ∃ t ns, register_all init_drivers [(3, mem_driver); (3, mem_driver); (9, mem_driver)] =
            Val (t, ns) ∧
    dev_read t example_memdisk mem_dev 2 (iovec_iter_init_simple_kvec [0; 0; 0] 3) =
      mem_read example_memdisk 0 2 (iovec_iter_init_simple_kvec [0; 0; 0] 3).
Proof.
  destruct (driver_table_ok [(3, mem_driver); (3, mem_driver); (9, mem_driver)])
    as (t & ns & E & H); [repeat constructor; simpl; lia|].
  exists t, ns. split; [exact E|]. unfold dev_read. rewrite H. reflexivity.
Defined.
