(* ===== verification/Vfs.v ===== *)
(** * Vfs: the virtual file system (kernel/fs/vfs.c, fileptr.c, access.c, include/kernel/fs/vfs.h)

    Vnodes are known by their addresses, mounts and open files by their index
    in the tables of the kernel.  The operations of the file systems (struct
    vnode_ops, vfile_ops and mount_ops, and those of device files) are the
    class [FileSystem]: they work on the whole state, with a part [F] of their
    own.  [Undef] is a use of a null pointer or of memory that is not a vnode, and a
    file system may halt the machine.
    A path is the list of its characters; NAME_MAX is a constant of the
    configuration. *)

From S2P Require Import Prelude Queue Result Iovec.

Definition VFS_SEP : Z := 47.
Definition VFS_MBF_READ_ONLY : Z := 1.
Definition VBF_MOUNTED : Z := 1.
Definition VLOOKUP_NORMAL : Z := 0.
Definition VLOOKUP_PARENT_OF : Z := 1.
Definition VFS_MOUNT_MAX : nat := 4.
Definition FILE_TABLE_MAX : nat := 16.
Definition X_OK : Z := 1.
Definition W_OK : Z := 2.
Definition R_OK : Z := 4.
Definition O_ACCMODE : Z := 3.
Definition O_RDONLY : Z := 0.
Definition O_WRONLY : Z := 1.
Definition O_CREAT : Z := 64.
Definition O_TRUNC : Z := 512.
Definition O_APPEND : Z := 1024.
Definition SU_UID : Z := 0.
Definition S_IFMT : Z := 61440.
Definition S_IFREG : Z := 32768.
Definition S_IFBLK : Z := 24576.
Definition S_IFDIR : Z := 16384.
Definition S_IFCHR : Z := 8192.
Definition EPERM : Z := -1.
Definition ENOENT : Z := -2.
Definition ENXIO : Z := -6.
Definition ENOMEM : Z := -12.
Definition EACCES : Z := -13.
Definition EBUSY : Z := -16.
Definition EEXIST : Z := -17.
Definition EXDEV : Z := -18.
Definition ENODEV : Z := -19.
Definition ENOTDIR : Z := -20.
Definition ENFILE : Z := -23.
Definition EROFS : Z := -30.
Definition ENAMETOOLONG : Z := -36.

Definition S_ISREG (m : Z) : bool := Z.land m S_IFMT =? S_IFREG.
Definition S_ISDIR (m : Z) : bool := Z.land m S_IFMT =? S_IFDIR.
Definition S_ISDEV (m : Z) : bool := (Z.land m S_IFMT =? S_IFCHR) || (Z.land m S_IFMT =? S_IFBLK).
Definition has_bits (x b : Z) : bool := negb (Z.land x b =? 0).

Record vnode := Vnode {
  v_mp : option nat;
  v_refcount : Z;
  v_mode : Z;
  v_nlinks : Z;
  v_uid : Z;
  v_gid : Z;
  v_bits : Z;
  v_rdev : Z;
  v_ino : Z;
  v_size : Z;
}.
Definition set_refcount n x := Vnode (v_mp n) x (v_mode n) (v_nlinks n) (v_uid n) (v_gid n) (v_bits n) (v_rdev n) (v_ino n) (v_size n).
Definition set_mode n x := Vnode (v_mp n) (v_refcount n) x (v_nlinks n) (v_uid n) (v_gid n) (v_bits n) (v_rdev n) (v_ino n) (v_size n).
Definition set_owner n u g := Vnode (v_mp n) (v_refcount n) (v_mode n) (v_nlinks n) u g (v_bits n) (v_rdev n) (v_ino n) (v_size n).
Definition set_bits n x := Vnode (v_mp n) (v_refcount n) (v_mode n) (v_nlinks n) (v_uid n) (v_gid n) x (v_rdev n) (v_ino n) (v_size n).

(** vfs_init_vnode, but for the operations and the times. *)
Definition vfs_init_vnode (mp : option nat) (mode nlinks uid gid rdev ino size : Z) : vnode := Vnode mp 1 mode nlinks uid gid 0 rdev ino size.

Record mount := Mount {
  m_ops : option Z;
  mount_node : option Z;
  root_node : option Z;
  m_dev : Z;
  m_bits : Z;
}.

(** [f_device] says that the operations are those of device files. *)
Record vfile := Vfile {
  f_device : bool;
  f_vnode : option Z;
  f_refcount : Z;
  f_flags : Z;
  f_position : Z;
}.

Record dirent := Dirent { d_ino : Z; d_name : list Z }.

Record vfs (F : Type) := Vfs {
  vnodes : gmap Z vnode;
  mountpoints : list mount;
  root_fs : option nat;
  file_table : list vfile;
  fs_state : F;
}.
Arguments Vfs {F} _ _ _ _ _.
Arguments vnodes {F} _.
Arguments mountpoints {F} _.
Arguments root_fs {F} _.
Arguments file_table {F} _.
Arguments fs_state {F} _.

(** A result that is written to a pointer, and the error. *)
Class FileSystem (F : Type) := {
  op_lookup : vfs F → Z → list Z → option Z → res (vfs F * option Z * Z);
  op_create : vfs F → Z → list Z → Z → Z → option Z → res (vfs F * option Z * Z);
  op_mknod : vfs F → Z → list Z → Z → Z → Z → res (vfs F * option Z * Z);
  op_link : vfs F → Z → Z → list Z → res (vfs F * Z);
  op_unlink : vfs F → Z → Z → list Z → res (vfs F * Z);
  op_rename : vfs F → Z → Z → list Z → Z → list Z → res (vfs F * Z);
  op_truncate : vfs F → Z → res (vfs F * Z);
  op_update : vfs F → Z → res (vfs F * Z);
  op_release : vfs F → Z → res (vfs F * Z);
  op_mount : vfs F → nat → option Z → res (vfs F * Z);
  op_unmount : vfs F → nat → res (vfs F * Z);
  op_sync : vfs F → nat → res (vfs F * Z);
  op_open : vfs F → nat → Z → res (vfs F * Z);
  op_close : vfs F → nat → res (vfs F * Z);
  op_read : vfs F → nat → iovec_iter → res (vfs F * iovec_iter * Z);
  op_write : vfs F → nat → iovec_iter → res (vfs F * iovec_iter * Z);
  op_ioctl : vfs F → nat → Z → iovec_iter → Z → res (vfs F * iovec_iter * Z);
  op_poll : vfs F → nat → Z → res (vfs F * Z);
  op_seek : vfs F → nat → Z → Z → res (vfs F * Z);
  op_readdir : vfs F → nat → res (vfs F * dirent * Z);
}.

(** ** Permissions and names *)

Definition verify_mode_access (current_uid require_mode file_uid file_gid file_mode : Z) : bool :=
  if (current_uid =? SU_UID) || (current_uid =? file_uid)
  then require_mode =? Z.land require_mode (Z.land (Z.shiftr file_mode 6) 7)
  else require_mode =? Z.land require_mode (Z.land file_mode 7).

(** The loop of path_last_component from [i] down to the separator. *)
Fixpoint last_sep (n : nat) (path : list Z) : nat :=
  match n with
  | O => 0
  | S m => if bool_decide (path !! m = Some VFS_SEP) then n else last_sep m path
  end.
(** An empty path is read before its beginning.  (The index is a short: paths
    have less than 32769 characters.) *)
Definition path_last_component (path : list Z) : option (list Z) :=
  match path with
  | [] => None
  | _ => let i := (length path - 1)%nat in
         let n := if bool_decide (path !! i = Some VFS_SEP) then i else S i in
         Some (drop (last_sep n path) path)
  end.

Definition path_valid_component (path : list Z) : bool :=
  match path with [] => false | _ => forallb (λ c, negb ((s8 c <=? 32) || (c =? VFS_SEP))) path end.

Section vfs.
Context {F : Type} `{FileSystem F} (NAME_MAX : nat).

Definition set_vnodes (s : vfs F) x : vfs F := Vfs x (mountpoints s) (root_fs s) (file_table s) (fs_state s).
Definition set_mounts (s : vfs F) x : vfs F := Vfs (vnodes s) x (root_fs s) (file_table s) (fs_state s).
Definition set_root (s : vfs F) x : vfs F := Vfs (vnodes s) (mountpoints s) x (file_table s) (fs_state s).
Definition set_files (s : vfs F) x : vfs F := Vfs (vnodes s) (mountpoints s) (root_fs s) x (fs_state s).
Definition set_vnode (s : vfs F) (v : Z) (n : vnode) : vfs F := set_vnodes s (<[v := n]> (vnodes s)).

(** ** References *)

Definition vfs_clone_vnode (s : vfs F) (v : Z) : res (vfs F) :=
  n ← lift (vnodes s !! v); Val (set_vnode s v (set_refcount n (s32 (v_refcount n + 1)))).

(** [op] is the operation of the file system that the vnode belongs to. *)
Definition release_vnode_with (op : vfs F → Z → res (vfs F * Z)) (s : vfs F) (v : option Z) : res (vfs F * Z) :=
  match v with
  | None => Val (s, 0)
  | Some v =>
      n ← lift (vnodes s !! v);
      let r := s32 (v_refcount n - 1) in
      let s := set_vnode s v (set_refcount n r) in
      if r <? 0 then Val (s, 0) else if r =? 0 then op s v else Val (s, 0)
  end.
Definition vfs_release_vnode : vfs F → option Z → res (vfs F * Z) := release_vnode_with op_release.
(** Releasing, where the result is not used. *)
Definition release (s : vfs F) (v : option Z) : res (vfs F) := '(s, _) ← vfs_release_vnode s v; Val s.

(** ** Open files *)

Definition empty_file (f : vfile) : vfile := Vfile false None 0 (f_flags f) (f_position f).
Definition init_fileptr_table (s : vfs F) : vfs F := set_files s (empty_file <$> file_table s).

Definition new_fileptr (s : vfs F) (v flags : Z) : res (vfs F * option nat) :=
  _ ← lift (vnodes s !! v);
  match list_find (λ f, f_vnode f = None) (file_table s) with
  | None => Val (s, None)
  | Some (i, _) => Val (set_files s (<[i := Vfile false (Some v) 1 (s16 flags) 0]> (file_table s)), Some i)
  end.

Definition dup_fileptr (s : vfs F) (i : nat) : res (vfs F * nat) :=
  f ← lift (file_table s !! i);
  Val (set_files s (<[i := Vfile (f_device f) (f_vnode f) (s16 (f_refcount f + 1)) (f_flags f) (f_position f)]> (file_table s)), i).
Definition vfs_clone_fileptr := dup_fileptr.

Definition free_fileptr (s : vfs F) (i : nat) : res (vfs F) :=
  f ← lift (file_table s !! i);
  let r := s16 (f_refcount f - 1) in
  let s := set_files s (<[i := Vfile (f_device f) (f_vnode f) r (f_flags f) (f_position f)]> (file_table s)) in
  if r <? 0 then Val s
  else if r =? 0 then
    s ← release s (f_vnode f);
    f ← lift (file_table s !! i);
    Val (set_files s (<[i := Vfile (f_device f) None (f_refcount f) (f_flags f) (f_position f)]> (file_table s)))
  else Val s.

(** ** Mounts *)

Definition find_mount_by_vnode (s : vfs F) (v : Z) : option nat := fst <$> list_find (λ m, mount_node m = Some v) (mountpoints s).

Definition init_vfs (s : vfs F) : vfs F :=
  init_fileptr_table (set_mounts (set_root s None) ((λ m, Mount (m_ops m) (mount_node m) (root_node m) 0 (m_bits m)) <$> mountpoints s)).

(** The mount that an iterator at [slot] gives next, and its new slot. *)
Fixpoint mount_iter_next (mounts : list mount) (slot : nat) : option nat * nat :=
  match mounts with
  | [] => (None, slot)
  | m :: mounts => if m_dev m =? 0 then mount_iter_next mounts (S slot) else (Some slot, S slot)
  end.
Definition vfs_mount_iter_next (s : vfs F) (slot : nat) : option nat * nat := mount_iter_next (drop slot (mountpoints s)) slot.

(** ** Paths *)

(** The next component, of fewer than NAME_MAX characters, and the path after it. *)
Fixpoint next_component (n : nat) (path : list Z) : list Z * list Z :=
  match n, path with
  | S n, c :: path' => if c =? VFS_SEP then ([], path) else let '(comp, rest) := next_component n path' in (c :: comp, rest)
  | _, _ => ([], path)
  end.
Definition skip_sep (path : list Z) : list Z := match path with c :: rest => if c =? VFS_SEP then rest else path | [] => [] end.

Definition dotdot : list Z := [46; 46].

(** The vnode, or the root of the file system mounted on it. *)
Definition cross_mount (s : vfs F) (cur : Z) : res (vfs F * Z * Z) :=
  n ← lift (vnodes s !! cur);
  if has_bits (v_bits n) VBF_MOUNTED then
    let mp := find_mount_by_vnode s cur in
    s ← release s (Some cur);
    match mp with
    | None => Val (s, cur, ENXIO)
    | Some mp => m ← lift (mountpoints s !! mp); root ← lift (root_node m); s ← vfs_clone_vnode s root; Val (s, root, 0)
    end
  else Val (s, cur, 0).

(** The vnode, or what its file system is mounted on if it is the root and .. is looked up. *)
Definition leave_root (s : vfs F) (cur : Z) (component : list Z) : res (vfs F * Z) :=
  n ← lift (vnodes s !! cur); mp ← lift (v_mp n); m ← lift (mountpoints s !! mp);
  if bool_decide (root_node m = Some cur) && bool_decide (component = dotdot) then
    s ← release s (Some cur); m ← lift (mountpoints s !! mp); v ← lift (mount_node m); s ← vfs_clone_vnode s v; Val (s, v)
  else Val (s, cur).

(** The loop of vfs_lookup at [cur], with [path] still to go. *)
Fixpoint lookup_loop (fuel : nat) (s : vfs F) (cur : Z) (path : list Z) (flags uid : Z) : res (vfs F * option Z * Z) :=
  match fuel with
  | O => Undef
  | S fuel =>
      '(s, cur, error) ← cross_mount s cur;
      if negb (error =? 0) then Val (s, None, error)
      else match path with
      | [] => Val (s, Some cur, 0)
      | _ =>
          n ← lift (vnodes s !! cur);
          if negb (S_ISDIR (v_mode n)) then s ← release s (Some cur); Val (s, None, ENOTDIR)
          else if negb (verify_mode_access uid R_OK (v_uid n) (v_gid n) (v_mode n)) then s ← release s (Some cur); Val (s, None, EPERM)
          else
            let '(component, rest) := next_component (NAME_MAX - 1) path in
            let path := skip_sep rest in
            if (NAME_MAX <=? length component)%nat then s ← release s (Some cur); Val (s, None, ENAMETOOLONG)
            else if has_bits flags VLOOKUP_PARENT_OF && bool_decide (path = []) then lookup_loop fuel s cur path flags uid
            else
              '(s, cur) ← leave_root s cur component;
              '(s, result, error) ← op_lookup s cur component (Some cur);
              if negb (error =? 0) then s ← release s result; Val (s, None, error)
              else cur ← lift (result); lookup_loop fuel s cur path flags uid
      end
  end.

(** Every turn of the loop takes at least one character. *)
Definition vfs_lookup (s : vfs F) (cwd : option Z) (path : list Z) (flags uid : Z) : res (vfs F * option Z * Z) :=
  let absolute := bool_decide (path !! 0%nat = Some VFS_SEP) in
  cur ← match cwd, absolute with
        | Some v, false => Val v
        | _, _ => r ← lift (root_fs s); m ← lift (mountpoints s !! r); lift (root_node m)
        end;
  let path := skip_sep path in
  s ← vfs_clone_vnode s cur;
  lookup_loop (S (length path)) s cur path flags uid.

(** [s] is the state, [vnode] the result of a lookup that succeeded. *)
Definition with_lookup (s : vfs F) (cwd : option Z) (path : list Z) (flags uid : Z) (k : vfs F → Z → vnode → res (vfs F * Z)) : res (vfs F * Z) :=
  '(s, result, error) ← vfs_lookup s cwd path flags uid;
  if negb (error =? 0) then Val (s, error) else v ← lift (result); n ← lift (vnodes s !! v); k s v n.

Definition vfs_access (s : vfs F) (cwd : option Z) (path : list Z) (mode uid : Z) : res (vfs F * Z) :=
  with_lookup s cwd path VLOOKUP_NORMAL uid (λ s v n,
    let error := if negb (mode =? 0) && negb (verify_mode_access uid mode (v_uid n) (v_gid n) (v_mode n)) then EPERM else 0 in
    s ← release s (Some v); Val (s, error)).

(** Is the mount of the vnode read-only? *)
Definition read_only (s : vfs F) (n : vnode) : res bool := mp ← lift (v_mp n); m ← lift (mountpoints s !! mp); Val (has_bits (m_bits m) VFS_MBF_READ_ONLY).

Definition vfs_chmod (s : vfs F) (cwd : option Z) (path : list Z) (mode uid : Z) : res (vfs F * Z) :=
  with_lookup s cwd path VLOOKUP_NORMAL uid (λ s v n,
    ro ← read_only s n;
    if ro : bool then Val (s, EROFS)
    else if negb (verify_mode_access uid W_OK (v_uid n) (v_gid n) (v_mode n)) then Val (s, EPERM)
    else
      let s := set_vnode s v (set_mode n (u16 (Z.lor (Z.land (v_mode n) (Z.lnot 4095)) (Z.land mode 4095)))) in
      '(s, error) ← op_update s v;
      s ← release s (Some v); Val (s, error)).

Definition vfs_chown (s : vfs F) (cwd : option Z) (path : list Z) (owner group uid : Z) : res (vfs F * Z) :=
  with_lookup s cwd path VLOOKUP_NORMAL uid (λ s v n,
    ro ← read_only s n;
    if ro : bool then Val (s, EROFS)
    else if negb (verify_mode_access uid W_OK (v_uid n) (v_gid n) (v_mode n)) then s ← release s (Some v); Val (s, EPERM)
    else
      '(s, error) ← op_update (set_vnode s v (set_owner n owner group)) v;
      s ← release s (Some v); Val (s, error)).

Definition vfs_mknod (s : vfs F) (cwd : option Z) (path : list Z) (mode dev uid : Z) : res (vfs F * Z) :=
  with_lookup s cwd path VLOOKUP_PARENT_OF uid (λ s v n,
    ro ← read_only s n;
    if ro : bool then Val (s, EROFS)
    else if negb (verify_mode_access uid W_OK (v_uid n) (v_gid n) (v_mode n)) then s ← release s (Some v); Val (s, EPERM)
    else
      filename ← lift (path_last_component path);
      '(s, tmp, error) ← op_lookup s v filename None;
      s ← release s tmp;
      if error =? 0 then s ← release s (Some v); Val (s, EEXIST)
      else if negb (error =? ENOENT) then s ← release s (Some v); Val (s, error)
      else
        '(s, _, error) ← op_mknod s v filename mode dev uid;
        s ← release s (Some v); Val (s, error)).

(** vfs_link and vfs_unlink look at the mount of a vnode that is still NULL:
    [null_read_only] is what they find there, or [None] if that is not possible. *)
Definition vfs_link (null_read_only : option bool) (s : vfs F) (cwd : option Z) (oldpath newpath : list Z) (uid : Z) : res (vfs F * Z) :=
  ro ← lift (null_read_only);
  if ro : bool then Val (s, EROFS)
  else with_lookup s cwd oldpath VLOOKUP_NORMAL uid (λ s v _,
    '(s, parent, error) ← vfs_lookup s cwd newpath VLOOKUP_PARENT_OF uid;
    if negb (error =? 0) then s ← release s (Some v); Val (s, error)
    else
      parent ← lift (parent);
      filename ← lift (path_last_component newpath);
      '(s, tmp, error) ← op_lookup s parent filename None;
      '(s, error) ← (if error =? ENOENT then Val (s, 0)
                     else s ← (if error =? 0 then release s tmp else Val s); Val (s, EEXIST));
      n ← lift (vnodes s !! v); pn ← lift (vnodes s !! parent);
      let error := if (error =? 0) && negb (verify_mode_access uid W_OK (v_uid pn) (v_gid pn) (v_mode pn)) then EACCES else error in
      let error := if (error =? 0) && negb (bool_decide (v_mp n = v_mp pn)) then EXDEV else error in
      if negb (error =? 0) then s ← release s (Some v); s ← release s (Some parent); Val (s, error)
      else
        '(s, error) ← op_link s v parent filename;
        s ← release s (Some parent); s ← release s (Some v); Val (s, error)).

Definition vfs_unlink (null_read_only : option bool) (s : vfs F) (cwd : option Z) (path : list Z) (uid : Z) : res (vfs F * Z) :=
  with_lookup s cwd path VLOOKUP_PARENT_OF uid (λ s parent pn,
    ro ← lift (null_read_only);
    if ro : bool then Val (s, EROFS)
    else if negb (verify_mode_access uid W_OK (v_uid pn) (v_gid pn) (v_mode pn)) then s ← release s (Some parent); Val (s, EACCES)
    else
      filename ← lift (path_last_component path);
      '(s, v, error) ← op_lookup s parent filename None;
      if negb (error =? 0) then s ← release s (Some parent); Val (s, error)
      else
        v ← lift (v); n ← lift (vnodes s !! v);
        '(s, error) ← (if negb (verify_mode_access uid W_OK (v_uid n) (v_gid n) (v_mode n)) then Val (s, EPERM) else op_unlink s parent v filename);
        s ← release s (Some parent); s ← release s (Some v); Val (s, error)).

Definition rename_find_parent (s : vfs F) (cwd : option Z) (path : list Z) (uid : Z) : res (vfs F * option Z * Z) :=
  '(s, result, error) ← vfs_lookup s cwd path VLOOKUP_PARENT_OF uid;
  if negb (error =? 0) then Val (s, None, error)
  else
    v ← lift (result); n ← lift (vnodes s !! v); ro ← read_only s n;
    if ro : bool then Val (s, None, EROFS)
    else if negb (verify_mode_access uid (Z.lor W_OK X_OK) (v_uid n) (v_gid n) (v_mode n)) then s ← release s (Some v); Val (s, None, EACCES)
    else Val (s, Some v, 0).

Definition bad_name (name : list Z) : bool := bool_decide (name = []) || bool_decide (name = [46]) || bool_decide (name = dotdot).

Definition vfs_rename (s : vfs F) (cwd : option Z) (oldpath newpath : list Z) (uid : Z) : res (vfs F * Z) :=
  oldname ← lift (path_last_component oldpath);
  if bad_name oldname then Val (s, EINVAL)
  else
    newname ← lift (path_last_component newpath);
    if bad_name newname then Val (s, EINVAL)
    else
      '(s, oldparent, error) ← rename_find_parent s cwd oldpath uid;
      if negb (error =? 0) then Val (s, error)
      else
        oldparent ← lift (oldparent);
        '(s, newparent, error) ← rename_find_parent s cwd newpath uid;
        if negb (error =? 0) then s ← release s (Some oldparent); Val (s, error)
        else
          newparent ← lift (newparent);
          '(s, v, error) ← op_lookup s oldparent oldname None;
          if negb (error =? 0) then s ← release s (Some oldparent); s ← release s (Some newparent); Val (s, error)
          else
            v ← lift (v);
            '(s, error) ← op_rename s v oldparent oldname newparent newname;
            s ← release s (Some oldparent); s ← release s (Some newparent); s ← release s (Some v); Val (s, error).

(** ** Opening and closing *)

(** The vnode to open: that of the path, made if it is not there and O_CREAT asks for it. *)
Definition open_vnode (s : vfs F) (cwd : option Z) (path : list Z) (flags mode uid : Z) : res (vfs F * option Z * Z) :=
  '(s, v, error) ← vfs_lookup s cwd path (if has_bits flags O_CREAT then VLOOKUP_PARENT_OF else VLOOKUP_NORMAL) uid;
  if negb (error =? 0) then Val (s, v, error)
  else if negb (has_bits flags O_CREAT) then Val (s, v, 0)
  else
    filename ← lift (path_last_component path);
    if negb (path_valid_component filename) then s ← release s v; Val (s, v, EINVAL)
    else
      parent ← lift (v);
      '(s, v, error) ← op_lookup s parent filename (Some parent);
      if error =? 0 then Val (s, v, 0)
      else
        parent ← lift (v); n ← lift (vnodes s !! parent); ro ← read_only s n;
        if ro : bool then Val (s, v, EROFS)
        else if negb (verify_mode_access uid W_OK (v_uid n) (v_gid n) (v_mode n)) then s ← release s v; Val (s, v, EPERM)
        else
          '(s, v, error) ← op_create s parent filename mode uid v;
          s ← release s (Some parent);
          if negb (error =? 0) then s ← release s v; Val (s, v, error) else Val (s, v, 0).

Definition required_mode (flags : Z) : Z :=
  Z.lor (if Z.land flags O_ACCMODE =? O_WRONLY then 0 else R_OK) (if Z.land flags O_ACCMODE =? O_RDONLY then 0 else W_OK).

Definition set_file (s : vfs F) (i : nat) (g : vfile → vfile) : res (vfs F) := f ← lift (file_table s !! i); Val (set_files s (<[i := g f]> (file_table s))).

Definition vfs_open (s : vfs F) (cwd : option Z) (path : list Z) (flags mode uid : Z) : res (vfs F * option nat * Z) :=
  let mode := if has_bits mode S_IFMT then mode else Z.lor mode S_IFREG in
  '(s, v, error) ← open_vnode s cwd path flags mode uid;
  if negb (error =? 0) then Val (s, None, error)
  else
    v ← lift (v); n ← lift (vnodes s !! v);
    if negb (verify_mode_access uid (required_mode flags) (v_uid n) (v_gid n) (v_mode n)) then s ← release s (Some v); Val (s, None, EPERM)
    else
      '(s, file) ← new_fileptr s v flags;
      match file with
      | None => Val (s, None, ENFILE)
      | Some i =>
          s ← (if has_bits flags O_TRUNC && S_ISREG (v_mode n) then '(s, _) ← op_truncate s v; Val s else Val s);
          n ← lift (vnodes s !! v);
          s ← (if has_bits flags O_APPEND && S_ISREG (v_mode n) then set_file s i (λ f, Vfile (f_device f) (f_vnode f) (f_refcount f) (f_flags f) (v_size n)) else Val s);
          s ← (if S_ISDEV (v_mode n) then set_file s i (λ f, Vfile true (f_vnode f) (f_refcount f) (f_flags f) (f_position f)) else Val s);
          '(s, error) ← op_open s i flags;
          s ← (if negb (error =? 0) then free_fileptr s i else Val s);
          Val (s, Some i, error)
      end.

Definition vfs_close (s : vfs F) (i : nat) : res (vfs F * Z) :=
  f ← lift (file_table s !! i);
  '(s, error) ← (if f_refcount f =? 1 then op_close s i else Val (s, 0));
  s ← free_fileptr s i; Val (s, error).

Definition vfs_read (s : vfs F) (i : nat) (iter : iovec_iter) : res (vfs F * iovec_iter * Z) :=
  f ← lift (file_table s !! i);
  if Z.land (f_flags f) O_ACCMODE =? O_WRONLY then Val (s, iter, EACCES) else op_read s i iter.

Definition vfs_write (s : vfs F) (i : nat) (iter : iovec_iter) : res (vfs F * iovec_iter * Z) :=
  f ← lift (file_table s !! i); v ← lift (f_vnode f); n ← lift (vnodes s !! v);
  ro ← read_only s n;
  if ro && (S_ISREG (v_mode n) || S_ISDIR (v_mode n)) then Val (s, iter, EROFS)
  else if Z.land (f_flags f) O_ACCMODE =? O_RDONLY then Val (s, iter, EACCES)
  else op_write s i iter.

Definition vfs_ioctl (s : vfs F) (i : nat) (request : Z) (iter : iovec_iter) (uid : Z) := op_ioctl s i request iter uid.
Definition vfs_poll (s : vfs F) (i : nat) (events : Z) := op_poll s i events.
Definition vfs_seek (s : vfs F) (i : nat) (position whence : Z) := op_seek s i position whence.
Definition vfs_readdir (s : vfs F) (i : nat) := op_readdir s i.

(** ** The path of a directory *)

(** The inner loop of vfs_reverse_lookup: the name in [file] of the inode
    [ino] goes before position [j] of [buf].  The result is the buffer, the new
    position and the error, 1 when no entry is left. *)
Fixpoint find_name (fuel : nat) (s : vfs F) (file : nat) (ino : Z) (buf : list Z) (j : Z) : res (vfs F * list Z * Z * Z) :=
  match fuel with
  | O => Undef
  | S fuel =>
      '(s, dir, error) ← vfs_readdir s file;
      if error <? 0 then Val (s, buf, j, error)
      else if error =? 0 then Val (s, buf, j, 0)
      else if (d_ino dir =? ino) && negb (bool_decide (d_name dir = [46])) && negb (bool_decide (d_name dir = dotdot)) then
        let len := zlen (d_name dir) in
        if j - len - 1 <? 0 then Val (s, buf, j, -1)
        else
          buf ← lift (wr_range buf (j - len) (d_name dir));
          buf ← lift (wr buf (j - len - 1) VFS_SEP);
          Val (s, buf, j - len - 1, 0)
      else find_name fuel s file ino buf j
  end.

(** The outer loop, from [cur] up to [root]. *)
Fixpoint climb (fuel : nat) (s : vfs F) (cur root : Z) (buf : list Z) (j uid : Z) : res (vfs F * list Z * Z * Z) :=
  if cur =? root then s ← release s (Some cur); Val (s, buf, j, 0)
  else
    match fuel with
    | O => Undef
    | S fuel' =>
        n ← lift (vnodes s !! cur); mp ← lift (v_mp n); m ← lift (mountpoints s !! mp);
        '(s, cur) ← (if bool_decide (root_node m = Some cur) then s ← release s (Some cur); m ← lift (mountpoints s !! mp); v ← lift (mount_node m); s ← vfs_clone_vnode s v; Val (s, v) else Val (s, cur));
        '(s, file, error) ← vfs_open s (Some cur) dotdot O_RDONLY 0 uid;
        if negb (error =? 0) then s ← release s (Some cur); Val (s, buf, j, error)
        else
          file ← lift (file); n ← lift (vnodes s !! cur);
          '(s, buf, j, error) ← find_name fuel s file (v_ino n) buf j;
          if negb (error =? 0) then '(s, _) ← vfs_close s file; s ← release s (Some cur); Val (s, buf, j, error)
          else
            s ← release s (Some cur);
            f ← lift (file_table s !! file); up ← lift (f_vnode f);
            s ← vfs_clone_vnode s up;
            '(s, _) ← vfs_close s file;
            climb fuel' s up root buf j uid
    end.

(** [buf] has [size] bytes; the path ends up at its beginning. *)
Definition vfs_reverse_lookup (fuel : nat) (s : vfs F) (cwd : option Z) (buf : list Z) (size uid : Z) : res (vfs F * list Z * Z) :=
  r ← lift (root_fs s); m ← lift (mountpoints s !! r); root ← lift (root_node m);
  let cwd := match cwd with Some v => v | None => root end in
  n ← lift (vnodes s !! cwd);
  if negb (S_ISDIR (v_mode n)) then Val (s, buf, ENOTDIR)
  else
    buf ← lift (wr buf (size - 1) 0);
    s ← vfs_clone_vnode s cwd;
    '(s, buf, j, error) ← climb fuel s cwd root buf (size - 1) uid;
    if negb (error =? 0) then Val (s, buf, error)
    else
      c ← lift (rd buf j);
      '(buf, j) ← (if c =? VFS_SEP then Val (buf, j) else buf ← lift (wr buf (j - 1) VFS_SEP); Val (buf, j - 1));
      path ← lift (rd_range buf j (size - j));
      buf ← lift (wr_range buf 0 path);
      Val (s, buf, 0).

(** ** Mounting *)

Definition vfs_mount (s : vfs F) (cwd : option Z) (path : list Z) (dev ops mountflags uid : Z) : res (vfs F * Z) :=
  if negb (uid =? SU_UID) then Val (s, EPERM)
  else
    '(s, v, error) ← match root_fs s with None => Val (s, None, 0) | Some _ => vfs_lookup s cwd path VLOOKUP_NORMAL uid end;
    if negb (error =? 0) then Val (s, error)
    else
      mounted ← match v with None => Val false | Some v => n ← lift (vnodes s !! v); Val (has_bits (v_bits n) VBF_MOUNTED) end;
      if mounted : bool then s ← release s v; Val (s, EBUSY)
      else if bool_decide (Exists (λ m, m_dev m = dev) (mountpoints s)) then Val (s, EBUSY)
      else match list_find (λ m, m_dev m = 0) (mountpoints s) with
      | None => Val (s, ENOMEM)
      | Some (i, _) =>
          let s := set_mounts s (<[i := Mount (Some ops) v None dev (u16 mountflags)]> (mountpoints s)) in
          '(s, error) ← op_mount s i v;
          m ← lift (mountpoints s !! i);
          if negb (error =? 0) then
            s ← release (set_mounts s (<[i := Mount (m_ops m) (mount_node m) (root_node m) 0 (m_bits m)]> (mountpoints s))) v; Val (s, error)
          else match v with
          | Some v => n ← lift (vnodes s !! v); Val (set_vnode s v (set_bits n (Z.lor (v_bits n) VBF_MOUNTED)), 0)
          | None =>
              let s := set_root s (Some i) in
              match mount_node m, root_node m with
              | None, Some r =>
                  s ← vfs_clone_vnode s r;
                  Val (set_mounts s (<[i := Mount (m_ops m) (Some r) (Some r) (m_dev m) (m_bits m)]> (mountpoints s)), 0)
              | _, _ => Val (s, 0)
              end
          end
      end.

Definition vfs_unmount (s : vfs F) (dev uid : Z) : res (vfs F * Z) :=
  match list_find (λ m, m_dev m = dev) (mountpoints s) with
  | None => Val (s, ENODEV)
  | Some (i, _) =>
      if negb (uid =? SU_UID) then Val (s, EPERM)
      else
        '(s, error) ← op_sync s i;
        if negb (error =? 0) then Val (s, error)
        else
          '(s, error) ← op_unmount s i;
          if negb (error =? 0) then Val (s, error)
          else
            m ← lift (mountpoints s !! i); v ← lift (mount_node m); n ← lift (vnodes s !! v);
            let s := if has_bits (v_bits n) VBF_MOUNTED then set_vnode s v (set_bits n (Z.land (v_bits n) (Z.lnot VBF_MOUNTED))) else set_root s None in
            s ← release s (Some v);
            m ← lift (mountpoints s !! i);
            Val (set_mounts s (<[i := Mount None (mount_node m) (root_node m) 0 (m_bits m)]> (mountpoints s)), 0)
  end.

(** The loop of vfs_sync over the mounts [slots]. *)
Fixpoint sync_loop (s : vfs F) (dev : Z) (slots : list nat) : res (vfs F * Z) :=
  match slots with
  | [] => Val (s, 0)
  | i :: slots =>
      m ← lift (mountpoints s !! i);
      if (negb (dev =? 0) && negb (m_dev m =? dev)) || (m_dev m =? 0) || has_bits (m_bits m) VFS_MBF_READ_ONLY then sync_loop s dev slots
      else '(s, error) ← op_sync s i; if negb (error =? 0) then Val (s, error) else sync_loop s dev slots
  end.
Definition vfs_sync (s : vfs F) (dev : Z) : res (vfs F * Z) := sync_loop s dev (seq 0 VFS_MOUNT_MAX).
End vfs.
