(* ===== verification/Vfsinv.v ===== *)
(** * Vfsinv: what a path leads to

    A file is known by its mount and its number there.  The tree of the files
    ([tree]) gives their modes and owners, the entries of the directories and
    what is mounted where; [walk] follows a path in it.  vfs_lookup finds the
    vnode that the walk ends at, and its references are in balance: one more to
    the vnode that it gives, none when it fails.  The file system is one that
    keeps to [FsLaws]: it has one vnode for a file in use, and lookup trades the
    reference to the directory for one to the entry. *)

From S2P Require Import Prelude Queue Result Iovec Vfs.

Definition fileid : Type := nat * Z.

(** What a file system says of its state. *)
Class FsInv (F : Type) := {
  (** The number of the file in its mount. *)
  fs_num : F → Z → vnode → Z;
  fs_num_count f v n c : fs_num f v (set_refcount n c) = fs_num f v n;
  fs_inv : vfs F → (fileid → Z) → Prop;
  (** A lookup can be done with these references. *)
  fs_room : (fileid → Z) → Prop;
  (** The machine may be halted for this reason. *)
  fs_halt : Prop;
}.
Definition ident {F} `{FsInv F} (s : vfs F) (v : Z) (n : vnode) : option fileid := mp ← v_mp n; Some (mp, fs_num (fs_state s) v n).

Record tree := Tree {
  t_mode : fileid → Z;
  t_uid : fileid → Z;
  t_gid : fileid → Z;
  (** The entry of a directory, or the error of the lookup. *)
  t_child : fileid → list Z → fileid + Z;
  (** The root of the file system that is mounted on the file. *)
  t_over : fileid → option fileid;
  t_active : nat → Prop;
  t_root : nat → fileid;
  t_under : nat → fileid;
}.

(** ** Walking a path *)

Section walk.
Context (T : tree) (NAME_MAX : nat).

Definition resolve (i : fileid) : fileid := match t_over T i with Some r => r | None => i end.

(** From the root of a file system, .. leads to the directory that it is mounted on. *)
Definition leave (i : fileid) (c : list Z) : fileid := if bool_decide (i = t_root T i.1) && bool_decide (c = dotdot) then t_under T i.1 else i.

Fixpoint walk (uid : Z) (parent : bool) (cs : list (list Z)) (i : fileid) : fileid + Z :=
  match cs with
  | [] => inl (resolve i)
  | c :: cs' =>
      let i := resolve i in
      if negb (S_ISDIR (t_mode T i)) then inr ENOTDIR
      else if negb (verify_mode_access uid R_OK (t_uid T i) (t_gid T i) (t_mode T i)) then inr EPERM
      else if parent && bool_decide (cs' = []) then inl (resolve i)
      else match t_child T (leave i c) c with inl j => walk uid parent cs' j | inr e => inr e end
  end.

(** The components of a path, cut at each separator and after NAME_MAX - 1 characters. *)
Fixpoint components (n : nat) (path : list Z) : list (list Z) :=
  match n, path with
  | S n, _ :: _ => let '(c, rest) := next_component (NAME_MAX - 1) path in c :: components n (skip_sep rest)
  | _, _ => []
  end.
End walk.

(** ** References *)

Definition live {F} (s : vfs F) (v : Z) (n : vnode) : Prop := vnodes s !! v = Some n ∧ 0 < v_refcount n.
Definition at_file {F} `{FsInv F} (s : vfs F) (v : Z) (i : fileid) : Prop := ∃ n, live s v n ∧ ident s v n = Some i.

(** The number of references to each file, [d] more to file [i]. *)
Definition add_refs (refs : fileid → Z) (i : fileid) (d : Z) : fileid → Z := λ j, if decide (j = i) then refs j + d else refs j.

(** A vnode has the attributes of its file. *)
Definition node_ok (T : tree) (i : fileid) (n : vnode) : Prop :=
  v_mode n = t_mode T i ∧ v_uid n = t_uid T i ∧ v_gid n = t_gid T i ∧ has_bits (v_bits n) VBF_MOUNTED = bool_decide (is_Some (t_over T i)) ∧ t_active T i.1.

Record vfs_rel {F} `{FsInv F} (T : tree) (s : vfs F) (refs : fileid → Z) : Prop := {
  vr_live : ∀ v n, live s v n → ∃ i, ident s v n = Some i ∧ v_refcount n = refs i ∧ node_ok T i n;
  vr_refs : ∀ i, 0 < refs i → ∃ v, at_file s v i;
  vr_uniq : ∀ v v' i, at_file s v i → at_file s v' i → v = v';
  vr_range : ∀ i, 0 ≤ refs i < 2 ^ 31;
  vr_fs : fs_inv s refs;
}.

(** What an operation leaves as it is: the tables, and the vnodes in use. *)
Definition frame {F} `{FsInv F} (s s' : vfs F) (refs' : fileid → Z) : Prop :=
  mountpoints s' = mountpoints s ∧ root_fs s' = root_fs s ∧ file_table s' = file_table s ∧ ∀ v i, at_file s v i → 0 < refs' i → at_file s' v i.

Class FsRefs (F : Type) `{FileSystem F} `{FsInv F} (T : tree) := {
  fs_inv_ext s refs refs' : (∀ i, refs i = refs' i) → fs_inv s refs → fs_inv s refs';
  fs_room_ext refs refs' : (∀ i, refs i = refs' i) → fs_room refs → fs_room refs';
  (** The number of references is not the business of the file system, as long as there are any. *)
  refcount_law s refs v n i d : vfs_rel T s refs → live s v n → ident s v n = Some i → 0 < refs i + d →
    fs_inv (set_vnode s v (set_refcount n (refs i + d))) (add_refs refs i d);
  release_law s refs v n i : vfs_rel T s refs → live s v n → ident s v n = Some i → refs i = 1 →
    wp (op_release (set_vnode s v (set_refcount n 0)) v) fs_halt (λ '(s', _), vfs_rel T s' (add_refs refs i (-1)) ∧ frame s s' (add_refs refs i (-1)));
}.

Class FsLaws (F : Type) `{FileSystem F} `{FsInv F} (T : tree) := {
  fs_refs :: FsRefs F T;
  lookup_law s refs v i name : vfs_rel T s refs → at_file s v i → S_ISDIR (t_mode T i) = true → fs_room (add_refs refs i (-1)) → (∀ j, add_refs refs i (-1) j < 2 ^ 31 - 1) →
    wp (op_lookup s v name (Some v)) fs_halt (λ '(s', r, e),
      match t_child T i name with
      | inl j => e = 0 ∧ ∃ v', r = Some v' ∧ at_file s' v' j ∧ vfs_rel T s' (add_refs (add_refs refs i (-1)) j 1) ∧ frame s s' (add_refs refs i (-1))
      | inr err => e = err ∧ err ≠ 0 ∧ r = Some v ∧ vfs_rel T s' refs ∧ frame s s' refs
      end);
}.

(** Mounts hold the vnode that they are on and the root of their file system. *)
Record mounts_ok {F} `{FsInv F} (T : tree) (s : vfs F) (refs : fileid → Z) : Prop := {
  mo_over : ∀ i r, t_over T i = Some r → ∃ v m mt rv, at_file s v i ∧ 0 < refs i ∧ find_mount_by_vnode s v = Some m ∧ mountpoints s !! m = Some mt ∧
    root_node mt = Some rv ∧ at_file s rv r ∧ 0 < refs r;
  mo_active : ∀ mp, t_active T mp → ∃ mt rv u, mountpoints s !! mp = Some mt ∧ root_node mt = Some rv ∧ at_file s rv (t_root T mp) ∧ 0 < refs (t_root T mp) ∧
    mount_node mt = Some u ∧ at_file s u (t_under T mp) ∧ 0 < refs (t_under T mp) ∧ S_ISDIR (t_mode T (t_under T mp)) = true;
}.

Lemma mounts_frame {F} `{FsInv F} T (s s' : vfs F) refs refs' : mounts_ok T s refs → frame s s' refs' → (∀ i, 0 < refs i → 0 < refs' i) → mounts_ok T s' refs.
Proof.
  intros [Ho Ha] (Em & _ & _ & Hf) Hr. split.
  - intros i r Hi. destruct (Ho i r Hi) as (v & m & mt & rv & H1 & H2 & H3 & H4 & H5 & H6 & H7). exists v, m, mt, rv. unfold find_mount_by_vnode in *. rewrite Em. split_and!; eauto.
  - intros mp Hm. destruct (Ha mp Hm) as (mt & rv & u & H1 & H2 & H3 & H4 & H5 & H6 & H7 & H8). exists mt, rv, u. rewrite Em. split_and!; eauto.
Qed.

Lemma add_refs_same refs i d : add_refs refs i d i = refs i + d.
Proof. unfold add_refs. by rewrite decide_True. Qed.
Lemma add_refs_ne refs i j d : j ≠ i → add_refs refs i d j = refs j.
Proof. intros. unfold add_refs. by rewrite decide_False. Qed.

(** ** Changes of the vnodes in use *)

Section change.
Context {F : Type} `{FsInv F} {T : tree}.
Implicit Types s : vfs F.
Implicit Types refs : fileid → Z.
Local Abbreviation rel := (vfs_rel T).

Lemma at_live s v i n : live s v n → at_file s v i → ident s v n = Some i.
Proof. intros [Hv _] (m & [Hm _] & Hi). congruence. Qed.

Lemma refs_pos s refs v i : rel s refs → at_file s v i → 0 < refs i.
Proof. intros Hr (n & Hl & Hi). destruct (vr_live _ _ _ Hr v n Hl) as (i' & Ei & E & _). assert (i' = i) as -> by congruence. rewrite <- E. apply Hl. Qed.

(** The vnodes in use are the same. *)
Lemma same_rel s s' refs : rel s refs → (∀ v n, live s' v n ↔ live s v n) → (∀ v n, live s v n → ident s' v n = ident s v n) → fs_inv s' refs → rel s' refs ∧ ∀ v i, at_file s' v i ↔ at_file s v i.
Proof.
  intros [R1 R2 R3 R4 R5] Hlive Hid Hinv.
  assert (Hat : ∀ v i, at_file s' v i ↔ at_file s v i) by (intros v i; split; intros (n & Hl & Hi); exists n; [apply Hlive in Hl; by rewrite Hid in Hi|by rewrite Hid by done; rewrite Hlive]).
  split; [|done]. split.
  - intros v n Hl. apply Hlive in Hl. rewrite Hid by done. by apply R1.
  - intros i Hi. destruct (R2 i Hi) as [v Hv]. exists v. by apply Hat.
  - intros v v' i. rewrite !Hat. apply R3.
  - exact R4.
  - exact Hinv.
Qed.

(** The last reference to a vnode goes. *)
Lemma last_rel s refs v n i : let s' := set_vnode s v (set_refcount n 0) in
  rel s refs → live s v n → ident s v n = Some i → refs i = 1 → fs_inv s' (add_refs refs i (-1)) → rel s' (add_refs refs i (-1)) ∧ frame s s' (add_refs refs i (-1)).
Proof.
  intros s' Hr [Hv Hc] Hi H1 Hinv. pose proof Hr as [R1 R2 R3 R4 R5].
  assert (Hlive : ∀ w m, live s' w m ↔ w ≠ v ∧ live s w m).
  { intros w m. unfold live, s'. cbn [vnodes set_vnode set_vnodes]. destruct (decide (w = v)) as [->|Hne]; [rewrite lookup_insert_eq; split; [intros [[= <-] Hmc]; simpl in Hmc; lia|by intros [? _]]|rewrite lookup_insert_ne by done; by split; [|intros [_ ?]]]. }
  assert (Hat : ∀ w j, at_file s' w j ↔ w ≠ v ∧ at_file s w j) by (intros w j; split; [intros (m & [Hne Hm]%Hlive & Hmi); split; [done|by exists m]|intros [Hne (m & Hm & Hmi)]; exists m; by rewrite Hlive]).
  assert (Hvi : at_file s v i) by (by exists n). assert (Hother : ∀ w j, w ≠ v → at_file s w j → j ≠ i) by (intros w j Hne Hw ->; apply Hne; by eapply R3).
  assert (Hsame : ∀ j, at_file s v j → j = i) by (intros j Hj; pose proof (at_live s v j n (conj Hv Hc) Hj); congruence). split.
  - split.
    + intros w m [Hne Hl]%Hlive. destruct (R1 w m Hl) as (j & Hj & Hrj & Hok). exists j. rewrite add_refs_ne; [done|]. apply (Hother w j Hne). by exists m.
    + intros j Hj. assert (j ≠ i) as Hne by (intros ->; rewrite add_refs_same in Hj; lia). rewrite add_refs_ne in Hj by done. destruct (R2 j Hj) as [w Hw]. exists w. apply Hat. split; [|done]. intros ->. by apply Hne, Hsame.
    + intros w w' j [_ Hw]%Hat [_ Hw']%Hat. by eapply R3.
    + intros j. specialize (R4 j). unfold add_refs. case_decide; [subst; lia|done].
    + exact Hinv.
  - split_and!; try done. intros w j Hw Hj. apply Hat. split; [|done]. intros ->. rewrite (Hsame j Hw), add_refs_same in Hj. lia.
Qed.

(** A vnode that was not in use gets the first reference, to a file that had none. *)
Lemma first_rel s s' refs v fresh j : rel s refs → refs j = 0 → (∀ n, ¬ live s v n) → live s' v fresh → v_refcount fresh = 1 → ident s' v fresh = Some j → node_ok T j fresh →
  (∀ w m, w ≠ v → (live s' w m ↔ live s w m)) → (∀ w m, w ≠ v → live s w m → ident s' w m = ident s w m) → fs_inv s' (add_refs refs j 1) →
  rel s' (add_refs refs j 1) ∧ at_file s' v j ∧ ∀ w i, at_file s w i → at_file s' w i.
Proof.
  intros Hr Hj Hnot Hv Hc1 Hi Hok Hlive Hid Hinv. pose proof Hr as [R1 R2 R3 R4 R5]. assert (Hvj : at_file s' v j) by (by exists fresh).
  assert (Hold : ∀ w i, at_file s w i → at_file s' w i) by (intros w i (m & Hm & Hmi); assert (w ≠ v) as Hne by (intros ->; by apply (Hnot m)); exists m; by rewrite Hlive, Hid).
  assert (Hat : ∀ w i, at_file s' w i → (w = v ∧ i = j) ∨ at_file s w i).
  { intros w i Hw. destruct (decide (w = v)) as [->|Hne]; [left; split; [done|]; pose proof (at_live _ _ _ _ Hv Hw); congruence|]. right. destruct Hw as (m & Hm & Hmi). apply Hlive in Hm; [|done]. rewrite Hid in Hmi by done. by exists m. }
  assert (Hfresh : ∀ w, ¬ at_file s w j) by (intros w Hw; pose proof (refs_pos _ _ _ _ Hr Hw); lia). split; [|done]. split.
  - intros w m Hl. destruct (decide (w = v)) as [->|Hne].
    + assert (m = fresh) as -> by (destruct Hl, Hv; congruence). exists j. by rewrite add_refs_same, Hj.
    + apply Hlive in Hl; [|done]. destruct (R1 w m Hl) as (i & Hi' & Hri & Hok'). exists i. rewrite Hid by done. split; [done|]. split; [|done]. rewrite add_refs_ne; [done|]. intros ->. apply (Hfresh w). by exists m.
  - intros i Hpos. destruct (decide (i = j)) as [->|Hij]; [by exists v|]. rewrite add_refs_ne in Hpos by done. destruct (R2 i Hpos) as [w Hw]. exists w. by apply Hold.
  - intros w w' i Hw Hw'. destruct (Hat w i Hw) as [[E1 E2]|Hw1], (Hat w' i Hw') as [[E3 E4]|Hw1']; [congruence| | |by eapply R3]; subst i; exfalso; by eapply Hfresh.
  - intros i. unfold add_refs. case_decide; [subst; lia|apply R4].
  - exact Hinv.
Qed.
End change.

Section refs.
Context {F : Type} `{FileSystem F} `{!FsInv F} {T : tree} `{!FsRefs F T}.
Implicit Types s : vfs F.
Implicit Types refs : fileid → Z.
Local Abbreviation rel := (vfs_rel T).

Lemma rel_ext s refs refs' : (∀ i, refs i = refs' i) → rel s refs → rel s refs'.
Proof.
  intros E [H1 H2 H3 H4 H5]. split; [|intros i Hi; apply H2; by rewrite E|done|intros i; by rewrite <- E|by eapply fs_inv_ext].
  intros v n Hl. destruct (H1 v n Hl) as (i & ? & ? & ?). exists i. by rewrite <- E.
Qed.

Lemma frame_weaken s s' refs refs' : (∀ i, 0 < refs' i → 0 < refs i) → frame s s' refs → frame s s' refs'.
Proof. intros E (? & ? & ? & Hf). split_and!; try done. intros v i Hv Hi. apply Hf; [done|by apply E]. Qed.

Lemma frame_trans s s1 s2 refs : frame s s1 refs → frame s1 s2 refs → frame s s2 refs.
Proof. intros (E1 & E2 & E3 & Hf) (G1 & G2 & G3 & Hg). split_and!; [congruence..|]. intros v i Hv Hi. by eauto. Qed.

Lemma frame_refl s refs : frame s s refs.
Proof. by split_and!. Qed.

(** Setting the count of a vnode in use. *)
Lemma ident_count s v n c w m : ident (set_vnode s v (set_refcount n c)) w (set_refcount m c) = ident s w m.
Proof. unfold ident. cbn [v_mp set_refcount fs_state set_vnode set_vnodes]. by rewrite fs_num_count. Qed.

Lemma set_count_at s v n i c : live s v n → ident s v n = Some i → 0 < c → ∀ w j, at_file (set_vnode s v (set_refcount n c)) w j ↔ at_file s w j.
Proof.
  intros [Hv Hc] Hi Hpos w j. unfold at_file, live. split; intros (m & [Hm Hmc] & Hmi); cbn [vnodes set_vnodes set_vnode] in *.
  - destruct (decide (w = v)) as [->|Hne]; [|rewrite lookup_insert_ne in Hm by done; by eauto]. rewrite lookup_insert_eq in Hm. injection Hm as <-. exists n. split; [done|]. by rewrite ident_count in Hmi.
  - destruct (decide (w = v)) as [->|Hne]; [|exists m; rewrite lookup_insert_ne by done; done]. rewrite Hv in Hm. injection Hm as <-. exists (set_refcount n c). rewrite lookup_insert_eq. split; [done|]. by rewrite ident_count.
Qed.

Lemma set_count_ok s refs v n i d : rel s refs → live s v n → ident s v n = Some i → 0 < refs i + d < 2 ^ 31 →
  let s' := set_vnode s v (set_refcount n (refs i + d)) in rel s' (add_refs refs i d) ∧ frame s s' (add_refs refs i d).
Proof.
  intros Hr Hl Hi Hd s'. pose proof (set_count_at s v n i (refs i + d) Hl Hi ltac:(lia)) as Hat. fold s' in Hat. split; [|by split_and!; [..|intros w j Hw _; apply Hat]].
  pose proof Hr as [H1 H2 H3 H4 H5]. split.
  - intros w m [Hm Hc]. unfold s', set_vnode in Hm. cbn [vnodes set_vnodes] in Hm. destruct (decide (w = v)) as [->|Hne].
    + rewrite lookup_insert_eq in Hm. injection Hm as <-. exists i. destruct (H1 v n Hl) as (i' & Ei & _ & Hn). assert (i' = i) as -> by congruence. rewrite add_refs_same. split; [by unfold s'; rewrite ident_count|]. by destruct n.
    + rewrite lookup_insert_ne in Hm by done. destruct (H1 w m (conj Hm Hc)) as (j & Ej & Erc & Hn). exists j. rewrite add_refs_ne; [done|]. intros ->. apply Hne. apply (H3 w v i); [by exists m|by exists n].
  - intros j Hj. destruct (decide (j = i)) as [->|Hne]; [exists v; apply Hat; by exists n|]. rewrite add_refs_ne in Hj by done. destruct (H2 j Hj) as (w & Hw). exists w. by apply Hat.
  - intros w w' j Hw Hw'. apply (H3 w w' j); by apply Hat.
  - intros j. destruct (decide (j = i)) as [->|Hne]; [rewrite add_refs_same; lia|rewrite add_refs_ne by done; apply H4].
  - apply refcount_law; [done..|lia].
Qed.

Lemma clone_ref_ok s refs v i : rel s refs → at_file s v i → refs i < 2 ^ 31 - 1 →
  ∃ s', vfs_clone_vnode s v = Val s' ∧ rel s' (add_refs refs i 1) ∧ frame s s' (add_refs refs i 1) ∧ at_file s' v i.
Proof.
  intros Hr (n & Hl & Hi) Hmax. destruct (vr_live _ _ _ Hr v n Hl) as (i' & Ei & Erc & _). assert (i' = i) as -> by congruence. pose proof (vr_range _ _ _ Hr i) as Hrg. destruct Hl as [Hv Hc].
  destruct (set_count_ok s refs v n i 1 Hr (conj Hv Hc) Hi ltac:(lia)) as [Hr' Hf]. unfold vfs_clone_vnode. rewrite Hv. res_simpl. rewrite Erc, s32_small by lia. eexists. split; [done|]. split; [done|]. split; [done|].
  eapply set_count_at; [done|done|lia|by exists n].
Qed.

Lemma release_ok s refs v i : rel s refs → at_file s v i → wp (release s (Some v)) fs_halt (λ s', rel s' (add_refs refs i (-1)) ∧ frame s s' (add_refs refs i (-1))).
Proof.
  intros Hr (n & Hl & Hi). destruct (vr_live _ _ _ Hr v n Hl) as (i' & Ei & Erc & _). assert (i' = i) as -> by congruence. pose proof (vr_range _ _ _ Hr i) as Hrg. pose proof Hl as [Hv Hc].
  unfold release, vfs_release_vnode, release_vnode_with. rewrite Hv. res_simpl. rewrite Erc, s32_small by lia. replace (refs i - 1 <? 0) with false by lia. destruct (Z.eqb_spec (refs i - 1) 0) as [E|E].
  - rewrite E. wp_step (release_law s refs v n i Hr Hl Hi); [lia|]. intros [s' e] H'. exact H'.
  - exact (set_count_ok s refs v n i (-1) Hr Hl Hi ltac:(lia)).
Qed.
End refs.

Section laws.
Context {F : Type} `{FileSystem F} `{!FsInv F} (T : tree) `{!FsLaws F T} (NAME_MAX : nat).
Implicit Types s : vfs F.
Implicit Types refs : fileid → Z.
Local Abbreviation rel := (vfs_rel T).

(** ** The loop *)

Lemma next_component_len n path : let '(c, rest) := next_component n path in (length c ≤ n)%nat ∧ (length c + length rest = length path)%nat ∧ (c = [] → n = 0%nat ∨ path = [] ∨ skip_sep rest ≠ rest).
Proof.
  revert path. induction n as [|n IH]; intros path; cbn [next_component]; [destruct path; simpl; split_and!; auto; lia|]. destruct path as [|c path]; [simpl; split_and!; auto; lia|].
  destruct (Z.eqb_spec c VFS_SEP) as [->|Hc]; [simpl; split_and!; [lia|lia|]; intros _; right; right; intros E; apply (f_equal length) in E; simpl in E; lia|].
  specialize (IH path). destruct (next_component n path) as [comp rest]. destruct IH as (L1 & L2 & _). simpl. split_and!; [lia|lia|done].
Qed.

Lemma skip_sep_len path : (length (skip_sep path) ≤ length path)%nat ∧ (skip_sep path ≠ path → length (skip_sep path) < length path)%nat.
Proof. destruct path as [|c path]; [done|]. unfold skip_sep. destruct (c =? VFS_SEP); simpl; split; try lia; done. Qed.

Lemma step_len path : (2 ≤ NAME_MAX)%nat → path ≠ [] → let '(c, rest) := next_component (NAME_MAX - 1) path in (length (skip_sep rest) < length path)%nat ∧ (length c < NAME_MAX)%nat.
Proof.
  intros Hn Hp. pose proof (next_component_len (NAME_MAX - 1) path) as Hl. destruct (next_component (NAME_MAX - 1) path) as [c rest]. destruct Hl as (L1 & L2 & L3). destruct (skip_sep_len rest) as [S1 S2]. split; [|lia].
  destruct c; [|simpl in L2; lia]. destruct (L3 eq_refl) as [?|[?|Hs]]; [lia|done|]. specialize (S2 Hs). simpl in L2. lia.
Qed.

Lemma components_enough n path : (2 ≤ NAME_MAX)%nat → (length path ≤ n)%nat → components NAME_MAX n path = components NAME_MAX (length path) path.
Proof.
  intros Hn. remember (length path) as m eqn:Em. revert n path Em. induction (lt_wf m) as [m _ IH]. intros n path -> Hle. destruct path as [|c path]; [by destruct n|]. destruct n as [|n]; [simpl in Hle; lia|].
  pose proof (step_len (c :: path) Hn ltac:(done)) as Hs. cbn [components length]. destruct (next_component (NAME_MAX - 1) (c :: path)) as [comp rest]. destruct Hs as [Hs _]. simpl in Hs, Hle. f_equal.
  rewrite (IH (length (skip_sep rest)) ltac:(simpl; lia) n (skip_sep rest) eq_refl ltac:(lia)). symmetry. apply (IH (length (skip_sep rest))); [simpl; lia|done|lia].
Qed.

(** Trading a reference to one vnode in use for one to another that is held. *)
Lemma trade_ok {B} s refs cur i v j (k : vfs F → res B) Q : rel s (add_refs refs i 1) → at_file s cur i → at_file s v j → 0 < refs j < 2 ^ 31 - 1 →
  (∀ s1 s', mountpoints s1 = mountpoints s → vfs_clone_vnode s1 v = Val s' → rel s' (add_refs refs j 1) → at_file s' v j → frame s s' refs → wp (k s1) fs_halt Q) →
  wp (release s (Some cur) ≫= k) fs_halt Q.
Proof.
  intros Hr Hc Hv Hj HQ. wp_step release_ok; [done..|]. intros s1 (Hr1 & Hf1).
  assert (Eq : ∀ k, add_refs (add_refs refs i 1) i (-1) k = refs k) by (intros x; unfold add_refs; case_decide; lia).
  apply (rel_ext _ _ refs Eq) in Hr1. assert (Hf1' : frame s s1 refs) by (eapply frame_weaken; [|exact Hf1]; intros x; rewrite Eq; done).
  assert (Hv1 : at_file s1 v j) by (apply Hf1'; [done|lia]). destruct (clone_ref_ok _ _ _ _ Hr1 Hv1 ltac:(lia)) as (s2 & E2 & Hr2 & Hf2 & Hv2).
  apply (HQ s1 s2); try done; [by destruct Hf1'|]. eapply frame_trans; [done|]. eapply frame_weaken; [|exact Hf2]. intros x Hx. unfold add_refs. case_decide; lia.
Qed.

Lemma cross_ok s refs cur i : rel s (add_refs refs i 1) → at_file s cur i → mounts_ok T s refs → (∀ j, refs j < 2 ^ 31 - 1) →
  wp (cross_mount s cur) fs_halt (λ '(s', c, e), e = 0 ∧ rel s' (add_refs refs (resolve T i) 1) ∧ at_file s' c (resolve T i) ∧ frame s s' refs).
Proof.
  intros Hr Hc Hm Hb. pose proof Hc as (n & Hl & Hi). destruct (vr_live _ _ _ Hr cur n Hl) as (i' & Ei & _ & (_ & _ & _ & Hbit & _)). assert (i' = i) as -> by congruence.
  unfold cross_mount. rewrite (proj1 Hl). res_simpl. rewrite Hbit. unfold resolve. destruct (t_over T i) as [r|] eqn:Eo.
  - rewrite bool_decide_true by done. destruct (mo_over _ _ _ Hm i r Eo) as (v & m & mt & rv & H1 & H2 & H3 & H4 & H5 & H6 & H7). assert (v = cur) as -> by (by eapply vr_uniq). rewrite H3.
    apply (trade_ok s refs cur i rv r); try done. intros s1 s' Em E' Hr' Hv' Hf'. rewrite Em, H4. res_simpl. rewrite H5. res_simpl. rewrite E'. done.
  - rewrite bool_decide_false by (by intros [? ?]). cbn [wp]. split_and!; try done.
Qed.

Lemma leave_ok s refs cur i c : rel s (add_refs refs i 1) → at_file s cur i → mounts_ok T s refs → (∀ j, refs j < 2 ^ 31 - 1) →
  wp (leave_root s cur c) fs_halt (λ '(s', v), rel s' (add_refs refs (leave T i c) 1) ∧ at_file s' v (leave T i c) ∧ frame s s' refs).
Proof.
  intros Hr Hc Hm Hb. pose proof Hc as (n & Hl & Hi). destruct (vr_live _ _ _ Hr cur n Hl) as (i' & Ei & _ & (_ & _ & _ & _ & Hact)). assert (i' = i) as -> by congruence.
  destruct (mo_active _ _ _ Hm _ Hact) as (mt & rv & u & H1 & H2 & H3 & H4 & H5 & H6 & H7 & _). unfold leave_root, leave. rewrite (proj1 Hl). res_simpl.
  assert (Emp : v_mp n = Some i.1). { unfold ident in Hi. destruct (v_mp n) as [mp|]; [|done]. cbn in Hi. injection Hi as <-. done. }
  rewrite Emp. res_simpl. rewrite H1. res_simpl. rewrite H2. assert (Eroot : bool_decide (Some rv = Some cur) = bool_decide (i = t_root T i.1)).
  { apply bool_decide_ext. split; [intros [= ->]; destruct H3 as (n3 & [L3 _] & I3); destruct Hl as [L _]; congruence|intros E; f_equal; rewrite <- E in H3; by eapply vr_uniq]. }
  rewrite Eroot. destruct (bool_decide (i = t_root T i.1) && bool_decide (c = dotdot)).
  - apply (trade_ok s refs cur i u (t_under T i.1)); try done. intros s1 s' Em E' Hr' Hv' Hf'. rewrite Em, H1. res_simpl. rewrite H5. res_simpl. rewrite E'. done.
  - cbn [wp]. split_and!; try done.
Qed.

(** What a lookup gives, compared with the walk: the new state, the result and the error. *)
Definition lookup_post s refs (w : fileid + Z) (out : vfs F * option Z * Z) : Prop :=
  let '(s', r, e) := out in
  frame s s' refs ∧
  match w with
  | inl j => e = 0 ∧ ∃ v, r = Some v ∧ at_file s' v j ∧ rel s' (add_refs refs j 1)
  | inr err => e = err ∧ err ≠ 0 ∧ r = None ∧ rel s' refs
  end.

Lemma lookup_post_from s s1 refs w out : frame s s1 refs → lookup_post s1 refs w out → lookup_post s refs w out.
Proof. destruct out as [[s' r] e]. intros Hf [Hf' Hp]. split; [by eapply frame_trans|done]. Qed.

(** Giving up: the reference to the current vnode goes. *)
Lemma abandon_ok s s0 refs cur i err : rel s (add_refs refs i 1) → at_file s cur i → err ≠ 0 → frame s0 s refs →
  wp (s ← release s (Some cur); Val (s, None, err)) fs_halt (lookup_post s0 refs (inr err)).
Proof.
  intros Hr Hc He Hf. wp_step release_ok; [done..|]. intros s1 (Hr1 & Hf1).
  assert (Eq : ∀ k, add_refs (add_refs refs i 1) i (-1) k = refs k) by (intros k; unfold add_refs; case_decide; lia).
  cbn [wp]. split; [eapply frame_trans; [exact Hf|]; eapply frame_weaken; [|exact Hf1]; intros k; by rewrite Eq|]. split_and!; try done. by apply (rel_ext _ _ refs Eq).
Qed.

Lemma loop_from s s1 refs fuel cur path flags uid w : frame s s1 refs →
  wp (lookup_loop NAME_MAX fuel s1 cur path flags uid) fs_halt (lookup_post s1 refs w) → wp (lookup_loop NAME_MAX fuel s1 cur path flags uid) fs_halt (lookup_post s refs w).
Proof. intros Hf Hw. eapply wp_mono; [exact Hw|done|]. intros out. by apply lookup_post_from. Qed.

Lemma lookup_loop_ok fuel s refs cur i path flags uid : (2 ≤ NAME_MAX)%nat → (length path < fuel)%nat → (∀ j, refs j < 2 ^ 31 - 1) → fs_room refs →
  rel s (add_refs refs i 1) → at_file s cur i → mounts_ok T s refs →
  wp (lookup_loop NAME_MAX fuel s cur path flags uid) fs_halt
    (lookup_post s refs (walk T uid (has_bits flags VLOOKUP_PARENT_OF) (components NAME_MAX (length path) path) i)).
Proof.
  intros Hnm Hfuel Hb Hroom. revert s cur i path Hfuel. induction fuel as [|fuel IH]; intros s cur i path Hfuel Hr Hc Hm; [lia|]. cbn [lookup_loop].
  wp_step cross_ok; [done..|]. intros [[s1 c1] e] (-> & Hr1 & Hc1 & Hf1). change (negb (0 =? 0)) with false. cbn iota.
  assert (Hm1 : mounts_ok T s1 refs) by (by eapply mounts_frame). destruct path as [|ch path0].
  { cbn [wp walk components length]. split; [done|]. split; [done|]. by exists c1. }
  set (path := ch :: path0) in *. pose proof (step_len path Hnm ltac:(done)) as Hstep. replace (length path) with (S (length path0)) by done. cbn [components path].
  fold path. destruct (next_component (NAME_MAX - 1) path) as [c rest] eqn:En. destruct Hstep as [Hrest Hclen]. change (length path) with (S (length path0)) in *. cbn [walk].
  set (j := resolve T i) in *. pose proof Hc1 as (n & Hl & Hi). destruct (vr_live _ _ _ Hr1 c1 n Hl) as (j' & Ej & _ & (Em & Eu & Eg & _ & Hact)). assert (j' = j) as -> by congruence.
  rewrite (proj1 Hl). res_simpl. rewrite Em, Eu, Eg. destruct (S_ISDIR (t_mode T j)) eqn:Hdir; cbn [negb]; [|by apply (abandon_ok s1 s refs c1 j)].
  destruct (verify_mode_access uid R_OK (t_uid T j) (t_gid T j) (t_mode T j)); cbn [negb]; [|by apply (abandon_ok s1 s refs c1 j)].
  replace (NAME_MAX <=? length c)%nat with false by lia. rewrite (components_enough (length path0) (skip_sep rest)) by lia.
  assert (Enil : bool_decide (skip_sep rest = []) = bool_decide (components NAME_MAX (length (skip_sep rest)) (skip_sep rest) = [])).
  { apply bool_decide_ext. destruct (skip_sep rest) as [|x l]; [done|]. split; [done|]. cbn [components length]. by destruct (next_component (NAME_MAX - 1) (x :: l)). }
  rewrite <- Enil. destruct (has_bits flags VLOOKUP_PARENT_OF && bool_decide (skip_sep rest = [])) eqn:Epar.
  - apply andb_true_iff in Epar as [_ Epar%bool_decide_eq_true]. rewrite Epar in *. apply (loop_from s s1 _ _ _ _ _ _ _ Hf1). exact (IH s1 c1 j [] ltac:(simpl in *; lia) Hr1 Hc1 Hm1).
  - wp_step leave_ok; [done..|]. intros [s2 c2] (Hr2 & Hc2 & Hf2). assert (Hm2 : mounts_ok T s2 refs) by (by eapply mounts_frame). assert (Hf02 : frame s s2 refs) by (by eapply frame_trans).
    assert (Hdir' : S_ISDIR (t_mode T (leave T j c)) = true) by (unfold leave; destruct (bool_decide (j = t_root T j.1) && bool_decide (c = dotdot)); [by destruct (mo_active _ _ _ Hm1 _ Hact) as (? & ? & ? & ? & ? & ? & ? & ? & ? & ? & ?)|done]).
    set (k := leave T j c) in *. assert (Eq : ∀ x, add_refs (add_refs refs k 1) k (-1) x = refs x) by (intros x; unfold add_refs; case_decide; lia).
    wp_step lookup_law; [exact Hr2|exact Hc2|exact Hdir'|eapply fs_room_ext; [|exact Hroom]; intros x; by rewrite Eq|intros x; rewrite Eq; apply Hb|]. intros [[s3 r] e] Hcase. destruct (t_child T k c) as [j2|err].
    + destruct Hcase as (-> & c3 & -> & Hc3 & Hr3 & Hf3). change (negb (0 =? 0)) with false. res_simpl.
      assert (Eq3 : ∀ x, add_refs (add_refs (add_refs refs k 1) k (-1)) j2 1 x = add_refs refs j2 1 x) by (intros x; specialize (Eq x); unfold add_refs in *; repeat case_decide; lia).
      assert (Hf3' : frame s2 s3 refs) by (eapply frame_weaken; [|exact Hf3]; intros x; by rewrite Eq).
      eapply (loop_from s s3); [by eapply frame_trans|]. apply (IH s3 c3 j2 (skip_sep rest) ltac:(lia) (rel_ext _ _ _ Eq3 Hr3) Hc3). eapply mounts_frame; [exact Hm2|exact Hf3'|done].
    + destruct Hcase as (-> & He & -> & Hr3 & Hf3). replace (err =? 0) with false by lia. cbn [negb].
      assert (Hf3' : frame s2 s3 refs) by (eapply frame_weaken; [|exact Hf3]; intros x; unfold add_refs; case_decide; lia). assert (Hc3 : at_file s3 c2 k) by (apply Hf3; [done|exact (refs_pos _ _ _ _ Hr2 Hc2)]).
      apply (abandon_ok s3 s refs c2 k); try done. by eapply frame_trans.
Qed.

(** ** Paths *)

(** The file where the walk of a path begins. *)
Definition start (root : nat) (cwd : option fileid) (path : list Z) : fileid :=
  match cwd, bool_decide (path !! 0%nat = Some VFS_SEP) with Some i, false => i | _, _ => t_root T root end.

Definition cwd_at s (cwd : option Z) (i : option fileid) : Prop :=
  match cwd, i with None, None => True | Some v, Some i => at_file s v i | _, _ => False end.

Lemma vfs_lookup_ok s refs root cwd i path flags uid : (2 ≤ NAME_MAX)%nat → rel s refs → mounts_ok T s refs → fs_room refs → (∀ j, refs j < 2 ^ 31 - 1) →
  root_fs s = Some root → t_active T root → cwd_at s cwd i →
  wp (vfs_lookup NAME_MAX s cwd path flags uid) fs_halt
    (lookup_post s refs (walk T uid (has_bits flags VLOOKUP_PARENT_OF) (components NAME_MAX (length (skip_sep path)) (skip_sep path)) (start root i path))).
Proof.
  intros Hnm Hr Hm Hroom Hb Hroot Hact Hcwd. unfold vfs_lookup. destruct (mo_active _ _ _ Hm root Hact) as (mt & rv & u & H1 & H2 & H3 & H4 & _).
  assert (Hstart : ∃ v, at_file s v (start root i path) ∧
    match cwd, bool_decide (path !! 0%nat = Some VFS_SEP) with Some v, false => Val v | _, _ => r ← lift (root_fs s); m ← lift (mountpoints s !! r); lift (root_node m) end = Val v).
  { unfold start. rewrite Hroot. res_simpl. rewrite H1. res_simpl. rewrite H2. destruct cwd as [v|], i as [i|]; try done; [|by exists rv]. destruct (bool_decide _); [by exists rv|by exists v]. }
  destruct Hstart as (v & Hv & ->). res_simpl. destruct (clone_ref_ok s refs v _ Hr Hv) as (s1 & -> & Hr1 & Hf1 & Hv1); [apply Hb|]. res_simpl.
  assert (Hf1' : frame s s1 refs) by (eapply frame_weaken; [|exact Hf1]; intros k Hk; unfold add_refs; case_decide; lia).
  apply (loop_from s s1 _ _ _ _ _ _ _ Hf1'). apply lookup_loop_ok; try done; [lia|by eapply mounts_frame].
Qed.

(** What vfs_access says of a file that the walk gives. *)
Definition access_result (w : fileid + Z) (mode uid : Z) : Z :=
  match w with
  | inl j => if negb (mode =? 0) && negb (verify_mode_access uid mode (t_uid T j) (t_gid T j) (t_mode T j)) then EPERM else 0
  | inr e => e
  end.

(** C4: vfs_lookup gives the file that the walk of the path leads to, across
    mount points and up through them, or the error at which the walk ends.
    References are in balance: on success there is one more to the vnode of
    the file, which the caller has to release, and on failure there are as many
    as before, to every file; no vnode that someone else holds moves, and the
    lookup ends and is defined, unless the file system halts the machine.  vfs_access judges the file at the end of the
    walk and leaves all references as they were. *)
Theorem vfs_lookup_refines s refs root cwd i path flags uid mode : (2 ≤ NAME_MAX)%nat → vfs_rel T s refs → mounts_ok T s refs → fs_room refs → (∀ j, refs j < 2 ^ 31 - 1) →
  root_fs s = Some root → t_active T root → cwd_at s cwd i →
  let names := components NAME_MAX (length (skip_sep path)) (skip_sep path) in
  wp (vfs_lookup NAME_MAX s cwd path flags uid) fs_halt (lookup_post s refs (walk T uid (has_bits flags VLOOKUP_PARENT_OF) names (start root i path))) ∧
  wp (vfs_access NAME_MAX s cwd path mode uid) fs_halt (λ '(s', e), e = access_result (walk T uid false names (start root i path)) mode uid ∧ vfs_rel T s' refs ∧ frame s s' refs).
Proof.
  intros Hnm Hr Hm Hroom Hb Hroot Hact Hcwd names. split; [by apply vfs_lookup_ok|]. unfold vfs_access, with_lookup.
  wp_step (vfs_lookup_ok s refs root cwd i path VLOOKUP_NORMAL uid); [done..|]. intros [[s1 r] e] Hp. change (has_bits VLOOKUP_NORMAL VLOOKUP_PARENT_OF) with false in Hp. fold names in Hp.
  destruct (walk T uid false names (start root i path)) as [j|err]; cbn [access_result]; destruct Hp as [Hf Hp].
  - destruct Hp as (-> & v & -> & Hv & Hr1). cbn [Z.eqb negb]. res_simpl. pose proof Hv as (n & Hl & Hi). destruct (vr_live _ _ _ Hr1 v n Hl) as (j' & Ej & _ & (Em & Eu & Eg & _)). assert (j' = j) as -> by congruence.
    rewrite (proj1 Hl). res_simpl. rewrite Em, Eu, Eg. wp_step release_ok; [done..|]. intros s2 (Hr2 & Hf2). assert (Eq : ∀ k, add_refs (add_refs refs j 1) j (-1) k = refs k) by (intros k; unfold add_refs; case_decide; lia).
    cbn [wp]. split; [done|]. split; [by apply (rel_ext _ _ refs Eq)|]. eapply frame_trans; [exact Hf|]. eapply frame_weaken; [|exact Hf2]. intros k. by rewrite Eq.
  - destruct Hp as (-> & He & -> & Hr1). replace (err =? 0) with false by lia. cbn [negb wp]. done.
Qed.

(** ** The components of a path *)

Fixpoint join (cs : list (list Z)) : list Z :=
  match cs with [] => [] | [c] => c | c :: cs => c ++ VFS_SEP :: join cs end.
Definition name_ok (c : list Z) : Prop := c ≠ [] ∧ (VFS_SEP ∉ c) ∧ (length c < NAME_MAX)%nat.

Lemma next_component_name n c rest : (VFS_SEP ∉ c) → (length c ≤ n)%nat → next_component n (c ++ VFS_SEP :: rest) = (c, VFS_SEP :: rest) ∧ next_component n c = (c, []).
Proof.
  revert c. induction n as [|n IH]; intros c Hc Hl; [by destruct c; [|simpl in Hl; lia]|]. destruct c as [|x c]; [done|]. apply not_elem_of_cons in Hc as [Hx Hc]. cbn [next_component app].
  replace (x =? VFS_SEP) with false by lia. destruct (IH c Hc ltac:(simpl in Hl; lia)) as [-> ->]. done.
Qed.

(** Names that are joined by separators come apart again. *)
Lemma components_join cs : (2 ≤ NAME_MAX)%nat → Forall name_ok cs → components NAME_MAX (length (join cs)) (join cs) = cs.
Proof.
  intros Hn Hcs. induction Hcs as [|c cs (Hne & Hs & Hl) Hcs IH]; [done|]. destruct (next_component_name (NAME_MAX - 1) c (join cs) Hs ltac:(lia)) as [E1 E2]. destruct cs as [|c' cs].
  - cbn [join]. destruct c as [|x c]; [done|]. cbn [components length]. rewrite E2. cbn [skip_sep]. by destruct (length c).
  - change (join (c :: c' :: cs)) with (c ++ VFS_SEP :: join (c' :: cs)). destruct c as [|x c]; [done|]. cbn [components length app] in *. rewrite E1. cbn [skip_sep]. rewrite Z.eqb_refl. f_equal.
    rewrite components_enough, IH; [done|done|rewrite length_app; simpl; lia].
Qed.
End laws.
