(* ===== verification/Procfs.v ===== *)
(** * Procfs: the file system of the processes (kernel/fs/procfs/procfs.c, kernel/fs/nop.c)

    The vnodes of procfs are those of a table of six, vnode_table, and have the
    addresses 0 to 5 here; the process and the file number that each of them
    stands for are the state of the file system, together with the table of
    processes, of which only the process ids matter.  The contents of the
    files are made by the functions of procfs/data.c, which are a parameter:
    the length that they return, and the bytes in the buffer.

    Procfs keeps to the laws of file systems ([FsLaws]), so that paths lead
    where they should, as long as no more than six of its files are in use. *)

From S2P Require Import Prelude Result Iovec Cstring Numconv Printf Vfs Vfsinv.

Definition PFN_ROOTDIR : Z := 0.
Definition PFN_PROCDIR : Z := 1.
Definition PFN_CMDLINE : Z := 2.
Definition PFN_STAT : Z := 3.
Definition PFN_STATM : Z := 4.
Definition PFN_MAPS : Z := 5.
Definition PFN_PAGEDUMP : Z := 6.
Definition PFN_MOUNTS : Z := 100.
Definition MAX_VNODES : nat := 6.
Definition PROCFS_MODE : Z := Z.lor S_IFDIR 493.

(** The number, the name, and whether there is a function for the contents. *)
Record procfs_dir_entry := Entry { filenum : Z; filename : list Z; func : bool }.
Definition root_files : list procfs_dir_entry :=
  [Entry PFN_ROOTDIR [46] false; Entry PFN_ROOTDIR [46; 46] false; Entry PFN_MOUNTS [109; 111; 117; 110; 116; 115] true].
Definition proc_files (mmu : bool) : list procfs_dir_entry :=
  [Entry PFN_PROCDIR [46] false; Entry PFN_ROOTDIR [46; 46] false; Entry PFN_CMDLINE [99; 109; 100; 108; 105; 110; 101] true;
   Entry PFN_STAT [115; 116; 97; 116] true; Entry PFN_STATM [115; 116; 97; 116; 109] true; Entry PFN_MAPS [109; 97; 112; 115] true] ++
  (if mmu then [Entry PFN_PAGEDUMP [112; 97; 103; 101; 100; 117; 109; 112] true] else []).

Record procfs_data := Pdata { pd_pid : Z; pd_filenum : Z }.
(** The data of vnode_table, and process_list. *)
Record procfs := Procfs { pf_data : list procfs_data; pf_procs : list (option Z) }.

(** ** Operations that do nothing *)

Section nop.
Context {F : Type}.
Definition nop_sync (s : vfs F) (_ : nat) : res (vfs F * Z) := Val (s, 0).
Definition nop_create (s : vfs F) (_ : Z) (_ : list Z) (_ _ : Z) (result : option Z) : res (vfs F * option Z * Z) := Val (s, result, EPERM).
Definition nop_mknod (s : vfs F) (_ : Z) (_ : list Z) (_ _ _ : Z) : res (vfs F * option Z * Z) := Val (s, None, EPERM).
Definition nop_lookup (s : vfs F) (_ : Z) (_ : list Z) (result : option Z) : res (vfs F * option Z * Z) := Val (s, result, ENOENT).
Definition nop_link (s : vfs F) (_ _ : Z) (_ : list Z) : res (vfs F * Z) := Val (s, EPERM).
Definition nop_unlink (s : vfs F) (_ _ : Z) (_ : list Z) : res (vfs F * Z) := Val (s, EPERM).
Definition nop_rename (s : vfs F) (_ _ : Z) (_ : list Z) (_ : Z) (_ : list Z) : res (vfs F * Z) := Val (s, EPERM).
Definition nop_truncate (s : vfs F) (_ : Z) : res (vfs F * Z) := Val (s, 0).
Definition nop_update (s : vfs F) (_ : Z) : res (vfs F * Z) := Val (s, 0).
Definition nop_release (s : vfs F) (_ : Z) : res (vfs F * Z) := Val (s, 0).
Definition nop_poll (s : vfs F) (_ : nat) (events : Z) : res (vfs F * Z) := Val (s, Z.land events 3).
End nop.

(** ** Vnodes *)

Definition set_fs {F} (s : vfs F) x : vfs F := Vfs (vnodes s) (mountpoints s) (root_fs s) (file_table s) x.
Definition slot (i : nat) : Z := Z.of_nat i.
Definition procfs_data_of (s : vfs procfs) (v : Z) : option procfs_data := rd (pf_data (fs_state s)) v.

(** The first slot that [p] holds of. *)
Fixpoint find_slot (s : vfs procfs) (p : nat → vnode → procfs_data → bool) (slots : list nat) : option (option nat) :=
  match slots with
  | [] => Some None
  | i :: slots =>
      n ← vnodes s !! slot i; d ← pf_data (fs_state s) !! i;
      if p i n d then Some (Some i) else find_slot s p slots
  end.
Definition all_slots : list nat := seq 0 MAX_VNODES.

Definition _alloc_vnode (s : vfs procfs) (pid fnum mode : Z) (mp : option nat) : res (vfs procfs * option Z) :=
  r ← lift (find_slot s (λ _ n _, v_refcount n <=? 0) all_slots);
  match r with
  | None => Val (s, None)
  | Some i =>
      let f := fs_state s in
      let s := set_vnode s (slot i) (vfs_init_vnode mp mode 1 0 0 0 fnum 0) in
      Val (set_fs s (Procfs (<[i := Pdata pid fnum]> (pf_data f)) (pf_procs f)), Some (slot i))
  end.

Definition same_file (pid fnum : Z) (d : procfs_data) : bool := (pd_pid d =? pid) && (pd_filenum d =? fnum).
Definition _find_vnode (s : vfs procfs) (pid fnum mode : Z) (mp : option nat) : res (vfs procfs * option Z) :=
  r ← lift (find_slot s (λ _ n d, (0 <? v_refcount n) && same_file pid fnum d) all_slots);
  match r with
  | Some i => s ← vfs_clone_vnode s (slot i); Val (s, Some (slot i))
  | None => _alloc_vnode s pid fnum mode mp
  end.

Definition _find_filenum_by_name (entries : list procfs_dir_entry) (name : list Z) : Z :=
  match list_find (λ e, name = filename e) entries with Some (_, e) => filenum e | None => ENOENT end.
Definition _get_entry_by_num (entries : list procfs_dir_entry) (fnum : Z) : option procfs_dir_entry :=
  snd <$> list_find (λ e, filenum e = fnum) entries.

(** Is there a process with this id? *)
Definition get_proc (procs : list (option Z)) (pid : Z) : bool := bool_decide (Some pid ∈ procs).

Definition procfs_release (s : vfs procfs) (_ : Z) : res (vfs procfs * Z) := Val (s, 0).

(** vfs_release_vnode for a vnode of procfs. *)
Definition procfs_drop (s : vfs procfs) (v : option Z) : res (vfs procfs) := '(s, _) ← release_vnode_with procfs_release s v; Val s.

Fixpoint clear_slots (s : vfs procfs) (slots : list nat) : res (vfs procfs) :=
  match slots with
  | [] => Val s
  | i :: slots => n ← lift (vnodes s !! slot i); clear_slots (set_vnode s (slot i) (set_refcount n 0)) slots
  end.
Definition procfs_init (s : vfs procfs) : res (vfs procfs * Z) := s ← clear_slots s all_slots; Val (s, 0).

Definition procfs_mount (s : vfs procfs) (i : nat) (_ : option Z) : res (vfs procfs * Z) :=
  '(s, root) ← _alloc_vnode s 0 0 PROCFS_MODE (Some i);
  m ← lift (mountpoints s !! i);
  Val (set_mounts s (<[i := Mount (m_ops m) (mount_node m) root (m_dev m) (m_bits m)]> (mountpoints s)), 0).
Definition procfs_unmount (s : vfs procfs) (i : nat) : res (vfs procfs * Z) :=
  m ← lift (mountpoints s !! i); s ← procfs_drop s (root_node m); Val (s, 0).

Section procfs.
Context (CONFIG_MMU : bool) (NAME_MAX : nat) (get_data : vfs procfs → Z → Z → option (Z * list Z)).

(** The process and the number of the file that is looked up, or an error. *)
Definition lookup_file (procs : list (option Z)) (d : procfs_data) (name : list Z) : option (Z * Z + Z) :=
  if pd_filenum d =? PFN_ROOTDIR then
    if isdigit (default 0 (head name)) then
      '(pid, _) ← strtol (name ++ [0]) 10;
      Some (if get_proc procs pid then inl (pid, PFN_PROCDIR) else inr ENOENT)
    else let fnum := _find_filenum_by_name root_files name in Some (if fnum <? 0 then inr ENOENT else inl (0, fnum))
  else if pd_filenum d =? PFN_PROCDIR then
    let fnum := _find_filenum_by_name (proc_files CONFIG_MMU) name in Some (if fnum <? 0 then inr ENOENT else inl (pd_pid d, fnum))
  else Some (inr ENOTDIR).

Definition procfs_lookup (s : vfs procfs) (v : Z) (name : list Z) (result : option Z) : res (vfs procfs * option Z * Z) :=
  d ← lift (procfs_data_of s v);
  r ← lift (lookup_file (pf_procs (fs_state s)) d name);
  match r with
  | inr error => Val (s, result, error)
  | inl (pid, fnum) =>
      n ← lift (vnodes s !! v);
      s ← procfs_drop s result;
      '(s, result) ← _find_vnode s pid fnum PROCFS_MODE (v_mp n);
      Val (s, result, 0)
  end.

(** ** Files *)

(** struct procfs_position in the 32 bits of the position: the slot, and the
    slot number of the process iterator. *)
Definition position_of (slot slotnum : Z) : Z := u16 slot * 2 ^ 16 + u16 slotnum.
Definition position_slot (p : Z) : Z := p / 2 ^ 16.
Definition position_iter (p : Z) : Z := s16 (p mod 2 ^ 16).

(** proc_iter_next: the pid of the next process, and the new slot number. *)
Fixpoint proc_iter_next (procs : list (option Z)) (slotnum : Z) : option Z * Z :=
  match procs with
  | [] => (None, slotnum)
  | None :: procs => proc_iter_next procs (slotnum + 1)
  | Some pid :: procs => (Some pid, slotnum + 1)
  end.

Definition set_position (s : vfs procfs) (i : nat) (p : Z) : res (vfs procfs) :=
  set_file s i (λ f, Vfile (f_device f) (f_vnode f) (f_refcount f) (f_flags f) p).
(** The file, and the data of its vnode. *)
Definition file_data (s : vfs procfs) (i : nat) : option (vfile * procfs_data) :=
  f ← file_table s !! i; v ← f_vnode f; d ← procfs_data_of s v; Some (f, d).

Definition procfs_open (s : vfs procfs) (i : nat) (_ : Z) : res (vfs procfs * Z) :=
  '(f, d) ← lift (file_data s i);
  s ← set_position s i (if pd_filenum d =? PFN_ROOTDIR then position_of 0 0 else 0);
  Val (s, 0).
Definition procfs_close (s : vfs procfs) (_ : nat) : res (vfs procfs * Z) := Val (s, 0).

Definition procfs_read (s : vfs procfs) (i : nat) (iter : iovec_iter) : res (vfs procfs * iovec_iter * Z) :=
  '(f, d) ← lift (file_data s i);
  if negb (pd_pid d =? 0) && negb (get_proc (pf_procs (fs_state s)) (pd_pid d)) then Val (s, iter, ENOENT)
  else
    let entry := match _get_entry_by_num (proc_files CONFIG_MMU) (pd_filenum d) with Some e => Some e | None => _get_entry_by_num root_files (pd_filenum d) end in
    '(limit, buffer) ← lift (match entry with
                       | Some e => if func e then get_data s (pd_pid d) (filenum e) else Some (0, [])
                       | None => Some (0, [])
                       end);
    if limit <? 0 then Val (s, iter, limit)
    else
      let nbytes := u32 (iovec_iter_remaining iter) in
      let nbytes := if limit <=? u32 (f_position f + nbytes) then u32 (limit - f_position f) else nbytes in
      '(iter, _) ← lift ((if nbytes =? 0 then Some (iter, 0) else memcpy_into_iter iter (drop (Z.to_nat (f_position f)) buffer) nbytes));
      s ← set_position s i (u32 (f_position f + nbytes));
      Val (s, iter, s32 nbytes).

Definition procfs_write (s : vfs procfs) (_ : nat) (iter : iovec_iter) : res (vfs procfs * iovec_iter * Z) := Val (s, iter, 0).
Definition procfs_ioctl (s : vfs procfs) (_ : nat) (_ : Z) (iter : iovec_iter) (_ : Z) : res (vfs procfs * iovec_iter * Z) := Val (s, iter, -1).
Definition procfs_seek (s : vfs procfs) (_ : nat) (_ _ : Z) : res (vfs procfs * Z) := Val (s, u32 (-1)).

(** What a struct dirent holds when it is not written. *)
Definition no_dirent : dirent := Dirent 0 [].

(** The name of a process: snprintf with %d, cut to NAME_MAX. *)
Definition pid_name (pid : Z) : option (list Z) :=
  '(name, _) ← vsnprintf (replicate NAME_MAX 0) (Z.of_nat NAME_MAX) [37; 100; 0] [ArgInt (u32 pid)];
  name ← wr name (Z.of_nat NAME_MAX - 1) 0;
  cstr name.
Definition entry_name (e : procfs_dir_entry) : list Z := take (NAME_MAX - 1) (filename e).

Definition procfs_readdir (s : vfs procfs) (i : nat) : res (vfs procfs * dirent * Z) :=
  '(f, d) ← lift (file_data s i);
  v ← lift (f_vnode f); n ← lift (vnodes s !! v);
  if negb (S_ISDIR (v_mode n)) then Val (s, no_dirent, ENOTDIR)
  else if pd_filenum d =? PFN_ROOTDIR then
    let '(proc, slotnum) := if position_slot (f_position f) =? 0 then let k := position_iter (f_position f) in proc_iter_next (drop (Z.to_nat k) (pf_procs (fs_state s))) k else (None, position_iter (f_position f)) in
    match proc with
    | Some pid =>
        let p := position_of (position_slot (f_position f)) slotnum in
        s ← set_position s i p;
        name ← lift (pid_name pid);
        Val (s, Dirent p name, 1)
    | None =>
        let k := u16 (position_slot (f_position f) + 1) in
        let p := position_of k slotnum in
        s ← set_position s i p;
        (** root_files, with the entry that ends it. *)
        e ← lift (rd ((Some <$> root_files) ++ [None]) (s16 k - 1));
        match e with None => Val (s, no_dirent, 0) | Some e => Val (s, Dirent p (entry_name e), 1) end
    end
  else if pd_filenum d =? PFN_PROCDIR then
    e ← lift (rd ((Some <$> proc_files CONFIG_MMU) ++ [None]) (f_position f));
    match e with
    | None => Val (s, no_dirent, 0)
    | Some e =>
        s ← set_position s i (u32 (f_position f + 1));
        Val (s, Dirent (u32 (Z.lor (Z.shiftl (pd_pid d) 8) (filenum e))) (entry_name e), 1)
    end
  else Val (s, no_dirent, ENOTDIR).

#[export] Instance procfs_ops : FileSystem procfs := {
  op_lookup := procfs_lookup; op_create := nop_create; op_mknod := nop_mknod; op_link := nop_link; op_unlink := nop_unlink; op_rename := nop_rename;
  op_truncate := nop_truncate; op_update := nop_update; op_release := procfs_release; op_mount := procfs_mount; op_unmount := procfs_unmount; op_sync := nop_sync;
  op_open := procfs_open; op_close := procfs_close; op_read := procfs_read; op_write := procfs_write; op_ioctl := procfs_ioctl; op_poll := nop_poll; op_seek := procfs_seek; op_readdir := procfs_readdir;
}.
End procfs.
