(* ===== verification/Procinv.v ===== *)
(** * Procinv: procfs keeps to the laws of file systems

    The number of a file of procfs is made of the process id and the file
    number of its vnode.  A file in use has one vnode of the table, and lookup
    trades references as [FsLaws] asks, while there are fewer than six files in
    use besides the directory. *)

From S2P Require Import Prelude Result Iovec Cstring Numconv Printf Vfs Vfsinv Procfs.

Section procinv.
Context (CONFIG_MMU : bool) (NAME_MAX : nat) (get_data : vfs procfs → Z → Z → option (Z * list Z)).
(** The mount, and the table of processes. *)
Context (mp : nat) (procs : list (option Z)).
Local Abbreviation ops := (procfs_ops CONFIG_MMU NAME_MAX get_data).

Definition data_num (d : procfs_data) : Z := pd_pid d * 256 + pd_filenum d.
Definition num_data (k : Z) : procfs_data := Pdata (k / 256) (k mod 256).

Definition slot_ok (s : vfs procfs) (i : nat) : Prop :=
  ∃ n d, vnodes s !! slot i = Some n ∧ pf_data (fs_state s) !! i = Some d ∧ (0 < v_refcount n → v_mp n = Some mp ∧ 0 ≤ pd_filenum d < 256).
Definition procfs_inv (s : vfs procfs) : Prop :=
  (∀ v, is_Some (vnodes s !! v) → ∃ i, (i < MAX_VNODES)%nat ∧ v = slot i) ∧ (∀ i, (i < MAX_VNODES)%nat → slot_ok s i) ∧ pf_procs (fs_state s) = procs.
(** Fewer files in use than there are vnodes. *)
Definition procfs_room (refs : fileid → Z) : Prop := ∃ l : list fileid, (length l < MAX_VNODES)%nat ∧ ∀ i, 0 < refs i → i ∈ l.

#[export] Program Instance procfs_invariant : FsInv procfs := {
  fs_num f v _ := match rd (pf_data f) v with Some d => data_num d | None => -1 end;
  fs_inv s _ := procfs_inv s;
  fs_room := procfs_room;
  fs_halt := False;
}.
Next Obligation. done. Qed.

(** The files of procfs: all of them are directories, to go by their modes. *)
Definition procfs_child (i : fileid) (name : list Z) : fileid + Z :=
  match lookup_file CONFIG_MMU procs (num_data i.2) name with
  | Some (inl (pid, fnum)) => inl (i.1, data_num (Pdata pid fnum))
  | Some (inr e) => inr e
  | None => inr ENOENT
  end.
Definition procfs_tree : tree := Tree (λ _, PROCFS_MODE) (λ _, 0) (λ _, 0) procfs_child (λ _, None) (λ m, m = mp) (λ _, (mp, 0)) (λ _, (mp, 0)).
Local Abbreviation T := procfs_tree.

Lemma num_data_num d : 0 ≤ pd_filenum d < 256 → num_data (data_num d) = d.
Proof.
  intros Hd. unfold num_data, data_num. rewrite Z.add_comm, Z.mod_add, Z.mod_small by lia. rewrite Z.div_add, Z.div_small by lia. by destruct d.
Qed.

Lemma slot_rd {A} (l : list A) i : rd l (slot i) = l !! i.
Proof. unfold slot. apply rd_nat. Qed.

(** What a vnode in use stands for. *)
Lemma slot_at s refs v i : vfs_rel T s refs → at_file s v i → ∃ k n d, (k < MAX_VNODES)%nat ∧ v = slot k ∧ vnodes s !! slot k = Some n ∧ 0 < v_refcount n ∧ pf_data (fs_state s) !! k = Some d ∧ 0 ≤ pd_filenum d < 256 ∧ v_mp n = Some mp ∧ i = (mp, data_num d).
Proof.
  intros Hr (n & [Hv Hc] & Hi). destruct (vr_fs _ _ _ Hr) as (Hdom & Hslots & _). destruct (Hdom v ltac:(by eexists)) as (k & Hk & ->). destruct (Hslots k Hk) as (n' & d & Hn & Hd & Hok).
  assert (n' = n) as -> by congruence. destruct (Hok Hc) as [Hm Hf]. exists k, n, d. split_and!; try done; try lia. unfold ident in Hi. rewrite Hm in Hi. cbn -[rd] in Hi. rewrite slot_rd, Hd in Hi. by injection Hi as <-.
Qed.

Lemma at_slot s k n d : vnodes s !! slot k = Some n → 0 < v_refcount n → pf_data (fs_state s) !! k = Some d → v_mp n = Some mp → at_file s (slot k) (mp, data_num d).
Proof. intros Hn Hc Hd Hm. exists n. split; [done|]. unfold ident. rewrite Hm. cbn -[rd]. by rewrite slot_rd, Hd. Qed.

(** Setting the count of a vnode keeps the invariant. *)
Lemma count_inv s v n c : procfs_inv s → vnodes s !! v = Some n → (0 < c → 0 < v_refcount n) → procfs_inv (set_vnode s v (set_refcount n c)).
Proof.
  intros (Hdom & Hslots & Hp) Hv Hc. split_and!; [| |done].
  - intros w [m Hm]. cbn [vnodes set_vnode set_vnodes] in Hm. destruct (decide (w = v)) as [->|Hne]; [by apply Hdom|]. rewrite lookup_insert_ne in Hm by done. by apply Hdom.
  - intros i Hi. destruct (Hslots i Hi) as (m & d & Hm & Hd & Hok). unfold slot_ok. cbn [vnodes set_vnode set_vnodes fs_state]. destruct (decide (slot i = v)) as [<-|Hne].
    + rewrite lookup_insert_eq. assert (m = n) as -> by congruence. exists (set_refcount n c), d. split_and!; try done. cbn [v_refcount set_refcount v_mp]. auto.
    + rewrite lookup_insert_ne by done. by exists m, d.
Qed.

#[export] Instance procfs_refs : FsRefs procfs (H := ops) T.
Proof.
  split.
  - done.
  - intros refs refs' E (l & Hl & Hin). exists l. split; [done|]. intros i. rewrite <- E. apply Hin.
  - intros s refs v n i d Hr [Hv Hc] Hi Hd. apply count_inv; [exact (vr_fs _ _ _ Hr)|done|done].
  - intros s refs v n i Hr Hl Hi H1. cbn [op_release procfs_ops procfs_release wp]. apply last_rel; try done. apply count_inv; [exact (vr_fs _ _ _ Hr)|apply Hl|lia].
Qed.

(** ** Looking for a slot *)

Lemma find_slot_ok s p slots : procfs_inv s → Forall (λ i, (i < MAX_VNODES)%nat) slots →
  ∃ r, find_slot s p slots = Some r ∧
    match r with
    | Some i => i ∈ slots ∧ ∃ n d, vnodes s !! slot i = Some n ∧ pf_data (fs_state s) !! i = Some d ∧ p i n d = true
    | None => ∀ i n d, i ∈ slots → vnodes s !! slot i = Some n → pf_data (fs_state s) !! i = Some d → p i n d = false
    end.
Proof.
  intros (_ & Hslots & _). induction 1 as [|i slots Hi _ IH]; [exists None; split; [done|]; intros i n d Hi; by apply elem_of_nil in Hi|]. destruct (Hslots i Hi) as (n & d & Hn & Hd & _). cbn [find_slot]. rewrite Hn, bind_some, Hd, bind_some.
  destruct (p i n d) eqn:Ep; [exists (Some i); split; [done|]; split; [by left|]; by exists n, d|]. destruct IH as (r & -> & Hr). exists r. split; [done|]. destruct r as [j|].
  - destruct Hr as [Hj Hr]. split; [by right|done].
  - intros j m e Hj Hm He. apply elem_of_cons in Hj as [->|Hj]; [|by eapply Hr]. congruence.
Qed.

Lemma all_slots_range : Forall (λ i, (i < MAX_VNODES)%nat) all_slots.
Proof. unfold all_slots. apply Forall_forall. intros i Hi%elem_of_seq. lia. Qed.

Lemma in_all_slots i : (i < MAX_VNODES)%nat → i ∈ all_slots.
Proof. intros. apply elem_of_seq. lia. Qed.

(** With room there is a vnode that is not in use. *)
Lemma free_slot s refs : vfs_rel T s refs → procfs_room refs → ∃ i n, (i < MAX_VNODES)%nat ∧ vnodes s !! slot i = Some n ∧ v_refcount n <= 0.
Proof.
  intros Hr (l & Hl & Hin). pose proof (vr_fs _ _ _ Hr) as (_ & Hslots & _).
  destruct (decide (Forall (λ i, 0 < default 0 (v_refcount <$> vnodes s !! slot i)) all_slots)) as [Hall|Hex].
  2: { apply not_Forall_Exists in Hex; [|apply _]. apply Exists_exists in Hex as (i & Hi & Hc). pose proof all_slots_range as Hrg. rewrite Forall_forall in Hrg. specialize (Hrg i Hi). destruct (Hslots i Hrg) as (n & d & Hn & _).
       exists i, n. unfold compose in Hc. rewrite Hn in Hc. cbn in Hc. split_and!; [done|done|lia]. }
  exfalso. set (g := λ i, match pf_data (fs_state s) !! i with Some d => (mp, data_num d) | None => (mp, 0) end).
  assert (Hat : ∀ i, (i < MAX_VNODES)%nat → at_file s (slot i) (g i)).
  { intros i Hi. destruct (Hslots i Hi) as (n & d & Hn & Hd & Hok). rewrite Forall_forall in Hall. specialize (Hall i (in_all_slots i Hi)). rewrite Hn in Hall. cbn in Hall. destruct (Hok Hall) as [Hm _]. unfold g. rewrite Hd. by eapply at_slot. }
  assert (Hsub : (g <$> all_slots) ⊆+ l).
  { apply NoDup_submseteq.
    - apply NoDup_fmap_2_strong; [|apply NoDup_seq]. intros a b Ha%elem_of_seq Hb%elem_of_seq E.
      pose proof (Hat a ltac:(lia)) as Ha'. pose proof (Hat b ltac:(lia)) as Hb'. rewrite E in Ha'. pose proof (vr_uniq _ _ _ Hr _ _ _ Ha' Hb') as Es. unfold slot in Es. lia.
    - intros x (i & -> & Hi%elem_of_seq)%list_elem_of_fmap. apply Hin. eapply refs_pos; [done|]. apply Hat. lia. }
  apply submseteq_length in Hsub. rewrite length_fmap in Hsub. unfold all_slots in Hsub. rewrite length_seq in Hsub. lia.
Qed.

(** A vnode that is not in use becomes that of a file that has none. *)
Lemma alloc_ok s refs pid fnum : let j := (mp, data_num (Pdata pid fnum)) in vfs_rel T s refs → procfs_room refs → refs j = 0 → 0 ≤ fnum < 256 →
  ∃ s' v, _alloc_vnode s pid fnum PROCFS_MODE (Some mp) = Val (s', Some v) ∧ vfs_rel T s' (add_refs refs j 1) ∧ at_file s' v j ∧ frame s s' (add_refs refs j 1).
Proof.
  intros j Hr Hroom Hj Hf. pose proof Hr as [R1 R2 R3 R4 R5]. unfold _alloc_vnode.
  destruct (find_slot_ok s (λ _ n _, v_refcount n <=? 0) all_slots R5 all_slots_range) as (r & -> & Hcase). res_simpl. destruct r as [k|].
  2: { destruct (free_slot s refs Hr Hroom) as (i & n & Hi & Hn & Hc). destruct R5 as (_ & Hs & _). destruct (Hs i Hi) as (n' & d & Hn' & Hd & _). specialize (Hcase i n d (in_all_slots i Hi) Hn Hd). cbn beta in Hcase. lia. }
  destruct Hcase as (Hk & n & d & Hn & Hd & Hfree%Z.leb_le). pose proof all_slots_range as Hrg. rewrite Forall_forall in Hrg. specialize (Hrg k Hk). eexists _, _. split; [done|]. set (s' := set_fs _ _).
  set (fresh := vfs_init_vnode (Some mp) PROCFS_MODE 1 0 0 0 fnum 0).
  assert (Hnk : vnodes s' !! slot k = Some fresh) by apply lookup_insert_eq.
  assert (Hdk : pf_data (fs_state s') !! k = Some (Pdata pid fnum)) by (apply list_lookup_insert_eq; by eapply lookup_lt_Some).
  assert (Hne : ∀ w, w ≠ slot k → vnodes s' !! w = vnodes s !! w) by (intros; by apply lookup_insert_ne).
  assert (Hnd : ∀ w m, w ≠ slot k → ident s' w m = ident s w m).
  { intros w m Hw. unfold ident. destruct (v_mp m); [|done]. cbn -[rd]. unfold rd. destruct (Z.ltb_spec w 0); [done|]. rewrite list_lookup_insert_ne; [done|]. unfold slot in Hw. lia. }
  assert (Hlive : ∀ w m, w ≠ slot k → (live s' w m ↔ live s w m)) by (intros w m Hw; unfold live; by rewrite (Hne w Hw)).
  destruct (first_rel s s' refs (slot k) fresh j Hr Hj) as (Hr' & Hv' & Hold); try done.
  - intros m [Hm Hmc]. assert (m = n) as -> by congruence. lia.
  - cbn [ident fs_num procfs_invariant]. unfold ident. cbn -[rd]. rewrite slot_rd. cbn [fs_state s' set_fs pf_data] in Hdk. by rewrite Hdk.
  - intros w m Hw _. by apply Hnd.
  - destruct R5 as (Hdom & Hslots & Hp). split_and!; [| |done].
    + intros w [m Hm]. destruct (decide (w = slot k)) as [->|Hw]; [by exists k|]. rewrite (Hne w Hw) in Hm. by apply Hdom.
    + intros i Hi. destruct (decide (i = k)) as [->|Hik]; [exists fresh, (Pdata pid fnum); by split_and!|]. destruct (Hslots i Hi) as (m & e & Hm & He & Hok). exists m, e. rewrite Hne by (unfold slot; lia). split_and!; try done.
      cbn [fs_state s' set_fs pf_data]. by rewrite list_lookup_insert_ne.
  - split; [done|]. split; [done|]. split_and!; try done. intros w i Hw _. by apply Hold.
Qed.

Lemma find_ok s refs pid fnum : let j := (mp, data_num (Pdata pid fnum)) in vfs_rel T s refs → procfs_room refs → (∀ i, refs i < 2 ^ 31 - 1) → 0 ≤ fnum < 256 →
  ∃ s' v, _find_vnode s pid fnum PROCFS_MODE (Some mp) = Val (s', Some v) ∧ vfs_rel T s' (add_refs refs j 1) ∧ at_file s' v j ∧ frame s s' (add_refs refs j 1).
Proof.
  intros j Hr Hroom Hb Hf. pose proof (vr_fs _ _ _ Hr) as Hinv. unfold _find_vnode.
  destruct (find_slot_ok s (λ _ n d, (0 <? v_refcount n) && same_file pid fnum d) all_slots Hinv all_slots_range) as (r & -> & Hcase). res_simpl. destruct r as [k|].
  - destruct Hcase as (Hk & n & d & Hn & Hd & Hp). apply andb_true_iff in Hp as [Hc%Z.ltb_lt Hs]. unfold same_file in Hs. assert (d = Pdata pid fnum) as -> by (destruct d; simpl in Hs; f_equal; lia).
    pose proof all_slots_range as Hrg. rewrite Forall_forall in Hrg. specialize (Hrg k Hk). destruct Hinv as (_ & Hslots & _). destruct (Hslots k Hrg) as (n' & d' & Hn' & Hd' & Hok). assert (n' = n) as -> by congruence. destruct (Hok Hc) as [Hm _].
    destruct (clone_ref_ok (H := ops) s refs (slot k) j Hr) as (s' & -> & Hr' & Hf' & Hv'); [by eapply at_slot|apply Hb|]. res_simpl. by exists s', (slot k).
  - apply alloc_ok; try done. destruct (vr_range _ _ _ Hr j) as [Hge _]. destruct (Z.eq_dec (refs j) 0) as [|Hnz]; [done|]. exfalso. destruct (vr_refs _ _ _ Hr j ltac:(lia)) as [v Hv].
    destruct (slot_at s refs v j Hr Hv) as (k & n & d & Hk & -> & Hn & Hc & Hd & Hrange & _ & Ej). injection Ej as Ej. specialize (Hcase k n d (in_all_slots k Hk) Hn Hd). cbn beta in Hcase.
    assert (d = Pdata pid fnum) as -> by (rewrite <- (num_data_num d Hrange), <- (num_data_num (Pdata pid fnum) Hf); by rewrite Ej). unfold same_file in Hcase. cbn [pd_pid pd_filenum] in Hcase. lia.
Qed.

(** ** The law of lookup *)

Lemma strtol_digits_some l num b : 0 ≤ b < 128 → is_Some (strtol_digits (l ++ [0]) num b).
Proof.
  intros Hb. revert num. induction l as [|x l IH]; intros num; cbn [app strtol_digits]; [unfold strtol_digit; simpl; rewrite s8_small by lia; by rewrite Z.leb_refl|]. by destruct (b <=? _).
Qed.

Lemma strtol_some c s : isdigit c = true → is_Some (strtol ((c :: s) ++ [0]) 10).
Proof.
  intros Hc. unfold isdigit, between in Hc. unfold strtol. cbn [app skip_blanks]. replace (is_blank c) with false by (unfold is_blank; lia). rewrite bind_some. cbn [head tail]. rewrite bind_some. replace (c =? 45) with false by lia.
  assert (Hfin : ∀ l b sg, 0 ≤ b < 128 → is_Some ('(num, endptr) ← strtol_digits (l ++ [0]) 0 b; Some (s32 (num * sg), endptr))) by (intros l b sg Hb; by destruct (strtol_digits_some l 0 b Hb) as [[num e] ->]).
  destruct (c =? 48); [|rewrite bind_some; exact (Hfin (c :: s) 10 1 ltac:(lia))]. destruct s as [|x s]; [done|]. cbn [app lookup list_lookup]. rewrite bind_some. destruct (x =? 120); rewrite bind_some; [exact (Hfin s 16 1 ltac:(lia))|exact (Hfin (x :: s) 8 1 ltac:(lia))].
Qed.

(** What is looked up has a number of its own. *)
Lemma find_filenum_range entries name : Forall (λ e, 0 ≤ filenum e < 256) entries → _find_filenum_by_name entries name = ENOENT ∨ 0 ≤ _find_filenum_by_name entries name < 256.
Proof.
  intros He. unfold _find_filenum_by_name. destruct (list_find _ entries) as [[k e]|] eqn:E; [|by left]. right. apply list_find_Some in E as (Hk & _). rewrite Forall_forall in He. apply He. by eapply list_elem_of_lookup_2.
Qed.

Lemma lookup_file_ok d name : ∃ r, lookup_file CONFIG_MMU procs d name = Some r ∧ match r with inl (_, fnum) => 0 ≤ fnum < 256 | inr e => e ≠ 0 end.
Proof.
  assert (Hr : Forall (λ e, 0 ≤ filenum e < 256) root_files) by (by repeat constructor). assert (Hp : Forall (λ e, 0 ≤ filenum e < 256) (proc_files CONFIG_MMU)) by (by destruct CONFIG_MMU; repeat constructor).
  unfold lookup_file. destruct (pd_filenum d =? PFN_ROOTDIR); [|destruct (pd_filenum d =? PFN_PROCDIR)].
  - destruct (isdigit (default 0 (head name))) eqn:Ed.
    + destruct name as [|c name]; [done|]. destruct (strtol_some c name Ed) as [[pid e] ->]. rewrite bind_some. eexists. split; [done|]. by destruct (get_proc procs pid).
    + eexists. split; [done|]. destruct (find_filenum_range root_files name Hr) as [->|H]; [done|]. by destruct (Z.ltb_spec (_find_filenum_by_name root_files name) 0); [lia|].
  - eexists. split; [done|]. destruct (find_filenum_range _ name Hp) as [->|H]; [done|]. by destruct (Z.ltb_spec (_find_filenum_by_name (proc_files CONFIG_MMU) name) 0); [lia|].
  - by eexists.
Qed.

#[export] Instance procfs_laws : FsLaws procfs (H := ops) T.
Proof.
  split; [exact procfs_refs|]. intros s refs v i name Hr Hv _ Hroom Hb. destruct (slot_at s refs v i Hr Hv) as (k & n & d & Hk & -> & Hn & Hc & Hd & Hf & Hm & ->).
  pose proof (vr_fs _ _ _ Hr) as (_ & _ & Hp). cbn [op_lookup procfs_ops t_child procfs_tree]. unfold procfs_lookup, procfs_data_of, procfs_child. cbn [snd fst]. rewrite slot_rd, Hd. res_simpl. rewrite Hp, num_data_num by done.
  destruct (lookup_file_ok d name) as (r & -> & Hcase). res_simpl. destruct r as [[pid fnum]|e]; [|by cbn [wp]].
  rewrite Hn. res_simpl. change (procfs_drop s (Some (slot k))) with (release (H := ops) s (Some (slot k))). wp_step (release_ok (H := ops) s refs (slot k)); [done..|]. intros s1 (Hr1 & Hf1). rewrite Hm.
  destruct (find_ok s1 _ pid fnum Hr1 Hroom Hb Hcase) as (s2 & w & -> & Hr2 & Hw & Hf2). res_simpl. cbn [wp]. split; [done|]. exists w. split_and!; try done.
  eapply frame_trans; [exact Hf1|]. eapply frame_weaken; [|exact Hf2]. intros x Hx. unfold add_refs in *. repeat case_decide; lia.
Qed.

(** ** Mounting it as the root *)

Lemma rel_mounts s ms refs : vfs_rel T s refs → vfs_rel T (set_mounts s ms) refs.
Proof. intros [R1 R2 R3 R4 R5]. by split. Qed.

Lemma rel_root s r refs : vfs_rel T s refs → vfs_rel T (set_root s r) refs.
Proof. intros [R1 R2 R3 R4 R5]. by split. Qed.

(** The root of procfs is held by its mount twice: as the root, and as what it is mounted on. *)
Definition root_refs : fileid → Z := add_refs (add_refs (λ _, 0) (mp, 0) 1) (mp, 0) 1.

Lemma mount_root s path dev kind flags m0 : root_fs s = None → vfs_rel T s (λ _, 0) → list_find (λ m, m_dev m = 0) (mountpoints s) = Some (mp, m0) → Forall (λ m, m_dev m ≠ dev) (mountpoints s) →
  ∃ s', vfs_mount (H := ops) NAME_MAX s None path dev kind flags SU_UID = Val (s', 0) ∧ vfs_rel T s' root_refs ∧ mounts_ok T s' root_refs ∧ root_fs s' = Some mp.
Proof.
  intros Hroot Hr Hfree Hdev. unfold vfs_mount. rewrite Z.eqb_refl. cbn [negb]. rewrite Hroot. res_simpl. cbn [Z.eqb negb]. rewrite bool_decide_false by (rewrite Exists_exists; intros (m & Hm & E); rewrite Forall_forall in Hdev; by apply (Hdev m Hm)).
  rewrite Hfree. cbn [op_mount procfs_ops]. unfold procfs_mount. set (m1 := Mount (Some kind) None None dev (u16 flags)). set (s1 := set_mounts s (<[mp:=m1]> (mountpoints s))).
  assert (Hlt : (mp < length (mountpoints s))%nat) by (apply list_find_Some in Hfree as (? & _); by eapply lookup_lt_Some).
  destruct (alloc_ok s1 (λ _, 0) 0 0) as (s2 & v & -> & Hr2 & Hv & Em & Ern & Eft & _); [by apply rel_mounts|by exists []; split; [unfold MAX_VNODES; simpl; lia|intros; lia]|done|lia|]. change (mp, data_num (Pdata 0 0)) with (mp, 0) in *. res_simpl.
  assert (Hm2 : mountpoints s2 !! mp = Some m1) by (rewrite Em; by apply list_lookup_insert_eq). rewrite Hm2. res_simpl. cbn [mountpoints set_mounts]. rewrite list_lookup_insert_eq by (by eapply lookup_lt_Some). res_simpl. cbn [Z.eqb negb mount_node root_node m1 m_ops m_dev m_bits].
  set (m2 := Mount (Some kind) None (Some v) dev (u16 flags)). set (s3 := set_root (set_mounts s2 (<[mp:=m2]> (mountpoints s2))) (Some mp)).
  destruct (clone_ref_ok (H := ops) s3 (add_refs (λ _, 0) (mp, 0) 1) v (mp, 0)) as (s4 & -> & Hr4 & (Em4 & Ern4 & _ & Hf4) & Hv4); [by apply rel_root, rel_mounts|exact Hv|rewrite add_refs_same; lia|]. res_simpl.
  eexists. split; [done|]. split; [by apply rel_mounts|]. assert (Hpos : 0 < root_refs (mp, 0)) by (unfold root_refs; rewrite !add_refs_same; lia). split; [|exact Ern4].
  split; [intros i r; done|]. intros m ->. cbn [mountpoints set_mounts t_root t_under procfs_tree t_mode]. eexists _, v, v. split; [apply list_lookup_insert_eq; rewrite Em4; cbn [mountpoints s3 set_root set_mounts]; rewrite length_insert; by eapply lookup_lt_Some|].
  by split_and!.
Qed.
End procinv.

(** ** A system with three processes *)

Definition NAME_MAX_demo : nat := 30.
Definition no_data (_ : vfs procfs) (_ _ : Z) : option (Z * list Z) := Some (0, []).
Definition demo_procs : list (option Z) := [Some 1; None; Some 7; Some 12].
Definition demo_boot : vfs procfs :=
  Vfs (list_to_map ((λ i, (slot i, Vnode None 0 0 0 0 0 0 0 0 0)) <$> all_slots)) (replicate VFS_MOUNT_MAX (Mount None None None 0 0)) None (replicate FILE_TABLE_MAX (Vfile false None 0 0 0)) (Procfs (replicate MAX_VNODES (Pdata 0 0)) demo_procs).
Local Abbreviation demo_ops := (procfs_ops true NAME_MAX_demo no_data).
Local Abbreviation demo_inv := (procfs_invariant 0 demo_procs).
Local Abbreviation demo_tree := (procfs_tree true 0 demo_procs).

Lemma demo_unused : map_Forall (λ _ n, v_refcount n = 0) (vnodes demo_boot).
Proof. apply (bool_decide_unpack _). by vm_compute. Qed.

Lemma demo_slots : map_Forall (λ v _, 0 ≤ v < 6) (vnodes demo_boot).
Proof. apply (bool_decide_unpack _). by vm_compute. Qed.

Lemma demo_boot_rel : vfs_rel (H := demo_inv) demo_tree demo_boot (λ _, 0).
Proof.
  assert (Hno : ∀ v n, ¬ live demo_boot v n) by (intros v n [Hv Hc]; pose proof (demo_unused v n Hv); simpl in *; lia). split.
  - intros v n Hl. by destruct (Hno v n).
  - intros i Hi. lia.
  - intros v v' i (n & Hl & _). by destruct (Hno v n).
  - intros i. lia.
  - split_and!; [| |done].
    + intros v [n Hv]. pose proof (demo_slots v n Hv). cbn beta in *. exists (Z.to_nat v). unfold slot, MAX_VNODES. lia.
    + intros i Hi. unfold slot_ok. do 6 (destruct i as [|i]; [eexists _, _; split; [by vm_compute|]; split; [by vm_compute|]; simpl; lia|]). unfold MAX_VNODES in Hi. lia.
Qed.

Definition slash (names : list (list Z)) : list Z := VFS_SEP :: join names.
Definition stat_path : list Z := slash [[55]; [115; 116; 97; 116]].

(** The vnode of /7/stat once procfs is mounted, and the number of references to it. *)
Example demo_lookup :
  (s ← vfs_mount (H := demo_ops) NAME_MAX_demo demo_boot None [VFS_SEP] 513 0 0 SU_UID;
   '(s, r, e) ← vfs_lookup (H := demo_ops) NAME_MAX_demo s.1 None stat_path VLOOKUP_NORMAL SU_UID;
   v ← lift r; n ← lift (vnodes s !! v); Val (v, e, v_ino n, v_refcount n)) = Val (1, 0, PFN_STAT, 1).
Proof. by vm_compute. Qed.

(** /7/.. is not the root of procfs, but another vnode: the process id is kept. *)
Example dotdot_not_root :
  ('(s, _) ← vfs_mount (H := demo_ops) NAME_MAX_demo demo_boot None [VFS_SEP] 513 0 0 SU_UID;
   m ← lift (mountpoints s !! 0%nat);
   '(s, r, e) ← vfs_lookup (H := demo_ops) NAME_MAX_demo s None (slash [[55]; [46; 46]]) VLOOKUP_NORMAL SU_UID;
   v ← lift r; d ← lift (pf_data (fs_state s) !! Z.to_nat v); Val (root_node m, v, e, d)) = Val (Some 0, 1, 0, Pdata 7 PFN_ROOTDIR).
Proof. by vm_compute. Qed.

(** With all vnodes in use procfs_lookup gives no vnode and no error, and vfs_lookup uses a null pointer. *)
Definition demo_busy : res (vfs procfs) :=
  '(s, _) ← vfs_mount (H := demo_ops) NAME_MAX_demo demo_boot None [VFS_SEP] 513 0 0 SU_UID;
  foldl (λ s name, s ← s; '(s, _, _) ← vfs_lookup (H := demo_ops) NAME_MAX_demo s None (slash name) VLOOKUP_NORMAL SU_UID; Val s) (Val s) [[[49]]; [[55]]; [[49; 50]]; [[109; 111; 117; 110; 116; 115]]; [[55]; [115; 116; 97; 116]]].
Example full_table_null :
  (s ← demo_busy; '(_, r, e) ← procfs_lookup true s 1 [109; 97; 112; 115] None; Val (r, e)) = Val (None, 0) ∧
  (s ← demo_busy; vfs_lookup (H := demo_ops) NAME_MAX_demo s None (slash [[55]; [109; 97; 112; 115]; [46]]) VLOOKUP_NORMAL SU_UID) = Undef.
Proof. split; by vm_compute. Qed.

Lemma vfs_lookup_refines_witness :
  ∃ s, vfs_mount (H := demo_ops) NAME_MAX_demo demo_boot None [VFS_SEP] 513 0 0 SU_UID = Val (s, 0) ∧
    wp (vfs_lookup (H := demo_ops) NAME_MAX_demo s None stat_path VLOOKUP_NORMAL SU_UID) False
       (lookup_post (FsInv0 := demo_inv) demo_tree s (root_refs 0) (inl (0%nat, 7 * 256 + PFN_STAT))) ∧
    wp (vfs_access (H := demo_ops) NAME_MAX_demo s None stat_path R_OK 5) False
       (λ '(s', e), e = 0 ∧ vfs_rel (H := demo_inv) demo_tree s' (root_refs 0) ∧ frame (H := demo_inv) s s' (root_refs 0)).
Proof.
  destruct (mount_root true NAME_MAX_demo no_data 0 demo_procs demo_boot [VFS_SEP] 513 0 0 (Mount None None None 0 0)) as (s & Em & Hr & Hm & Hroot); [done|exact demo_boot_rel|done|by repeat constructor|].
  assert (Hroom : fs_room (FsInv := demo_inv) (root_refs 0)) by (exists [(0%nat, 0)]; split; [unfold MAX_VNODES; simpl; lia|]; intros i; unfold root_refs, add_refs; case_decide; [subst; intros; by left|lia]).
  assert (Hb : ∀ j, root_refs 0 j < 2 ^ 31 - 1) by (intros j; unfold root_refs, add_refs; repeat case_decide; lia).
  assert (Hn : (2 ≤ NAME_MAX_demo)%nat) by (unfold NAME_MAX_demo; lia).
  exists s. split; [exact Em|].
  exact (conj (proj1 (vfs_lookup_refines (H := demo_ops) (FsInv0 := demo_inv) demo_tree NAME_MAX_demo s (root_refs 0) 0 None None stat_path VLOOKUP_NORMAL SU_UID R_OK Hn Hr Hm Hroom Hb Hroot eq_refl I))
              (proj2 (vfs_lookup_refines (H := demo_ops) (FsInv0 := demo_inv) demo_tree NAME_MAX_demo s (root_refs 0) 0 None None stat_path VLOOKUP_NORMAL 5 R_OK Hn Hr Hm Hroom Hb Hroot eq_refl I))).
Defined.
