(* ===== verification/Alloc.v ===== *)
(** * Alloc: what the rest of the kernel relies on in kmalloc and kmfree

    [AllocLaws] speaks of the set of live pointers only: an allocation gives a
    new one or halts the machine ([oom]), a live pointer can be freed.  The
    kernel heap of Kmalloc.v fulfils it for every page source. *)

From S2P Require Import Prelude Result Pages Kmalloc.

Class Allocator (A : Type) := {
  kmalloc : A → Z → res (A * Z);
  kzalloc : A → Z → res (A * Z);
  kmfree : A → Z → res A;
}.

Class AllocLaws (A : Type) `{Allocator A} := {
  alloc_inv : A → gset Z → Prop;
  oom : Prop;
  kmalloc_law a live sz : alloc_inv a live → 0 ≤ sz ≤ 2 ^ 30 →
    wp (kmalloc a sz) oom
       (λ '(a', p), 0 < p ∧ (p ∉ live) ∧ alloc_inv a' ({[p]} ∪ live));
  kzalloc_law a live sz : alloc_inv a live → 0 ≤ sz ≤ 2 ^ 30 →
    wp (kzalloc a sz) oom
       (λ '(a', p), 0 < p ∧ (p ∉ live) ∧ alloc_inv a' ({[p]} ∪ live));
  kmfree_law a live p : alloc_inv a live → p ∈ live →
    wp (kmfree a p) False (λ a', alloc_inv a' (live ∖ {[p]}));
}.

(** ** The kernel heap *)
Definition of_outcome {B C} (o : option (outcome B)) (f : B → C) : res C :=
  match o with Some (Ret b) => Val (f b) | Some Panic => Halt | None => Undef end.

Section kernel_heap.
Context {P : Type} `{PageSource P} (PAGE_ADDR_BITS : Z) `{!PageLaws P PAGE_ADDR_BITS}.
Hypothesis page_bits : 8 ≤ PAGE_ADDR_BITS ≤ 16.

#[local] Instance kernel_heap : Allocator (heap * memory * P) := {
  kmalloc := λ '(h, m, p) sz, of_outcome (Kmalloc.kmalloc PAGE_ADDR_BITS h m p sz) id;
  kzalloc := λ '(h, m, p) sz,
    of_outcome (Kmalloc.kzalloc PAGE_ADDR_BITS h m p sz) (λ '(h, m, p, a, _), (h, m, p, a));
  kmfree := λ '(h, m, p) a, of_outcome (Kmalloc.kmfree h m a) (λ '(h, m), (h, m, p));
}.

Definition pointers (al : list region) : gset Z := list_to_set ((λ r, r.1 + 8) <$> al).

Definition kernel_heap_inv (st : heap * memory * P) (live : gset Z) : Prop :=
  let '(h, m, p) := st in ∃ fl al, heap_inv PAGE_ADDR_BITS h m p fl al ∧ live = pointers al.

Definition no_pages : Prop := ∃ (p : P) n, source_alloc p n PAGE_F_SUPERVISOR = Some (p, NULL_PAGE).

Lemma head_pointer_fresh h m p fl a s al :
  heap_inv PAGE_ADDR_BITS h m p fl ((a, s) :: al) → 0 < a ∧ a + 8 ∉ pointers al.
Proof.
  intros Hinv. pose proof (hi_alloc _ _ _ _ _ _ Hinv) as Hal.
  destruct (Hal a s) as [_ (Ha & Hs & _)]; [set_solver|]. simpl in Ha, Hs. split; [lia|].
  unfold pointers. rewrite elem_of_list_to_set, list_elem_of_fmap. intros ([b t] & E & Hin).
  destruct (hi_disj _ _ _ _ _ _ Hinv) as [Hd _]. rewrite Forall_forall in Hd.
  specialize (Hd _ Hin). destruct (Hal b t) as [_ (_ & Ht & _)]; [set_solver|].
  unfold disj in Hd. simpl in *. lia.
Qed.

Lemma kernel_kmalloc_law st live sz : kernel_heap_inv st live → 0 ≤ sz ≤ 2 ^ 30 →
  wp (kmalloc st sz) no_pages
     (λ '(st', p), 0 < p ∧ (p ∉ live) ∧ kernel_heap_inv st' ({[p]} ∪ live)).
Proof.
  destruct st as [[h m] p]. intros (fl & al & Hinv & ->) Hsz. simpl.
  destruct (kmalloc_ok PAGE_ADDR_BITS page_bits h m p fl al sz Hinv Hsz)
    as [(-> & _ & Hno)|(h' & m' & p' & fl' & a & s & -> & Hinv' & _)]; simpl.
  { by eexists _, _. }
  destruct (head_pointer_fresh _ _ _ _ _ _ _ Hinv') as [Ha Hf].
  split; [lia|]. split; [done|]. by exists fl', ((a, s) :: al).
Qed.

Lemma kernel_kzalloc_law st live sz : kernel_heap_inv st live → 0 ≤ sz ≤ 2 ^ 30 →
  wp (kzalloc st sz) no_pages
     (λ '(st', p), 0 < p ∧ (p ∉ live) ∧ kernel_heap_inv st' ({[p]} ∪ live)).
Proof.
  intros Hinv Hsz. pose proof (kernel_kmalloc_law st live sz Hinv Hsz) as Hk.
  destruct st as [[h m] p]. simpl in *. unfold Kmalloc.kzalloc.
  destruct (Kmalloc.kmalloc PAGE_ADDR_BITS h m p sz) as [[[[[h' m'] p'] a]|]|]; simpl in *; [|done..].
  destruct (Z.eqb_spec a 0); simpl; [lia|done].
Qed.

Lemma kernel_kmfree_law st live a : kernel_heap_inv st live → a ∈ live →
  wp (kmfree st a) False (λ st', kernel_heap_inv st' (live ∖ {[a]})).
Proof.
  destruct st as [[h m] p]. intros (fl & al & Hinv & ->) Ha. simpl.
  unfold pointers in Ha. apply elem_of_list_to_set, list_elem_of_fmap in Ha as ([b t] & -> & Hin).
  apply list_elem_of_split in Hin as (l1 & l2 & ->).
  assert (Hperm : l1 ++ (b, t) :: l2 ≡ₚ (b, t) :: (l1 ++ l2)) by (symmetry; apply Permutation_middle).
  rewrite Hperm in Hinv. destruct (kmfree_ok PAGE_ADDR_BITS page_bits h m p fl _ b t Hinv) as (h' & m' & E & Hinv').
  simpl. rewrite E. simpl. exists (free_insert b t fl), (l1 ++ l2). split; [done|].
  destruct (head_pointer_fresh _ _ _ _ _ _ _ Hinv) as [_ Hf].
  unfold pointers in *. rewrite !fmap_app, fmap_cons in *.
  rewrite !list_to_set_app_L, list_to_set_cons in *. simpl. set_solver.
Qed.

Definition kernel_heap_laws : AllocLaws (heap * memory * P) := {|
  alloc_inv := kernel_heap_inv;
  oom := no_pages;
  kmalloc_law := kernel_kmalloc_law;
  kzalloc_law := kernel_kzalloc_law;
  kmfree_law := kernel_kmfree_law;
|}.
End kernel_heap.

(** ** The heap of the examples: 120 pages of 256 bytes *)
#[local] Instance example_source : PageSource global_pages := pages_source true 8.
#[local] Instance example_laws : PageLaws global_pages 8 := pages_laws true 8 example_bits.

Abbreviation kheap := (heap * memory * global_pages)%type.

Definition large_block : page_block := PageBlock 3 120 120 66048 16 (replicate 128 0) (replicate 128 0).

Lemma large_block_rel : block_rel true 8 large_block (replicate 120 0).
Proof.
  split; [|done]. constructor; [apply Forall_replicate; lia|done|vm_compute; lia|intros _; vm_compute; lia|done|done|].
  intros i r [-> Hi]%lookup_replicate. rewrite bit_at_zeros by (apply Forall_replicate; done).
  split; [lia|]. split; [done|]. by left.
Qed.

Lemma large_global_rel : global_rel true 8 (GlobalPages 1 [large_block]) [replicate 120 0].
Proof.
  constructor; [done|vm_compute; lia| |].
  - intros [|i] b l Hb Hl; [|done]. injection Hb as <-. injection Hl as <-.
    split; [apply large_block_rel|]. vm_compute. done.
  - intros i j b b' Hij. simpl in Hij. lia.
Qed.

Definition example_kheap : kheap := (init_kernel_heap.1, ∅, GlobalPages 1 [large_block]).
Definition example_allocator : Allocator kheap := kernel_heap 8.
Definition example_alloc_laws : @AllocLaws kheap example_allocator := kernel_heap_laws 8 example_bits.

Lemma example_kheap_inv : @alloc_inv _ _ example_alloc_laws example_kheap ∅.
Proof.
  exists [], []. split; [|done]. constructor; try done; try (intros; set_solver).
  - split; [eexists; apply large_global_rel|]. intros [|i] b Hb; [|done]. by injection Hb as <-.
  - intros x Hx. exfalso. by apply covered_nil in Hx.
Qed.
