(* ===== verification/Bufcache.v ===== *)
(** * Bufcache: the block buffer cache (src/kernel/fs/bufcache.c)

    The entries are known by their addresses; their queue nodes, their fields
    and the memory their [block] pointers refer to are kept in separate maps.
    The relation [cache_rel] connects a cache with the contents of the blocks
    as its clients see them: the contents of the device overlaid with the
    dirty buffers. *)

From S2P Require Import Prelude Queue Iovec Result Device Alloc.

Record bufcache := Bufcache {
  dev : Z;
  cache_flags : Z;
  block_size : Z;
  num_entries : Z;
  blocks : queue;
}.

(** [data] is the memory [block] points to. *)
Record buf := Buf {
  refcount : Z;
  flags : Z;
  num : Z;
  block : Z;
  data : list Z;
}.

Definition BUFCACHE_MAX : Z := 100.
Definition BC_GF_DBG_NOWRITE : Z := 4096.
Definition BF_DIRTY : Z := 1.
Definition SIZEOF_BUF : Z := 22.

Section bufcache.
Context {D A : Type} `{Allocator A} (drv_table : list (option (driver D))).

(** The cache with what it works on: its entries, the device and the heap. *)
Record cache := Cache {
  c_bc : bufcache;
  c_nodes : gmap Z queue_node;
  c_bufs : gmap Z buf;
  c_disk : D;
  c_heap : A;
}.

Definition set_queue (c : cache) (hq : gmap Z queue_node * queue) : cache :=
  let bc := c_bc c in
  Cache (Bufcache (dev bc) (cache_flags bc) (block_size bc) (num_entries bc) hq.2)
    hq.1 (c_bufs c) (c_disk c) (c_heap c).

Definition set_buf (c : cache) (b : Z) (e : buf) : cache :=
  Cache (c_bc c) (c_nodes c) (<[b := e]> (c_bufs c)) (c_disk c) (c_heap c).

Definition set_disk (c : cache) (d : D) : cache :=
  Cache (c_bc c) (c_nodes c) (c_bufs c) d (c_heap c).

Definition set_heap (c : cache) (a : A) : cache :=
  Cache (c_bc c) (c_nodes c) (c_bufs c) (c_disk c) a.

Definition init_bufcache (c : cache) (d bsize : Z) : cache :=
  Cache (Bufcache d 0 bsize 0 _queue_init) (c_nodes c) (c_bufs c) (c_disk c) (c_heap c).

Fixpoint free_entries (fuel : nat) (c : cache) (cur : Z) : res cache :=
  if cur =? NULL then Val c
  else
    match fuel with
    | O => Undef
    | S fuel =>
        next ← lift (_queue_next (c_nodes c) cur);
        e ← lift (c_bufs c !! cur);
        a ← kmfree (c_heap c) (block e);
        a ← kmfree a cur;
        let c := Cache (c_bc c) (delete cur (c_nodes c)) (delete cur (c_bufs c)) (c_disk c) a in
        free_entries fuel c next
    end.

Definition free_bufcache (c : cache) : res cache :=
  c ← free_entries (size (c_nodes c)) c (head (blocks (c_bc c)));
  Val (set_queue c (c_nodes c, _queue_init)).

(** The buffer a transfer through a single segment leaves behind. *)
Definition transferred (it : iovec_iter) : option (list Z) :=
  match it_data it with ITER_KVEC [k] => Some (Iovec.buf k) | _ => None end.

Definition _read_entry (c : cache) (b : Z) : res (cache * Z) :=
  e ← lift (c_bufs c !! b);
  let bs := block_size (c_bc c) in
  '(d, iter, size) ← dev_read drv_table (c_disk c) (dev (c_bc c)) (u32 (num e * bs))
                       (iovec_iter_init_simple_kvec (data e) bs);
  bytes ← lift (transferred iter);
  let c := set_buf (set_disk c d) b (Buf (refcount e) (flags e) (num e) (block e) bytes) in
  Val (c, if size =? bs then 0 else -1).

Definition _write_entry (c : cache) (b : Z) : res (cache * Z) :=
  e ← lift (c_bufs c !! b);
  let bs := block_size (c_bc c) in
  if Z.land (flags e) BF_DIRTY =? 0 then Val (c, 0)
  else if negb (Z.land (cache_flags (c_bc c)) BC_GF_DBG_NOWRITE =? 0) then Val (c, 0)
  else
    '(d, _, size) ← dev_write drv_table (c_disk c) (dev (c_bc c)) (u32 (num e * bs))
                      (iovec_iter_init_simple_kvec (data e) bs);
    let c := set_disk c d in
    if negb (size =? bs) then Val (c, -1)
    else
      let e := Buf (refcount e) (u16 (Z.land (flags e) (Z.lnot BF_DIRTY))) (num e) (block e) (data e) in
      Val (set_buf c b e, 1).

Fixpoint sync_entries (fuel : nat) (c : cache) (cur : Z) : res cache :=
  if cur =? NULL then Val c
  else
    match fuel with
    | O => Undef
    | S fuel =>
        '(c, _) ← _write_entry c cur;
        next ← lift (_queue_next (c_nodes c) cur);
        sync_entries fuel c next
    end.

Definition sync_bufcache (c : cache) : res cache :=
  sync_entries (size (c_nodes c)) c (head (blocks (c_bc c))).

Definition _create_entry (c : cache) : res (cache * Z) :=
  '(a, b) ← kmalloc (c_heap c) SIZEOF_BUF;
  let c := set_heap c a in
  if b =? NULL then Val (c, NULL)
  else
    let bs := block_size (c_bc c) in
    '(a, blk) ← kzalloc (c_heap c) bs;
    let c := set_heap c a in
    if blk =? NULL then Val (c, NULL)
    else
      h ← lift (_queue_node_init (<[b := mk_node NULL NULL]> (c_nodes c)) b);
      let c := set_buf c b (Buf 0 0 0 blk (replicate (Z.to_nat bs) 0)) in
      '(h, q) ← lift (_queue_insert h (blocks (c_bc c)) b);
      let c := set_queue c (h, q) in
      let bc := c_bc c in
      Val (Cache (Bufcache (dev bc) (cache_flags bc) (block_size bc) (num_entries bc + 1) (blocks bc))
             (c_nodes c) (c_bufs c) (c_disk c) (c_heap c), b).

(** [for (last = tail; last && last->refcount > 0; last = prev)] *)
Fixpoint last_unused (fuel : nat) (c : cache) (last : Z) : res Z :=
  if last =? NULL then Val NULL
  else
    match fuel with
    | O => Undef
    | S fuel =>
        e ← lift (c_bufs c !! last);
        if 0 <? refcount e then
          prev ← lift (_queue_prev (c_nodes c) last);
          last_unused fuel c prev
        else Val last
    end.

(** An entry moves to the front of the queue. *)
Definition to_front (c : cache) (b : Z) : res cache :=
  '(h, q) ← lift (_queue_remove (c_nodes c) (blocks (c_bc c)) b);
  hq ← lift (_queue_insert h q b);
  Val (set_queue c hq).

Definition _find_free_entry (c : cache) : res (cache * Z) :=
  last ← last_unused (size (c_nodes c)) c (_queue_tail (blocks (c_bc c)));
  '(c, last) ← (if num_entries (c_bc c) <? BUFCACHE_MAX then _create_entry c
                else if last =? NULL then Halt
                else Val (c, last));
  if last =? NULL then Val (c, NULL)
  else
    e ← lift (c_bufs c !! last);
    '(c, _) ← (if negb (num e =? 0) && negb (block e =? NULL) then _write_entry c last
               else Val (c, 0));
    c ← to_front c last;
    Val (c, last).

Definition _load_block (c : cache) (n : Z) : res (cache * Z) :=
  if dev (c_bc c) =? 0 then Val (c, NULL)
  else
    '(c, b) ← _find_free_entry c;
    if b =? NULL then Val (c, NULL)
    else
      e ← lift (c_bufs c !! b);
      let c := set_buf c b (Buf 1 0 n (block e) (data e)) in
      '(c, error) ← _read_entry c b;
      if error <? 0 then
        e ← lift (c_bufs c !! b);
        Val (set_buf c b (Buf 0 (flags e) (num e) (block e) (data e)), NULL)
      else Val (c, b).

(** The search loop of get_block. *)
Fixpoint find_entry (fuel : nat) (c : cache) (cur n : Z) : res Z :=
  if cur =? NULL then Val NULL
  else
    match fuel with
    | O => Undef
    | S fuel =>
        e ← lift (c_bufs c !! cur);
        if num e =? n then Val cur
        else next ← lift (_queue_next (c_nodes c) cur); find_entry fuel c next n
    end.

Definition get_block (c : cache) (n : Z) : res (cache * Z) :=
  cur ← find_entry (size (c_nodes c)) c (_queue_head (blocks (c_bc c))) n;
  if negb (cur =? NULL) then
    e ← lift (c_bufs c !! cur);
    let c := set_buf c cur (Buf (s32 (refcount e + 1)) (flags e) (num e) (block e) (data e)) in
    c ← to_front c cur;
    Val (c, cur)
  else _load_block c n.

Definition mark_block_dirty (c : cache) (b : Z) : res cache :=
  e ← lift (c_bufs c !! b);
  Val (set_buf c b (Buf (refcount e) (Z.lor (flags e) BF_DIRTY) (num e) (block e) (data e))).

Definition release_block (c : cache) (b dirty : Z) : res (cache * Z) :=
  c ← (if negb (dirty =? 0) then mark_block_dirty c b else Val c);
  e ← lift (c_bufs c !! b);
  let r := s32 (refcount e - 1) in
  let r := if r <? 0 then 0 else r in
  Val (set_buf c b (Buf r (flags e) (num e) (block e) (data e)), 0).

(** A client reads and writes the memory of a buffer it got. *)
Definition buf_data (c : cache) (b : Z) : option (list Z) := data <$> c_bufs c !! b.

Definition set_buf_data (c : cache) (b : Z) (x : list Z) : res cache :=
  e ← lift (c_bufs c !! b);
  if bool_decide (length x = length (data e))
  then Val (set_buf c b (Buf (refcount e) (flags e) (num e) (block e) x))
  else Undef.
End bufcache.
Arguments cache : clear implicits.

(** ** The blocks as the clients of the cache see them *)
Section contents.
Context (bs nb : nat).

Definition valid (n : Z) : Prop := 0 < n < Z.of_nat nb.

Definition blk (s : list Z) (n : Z) : list Z := slice s (Z.to_nat n * bs) bs.

(** How often a buffer is held. *)
Definition refs (b : Z) (held : list (Z * Z)) : Z :=
  Z.of_nat (length (filter (λ p, p.1 = b) held)).

Record entry_ok (s : list Z) (d : gmap Z (list Z)) (held : list (Z * Z)) (W : gset Z)
    (b : Z) (e : buf) : Prop := {
  eo_num : valid (num e);
  eo_data : d !! num e = Some (data e);
  eo_len : length (data e) = bs;
  eo_refs : refcount e = refs b held;
  eo_flags : flags e = 0 ∨ flags e = BF_DIRTY;
  eo_clean : flags e = 0 → num e ∉ W → blk s (num e) = data e;
}.

(** [s] are the bytes of the device, [d] the blocks, [held] the references
    clients hold (buffer and block number), [W] the blocks written to whose
    buffer is not marked dirty yet, [L] the entries in use. *)
Record contents (bufs : gmap Z buf) (s : list Z) (d : gmap Z (list Z)) (held : list (Z * Z))
    (W : gset Z) (L : gset Z) : Prop := {
  ct_size : length s = (nb * bs)%nat;
  ct_entry : ∀ b, b ∈ L → ∃ e, bufs !! b = Some e ∧ entry_ok s d held W b e;
  ct_nums : ∀ b1 b2 e1 e2, b1 ∈ L → b2 ∈ L → bufs !! b1 = Some e1 → bufs !! b2 = Some e2 →
    num e1 = num e2 → b1 = b2;
  ct_rest : ∀ n, valid n → (∀ b e, b ∈ L → bufs !! b = Some e → num e ≠ n) →
    d !! n = Some (blk s n);
  ct_held : ∀ b n, (b, n) ∈ held → b ∈ L ∧ ∃ e, bufs !! b = Some e ∧ num e = n;
  ct_W : ∀ n, n ∈ W → n ∈ held.*2;
}.

Lemma refs_cons b p held : refs b (p :: held) = (if bool_decide (p.1 = b) then 1 else 0) + refs b held.
Proof.
  unfold refs. case_bool_decide.
  - rewrite filter_cons_True by done. simpl. lia.
  - by rewrite filter_cons_False by done.
Qed.

#[export] Instance refs_perm b : Proper ((≡ₚ) ==> eq) (refs b).
Proof. intros h h' Hp. unfold refs. by rewrite Hp. Qed.

Lemma refs_zero b held : refs b held = 0 ↔ ∀ n, (b, n) ∉ held.
Proof.
  unfold refs. split.
  - intros Hl n Hin. assert (filter (λ p : Z * Z, p.1 = b) held = []) as Hnil
      by (apply nil_length_inv; lia).
    assert ((b, n) ∈ filter (λ p : Z * Z, p.1 = b) held) as Hf by (by apply list_elem_of_filter).
    rewrite Hnil in Hf. by apply elem_of_nil in Hf.
  - intros Hno. enough (filter (λ p : Z * Z, p.1 = b) held = []) as -> by done.
    destruct (filter _ held) as [|[b' n] f] eqn:E; [done|].
    assert ((b', n) ∈ filter (λ p : Z * Z, p.1 = b) held) as Hf by (rewrite E; set_solver).
    apply list_elem_of_filter in Hf as [Hb Hin]. simpl in Hb. subst. by destruct (Hno n).
Qed.

Lemma refs_bound b held : 0 ≤ refs b held ≤ zlen held.
Proof. unfold refs. pose proof (length_filter (λ p : Z * Z, p.1 = b) held). lia. Qed.

Lemma valid_fits n : valid n → (Z.to_nat n * bs + bs ≤ nb * bs)%nat.
Proof. intros [H0 Hn]. assert (S (Z.to_nat n) ≤ nb)%nat by lia. nia. Qed.

Lemma blk_length s n : length s = (nb * bs)%nat → valid n → length (blk s n) = bs.
Proof. intros Hs Hn%valid_fits. unfold blk. rewrite length_slice. lia. Qed.

Lemma blk_splice s n n' x : length s = (nb * bs)%nat → valid n → valid n' → length x = bs →
  blk (splice s (Z.to_nat n * bs) x) n' = if bool_decide (n' = n) then x else blk s n'.
Proof.
  intros Hs Hn Hn' Hx. pose proof (valid_fits n Hn). pose proof (valid_fits n' Hn').
  unfold blk. case_bool_decide as E.
  - subst n'. rewrite <- Hx at 3. apply slice_splice. lia.
  - apply slice_splice_disjoint; [lia|]. rewrite Hx. unfold valid in *.
    destruct (decide (n' < n)); [left|right]; nia.
Qed.

(** One entry changes, the others keep their meaning. *)
Lemma contents_upd bufs s d held W L s' d' held' W' b e e' :
  contents bufs s d held W L → b ∈ L → bufs !! b = Some e → num e' = num e →
  entry_ok s' d' held' W' b e' → length s' = length s →
  (∀ n, valid n → n ≠ num e → d' !! n = d !! n ∧ blk s' n = blk s n ∧ (n ∉ W' → n ∉ W)) →
  (∀ b', b' ≠ b → refs b' held' = refs b' held) →
  (∀ b' n, (b', n) ∈ held' → (b', n) ∈ held ∨ b' = b ∧ n = num e) →
  (∀ n, n ∈ W' → n ∈ held'.*2) →
  contents (<[b := e']> bufs) s' d' held' W' L.
Proof.
  intros [Hs He Hu Hr Hh HW] Hb Hbe Hnum Hok Hlen Hother Hrefs Hheld HW'.
  assert (Hlk : ∀ b' x, b' ∈ L → (<[b := e']> bufs) !! b' = Some x →
    ∃ y, bufs !! b' = Some y ∧ num x = num y).
  { intros b' x Hb'. destruct (decide (b' = b)) as [->|]; [|rewrite lookup_insert_ne by done; eauto].
    rewrite lookup_insert_eq. intros [= <-]. eauto. }
  split.
  - lia.
  - intros b' Hb'. destruct (decide (b' = b)) as [->|Hne].
    { rewrite lookup_insert_eq. eauto. }
    destruct (He b' Hb') as (x & Hx & Hxok). exists x. rewrite lookup_insert_ne by done.
    split; [done|]. destruct Hxok as [H1 H2 H3 H4 H5 H6].
    assert (num x ≠ num e) as Hn by (intros E; apply Hne; eapply Hu; eauto).
    destruct (Hother _ H1 Hn) as (Ed & Es & EW).
    split; try done; [by rewrite Ed|rewrite Hrefs; done|]. intros Hf Hn'. rewrite Es. auto.
  - intros b1 b2 e1 e2 H1 H2 L1 L2 E.
    destruct (Hlk _ _ H1 L1) as (y1 & ? & ?), (Hlk _ _ H2 L2) as (y2 & ? & ?).
    eapply Hu; eauto. congruence.
  - intros n Hn Hno. assert (n ≠ num e) as Hne.
    { intros ->. apply (Hno b e' Hb); [apply lookup_insert_eq|done]. }
    destruct (Hother n Hn Hne) as (-> & -> & _). apply Hr; [done|]. intros b' x Hb' Hx E.
    destruct (decide (b' = b)) as [->|Hnb]; [congruence|].
    apply (Hno b' x Hb'); [by rewrite lookup_insert_ne|done].
  - intros b' n Hin. destruct (Hheld b' n Hin) as [Hold|[-> ->]].
    + destruct (Hh b' n Hold) as (Hb' & x & Hx & E). split; [done|].
      destruct (decide (b' = b)) as [->|]; [|rewrite lookup_insert_ne by done; eauto].
      rewrite lookup_insert_eq. exists e'. split; [done|]. congruence.
    + split; [done|]. rewrite lookup_insert_eq. eauto.
  - done.
Qed.

Section steps.
Context (bufs : gmap Z buf) (s : list Z) (d : gmap Z (list Z)) (held : list (Z * Z)) (W L : gset Z).
Context (Hct : contents bufs s d held W L) (b : Z) (e : buf) (Hb : b ∈ L) (He : bufs !! b = Some e).

Lemma entry_here : entry_ok s d held W b e.
Proof. destruct (ct_entry _ _ _ _ _ _ Hct b Hb) as (e' & E & Hok). congruence. Qed.

Lemma contents_hit :
  contents (<[b := Buf (refcount e + 1) (flags e) (num e) (block e) (data e)]> bufs)
    s d ((b, num e) :: held) W L.
Proof.
  destruct entry_here as [H1 H2 H3 H4 H5 H6]. eapply contents_upd; eauto.
  - split; simpl; try done. rewrite refs_cons. simpl. rewrite bool_decide_true by done. lia.
  - intros b' Hne. rewrite refs_cons. simpl. rewrite bool_decide_false by done. lia.
  - set_solver.
  - intros n Hn. apply (ct_W _ _ _ _ _ _ Hct) in Hn. set_solver.
Qed.

Lemma contents_dirty :
  contents (<[b := Buf (refcount e) (Z.lor (flags e) BF_DIRTY) (num e) (block e) (data e)]> bufs)
    s d held (W ∖ {[num e]}) L.
Proof.
  destruct entry_here as [H1 H2 H3 H4 H5 H6].
  assert (Z.lor (flags e) BF_DIRTY = BF_DIRTY) as -> by (destruct H5 as [-> | ->]; done).
  eapply contents_upd; eauto.
  - split; simpl; try done. by right.
  - intros n _ Hne. split; [done|]. set_solver.
  - intros n Hn. apply (ct_W _ _ _ _ _ _ Hct). set_solver.
Qed.

Lemma contents_data x : length x = bs → num e ∈ held.*2 →
  contents (<[b := Buf (refcount e) (flags e) (num e) (block e) x]> bufs)
    s (<[num e := x]> d) held ({[num e]} ∪ W) L.
Proof.
  intros Hx Hin. destruct entry_here as [H1 H2 H3 H4 H5 H6]. eapply contents_upd; eauto.
  - split; simpl; try done; [by rewrite lookup_insert_eq|set_solver].
  - intros n _ Hne. rewrite lookup_insert_ne by done. set_solver.
  - intros n [->%elem_of_singleton|Hn]%elem_of_union; [done|]. by apply (ct_W _ _ _ _ _ _ Hct).
Qed.

Lemma contents_clean :
  contents (<[b := Buf (refcount e) 0 (num e) (block e) (data e)]> bufs)
    (splice s (Z.to_nat (num e) * bs) (data e)) d held W L.
Proof.
  destruct entry_here as [H1 H2 H3 H4 H5 H6]. pose proof (ct_size _ _ _ _ _ _ Hct) as Hs.
  pose proof (valid_fits _ H1). eapply contents_upd; eauto.
  - split; simpl; try done; [by left|]. intros _ _. rewrite blk_splice by done.
    by rewrite bool_decide_true.
  - apply length_splice. lia.
  - intros n Hn Hne. rewrite blk_splice by done. by rewrite bool_decide_false.
  - apply (ct_W _ _ _ _ _ _ Hct).
Qed.

(** An entry nobody holds and whose contents are on the device is forgotten. *)
Lemma contents_evict : refs b held = 0 → flags e = 0 → contents bufs s d held W (L ∖ {[b]}).
Proof.
  intros Hz Hf. destruct entry_here as [H1 H2 H3 H4 H5 H6]. destruct Hct as [Hs HE Hu Hr Hh HW].
  assert (HnW : num e ∉ W).
  { intros ([b' n] & E & Hin)%HW%list_elem_of_fmap. simpl in E. subst n.
    destruct (Hh _ _ Hin) as (Hb' & e' & He' & En).
    assert (b' = b) as -> by (eapply Hu; eauto). by destruct (proj1 (refs_zero b held) Hz _ Hin). }
  split; [done|set_solver|set_solver| | |done].
  - intros n Hn Hno. destruct (decide (n = num e)) as [->|Hne].
    { rewrite H6 by done. done. }
    apply Hr; [done|]. intros b' x Hb' Hx. destruct (decide (b' = b)) as [->|]; [congruence|].
    apply (Hno b'); [set_solver|done].
  - intros b' n Hin. destruct (Hh b' n Hin) as [Hb' Hex]. split; [|done].
    enough (b' ≠ b) by set_solver. intros ->. by destruct (proj1 (refs_zero b held) Hz _ Hin).
Qed.
End steps.

Lemma contents_release bufs s d held W L b n e :
  contents bufs s d ((b, n) :: held) W L → bufs !! b = Some e → (n ∉ W ∨ n ∈ held.*2) →
  contents (<[b := Buf (refcount e - 1) (flags e) (num e) (block e) (data e)]> bufs) s d held W L.
Proof.
  intros Hct He HW. destruct (ct_held _ _ _ _ _ _ Hct b n) as (Hb & e' & E & <-); [set_solver|].
  assert (e' = e) as -> by congruence.
  destruct (entry_here _ _ _ _ _ _ Hct b e Hb He) as [H1 H2 H3 H4 H5 H6].
  eapply contents_upd; eauto.
  - split; simpl; try done. rewrite H4, refs_cons. simpl. rewrite bool_decide_true by done. lia.
  - intros b' Hne. rewrite refs_cons. simpl. rewrite bool_decide_false by done. lia.
  - set_solver.
  - intros n Hn. pose proof (ct_W _ _ _ _ _ _ Hct n Hn) as Hin. simpl in Hin. set_solver.
Qed.

Lemma contents_frame bufs s d held W L b e :
  contents bufs s d held W L → b ∉ L → contents (<[b := e]> bufs) s d held W L.
Proof.
  intros [Hs HE Hu Hr Hh HW] Hb.
  assert (Hlk : ∀ b', b' ∈ L → (<[b := e]> bufs) !! b' = bufs !! b')
    by (intros b' Hb'; apply lookup_insert_ne; set_solver).
  split; [done| | | | |done].
  - intros b' Hb'. rewrite Hlk by done. auto.
  - intros b1 b2 e1 e2 H1 H2. rewrite !Hlk by done. eauto.
  - intros n Hn Hno. apply Hr; [done|]. intros b' e' Hb' He'. apply (Hno b'); [done|].
    by rewrite Hlk.
  - intros b' n Hin. destruct (Hh b' n Hin) as [Hb' Hex]. rewrite Hlk by done. eauto.
Qed.

(** A block that is not cached is read into an entry that is not in use. *)
Lemma contents_install bufs s d held W L b n blkp :
  contents bufs s d held W L → b ∉ L → valid n →
  (∀ b' e', b' ∈ L → bufs !! b' = Some e' → num e' ≠ n) →
  contents (<[b := Buf 1 0 n blkp (blk s n)]> bufs) s d ((b, n) :: held) W ({[b]} ∪ L).
Proof.
  intros [Hs HE Hu Hr Hh HW] Hb Hn Hno.
  assert (Hz : refs b held = 0) by (apply refs_zero; intros n' Hin; apply Hh in Hin as [? _]; done).
  assert (Hlk : ∀ b' x, b' ∈ L → (<[b := Buf 1 0 n blkp (blk s n)]> bufs) !! b' = Some x →
    bufs !! b' = Some x) by (intros b' x ?; rewrite lookup_insert_ne by set_solver; done).
  split; [done| | | | |].
  - intros b' [->%elem_of_singleton|Hb']%elem_of_union.
    + rewrite lookup_insert_eq. eexists. split; [done|]. split; simpl; auto using blk_length.
      rewrite refs_cons, Hz. simpl. by rewrite bool_decide_true.
    + destruct (HE b' Hb') as (x & Hx & [H1 H2 H3 H4 H5 H6]). exists x.
      rewrite lookup_insert_ne by set_solver. split; [done|]. split; try done.
      rewrite refs_cons. simpl. rewrite bool_decide_false by set_solver. lia.
  - intros b1 b2 e1 e2 [->%elem_of_singleton|H1]%elem_of_union
      [->%elem_of_singleton|H2]%elem_of_union L1 L2 E; try done.
    + rewrite lookup_insert_eq in L1. injection L1 as <-. by destruct (Hno b2 e2 H2 (Hlk _ _ H2 L2)).
    + rewrite lookup_insert_eq in L2. injection L2 as <-. by destruct (Hno b1 e1 H1 (Hlk _ _ H1 L1)).
    + eapply Hu; eauto.
  - intros n' Hn' Hno'. apply Hr; [done|]. intros b' x Hb' Hx. apply (Hno' b'); [set_solver|].
    rewrite lookup_insert_ne by set_solver. done.
  - intros b' n' [[= -> ->]|Hin]%elem_of_cons.
    + rewrite lookup_insert_eq. split; [set_solver|]. eauto.
    + destruct (Hh b' n' Hin) as (Hb' & x & Hx & E). split; [set_solver|].
      rewrite lookup_insert_ne by set_solver. eauto.
  - intros n' Hn'. apply HW in Hn'. set_solver.
Qed.
End contents.

(** ** The operations *)
Section operations.
Context {D A : Type} `{Allocator A} `{!AllocLaws A}.
Context (t : list (option (driver D))) (dv : Z) `{!DiskLaws t dv} (bs nb : nat).
Hypothesis dev_set : dv ≠ 0.
Hypothesis sizes : 0 < Z.of_nat bs ≤ 2 ^ 30 ∧ Z.of_nat (nb * bs) < 2 ^ 31.

Definition block_at (c : cache D A) (b : Z) : Z := default 0 (block <$> c_bufs c !! b).

(** The memory the cache owns: its entries and their blocks. *)
Definition owned (c : cache D A) (q : list Z) : list Z := q ++ (block_at c <$> q).

(** [q] is the queue of the entries, [own] memory of somebody else. *)
Record shape (c : cache D A) (q : list Z) (own : gset Z) : Prop := {
  sh_queue : is_queue (c_nodes c) (blocks (c_bc c)) q;
  sh_count : num_entries (c_bc c) = zlen q;
  sh_max : zlen q ≤ BUFCACHE_MAX;
  sh_bs : block_size (c_bc c) = Z.of_nat bs;
  sh_dev : dev (c_bc c) = dv;
  sh_write : Z.land (cache_flags (c_bc c)) BC_GF_DBG_NOWRITE = 0;
  sh_bufs : ∀ b, b ∈ q → ∃ e, c_bufs c !! b = Some e ∧ length (data e) = bs;
  sh_mem : NoDup (owned c q) ∧ ∃ live, alloc_inv (c_heap c) live ∧ own ⊆ live ∧
    ∀ p, p ∈ owned c q → 0 < p ∧ p ∈ live ∧ (p ∉ own);
}.

Definition cache_rel (c : cache D A) (d : gmap Z (list Z)) (held : list (Z * Z)) (W own : gset Z) : Prop :=
  ∃ q s, shape c q own ∧ disk_is (c_disk c) s ∧
    contents bs nb (c_bufs c) s d held W (list_to_set q).

Lemma owned_ext c c' q : (∀ b, b ∈ q → block_at c' b = block_at c b) → owned c' q = owned c q.
Proof.
  intros Hb. unfold owned. f_equal. induction q as [|x q IH]; [done|]. rewrite !fmap_cons.
  rewrite Hb, IH by set_solver. done.
Qed.

Lemma shape_set_buf c q own b e e' :
  shape c q own → b ∈ q → c_bufs c !! b = Some e → block e' = block e → length (data e') = bs →
  shape (set_buf c b e') q own.
Proof.
  intros [H1 H2 H3 H4 H5 H6 H7 H8] Hb He Hbl Hl.
  assert (owned (set_buf c b e') q = owned c q) as Hown.
  { apply owned_ext. intros b' _. unfold block_at. simpl.
    destruct (decide (b' = b)) as [->|]; [|by rewrite lookup_insert_ne].
    by rewrite lookup_insert_eq, He; simpl; rewrite Hbl. }
  split; try done; [|by rewrite Hown]. intros b' Hb'. simpl.
  destruct (decide (b' = b)) as [->|]; [rewrite lookup_insert_eq; eauto|].
  rewrite lookup_insert_ne by done. auto.
Qed.

Lemma shape_set_disk c q own d : shape c q own → shape (set_disk c d) q own.
Proof. by intros []. Qed.

Lemma to_front_ok c l1 b l2 own :
  shape c (l1 ++ b :: l2) own →
  ∃ hq, to_front c b = Val (set_queue c hq) ∧ shape (set_queue c hq) (b :: l1 ++ l2) own.
Proof.
  intros [H1 H2 H3 H4 H5 H6 H7 H8]. unfold to_front.
  destruct (queue_remove_split _ _ _ _ _ H1) as (h & q & -> & Hq & Hb & _). simpl.
  assert (Hp : b :: l1 ++ l2 ≡ₚ l1 ++ b :: l2) by apply Permutation_middle.
  pose proof H1 as [Hnd _]. rewrite <- Hp in Hnd. apply NoDup_cons in Hnd as [Hnb _].
  destruct (is_queue_elem _ _ _ b H1) as [Hb0 _]; [set_solver|].
  rewrite queue_insert_as_insert_after.
  destruct (queue_insert_after_split h q [] (l1 ++ l2) b) as (h' & q' & E & Hq' & _); try done.
  unfold last_of in E. simpl in E. rewrite E. simpl.
  exists (h', q'). split; [done|]. split; simpl; try done.
  - apply Permutation_length in Hp. simpl in Hp. lia.
  - apply Permutation_length in Hp. simpl in Hp. lia.
  - intros b' Hb'. apply H7. by rewrite <- Hp.
  - unfold owned, block_at in *. simpl in *. change (b :: l1 ++ l2) with ([b] ++ (l1 ++ l2)) in Hp |- *.
    assert (Hown : ([b] ++ l1 ++ l2) ++ ((λ b, default 0 (block <$> c_bufs c !! b)) <$> [b] ++ l1 ++ l2) ≡ₚ
      (l1 ++ b :: l2) ++ ((λ b, default 0 (block <$> c_bufs c !! b)) <$> l1 ++ b :: l2))
      by (by rewrite Hp).
    destruct H8 as [Hn (live & Hl & Ho & Hm)]. split; [by rewrite Hown|].
    exists live. split_and!; try done. intros p. rewrite Hown. apply Hm.
Qed.

(** Searching from the front. *)
Lemma find_entry_ok (c : cache D A) n l p fuel :
  dlseg (c_nodes c) p l NULL → (∀ b, b ∈ l → is_Some (c_bufs c !! b)) → (length l ≤ fuel)%nat →
  ∃ b, find_entry fuel c (first_of NULL l) n = Val b ∧
    ((b = NULL ∧ ∀ b' e, b' ∈ l → c_bufs c !! b' = Some e → num e ≠ n) ∨
     (b ∈ l ∧ b ≠ NULL ∧ ∃ e, c_bufs c !! b = Some e ∧ num e = n)).
Proof.
  revert p fuel. induction l as [|x l IH]; intros p fuel Hs Hb Hf.
  { exists NULL. split; [by destruct fuel|]. left. set_solver. }
  destruct fuel as [|fuel]; [simpl in Hf; lia|]. destruct Hs as (Hx & Hnode & Hs). simpl.
  destruct (Z.eqb_spec x NULL); [done|]. destruct (Hb x) as [e He]; [set_solver|].
  rewrite He. simpl. destruct (Z.eqb_spec (num e) n) as [En|En].
  { exists x. split; [done|]. right. split; [set_solver|]. eauto. }
  unfold _queue_next. rewrite Hnode. simpl.
  destruct (IH x fuel Hs) as (b & -> & Hres); [set_solver|simpl in Hf; lia|].
  exists b. split; [done|]. destruct Hres as [[-> Hno]|(Hin & Hrest)].
  - left. split; [done|]. intros b' e' [->|Hb']%elem_of_cons He'; [congruence|eauto].
  - right. split; [set_solver|done].
Qed.

(** Searching from the back for an entry without references. *)
Lemma last_unused_ok (c : cache D A) l n fuel :
  dlseg (c_nodes c) NULL l n → (∀ b, b ∈ l → is_Some (c_bufs c !! b)) → (length l ≤ fuel)%nat →
  ∃ b, last_unused fuel c (last_of NULL l) = Val b ∧
    ((b = NULL ∧ ∀ b' e, b' ∈ l → c_bufs c !! b' = Some e → 0 < refcount e) ∨
     (b ∈ l ∧ b ≠ NULL ∧ ∃ e, c_bufs c !! b = Some e ∧ refcount e ≤ 0)).
Proof.
  revert n fuel. induction l as [|x l IH] using rev_ind; intros n fuel Hs Hb Hf.
  { exists NULL. split; [by destruct fuel|]. left. set_solver. }
  rewrite length_app in Hf. simpl in Hf. destruct fuel as [|fuel]; [lia|].
  apply dlseg_app in Hs as [Hs (Hx & Hnode & _)]. rewrite last_of_app. simpl.
  destruct (Z.eqb_spec x NULL); [done|]. destruct (Hb x) as [e He]; [set_solver|].
  rewrite He. simpl. destruct (Z.ltb_spec 0 (refcount e)) as [Hr|Hr].
  - unfold _queue_prev. rewrite Hnode. simpl.
    destruct (IH _ fuel Hs) as (b & -> & Hres); [set_solver|lia|].
    exists b. split; [done|]. destruct Hres as [[-> Hno]|(Hin & Hrest)].
    + left. split; [done|]. intros b' e' [Hb'| ->%list_elem_of_singleton]%elem_of_app He'; [eauto|congruence].
    + right. split; [set_solver|done].
  - exists x. split; [done|]. right. split; [set_solver|]. eauto.
Qed.

Lemma transferred_ok it y m x n :
  iter_rel it x n → same_layout (it_data (iovec_iter_init_simple_kvec y m)) (it_data it) →
  transferred it = Some x.
Proof.
  unfold transferred. intros (_ & _ & _ & Hd) Hl. simpl in Hl.
  destruct (it_data it) as [|segs|]; [done| |done]. destruct Hl as [Hlen _].
  destruct segs as [|k [|]]; [done| |done]. destruct Hd as (_ & <- & _).
  unfold flat. simpl. by rewrite app_nil_r.
Qed.

Lemma offset_ok n : valid nb n →
  u32 (n * Z.of_nat bs) = Z.of_nat (Z.to_nat n * bs) ∧ Z.to_nat (n * Z.of_nat bs) = (Z.to_nat n * bs)%nat ∧
  Z.of_nat (Z.to_nat n * bs) + Z.of_nat bs ≤ Z.of_nat (nb * bs).
Proof.
  intros Hn. pose proof (valid_fits bs nb n Hn). destruct Hn, sizes as [_ Hs].
  assert (n * Z.of_nat bs = Z.of_nat (Z.to_nat n * bs)) as E by lia.
  rewrite E, u32_small by lia. lia.
Qed.

(** Reading a block into the memory of an entry. *)
Lemma read_entry_ok c q own s b e :
  shape c q own → disk_is (c_disk c) s → length s = (nb * bs)%nat →
  b ∈ q → c_bufs c !! b = Some e → valid nb (num e) → length (data e) = bs →
  ∃ c', _read_entry t c b = Val (c', 0) ∧ shape c' q own ∧ disk_is (c_disk c') s ∧
    c_bufs c' = <[b := Buf (refcount e) (flags e) (num e) (block e) (blk bs s (num e))]> (c_bufs c).
Proof.
  intros Hsh Hd Hs Hb He Hn Hl. unfold _read_entry. rewrite He. simpl.
  rewrite (sh_bs _ _ _ Hsh), (sh_dev _ _ _ Hsh).
  destruct (offset_ok _ Hn) as (Eo & Eo' & Hfit). rewrite Eo.
  pose proof (simple_kvec_rel (data e)) as Hit. rewrite Hl in Hit.
  destruct (disk_read_law (c_disk c) s (Z.of_nat (Z.to_nat (num e) * bs))
    (iovec_iter_init_simple_kvec (data e) (Z.of_nat bs)) (data e) Hd) as (d' & it' & E & Hd' & Hit' & Hlay);
    [apply Hit; lia|lia|rewrite Hl; lia|].
  rewrite E. simpl. rewrite (transferred_ok _ _ _ _ _ Hit' Hlay). simpl.
  rewrite Hl, Z.eqb_refl, Nat2Z.id. eexists. split; [done|].
  split; [|done].
  eapply shape_set_buf; [by apply shape_set_disk|done|done|done|]. simpl.
  by apply (blk_length bs nb).
Qed.

Lemma write_entry_ok c q own s d held W L b e :
  shape c q own → disk_is (c_disk c) s → contents bs nb (c_bufs c) s d held W L →
  b ∈ q → b ∈ L → c_bufs c !! b = Some e →
  ∃ c' r s', _write_entry t c b = Val (c', r) ∧ shape c' q own ∧ disk_is (c_disk c') s' ∧
    c_bufs c' = <[b := Buf (refcount e) 0 (num e) (block e) (data e)]> (c_bufs c) ∧
    c_nodes c' = c_nodes c ∧ contents bs nb (c_bufs c') s' d held W L.
Proof.
  intros Hsh Hd Hct Hb HbL He. unfold _write_entry. rewrite He. simpl.
  pose proof (entry_here _ _ _ _ _ _ _ _ Hct b e HbL He) as [H1 H2 H3 H4 H5 H6].
  rewrite (sh_bs _ _ _ Hsh), (sh_dev _ _ _ Hsh), (sh_write _ _ _ Hsh).
  destruct H5 as [Ef|Ef]; rewrite Ef; simpl.
  { exists c, 0, s. assert (<[b := Buf (refcount e) 0 (num e) (block e) (data e)]> (c_bufs c) = c_bufs c)
      as -> by (apply insert_id; rewrite He, <- Ef; by destruct e). done. }
  destruct (offset_ok _ H1) as (Eo & Eo' & Hfit). rewrite Eo.
  pose proof (simple_kvec_rel (data e)) as Hit. rewrite H3 in Hit.
  pose proof (ct_size _ _ _ _ _ _ _ _ Hct) as Hs.
  destruct (disk_write_law (c_disk c) s (Z.of_nat (Z.to_nat (num e) * bs))
    (iovec_iter_init_simple_kvec (data e) (Z.of_nat bs)) (data e) Hd) as (d' & it' & E & Hd');
    [apply Hit; lia|lia|rewrite H3; lia|].
  rewrite E. simpl. rewrite H3, Z.eqb_refl. simpl. rewrite Nat2Z.id in Hd'.
  eexists _, _, _. split; [done|]. split; [|split; [done|split; [done|split; [done|]]]].
  - eapply shape_set_buf; [by apply shape_set_disk|done..].
  - by apply contents_clean.
Qed.

Lemma node_init_fresh h b n :
  _queue_node_init (<[b := n]> h) b = Some (<[b := mk_node NULL NULL]> h).
Proof.
  unfold _queue_node_init, set_next, set_prev. rewrite lookup_insert_eq. simpl.
  rewrite insert_insert_eq, lookup_insert_eq. simpl. by rewrite insert_insert_eq.
Qed.

(** Creating an entry. *)
Lemma create_entry_ok c q own :
  shape c q own → zlen q < BUFCACHE_MAX →
  wp (_create_entry c) oom (λ '(c', b), b ≠ NULL ∧ (b ∉ q) ∧ shape c' (b :: q) own ∧
    c_disk c' = c_disk c ∧ ∃ p, c_bufs c' = <[b := Buf 0 0 0 p (replicate bs 0)]> (c_bufs c)).
Proof.
  intros [H1 H2 H3 H4 H5 H6 H7 [Hnd (live & Hlive & Hown & Hmem)]] Hq. unfold _create_entry.
  wp_step kmalloc_law; [done|unfold SIZEOF_BUF; lia|]. intros [a b] (Hb0 & Hb & Ha). simpl.
  destruct (Z.eqb_spec b NULL); [unfold NULL in *; lia|]. rewrite H4.
  wp_step kzalloc_law; [exact Ha|lia|]. intros [a' p] (Hp0 & Hp & Ha'). simpl.
  destruct (Z.eqb_spec p NULL); [unfold NULL in *; lia|].
  assert (Hbq : b ∉ q) by (intros Hin; apply Hb, Hmem; unfold owned; set_solver).
  rewrite node_init_fresh. simpl. rewrite Nat2Z.id.
  assert (Hq1 : is_queue (<[b := mk_node NULL NULL]> (c_nodes c)) (blocks (c_bc c)) ([] ++ q)).
  { destruct H1 as (Hn & Hs & Hrest). split; [done|]. split; [|done]. revert Hs. apply dlseg_ext.
    intros x Hx. rewrite lookup_insert_ne by set_solver. done. }
  rewrite queue_insert_as_insert_after.
  destruct (queue_insert_after_split _ _ [] q b Hq1) as (h' & q' & E & Hq' & _); [done|done| |].
  { rewrite lookup_insert_eq. eauto. }
  change (last_of NULL []) with NULL in E. rewrite E. simpl.
  split; [done|]. split; [done|]. split; [|split; [done|by exists p]].
  assert (Hblk : owned (Cache (c_bc c) (c_nodes c) (<[b := Buf 0 0 0 p (replicate bs 0)]> (c_bufs c))
    (c_disk c) a') (b :: q) ≡ₚ b :: p :: owned c q).
  { unfold owned. rewrite fmap_cons. unfold block_at at 1. simpl. rewrite lookup_insert_eq. simpl.
    rewrite <- Permutation_middle. do 3 f_equiv.
    assert (∀ b', b' ∈ q → b' ≠ b) as Hne by set_solver. clear -Hne. induction q as [|x q IH]; [done|].
    rewrite !fmap_cons. f_equiv; [|apply IH; set_solver]. unfold block_at. simpl.
    rewrite lookup_insert_ne; [done|]. intros ->. apply (Hne x); set_solver. }
  unfold owned, block_at in Hblk. simpl in Hblk.
  split; simpl; try done.
  - lia.
  - unfold BUFCACHE_MAX in *. lia.
  - intros b' [->|Hb']%elem_of_cons.
    + rewrite lookup_insert_eq. eexists. split; [done|]. simpl. apply length_replicate.
    + rewrite lookup_insert_ne by set_solver. auto.
  - unfold owned, block_at. simpl. rewrite Hblk. split.
    + apply NoDup_cons. split; [|apply NoDup_cons; split; [|done]].
      * intros [->|Hin]%elem_of_cons; [set_solver|]. apply Hb, Hmem, Hin.
      * intros Hin. apply Hp. apply Hmem in Hin. set_solver.
    + exists ({[p]} ∪ ({[b]} ∪ live)). split; [done|]. split; [set_solver|].
      intros p'. rewrite Hblk. intros [->|[->|Hin]%elem_of_cons]%elem_of_cons.
      * set_solver.
      * set_solver.
      * apply Hmem in Hin. set_solver.
Qed.

Lemma held_covers q held : NoDup q → (∀ b, b ∈ q → 0 < refs b held) → zlen q ≤ zlen held.
Proof.
  intros Hnd Hr. enough (length q ≤ length held.*1)%nat by (rewrite length_fmap in *; lia).
  apply submseteq_length, NoDup_submseteq; [done|]. intros b Hb. apply Hr in Hb.
  destruct (decide (b ∈ held.*1)) as [|Hno]; [done|].
  assert (refs b held = 0); [|lia]. apply refs_zero. intros n Hin. apply Hno.
  apply list_elem_of_fmap. by exists (b, n).
Qed.

Lemma shape_block c q own b e : shape c q own → b ∈ q → c_bufs c !! b = Some e → 0 < block e.
Proof.
  intros Hsh Hb He. destruct (sh_mem _ _ _ Hsh) as [_ (live & _ & _ & Hm)].
  apply (Hm (block e)). unfold owned. apply elem_of_app. right.
  apply list_elem_of_fmap. exists b. unfold block_at. by rewrite He.
Qed.

(** The entry a miss will use: at the front of the queue, not in use. *)
Definition free_entry (c : cache D A) (q : list Z) (d : gmap Z (list Z)) (held : list (Z * Z))
    (W own : gset Z) (c' : cache D A) (b : Z) : Prop :=
  b ≠ NULL ∧ ∃ q' s' e, shape c' (b :: q') own ∧ disk_is (c_disk c') s' ∧
    contents bs nb (c_bufs c') s' d held W (list_to_set q') ∧
    c_bufs c' !! b = Some e ∧ length (data e) = bs ∧
    (∀ b' e', b' ∈ q' → c_bufs c' !! b' = Some e' → b' ∈ q ∧ c_bufs c !! b' = Some e').

Lemma find_free_entry_ok c q own s d held W :
  shape c q own → disk_is (c_disk c) s → contents bs nb (c_bufs c) s d held W (list_to_set q) →
  zlen held < BUFCACHE_MAX →
  wp (_find_free_entry t c) oom (λ '(c', b), free_entry c q d held W own c' b).
Proof.
  intros Hsh Hd Hct Hheld. pose proof (sh_queue _ _ _ Hsh) as Hq. pose proof Hq as (Hnd & Hs & _ & Ht).
  unfold _find_free_entry, _queue_tail. rewrite Ht.
  assert (Hbufs : ∀ b, b ∈ q → is_Some (c_bufs c !! b))
    by (intros b Hb; destruct (sh_bufs _ _ _ Hsh b Hb) as (e & -> & _); eauto).
  destruct (last_unused_ok c q NULL (size (c_nodes c)) Hs Hbufs (queue_fuel _ _ _ Hq)) as (b & -> & Hlast).
  simpl. rewrite (sh_count _ _ _ Hsh). destruct (Z.ltb_spec (zlen q) BUFCACHE_MAX) as [Hmax|Hmax].
  - wp_step create_entry_ok; [done|done|]. intros [c' b'] (Hb0 & Hbq & Hsh' & Ed & p & Eb).
    destruct (Z.eqb_spec b' NULL); [done|]. rewrite Eb, lookup_insert_eq. simpl.
    destruct (to_front_ok c' [] b' q own Hsh') as (hq & -> & Hsh2). simpl.
    split; [done|]. eexists q, s, _. simpl. rewrite Eb, lookup_insert_eq, Ed.
    split_and!; try done.
    + apply contents_frame; [done|]. by rewrite elem_of_list_to_set.
    + simpl. apply length_replicate.
    + intros b2 e2 Hb2. rewrite lookup_insert_ne by set_solver. done.
  - destruct Hlast as [[-> Hall]|(Hb & Hb0 & e & He & Hr)].
    { pose proof (held_covers q held Hnd) as Hc. destruct (decide (zlen q ≤ zlen held)); [lia|].
      destruct n. apply Hc. intros b Hb. destruct (Hbufs b Hb) as [e He].
      pose proof (entry_here _ _ _ _ _ _ _ _ Hct b e ltac:(set_solver) He) as Hok.
      rewrite <- (eo_refs _ _ _ _ _ _ _ _ Hok). eauto. }
    destruct (Z.eqb_spec b NULL); [done|]. simpl. rewrite He. simpl.
    pose proof (entry_here _ _ _ _ _ _ _ _ Hct b e ltac:(set_solver) He) as Hok.
    pose proof (shape_block _ _ _ _ _ Hsh Hb He) as Hbl.
    destruct (eo_num _ _ _ _ _ _ _ _ Hok) as [Hn0 _].
    destruct (Z.eqb_spec (num e) 0); [lia|]. destruct (Z.eqb_spec (block e) NULL); [unfold NULL in *; lia|].
    simpl. destruct (write_entry_ok c q own s d held W (list_to_set q) b e)
      as (c' & r & s' & -> & Hsh' & Hd' & Eb & _ & Hct'); try done; [set_solver|]. simpl.
    apply list_elem_of_split in Hb as (l1 & l2 & ->).
    destruct (to_front_ok c' l1 b l2 own Hsh') as (hq & -> & Hsh2). simpl.
    rewrite NoDup_app, NoDup_cons in Hnd. destruct (Z.eqb_spec b NULL); [done|].
    split; [done|]. eexists (l1 ++ l2), s', _. simpl. split; [done|]. split; [done|].
    split; [|split; [rewrite Eb; apply lookup_insert_eq|]].
    + replace (list_to_set (l1 ++ l2) : gset Z) with (list_to_set (l1 ++ b :: l2) ∖ {[b]} : gset Z)
        by set_solver.
      eapply contents_evict; [done|set_solver|rewrite Eb; apply lookup_insert_eq| |done].
      pose proof (eo_refs _ _ _ _ _ _ _ _ Hok). pose proof (refs_bound b held). lia.
    + split; [apply (eo_len _ _ _ _ _ _ _ _ Hok)|]. intros b2 e2 Hb2. rewrite Eb.
      rewrite lookup_insert_ne by set_solver. set_solver.
Qed.

(** A block is found in the cache or read into an entry nobody holds; either
    way the client holds a buffer with its contents. *)
Lemma get_block_ok c d held W own n :
  cache_rel c d held W own → valid nb n → zlen held < BUFCACHE_MAX →
  wp (get_block t c n) oom (λ '(c', b), b ≠ NULL ∧ cache_rel c' d ((b, n) :: held) W own).
Proof.
  intros (q & s & Hsh & Hd & Hct) Hn Hheld. pose proof (sh_queue _ _ _ Hsh) as Hq.
  pose proof Hq as (Hnd & Hs & Hh & _). unfold get_block, _queue_head. rewrite Hh.
  assert (Hbufs : ∀ b, b ∈ q → is_Some (c_bufs c !! b))
    by (intros b Hb; destruct (sh_bufs _ _ _ Hsh b Hb) as (e & -> & _); eauto).
  destruct (find_entry_ok c n q NULL (size (c_nodes c)) Hs Hbufs (queue_fuel _ _ _ Hq))
    as (b & -> & [[-> Hno]|(Hb & Hb0 & e & He & En)]); simpl.
  - unfold _load_block. rewrite (sh_dev _ _ _ Hsh). destruct (Z.eqb_spec dv 0); [done|].
    wp_step find_free_entry_ok; try done. intros [c' b] (Hb0 & q' & s' & e & Hsh' & Hd' & Hct' & He & Hl & Hsub).
    destruct (Z.eqb_spec b NULL); [done|]. rewrite He. simpl.
    assert (Hbq : b ∉ q') by (pose proof (sh_queue _ _ _ Hsh') as [Hnd' _]; by apply NoDup_cons in Hnd' as [? _]).
    destruct (read_entry_ok (set_buf c' b (Buf 1 0 n (block e) (data e))) (b :: q') own s' b
      (Buf 1 0 n (block e) (data e))) as (c2 & -> & Hsh2 & Hd2 & Eb2); try done.
    { eapply shape_set_buf; try done. set_solver. }
    { by apply (ct_size _ _ _ _ _ _ _ _ Hct'). }
    { set_solver. }
    { simpl. apply lookup_insert_eq. }
    simpl. split; [done|]. exists (b :: q'), s'. split; [done|]. split; [done|].
    rewrite Eb2. simpl. rewrite insert_insert_eq.
    apply contents_install; [done|by rewrite elem_of_list_to_set|done|].
    intros b' e' Hb' He' E. rewrite elem_of_list_to_set in Hb'.
    destruct (Hsub b' e' Hb' He') as [Hin He2]. by apply (Hno b' e').
  - destruct (Z.eqb_spec b NULL); [done|]. simpl. rewrite He. simpl.
    pose proof (entry_here _ _ _ _ _ _ _ _ Hct b e ltac:(set_solver) He) as Hok.
    pose proof (eo_refs _ _ _ _ _ _ _ _ Hok). pose proof (refs_bound b held).
    unfold BUFCACHE_MAX in Hheld. rewrite s32_small by lia.
    apply list_elem_of_split in Hb as Hsp. destruct Hsp as (l1 & l2 & ->).
    destruct (to_front_ok (set_buf c b (Buf (refcount e + 1) (flags e) (num e) (block e) (data e))) l1 b l2 own)
      as (hq & -> & Hsh2).
    { eapply shape_set_buf; try done. apply (eo_len _ _ _ _ _ _ _ _ Hok). }
    simpl. split; [done|]. exists (b :: l1 ++ l2), s. split; [done|]. split; [done|]. simpl.
    replace ({[b]} ∪ list_to_set (l1 ++ l2) : gset Z) with (list_to_set (l1 ++ b :: l2) : gset Z)
      by set_solver.
    rewrite <- En. apply contents_hit; [done|set_solver|done].
Qed.

(** What the client of a buffer knows. *)
Lemma held_buf c d held W own b n :
  cache_rel c d held W own → (b, n) ∈ held →
  ∃ e, c_bufs c !! b = Some e ∧ num e = n ∧ valid nb n ∧ d !! n = Some (data e) ∧
    length (data e) = bs ∧ refcount e = refs b held.
Proof.
  intros (q & s & Hsh & Hd & Hct) Hin.
  destruct (ct_held _ _ _ _ _ _ _ _ Hct b n Hin) as (Hb & e & He & <-).
  destruct (entry_here _ _ _ _ _ _ _ _ Hct b e Hb He). by exists e.
Qed.

(** The steps of a client that change one buffer. *)
Lemma cache_rel_upd c d held W own b n e e' d' held' W' :
  cache_rel c d held W own → (b, n) ∈ held → c_bufs c !! b = Some e →
  block e' = block e → length (data e') = bs →
  (∀ s L, contents bs nb (c_bufs c) s d held W L → b ∈ L →
     contents bs nb (<[b := e']> (c_bufs c)) s d' held' W' L) →
  cache_rel (set_buf c b e') d' held' W' own.
Proof.
  intros (q & s & Hsh & Hd & Hct) Hin He Hbl Hl Hupd.
  destruct (ct_held _ _ _ _ _ _ _ _ Hct b n Hin) as (Hb & _).
  exists q, s. split; [eapply shape_set_buf; try done; set_solver|]. split; [done|]. simpl. auto.
Qed.

Lemma mark_block_dirty_ok c d held W own b n :
  cache_rel c d held W own → (b, n) ∈ held →
  wp (mark_block_dirty c b) False (λ c', cache_rel c' d held (W ∖ {[n]}) own).
Proof.
  intros Hrel Hin. destruct (held_buf _ _ _ _ _ _ _ Hrel Hin) as (e & He & <- & _ & _ & Hl & _).
  unfold mark_block_dirty. rewrite He. simpl. eapply cache_rel_upd; try done.
  intros s L Hct Hb. by apply contents_dirty.
Qed.

Lemma set_buf_data_ok c d held W own b n x :
  cache_rel c d held W own → (b, n) ∈ held → length x = bs →
  wp (set_buf_data c b x) False (λ c', cache_rel c' (<[n := x]> d) held ({[n]} ∪ W) own).
Proof.
  intros Hrel Hin Hx. destruct (held_buf _ _ _ _ _ _ _ Hrel Hin) as (e & He & <- & _ & _ & Hl & _).
  unfold set_buf_data. rewrite He. simpl. rewrite bool_decide_true by lia. simpl.
  eapply cache_rel_upd; try done. intros s L Hct Hb. apply contents_data; try done.
  apply list_elem_of_fmap. by exists (b, num e).
Qed.

Lemma release_ref c d held W own b n e :
  cache_rel c d ((b, n) :: held) W own → zlen held < BUFCACHE_MAX → c_bufs c !! b = Some e →
  (n ∉ W ∨ n ∈ held.*2) →
  let r := s32 (refcount e - 1) in
  cache_rel (set_buf c b (Buf (if r <? 0 then 0 else r) (flags e) (num e) (block e) (data e)))
    d held W own.
Proof.
  intros Hrel Hmax He HW r. assert (Hin : (b, n) ∈ (b, n) :: held) by set_solver.
  destruct (held_buf _ _ _ _ _ _ _ Hrel Hin) as (e' & He' & En & _ & _ & Hl & Hr).
  assert (e' = e) as -> by congruence.
  rewrite refs_cons in Hr. simpl in Hr. rewrite bool_decide_true in Hr by done.
  pose proof (refs_bound b held). unfold BUFCACHE_MAX in Hmax.
  assert (r = refcount e - 1) as -> by (unfold r; apply s32_small; lia).
  destruct (Z.ltb_spec (refcount e - 1) 0); [lia|].
  eapply cache_rel_upd; try done. intros s L Hct Hb. by eapply contents_release.
Qed.

Lemma release_block_ok c d held W own b n dirty :
  cache_rel c d ((b, n) :: held) W own → zlen held < BUFCACHE_MAX →
  (dirty ≠ 0 ∨ n ∉ W ∨ n ∈ held.*2) →
  wp (release_block c b dirty) False (λ '(c', r), r = 0 ∧ buf_data c' b = d !! n ∧
    cache_rel c' d held (if dirty =? 0 then W else W ∖ {[n]}) own).
Proof.
  intros Hrel Hmax HW. assert (Hin : (b, n) ∈ (b, n) :: held) by set_solver. unfold release_block.
  apply wp_bind. destruct (Z.eqb_spec dirty 0) as [->|Hdirty]; simpl.
  - destruct (held_buf _ _ _ _ _ _ _ Hrel Hin) as (e & He & _ & _ & Hd & _). rewrite He. simpl.
    split; [done|]. split; [unfold buf_data; simpl; by rewrite lookup_insert_eq|].
    apply (release_ref c d held W own b n e); try done. by destruct HW as [?|?].
  - eapply wp_mono; [by eapply mark_block_dirty_ok|done|]. intros c' Hrel'. simpl.
    destruct (held_buf _ _ _ _ _ _ _ Hrel' Hin) as (e & He & _ & _ & Hd & _). rewrite He. simpl.
    split; [done|]. split; [unfold buf_data; simpl; by rewrite lookup_insert_eq|].
    apply (release_ref c' d held _ own b n e); try done. left. set_solver.
Qed.

(** Writing back a part of the queue. *)
Lemma sync_entries_ok q own d held W l : ∀ c s p fuel,
  shape c q own → disk_is (c_disk c) s → contents bs nb (c_bufs c) s d held W (list_to_set q) →
  dlseg (c_nodes c) p l NULL → (∀ b, b ∈ l → b ∈ q) → (length l ≤ fuel)%nat →
  ∃ c' s', sync_entries t fuel c (first_of NULL l) = Val c' ∧ shape c' q own ∧
    disk_is (c_disk c') s' ∧ contents bs nb (c_bufs c') s' d held W (list_to_set q) ∧
    ∀ b e, c_bufs c !! b = Some e → b ∈ l ∨ flags e = 0 →
      ∃ e', c_bufs c' !! b = Some e' ∧ flags e' = 0 ∧ num e' = num e.
Proof.
  induction l as [|x l IH]; intros c s p fuel Hsh Hd Hct Hs Hl Hf.
  { exists c, s. split; [by destruct fuel|]. split_and!; try done. intros b e He [?|?]; [set_solver|eauto]. }
  destruct fuel as [|fuel]; [simpl in Hf; lia|]. destruct Hs as (Hx & Hnode & Hs). simpl.
  destruct (Z.eqb_spec x NULL); [done|]. destruct (sh_bufs _ _ _ Hsh x) as (e & He & _); [apply Hl; set_solver|].
  destruct (write_entry_ok c q own s d held W (list_to_set q) x e)
    as (c1 & r & s1 & -> & Hsh1 & Hd1 & Eb & En & Hct1); try done.
  { apply Hl. set_solver. }
  { apply elem_of_list_to_set, Hl. set_solver. }
  simpl. unfold _queue_next. rewrite En, Hnode. simpl.
  destruct (IH c1 s1 x fuel Hsh1 Hd1 Hct1) as (c2 & s2 & E & Hsh2 & Hd2 & Hct2 & Hfl).
  { by rewrite En. }
  { set_solver. }
  { simpl in Hf. lia. }
  exists c2, s2. split_and!; try done. intros b e' He' Hor. destruct (decide (b = x)) as [->|Hne].
  - assert (e' = e) as -> by congruence.
    apply (Hfl x (Buf (refcount e) 0 (num e) (block e) (data e))); [by rewrite Eb, lookup_insert_eq|by right].
  - apply Hfl; [by rewrite Eb, lookup_insert_ne|]. set_solver.
Qed.

(** After sync_bufcache the device holds every block as the clients of
    the cache see it, except blocks that are being changed and not marked
    dirty; the cache itself still has the same contents and references. *)
Lemma sync_bufcache_ok c d held W own :
  cache_rel c d held W own →
  ∃ c' s, sync_bufcache t c = Val c' ∧ cache_rel c' d held W own ∧ disk_is (c_disk c') s ∧
    length s = (nb * bs)%nat ∧ ∀ n, valid nb n → n ∉ W → d !! n = Some (blk bs s n).
Proof.
  intros (q & s & Hsh & Hd & Hct). pose proof (sh_queue _ _ _ Hsh) as Hq. pose proof Hq as (_ & Hs & Hh & _).
  unfold sync_bufcache. rewrite Hh.
  destruct (sync_entries_ok q own d held W q c s NULL (size (c_nodes c)))
    as (c' & s' & -> & Hsh' & Hd' & Hct' & Hfl); try done; [by eapply queue_fuel|].
  exists c', s'. split; [done|]. split; [by exists q, s'|]. split; [done|].
  split; [apply (ct_size _ _ _ _ _ _ _ _ Hct')|]. intros n Hn HnW. destruct (decide (Exists (λ b, num <$> c_bufs c' !! b = Some n) q)) as [Hc|Hc].
  - apply Exists_exists in Hc as (b & Hb & Hnum).
    destruct (c_bufs c' !! b) as [e|] eqn:He; [|done]. injection Hnum as Hnum.
    destruct (sh_bufs _ _ _ Hsh b Hb) as (e0 & He0 & _).
    destruct (Hfl b e0 He0) as (e' & He' & Hf & _); [by left|]. assert (e' = e) as -> by congruence.
    destruct (entry_here _ _ _ _ _ _ _ _ Hct' b e ltac:(set_solver) He) as [H1 H2 H3 H4 H5 H6].
    rewrite <- Hnum, H6; [done|done|by rewrite Hnum].
  - apply (ct_rest _ _ _ _ _ _ _ _ Hct'); [done|]. intros b e Hb He E. apply Hc.
    apply Exists_exists. exists b. rewrite He. simpl. split; [set_solver|congruence].
Qed.

Lemma free_entries_ok l : ∀ c p fuel live,
  dlseg (c_nodes c) p l NULL → NoDup (owned c l) → (∀ b, b ∈ l → is_Some (c_bufs c !! b)) →
  (length l ≤ fuel)%nat → alloc_inv (c_heap c) live → (∀ x, x ∈ owned c l → x ∈ live) →
  ∃ c', free_entries fuel c (first_of NULL l) = Val c' ∧ c_bc c' = c_bc c ∧ c_disk c' = c_disk c ∧
    alloc_inv (c_heap c') (live ∖ list_to_set (owned c l)).
Proof.
  induction l as [|x l IH]; intros c p fuel live Hs Hnd Hb Hf Hlive Hin.
  { exists c. split; [by destruct fuel|]. split_and!; try done.
    unfold owned. simpl. by rewrite difference_empty_L. }
  destruct fuel as [|fuel]; [simpl in Hf; lia|]. destruct Hs as (Hx & Hnode & Hs). destruct (Hb x) as [e He]; [set_solver|].
  assert (Eown : owned c (x :: l) ≡ₚ block e :: x :: owned c l).
  { unfold owned. rewrite fmap_cons. unfold block_at at 1. rewrite He. simpl.
    rewrite <- Permutation_middle. apply Permutation_swap. }
  assert ((list_to_set (owned c (x :: l)) : gset Z) = {[block e]} ∪ ({[x]} ∪ list_to_set (owned c l))) as ->.
  { apply set_eq. intros y. rewrite elem_of_list_to_set, Eown. set_solver. }
  cbn [first_of free_entries].
  destruct (Z.eqb_spec x NULL); [done|]. unfold _queue_next. rewrite Hnode. simpl. rewrite He. simpl.
  rewrite Eown in Hnd. apply NoDup_cons in Hnd as [Hx1 [Hx2 Hnd]%NoDup_cons].
  setoid_rewrite Eown in Hin.
  destruct (wp_returns _ _ (kmfree_law (c_heap c) live (block e) Hlive ltac:(apply Hin; set_solver)))
    as (a1 & -> & Ha1). simpl.
  destruct (wp_returns _ _ (kmfree_law a1 _ x Ha1 ltac:(specialize (Hin x); set_solver)))
    as (a2 & -> & Ha2). simpl.
  set (c1 := Cache _ _ _ _ a2).
  assert (Hxl : x ∉ l) by (unfold owned in Hx2; set_solver).
  assert (Eo : owned c1 l = owned c l).
  { apply owned_ext. intros b Hbl. unfold block_at, c1. simpl. by rewrite lookup_delete_ne by set_solver. }
  destruct (IH c1 x fuel (live ∖ {[block e]} ∖ {[x]})) as (c2 & -> & Ebc & Ed & Hfin); rewrite ?Eo; try done.
  - revert Hs. apply dlseg_ext. intros y Hy. unfold c1. simpl. apply lookup_delete_ne. set_solver.
  - intros b Hbl. unfold c1. simpl. rewrite lookup_delete_ne by set_solver. apply Hb. set_solver.
  - simpl in Hf. lia.
  - intros y Hy. specialize (Hin y). set_solver.
  - exists c2. split; [done|]. split; [done|]. split; [done|]. rewrite Eo in Hfin.
    by rewrite <- !difference_difference_l_L.
Qed.

(** free_bufcache gives back the memory of the cache, all of it and only that. *)
Lemma free_bufcache_ok c d held W own :
  cache_rel c d held W own →
  ∃ c' live, free_bufcache c = Val c' ∧ blocks (c_bc c') = _queue_init ∧ c_disk c' = c_disk c ∧
    alloc_inv (c_heap c') live ∧ own ⊆ live.
Proof.
  intros (q & s & Hsh & _). pose proof (sh_queue _ _ _ Hsh) as Hq. pose proof Hq as (_ & Hs & Hh & _).
  destruct (sh_mem _ _ _ Hsh) as [Hnd (live & Hlive & Hown & Hin)].
  unfold free_bufcache. rewrite Hh.
  destruct (free_entries_ok q c NULL (size (c_nodes c)) live) as (c' & -> & _ & Ed & Ha); try done.
  - intros b Hb. destruct (sh_bufs _ _ _ Hsh b Hb) as (e & -> & _). eauto.
  - by eapply queue_fuel.
  - intros x Hx. by apply Hin.
  - eexists _, _. split; [done|]. split; [done|]. split; [done|]. split; [exact Ha|].
    intros x Hx. apply elem_of_difference. split; [by apply Hown|].
    rewrite elem_of_list_to_set. intros Ho. by destruct (Hin x Ho) as (_ & _ & ?).
Qed.

(** ** Any sequence of client steps *)

(** A client keeps the buffers it holds in a list and refers to them by
    position. *)
Inductive cache_op :=
  | CacheGet (n : Z)
  | CacheRead (i : nat)
  | CacheWrite (i : nat) (x : list Z)
  | CacheDirty (i : nat)
  | CacheRelease (i : nat) (dirty : Z)
  | CacheSync.

Definition cache_step (st : cache D A * list Z) (op : cache_op) :
    res (cache D A * list Z * list Z) :=
  let '(c, bufs) := st in
  match op with
  | CacheGet n => '(c, b) ← get_block t c n; Val (c, b :: bufs, [])
  | CacheRead i => b ← lift (bufs !! i); x ← lift (buf_data c b); Val (c, bufs, x)
  | CacheWrite i x => b ← lift (bufs !! i); c ← set_buf_data c b x; Val (c, bufs, [])
  | CacheDirty i => b ← lift (bufs !! i); c ← mark_block_dirty c b; Val (c, bufs, [])
  | CacheRelease i dirty =>
      b ← lift (bufs !! i); '(c, r) ← release_block c b dirty; Val (c, delete i bufs, [r])
  | CacheSync => c ← sync_bufcache t c; Val (c, bufs, [])
  end.

Fixpoint cache_run (st : cache D A * list Z) (ops : list cache_op) :
    res (cache D A * list Z * list (list Z)) :=
  match ops with
  | [] => Val (st, [])
  | op :: ops => '(st, out) ← cache_step st op; '(st, outs) ← cache_run st ops; Val (st, out :: outs)
  end.

(** The specification: the blocks are an array; [nums] are the numbers of the
    blocks that are held, [W] those changed and not yet marked dirty.  A
    client may hold less than BUFCACHE_MAX buffers, and has to mark what it
    changed before it lets go of it. *)
Definition cache_spec (st : gmap Z (list Z) * list Z * gset Z) (op : cache_op) :
    option (gmap Z (list Z) * list Z * gset Z * list Z) :=
  let '(d, nums, W) := st in
  match op with
  | CacheGet n =>
      if bool_decide (valid nb n) && (zlen nums <? BUFCACHE_MAX) then Some (d, n :: nums, W, []) else None
  | CacheRead i => n ← nums !! i; x ← d !! n; Some (d, nums, W, x)
  | CacheWrite i x =>
      n ← nums !! i;
      if bool_decide (length x = bs) then Some (<[n := x]> d, nums, {[n]} ∪ W, []) else None
  | CacheDirty i => n ← nums !! i; Some (d, nums, W ∖ {[n]}, [])
  | CacheRelease i dirty =>
      n ← nums !! i;
      if (dirty =? 0) && bool_decide (n ∈ W ∧ n ∉ delete i nums) then None
      else Some (d, delete i nums, if dirty =? 0 then W else W ∖ {[n]}, [0])
  | CacheSync => Some (d, nums, W, [])
  end.

#[export] Instance contents_perm bufs s d :
  Proper ((≡ₚ) ==> eq ==> eq ==> iff) (contents bs nb bufs s d).
Proof.
  assert (Hone : ∀ h h' W L, h ≡ₚ h' → contents bs nb bufs s d h W L → contents bs nb bufs s d h' W L).
  { intros h h' W L Hp [H1 H2 H3 H4 H5 H6]. split; try done.
    - intros b Hb. destruct (H2 b Hb) as (e & He & []). exists e. split; [done|]. split; try done.
      by rewrite <- Hp.
    - intros b n. rewrite <- Hp. apply H5.
    - intros n. rewrite <- Hp. apply H6. }
  intros h h' Hp W W' <- L L' <-. split; apply Hone; [done|by symmetry].
Qed.

#[export] Instance cache_rel_perm c d : Proper ((≡ₚ) ==> eq ==> eq ==> iff) (cache_rel c d).
Proof.
  intros h h' Hp W W' <- own own' <-. unfold cache_rel.
  split; intros (q & s & Hsh & Hd & Hct); exists q, s; split_and!; try done; [by rewrite <- Hp|by rewrite Hp].
Qed.

Lemma zip_lookup (bufs nums : list Z) i b n :
  bufs !! i = Some b → nums !! i = Some n → (b, n) ∈ zip bufs nums.
Proof.
  intros Hb Hn. apply (list_elem_of_lookup_2 _ i). apply lookup_zip_Some. done.
Qed.

Lemma zip_delete (bufs nums : list Z) i :
  delete i (zip bufs nums) = zip (delete i bufs) (delete i nums).
Proof.
  revert nums i. induction bufs as [|b bufs IH]; intros [|n nums] [|i]; simpl; try done.
  - by destruct bufs.
  - f_equal. apply IH.
Qed.

Lemma cache_step_ok c bufs d nums W own op d' nums' W' out :
  cache_rel c d (zip bufs nums) W own → length bufs = length nums → zlen nums ≤ BUFCACHE_MAX →
  cache_spec (d, nums, W) op = Some (d', nums', W', out) →
  wp (cache_step (c, bufs) op) oom (λ '(c', bufs', out'), out' = out ∧ length bufs' = length nums' ∧
    zlen nums' ≤ BUFCACHE_MAX ∧ cache_rel c' d' (zip bufs' nums') W' own).
Proof.
  intros Hrel Hlen Hmax. assert (Hb : ∀ i n, nums !! i = Some n → ∃ b, bufs !! i = Some b).
  { intros i n Hi%lookup_lt_Some. apply lookup_lt_is_Some_2. lia. }
  assert (Hzl : zlen (zip bufs nums) = zlen nums) by (rewrite length_zip_with; lia).
  destruct op as [n|i|i x|i|i dirty|]; simpl; intros Hs.
  - case_bool_decide as Hv; [|done]. destruct (Z.ltb_spec (zlen nums) BUFCACHE_MAX); [|done].
    injection Hs as <- <- <- <-. wp_step get_block_ok; [done|done|lia|].
    intros [c' b] [_ Hrel']. simpl. unfold BUFCACHE_MAX in *. split_and!; [done|lia|lia|done].
  - destruct (nums !! i) as [n|] eqn:Hn; [|done]. simpl in Hs. destruct (Hb i n Hn) as [b Hbi].
    destruct (held_buf _ _ _ _ _ _ _ Hrel (zip_lookup _ _ _ _ _ Hbi Hn)) as (e & He & _ & _ & Ed & _).
    rewrite Ed in Hs. injection Hs as <- <- <- <-. rewrite Hbi. unfold buf_data. simpl. rewrite He. done.
  - destruct (nums !! i) as [n|] eqn:Hn; [|done]. simpl in Hs. destruct (Hb i n Hn) as [b Hbi].
    case_bool_decide; [|done]. injection Hs as <- <- <- <-. rewrite Hbi. simpl.
    eapply wp_call; [eapply wp_mono; [eapply set_buf_data_ok; eauto using zip_lookup|done|]|].
    { intros a Ha. exact Ha. } done.
  - destruct (nums !! i) as [n|] eqn:Hn; [|done]. simpl in Hs. destruct (Hb i n Hn) as [b Hbi].
    injection Hs as <- <- <- <-. rewrite Hbi. simpl.
    eapply wp_call; [eapply wp_mono; [eapply mark_block_dirty_ok; eauto using zip_lookup|done|]|].
    { intros a Ha. exact Ha. } done.
  - destruct (nums !! i) as [n|] eqn:Hn; [|done]. simpl in Hs. destruct (Hb i n Hn) as [b Hbi].
    destruct ((dirty =? 0) && _) eqn:Hc; [done|]. injection Hs as <- <- <- <-. rewrite Hbi. simpl.
    assert (Hz : zip bufs nums !! i = Some (b, n)) by (by apply lookup_zip_Some).
    rewrite (delete_Permutation _ _ _ Hz), zip_delete in Hrel.
    assert (Hld : length (delete i bufs) = length (delete i nums))
      by (rewrite !length_delete by (rewrite ?Hbi, ?Hn; eauto); lia).
    assert (Hlz : zlen (zip (delete i bufs) (delete i nums)) < BUFCACHE_MAX).
    { rewrite length_zip_with. pose proof (length_delete nums i ltac:(rewrite Hn; eauto)).
      apply lookup_lt_Some in Hn. lia. }
    eapply wp_call; [eapply wp_mono; [eapply release_block_ok; [exact Hrel|done|]|done|]|].
    + apply andb_false_iff in Hc as [Hc|Hc]; [left; lia|].
      apply bool_decide_eq_false in Hc. right. rewrite snd_zip by lia.
      destruct (decide (n ∈ W)); [|by left]. right. apply dec_stable. intros Hni. auto.
    + intros a Ha. exact Ha.
    + intros [c' r] (-> & _ & Hrel'). simpl. split_and!; try done.
      pose proof (length_delete nums i ltac:(rewrite Hn; eauto)). lia.
  - injection Hs as <- <- <- <-. destruct (sync_bufcache_ok c d (zip bufs nums) W own Hrel) as (c' & s & -> & Hr & _).
    done.
Qed.

(** C6: the cache is coherent.  Whatever clients do (get, read, write, mark,
    release and sync, in any order and with any other memory in use), every
    read gives what was last written to the block, or what the device held;
    the machine halts only for lack of memory.  The blocks are those of the
    device but for block 0, at most BUFCACHE_MAX are held at a time, and a
    block that was written is marked before it is released ([cache_spec] has
    these conditions). *)
Theorem cache_run_coherent ops : ∀ c bufs d nums W own d' nums' W' outs,
  cache_rel c d (zip bufs nums) W own → length bufs = length nums → zlen nums ≤ BUFCACHE_MAX →
  run_out cache_spec (d, nums, W) ops =
    Some (d', nums', W', outs) →
  (cache_run (c, bufs) ops = Halt ∧ oom) ∨
  ∃ c' bufs', cache_run (c, bufs) ops = Val (c', bufs', outs) ∧ cache_rel c' d' (zip bufs' nums') W' own.
Proof.
  induction ops as [|op ops IH]; intros c bufs d nums W own d' nums' W' outs Hrel Hlen Hmax Hrun.
  { injection Hrun as <- <- <- <-. right. by exists c, bufs. }
  cbn [run_out] in Hrun. destruct (cache_spec (d, nums, W) op) as [[[[d1 nums1] W1] out]|] eqn:Hs; [|done].
  simpl in Hrun. destruct (run_out _ (d1, nums1, W1) ops) as [[[[d2 nums2] W2] outs']|] eqn:Hr; [|done].
  simpl in Hrun. injection Hrun as <- <- <- <-.
  pose proof (cache_step_ok c bufs d nums W own op d1 nums1 W1 out Hrel Hlen Hmax Hs) as Hstep.
  cbn [cache_run]. destruct (cache_step (c, bufs) op) as [[[c1 bufs1] out1]| |]; [|left; split; [done|exact Hstep]|done].
  destruct Hstep as (-> & Hlen1 & Hmax1 & Hrel1). simpl.
  destruct (IH c1 bufs1 d1 nums1 W1 own d2 nums2 W2 outs' Hrel1 Hlen1 Hmax1 Hr)
    as [[-> Hoom]|(c' & bufs' & -> & Hrel')]; [by left|]. right. simpl. eauto.
Qed.

(** A new cache shows what is on the disk. *)
Lemma fresh_cache_rel bc disk heap live d s own :
  disk_is disk s → length s = (nb * bs)%nat → (∀ n, valid nb n → d !! n = Some (blk bs s n)) →
  alloc_inv heap live → own ⊆ live →
  cache_rel (init_bufcache (Cache bc ∅ ∅ disk heap) dv (Z.of_nat bs)) d [] ∅ own.
Proof.
  intros Hd Hlen Hs Hheap Hown. exists [], s. split; [|split; [done|]].
  - split; simpl; try done.
    + by split; [apply NoDup_nil_2|].
    + set_solver.
    + split; [apply NoDup_nil_2|]. exists live. set_solver.
  - split; simpl; try done; try set_solver.
Qed.

(** C23: what was synced survives: after sync_bufcache a new cache on the same
    device, with any heap, has the same blocks. *)
Theorem sync_durable c d held own heap live own' :
  cache_rel c d held ∅ own → alloc_inv heap live → own' ⊆ live →
  ∃ c', sync_bufcache t c = Val c' ∧ cache_rel c' d held ∅ own ∧
    cache_rel (init_bufcache (Cache (c_bc c') ∅ ∅ (c_disk c') heap) dv (Z.of_nat bs)) d [] ∅ own'.
Proof.
  intros Hrel Hheap Hown. destruct (sync_bufcache_ok c d held ∅ own Hrel) as (c' & s & E & Hrel' & Hd & Hlen & Hs).
  exists c'. split; [done|]. split; [done|]. eapply fresh_cache_rel; try done.
  intros n Hn. apply Hs; [done|apply not_elem_of_empty].
Qed.
End operations.

(** ** Examples: a RAM disk of blocks of four bytes *)
#[local] Existing Instance example_allocator.
#[local] Existing Instance example_alloc_laws.

Definition example_cache (blocks : nat) : cache memdisk kheap :=
  init_bufcache
    (Cache (Bufcache 0 0 0 0 _queue_init) ∅ ∅
       (Memdisk 1 [Geometry 4096 (Z.of_nat (blocks * 4))] 4096
          (concat ((λ n, replicate 4 (Z.of_nat n)) <$> seq 0 blocks)))
       example_kheap) mem_dev 4.

Definition example_blocks : gmap Z (list Z) :=
  list_to_map ((λ n, (Z.of_nat n, replicate 4 (Z.of_nat n))) <$> seq 1 4).

Lemma example_cache_rel : cache_rel mem_table mem_dev 4 5 (example_cache 5) example_blocks [] ∅ ∅.
Proof.
  exists [], (concat ((λ n, replicate 4 (Z.of_nat n)) <$> seq 0 5)). split; [|split].
  - split; simpl; try done.
    + by split; [apply NoDup_nil_2|].
    + set_solver.
    + split; [apply NoDup_nil_2|]. exists ∅. split; [apply example_kheap_inv|]. set_solver.
  - split; [|done]. split; [done|]. eexists. split; [done|]. vm_compute. done.
  - split; try done; try set_solver. intros n [H0 Hn] _.
    assert (n = 1 ∨ n = 2 ∨ n = 3 ∨ n = 4) as [->|[->|[->| ->]]] by lia; done.
Qed.

Definition example_cache_ops : list cache_op :=
  [CacheGet 3; CacheGet 2; CacheWrite 1 [7; 7; 7; 7]; CacheRead 0; CacheRelease 1 1; CacheSync;
   CacheGet 3; CacheRead 0].

Lemma cache_run_coherent_witness :
  (cache_run mem_table (example_cache 5, []) example_cache_ops = Halt ∧ oom) ∨
  ∃ c' bufs', cache_run mem_table (example_cache 5, []) example_cache_ops =
      Val (c', bufs', [[]; []; []; [2; 2; 2; 2]; [0]; []; []; [7; 7; 7; 7]]) ∧
    cache_rel mem_table mem_dev 4 5 c' (<[3 := [7; 7; 7; 7]]> example_blocks) (zip bufs' [3; 2]) ∅ ∅.
Proof.
  apply (cache_run_coherent mem_table mem_dev 4 5 ltac:(done) ltac:(lia) example_cache_ops
    (example_cache 5) [] example_blocks [] ∅ ∅).
  - apply example_cache_rel.
  - done.
  - done.
  - vm_compute. done.
Defined.

(** The same steps evaluate, without a halt. *)
Lemma example_cache_runs :
  match cache_run mem_table (example_cache 5, []) example_cache_ops with
  | Val (c, _, outs) =>
      outs = [[]; []; []; [2; 2; 2; 2]; [0]; []; []; [7; 7; 7; 7]] ∧
      slice (ram (c_disk c)) 12 4 = [7; 7; 7; 7]
  | _ => False
  end.
Proof. vm_compute. done. Qed.

Lemma sync_durable_witness :
  ∃ c', sync_bufcache mem_table (example_cache 5) = Val c' ∧
    cache_rel mem_table mem_dev 4 5 c' example_blocks [] ∅ ∅ ∧
    cache_rel mem_table mem_dev 4 5
      (init_bufcache (Cache (c_bc c') ∅ ∅ (c_disk c') example_kheap) mem_dev (Z.of_nat 4))
      example_blocks [] ∅ ∅.
Proof.
  apply (sync_durable mem_table mem_dev 4 5 ltac:(done) ltac:(lia) (example_cache 5) example_blocks [] ∅
    example_kheap ∅ ∅).
  - apply example_cache_rel.
  - apply example_kheap_inv.
  - done.
Defined.

(** A block that cannot be read: get_block returns NULL, but leaves the entry
    in the cache under that number, so the next get_block succeeds. *)
Lemma get_block_failed_read_cached :
  match get_block mem_table (example_cache 5) 9 with
  | Val (c, b) =>
      b = NULL ∧
      match get_block mem_table c 9 with
      | Val (c, b) => b ≠ NULL ∧ buf_data c b = Some [0; 0; 0; 0]
      | _ => False
      end
  | _ => False
  end.
Proof. vm_compute. done. Qed.

(** Block 0 is not written back when its entry is recycled: what was written
    to it is lost once a hundred other blocks have been read. *)
Lemma block_zero_lost :
  match cache_run mem_table (example_cache 105, [])
          ([CacheGet 0; CacheWrite 0 [9; 9; 9; 9]; CacheRelease 0 1] ++
           mjoin ((λ n, [CacheGet (Z.of_nat n); CacheRelease 0 0]) <$> seq 1 100) ++
           [CacheGet 0; CacheRead 0]) with
  | Val (_, _, outs) => last outs = Some [0; 0; 0; 0]
  | _ => False
  end.
Proof. vm_compute. done. Qed.
