(* ===== verification/Blockstore.v ===== *)
(** * Blockstore: what the file systems rely on in the buffer cache

    A file system holds buffers, reads and writes their memory, marks them
    dirty and lets go of them; it also allocates memory of its own from the
    heap the cache uses.  [StoreLaws] states this against the contents of the
    blocks.  The buffer cache of Bufcache.v fulfils it for every disk and
    allocator that fulfil their own interface. *)

From S2P Require Import Prelude Result Device Alloc Bufcache.

Class BlockStore (C : Type) := {
  get_block : C → Z → res (C * Z);
  release_block : C → Z → Z → res (C * Z);
  mark_block_dirty : C → Z → res C;
  buf_data : C → Z → option (list Z);
  set_buf_data : C → Z → list Z → res C;
  sync_bufcache : C → res C;
  kmalloc : C → Z → res (C * Z);
  kmfree : C → Z → res C;
}.

(** [store_rel c d held W own]: the blocks 1 to [nb - 1] hold [d]; the client
    holds the buffers [held], has changed the blocks [W] without marking them
    dirty, and has allocated [own]. *)
Class StoreLaws (C : Type) `{BlockStore C} (bs nb : nat) := {
  store_rel : C → gmap Z (list Z) → list (Z * Z) → gset Z → gset Z → Prop;
  store_oom : Prop;
  store_perm c d held held' W own :
    held ≡ₚ held' → store_rel c d held W own → store_rel c d held' W own;
  store_block c d held W own n :
    store_rel c d held W own → 0 < n < Z.of_nat nb → ∃ x, d !! n = Some x ∧ length x = bs;
  store_data c d held W own b n :
    store_rel c d held W own → (b, n) ∈ held → buf_data c b = d !! n ∧ 0 < n < Z.of_nat nb;
  get_block_law c d held W own n :
    store_rel c d held W own → 0 < n < Z.of_nat nb → zlen held < 100 →
    wp (get_block c n) store_oom (λ '(c', b), b ≠ 0 ∧ store_rel c' d ((b, n) :: held) W own);
  set_buf_data_law c d held W own b n x :
    store_rel c d held W own → (b, n) ∈ held → length x = bs →
    wp (set_buf_data c b x) store_oom (λ c', store_rel c' (<[n := x]> d) held ({[n]} ∪ W) own);
  mark_block_dirty_law c d held W own b n :
    store_rel c d held W own → (b, n) ∈ held →
    wp (mark_block_dirty c b) store_oom (λ c', store_rel c' d held (W ∖ {[n]}) own);
  release_block_law c d held W own b n dirty :
    store_rel c d ((b, n) :: held) W own → zlen held < 100 →
    (dirty ≠ 0 ∨ n ∉ W ∨ n ∈ held.*2) →
    wp (release_block c b dirty) store_oom (λ '(c', r), r = 0 ∧ buf_data c' b = d !! n ∧
      store_rel c' d held (if dirty =? 0 then W else W ∖ {[n]}) own);
  sync_law c d held W own : store_rel c d held W own →
    wp (sync_bufcache c) store_oom (λ c', store_rel c' d held W own);
  kmalloc_law c d held W own sz : store_rel c d held W own → 0 ≤ sz ≤ 2 ^ 30 →
    wp (kmalloc c sz) store_oom (λ '(c', p), 0 < p ∧ (p ∉ own) ∧ store_rel c' d held W ({[p]} ∪ own));
  kmfree_law c d held W own p : store_rel c d held W own → p ∈ own →
    wp (kmfree c p) store_oom (λ c', store_rel c' d held W (own ∖ {[p]}));
}.

(** ** The buffer cache *)
Section cache_store.
Context {D A : Type} `{Allocator A} `{!AllocLaws A}.
Context (t : list (option (driver D))) (dv : Z) `{!DiskLaws t dv} (bs nb : nat).
Hypothesis dev_set : dv ≠ 0.
Hypothesis sizes : 0 < Z.of_nat bs ≤ 2 ^ 30 ∧ Z.of_nat (nb * bs) < 2 ^ 31.

#[local] Instance cache_store : BlockStore (cache D A) := {
  get_block := Bufcache.get_block t;
  release_block := Bufcache.release_block;
  mark_block_dirty := Bufcache.mark_block_dirty;
  buf_data := Bufcache.buf_data;
  set_buf_data := Bufcache.set_buf_data;
  sync_bufcache := Bufcache.sync_bufcache t;
  kmalloc c sz := '(a, p) ← Alloc.kmalloc (c_heap c) sz; Val (set_heap c a, p);
  kmfree c p := a ← Alloc.kmfree (c_heap c) p; Val (set_heap c a);
}.

Lemma wp_false {B} (r : res B) (Hh : Prop) Q : wp r False Q → wp r Hh Q.
Proof. intros Hr. by eapply wp_mono. Qed.

Lemma cache_block c d held W own n :
  cache_rel t dv bs nb c d held W own → valid nb n → ∃ x, d !! n = Some x ∧ length x = bs.
Proof.
  intros (q & s & Hsh & Hd & Hct) Hn.
  destruct (decide (Exists (λ b, num <$> c_bufs c !! b = Some n) q)) as [Hc|Hc].
  - apply Exists_exists in Hc as (b & Hb & Hnum).
    destruct (c_bufs c !! b) as [e|] eqn:He; [|done]. injection Hnum as <-.
    destruct (entry_here _ _ _ _ _ _ _ _ Hct b e ltac:(set_solver) He). eauto.
  - exists (blk bs s n). split; [|apply (blk_length bs nb); [apply (ct_size _ _ _ _ _ _ _ _ Hct)|done]].
    apply (ct_rest _ _ _ _ _ _ _ _ Hct); [done|]. intros b e Hb He E. apply Hc.
    apply Exists_exists. exists b. rewrite He. simpl. split; [set_solver|congruence].
Qed.

Lemma cache_kmalloc c d held W own sz :
  cache_rel t dv bs nb c d held W own → 0 ≤ sz ≤ 2 ^ 30 →
  wp (kmalloc c sz) oom
    (λ '(c', p), 0 < p ∧ (p ∉ own) ∧ cache_rel t dv bs nb c' d held W ({[p]} ∪ own)).
Proof.
  intros (q & s & [H1 H2 H3 H4 H5 H6 H7 [Hnd (live & Hl & Ho & Hm)]] & Hd & Hct) Hsz. simpl.
  wp_step Alloc.kmalloc_law; [done|done|]. intros [a p] (Hp & Hpl & Ha). simpl.
  split; [done|]. split; [set_solver|]. exists q, s. split; [|done].
  split; try done. split; [done|]. exists ({[p]} ∪ live). split; [done|]. split; [set_solver|].
  intros x Hx. destruct (Hm x Hx) as (? & ? & ?). set_solver.
Qed.

Lemma cache_kmfree c d held W own p :
  cache_rel t dv bs nb c d held W own → p ∈ own →
  wp (kmfree c p) oom (λ c', cache_rel t dv bs nb c' d held W (own ∖ {[p]})).
Proof.
  intros (q & s & [H1 H2 H3 H4 H5 H6 H7 [Hnd (live & Hl & Ho & Hm)]] & Hd & Hct) Hp. simpl.
  eapply wp_call; [apply wp_false, (Alloc.kmfree_law _ live p); [done|set_solver]|].
  intros a Ha. simpl. exists q, s. split; [|done]. split; try done. split; [done|].
  exists (live ∖ {[p]}). split; [done|]. split; [set_solver|].
  intros x Hx. destruct (Hm x Hx) as (? & ? & ?). set_solver.
Qed.

Definition cache_store_laws : StoreLaws (cache D A) bs nb.
Proof.
  apply (Build_StoreLaws _ _ bs nb (cache_rel t dv bs nb) oom).
  - intros c d held held' W own Hp Hr. by rewrite <- Hp.
  - intros c d held W own n. apply cache_block.
  - intros c d held W own b n Hr Hin. simpl. unfold Bufcache.buf_data.
    destruct (held_buf _ _ _ _ _ _ _ _ _ _ _ Hr Hin) as (e & -> & _ & Hv & -> & _). done.
  - intros c d held W own n. by apply get_block_ok.
  - intros. apply wp_false. by apply set_buf_data_ok.
  - intros. apply wp_false. by eapply mark_block_dirty_ok.
  - intros. apply wp_false. by apply release_block_ok.
  - intros c d held W own Hr. simpl.
    destruct (sync_bufcache_ok t dv bs nb ltac:(done) ltac:(done) c d held W own Hr) as (c' & s & -> & Hr' & _).
    done.
  - apply cache_kmalloc.
  - apply cache_kmfree.
Defined.
End cache_store.

(** A buffer on top of the list of those held. *)
Ltac held_here := apply elem_of_cons; by left.

(** ** The rules clients are verified with *)
Section client.
Context {C : Type} `{BlockStore C} {bs nb : nat} `{!StoreLaws C bs nb}.

Lemma wp_get {B} c d held W own n (k : C * Z → res B) Q :
  store_rel c d held W own → 0 < n < Z.of_nat nb → zlen held < 100 →
  (∀ c' b x, b ≠ 0 → d !! n = Some x → length x = bs → buf_data c' b = Some x →
     store_rel c' d ((b, n) :: held) W own → wp (k (c', b)) store_oom Q) →
  wp (get_block c n ≫= k) store_oom Q.
Proof.
  intros Hr Hn Hh Hk. wp_step get_block_law; [done..|]. intros [c' b] [Hb Hr'].
  destruct (store_block _ _ _ _ _ n Hr' Hn) as (x & Hx & Hl).
  destruct (store_data _ _ _ _ _ b n Hr') as [E _]; [set_solver|].
  eapply Hk; try done. by rewrite E.
Qed.

Lemma wp_put {B} c d held W own b n x (k : C → res B) Q :
  store_rel c d held W own → (b, n) ∈ held → length x = bs →
  (∀ c', buf_data c' b = Some x → store_rel c' (<[n := x]> d) held ({[n]} ∪ W) own →
     wp (k c') store_oom Q) →
  wp (set_buf_data c b x ≫= k) store_oom Q.
Proof.
  intros Hr Hin Hx Hk. wp_step set_buf_data_law; [done..|]. intros c' Hr'. apply Hk; [|done].
  destruct (store_data _ _ _ _ _ b n Hr' Hin) as [-> _]. apply lookup_insert_eq.
Qed.

Lemma wp_release {B} c d held W own b n (k : C * Z → res B) Q :
  store_rel c d ((b, n) :: held) W own → zlen held < 100 → n ∉ W →
  (∀ c', buf_data c' b = d !! n → store_rel c' d held W own → wp (k (c', 0)) store_oom Q) →
  wp (release_block c b 0 ≫= k) store_oom Q.
Proof.
  intros Hr Hh Hn Hk. wp_step release_block_law; [done|done|by right; left|].
  intros [c' r] (-> & Hd & Hr'). auto.
Qed.

Lemma wp_release_dirty {B} c d held W own b n (k : C * Z → res B) Q :
  store_rel c d ((b, n) :: held) W own → zlen held < 100 →
  (∀ c', store_rel c' d held (W ∖ {[n]}) own → wp (k (c', 0)) store_oom Q) →
  wp (release_block c b 1 ≫= k) store_oom Q.
Proof.
  intros Hr Hh Hk. wp_step release_block_law; [done|done|by left|].
  intros [c' r] (-> & Hd & Hr'). auto.
Qed.

Lemma wp_dirty {B} c d held W own b n (k : C → res B) Q :
  store_rel c d held W own → (b, n) ∈ held →
  (∀ c', store_rel c' d held (W ∖ {[n]}) own → wp (k c') store_oom Q) →
  wp (mark_block_dirty c b ≫= k) store_oom Q.
Proof. intros Hr Hin Hk. wp_step mark_block_dirty_law; [done..|]. auto. Qed.

(** A change that is marked dirty leaves nothing to mark. *)
Lemma marked (W : gset Z) n : n ∉ W → ({[n]} ∪ W) ∖ {[n]} = W.
Proof. set_solver. Qed.

Lemma wp_put_release {B} c d held W own b n x (k : C * Z → res B) Q :
  store_rel c d ((b, n) :: held) W own → zlen held < 100 → n ∉ W → length x = bs →
  (∀ c', store_rel c' (<[n := x]> d) held W own → wp (k (c', 0)) store_oom Q) →
  wp (c' ← set_buf_data c b x; r ← release_block c' b 1; k r) store_oom Q.
Proof.
  intros Hr Hh Hn Hx Hk. eapply wp_put; [done|held_here|done|]. intros c1 _ Hr1.
  eapply wp_release_dirty; [done|done|]. intros c2 Hr2. rewrite marked in Hr2 by done. auto.
Qed.
End client.

(** ** File systems on a RAM disk *)
#[local] Existing Instance example_allocator.
#[local] Existing Instance example_alloc_laws.

(** A RAM disk that holds the bytes of [image], and its cache, in blocks of 1024. *)
Definition image_disk (image : list Z) : memdisk := Memdisk 1 [Geometry 4096 (zlen image)] 4096 image.

Lemma image_disk_is image : zlen image < 2 ^ 31 → disk_is (t := mem_table) (dev := mem_dev) (image_disk image) image.
Proof.
  intros Hl. split; [|done]. split; [done|]. eexists. split; [done|]. simpl. split_and!; try done; try lia.
  unfold slice. by rewrite drop_0, take_ge by lia.
Qed.

Definition image_cache (image : list Z) : cache memdisk kheap :=
  init_bufcache (Cache (Bufcache 0 0 0 0 Queue._queue_init) ∅ ∅ (image_disk image) example_kheap) mem_dev 1024.

Definition image_blocks (nb : nat) (image : list Z) : gmap Z (list Z) :=
  list_to_map ((λ n, (Z.of_nat n, slice image (n * 1024) 1024)) <$> seq 1 (nb - 1)).

Definition image_store : BlockStore (cache memdisk kheap) := cache_store mem_table.

Lemma image_blocks_lookup nb image n : 0 < n < Z.of_nat nb →
  image_blocks nb image !! n = Some (slice image (Z.to_nat n * 1024) 1024).
Proof.
  intros Hn. apply elem_of_list_to_map.
  - rewrite <- list_fmap_compose. apply NoDup_fmap; [intros x y; simpl; lia|apply NoDup_seq].
  - apply list_elem_of_fmap. exists (Z.to_nat n). split; [by rewrite Z2Nat.id by lia|]. apply elem_of_seq. lia.
Qed.

Section image.
Context (nb : nat) (Hsize : Z.of_nat (nb * 1024) < 2 ^ 31).

Definition image_laws : @StoreLaws _ image_store 1024 nb :=
  cache_store_laws mem_table mem_dev 1024 nb ltac:(done) ltac:(lia).

Lemma image_cache_rel image : length image = (nb * 1024)%nat →
  @store_rel _ _ _ _ image_laws (image_cache image) (image_blocks nb image) [] ∅ ∅.
Proof.
  intros Hl. exists [], image. split; [|split].
  - split; simpl; try done.
    + by split; [apply NoDup_nil_2|].
    + set_solver.
    + split; [apply NoDup_nil_2|]. exists ∅. split; [apply example_kheap_inv|]. set_solver.
  - apply image_disk_is. lia.
  - split; try done; try set_solver. intros n Hn _. by apply image_blocks_lookup.
Qed.
End image.
