(* ===== verification/Minixmap.v ===== *)
(** * Minixmap: the bitmaps of the Minix file system
      (src/kernel/fs/minix/bitmaps.h)

    A bitmap is kept in consecutive blocks.  [bitmap_is] reads it as one array
    of bytes, in which Bits.v gives every bit a number. *)

From S2P Require Import Prelude Bits Result Blockstore.

Definition MINIX_V1_ZONE_SIZE : Z := 1024.
Definition MINIX_V1_BITS_PER_ZONE : Z := MINIX_V1_ZONE_SIZE * 8.
Definition BF_DIRTY : Z := 1.

(** [byte = (byte << 1) | 0x01], [bits] times, in a char. *)
Definition bit_mask (bits : Z) : Z :=
  Nat.iter (Z.to_nat bits) (λ byte, s8 (Z.lor (Z.shiftl byte 1) 1)) 0.

(** A char stored in memory. *)
Definition store_char (block : list Z) (i v : Z) : option (list Z) := wr block i (u8 v).

Section bitmaps.
Context {C : Type} `{BlockStore C}.

(** The bytes of the block that ends the bitmap: [num_entries] clear bits and
    the rest set. *)
Definition last_block (block : list Z) (num_entries : Z) : option (list Z) :=
  let bits := Z.land num_entries 7 in
  let bytes := Z.shiftr num_entries 3 + (if bits =? 0 then 0 else 1) in
  b ← wr_range block 0 (replicate (Z.to_nat bytes) 0);
  b ← (if bits =? 0 then Some b else store_char b (bytes - 1) (Z.lnot (bit_mask bits)));
  wr_range b bytes (replicate (Z.to_nat (MINIX_V1_ZONE_SIZE - bytes)) 255).

(** The first loop of bitmap_init, for [fuel] blocks from [i] on: [true] when
    it ran to its end or break, [false] when a block could not be had. *)
Fixpoint bitmap_clear (fuel : nat) (c : C) (i num_entries : Z) : res (C * bool) :=
  match fuel with
  | O => Val (c, true)
  | S fuel =>
      '(c, buf) ← get_block c i;
      if buf =? 0 then Val (c, false)
      else
        block ← lift (buf_data c buf);
        if num_entries <? MINIX_V1_BITS_PER_ZONE then
          b ← lift (last_block block num_entries);
          c ← set_buf_data c buf b;
          Val (c, true)
        else
          b ← lift (wr_range block 0 (replicate (Z.to_nat MINIX_V1_ZONE_SIZE) 0));
          c ← set_buf_data c buf b;
          '(c, _) ← release_block c buf BF_DIRTY;
          bitmap_clear fuel c (i + 1) (num_entries - MINIX_V1_BITS_PER_ZONE)
  end.

Definition bitmap_init (c : C) (bitmap_start bitmap_size num_entries reserve : Z) : res (C * Z) :=
  '(c, ok) ← bitmap_clear (Z.to_nat bitmap_size) c bitmap_start num_entries;
  if negb ok then Val (c, -1)
  else
    '(c, buf) ← get_block c bitmap_start;
    if buf =? 0 then Val (c, -1)
    else
      block ← lift (buf_data c buf);
      let i := Z.shiftr reserve 3 in
      b ← lift (wr_range block 0 (replicate (Z.to_nat i) 255));
      b ← lift (store_char b i (bit_mask (Z.land reserve 7)));
      c ← set_buf_data c buf b;
      '(c, _) ← release_block c buf BF_DIRTY;
      Val (c, 0).

(** [for (bit = 0; bit < 8 && ((0x01 << bit) & block[i]); bit++)] *)
Fixpoint clear_bit_from (fuel : nat) (byte bit : Z) : Z :=
  match fuel with
  | O => bit
  | S fuel =>
      if (bit <? 8) && negb (Z.land (Z.shiftl 1 bit) byte =? 0)
      then clear_bit_from fuel byte (bit + 1) else bit
  end.

(** The first byte with a clear bit, from index [i] on, and that bit. *)
Fixpoint find_clear (bytes : list Z) (i : Z) : option (Z * Z) :=
  match bytes with
  | [] => None
  | byte :: bytes =>
      if negb (s8 (Z.lnot byte) =? 0) then Some (i, clear_bit_from 8 byte 0)
      else find_clear bytes (i + 1)
  end.

Fixpoint bit_alloc_loop (fuel : nat) (c : C) (bitmap_start zone : Z) : res (C * Z) :=
  match fuel with
  | O => Val (c, 0)
  | S fuel =>
      '(c, buf) ← get_block c (bitmap_start + zone);
      if buf =? 0 then Val (c, 0)
      else
        block ← lift (buf_data c buf);
        bytes ← lift (rd_range block 0 MINIX_V1_ZONE_SIZE);
        match find_clear bytes 0 with
        | Some (i, bit) =>
            byte ← lift (rd block i);
            b ← lift (store_char block i (Z.lor byte (Z.shiftl 1 bit)));
            c ← set_buf_data c buf b;
            '(c, _) ← release_block c buf BF_DIRTY;
            Val (c, bit + i * 8 + zone * MINIX_V1_ZONE_SIZE * 8)
        | None =>
            '(c, _) ← release_block c buf 0;
            bit_alloc_loop fuel c bitmap_start (zone + 1)
        end
  end.

Definition bit_alloc (c : C) (bitmap_start bitmap_size near : Z) : res (C * Z) :=
  bit_alloc_loop (Z.to_nat bitmap_size) c bitmap_start 0.

Definition bit_free (c : C) (bitmap_start bitnum : Z) : res (C * Z) :=
  let zone := u32 (Z.quot (Z.shiftr bitnum 3) MINIX_V1_ZONE_SIZE) in
  let i := Z.shiftr bitnum 3 in
  let bit := Z.land bitnum 7 in
  '(c, buf) ← get_block c (u32 (bitmap_start + zone));
  if buf =? 0 then Val (c, -1)
  else
    block ← lift (buf_data c buf);
    byte ← lift (rd block i);
    b ← lift (store_char block i (Z.land byte (Z.lnot (Z.shiftl 1 bit))));
    c ← set_buf_data c buf b;
    '(c, _) ← release_block c buf BF_DIRTY;
    Val (c, 0).
End bitmaps.

(** ** Bitmaps as arrays of bits *)

(** The [size] blocks from [start] on hold the bytes [l]. *)
Definition bitmap_is (d : gmap Z (list Z)) (start : Z) (size : nat) (l : list Z) : Prop :=
  words_ok 8 l ∧ length l = (size * 1024)%nat ∧
  ∀ k, (k < size)%nat → d !! (start + Z.of_nat k) = Some (slice l (k * 1024) 1024).

Lemma clear_bit_from_spec byte : ∀ fuel bit, 0 ≤ bit → bit + Z.of_nat fuel = 8 →
  (∃ j, bit ≤ j < 8 ∧ Z.testbit byte j = false) →
  let r := clear_bit_from fuel byte bit in
  bit ≤ r < 8 ∧ Z.testbit byte r = false ∧ ∀ j, bit ≤ j < r → Z.testbit byte j = true.
Proof.
  induction fuel as [|fuel IH]; intros bit Hb Hf (j & Hj & Hbj); [lia|]. simpl.
  destruct (Z.ltb_spec bit 8); [|lia]. simpl.
  rewrite Z.shiftl_mul_pow2, Z.mul_1_l, Z.land_comm, land_pow2_test, negb_involutive by lia.
  destruct (Z.testbit byte bit) eqn:E.
  - destruct (IH (bit + 1)) as (H1 & H2 & H3); [lia|lia|exists j; split; [|done]|].
    { destruct (decide (j = bit)); [congruence|lia]. }
    split; [lia|]. split; [done|]. intros k Hk. destruct (decide (k = bit)) as [->|]; [done|].
    apply H3. lia.
  - split; [lia|]. split; [done|]. lia.
Qed.

(** The complement of a byte, as a char, is zero for 255 only. *)
Lemma byte_full byte : 0 ≤ byte < 256 → (s8 (Z.lnot byte) =? 0) = (byte =? 255).
Proof.
  intros Hb. unfold s8, swrap, Z.lnot. change (2 ^ 8) with 256. change (2 ^ (8 - 1)) with 128.
  destruct (Z.eqb_spec byte 255) as [->|Hne]; [done|]. apply Z.eqb_neq.
  intros E. assert ((Z.pred (- byte) + 128) mod 256 = 128) as E' by lia.
  pose proof (Z.div_mod (Z.pred (- byte) + 128) 256 ltac:(lia)). lia.
Qed.

Lemma byte_clear byte : 0 ≤ byte < 256 → byte ≠ 255 → ∃ j, 0 ≤ j < 8 ∧ Z.testbit byte j = false.
Proof.
  intros Hb Hne. destruct (decide (Forall (λ j, Z.testbit byte (Z.of_nat j) = true) (seq 0 8))) as [Hall|Hno].
  - destruct Hne. apply (word_all_ones 8); [lia|done|]. intros j Hj.
    rewrite Forall_forall in Hall. rewrite <- (Z2Nat.id j) by lia. apply Hall, elem_of_seq. lia.
  - apply not_Forall_Exists in Hno; [|apply _]. apply Exists_exists in Hno as (j & Hj & Hbj).
    apply elem_of_seq in Hj. exists (Z.of_nat j). split; [lia|]. by apply not_true_is_false.
Qed.

Lemma next_byte m : ((m + 8) / 8 = S (m / 8) ∧ (m + 8) mod 8 = m mod 8)%nat.
Proof.
  replace (m + 8)%nat with (m + 1 * 8)%nat by lia. rewrite Nat.div_add, Nat.Div0.mod_add by lia. lia.
Qed.

Lemma bit_at_cons b l j :
  bit_at 8 (b :: l) j = if (j <? 8)%nat then Z.testbit b (Z.of_nat j) else bit_at 8 l (j - 8).
Proof.
  unfold bit_at. destruct (Nat.ltb_spec j 8).
  - by rewrite Nat.div_small, Nat.mod_small by lia.
  - assert (∃ k, j = (k + 8)%nat) as [k ->] by (exists (j - 8)%nat; lia).
    destruct (next_byte k) as [-> ->]. by replace (k + 8 - 8)%nat with k by lia.
Qed.

Lemma find_clear_spec bytes : words_ok 8 bytes → ∀ i,
  match find_clear bytes i with
  | None => ∀ j, (j < length bytes * 8)%nat → bit_at 8 bytes j = true
  | Some (k, bit) => ∃ m, (m < length bytes * 8)%nat ∧ k = i + Z.of_nat (m / 8) ∧
      bit = Z.of_nat (m mod 8) ∧ bit_at 8 bytes m = false ∧
      ∀ j, (j < m)%nat → bit_at 8 bytes j = true
  end.
Proof.
  induction 1 as [|byte bytes Hb Hbs IH]; intros i; cbn [find_clear length]; [lia|]. change (2 ^ Z.of_nat 8) with 256 in Hb.
  rewrite byte_full by done. destruct (Z.eqb_spec byte 255) as [->|Hne]; cbn [negb].
  - assert (H255 : ∀ j, (j < 8)%nat → Z.testbit 255 (Z.of_nat j) = true).
    { intros j Hj. apply (word_all_ones 8 255); lia || done. }
    specialize (IH (i + 1)). destruct (find_clear bytes (i + 1)) as [[k bit]|].
    + destruct IH as (m & Hm & -> & -> & Hc & Hlow). exists (m + 8)%nat.
      destruct (next_byte m) as [-> ->]. rewrite bit_at_cons.
      destruct (Nat.ltb_spec (m + 8) 8); [lia|]. split; [lia|]. split; [lia|].
      split; [done|]. split; [by replace (m + 8 - 8)%nat with m by lia|].
      intros j Hj. rewrite bit_at_cons. destruct (Nat.ltb_spec j 8); [auto|apply Hlow; lia].
    + intros j Hj. rewrite bit_at_cons. destruct (Nat.ltb_spec j 8); [auto|apply IH; lia].
  - destruct (clear_bit_from_spec byte 8 0 ltac:(lia) ltac:(lia) (byte_clear byte Hb Hne)) as (H1 & H2 & H3).
    set (r := clear_bit_from 8 byte 0) in *. exists (Z.to_nat r).
    rewrite Nat.div_small, Nat.mod_small, bit_at_cons by lia.
    destruct (Nat.ltb_spec (Z.to_nat r) 8); [|lia]. rewrite Z2Nat.id by lia.
    split_and!; try done; try lia. intros j Hj. rewrite bit_at_cons.
    destruct (Nat.ltb_spec j 8); [|lia]. apply H3. lia.
Qed.

(** The bit of a number within its block. *)
Lemma bit_at_slice l z m : (m < (1024 * 8))%nat →
  bit_at 8 (slice l (z * 1024) 1024) m = bit_at 8 l (z * (1024 * 8) + m).
Proof.
  intros Hm. unfold bit_at. rewrite lookup_slice.
  replace (z * (1024 * 8) + m)%nat with (m + (z * 1024) * 8)%nat by lia.
  rewrite Nat.div_add, Nat.Div0.mod_add by lia.
  assert (m / 8 < 1024)%nat by (apply Nat.Div0.div_lt_upper_bound; lia).
  destruct (Nat.ltb_spec (m / 8) 1024); [|lia]. by rewrite Nat.add_comm.
Qed.

Lemma slice_alter_in {A} (f : A → A) l i n j : (j < n)%nat →
  slice (alter f (i + j)%nat l) i n = alter f j (slice l i n).
Proof.
  intros Hj. apply list_eq. intros k. rewrite lookup_slice.
  destruct (decide (k = j)) as [->|Hne].
  - rewrite !list_lookup_alter_eq, lookup_slice. by destruct (Nat.ltb_spec j n); [|lia].
  - rewrite !list_lookup_alter_ne, lookup_slice by lia. done.
Qed.

Lemma slice_alter_out {A} (f : A → A) l i n j : (j < i ∨ i + n ≤ j)%nat →
  slice (alter f j l) i n = slice l i n.
Proof.
  intros Hj. apply list_eq. intros k. rewrite !lookup_slice.
  destruct (Nat.ltb_spec k n); [|done]. by rewrite list_lookup_alter_ne by lia.
Qed.

Section update.
Context (f : nat → Z → Z).

(** Changing the byte of one bit changes one block of the bitmap. *)
Lemma slice_bit_byte (l : list Z) z m k : (m < (1024 * 8))%nat →
  slice (alter (f (m mod 8)) ((z * (1024 * 8) + m) / 8)%nat l) (k * 1024) 1024 =
  if bool_decide (k = z) then alter (f (m mod 8)) (m / 8)%nat (slice l (z * 1024) 1024)
  else slice l (k * 1024) 1024.
Proof.
  intros Hm. assert (m / 8 < 1024)%nat by (apply Nat.Div0.div_lt_upper_bound; lia).
  replace (z * (1024 * 8) + m)%nat with (m + (z * 1024) * 8)%nat by lia.
  rewrite Nat.div_add, Nat.add_comm by lia. case_bool_decide as E.
  - subst k. by apply slice_alter_in.
  - apply slice_alter_out. destruct (decide (k < z)%nat); lia.
Qed.
End update.

Lemma bit_index z m : (m < (1024 * 8))%nat → ((z * (1024 * 8) + m) mod 8 = m mod 8)%nat.
Proof.
  intros. replace (z * (1024 * 8) + m)%nat with (m + (z * 1024) * 8)%nat by lia. apply Nat.Div0.mod_add.
Qed.

(** A block of a bitmap with one bit changed is the bitmap with it changed. *)
Lemma bitmap_is_set d start size l z m :
  bitmap_is d start size l → (z < size)%nat → (m < (1024 * 8))%nat →
  bitmap_is (<[start + Z.of_nat z := set_bit 8 (slice l (z * 1024) 1024) m]> d) start size
    (set_bit 8 l (z * (1024 * 8) + m)).
Proof.
  intros (Hw & Hl & Hd) Hz Hm. split; [by apply words_ok_set; [lia|]|].
  split; [by rewrite length_set_bit|]. intros k Hk. unfold set_bit at 2. rewrite bit_index by done.
  rewrite (slice_bit_byte (λ b w, Z.lor w (2 ^ Z.of_nat b)) l z m k Hm). case_bool_decide as E.
  - subst k. by rewrite lookup_insert_eq.
  - rewrite lookup_insert_ne by lia. auto.
Qed.

Lemma bitmap_is_clear d start size l z m :
  bitmap_is d start size l → (z < size)%nat → (m < (1024 * 8))%nat →
  bitmap_is (<[start + Z.of_nat z := clear_bit 8 (slice l (z * 1024) 1024) m]> d) start size
    (clear_bit 8 l (z * (1024 * 8) + m)).
Proof.
  intros (Hw & Hl & Hd) Hz Hm. split; [by apply words_ok_clear; [lia|]|].
  split; [by rewrite length_clear_bit|]. intros k Hk. unfold clear_bit at 2. rewrite bit_index by done.
  rewrite (slice_bit_byte (λ b w, Z.land w (Z.lnot (2 ^ Z.of_nat b))) l z m k Hm). case_bool_decide as E.
  - subst k. by rewrite lookup_insert_eq.
  - rewrite lookup_insert_ne by lia. auto.
Qed.

Lemma words_ok_slice l i n : words_ok 8 l → words_ok 8 (slice l i n).
Proof. intros Hw. unfold slice. by apply Forall_take, Forall_drop. Qed.

Lemma store_bit (l : list Z) m (byte v : Z) f :
  words_ok 8 l → (m < length l * 8)%nat → l !! (m / 8)%nat = Some byte → v = f byte → 0 ≤ v < 256 →
  rd l (Z.of_nat (m / 8)) = Some byte ∧
  store_char l (Z.of_nat (m / 8)) v = Some (alter f (m / 8)%nat l).
Proof.
  intros Hw Hm Hb -> Hv. split; [by rewrite rd_nat|]. unfold store_char.
  rewrite u8_small by done. rewrite wr_in_range, Nat2Z.id.
  - f_equal. apply list_eq. intros j. destruct (decide (j = m / 8)%nat) as [->|].
    + rewrite list_lookup_alter_eq, list_lookup_insert_eq by (by eapply lookup_lt_Some). by rewrite Hb.
    + by rewrite list_lookup_alter_ne, list_lookup_insert_ne by done.
  - apply lookup_lt_Some in Hb. lia.
Qed.

Section laws.
Context {C : Type} `{BlockStore C} {nb : nat} `{!StoreLaws C 1024 nb}.

(** The blocks of a bitmap can be got and are not being changed. *)
Definition bitmap_free (start : Z) (size : nat) (W : gset Z) : Prop :=
  0 < start ∧ start + Z.of_nat size ≤ Z.of_nat nb ∧
  ∀ k, (k < size)%nat → start + Z.of_nat k ∉ W.

(** What bit_alloc does to a bitmap: the first clear bit is set, or there is none. *)
Definition bit_alloc_result (d : gmap Z (list Z)) (held : list (Z * Z)) (W own : gset Z) (start : Z)
    (size : nat) (l : list Z) (r : C * Z) : Prop :=
  let '(c', bit) := r in
  (bit = 0 ∧ (∀ i, (i < length l * 8)%nat → bit_at 8 l i = true) ∧ store_rel c' d held W own) ∨
  (∃ i d', bit = Z.of_nat i ∧ (i < length l * 8)%nat ∧ bit_at 8 l i = false ∧
     (∀ j, (j < i)%nat → bit_at 8 l j = true) ∧
     store_rel c' d' held W own ∧ bitmap_is d' start size (set_bit 8 l i) ∧
     ∀ n, (n < start ∨ start + Z.of_nat size ≤ n) → d' !! n = d !! n).

Lemma bit_alloc_loop_ok d held W own start size l : ∀ fuel c zone,
  store_rel c d held W own → zlen held < 100 → bitmap_is d start size l → bitmap_free start size W →
  (zone + fuel = size)%nat → (∀ j, (j < zone * (1024 * 8))%nat → bit_at 8 l j = true) →
  wp (bit_alloc_loop fuel c start (Z.of_nat zone)) store_oom (bit_alloc_result d held W own start size l).
Proof.
  induction fuel as [|fuel IH]; intros c zone Hr Hh Hbm Hfree Hf Hlow; cbn [bit_alloc_loop].
  { left. pose proof Hbm as (_ & Hl & _). split; [done|]. split; [|done]. intros i Hi. apply Hlow. lia. }
  pose proof Hbm as (Hw & Hl & Hd). destruct Hfree as (Hs0 & Hsz & HW).
  eapply wp_get; [done|lia|done|]. intros c1 b x Hb Hx Hxl Hbd Hr1.
  rewrite Hd in Hx by lia. injection Hx as <-. destruct (Z.eqb_spec b 0); [done|].
  rewrite Hbd. res_simpl. set (x := slice l (zone * 1024) 1024) in *.
  rewrite rd_range_ok by (unfold MINIX_V1_ZONE_SIZE; lia). res_simpl.
  change (Z.to_nat 0) with 0%nat. change (Z.to_nat MINIX_V1_ZONE_SIZE) with 1024%nat.
  assert (slice x 0 1024 = x) as -> by (unfold slice at 1; rewrite drop_0, take_ge; [done|lia]).
  assert (Hwx : words_ok 8 x) by (by apply words_ok_slice).
  pose proof (find_clear_spec x Hwx 0) as Hfind. destruct (find_clear x 0) as [[k bit]|].
  - destruct Hfind as (m & Hm & -> & -> & Hc & Hlow'). rewrite Z.add_0_l.
    destruct (word_exists 8 ltac:(lia) x m Hm) as [byte Hbyte].
    assert (Hv : 0 ≤ Z.lor byte (2 ^ Z.of_nat (m mod 8)) < 256).
    { apply (word_set_range 8); [pose proof (Nat.mod_upper_bound m 8); lia|].
      by apply (Forall_lookup_1 _ _ _ _ Hwx Hbyte). }
    destruct (store_bit x m byte _ (λ w, Z.lor w (2 ^ Z.of_nat (m mod 8))) Hwx Hm Hbyte eq_refl Hv)
      as [Hrd Hst]. rewrite Hrd. res_simpl.
    rewrite Z.shiftl_mul_pow2, Z.mul_1_l, Hst by lia. res_simpl.
    eapply wp_put_release; [done|done|by apply HW; lia| |].
    { by rewrite length_alter. }
    intros c2 Hr2. right. exists (zone * (1024 * 8) + m)%nat.
    eexists. split; [|split; [lia|]].
    { unfold MINIX_V1_ZONE_SIZE. pose proof (Nat.div_mod m 8). lia. }
    rewrite <- bit_at_slice by lia. split; [done|]. split; [|split; [exact Hr2|split]].
    + intros j Hj. destruct (decide (j < zone * (1024 * 8))%nat); [auto|].
      replace j with (zone * (1024 * 8) + (j - zone * (1024 * 8)))%nat by lia.
      rewrite <- bit_at_slice by lia. apply Hlow'. lia.
    + apply bitmap_is_set; [done|lia|lia].
    + intros n' Hn'. rewrite lookup_insert_ne by lia. done.
  - eapply wp_release; [done|done|by apply HW; lia|]. intros c2 _ Hr2.
    replace (Z.of_nat zone + 1) with (Z.of_nat (S zone)) by lia.
    apply IH; try done; [lia|]. intros j Hj. destruct (decide (j < zone * (1024 * 8))%nat); [auto|].
    replace j with (zone * (1024 * 8) + (j - zone * (1024 * 8)))%nat by lia.
    rewrite <- bit_at_slice by lia. apply Hfind. lia.
Qed.

Lemma bit_alloc_ok c d held W own start size l near :
  store_rel c d held W own → zlen held < 100 → bitmap_is d start size l → bitmap_free start size W →
  wp (bit_alloc c start (Z.of_nat size) near) store_oom (bit_alloc_result d held W own start size l).
Proof.
  intros Hr Hh Hbm Hfree. unfold bit_alloc. rewrite Nat2Z.id.
  apply (bit_alloc_loop_ok d held W own start size l size c 0%nat); try done. lia.
Qed.

(** bit_free clears the bit; it indexes the block with the number of the byte
    in the whole bitmap, so that the bit has to be in the first block. *)
Lemma bit_free_ok c d held W own start size l (i : nat) :
  store_rel c d held W own → zlen held < 100 → bitmap_is d start size l → bitmap_free start size W →
  (0 < size)%nat → (i < 1024 * 8)%nat → Z.of_nat nb < 2 ^ 31 →
  wp (bit_free c start (Z.of_nat i)) store_oom (λ '(c', r), r = 0 ∧ ∃ d',
    store_rel c' d' held W own ∧ bitmap_is d' start size (clear_bit 8 l i) ∧
    ∀ n, (n < start ∨ start + Z.of_nat size ≤ n) → d' !! n = d !! n).
Proof.
  intros Hr Hh Hbm Hfree Hsize Hi Hnb. pose proof Hbm as (Hw & Hl & Hd). destruct Hfree as (Hs0 & Hsz & HW).
  assert (Hbyte : Z.shiftr (Z.of_nat i) 3 = Z.of_nat (i / 8)).
  { rewrite Z.shiftr_div_pow2, Nat2Z.inj_div by lia. done. }
  assert (Hbit : Z.land (Z.of_nat i) 7 = Z.of_nat (i mod 8)).
  { change 7 with (Z.ones 3). rewrite Z.land_ones, Nat2Z.inj_mod by lia. done. }
  assert (Hi8 : (i / 8 < 1024)%nat) by (apply Nat.Div0.div_lt_upper_bound; lia).
  unfold bit_free. rewrite Hbyte, Hbit. unfold MINIX_V1_ZONE_SIZE. rewrite Z.quot_small by lia.
  change (u32 0) with 0. rewrite Z.add_0_r, u32_small by lia.
  eapply wp_get; [done|lia|done|]. intros c1 b x Hb Hx Hxl Hbd Hr1.
  pose proof (Hd 0%nat ltac:(lia)) as Hx0. simpl Z.of_nat in Hx0. rewrite Z.add_0_r in Hx0.
  rewrite Hx in Hx0. injection Hx0 as ->. destruct (Z.eqb_spec b 0); [done|].
  rewrite Hbd. res_simpl. set (x := slice l 0 1024) in *.
  assert (Hwx : words_ok 8 x) by (by apply words_ok_slice).
  destruct (word_exists 8 ltac:(lia) x i ltac:(lia)) as [byte Hbt].
  assert (Hv : 0 ≤ Z.land byte (Z.lnot (2 ^ Z.of_nat (i mod 8))) < 256).
  { apply (word_clear_range 8); [pose proof (Nat.mod_upper_bound i 8); lia|].
    by apply (Forall_lookup_1 _ _ _ _ Hwx Hbt). }
  destruct (store_bit x i byte _ (λ w, Z.land w (Z.lnot (2 ^ Z.of_nat (i mod 8)))) Hwx ltac:(lia) Hbt eq_refl Hv)
    as [Hrd Hst]. rewrite Hrd. res_simpl.
  rewrite Z.shiftl_mul_pow2, Z.mul_1_l, Hst by lia. res_simpl.
  pose proof (HW 0%nat ltac:(lia)) as HW0. simpl Z.of_nat in HW0. rewrite Z.add_0_r in HW0.
  eapply wp_put_release; [done|done|done|by rewrite length_alter|]. intros c2 Hr2.
  split; [done|]. eexists. split; [exact Hr2|]. split.
  - pose proof (bitmap_is_clear d start size l 0 i Hbm ltac:(lia) ltac:(lia)) as Hc.
    simpl Z.of_nat in Hc. rewrite Z.add_0_r in Hc. exact Hc.
  - intros n' Hn'. rewrite lookup_insert_ne by lia. done.
Qed.
End laws.

(** ** Initialising a bitmap *)

(** The bits of a mask and of its complement, as they are in memory. *)
Lemma bit_mask_bits k j : 0 ≤ k < 8 → 0 ≤ j < 8 →
  Z.testbit (u8 (bit_mask k)) j = (j <? k) ∧ Z.testbit (u8 (Z.lnot (bit_mask k))) j = (k <=? j).
Proof.
  intros Hk Hj.
  assert (Hall : forallb (λ k, forallb (λ j,
    eqb (Z.testbit (u8 (bit_mask (Z.of_nat k))) (Z.of_nat j)) (Z.of_nat j <? Z.of_nat k) &&
    eqb (Z.testbit (u8 (Z.lnot (bit_mask (Z.of_nat k)))) (Z.of_nat j)) (Z.of_nat k <=? Z.of_nat j))
    (seq 0 8)) (seq 0 8) = true) by (vm_compute; done).
  rewrite forallb_forall in Hall. specialize (Hall (Z.to_nat k)).
  rewrite <- list_elem_of_In, elem_of_seq, forallb_forall in Hall. specialize (Hall ltac:(lia) (Z.to_nat j)).
  rewrite <- list_elem_of_In, elem_of_seq, !Z2Nat.id, andb_true_iff, !eqb_true_iff in Hall by lia.
  apply Hall. lia.
Qed.

Lemma lookup_splice_replicate (l : list Z) i n v k :
  (i + n ≤ length l)%nat →
  splice l i (replicate n v) !! k =
    if bool_decide (i ≤ k < i + n)%nat then Some v else l !! k.
Proof.
  intros Hl. rewrite lookup_splice, length_replicate by (by rewrite length_replicate).
  case_bool_decide as E; destruct (Nat.ltb_spec k i), (Nat.ltb_spec k (i + n)); try lia; try done.
  by rewrite lookup_replicate_2 by lia.
Qed.

Lemma byte_index (i n : nat) : (i / 8 < n / 8 → i < n)%nat ∧ (n / 8 < i / 8 → n ≤ i)%nat ∧
  (i / 8 = n / 8 → (n mod 8 ≤ i mod 8 ↔ n ≤ i))%nat.
Proof.
  pose proof (Nat.div_mod i 8). pose proof (Nat.div_mod n 8).
  pose proof (Nat.mod_upper_bound i 8). pose proof (Nat.mod_upper_bound n 8). lia.
Qed.

Lemma last_block_ok block (n : nat) : length block = 1024%nat → (n < 1024 * 8)%nat →
  ∃ b, last_block block (Z.of_nat n) = Some b ∧ length b = 1024%nat ∧
    ∀ i, (i < 1024)%nat → b !! i = Some
      (if (i <? n / 8)%nat then 0
       else if (i =? n / 8)%nat && negb (n mod 8 =? 0)%nat then u8 (Z.lnot (bit_mask (Z.of_nat (n mod 8))))
       else 255).
Proof.
  intros Hl Hn. unfold last_block.
  assert (Hbits : Z.land (Z.of_nat n) 7 = Z.of_nat (n mod 8)).
  { change 7 with (Z.ones 3). rewrite Z.land_ones, Nat2Z.inj_mod by lia. done. }
  assert (Hbytes : Z.shiftr (Z.of_nat n) 3 = Z.of_nat (n / 8)).
  { rewrite Z.shiftr_div_pow2, Nat2Z.inj_div by lia. done. }
  rewrite Hbits, Hbytes. assert (Hi8 : (n / 8 < 1024)%nat) by (apply Nat.Div0.div_lt_upper_bound; lia).
  set (q := (n / 8)%nat) in *. set (r := (n mod 8)%nat) in *. clearbody q r. unfold MINIX_V1_ZONE_SIZE.
  destruct (Z.eqb_spec (Z.of_nat r) 0) as [Hr|Hr].
  - rewrite Z.add_0_r, Nat2Z.id. replace (Z.to_nat (1024 - Z.of_nat q)) with (1024 - q)%nat by lia.
    rewrite wr_range_ok by (rewrite ?length_replicate; lia). cbn [mbind option_bind].
    assert (Hl0 : length (splice block (Z.to_nat 0) (replicate q 0)) = 1024%nat)
      by (rewrite length_splice; [done|rewrite length_replicate; lia]).
    rewrite wr_range_ok by (rewrite ?Hl0, ?length_replicate; lia).
    eexists. split; [done|]. split; [rewrite length_splice; [done|rewrite Hl0, length_replicate; lia]|].
    intros i Hi. rewrite Nat2Z.id, lookup_splice_replicate, lookup_splice_replicate by (rewrite ?Hl0; lia).
    replace (r =? 0)%nat with true by (symmetry; apply Nat.eqb_eq; lia). rewrite andb_false_r.
    destruct (Nat.ltb_spec i q); [|rewrite bool_decide_true by lia; done].
    rewrite bool_decide_false, bool_decide_true by lia. done.
  - replace (Z.to_nat (Z.of_nat q + 1)) with (S q) by lia.
    replace (Z.to_nat (1024 - (Z.of_nat q + 1))) with (1024 - S q)%nat by lia.
    rewrite wr_range_ok by (rewrite ?length_replicate; lia). cbn [mbind option_bind].
    assert (Hl0 : length (splice block (Z.to_nat 0) (replicate (S q) 0)) = 1024%nat)
      by (rewrite length_splice; [done|rewrite length_replicate; lia]).
    unfold store_char. replace (Z.of_nat q + 1 - 1) with (Z.of_nat q) by lia.
    rewrite wr_in_range by (rewrite ?Hl0; lia). cbn [mbind option_bind].
    rewrite wr_range_ok by (rewrite ?length_insert, ?Hl0, ?length_replicate; lia).
    eexists. split; [done|]. split; [rewrite length_splice, length_insert; [done|rewrite length_insert, Hl0, length_replicate; lia]|].
    intros i Hi. replace (Z.to_nat (Z.of_nat q + 1)) with (S q) by lia.
    rewrite lookup_splice_replicate by (rewrite length_insert, Hl0; lia).
    replace (r =? 0)%nat with false by (symmetry; apply Nat.eqb_neq; lia). rewrite Nat2Z.id, andb_true_r.
    destruct (Nat.ltb_spec i q), (Nat.eqb_spec i q); try lia.
    + rewrite bool_decide_false, list_lookup_insert_ne, lookup_splice_replicate, bool_decide_true by lia. done.
    + subst i. rewrite bool_decide_false, list_lookup_insert_eq by lia. done.
    + rewrite bool_decide_true by lia. done.
Qed.

Section init.
Context {C : Type} `{BlockStore C} {nb : nat} `{!StoreLaws C 1024 nb}.

Lemma u8_word v : 0 ≤ u8 v < 2 ^ Z.of_nat 8.
Proof. apply uwrap_range. lia. Qed.

(** The bytes bitmap_init leaves in a bitmap of one block. *)
Lemma init_bits l (n r : nat) : length l = 1024%nat → (r / 8 < n / 8)%nat → (n < 1024 * 8)%nat →
  (∀ i, (i < 1024)%nat → l !! i = Some
    (if (i <? r / 8)%nat then 255
     else if (i =? r / 8)%nat then u8 (bit_mask (Z.of_nat (r mod 8)))
     else if (i <? n / 8)%nat then 0
     else if (i =? n / 8)%nat && negb (n mod 8 =? 0)%nat then u8 (Z.lnot (bit_mask (Z.of_nat (n mod 8))))
     else 255)) →
  words_ok 8 l ∧ ∀ i, (i < 1024 * 8)%nat → bit_at 8 l i = (i <? r)%nat || (n <=? i)%nat.
Proof.
  intros Hl Hrn Hn Hb. split.
  - apply Forall_lookup. intros i w Hi. pose proof (lookup_lt_Some _ _ _ Hi). rewrite Hb in Hi by lia.
    injection Hi as <-. repeat zif; try apply u8_word; change (2 ^ Z.of_nat 8) with 256; lia.
  - intros i Hi. unfold bit_at. rewrite Hb by (apply Nat.Div0.div_lt_upper_bound; lia).
    pose proof (Nat.mod_upper_bound i 8 ltac:(lia)). pose proof (Nat.mod_upper_bound r 8 ltac:(lia)).
    pose proof (Nat.mod_upper_bound n 8 ltac:(lia)).
    destruct (byte_index i r) as (R1 & R2 & R3), (byte_index i n) as (N1 & N2 & N3).
    assert (H255 : Z.testbit 255 (Z.of_nat (i mod 8)) = true) by (apply (word_all_ones 8 255); lia || done).
    destruct (bit_mask_bits (Z.of_nat (r mod 8)) (Z.of_nat (i mod 8))) as [Er _]; [lia..|].
    destruct (bit_mask_bits (Z.of_nat (n mod 8)) (Z.of_nat (i mod 8))) as [_ En]; [lia..|].
    destruct (Nat.ltb_spec (i / 8) (r / 8)); [rewrite H255; lia|].
    destruct (Nat.eqb_spec (i / 8) (r / 8)); [rewrite Er; lia|].
    destruct (Nat.ltb_spec (i / 8) (n / 8)); [rewrite Z.bits_0; lia|].
    destruct (Nat.eqb_spec (i / 8) (n / 8)); cbn [andb]; [|rewrite H255; lia].
    destruct (Nat.eqb_spec (n mod 8) 0); cbn [negb]; [rewrite H255|rewrite En]; lia.
Qed.

(** A bitmap of one block, initialised for [n] entries of which the first
    [r] are reserved, has exactly the bits from [r] to [n] clear.  The block is
    still held afterwards: the loop leaves it with break, without a release. *)
Lemma bitmap_init_ok c d held W own start (n r : nat) :
  store_rel c d held W own → zlen held < 98 → 0 < start < Z.of_nat nb → start ∉ W →
  (r / 8 < n / 8)%nat → (n < 1024 * 8)%nat →
  wp (bitmap_init c start 1 (Z.of_nat n) (Z.of_nat r)) store_oom (λ '(c', e), e = 0 ∧ ∃ b l,
    store_rel c' (<[start := l]> d) ((b, start) :: held) W own ∧
    bitmap_is (<[start := l]> d) start 1 l ∧
    ∀ i, (i < 1024 * 8)%nat → bit_at 8 l i = (i <? r)%nat || (n <=? i)%nat).
Proof.
  intros Hr Hh Hs HW Hrn Hn. unfold bitmap_init. change (Z.to_nat 1) with 1%nat. cbn [bitmap_clear].
  unfold MINIX_V1_BITS_PER_ZONE, MINIX_V1_ZONE_SIZE. destruct (Z.ltb_spec (Z.of_nat n) (1024 * 8)); [|lia].
  apply wp_bind. eapply wp_get; [done|done|lia|]. intros c1 b x Hb Hx Hxl Hbd Hr1.
  destruct (Z.eqb_spec b 0); [done|]. rewrite Hbd. res_simpl.
  destruct (last_block_ok x n Hxl Hn) as (y & -> & Hyl & Hy). res_simpl.
  eapply wp_put; [done|held_here|done|]. intros c2 _ Hr2. cbn [wp negb]. clear Hb Hbd Hr1.
  eapply wp_get; [done|done|rewrite length_cons; lia|]. intros c3 b2 z Hb Hz _ Hbd Hr3.
  rewrite lookup_insert_eq in Hz. injection Hz as <-.
  destruct (Z.eqb_spec b2 0); [done|]. rewrite Hbd. res_simpl.
  assert (Hbits : Z.land (Z.of_nat r) 7 = Z.of_nat (r mod 8)).
  { change 7 with (Z.ones 3). rewrite Z.land_ones, Nat2Z.inj_mod by lia. done. }
  assert (Hbytes : Z.shiftr (Z.of_nat r) 3 = Z.of_nat (r / 8)).
  { rewrite Z.shiftr_div_pow2, Nat2Z.inj_div by lia. done. }
  rewrite Hbits, Hbytes, Nat2Z.id. assert (Hi8 : (n / 8 < 1024)%nat) by (apply Nat.Div0.div_lt_upper_bound; lia).
  rewrite wr_range_ok by (rewrite ?length_replicate; lia). res_simpl.
  change (Z.to_nat 0) with 0%nat. set (y1 := splice y 0 (replicate (r / 8) 255)).
  assert (Hl1 : length y1 = 1024%nat) by (unfold y1; rewrite length_splice; [done|rewrite length_replicate; lia]).
  unfold store_char. rewrite wr_in_range by (rewrite Hl1; lia). res_simpl. rewrite Nat2Z.id.
  eapply wp_put; [done|held_here|by rewrite length_insert|]. intros c4 _ Hr4.
  eapply wp_release_dirty; [exact Hr4|rewrite length_cons; lia|]. intros c5 Hr5. cbn [wp].
  split; [done|]. rewrite insert_insert_eq in Hr5.
  rewrite union_assoc_L, union_idemp_L, marked in Hr5 by done.
  eexists _, _. split; [exact Hr5|].
  edestruct (init_bits (<[(r / 8)%nat := u8 (bit_mask (Z.of_nat (r mod 8)))]> y1) n r) as [Hok Hbit];
    [by rewrite length_insert|done|done| |].
  { intros i Hi. destruct (Nat.ltb_spec i (r / 8)).
    - rewrite list_lookup_insert_ne by lia. unfold y1. rewrite lookup_splice_replicate by lia.
      by rewrite bool_decide_true by lia.
    - destruct (Nat.eqb_spec i (r / 8)) as [->|]; [by rewrite list_lookup_insert_eq by lia|].
      rewrite list_lookup_insert_ne by lia. unfold y1. rewrite lookup_splice_replicate by lia.
      rewrite bool_decide_false by lia. auto. }
  split; [|exact Hbit]. split; [done|]. split; [by rewrite length_insert|].
  intros k Hk. replace k with 0%nat by lia. rewrite Z.add_0_r, lookup_insert_eq. f_equal.
  unfold slice. rewrite drop_0, take_ge; [done|]. rewrite length_insert. lia.
Qed.
End init.
