(* ===== verification/Minixzone.v ===== *)
(** * Minixzone: zones of the Minix file system
      (src/kernel/fs/minix/zones.h, minix-v1.h)

    A file finds its data through the nine zone numbers of its inode: seven
    for its first zones, one for a table of zone numbers and one for a table
    of such tables.  Zone numbers are little endian on disk and in the vnode,
    the machine is big endian. *)

From S2P Require Import Prelude Bits Result Blockstore Builtins Minixmap.

Definition htole16 : Z → Z := __bswap_16.
Definition le16toh : Z → Z := __bswap_16.

Definition MINIX_V1_ZONENUMS_PER_ZONE : Z := 512.
Definition MINIX_V1_LOG_ZONENUMS_PER_ZONE : Z := 9.
Definition MINIX_V1_INODE_ZONENUMS : Z := 9.
Definition MINIX_V1_TIER1_ZONENUMS : Z := 7.
Definition MINIX_V1_TOTAL_ZONENUMS : Z := 9.
Definition MINIX_V1_BITMAP_ZONES : Z := 2.
Definition MFS_LOOKUP_ZONE : Z := 0.
Definition MFS_CREATE_ZONE : Z := 1.

Definition S_IFMT : Z := 61440.
Definition S_IFREG : Z := 32768.
Definition S_IFBLK : Z := 24576.
Definition S_IFDIR : Z := 16384.
Definition S_IFCHR : Z := 8192.
Definition S_ISDIR (m : Z) : bool := Z.land m S_IFMT =? S_IFDIR.
Definition S_ISCHR (m : Z) : bool := Z.land m S_IFMT =? S_IFCHR.
Definition S_ISDEV (m : Z) : bool :=
  (Z.land m S_IFMT =? S_IFCHR) || (Z.land m S_IFMT =? S_IFBLK).

Definition VBF_DIRTY : Z := 2.

Record minix_v1_superblock := Superblock {
  num_inodes : Z;
  num_zones : Z;
  imap_blocks : Z;
  zmap_blocks : Z;
  first_zone : Z;
  log_zone_size : Z;
  max_file_size : Z;
  magic : Z;
  state : Z;
}.

Definition MINIX_V1_INODE_BITMAP_START : Z := MINIX_V1_BITMAP_ZONES.
Definition MINIX_V1_ZONE_BITMAP_START (s : minix_v1_superblock) : Z :=
  MINIX_V1_BITMAP_ZONES + imap_blocks s.
Definition MINIX_V1_INODE_TABLE_START (s : minix_v1_superblock) : Z :=
  MINIX_V1_BITMAP_ZONES + imap_blocks s + zmap_blocks s.

(** A vnode with the Minix data that follows it; the operations and the mount
    it points to are those of this file system. *)
Record minix_vnode := Vnode {
  refcount : Z;
  mode : Z;
  nlinks : Z;
  uid : Z;
  gid : Z;
  bits : Z;
  rdev : Z;
  ino : Z;
  size : Z;
  atime : Z;
  mtime : Z;
  ctime : Z;
  zones : list Z;
}.

Definition set_zones (v : minix_vnode) (z : list Z) : minix_vnode :=
  Vnode (refcount v) (mode v) (nlinks v) (uid v) (gid v) (bits v) (rdev v) (ino v) (size v)
    (atime v) (mtime v) (ctime v) z.

Definition set_bits (v : minix_vnode) (b : Z) : minix_vnode :=
  Vnode (refcount v) (mode v) (nlinks v) (uid v) (gid v) b (rdev v) (ino v) (size v)
    (atime v) (mtime v) (ctime v) (zones v).

Definition mark_vnode_dirty (v : minix_vnode) : minix_vnode := set_bits v (Z.lor (bits v) VBF_DIRTY).

(** A uint16_t of the machine in memory: the high byte comes first. *)
Definition rd16 (block : list Z) (i : Z) : option Z :=
  h ← rd block (2 * i); l ← rd block (2 * i + 1); Some (h * 256 + l).
Definition wr16 (block : list Z) (i v : Z) : option (list Z) :=
  wr_range block (2 * i) [Z.shiftr v 8; Z.land v 255].

Section zones.
Context {C : Type} `{BlockStore C} (super : minix_v1_superblock).

Definition minix_alloc_zone (c : C) : res (C * Z) :=
  '(c, bit) ← bit_alloc c (MINIX_V1_ZONE_BITMAP_START super) (zmap_blocks super) 0;
  if bit =? 0 then Val (c, 0)
  else
    let bit := bit + (first_zone super - 1) in
    '(c, buf) ← get_block c bit;
    if buf =? 0 then Val (c, 0)
    else
      block ← lift (buf_data c buf);
      b ← lift (wr_range block 0 (replicate (Z.to_nat MINIX_V1_ZONE_SIZE) 0));
      c ← set_buf_data c buf b;
      '(c, _) ← release_block c buf BF_DIRTY;
      Val (c, bit).

Definition minix_free_zone (c : C) (zonenum : Z) : res C :=
  '(c, _) ← bit_free c (MINIX_V1_ZONE_BITMAP_START super) (s32 (zonenum - first_zone super + 1));
  Val c.

(** The number of tiers and the index in each, or -1. *)
Definition zone_calculate_tier (znum : Z) : Z * list Z :=
  if znum <? MINIX_V1_TIER1_ZONENUMS then (1, [znum])
  else
    let znum := znum - MINIX_V1_TIER1_ZONENUMS in
    if znum <? MINIX_V1_ZONENUMS_PER_ZONE then (2, [MINIX_V1_TIER1_ZONENUMS; znum])
    else
      let znum := znum - MINIX_V1_ZONENUMS_PER_ZONE in
      if znum <? MINIX_V1_ZONENUMS_PER_ZONE * MINIX_V1_ZONENUMS_PER_ZONE then
        (3, [MINIX_V1_TIER1_ZONENUMS + 1; Z.shiftr znum MINIX_V1_LOG_ZONENUMS_PER_ZONE;
             Z.land znum (MINIX_V1_ZONENUMS_PER_ZONE - 1)])
      else (-1, []).

(** The pointer [zone]: into the vnode, or into the table in a buffer. *)
Inductive zone_ptr :=
  | VnodeZone (i : Z)
  | TableZone (buf i : Z).

Definition load_zone (c : C) (v : minix_vnode) (p : zone_ptr) : option Z :=
  match p with
  | VnodeZone i => rd (zones v) i
  | TableZone buf i => block ← buf_data c buf; rd16 block i
  end.

Definition store_zone (c : C) (v : minix_vnode) (p : zone_ptr) (raw : Z) : res (C * minix_vnode) :=
  match p with
  | VnodeZone i => z ← lift (wr (zones v) i raw); Val (c, set_zones v z)
  | TableZone buf i =>
      block ← lift (buf_data c buf); b ← lift (wr16 block i raw);
      c ← set_buf_data c buf b; Val (c, v)
  end.

(** [if (buf) release_block(buf, 0);] and [if (buf) mark_block_dirty(buf);] *)
Definition release_if (c : C) (buf : Z) : res C :=
  if buf =? 0 then Val c else '(c, _) ← release_block c buf 0; Val c.
Definition dirty_if (c : C) (buf : Z) : res C :=
  if buf =? 0 then Val c else mark_block_dirty c buf.

(** [if ( !*zone) { ... }], with [true] when the loop is left. *)
Definition fill_zone (c : C) (v : minix_vnode) (p : zone_ptr) (buf create : Z) :
    res (C * minix_vnode * bool) :=
  raw ← lift (load_zone c v p);
  if raw =? 0 then
    if negb (create =? 0) then
      '(c, zone) ← minix_alloc_zone c;
      '(c, v) ← store_zone c v p (htole16 (u16 zone));
      c ← dirty_if c buf;
      Val (c, v, false)
    else c ← release_if c buf; Val (c, v, true)
  else Val (c, v, false).

(** The loop of zone_lookup: [p] is the pointer of this tier, [tiers] the
    indices of those that follow. *)
Fixpoint zone_walk (c : C) (v : minix_vnode) (tiers : list Z) (p : zone_ptr) (buf create : Z) :
    res (C * minix_vnode * Z) :=
  '(c, v, stop) ← fill_zone c v p buf create;
  if (stop : bool) then Val (c, v, 0)
  else
    match tiers with
    | [] =>
        raw ← lift (load_zone c v p);
        c ← release_if c buf;
        Val (c, v, le16toh raw)
    | t :: tiers =>
        c ← release_if c buf;
        raw ← lift (load_zone c v p);
        '(c, buf) ← get_block c (le16toh raw);
        if buf =? 0 then Val (c, v, 0)
        else zone_walk c v tiers (TableZone buf t) buf create
    end.

Definition zone_lookup (c : C) (v : minix_vnode) (znum create : Z) : res (C * minix_vnode * Z) :=
  match zone_calculate_tier znum with
  | (_, []) => Val (c, v, 0)
  | (_, t :: tiers) => zone_walk c v tiers (VnodeZone t) 0 create
  end.

(** The zones of the file, from [znum] on. *)
Fixpoint free_zones (fuel : nat) (c : C) (v : minix_vnode) (znum : Z) : res (C * minix_vnode) :=
  match fuel with
  | O => Undef
  | S fuel =>
      '(c, v, zone) ← zone_lookup c v znum MFS_LOOKUP_ZONE;
      if zone =? 0 then Val (c, v)
      else c ← minix_free_zone c zone; free_zones fuel c v (znum + 1)
  end.

(** Every zone number that is set among the given ones. *)
Fixpoint free_listed (c : C) (raws : list Z) : res C :=
  match raws with
  | [] => Val c
  | raw :: raws =>
      c ← (if raw =? 0 then Val c else minix_free_zone c (le16toh raw));
      free_listed c raws
  end.

(** The entries of the table in a buffer, read one after the other. *)
Fixpoint free_table (fuel : nat) (c : C) (buf i : Z) : res C :=
  match fuel with
  | O => Val c
  | S fuel =>
      block ← lift (buf_data c buf);
      raw ← lift (rd16 block i);
      c ← (if raw =? 0 then Val c else minix_free_zone c (le16toh raw));
      free_table fuel c buf (i + 1)
  end.

(** More zones than a file can have: 7 + 512 + 512 * 512. *)
Definition max_zones : nat := Z.to_nat 262664.

Definition zone_free_all (c : C) (v : minix_vnode) : res (C * minix_vnode) :=
  if S_ISDEV (mode v) then Val (c, v)
  else
    '(c, v) ← free_zones max_zones c v 0;
    z8 ← lift (rd (zones v) 8);
    c ← (if z8 =? 0 then Val c
         else
           '(c, buf) ← get_block c (le16toh z8);
           if buf =? 0 then Val c
           else
             c ← free_table (Z.to_nat MINIX_V1_ZONENUMS_PER_ZONE) c buf 0;
             '(c, _) ← release_block c buf 0;
             Val c);
    tables ← lift (rd_range (zones v) MINIX_V1_TIER1_ZONENUMS
                     (MINIX_V1_TOTAL_ZONENUMS - MINIX_V1_TIER1_ZONENUMS));
    c ← free_listed c tables;
    z ← lift (wr_range (zones v) 0 (replicate (Z.to_nat MINIX_V1_TOTAL_ZONENUMS) 0));
    Val (c, mark_vnode_dirty (set_zones v z)).
End zones.

(** ** Zone numbers in memory *)

Lemma bswap_16_join a b : byte_ok a → byte_ok b → __bswap_16 (a * 256 + b) = b * 256 + a.
Proof.
  intros Ha Hb. unfold __bswap_16. replace (a * 256 + b) with (0 * 2 ^ 16 + (a * 2 ^ 8 + b)) by lia.
  rewrite rol8_w_join by done. lia.
Qed.

Lemma u16_bytes v : 0 ≤ v < 65536 →
  byte_ok (Z.shiftr v 8) ∧ byte_ok (Z.land v 255) ∧ v = Z.shiftr v 8 * 256 + Z.land v 255.
Proof.
  intros Hv. rewrite Z.shiftr_div_pow2 by lia. change 255 with (Z.ones 8). rewrite Z.land_ones by lia.
  unfold byte_ok. pose proof (Z.div_mod v (2 ^ 8) ltac:(lia)).
  pose proof (Z.mod_pos_bound v (2 ^ 8) ltac:(lia)). lia.
Qed.

Lemma le16_inv v : 0 ≤ v < 65536 →
  0 ≤ __bswap_16 v < 65536 ∧ __bswap_16 (__bswap_16 v) = v ∧ (__bswap_16 v = 0 ↔ v = 0).
Proof.
  intros Hv. destruct (u16_bytes v Hv) as (Hh & Hl & ->).
  set (h := Z.shiftr v 8) in *. set (l := Z.land v 255) in *. clearbody h l.
  rewrite !bswap_16_join by done. unfold byte_ok in *. lia.
Qed.

(** The zone number at index [j] of a table. *)
Definition entry (x : list Z) (j : Z) : Z := default 0 (le16toh <$> rd16 x j).

Lemma rd16_ok x j : length x = 1024%nat → Forall byte_ok x → 0 ≤ j < 512 →
  ∃ raw, rd16 x j = Some raw ∧ 0 ≤ raw < 65536 ∧ entry x j = le16toh raw ∧ 0 ≤ entry x j < 65536 ∧
    (raw = 0 ↔ entry x j = 0).
Proof.
  intros Hl Hb Hj. unfold entry, rd16.
  destruct (rd_in_range x (2 * j)) as [h Hh]; [lia|]. destruct (rd_in_range x (2 * j + 1)) as [w Hw]; [lia|].
  rewrite Hh, Hw. simpl. exists (h * 256 + w).
  assert (Hby : ∀ i y, rd x i = Some y → byte_ok y)
    by (intros i y [_ Hy]%rd_some; by apply (Forall_lookup_1 _ _ _ _ Hb Hy)).
  pose proof (Hby _ _ Hh) as H1. pose proof (Hby _ _ Hw) as H2. unfold byte_ok in H1, H2.
  destruct (le16_inv (h * 256 + w)) as (R1 & R2 & R3); [lia|]. unfold le16toh.
  split_and!; try done; lia.
Qed.

Lemma wr16_ok x j v : length x = 1024%nat → Forall byte_ok x → 0 ≤ j < 512 → 0 ≤ v < 65536 →
  ∃ x', wr16 x j v = Some x' ∧ length x' = 1024%nat ∧ Forall byte_ok x' ∧
    ∀ j', 0 ≤ j' → entry x' j' = if j' =? j then le16toh v else entry x j'.
Proof.
  intros Hl Hb Hj Hv. destruct (u16_bytes v Hv) as (Bh & Bl & Ev). unfold wr16.
  rewrite wr_range_ok by (simpl; lia). eexists. split; [done|].
  set (h := Z.shiftr v 8) in *. set (w := Z.land v 255) in *. clearbody h w.
  split; [rewrite length_splice; simpl; lia|]. split.
  { unfold splice. apply Forall_app. split; [by apply Forall_take|]. apply Forall_app.
    split; [|by apply Forall_drop]. constructor; [done|]. constructor; [done|constructor]. }
  intros j' Hj'. unfold entry, rd16, rd.
  assert (Hlk : ∀ k, splice x (Z.to_nat (2 * j)) [h; w] !! k =
    if (k =? Z.to_nat (2 * j))%nat then Some h else if (k =? S (Z.to_nat (2 * j)))%nat then Some w else x !! k).
  { intros k. rewrite lookup_splice by (simpl; lia). cbn [length].
    destruct (Nat.ltb_spec k (Z.to_nat (2 * j))), (Nat.eqb_spec k (Z.to_nat (2 * j))),
      (Nat.eqb_spec k (S (Z.to_nat (2 * j)))), (Nat.ltb_spec k (Z.to_nat (2 * j) + 2)); try lia; try done.
    - by replace (k - Z.to_nat (2 * j))%nat with 0%nat by lia.
    - by replace (k - Z.to_nat (2 * j))%nat with 1%nat by lia. }
  rewrite !Hlk. destruct (Z.ltb_spec (2 * j') 0), (Z.ltb_spec (2 * j' + 1) 0); try lia.
  destruct (Z.eqb_spec j' j) as [->|Hne].
  - rewrite Nat.eqb_refl. replace (Z.to_nat (2 * j + 1)) with (S (Z.to_nat (2 * j))) by lia.
    rewrite Nat.eqb_refl. destruct (Nat.eqb_spec (S (Z.to_nat (2 * j))) (Z.to_nat (2 * j))); [lia|].
    simpl. by rewrite Ev.
  - destruct (Nat.eqb_spec (Z.to_nat (2 * j')) (Z.to_nat (2 * j))); [lia|].
    destruct (Nat.eqb_spec (Z.to_nat (2 * j')) (S (Z.to_nat (2 * j)))); [lia|].
    destruct (Nat.eqb_spec (Z.to_nat (2 * j' + 1)) (Z.to_nat (2 * j))); [lia|].
    destruct (Nat.eqb_spec (Z.to_nat (2 * j' + 1)) (S (Z.to_nat (2 * j)))); [lia|]. done.
Qed.

Definition zero_block : list Z := replicate (Z.to_nat MINIX_V1_ZONE_SIZE) 0.

Lemma entry_zero j : 0 ≤ j < 512 → entry zero_block j = 0.
Proof.
  intros Hj. unfold entry, rd16, rd, zero_block, MINIX_V1_ZONE_SIZE.
  destruct (Z.ltb_spec (2 * j) 0), (Z.ltb_spec (2 * j + 1) 0); try lia.
  rewrite !lookup_replicate_2 by lia. done.
Qed.

(** ** The tree of zones *)

(** The zone number at the end of a path of indices, the last index first. *)
Fixpoint zp (d : gmap Z (list Z)) (zs : list Z) (p : list Z) : Z :=
  match p with
  | [] => 0
  | j :: p' =>
      match p' with
      | [] => default 0 (le16toh <$> rd zs j)
      | _ =>
          let z := zp d zs p' in
          if z =? 0 then 0 else match d !! z with Some x => entry x j | None => 0 end
      end
  end.

(** The paths the code follows. *)
Definition vpath (p : list Z) : Prop :=
  match p with
  | [i] => 0 ≤ i < 9
  | [j; i] => 0 ≤ j < 512 ∧ (i = 7 ∨ i = 8)
  | [k; j; i] => 0 ≤ k < 512 ∧ 0 ≤ j < 512 ∧ i = 8
  | _ => False
  end.

Lemma vpath_tail j p : vpath (j :: p) → p ≠ [] → vpath p ∧ 0 ≤ j < 512.
Proof. destruct p as [|i [|k [|]]]; simpl; intros; try done; lia. Qed.

Section tree.
Context (d d' : gmap Z (list Z)) (zs zs' : list Z) (p : list Z) (z : Z).
Hypothesis Hz0 : z ≠ 0.
Hypothesis Hempty : zp d zs p = 0.
Hypothesis Hparent : ∀ j q, p = j :: q → q ≠ [] → zp d zs q ≠ 0.
Hypothesis Hroot : ∀ i, vpath [i] → zp d' zs' [i] = if decide ([i] = p) then z else zp d zs [i].
Hypothesis Hfresh : d' !! z = Some zero_block.
Hypothesis Htable : ∀ j q, vpath (j :: q) → q ≠ [] → zp d zs q ≠ 0 →
  ∃ x x', d !! zp d zs q = Some x ∧ d' !! zp d zs q = Some x' ∧
    entry x' j = if decide (j :: q = p) then z else entry x j.

(** Hanging a new, empty zone into the tree changes the tree there only. *)
Lemma zp_hang q : vpath q → zp d' zs' q = if decide (q = p) then z else zp d zs q.
Proof.
  induction q as [|j q IH]; intros Hq; [done|].
  destruct (decide (q = [])) as [->|Hne]; [by apply Hroot|].
  destruct (vpath_tail j q Hq Hne) as [Hq' Hj]. specialize (IH Hq').
  assert (Hzp : ∀ d zs, zp d zs (j :: q) =
    if zp d zs q =? 0 then 0 else match d !! zp d zs q with Some x => entry x j | None => 0 end)
    by (intros; simpl; by destruct q).
  rewrite !Hzp, IH. destruct (decide (q = p)) as [Eqp|Hqp].
  - subst q. rewrite Hempty. destruct (Z.eqb_spec z 0); [done|]. rewrite Hfresh, entry_zero by done.
    destruct (decide (j :: p = p)) as [E|]; [|done]. apply (f_equal length) in E. simpl in E. lia.
  - destruct (Z.eqb_spec (zp d zs q) 0) as [E|E].
    + destruct (decide (j :: q = p)) as [Ep|]; [|done]. by destruct (Hparent j q).
    + destruct (Htable j q Hq Hne E) as (x & x' & -> & -> & ->). by destruct (decide (j :: q = p)).
Qed.
End tree.

(** ** Disks with a zone bitmap *)
Section layout.
Context (super : minix_v1_superblock) (nb zsize : nat).

Record geometry : Prop := {
  ge_start : 0 < MINIX_V1_ZONE_BITMAP_START super;
  ge_map : zmap_blocks super = Z.of_nat zsize;
  ge_first : MINIX_V1_ZONE_BITMAP_START super + Z.of_nat zsize ≤ first_zone super;
  ge_zones : first_zone super ≤ num_zones super ≤ Z.of_nat nb;
  ge_u16 : num_zones super < 65536;
  ge_bits : num_zones super - first_zone super + 1 ≤ Z.of_nat (zsize * (1024 * 8));
  ge_nb : Z.of_nat nb < 2 ^ 31;
}.

Definition data_zone (z : Z) : Prop := first_zone super ≤ z < num_zones super.

(** The blocks outside of the zone bitmap. *)
Definition off_map (n : Z) : Prop :=
  n < MINIX_V1_ZONE_BITMAP_START super ∨ MINIX_V1_ZONE_BITMAP_START super + Z.of_nat zsize ≤ n.

(** The bit of a zone. *)
Definition zbit (z : Z) : nat := Z.to_nat (z - first_zone super + 1).

Record layout (d : gmap Z (list Z)) (l : list Z) : Prop := {
  ly_map : bitmap_is d (MINIX_V1_ZONE_BITMAP_START super) zsize l;
  ly_blocks : ∀ n, 0 < n < Z.of_nat nb → ∃ x, d !! n = Some x ∧ length x = 1024%nat ∧ Forall byte_ok x;
  ly_zero : bit_at 8 l 0 = true;
}.

(** The zones of a file: they are data zones, in use, and nothing is shared. *)
Record zones_ok (d : gmap Z (list Z)) (l : list Z) (zs : list Z) : Prop := {
  zo_len : length zs = 9%nat;
  zo_raw : Forall (λ raw, 0 ≤ raw < 65536) zs;
  zo_used : ∀ p, vpath p → zp d zs p ≠ 0 →
    data_zone (zp d zs p) ∧ bit_at 8 l (zbit (zp d zs p)) = true;
  zo_inj : ∀ p q, vpath p → vpath q → zp d zs p ≠ 0 → zp d zs p = zp d zs q → p = q;
}.

Lemma zbit_inj z z' : data_zone z → data_zone z' → zbit z = zbit z' → z = z'.
Proof. unfold data_zone, zbit. lia. Qed.

Lemma slot_ok zs i : length zs = 9%nat → Forall (λ raw, 0 ≤ raw < 65536) zs → 0 ≤ i < 9 →
  ∃ raw, rd zs i = Some raw ∧ 0 ≤ raw < 65536 ∧
    ∀ d, zp d zs [i] = le16toh raw ∧ (raw = 0 ↔ zp d zs [i] = 0).
Proof.
  intros Hl Hr Hi. destruct (rd_in_range zs i) as [raw Hraw]; [lia|]. exists raw.
  split; [done|]. simpl. rewrite Hraw. simpl.
  apply rd_some in Hraw as [_ Hraw]. pose proof (Forall_lookup_1 _ _ _ _ Hr Hraw) as Hb. simpl in Hb.
  destruct (le16_inv raw Hb) as (H1 & H2 & H3). unfold le16toh. split; [done|]. intros. lia.
Qed.

(** The number of free zones. *)
Definition free_count (l : list Z) : nat := count_clear 8 l (Z.to_nat (num_zones super - first_zone super + 1)).

Section ops.
Context {C : Type} `{BlockStore C} `{!StoreLaws C 1024 nb} (Hgeo : geometry).

Lemma bytes_zero : Forall byte_ok zero_block.
Proof. apply Forall_replicate. unfold byte_ok. lia. Qed.

(** What minix_alloc_zone does: the first free zone, cleared, or nothing. *)
Definition alloc_zone_result (d : gmap Z (list Z)) (l : list Z) (held : list (Z * Z)) (W own : gset Z)
    (r : C * Z) : Prop :=
  let '(c', z) := r in
  (z = 0 ∧ (∀ i, (i < length l * 8)%nat → bit_at 8 l i = true) ∧ store_rel c' d held W own) ∨
  (data_zone z ∧ bit_at 8 l (zbit z) = false ∧ (zbit z < length l * 8)%nat ∧ ∃ d',
    store_rel c' d' held W own ∧ layout d' (set_bit 8 l (zbit z)) ∧ d' !! z = Some zero_block ∧
    ∀ n, off_map n → n ≠ z → d' !! n = d !! n).

Lemma minix_alloc_zone_ok c d l held W own :
  store_rel c d held W own → zlen held < 100 → layout d l →
  (∀ n, n ∈ W → data_zone n ∧ bit_at 8 l (zbit n) = true) →
  (0 < free_count l)%nat ∨ (∀ i, (i < length l * 8)%nat → bit_at 8 l i = true) →
  wp (minix_alloc_zone super c) store_oom (alloc_zone_result d l held W own).
Proof.
  intros Hr Hh Hly HW Hroom. destruct Hgeo as [G1 G2 G3 G4 G5 G7 G6]. unfold minix_alloc_zone. rewrite G2.
  assert (Hfree : bitmap_free (nb := nb) (MINIX_V1_ZONE_BITMAP_START super) zsize W).
  { split; [done|]. split; [lia|]. intros k Hk Hin. apply HW in Hin as [[? ?] _]. lia. }
  wp_step bit_alloc_ok; [done|done|apply (ly_map _ _ Hly)|done|].
  intros [c1 bit] [(-> & Hall & Hr1)|(i & d1 & -> & Hi & Hbit & Hlow & Hr1 & Hbm & Hout)].
  { by left. }
  destruct (Z.eqb_spec (Z.of_nat i) 0) as [E|E].
  { replace i with 0%nat in Hbit by lia. by rewrite (ly_zero _ _ Hly) in Hbit. }
  set (z := Z.of_nat i + (first_zone super - 1)).
  assert (Hz : data_zone z).
  { unfold data_zone, z. split; [lia|].
    destruct Hroom as [Hpos|Hall]; [|by rewrite Hall in Hbit].
    apply (count_clear_pos 8 ltac:(lia)) in Hpos as (j & Hj & Hjb).
    assert (i ≤ j)%nat; [|lia]. destruct (Nat.le_gt_cases i j) as [|Hji]; [done|]. by rewrite Hlow in Hjb. }
  assert (Hzb : zbit z = i) by (unfold zbit, z; lia). unfold data_zone in Hz.
  eapply wp_get; [done|lia|done|]. intros c2 b x Hb Hx Hxl Hbd Hr2.
  destruct (Z.eqb_spec b 0); [done|]. rewrite Hbd. res_simpl. fold zero_block.
  assert (Hzl : length zero_block = 1024%nat) by apply length_replicate.
  rewrite wr_range_ok by (rewrite ?Hzl; lia). res_simpl.
  assert (Hsp : splice x (Z.to_nat 0) zero_block = zero_block).
  { unfold splice. change (Z.to_nat 0) with 0%nat. rewrite take_0, drop_ge, app_nil_r by lia. done. }
  rewrite Hsp. eapply wp_put_release; [done|done| |done|].
  { intros Hin. apply HW in Hin as [_ Hin]. rewrite Hzb in Hin. congruence. }
  intros c3 Hr3. right. rewrite Hzb. split; [done|]. split; [done|]. split; [done|].
  eexists. split; [exact Hr3|]. split; [|split].
  - split.
    + destruct Hbm as (B1 & B2 & B3). split; [done|]. split; [done|]. intros k Hk.
      rewrite lookup_insert_ne by lia. auto.
    + intros m Hm. destruct (decide (m = z)) as [->|].
      { rewrite lookup_insert_eq. eauto using bytes_zero. }
      rewrite lookup_insert_ne by done.
      destruct (decide (m < MINIX_V1_ZONE_BITMAP_START super ∨
        MINIX_V1_ZONE_BITMAP_START super + Z.of_nat zsize ≤ m)) as [Ho|Hi'].
      { rewrite Hout by done. apply (ly_blocks _ _ Hly). lia. }
      destruct Hbm as (B1 & B2 & B3).
      specialize (B3 (Z.to_nat (m - MINIX_V1_ZONE_BITMAP_START super)) ltac:(lia)).
      replace (MINIX_V1_ZONE_BITMAP_START super + Z.of_nat (Z.to_nat (m - MINIX_V1_ZONE_BITMAP_START super)))
        with m in B3 by lia.
      eexists. split; [exact B3|]. split; [rewrite length_slice; lia|].
      exact (words_ok_slice _ _ _ B1).
    + rewrite bit_at_set by (lia || done). by rewrite (ly_zero _ _ Hly), orb_true_r.
  - apply lookup_insert_eq.
  - intros m Hm Hne. rewrite lookup_insert_ne by done. by apply Hout.
Qed.

(** ** Growing a file *)

(** Zones are added at the paths in [P], at most [k] of them; everything that
    was in use stays, except the tables that lead to these paths. *)
Record grow (P : list Z → Prop) (k : nat) (d : gmap Z (list Z)) (l zs : list Z)
    (d' : gmap Z (list Z)) (l' zs' : list Z) : Prop := {
  gr_layout : layout d' l';
  gr_zones : zones_ok d' l' zs';
  gr_keep : ∀ q, vpath q → zp d zs q ≠ 0 → zp d' zs' q = zp d zs q;
  gr_only : ∀ q, vpath q → ¬ P q → zp d' zs' q = zp d zs q;
  gr_free : (free_count l ≤ k + free_count l')%nat;
  gr_len : length l' = length l;
  gr_bits : ∀ i, bit_at 8 l i = true → bit_at 8 l' i = true;
  gr_new : ∀ q, vpath q → zp d zs q = 0 → zp d' zs' q ≠ 0 → bit_at 8 l (zbit (zp d' zs' q)) = false;
  gr_data : ∀ n, data_zone n → bit_at 8 l (zbit n) = true →
    (∀ j q, P (j :: q) → vpath (j :: q) → q ≠ [] → n ≠ zp d zs q) → d' !! n = d !! n;
  gr_rest : ∀ n, off_map n → ¬ data_zone n → d' !! n = d !! n;
}.

Lemma grow_refl P k d l zs : layout d l → zones_ok d l zs → grow P k d l zs d l zs.
Proof. intros. split; auto; [lia|congruence]. Qed.

Lemma grow_le P k k' d l zs d' l' zs' : grow P k d l zs d' l' zs' → (k ≤ k')%nat →
  grow P k' d l zs d' l' zs'.
Proof. intros [] Hk. split; auto. lia. Qed.

Lemma grow_trans P P1 P2 k1 k2 d l zs d1 l1 zs1 d2 l2 zs2 :
  grow P1 k1 d l zs d1 l1 zs1 → grow P2 k2 d1 l1 zs1 d2 l2 zs2 →
  zones_ok d l zs → (∀ q, P1 q ∨ P2 q → P q) →
  grow P (k1 + k2) d l zs d2 l2 zs2.
Proof.
  intros G1 G2 Hzo HP. split; try apply G2.
  - intros q Hq Hn. rewrite (gr_keep _ _ _ _ _ _ _ _ G2), (gr_keep _ _ _ _ _ _ _ _ G1); try done.
    by rewrite (gr_keep _ _ _ _ _ _ _ _ G1).
  - intros q Hq Hn. rewrite (gr_only _ _ _ _ _ _ _ _ G2), (gr_only _ _ _ _ _ _ _ _ G1); auto.
  - pose proof (gr_free _ _ _ _ _ _ _ _ G1). pose proof (gr_free _ _ _ _ _ _ _ _ G2). lia.
  - by rewrite (gr_len _ _ _ _ _ _ _ _ G2), (gr_len _ _ _ _ _ _ _ _ G1).
  - intros i Hi. by apply (gr_bits _ _ _ _ _ _ _ _ G2), (gr_bits _ _ _ _ _ _ _ _ G1).
  - intros q Hq Hz Hz2. destruct (decide (zp d1 zs1 q = 0)) as [E|E].
    + pose proof (gr_new _ _ _ _ _ _ _ _ G2 q Hq E Hz2) as Hb.
      destruct (bit_at 8 l (zbit (zp d2 zs2 q))) eqn:Hbl; [|done].
      by rewrite (gr_bits _ _ _ _ _ _ _ _ G1 _ Hbl) in Hb.
    + rewrite (gr_keep _ _ _ _ _ _ _ _ G2) by done. by apply (gr_new _ _ _ _ _ _ _ _ G1).
  - intros n Hn Hb Hnot. rewrite (gr_data _ _ _ _ _ _ _ _ G2 n Hn).
    + apply (gr_data _ _ _ _ _ _ _ _ G1 n Hn Hb). intros j q HPq. apply Hnot. auto.
    + by apply (gr_bits _ _ _ _ _ _ _ _ G1).
    + intros j q HPq Hq Hne ->. destruct (vpath_tail j q Hq Hne) as [Hq' _].
      destruct (decide (zp d zs q = 0)) as [E|E].
      * destruct (decide (zp d1 zs1 q = 0)) as [E1|E1].
        { rewrite E1 in Hn. unfold data_zone in Hn. pose proof (ge_start Hgeo). pose proof (ge_first Hgeo). lia. }
        rewrite (gr_new _ _ _ _ _ _ _ _ G1 q Hq' E E1) in Hb. done.
      * apply (Hnot j q); auto. by rewrite (gr_keep _ _ _ _ _ _ _ _ G1).
  - intros n Hn Hnd. rewrite (gr_rest _ _ _ _ _ _ _ _ G2), (gr_rest _ _ _ _ _ _ _ _ G1); done.
Qed.

(** Where the pointer of a tier is, and what is held for it. *)
Inductive at_path (d : gmap Z (list Z)) (zs : list Z) (held : list (Z * Z)) :
    list Z → zone_ptr → Z → list (Z * Z) → Prop :=
  | at_vnode i : at_path d zs held [i] (VnodeZone i) 0 held
  | at_table b j q : q ≠ [] → zp d zs q ≠ 0 → b ≠ 0 →
      at_path d zs held (j :: q) (TableZone b j) b ((b, zp d zs q) :: held).

(** The blocks a client is changing are in use and not tables of the file. *)
Definition W_ok (d : gmap Z (list Z)) (l zs : list Z) (W : gset Z) : Prop :=
  ∀ n, n ∈ W → data_zone n ∧ bit_at 8 l (zbit n) = true ∧ ∀ q, vpath q → zp d zs q ≠ n.

Lemma zp_cons d zs j q : q ≠ [] →
  zp d zs (j :: q) =
    if zp d zs q =? 0 then 0 else match d !! zp d zs q with Some x => entry x j | None => 0 end.
Proof. by destruct q. Qed.

Lemma data_off_map n : data_zone n → off_map n.
Proof. unfold data_zone, off_map. intros Hz. destruct Hgeo as [G1 G2 G3 G4 G5 G7 G6]. lia. Qed.

Lemma data_zone_block z : data_zone z → 0 < z < Z.of_nat nb ∧ z < 65536.
Proof.
  unfold data_zone. intros Hz. destruct Hgeo as [G1 G2 G3 G4 G5 G7 G6]. lia.
Qed.

(** Data zones are not part of the bitmap. *)
Lemma layout_set d l z x : layout d l → data_zone z → length x = 1024%nat → Forall byte_ok x →
  layout (<[z := x]> d) l.
Proof.
  intros [Hm Hb H0] Hz Hx Hxb. pose proof Hgeo as [G1 G2 G3 G4 G5 G7 G6]. unfold data_zone in Hz. split; try done.
  - destruct Hm as (Hw & Hl & Hm). split; [done|]. split; [done|]. intros k Hk.
    rewrite lookup_insert_ne by lia. auto.
  - intros n Hn. destruct (decide (n = z)) as [->|Hne].
    + rewrite lookup_insert_eq. eauto.
    + rewrite lookup_insert_ne by done. auto.
Qed.

(** The table a pointer is in. *)
Lemma table_block d l zs q : layout d l → zones_ok d l zs → vpath q → zp d zs q ≠ 0 →
  data_zone (zp d zs q) ∧ ∃ x, d !! zp d zs q = Some x ∧ length x = 1024%nat ∧ Forall byte_ok x.
Proof.
  intros Hly Hzo Hq Hn. destruct (zo_used _ _ _ Hzo q Hq Hn) as [Hd _]. split; [done|].
  apply (ly_blocks _ _ Hly). by apply data_zone_block.
Qed.

Lemma load_zone_ok c d l v held W own p ptr buf held' :
  store_rel c d held' W own → layout d l → zones_ok d l (zones v) → vpath p →
  at_path d (zones v) held p ptr buf held' →
  ∃ raw, load_zone c v ptr = Some raw ∧ 0 ≤ raw < 65536 ∧ le16toh raw = zp d (zones v) p ∧
    (raw = 0 ↔ zp d (zones v) p = 0).
Proof.
  intros Hr Hly Hzo Hp Hat. destruct Hat as [i|b j q Hq Hz Hb]; cbn [load_zone].
  - destruct (slot_ok (zones v) i (zo_len _ _ _ Hzo) (zo_raw _ _ _ Hzo) Hp) as (raw & -> & Hraw & Hz).
    destruct (Hz d) as [-> Hz']. eauto.
  - destruct (vpath_tail j q Hp Hq) as [Hq' Hj].
    destruct (table_block d l _ q Hly Hzo Hq' Hz) as (_ & x & Hx & Hl & Hby).
    destruct (store_data _ _ _ _ _ b (zp d (zones v) q) Hr) as [-> _]; [held_here|]. rewrite Hx. cbn [mbind option_bind].
    destruct (rd16_ok x j Hl Hby Hj) as (raw & -> & Hraw & He & _ & Hz').
    exists raw. rewrite zp_cons, Hx by done. destruct (Z.eqb_spec (zp d (zones v) q) 0); [done|].
    rewrite He in *. done.
Qed.

(** Hanging a fresh zone into the tree keeps the file in order. *)
Lemma grow_hang d l zs d' zs' p z :
  layout d l → zones_ok d l zs → vpath p → data_zone z → bit_at 8 l (zbit z) = false →
  (zbit z < length l * 8)%nat → zp d zs p = 0 → layout d' (set_bit 8 l (zbit z)) →
  length zs' = 9%nat → Forall (λ raw, 0 ≤ raw < 65536) zs' →
  (∀ q, vpath q → zp d' zs' q = if decide (q = p) then z else zp d zs q) →
  (∀ n, data_zone n → bit_at 8 l (zbit n) = true →
     (∀ j q, p = j :: q → q ≠ [] → n ≠ zp d zs q) → d' !! n = d !! n) →
  (∀ n, off_map n → ¬ data_zone n → d' !! n = d !! n) →
  grow (λ q, q = p) 1 d l zs d' (set_bit 8 l (zbit z)) zs'.
Proof.
  intros Hly Hzo Hp Hz Hbit Hlen Hemp Hly' Hl9 Hraw Hzp Hdata Hrest.
  assert (Hz0 : z ≠ 0) by (apply data_zone_block in Hz; lia).
  assert (Hne : ∀ q, vpath q → zp d zs q ≠ z).
  { intros q Hq E. destruct (zo_used _ _ _ Hzo q Hq) as [_ Hb]; [congruence|]. rewrite E in Hb. congruence. }
  assert (Hset : ∀ i, bit_at 8 (set_bit 8 l (zbit z)) i = (i =? zbit z)%nat || bit_at 8 l i)
    by (intros i; apply bit_at_set; lia || done).
  split; try done.
  - split; try done.
    + intros q Hq Hn. rewrite Hzp in Hn |- * by done. rewrite Hset.
      destruct (decide (q = p)); [by rewrite Nat.eqb_refl|].
      destruct (zo_used _ _ _ Hzo q Hq Hn) as [? ->]. by rewrite orb_true_r.
    + intros q q' Hq Hq' Hn. rewrite !Hzp in * by done.
      destruct (decide (q = p)) as [->|], (decide (q' = p)) as [->|]; intros E; try done.
      * by destruct (Hne q' Hq').
      * by destruct (Hne q Hq).
      * by apply (zo_inj _ _ _ Hzo).
  - intros q Hq Hn. rewrite Hzp by done. destruct (decide (q = p)) as [->|]; [done|done].
  - intros q Hq Hn. rewrite Hzp by done. by destruct (decide (q = p)).
  - unfold free_count. rewrite <- (count_clear_set 8 ltac:(lia) l (zbit z)); [lia|done| |done].
    unfold zbit. unfold data_zone in Hz. lia.
  - apply length_set_bit.
  - intros i Hi. by rewrite Hset, Hi, orb_true_r.
  - intros q Hq E Hn. rewrite Hzp in Hn |- * by done. by destruct (decide (q = p)).
  - intros n Hn Hb Hnot. apply Hdata; try done. intros j q -> Hq. by apply (Hnot j q).
Qed.

Lemma insert_slot zs i raw : length zs = 9%nat → Forall (λ raw, 0 ≤ raw < 65536) zs → 0 ≤ i < 9 →
  0 ≤ raw < 65536 →
  ∃ zs', wr zs i raw = Some zs' ∧ length zs' = 9%nat ∧ Forall (λ raw, 0 ≤ raw < 65536) zs' ∧
    ∀ d d' i', 0 ≤ i' → zp d' zs' [i'] = if decide ([i'] = [i]) then le16toh raw else zp d zs [i'].
Proof.
  intros Hl Hr Hi Hraw. rewrite wr_in_range by lia. eexists. split; [done|].
  split; [by rewrite length_insert|]. split; [by apply Forall_insert|].
  intros d d' i' Hi'. cbn [zp]. unfold rd. destruct (Z.ltb_spec i' 0); [lia|].
  destruct (decide ([i'] = [i])) as [E|E].
  - injection E as ->. by rewrite list_lookup_insert_eq by lia.
  - rewrite list_lookup_insert_ne; [done|]. intros E'. apply E. f_equal. lia.
Qed.

(** A pointer to an empty slot is given a new zone. *)
Lemma fill_zone_create c d l v held W own p ptr buf held' create :
  store_rel c d held' W own → zlen held < 98 → layout d l → zones_ok d l (zones v) → vpath p →
  at_path d (zones v) held p ptr buf held' → W_ok d l (zones v) W → create ≠ 0 →
  (0 < free_count l)%nat →
  wp (fill_zone super c v ptr buf create) store_oom (λ '(c', v', stop), stop = false ∧ ∃ d' l' zs',
    v' = set_zones v zs' ∧ store_rel c' d' held' W own ∧ grow (λ q, q = p) 1 d l (zones v) d' l' zs' ∧
    zp d' zs' p ≠ 0 ∧ (zp d (zones v) p = 0 → d' !! zp d' zs' p = Some zero_block)).
Proof.
  intros Hr Hh Hly Hzo Hp Hat HW Hcr Hfree. unfold fill_zone.
  destruct (load_zone_ok _ _ _ _ _ _ _ _ _ _ _ Hr Hly Hzo Hp Hat) as (raw & -> & Hraw & Hval & Hz0).
  res_simpl. destruct (Z.eqb_spec raw 0) as [E|E]; cycle 1.
  { split; [done|]. exists d, l, (zones v). split; [by destruct v|]. split; [done|].
    split; [by apply grow_refl|]. split; [|tauto]. tauto. }
  destruct (Z.eqb_spec create 0); [done|]. cbn [negb]. apply Hz0 in E.
  assert (Hhl : zlen held' < 100) by (destruct Hat; simpl; lia).
  wp_step minix_alloc_zone_ok; [done|done|done|by intros n1 Hn1; destruct (HW n1 Hn1) as (? & ? & _)|by left|].
  intros [c1 z] [(_ & Hall & _)|(Hz & Hbit & Hlen & d1 & Hr1 & Hly1 & Hzero & Hout)].
  { apply (count_clear_pos 8 ltac:(lia)) in Hfree as (k & Hk & Hkb). rewrite Hall in Hkb; [done|].
    destruct (ly_map _ _ Hly) as (_ & -> & _). pose proof (ge_bits Hgeo). lia. }
  pose proof (data_zone_block z Hz) as [Hzb Hz16]. rewrite u16_small by lia.
  destruct (le16_inv z) as (Hle & Hinv & _); [lia|]. unfold htole16.
  assert (Hzz : ∀ q, vpath q → zp d (zones v) q ≠ 0 → zp d (zones v) q ≠ z).
  { intros q Hq Hn Eq. destruct (zo_used _ _ _ Hzo q Hq Hn) as [_ Hb]. rewrite Eq in Hb. congruence. }
  assert (Hd1 : ∀ q, vpath q → zp d (zones v) q ≠ 0 → d1 !! zp d (zones v) q = d !! zp d (zones v) q).
  { intros q Hq Hn. destruct (zo_used _ _ _ Hzo q Hq Hn) as [Hdz _]. apply Hout; [by apply data_off_map|auto]. }
  destruct Hat as [i|b j q Hq Hzq Hb]; cbn [store_zone].
  - destruct (insert_slot (zones v) i (__bswap_16 z) (zo_len _ _ _ Hzo) (zo_raw _ _ _ Hzo) Hp Hle)
      as (zs' & -> & Hl9 & Hr9 & Hslot). res_simpl. unfold dirty_if. simpl Z.eqb. cbv iota. res_simpl.
    cbn [wp]. split; [done|]. exists d1, (set_bit 8 l (zbit z)), zs'. split; [done|]. split; [done|].
    assert (Hzp : ∀ q, vpath q → zp d1 zs' q = if decide (q = [i]) then z else zp d (zones v) q).
    { intros q Hq. apply (zp_hang d d1 (zones v) zs' [i] z); try done; [lia| | |].
      - by intros j q' [= <- <-].
      - intros i' Hi'. rewrite (Hslot d) by (simpl in Hi'; lia). unfold le16toh. by rewrite Hinv.
      - intros j q' Hjq Hne Hn. destruct (vpath_tail j q' Hjq Hne) as [Hq' _].
        destruct (table_block d l _ q' Hly Hzo Hq' Hn) as (_ & x & Hx & _). exists x, x.
        rewrite Hd1 by done. split; [done|]. split; [done|]. by destruct (decide (j :: q' = [i])) as [[= -> ->]|]. }
    split; [|rewrite Hzp by done; destruct (decide ([i] = [i])); [split; [lia|done]|done]].
    apply grow_hang; try done.
    + intros m Hm Hbn _. apply Hout; [by apply data_off_map|]. intros ->. congruence.
    + intros m Hm Hnd. apply Hout; [done|]. by intros ->.
  - destruct (vpath_tail j q Hp Hq) as [Hq' Hj]. set (t := zp d (zones v) q) in *.
    destruct (table_block d l _ q Hly Hzo Hq' Hzq) as (Ht & x & Hx & Hxl & Hby). fold t in Ht, Hx.
    destruct (store_data _ _ _ _ _ b t Hr1) as [-> _]; [held_here|]. unfold t. rewrite Hd1 by done. fold t.
    rewrite Hx. res_simpl. destruct (wr16_ok x j (__bswap_16 z) Hxl Hby Hj Hle) as (x' & -> & Hxl' & Hby' & He).
    res_simpl. apply wp_bind. eapply wp_put; [done|held_here|done|]. intros c2 _ Hr2. cbn [wp].
    assert (HtW : t ∉ W) by (intros Hin; destruct (HW t Hin) as (_ & _ & Hno); by apply (Hno q)).
    unfold dirty_if. destruct (Z.eqb_spec b 0); [done|].
    eapply wp_dirty; [done|held_here|]. intros c3 Hr3. rewrite marked in Hr3 by done. cbn [wp].
    split; [done|]. exists (<[t := x']> d1), (set_bit 8 l (zbit z)), (zones v). split; [by destruct v|]. split; [done|].
    assert (Htz : t ≠ z) by (apply Hzz; done).
    assert (Hzp : ∀ q', vpath q' → zp (<[t := x']> d1) (zones v) q' =
      if decide (q' = j :: q) then z else zp d (zones v) q').
    { intros q2 Hq2. apply (zp_hang d (<[t := x']> d1) (zones v) (zones v) (j :: q) z); try done; [lia| | | |].
      - intros j' q' [= <- <-] _. done.
      - intros i' _. cbn [zp]. by destruct (decide ([i'] = j :: q)) as [[= -> <-]|].
      - by rewrite lookup_insert_ne.
      - intros j' q' Hjq Hne Hn. destruct (vpath_tail j' q' Hjq Hne) as [Hq'' Hj'].
        destruct (table_block d l _ q' Hly Hzo Hq'' Hn) as (_ & y & Hy & _).
        destruct (decide (q' = q)) as [->|Hqq].
        + fold t in Hy |- *. assert (y = x) as -> by congruence. exists x, x'. rewrite lookup_insert_eq.
          split; [done|]. split; [done|]. rewrite He by lia. unfold le16toh. rewrite Hinv.
          destruct (Z.eqb_spec j' j), (decide (j' :: q = j :: q)); congruence.
        + exists y, y. rewrite lookup_insert_ne, Hd1; try done.
          * split; [done|]. split; [done|]. by destruct (decide (j' :: q' = j :: q)) as [[= -> ->]|].
          * intros Et. apply Hqq. symmetry. by apply (zo_inj _ _ _ Hzo). }
    split; [|rewrite Hzp by done; destruct (decide (j :: q = j :: q)); [|done]; split; [lia|]; intros _; by rewrite lookup_insert_ne].
    apply grow_hang; try done.
    + by apply layout_set.
    + apply (zo_len _ _ _ Hzo).
    + apply (zo_raw _ _ _ Hzo).
    + intros m Hm Hbn Hnot. rewrite lookup_insert_ne by (apply not_eq_sym, (Hnot j q); done).
      apply Hout; [by apply data_off_map|]. intros ->. congruence.
    + intros m Hm Hnd. rewrite lookup_insert_ne by (by intros <-). apply Hout; [done|]. by intros ->.
Qed.

Lemma W_ok_grow P k d l zs d' l' zs' W :
  grow P k d l zs d' l' zs' → W_ok d l zs W → W_ok d' l' zs' W.
Proof.
  intros G HW n Hn. destruct (HW n Hn) as (Hz & Hb & Hno). split; [done|].
  split; [by apply (gr_bits _ _ _ _ _ _ _ _ G)|]. intros q Hq E.
  destruct (decide (zp d zs q = 0)) as [E0|E0].
  - destruct (decide (zp d' zs' q = 0)) as [E1|E1]; [apply data_zone_block in Hz; lia|].
    pose proof (gr_new _ _ _ _ _ _ _ _ G q Hq E0 E1). congruence.
  - apply (Hno q Hq). by rewrite <- (gr_keep _ _ _ _ _ _ _ _ G q Hq E0).
Qed.

Lemma vpath_app r p : vpath (r ++ p) → p ≠ [] → vpath p.
Proof.
  induction r as [|j r IH]; simpl app; intros Hv Hp; [done|].
  apply IH; [|done]. apply (vpath_tail j (r ++ p)); [done|]. by destruct r, p.
Qed.

(** Letting go of the table of a tier; the pointer can still be read. *)
Lemma release_if_ok {B} c d l v held W own p ptr buf held' (k : C → res B) Q :
  store_rel c d held' W own → zlen held < 98 → layout d l → zones_ok d l (zones v) → vpath p →
  at_path d (zones v) held p ptr buf held' → W_ok d l (zones v) W →
  (∀ c', store_rel c' d held W own → load_zone c' v ptr = load_zone c v ptr → wp (k c') store_oom Q) →
  wp (c' ← release_if c buf; k c') store_oom Q.
Proof.
  intros Hr Hh Hly Hzo Hp Hat HW Hk. unfold release_if. destruct Hat as [i|b j q Hq Hz Hb].
  { simpl. auto. }
  destruct (vpath_tail j q Hp Hq) as [Hq' _].
  destruct (Z.eqb_spec b 0); [done|]. apply wp_bind. eapply wp_release; [done|lia| |].
  { intros Hin. destruct (HW _ Hin) as (_ & _ & Hno). by apply (Hno q). }
  intros c' Hd Hr'. cbn [wp]. apply Hk; [done|]. cbn [load_zone].
  destruct (store_data _ _ _ _ _ b (zp d (zones v) q) Hr) as [-> _]; [held_here|]. by rewrite Hd.
Qed.

Definition suffix_path (full q : list Z) : Prop := q `suffix_of` full.

(** Following a path and creating what is missing. *)
Lemma zone_walk_create tiers : ∀ c d l v held W own p ptr buf held' create,
  store_rel c d held' W own → zlen held < 98 → layout d l → zones_ok d l (zones v) →
  vpath (rev tiers ++ p) → p ≠ [] → at_path d (zones v) held p ptr buf held' → W_ok d l (zones v) W →
  create ≠ 0 → (length tiers < free_count l)%nat →
  wp (zone_walk super c v tiers ptr buf create) store_oom (λ '(c', v', z), ∃ d' l' zs',
    v' = set_zones v zs' ∧ store_rel c' d' held W own ∧
    grow (suffix_path (rev tiers ++ p)) (S (length tiers)) d l (zones v) d' l' zs' ∧
    z = zp d' zs' (rev tiers ++ p) ∧ z ≠ 0 ∧
    (zp d (zones v) (rev tiers ++ p) = 0 → d' !! z = Some zero_block)).
Proof.
  induction tiers as [|t tiers IH]; intros c d l v held W own p ptr buf held' create
    Hr Hh Hly Hzo Hfull Hp Hat HW Hcr Hfree; cbn [zone_walk].
  - simpl rev in Hfull |- *. simpl app in Hfull |- *.
    eapply wp_call; [by eapply fill_zone_create; eauto; simpl in Hfree; lia|].
    intros [[c1 v1] stop] (-> & d1 & l1 & zs1 & -> & Hr1 & G & Hz & Hnew).
    assert (Hat1 : at_path d1 zs1 held p ptr buf held').
    { destruct Hat as [i|b j q Hq Hzq Hb]; [constructor|].
      destruct (vpath_tail j q Hfull Hq) as [Hq' _].
      rewrite <- (gr_keep _ _ _ _ _ _ _ _ G q Hq' Hzq). constructor; try done.
      by rewrite (gr_keep _ _ _ _ _ _ _ _ G q Hq' Hzq). }
    pose proof (gr_layout _ _ _ _ _ _ _ _ G) as Hly1. pose proof (gr_zones _ _ _ _ _ _ _ _ G) as Hzo1.
    pose proof (W_ok_grow _ _ _ _ _ _ _ _ W G HW) as HW1.
    destruct (load_zone_ok c1 d1 l1 (set_zones v zs1) held W own p ptr buf held' Hr1 Hly1 Hzo1 Hfull Hat1)
      as (raw & -> & _ & Hval & _).
    res_simpl. eapply (release_if_ok c1 d1 l1 (set_zones v zs1)); try done. intros c2 Hr2 _. cbn [wp].
    exists d1, l1, zs1. split_and!; try done.
    + change (S (length (@nil Z))) with (1 + 0)%nat.
      eapply (grow_trans _ _ (λ _, False)); [exact G|by apply grow_refl|done|].
      intros q [->|[]]. by exists [].
    + by rewrite Hval.
    + by rewrite Hval.
  - assert (Hpv : vpath p) by (by eapply vpath_app).
    eapply wp_call; [by eapply fill_zone_create; eauto; lia|].
    intros [[c1 v1] stop] (-> & d1 & l1 & zs1 & -> & Hr1 & G & Hz & Hnew).
    assert (Hat1 : at_path d1 zs1 held p ptr buf held').
    { destruct Hat as [i|b j q Hq Hzq Hb]; [constructor|].
      destruct (vpath_tail j q Hpv Hq) as [Hq' _].
      rewrite <- (gr_keep _ _ _ _ _ _ _ _ G q Hq' Hzq). constructor; try done.
      by rewrite (gr_keep _ _ _ _ _ _ _ _ G q Hq' Hzq). }
    pose proof (gr_layout _ _ _ _ _ _ _ _ G) as Hly1. pose proof (gr_zones _ _ _ _ _ _ _ _ G) as Hzo1.
    pose proof (W_ok_grow _ _ _ _ _ _ _ _ W G HW) as HW1.
    eapply (release_if_ok c1 d1 l1 (set_zones v zs1)); try done. intros c2 Hr2 Hld. rewrite Hld.
    destruct (load_zone_ok c1 d1 l1 (set_zones v zs1) held W own p ptr buf held' Hr1 Hly1 Hzo1 Hpv Hat1)
      as (raw & -> & _ & Hval & _).
    res_simpl. rewrite Hval. cbn [zones set_zones].
    destruct (zo_used _ _ _ Hzo1 p Hpv Hz) as [Hzone _]. apply data_zone_block in Hzone as [Hzb _].
    eapply wp_get; [done|done|lia|]. intros c3 b x Hb Hx Hxl Hbd Hr3.
    destruct (Z.eqb_spec b 0); [done|].
    assert (Hpath : rev (t :: tiers) ++ p = rev tiers ++ t :: p) by (simpl; by rewrite <- app_assoc).
    rewrite Hpath in Hfull |- *.
    eapply wp_mono; [eapply (IH c3 d1 l1 (set_zones v zs1) held W own (t :: p) (TableZone b t) b _ create);
      try done; [by constructor|]|done|].
    { pose proof (gr_free _ _ _ _ _ _ _ _ G). simpl in Hfree. lia. }
    intros [[c4 v4] z] (d2 & l2 & zs2 & -> & Hr4 & G2 & -> & Hz2 & Hnew2).
    exists d2, l2, zs2. split_and!; try done.
    + change (S (length (t :: tiers))) with (1 + S (length tiers))%nat.
      eapply grow_trans; [exact G|exact G2|done|]. intros q [->|Hq]; [|exact Hq].
      exists (rev tiers ++ [t]). by rewrite <- app_assoc.
    + intros E. apply Hnew2. cbn [zones set_zones]. rewrite (gr_only _ _ _ _ _ _ _ _ G); [done|done|].
      intros Eq. apply (f_equal length) in Eq. rewrite length_app in Eq. simpl in Eq. lia.
Qed.

Lemma zp_below d zs r q : q ≠ [] → zp d zs q = 0 → zp d zs (r ++ q) = 0.
Proof.
  intros Hq Hz. induction r as [|j r IH]; [done|]. simpl app.
  rewrite zp_cons by (by destruct r, q). by rewrite IH.
Qed.

(** Following a path without creating anything, because that is not asked for or not needed. *)
Lemma zone_walk_lookup d l held W own create tiers : ∀ c v p ptr buf held',
  create = 0 ∨ zp d (zones v) (rev tiers ++ p) ≠ 0 →
  store_rel c d held' W own → zlen held < 98 → layout d l → zones_ok d l (zones v) →
  vpath (rev tiers ++ p) → p ≠ [] → at_path d (zones v) held p ptr buf held' → W_ok d l (zones v) W →
  wp (zone_walk super c v tiers ptr buf create) store_oom (λ '(c', v', z),
    v' = v ∧ z = zp d (zones v) (rev tiers ++ p) ∧ store_rel c' d held W own).
Proof.
  induction tiers as [|t tiers IH]; intros c v p ptr buf held' Hcr Hr Hh Hly Hzo Hfull Hp Hat HW;
    cbn [zone_walk]; unfold fill_zone;
    assert (Hpv : vpath p) by (by eapply vpath_app);
    destruct (load_zone_ok _ _ _ _ _ _ _ _ _ _ _ Hr Hly Hzo Hpv Hat) as (raw & Hld & _ & Hval & Hz0);
    rewrite Hld; res_simpl; destruct (Z.eqb_spec raw 0) as [E|E]; cbn [negb Z.eqb].
  - destruct Hcr as [->|Hcr]; [|simpl in Hcr; tauto]. cbn [Z.eqb negb].
    eapply wp_bind, release_if_ok; try done. intros c2 Hr2 _. cbn [wp]. res_simpl. cbn [wp].
    split; [done|]. split; [|done]. symmetry. tauto.
  - res_simpl. rewrite Hld. res_simpl. eapply release_if_ok; done.
  - assert (Hnone : zp d (zones v) (rev (t :: tiers) ++ p) = 0) by (apply zp_below; [done|tauto]).
    destruct Hcr as [->|Hcr]; [|done]. cbn [Z.eqb negb].
    eapply wp_bind, release_if_ok; done.
  - res_simpl. eapply release_if_ok; try done. intros c2 Hr2 Hld2. rewrite Hld2, Hld. res_simpl. rewrite Hval.
    assert (Hz : zp d (zones v) p ≠ 0) by tauto.
    destruct (zo_used _ _ _ Hzo p Hpv Hz) as [Hzone _]. apply data_zone_block in Hzone as [Hzb _].
    eapply wp_get; [done|done|lia|]. intros c3 b x Hb Hx Hxl Hbd Hr3.
    destruct (Z.eqb_spec b 0); [done|].
    assert (Hpath : rev (t :: tiers) ++ p = rev tiers ++ t :: p) by (simpl; by rewrite <- app_assoc).
    rewrite Hpath in Hfull, Hcr |- *. eapply IH; try done. by constructor.
Qed.

(** The path of a zone of the file. *)
Definition zpath (znum : Z) : list Z := rev (zone_calculate_tier znum).2.

Definition zone_max : Z := 7 + 512 + 512 * 512.

Lemma zpath_cases znum : 0 ≤ znum →
  (znum < 7 ∧ zpath znum = [znum]) ∨
  (7 ≤ znum < 519 ∧ zpath znum = [znum - 7; 7]) ∨
  (519 ≤ znum < zone_max ∧ zpath znum = [(znum - 519) mod 512; (znum - 519) / 512; 8]) ∨
  (zone_max ≤ znum ∧ zpath znum = []).
Proof.
  intros Hz. unfold zpath, zone_calculate_tier, zone_max, MINIX_V1_TIER1_ZONENUMS,
    MINIX_V1_ZONENUMS_PER_ZONE, MINIX_V1_LOG_ZONENUMS_PER_ZONE.
  destruct (Z.ltb_spec znum 7); [left; split; [lia|done]|]. cbv zeta.
  destruct (Z.ltb_spec (znum - 7) 512); [right; left; split; [lia|done]|].
  destruct (Z.ltb_spec (znum - 7 - 512) (512 * 512)); [|right; right; right; split; [lia|done]].
  right; right; left. split; [lia|]. cbn [snd rev app].
  replace (znum - 7 - 512) with (znum - 519) by lia.
  rewrite Z.shiftr_div_pow2 by lia. change (512 - 1) with (Z.ones 9). rewrite Z.land_ones by lia. done.
Qed.

Lemma zpath_valid znum : 0 ≤ znum < zone_max → vpath (zpath znum).
Proof.
  intros Hz. unfold zone_max in Hz. destruct (zpath_cases znum) as [[? ->]|[[? ->]|[[? ->]|[? _]]]]; [lia|..]; simpl.
  - lia.
  - lia.
  - pose proof (Z.mod_pos_bound (znum - 519) 512). split; [lia|]. split; [|done].
    split; [apply Z.div_pos; lia|apply Z.div_lt_upper_bound; lia].
  - unfold zone_max in *. lia.
Qed.

Lemma zpath_inj z1 z2 : 0 ≤ z1 < zone_max → 0 ≤ z2 < zone_max → zpath z1 = zpath z2 → z1 = z2.
Proof.
  intros H1 H2. destruct (zpath_cases z1 ltac:(lia)) as [[? ->]|[[? ->]|[[? ->]|[? _]]]], (zpath_cases z2 ltac:(lia))
    as [[? ->]|[[? ->]|[[? ->]|[? _]]]]; try lia; intros E; try done; injection E; try lia.
  intros Eq Er. pose proof (Z.div_mod (z1 - 519) 512). pose proof (Z.div_mod (z2 - 519) 512). lia.
Qed.

(** No path leads through a zone of data. *)
Lemma zpath_leaf znum j : 0 ≤ znum < zone_max → ¬ vpath (j :: zpath znum).
Proof.
  intros Hz. destruct (zpath_cases znum ltac:(lia)) as [[? ->]|[[? ->]|[[? ->]|[? _]]]]; simpl; lia.
Qed.

(** The tree depends on its tables only. *)
Lemma zp_frame d d' zs :
  (∀ j q, vpath (j :: q) → q ≠ [] → zp d zs q ≠ 0 → d' !! zp d zs q = d !! zp d zs q) →
  ∀ q, vpath q → zp d' zs q = zp d zs q.
Proof.
  intros Ht q. induction q as [|j q IH]; [done|]. intros Hq.
  destruct (decide (q = [])) as [->|Hne]; [done|]. destruct (vpath_tail j q Hq Hne) as [Hq' _].
  rewrite !zp_cons by done. rewrite IH by done. destruct (Z.eqb_spec (zp d zs q) 0); [done|].
  by rewrite (Ht j).
Qed.

Lemma zone_lookup_walk c v znum create : 0 ≤ znum < zone_max →
  ∃ i tiers, zone_lookup super c v znum create = zone_walk super c v tiers (VnodeZone i) 0 create ∧
    zpath znum = rev tiers ++ [i] ∧ (length tiers ≤ 2)%nat.
Proof.
  intros Hz. pose proof (zpath_valid znum Hz) as Hv.
  assert (Hlen : (length (zpath znum) ≤ 3)%nat).
  { destruct (zpath_cases znum ltac:(lia)) as [[_ ->]|[[_ ->]|[[_ ->]|[_ ->]]]]; simpl; lia. }
  unfold zone_lookup, zpath in *. destruct (zone_calculate_tier znum) as [n [|i tiers]]; [done|].
  exists i, tiers. split; [done|]. split; [done|]. cbn [snd] in Hlen. rewrite length_rev in Hlen.
  simpl in Hlen. lia.
Qed.

(** [zone_lookup] without [create] returns the zone number that hangs at the path of the zone. *)
Lemma zone_lookup_find c d l v held W own znum create :
  create = 0 ∨ zp d (zones v) (zpath znum) ≠ 0 →
  store_rel c d held W own → zlen held < 98 → layout d l → zones_ok d l (zones v) →
  0 ≤ znum → W_ok d l (zones v) W →
  wp (zone_lookup super c v znum create) store_oom (λ '(c', v', z),
    v' = v ∧ z = zp d (zones v) (zpath znum) ∧ store_rel c' d held W own).
Proof.
  intros Hcr Hr Hh Hly Hzo Hz HW. destruct (Z.lt_ge_cases znum zone_max) as [Hlt|Hge].
  - destruct (zone_lookup_walk c v znum create ltac:(lia)) as (i & tiers & -> & Hp & _).
    pose proof (zpath_valid znum ltac:(lia)) as Hv. rewrite Hp in Hv, Hcr |- *.
    eapply zone_walk_lookup; try done. constructor.
  - destruct (zpath_cases znum Hz) as [[? _]|[[? _]|[[? _]|[_ E]]]]; try (unfold zone_max in *; lia).
    rewrite E. unfold zone_lookup, zpath in *. destruct (zone_calculate_tier znum) as [n ts]; cbn [snd] in E.
    apply (f_equal (@rev Z)) in E. rewrite rev_involutive in E. subst ts. done.
Qed.

(** With [create] it hangs the missing zones, all of them below the path. *)
Lemma zone_lookup_create c d l v held W own znum create :
  store_rel c d held W own → zlen held < 98 → layout d l → zones_ok d l (zones v) →
  0 ≤ znum < zone_max → W_ok d l (zones v) W → create ≠ 0 → (2 < free_count l)%nat →
  wp (zone_lookup super c v znum create) store_oom (λ '(c', v', z), ∃ d' l' zs',
    v' = set_zones v zs' ∧ store_rel c' d' held W own ∧
    grow (suffix_path (zpath znum)) 3 d l (zones v) d' l' zs' ∧
    z = zp d' zs' (zpath znum) ∧ z ≠ 0 ∧
    (zp d (zones v) (zpath znum) = 0 → d' !! z = Some zero_block)).
Proof.
  intros Hr Hh Hly Hzo Hz HW Hc Hfree.
  destruct (zone_lookup_walk c v znum create Hz) as (i & tiers & -> & Hp & Hlen).
  pose proof (zpath_valid znum ltac:(lia)) as Hv. rewrite Hp in Hv |- *.
  eapply wp_mono; [eapply zone_walk_create; try done; [constructor|lia]|done|].
  intros [[c' v'] z] (d' & l' & zs' & Hv' & Hr' & Hg & Hrest). exists d', l', zs'.
  split; [done|]. split; [done|]. split; [|done]. eapply grow_le; [exact Hg|lia].
Qed.
End ops.
End layout.
