(* ===== verification/Minixfile.v ===== *)
(** * Minixfile: reading and writing the files of the Minix file system
      (src/kernel/fs/minix/minix.c, include/kernel/fs/vfs.h)

    An open file is a vnode, which other open files may share, and a position.
    The contents of a file are the bytes of its data zones ([file_is]).  What
    the operations do to them is specified by [file_step] on a byte string and
    a position, for any number of files on the disk. *)

From S2P Require Import Prelude Iovec Bits Result Blockstore Minixmap Minixzone.

Definition MINIX_V1_LOG_ZONE_SIZE : Z := 10.
Definition VFS_MBF_READ_ONLY : Z := 1.
Definition ATIME : Z := 1.
Definition MTIME : Z := 2.
Definition CTIME : Z := 4.

Record vfile := Vfile {
  f_refcount : Z;
  f_flags : Z;
  position : Z;
}.

Definition set_file_position (f : vfile) (p : Z) : vfile := Vfile (f_refcount f) (f_flags f) p.

Definition set_size (v : minix_vnode) (s : Z) : minix_vnode :=
  Vnode (refcount v) (mode v) (nlinks v) (uid v) (gid v) (bits v) (rdev v) (ino v) s
    (atime v) (mtime v) (ctime v) (zones v).

Definition set_times (v : minix_vnode) (a m c : Z) : minix_vnode :=
  Vnode (refcount v) (mode v) (nlinks v) (uid v) (gid v) (bits v) (rdev v) (ino v) (size v)
    a m c (zones v).

(** [mp_bits] are the flags of the mount, [t] is what get_system_time returns. *)
Definition vfs_update_time (mp_bits t : Z) (v : minix_vnode) (update : Z) : minix_vnode :=
  if negb (Z.land mp_bits VFS_MBF_READ_ONLY =? 0) then v
  else
    let pick f old := if negb (Z.land update f =? 0) then t else old in
    let v := set_times v (pick ATIME (atime v)) (pick MTIME (mtime v)) (pick CTIME (ctime v)) in
    set_bits v (Z.lor (bits v) VBF_DIRTY).

Section file.
Context {C : Type} `{BlockStore C} (super : minix_v1_superblock) (mp_bits t : Z).

Definition minix_open (file : vfile) (flags : Z) : Z := 0.
Definition minix_close (file : vfile) : Z := 0.
Definition minix_ioctl (file : vfile) (request : Z) (iter : iovec_iter) (uid : Z) : Z := Iovec.EINVAL.

(** The part of a transfer of [nbytes] that is in the zone, from [zpos] on. *)
Definition zone_part (zpos nbytes : Z) : Z :=
  let zlen := s16 (MINIX_V1_ZONE_SIZE - zpos) in
  if nbytes <? u32 zlen then s16 nbytes else zlen.

(** The do-while loop of minix_read. *)
Fixpoint read_zones (fuel : nat) (c : C) (v : minix_vnode) (iter : iovec_iter)
    (znum zpos nbytes wbytes : Z) : res (C * minix_vnode * iovec_iter * Z) :=
  match fuel with
  | O => Undef
  | S fuel =>
      '(c, v, zone) ← zone_lookup super c v znum MFS_LOOKUP_ZONE;
      if zone =? 0 then Val (c, v, iter, wbytes)
      else
        '(c, buf) ← get_block c zone;
        if buf =? 0 then Val (c, v, iter, wbytes)
        else
          let zlen := zone_part zpos nbytes in
          block ← lift (buf_data c buf);
          '(iter, _) ← lift (memcpy_into_iter iter (drop (Z.to_nat zpos) block) (u32 zlen));
          '(c, _) ← release_block c buf 0;
          let wbytes := u32 (wbytes + zlen) in
          let nbytes := u32 (nbytes - zlen) in
          if 0 <? nbytes then read_zones fuel c v iter (u32 (znum + 1)) 0 nbytes wbytes
          else Val (c, v, iter, wbytes)
  end.

(** Enough iterations for [nbytes] bytes. *)
Definition transfer_fuel (nbytes : Z) : nat := Z.to_nat (Z.shiftr nbytes MINIX_V1_LOG_ZONE_SIZE + 2).

Definition minix_read (c : C) (v : minix_vnode) (file : vfile) (iter : iovec_iter) :
    res (C * minix_vnode * vfile * iovec_iter * Z) :=
  if S_ISDIR (mode v) then Val (c, v, file, iter, EISDIR)
  else
    let nbytes := iovec_iter_remaining iter in
    let nbytes := if u32 (size v - position file) <? nbytes then u32 (size v - position file) else nbytes in
    let znum := Z.shiftr (position file) MINIX_V1_LOG_ZONE_SIZE in
    let zpos := Z.land (position file) (MINIX_V1_ZONE_SIZE - 1) in
    '(c, v, iter, wbytes) ← read_zones (transfer_fuel nbytes) c v iter znum zpos nbytes 0;
    Val (c, v, set_file_position file (u32 (position file + wbytes)), iter, s32 wbytes).

(** The do-while loop of minix_write, with the error it ends with. *)
Fixpoint write_zones (fuel : nat) (c : C) (v : minix_vnode) (iter : iovec_iter)
    (znum zpos nbytes wbytes : Z) : res (C * minix_vnode * iovec_iter * Z * Z) :=
  match fuel with
  | O => Undef
  | S fuel =>
      '(c, v, zone) ← zone_lookup super c v znum MFS_CREATE_ZONE;
      if zone =? 0 then Val (c, v, iter, wbytes, ENOSPC)
      else
        '(c, buf) ← get_block c zone;
        if buf =? 0 then Val (c, v, iter, wbytes, EIO)
        else
          let zlen := zone_part zpos nbytes in
          block ← lift (buf_data c buf);
          '(iter, dest, _) ← lift (memcpy_out_of_iter iter (drop (Z.to_nat zpos) block) (u32 zlen));
          c ← set_buf_data c buf (take (Z.to_nat zpos) block ++ dest);
          '(c, _) ← release_block c buf BF_DIRTY;
          let wbytes := u32 (wbytes + zlen) in
          let nbytes := u32 (nbytes - zlen) in
          if 0 <? nbytes then write_zones fuel c v iter (u32 (znum + 1)) 0 nbytes wbytes
          else Val (c, v, iter, wbytes, 0)
  end.

Definition minix_write (c : C) (v : minix_vnode) (file : vfile) (iter : iovec_iter) :
    res (C * minix_vnode * vfile * iovec_iter * Z) :=
  if S_ISDIR (mode v) then Val (c, v, file, iter, EISDIR)
  else
    let nbytes := iovec_iter_remaining iter in
    let znum := Z.shiftr (position file) MINIX_V1_LOG_ZONE_SIZE in
    let zpos := Z.land (position file) (MINIX_V1_ZONE_SIZE - 1) in
    '(c, v, iter, wbytes, error) ← write_zones (transfer_fuel nbytes) c v iter znum zpos nbytes 0;
    let file := set_file_position file (u32 (position file + wbytes)) in
    let v := if size v <? position file then mark_vnode_dirty (set_size v (position file)) else v in
    let v := if negb (wbytes =? 0) then vfs_update_time mp_bits t v MTIME else v in
    Val (c, v, file, iter, if negb (error =? 0) then error else s32 wbytes).

Definition minix_seek (v : minix_vnode) (file : vfile) (pos whence : Z) : vfile * Z :=
  let target :=
    if whence =? SEEK_SET then Some pos
    else if whence =? SEEK_CUR then Some (u32 (position file + pos))
    else if whence =? SEEK_END then Some (u32 (size v + pos))
    else None in
  match target with
  | None => (file, u32 Iovec.EINVAL)
  | Some pos =>
      let pos := if size v <? pos then size v else pos in
      (set_file_position file pos, pos)
  end.
End file.

(** ** The contents of a file *)

(** The zone that holds byte [k] of the file. *)
Definition zone_of (d : gmap Z (list Z)) (zs : list Z) (k : nat) : Z := zp d zs (zpath (Z.of_nat (k / 1024))).

Definition file_byte (d : gmap Z (list Z)) (zs : list Z) (k : nat) : option Z :=
  if zone_of d zs k =? 0 then None
  else block ← d !! zone_of d zs k; block !! (k mod 1024)%nat.

Definition max_bytes : Z := zone_max * MINIX_V1_ZONE_SIZE.

(** The file holds [data]: there are no gaps. *)
Definition file_is (d : gmap Z (list Z)) (zs data : list Z) : Prop :=
  zlen data ≤ max_bytes ∧ ∀ k, (k < length data)%nat → file_byte d zs k = data !! k.

(** Byte [pos] is byte [zpos] of zone [znum]. *)
Definition in_zone (pos znum zpos : nat) : Prop := pos = (znum * 1024 + zpos)%nat ∧ (zpos < 1024)%nat.

Lemma in_zone_div pos znum zpos : in_zone pos znum zpos → (pos / 1024 = znum ∧ pos mod 1024 = zpos)%nat.
Proof.
  intros [-> Hz]. rewrite Nat.div_add_l, Nat.div_small by lia. split; [lia|].
  by rewrite Nat.add_comm, Nat.Div0.mod_add, Nat.mod_small by lia.
Qed.

Lemma in_zone_split pos : in_zone pos (pos / 1024) (pos mod 1024).
Proof.
  pose proof (Nat.div_mod pos 1024 ltac:(lia)). pose proof (Nat.mod_upper_bound pos 1024 ltac:(lia)).
  split; lia.
Qed.

Lemma zone_slice d zs data x znum zpos n pos :
  file_is d zs data → in_zone pos znum zpos → d !! zp d zs (zpath (Z.of_nat znum)) = Some x →
  (zpos + n ≤ 1024)%nat → (pos + n ≤ length data)%nat → slice x zpos n = slice data pos n.
Proof.
  intros [_ Hf] [-> Hz] Hx Hn Hd. apply list_eq. intros k. rewrite !lookup_slice.
  destruct (Nat.ltb_spec k n); [|done].
  destruct (in_zone_div (znum * 1024 + zpos + k) znum (zpos + k)) as [E1 E2]; [split; lia|].
  specialize (Hf (znum * 1024 + zpos + k)%nat ltac:(lia)).
  assert (is_Some (data !! (znum * 1024 + zpos + k)%nat)) as [y Hy] by (apply lookup_lt_is_Some; lia).
  unfold file_byte, zone_of in Hf. rewrite E1, E2 in Hf. zif_in Hf; [congruence|].
  rewrite Hx in Hf. done.
Qed.

Lemma file_zone d zs data znum zpos pos :
  file_is d zs data → in_zone pos znum zpos → (pos < length data)%nat →
  zp d zs (zpath (Z.of_nat znum)) ≠ 0 ∧ Z.of_nat znum < zone_max.
Proof.
  intros [Hm Hf] Hz Hp. destruct (in_zone_div _ _ _ Hz) as [E1 E2]. split.
  - assert (is_Some (data !! pos)) as [y Hy] by (by apply lookup_lt_is_Some).
    specialize (Hf pos Hp). unfold file_byte, zone_of in Hf. rewrite E1, Hy in Hf.
    destruct (Z.eqb_spec (zp d zs (zpath (Z.of_nat znum))) 0); [congruence|done].
  - destruct Hz as [-> Hz]. unfold max_bytes, MINIX_V1_ZONE_SIZE in Hm. lia.
Qed.

Lemma zone_part_ok zpos n : 0 ≤ zpos < 1024 → 0 ≤ n < 2 ^ 32 → zone_part zpos n = Z.min n (1024 - zpos).
Proof.
  intros Hz Hn. unfold zone_part, MINIX_V1_ZONE_SIZE. rewrite (s16_small (1024 - zpos)) by lia.
  rewrite u32_small by lia. destruct (Z.ltb_spec n (1024 - zpos)); [rewrite s16_small|]; lia.
Qed.

Section transfers.
Context (super : minix_v1_superblock) (nb zsize : nat) (mp_bits t : Z).
Context {C : Type} `{BlockStore C} `{!StoreLaws C 1024 nb} (Hgeo : geometry super nb zsize).

Abbreviation layout := (layout super nb zsize).
Abbreviation zones_ok := (zones_ok super).
Abbreviation W_ok := (W_ok super).
Abbreviation grow := (grow super nb zsize).
Abbreviation data_zone := (data_zone super).
Abbreviation zbit := (zbit super).
Abbreviation off_map := (off_map super zsize).
Abbreviation free_count := (free_count super).

Lemma read_zones_ok d l v held W own data s p start : ∀ fuel c it w n znum zpos,
  store_rel c d held W own → zlen held < 98 → layout d l → zones_ok d l (zones v) →
  W_ok d l (zones v) W → file_is d (zones v) data → zlen s < 2 ^ 31 →
  iter_rel it (splice s p (slice data start w)) (p + w) → in_zone (start + w) znum zpos →
  (start + w + n ≤ length data)%nat → (p + w + n ≤ length s)%nat →
  (zpos + n ≤ fuel * 1024)%nat → (0 < fuel)%nat →
  wp (read_zones super fuel c v it (Z.of_nat znum) (Z.of_nat zpos) (Z.of_nat n) (Z.of_nat w)) store_oom
    (λ '(c', v', it', r), v' = v ∧ r = Z.of_nat (w + n) ∧ store_rel c' d held W own ∧
       iter_rel it' (splice s p (slice data start (w + n))) (p + w + n)).
Proof.
  induction fuel as [|fuel IH]; intros c it w n znum zpos Hr Hh Hly Hzo HW Hf Hs Hit Hpos Hd Hp Hfu Hf0; [lia|].
  cbn [read_zones]. wp_step zone_lookup_find; [done|by left|done..|lia|done|]. intros [[c1 v1] z] (-> & -> & Hr1).
  pose proof (proj1 Hf) as Hmax. unfold max_bytes, zone_max, MINIX_V1_ZONE_SIZE in Hmax.
  destruct (Z.eqb_spec (zp d (zones v) (zpath (Z.of_nat znum))) 0) as [E|E].
  { assert (n = 0)%nat as ->.
    { destruct n; [done|]. by destruct (file_zone d (zones v) data znum zpos (start + w)) as [? _]; [done|done|lia|]. }
    cbn [wp]. rewrite !Nat.add_0_r. done. }
  assert (Hzn : Z.of_nat znum < zone_max).
  { destruct (Z.lt_ge_cases (Z.of_nat znum) zone_max); [done|]. destruct E.
    destruct (zpath_cases (Z.of_nat znum)) as [[? _]|[[? _]|[[? _]|[_ ->]]]]; unfold zone_max in *; lia || done. }
  pose proof (zpath_valid (Z.of_nat znum) ltac:(lia)) as Hv.
  destruct (table_block super nb zsize Hgeo d l (zones v) _ Hly Hzo Hv E) as (Hz & x & Hx & Hxl & _).
  pose proof (data_zone_block super nb zsize Hgeo _ Hz) as [Hzb _].
  eapply wp_get; [done|done|lia|]. intros c2 b x' Hb Hx' _ Hbd Hr2. assert (x' = x) as -> by congruence.
  destruct (Z.eqb_spec b 0); [done|]. rewrite Hbd. res_simpl. pose proof Hpos as [Epos Hzp].
  rewrite zone_part_ok by lia. set (m := (n `min` (1024 - zpos))%nat).
  replace (Z.of_nat n `min` (1024 - Z.of_nat zpos)) with (Z.of_nat m) by lia. rewrite Nat2Z.id, (u32_small (Z.of_nat m)) by lia.
  assert (Hlen : length (splice s p (slice data start w)) = length s)
    by (apply length_splice; rewrite length_slice; lia).
  destruct (memcpy_into_iter_spec it _ _ (drop zpos x) m Hit) as (it' & -> & Hit' & _); [rewrite length_drop; lia|lia|].
  res_simpl. rewrite Hlen, Nat.min_l in Hit' by lia. fold (slice x zpos m) in Hit'.
  rewrite (zone_slice d (zones v) data x znum zpos m (start + w)) in Hit' by (done || lia).
  rewrite splice_splice_adj, slice_app_adj in Hit' by (rewrite ?length_slice; lia).
  eapply wp_release; [done|lia|intros Hin; by destruct (HW _ Hin) as (_ & _ & Hno); apply (Hno _ Hv)|].
  intros c3 _ Hr3. rewrite !u32_small by lia.
  replace (Z.of_nat w + Z.of_nat m) with (Z.of_nat (w + m)) by lia.
  replace (Z.of_nat n - Z.of_nat m) with (Z.of_nat (n - m)) by lia.
  destruct (Z.ltb_spec 0 (Z.of_nat (n - m))).
  - replace (Z.of_nat znum + 1) with (Z.of_nat (S znum)) by lia. change 0 with (Z.of_nat 0).
    replace (w + n)%nat with (w + m + (n - m))%nat by lia. replace (p + w + n)%nat with (p + (w + m) + (n - m))%nat by lia.
    eapply IH; try done; [by replace (p + (w + m))%nat with (p + w + m)%nat by lia|split|..]; lia.
  - cbn [wp]. replace m with n in * by lia. split; [done|]. split; [done|]. split; [done|].
    by replace (p + w + n)%nat with (p + (w + n))%nat in Hit' |- * by lia.
Qed.

Lemma position_split pos : 0 ≤ pos →
  Z.shiftr pos MINIX_V1_LOG_ZONE_SIZE = Z.of_nat (Z.to_nat pos / 1024) ∧
  Z.land pos (MINIX_V1_ZONE_SIZE - 1) = Z.of_nat (Z.to_nat pos mod 1024).
Proof.
  intros Hp. rewrite Nat2Z.inj_div, Nat2Z.inj_mod, Z2Nat.id by done. rewrite Z.shiftr_div_pow2 by done.
  change (MINIX_V1_ZONE_SIZE - 1) with (Z.ones 10). by rewrite Z.land_ones.
Qed.

Lemma transfer_fuel_ok n zpos : (zpos < 1024)%nat → (zpos + n ≤ transfer_fuel (Z.of_nat n) * 1024)%nat ∧
  (0 < transfer_fuel (Z.of_nat n))%nat.
Proof.
  intros Hz. unfold transfer_fuel, MINIX_V1_LOG_ZONE_SIZE. rewrite Z.shiftr_div_pow2 by lia.
  pose proof (Z.div_mod (Z.of_nat n) (2 ^ 10) ltac:(lia)). pose proof (Z.mod_pos_bound (Z.of_nat n) (2 ^ 10) ltac:(lia)).
  pose proof (Z.div_pos (Z.of_nat n) (2 ^ 10)). lia.
Qed.

Lemma minix_read_ok c d l v f held W own data it s p :
  store_rel c d held W own → zlen held < 98 → layout d l → zones_ok d l (zones v) →
  W_ok d l (zones v) W → file_is d (zones v) data → size v = zlen data → S_ISDIR (mode v) = false →
  0 ≤ position f ≤ zlen data → iter_rel it s p →
  let n := ((length s - p) `min` (length data - Z.to_nat (position f)))%nat in
  wp (minix_read super c v f it) store_oom (λ '(c', v', f', it', r),
    v' = v ∧ f' = set_file_position f (position f + Z.of_nat n) ∧ r = Z.of_nat n ∧
    store_rel c' d held W own ∧ iter_rel it' (splice s p (slice data (Z.to_nat (position f)) n)) (p + n)).
Proof.
  intros Hr Hh Hly Hzo HW Hf Hsz Hdir Hpos Hit n. unfold minix_read. rewrite Hdir, Hsz.
  pose proof (iter_remaining_spec _ _ _ Hit) as Hrem. pose proof Hit as (_ & Hp & Hs & _). rewrite Hrem.
  pose proof (proj1 Hf) as Hmax. unfold max_bytes, zone_max, MINIX_V1_ZONE_SIZE in Hmax.
  rewrite u32_small by lia.
  assert ((if zlen data - position f <? Z.of_nat (length s - p) then zlen data - position f
    else Z.of_nat (length s - p)) = Z.of_nat n) as -> by (zif; lia).
  destruct (position_split (position f)) as [-> ->]; [lia|]. set (pos := Z.to_nat (position f)) in *.
  pose proof (in_zone_split pos) as Hin. destruct (transfer_fuel_ok n (pos mod 1024)) as [Hf1 Hf2]; [apply Hin|].
  change 0 with (Z.of_nat 0) at 1.
  wp_step (read_zones_ok d l v held W own data s p pos); try done; try (rewrite ?Nat.add_0_r; done || lia).
  { by rewrite slice_0, splice_nil, Nat.add_0_r. }
  intros [[[c1 v1] it1] r] (-> & -> & Hr1 & Hit1). cbn [wp]. rewrite u32_small, s32_small by lia.
  simpl in Hit1. rewrite Nat.add_0_r in Hit1. done.
Qed.

(** ** Writing *)

(** The disk changes for one file: zones that were free may become part of
    it, at most [k] of them, and only its own zones change. *)
Record evolves (k : nat) (d : gmap Z (list Z)) (l zs : list Z) (d' : gmap Z (list Z)) (l' zs' : list Z) :
    Prop := {
  ev_layout : layout d' l';
  ev_zones : zones_ok d' l' zs';
  ev_free : (free_count l ≤ k + free_count l')%nat;
  ev_bits : ∀ i, bit_at 8 l i = true → bit_at 8 l' i = true;
  ev_new : ∀ q, vpath q → zp d' zs' q = zp d zs q ∨ bit_at 8 l (zbit (zp d' zs' q)) = false;
  ev_data : ∀ n, data_zone n → bit_at 8 l (zbit n) = true → (∀ q, vpath q → zp d zs q ≠ n) → d' !! n = d !! n;
  ev_rest : ∀ n, off_map n → ¬ data_zone n → d' !! n = d !! n;
}.

Lemma grow_evolves P k d l zs d' l' zs' : grow P k d l zs d' l' zs' → evolves k d l zs d' l' zs'.
Proof.
  intros [G1 G2 G3 G4 G5 G6 G7 G8 G9 G10]. split; try done.
  - intros q Hq. destruct (decide (zp d zs q = 0)) as [E|E]; [|left; by apply G3].
    destruct (decide (zp d' zs' q = 0)) as [E'|E']; [left; congruence|right; by apply G8].
  - intros n Hn Hb Hno. apply G9; try done. intros j q _ Hjq Hne ->.
    apply (Hno q); [|done]. by apply (vpath_tail j).
Qed.

Lemma evolves_refl k d l zs : layout d l → zones_ok d l zs → evolves k d l zs d l zs.
Proof. intros. split; auto. lia. Qed.

Lemma evolves_trans k1 k2 d l zs d1 l1 zs1 d2 l2 zs2 :
  evolves k1 d l zs d1 l1 zs1 → evolves k2 d1 l1 zs1 d2 l2 zs2 → evolves (k1 + k2) d l zs d2 l2 zs2.
Proof.
  intros [A1 A2 A3 A4 A5 A6 A7] [B1 B2 B3 B4 B5 B6 B7]. split; try done; try lia.
  - auto.
  - intros q Hq. destruct (B5 q Hq) as [->|Hb]; [auto|]. right.
    destruct (bit_at 8 l _) eqn:E; [|done]. rewrite (A4 _ E) in Hb. done.
  - intros n Hn Hb Hno. rewrite B6, A6; auto. intros q Hq E.
    destruct (A5 q Hq) as [Eq|Eq]; [apply (Hno q Hq); congruence|]. rewrite E in Eq. congruence.
  - intros n Hn Hnd. by rewrite B7, A7.
Qed.

Lemma evolves_le k k' d l zs d' l' zs' : evolves k d l zs d' l' zs' → (k ≤ k')%nat →
  evolves k' d l zs d' l' zs'.
Proof. intros [] Hk. split; auto. lia. Qed.

Lemma evolves_W k d l zs d' l' zs' W : evolves k d l zs d' l' zs' → W_ok d l zs W → W_ok d' l' zs' W.
Proof.
  intros E HW n Hn. destruct (HW n Hn) as (Hz & Hb & Hno). split; [done|].
  split; [by apply (ev_bits _ _ _ _ _ _ _ E)|]. intros q Hq Eq.
  destruct (ev_new _ _ _ _ _ _ _ E q Hq) as [Eq'|Eq']; [apply (Hno q Hq)|]; congruence.
Qed.

(** Where a zone of data is not used as a table. *)
Lemma data_not_table d l zs znum j q : zones_ok d l zs → 0 ≤ znum < zone_max → vpath (j :: q) → q ≠ [] →
  zp d zs (zpath znum) ≠ 0 → zp d zs (zpath znum) ≠ zp d zs q.
Proof.
  intros Hzo Hz Hjq Hne Hn E. destruct (vpath_tail j q Hjq Hne) as [Hq _].
  apply (zo_inj _ _ _ _ Hzo) in E as <-; try done; [|by apply zpath_valid].
  by apply (zpath_leaf znum j Hz).
Qed.

(** The contents of a zone of data are replaced. *)
Lemma set_data_zp d l zs znum x : zones_ok d l zs → 0 ≤ znum < zone_max → zp d zs (zpath znum) ≠ 0 →
  ∀ q, vpath q → zp (<[zp d zs (zpath znum) := x]> d) zs q = zp d zs q.
Proof.
  intros Hzo Hz Hn. apply zp_frame. intros j q Hjq Hne _.
  by rewrite lookup_insert_ne by (by eapply data_not_table).
Qed.

Lemma evolves_set d l zs znum x : layout d l → zones_ok d l zs → 0 ≤ znum < zone_max →
  zp d zs (zpath znum) ≠ 0 → length x = 1024%nat → Forall byte_ok x →
  evolves 0 d l zs (<[zp d zs (zpath znum) := x]> d) l zs.
Proof.
  intros Hly Hzo Hz Hn Hx Hb. pose proof (zpath_valid znum Hz) as Hv.
  pose proof (set_data_zp d l zs znum x Hzo Hz Hn) as Hzp.
  destruct (zo_used _ _ _ _ Hzo _ Hv Hn) as [Hdz _]. split; try done.
  - by apply layout_set.
  - destruct Hzo as [Z1 Z2 Z3 Z4]. split; try done.
    + intros q Hq. rewrite Hzp by done. auto.
    + intros q q' Hq Hq'. rewrite !Hzp by done. auto.
  - intros q Hq. left. auto.
  - intros n _ _ Hno. by rewrite lookup_insert_ne by auto.
  - intros n _ Hnd. rewrite lookup_insert_ne; [done|]. by intros <-.
Qed.

(** A file keeps its contents while it grows. *)
Lemma file_grow P k d l zs d' l' zs' data :
  zones_ok d l zs → grow P k d l zs d' l' zs' → file_is d zs data → file_is d' zs' data.
Proof.
  intros Hzo G [Hm Hf]. split; [done|]. intros i Hi. rewrite <- Hf by done.
  pose proof (in_zone_split i) as Hiz.
  destruct (file_zone d zs data _ _ i (conj Hm Hf) Hiz Hi) as [Hn Hz].
  assert (0 ≤ Z.of_nat (i / 1024) < zone_max) as Hz' by lia. pose proof (zpath_valid _ Hz') as Hv.
  unfold file_byte, zone_of. rewrite (gr_keep _ _ _ _ _ _ _ _ _ _ _ G _ Hv Hn).
  destruct (zo_used _ _ _ _ Hzo _ Hv Hn) as [Hdz Hb].
  rewrite (gr_data _ _ _ _ _ _ _ _ _ _ _ G _ Hdz Hb); [done|].
  intros j q _ Hjq Hne. by eapply data_not_table.
Qed.

(** A file whose zone is written. *)
Lemma file_set d l zs data znum zpos pos x bs :
  zones_ok d l zs → file_is d zs data → in_zone pos znum zpos → Z.of_nat znum < zone_max →
  zp d zs (zpath (Z.of_nat znum)) ≠ 0 → d !! zp d zs (zpath (Z.of_nat znum)) = Some x →
  length x = 1024%nat → (zpos + length bs ≤ 1024)%nat → (pos ≤ length data)%nat →
  file_is (<[zp d zs (zpath (Z.of_nat znum)) := splice x zpos bs]> d) zs (splice data pos bs).
Proof.
  intros Hzo [Hm Hf] [-> Hzl] Hz Hn Hx Hxl Hbs Hpos.
  pose proof (set_data_zp d l zs (Z.of_nat znum) (splice x zpos bs) Hzo ltac:(lia) Hn) as Hzp.
  split. { rewrite length_splice_grow by done. unfold max_bytes, MINIX_V1_ZONE_SIZE in *. lia. }
  intros k Hk. rewrite length_splice_grow in Hk by done. rewrite lookup_splice_grow by done.
  pose proof (in_zone_split k) as [Ek Hkm]. set (kz := (k / 1024)%nat) in *. set (km := (k mod 1024)%nat) in *.
  assert (Hkz : 0 ≤ Z.of_nat kz < zone_max) by (unfold max_bytes, MINIX_V1_ZONE_SIZE in *; lia).
  unfold file_byte, zone_of. fold kz km. rewrite Hzp by (by apply zpath_valid).
  destruct (decide (kz = znum)) as [<-|Hne].
  - destruct (Z.eqb_spec (zp d zs (zpath (Z.of_nat kz))) 0); [done|].
    rewrite lookup_insert_eq. cbn [mbind option_bind]. rewrite lookup_splice by lia.
    assert (Hold : (k < length data)%nat → x !! km = data !! k).
    { intros Hkd. rewrite <- Hf by done. unfold file_byte, zone_of. fold kz km.
      destruct (Z.eqb_spec (zp d zs (zpath (Z.of_nat kz))) 0); [done|]. by rewrite Hx. }
    destruct (Nat.ltb_spec km zpos), (Nat.ltb_spec k (kz * 1024 + zpos)); try lia; [apply Hold; lia|].
    destruct (Nat.ltb_spec km (zpos + length bs)), (Nat.ltb_spec k (kz * 1024 + zpos + length bs)); try lia.
    + f_equal. lia.
    + apply Hold. lia.
  - assert (Hzk : zp d zs (zpath (Z.of_nat kz)) ≠ zp d zs (zpath (Z.of_nat znum))).
    { intros E. symmetry in E. apply (zo_inj _ _ _ _ Hzo) in E; [|apply zpath_valid; lia..|done].
      apply zpath_inj in E; lia. }
    rewrite lookup_insert_ne by done.
    assert (Hkd : (k < length data)%nat) by lia.
    transitivity (file_byte d zs k); [done|]. rewrite Hf by done.
    destruct (Nat.ltb_spec k (znum * 1024 + zpos)), (Nat.ltb_spec k (znum * 1024 + zpos + length bs)); done || lia.
Qed.

(** One zone of a transfer to the disk. *)
Lemma write_zone {B} c d l v held W own data znum zpos pos bs b x (k : C * Z → res B) Q :
  store_rel c d ((b, zp d (zones v) (zpath (Z.of_nat znum))) :: held) W own → zlen held < 98 →
  layout d l → zones_ok d l (zones v) → W_ok d l (zones v) W → file_is d (zones v) data →
  in_zone pos znum zpos → Z.of_nat znum < zone_max → zp d (zones v) (zpath (Z.of_nat znum)) ≠ 0 →
  d !! zp d (zones v) (zpath (Z.of_nat znum)) = Some x → length x = 1024%nat → Forall byte_ok x →
  Forall byte_ok bs → (zpos + length bs ≤ 1024)%nat → (pos ≤ length data)%nat →
  (∀ c' d', store_rel c' d' held W own → evolves 0 d l (zones v) d' l (zones v) →
     file_is d' (zones v) (splice data pos bs) → wp (k (c', 0)) store_oom Q) →
  wp (c ← set_buf_data c b (take zpos x ++ splice (drop zpos x) 0 bs);
      r ← release_block c b BF_DIRTY; k r) store_oom Q.
Proof.
  intros Hr Hh Hly Hzo HW Hf Hpos Hz Hn Hx Hxl Hxb Hbb Hbs Hp Hk.
  pose proof (zpath_valid (Z.of_nat znum) ltac:(lia)) as Hv.
  assert (take zpos x ++ splice (drop zpos x) 0 bs = splice x zpos bs) as ->.
  { unfold splice. rewrite take_0, drop_drop. done. }
  eapply wp_put_release; [done|lia| | |].
  - intros Hin. destruct (HW _ Hin) as (_ & _ & Hno). by apply (Hno _ Hv).
  - destruct Hpos. by rewrite length_splice by lia.
  - intros c' Hr'. eapply Hk; [exact Hr'| |by eapply file_set].
    destruct Hpos. apply evolves_set; try done; [lia|by rewrite length_splice by lia|].
    unfold splice. apply Forall_app. split; [by apply Forall_take|]. apply Forall_app.
    split; [done|by apply Forall_drop].
Qed.

Lemma write_zones_ok held W own s p start : ∀ fuel c d l v it data w n znum zpos,
  store_rel c d held W own → zlen held < 98 → layout d l → zones_ok d l (zones v) →
  W_ok d l (zones v) W → file_is d (zones v) data → zlen s < 2 ^ 31 → Forall byte_ok s →
  iter_rel it s (p + w) → in_zone (start + w) znum zpos → (start + w ≤ length data)%nat →
  (p + w + n ≤ length s)%nat → (zpos + n ≤ fuel * 1024)%nat → (0 < fuel)%nat →
  Z.of_nat (start + w + n) ≤ max_bytes → Z.of_nat (start + w) < max_bytes → (3 * fuel ≤ free_count l)%nat →
  wp (write_zones super fuel c v it (Z.of_nat znum) (Z.of_nat zpos) (Z.of_nat n) (Z.of_nat w)) store_oom
    (λ '(c', v', it', r, error), ∃ d' l' zs', v' = set_zones v zs' ∧ error = 0 ∧ r = Z.of_nat (w + n) ∧
       store_rel c' d' held W own ∧ evolves (3 * fuel) d l (zones v) d' l' zs' ∧
       file_is d' zs' (splice data (start + w) (slice s (p + w) n)) ∧ iter_rel it' s (p + w + n)).
Proof.
  induction fuel as [|fuel IH]; intros c d l v it data w n znum zpos Hr Hh Hly Hzo HW Hf Hs Hsb Hit Hpos Hd Hp
    Hfu Hf0 Hmax Hmax' Hfree; [lia|].
  cbn [write_zones]. unfold max_bytes, MINIX_V1_ZONE_SIZE in Hmax, Hmax'. pose proof Hpos as [Epos Hzp].
  assert (Hzn : 0 ≤ Z.of_nat znum < zone_max) by lia. pose proof (zpath_valid _ Hzn) as Hv.
  wp_step zone_lookup_create; try done; [lia|].
  intros [[c1 v1] z] (d1 & l1 & zs1 & -> & Hr1 & G & -> & Hz & _).
  pose proof (grow_evolves _ _ _ _ _ _ _ _ G) as E1. pose proof (gr_layout _ _ _ _ _ _ _ _ _ _ _ G) as Hly1.
  pose proof (gr_zones _ _ _ _ _ _ _ _ _ _ _ G) as Hzo1.
  pose proof (file_grow _ _ _ _ _ _ _ _ _ Hzo G Hf) as Hf1. pose proof (evolves_W _ _ _ _ _ _ _ _ E1 HW) as HW1.
  destruct (Z.eqb_spec (zp d1 zs1 (zpath (Z.of_nat znum))) 0); [done|].
  destruct (table_block super nb zsize Hgeo d1 l1 zs1 _ Hly1 Hzo1 Hv Hz) as (Hdz & x & Hx & Hxl & Hxb).
  pose proof (data_zone_block super nb zsize Hgeo _ Hdz) as [Hzb _].
  eapply wp_get; [done|done|lia|]. intros c2 b x' Hb Hx' _ Hbd Hr2. assert (x' = x) as -> by congruence.
  destruct (Z.eqb_spec b 0); [done|]. rewrite Hbd. res_simpl.
  unfold zone_max in Hzn. rewrite zone_part_ok by lia. set (m := (n `min` (1024 - zpos))%nat).
  replace (Z.of_nat n `min` (1024 - Z.of_nat zpos)) with (Z.of_nat m) by lia.
  rewrite Nat2Z.id, (u32_small (Z.of_nat m)) by lia.
  destruct (memcpy_out_of_iter_spec it s (p + w) (drop zpos x) m Hit) as (it' & -> & Hit'); [rewrite length_drop; lia|lia|].
  res_simpl. rewrite Nat.min_l in Hit' |- * by lia.
  assert (Hsl : length (slice s (p + w) m) = m) by (rewrite length_slice; lia).
  set (v1 := set_zones v zs1) in *.
  assert (Hsbm : Forall byte_ok (slice s (p + w) m)) by (by apply Forall_take, Forall_drop).
  eapply (write_zone c2 d1 l1 v1 held W own data znum zpos (start + w)); try done; [unfold zone_max|..]; try lia.
  intros c3 d3 Hr3 E3 Hf3. rewrite !u32_small by lia. pose proof (evolves_trans _ _ _ _ _ _ _ _ _ _ _ E1 E3) as E13.
  replace (Z.of_nat w + Z.of_nat m) with (Z.of_nat (w + m)) by lia.
  replace (Z.of_nat n - Z.of_nat m) with (Z.of_nat (n - m)) by lia.
  destruct (Z.ltb_spec 0 (Z.of_nat (n - m))).
  - replace (Z.of_nat znum + 1) with (Z.of_nat (S znum)) by lia. change 0 with (Z.of_nat 0).
    pose proof (ev_free _ _ _ _ _ _ _ E13).
    eapply wp_mono; [eapply (IH c3 d3 l1 v1 it' _ (w + m)%nat (n - m)%nat (S znum) 0%nat)|done|]; try done.
    all: try (rewrite ?length_splice_grow; lia).
    { apply E3. } { apply E3. } { by eapply evolves_W. }
    { by replace (p + (w + m))%nat with (p + w + m)%nat by lia. } { split; lia. }
    { unfold max_bytes, MINIX_V1_ZONE_SIZE. lia. } { unfold max_bytes, MINIX_V1_ZONE_SIZE. lia. }
    intros [[[[c4 v4] it4] r] e] (d4 & l4 & zs4 & -> & -> & -> & Hr4 & E4 & Hf4 & Hit4).
    exists d4, l4, zs4. split; [done|]. split; [done|]. split; [lia|]. split; [done|].
    split; [by replace (3 * S fuel)%nat with (3 + 0 + 3 * fuel)%nat by lia; eapply evolves_trans|].
    replace (start + (w + m))%nat with (start + w + length (slice s (p + w) m))%nat in Hf4 by lia.
    rewrite splice_splice_grow in Hf4 by lia.
    replace (p + (w + m))%nat with (p + w + m)%nat in Hf4, Hit4 by lia.
    rewrite slice_app_adj in Hf4 by lia. replace (m + (n - m))%nat with n in Hf4 by lia.
    by replace (p + w + m + (n - m))%nat with (p + w + n)%nat in Hit4 by lia.
  - cbn [wp]. replace m with n in * by lia. exists d3, l1, zs1. split; [done|]. split; [done|]. split; [done|].
    split; [done|]. split; [|done]. eapply evolves_le; [exact E13|lia].
Qed.

(** What a write does not change of the vnode. *)
Definition same_node (v v' : minix_vnode) : Prop :=
  refcount v' = refcount v ∧ mode v' = mode v ∧ nlinks v' = nlinks v ∧ uid v' = uid v ∧ gid v' = gid v ∧
  rdev v' = rdev v ∧ ino v' = ino v.

Lemma update_time_node m t' v u : same_node v (vfs_update_time m t' v u) ∧
  zones (vfs_update_time m t' v u) = zones v ∧ size (vfs_update_time m t' v u) = size v.
Proof. unfold vfs_update_time. by destruct (negb _). Qed.

Lemma minix_write_ok c d l v f held W own data it s p :
  store_rel c d held W own → zlen held < 98 → layout d l → zones_ok d l (zones v) →
  W_ok d l (zones v) W → file_is d (zones v) data → size v = zlen data → S_ISDIR (mode v) = false →
  0 ≤ position f ≤ zlen data → iter_rel it s p → Forall byte_ok s →
  let n := (length s - p)%nat in
  position f + Z.of_nat n ≤ max_bytes → position f < max_bytes →
  (3 * transfer_fuel (Z.of_nat n) ≤ free_count l)%nat →
  wp (minix_write super mp_bits t c v f it) store_oom (λ '(c', v', f', it', r), ∃ d' l',
    same_node v v' ∧ f' = set_file_position f (position f + Z.of_nat n) ∧ r = Z.of_nat n ∧
    store_rel c' d' held W own ∧ evolves (3 * transfer_fuel (Z.of_nat n)) d l (zones v) d' l' (zones v') ∧
    file_is d' (zones v') (splice data (Z.to_nat (position f)) (drop p s)) ∧
    size v' = zlen (splice data (Z.to_nat (position f)) (drop p s)) ∧ iter_rel it' s (length s)).
Proof.
  intros Hr Hh Hly Hzo HW Hf Hsz Hdir Hpos Hit Hsb n Hm1 Hm2 Hfree. unfold minix_write. rewrite Hdir.
  pose proof (iter_remaining_spec _ _ _ Hit) as Hrem. pose proof Hit as (_ & Hp & Hs & _). rewrite Hrem. fold n.
  destruct (position_split (position f)) as [-> ->]; [lia|].
  assert (Hmb : max_bytes < 2 ^ 31) by (unfold max_bytes, zone_max, MINIX_V1_ZONE_SIZE; lia).
  set (pos := Z.to_nat (position f)) in *. assert (Epos : position f = Z.of_nat pos) by lia.
  pose proof (in_zone_split pos) as Hin. destruct (transfer_fuel_ok n (pos mod 1024)) as [Hf1 Hf2]; [apply Hin|].
  wp_step (write_zones_ok held W own s p pos (transfer_fuel (Z.of_nat n)) c d l v it data 0 n); try done; try (rewrite ?Nat.add_0_r; done || lia).
  intros [[[[c1 v1] it1] r] e] (d1 & l1 & zs1 & -> & -> & -> & Hr1 & E1 & Hf1' & Hit1). simpl in Hit1 |- *.
  rewrite !Nat.add_0_r in Hf1'. rewrite !Nat.add_0_r in Hit1.
  assert (Hsl : slice s p n = drop p s) by (unfold slice; apply take_ge; rewrite length_drop; lia). rewrite Hsl in Hf1'.
  assert (Hlen : length (splice data pos (drop p s)) = (length data `max` (pos + n))%nat)
    by (rewrite length_splice_grow, length_drop; lia).
  rewrite u32_small, s32_small, Hlen, Hsz by lia.
  set (v2 := if zlen data <? position f + Z.of_nat n then _ else _).
  assert (H2 : same_node v v2 ∧ zones v2 = zs1 ∧ size v2 = Z.of_nat (length data `max` (pos + n))).
  { unfold v2. destruct (Z.ltb_spec (zlen data) (position f + Z.of_nat n)); simpl; split_and!; done || lia. }
  clearbody v2. destruct H2 as (H2a & <- & H2c).
  set (v3 := if negb _ then _ else _).
  assert (H3 : same_node v v3 ∧ zones v3 = zones v2 ∧ size v3 = size v2).
  { unfold v3. destruct (negb _); [|done]. destruct (update_time_node mp_bits t v2 MTIME) as (U1 & -> & ->).
    split; [|done]. unfold same_node in *. intuition congruence. }
  clearbody v3. destruct H3 as (H3a & Hz3 & Hs3). exists d1, l1. rewrite Hz3, Hs3.
  replace (p + n)%nat with (length s) in Hit1 by lia. done.
Qed.

Lemma minix_seek_ok v f (data : list Z) off whence : size v = zlen data → 0 ≤ position f ≤ zlen data →
  0 ≤ off < 2 ^ 32 → zlen data < 2 ^ 31 →
  let target := if whence =? SEEK_SET then Some off
    else if whence =? SEEK_CUR then Some ((position f + off) mod 2 ^ 32)
    else if whence =? SEEK_END then Some ((zlen data + off) mod 2 ^ 32) else None in
  minix_seek v f off whence =
    match target with
    | Some p => (set_file_position f (Z.min p (zlen data)), Z.min p (zlen data))
    | None => (f, 2 ^ 32 - 22)
    end.
Proof.
  intros Hsz Hpos Hoff Hd target. unfold minix_seek. rewrite Hsz.
  assert (Hmin : ∀ p, (if zlen data <? p then zlen data else p) = Z.min p (zlen data)) by (intros p; zif; lia).
  unfold target, u32, uwrap. cbv zeta.
  destruct (whence =? SEEK_SET); [by rewrite Hmin|]. destruct (whence =? SEEK_CUR); [by rewrite Hmin|].
  by destruct (whence =? SEEK_END); [rewrite Hmin|].
Qed.
End transfers.
