(* ===== verification/Minixrun.v ===== *)
(** * Minixrun: files of the Minix file system as byte strings

    Any number of open files, which may share their vnodes, are read, written
    and repositioned.  The specification keeps a byte string for each vnode, a
    position for each open file, and the number of zones that may still be
    taken. *)

From S2P Require Import Prelude Iovec Bits Result Device Blockstore Minixmap Minixzone Minixfile.

Inductive file_op :=
  | OpRead (n : nat)
  | OpWrite (bs : list Z)
  | OpSeek (off whence : Z).

(** The bytes of the buffer of an iterator. *)
Definition iter_bytes (it : iovec_iter) : list Z :=
  match it_data it with
  | ITER_USER_BUF b _ => b
  | ITER_KVEC segs => flat segs
  | ITER_INVALID _ => []
  end.

Definition buffer_iter (b : list Z) : iovec_iter := iovec_iter_init_simple_kvec b (zlen b).

(** ** The specification *)

Record spec_state := Spec {
  sp_data : list (list Z);
  sp_files : list (nat * nat);
  sp_free : nat;
}.

Definition seek_to (pos len : nat) (off whence : Z) : option Z :=
  let base := if whence =? SEEK_SET then Some 0 else if whence =? SEEK_CUR then Some (Z.of_nat pos)
              else if whence =? SEEK_END then Some (Z.of_nat len) else None in
  (λ b, Z.min ((b + off) mod 2 ^ 32) (Z.of_nat len)) <$> base.

(** What an operation on open file [i] does, with its return value and the
    bytes that were read; nothing is said about a write that may not fit. *)
Definition spec_step (sp : spec_state) (iop : nat * file_op) : option (spec_state * (Z * list Z)) :=
  let '(i, op) := iop in
  '(node, pos) ← sp_files sp !! i;
  data ← sp_data sp !! node;
  match op with
  | OpRead n =>
      if Z.of_nat n <? 2 ^ 31 then
        let k := (n `min` (length data - pos))%nat in
        Some (Spec (sp_data sp) (<[i := (node, (pos + k)%nat)]> (sp_files sp)) (sp_free sp),
              (Z.of_nat k, slice data pos k))
      else None
  | OpWrite bs =>
      let need := (3 * transfer_fuel (zlen bs))%nat in
      if (zlen bs <? 2 ^ 31) && (Z.of_nat pos + zlen bs <=? max_bytes) && (Z.of_nat pos <? max_bytes) &&
         (need <=? sp_free sp)%nat && bool_decide (Forall byte_ok bs) then
        Some (Spec (<[node := splice data pos bs]> (sp_data sp))
                (<[i := (node, (pos + length bs)%nat)]> (sp_files sp)) (sp_free sp - need),
              (zlen bs, []))
      else None
  | OpSeek off whence =>
      if (0 <=? off) && (off <? 2 ^ 32) then
        match seek_to pos (length data) off whence with
        | Some p => Some (Spec (sp_data sp) (<[i := (node, Z.to_nat p)]> (sp_files sp)) (sp_free sp), (p, []))
        | None => Some (sp, (2 ^ 32 - 22, []))
        end
      else None
  end.

(** ** The code *)
Section run.
Context {C : Type} `{BlockStore C} (super : minix_v1_superblock) (mp_bits t : Z).

Record fs_state := FS {
  fs_store : C;
  fs_nodes : list minix_vnode;
  fs_files : list (nat * vfile);
}.

Definition fs_step (st : fs_state) (iop : nat * file_op) : res (fs_state * (Z * list Z)) :=
  let '(i, op) := iop in
  '(node, file) ← lift (fs_files st !! i);
  v ← lift (fs_nodes st !! node);
  match op with
  | OpRead n =>
      '(c, v, file, it, r) ← minix_read super (fs_store st) v file (buffer_iter (replicate n 0));
      Val (FS c (<[node := v]> (fs_nodes st)) (<[i := (node, file)]> (fs_files st)),
           (r, take (Z.to_nat r) (iter_bytes it)))
  | OpWrite bs =>
      '(c, v, file, _, r) ← minix_write super mp_bits t (fs_store st) v file (buffer_iter bs);
      Val (FS c (<[node := v]> (fs_nodes st)) (<[i := (node, file)]> (fs_files st)), (r, []))
  | OpSeek off whence =>
      let '(file, r) := minix_seek v file off whence in
      Val (FS (fs_store st) (fs_nodes st) (<[i := (node, file)]> (fs_files st)), (r, []))
  end.

Fixpoint fs_run (st : fs_state) (ops : list (nat * file_op)) : res (fs_state * list (Z * list Z)) :=
  match ops with
  | [] => Val (st, [])
  | op :: ops =>
      '(st, out) ← fs_step st op;
      '(st, outs) ← fs_run st ops;
      Val (st, out :: outs)
  end.
End run.
Arguments fs_state : clear implicits.
Arguments FS {_}.

(** ** Files do not interfere *)
Section refine.
Context (super : minix_v1_superblock) (nb zsize : nat) (mp_bits t : Z).
Context {C : Type} `{BlockStore C} `{!StoreLaws C 1024 nb} (Hgeo : geometry super nb zsize).

(** No zone of the first file is one of the second. *)
Definition apart (d : gmap Z (list Z)) (zs zs2 : list Z) : Prop :=
  ∀ p q, vpath p → vpath q → zp d zs p ≠ 0 → zp d zs p ≠ zp d zs2 q.

(** A file on the disk that a vnode stands for. *)
Record node_ok (d : gmap Z (list Z)) (l : list Z) (v : minix_vnode) (data : list Z) : Prop := {
  nd_zones : zones_ok super d l (zones v);
  nd_data : file_is d (zones v) data;
  nd_size : size v = zlen data;
  nd_file : S_ISDIR (mode v) = false;
}.

Lemma apart_sym d zs zs2 : apart d zs zs2 → apart d zs2 zs.
Proof. intros Ha p q Hp Hq Hn E. apply (Ha q p Hq Hp); congruence. Qed.

(** The zones of another file stay, and what is in them. *)
Lemma evolves_other k d l zs d' l' zs' zs2 :
  evolves super nb zsize k d l zs d' l' zs' → zones_ok super d l zs2 → apart d zs2 zs →
  (∀ q, vpath q → zp d' zs2 q = zp d zs2 q) ∧
  (∀ q, vpath q → zp d zs2 q ≠ 0 → d' !! zp d zs2 q = d !! zp d zs2 q) ∧
  zones_ok super d' l' zs2 ∧ apart d' zs2 zs'.
Proof.
  intros E Hzo Ha.
  assert (Hd : ∀ q, vpath q → zp d zs2 q ≠ 0 → d' !! zp d zs2 q = d !! zp d zs2 q).
  { intros q Hq Hn. destruct (zo_used _ _ _ _ Hzo q Hq Hn). apply (ev_data _ _ _ _ _ _ _ _ _ _ E); [done..|].
    intros p Hp. apply not_eq_sym. by apply Ha. }
  assert (Hzp : ∀ q, vpath q → zp d' zs2 q = zp d zs2 q).
  { apply zp_frame. intros j q Hjq Hne Hn. apply Hd; [|done]. by apply (vpath_tail j). }
  split; [done|]. split; [done|]. split.
  - destruct Hzo as [Z1 Z2 Z3 Z4]. split; try done.
    + intros q Hq. rewrite Hzp by done. intros Hn. destruct (Z3 q Hq Hn). split; [done|].
      by apply (ev_bits _ _ _ _ _ _ _ _ _ _ E).
    + intros q q' Hq Hq'. rewrite !Hzp by done. auto.
  - intros p q Hp Hq. rewrite Hzp by done. intros Hn Eq. destruct (zo_used _ _ _ _ Hzo p Hp Hn) as [_ Hb].
    destruct (ev_new _ _ _ _ _ _ _ _ _ _ E q Hq) as [Eq'|Eq']; [|congruence].
    apply (Ha p q); congruence.
Qed.

Lemma node_other k d l zs d' l' zs' v data :
  evolves super nb zsize k d l zs d' l' zs' → node_ok d l v data → apart d (zones v) zs →
  node_ok d' l' v data.
Proof.
  intros E [Hzo Hf Hs Hm] Ha. destruct (evolves_other _ _ _ _ _ _ _ _ E Hzo Ha) as (Hzp & Hd & Hzo' & _).
  split; try done. destruct Hf as [Hmax Hf]. split; [done|]. intros i Hi. rewrite <- Hf by done.
  destruct (file_zone d (zones v) data _ _ i (conj Hmax Hf) (in_zone_split i) Hi) as [Hn Hz].
  assert (Hv : vpath (zpath (Z.of_nat (i / 1024)))) by (apply zpath_valid; lia).
  unfold file_byte, zone_of. by rewrite Hzp, Hd by done.
Qed.

(** The vnodes stand for the byte strings and share no zone. *)
Record nodes_ok (d : gmap Z (list Z)) (l : list Z) (vs : list minix_vnode) (datas : list (list Z)) : Prop := {
  ns_each : Forall2 (node_ok d l) vs datas;
  ns_apart : ∀ i j v w, i ≠ j → vs !! i = Some v → vs !! j = Some w → apart d (zones v) (zones w);
}.

Lemma nodes_update k d l d' l' vs datas i v v' data' :
  nodes_ok d l vs datas → vs !! i = Some v → evolves super nb zsize k d l (zones v) d' l' (zones v') →
  node_ok d' l' v' data' → nodes_ok d' l' (<[i := v']> vs) (<[i := data']> datas).
Proof.
  intros [He Ha] Hi E Hv'. assert (Hil : (i < length vs)%nat) by (by eapply lookup_lt_Some).
  assert (Hother : ∀ j w, j ≠ i → vs !! j = Some w →
    zones_ok super d l (zones w) ∧ apart d (zones w) (zones v)).
  { intros j w Hj Hw. destruct (Forall2_lookup_l _ _ _ _ _ He Hw) as (y & _ & Hn).
    split; [apply Hn|]. by apply (Ha j i). }
  assert (Hcase : ∀ j w, <[i := v']> vs !! j = Some w → (j = i ∧ w = v') ∨ (j ≠ i ∧ vs !! j = Some w)).
  { intros j w [(-> & -> & _)|[? ?]]%list_lookup_insert_Some; auto. }
  split.
  - apply Forall2_same_length_lookup. split.
    { rewrite !length_insert. by apply Forall2_length in He. }
    intros j w y Hw Hy. destruct (decide (j = i)) as [->|Hj].
    + rewrite list_lookup_insert_eq in Hw by done. apply Forall2_length in He as Hlen.
      rewrite list_lookup_insert_eq in Hy by lia. by simplify_eq.
    + rewrite list_lookup_insert_ne in Hw by done. rewrite list_lookup_insert_ne in Hy by done.
      eapply node_other; [done|by eapply Forall2_lookup_lr|by apply (Ha j i)].
  - intros j1 j2 w1 w2 Hj H1 H2.
    destruct (Hcase j1 w1 H1) as [[-> ->]|[Hj1 H1']], (Hcase j2 w2 H2) as [[-> ->]|[Hj2 H2']]; [done|..].
    + destruct (Hother j2 w2) as [Hz Hap]; try done.
      apply apart_sym. by eapply evolves_other.
    + destruct (Hother j1 w1) as [Hz Hap]; try done. by eapply evolves_other.
    + destruct (Hother j1 w1 Hj1 H1') as [Hz1 Ha1], (Hother j2 w2 Hj2 H2') as [Hz2 Ha2].
      destruct (evolves_other _ _ _ _ _ _ _ _ E Hz1 Ha1) as (E1 & _).
      destruct (evolves_other _ _ _ _ _ _ _ _ E Hz2 Ha2) as (E2 & _).
      intros p q Hp Hq. rewrite E1, E2 by done. by apply (Ha j1 j2).
Qed.

Definition file_rel (datas : list (list Z)) (f : nat * vfile) (sf : nat * nat) : Prop :=
  f.1 = sf.1 ∧ position f.2 = Z.of_nat sf.2 ∧ ∃ data, datas !! sf.1 = Some data ∧ (sf.2 ≤ length data)%nat.

Definition fs_rel (own : gset Z) (st : fs_state C) (sp : spec_state) : Prop :=
  ∃ d l, store_rel (fs_store st) d [] ∅ own ∧ layout super nb zsize d l ∧ (sp_free sp ≤ free_count super l)%nat ∧
    nodes_ok d l (fs_nodes st) (sp_data sp) ∧ Forall2 (file_rel (sp_data sp)) (fs_files st) (sp_files sp).

Lemma buffer_iter_rel b : zlen b < 2 ^ 31 → iter_rel (buffer_iter b) b 0.
Proof. apply simple_kvec_rel. Qed.

Lemma iter_bytes_rel it s p : iter_rel it s p → iter_bytes it = s.
Proof. intros (_ & _ & _ & Hd). unfold iter_bytes. destruct (it_data it); [tauto|tauto|done]. Qed.

Lemma file_rel_grow datas node data data' f sf :
  datas !! node = Some data → (length data ≤ length data')%nat → file_rel datas f sf →
  file_rel (<[node := data']> datas) f sf.
Proof.
  intros Hn Hl (H1 & H2 & x & Hx & Hp). split; [done|]. split; [done|].
  destruct (decide (sf.1 = node)) as [E|E].
  - exists data'. rewrite E. split; [apply list_lookup_insert_eq; by eapply lookup_lt_Some|].
    assert (x = data) as -> by congruence. lia.
  - exists x. by rewrite list_lookup_insert_ne.
Qed.

(** The open file after the operation. *)
Lemma files_update datas files sfiles i node f pos data :
  Forall2 (file_rel datas) files sfiles → datas !! node = Some data → (pos ≤ length data)%nat →
  position f = Z.of_nat pos →
  Forall2 (file_rel datas) (<[i := (node, f)]> files) (<[i := (node, pos)]> sfiles).
Proof. intros Hf Hd Hp Hpos. apply Forall2_insert; [done|]. split; [done|]. split; [done|]. eauto. Qed.

Lemma seek_to_range pos len off whence p : seek_to pos len off whence = Some p → 0 ≤ p ≤ Z.of_nat len.
Proof.
  unfold seek_to. set (base := if whence =? SEEK_SET then _ else _). clearbody base.
  destruct base as [b|]; [|done]. intros [= <-]. pose proof (Z.mod_pos_bound (b + off) (2 ^ 32)). lia.
Qed.

Lemma seek_refines v f (data : list Z) pos off whence :
  size v = zlen data → position f = Z.of_nat pos → (pos ≤ length data)%nat → 0 ≤ off < 2 ^ 32 →
  zlen data < 2 ^ 31 →
  minix_seek v f off whence =
    match seek_to pos (length data) off whence with
    | Some p => (set_file_position f p, p)
    | None => (f, 2 ^ 32 - 22)
    end.
Proof.
  intros Hs Hp Hl Ho Hd. rewrite (minix_seek_ok v f data) by (done || lia). rewrite Hp. unfold seek_to.
  assert (Hoff : (0 + off) mod 2 ^ 32 = off) by (apply Z.mod_small; lia).
  destruct (whence =? SEEK_SET); [by simpl fmap; rewrite Hoff|].
  destruct (whence =? SEEK_CUR); [done|]. by destruct (whence =? SEEK_END).
Qed.

Lemma fs_step_refines own st sp iop sp' out :
  fs_rel own st sp → spec_step sp iop = Some (sp', out) →
  wp (fs_step super mp_bits t st iop) store_oom (λ '(st', out'), out' = out ∧ fs_rel own st' sp').
Proof.
  intros (d & l & Hr & Hly & Hfree & Hns & Hfs) Hstep. destruct iop as [i op]. unfold spec_step in Hstep.
  destruct (sp_files sp !! i) as [[node pos]|] eqn:Hsf; [|done]. cbn [mbind option_bind] in Hstep.
  destruct (sp_data sp !! node) as [data|] eqn:Hdata; [|done]. cbn [mbind option_bind] in Hstep.
  destruct (Forall2_lookup_r _ _ _ _ _ Hfs Hsf) as ([node' f] & Hf & Hn & Hpos & data' & Hd' & Hle).
  simpl in Hn, Hpos, Hd', Hle. subst node'. assert (data' = data) as -> by congruence.
  destruct (Forall2_lookup_r _ _ _ _ _ (ns_each _ _ _ _ Hns) Hdata) as (v & Hv & Hnode).
  pose proof Hnode as [Hzo Hfile Hsize Hdir]. pose proof (proj1 Hfile) as Hmax.
  assert (Hmb : max_bytes < 2 ^ 31) by (unfold max_bytes, zone_max, MINIX_V1_ZONE_SIZE; lia).
  assert (HW : W_ok super d l (zones v) ∅) by (intros n Hin; set_solver).
  unfold fs_step. rewrite Hf. res_simpl. rewrite Hv. res_simpl. destruct op as [n|bs|off whence].
  - zif_in Hstep; [|done]. injection Hstep as <- <-.
    wp_step (minix_read_ok super nb zsize Hgeo); try done; [lia|apply buffer_iter_rel; rewrite length_replicate; lia|].
    rewrite Nat.sub_0_r, length_replicate, Hpos, Nat2Z.id. set (k := (n `min` (length data - pos))%nat).
    intros [[[[c1 v1] f1] it1] r] (-> & -> & -> & Hr1 & Hit1). cbn [wp]. split.
    + rewrite (iter_bytes_rel _ _ _ Hit1), Nat2Z.id. f_equal. unfold splice. simpl.
      apply take_app_length'. rewrite length_slice. lia.
    + exists d, l. simpl. rewrite list_insert_id by done. split_and!; try done.
      eapply files_update; [done|done|lia|simpl; lia].
  - zif_in Hstep; [|done]. injection Hstep as <- <-. apply andb_prop in Heqb as [Hb Hby%bool_decide_eq_true].
    wp_step (minix_write_ok super nb zsize mp_bits t Hgeo); try done; try (rewrite ?Nat.sub_0_r; lia).
    { apply buffer_iter_rel. lia. }
    rewrite Nat.sub_0_r, drop_0, Hpos, Nat2Z.id. fold (zlen bs).
    intros [[[[c1 v1] f1] it1] r] (d1 & l1 & Hnd & -> & -> & Hr1 & E1 & Hf1 & Hs1 & _). cbn [wp]. split; [done|].
    exists d1, l1. simpl. split; [done|]. split; [apply E1|].
    split; [pose proof (ev_free _ _ _ _ _ _ _ _ _ _ E1); lia|]. split.
    + eapply nodes_update; try done. split; try done; [apply E1|].
      destruct Hnd as (_ & -> & _). done.
    + assert (Hl2 : length (splice data pos bs) = (length data `max` (pos + length bs))%nat)
        by (by apply length_splice_grow).
      eapply files_update; [|apply list_lookup_insert_eq; by eapply lookup_lt_Some|lia|simpl; lia].
      eapply Forall2_impl; [done|]. intros x y. apply (file_rel_grow _ node data); [done|lia].
  - zif_in Hstep; [|done]. rewrite (seek_refines v f data pos off whence) by (done || lia).
    destruct (seek_to pos (length data) off whence) as [p|] eqn:Hto; injection Hstep as <- <-; cbn [wp].
    + apply seek_to_range in Hto. split; [done|]. exists d, l. simpl. split_and!; try done.
      eapply files_update; [done|done|lia|simpl; lia].
    + split; [done|]. exists d, l. simpl. by rewrite list_insert_id by done.
Qed.

(** C1: reads, writes and seeks on any number of open files of a Minix file
    system return what they would on byte strings with positions, and leave
    the disk in a state that stands for the new byte strings: what is written
    can be read back through every open file of the vnode, files do not
    interfere, and a zone is never part of two files.  Writing needs no more
    zones than the specification counts; the only other outcome is the halt of
    the allocator without memory. *)
Theorem fs_run_refines own st sp ops sp' outs :
  fs_rel own st sp → run_out spec_step sp ops = Some (sp', outs) →
  wp (fs_run super mp_bits t st ops) store_oom (λ '(st', outs'), outs' = outs ∧ fs_rel own st' sp').
Proof.
  revert st sp sp' outs. induction ops as [|op ops IH]; intros st sp sp' outs Hrel Hrun; simpl in Hrun |- *.
  { by injection Hrun as <- <-. }
  destruct (spec_step sp op) as [[sp1 out]|] eqn:Hstep; [|done]. simpl in Hrun.
  destruct (run_out spec_step sp1 ops) as [[sp2 outs2]|] eqn:Hrest; [|done]. injection Hrun as <- <-.
  wp_step fs_step_refines; [done..|]. intros [st1 out1] [-> Hrel1].
  eapply wp_call; [by eapply IH|]. intros [st2 outs3] [-> Hrel2]. done.
Qed.
End refine.

(** ** An example *)

Definition example_super : minix_v1_superblock := Superblock 64 32 1 1 6 0 67108864 4991 1.

(** Zones 6 to 31 are free. *)
Definition example_map : list Z := [1; 0; 0; 248] ++ replicate 1020 255.
(** Inodes 0 and 1 are in use. *)
Definition example_imap : list Z := 3 :: replicate 7 0 ++ replicate 1016 255.
Definition example_image : list Z :=
  replicate (2 * 1024) 0 ++ example_imap ++ example_map ++ replicate (28 * 1024) 0.

Definition example_store_laws : @StoreLaws _ image_store 1024 32 := image_laws 32 ltac:(lia).

Lemma example_geometry : geometry example_super 32 1.
Proof. split; unfold MINIX_V1_ZONE_BITMAP_START, MINIX_V1_BITMAP_ZONES; simpl; lia. Qed.

Lemma example_layout : layout example_super 32 1 (image_blocks 32 example_image) example_map.
Proof.
  assert (Hb : Forall byte_ok example_image).
  { apply Forall_app. split; [apply Forall_replicate; by compute|].
    apply Forall_app. split; [|apply Forall_app; split; [|apply Forall_replicate; by compute]].
    - constructor; [by compute|]. apply Forall_app. split; apply Forall_replicate; by compute.
    - apply Forall_app. split; [by repeat constructor|]. apply Forall_replicate. by compute. }
  split.
  - split; [|split; [done|]].
    + apply Forall_app. split; [by repeat constructor|]. apply Forall_replicate. by compute.
    + intros k Hk. replace k with 0%nat by lia. rewrite image_blocks_lookup by (vm_compute; done). vm_compute. done.
  - intros n Hn. rewrite image_blocks_lookup by done. eexists. split; [done|].
    split; [|by apply Forall_take, Forall_drop]. rewrite length_slice.
    change (length example_image) with (32 * 1024)%nat. lia.
  - done.
Qed.

Definition example_vnode (n : Z) : minix_vnode := Vnode 1 (S_IFREG + 420) 1 0 0 0 0 n 0 0 0 0 (replicate 9 0).

(** Two empty files, of which the first is opened twice. *)
Definition example_fs : fs_state _ :=
  FS (image_cache example_image) [example_vnode 2; example_vnode 3] [(0, Vfile 1 0 0); (0, Vfile 1 0 0); (1, Vfile 1 0 0)]%nat.

Definition example_spec : spec_state := Spec [[]; []] [(0, 0); (0, 0); (1, 0)]%nat 26.

Lemma empty_vnode_ok d l n : zones_ok example_super d l (zones (example_vnode n)) ∧
  ∀ q, zp d (zones (example_vnode n)) q = 0.
Proof.
  assert (Hz : ∀ q, zp d (zones (example_vnode n)) q = 0).
  { intros q. induction q as [|j q IH]; [done|]. destruct q as [|k q].
    - cbn [zp]. unfold rd. destruct (j <? 0); [done|].
      destruct (zones (example_vnode n) !! Z.to_nat j) as [y|] eqn:E; [|done].
      apply lookup_replicate in E as [-> _]. done.
    - rewrite zp_cons by done. by rewrite IH. }
  split; [|done]. split; [done| |intros p _; by rewrite Hz|intros p q _ _; by rewrite !Hz].
  apply Forall_replicate. lia.
Qed.

Lemma example_fs_rel : @fs_rel example_super 32 1 _ image_store example_store_laws ∅ example_fs example_spec.
Proof.
  exists (image_blocks 32 example_image), example_map.
  split; [apply image_cache_rel; done|]. split; [apply example_layout|]. split; [by vm_compute; lia|]. split.
  - assert (Hn : ∀ n, node_ok example_super (image_blocks 32 example_image) example_map (example_vnode n) []).
    { intros n. split; [apply empty_vnode_ok| |done|done]. split; [by vm_compute|]. intros k Hk. simpl in Hk. lia. }
    split; [constructor; [apply Hn|constructor; [apply Hn|constructor]]|].
    intros i j v w _ Hv Hw p q _ _ Hne. destruct Hne. destruct i as [|[|]]; simplify_eq/=; exact (proj2 (empty_vnode_ok _ [] 0) p).
  - repeat constructor; simpl; eexists; split; done || lia.
Qed.

Definition example_ops : list (nat * file_op) :=
  [(0%nat, OpWrite [1; 2; 3]); (2%nat, OpWrite [9; 8]); (1%nat, OpRead 2); (0%nat, OpSeek 1 SEEK_SET); (0%nat, OpWrite [7]);
   (1%nat, OpSeek 0 SEEK_SET); (1%nat, OpRead 10)].

Lemma fs_run_refines_witness :
  wp (@fs_run _ image_store example_super 0 0 example_fs example_ops) (@store_oom _ _ _ _ example_store_laws)
    (λ '(st', outs'), outs' = [(3, []); (2, []); (2, [1; 2]); (1, []); (1, []); (0, []); (3, [1; 7; 3])] ∧
       @fs_rel example_super 32 1 _ image_store example_store_laws ∅ st'
         (Spec [[1; 7; 3]; [9; 8]] [(0, 2); (0, 3); (1, 2)]%nat 8)).
Proof.
  apply (fs_run_refines example_super 32 1 0 0 example_geometry ∅ example_fs example_spec).
  - apply example_fs_rel.
  - vm_compute. done.
Defined.

(** The same steps evaluate, without a halt. *)
Lemma example_fs_runs :
  match @fs_run _ image_store example_super 0 0 example_fs example_ops with
  | Val (_, outs) => outs = [(3, []); (2, []); (2, [1; 2]); (1, []); (1, []); (0, []); (3, [1; 7; 3])]
  | _ => False
  end.
Proof. vm_compute. done. Qed.
