(* ===== verification/Minixnode.v ===== *)
(** * Minixnode: the inodes of the Minix file system
      (src/kernel/fs/minix/inodes.h, minix-v1.h)

    An inode is 32 bytes of a block of the inode table.  [inode_at] reads it
    as the struct it is, with the values the machine sees: numbers are little
    endian on the disk and swapped by the code. *)

From S2P Require Import Prelude Bits Result Blockstore Builtins Minixmap Minixzone Minixfile Minixrun.

Definition htole32 : Z → Z := __bswap_32.
Definition le32toh : Z → Z := __bswap_32.

Definition MINIX_V1_INODES_PER_ZONE : Z := 32.
Definition MINIX_V1_LOG_INODES_PER_ZONE : Z := 5.

(** A uint32_t in memory, at a multiple of two bytes. *)
Definition rd32 (block : list Z) (i : Z) : option Z :=
  h ← rd16 block i; l ← rd16 block (i + 1); Some (h * 65536 + l).
Definition wr32 (block : list Z) (i v : Z) : option (list Z) :=
  b ← wr16 block i (Z.shiftr v 16); wr16 b (i + 1) (Z.land v 65535).

Record minix_v1_inode := Inode {
  i_mode : Z;
  i_uid : Z;
  i_size : Z;
  i_mtime : Z;
  i_gid : Z;
  i_nlinks : Z;
  i_zones : list Z;
}.

(** [inode_table[k].field]: the struct has 16 words, the zones start at the seventh. *)
Definition put_mode (b : list Z) (k v : Z) := wr16 b (16 * k) v.
Definition put_uid (b : list Z) (k v : Z) := wr16 b (16 * k + 1) v.
Definition put_size (b : list Z) (k v : Z) := wr32 b (16 * k + 2) v.
Definition put_mtime (b : list Z) (k v : Z) := wr32 b (16 * k + 4) v.
Definition put_gid (b : list Z) (k v : Z) := wr b (32 * k + 12) v.
Definition put_nlinks (b : list Z) (k v : Z) := wr b (32 * k + 13) v.
Definition put_zone (b : list Z) (k j v : Z) := wr16 b (16 * k + 7 + j) v.

(** [inode_table[k].zones[j] = zones[j]] for the zones given, from [j] on. *)
Fixpoint put_zones (b : list Z) (k j : Z) (zones : list Z) : option (list Z) :=
  match zones with
  | [] => Some b
  | z :: zones => b ← put_zone b k j z; put_zones b k (j + 1) zones
  end.

Fixpoint get_zones (b : list Z) (k j : Z) (n : nat) : option (list Z) :=
  match n with
  | O => Some []
  | S n => z ← rd16 b (16 * k + 7 + j); zs ← get_zones b k (j + 1) n; Some (z :: zs)
  end.

Definition inode_at (b : list Z) (k : Z) : option minix_v1_inode :=
  mode ← rd16 b (16 * k);
  uid ← rd16 b (16 * k + 1);
  size ← rd32 b (16 * k + 2);
  mtime ← rd32 b (16 * k + 4);
  gid ← rd b (32 * k + 12);
  nlinks ← rd b (32 * k + 13);
  zones ← get_zones b k 0 (Z.to_nat MINIX_V1_INODE_ZONENUMS);
  Some (Inode mode uid size mtime gid nlinks zones).

Definition inode_offset (ino : Z) : Z := Z.land (u32 (ino - 1)) (MINIX_V1_INODES_PER_ZONE - 1).

Section inodes.
Context {C : Type} `{BlockStore C} (super : minix_v1_superblock).

Definition inode_block (ino : Z) : Z :=
  u32 (MINIX_V1_INODE_TABLE_START super + Z.shiftr (u32 (ino - 1)) MINIX_V1_LOG_INODES_PER_ZONE).

(** [t] is what get_system_time returns. *)
Definition alloc_inode (t : Z) (c : C) (mode uid gid rdev : Z) : res (C * Z) :=
  '(c, inode_num) ← bit_alloc c MINIX_V1_INODE_BITMAP_START (imap_blocks super) 0;
  if inode_num =? 0 then Val (c, u32 ENOSPC)
  else
    let k := inode_offset inode_num in
    '(c, inode_buf) ← get_block c (inode_block inode_num);
    if inode_buf =? 0 then Val (c, u32 ENOMEM)
    else
      b ← lift (buf_data c inode_buf);
      b ← lift (put_mode b k (htole16 mode));
      b ← lift (put_uid b k (htole16 uid));
      b ← lift (put_size b k 0);
      b ← lift (put_gid b k (u8 gid));
      b ← lift (put_nlinks b k 1);
      b ← lift (put_mtime b k (htole32 (u32 t)));
      b ← lift (put_zones b k 0 (replicate (Z.to_nat MINIX_V1_INODE_ZONENUMS) 0));
      b ← lift (if S_ISCHR mode then put_zone b k 0 (htole16 (u16 rdev)) else Some b);
      c ← set_buf_data c inode_buf b;
      '(c, _) ← release_block c inode_buf BF_DIRTY;
      Val (c, inode_num).

Definition free_inode (c : C) (ino : Z) : res (C * Z) :=
  bit_free c MINIX_V1_INODE_BITMAP_START (s32 ino).

Definition read_inode (c : C) (v : minix_vnode) (ino : Z) : res (C * minix_vnode * Z) :=
  '(c, inode_buf) ← get_block c (inode_block ino);
  if inode_buf =? 0 then Val (c, v, ENOMEM)
  else
    b ← lift (buf_data c inode_buf);
    i ← lift (inode_at b (inode_offset ino));
    let mode := le16toh (i_mode i) in
    zone0 ← lift (i_zones i !! 0%nat);
    let v := Vnode (refcount v) mode (i_nlinks i) (le16toh (i_uid i)) (i_gid i)
      (Z.land (bits v) (Z.lnot VBF_DIRTY)) (s16 (le16toh (if S_ISDEV mode then zone0 else 0)))
      (Minixzone.ino v) (le32toh (i_size i)) 0 (s32 (le32toh (i_mtime i))) 0 (i_zones i) in
    '(c, _) ← release_block c inode_buf 0;
    Val (c, v, 0).

Definition write_inode (c : C) (v : minix_vnode) (ino : Z) : res (C * minix_vnode * Z) :=
  '(c, inode_buf) ← get_block c (inode_block ino);
  if inode_buf =? 0 then Val (c, v, ENOMEM)
  else
    let k := inode_offset ino in
    b ← lift (buf_data c inode_buf);
    b ← lift (put_mode b k (htole16 (mode v)));
    b ← lift (put_uid b k (htole16 (uid v)));
    b ← lift (put_size b k (htole32 (size v)));
    b ← lift (put_mtime b k (htole32 (u32 (mtime v))));
    b ← lift (put_gid b k (u8 (gid v)));
    b ← lift (put_nlinks b k (u8 (nlinks v)));
    z ← lift (if S_ISCHR (mode v) then wr (zones v) 0 (htole16 (u16 (rdev v))) else Some (zones v));
    let v := set_zones v z in
    z ← lift (rd_range (zones v) 0 MINIX_V1_INODE_ZONENUMS);
    b ← lift (put_zones b k 0 z);
    c ← set_buf_data c inode_buf b;
    let v := set_bits v (Z.land (bits v) (Z.lnot VBF_DIRTY)) in
    '(c, _) ← release_block c inode_buf BF_DIRTY;
    Val (c, v, 0).
End inodes.

(** ** The bytes of an inode *)

Definition bytes16 (v : Z) : list Z := [Z.shiftr v 8; Z.land v 255].
Definition bytes32 (v : Z) : list Z := bytes16 (Z.shiftr v 16) ++ bytes16 (Z.land v 65535).

Definition inode_head (i : minix_v1_inode) : list Z :=
  bytes16 (i_mode i) ++ bytes16 (i_uid i) ++ bytes32 (i_size i) ++ bytes32 (i_mtime i) ++ [i_gid i; i_nlinks i].
Definition inode_bytes (i : minix_v1_inode) : list Z := inode_head i ++ concat (bytes16 <$> i_zones i).

Definition u16_ok (v : Z) : Prop := 0 ≤ v < 65536.
Definition u32_ok (v : Z) : Prop := 0 ≤ v < 2 ^ 32.

Record inode_ok (i : minix_v1_inode) : Prop := {
  io_mode : u16_ok (i_mode i);
  io_uid : u16_ok (i_uid i);
  io_size : u32_ok (i_size i);
  io_mtime : u32_ok (i_mtime i);
  io_gid : byte_ok (i_gid i);
  io_nlinks : byte_ok (i_nlinks i);
  io_zones : Forall u16_ok (i_zones i);
  io_len : length (i_zones i) = 9%nat;
}.

Lemma length_concat16 zs : length (concat (bytes16 <$> zs)) = (2 * length zs)%nat.
Proof. induction zs as [|z zs IH]; [done|]. rewrite fmap_cons. cbn [concat]. rewrite length_app, IH. cbn [length bytes16]. lia. Qed.

Lemma length_inode_bytes i : length (i_zones i) = 9%nat → length (inode_bytes i) = 32%nat.
Proof. intros Hl. unfold inode_bytes. rewrite length_app, length_concat16, Hl. done. Qed.

Lemma bytes16_ok v : u16_ok v → Forall byte_ok (bytes16 v).
Proof. intros Hv. destruct (u16_bytes v Hv) as (? & ? & _). constructor; [done|]. constructor; [done|constructor]. Qed.

Lemma u32_halves v : u32_ok v →
  u16_ok (Z.shiftr v 16) ∧ u16_ok (Z.land v 65535) ∧ Z.shiftr v 16 * 65536 + Z.land v 65535 = v.
Proof.
  unfold u32_ok, u16_ok. intros Hv. rewrite Z.shiftr_div_pow2 by lia. change 65535 with (Z.ones 16).
  rewrite Z.land_ones by lia. pose proof (Z.div_mod v (2 ^ 16) ltac:(lia)).
  pose proof (Z.mod_pos_bound v (2 ^ 16) ltac:(lia)). lia.
Qed.

Lemma bytes32_ok v : u32_ok v → Forall byte_ok (bytes32 v).
Proof. intros Hv. destruct (u32_halves v Hv) as (? & ? & _). apply Forall_app. auto using bytes16_ok. Qed.

Lemma inode_bytes_ok i : inode_ok i → Forall byte_ok (inode_bytes i).
Proof.
  intros []. unfold inode_bytes, inode_head. rewrite !Forall_app. split_and!; auto using bytes16_ok, bytes32_ok.
  clear io_len0. induction io_zones0; [constructor|]. rewrite fmap_cons. apply Forall_app. auto using bytes16_ok.
Qed.

Lemma wr16_splice x i v : 0 ≤ i → 2 * i + 2 ≤ zlen x → wr16 x i v = Some (splice x (Z.to_nat (2 * i)) (bytes16 v)).
Proof. intros. unfold wr16. apply wr_range_ok; simpl; lia. Qed.

Lemma wr32_splice x i v : 0 ≤ i → 2 * i + 4 ≤ zlen x → wr32 x i v = Some (splice x (Z.to_nat (2 * i)) (bytes32 v)).
Proof.
  intros Hi Hl. unfold wr32. rewrite wr16_splice by lia. cbn [mbind option_bind].
  rewrite wr16_splice by (rewrite ?length_splice; simpl; lia).
  rewrite (splice_splice_adj x (Z.to_nat (2 * i))) by (simpl; lia). done.
Qed.

Lemma wr_splice x i (v : Z) : 0 ≤ i < zlen x → wr x i v = Some (splice x (Z.to_nat i) [v]).
Proof. intros Hi. rewrite wr_in_range by done. by rewrite insert_splice by lia. Qed.

Lemma put_zones_splice zs : ∀ x k j, 0 ≤ k → 0 ≤ j → 32 * k + 14 + 2 * (j + zlen zs) ≤ zlen x →
  put_zones x k j zs = Some (splice x (Z.to_nat (32 * k + 14 + 2 * j)) (concat (bytes16 <$> zs))).
Proof.
  induction zs as [|z zs IH]; intros x k j Hk Hj Hl; cbn [put_zones].
  { cbn [fmap list_fmap concat]. by rewrite splice_nil. }
  simpl length in Hl. unfold put_zone. rewrite wr16_splice by lia. cbn [mbind option_bind].
  rewrite IH by (rewrite ?length_splice by (simpl; lia); lia).
  rewrite (splice_splice_adj x) by (rewrite ?length_concat16; simpl; lia).
  f_equal. cbn [fmap list_fmap concat]. f_equal. lia.
Qed.

(** Reading what was written. *)
Lemma rd_splice_in (x : list Z) o (bs : list Z) j y : (o + length bs ≤ length x)%nat → bs !! j = Some y →
  rd (splice x o bs) (Z.of_nat (o + j)) = Some y.
Proof.
  intros Hl Hy. pose proof (lookup_lt_Some _ _ _ Hy). unfold rd. destruct (Z.ltb_spec (Z.of_nat (o + j)) 0); [lia|].
  rewrite Nat2Z.id, lookup_splice by done. destruct (Nat.ltb_spec (o + j) o); [lia|].
  destruct (Nat.ltb_spec (o + j) (o + length bs)); [|lia]. rewrite <- Hy. f_equal. lia.
Qed.

Lemma rd16_splice_in x o bs j v pre post : (o + length bs ≤ length x)%nat → u16_ok v →
  bs = pre ++ bytes16 v ++ post → length pre = (2 * j)%nat → (o mod 2 = 0)%nat →
  rd16 (splice x o bs) (Z.of_nat (o / 2 + j)) = Some v.
Proof.
  intros Hl Hv -> Hp Ho. destruct (u16_bytes v Hv) as (_ & _ & E). unfold rd16.
  pose proof (Nat.div_mod o 2 ltac:(lia)) as Ho2.
  replace (2 * Z.of_nat (o / 2 + j)) with (Z.of_nat (o + 2 * j)) by lia.
  replace (Z.of_nat (o + 2 * j) + 1) with (Z.of_nat (o + (2 * j + 1))) by lia.
  rewrite (rd_splice_in x o _ (2 * j) (Z.shiftr v 8)), (rd_splice_in x o _ (2 * j + 1) (Z.land v 255)); try done.
  - simpl. by rewrite <- E.
  - rewrite lookup_app_r by lia. by replace (2 * j + 1 - length pre)%nat with 1%nat by lia.
  - rewrite lookup_app_r by lia. by replace (2 * j - length pre)%nat with 0%nat by lia.
Qed.

Lemma get_zones_splice x o (k : nat) i : o = (32 * k)%nat → (o + 32 ≤ length x)%nat → inode_ok i →
  get_zones (splice x o (inode_bytes i)) (Z.of_nat k) 0 9 = Some (i_zones i).
Proof.
  intros -> Hl Hi. pose proof (length_inode_bytes i (io_len _ Hi)) as Hlen.
  assert (Hgen : ∀ post pre, i_zones i = pre ++ post →
    get_zones (splice x (32 * k) (inode_bytes i)) (Z.of_nat k) (zlen pre) (length post) = Some post).
  { induction post as [|z post IH]; intros pre E; [done|]. cbn [get_zones length].
    assert (Hz : u16_ok z) by (pose proof (io_zones _ Hi) as Hf; rewrite E in Hf; apply Forall_app in Hf as [_ Hf]; by inversion Hf).
    replace (16 * Z.of_nat k + 7 + zlen pre) with (Z.of_nat ((32 * k) / 2 + (7 + length pre)))
      by (replace (32 * k)%nat with ((16 * k) * 2)%nat by lia; rewrite Nat.div_mul by lia; lia).
    rewrite (rd16_splice_in x (32 * k) (inode_bytes i) (7 + length pre) z (inode_head i ++ concat (bytes16 <$> pre))
      (concat (bytes16 <$> post))); [|lia|done| | |].
    - cbn [mbind option_bind]. replace (zlen pre + 1) with (zlen (pre ++ [z])) by (rewrite length_app; simpl; lia).
      rewrite IH by (by rewrite E, <- app_assoc). done.
    - unfold inode_bytes. rewrite E, fmap_app, concat_app, fmap_cons. cbn [concat]. by rewrite <- app_assoc.
    - rewrite length_app, length_concat16. simpl. lia.
    - replace (32 * k)%nat with ((16 * k) * 2)%nat by lia. apply Nat.Div0.mod_mul. }
  specialize (Hgen (i_zones i) [] eq_refl). by rewrite (io_len _ Hi) in Hgen.
Qed.

Lemma inode_at_splice x (k : nat) i : (32 * k + 32 ≤ length x)%nat → inode_ok i →
  inode_at (splice x (32 * k) (inode_bytes i)) (Z.of_nat k) = Some i.
Proof.
  intros Hl Hi. pose proof (length_inode_bytes i (io_len _ Hi)) as Hlen. set (x' := splice x (32 * k) (inode_bytes i)).
  assert (H16 : ∀ n j v pre post, n = 16 * Z.of_nat k + Z.of_nat j → u16_ok v →
    inode_bytes i = pre ++ bytes16 v ++ post → length pre = (2 * j)%nat → rd16 x' n = Some v).
  { intros n j v pre post -> Hv E Hp.
    replace (16 * Z.of_nat k + Z.of_nat j) with (Z.of_nat ((32 * k) / 2 + j))
      by (replace (32 * k)%nat with ((16 * k) * 2)%nat by lia; rewrite Nat.div_mul by lia; lia).
    apply (rd16_splice_in x _ _ _ _ pre post); try done; [lia|].
    replace (32 * k)%nat with ((16 * k) * 2)%nat by lia. apply Nat.Div0.mod_mul. }
  assert (H32 : ∀ n j v pre post, n = 16 * Z.of_nat k + Z.of_nat j → u32_ok v →
    inode_bytes i = pre ++ bytes32 v ++ post → length pre = (2 * j)%nat → rd32 x' n = Some v).
  { intros n j v pre post -> Hv E Hp. destruct (u32_halves v Hv) as (Hh & Hlo & Ev). unfold rd32.
    unfold bytes32 in E. rewrite <- app_assoc in E. rewrite (H16 _ j _ pre _ eq_refl Hh E Hp). cbn [mbind option_bind].
    rewrite (H16 (16 * Z.of_nat k + Z.of_nat j + 1) (S j) _ (pre ++ bytes16 (Z.shiftr v 16)) post ltac:(lia) Hlo).
    - cbn [mbind option_bind]. by rewrite Ev.
    - by rewrite E, <- app_assoc.
    - rewrite length_app. simpl. lia. }
  unfold inode_at.
  rewrite (H16 (16 * Z.of_nat k) 0%nat (i_mode i) [] _ ltac:(lia) (io_mode _ Hi) eq_refl eq_refl). cbn [mbind option_bind].
  rewrite (H16 (16 * Z.of_nat k + 1) 1%nat (i_uid i) (bytes16 (i_mode i)) _ ltac:(lia) (io_uid _ Hi) eq_refl eq_refl). cbn [mbind option_bind].
  rewrite (H32 (16 * Z.of_nat k + 2) 2%nat (i_size i) (bytes16 (i_mode i) ++ bytes16 (i_uid i)) _ ltac:(lia) (io_size _ Hi) eq_refl eq_refl).
  cbn [mbind option_bind].
  rewrite (H32 (16 * Z.of_nat k + 4) 4%nat (i_mtime i) (bytes16 (i_mode i) ++ bytes16 (i_uid i) ++ bytes32 (i_size i)) _ ltac:(lia)
    (io_mtime _ Hi) eq_refl eq_refl).
  cbn [mbind option_bind].
  replace (32 * Z.of_nat k + 12) with (Z.of_nat (32 * k + 12)) by lia.
  replace (32 * Z.of_nat k + 13) with (Z.of_nat (32 * k + 13)) by lia.
  subst x'. rewrite (rd_splice_in x (32 * k) _ 12 (i_gid i)), (rd_splice_in x (32 * k) _ 13 (i_nlinks i)) by (done || lia).
  cbn [mbind option_bind]. change (Z.to_nat MINIX_V1_INODE_ZONENUMS) with 9%nat.
  rewrite (get_zones_splice x _ k i) by (done || lia). by destruct i.
Qed.

(** An inode depends on its own bytes. *)
Lemma inode_at_ext x x' k : (∀ j, 0 ≤ j < 32 → rd x' (32 * k + j) = rd x (32 * k + j)) →
  inode_at x' k = inode_at x k.
Proof.
  intros Hx.
  assert (H16 : ∀ w, 0 ≤ w < 16 → rd16 x' (16 * k + w) = rd16 x (16 * k + w)).
  { intros w Hw. unfold rd16. replace (2 * (16 * k + w)) with (32 * k + 2 * w) by lia.
    rewrite Hx by lia. rewrite <- Z.add_assoc, Hx by lia. done. }
  assert (H32 : ∀ w, 0 ≤ w < 15 → rd32 x' (16 * k + w) = rd32 x (16 * k + w)).
  { intros w Hw. unfold rd32. rewrite H16 by lia. rewrite <- Z.add_assoc, H16 by lia. done. }
  assert (Hz : ∀ n j, 0 ≤ j → j + Z.of_nat n ≤ 9 → get_zones x' k j n = get_zones x k j n).
  { induction n as [|n IH]; intros j Hj Hn; [done|]. cbn [get_zones]. rewrite <- Z.add_assoc, H16 by lia.
    by rewrite IH by lia. }
  unfold inode_at. pose proof (H16 0 ltac:(lia)) as H0. rewrite Z.add_0_r in H0.
  rewrite H0, H16, !H32, !Hx, Hz by (done || lia). done.
Qed.

Lemma inode_at_other x (k k' : nat) bs : k ≠ k' → length bs = 32%nat → (32 * k + 32 ≤ length x)%nat →
  inode_at (splice x (32 * k) bs) (Z.of_nat k') = inode_at x (Z.of_nat k').
Proof.
  intros Hne Hb Hl. apply inode_at_ext. intros j Hj. unfold rd. destruct (Z.ltb_spec (32 * Z.of_nat k' + j) 0); [lia|].
  rewrite lookup_splice by lia. rewrite Hb. zif; [done|]. zif; [lia|done].
Qed.

Lemma rd16_range x i v : Forall byte_ok x → rd16 x i = Some v → u16_ok v.
Proof.
  intros Hx. unfold rd16. destruct (rd x (2 * i)) as [h|] eqn:Hh; [|done].
  destruct (rd x (2 * i + 1)) as [w|] eqn:Hw; [|done]. intros [= <-].
  apply rd_some in Hh as [_ Hh]. apply rd_some in Hw as [_ Hw].
  pose proof (Forall_lookup_1 _ _ _ _ Hx Hh) as H1. pose proof (Forall_lookup_1 _ _ _ _ Hx Hw) as H2.
  unfold byte_ok in H1, H2. unfold u16_ok. lia.
Qed.

(** Every place of the table holds some inode. *)
Lemma inode_at_some x k : length x = 1024%nat → Forall byte_ok x → 0 ≤ k < 32 →
  ∃ i, inode_at x k = Some i ∧ inode_ok i.
Proof.
  intros Hl Hb Hk.
  assert (H16 : ∀ w, 0 ≤ w < 16 → ∃ v, rd16 x (16 * k + w) = Some v ∧ u16_ok v).
  { intros w Hw. destruct (rd16_ok x (16 * k + w) Hl Hb) as (v & E & Hv & _); [lia|]. eauto. }
  assert (H32 : ∀ w, 0 ≤ w < 15 → ∃ v, rd32 x (16 * k + w) = Some v ∧ u32_ok v).
  { intros w Hw. unfold rd32. destruct (H16 w) as (h & -> & Hh); [lia|]. rewrite <- Z.add_assoc.
    destruct (H16 (w + 1)) as (v & -> & Hv); [lia|]. cbn [mbind option_bind]. eexists. split; [done|].
    unfold u16_ok, u32_ok in *. lia. }
  assert (H8 : ∀ j, 0 ≤ j < 32 → ∃ v, rd x (32 * k + j) = Some v ∧ byte_ok v).
  { intros j Hj. destruct (rd_in_range x (32 * k + j)) as [v E]; [lia|]. exists v. split; [done|].
    apply rd_some in E as [_ E]. by apply (Forall_lookup_1 _ _ _ _ Hb E). }
  assert (Hz : ∀ n j, 0 ≤ j → j + Z.of_nat n ≤ 9 → ∃ zs, get_zones x k j n = Some zs ∧ Forall u16_ok zs ∧ length zs = n).
  { induction n as [|n IH]; intros j Hj Hn; [exists []; by repeat constructor|]. cbn [get_zones].
    rewrite <- Z.add_assoc. destruct (H16 (7 + j)) as (v & -> & Hv); [lia|].
    destruct (IH (j + 1)) as (zs & E & Hf & Hzl); [lia..|]. cbn [mbind option_bind]. rewrite E.
    exists (v :: zs). split; [done|]. split; [by constructor|]. simpl. by rewrite Hzl. }
  destruct (H16 0) as (m & Em & Hm); [lia|]. rewrite Z.add_0_r in Em.
  destruct (H16 1) as (u & Eu & Hu); [lia|]. destruct (H32 2) as (s & Es & Hs); [lia|].
  destruct (H32 4) as (t & Et & Ht); [lia|]. destruct (H8 12) as (g & Eg & Hg); [lia|].
  destruct (H8 13) as (n & En & Hn); [lia|]. destruct (Hz 9%nat 0) as (zs & Ez & Hf & Hzl); [lia..|].
  exists (Inode m u s t g n zs). unfold inode_at. rewrite Em, Eu, Es, Et, Eg, En. cbn [mbind option_bind].
  change (Z.to_nat MINIX_V1_INODE_ZONENUMS) with 9%nat. rewrite Ez. split; [done|]. by split.
Qed.

(** ** The inode table on the disk *)

Lemma le32_inv v : u32_ok v → u32_ok (__bswap_32 v) ∧ __bswap_32 (__bswap_32 v) = v.
Proof.
  intros Hv. destruct (u32_halves v Hv) as (Hh & Hl & Ev). destruct (u16_bytes _ Hh) as (A & B & E1).
  destruct (u16_bytes _ Hl) as (C & D & E2). unfold byte_ok in *. rewrite E1, E2 in Ev.
  set (a := Z.shiftr (Z.shiftr v 16) 8) in *. set (b := Z.land (Z.shiftr v 16) 255) in *.
  set (c := Z.shiftr (Z.land v 65535) 8) in *. set (e := Z.land (Z.land v 65535) 255) in *. clearbody a b c e.
  replace v with ((a * 2 ^ 8 + b) * 2 ^ 16 + (c * 2 ^ 8 + e)) by lia.
  rewrite bswap_32_bytes by (unfold byte_ok; lia). rewrite bswap_32_bytes by (unfold byte_ok; lia). unfold u32_ok. lia.
Qed.

(** The fields of a vnode fit their types. *)
Record vnode_ok (v : minix_vnode) : Prop := {
  vo_mode : u16_ok (mode v);
  vo_uid : u16_ok (uid v);
  vo_size : u32_ok (size v);
  vo_mtime : -2 ^ 31 ≤ mtime v < 2 ^ 31;
  vo_zones : Forall u16_ok (zones v);
  vo_len : length (zones v) = 9%nat;
}.

(** What write_inode stores: a character device has its number as a zone. *)
Definition stored_zones (v : minix_vnode) : list Z :=
  if S_ISCHR (mode v) then <[0%nat := htole16 (u16 (rdev v))]> (zones v) else zones v.

Definition inode_of (v : minix_vnode) : minix_v1_inode :=
  Inode (htole16 (mode v)) (htole16 (uid v)) (htole32 (size v)) (htole32 (u32 (mtime v)))
    (u8 (gid v)) (u8 (nlinks v)) (stored_zones v).

Definition clean (v : minix_vnode) : minix_vnode := set_bits v (Z.land (bits v) (Z.lnot VBF_DIRTY)).

(** What read_inode makes of an inode. *)
Definition node_of (v : minix_vnode) (i : minix_v1_inode) : minix_vnode :=
  Vnode (refcount v) (le16toh (i_mode i)) (i_nlinks i) (le16toh (i_uid i)) (i_gid i)
    (Z.land (bits v) (Z.lnot VBF_DIRTY))
    (s16 (le16toh (if S_ISDEV (le16toh (i_mode i)) then default 0 (i_zones i !! 0%nat) else 0)))
    (ino v) (le32toh (i_size i)) 0 (s32 (le32toh (i_mtime i))) 0 (i_zones i).

Lemma inode_of_ok v : vnode_ok v → inode_ok (inode_of v).
Proof.
  intros [V1 V2 V3 V4 V5 V6].
  assert (Hrd : u16_ok (htole16 (u16 (rdev v)))) by (apply le16_inv, (uwrap_range 16); lia).
  split; simpl; try (by apply le16_inv); try (by apply le32_inv); try (apply (uwrap_range 8); lia).
  - apply le32_inv. apply (uwrap_range 32). lia.
  - unfold stored_zones. destruct (S_ISCHR (mode v)); [by apply Forall_insert|done].
  - unfold stored_zones. destruct (S_ISCHR (mode v)); [by rewrite length_insert|done].
Qed.

Section disk.
Context (super : minix_v1_superblock) (nb : nat).
Context {C : Type} `{BlockStore C} `{!StoreLaws C 1024 nb}.

(** The place of inode [n]. *)
Definition slot_of (n : Z) : nat := Z.to_nat (inode_offset n).

(** Inode [n] is in a block of the disk. *)
Definition ino_ok (n : Z) : Prop := 1 ≤ n < 65536 ∧ 0 < inode_block super n < Z.of_nat nb.

Lemma slot_bound n : inode_offset n = Z.of_nat (slot_of n) ∧ (slot_of n < 32)%nat.
Proof.
  unfold slot_of, inode_offset. change (MINIX_V1_INODES_PER_ZONE - 1) with (Z.ones 5).
  rewrite Z.land_ones by lia. pose proof (Z.mod_pos_bound (u32 (n - 1)) (2 ^ 5) ltac:(lia)). lia.
Qed.

(** Two inodes are in different places. *)
Lemma slot_inj n m : ino_ok n → ino_ok m → inode_block super n = inode_block super m →
  slot_of n = slot_of m → n = m.
Proof.
  intros [Hn Hbn] [Hm Hbm] Hb Hs. destruct (slot_bound n) as [En _], (slot_bound m) as [Em _].
  rewrite <- Hs, <- En in Em. unfold inode_block, inode_offset in *.
  change (MINIX_V1_INODES_PER_ZONE - 1) with (Z.ones 5) in Em.
  rewrite !Z.land_ones in Em by lia. rewrite !(u32_small (_ - 1)) in * by lia.
  rewrite !Z.shiftr_div_pow2 in Hb by (unfold MINIX_V1_LOG_INODES_PER_ZONE; lia).
  change (2 ^ MINIX_V1_LOG_INODES_PER_ZONE) with (2 ^ 5) in Hb.
  pose proof (Z.div_mod (n - 1) (2 ^ 5) ltac:(lia)). pose proof (Z.div_mod (m - 1) (2 ^ 5) ltac:(lia)).
  pose proof (Z.div_pos (n - 1) (2 ^ 5)). pose proof (Z.div_pos (m - 1) (2 ^ 5)).
  assert (∀ a, 1 ≤ a < 65536 → (a - 1) / 2 ^ 5 < 2048) as Hlt by (intros; apply Z.div_lt_upper_bound; lia).
  pose proof (Hlt n Hn). pose proof (Hlt m Hm). unfold u32, uwrap in Hb.
  set (a := (n - 1) / 2 ^ 5) in *. set (b := (m - 1) / 2 ^ 5) in *. set (s := MINIX_V1_INODE_TABLE_START super) in *.
  assert ((s + a - (s + b)) mod 2 ^ 32 = 0) as Hz by (rewrite Zminus_mod, Hb, Z.sub_diag; done).
  replace (s + a - (s + b)) with (a - b) in Hz by lia. apply Z.mod_divide in Hz as [q Hq]; lia.
Qed.

(** The inode with that number. *)
Definition inode_on (d : gmap Z (list Z)) (n : Z) : option minix_v1_inode :=
  block ← d !! inode_block super n; inode_at block (inode_offset n).

(** The disk with inode [n] replaced. *)
Definition set_inode (d : gmap Z (list Z)) (n : Z) (x : list Z) (i : minix_v1_inode) : gmap Z (list Z) :=
  <[inode_block super n := splice x (32 * slot_of n) (inode_bytes i)]> d.

Lemma inode_on_set d n x i m : ino_ok n → ino_ok m → d !! inode_block super n = Some x → length x = 1024%nat →
  inode_ok i → inode_on (set_inode d n x i) m = if m =? n then Some i else inode_on d m.
Proof.
  intros Hn Hm Hx Hl Hi. unfold inode_on, set_inode. destruct (slot_bound n) as [En Bn], (slot_bound m) as [Em Bm].
  destruct (Z.eqb_spec m n) as [->|Hne].
  - rewrite lookup_insert_eq. cbn [mbind option_bind]. rewrite En. apply inode_at_splice; [lia|done].
  - destruct (decide (inode_block super m = inode_block super n)) as [E|E].
    + rewrite E, lookup_insert_eq, Hx. cbn [mbind option_bind]. rewrite Em.
      apply inode_at_other; [|by apply length_inode_bytes, io_len|lia].
      intros Es. apply Hne. by apply slot_inj.
    + by rewrite lookup_insert_ne by done.
Qed.

Lemma put_head x (k : nat) (m u s t' g n : Z) : (32 * k + 32 ≤ length x)%nat →
  (b ← put_mode x (Z.of_nat k) m; b ← put_uid b (Z.of_nat k) u; b ← put_size b (Z.of_nat k) s;
   b ← put_mtime b (Z.of_nat k) t'; b ← put_gid b (Z.of_nat k) g; put_nlinks b (Z.of_nat k) n) =
  Some (splice x (32 * k) (inode_head (Inode m u s t' g n []))).
Proof.
  intros Hl. unfold put_mode, put_uid, put_size, put_mtime, put_gid, put_nlinks.
  assert (Hlen : ∀ o bs, (o + length bs ≤ length x)%nat → length (splice x o bs) = length x) by (intros; by apply length_splice).
  rewrite wr16_splice by lia. cbn [mbind option_bind]. replace (Z.to_nat (2 * (16 * Z.of_nat k))) with (32 * k)%nat by lia.
  rewrite wr16_splice by (rewrite ?Hlen by (simpl; lia); lia). cbn [mbind option_bind].
  rewrite (splice_splice_adj x) by (simpl; lia).
  rewrite wr32_splice by (rewrite ?Hlen by (simpl; lia); lia). cbn [mbind option_bind].
  rewrite (splice_splice_adj x) by (simpl; lia).
  rewrite wr32_splice by (rewrite ?Hlen by (simpl; lia); lia). cbn [mbind option_bind].
  rewrite (splice_splice_adj x) by (simpl; lia).
  rewrite wr_splice by (rewrite ?Hlen by (simpl; lia); lia). cbn [mbind option_bind].
  rewrite (splice_splice_adj x) by (simpl; lia).
  rewrite wr_splice by (rewrite ?Hlen by (simpl; lia); lia). rewrite (splice_splice_adj x) by (simpl; lia). done.
Qed.

Lemma put_tail x (k : nat) i : (32 * k + 32 ≤ length x)%nat → length (i_zones i) = 9%nat →
  put_zones (splice x (32 * k) (inode_head i)) (Z.of_nat k) 0 (i_zones i) =
  Some (splice x (32 * k) (inode_bytes i)).
Proof.
  intros Hl Hz. rewrite put_zones_splice by (rewrite ?length_splice by (simpl; lia); lia).
  rewrite (splice_splice_adj x) by (rewrite ?length_concat16; simpl; lia). done.
Qed.

Lemma write_inode_ok c d v held W own n x :
  store_rel c d held W own → zlen held < 100 → ino_ok n → inode_block super n ∉ W →
  d !! inode_block super n = Some x → vnode_ok v →
  wp (write_inode super c v n) store_oom (λ '(c', v', r), r = 0 ∧ v' = clean (set_zones v (stored_zones v)) ∧
    store_rel c' (set_inode d n x (inode_of v)) held W own).
Proof.
  intros Hr Hh [_ Hn] HW Hx Hv. unfold write_inode. destruct (slot_bound n) as [-> Hs].
  pose proof (inode_of_ok v Hv) as Hi.
  eapply wp_get; [done|done|done|]. intros c1 b x' Hb Hx' Hxl Hbd Hr1. assert (x' = x) as -> by congruence.
  destruct (Z.eqb_spec b 0); [done|]. rewrite Hbd. res_simpl.
  pose proof (put_head x (slot_of n) (htole16 (mode v)) (htole16 (uid v)) (htole32 (size v)) (htole32 (u32 (mtime v)))
    (u8 (gid v)) (u8 (nlinks v)) ltac:(lia)) as Hc. chain Hc. rewrite Hc. res_simpl.
  assert ((if S_ISCHR (mode v) then wr (zones v) 0 (htole16 (u16 (rdev v))) else Some (zones v)) = Some (stored_zones v)) as ->.
  { unfold stored_zones. destruct (S_ISCHR (mode v)); [|done]. rewrite wr_in_range by (rewrite (vo_len _ Hv); lia). done. }
  res_simpl. assert (Hzl : length (stored_zones v) = 9%nat) by apply (io_len _ Hi). cbn [zones set_zones].
  rewrite rd_range_ok by (rewrite ?Hzl; unfold MINIX_V1_INODE_ZONENUMS; lia). res_simpl.
  assert (slice (stored_zones v) (Z.to_nat 0) (Z.to_nat MINIX_V1_INODE_ZONENUMS) = stored_zones v) as ->
    by (rewrite <- (slice_all (stored_zones v)) at 2; by rewrite Hzl).
  set (hd := inode_head _) in Hc |- *.
  assert (Ht : put_zones (splice x (32 * slot_of n) hd) (Z.of_nat (slot_of n)) 0 (stored_zones v) =
    Some (splice x (32 * slot_of n) (inode_bytes (inode_of v)))) by exact (put_tail x (slot_of n) (inode_of v) ltac:(lia) Hzl).
  rewrite Ht. res_simpl.
  eapply wp_put_release; [done|done|done|rewrite length_splice; [done|rewrite (length_inode_bytes (inode_of v) Hzl); lia]|].
  intros c2 Hr2. cbn [wp]. done.
Qed.

Lemma read_inode_ok c d v held W own n i :
  store_rel c d held W own → zlen held < 100 → ino_ok n → inode_block super n ∉ W → inode_on d n = Some i →
  length (i_zones i) = 9%nat →
  wp (read_inode super c v n) store_oom (λ '(c', v', r), r = 0 ∧ v' = node_of v i ∧ store_rel c' d held W own).
Proof.
  intros Hr Hh [_ Hn] HW Hi Hzl. unfold read_inode, inode_on in *.
  eapply wp_get; [done|done|done|]. intros c1 b x Hb Hx Hxl Hbd Hr1. rewrite Hx in Hi. cbn [mbind option_bind] in Hi.
  destruct (Z.eqb_spec b 0); [done|]. rewrite Hbd. res_simpl. rewrite Hi. res_simpl.
  destruct (i_zones i) as [|z0 zs] eqn:Ez; [done|]. cbn [lookup list_lookup]. res_simpl.
  eapply wp_release; [done|done|done|]. intros c2 _ Hr2. cbn [wp]. split; [done|]. split; [|done].
  unfold node_of. by rewrite Ez.
Qed.

(** The inode that alloc_inode makes. *)
Definition fresh_inode (t mode uid gid rdev : Z) : minix_v1_inode :=
  Inode (htole16 mode) (htole16 uid) 0 (htole32 (u32 t)) (u8 gid) 1
    (if S_ISCHR mode then htole16 (u16 rdev) :: replicate 8 0 else replicate 9 0).

Lemma fresh_inode_ok t mode uid gid rdev : u16_ok mode → u16_ok uid → inode_ok (fresh_inode t mode uid gid rdev).
Proof.
  intros Hm Hu. assert (Hz : ∀ n, Forall u16_ok (replicate n 0)) by (intros; apply Forall_replicate; unfold u16_ok; lia).
  split; simpl; try (by apply le16_inv); try (apply (uwrap_range 8); lia).
  - unfold u32_ok. lia.
  - apply le32_inv, (uwrap_range 32). lia.
  - unfold byte_ok. lia.
  - destruct (S_ISCHR mode); [constructor; [apply le16_inv, (uwrap_range 16); lia|apply (Hz 8%nat)]|apply (Hz 9%nat)].
  - by destruct (S_ISCHR mode).
Qed.

Lemma put_fresh x (k : nat) t mode uid gid rdev : (32 * k + 32 ≤ length x)%nat →
  (b ← put_mode x (Z.of_nat k) (htole16 mode); b ← put_uid b (Z.of_nat k) (htole16 uid);
   b ← put_size b (Z.of_nat k) 0; b ← put_gid b (Z.of_nat k) (u8 gid); b ← put_nlinks b (Z.of_nat k) 1;
   b ← put_mtime b (Z.of_nat k) (htole32 (u32 t));
   b ← put_zones b (Z.of_nat k) 0 (replicate (Z.to_nat MINIX_V1_INODE_ZONENUMS) 0);
   if S_ISCHR mode then put_zone b (Z.of_nat k) 0 (htole16 (u16 rdev)) else Some b) =
  Some (splice x (32 * k) (inode_bytes (fresh_inode t mode uid gid rdev))).
Proof.
  intros Hl. assert (Hlen : ∀ o bs, (o + length bs ≤ length x)%nat → length (splice x o bs) = length x)
    by (intros; by apply length_splice).
  unfold put_mode, put_uid, put_size, put_mtime, put_gid, put_nlinks.
  rewrite wr16_splice by lia. cbn [mbind option_bind]. replace (Z.to_nat (2 * (16 * Z.of_nat k))) with (32 * k)%nat by lia.
  rewrite wr16_splice by (rewrite ?Hlen by (simpl; lia); lia). cbn [mbind option_bind].
  rewrite (splice_splice_adj x) by (simpl; lia).
  rewrite wr32_splice by (rewrite ?Hlen by (simpl; lia); lia). cbn [mbind option_bind].
  rewrite (splice_splice_adj x) by (simpl; lia). set (x1 := splice x (32 * k) _).
  assert (H1 : length x1 = length x) by (apply Hlen; simpl; lia).
  rewrite wr_splice by lia. cbn [mbind option_bind].
  rewrite wr_splice by (rewrite ?length_splice by (simpl; lia); lia). cbn [mbind option_bind].
  rewrite (splice_splice_adj x1) by (simpl; lia).
  rewrite wr32_splice by (rewrite ?length_splice by (simpl; lia); lia). cbn [mbind option_bind].
  replace (Z.to_nat (32 * Z.of_nat k + 12)) with (Z.to_nat (2 * (16 * Z.of_nat k + 4)) + length (bytes32 (htole32 (u32 t))))%nat
    by (simpl; lia).
  rewrite splice_splice_pre by (simpl; lia). unfold x1. rewrite (splice_splice_adj x) by (simpl; lia).
  set (fr := Inode (htole16 mode) (htole16 uid) 0 (htole32 (u32 t)) (u8 gid) 1 (replicate 9 0)).
  match goal with |- context [put_zones (splice x (32 * k) ?h) _ _ _] => change h with (inode_head fr) end.
  change (replicate (Z.to_nat MINIX_V1_INODE_ZONENUMS) 0) with (i_zones fr). rewrite put_tail by done.
  cbn [mbind option_bind]. unfold fresh_inode. destruct (S_ISCHR mode); [|done]. unfold put_zone.
  rewrite wr16_splice by (rewrite ?Hlen by (simpl; lia); lia).
  replace (Z.to_nat (2 * (16 * Z.of_nat k + 7 + 0))) with (32 * k + 14)%nat by lia.
  rewrite splice_within by (simpl; lia). done.
Qed.

(** alloc_inode takes the lowest free bit and stores a fresh inode there; when
    there is none, it returns ENOSPC as if it were the number of an inode. *)
Lemma alloc_inode_ok t c d held W own isize li mode uid gid rdev :
  store_rel c d held W own → zlen held < 100 → imap_blocks super = Z.of_nat isize →
  bitmap_is d MINIX_V1_INODE_BITMAP_START isize li → bitmap_free (nb := nb) MINIX_V1_INODE_BITMAP_START isize W →
  bit_at 8 li 0 = true →
  (∀ n, (0 < n < length li * 8)%nat → bit_at 8 li n = false → ino_ok (Z.of_nat n) ∧
     (inode_block super (Z.of_nat n) ∉ W) ∧ MINIX_V1_INODE_BITMAP_START + Z.of_nat isize ≤ inode_block super (Z.of_nat n)) →
  u16_ok mode → u16_ok uid →
  wp (alloc_inode super t c mode uid gid rdev) store_oom (λ '(c', r),
    (r = u32 ENOSPC ∧ (∀ n, (n < length li * 8)%nat → bit_at 8 li n = true) ∧ store_rel c' d held W own) ∨
    (∃ n d1 x, r = Z.of_nat n ∧ bit_at 8 li n = false ∧ (∀ m, (m < n)%nat → bit_at 8 li m = true) ∧
       bitmap_is d1 MINIX_V1_INODE_BITMAP_START isize (set_bit 8 li n) ∧
       (∀ m, (m < MINIX_V1_INODE_BITMAP_START ∨ MINIX_V1_INODE_BITMAP_START + Z.of_nat isize ≤ m) → d1 !! m = d !! m) ∧
       d !! inode_block super r = Some x ∧ length x = 1024%nat ∧
       store_rel c' (set_inode d1 r x (fresh_inode t mode uid gid rdev)) held W own)).
Proof.
  intros Hr Hh Hsz Hbm Hbf H0 Hino Hm Hu. unfold alloc_inode. rewrite Hsz.
  wp_step bit_alloc_ok; [done|done|done|done|].
  intros [c1 bit] [(-> & Hall & Hr1)|(n & d1 & -> & Hn & Hbit & Hlow & Hr1 & Hbm1 & Hout)]; [by left|].
  destruct (Z.eqb_spec (Z.of_nat n) 0). { by replace n with 0%nat in Hbit by lia; rewrite H0 in Hbit. }
  destruct (Hino n ltac:(lia) Hbit) as ([_ Hib] & HWn & Hafter). destruct (slot_bound (Z.of_nat n)) as [-> Hs].
  eapply wp_get; [done|done|done|]. intros c2 b x Hb Hx Hxl Hbd Hr2. rewrite Hout in Hx by lia.
  destruct (Z.eqb_spec b 0); [done|]. rewrite Hbd. res_simpl.
  pose proof (put_fresh x (slot_of (Z.of_nat n)) t mode uid gid rdev ltac:(lia)) as Hc. chain Hc. rewrite Hc. res_simpl.
  pose proof (fresh_inode_ok t mode uid gid rdev Hm Hu) as Hi.
  eapply wp_put_release; [done|done|done|rewrite length_splice; [done|rewrite (length_inode_bytes _ (io_len _ Hi)); lia]|].
  intros c3 Hr3. cbn [wp]. right. exists n, d1, x. done.
Qed.

(** C22: an inode survives the disk: what write_inode stores, read_inode loads
    into any vnode, apart from the times the format does not have, and the
    link count and group that it keeps in a byte; every other inode and every
    other block of the disk stay as they were. *)
Theorem inode_roundtrip c d v w held W own n x :
  store_rel c d held W own → zlen held < 100 → ino_ok n → inode_block super n ∉ W →
  d !! inode_block super n = Some x → vnode_ok v →
  wp ('(c, _, _) ← write_inode super c v n; read_inode super c w n) store_oom (λ '(c', v', r), r = 0 ∧
    v' = Vnode (refcount w) (mode v) (nlinks v mod 256) (uid v) (gid v mod 256) (Z.land (bits w) (Z.lnot VBF_DIRTY))
      (s16 (if S_ISCHR (mode v) then rdev v
            else if S_ISDEV (mode v) then le16toh (default 0 (zones v !! 0%nat)) else 0))
      (ino w) (size v) 0 (mtime v) 0 (stored_zones v) ∧
    ∃ d', store_rel c' d' held W own ∧
      (∀ m, ino_ok m → m ≠ n → inode_on d' m = inode_on d m) ∧
      (∀ m, m ≠ inode_block super n → d' !! m = d !! m)).
Proof.
  intros Hr Hh Hn HW Hx Hv. pose proof (inode_of_ok v Hv) as Hi.
  assert (Hxl : length x = 1024%nat) by (destruct (store_block _ _ _ _ _ _ Hr (proj2 Hn)) as (y & Hy & Hl); congruence).
  wp_step write_inode_ok; [done..|]. intros [[c1 v1] r1] (_ & _ & Hr1).
  eapply wp_mono; [eapply read_inode_ok; try done|done|].
  - rewrite inode_on_set by done. by rewrite Z.eqb_refl.
  - apply (io_len _ Hi).
  - intros [[c2 v2] r2] (-> & -> & Hr2). split; [done|]. split.
    + destruct Hv as [V1 V2 V3 V4 V5 V6]. unfold node_of, inode_of. cbn [i_mode i_uid i_size i_mtime i_gid i_nlinks i_zones].
      assert (Hle : ∀ a, u16_ok a → le16toh (htole16 a) = a) by (intros a Ha; by apply le16_inv).
      assert (Hle32 : ∀ a, u32_ok a → le32toh (htole32 a) = a) by (intros a Ha; by apply le32_inv).
      rewrite !Hle, !Hle32 by (done || apply (uwrap_range 32); lia).
      assert (s32 (u32 (mtime v)) = mtime v) as -> by (unfold s32, u32; rewrite swrap_uwrap by lia; apply s32_small; lia).
      f_equal. unfold stored_zones. destruct (S_ISCHR (mode v)) eqn:Ec.
      * assert (S_ISDEV (mode v) = true) as -> by (unfold S_ISDEV, S_ISCHR in *; by rewrite Ec).
        rewrite list_lookup_insert_eq by lia. simpl default. rewrite Hle by (apply (uwrap_range 16); lia).
        by apply swrap_uwrap.
      * by destruct (S_ISDEV (mode v)).
    + eexists. split; [exact Hr2|]. split.
      * intros m Hm Hne. rewrite inode_on_set by done. by destruct (Z.eqb_spec m n).
      * intros m Hm. unfold set_inode. by rewrite lookup_insert_ne.
Qed.
End disk.

Lemma inode_roundtrip_witness :
  wp ('(c, _, _) ← write_inode (H := image_store) example_super (image_cache example_image) (example_vnode 5) 5;
      read_inode (H := image_store) example_super c (example_vnode 0) 5) (@store_oom _ _ _ _ example_store_laws)
    (λ '(c', v', r), r = 0 ∧ v' = Vnode 1 (S_IFREG + 420) 1 0 0 0 0 0 0 0 0 0 (replicate 9 0) ∧
       ∃ d', @store_rel _ _ _ _ example_store_laws c' d' [] ∅ ∅ ∧
         (∀ m, ino_ok example_super 32 m → m ≠ 5 →
            inode_on example_super d' m = inode_on example_super (image_blocks 32 example_image) m) ∧
         (∀ m, m ≠ 4 → d' !! m = image_blocks 32 example_image !! m)).
Proof.
  apply (inode_roundtrip example_super 32 (StoreLaws0 := example_store_laws) (image_cache example_image)
    (image_blocks 32 example_image) (example_vnode 5) (example_vnode 0) [] ∅ ∅ 5 (replicate 1024 0)).
  - by apply image_cache_rel.
  - done.
  - split; [lia|]. vm_compute. done.
  - set_solver.
  - vm_compute. done.
  - split; try by vm_compute. apply Forall_replicate. by vm_compute.
Defined.

(** The number of a block device is not stored, only that of a character device. *)
Lemma block_device_number_lost :
  match alloc_inode (H := image_store) example_super 0 (image_cache example_image) (S_IFBLK + 420) 0 0 513 with
  | Val (c, n) =>
      match read_inode (H := image_store) example_super c (example_vnode n) n with
      | Val (_, v, _) => n = 2 ∧ mode v = S_IFBLK + 420 ∧ rdev v = 0
      | _ => False
      end
  | _ => False
  end.
Proof. vm_compute. done. Qed.
