(* ===== verification/Minixdir.v ===== *)
(** * Minixdir: the directories of the Minix file system
      (src/kernel/fs/minix/dir.h, minix-v1.h)

    A directory is a file of entries of 16 bytes: the number of an inode, 0 in
    a free entry, and a name of up to 14 characters.  The operations give out
    a pointer to an entry in a buffer they leave held; the pointer is the
    buffer with the number of the entry.  A directory stands for a finite map
    from names to inode numbers ([dir_map]). *)

From S2P Require Import Prelude Bits Result Blockstore Cstring Minixmap Minixzone Minixfile Minixrun Minixnode.

Definition MINIX_V1_MAX_FILENAME : Z := 14.
Definition MINIX_V1_DIRENTS_PER_ZONE : Z := 64.
Definition MINIX_V1_LOG_DIRENTS_PER_ZONE : Z := 6.
Definition SIZEOF_DIRENT : Z := 16.

(** [entries[i].inode] is a word, [entries[i].filename] the characters from there on. *)
Definition dirent_inode (block : list Z) (i : Z) : option Z := rd16 block (8 * i).
Definition dirent_name (block : list Z) (i : Z) : list Z := drop (Z.to_nat (16 * i + 2)) block.
Definition set_dirent_inode (block : list Z) (i v : Z) : option (list Z) := wr16 block (8 * i) v.
Definition set_dirent_name (block : list Z) (i : Z) (name : list Z) : list Z :=
  take (Z.to_nat (16 * i + 2)) block ++ name.

Definition dot : list Z := [46; 0].
Definition dotdot : list Z := [46; 46; 0].

(** The loop over the entries of a block, from [i] on: the first one that
    passes the test of its inode number and its name. *)
Fixpoint scan_entries (test : Z → list Z → option bool) (fuel : nat) (block : list Z) (i : Z) : option (option Z) :=
  match fuel with
  | O => Some None
  | S fuel =>
      raw ← dirent_inode block i;
      b ← test raw (dirent_name block i);
      if (b : bool) then Some (Some i) else scan_entries test fuel block (i + 1)
  end.

Definition scan_block (test : Z → list Z → option bool) (block : list Z) : option (option Z) :=
  scan_entries test (Z.to_nat MINIX_V1_DIRENTS_PER_ZONE) block 0.

(** [entries[i].inode && strcmp(filename, ".") && strcmp(filename, "..")] *)
Definition test_other (raw : Z) (filename : list Z) : option bool :=
  if raw =? 0 then Some false
  else
    r ← strcmp filename dot;
    if r =? 0 then Some false else r ← strcmp filename dotdot; Some (negb (r =? 0)).

(** [le16toh(entries[i].inode) == ino] *)
Definition test_inode (ino : Z) (raw : Z) (filename : list Z) : option bool := Some (le16toh raw =? ino).

(** [entries[i].inode && !strcmp(filename, entries[i].filename)] *)
Definition test_name (name : list Z) (raw : Z) (filename : list Z) : option bool :=
  if raw =? 0 then Some false else r ← strcmp name filename; Some (r =? 0).

Section dir.
Context {C : Type} `{BlockStore C} (super : minix_v1_superblock).

Definition dir_setup (c : C) (v : minix_vnode) (parent : option Z) : res (C * minix_vnode * bool) :=
  '(c, zone) ← minix_alloc_zone super c;
  '(c, buf) ← get_block c zone;
  if buf =? 0 then Val (c, v, false)
  else
    b ← lift (buf_data c buf);
    b ← lift (set_dirent_inode b 0 (htole16 (u16 (ino v))));
    n ← lift (strcpy (dirent_name b 0) dot);
    let b := set_dirent_name b 0 n in
    b ← lift (set_dirent_inode b 1 (htole16 (match parent with Some p => u16 p | None => 1 end)));
    n ← lift (strcpy (dirent_name b 1) dotdot);
    c ← set_buf_data c buf (set_dirent_name b 1 n);
    '(c, _) ← release_block c buf BF_DIRTY;
    z ← lift (wr (zones v) 0 (htole16 (u16 zone)));
    Val (c, mark_vnode_dirty (set_size (set_zones v z) (Z.shiftl SIZEOF_DIRENT 1)), true).

(** The loop over the zones of dir_is_empty. *)
Fixpoint empty_zones (fuel : nat) (c : C) (v : minix_vnode) (znum : Z) : res (C * minix_vnode * Z) :=
  match fuel with
  | O => Undef
  | S fuel =>
      '(c, v, zone) ← zone_lookup super c v znum MFS_LOOKUP_ZONE;
      if zone =? 0 then Val (c, v, 1)
      else
        '(c, buf) ← get_block c zone;
        if buf =? 0 then Val (c, v, EIO)
        else
          block ← lift (buf_data c buf);
          found ← lift (scan_block test_other block);
          '(c, _) ← release_block c buf 0;
          match found with
          | Some _ => Val (c, v, 0)
          | None => empty_zones fuel c v (u32 (znum + 1))
          end
  end.

Definition dir_is_empty (c : C) (v : minix_vnode) : res (C * minix_vnode * Z) := empty_zones max_zones c v 0.

(** The loop over the zones of the two searches: the zone, the buffer and the
    entry that passes the test. *)
Fixpoint find_zones (test : Z → list Z → option bool) (fuel : nat) (c : C) (dir : minix_vnode) (znum create : Z) :
    res (C * minix_vnode * option (Z * Z * Z)) :=
  match fuel with
  | O => Undef
  | S fuel =>
      '(c, dir, zone) ← zone_lookup super c dir znum create;
      if zone =? 0 then Val (c, dir, None)
      else
        '(c, buf) ← get_block c zone;
        if buf =? 0 then Val (c, dir, None)
        else
          block ← lift (buf_data c buf);
          found ← lift (scan_block test block);
          match found with
          | Some i => Val (c, dir, Some (znum, buf, i))
          | None =>
              '(c, _) ← release_block c buf 0;
              find_zones test fuel c dir (u32 (znum + 1)) create
          end
  end.

Definition dir_find_entry_by_inode (c : C) (dir : minix_vnode) (ino create : Z) :
    res (C * minix_vnode * option (Z * Z)) :=
  '(c, dir, r) ← find_zones (test_inode ino) max_zones c dir 0 create;
  match r with
  | None => Val (c, dir, None)
  | Some (znum, buf, i) =>
      let position := u32 (Z.shiftl (u32 (Z.shiftl znum MINIX_V1_LOG_DIRENTS_PER_ZONE) + i + 1) 4) in
      let dir := if size dir <? position then mark_vnode_dirty (set_size dir position) else dir in
      Val (c, dir, Some (buf, i))
  end.

Definition dir_find_entry_by_name (c : C) (dir : minix_vnode) (filename : list Z) (create : Z) :
    res (C * minix_vnode * option (Z * Z)) :=
  '(c, dir, r) ← find_zones (test_name filename) max_zones c dir 0 create;
  match r with
  | None => Val (c, dir, None)
  | Some (_, buf, i) => Val (c, dir, Some (buf, i))
  end.

Definition dir_alloc_entry (c : C) (dir : minix_vnode) (filename : list Z) :
    res (C * minix_vnode * option (Z * Z)) :=
  '(c, dir, r) ← dir_find_entry_by_inode c dir 0 MFS_CREATE_ZONE;
  match r with
  | None => Val (c, dir, None)
  | Some (buf, i) =>
      b ← lift (buf_data c buf);
      n ← lift (strncpy (dirent_name b i) filename (Z.to_nat MINIX_V1_MAX_FILENAME));
      n ← lift (wr n (MINIX_V1_MAX_FILENAME - 1) 0);
      c ← set_buf_data c buf (set_dirent_name b i n);
      Val (c, dir, Some (buf, i))
  end.

(** [dir->inode = htole16(ino); release_block(buf, BF_DIRTY);] *)
Definition dir_commit (c : C) (entry : Z * Z) (ino : Z) : res C :=
  let '(buf, i) := entry in
  b ← lift (buf_data c buf);
  b ← lift (set_dirent_inode b i (htole16 (u16 ino)));
  c ← set_buf_data c buf b;
  '(c, _) ← release_block c buf BF_DIRTY;
  Val c.

(** What minix_lookup, minix_link and minix_unlink do to the directory. *)
Inductive dir_op :=
  | DirFind (name : list Z)
  | DirAdd (name : list Z) (ino : Z)
  | DirRemove (name : list Z).

Definition dir_step (c : C) (dir : minix_vnode) (op : dir_op) : res (C * minix_vnode * Z) :=
  match op with
  | DirFind name =>
      '(c, dir, r) ← dir_find_entry_by_name c dir name MFS_LOOKUP_ZONE;
      match r with
      | None => Val (c, dir, ENOENT)
      | Some (buf, i) =>
          b ← lift (buf_data c buf);
          raw ← lift (dirent_inode b i);
          '(c, _) ← release_block c buf 0;
          Val (c, dir, le16toh raw)
      end
  | DirAdd name ino =>
      '(c, dir, r) ← dir_alloc_entry c dir name;
      match r with
      | None => Val (c, dir, ENOSPC)
      | Some entry => c ← dir_commit c entry ino; Val (c, dir, 0)
      end
  | DirRemove name =>
      '(c, dir, r) ← dir_find_entry_by_name c dir name MFS_LOOKUP_ZONE;
      match r with
      | None => Val (c, dir, ENOENT)
      | Some entry => c ← dir_commit c entry 0; Val (c, dir, 0)
      end
  end.

Fixpoint dir_run (c : C) (dir : minix_vnode) (ops : list dir_op) : res (C * minix_vnode * list Z) :=
  match ops with
  | [] => Val (c, dir, [])
  | op :: ops =>
      '(c, dir, out) ← dir_step c dir op;
      '(c, dir, outs) ← dir_run c dir ops;
      Val (c, dir, out :: outs)
  end.
End dir.

(** ** The specification: a map from names to inodes, and the zones that may be taken *)

Definition name_ok (nm : list Z) : bool :=
  bool_decide (Forall (λ b, 0 < b < 256) nm) && (length nm <=? 13)%nat.

(** The names are given as C strings. *)
Definition names_step (st : gmap (list Z) Z * nat) (op : dir_op) : option ((gmap (list Z) Z * nat) * Z) :=
  let '(M, free) := st in
  match op with
  | DirFind s => nm ← cstr s; Some (M, free, default ENOENT (M !! nm))
  | DirAdd s ino =>
      nm ← cstr s;
      if name_ok nm && (0 <? ino) && (ino <? 65536) && (3 <=? free)%nat && negb (bool_decide (is_Some (M !! nm)))
      then Some (<[nm := ino]> M, (free - 3)%nat, 0) else None
  | DirRemove s =>
      nm ← cstr s;
      if bool_decide (is_Some (M !! nm)) then Some (delete nm M, free, 0) else Some (M, free, ENOENT)
  end.

(** ** Entries *)

(** Entry [k] of the bytes of a directory: the number of its inode and the
    14 bytes of its name. *)
Definition dent (x : list Z) (k : nat) : Z * list Z := (entry x (8 * Z.of_nat k), slice x (16 * k + 2) 14).

Fixpoint first_from (P : nat → bool) (i n : nat) : option nat :=
  match n with
  | O => None
  | S n => if P i then Some i else first_from P (S i) n
  end.

Lemma first_from_spec P n : ∀ i,
  match first_from P i n with
  | Some k => (i ≤ k < i + n)%nat ∧ P k = true ∧ ∀ j, (i ≤ j < k)%nat → P j = false
  | None => ∀ j, (i ≤ j < i + n)%nat → P j = false
  end.
Proof.
  induction n as [|n IH]; intros i; simpl; [lia|]. destruct (P i) eqn:E.
  - split; [lia|]. split; [done|]. lia.
  - specialize (IH (S i)). destruct (first_from P (S i) n) as [k|].
    + destruct IH as (? & ? & Hj). split; [lia|]. split; [done|]. intros j ?.
      destruct (decide (j = i)) as [->|]; [done|]. apply Hj. lia.
    + intros j ?. destruct (decide (j = i)) as [->|]; [done|]. apply IH. lia.
Qed.

Lemma first_from_ext P Q n : ∀ i, (∀ j, (i ≤ j < i + n)%nat → P j = Q j) → first_from P i n = first_from Q i n.
Proof.
  induction n as [|n IH]; intros i He; simpl; [done|]. rewrite He by lia.
  rewrite (IH (S i)) by (intros; apply He; lia). done.
Qed.

Lemma first_from_app P a b : ∀ i, first_from P i (a + b) =
  match first_from P i a with Some k => Some k | None => first_from P (i + a) b end.
Proof.
  induction a as [|a IH]; intros i; simpl; [by rewrite Nat.add_0_r|]. destruct (P i); [done|].
  rewrite IH. by replace (S i + a)%nat with (i + S a)%nat by lia.
Qed.

Lemma first_from_shift P o n : ∀ i, first_from P (o + i) n = Nat.add o <$> first_from (λ j, P (o + j)%nat) i n.
Proof.
  induction n as [|n IH]; intros i; simpl; [done|]. destruct (P (o + i)%nat); [done|].
  by rewrite <- IH, Nat.add_succ_r.
Qed.

(** The test of the code, on what it reads, is [T] on the entry. *)
Definition tests (test : Z → list Z → option bool) (T : Z * list Z → bool) (x : list Z) : Prop :=
  ∀ i, (i < 64)%nat → ∃ raw, dirent_inode x (Z.of_nat i) = Some raw ∧
    test raw (dirent_name x (Z.of_nat i)) = Some (T (dent x i)).

Lemma scan_block_ok test T x : tests test T x →
  scan_block test x = Some (Z.of_nat <$> first_from (λ i, T (dent x i)) 0 64).
Proof.
  intros Ht. unfold scan_block. change (Z.to_nat MINIX_V1_DIRENTS_PER_ZONE) with 64%nat.
  assert (Hg : ∀ n i, (i + n = 64)%nat → scan_entries test n x (Z.of_nat i) =
    Some (Z.of_nat <$> first_from (λ i, T (dent x i)) i n)); [|exact (Hg 64%nat 0%nat eq_refl)].
  induction n as [|n IH]; intros i Hi; [done|]. cbn [scan_entries].
  destruct (Ht i) as (raw & -> & E); [lia|]. cbn [mbind option_bind]. rewrite E. cbn [mbind option_bind].
  cbn [first_from]. destruct (T (dent x i)); [done|].
  replace (Z.of_nat i + 1) with (Z.of_nat (S i)) by lia. apply IH. lia.
Qed.

(** A name that ends within its 14 bytes. *)
Definition entry_wf (e : Z * list Z) : Prop := e.1 ≠ 0 → ∃ nm, cstr e.2 = Some nm.

Definition is_inode (ino : Z) (e : Z * list Z) : bool := e.1 =? ino.
Definition is_name (nm : list Z) (e : Z * list Z) : bool := negb (e.1 =? 0) && bool_decide (cstr e.2 = Some nm).
Definition is_other (e : Z * list Z) : bool :=
  negb (e.1 =? 0) && bool_decide (cstr e.2 ≠ Some [46]) && bool_decide (cstr e.2 ≠ Some [46; 46]).

Lemma cstr_app s t nm : cstr s = Some nm → cstr (s ++ t) = Some nm.
Proof.
  revert nm. induction s as [|c s IH]; intros nm Hs; [done|]. simpl in Hs |- *. destruct (c =? 0); [done|].
  destruct (cstr s) as [k|]; [|done]. by rewrite (IH k).
Qed.

Lemma dirent_inode_ok x i : length x = 1024%nat → Forall byte_ok x → (i < 64)%nat →
  ∃ raw, dirent_inode x (Z.of_nat i) = Some raw ∧ le16toh raw = (dent x i).1 ∧ (raw = 0 ↔ (dent x i).1 = 0).
Proof.
  intros Hl Hb Hi. destruct (rd16_ok x (8 * Z.of_nat i) Hl Hb) as (raw & E & _ & Ee & _ & Hz); [lia|].
  exists raw. unfold dirent_inode, dent. simpl. rewrite E. split; [done|]. split; [by rewrite Ee|]. done.
Qed.

Lemma dirent_name_cstr x i nm : cstr (dent x i).2 = Some nm → cstr (dirent_name x (Z.of_nat i)) = Some nm.
Proof.
  unfold dent, dirent_name. simpl. intros Hn. replace (Z.to_nat (16 * Z.of_nat i + 2)) with (16 * i + 2)%nat by lia.
  unfold slice in Hn. rewrite <- (take_drop 14 (drop (16 * i + 2) x)). by apply cstr_app.
Qed.

Lemma tests_inode ino x : length x = 1024%nat → Forall byte_ok x → tests (test_inode ino) (is_inode ino) x.
Proof.
  intros Hl Hb i Hi. destruct (dirent_inode_ok x i Hl Hb Hi) as (raw & E & Er & _). exists raw. split; [done|].
  unfold test_inode, is_inode. by rewrite Er.
Qed.

Lemma strcmp_eq s t l k : cstr s = Some l → cstr t = Some k → ∃ r, strcmp s t = Some r ∧ (r =? 0) = bool_decide (l = k).
Proof.
  intros Hl Hk. exists (order l k). split; [by apply strcmp_spec|].
  destruct (Z.eqb_spec (order l k) 0) as [E|E]; [rewrite bool_decide_eq_true_2|rewrite bool_decide_eq_false_2];
    by rewrite <- ?order_eq.
Qed.

Lemma tests_name s nm x : length x = 1024%nat → Forall byte_ok x → cstr s = Some nm →
  (∀ i, (i < 64)%nat → entry_wf (dent x i)) → tests (test_name s) (is_name nm) x.
Proof.
  intros Hl Hb Hs Hwf i Hi. destruct (dirent_inode_ok x i Hl Hb Hi) as (raw & E & Er & Hz). exists raw. split; [done|].
  unfold test_name, is_name. destruct (Z.eqb_spec raw 0) as [H0|H0], (Z.eqb_spec (dent x i).1 0) as [H1|H1]; try tauto.
  destruct (Hwf i Hi H1) as [n Hn]. destruct (strcmp_eq s _ nm n Hs (dirent_name_cstr x i n Hn)) as (r & -> & Hr).
  cbn [mbind option_bind]. rewrite Hr, Hn. simpl. f_equal. apply bool_decide_ext. split; congruence.
Qed.

Lemma tests_other x : length x = 1024%nat → Forall byte_ok x →
  (∀ i, (i < 64)%nat → entry_wf (dent x i)) → tests test_other is_other x.
Proof.
  intros Hl Hb Hwf i Hi. destruct (dirent_inode_ok x i Hl Hb Hi) as (raw & E & Er & Hz). exists raw. split; [done|].
  unfold test_other, is_other. destruct (Z.eqb_spec raw 0) as [H0|H0], (Z.eqb_spec (dent x i).1 0) as [H1|H1]; try tauto.
  destruct (Hwf i Hi H1) as [n Hn]. pose proof (dirent_name_cstr x i n Hn) as Hn'.
  destruct (strcmp_eq _ dot n [46] Hn' eq_refl) as (r & -> & Hr). cbn [mbind option_bind]. rewrite Hr, Hn.
  destruct (decide (n = [46])) as [->|Hd]; [done|]. rewrite bool_decide_eq_false_2 by done.
  destruct (strcmp_eq _ dotdot n [46; 46] Hn' eq_refl) as (r2 & -> & Hr2). cbn [mbind option_bind]. rewrite Hr2.
  rewrite (bool_decide_eq_true_2 (Some n ≠ _)) by congruence. simpl. f_equal.
  destruct (decide (n = [46; 46])) as [->|Hdd]; [done|].
  by rewrite bool_decide_eq_false_2, bool_decide_eq_true_2 by congruence.
Qed.

(** ** The contents of a directory *)

(** Entry [64 * z + i] is entry [i] of block [z]. *)
Lemma entry_slice data o j : 0 ≤ j < 512 → entry (slice data (1024 * o) 1024) j = entry data (512 * Z.of_nat o + j).
Proof.
  intros Hj. unfold entry, rd16, rd. rewrite !lookup_slice.
  destruct (Z.ltb_spec (2 * j) 0), (Z.ltb_spec (2 * j + 1) 0), (Z.ltb_spec (2 * (512 * Z.of_nat o + j)) 0),
    (Z.ltb_spec (2 * (512 * Z.of_nat o + j) + 1) 0); try lia.
  destruct (Nat.ltb_spec (Z.to_nat (2 * j)) 1024), (Nat.ltb_spec (Z.to_nat (2 * j + 1)) 1024); try lia.
  by replace (1024 * o + Z.to_nat (2 * j))%nat with (Z.to_nat (2 * (512 * Z.of_nat o + j))) by lia;
    replace (1024 * o + Z.to_nat (2 * j + 1))%nat with (Z.to_nat (2 * (512 * Z.of_nat o + j) + 1)) by lia.
Qed.

Lemma slice_slice {A} (l : list A) i n j k : (j + k ≤ n)%nat → slice (slice l i n) j k = slice l (i + j) k.
Proof. intros Hn. unfold slice. rewrite skipn_firstn_comm, take_take, drop_drop. f_equal. lia. Qed.

Lemma dent_slice data z i : (i < 64)%nat → dent (slice data (1024 * z) 1024) i = dent data (64 * z + i).
Proof.
  intros Hi. unfold dent. rewrite entry_slice by lia. f_equal.
  - f_equal. lia.
  - rewrite slice_slice by lia. f_equal. lia.
Qed.

Lemma first_in_block (T : Z * list Z → bool) data znum :
  first_from (λ k, T (dent data k)) (64 * znum) 64 =
    Nat.add (64 * znum) <$> first_from (λ i, T (dent (slice data (1024 * znum) 1024) i)) 0 64.
Proof.
  rewrite <- (Nat.add_0_r (64 * znum)) at 1. rewrite first_from_shift. f_equal. apply first_from_ext.
  intros j Hj. by rewrite dent_slice by lia.
Qed.

(** The directory has [m] blocks, which hold [data]. *)
Record dir_is (d : gmap Z (list Z)) (zs : list Z) (m : nat) (data : list Z) : Prop := {
  di_file : file_is d zs data;
  di_len : length data = (1024 * m)%nat;
  di_end : ∀ z, Z.of_nat m ≤ z < zone_max → zp d zs (zpath z) = 0;
  di_wf : ∀ k, (k < 64 * m)%nat → entry_wf (dent data k);
}.

Section search.
Context (super : minix_v1_superblock) (nb zsize : nat).
Context {C : Type} `{BlockStore C} `{!StoreLaws C 1024 nb} (Hgeo : geometry super nb zsize).

Abbreviation layout := (layout super nb zsize).
Abbreviation zones_ok := (zones_ok super).
Abbreviation W_ok := (W_ok super).
Abbreviation evolves := (evolves super nb zsize).
Abbreviation free_count := (free_count super).

Lemma dir_zone d l zs m data z : layout d l → zones_ok d l zs → dir_is d zs m data → (z < m)%nat →
  Z.of_nat z < zone_max ∧ zp d zs (zpath (Z.of_nat z)) ≠ 0 ∧ data_zone super (zp d zs (zpath (Z.of_nat z))) ∧
  d !! zp d zs (zpath (Z.of_nat z)) = Some (slice data (1024 * z) 1024) ∧
  length (slice data (1024 * z) 1024) = 1024%nat ∧ Forall byte_ok (slice data (1024 * z) 1024).
Proof.
  intros Hly Hzo [Hf Hlen _ _] Hz.
  assert (Hin : in_zone (1024 * z) z 0) by (split; lia).
  destruct (file_zone d zs data z 0 (1024 * z) Hf Hin) as [Hn Hmax]; [lia|]. split; [done|]. split; [done|].
  destruct (table_block super nb zsize Hgeo d l zs _ Hly Hzo (zpath_valid (Z.of_nat z) ltac:(lia)) Hn) as (Hd & x & Hx & Hxl & Hb).
  split; [done|]. pose proof (zone_slice d zs data x z 0 1024 (1024 * z) Hf Hin Hx ltac:(lia) ltac:(lia)) as Hs.
  unfold slice at 1 in Hs. rewrite drop_0, take_ge in Hs by lia. subst x. done.
Qed.

(** Looking through a block that the directory has. *)
Lemma find_zone_step test T d l v held W own m data create fuel znum c Q :
  store_rel c d held W own → zlen held < 98 → layout d l → zones_ok d l (zones v) → W_ok d l (zones v) W →
  dir_is d (zones v) m data → tests test T (slice data (1024 * znum) 1024) → (znum < m)%nat →
  match first_from (λ k, T (dent data k)) (64 * znum) 64 with
  | Some k => (k / 64 = znum)%nat → ∀ c' buf, buf ≠ 0 →
      store_rel c' d ((buf, zp d (zones v) (zpath (Z.of_nat znum))) :: held) W own →
      buf_data c' buf = Some (slice data (1024 * znum) 1024) →
      Q (c', v, Some (Z.of_nat znum, buf, Z.of_nat (k mod 64)))
  | None => ∀ c', store_rel c' d held W own → wp (find_zones super test fuel c' v (Z.of_nat (S znum)) create) store_oom Q
  end →
  wp (find_zones super test (S fuel) c v (Z.of_nat znum) create) store_oom Q.
Proof.
  intros Hr Hh Hly Hzo HW Hd Ht Hz HQ. cbn [find_zones].
  destruct (dir_zone d l (zones v) m data znum Hly Hzo Hd ltac:(lia)) as (Hmax & Hzn & Hdz & Hx & Hxl & Hxb).
  rewrite first_in_block in HQ. revert Ht HQ Hx Hxl Hxb. generalize (slice data (1024 * znum) 1024).
  intros blk Ht HQ Hx Hxl Hxb.
  wp_step (zone_lookup_find super nb zsize Hgeo); [by right|done..|lia|done|].
  intros [[c1 v1] z] (-> & -> & Hr1). destruct (Z.eqb_spec (zp d (zones v) (zpath (Z.of_nat znum))) 0); [done|].
  pose proof (data_zone_block super nb zsize Hgeo _ Hdz) as [Hzb _].
  eapply wp_get; [done|done|lia|]. intros c2 b x' Hb Hx' _ Hbd Hr2.
  assert (x' = blk) as -> by congruence.
  destruct (Z.eqb_spec b 0); [done|]. rewrite Hbd. res_simpl. rewrite (scan_block_ok test T) by done. res_simpl.
  pose proof (first_from_spec (λ i, T (dent blk i)) 64 0) as Hs.
  revert HQ Hs. generalize (first_from (λ i, T (dent blk i)) 0 64).
  intros [i|] HQ Hs; cbn [fmap option_fmap option_map] in HQ |- *.
  - cbn [wp]. destruct Hs as [Hi _].
    assert (Hdiv : ((64 * znum + i) / 64 = znum)%nat) by (rewrite Nat.mul_comm, Nat.div_add_l, Nat.div_small; lia).
    assert (Hmod : ((64 * znum + i) mod 64 = i)%nat)
      by (rewrite Nat.add_comm, Nat.mul_comm, Nat.Div0.mod_add, Nat.mod_small; lia).
    rewrite Hmod in HQ. by apply HQ.
  - assert (HzW : zp d (zones v) (zpath (Z.of_nat znum)) ∉ W)
      by (intros Hin; destruct (HW _ Hin) as (_ & _ & Hno); by apply (Hno _ (zpath_valid (Z.of_nat znum) ltac:(lia)))).
    eapply wp_release; [done|lia|done|]. intros c3 _ Hr3.
    unfold zone_max in Hmax. rewrite u32_small by lia. replace (Z.of_nat znum + 1) with (Z.of_nat (S znum)) by lia.
    by apply HQ.
Qed.

(** Searching the blocks that the directory has. *)
Lemma find_zones_ok test T d l v held W own m data create : ∀ fuel znum c,
  store_rel c d held W own → zlen held < 98 → layout d l → zones_ok d l (zones v) → W_ok d l (zones v) W →
  dir_is d (zones v) m data →
  (∀ z, (z < m)%nat → tests test T (slice data (1024 * z) 1024)) →
  create = 0 ∨ first_from (λ k, T (dent data k)) (64 * znum) (64 * (m - znum)) ≠ None →
  (znum ≤ m)%nat → (m - znum < fuel)%nat →
  wp (find_zones super test fuel c v (Z.of_nat znum) create) store_oom (λ '(c', v', r), v' = v ∧
    match first_from (λ k, T (dent data k)) (64 * znum) (64 * (m - znum)) with
    | None => r = None ∧ store_rel c' d held W own
    | Some k => ∃ buf, r = Some (Z.of_nat (k / 64), buf, Z.of_nat (k mod 64)) ∧ buf ≠ 0 ∧
        store_rel c' d ((buf, zp d (zones v) (zpath (Z.of_nat (k / 64)))) :: held) W own
    end).
Proof.
  induction fuel as [|fuel IH]; intros znum c0 Hr Hh Hly Hzo HW Hd Ht Hcr Hz Hfu; [lia|].
  destruct (decide (znum = m)) as [->|Hne].
  { cbn [find_zones]. rewrite Nat.sub_diag, Nat.mul_0_r in Hcr |- *. destruct Hcr as [->|]; [|done]. cbn [first_from].
    wp_step (zone_lookup_find super nb zsize Hgeo); [by left|done..|lia|done|].
    intros [[c1 v1] z] (-> & -> & Hr1).
    assert (zp d (zones v) (zpath (Z.of_nat m)) = 0) as ->; [|done].
    destruct (Z.lt_ge_cases (Z.of_nat m) zone_max); [apply (di_end _ _ _ _ Hd); lia|].
    destruct (zpath_cases (Z.of_nat m)) as [[? _]|[[? _]|[[? _]|[_ ->]]]]; unfold zone_max in *; lia || done. }
  replace (64 * (m - znum))%nat with (64 + 64 * (m - S znum))%nat in Hcr |- * by lia. rewrite first_from_app in Hcr |- *.
  eapply find_zone_step; try done; [apply Ht; lia|lia|].
  destruct (first_from (λ k, T (dent data k)) (64 * znum) 64) as [k|].
  - intros Ek c' buf Hb Hr' _. split; [done|]. rewrite Ek. eauto.
  - intros c' Hr'. replace (64 * znum + 64)%nat with (64 * S znum)%nat in * by lia. eapply IH; try done; lia.
Qed.

(** A new block is full of free entries. *)
Lemma dent_zero i : (i < 64)%nat → (dent zero_block i).1 = 0.
Proof. intros Hi. apply entry_zero. lia. Qed.

(** The directory afterwards: its entries are those it had, and perhaps free ones. *)
Definition dir_grown (m : nat) (data : list Z) (m' : nat) (data' : list Z) : Prop :=
  (m ≤ m' ≤ S m)%nat ∧ (∀ j, (j < 64 * m)%nat → dent data' j = dent data j) ∧
  (∀ j, (64 * m ≤ j < 64 * m')%nat → (dent data' j).1 = 0).

Lemma dir_grown_refl m data : dir_grown m data m data.
Proof. split; [lia|]. split; [done|]. lia. Qed.

Lemma dir_grown_new m data : length data = (1024 * m)%nat → dir_grown m data (S m) (data ++ zero_block).
Proof.
  intros Hlen. assert (Hzl : length zero_block = 1024%nat) by apply length_replicate. split; [lia|]. split.
  - intros j Hj. pose proof (Nat.div_mod j 64 ltac:(lia)). pose proof (Nat.mod_upper_bound j 64 ltac:(lia)).
    replace j with (64 * (j / 64) + j mod 64)%nat by lia. rewrite <- !dent_slice by lia. f_equal. unfold slice.
    rewrite drop_app_le by lia. rewrite take_app_le by (rewrite length_drop; lia). done.
  - intros j Hj. replace j with (64 * m + (j - 64 * m))%nat by lia. rewrite <- dent_slice by lia. unfold slice.
    rewrite drop_app_ge, take_ge by (rewrite ?length_drop; lia). replace (1024 * m - length data)%nat with 0%nat by lia.
    rewrite drop_0. apply dent_zero. lia.
Qed.

Lemma dir_extend d l zs d' l' zs' m data k : zones_ok d l zs → dir_is d zs m data → Z.of_nat m < zone_max →
  grow super nb zsize (suffix_path (zpath (Z.of_nat m))) k d l zs d' l' zs' →
  zp d' zs' (zpath (Z.of_nat m)) ≠ 0 → d' !! zp d' zs' (zpath (Z.of_nat m)) = Some zero_block →
  dir_is d' zs' (S m) (data ++ zero_block).
Proof.
  intros Hzo [Hf Hlen Hend Hwf] Hm G Hn Hx. pose proof (file_grow super nb zsize _ _ _ _ _ _ _ _ _ Hzo G Hf) as Hf'.
  assert (Hzl : length zero_block = 1024%nat) by apply length_replicate.
  destruct (dir_grown_new m data Hlen) as (_ & Hold & Hnew).
  split.
  - destruct Hf' as [Hmax Hf'']. split.
    { rewrite length_app, Hzl. unfold max_bytes, MINIX_V1_ZONE_SIZE. lia. }
    intros i Hi. rewrite length_app, Hzl in Hi. destruct (Nat.lt_ge_cases i (length data)).
    + rewrite lookup_app_l by done. by apply Hf''.
    + rewrite lookup_app_r by done. destruct (in_zone_div i m (i - length data)) as [E1 E2]; [split; lia|].
      unfold file_byte, zone_of. rewrite E1, E2. destruct (Z.eqb_spec (zp d' zs' (zpath (Z.of_nat m))) 0); [done|].
      by rewrite Hx.
  - rewrite length_app, Hzl. lia.
  - intros z Hz. rewrite (gr_only _ _ _ _ _ _ _ _ _ _ _ G); [apply Hend; lia|apply zpath_valid; lia|].
    intros [r Hr]. destruct r as [|j r] using rev_ind.
    + apply zpath_inj in Hr; lia.
    + rewrite <- app_assoc in Hr. simpl in Hr. apply (zpath_leaf z j); [lia|].
      apply (vpath_app r); [|done]. rewrite <- Hr. apply zpath_valid. lia.
  - intros j Hj. destruct (Nat.lt_ge_cases j (64 * m)); [rewrite Hold by done; by apply Hwf|].
    intros Hne. destruct Hne. apply Hnew. lia.
Qed.

(** ** Changing an entry *)

(** [set_dent data k e]: entry [k] is [e], the others are as they were. *)
Definition dent_set (data data' : list Z) (k : nat) (e : Z * list Z) : Prop :=
  length data' = length data ∧ ∀ j, dent data' j = if decide (j = k) then e else dent data j.

Lemma entry_splice_ne data o bs j : (o + length bs ≤ length data)%nat → 0 ≤ j →
  2 * j + 2 ≤ Z.of_nat o ∨ Z.of_nat (o + length bs) ≤ 2 * j → entry (splice data o bs) j = entry data j.
Proof.
  intros Hl Hj Hd. unfold entry, rd16, rd. rewrite !lookup_splice by done.
  destruct (Z.ltb_spec (2 * j) 0), (Z.ltb_spec (2 * j + 1) 0); try lia.
  destruct (Nat.ltb_spec (Z.to_nat (2 * j)) o), (Nat.ltb_spec (Z.to_nat (2 * j + 1)) o),
    (Nat.ltb_spec (Z.to_nat (2 * j)) (o + length bs)), (Nat.ltb_spec (Z.to_nat (2 * j + 1)) (o + length bs)); lia || done.
Qed.

Lemma dent_set_name data k nm : (16 * k + 16 ≤ length data)%nat → length nm = 14%nat →
  dent_set data (splice data (16 * k + 2) nm) k ((dent data k).1, nm).
Proof.
  intros Hl Hn. split; [apply length_splice; lia|]. intros j. unfold dent. rewrite entry_splice_ne by lia.
  destruct (decide (j = k)) as [->|Hne].
  - f_equal. rewrite <- Hn. apply slice_splice. lia.
  - f_equal. apply slice_splice_disjoint; lia.
Qed.

Lemma dent_set_inode data k v : (16 * k + 16 ≤ length data)%nat → u16_ok v →
  dent_set data (splice data (16 * k) (bytes16 v)) k (le16toh v, (dent data k).2).
Proof.
  intros Hl Hv. split; [apply length_splice; simpl; lia|]. intros j. unfold dent.
  destruct (decide (j = k)) as [->|Hne].
  - f_equal.
    + unfold entry. replace (8 * Z.of_nat k) with (Z.of_nat (16 * k / 2 + 0))
        by (replace (16 * k)%nat with ((8 * k) * 2)%nat by lia; rewrite Nat.div_mul; lia).
      rewrite (rd16_splice_in data (16 * k) (bytes16 v) 0 v [] []); [done|simpl; lia|done|done|done|].
      replace (16 * k)%nat with ((8 * k) * 2)%nat by lia. apply Nat.Div0.mod_mul.
    + apply slice_splice_disjoint; simpl; lia.
  - f_equal; [apply entry_splice_ne; simpl; lia|apply slice_splice_disjoint; simpl; lia].
Qed.

(** The block of entry [k] is changed. *)
Lemma dir_write d l zs m data k off bs e :
  layout d l → zones_ok d l zs → dir_is d zs m data → (k < 64 * m)%nat → (off < 16)%nat → (off + length bs ≤ 16)%nat →
  Forall byte_ok bs → dent_set data (splice data (16 * k + off) bs) k e → entry_wf e →
  let z := zp d zs (zpath (Z.of_nat (k / 64))) in
  let x := slice data (1024 * (k / 64)) 1024 in
  let d' := <[z := splice x (16 * (k mod 64) + off) bs]> d in
  evolves 0 d l zs d' l zs ∧ dir_is d' zs m (splice data (16 * k + off) bs) ∧
  length (splice x (16 * (k mod 64) + off) bs) = 1024%nat ∧
  splice x (16 * (k mod 64) + off) bs = slice (splice data (16 * k + off) bs) (1024 * (k / 64)) 1024.
Proof.
  intros Hly Hzo Hd Hk Ho16 Hoff Hb [Hlen' Hdent] Hwf z x d'.
  pose proof (Nat.div_mod k 64 ltac:(lia)) as Hdm. pose proof (Nat.mod_upper_bound k 64 ltac:(lia)) as Hmb.
  assert (Hkm : (k / 64 < m)%nat) by (apply Nat.Div0.div_lt_upper_bound; lia).
  destruct (dir_zone d l zs m data (k / 64) Hly Hzo Hd Hkm) as (Hmax & Hn & Hdz & Hx & Hxl & Hxb). fold z in Hn, Hx.
  fold x in Hx, Hxl, Hxb. set (q := (k / 64)%nat) in *. set (i := (k mod 64)%nat) in *. clearbody q i.
  assert (Hsl : length (splice x (16 * i + off) bs) = 1024%nat) by (rewrite length_splice; lia).
  assert (Hev : evolves 0 d l zs d' l zs).
  { apply evolves_set; try done; [lia|]. unfold splice. apply Forall_app. split; [by apply Forall_take|].
    apply Forall_app. split; [done|by apply Forall_drop]. }
  pose proof (set_data_zp super d l zs (Z.of_nat q) (splice x (16 * i + off) bs) Hzo ltac:(lia) Hn) as Hzp.
  assert (Hd' : dir_is d' zs m (splice data (16 * k + off) bs)).
  { destruct Hd as [Hf Hlen Hend Hw]. split.
    - apply (file_set super d l zs data q (16 * i + off) (16 * k + off) x bs); try done; [split; lia|lia|lia].
    - lia.
    - intros w Hw'. unfold d'. rewrite Hzp by (apply zpath_valid; lia). by apply Hend.
    - intros j Hj. rewrite Hdent. destruct (decide (j = k)); [done|by apply Hw]. }
  split; [done|]. split; [done|]. split; [done|].
  destruct (dir_zone d' l zs m _ q (ev_layout _ _ _ _ _ _ _ _ _ _ Hev) (ev_zones _ _ _ _ _ _ _ _ _ _ Hev) Hd' Hkm)
    as (_ & _ & _ & Hx' & _). unfold d' in Hx'. rewrite Hzp in Hx' by (apply zpath_valid; lia). fold z in Hx'.
  rewrite lookup_insert_eq in Hx'. by injection Hx'.
Qed.

(** ** Finding a free entry *)

Lemma dir_blocks d l zs m data : layout d l → zones_ok d l zs → dir_is d zs m data →
  (m ≤ Z.to_nat zone_max)%nat ∧ ∀ z, (z < m)%nat →
    length (slice data (1024 * z) 1024) = 1024%nat ∧ Forall byte_ok (slice data (1024 * z) 1024).
Proof.
  intros Hly Hzo Hd. split; [|intros z Hz; by eapply dir_zone].
  destruct (Nat.le_gt_cases m (Z.to_nat zone_max)) as [|Hm]; [done|].
  destruct (dir_zone d l zs m data (Z.to_nat zone_max) Hly Hzo Hd Hm) as [Hmax _]. unfold zone_max in Hmax. lia.
Qed.

(** When no entry is free, the search ends in a new block. *)
Lemma find_zones_new d l v held W own m data : ∀ fuel znum c,
  store_rel c d held W own → zlen held < 98 → layout d l → zones_ok d l (zones v) → W_ok d l (zones v) W →
  dir_is d (zones v) m data → first_from (λ k, is_inode 0 (dent data k)) (64 * znum) (64 * (m - znum)) = None →
  (znum ≤ m)%nat → (m - znum < fuel)%nat → Z.of_nat m < zone_max → (2 < free_count l)%nat →
  wp (find_zones super (test_inode 0) fuel c v (Z.of_nat znum) MFS_CREATE_ZONE) store_oom (λ '(c', v', r),
    ∃ d' l' zs' buf, v' = set_zones v zs' ∧ evolves 3 d l (zones v) d' l' zs' ∧
      dir_is d' zs' (S m) (data ++ zero_block) ∧ r = Some (Z.of_nat m, buf, 0) ∧ buf ≠ 0 ∧
      store_rel c' d' ((buf, zp d' zs' (zpath (Z.of_nat m))) :: held) W own).
Proof.
  induction fuel as [|fuel IH]; intros znum c Hr Hh Hly Hzo HW Hd Hnone Hz Hfu Hm Hfree; [lia|].
  destruct (decide (znum = m)) as [->|Hne].
  - cbn [find_zones]. wp_step (zone_lookup_create super nb zsize Hgeo); try done; [lia|].
    intros [[c1 v1] z] (d1 & l1 & zs1 & -> & Hr1 & G & -> & Hzn & Hnew).
    rewrite (di_end _ _ _ _ Hd) in Hnew by lia. specialize (Hnew eq_refl).
    pose proof (grow_evolves super nb zsize _ _ _ _ _ _ _ _ G) as E1.
    pose proof (dir_extend _ _ _ _ _ _ _ _ _ Hzo Hd Hm G Hzn Hnew) as Hd1.
    destruct (Z.eqb_spec (zp d1 zs1 (zpath (Z.of_nat m))) 0); [done|].
    destruct (zo_used _ _ _ _ (ev_zones _ _ _ _ _ _ _ _ _ _ E1) _ (zpath_valid (Z.of_nat m) ltac:(lia)) Hzn) as [Hdz _].
    pose proof (data_zone_block super nb zsize Hgeo _ Hdz) as [Hzb _].
    eapply wp_get; [done|done|lia|]. intros c2 b x Hb Hx Hxl Hbd Hr2. assert (x = zero_block) as -> by congruence.
    destruct (Z.eqb_spec b 0); [done|]. rewrite Hbd. res_simpl.
    rewrite (scan_block_ok _ (is_inode 0)) by (by apply tests_inode; [|apply bytes_zero]). res_simpl.
    cbn [first_from]. unfold is_inode at 1. rewrite dent_zero by lia. cbn [Z.eqb]. cbn [fmap option_fmap option_map wp].
    exists d1, l1, zs1, b. done.
  - replace (64 * (m - znum))%nat with (64 + 64 * (m - S znum))%nat in Hnone by lia. rewrite first_from_app in Hnone.
    eapply (find_zone_step _ (is_inode 0)); try done; [|lia|].
    { destruct (dir_blocks _ _ _ _ _ Hly Hzo Hd) as [_ Hbl]. destruct (Hbl znum); [lia|]. by apply tests_inode. }
    destruct (first_from (λ k, is_inode 0 (dent data k)) (64 * znum) 64) as [k|]; [done|].
    intros c' Hr'. replace (64 * znum + 64)%nat with (64 * S znum)%nat in Hnone by lia. eapply IH; try done; lia.
Qed.

(** A free entry is found or made. *)
Lemma dir_find_free_ok c d l v held W own m data :
  store_rel c d held W own → zlen held < 98 → layout d l → zones_ok d l (zones v) → W_ok d l (zones v) W →
  dir_is d (zones v) m data → Z.of_nat m < zone_max → (2 < free_count l)%nat →
  wp (dir_find_entry_by_inode super c v 0 MFS_CREATE_ZONE) store_oom (λ '(c', v', r),
    ∃ d' l' m' data' k buf, same_node v v' ∧ evolves 3 d l (zones v) d' l' (zones v') ∧
      dir_is d' (zones v') m' data' ∧ dir_grown m data m' data' ∧ (k < 64 * m')%nat ∧ (dent data' k).1 = 0 ∧
      r = Some (buf, Z.of_nat (k mod 64)) ∧ buf ≠ 0 ∧
      store_rel c' d' ((buf, zp d' (zones v') (zpath (Z.of_nat (k / 64)))) :: held) W own).
Proof.
  intros Hr Hh Hly Hzo HW Hd Hm Hfree. unfold dir_find_entry_by_inode.
  destruct (dir_blocks _ _ _ _ _ Hly Hzo Hd) as [Hmax Hbl].
  assert (Hfu : (m - 0 < max_zones)%nat) by (unfold max_zones, zone_max in *; lia).
  revert Hfu. generalize max_zones. intros fuel Hfu.
  assert (Hnode : ∀ v1 p, same_node v1 (if size v1 <? p then mark_vnode_dirty (set_size v1 p) else v1) ∧
    zones (if size v1 <? p then mark_vnode_dirty (set_size v1 p) else v1) = zones v1)
    by (intros v1 p; by destruct (size v1 <? p)).
  pose proof (first_from_spec (λ k, is_inode 0 (dent data k)) (64 * m) 0) as Hs.
  destruct (first_from (λ k, is_inode 0 (dent data k)) 0 (64 * m)) as [k|] eqn:Hff.
  - wp_step (find_zones_ok (test_inode 0) (is_inode 0) d l v held W own m data MFS_CREATE_ZONE fuel 0);
      try done; try lia.
    { intros z Hz. by apply tests_inode; apply Hbl. } { right. by rewrite Nat.mul_0_r, Nat.sub_0_r, Hff. }
    rewrite Nat.mul_0_r, Nat.sub_0_r, Hff. intros [[c1 v1] r] (-> & buf & -> & Hb & Hr1). cbn [wp].
    set (p := u32 _). destruct (Hnode v p) as [Hn1 Hn2]. destruct Hs as (Hk & Hz & _).
    exists d, l, m, data, k, buf. rewrite Hn2. split_and!; try done; [by apply evolves_refl|apply dir_grown_refl|lia|].
    unfold is_inode in Hz. lia.
  - wp_step (find_zones_new d l v held W own m data fuel 0); try done; try lia.
    { by rewrite Nat.mul_0_r, Nat.sub_0_r. }
    intros [[c1 v1] r] (d1 & l1 & zs1 & buf & -> & E1 & Hd1 & -> & Hb & Hr1). cbn [wp].
    set (p := u32 _). destruct (Hnode (set_zones v zs1) p) as [Hn1 Hn2].
    pose proof (dir_grown_new m data (di_len _ _ _ _ Hd)) as Hg.
    exists d1, l1, (S m), (data ++ zero_block), (64 * m)%nat, buf. rewrite Hn2.
    assert ((64 * m) / 64 = m)%nat as -> by (rewrite Nat.mul_comm; apply Nat.div_mul; lia).
    assert ((64 * m) mod 64 = 0)%nat as -> by (rewrite Nat.mul_comm; apply Nat.Div0.mod_mul).
    split_and!; try done; [lia|]. apply Hg. lia.
Qed.

(** ** Adding and removing names *)

(** What the 14 bytes of an entry become: 13 characters of the name at most. *)
Definition stored_name (nm : list Z) : list Z := take 13 nm ++ replicate (14 - length (take 13 nm)) 0.

Lemma stored_name_ok nm : nonzero nm → cstr (stored_name nm) = Some (take 13 nm) ∧ length (stored_name nm) = 14%nat.
Proof.
  intros Hn. unfold stored_name.
  assert (Hl : (length (take 13 nm) ≤ 13)%nat) by (rewrite length_take; lia).
  split; [|rewrite length_app, length_replicate; lia].
  assert (Hg : ∀ l n, nonzero l → (0 < n)%nat → cstr (l ++ replicate n 0) = Some l).
  { induction l as [|c l IH]; intros n Hnz Hp; [by destruct n; [lia|]|]. inversion_clear Hnz as [|? ? Hc Hl'].
    simpl. destruct (Z.eqb_spec c 0); [done|]. by rewrite IH. }
  apply Hg; [by apply Forall_take|lia].
Qed.

Lemma strncpy_stored dest src nm : cstr src = Some nm → (14 ≤ length dest)%nat →
  (n ← strncpy dest src 14; wr n 13 0) = Some (stored_name nm ++ drop 14 dest).
Proof.
  intros Hs Hd. rewrite (strncpy_spec dest src nm) by done. cbn [mbind option_bind].
  set (head := take 14 nm ++ replicate (14 - length nm) 0).
  assert (Hh : length head = 14%nat) by (unfold head; rewrite length_app, length_take, length_replicate; lia).
  rewrite app_assoc. fold head. rewrite wr_in_range by (rewrite length_app; lia). f_equal.
  rewrite insert_app_l by lia. f_equal. unfold head, stored_name. change (Z.to_nat 13) with 13%nat. apply list_eq. intros i.
  destruct (decide (i = 13%nat)) as [->|Hi].
  - rewrite list_lookup_insert_eq by (fold head; lia).
    rewrite lookup_app_r by (rewrite length_take; lia). rewrite lookup_replicate_2; [done|]. rewrite length_take. lia.
  - rewrite list_lookup_insert_ne by done. destruct (Nat.lt_ge_cases i (length nm)) as [Hlt|Hge].
    + destruct (Nat.lt_ge_cases i 13).
      * rewrite !lookup_app_l by (rewrite length_take; lia). by rewrite !lookup_take_lt by lia.
      * rewrite !lookup_ge_None_2; [done|..]; rewrite length_app, length_take, length_replicate; lia.
    + rewrite !lookup_app_r by (rewrite length_take; lia). rewrite !length_take.
      destruct (Nat.lt_ge_cases i 14).
      * rewrite !lookup_replicate_2 by lia. done.
      * rewrite !lookup_ge_None_2; [done|..]; rewrite length_replicate; lia.
Qed.

Lemma set_dirent_name_splice x i n rest : (16 * i + 2 + length n ≤ length x)%nat →
  rest = drop (length n) (dirent_name x (Z.of_nat i)) →
  set_dirent_name x (Z.of_nat i) (n ++ rest) = splice x (16 * i + 2) n.
Proof.
  intros Hl ->. unfold set_dirent_name, dirent_name, splice.
  replace (Z.to_nat (16 * Z.of_nat i + 2)) with (16 * i + 2)%nat by lia. by rewrite drop_drop.
Qed.

(** The entry that dir_alloc_entry gives out: it has the name, but it is free
    until its inode is set. *)
Lemma dir_alloc_entry_ok c d l v held W own m data src nm :
  store_rel c d held W own → zlen held < 98 → layout d l → zones_ok d l (zones v) → W_ok d l (zones v) W →
  dir_is d (zones v) m data → Z.of_nat m < zone_max → (2 < free_count l)%nat →
  cstr src = Some nm → Forall byte_ok nm →
  wp (dir_alloc_entry super c v src) store_oom (λ '(c', v', r),
    ∃ d' l' m' data1 data' k buf, same_node v v' ∧ evolves 3 d l (zones v) d' l' (zones v') ∧
      dir_grown m data m' data1 ∧ (k < 64 * m')%nat ∧ (dent data1 k).1 = 0 ∧
      dent_set data1 data' k (0, stored_name nm) ∧ dir_is d' (zones v') m' data' ∧
      r = Some (buf, Z.of_nat (k mod 64)) ∧
      let z := zp d' (zones v') (zpath (Z.of_nat (k / 64))) in
      store_rel c' d' ((buf, z) :: held) ({[z]} ∪ W) own).
Proof.
  intros Hr Hh Hly Hzo HW Hd Hm Hfree Hs Hb. unfold dir_alloc_entry.
  wp_step dir_find_free_ok; [done..|].
  intros [[c1 v1] r] (d1 & l1 & m1 & data1 & k & buf & Hn & E1 & Hd1 & Hg & Hk & Hz & -> & Hbuf & Hr1).
  pose proof (ev_layout _ _ _ _ _ _ _ _ _ _ E1) as Hly1. pose proof (ev_zones _ _ _ _ _ _ _ _ _ _ E1) as Hzo1.
  destruct (stored_name_ok nm (cstr_nonzero _ _ Hs)) as [Hcs Hl14].
  assert (Hkm : (k / 64 < m1)%nat) by (apply Nat.Div0.div_lt_upper_bound; lia).
  pose proof (Nat.mod_upper_bound k 64 ltac:(lia)) as Hmb. pose proof (di_len _ _ _ _ Hd1) as Hlen1.
  assert (Hset : dent_set data1 (splice data1 (16 * k + 2) (stored_name nm)) k (0, stored_name nm))
    by (rewrite <- Hz; apply dent_set_name; [lia|done]).
  assert (Hsb : Forall byte_ok (stored_name nm)).
  { apply Forall_app. split; [by apply Forall_take|]. apply Forall_replicate. unfold byte_ok. lia. }
  destruct (dir_write d1 l1 (zones v1) m1 data1 k 2 (stored_name nm) (0, stored_name nm)) as (E2 & Hd2 & Hxl & _);
    try done; try lia; [intros _; eauto|].
  destruct (dir_zone _ _ _ _ _ _ Hly1 Hzo1 Hd1 Hkm) as (_ & _ & _ & Hx & Hxl1 & _).
  destruct (store_data _ _ _ _ _ buf (zp d1 (zones v1) (zpath (Z.of_nat (k / 64)))) Hr1) as [-> _]; [held_here|].
  rewrite Hx. res_simpl. set (x := slice data1 (1024 * (k / 64)) 1024) in *.
  assert (Hdl : (14 ≤ length (dirent_name x (Z.of_nat (k mod 64))))%nat) by (unfold dirent_name; rewrite length_drop; lia).
  pose proof (strncpy_stored _ src nm Hs Hdl) as Hc. change (Z.to_nat MINIX_V1_MAX_FILENAME) with 14%nat.
  change (MINIX_V1_MAX_FILENAME - 1) with 13. chain Hc. rewrite Hc. res_simpl.
  rewrite set_dirent_name_splice by (rewrite Hl14; done || lia).
  eapply wp_put; [done|held_here|done|]. intros c2 _ Hr2. cbn [wp].
  exists (<[zp d1 (zones v1) (zpath (Z.of_nat (k / 64))) := splice x (16 * (k mod 64) + 2) (stored_name nm)]> d1),
    l1, m1, data1, (splice data1 (16 * k + 2) (stored_name nm)), k, buf.
  split; [done|]. split; [eapply (evolves_trans _ _ _ 3 0); done|]. split_and!; try done.
  pose proof (set_data_zp super d1 l1 (zones v1) (Z.of_nat (k / 64)) (splice x (16 * (k mod 64) + 2) (stored_name nm)) Hzo1) as Hzp.
  destruct (dir_zone _ _ _ _ _ _ Hly1 Hzo1 Hd1 Hkm) as (Hmax & Hn0 & _).
  rewrite Hzp by (done || lia || apply zpath_valid; lia). done.
Qed.

(** Setting the inode of an entry, whose block may have been changed before. *)
Lemma dir_commit_ok c d l zs held W own m data k buf i :
  let z := zp d zs (zpath (Z.of_nat (k / 64))) in
  store_rel c d ((buf, z) :: held) W own → zlen held < 98 → layout d l → zones_ok d l zs → dir_is d zs m data →
  (k < 64 * m)%nat → u16_ok i → (i ≠ 0 → ∃ nm, cstr (dent data k).2 = Some nm) →
  wp (dir_commit c (buf, Z.of_nat (k mod 64)) i) store_oom (λ c', ∃ d' data',
    store_rel c' d' held (({[z]} ∪ W) ∖ {[z]}) own ∧ evolves 0 d l zs d' l zs ∧ dir_is d' zs m data' ∧
    dent_set data data' k (i, (dent data k).2)).
Proof.
  intros z Hr Hh Hly Hzo Hd Hk Hi Hwf. unfold dir_commit, set_dirent_inode. rewrite u16_small by done.
  assert (Hkm : (k / 64 < m)%nat) by (apply Nat.Div0.div_lt_upper_bound; lia).
  pose proof (Nat.mod_upper_bound k 64 ltac:(lia)) as Hmb. pose proof (di_len _ _ _ _ Hd) as Hlen.
  assert (Hle : u16_ok (htole16 i) ∧ le16toh (htole16 i) = i) by (split; by apply le16_inv).
  destruct Hle as [Hle1 Hle2].
  assert (Hset : dent_set data (splice data (16 * k + 0) (bytes16 (htole16 i))) k (i, (dent data k).2)).
  { rewrite Nat.add_0_r. rewrite <- Hle2 at 2. apply dent_set_inode; [lia|done]. }
  destruct (dir_write d l zs m data k 0 (bytes16 (htole16 i)) (i, (dent data k).2)) as (E2 & Hd2 & Hxl & _);
    try done; [lia|simpl; lia|by apply bytes16_ok|].
  destruct (dir_zone _ _ _ _ _ _ Hly Hzo Hd Hkm) as (_ & _ & _ & Hx & Hxl1 & _). fold z in Hx.
  destruct (store_data _ _ _ _ _ buf z Hr) as [-> _]; [held_here|]. rewrite Hx. res_simpl.
  rewrite wr16_splice by lia. res_simpl.
  replace (Z.to_nat (2 * (8 * Z.of_nat (k mod 64)))) with (16 * (k mod 64) + 0)%nat by lia.
  eapply wp_put; [done|held_here|done|]. intros c2 _ Hr2. eapply wp_release_dirty; [done|lia|]. intros c3 Hr3. cbn [wp].
  eexists _, _. split; [exact Hr3|]. split; [exact E2|]. split; [exact Hd2|exact Hset].
Qed.

(** ** Directories as maps *)

Record dir_maps (m : nat) (data : list Z) (M : gmap (list Z) Z) : Prop := {
  dm_in : ∀ k nm, (k < 64 * m)%nat → (dent data k).1 ≠ 0 → cstr (dent data k).2 = Some nm →
    M !! nm = Some (dent data k).1;
  dm_of : ∀ nm i, M !! nm = Some i →
    ∃ k, (k < 64 * m)%nat ∧ (dent data k).1 = i ∧ i ≠ 0 ∧ cstr (dent data k).2 = Some nm;
  dm_one : ∀ k k' nm, (k < 64 * m)%nat → (k' < 64 * m)%nat → (dent data k).1 ≠ 0 → (dent data k').1 ≠ 0 →
    cstr (dent data k).2 = Some nm → cstr (dent data k').2 = Some nm → k = k';
}.

Lemma dir_maps_grown m data m' data' M : dir_grown m data m' data' → dir_maps m data M → dir_maps m' data' M.
Proof.
  intros (Hm & Hold & Hnew) [H1 H2 H3].
  assert (Hk : ∀ k, (k < 64 * m')%nat → (dent data' k).1 ≠ 0 → (k < 64 * m)%nat ∧ dent data' k = dent data k).
  { intros k Hk Hn. destruct (Nat.lt_ge_cases k (64 * m)); [by auto|]. destruct Hn. apply Hnew. lia. }
  split.
  - intros k nm Hlt Hn Hc. destruct (Hk k Hlt Hn) as [Hlt' E]. rewrite E in *. by apply H1.
  - intros nm i HM. destruct (H2 nm i HM) as (k & Hlt & ? & ? & ?). exists k. rewrite Hold by done. split; [lia|done].
  - intros k k' nm Hlt Hlt' Hn Hn' Hc Hc'. destruct (Hk k Hlt Hn) as [? E], (Hk k' Hlt' Hn') as [? E'].
    rewrite E, E' in *. by eapply H3.
Qed.

(** An entry that does not count before or after. *)
Lemma dir_maps_free m data data' k raw M : dir_maps m data M → (dent data k).1 = 0 →
  dent_set data data' k (0, raw) → dir_maps m data' M.
Proof.
  intros [H1 H2 H3] Hz [_ Hs].
  assert (Hk : ∀ j, (dent data' j).1 ≠ 0 → dent data' j = dent data j)
    by (intros j; rewrite Hs; by destruct (decide (j = k))).
  split.
  - intros j nm Hj Hn Hc. rewrite Hk in * by done. by apply H1.
  - intros nm i HM. destruct (H2 nm i HM) as (j & Hj & <- & Hn & Hc). exists j.
    rewrite Hs. destruct (decide (j = k)) as [->|]; [done|done].
  - intros j j' nm Hj Hj' Hn Hn'. rewrite (Hk j), (Hk j') by done. rewrite (Hk j) in Hn by done. rewrite (Hk j') in Hn' by done. by apply H3.
Qed.

Lemma dir_maps_add m data data' k i nm raw M : dir_maps m data M → (k < 64 * m)%nat → (dent data k).1 = 0 →
  dent_set data data' k (i, raw) → i ≠ 0 → cstr raw = Some nm → M !! nm = None → dir_maps m data' (<[nm := i]> M).
Proof.
  intros [H1 H2 H3] Hk Hz [_ Hs] Hi Hraw HM. split.
  - intros j n Hj. rewrite Hs. destruct (decide (j = k)) as [->|Hne]; simpl; intros Hn Hc.
    + rewrite Hraw in Hc. injection Hc as <-. by rewrite lookup_insert_eq.
    + pose proof (H1 j n Hj Hn Hc) as E. rewrite lookup_insert_ne; [done|]. intros ->. congruence.
  - intros n x. destruct (decide (n = nm)) as [->|Hne].
    + rewrite lookup_insert_eq. intros [= <-]. exists k. rewrite Hs. by destruct (decide (k = k)).
    + rewrite lookup_insert_ne by done. intros E. destruct (H2 n x E) as (j & Hj & <- & Hn & Hc). exists j.
      rewrite Hs. destruct (decide (j = k)) as [->|]; done.
  - intros j j' n Hj Hj'. rewrite !Hs.
    destruct (decide (j = k)) as [->|Hne], (decide (j' = k)) as [->|Hne']; simpl; intros Hn Hn' Hc Hc'; try done.
    + rewrite Hraw in Hc. injection Hc as <-. pose proof (H1 j' nm Hj' Hn' Hc'). congruence.
    + rewrite Hraw in Hc'. injection Hc' as <-. pose proof (H1 j nm Hj Hn Hc). congruence.
    + by eapply H3.
Qed.

Lemma dir_maps_remove m data data' k nm M : dir_maps m data M → (k < 64 * m)%nat → (dent data k).1 ≠ 0 →
  cstr (dent data k).2 = Some nm → dent_set data data' k (0, (dent data k).2) → dir_maps m data' (delete nm M).
Proof.
  intros [H1 H2 H3] Hk Hz Hraw [_ Hs].
  assert (Hk' : ∀ j, (dent data' j).1 ≠ 0 → j ≠ k ∧ dent data' j = dent data j)
    by (intros j; rewrite Hs; by destruct (decide (j = k))).
  split.
  - intros j n Hj Hn Hc. destruct (Hk' j Hn) as [Hne E]. rewrite E in *.
    rewrite lookup_delete_ne; [by apply H1|]. intros ->. apply Hne. by eapply H3.
  - intros n x Hx. apply lookup_delete_Some in Hx as [Hne Hx]. destruct (H2 n x Hx) as (j & Hj & <- & Hn & Hc).
    exists j. rewrite Hs. destruct (decide (j = k)) as [->|]; [congruence|done].
  - intros j j' n Hj Hj' Hn Hn'. destruct (Hk' j Hn) as [_ ->], (Hk' j' Hn') as [_ ->]. intros Hc Hc'.
    destruct (Hk' j Hn) as [_ E], (Hk' j' Hn') as [_ E']. rewrite E in Hn. rewrite E' in Hn'. by eapply H3.
Qed.

Lemma dir_find_name_ok c d l v held W own m data s nm M :
  store_rel c d held W own → zlen held < 98 → layout d l → zones_ok d l (zones v) → W_ok d l (zones v) W →
  dir_is d (zones v) m data → dir_maps m data M → cstr s = Some nm →
  wp (dir_find_entry_by_name super c v s MFS_LOOKUP_ZONE) store_oom (λ '(c', v', r), v' = v ∧
    match M !! nm with
    | None => r = None ∧ store_rel c' d held W own
    | Some i => ∃ k buf, (k < 64 * m)%nat ∧ dent data k = (i, (dent data k).2) ∧ i ≠ 0 ∧
        cstr (dent data k).2 = Some nm ∧ r = Some (buf, Z.of_nat (k mod 64)) ∧
        store_rel c' d ((buf, zp d (zones v) (zpath (Z.of_nat (k / 64)))) :: held) W own
    end).
Proof.
  intros Hr Hh Hly Hzo HW Hd HM Hs. unfold dir_find_entry_by_name. destruct (dir_blocks _ _ _ _ _ Hly Hzo Hd) as [Hmax Hbl].
  assert (Hfu : (m - 0 < max_zones)%nat) by (unfold max_zones, zone_max in *; lia).
  revert Hfu. generalize max_zones. intros fuel Hfu.
  wp_step (find_zones_ok (test_name s) (is_name nm) d l v held W own m data MFS_LOOKUP_ZONE fuel 0); try done; try lia.
  { intros z Hz. destruct (Hbl z Hz). apply tests_name; try done. intros i Hi. rewrite dent_slice by done.
    apply (di_wf _ _ _ _ Hd). lia. }
  { by left. }
  rewrite Nat.mul_0_r, Nat.sub_0_r. pose proof (first_from_spec (λ k, is_name nm (dent data k)) (64 * m) 0) as Hsp.
  intros [[c1 v1] r] (-> & Hres). destruct (first_from (λ k, is_name nm (dent data k)) 0 (64 * m)) as [k|].
  - destruct Hres as (buf & -> & Hb & Hr1). cbn [wp]. split; [done|]. destruct Hsp as (Hk & Hin & _).
    unfold is_name in Hin. apply andb_prop in Hin as [Hn Hc%bool_decide_eq_true].
    rewrite (dm_in _ _ _ HM k nm ltac:(lia) ltac:(lia) Hc). exists k, buf. split_and!; try done; lia.
  - destruct Hres as [-> Hr1]. cbn [wp]. split; [done|]. destruct (M !! nm) as [i|] eqn:E; [|done].
    destruct (dm_of _ _ _ HM nm i E) as (k & Hk & Hi & Hn & Hc). specialize (Hsp k ltac:(lia)).
    unfold is_name in Hsp. rewrite bool_decide_eq_true_2 in Hsp by done. subst i. destruct (Z.eqb_spec (dent data k).1 0); done.
Qed.

(** The inode number of an entry in a buffer that is held. *)
Lemma dir_entry_raw c d l v held W own m data k buf i : store_rel c d ((buf, zp d (zones v) (zpath (Z.of_nat (k / 64)))) :: held) W own →
  layout d l → zones_ok d l (zones v) → dir_is d (zones v) m data → (k < 64 * m)%nat → (dent data k).1 = i →
  ∃ b raw, buf_data c buf = Some b ∧ dirent_inode b (Z.of_nat (k mod 64)) = Some raw ∧ le16toh raw = i.
Proof.
  intros Hr Hly Hzo Hd Hk Ek. assert (Hkm : (k / 64 < m)%nat) by (apply Nat.Div0.div_lt_upper_bound; lia).
  pose proof (Nat.mod_upper_bound k 64 ltac:(lia)) as Hmb. pose proof (Nat.div_mod k 64 ltac:(lia)) as Hdm.
  destruct (dir_zone _ _ _ _ _ _ Hly Hzo Hd Hkm) as (_ & _ & _ & Hx & Hxl & Hxb).
  destruct (store_data _ _ _ _ _ buf (zp d (zones v) (zpath (Z.of_nat (k / 64)))) Hr) as [-> _]; [held_here|].
  destruct (dirent_inode_ok _ (k mod 64) Hxl Hxb Hmb) as (raw & Eraw & Er & _). eexists _, raw. split; [exact Hx|]. split; [exact Eraw|].
  rewrite dent_slice in Er by done. replace (64 * (k / 64) + k mod 64)%nat with k in Er by lia. by rewrite Er.
Qed.

Definition dir_rel (own : gset Z) (c : C) (v : minix_vnode) (st : gmap (list Z) Z * nat) : Prop :=
  ∃ d l m data, store_rel c d [] ∅ own ∧ layout d l ∧ zones_ok d l (zones v) ∧ dir_is d (zones v) m data ∧
    dir_maps m data st.1 ∧ (st.2 ≤ free_count l)%nat ∧ Z.of_nat (m + st.2) ≤ zone_max.

Lemma dir_find_refines own c v M free s nm : dir_rel own c v (M, free) → cstr s = Some nm →
  wp (dir_step super c v (DirFind s)) store_oom (λ '(c', v', out'), out' = default ENOENT (M !! nm) ∧ same_node v v' ∧ dir_rel own c' v' (M, free)).
Proof.
  intros (d & l & m & data & Hr & Hly & Hzo & Hd & HM & Hfree & Hmax) Hs. simpl in HM, Hfree, Hmax.
  assert (HW : W_ok d l (zones v) ∅) by (intros n Hin; by apply not_elem_of_empty in Hin). cbn [dir_step].
  wp_step dir_find_name_ok; [done..|]. intros [[c1 v1] r] (-> & Hres).
  assert (Hrel : ∀ c', store_rel c' d [] ∅ own → dir_rel own c' v (M, free)) by (intros; exists d, l, m, data; done).
  destruct (M !! nm) as [i|]; [|destruct Hres as [-> Hr1]; cbn [wp]; by split_and!; auto].
  destruct Hres as (k & buf & Hk & Ek & Hi & Hc & -> & Hr1).
  destruct (dir_entry_raw _ _ _ _ _ _ _ _ _ _ _ i Hr1 Hly Hzo Hd Hk ltac:(by rewrite Ek)) as (b & raw & -> & E & Er). res_simpl. rewrite E. res_simpl.
  eapply wp_release; [done|done|apply not_elem_of_empty|]. intros c2 _ Hr2. cbn [wp]. rewrite Er. by split_and!; auto.
Qed.

Lemma dir_add_refines own c v M free s nm i : dir_rel own c v (M, free) → cstr s = Some nm →
  name_ok nm = true → 0 < i < 65536 → (3 ≤ free)%nat → M !! nm = None →
  wp (dir_step super c v (DirAdd s i)) store_oom (λ '(c', v', out'), out' = 0 ∧ same_node v v' ∧ dir_rel own c' v' (<[nm := i]> M, (free - 3)%nat)).
Proof.
  intros (d & l & m & data & Hr & Hly & Hzo & Hd & HM & Hfree & Hmax) Hs Hnm Hi H3 HMn. simpl in HM, Hfree, Hmax.
  assert (HW : W_ok d l (zones v) ∅) by (intros n Hin; by apply not_elem_of_empty in Hin). cbn [dir_step].
  unfold name_ok in Hnm. apply andb_prop in Hnm as [Hby%bool_decide_eq_true Hl13].
  assert (Hnb : Forall byte_ok nm) by (eapply Forall_impl; [done|]; intros b; unfold byte_ok; lia).
  wp_step dir_alloc_entry_ok; try done; [lia|lia|].
  intros [[c1 v1] r] (d1 & l1 & m1 & data1 & data2 & k & buf & Hn & E1 & Hg & Hk & Hz & Hset & Hd1 & -> & Hr1).
  destruct (stored_name_ok nm (cstr_nonzero _ _ Hs)) as [Hcs _]. rewrite take_ge in Hcs by lia.
  destruct Hset as [Hlen2 Hset]. pose proof (Hset k) as Hk2. destruct (decide (k = k)); [|done].
  eapply wp_call; [eapply (dir_commit_ok c1 d1 l1 (zones v1) [] _ own m1 data2 k buf i); try done; try apply E1|].
  { unfold u16_ok. lia. } { intros _. exists nm. by rewrite Hk2. }
  intros c2 (d2 & data3 & Hr2 & E2 & Hd2 & Hset2). cbn [wp]. split; [done|]. split; [done|].
  exists d2, l1, m1, data3. simpl. split. { by rewrite union_assoc_L, union_idemp_L, marked in Hr2 by (apply not_elem_of_empty). }
  split; [apply E2|]. split; [apply E2|]. split; [done|]. pose proof (ev_free _ _ _ _ _ _ _ _ _ _ E1).
  split; [|split; [lia|destruct Hg; lia]].
  pose proof (dir_maps_grown _ _ _ _ _ Hg HM) as HM1. pose proof (dir_maps_free _ _ _ _ _ _ HM1 Hz (conj Hlen2 Hset)) as HM2.
  eapply dir_maps_add; [exact HM2|done| |exact Hset2|lia| |done]; by rewrite Hk2.
Qed.

Lemma dir_remove_refines own c v M free s nm : dir_rel own c v (M, free) → cstr s = Some nm →
  wp (dir_step super c v (DirRemove s)) store_oom (λ '(c', v', out'), out' = (if bool_decide (is_Some (M !! nm)) then 0 else ENOENT) ∧ same_node v v' ∧ dir_rel own c' v' (delete nm M, free)).
Proof.
  intros (d & l & m & data & Hr & Hly & Hzo & Hd & HM & Hfree & Hmax) Hs. simpl in HM, Hfree, Hmax.
  assert (HW : W_ok d l (zones v) ∅) by (intros n Hin; by apply not_elem_of_empty in Hin). cbn [dir_step].
  wp_step dir_find_name_ok; [done..|]. intros [[c1 v1] r] (-> & Hres). destruct (M !! nm) as [i|] eqn:HMn.
  + rewrite bool_decide_eq_true_2 by done.
    destruct Hres as (k & buf & Hk & Ek & Hi & Hc & -> & Hr1).
    eapply wp_call; [eapply (dir_commit_ok c1 d l (zones v) [] _ own m data k buf 0); try done|].
    intros c2 (d2 & data3 & Hr2 & E2 & Hd2 & Hset2). cbn [wp]. split; [done|]. split; [done|].
    exists d2, l, m, data3. simpl. rewrite marked in Hr2 by (apply not_elem_of_empty). split_and!; try done; try apply E2.
    eapply dir_maps_remove; try done. by rewrite Ek.
  + rewrite bool_decide_eq_false_2, delete_id by (done || by intros [? ?]).
    destruct Hres as [-> Hr1]. cbn [wp]. split; [done|]. split; [done|]. exists d, l, m, data. done.
Qed.

Lemma dir_step_refines own c v st op st' out :
  dir_rel own c v st → names_step st op = Some (st', out) →
  wp (dir_step super c v op) store_oom (λ '(c', v', out'), out' = out ∧ same_node v v' ∧ dir_rel own c' v' st').
Proof.
  intros Hrel Hstep. destruct st as [M free].
  destruct op as [s|s i|s]; simpl in Hstep; destruct (cstr s) as [nm|] eqn:Hs; try done; cbn [mbind option_bind] in Hstep.
  - injection Hstep as <- <-. by apply dir_find_refines.
  - destruct (name_ok nm && _ && _ && _ && _) eqn:Hcond; [|done]. injection Hstep as <- <-.
    apply andb_prop in Hcond as [Hcond HMn%negb_true_iff%bool_decide_eq_false]. rewrite <- eq_None_not_Some in HMn.
    rewrite !andb_true_iff in Hcond. destruct Hcond as [[[Hnm Hi1] Hi2] H3].
    apply (Nat.leb_le 3 free) in H3.
    apply dir_add_refines; try done; lia.
  - eapply wp_mono; [by apply (dir_remove_refines own c v M free s nm)|done|]. intros [[c' v'] out'] (-> & Hn & Hr).
    destruct (decide (is_Some (M !! nm))) as [Hin|Hin].
    + rewrite bool_decide_eq_true_2 in Hstep |- * by done. by injection Hstep as <- <-.
    + rewrite bool_decide_eq_false_2 in Hstep |- * by done. injection Hstep as <- <-.
      rewrite <- eq_None_not_Some in Hin. by rewrite delete_id in Hr.
Qed.

(** C5: looking up, adding and removing names in a directory does what it
    would to a finite map from names to inode numbers: a name that was added
    is found with its inode until it is removed, other names are not affected,
    and a directory that is full grows by a zone.  An unknown name is ENOENT.
    A name that is added has at most 13 characters and is not there
    yet, and three zones are free then ([names_step] has these conditions). *)
Theorem dir_run_refines own c v st ops st' outs :
  dir_rel own c v st → run_out names_step st ops = Some (st', outs) →
  wp (dir_run super c v ops) store_oom (λ '(c', v', outs'), outs' = outs ∧ dir_rel own c' v' st').
Proof.
  revert c v st st' outs. induction ops as [|op ops IH]; intros c v st st' outs Hrel Hrun.
  { by injection Hrun as <- <-. }
  cbn [run_out] in Hrun. cbn [dir_run].
  destruct (names_step st op) as [[st1 out]|] eqn:Hstep; [|done]. cbn [mbind option_bind] in Hrun.
  destruct (run_out names_step st1 ops) as [[st2 outs2]|] eqn:Hrest; [|done]. injection Hrun as <- <-.
  wp_step dir_step_refines; [done..|]. intros [[c1 v1] out1] (-> & _ & Hrel1).
  eapply wp_call; [by eapply IH|]. intros [[c2 v2] outs3] [-> Hrel2]. done.
Qed.
End search.

(** ** An example *)

Lemma example_dir_rel :
  @dir_rel example_super 32 1 _ image_store example_store_laws ∅ (image_cache example_image) (example_vnode 1) (∅, 20%nat).
Proof.
  destruct (empty_vnode_ok (image_blocks 32 example_image) example_map 1) as [Hzo Hz].
  exists (image_blocks 32 example_image), example_map, 0%nat, []. simpl.
  split; [by apply image_cache_rel|]. split; [apply example_layout|]. split; [done|].
  split; [split; [split; [by vm_compute|intros k Hk; simpl in Hk; lia]|done|intros; apply Hz|lia]|].
  split; [split; [lia|intros nm i Hi; by rewrite lookup_empty in Hi|lia]|].
  split; [by vm_compute; lia|by vm_compute].
Qed.

Definition example_dir_ops : list dir_op :=
  [DirAdd [97; 0] 5; DirAdd [98; 99; 0] 6; DirFind [97; 0]; DirRemove [97; 0]; DirFind [97; 0]; DirFind [98; 99; 0]].

Lemma dir_run_refines_witness :
  wp (dir_run (H := image_store) example_super (image_cache example_image) (example_vnode 1) example_dir_ops)
    (@store_oom _ _ _ _ example_store_laws) (λ '(c', v', outs'), outs' = [0; 0; 5; 0; -2; 6] ∧
      @dir_rel example_super 32 1 _ image_store example_store_laws ∅ c' v' ({[ [98; 99] := 6 ]}, 14%nat)).
Proof.
  apply (dir_run_refines example_super 32 1 example_geometry ∅ (image_cache example_image) (example_vnode 1) (∅, 20%nat)).
  - apply example_dir_rel.
  - vm_compute. done.
Defined.

(** The same steps evaluate, without a halt. *)
Lemma example_dir_runs :
  match dir_run (H := image_store) example_super (image_cache example_image) (example_vnode 1) example_dir_ops with
  | Val (_, v, outs) => outs = [0; 0; 5; 0; -2; 6] ∧ size v = 32
  | _ => False
  end.
Proof. vm_compute. done. Qed.

(** A name of 14 characters, which the callers allow, is stored without the last one. *)
Lemma long_name_cut :
  match dir_run (H := image_store) example_super (image_cache example_image) (example_vnode 1)
          [DirAdd (replicate 14 97 ++ [0]) 5; DirFind (replicate 14 97 ++ [0]); DirFind (replicate 13 97 ++ [0])] with
  | Val (_, v, outs) => outs = [0; ENOENT; 5]
  | _ => False
  end.
Proof. vm_compute. done. Qed.
