(* ===== verification/Minixmkfs.v ===== *)
(** * Minixmkfs: making and mounting a Minix file system
      (src/kernel/fs/minix/mkfs.h, super.h)

    minix_mkfs writes an empty file system through a buffer cache of its own;
    load_superblock reads the superblock from the device and sets up the cache
    of the mount.  [mkfs_mount] shows that they fit together, down to the
    directory operations of Minixdir.v on the root directory. *)

From S2P Require Import Prelude Iovec Bits Result Device Alloc Bufcache Blockstore Cstring.
From S2P Require Import Minixmap Minixzone Minixfile Minixrun Minixnode Minixdir.

Definition MINIX_MAGIC : Z := 4991.
Definition MINIX_V1_SUPER_ZONE : Z := 1.
Definition MINIX_SUPERBLOCK_SIZE : Z := 512.

(** sizeof(struct minix_super): a char, a byte of padding and the superblock. *)
Definition SIZEOF_MINIX_SUPER : Z := 22.

(** The superblock in memory, with the values as the machine reads them. *)
Definition superblock_at (b : list Z) : option minix_v1_superblock :=
  num_inodes ← rd16 b 0;
  num_zones ← rd16 b 1;
  imap_blocks ← rd16 b 2;
  zmap_blocks ← rd16 b 3;
  first_zone ← rd16 b 4;
  log_zone_size ← rd16 b 5;
  max_file_size ← rd32 b 6;
  magic ← rd16 b 8;
  state ← rd16 b 9;
  Some (Superblock num_inodes num_zones imap_blocks zmap_blocks first_zone log_zone_size max_file_size magic state).

Definition superblock_from_le (s : minix_v1_superblock) : minix_v1_superblock :=
  Superblock (le16toh (num_inodes s)) (le16toh (num_zones s)) (le16toh (imap_blocks s)) (le16toh (zmap_blocks s))
    (le16toh (first_zone s)) (le16toh (log_zone_size s)) (le32toh (max_file_size s)) (le16toh (magic s))
    (le16toh (state s)).

Section mkfs.
Context {C : Type} `{BlockStore C}.

(** super_v1_cached *)
Definition mkfs_super (blocks : Z) : minix_v1_superblock :=
  Superblock 64 (u16 blocks) 1 1 6 (MINIX_V1_LOG_ZONE_SIZE - 10) 67108864 MINIX_MAGIC 1.

(** [memset(buf->block, 0x00, MINIX_V1_ZONE_SIZE)] *)
Definition clear_block (b : list Z) : option (list Z) := wr_range b 0 (replicate (Z.to_nat MINIX_V1_ZONE_SIZE) 0).

(** The fields of the superblock; the maximum file size goes through htole16 as the others do. *)
Definition put_superblock (b : list Z) (s : minix_v1_superblock) : option (list Z) :=
  b ← wr16 b 0 (htole16 (num_inodes s));
  b ← wr16 b 1 (htole16 (num_zones s));
  b ← wr16 b 2 (htole16 (imap_blocks s));
  b ← wr16 b 3 (htole16 (zmap_blocks s));
  b ← wr16 b 4 (htole16 (first_zone s));
  b ← wr16 b 5 (htole16 (log_zone_size s));
  b ← wr32 b 6 (htole16 (u16 (max_file_size s)));
  b ← wr16 b 8 (htole16 (magic s));
  wr16 b 9 (htole16 (state s)).

(** The blocks of the inode table, [fuel] of them from [i] on. *)
Fixpoint clear_table (fuel : nat) (c : C) (start i : Z) : res (C * bool) :=
  match fuel with
  | O => Val (c, true)
  | S fuel =>
      '(c, inode_buf) ← get_block c (start + i);
      if inode_buf =? 0 then Val (c, false)
      else
        b ← lift (buf_data c inode_buf);
        b ← lift (clear_block b);
        c ← set_buf_data c inode_buf b;
        '(c, _) ← release_block c inode_buf BF_DIRTY;
        clear_table fuel c start (i + 1)
  end.

(** The root inode: inode_table[0]. *)
Definition put_root_inode (b : list Z) (dir_zone : Z) : option (list Z) :=
  b ← put_mode b 0 (htole16 (S_IFDIR + 511));
  b ← put_uid b 0 (htole16 0);
  b ← put_gid b 0 0;
  b ← put_size b 0 (htole32 0);
  b ← put_nlinks b 0 (u8 (htole16 1));
  put_zone b 0 0 (htole16 (u16 dir_zone)).

(** The root directory: its own entry and its parent's, which is itself. *)
Definition put_root_dir (b : list Z) (root_ino : Z) : option (list Z) :=
  b ← clear_block b;
  b ← set_dirent_inode b 0 (htole16 (u16 root_ino));
  n ← strcpy (dirent_name b 0) dot;
  b ← set_dirent_inode (set_dirent_name b 0 n) 1 (htole16 (u16 root_ino));
  n ← strcpy (dirent_name b 1) dotdot;
  Some (set_dirent_name b 1 n).

(** minix_mkfs between init_bufcache and sync_bufcache. *)
Definition mkfs_blocks (c : C) (blocks : Z) : res (C * Z) :=
  let super := mkfs_super blocks in
  '(c, super_buf) ← get_block c MINIX_V1_SUPER_ZONE;
  if super_buf =? 0 then Val (c, -1)
  else
    b ← lift (buf_data c super_buf);
    b ← lift (clear_block b);
    b ← lift (put_superblock b super);
    c ← set_buf_data c super_buf b;
    '(c, _) ← release_block c super_buf BF_DIRTY;
    '(c, _) ← bitmap_init c MINIX_V1_INODE_BITMAP_START (imap_blocks super) (num_inodes super) 2;
    '(c, _) ← bitmap_init c (MINIX_V1_ZONE_BITMAP_START super) (zmap_blocks super) (num_zones super) 2;
    '(c, ok) ← clear_table (Z.to_nat (Z.shiftr (num_inodes super) MINIX_V1_LOG_INODES_PER_ZONE)) c
                 (MINIX_V1_INODE_TABLE_START super) 0;
    if negb ok then Val (c, ENOMEM)
    else
      let root_ino := 1 in
      let dir_zone := first_zone super in
      '(c, inode_buf) ← get_block c (MINIX_V1_INODE_TABLE_START super);
      if inode_buf =? 0 then Val (c, ENOMEM)
      else
        b ← lift (buf_data c inode_buf);
        b ← lift (put_root_inode b dir_zone);
        c ← set_buf_data c inode_buf b;
        '(c, _) ← release_block c inode_buf BF_DIRTY;
        '(c, dir_buf) ← get_block c dir_zone;
        if dir_buf =? 0 then Val (c, ENOMEM)
        else
          b ← lift (buf_data c dir_buf);
          b ← lift (put_root_dir b root_ino);
          c ← set_buf_data c dir_buf b;
          '(c, _) ← release_block c dir_buf BF_DIRTY;
          Val (c, 0).
End mkfs.

Section mount.
Context {D A : Type} `{Allocator A} (t : list (option (driver D))).
#[local] Existing Instance cache_store.

(** [opts_block_size] and [blocks] are the fields of the options. *)
Definition minix_mkfs (c : cache D A) (dv opts_block_size blocks : Z) : res (cache D A * Z) :=
  if negb (opts_block_size =? 0) && negb (opts_block_size =? MINIX_V1_ZONE_SIZE) then Val (c, Iovec.EINVAL)
  else
    '(c, error) ← mkfs_blocks (H := cache_store t) (init_bufcache c dv MINIX_V1_ZONE_SIZE) blocks;
    if negb (error =? 0) then Val (c, error)
    else
      c ← Bufcache.sync_bufcache t c;
      c ← free_bufcache c;
      Val (c, 0).

(** [junk] is what the buffer on the stack holds. *)
Definition read_superblock (c : cache D A) (dv : Z) (junk : list Z) : res (cache D A * list Z * Z) :=
  '(d, iter, size) ← dev_read t (c_disk c) dv (MINIX_V1_SUPER_ZONE * MINIX_V1_ZONE_SIZE)
                       (iovec_iter_init_simple_kvec junk MINIX_SUPERBLOCK_SIZE);
  bytes ← lift (transferred iter);
  Val (set_disk c d, bytes, if size =? 512 then 0 else EIO).

(** The superblock, its address and the block size of the mount. *)
Definition load_superblock (c : cache D A) (dv : Z) (junk : list Z) :
    res (cache D A * (Z + minix_v1_superblock * Z * Z)) :=
  '(c, super_buf, error) ← read_superblock c dv junk;
  if error <? 0 then Val (c, inl error)
  else
    super_v1 ← lift (superblock_at super_buf);
    if negb (le16toh (magic super_v1) =? MINIX_MAGIC) then Val (c, inl Iovec.EINVAL)
    else
      '(a, p) ← Alloc.kmalloc (c_heap c) SIZEOF_MINIX_SUPER;
      let super := superblock_from_le super_v1 in
      let bsize := Z.shiftl 1024 (log_zone_size super) in
      Val (init_bufcache (set_heap c a) dv bsize, inr (super, p, bsize)).

Definition free_superblock (c : cache D A) (super : Z) : res (cache D A) :=
  a ← Alloc.kmfree (c_heap c) super; Val (set_heap c a).
End mount.

(** ** The blocks that are written *)

Definition super_bytes (s : minix_v1_superblock) : list Z :=
  bytes16 (htole16 (num_inodes s)) ++ bytes16 (htole16 (num_zones s)) ++ bytes16 (htole16 (imap_blocks s)) ++
  bytes16 (htole16 (zmap_blocks s)) ++ bytes16 (htole16 (first_zone s)) ++ bytes16 (htole16 (log_zone_size s)) ++
  bytes32 (htole16 (u16 (max_file_size s))) ++ bytes16 (htole16 (magic s)) ++ bytes16 (htole16 (state s)).

(** The inode table and the directory of the root. *)
Definition root_table : list Z := default zero_block (put_root_inode zero_block 6).
Definition root_block : list Z := default zero_block (put_root_dir zero_block 1).

Lemma clear_block_ok b : length b = 1024%nat → clear_block b = Some zero_block.
Proof.
  intros Hl. unfold clear_block. fold zero_block. assert (Hz : length zero_block = 1024%nat) by apply length_replicate.
  rewrite wr_range_ok by lia. f_equal. unfold splice. change (Z.to_nat 0) with 0%nat.
  by rewrite take_0, drop_ge, app_nil_r by lia.
Qed.

Lemma put_superblock_ok b s : length b = 1024%nat → put_superblock b s = Some (splice b 0 (super_bytes s)).
Proof.
  intros Hl. unfold put_superblock.
  assert (Hlen : ∀ bs, (length bs ≤ 1024)%nat → length (splice b 0 bs) = 1024%nat)
    by (intros bs Hb; rewrite length_splice; lia).
  rewrite wr16_splice by lia. cbn [mbind option_bind]. change (Z.to_nat (2 * 0)) with 0%nat.
  do 5 (rewrite wr16_splice by (rewrite ?Hlen by (simpl; lia); lia); cbn [mbind option_bind];
        rewrite (splice_splice_adj b) by (simpl; lia)).
  rewrite wr32_splice by (rewrite ?Hlen by (simpl; lia); lia). cbn [mbind option_bind].
  rewrite (splice_splice_adj b) by (simpl; lia).
  do 2 (rewrite wr16_splice by (rewrite ?Hlen by (simpl; lia); lia); cbn [mbind option_bind];
        rewrite (splice_splice_adj b) by (simpl; lia)).
  done.
Qed.

Lemma put_root_inode_ok : put_root_inode zero_block 6 = Some root_table ∧ length root_table = 1024%nat.
Proof. split; vm_compute; done. Qed.

Lemma put_root_dir_ok b : length b = 1024%nat → put_root_dir b 1 = Some root_block ∧ length root_block = 1024%nat.
Proof.
  intros Hl. unfold put_root_dir. rewrite clear_block_ok by done.
  change (put_root_dir zero_block 1 = Some root_block ∧ length root_block = 1024%nat). split; vm_compute; done.
Qed.

Section blocks.
Context (nb : nat).
Context {C : Type} `{BlockStore C} `{!StoreLaws C 1024 nb}.

(** The disk that mkfs leaves, with its two bitmaps. *)
Definition mkfs_disk (d : gmap Z (list Z)) (s : minix_v1_superblock) (li lz : list Z) : gmap Z (list Z) :=
  <[6 := root_block]> (<[4 := root_table]> (<[5 := zero_block]> (<[4 := zero_block]>
    (<[3 := lz]> (<[2 := li]> (<[1 := splice zero_block 0 (super_bytes s)]> d)))))).

(** A bitmap whose first [n] bits are free but for two. *)
Definition fresh_map (n : nat) (l : list Z) : Prop :=
  words_ok 8 l ∧ length l = 1024%nat ∧
  ∀ i, (i < 1024 * 8)%nat → bit_at 8 l i = (i <? 2)%nat || (n <=? i)%nat.

(** A block is written as a whole. *)
Lemma wp_write_block {B} c d held W own n (f : list Z → option (list Z)) y (k : C * Z → res B) (q : C → res B) Q :
  store_rel c d held W own → 0 < n < Z.of_nat nb → zlen held < 98 → n ∉ W →
  (∀ x, d !! n = Some x → length x = 1024%nat → f x = Some y) → length y = 1024%nat →
  (∀ c', store_rel c' (<[n := y]> d) held W own → wp (k (c', 0)) store_oom Q) →
  wp ('(c, buf) ← get_block c n;
      if buf =? 0 then q c
      else b ← lift (buf_data c buf); b ← lift (f b); c ← set_buf_data c buf b;
           r ← release_block c buf BF_DIRTY; k r) store_oom Q.
Proof.
  intros Hr Hn Hh HW Hf Hy Hk. eapply wp_get; [done|done|lia|]. intros c1 b x Hb Hx Hxl Hbd Hr1.
  destruct (Z.eqb_spec b 0); [done|]. rewrite Hbd. res_simpl. rewrite (Hf x) by done. res_simpl.
  eapply wp_put_release; [done|lia|done|done|done].
Qed.

Lemma mkfs_bitmap c d held own start (n : nat) : store_rel c d held ∅ own → zlen held < 98 → 0 < start < Z.of_nat nb →
  (8 ≤ n < 1024 * 8)%nat →
  wp (bitmap_init c start 1 (Z.of_nat n) 2) store_oom (λ '(c', _), ∃ b l, fresh_map n l ∧
    store_rel c' (<[start := l]> d) ((b, start) :: held) ∅ own).
Proof.
  intros Hr Hh Hs Hn. eapply wp_mono; [apply (bitmap_init_ok c d held ∅ own start n 2); try done|done|].
  - change (2 / 8)%nat with 0%nat. apply Nat.div_str_pos. lia.
  - lia.
  - intros [c' e] (_ & b & l & Hr' & (Hw & Hl & _) & Hb). exists b, l. done.
Qed.

Lemma mkfs_blocks_ok c d own (n : nat) :
  store_rel c d [] ∅ own → (8 ≤ n < 1024 * 8)%nat → (n ≤ nb)%nat →
  wp (mkfs_blocks c (Z.of_nat n)) store_oom (λ '(c', r), r = 0 ∧ ∃ b1 b2 li lz, fresh_map 64 li ∧ fresh_map n lz ∧
    store_rel c' (mkfs_disk d (mkfs_super (Z.of_nat n)) li lz) [(b2, 3); (b1, 2)] ∅ own).
Proof.
  intros Hr Hn Hnb. assert (Hzl : length zero_block = 1024%nat) by apply length_replicate.
  assert (HW : ∀ z : Z, z ∉ (∅ : gset Z)) by (intros; apply not_elem_of_empty).
  unfold mkfs_blocks. eapply wp_get; [done|unfold MINIX_V1_SUPER_ZONE; lia|done|]. intros c1 b x Hb _ Hxl Hbd Hr1.
  destruct (Z.eqb_spec b 0); [done|]. rewrite Hbd. res_simpl. rewrite clear_block_ok by done. res_simpl.
  rewrite put_superblock_ok by done. res_simpl.
  eapply wp_put_release; [done|done|apply HW|by rewrite length_splice by (simpl; lia)|]. intros c2 Hr2.
  assert (Hnz : num_zones (mkfs_super (Z.of_nat n)) = Z.of_nat n) by (simpl; apply u16_small; lia).
  change (imap_blocks (mkfs_super (Z.of_nat n))) with 1. change (zmap_blocks (mkfs_super (Z.of_nat n))) with 1.
  change (MINIX_V1_ZONE_BITMAP_START (mkfs_super (Z.of_nat n))) with 3. rewrite Hnz.
  eapply wp_call; [apply (mkfs_bitmap c2 _ [] own 2 64 Hr2); try done; lia|].
  intros [c3 e3] (b1 & li & Hli & Hr3).
  eapply wp_call; [apply (mkfs_bitmap c3 _ _ own 3 n Hr3); try done; lia|].
  intros [c4 e4] (b2 & lz & Hlz & Hr4). clear c1 x Hb Hxl Hbd Hr1.
  change (Z.to_nat (Z.shiftr (num_inodes (mkfs_super (Z.of_nat n))) MINIX_V1_LOG_INODES_PER_ZONE)) with 2%nat.
  change (MINIX_V1_INODE_TABLE_START (mkfs_super (Z.of_nat n))) with 4. change (first_zone (mkfs_super (Z.of_nat n))) with 6.
  cbn [clear_table]. apply wp_bind.
  eapply (wp_write_block _ _ _ _ _ 4 clear_block zero_block); [exact Hr4|lia|done|apply HW|by intros; apply clear_block_ok|done|].
  intros c5 Hr5. change (0 + 1) with 1.
  eapply (wp_write_block _ _ _ _ _ 5 clear_block zero_block); [exact Hr5|lia|done|apply HW|by intros; apply clear_block_ok|done|].
  intros c6 Hr6. cbn [wp negb].
  eapply (wp_write_block _ _ _ _ _ 4 (λ b, put_root_inode b 6) root_table); [exact Hr6|lia|done|apply HW| |apply put_root_inode_ok|].
  { intros x Hx _. rewrite lookup_insert_ne, lookup_insert_eq in Hx by done. injection Hx as <-. apply put_root_inode_ok. }
  intros c7 Hr7.
  eapply (wp_write_block _ _ _ _ _ 6 (λ b, put_root_dir b 1) root_block); [exact Hr7|lia|done|apply HW| |by eapply (put_root_dir_ok zero_block)|].
  { intros x _ Hxl. by apply put_root_dir_ok. }
  intros c8 Hr8. cbn [wp]. split; [done|]. exists b1, b2, li, lz. done.
Qed.

(** ** The file system that is mounted *)

(** The superblock as load_superblock reads it back: the maximum file size was lost. *)
Definition mounted_super (n : Z) : minix_v1_superblock := Superblock 64 n 1 1 6 0 0 MINIX_MAGIC 1.

Definition root_zones : list Z := htole16 6 :: replicate 8 0.

Lemma mounted_geometry (n : nat) : (8 ≤ n < 1024 * 8)%nat → (n ≤ nb)%nat → Z.of_nat nb < 2 ^ 31 →
  geometry (mounted_super (Z.of_nat n)) nb 1.
Proof. intros Hn Hnb Hs. split; simpl; try lia; by compute. Qed.

(** The only zone of the root directory is the first data zone. *)
Lemma root_zp d q : vpath q → zp d root_zones q = if decide (q = [0]) then 6 else 0.
Proof.
  induction q as [|j q IH]; [done|]. intros Hq. destruct (decide (q = [])) as [->|Hne].
  - simpl in Hq. assert (j = 0 ∨ j = 1 ∨ j = 2 ∨ j = 3 ∨ j = 4 ∨ j = 5 ∨ j = 6 ∨ j = 7 ∨ j = 8) as E by lia.
    by repeat destruct E as [->|E]; [..|rewrite E].
  - destruct (vpath_tail j q Hq Hne) as [Hq' _]. rewrite zp_cons by done. rewrite (IH Hq').
    rewrite (decide_False (P := j :: q = [0])) by (intros [= _ ?]; done).
    destruct (decide (q = [0])) as [->|]; [|done]. exfalso. simpl in Hq. lia.
Qed.

Lemma fresh_map_count (n : nat) l k : fresh_map n l → (2 ≤ k ≤ n)%nat → (n ≤ 1024 * 8)%nat → count_clear 8 l k = (k - 2)%nat.
Proof.
  intros (_ & _ & Hb) Hk Hn. assert (∀ j, (j ≤ n)%nat → count_clear 8 l j = (j - 2)%nat) as ->; [|done|lia].
  induction j as [|j IH]; intros Hj; [done|]. cbn [count_clear]. rewrite Hb, IH by lia.
  destruct (Nat.ltb_spec j 2), (Nat.leb_spec n j); simpl; lia.
Qed.

Definition bytes_disk (d : gmap Z (list Z)) : Prop :=
  ∀ n, 0 < n < Z.of_nat nb → ∃ x, d !! n = Some x ∧ length x = 1024%nat ∧ Forall byte_ok x.

Lemma bytes_insert d k y : bytes_disk d → length y = 1024%nat → Forall byte_ok y → bytes_disk (<[k := y]> d).
Proof.
  intros Hd Hl Hy n Hn. destruct (decide (n = k)) as [->|].
  - rewrite lookup_insert_eq. eauto.
  - rewrite lookup_insert_ne by done. by apply Hd.
Qed.

Lemma bytes_check l : forallb (λ b, (0 <=? b) && (b <? 256)) l = true → Forall byte_ok l.
Proof.
  induction l as [|b l IH]; simpl; [constructor|]. intros Hb. apply andb_prop in Hb as [Hb Hl].
  constructor; [unfold byte_ok; lia|auto].
Qed.

Lemma super_bytes_ok n : Forall byte_ok (super_bytes (mkfs_super n)).
Proof.
  unfold super_bytes. apply Forall_app. split; [by apply bytes_check|]. apply Forall_app. split; [|by apply bytes_check].
  apply bytes16_ok. apply le16_inv, (uwrap_range 16). lia.
Qed.

Lemma mkfs_layout d (n : nat) li lz : bytes_disk d → fresh_map 64 li → fresh_map n lz →
  layout (mounted_super (Z.of_nat n)) nb 1 (mkfs_disk d (mkfs_super (Z.of_nat n)) li lz) lz.
Proof.
  intros Hd (Hwi & Hli & _) (Hwz & Hlz & Hz). assert (Hzl : length zero_block = 1024%nat) by apply length_replicate.
  split; [split; [done|split; [lia|]]| |].
  - intros k Hk. replace k with 0%nat by lia. change (MINIX_V1_ZONE_BITMAP_START (mounted_super (Z.of_nat n)) + Z.of_nat 0) with 3.
    unfold mkfs_disk. repeat rewrite lookup_insert_ne by done. rewrite lookup_insert_eq. unfold slice.
    by rewrite drop_0, take_ge by lia.
  - repeat apply bytes_insert; try done; try apply bytes_zero.
    + unfold splice. apply Forall_app. split; [by apply Forall_take, bytes_zero|]. apply Forall_app.
      split; [apply super_bytes_ok|by apply Forall_drop, bytes_zero].
    + by apply bytes_check; vm_compute.
    + by apply bytes_check; vm_compute.
  - rewrite Hz by lia. done.
Qed.

Lemma root_zones_ok d (n : nat) lz : fresh_map n lz → (8 ≤ n < 1024 * 8)%nat →
  zones_ok (mounted_super (Z.of_nat n)) d lz root_zones.
Proof.
  intros (_ & _ & Hb) Hn. split; [done|by repeat (apply Forall_cons; split; [compute; split; done|])| |].
  - intros p Hp Hz. rewrite (root_zp d p Hp) in *. destruct (decide (p = [0])); [|done].
    split; [unfold data_zone; simpl; lia|]. change (zbit _ 6) with 1%nat. by rewrite Hb by lia.
  - intros p q Hp Hq. rewrite (root_zp d p Hp), (root_zp d q Hq).
    destruct (decide (p = [0])) as [->|], (decide (q = [0])) as [->|]; done.
Qed.

(** The names of a new root directory. *)
Definition root_names : gmap (list Z) Z := {[ [46] := 1; [46; 46] := 1 ]}.

Lemma root_dents k : (2 ≤ k < 64)%nat → (dent root_block k).1 = 0.
Proof.
  intros Hk. assert (forallb (λ k, (dent root_block k).1 =? 0) (seq 2 62) = true) as E by (vm_compute; done).
  rewrite forallb_forall in E. specialize (E k). rewrite <- list_elem_of_In, elem_of_seq in E.
  specialize (E ltac:(lia)). lia.
Qed.

Lemma root_dots :
  dent root_block 0 = (1, 46 :: replicate 13 0) ∧ dent root_block 1 = (1, 46 :: 46 :: replicate 12 0).
Proof. vm_compute. done. Qed.

Lemma root_length : length root_block = 1024%nat.
Proof. apply (put_root_dir_ok zero_block eq_refl). Qed.

(** A directory with the two entries and nothing else. *)
Lemma dots_maps x : dent x 0 = (1, 46 :: replicate 13 0) → dent x 1 = (1, 46 :: 46 :: replicate 12 0) →
  (∀ k, (2 ≤ k < 64)%nat → (dent x k).1 = 0) → dir_maps 1 x root_names.
Proof.
  intros H0 H1 H2. assert (Hc : ∀ k, (k < 64 * 1)%nat → (dent x k).1 ≠ 0 → k = 0%nat ∨ k = 1%nat).
  { intros k Hk Hn. destruct (decide (2 ≤ k)%nat); [|lia]. by rewrite H2 in Hn by lia. }
  split.
  - intros k nm Hk Hn. destruct (Hc k Hk Hn) as [->| ->]; rewrite ?H0, ?H1; intros [= <-]; done.
  - intros nm i Hi. unfold root_names in Hi. rewrite lookup_insert_Some in Hi. destruct Hi as [[<- <-]|[_ Hi]].
    + exists 0%nat. rewrite H0. split; [lia|]. done.
    + rewrite lookup_singleton_Some in Hi. destruct Hi as [<- <-]. exists 1%nat. rewrite H1. split; [lia|]. done.
  - intros k k' nm Hk Hk' Hn Hn'. destruct (Hc k Hk Hn) as [->| ->], (Hc k' Hk' Hn') as [->| ->];
      rewrite ?H0, ?H1; intros [= E1] [= E2]; congruence.
Qed.

Lemma root_dir_maps : dir_maps 1 root_block root_names.
Proof. apply dots_maps; [apply root_dots..|apply root_dents]. Qed.

Lemma root_dir_is d s li lz : dir_is (mkfs_disk d s li lz) root_zones 1 root_block.
Proof.
  assert (Hl : length root_block = 1024%nat) by apply root_length.
  assert (H6 : mkfs_disk d s li lz !! 6 = Some root_block) by apply lookup_insert_eq.
  assert (Hz : zp (mkfs_disk d s li lz) root_zones (zpath 0) = 6) by (by apply (root_zp _ [0])).
  split; [split| | |].
  - by rewrite Hl.
  - intros k Hk. unfold file_byte, zone_of. rewrite Nat.div_small, Nat.mod_small by lia.
    change (Z.of_nat 0) with 0. rewrite Hz. cbn [Z.eqb]. by rewrite H6.
  - done.
  - intros z Hr. rewrite root_zp; [|apply zpath_valid; lia].
    rewrite decide_False; [done|]. change [0] with (zpath 0). intros E. apply zpath_inj in E; lia.
  - intros k Hk Hn. destruct (decide (2 ≤ k)%nat); [by rewrite root_dents in Hn by lia|].
    destruct root_dots as [H0 H1]. destruct k as [|[|k]]; [rewrite H0; by eexists|rewrite H1; by eexists|lia].
Qed.
End blocks.

(** What load_superblock finds in the block that mkfs wrote. *)
Lemma superblock_read n : 0 ≤ n < 65536 →
  let x := splice zero_block 0 (super_bytes (mkfs_super n)) in
  ∃ s, superblock_at (take 512 x) = Some s ∧ superblock_from_le s = mounted_super n.
Proof.
  intros Hn x. assert (Hr : u16_ok (htole16 n)) by by apply le16_inv.
  assert (E : le16toh (htole16 n) = n) by by apply le16_inv.
  subst x. unfold super_bytes, bytes16. simpl num_zones. rewrite u16_small by done.
  destruct (u16_bytes _ Hr) as (_ & _ & Er).
  revert E. generalize dependent (htole16 n). intros raw _. generalize (Z.shiftr raw 8) (Z.land raw 255).
  intros h l -> E. match goal with |- ∃ s, superblock_at ?x = _ ∧ _ => set (L := x) end.
  assert (R : ∀ j a b, rd L (2 * j) = Some a → rd L (2 * j + 1) = Some b → rd16 L j = Some (a * 256 + b))
    by (intros j a b Ha Hb; unfold rd16; by rewrite Ha, Hb).
  unfold superblock_at, rd32. change (6 + 1) with 7.
  do 10 (erewrite R by (vm_compute; reflexivity); cbn [mbind option_bind]).
  eexists. split; [done|]. unfold superblock_from_le, mounted_super.
  cbn [num_inodes num_zones imap_blocks zmap_blocks first_zone log_zone_size max_file_size magic state]. by rewrite E.
Qed.

Section mounted.
Context {D A : Type} `{Allocator A} `{!AllocLaws A}.
Context (t : list (option (driver D))) (dv : Z) `{!DiskLaws t dv} (nb : nat).
Hypothesis dev_set : dv ≠ 0.
Hypothesis sizes : Z.of_nat (nb * 1024) < 2 ^ 31.

Definition block_sizes : 0 < Z.of_nat 1024 ≤ 2 ^ 30 ∧ Z.of_nat (nb * 1024) < 2 ^ 31.
Proof. lia. Qed.

#[local] Instance disk_store : BlockStore (cache D A) := cache_store t.
#[local] Instance disk_laws : StoreLaws (cache D A) 1024 nb := cache_store_laws t dv 1024 nb dev_set block_sizes.

(** A device with a new file system of [n] blocks on it. *)
Definition made (disk : D) (s0 : list Z) (n : nat) : Prop :=
  ∃ s li lz, disk_is disk s ∧ length s = (nb * 1024)%nat ∧ fresh_map 64 li ∧ fresh_map n lz ∧
    ∀ k, 0 < k < Z.of_nat nb →
      mkfs_disk (image_blocks nb s0) (mkfs_super (Z.of_nat n)) li lz !! k = Some (slice s (Z.to_nat k * 1024) 1024).

Definition free_heap (own : gset Z) (a : A) : Prop := ∃ live, alloc_inv a live ∧ own ⊆ live.

Lemma minix_mkfs_ok bc disk heap own s (n : nat) bsz :
  disk_is disk s → length s = (nb * 1024)%nat → free_heap own heap → (8 ≤ n < 1024 * 8)%nat → (n ≤ nb)%nat →
  bsz = 0 ∨ bsz = 1024 →
  wp (minix_mkfs t (Cache bc ∅ ∅ disk heap) dv bsz (Z.of_nat n)) oom
    (λ '(c', r), r = 0 ∧ made (c_disk c') s n ∧ free_heap own (c_heap c')).
Proof.
  intros Hd Hl (live & Ha & Hown) Hn Hnb Hb. unfold minix_mkfs.
  assert (negb (bsz =? 0) && negb (bsz =? MINIX_V1_ZONE_SIZE) = false) as ->
    by (unfold MINIX_V1_ZONE_SIZE; destruct (Z.eqb_spec bsz 0), (Z.eqb_spec bsz 1024); simpl; lia).
  change oom with (@store_oom _ _ _ _ disk_laws).
  eapply wp_call; [eapply (mkfs_blocks_ok nb _ (image_blocks nb s) own n)|].
  { eapply (fresh_cache_rel t dv 1024 nb); try done. intros k Hk. by apply image_blocks_lookup. }
  { done. }
  { done. }
  intros [c1 r] (-> & b1 & b2 & li & lz & Hli & Hlz & Hr). simpl negb. cbv iota.
  destruct (sync_bufcache_ok t dv 1024 nb dev_set block_sizes c1 _ _ _ _ Hr) as (c2 & s2 & -> & Hr2 & Hd2 & Hl2 & Hs2).
  res_simpl. destruct (free_bufcache_ok t dv 1024 nb dev_set block_sizes c2 _ _ _ _ Hr2) as (c3 & live3 & -> & _ & Ed & Ha3 & Hown3).
  res_simpl. split; [done|]. split; [|by exists live3]. exists s2, li, lz. rewrite Ed. split_and!; try done.
  intros k Hk. apply Hs2; [done|apply not_elem_of_empty].
Qed.

(** The superblock of a device is read, and the cache of the mount shows its blocks. *)
Lemma load_device_ok bc disk heap own s d sb junk :
  disk_is disk s → length s = (nb * 1024)%nat → (1 < nb)%nat → (∀ k, 0 < k < Z.of_nat nb → d !! k = Some (slice s (Z.to_nat k * 1024) 1024)) →
  superblock_at (take 512 (slice s 1024 1024)) = Some sb → le16toh (magic sb) = MINIX_MAGIC → log_zone_size (superblock_from_le sb) = 0 → free_heap own heap → length junk = 512%nat →
  wp (load_superblock t (Cache bc ∅ ∅ disk heap) dv junk) oom (λ '(c, m), ∃ p,
    m = inr (superblock_from_le sb, p, 1024) ∧ (p ∉ own) ∧ store_rel c d [] ∅ ({[p]} ∪ own)).
Proof.
  intros Hd Hl Hnb Hs Hsb Hmagic Hlog (live & Ha & Hown) Hj.
  unfold load_superblock, read_superblock. pose proof (simple_kvec_rel junk) as Hit. rewrite Hj in Hit.
  destruct (disk_read_law disk s 1024 (iovec_iter_init_simple_kvec junk 512) junk Hd) as (d' & it' & E & Hd' & Hit' & Hlay);
    [apply Hit; lia|lia|lia|].
  change (MINIX_V1_SUPER_ZONE * MINIX_V1_ZONE_SIZE) with 1024. cbn [c_disk]. unfold MINIX_SUPERBLOCK_SIZE.
  rewrite E. res_simpl. rewrite (transferred_ok _ _ _ _ _ Hit' Hlay). res_simpl. rewrite Hj. simpl Z.eqb. cbv iota.
  change (0 <? 0) with false. cbv iota. assert (take 512 (slice s 1024 1024) = slice s (Z.to_nat 1024) 512) as Et
    by (unfold slice; rewrite take_take; done).
  rewrite <- Et, Hsb. res_simpl. rewrite Hmagic, Z.eqb_refl. simpl negb. cbv iota.
  eapply wp_call; [apply (Alloc.kmalloc_law heap live); [done|by compute]|]. intros [a p] (Hp & Hlive & Ha').
  rewrite Hlog. cbn [wp]. exists p. split; [done|]. split; [by intros ?%Hown|].
  eapply (fresh_cache_rel t dv 1024 nb dev_set block_sizes); [exact Hd'|done|exact Hs|done|by apply union_mono_l].
Qed.

(** The superblock that mkfs wrote is read back. *)
Lemma load_superblock_ok bc disk heap own s0 (n : nat) junk :
  made disk s0 n → free_heap own heap → (8 ≤ n < 1024 * 8)%nat → (n ≤ nb)%nat → length junk = 512%nat →
  wp (load_superblock t (Cache bc ∅ ∅ disk heap) dv junk) oom (λ '(c, m), ∃ p li lz,
    m = inr (mounted_super (Z.of_nat n), p, 1024) ∧ (p ∉ own) ∧ fresh_map 64 li ∧ fresh_map n lz ∧
    store_rel c (mkfs_disk (image_blocks nb s0) (mkfs_super (Z.of_nat n)) li lz) [] ∅ ({[p]} ∪ own)).
Proof.
  intros (s & li & lz & Hd & Hl & Hli & Hlz & Hs) Hh Hn Hnb Hj.
  pose proof (Hs 1 ltac:(lia)) as H1. unfold mkfs_disk in H1. repeat rewrite lookup_insert_ne in H1 by done.
  rewrite lookup_insert_eq in H1. change (Z.to_nat 1 * 1024)%nat with 1024%nat in H1.
  destruct (superblock_read (Z.of_nat n)) as (sb & Hsb & Hle); [lia|]. injection H1 as H1. rewrite H1 in Hsb.
  eapply wp_mono; [eapply (load_device_ok bc disk heap own s _ sb junk Hd Hl ltac:(lia) Hs Hsb); [|by rewrite Hle|done..]|done|].
  - by change (le16toh (magic sb)) with (magic (superblock_from_le sb)); rewrite Hle.
  - intros [c m] (p & -> & Hp & Hr). rewrite Hle. by exists p, li, lz.
Qed.

(** The inode of the root directory; its link count is stored as a byte of
    the swapped number, which is 0. *)
Definition root_inode : minix_v1_inode := Inode (htole16 (S_IFDIR + 511)) 0 0 0 0 0 root_zones.

Lemma root_inode_at : inode_at root_table 0 = Some root_inode.
Proof. vm_compute. done. Qed.

Lemma image_bytes s : length s = (nb * 1024)%nat → Forall byte_ok s → bytes_disk nb (image_blocks nb s).
Proof.
  intros Hl Hb k Hk. rewrite image_blocks_lookup by done. eexists. split; [done|].
  split; [|by apply Forall_take, Forall_drop]. rewrite length_slice. lia.
Qed.

(** C15: a file system that was made can be mounted and used: minix_mkfs on any
    device with at least [n] blocks returns 0, load_superblock on a new cache
    finds the superblock, inode 1 is a directory, and it holds . and .. and
    nothing else, with all of the other data zones free, so that the directory
    and file operations apply to it. *)
Theorem mkfs_mount bc bc' disk heap own s (n : nat) junk v :
  disk_is disk s → length s = (nb * 1024)%nat → Forall byte_ok s → free_heap own heap →
  (8 ≤ n < 1024 * 8)%nat → (n ≤ nb)%nat → length junk = 512%nat →
  wp ('(c1, r1) ← minix_mkfs t (Cache bc ∅ ∅ disk heap) dv 0 (Z.of_nat n);
      '(c2, mount) ← load_superblock t (Cache bc' ∅ ∅ (c_disk c1) (c_heap c1)) dv junk;
      match mount with
      | inl e => Undef
      | inr (super, p, bsize) => '(c3, root, r3) ← read_inode super c2 v 1; Val (r1, super, p, bsize, c3, root, r3)
      end) oom
    (λ '(r1, super, p, bsize, c3, root, r3), r1 = 0 ∧ r3 = 0 ∧ (p ∉ own) ∧
      super = mounted_super (Z.of_nat n) ∧ bsize = 1024 ∧ mode root = S_IFDIR + 511 ∧
      dir_rel super nb 1 ({[p]} ∪ own) c3 root (root_names, n - 7)%nat).
Proof.
  intros Hd Hl Hb Hh Hn Hnb Hj. eapply wp_call; [eapply minix_mkfs_ok; try done; by left|].
  intros [c1 r1] (-> & Hm & Hh1). eapply wp_call; [by apply load_superblock_ok|].
  intros [c2 m] (p & li & lz & -> & Hp & Hli & Hlz & Hr). cbv beta iota.
  change oom with (@store_oom _ _ _ _ disk_laws).
  set (d := mkfs_disk _ _ _ _) in *. set (sup := mounted_super _) in *.
  eapply wp_call; [eapply (read_inode_ok sup nb c2 d v [] ∅ _ 1 root_inode Hr)|].
  - done.
  - split; [lia|]. change (inode_block sup 1) with 4. lia.
  - apply not_elem_of_empty.
  - unfold inode_on. change (inode_block sup 1) with 4. change (inode_offset 1) with 0. subst d. unfold mkfs_disk.
    rewrite lookup_insert_ne, lookup_insert_eq by done. cbn [mbind option_bind]. apply root_inode_at.
  - done.
  - intros [[c3 v3] r3] (-> & -> & Hr3). cbn [wp]. do 3 (split; [done|]). split; [done|]. split; [done|].
    split; [by vm_compute|]. exists d, lz, 1%nat, root_block. cbn [fst snd zones node_of root_inode i_zones].
    split; [done|]. split; [by apply mkfs_layout; [apply image_bytes|..]|]. split; [by apply root_zones_ok|].
    split; [apply root_dir_is|]. split; [apply root_dir_maps|].
    unfold free_count. simpl first_zone. simpl num_zones. rewrite (fresh_map_count n) by (done || lia).
    unfold zone_max. lia.
Qed.
End mounted.

(** ** An example: a RAM disk of 32 blocks *)
#[local] Existing Instance example_allocator.
#[local] Existing Instance example_alloc_laws.

Definition blank_image : list Z := replicate (32 * 1024) 0.
Definition new_bufcache : bufcache := Bufcache 0 0 0 0 Queue._queue_init.

Lemma mkfs_mount_witness :
  wp ('(c1, r1) ← minix_mkfs mem_table (Cache new_bufcache ∅ ∅ (image_disk blank_image) example_kheap) mem_dev 0 (Z.of_nat 32);
      '(c2, mount) ← load_superblock mem_table (Cache new_bufcache ∅ ∅ (c_disk c1) (c_heap c1)) mem_dev (replicate 512 0);
      match mount with
      | inl e => Undef
      | inr (super, p, bsize) =>
          '(c3, root, r3) ← read_inode (H := cache_store mem_table) super c2 (example_vnode 1) 1;
          Val (r1, super, p, bsize, c3, root, r3)
      end) oom
    (λ '(r1, super, p, bsize, c3, root, r3), r1 = 0 ∧ r3 = 0 ∧ (p ∉ (∅ : gset Z)) ∧
      super = mounted_super 32 ∧ bsize = 1024 ∧ mode root = S_IFDIR + 511 ∧
      dir_rel (H := disk_store mem_table) (StoreLaws0 := disk_laws mem_table mem_dev 32 ltac:(done) ltac:(lia))
        super 32 1 ({[p]} ∪ ∅) c3 root (root_names, 32 - 7)%nat).
Proof.
  apply (mkfs_mount mem_table mem_dev 32 ltac:(done) ltac:(lia) new_bufcache new_bufcache (image_disk blank_image) example_kheap ∅
    blank_image 32 (replicate 512 0) (example_vnode 1)).
  - apply image_disk_is. unfold blank_image. rewrite length_replicate. lia.
  - apply length_replicate.
  - apply Forall_replicate. by compute.
  - exists ∅. split; [apply example_kheap_inv|done].
  - lia.
  - done.
  - done.
Defined.

(** The steps of the example evaluate, with names looked up and added in the root directory. *)
Lemma example_mount_runs :
  match
    '(c1, r1) ← minix_mkfs mem_table (Cache new_bufcache ∅ ∅ (image_disk blank_image) example_kheap) mem_dev 0 32;
    '(c2, mount) ← load_superblock mem_table (Cache new_bufcache ∅ ∅ (c_disk c1) (c_heap c1)) mem_dev (replicate 512 0);
    match mount with
    | inl e => Undef
    | inr (super, p, bsize) =>
        '(c3, root, r3) ← read_inode (H := cache_store mem_table) super c2 (example_vnode 1) 1;
        dir_run (H := cache_store mem_table) super c3 root
          [DirFind [46; 0]; DirFind [97; 0]; DirAdd [97; 0] 5; DirFind [97; 0]; DirFind [46; 46; 0]]
    end
  with
  | Val (_, _, outs) => outs = [1; ENOENT; 0; 5; 1]
  | _ => False
  end.
Proof. vm_compute. done. Qed.
