(* ===== verification/Minixvfs.v ===== *)
(** * Minixvfs: the Minix file system behind the VFS
      (src/kernel/fs/minix/minix.c, vnodes.h)

    The vnodes in memory are those of a cache, a queue that the last one used
    is at the front of; vnodes that nobody refers to stay in it until there are
    more than twenty.  A vnode of the VFS with its times and zones is a
    [minix_vnode] of the files before.  There is one mount of the file system:
    its buffers and its superblock are part of the state.  load_superblock and
    free_superblock, which depend on the driver, are parameters; they are
    in Minixmkfs.v. *)

From S2P Require Import Prelude Bits Result Iovec Blockstore Cstring Minixmap Minixzone Minixfile Minixnode Minixdir Vfs Procfs.

Local Abbreviation node := Minixzone.minix_vnode.
Local Abbreviation mkfile := Minixfile.Vfile.

Definition MAX_VNODES : Z := 20.
Definition SIZEOF_MINIX_VNODE : Z := 70.
Definition ENOVNODE : Z := -1001.

(** What a vnode of Minix has besides those of the VFS. *)
Record node_data := NodeData { nd_atime : Z; nd_mtime : Z; nd_ctime : Z; nd_zones : list Z }.

Record mfs (C : Type) := Mfs {
  mf_store : C;
  (** mp->super: the superblock, and its address. *)
  mf_super : option (minix_v1_superblock * Z);
  mf_data : gmap Z node_data;
  mf_cache : list Z;
  mf_count : Z;
}.
Arguments Mfs {C} _ _ _ _ _.
Arguments mf_store {C} _.
Arguments mf_super {C} _.
Arguments mf_data {C} _.
Arguments mf_cache {C} _.
Arguments mf_count {C} _.

Definition to_node (n : vnode) (x : node_data) : node :=
  Minixzone.Vnode (v_refcount n) (v_mode n) (v_nlinks n) (v_uid n) (v_gid n) (v_bits n) (v_rdev n) (v_ino n) (v_size n) (nd_atime x) (nd_mtime x) (nd_ctime x) (nd_zones x).
Definition of_node (mp : option nat) (v : node) : vnode :=
  Vnode mp (refcount v) (mode v) (nlinks v) (uid v) (gid v) (bits v) (rdev v) (ino v) (size v).
Definition data_of (v : node) : node_data := NodeData (atime v) (mtime v) (ctime v) (zones v).

Section minix.
Context {C : Type} `{BlockStore C}.
Context (load_superblock : C → Z → res (C * (Z + minix_v1_superblock * Z))) (free_superblock : C → Z → res C).
(** get_system_time() *)
Context (t : Z).
Local Abbreviation st := (vfs (mfs C)).

Definition set_mfs (s : st) (f : mfs C) : st := set_fs s f.
Definition set_store (s : st) (c : C) : st := let f := fs_state s in set_mfs s (Mfs c (mf_super f) (mf_data f) (mf_cache f) (mf_count f)).
Definition set_data (s : st) x : st := let f := fs_state s in set_mfs s (Mfs (mf_store f) (mf_super f) x (mf_cache f) (mf_count f)).
Definition set_cache (s : st) x : st := let f := fs_state s in set_mfs s (Mfs (mf_store f) (mf_super f) (mf_data f) x (mf_count f)).
Definition set_count (s : st) x : st := let f := fs_state s in set_mfs s (Mfs (mf_store f) (mf_super f) (mf_data f) (mf_cache f) x).
Definition set_super (s : st) x : st := let f := fs_state s in set_mfs s (Mfs (mf_store f) x (mf_data f) (mf_cache f) (mf_count f)).
Definition store (s : st) : C := mf_store (fs_state s).
Definition super_of (s : st) : res minix_v1_superblock := x ← lift (mf_super (fs_state s)); Val (x.1).

Definition get_node (s : st) (v : Z) : res node := n ← lift (vnodes s !! v); x ← lift (mf_data (fs_state s) !! v); Val (to_node n x).
(** The vnode and the buffers after an operation of the files before. *)
Definition put_node (s : st) (v : Z) (m : node) : res st :=
  n ← lift (vnodes s !! v); Val (set_data (set_vnode s v (of_node (v_mp n) m)) (<[v := data_of m]> (mf_data (fs_state s)))).
Definition put (s : st) (c : C) (v : Z) (m : node) : res st := put_node (set_store s c) v m.

(** ** vnodes.h *)

Definition init_minix_vnodes (s : st) : st := set_cache (set_count s 0) [].

(** [write_inode(vnode, vnode->ino)] *)
Definition write_vnode (s : st) (v : Z) : res st :=
  super ← super_of s; m ← get_node s v;
  '(c, m, _) ← write_inode super (store s) m (ino m);
  put s c v m.

Definition is_dirty (m : node) : bool := negb (Z.land (bits m) VBF_DIRTY =? 0).

Fixpoint sync_nodes (s : st) (cache : list Z) : res st :=
  match cache with
  | [] => Val s
  | v :: cache => m ← get_node s v; s ← (if is_dirty m then write_vnode s v else Val s); sync_nodes s cache
  end.
Definition sync_vnodes (s : st) : res st := sync_nodes s (mf_cache (fs_state s)).

(** _queue_remove *)
Definition queue_remove (v : Z) (l : list Z) : list Z := filter (λ w, w ≠ v) l.

Definition free_vnode (s : st) (v : Z) : res st :=
  c ← kmfree (store s) v;
  let s := set_store s c in
  Val (set_data (set_vnodes s (delete v (vnodes s))) (delete v (mf_data (fs_state s)))).

Definition release_vnode (s : st) (v : Z) : res (st * Z) :=
  m ← get_node s v;
  s ← (if negb (ino m =? 0) && is_dirty m then write_vnode s v else Val s);
  let s := set_cache s (queue_remove v (mf_cache (fs_state s))) in
  s ← free_vnode s v;
  Val (set_count s (s32 (mf_count (fs_state s) - 1)), 0).

(** The last vnode of the queue that nobody refers to; the queue is given from its tail. *)
Fixpoint last_unused (s : st) (rcache : list Z) : res (option Z) :=
  match rcache with
  | [] => Val None
  | v :: rcache => n ← lift (vnodes s !! v); if 0 <? v_refcount n then last_unused s rcache else Val (Some v)
  end.

Fixpoint release_unused (fuel : nat) (s : st) : res st :=
  if MAX_VNODES <=? s32 (mf_count (fs_state s) - 1) then
    match fuel with
    | O => Undef
    | S fuel =>
        r ← last_unused s (rev (mf_cache (fs_state s)));
        match r with
        | None => Val s
        | Some v => '(s, _) ← release_vnode s v; release_unused fuel s
        end
    end
  else Val s.
(** Every turn of the loop takes a vnode from the queue. *)
Definition release_unused_vnodes (s : st) : res st := release_unused (S (length (mf_cache (fs_state s)))) s.

Definition load_vnode (s : st) (mp : nat) (num : Z) : res (st * option Z) :=
  s ← release_unused_vnodes s;
  super ← super_of s;
  '(c, v) ← kmalloc (store s) SIZEOF_MINIX_VNODE;
  let s := set_store s c in
  if v =? 0 then Val (s, None)
  else
    let s := set_cache s (v :: mf_cache (fs_state s)) in
    let s := set_vnode s v (vfs_init_vnode (Some mp) 0 1 0 0 0 num 0) in
    let s := set_data s (<[v := NodeData 0 0 0 (replicate (Z.to_nat MINIX_V1_INODE_ZONENUMS) 0)]> (mf_data (fs_state s))) in
    m ← get_node s v;
    '(c, m, error) ← read_inode super (store s) m num;
    s ← put s c v m;
    if negb (error =? 0) then s ← free_vnode s v; Val (s, None)
    else Val (set_count s (s32 (mf_count (fs_state s) + 1)), Some v).

Definition mount_dev (s : st) (mp : nat) : res Z := m ← lift (mountpoints s !! mp); Val (m_dev m).

(** The vnode of the queue with this inode number. *)
Fixpoint find_cached (s : st) (dev num : Z) (cache : list Z) : res (option Z) :=
  match cache with
  | [] => Val None
  | v :: cache =>
      n ← lift (vnodes s !! v); mp ← lift (v_mp n); d ← mount_dev s mp;
      if (d =? dev) && (v_ino n =? num) then Val (Some v) else find_cached s dev num cache
  end.

Definition get_vnode (s : st) (mp : nat) (num : Z) : res (st * option Z) :=
  dev ← mount_dev s mp;
  r ← find_cached s dev num (mf_cache (fs_state s));
  match r with
  | Some v =>
      s ← vfs_clone_vnode s v;
      Val (set_cache s (v :: queue_remove v (mf_cache (fs_state s))), Some v)
  | None => load_vnode s mp num
  end.

Definition alloc_vnode (s : st) (mp : nat) (mode uid gid device : Z) : res (st * option Z) :=
  super ← super_of s;
  '(c, num) ← alloc_inode super t (store s) mode uid gid device;
  let s := set_store s c in
  if num =? 0 then Val (s, None)
  else
    '(s, v) ← load_vnode s mp num;
    match v with
    | Some v => Val (s, Some v)
    | None => '(c, _) ← free_inode (store s) num; Val (set_store s c, None)
    end.

Definition delete_vnode (s : st) (v : Z) : res st :=
  m ← get_node s v;
  '(c, _) ← free_inode (store s) (ino m);
  put s c v (Minixzone.Vnode (refcount m) (mode m) (nlinks m) (uid m) (gid m) (bits m) (rdev m) 0 (size m) (atime m) (mtime m) (ctime m) (zones m)).

(** ** minix.c *)

Definition minix_init (s : st) : res (st * Z) := Val (init_minix_vnodes s, 0).

Definition minix_update (s : st) (v : Z) : res (st * Z) := s ← write_vnode s v; Val (s, 0).

Definition minix_release (s : st) (v : Z) : res (st * Z) :=
  m ← get_node s v;
  if ino m =? 0 then '(s, _) ← release_vnode s v; Val (s, 0)
  else if is_dirty m then s ← write_vnode s v; Val (s, 0)
  else Val (s, 0).

(** vfs_release_vnode for a vnode of Minix. *)
Definition minix_drop (s : st) (v : option Z) : res st := '(s, _) ← release_vnode_with minix_release s v; Val s.

Definition set_root_node (s : st) (i : nat) (v : option Z) : res st :=
  m ← lift (mountpoints s !! i);
  Val (set_mounts s (<[i := Mount (m_ops m) (mount_node m) v (m_dev m) (m_bits m)]> (mountpoints s))).

Definition minix_mount (s : st) (i : nat) (_ : option Z) : res (st * Z) :=
  dev ← mount_dev s i;
  '(c, r) ← load_superblock (store s) dev;
  let s := set_store s c in
  match r with
  | inl error => Val (s, error)
  | inr (super, p) =>
      let s := set_super s (Some (super, p)) in
      '(s, root) ← get_vnode s i 1;
      match root with
      | None => c ← free_superblock (store s) p; Val (set_store s c, ENOMEM)
      | Some v => s ← set_root_node s i (Some v); Val (s, 0)
      end
  end.

(** The superblock is freed before the root is released. *)
Definition minix_unmount (s : st) (i : nat) : res (st * Z) :=
  x ← lift (mf_super (fs_state s));
  c ← free_superblock (store s) x.2;
  let s := set_store s c in
  m ← lift (mountpoints s !! i);
  s ← minix_drop s (root_node m);
  s ← set_root_node s i None;
  Val (s, 0).

Definition minix_sync (s : st) (_ : nat) : res (st * Z) :=
  s ← sync_vnodes s; c ← sync_bufcache (store s); Val (set_store s c, 0).

(** Is the name longer than 14 characters? *)
Definition too_long (name : list Z) : res bool := n ← lift (strlen (name ++ [0])); Val (MINIX_V1_MAX_FILENAME <? n).

(** [buf] and the number of the entry, in the directory [v]. *)
Definition alloc_entry (s : st) (v : Z) (name : list Z) : res (st * option (Z * Z)) :=
  super ← super_of s; m ← get_node s v;
  '(c, m, r) ← dir_alloc_entry super (store s) m (name ++ [0]);
  s ← put s c v m; Val (s, r).
Definition find_entry (s : st) (v : Z) (name : list Z) : res (st * option (Z * Z)) :=
  super ← super_of s; m ← get_node s v;
  '(c, m, r) ← dir_find_entry_by_name super (store s) m (name ++ [0]) MFS_LOOKUP_ZONE;
  s ← put s c v m; Val (s, r).
Definition commit_entry (s : st) (entry : Z * Z) (num : Z) : res st := c ← dir_commit (store s) entry num; Val (set_store s c).
Definition release_buf (s : st) (buf dirty : Z) : res st := '(c, _) ← release_block (store s) buf dirty; Val (set_store s c).

Definition minix_create (s : st) (v : Z) (name : list Z) (mode uid : Z) (result : option Z) : res (st * option Z * Z) :=
  long ← too_long name;
  if long : bool then Val (s, result, ENAMETOOLONG)
  else
    '(s, dir) ← alloc_entry s v name;
    match dir with
    | None => Val (s, result, ENOSPC)
    | Some entry =>
        n ← lift (vnodes s !! v); mp ← lift (v_mp n);
        '(s, newnode) ← alloc_vnode s mp mode uid 0 0;
        match newnode with
        | None => s ← release_buf s entry.1 0; Val (s, result, ENOMEM)
        | Some w =>
            '(s, ok) ← (if S_ISDIR mode then
                          super ← super_of s; m ← get_node s w; p ← get_node s v;
                          '(c, m, ok) ← dir_setup super (store s) m (Some (ino p));
                          s ← put s c w m; Val (s, ok)
                        else Val (s, true));
            if negb ok then s ← minix_drop s (Some w); s ← release_buf s entry.1 0; Val (s, result, ENOMEM)
            else
              m ← get_node s w;
              s ← commit_entry s entry (ino m);
              Val (s, Some w, 0)
        end
    end.

Definition minix_mknod (s : st) (v : Z) (name : list Z) (mode dev uid : Z) : res (st * option Z * Z) :=
  long ← too_long name;
  if long : bool then Val (s, None, ENAMETOOLONG)
  else
    '(s, dir) ← alloc_entry s v name;
    match dir with
    | None => Val (s, None, ENOSPC)
    | Some entry =>
        n ← lift (vnodes s !! v); mp ← lift (v_mp n);
        '(s, newnode) ← alloc_vnode s mp mode uid 0 dev;
        match newnode with
        | None => s ← release_buf s entry.1 0; Val (s, None, ENOVNODE)
        | Some w => m ← get_node s w; s ← commit_entry s entry (ino m); Val (s, Some w, 0)
        end
    end.

Definition minix_lookup (s : st) (v : Z) (name : list Z) (result : option Z) : res (st * option Z * Z) :=
  long ← too_long name;
  if long : bool then Val (s, result, ENAMETOOLONG)
  else
    '(s, entry) ← find_entry s v name;
    match entry with
    | None => Val (s, result, ENOENT)
    | Some (buf, i) =>
        s ← minix_drop s result;
        n ← lift (vnodes s !! v); mp ← lift (v_mp n);
        b ← lift (buf_data (store s) buf); raw ← lift (dirent_inode b i);
        '(s, result) ← get_vnode s mp (le16toh raw);
        s ← release_buf s buf 0;
        Val (s, result, 0)
    end.

Definition minix_link (s : st) (old newparent : Z) (name : list Z) : res (st * Z) :=
  long ← too_long name;
  if long : bool then Val (s, ENAMETOOLONG)
  else
    '(s, dir) ← alloc_entry s newparent name;
    match dir with
    | None => Val (s, ENOSPC)
    | Some entry =>
        m ← get_node s old;
        s ← put_node s old (Minixzone.Vnode (refcount m) (mode m) (s16 (nlinks m + 1)) (uid m) (gid m) (bits m) (rdev m) (ino m) (size m) (atime m) (mtime m) (ctime m) (zones m));
        s ← commit_entry s entry (ino m);
        s ← write_vnode s old;
        Val (s, 0)
    end.

Definition minix_unlink (s : st) (parent v : Z) (name : list Z) : res (st * Z) :=
  super ← super_of s; m ← get_node s v;
  '(s, empty) ← (if S_ISDIR (mode m) then '(c, m, r) ← dir_is_empty super (store s) m; s ← put s c v m; Val (s, r) else Val (s, 1));
  if empty =? 0 then Val (s, ENOTEMPTY)
  else
    '(s, dir) ← find_entry s parent name;
    match dir with
    | None => Val (s, ENOENT)
    | Some entry =>
        s ← commit_entry s entry 0;
        m ← get_node s v;
        let nl := s16 (nlinks m - 1) in
        let m := Minixzone.Vnode (refcount m) (mode m) nl (uid m) (gid m) (bits m) (rdev m) (ino m) (size m) (atime m) (mtime m) (ctime m) (zones m) in
        s ← put_node s v m;
        s ← (if nl <=? 0 then '(c, m) ← zone_free_all super (store s) m; s ← put s c v m; delete_vnode s v else write_vnode s v);
        Val (s, 0)
    end.

(** [dir->inode = htole16(num)] in a buffer that is still held. *)
Definition set_entry (s : st) (entry : Z * Z) (num : Z) : res st :=
  b ← lift (buf_data (store s) entry.1);
  b ← lift (set_dirent_inode b entry.2 (htole16 (u16 num)));
  c ← set_buf_data (store s) entry.1 b;
  Val (set_store s c).

Definition update_time (s : st) (v update : Z) : res st :=
  n ← lift (vnodes s !! v); mp ← lift (v_mp n); m ← lift (mountpoints s !! mp);
  x ← get_node s v;
  put_node s v (vfs_update_time (m_bits m) t x update).

Definition minix_rename (s : st) (v oldparent : Z) (oldname : list Z) (newparent : Z) (newname : list Z) : res (st * Z) :=
  '(s, newdir) ← find_entry s newparent newname;
  match newdir with
  | Some entry => s ← release_buf s entry.1 0; Val (s, EEXIST)
  | None =>
      '(s, newdir) ← alloc_entry s newparent newname;
      match newdir with
      | None => Val (s, ENOSPC)
      | Some new =>
          '(s, olddir) ← find_entry s oldparent oldname;
          match olddir with
          | None => s ← release_buf s new.1 0; Val (s, ENOENT)
          | Some old =>
              m ← get_node s v;
              s ← set_entry s new (ino m);
              s ← set_entry s old 0;
              s ← release_buf s new.1 BF_DIRTY;
              s ← release_buf s old.1 BF_DIRTY;
              s ← update_time s oldparent MTIME;
              s ← update_time s newparent MTIME;
              Val (s, 0)
          end
      end
  end.

Definition minix_truncate (s : st) (v : Z) : res (st * Z) :=
  m ← get_node s v;
  if S_ISDIR (mode m) then Val (s, EISDIR)
  else
    super ← super_of s;
    '(c, m) ← zone_free_all super (store s) m;
    s ← put s c v (set_size m 0);
    s ← update_time s v MTIME;
    m ← get_node s v;
    s ← put_node s v (mark_vnode_dirty m);
    Val (s, 0).

(** ** Files *)

Definition minix_open (s : st) (_ : nat) (_ : Z) : res (st * Z) := Val (s, 0).
Definition minix_close (s : st) (_ : nat) : res (st * Z) := Val (s, 0).

(** The file, its vnode, and the flags of the mount. *)
Definition open_file (s : st) (i : nat) : res (vfile * Z * node * Z) :=
  f ← lift (file_table s !! i); v ← lift (f_vnode f);
  n ← lift (vnodes s !! v); mp ← lift (v_mp n); mt ← lift (mountpoints s !! mp);
  m ← get_node s v; Val (f, v, m, m_bits mt).
Definition seek_file (s : st) (i : nat) (p : Z) : res st := set_file s i (λ f, Vfile (f_device f) (f_vnode f) (f_refcount f) (f_flags f) p).

Definition minix_read (s : st) (i : nat) (iter : iovec_iter) : res (st * iovec_iter * Z) :=
  super ← super_of s; '(f, v, m, _) ← open_file s i;
  '(c, m, file, iter, r) ← Minixfile.minix_read super (store s) m (mkfile (f_refcount f) (f_flags f) (f_position f)) iter;
  s ← put s c v m; s ← seek_file s i (position file);
  Val (s, iter, r).

Definition minix_write (s : st) (i : nat) (iter : iovec_iter) : res (st * iovec_iter * Z) :=
  super ← super_of s; '(f, v, m, mbits) ← open_file s i;
  '(c, m, file, iter, r) ← Minixfile.minix_write super mbits t (store s) m (mkfile (f_refcount f) (f_flags f) (f_position f)) iter;
  s ← put s c v m; s ← seek_file s i (position file);
  Val (s, iter, r).

Definition minix_ioctl (s : st) (_ : nat) (_ : Z) (iter : iovec_iter) (_ : Z) : res (st * iovec_iter * Z) := Val (s, iter, Iovec.EINVAL).

Definition minix_seek (s : st) (i : nat) (pos whence : Z) : res (st * Z) :=
  '(f, _, m, _) ← open_file s i;
  let '(file, r) := Minixfile.minix_seek m (mkfile (f_refcount f) (f_flags f) (f_position f)) pos whence in
  s ← seek_file s i (position file); Val (s, r).

(** [for (; zpos < MINIX_V1_DIRENTS_PER_ZONE - 1 && entries[zpos].inode == 0; zpos++) { }] *)
Fixpoint next_entry (fuel : nat) (block : list Z) (zpos : Z) : option Z :=
  if zpos <? MINIX_V1_DIRENTS_PER_ZONE - 1 then
    match fuel with
    | O => None
    | S fuel => raw ← dirent_inode block zpos; if raw =? 0 then next_entry fuel block (zpos + 1) else Some zpos
    end
  else Some zpos.

(** The loop over the zones; the position in the zone is not set back.  The
    buffer, the zone number and the entry, 0 at the end or an error. *)
Fixpoint readdir_zones (fuel : nat) (super : minix_v1_superblock) (c : C) (m : node) (znum zpos : Z) : res (C * node * (Z * Z * Z + Z)) :=
  match fuel with
  | O => Undef
  | S fuel =>
      '(c, m, zone) ← zone_lookup super c m znum MFS_LOOKUP_ZONE;
      if zone =? 0 then Val (c, m, inr 0)
      else
        '(c, buf) ← get_block c zone;
        if buf =? 0 then Val (c, m, inr EIO)
        else
          b ← lift (buf_data c buf);
          zpos ← lift (next_entry (Z.to_nat MINIX_V1_DIRENTS_PER_ZONE) b zpos);
          raw ← lift (dirent_inode b zpos);
          if negb (raw =? 0) then Val (c, m, inl (buf, znum, zpos))
          else '(c, _) ← release_block c buf 0; readdir_zones fuel super c m (u32 (znum + 1)) zpos
  end.

Definition minix_readdir (s : st) (i : nat) : res (st * dirent * Z) :=
  super ← super_of s; '(f, v, m, _) ← open_file s i;
  if negb (S_ISDIR (mode m)) then Val (s, no_dirent, ENOTDIR)
  else
    '(c, m, r) ← readdir_zones max_zones super (store s) m (Z.shiftr (f_position f) MINIX_V1_LOG_DIRENTS_PER_ZONE) (Z.land (f_position f) (MINIX_V1_DIRENTS_PER_ZONE - 1));
    s ← put s c v m;
    match r with
    | inr e => Val (s, no_dirent, e)
    | inl (buf, znum, zpos) =>
        s ← seek_file s i (u32 (Z.lor (u32 (Z.shiftl znum MINIX_V1_LOG_DIRENTS_PER_ZONE)) zpos + 1));
        b ← lift (buf_data (store s) buf); raw ← lift (dirent_inode b zpos);
        name ← lift (strncpy (replicate (Z.to_nat MINIX_V1_MAX_FILENAME) 0) (dirent_name b zpos) (Z.to_nat MINIX_V1_MAX_FILENAME));
        name ← lift (wr name (MINIX_V1_MAX_FILENAME - 1) 0);
        name ← lift (cstr name);
        s ← release_buf s buf BF_DIRTY;
        Val (s, Dirent (le16toh raw) name, 1)
    end.

#[export] Instance minix_ops : FileSystem (mfs C) := {
  op_lookup := minix_lookup; op_create := minix_create; op_mknod := minix_mknod; op_link := minix_link; op_unlink := minix_unlink; op_rename := minix_rename;
  op_truncate := minix_truncate; op_update := minix_update; op_release := minix_release; op_mount := minix_mount; op_unmount := minix_unmount; op_sync := minix_sync;
  op_open := minix_open; op_close := minix_close; op_read := minix_read; op_write := minix_write; op_ioctl := minix_ioctl; op_poll := nop_poll; op_seek := minix_seek; op_readdir := minix_readdir;
}.
End minix.
