(* ===== verification/Minixpath.v ===== *)
(** * Minixpath: paths on a Minix disk

    The tree of the files is what the inodes and the directories of the disk
    say ([minix_tree]).  While nothing is written, the vnodes of the cache are
    the inodes of the disk, one for each; minix_lookup keeps to the laws of file
    systems ([FsLaws]), and so vfs_lookup follows a path through the directories
    of the disk, over the vnode cache, the buffer cache and the driver. *)

From S2P Require Import Prelude Bits Result Iovec Blockstore Cstring Minixmap Minixzone Minixfile Minixrun Minixnode Minixdir Vfs Vfsinv Procfs Minixvfs.

Local Abbreviation node := Minixzone.minix_vnode.

(** The vnode of an inode that is not changed. *)
Definition file_node (r k : Z) (i : minix_v1_inode) : node :=
  Minixzone.Vnode r (le16toh (i_mode i)) (i_nlinks i) (le16toh (i_uid i)) (i_gid i) 0
    (s16 (le16toh (if S_ISDEV (le16toh (i_mode i)) then default 0 (i_zones i !! 0%nat) else 0))) k (le32toh (i_size i)) 0 (s32 (le32toh (i_mtime i))) 0 (i_zones i).

(** A name as the C string that it is. *)
Definition c_name (name : list Z) : list Z := default [] (cstr (name ++ [0])).

Lemma c_name_ok name : cstr (name ++ [0]) = Some (c_name name).
Proof. unfold c_name. induction name as [|c name IH]; [done|]. cbn [app cstr]. destruct (c =? 0); [done|]. destruct (cstr (name ++ [0])); done. Qed.

Section path.
Context (super : minix_v1_superblock) (nb zsize : nat).
Context {C : Type} `{BlockStore C} `{!StoreLaws C 1024 nb} (Hgeo : geometry super nb zsize).
Context (load_superblock : C → Z → res (C * (Z + minix_v1_superblock * Z))) (free_superblock : C → Z → res C) (t : Z).
(** The blocks of the disk, its zone bitmap, the inodes in use and what the directories hold. *)
Context (disk : gmap Z (list Z)) (bitmap : list Z) (files : gset Z) (dirs : gmap Z (gmap (list Z) Z)).
(** The mount. *)
Context (mp : nat).
Local Abbreviation ops := (minix_ops load_superblock free_superblock t).
Local Abbreviation st := (vfs (mfs C)).
Implicit Types s : vfs (mfs C).
Implicit Types refs : fileid → Z.

Definition inode_of_file (k : Z) : minix_v1_inode := default (Inode 0 0 0 0 0 0 []) (inode_on super disk k).

Definition dir_ok (zs : list Z) (M : gmap (list Z) Z) : Prop :=
  zones_ok super disk bitmap zs ∧ ∃ m data, dir_is disk zs m data ∧ dir_maps m data M.

Record disk_ok : Prop := {
  dk_layout : layout super nb zsize disk bitmap;
  dk_file : ∀ k, k ∈ files → ino_ok super nb k ∧ inode_on super disk k = Some (inode_of_file k) ∧ length (i_zones (inode_of_file k)) = 9%nat;
  dk_dir : ∀ k, k ∈ files → S_ISDIR (le16toh (i_mode (inode_of_file k))) = true → ∃ M, dirs !! k = Some M ∧ dir_ok (i_zones (inode_of_file k)) M ∧ map_Forall (λ _ n, n ∈ files) M;
}.
Hypothesis Hdisk : disk_ok.

(** ** The tree *)

Definition minix_child (i : fileid) (name : list Z) : fileid + Z :=
  if MINIX_V1_MAX_FILENAME <? zlen (c_name name) then inr ENAMETOOLONG
  else match (M ← dirs !! i.2; M !! c_name name) with Some k => inl (i.1, k) | None => inr ENOENT end.
Definition minix_tree : tree :=
  Tree (λ i, le16toh (i_mode (inode_of_file i.2))) (λ i, le16toh (i_uid (inode_of_file i.2))) (λ i, i_gid (inode_of_file i.2))
    minix_child (λ _, None) (λ m, m = mp) (λ _, (mp, 1)) (λ _, (mp, 1)).
Local Abbreviation T := minix_tree.

(** ** The vnode cache *)

Definition cached (s : st) (v : Z) : Prop :=
  ∃ n x k, vnodes s !! v = Some n ∧ mf_data (fs_state s) !! v = Some x ∧ v_mp n = Some mp ∧ 0 ≤ v_refcount n ∧ k ∈ files ∧ to_node n x = file_node (v_refcount n) k (inode_of_file k).
Record cache_ok (s : st) : Prop := {
  co_nodup : NoDup (mf_cache (fs_state s));
  co_dom : ∀ v, is_Some (vnodes s !! v) ↔ v ∈ mf_cache (fs_state s);
  co_node : ∀ v, v ∈ mf_cache (fs_state s) → cached s v;
  co_one : ∀ v v' n n', vnodes s !! v = Some n → vnodes s !! v' = Some n' → v_ino n = v_ino n' → v = v';
  co_super : ∃ p, mf_super (fs_state s) = Some (super, p);
  co_count : mf_count (fs_state s) = zlen (mf_cache (fs_state s));
  co_mount : is_Some (mountpoints s !! mp);
}.
(** [held] are the buffers in use. *)
Definition minix_inv (held : list (Z * Z)) (s : st) : Prop :=
  cache_ok s ∧ ∃ own, store_rel (store s) disk held ∅ own ∧ ∀ v, v ∈ mf_cache (fs_state s) → v ∈ own.

#[export] Program Instance minix_invariant (held : list (Z * Z)) : FsInv (mfs C) := {
  fs_num _ _ n := v_ino n;
  fs_inv s _ := minix_inv held s;
  fs_room _ := True;
  fs_halt := store_oom;
}.
Next Obligation. done. Qed.

Lemma to_node_count n x c : to_node (set_refcount n c) x = Minixzone.Vnode c (v_mode n) (v_nlinks n) (v_uid n) (v_gid n) (v_bits n) (v_rdev n) (v_ino n) (v_size n) (nd_atime x) (nd_mtime x) (nd_ctime x) (nd_zones x).
Proof. done. Qed.

(** What the vnode of a file has. *)
Lemma node_fields n x k i r : to_node n x = file_node r k i →
  v_mode n = le16toh (i_mode i) ∧ v_uid n = le16toh (i_uid i) ∧ v_gid n = i_gid i ∧ v_bits n = 0 ∧ v_ino n = k ∧ nd_zones x = i_zones i ∧ (∀ c, to_node (set_refcount n c) x = file_node c k i).
Proof. intros E. unfold to_node, file_node in E. injection E as E1 E2 E3 E4 E5 E6 E7 E8 E9 E10 E11 E12 E13. split_and!; try done. intros c. rewrite to_node_count. unfold file_node. congruence. Qed.

(** A change to the count of a vnode keeps the cache in order. *)
Lemma cache_count s v n c : cache_ok s → vnodes s !! v = Some n → 0 ≤ c → cache_ok (set_vnode s v (set_refcount n c)).
Proof.
  intros [C1 C2 C3 C4 C5 C6 C7] Hv Hc. assert (Hl : ∀ w m, vnodes (set_vnode s v (set_refcount n c)) !! w = Some m → ∃ m', vnodes s !! w = Some m' ∧ v_ino m = v_ino m').
  { intros w m. cbn [vnodes set_vnode set_vnodes]. destruct (decide (w = v)) as [->|Hne]; [rewrite lookup_insert_eq; intros [= <-]; by exists n|rewrite lookup_insert_ne by done; eauto]. }
  split; try done.
  - intros w. rewrite <- C2. cbn [vnodes set_vnode set_vnodes]. destruct (decide (w = v)) as [->|Hne]; [rewrite lookup_insert_eq; by split|by rewrite lookup_insert_ne].
  - intros w Hw. destruct (C3 w Hw) as (m & x & k & Hm & Hx & Hmp & Hr & Hk & E). unfold cached. cbn [vnodes set_vnode set_vnodes fs_state]. destruct (decide (w = v)) as [->|Hne].
    + rewrite lookup_insert_eq. assert (m = n) as -> by congruence. exists (set_refcount n c), x, k. destruct (node_fields _ _ _ _ _ E) as (_ & _ & _ & _ & _ & _ & Ec). by split_and!.
    + rewrite lookup_insert_ne by done. by exists m, x, k.
  - intros w w' m m' Hm Hm' Ei. destruct (Hl w m Hm) as (a & Ha & Ea), (Hl w' m' Hm') as (b & Hb & Eb). eapply C4; [exact Ha|exact Hb|congruence].
Qed.

(** What a vnode in use stands for. *)
Lemma node_at held s refs v i : vfs_rel (H := minix_invariant held) T s refs → at_file (H := minix_invariant held) s v i →
  ∃ n x, vnodes s !! v = Some n ∧ mf_data (fs_state s) !! v = Some x ∧ v_mp n = Some mp ∧ 0 < v_refcount n ∧ i = (mp, v_ino n) ∧ v_ino n ∈ files ∧ to_node n x = file_node (v_refcount n) (v_ino n) (inode_of_file (v_ino n)).
Proof.
  intros Hr (n & [Hv Hc] & Hi). destruct (vr_fs _ _ _ Hr) as [HC _]. destruct (co_node _ HC v) as (n' & x & k & Hn & Hx & Hm & _ & Hk & E); [apply (co_dom _ HC); by eexists|]. assert (n' = n) as -> by congruence.
  destruct (node_fields _ _ _ _ _ E) as (_ & _ & _ & _ & <- & _). exists n, x. split_and!; try done. unfold ident in Hi. rewrite Hm in Hi. cbn in Hi. congruence.
Qed.

#[export] Instance minix_refs held : FsRefs (mfs C) (H := ops) (H0 := minix_invariant held) T.
Proof.
  split.
  - done.
  - done.
  - intros s refs v n i d Hr [Hv Hc] Hi Hd. destruct (vr_fs _ _ _ Hr) as [HC Hown]. split; [apply cache_count; [done|done|lia]|exact Hown].
  - intros s refs v n i Hr Hl Hi H1. destruct (vr_fs _ _ _ Hr) as [HC Hown]. destruct (node_at held s refs v i Hr ltac:(by exists n)) as (n' & x & Hn & Hx & Hm & _ & _ & Hk & E). assert (n' = n) as -> by (destruct Hl; congruence).
    destruct (node_fields _ _ _ _ _ E) as (_ & _ & _ & Hb & _ & _ & Ec). cbn [op_release minix_ops]. unfold minix_release, get_node. cbn [vnodes set_vnode set_vnodes fs_state]. rewrite lookup_insert_eq. res_simpl. rewrite Hx. res_simpl. rewrite Ec.
    destruct (dk_file Hdisk (v_ino n) Hk) as [[Hino _] _]. unfold is_dirty. cbn [ino bits file_node]. replace (v_ino n =? 0) with false by lia. cbn [Z.land Z.eqb negb wp].
    apply (last_rel (H := minix_invariant held)); try done. split; [apply cache_count; [done|apply Hl|lia]|exact Hown].
Qed.

Local Abbreviation rel held := (vfs_rel (H := minix_invariant held) T).
Local Abbreviation at_node := (at_file (H := minix_invariant [])).
Local Abbreviation frames := (frame (H := minix_invariant [])).

(** ** The buffers change, the vnodes do not *)

Lemma rel_open held s refs : rel held s refs → ∃ own, store_rel (store s) disk held ∅ own ∧ (∀ v, v ∈ mf_cache (fs_state s) → v ∈ own) ∧
  ∀ c' held', store_rel c' disk held' ∅ own → rel held' (set_store s c') refs.
Proof.
  intros [R1 R2 R3 R4 [HC (own & Hs & Ho)]]. exists own. split; [done|]. split; [done|]. intros c' held' Hs'. split; [exact R1|exact R2|exact R3|exact R4|].
  split; [by destruct HC|]. by exists own.
Qed.

Lemma put_same s c v n x : vnodes s !! v = Some n → mf_data (fs_state s) !! v = Some x → put s c v (to_node n x) = Val (set_store s c).
Proof.
  intros Hn Hx. unfold put, put_node. cbn [vnodes set_store set_mfs set_fs]. rewrite Hn. res_simpl. f_equal. unfold set_data, set_vnode, set_vnodes, set_store, set_mfs, set_fs. cbn [vnodes fs_state mf_data mf_store mf_super mf_cache mf_count mountpoints root_fs file_table].
  assert (of_node (v_mp n) (to_node n x) = n) as -> by (by destruct n). assert (data_of (to_node n x) = x) as -> by (by destruct x). by rewrite !insert_id.
Qed.

Lemma find_named_ok s refs v i name : rel [] s refs → at_node s v i → S_ISDIR (t_mode T i) = true →
  wp (find_entry s v name) store_oom (λ '(s', r),
    ∃ c', s' = set_store s c' ∧
    match (M ← dirs !! i.2; M !! c_name name) with
    | None => r = None ∧ rel [] s' refs
    | Some k => k ∈ files ∧ ∃ buf zone e b raw, r = Some (buf, e) ∧ rel [(buf, zone)] s' refs ∧ buf_data c' buf = Some b ∧ dirent_inode b e = Some raw ∧ le16toh raw = k
    end).
Proof.
  intros Hr Hv Hdir. destruct (node_at [] s refs v i Hr Hv) as (n & x & Hn & Hx & Hm & Hc & -> & Hk & E). destruct (vr_fs _ _ _ Hr) as [HC _].
  cbn [t_mode minix_tree snd] in Hdir. destruct (dk_dir Hdisk _ Hk Hdir) as (M & HM & (Hzo & m & data & Hd & Hmaps) & Hin). destruct (rel_open [] s refs Hr) as (own & Hs & _ & Hopen).
  destruct (node_fields _ _ _ _ _ E) as (_ & _ & _ & _ & _ & Hz & _). assert (Hzs : zones (to_node n x) = i_zones (inode_of_file (v_ino n))) by exact Hz. rewrite <- Hzs in Hzo, Hd.
  unfold find_entry, super_of, get_node. destruct (co_super _ HC) as [p ->]. res_simpl. rewrite Hn. res_simpl. rewrite Hx. res_simpl. cbn [fst snd]. rewrite HM. cbn [mbind option_bind].
  pose proof (c_name_ok name) as Hnm.
  eapply wp_call; [eapply (dir_find_name_ok super nb zsize Hgeo (store s) disk bitmap (to_node n x) [] ∅ own m data (name ++ [0]) (c_name name) M); try done; [exact (dk_layout Hdisk)|..]|].
  intros [[c' m'] r] (-> & Hres). rewrite (put_same s c' v n x Hn Hx). res_simpl. cbn [wp]. exists c'. split; [done|]. destruct (M !! c_name name) as [k|] eqn:Ek.
  - split; [exact (Hin _ _ Ek)|]. destruct Hres as (ki & buf & Hki & Edent & _ & _ & -> & Hs').
    destruct (dir_entry_raw super nb zsize Hgeo c' disk bitmap (to_node n x) [] ∅ own m data ki buf k Hs' (dk_layout Hdisk) Hzo Hd Hki ltac:(by rewrite Edent)) as (b & raw & Hb & Hraw & Hle).
    eexists buf, _, _, b, raw. split; [done|]. split; [apply Hopen; exact Hs'|]. done.
  - destruct Hres as [-> Hs']. split; [done|]. by apply Hopen.
Qed.

(** ** The cache has room *)

Lemma node_ino s v : cache_ok s → v ∈ mf_cache (fs_state s) → ∃ n, vnodes s !! v = Some n ∧ v_ino n ∈ files ∧ v_mp n = Some mp ∧ 0 ≤ v_refcount n.
Proof. intros HC Hv. destruct (co_node _ HC v Hv) as (n & x & k & Hn & _ & Hm & Hr & Hk & E). destruct (node_fields _ _ _ _ _ E) as (_ & _ & _ & _ & Hi & _). exists n. by rewrite Hi. Qed.

Lemma cache_small s : cache_ok s → zlen (mf_cache (fs_state s)) < 65536.
Proof.
  intros HC. set (g := λ v, default 0 (v_ino <$> vnodes s !! v)).
  assert (Hsub : (g <$> mf_cache (fs_state s)) ⊆+ seqZ 1 65535).
  { apply NoDup_submseteq.
    - apply NoDup_fmap_2_strong; [|apply (co_nodup _ HC)]. intros a b Ha Hb E. destruct (node_ino s a HC Ha) as (na & Hna & _), (node_ino s b HC Hb) as (nb' & Hnb & _). unfold g in E. rewrite Hna, Hnb in E. by eapply (co_one _ HC).
    - intros k (v & -> & Hv)%list_elem_of_fmap. destruct (node_ino s v HC Hv) as (n & Hn & Hk & _). unfold g. rewrite Hn. cbn [fmap option_fmap option_map default]. unfold id. destruct (dk_file Hdisk _ Hk) as [[Hr _] _]. apply elem_of_seqZ. lia. }
  apply submseteq_length in Hsub. rewrite length_fmap, length_seqZ in Hsub. lia.
Qed.

(** ** A vnode of the cache *)

Lemma cache_perm s l : cache_ok s → l ≡ₚ mf_cache (fs_state s) → cache_ok (set_cache s l).
Proof.
  intros [C1 C2 C3 C4 C5 C6 C7] Hp. split; try done.
  - cbn. by rewrite Hp.
  - intros v. cbn. rewrite Hp. apply C2.
  - intros v Hv. cbn in Hv. rewrite Hp in Hv. exact (C3 v Hv).
  - cbn. by rewrite Hp.
Qed.

Lemma front_perm v l : NoDup l → v ∈ l → v :: queue_remove v l ≡ₚ l.
Proof.
  intros Hnd Hv. apply NoDup_Permutation; [|done|].
  - constructor; [unfold queue_remove; rewrite list_elem_of_filter; by intros [? _]|by apply NoDup_filter].
  - intros w. unfold queue_remove. rewrite elem_of_cons, list_elem_of_filter. destruct (decide (w = v)) as [->|]; naive_solver.
Qed.

Lemma mount_dev_ok s : cache_ok s → ∃ dev, mount_dev s mp = Val dev.
Proof. intros HC. destruct (co_mount _ HC) as [m Hm]. unfold mount_dev. rewrite Hm. res_simpl. by eexists. Qed.

Lemma find_cached_ok s dev k l : cache_ok s → mount_dev s mp = Val dev → l ⊆ mf_cache (fs_state s) →
  ∃ r, find_cached s dev k l = Val r ∧
    match r with
    | Some v => v ∈ l ∧ ∃ n, vnodes s !! v = Some n ∧ v_ino n = k
    | None => ∀ v n, v ∈ l → vnodes s !! v = Some n → v_ino n ≠ k
    end.
Proof.
  intros HC Hdev. induction l as [|v l IH]; intros Hl; [exists None; split; [done|]; intros v n Hv; by apply elem_of_nil in Hv|].
  destruct (node_ino s v HC (Hl v ltac:(by left))) as (n & Hn & _ & Hm & _). cbn [find_cached]. rewrite Hn. res_simpl. rewrite Hm. res_simpl. rewrite Hdev. res_simpl. rewrite Z.eqb_refl. cbn [andb]. destruct (Z.eqb_spec (v_ino n) k) as [E|E].
  - exists (Some v). split; [done|]. split; [by left|]. by exists n.
  - destruct IH as (r & -> & Hr); [intros w Hw; apply Hl; by right|]. exists r. split; [done|]. destruct r as [w|].
    + destruct Hr as [Hw Hr]. split; [by right|done].
    + intros w m [->|Hw]%elem_of_cons Hm'; [congruence|by apply (Hr w)].
Qed.

(** The cache in another order. *)
Lemma reorder_rel held s refs l : rel held s refs → l ≡ₚ mf_cache (fs_state s) → rel held (set_cache s l) refs.
Proof.
  intros [R1 R2 R3 R4 [HC (own & Hs & Ho)]] Hp. split; [exact R1|exact R2|exact R3|exact R4|]. split; [by apply cache_perm|]. exists own. split; [exact Hs|]. intros v. cbn. rewrite Hp. apply Ho.
Qed.

(** A vnode stays when it is used again. *)
Lemma file_at s v n k : vnodes s !! v = Some n → v_mp n = Some mp → v_ino n = k → ident (H := minix_invariant []) s v n = Some (mp, k).
Proof. intros Hn Hm <-. unfold ident. by rewrite Hm. Qed.

Lemma node_ok_file n x k : v_mp n = Some mp → to_node n x = file_node (v_refcount n) k (inode_of_file k) → node_ok T (mp, k) n.
Proof. intros Hm E. destruct (node_fields _ _ _ _ _ E) as (E1 & E2 & E3 & E4 & _). unfold node_ok. rewrite E4. by split_and!. Qed.

Lemma no_refs held s refs v n k : rel held s refs → vnodes s !! v = Some n → v_mp n = Some mp → v_ino n = k → v_refcount n <= 0 → refs (mp, k) = 0.
Proof.
  intros Hr Hn Hm Hk Hc. pose proof (vr_range _ _ _ Hr (mp, k)) as Hrg. destruct (Z.eq_dec (refs (mp, k)) 0) as [|Hnz]; [done|]. exfalso.
  destruct (vr_refs _ _ _ Hr (mp, k) ltac:(lia)) as [w Hw]. destruct (node_at held s refs w _ Hr Hw) as (m & x & Hmw & _ & _ & Hcm & Ei & _). injection Ei as Ei.
  destruct (vr_fs _ _ _ Hr) as [HC _]. assert (w = v) as -> by (eapply (co_one _ HC); [exact Hmw|exact Hn|congruence]). assert (m = n) as -> by congruence. lia.
Qed.

Lemma use_cached held s refs v n k : rel held s refs → vnodes s !! v = Some n → v_ino n = k → (∀ i, refs i < 2 ^ 31 - 1) →
  ∃ s', vfs_clone_vnode s v = Val s' ∧ fs_state s' = fs_state s ∧ rel held s' (add_refs refs (mp, k) 1) ∧ at_node s' v (mp, k) ∧ frames s s' (add_refs refs (mp, k) 1).
Proof.
  intros Hr Hn Hk Hb. pose proof (vr_fs _ _ _ Hr) as [HC Hown]. destruct (co_node _ HC v) as (n' & x & k' & Hn' & Hx & Hm & Hc & Hk' & E); [apply (co_dom _ HC); by eexists|]. assert (n' = n) as -> by congruence.
  destruct (node_fields _ _ _ _ _ E) as (_ & _ & _ & _ & Ei & _ & Ec). assert (k' = k) as -> by congruence.
  destruct (Z.eq_dec (v_refcount n) 0) as [Hz|Hnz].
  - unfold vfs_clone_vnode. rewrite Hn. res_simpl. rewrite Hz. change (s32 (0 + 1)) with 1. eexists. split; [done|]. split; [done|]. set (s' := set_vnode s v (set_refcount n 1)).
    destruct (first_rel (H := minix_invariant held) (T := T) s s' refs v (set_refcount n 1) (mp, k) Hr) as (Hr' & Hv' & Hold); try done.
    + by eapply no_refs; [exact Hr|exact Hn|exact Hm|exact Hk|lia].
    + intros m [Hm' Hmc]. assert (m = n) as -> by congruence. lia.
    + split; [apply lookup_insert_eq|done].
    + by apply file_at; [apply lookup_insert_eq|..].
    + apply (node_ok_file _ x); [done|]. apply Ec.
    + intros w m Hw. unfold live, s'. cbn [vnodes set_vnode set_vnodes]. by rewrite lookup_insert_ne.
    + split; [by apply cache_count|exact Hown].
    + split; [exact Hr'|]. split; [exact Hv'|]. split_and!; try done. intros w i Hw _. by apply Hold.
  - destruct (clone_ref_ok (H := ops) (FsInv0 := minix_invariant held) s refs v (mp, k) Hr) as (s' & Es & Hr' & Hf & Hv'); [exists n; split; [split; [done|lia]|]; by apply file_at|apply Hb|].
    exists s'. split; [done|]. split; [|by split_and!]. unfold vfs_clone_vnode in Es. rewrite Hn in Es. by injection Es as <-.
Qed.

(** ** Vnodes that nobody refers to are dropped *)

Definition shrinks s s' : Prop :=
  mountpoints s' = mountpoints s ∧ root_fs s' = root_fs s ∧ file_table s' = file_table s ∧
  (∀ w n, vnodes s' !! w = Some n → vnodes s !! w = Some n) ∧ (∀ w n, live s w n → live s' w n).

Lemma shrinks_refl s : shrinks s s.
Proof. by split_and!. Qed.

Lemma shrinks_trans s s1 s2 : shrinks s s1 → shrinks s1 s2 → shrinks s s2.
Proof. intros (A1 & A2 & A3 & A4 & A5) (B1 & B2 & B3 & B4 & B5). split_and!; [congruence..| |]; eauto. Qed.

Lemma shrinks_live s s' w n : shrinks s s' → live s' w n ↔ live s w n.
Proof. intros (_ & _ & _ & H4 & H5). split; [intros [Hw Hc]; split; [by apply H4|done]|apply H5]. Qed.

Lemma evict_ok held s refs v n : rel held s refs → vnodes s !! v = Some n → v_refcount n <= 0 →
  wp (release_vnode s v) store_oom (λ '(s', _), rel held s' refs ∧ shrinks s s' ∧ length (mf_cache (fs_state s)) = S (length (mf_cache (fs_state s')))).
Proof.
  intros Hr Hn Hc. pose proof (vr_fs _ _ _ Hr) as [HC (own & Hs & Ho)]. assert (Hv : v ∈ mf_cache (fs_state s)) by (apply (co_dom _ HC); by eexists). pose proof (cache_small s HC) as Hsmall.
  destruct (co_node _ HC v Hv) as (n' & x & k & Hn' & Hx & Hm & _ & Hk & E). assert (n' = n) as -> by congruence. destruct (node_fields _ _ _ _ _ E) as (_ & _ & _ & Hb & Hi & _).
  assert (Hp : mf_cache (fs_state s) ≡ₚ v :: queue_remove v (mf_cache (fs_state s))) by (symmetry; by apply front_perm; [apply (co_nodup _ HC)|]).
  unfold release_vnode, get_node. rewrite Hn. res_simpl. rewrite Hx. res_simpl. unfold is_dirty. cbn [bits to_node]. rewrite Hb. cbn [Z.land Z.eqb negb]. rewrite andb_false_r. res_simpl. unfold free_vnode. cbn [store set_cache set_mfs set_fs fs_state mf_store].
  apply wp_bind, wp_bind. eapply wp_mono; [exact (kmfree_law _ _ _ _ _ v Hs (Ho v Hv))|done|]. intros c' Hs'. cbn [wp]. set (s' := set_count _ _).
  assert (Hvs : vnodes s' = delete v (vnodes s)) by done. assert (Hlen : length (mf_cache (fs_state s)) = S (length (mf_cache (fs_state s')))) by (apply Permutation_length in Hp; exact Hp).
  assert (Hsh : shrinks s s').
  { split_and!; try done; rewrite ?Hvs; [by intros w m [_ ?]%lookup_delete_Some|]. intros w m [Hw Hcm]. split; [|done]. rewrite Hvs, lookup_delete_ne; [done|]. intros ->. assert (m = n) as -> by congruence. lia. }
  assert (Hin : ∀ w, w ∈ mf_cache (fs_state s') ↔ w ≠ v ∧ w ∈ mf_cache (fs_state s)) by (intros w; exact (list_elem_of_filter _ _ _)).
  split; [|by split]. apply (same_rel (H := minix_invariant held) (T := T) s s' refs Hr); [intros; by apply shrinks_live|done|]. pose proof HC as [C1 C2 C3 C4 C5 C6 C7]. split.
  - split.
    + by apply NoDup_filter.
    + intros w. rewrite Hin, Hvs, <- C2. destruct (decide (w = v)) as [->|Hne]; [rewrite lookup_delete_eq; split; [by intros [? ?]|by intros [? _]]|rewrite lookup_delete_ne by done; by split; [|intros [_ ?]]].
    + intros w [Hne Hw]%Hin. destruct (C3 w Hw) as (m & y & kw & Hmw & Hy & Hw'). exists m, y, kw. rewrite Hvs, lookup_delete_ne by done. split; [done|]. split; [|done]. cbn [fs_state s' set_count set_mfs set_fs set_data mf_data]. by rewrite lookup_delete_ne.
    + intros w w' m m' Hm' Hm'' Ei. rewrite Hvs in Hm', Hm''. apply lookup_delete_Some in Hm' as [_ Hm']. apply lookup_delete_Some in Hm'' as [_ Hm'']. by eapply C4.
    + exact C5.
    + cbn [fs_state s' set_count set_mfs set_fs set_data mf_count mf_cache] in *. cbn [set_store set_cache set_vnodes fs_state set_mfs set_fs mf_count mf_cache] in *. rewrite C6. rewrite s32_small by lia. lia.
    + exact C7.
  - exists (own ∖ {[v]}). split; [exact Hs'|]. intros w [Hne Hw]%Hin. apply elem_of_difference. split; [by apply Ho|]. by rewrite elem_of_singleton.
Qed.

Lemma last_free_ok s l : (∀ v, v ∈ l → is_Some (vnodes s !! v)) →
  ∃ r, last_unused s l = Val r ∧ match r with Some v => ∃ n, vnodes s !! v = Some n ∧ v_refcount n <= 0 | None => True end.
Proof.
  induction l as [|v l IH]; intros Hl; [by exists None|]. destruct (Hl v ltac:(by left)) as [n Hn]. cbn [last_unused]. rewrite Hn. res_simpl. destruct (Z.ltb_spec 0 (v_refcount n)); [|exists (Some v); eauto].
  apply IH. intros w Hw. apply Hl. by right.
Qed.

Lemma release_unused_ok held s refs fuel : rel held s refs → (length (mf_cache (fs_state s)) < fuel)%nat →
  wp (release_unused fuel s) store_oom (λ s', rel held s' refs ∧ shrinks s s').
Proof.
  revert s. induction fuel as [|fuel IH]; intros s Hr Hf; [lia|]. cbn [release_unused]. destruct (MAX_VNODES <=? _); [|by split; [|apply shrinks_refl]].
  pose proof (vr_fs _ _ _ Hr) as [HC _]. destruct (last_free_ok s (rev (mf_cache (fs_state s)))) as (r & -> & Hcase); [intros v Hv; apply (co_dom _ HC); by rewrite (Permutation_rev (mf_cache (fs_state s)))|]. res_simpl.
  destruct r as [v|]; [|by split; [|apply shrinks_refl]]. destruct Hcase as (n & Hn & Hc). wp_step evict_ok; [done..|]. intros [s1 e] (Hr1 & Hs1 & Hl1). eapply wp_mono; [apply (IH s1 Hr1); lia|done|]. intros s2 [Hr2 Hs2]. split; [done|]. by eapply shrinks_trans.
Qed.

(** ** A vnode that is not in the cache is read from the disk *)

Lemma load_ok held s refs k : rel held s refs → (∀ v n, vnodes s !! v = Some n → v_ino n ≠ k) → k ∈ files → zlen held < 90 →
  wp (load_vnode s mp k) store_oom (λ '(s', r), ∃ v, r = Some v ∧ rel held s' (add_refs refs (mp, k) 1) ∧ at_node s' v (mp, k) ∧ frames s s' (add_refs refs (mp, k) 1)).
Proof.
  intros Hr0 Hnew0 Hk Hh. unfold load_vnode, release_unused_vnodes. eapply wp_call; [apply (release_unused_ok held s refs _ Hr0); lia|]. intros s1 [Hr Hsh].
  assert (Hnew : ∀ v n, vnodes s1 !! v = Some n → v_ino n ≠ k) by (intros v n Hv; apply (Hnew0 v), Hsh, Hv). pose proof (vr_fs _ _ _ Hr) as [HC (own & Hs & Ho)]. pose proof HC as [C1 C2 C3 C4 C5 C6 C7]. pose proof (cache_small s1 HC) as Hsmall.
  destruct C5 as [sp C5]. unfold super_of. rewrite C5. res_simpl. eapply wp_call; [apply (kmalloc_law (store s1) disk held ∅ own SIZEOF_MINIX_VNODE Hs); unfold SIZEOF_MINIX_VNODE; lia|]. intros [c1 v] (Hpos & Hfresh & Hs1). replace (v =? 0) with false by lia.
  assert (Hvc : v ∉ mf_cache (fs_state s1)) by (intros Hv; by apply Hfresh, Ho). assert (Hvn : vnodes s1 !! v = None) by (apply eq_None_not_Some; intros Hv%C2; done).
  destruct (dk_file Hdisk k Hk) as (Hino & Hion & Hzl). cbn [fst]. unfold get_node at 1. cbn [vnodes set_data set_mfs set_fs set_vnode set_vnodes fs_state mf_data]. rewrite lookup_insert_eq. res_simpl. rewrite lookup_insert_eq. res_simpl.
  cbn [store set_data set_mfs set_fs set_vnode set_vnodes fs_state mf_store set_cache set_store].
  eapply wp_call; [eapply (read_inode_ok super nb c1 disk _ held ∅ _ k (inode_of_file k) Hs1); [lia|exact Hino|apply not_elem_of_empty|exact Hion|exact Hzl]|]. intros [[c2 m] e] (-> & -> & Hs2).
  unfold put, put_node. cbn [vnodes set_store set_data set_mfs set_fs set_vnode set_vnodes]. rewrite lookup_insert_eq. res_simpl. cbn [Z.eqb negb wp]. eexists. split; [done|].
  set (s2 := set_count _ _). set (fresh := of_node _ _) in s2.
  assert (Hvv : vnodes s2 !! v = Some fresh) by apply lookup_insert_eq. assert (Hvw : ∀ w, w ≠ v → vnodes s2 !! w = vnodes s1 !! w) by (intros w Hw; unfold s2; cbn [vnodes set_count set_mfs set_fs set_data set_vnode set_vnodes set_store set_cache]; by rewrite !lookup_insert_ne).
  set (x := data_of (node_of (to_node (vfs_init_vnode (Some mp) 0 1 0 0 0 k 0) (NodeData 0 0 0 (replicate (Z.to_nat MINIX_V1_INODE_ZONENUMS) 0))) (inode_of_file k))).
  assert (Hdv : mf_data (fs_state s2) !! v = Some x) by apply lookup_insert_eq. assert (Hdw : ∀ w, w ≠ v → mf_data (fs_state s2) !! w = mf_data (fs_state s1) !! w) by (intros w Hw; unfold s2; cbn [fs_state mf_data set_count set_mfs set_fs set_data set_vnode set_vnodes set_store set_cache]; by rewrite !lookup_insert_ne).
  assert (Hcache : mf_cache (fs_state s2) = v :: mf_cache (fs_state s1)) by done. assert (Hcount : mf_count (fs_state s2) = s32 (mf_count (fs_state s1) + 1)) by done.
  assert (Enode : to_node fresh x = file_node (v_refcount fresh) k (inode_of_file k)) by done. assert (Hmp : v_mp fresh = Some mp ∧ v_refcount fresh = 1) by done.
  assert (Hrest : store s2 = c2 ∧ mf_super (fs_state s2) = mf_super (fs_state s1) ∧ mountpoints s2 = mountpoints s1 ∧ root_fs s2 = root_fs s1 ∧ file_table s2 = file_table s1) by done. clearbody x fresh s2.
  destruct Hmp as [Hmp Hc1], Hrest as (Est & Esup & Emt & Ert & Eft). destruct (node_fields _ _ _ _ _ Enode) as (_ & _ & _ & _ & Hik & _).
  assert (Hzero : refs (mp, k) = 0). { pose proof (vr_range _ _ _ Hr (mp, k)). destruct (Z.eq_dec (refs (mp, k)) 0) as [|Hnz]; [done|]. exfalso. destruct (vr_refs _ _ _ Hr (mp, k) ltac:(lia)) as [w Hw]. destruct (node_at held s1 refs w _ Hr Hw) as (m & y & Hmw & _ & _ & _ & Ei & _). injection Ei as Ei. by apply (Hnew w m Hmw). }
  destruct (first_rel (H := minix_invariant held) (T := T) s1 s2 refs v fresh (mp, k) Hr Hzero) as (Hr2 & Hv2 & Hold); try done.
  - intros m [Hm _]. congruence.
  - split; [done|lia].
  - by apply file_at.
  - by apply (node_ok_file _ x).
  - intros w m Hw. unfold live. by rewrite Hvw.
  - split.
    + split.
      * rewrite Hcache. by constructor.
      * intros w. rewrite Hcache, elem_of_cons. destruct (decide (w = v)) as [->|Hne]; [rewrite Hvv; split; [by left|done]|rewrite Hvw, C2 by done; naive_solver].
      * intros w. rewrite Hcache, elem_of_cons. intros Hw. destruct (decide (w = v)) as [->|Hne]; [exists fresh, x, k; split_and!; try done; lia|]. destruct Hw as [?|Hw]; [done|]. destruct (C3 w Hw) as (m & y & kw & Hm & Hy & Hw'). exists m, y, kw. by rewrite Hvw, Hdw.
      * intros w w' m m' Hm Hm' Ei. destruct (decide (w = v)) as [->|Hne], (decide (w' = v)) as [->|Hne']; [done| | |rewrite Hvw in Hm, Hm' by done; by eapply C4]; exfalso.
        -- rewrite Hvw in Hm' by done. apply (Hnew w' m' Hm'). congruence.
        -- rewrite Hvw in Hm by done. apply (Hnew w m Hm). congruence.
      * exists sp. by rewrite Esup.
      * rewrite Hcount, Hcache, C6. simpl length. rewrite s32_small by lia. lia.
      * by rewrite Emt.
    + exists ({[v]} ∪ own). rewrite Est. split; [done|]. intros w. rewrite Hcache, elem_of_cons, elem_of_union, elem_of_singleton. intros [->|Hw]; [by left|right; by apply Ho].
  - split; [exact Hr2|]. split; [exact Hv2|]. destruct Hsh as (A1 & A2 & A3 & _ & A5). split_and!; [congruence..|]. intros w i (m & Hl & Hi) _. apply Hold. exists m. split; [by apply A5|exact Hi].
Qed.

Lemma get_vnode_ok held s refs k : rel held s refs → k ∈ files → zlen held < 90 → (∀ i, refs i < 2 ^ 31 - 1) →
  wp (get_vnode s mp k) store_oom (λ '(s', r), ∃ v, r = Some v ∧ rel held s' (add_refs refs (mp, k) 1) ∧ at_node s' v (mp, k) ∧ frames s s' (add_refs refs (mp, k) 1)).
Proof.
  intros Hr Hk Hh Hb. pose proof (vr_fs _ _ _ Hr) as [HC _]. unfold get_vnode. destruct (mount_dev_ok s HC) as [dev Hdev]. rewrite Hdev. res_simpl.
  destruct (find_cached_ok s dev k (mf_cache (fs_state s)) HC Hdev ltac:(done)) as (r & -> & Hcase). res_simpl. destruct r as [v|].
  - destruct Hcase as (Hv & n & Hn & Hi). destruct (use_cached held s refs v n k Hr Hn Hi Hb) as (s1 & -> & Efs & Hr1 & Hv1 & Hf1). res_simpl. cbn [wp]. exists v. split; [done|].
    split; [|by split]. apply reorder_rel; [exact Hr1|]. rewrite Efs. apply front_perm; [apply (co_nodup _ HC)|exact Hv].
  - apply load_ok; try done. intros v n Hn. apply (Hcase v n); [|done]. apply (co_dom _ HC). by eexists.
Qed.

(** ** The law of lookup *)

(** A vnode that was not changed stays in the cache when it is released. *)
Lemma drop_ok held s refs v i : rel held s refs → at_node s v i →
  ∃ s', minix_drop s (Some v) = Val s' ∧ fs_state s' = fs_state s ∧ (∃ n, vnodes s' !! v = Some n ∧ v_mp n = Some mp) ∧ rel held s' (add_refs refs i (-1)) ∧ frames s s' (add_refs refs i (-1)).
Proof.
  intros Hr Hv. pose proof (release_ok (H := ops) (FsInv0 := minix_invariant held) s refs v i Hr Hv) as Hrel. destruct (node_at held s refs v i Hr Hv) as (n & x & Hn & Hx & Hm & Hc & -> & Hk & E).
  destruct (node_fields _ _ _ _ _ E) as (_ & _ & _ & Hb & _ & _ & Ec). destruct (dk_file Hdisk _ Hk) as [[Hino _] _]. pose proof (vr_live _ _ _ Hr v n (conj Hn Hc)) as (j & _ & Ecount & _). pose proof (vr_range _ _ _ Hr j).
  assert (Edrop : minix_drop s (Some v) = Val (set_vnode s v (set_refcount n (v_refcount n - 1)))).
  { unfold minix_drop, release_vnode_with. rewrite Hn. res_simpl. rewrite s32_small by lia. replace (v_refcount n - 1 <? 0) with false by lia. destruct (Z.eqb_spec (v_refcount n - 1) 0) as [Ez|]; [|done].
    unfold minix_release, get_node. cbn [vnodes set_vnode set_vnodes fs_state]. rewrite lookup_insert_eq. res_simpl. rewrite Hx. res_simpl. rewrite Ec. cbn [ino file_node]. replace (v_ino n =? 0) with false by lia. done. }
  change (release s (Some v)) with (minix_drop s (Some v)) in Hrel. rewrite Edrop in *. cbn [wp] in Hrel. eexists. split; [done|]. split; [done|]. split; [|exact Hrel]. eexists. split; [apply lookup_insert_eq|done].
Qed.

#[export] Instance minix_laws : FsLaws (mfs C) (H := ops) (H0 := minix_invariant []) T.
Proof.
  split; [exact (minix_refs [])|]. intros s refs v i name Hr Hv Hdir _ Hb. cbn [op_lookup minix_ops t_child minix_tree fs_halt minix_invariant]. unfold minix_lookup, too_long, minix_child.
  destruct (strlen_ok (name ++ [0]) (c_name name) 0 (c_name_ok name) ltac:(lia)) as [-> _]. res_simpl. destruct (MINIX_V1_MAX_FILENAME <? zlen (c_name name)); [cbn [wp]; by split_and!|].
  wp_step find_named_ok; [done..|]. intros [s1 r] (c' & -> & Hcase). assert (Hf1 : ∀ refs', frames s (set_store s c') refs') by (intros; by split_and!). destruct (M ← dirs !! i.2; M !! c_name name) as [k|].
  - destruct Hcase as (Hk & buf & zone & e & b & raw & -> & Hr1 & Hbuf & Hraw & Hle). destruct (drop_ok _ (set_store s c') refs v i Hr1 Hv) as (s2 & -> & Efs & (n & Hn & Hm) & Hr2 & Hf2). res_simpl.
    rewrite Hn. res_simpl. rewrite Hm. res_simpl. unfold store at 1. rewrite Efs. change (mf_store (fs_state (set_store s c'))) with c'. rewrite Hbuf. res_simpl. rewrite Hraw. res_simpl. rewrite Hle.
    wp_step get_vnode_ok; [exact Hr2|exact Hk|simpl; lia|exact Hb|]. intros [s3 r] (w & -> & Hr3 & Hw & Hf3). unfold release_buf. destruct (rel_open _ _ _ Hr3) as (own & Hs3 & _ & Hopen). apply wp_bind.
    eapply wp_release; [exact Hs3|simpl; lia|apply not_elem_of_empty|]. intros c4 _ Hs4. cbn [wp]. split; [done|]. exists w. split; [done|].
    assert (Ei : i.1 = mp) by (destruct (node_at [] s refs v i Hr Hv) as (? & ? & _ & _ & _ & _ & -> & _); done). rewrite Ei. split; [exact Hw|]. split; [apply Hopen; exact Hs4|].
    eapply (frame_trans (FsInv0 := minix_invariant [])); [exact (Hf1 _)|]. eapply (frame_trans (FsInv0 := minix_invariant [])); [exact Hf2|]. eapply (frame_weaken (FsInv0 := minix_invariant [])); [|exact Hf3]. intros y Hy. unfold add_refs in *. repeat case_decide; lia.
  - destruct Hcase as [-> Hr1]. cbn [wp]. by split_and!.
Qed.

(** ** Paths *)

(** The file that names lead to, from the directory with inode number [k]. *)
Fixpoint follow (uid : Z) (names : list (list Z)) (k : Z) : Z + Z :=
  match names with
  | [] => inl k
  | name :: names =>
      let i := inode_of_file k in
      if negb (S_ISDIR (le16toh (i_mode i))) then inr ENOTDIR
      else if negb (verify_mode_access uid R_OK (le16toh (i_uid i)) (i_gid i) (le16toh (i_mode i))) then inr EPERM
      else if MINIX_V1_MAX_FILENAME <? zlen name then inr ENAMETOOLONG
      else match (M ← dirs !! k; M !! name) with Some k => follow uid names k | None => inr ENOENT end
  end.

Lemma c_name_id name : 0 ∉ name → c_name name = name.
Proof.
  unfold c_name. induction name as [|c name IH]; [done|]. intros [Hc Hn]%not_elem_of_cons. specialize (IH Hn). cbn [app cstr]. replace (c =? 0) with false by lia.
  destruct (cstr (name ++ [0])) eqn:E; [|by rewrite c_name_ok in E]. cbn in *. congruence.
Qed.

Lemma walk_follow uid names k : Forall (λ name, 0 ∉ name) names →
  walk T uid false names (mp, k) = match follow uid names k with inl j => inl (mp, j) | inr e => inr e end.
Proof.
  intros Hn. revert k. induction Hn as [|name names Hname Hn IH]; intros k; [done|]. cbn [walk follow andb resolve t_over t_mode t_uid t_gid t_child minix_tree fst snd].
  destruct (negb (S_ISDIR _)); [done|]. destruct (negb (verify_mode_access _ _ _ _ _)); [done|].
  assert (Hl : leave T (mp, k) name = (mp, k)) by (unfold leave; cbn [t_root t_under minix_tree fst]; case_bool_decide as E; [|done]; rewrite E; by destruct (bool_decide _)).
  rewrite Hl. unfold minix_child. cbn [fst snd]. rewrite c_name_id by done. destruct (MINIX_V1_MAX_FILENAME <? zlen name); [done|]. destruct (M ← dirs !! k; M !! name) as [j|]; [apply IH|done].
Qed.

(** ** The root is mounted *)

Lemma rel_mounted held s ms refs : is_Some (ms !! mp) → rel held s refs → rel held (set_mounts s ms) refs.
Proof. intros Hms [R1 R2 R3 R4 [HC Ho]]. split; [done..|]. split; [by destruct HC|done]. Qed.

Lemma rel_rooted held s r refs : rel held s refs → rel held (set_root s r) refs.
Proof. intros [R1 R2 R3 R4 [HC Ho]]. split; [done..|]. split; [by destruct HC|done]. Qed.

(** Nothing is mounted, and slot [mp] is the first one free. *)
Record booted (s : st) (dev : Z) : Prop := {
  bt_root : root_fs s = None;
  bt_vnodes : vnodes s = ∅;
  bt_cache : mf_cache (fs_state s) = [];
  bt_count : mf_count (fs_state s) = 0;
  bt_slot : ∃ m, list_find (λ m, m_dev m = 0) (mountpoints s) = Some (mp, m);
  bt_dev : Forall (λ m, m_dev m ≠ dev) (mountpoints s);
}.

(** The superblock is read, and the blocks of the cache are those of the disk. *)
Definition super_loads (c : C) (dev : Z) : Prop :=
  wp (load_superblock c dev) store_oom (λ '(c', r), ∃ p own, r = inr (super, p) ∧ store_rel c' disk [] ∅ own).

Definition root_refs : fileid → Z := add_refs (add_refs (λ _, 0) (mp, 1) 1) (mp, 1) 1.
Hypothesis Hroot : 1 ∈ files ∧ S_ISDIR (le16toh (i_mode (inode_of_file 1))) = true.

(** The state that get_vnode of the root starts from. *)
Lemma empty_rel s p own : vnodes s = ∅ → mf_cache (fs_state s) = [] → mf_count (fs_state s) = 0 → mf_super (fs_state s) = Some (super, p) → is_Some (mountpoints s !! mp) →
  store_rel (store s) disk [] ∅ own → rel [] s (λ _, 0).
Proof.
  intros Hv Hc Hn Hp Hm Hs. assert (Hno : ∀ v n, ¬ live s v n) by (intros v n [Hl _]; by rewrite Hv in Hl). split.
  - intros v n Hl. by destruct (Hno v n).
  - intros i Hi. lia.
  - intros v v' i (n & Hl & _). by destruct (Hno v n).
  - intros i. lia.
  - split; [|exists own; split; [done|]; intros v; by rewrite Hc, elem_of_nil]. split; rewrite ?Hc; try done.
    + constructor.
    + intros v. rewrite Hv, lookup_empty, elem_of_nil. by split; [intros []|].
    + intros v. by rewrite elem_of_nil.
    + intros v v' n n' Hl. by rewrite Hv in Hl.
    + by exists p.
Qed.

Lemma mount_ok NAME_MAX s path dev kind flags : booted s dev → super_loads (store s) dev →
  wp (vfs_mount (H := ops) NAME_MAX s None path dev kind flags SU_UID) store_oom (λ '(s', e), e = 0 ∧ rel [] s' root_refs ∧ mounts_ok (H := minix_invariant []) T s' root_refs ∧ root_fs s' = Some mp).
Proof.
  intros [Hrt Hvs Hch Hct (m0 & Hfree) Hdev] Hload. destruct Hroot as [H1 Hdir]. unfold vfs_mount. rewrite Z.eqb_refl. cbn [negb]. rewrite Hrt. res_simpl. cbn [Z.eqb negb].
  rewrite bool_decide_false by (rewrite Exists_exists; intros (m & Hm & E); rewrite Forall_forall in Hdev; by apply (Hdev m Hm)). rewrite Hfree. cbn [op_mount minix_ops]. unfold minix_mount, mount_dev.
  set (m1 := Mount (Some kind) None None dev (u16 flags)). assert (Hlt : (mp < length (mountpoints s))%nat) by (apply list_find_Some in Hfree as (? & _); by eapply lookup_lt_Some).
  cbn [mountpoints set_mounts]. rewrite list_lookup_insert_eq by done. res_simpl. cbn [m_dev m1]. change (store (set_mounts s _)) with (store s). apply wp_bind, wp_bind. eapply wp_mono; [exact Hload|done|]. intros [c r] (p & own & -> & Hs). cbv beta iota.
  set (s1 := set_super _ _). assert (Hr1 : rel [] s1 (λ _, 0)) by (apply (empty_rel s1 p own); try done; cbn [s1 mountpoints set_super set_mfs set_fs set_store set_mounts]; rewrite list_lookup_insert_eq by done; by eexists).
  wp_step get_vnode_ok; [exact Hr1|exact H1|simpl; lia|lia|]. intros [s2 r] (v & -> & Hr2 & Hv & (Em2 & _)). assert (Hm2 : mountpoints s2 !! mp = Some m1) by (rewrite Em2; by apply list_lookup_insert_eq). unfold set_root_node. rewrite Hm2. res_simpl. cbn [wp].
  assert (Hlt2 : (mp < length (mountpoints s2))%nat) by (by eapply lookup_lt_Some). cbn [mountpoints set_mounts]. rewrite list_lookup_insert_eq by done. res_simpl. cbn [Z.eqb negb mount_node root_node m1 m_ops m_dev m_bits].
  set (s3 := set_root _ _). assert (Hr3 : rel [] s3 (add_refs (λ _, 0) (mp, 1) 1)) by (apply rel_rooted, rel_mounted; [rewrite list_lookup_insert_eq by done; by eexists|exact Hr2]).
  destruct (clone_ref_ok (H := ops) (FsInv0 := minix_invariant []) s3 _ v (mp, 1) Hr3 Hv) as (s4 & -> & Hr4 & (Em4 & Ern4 & _) & Hv4); [unfold add_refs; rewrite decide_True by done; lia|]. res_simpl. cbn [wp].
  assert (Hlt4 : (mp < length (mountpoints s4))%nat) by (rewrite Em4; cbn [mountpoints s3 set_root set_mounts]; by rewrite length_insert).
  assert (Hpos : 0 < root_refs (mp, 1)) by (unfold root_refs, add_refs; rewrite !decide_True by done; lia). split; [done|]. split; [apply rel_mounted; [rewrite list_lookup_insert_eq by done; by eexists|exact Hr4]|]. split; [|exact Ern4].
  split; [done|]. intros m ->. cbn [mountpoints set_mounts t_root t_under minix_tree t_mode]. eexists _, v, v. split; [by apply list_lookup_insert_eq|]. by split_and!.
Qed.

(** What a lookup gives for the file [k], or for an error. *)
Definition found (s : st) (w : Z + Z) (r : option Z) (e : Z) : Prop :=
  match w with
  | inl k => e = 0 ∧ rel [] s (add_refs root_refs (mp, k) 1) ∧ ∃ v n x, r = Some v ∧ vnodes s !! v = Some n ∧ mf_data (fs_state s) !! v = Some x ∧ v_mp n = Some mp ∧
      to_node n x = file_node (root_refs (mp, k) + 1) k (inode_of_file k)
  | inr err => e = err ∧ err ≠ 0 ∧ r = None ∧ rel [] s root_refs
  end.

(** C3: the names of a path are followed on the disk.  After the root file
    system is mounted from a device that holds directories and inodes, looking
    up /a/b/c as a user gives a vnode with the mode, owner, size, time and
    zones of the inode that the entries of the directories lead to, with one
    reference more; or the error of the first step that fails: ENOTDIR, EPERM,
    ENAMETOOLONG or ENOENT, with no vnode and no reference more.  Whatever was
    cached or evicted on the way, every file has one vnode.  The calls end,
    unless the kernel heap is used up. *)
Theorem minix_mount_lookup NAME_MAX s path dev kind flags uid names : (2 ≤ NAME_MAX)%nat → booted s dev → super_loads (store s) dev →
  Forall (name_ok NAME_MAX) names → Forall (λ name, 0 ∉ name) names →
  wp ('(s, e1) ← vfs_mount (H := ops) NAME_MAX s None path dev kind flags SU_UID;
      '(s, r, e2) ← vfs_lookup (H := ops) NAME_MAX s None (VFS_SEP :: join names) VLOOKUP_NORMAL uid;
      Val (s, e1, r, e2)) store_oom
    (λ '(s, e1, r, e2), e1 = 0 ∧ found s (follow uid names 1) r e2).
Proof.
  intros Hnm Hboot Hload Hnames Hnul. wp_step mount_ok; [done..|]. intros [s1 e1] (-> & Hr & Hm & Hrt).
  assert (Hb : ∀ j, root_refs j < 2 ^ 31 - 1) by (intros j; unfold root_refs, add_refs; repeat case_decide; lia).
  wp_step (vfs_lookup_ok (H := ops) (FsInv0 := minix_invariant []) T NAME_MAX s1 root_refs mp None None (VFS_SEP :: join names) VLOOKUP_NORMAL uid); [done..|]. intros [[s2 r] e] [_ Hp]. cbn [wp]. split; [done|].
  change (skip_sep (VFS_SEP :: join names)) with (join names) in Hp. rewrite components_join in Hp by done. change (has_bits VLOOKUP_NORMAL VLOOKUP_PARENT_OF) with false in Hp. change (start T mp None (VFS_SEP :: join names)) with ((mp, 1) : fileid) in Hp.
  rewrite (walk_follow uid names 1 Hnul) in Hp. unfold found. destruct (follow uid names 1) as [k|err]; [|done]. destruct Hp as (-> & v & -> & Hv & Hr2). split; [done|]. split; [done|].
  destruct (node_at [] s2 _ v (mp, k) Hr2 Hv) as (n & x & Hn & Hx & Hmp & Hc & Ei & _ & E). destruct (vr_live _ _ _ Hr2 v n (conj Hn Hc)) as (i & Hi & Ec & _). injection Ei as Ei.
  assert (i = (mp, k)) as -> by (unfold ident in Hi; rewrite Hmp in Hi; cbn in Hi; congruence). exists v, n, x. split_and!; try done. unfold add_refs at 1 in Ec. rewrite decide_True in Ec by done. rewrite E. congruence.
Qed.
End path.
