(* ===== verification/Minixtree.v ===== *)
(** * Minixtree: a disk with a directory in its root

    An image of 32 blocks that has /bin, a directory, and /bin/sh, a file.  It
    meets what paths on a Minix disk rest on ([disk_ok]), with the device, the
    buffer cache and the kernel heap of the code. *)

From S2P Require Import Prelude Bits Result Iovec Device Alloc Bufcache Blockstore Cstring Minixmap Minixzone Minixfile Minixrun Minixnode Minixdir Minixmkfs Vfs Vfsinv Procfs Minixvfs Minixpath.

(** ** Directories of one block *)

(** The entries [es] of a block: the first ones, and the others are free. *)
Definition block_has (es : list (list Z * Z)) (x : list Z) (k : nat) : bool :=
  match es !! k with
  | Some (nm, i) => ((dent x k).1 =? i) && negb (i =? 0) && bool_decide (cstr (dent x k).2 = Some nm)
  | None => (dent x k).1 =? 0
  end.

Lemma block_entries es x : forallb (block_has es x) (seq 0 64) = true → ∀ k, (k < 64)%nat →
  match es !! k with Some (nm, i) => (dent x k).1 = i ∧ i ≠ 0 ∧ cstr (dent x k).2 = Some nm | None => (dent x k).1 = 0 end.
Proof.
  intros Hb k Hk. rewrite forallb_forall in Hb. specialize (Hb k). rewrite <- list_elem_of_In, elem_of_seq in Hb. specialize (Hb ltac:(lia)). unfold block_has in Hb.
  destruct (es !! k) as [[nm i]|]; [|lia]. apply andb_prop in Hb as [[H1 H2]%andb_prop H3%bool_decide_eq_true_1]. split_and!; [lia|lia|done].
Qed.

Lemma entries_maps es x : forallb (block_has es x) (seq 0 64) = true → (length es ≤ 64)%nat → NoDup es.*1 → dir_maps 1 x (list_to_map es).
Proof.
  intros Hb Hl Hnd. pose proof (block_entries es x Hb) as He. assert (Hof : ∀ k nm, (k < 64 * 1)%nat → (dent x k).1 ≠ 0 → cstr (dent x k).2 = Some nm → es !! k = Some (nm, (dent x k).1)).
  { intros k nm Hk Hn Hc. specialize (He k ltac:(lia)). destruct (es !! k) as [[nm' i]|]; [|lia]. destruct He as (-> & _ & E). congruence. }
  split.
  - intros k nm Hk Hn Hc. apply elem_of_list_to_map; [done|]. eapply list_elem_of_lookup_2. by apply Hof.
  - intros nm i Hi. apply elem_of_list_to_map in Hi; [|done]. apply list_elem_of_lookup_1 in Hi as [k Hk]. pose proof (lookup_lt_Some _ _ _ Hk). specialize (He k ltac:(lia)). rewrite Hk in He. exists k. destruct He as (? & ? & ?). split_and!; [lia|done..].
  - intros k k' nm Hk Hk' Hn Hn' Hc Hc'. pose proof (Hof k nm Hk Hn Hc) as E. pose proof (Hof k' nm Hk' Hn' Hc') as E'. eapply NoDup_lookup; [exact Hnd| |]; rewrite list_lookup_fmap; [rewrite E|rewrite E']; done.
Qed.

(** A file of one zone. *)
Definition one_zone (z : Z) : list Z := htole16 z :: replicate 8 0.

Lemma one_zone_zp d z q : 0 ≤ z < 65536 → vpath q → zp d (one_zone z) q = if decide (q = [0]) then z else 0.
Proof.
  intros Hz. induction q as [|j q IH]; [done|]. intros Hq. destruct (decide (q = [])) as [->|Hne].
  - simpl in Hq. assert (j = 0 ∨ j = 1 ∨ j = 2 ∨ j = 3 ∨ j = 4 ∨ j = 5 ∨ j = 6 ∨ j = 7 ∨ j = 8) as E by lia.
    destruct E as [->|E]; [change (zp d (one_zone z) [0]) with (le16toh (htole16 z)); by apply le16_inv|].
    by repeat destruct E as [->|E]; [..|rewrite E].
  - destruct (vpath_tail j q Hq Hne) as [Hq' _]. rewrite zp_cons by done. rewrite (IH Hq').
    rewrite (decide_False (P := j :: q = [0])) by (intros [= _ ?]; done).
    destruct (decide (q = [0])) as [->|]; [|done]. exfalso. simpl in Hq. lia.
Qed.

Lemma one_zone_ok super d l z : 0 < z < 65536 → data_zone super z → bit_at 8 l (zbit super z) = true → zones_ok super d l (one_zone z).
Proof.
  intros Hz Hd Hb. split; [done| | |].
  - constructor; [by apply le16_inv; lia|]. by repeat (apply Forall_cons; split; [compute; split; done|]).
  - intros p Hp Hn. rewrite one_zone_zp in * by (done || lia). destruct (decide (p = [0])); done.
  - intros p q Hp Hq. rewrite !one_zone_zp by (done || lia). destruct (decide (p = [0])) as [->|], (decide (q = [0])) as [->|]; done.
Qed.

Lemma one_zone_dir d z es x : 0 < z < 65536 → d !! z = Some x → length x = 1024%nat → forallb (block_has es x) (seq 0 64) = true → dir_is d (one_zone z) 1 x.
Proof.
  intros Hz Hx Hl Hb. assert (E0 : zp d (one_zone z) (zpath 0) = z) by (by apply (one_zone_zp _ _ [0]); [lia|]). split; [split| | |].
  - by rewrite Hl.
  - intros k Hk. unfold file_byte, zone_of. rewrite Nat.div_small, Nat.mod_small by lia. change (Z.of_nat 0) with 0. rewrite E0. replace (z =? 0) with false by lia. by rewrite Hx.
  - done.
  - intros y Hy. rewrite one_zone_zp; [|lia|apply zpath_valid; lia]. rewrite decide_False; [done|]. change [0] with (zpath 0). intros E. apply zpath_inj in E; lia.
  - intros k Hk Hn. pose proof (block_entries es x Hb k ltac:(lia)) as He. destruct (es !! k) as [[nm i]|]; [|lia]. exists nm. apply He.
Qed.

(** ** The image *)

Definition demo_super : minix_v1_superblock := mounted_super 32.
Definition demo_dir (z uid perm : Z) : minix_v1_inode := Inode (htole16 (S_IFDIR + perm)) uid (htole32 1024) 0 0 2 (one_zone z).
Definition demo_file : minix_v1_inode := Inode (htole16 (S_IFREG + 493)) 0 0 (htole32 1000000) 3 1 (replicate 9 0).
Definition demo_entry (name : list Z) (k : Z) : list Z := bytes16 (htole16 k) ++ name ++ replicate (14 - length name) 0.
Definition demo_block (l : list Z) : list Z := l ++ replicate (1024 - length l) 0.
Definition bin : list Z := [98; 105; 110].
Definition sh : list Z := [115; 104].
Definition sbin : list Z := [115; 98; 105; 110].
Definition root_entries : list (list Z * Z) := [([46], 1); ([46; 46], 1); (bin, 2); (sbin, 4)].
Definition bin_entries : list (list Z * Z) := [([46], 2); ([46; 46], 1); (sh, 3)].
Definition sbin_entries : list (list Z * Z) := [([46], 4); ([46; 46], 1)].
Definition dir_block (es : list (list Z * Z)) : list Z := demo_block (concat ((λ e, demo_entry e.1 e.2) <$> es)).
Definition demo_map : list Z := [15; 0; 0; 248] ++ replicate 1020 255.
(** /sbin is for the superuser. *)
Definition demo_image : list Z :=
  zero_block ++ splice zero_block 0 (super_bytes (mkfs_super 32)) ++ demo_block [31] ++ demo_map ++
  demo_block (inode_bytes (demo_dir 6 0 493) ++ inode_bytes (demo_dir 7 0 493) ++ inode_bytes demo_file ++ inode_bytes (demo_dir 8 0 448)) ++ zero_block ++
  dir_block root_entries ++ dir_block bin_entries ++ dir_block sbin_entries ++ replicate (23 * 1024) 0.
Definition demo_blocks : gmap Z (list Z) := image_blocks 32 demo_image.
Definition demo_files : gset Z := {[1; 2; 3; 4]}.
Definition demo_dirs : gmap Z (gmap (list Z) Z) := {[ 1 := list_to_map root_entries; 2 := list_to_map bin_entries; 4 := list_to_map sbin_entries ]}.

Lemma demo_length : length demo_image = (32 * 1024)%nat.
Proof. apply Nat.eqb_eq. vm_compute. reflexivity. Qed.

Lemma demo_layout : layout demo_super 32 1 demo_blocks demo_map.
Proof.
  assert (Hb : Forall byte_ok demo_image) by (apply bytes_check; vm_compute; done). split.
  - split; [apply bytes_check; vm_compute; done|split; [done|]]. intros k Hk. replace k with 0%nat by lia. unfold demo_blocks. rewrite image_blocks_lookup by (vm_compute; done). vm_compute. done.
  - apply image_bytes; [lia|apply demo_length|exact Hb].
  - done.
Qed.

Lemma demo_inode k i : 0 < inode_block demo_super k < 32 → inode_at (slice demo_image (Z.to_nat (inode_block demo_super k) * 1024) 1024) (inode_offset k) = Some i →
  inode_on demo_super demo_blocks k = Some i ∧ inode_of_file demo_super demo_blocks k = i.
Proof. intros Hk Hi. assert (E : inode_on demo_super demo_blocks k = Some i) by (unfold inode_on, demo_blocks; by rewrite image_blocks_lookup by done). split; [done|]. unfold inode_of_file. by rewrite E. Qed.

Lemma demo_dir_ok z es : 5 < z < 32 → bit_at 8 demo_map (zbit demo_super z) = true → slice demo_image (Z.to_nat z * 1024) 1024 = dir_block es → length (dir_block es) = 1024%nat →
  forallb (block_has es (dir_block es)) (seq 0 64) = true → (length es ≤ 64)%nat → NoDup es.*1 → dir_ok demo_super demo_blocks demo_map (one_zone z) (list_to_map es).
Proof.
  intros Hz Hbit Hs Hl Hb Hes Hnd. split; [apply one_zone_ok; [lia|unfold data_zone; simpl; lia|done]|]. exists 1%nat, (dir_block es). split; [|by apply entries_maps].
  apply (one_zone_dir _ _ es); [lia| |done|done]. unfold demo_blocks. rewrite image_blocks_lookup by lia. by rewrite Hs.
Qed.

Lemma demo_member k : k ∈ demo_files → k = 1 ∨ k = 2 ∨ k = 3 ∨ k = 4.
Proof. unfold demo_files. set_solver. Qed.

Lemma demo_inodes : Forall (λ '(k, i), inode_on demo_super demo_blocks k = Some i ∧ inode_of_file demo_super demo_blocks k = i)
  [(1, demo_dir 6 0 493); (2, demo_dir 7 0 493); (3, demo_file); (4, demo_dir 8 0 448)].
Proof. repeat (apply Forall_cons; split); [apply demo_inode; vm_compute; by split_and?..|apply Forall_nil_2]. Qed.

Lemma demo_ino_ok k : k ∈ demo_files → ino_ok demo_super 32 k.
Proof. intros [->|[->|[->| ->]]]%demo_member; done. Qed.

Lemma demo_disk_ok : disk_ok demo_super 32 1 demo_blocks demo_map demo_files demo_dirs.
Proof.
  pose proof demo_inodes as HI. rewrite !Forall_cons in HI. destruct HI as ([E1 F1] & [E2 F2] & [E3 F3] & [E4 F4] & _). split.
  - apply demo_layout.
  - intros k Hk. split; [exact (demo_ino_ok k Hk)|]. apply demo_member in Hk as [->|[->|[->| ->]]]; [rewrite F1, E1|rewrite F2, E2|rewrite F3, E3|rewrite F4, E4]; (split; reflexivity).
  - assert (Hin : ∀ es, forallb (λ e, bool_decide (e.2 ∈ demo_files)) es = true → map_Forall (λ _ n, n ∈ demo_files) (list_to_map es : gmap (list Z) Z)).
    { intros es He nm n Hn. apply elem_of_list_to_map_2 in Hn. rewrite forallb_forall in He. specialize (He (nm, n)). rewrite <- list_elem_of_In in He. specialize (He Hn). by case_bool_decide. }
    intros k Hk Hd. apply demo_member in Hk as [->|[->|[->| ->]]]; [rewrite F1; exists (list_to_map root_entries)|rewrite F2; exists (list_to_map bin_entries)|rewrite F3 in Hd; by vm_compute in Hd|rewrite F4; exists (list_to_map sbin_entries)];
      (split; [reflexivity|split; [apply demo_dir_ok; [lia|vm_compute; reflexivity..|vm_compute; lia|apply (bool_decide_unpack _); by vm_compute]|apply Hin; by vm_compute]]).
Qed.

(** ** The system before the root is mounted *)
#[local] Existing Instance example_allocator.
#[local] Existing Instance example_alloc_laws.
#[local] Existing Instance image_store.

Definition NAME_MAX_demo : nat := 30.
Definition load_super (c : cache memdisk kheap) (dev : Z) : res (cache memdisk kheap * (Z + minix_v1_superblock * Z)) :=
  '(c, m) ← load_superblock mem_table c dev (replicate 512 0); Val (c, match m with inl e => inl e | inr (super, p, _) => inr (super, p) end).
Definition demo_booted : vfs (mfs (cache memdisk kheap)) :=
  Vfs ∅ (replicate VFS_MOUNT_MAX (Mount None None None 0 0)) None (replicate FILE_TABLE_MAX (Vfile false None 0 0 0))
    (Mfs (Cache new_bufcache ∅ ∅ (image_disk demo_image) example_kheap) None ∅ [] 0).

Lemma demo_geometry : geometry demo_super 32 1.
Proof. apply (mounted_geometry 32 32); lia. Qed.

Lemma demo_root : 1 ∈ demo_files ∧ S_ISDIR (le16toh (i_mode (inode_of_file demo_super demo_blocks 1))) = true.
Proof. split; [apply (bool_decide_unpack _); by vm_compute|by vm_compute]. Qed.

Lemma demo_boots : booted 0 demo_booted mem_dev.
Proof. split; try done; [by eexists|]. by repeat constructor. Qed.

Lemma demo_loads : super_loads demo_super 32 (StoreLaws0 := example_store_laws) load_super demo_blocks (store demo_booted) mem_dev.
Proof.
  unfold super_loads, load_super. destruct (Minixmkfs.superblock_read 32) as (sb & Hsb & Hle); [lia|].
  eapply wp_call; [eapply (load_device_ok mem_table mem_dev 32 ltac:(done) ltac:(lia) new_bufcache (image_disk demo_image) example_kheap ∅ demo_image demo_blocks sb (replicate 512 0))|].
  - apply image_disk_is. rewrite demo_length. lia.
  - apply demo_length.
  - lia.
  - intros k Hk. by apply image_blocks_lookup.
  - rewrite <- Hsb. by vm_compute.
  - change (le16toh (magic sb)) with (magic (superblock_from_le sb)). by rewrite Hle.
  - by rewrite Hle.
  - exists ∅. split; [apply example_kheap_inv|done].
  - done.
  - intros [c m] (p & -> & _ & Hr). rewrite Hle. cbn [wp]. exists p, ({[p]} ∪ ∅). split; [done|]. exact Hr.
Qed.

(** ** Paths on the image *)

Local Abbreviation demo_ops := (minix_ops load_super (free_superblock) 0).
Local Abbreviation demo_follow := (follow demo_super demo_blocks demo_dirs).

(** /bin/sh is inode 3, as is /bin/../bin/sh; /bin/sh/sh goes through a file, and /sbin/sh through a directory that user 5 may not read. *)
Lemma demo_follows : demo_follow 5 [bin; sh] 1 = inl 3 ∧ demo_follow 5 [bin; [46; 46]; bin; sh] 1 = inl 3 ∧ demo_follow 5 [bin; sh; sh] 1 = inr ENOTDIR ∧
  demo_follow 5 [sbin; sh] 1 = inr EPERM ∧ demo_follow SU_UID [sbin; sh] 1 = inr ENOENT.
Proof. vm_compute. by split_and!. Qed.

Definition demo_lookup (uid : Z) (names : list (list Z)) : res (vfs (mfs (cache memdisk kheap)) * Z * option Z * Z) :=
  '(s, e1) ← vfs_mount (H := demo_ops) NAME_MAX_demo demo_booted None [VFS_SEP] mem_dev 1 0 SU_UID;
  '(s, r, e2) ← vfs_lookup (H := demo_ops) NAME_MAX_demo s None (VFS_SEP :: join names) VLOOKUP_NORMAL uid;
  Val (s, e1, r, e2).

Lemma minix_mount_lookup_witness :
  wp (demo_lookup 5 [bin; sh]) (@store_oom _ _ _ _ example_store_laws)
    (λ '(s, e1, r, e2), e1 = 0 ∧ found demo_super 32 (StoreLaws0 := example_store_laws) demo_blocks demo_files demo_dirs 0 s (demo_follow 5 [bin; sh] 1) r e2).
Proof.
  refine (minix_mount_lookup demo_super 32 1 (StoreLaws0 := example_store_laws) demo_geometry load_super free_superblock 0 demo_blocks demo_map demo_files demo_dirs 0 demo_disk_ok
    demo_root NAME_MAX_demo demo_booted [VFS_SEP] mem_dev 1 0 5 [bin; sh] _ demo_boots demo_loads _ _).
  - unfold NAME_MAX_demo. lia.
  - repeat constructor; try (unfold NAME_MAX_demo; simpl; lia); (apply (bool_decide_unpack _); by vm_compute).
  - repeat constructor; (apply (bool_decide_unpack _); by vm_compute).
Defined.

(** The same paths, with the code run on the image. *)
Example demo_runs :
  (λ out, match out with Val (s, 0, Some v, 0) => n ← vnodes s !! v; Some (v_ino n, v_mode n, v_refcount n) | _ => None end) <$> [demo_lookup 5 [bin; sh]; demo_lookup 5 [bin; [46; 46]]] =
    [Some (3, S_IFREG + 493, 1); Some (1, S_IFDIR + 493, 3)] ∧
  (λ out, match out with Val (_, 0, None, e) => e | _ => 0 end) <$> [demo_lookup 5 [bin; sh; sh]; demo_lookup 5 [sbin; sh]; demo_lookup SU_UID [sbin; sh]] = [ENOTDIR; EPERM; ENOENT].
Proof. vm_compute. by split. Qed.
