(* ===== verification/Process.v ===== *)
(** * Process: the process table and the scheduler
      (src/kernel/proc/process.c, scheduler.c, include/kernel/proc/process.h)

    The processes live in a memory indexed by their address; [nodes] holds
    their run_node, under the same address (container_of is the identity
    here).  A dereference of NULL or of a freed process is undefined, as is
    an index past the end of the process table.  Calls that leave the two
    files (timers, file tables, memory maps, the context switch, the restarted
    system call) are collected in [calls], in the order they are made; none of
    those functions calls back.  The locks only keep interrupts out, and an
    operation is one step here. *)

From S2P Require Import Prelude Queue Result Alloc.

Definition EINTR : Z := -4.
Definition ESRCH : Z := -3.

(** ** The structures *)
Inductive proc_state := PS_RUNNING | PS_RESUMING | PS_BLOCKED | PS_STOPPED | PS_EXITED.

#[export] Instance proc_state_eq_dec : EqDecision proc_state.
Proof. solve_decision. Defined.

Record syscall_record := Syscall { syscall : Z; arg1 : Z; arg2 : Z; arg3 : Z; arg4 : Z; arg5 : Z }.

Record sigaction := Sigaction { sa_handler : Z; sa_mask : Z; sa_flags : Z; sa_restorer : Z }.
Record signal_data := Signals { ignored : Z; blocked : Z; pending : Z; actions : list sigaction }.

(** The fields that identify a process, which only its creation sets, but for the parent. *)
Record proc_ids := Ids {
  slotnum : Z; tid : Z; tgid : Z; pid : Z; parent : Z; pgid : Z; session : Z;
  uid : Z; umask : Z; ctty : Z; start_time : Z }.

Record process := Process {
  ids : proc_ids;
  state : proc_state;
  bits : Z;
  exitcode : Z;
  return_value : Z;
  signal_pending : Z;
  wait_events : Z;
  wait_check : Z;
  blocked_call : syscall_record;
  signals : signal_data;
  fd_table : Z;
  map : Z }.

Definition INIT_PID : Z := 1.
Definition PB_BLOCK_CONDITIONS : Z := 255.
Definition PB_SYSCALL : Z := 1.
Definition PB_WAITING : Z := 2.
Definition PB_PAUSED : Z := 4.
Definition PB_SELECT : Z := 8.
Definition PB_ALARM_ON : Z := 256.
Definition PB_DONT_SET_RETURN_VAL : Z := 512.
Definition PROC_DEFAULT_UMASK : Z := 18.
Definition SIG_HANDLERS_NUM : nat := 32.

Definition PROC_IS_RUNNING (x : process) : bool := bool_decide (state x = PS_RUNNING ∨ state x = PS_RESUMING).

Definition set_parent (x : process) (v : Z) : process :=
  let i := ids x in
  Process (Ids (slotnum i) (tid i) (tgid i) (pid i) v (pgid i) (session i) (uid i) (umask i) (ctty i) (start_time i))
    (state x) (bits x) (exitcode x) (return_value x) (signal_pending x) (wait_events x) (wait_check x)
    (blocked_call x) (signals x) (fd_table x) (map x).
Definition set_state (x : process) (s : proc_state) : process :=
  Process (ids x) s (bits x) (exitcode x) (return_value x) (signal_pending x) (wait_events x) (wait_check x)
    (blocked_call x) (signals x) (fd_table x) (map x).
Definition set_bits (x : process) (b : Z) : process :=
  Process (ids x) (state x) b (exitcode x) (return_value x) (signal_pending x) (wait_events x) (wait_check x)
    (blocked_call x) (signals x) (fd_table x) (map x).
Definition set_exitcode (x : process) (v : Z) : process :=
  Process (ids x) (state x) (bits x) v (return_value x) (signal_pending x) (wait_events x) (wait_check x)
    (blocked_call x) (signals x) (fd_table x) (map x).
Definition set_return_value (x : process) (v : Z) : process :=
  Process (ids x) (state x) (bits x) (exitcode x) v (signal_pending x) (wait_events x) (wait_check x)
    (blocked_call x) (signals x) (fd_table x) (map x).
Definition set_signal_pending (x : process) (v : Z) : process :=
  Process (ids x) (state x) (bits x) (exitcode x) (return_value x) v (wait_events x) (wait_check x)
    (blocked_call x) (signals x) (fd_table x) (map x).
Definition set_wait (x : process) (events check : Z) : process :=
  Process (ids x) (state x) (bits x) (exitcode x) (return_value x) (signal_pending x) events check
    (blocked_call x) (signals x) (fd_table x) (map x).
Definition set_blocked_call (x : process) (r : syscall_record) : process :=
  Process (ids x) (state x) (bits x) (exitcode x) (return_value x) (signal_pending x) (wait_events x) (wait_check x)
    r (signals x) (fd_table x) (map x).
Definition set_signals (x : process) (s : signal_data) : process :=
  Process (ids x) (state x) (bits x) (exitcode x) (return_value x) (signal_pending x) (wait_events x) (wait_check x)
    (blocked_call x) s (fd_table x) (map x).
Definition set_fd_table (x : process) (t : Z) : process :=
  Process (ids x) (state x) (bits x) (exitcode x) (return_value x) (signal_pending x) (wait_events x) (wait_check x)
    (blocked_call x) (signals x) t (map x).
Definition set_map (x : process) (m : Z) : process :=
  Process (ids x) (state x) (bits x) (exitcode x) (return_value x) (signal_pending x) (wait_events x) (wait_check x)
    (blocked_call x) (signals x) (fd_table x) m.

(** The calls that leave the two files. *)
Inductive call :=
  | InitTimer (p : Z)
  | RemoveTimer (p : Z)
  | AddTimer (p seconds : Z)
  | InitTask (p : Z)
  | ReleaseTask (p : Z)
  | FreeFdTable (t : Z)
  | FreeMap (m : Z)
  | SwitchContext (previous next : Z)
  | DoSyscall.

Record sched (A : Type) := Sched {
  procs : gmap Z process;
  nodes : Queue.heap;
  run_queue : queue;
  blocked_queue : queue;
  current_proc : Z;
  previous_proc : Z;
  idle_proc : Z;
  current_syscall : Z + syscall_record;  (** [inl p]: the blocked_call of process [p] *)
  need_reschedule : Z;
  next_reschedule_time : Z;
  process_list : list Z;
  next_pid : Z;
  num_processes : Z;
  next_process_slot : Z;
  kheap : A;
  calls : list call }.
Arguments Sched {A}.
Arguments procs {A}. Arguments nodes {A}. Arguments run_queue {A}. Arguments blocked_queue {A}.
Arguments current_proc {A}. Arguments previous_proc {A}. Arguments idle_proc {A}. Arguments current_syscall {A}.
Arguments need_reschedule {A}. Arguments next_reschedule_time {A}. Arguments process_list {A}.
Arguments next_pid {A}. Arguments num_processes {A}. Arguments next_process_slot {A}. Arguments kheap {A}. Arguments calls {A}.

Section state.
Context {A : Type}.
Implicit Types st : sched A.

Definition set_procs st (m : gmap Z process) : sched A :=
  Sched m (nodes st) (run_queue st) (blocked_queue st) (current_proc st) (previous_proc st) (idle_proc st)
    (current_syscall st) (need_reschedule st) (next_reschedule_time st) (process_list st) (next_pid st)
    (num_processes st) (next_process_slot st) (kheap st) (calls st).
Definition set_queues st (h : Queue.heap) (run blk : queue) : sched A :=
  Sched (procs st) h run blk (current_proc st) (previous_proc st) (idle_proc st)
    (current_syscall st) (need_reschedule st) (next_reschedule_time st) (process_list st) (next_pid st)
    (num_processes st) (next_process_slot st) (kheap st) (calls st).
Definition set_current st (p : Z) : sched A :=
  Sched (procs st) (nodes st) (run_queue st) (blocked_queue st) p (previous_proc st) (idle_proc st)
    (current_syscall st) (need_reschedule st) (next_reschedule_time st) (process_list st) (next_pid st)
    (num_processes st) (next_process_slot st) (kheap st) (calls st).
Definition set_previous st (p : Z) : sched A :=
  Sched (procs st) (nodes st) (run_queue st) (blocked_queue st) (current_proc st) p (idle_proc st)
    (current_syscall st) (need_reschedule st) (next_reschedule_time st) (process_list st) (next_pid st)
    (num_processes st) (next_process_slot st) (kheap st) (calls st).
Definition set_idle st (p : Z) : sched A :=
  Sched (procs st) (nodes st) (run_queue st) (blocked_queue st) (current_proc st) (previous_proc st) p
    (current_syscall st) (need_reschedule st) (next_reschedule_time st) (process_list st) (next_pid st)
    (num_processes st) (next_process_slot st) (kheap st) (calls st).
Definition set_current_syscall st (r : Z + syscall_record) : sched A :=
  Sched (procs st) (nodes st) (run_queue st) (blocked_queue st) (current_proc st) (previous_proc st) (idle_proc st)
    r (need_reschedule st) (next_reschedule_time st) (process_list st) (next_pid st)
    (num_processes st) (next_process_slot st) (kheap st) (calls st).
Definition set_resched st (need time : Z) : sched A :=
  Sched (procs st) (nodes st) (run_queue st) (blocked_queue st) (current_proc st) (previous_proc st) (idle_proc st)
    (current_syscall st) need time (process_list st) (next_pid st)
    (num_processes st) (next_process_slot st) (kheap st) (calls st).
Definition set_table st (l : list Z) (num slot : Z) : sched A :=
  Sched (procs st) (nodes st) (run_queue st) (blocked_queue st) (current_proc st) (previous_proc st) (idle_proc st)
    (current_syscall st) (need_reschedule st) (next_reschedule_time st) l (next_pid st)
    num slot (kheap st) (calls st).
Definition set_next_pid st (v : Z) : sched A :=
  Sched (procs st) (nodes st) (run_queue st) (blocked_queue st) (current_proc st) (previous_proc st) (idle_proc st)
    (current_syscall st) (need_reschedule st) (next_reschedule_time st) (process_list st) v
    (num_processes st) (next_process_slot st) (kheap st) (calls st).
Definition set_kheap st (a : A) : sched A :=
  Sched (procs st) (nodes st) (run_queue st) (blocked_queue st) (current_proc st) (previous_proc st) (idle_proc st)
    (current_syscall st) (need_reschedule st) (next_reschedule_time st) (process_list st) (next_pid st)
    (num_processes st) (next_process_slot st) a (calls st).
Definition add_call st (c : call) : sched A :=
  Sched (procs st) (nodes st) (run_queue st) (blocked_queue st) (current_proc st) (previous_proc st) (idle_proc st)
    (current_syscall st) (need_reschedule st) (next_reschedule_time st) (process_list st) (next_pid st)
    (num_processes st) (next_process_slot st) (kheap st) (calls st ++ [c]).

(** [proc->field = ...] *)
Definition modify st (p : Z) (f : process → process) : res (sched A) :=
  x ← lift (procs st !! p); Val (set_procs st (<[p := f x]> (procs st))).

Definition request_reschedule st : sched A := set_resched st 1 (next_reschedule_time st).

Definition run_insert st (p : Z) : res (sched A) :=
  '(h, q) ← lift (_queue_insert (nodes st) (run_queue st) p); Val (set_queues st h q (blocked_queue st)).
Definition run_remove st (p : Z) : res (sched A) :=
  '(h, q) ← lift (_queue_remove (nodes st) (run_queue st) p); Val (set_queues st h q (blocked_queue st)).
Definition blocked_insert st (p : Z) : res (sched A) :=
  '(h, q) ← lift (_queue_insert (nodes st) (blocked_queue st) p); Val (set_queues st h (run_queue st) q).
Definition blocked_remove st (p : Z) : res (sched A) :=
  '(h, q) ← lift (_queue_remove (nodes st) (blocked_queue st) p); Val (set_queues st h (run_queue st) q).

(** ** The process table *)

(** The loops over process_list: the first entry that passes the test, or NULL. *)
Fixpoint first_proc (m : gmap Z process) (test : process → bool) (l : list Z) : res Z :=
  match l with
  | [] => Val NULL
  | p :: l =>
      if p =? NULL then first_proc m test l
      else x ← lift (m !! p); if test x then Val p else first_proc m test l
  end.

Definition get_proc st (n : Z) : res Z := first_proc (procs st) (λ x, pid (ids x) =? n) (process_list st).

Definition find_exited_child st (par child : Z) : res Z :=
  first_proc (procs st) (λ x, bool_decide (state x = PS_EXITED) && (parent (ids x) =? par) &&
    ((child =? -1) || (pid (ids x) =? child))) (process_list st).

(** proc_iter_next: the next process and the slot to go on with. *)
Fixpoint next_entry (l : list Z) (slot : Z) : Z * Z :=
  match l with
  | [] => (NULL, slot)
  | p :: l => if p =? NULL then next_entry l (s16 (slot + 1)) else (p, s16 (slot + 1))
  end.
Definition proc_iter_next st (slot : Z) : Z * Z := next_entry (drop (Z.to_nat slot) (process_list st)) slot.

(** Children of [n] become children of init; they are counted. *)
Fixpoint orphan_loop (m : gmap Z process) (n : Z) (l : list Z) (orphans : Z) : res (gmap Z process * Z) :=
  match l with
  | [] => Val (m, orphans)
  | p :: l =>
      if p =? NULL then orphan_loop m n l orphans
      else
        x ← lift (m !! p);
        if parent (ids x) =? n then orphan_loop (<[p := set_parent x INIT_PID]> m) n l (s16 (orphans + 1))
        else orphan_loop m n l orphans
  end.

Definition close_proc st (p : Z) : res (sched A * Z) :=
  let st := if p =? previous_proc st then set_previous st NULL else st in
  let st := add_call st (RemoveTimer p) in
  x ← lift (procs st !! p);
  let st := if fd_table x =? NULL then st else add_call st (FreeFdTable (fd_table x)) in
  st ← (if map x =? NULL then Val st
        else modify (add_call st (FreeMap (map x))) p (λ x, set_map x NULL));
  '(m, orphans) ← orphan_loop (procs st) (pid (ids x)) (process_list st) 0;
  Val (add_call (set_procs st m) (ReleaseTask p), orphans).

(** ** The scheduler *)
Definition insert_proc st (p : Z) : res (sched A) := run_insert st p.

Definition resume_proc st (p : Z) : res (sched A) :=
  x ← lift (procs st !! p);
  match state x with
  | PS_RUNNING | PS_RESUMING | PS_EXITED => Val st
  | s =>
      st ← (match s with PS_BLOCKED => blocked_remove st p | _ => Val st end);
      st ← run_insert st p;
      modify st p (λ x, set_wait (set_state x PS_RESUMING) 0 NULL)
  end.

Definition resume_waiting_parent st (p : Z) : res (sched A) :=
  x ← lift (procs st !! p);
  par ← get_proc st (parent (ids x));
  y ← lift (procs st !! par);
  match state y with
  | PS_BLOCKED => if Z.land (bits y) PB_WAITING =? 0 then Val st else resume_proc st par
  | _ => Val st
  end.

Definition exit_proc st (p status : Z) : res (sched A) :=
  x ← lift (procs st !! p);
  match state x with
  | PS_EXITED => Val st
  | s =>
      st ← (match s with PS_BLOCKED => blocked_remove st p | _ => run_remove st p end);
      st ← modify st p (λ x, set_exitcode (set_state x PS_EXITED) status);
      '(st, orphans) ← close_proc st p;
      st ← (if orphans =? 0 then Val st
            else init ← get_proc st 1; resume_waiting_parent st init);
      resume_waiting_parent (request_reschedule st) p
  end.

Definition stop_proc st (p : Z) : res (sched A) :=
  x ← lift (procs st !! p);
  match state x with
  | PS_EXITED | PS_STOPPED => Val st
  | s =>
      st ← (match s with PS_RUNNING | PS_RESUMING => run_remove st p | _ => blocked_remove st p end);
      st ← modify st p (λ x, set_state x PS_STOPPED);
      Val (request_reschedule st)
  end.

Definition suspend_proc st (p flags : Z) : res (sched A) :=
  x ← lift (procs st !! p);
  match state x with
  | PS_RUNNING =>
      st ← run_remove st p;
      st ← blocked_insert st p;
      st ← modify st p (λ x, set_bits (set_state x PS_BLOCKED) (Z.lor (bits x) (u32 (Z.land flags PB_BLOCK_CONDITIONS))));
      Val (request_reschedule st)
  | _ => Val st
  end.

Definition reschedule_proc_to_now st (p : Z) : res (sched A) :=
  if p =? current_proc st then Val st
  else
    x ← lift (procs st !! p);
    if negb (PROC_IS_RUNNING x) then Val st
    else
      y ← lift (procs st !! current_proc st);
      if negb (PROC_IS_RUNNING y) then Val st
      else
        st ← run_remove st p;
        '(h, q) ← lift (_queue_insert_after (nodes st) (run_queue st) p (current_proc st));
        Val (set_queues st h q (blocked_queue st)).

Definition resume_proc_without_restart st (p : Z) : res (sched A) :=
  st ← resume_proc st p;
  st ← modify st p (λ x, set_state x PS_RUNNING);
  reschedule_proc_to_now st p.

Definition set_proc_return_value st (p ret : Z) : res (sched A) := modify st p (λ x, set_return_value x (u32 ret)).

Definition cancel_syscall st (p : Z) : res (sched A) :=
  x ← lift (procs st !! p);
  st ← (match state x with PS_BLOCKED => resume_proc st p | _ => Val st end);
  x ← lift (procs st !! p);
  st ← (match state x with PS_RESUMING => modify st p (λ x, set_state x PS_RUNNING) | _ => Val st end);
  st ← modify st p (λ x, set_bits x (Z.land (bits x) (Z.lnot PB_BLOCK_CONDITIONS)));
  st ← set_proc_return_value st p EINTR;
  modify st p (λ x, set_bits x (Z.lor (bits x) PB_DONT_SET_RETURN_VAL)).

(** [*current_syscall] *)
Definition the_syscall st : res syscall_record :=
  match current_syscall st with
  | inl p => x ← lift (procs st !! p); Val (blocked_call x)
  | inr r => Val r
  end.

Definition suspend_syscall st (p proc_flags events check : Z) (r : syscall_record) : res (sched A) :=
  st ← suspend_proc st p (Z.lor PB_SYSCALL proc_flags);
  modify st p (λ x, set_blocked_call (set_wait x events check) r).

Definition return_to_current_proc st (ret : Z) : res (sched A) :=
  let p := current_proc st in
  x ← lift (procs st !! p);
  if negb (Z.land (bits x) PB_DONT_SET_RETURN_VAL =? 0)
  then modify st p (λ x, set_bits x (Z.land (bits x) (Z.lnot PB_DONT_SET_RETURN_VAL)))
  else match state x with PS_RUNNING => set_proc_return_value st p ret | _ => Val st end.

(** The system call itself is the last thing that is done. *)
Definition restart_current_syscall st : res (sched A) :=
  let p := current_proc st in
  x ← lift (procs st !! p);
  if Z.land (bits x) PB_SYSCALL =? 0 then Val st
  else
    st ← modify st p (λ x, set_bits x (Z.land (bits x) (Z.lnot PB_SYSCALL)));
    Val (add_call (set_current_syscall st (inl p)) DoSyscall).
End state.

Section config.
Context {A : Type} `{Allocator A}.
Context (CONFIG_MAX_PROCESSES CONFIG_RESCHEDULE_PERIOD_MS SIZEOF_PROCESS SYSCALL_WAIT_CHECK : Z).
Context (fd_vnode : Z → Z → option (Z * Z)) (other_check : Z → process → Z → Z → Z → bool).
Implicit Types st : sched A.

Definition reschedule_after (uptime : Z) : Z := uwrap 64 (uptime + CONFIG_RESCHEDULE_PERIOD_MS * 1000 * 1000).

Definition check_reschedule st (uptime : Z) : sched A :=
  if next_reschedule_time st <? uptime then set_resched st 1 (reschedule_after uptime) else st.

Definition suspend_current_syscall st (events : Z) : res (sched A) :=
  r ← the_syscall st; suspend_syscall st (current_proc st) PB_SYSCALL events SYSCALL_WAIT_CHECK r.

(** [fd_vnode t fd] is the vnode of an open file of table [t], and its device number. *)
Definition syscall_wait_check (x : process) (vnode rdev : Z) : res bool :=
  let vn := fd_vnode (fd_table x) (arg1 (blocked_call x)) in
  a ← (if vnode =? NULL then Val false else '(v, _) ← lift vn; Val (v =? vnode) : res bool);
  if a : bool then Val true
  else if rdev =? 0 then Val false else '(_, r) ← lift vn; Val (r =? rdev).

(** [proc->wait_check(proc, events, vnode, rdev)]; [other_check f] is the function at address [f]. *)
Definition call_wait_check (x : process) (events vnode rdev : Z) : res bool :=
  if wait_check x =? SYSCALL_WAIT_CHECK then syscall_wait_check x vnode rdev
  else Val (other_check (wait_check x) x events vnode rdev).

Fixpoint resume_loop (fuel : nat) st (cur events vnode rdev : Z) : res (sched A) :=
  if cur =? NULL then Val st
  else
    match fuel with
    | O => Undef
    | S fuel =>
        nx ← lift (_queue_next (nodes st) cur);
        x ← lift (procs st !! cur);
        ready ← (if (wait_check x =? NULL) || (Z.land events (wait_events x) =? 0) then Val false
                 else call_wait_check x events vnode rdev);
        st ← (if ready : bool then resume_proc st cur else Val st);
        resume_loop fuel st nx events vnode rdev
    end.

Definition resume_blocked_procs st (events vnode rdev : Z) : res (sched A) :=
  resume_loop (size (nodes st)) st (_queue_head (blocked_queue st)) events vnode rdev.

(** [uptime] is what get_monotonic_uptime returns. *)
Definition schedule st (uptime : Z) : res (sched A) :=
  let st := set_resched st 0 (next_reschedule_time st) in
  let cur := current_proc st in
  node ← (if cur =? NULL then Val (_queue_head (run_queue st))
          else
            x ← lift (procs st !! cur);
            if negb (PROC_IS_RUNNING x) then Val (_queue_head (run_queue st))
            else
              nx ← lift (_queue_next (nodes st) cur);
              if nx =? NULL then Val (_queue_head (run_queue st)) else Val nx);
  let next := if node =? NULL then idle_proc st else node in
  let st := set_resched (set_current st next) 0 (reschedule_after uptime) in
  let st := if next =? previous_proc st then st else add_call st (SwitchContext (previous_proc st) next) in
  x ← lift (procs st !! next);
  match state x with
  | PS_RESUMING => st ← modify st next (λ x, set_state x PS_RUNNING); restart_current_syscall st
  | _ => Val st
  end.

(** next_slotnum: the slot and the value of next_process_slot after it. *)
Fixpoint slot_loop (fuel : nat) (l : list Z) (slot : Z) (once : bool) : res (Z * Z) :=
  match fuel with
  | O => Undef
  | S fuel =>
      e ← lift (rd l slot);
      if e =? NULL then Val (slot, s32 (slot + 1))
      else
        let slot := s32 (slot + 1) in
        if CONFIG_MAX_PROCESSES <? slot then
          if once then Val (-1, slot) else slot_loop fuel l 0 true
        else slot_loop fuel l slot once
  end.
Definition next_slotnum st : res (Z * Z) :=
  slot_loop (Z.to_nat (2 * CONFIG_MAX_PROCESSES + 3)) (process_list st) (next_process_slot st) false.

Definition init_proc st : sched A :=
  set_next_pid (set_table st (replicate (Z.to_nat CONFIG_MAX_PROCESSES) NULL) 0 0) 2.

Definition no_action : sigaction := Sigaction 0 0 0 0.

(** init_signal_data *)
Definition init_signal_data (s : signal_data) : signal_data :=
  Signals 0 0 0 ((λ a, Sigaction NULL (sa_mask a) (sa_flags a) (sa_restorer a)) <$> actions s).

(** The memory kzalloc returns, as a process. *)
Definition zero_process : process :=
  Process (Ids 0 0 0 0 0 0 0 0 0 0 0) PS_RUNNING 0 0 0 0 0 NULL (Syscall 0 0 0 0 0 0)
    (Signals 0 0 0 (replicate SIG_HANDLERS_NUM no_action)) NULL NULL.

(** The process that new_proc fills in; [now] is the system time. *)
Definition fresh_process (slot n user now : Z) : process :=
  Process (Ids slot n n n INIT_PID n n user PROC_DEFAULT_UMASK 0 now) PS_RUNNING 0 0 0 0 0 NULL
    (blocked_call zero_process) (init_signal_data (signals zero_process)) NULL NULL.

(** A new process, or NULL. *)
Definition new_proc st (n user now : Z) : res (sched A * Z) :=
  let st' := if n =? 0 then set_next_pid st (s32 (next_pid st + 1)) else st in
  let n := if n =? 0 then next_pid st else n in
  let st := st' in
  if CONFIG_MAX_PROCESSES <=? num_processes st then Val (st, NULL)
  else
    '(slot, next_slot) ← next_slotnum st;
    let slot := s16 slot in
    let st := set_table st (process_list st) (num_processes st) next_slot in
    if slot <? 0 then Val (st, NULL)
    else
      '(a, p) ← kzalloc (kheap st) SIZEOF_PROCESS;
      let st := set_kheap st a in
      if p =? NULL then Val (st, NULL)
      else
        l ← lift (wr (process_list st) slot p);
        let st := set_table st l (s32 (num_processes st + 1)) (next_process_slot st) in
        let st := set_queues st (<[p := mk_node NULL NULL]> (nodes st)) (run_queue st) (blocked_queue st) in
        let st := add_call st (InitTimer p) in
        let st := add_call (set_procs st (<[p := fresh_process slot n user now]> (procs st))) (InitTask p) in
        st ← insert_proc st p;
        Val (st, p).

Definition cleanup_proc st (p : Z) : res (sched A) :=
  x ← lift (procs st !! p);
  e ← lift (rd (process_list st) (slotnum (ids x)));
  st ← (if e =? p then
          l ← lift (wr (process_list st) (slotnum (ids x)) NULL);
          Val (set_table st l (s32 (num_processes st - 1)) (next_process_slot st))
        else Val st);
  a ← kmfree (kheap st) p;
  let st := set_kheap st a in
  Val (set_queues (set_procs st (delete p (procs st))) (delete p (nodes st)) (run_queue st) (blocked_queue st)).

Definition set_proc_alarm st (p seconds : Z) : res (sched A * Z) :=
  if seconds =? 0 then Val (add_call st (RemoveTimer p), 0)
  else
    st ← modify st p (λ x, set_bits x (Z.lor (bits x) PB_ALARM_ON));
    Val (add_call st (AddTimer p seconds), 0).

(** create_idle_thread, without its kernel stack; [kmap] is the kernel's memory
    map and [files] what alloc_fd_table returns. *)
Definition create_idle_thread st (now kmap files : Z) : res (sched A * Z) :=
  '(st, p) ← new_proc st 0 0 now;
  if p =? NULL then Halt
  else
    st ← modify st p (λ x, set_map x kmap);
    st ← modify st p (λ x, set_fd_table x files);
    if files =? NULL then Halt else Val (st, p).

Definition init_scheduler st (now kmap files : Z) : res (sched A) :=
  let st := set_previous (set_current (set_resched st 1 0) NULL) NULL in
  let st := set_queues st (nodes st) _queue_init _queue_init in
  '(st, p) ← create_idle_thread st now kmap files;
  run_remove (set_idle st p) p.
End config.
