(* ===== verification/Schedinv.v ===== *)
(** * Schedinv: the invariant of the scheduler and what its operations do

    [sched_inv MAX st rl bl] says that the run queue holds exactly the processes
    that can run, but for the idle process, in the order [rl], and the blocked
    queue the blocked ones, [bl]; that the process table and the processes in
    memory agree; and that every process has a parent that has not exited, or
    init. *)

From S2P Require Import Prelude Queue Result Alloc Process.

(** ** Two queues that share a heap *)
Record links (h : Queue.heap) (run blk : queue) (rl bl : list Z) (idle : Z) : Prop := {
  lk_run : is_queue h run rl;
  lk_blk : is_queue h blk bl;
  lk_dis : ∀ p, p ∈ rl → p ∉ bl;
  lk_idle : idle ≠ NULL → h !! idle = Some (mk_node NULL NULL) ∧ (idle ∉ rl) ∧ (idle ∉ bl);
}.

Lemma links_swap h run blk rl bl idle : links h run blk rl bl idle → links h blk run bl rl idle.
Proof. intros [H1 H2 H3 H4]. split; try done; [set_solver|naive_solver]. Qed.

Lemma is_queue_frame h h' q l : (∀ x, x ∈ l → h' !! x = h !! x) → is_queue h q l → is_queue h' q l.
Proof. intros Hf (H1 & H2 & H3). split_and!; try done; [by eapply dlseg_ext|by destruct H3..]. Qed.

Lemma dom_frame (h h' : Queue.heap) (l : list Z) : (∀ y, y ∉ l → h' !! y = h !! y) →
  (∀ x, x ∈ l → is_Some (h !! x) ∧ is_Some (h' !! x)) → dom h' = dom h.
Proof.
  intros Hf Hl. apply set_eq. intros x. rewrite !elem_of_dom. destruct (decide (x ∈ l)) as [Hx|Hx].
  - split; intros _; by apply Hl.
  - by rewrite Hf.
Qed.

Lemma links_remove h run blk l1 p l2 bl idle : links h run blk (l1 ++ p :: l2) bl idle →
  ∃ h' run', _queue_remove h run p = Some (h', run') ∧ links h' run' blk (l1 ++ l2) bl idle ∧
    h' !! p = Some (mk_node NULL NULL) ∧ dom h' = dom h.
Proof.
  intros [H1 H2 H3 H4]. destruct (queue_remove_split _ _ _ _ _ H1) as (h' & run' & E & Hq & Hp & Hf).
  exists h', run'. split; [done|]. split; [|split; [done|]].
  - split; [done| |set_solver|].
    + eapply is_queue_frame; [|done]. intros x Hx. apply Hf. intros Hin. by apply (H3 x).
    + intros Hi. destruct (H4 Hi) as (Hn & Hr & Hb). rewrite Hf by done. set_solver.
  - apply (dom_frame _ _ (l1 ++ p :: l2)); [done|]. intros x Hx. split; [apply (is_queue_elem h run _ x H1 Hx)|].
    destruct (decide (x = p)) as [->|Hne]; [by rewrite Hp|].
    apply (is_queue_elem h' run' _ x Hq). set_solver.
Qed.

Lemma links_insert h run blk l1 p l2 bl idle : links h run blk (l1 ++ l2) bl idle →
  (p ∉ l1 ++ l2) → (p ∉ bl) → p ≠ NULL → p ≠ idle → is_Some (h !! p) →
  ∃ h' run', _queue_insert_after h run p (last_of NULL l1) = Some (h', run') ∧
    links h' run' blk (l1 ++ p :: l2) bl idle ∧ dom h' = dom h.
Proof.
  intros [H1 H2 H3 H4] Hp Hb Hnz Hi Hn.
  destruct (queue_insert_after_split _ _ _ _ p H1 Hp Hnz Hn) as (h' & run' & E & Hq & Hf).
  exists h', run'. split; [done|]. split.
  - split; [done| | |].
    + eapply is_queue_frame; [|done]. intros x Hx. apply Hf.
      intros [->|Hin]%elem_of_cons; [done|]. by apply (H3 x).
    + intros x Hx. assert (x = p ∨ x ∈ l1 ++ l2) as [->|Hin] by set_solver; [done|by apply H3].
    + intros Hin. destruct (H4 Hin) as (Hx & Hr & Hbl). rewrite Hf by set_solver. set_solver.
  - apply (dom_frame _ _ (p :: l1 ++ l2)); [done|].
    intros x Hx. split.
    + apply elem_of_cons in Hx as [->|Hx]; [done|]. apply (is_queue_elem h run _ x H1 Hx).
    + apply (is_queue_elem h' run' _ x Hq). set_solver.
Qed.

(** A node that is new. *)
Lemma links_fresh h run blk rl bl idle p nd : links h run blk rl bl idle → (p ∉ dom h) → p ≠ idle →
  links (<[p := nd]> h) run blk rl bl idle ∧ (p ∉ rl) ∧ (p ∉ bl).
Proof.
  intros [L1 L2 L3 L4] Hp Hi.
  assert (Hr : p ∉ rl) by (intros Hin; apply Hp, elem_of_dom, (is_queue_elem _ _ _ p L1 Hin)).
  assert (Hb : p ∉ bl) by (intros Hin; apply Hp, elem_of_dom, (is_queue_elem _ _ _ p L2 Hin)).
  split; [|done]. split; try done.
  - eapply is_queue_frame; [|exact L1]. intros q Hq. rewrite lookup_insert_ne; [done|]. by intros ->.
  - eapply is_queue_frame; [|exact L2]. intros q Hq. rewrite lookup_insert_ne; [done|]. by intros ->.
  - intros Hin. rewrite lookup_insert_ne by done. by apply L4.
Qed.

(** The next node of a queued one. *)
Lemma links_next h run blk l1 p l2 bl idle : links h run blk (l1 ++ p :: l2) bl idle →
  _queue_next h p = Some (first_of NULL l2).
Proof. intros [Hq _ _ _]. by eapply queue_next_at. Qed.

(** ** The invariant *)

(** Children of the processes in [gone] may be without a parent. *)
Record core {A} `{AllocLaws A} (gone : Z → Prop) (MAX : Z) (m : gmap Z process) (h : Queue.heap) (run blk : queue) (cur idle : Z)
    (tab : list Z) (num slot : Z) (a : A) (rl bl : list Z) : Prop := {
  co_links : links h run blk rl bl idle;
  co_dom : dom m = dom h;
  co_null : m !! NULL = None;
  co_states : ∀ p x, m !! p = Some x → p ≠ idle → (p ∈ rl ↔ PROC_IS_RUNNING x = true) ∧ (p ∈ bl ↔ state x = PS_BLOCKED);
  co_idle : idle ≠ NULL → ∃ x, m !! idle = Some x ∧ state x = PS_RUNNING;
  co_current : cur = NULL ∨ is_Some (m !! cur);
  co_length : zlen tab = MAX;
  co_table : ∀ k p, tab !! k = Some p → p ≠ NULL → ∃ x, m !! p = Some x ∧ slotnum (ids x) = Z.of_nat k;
  co_slots : ∀ p x, m !! p = Some x → 0 ≤ slotnum (ids x) ∧ tab !! Z.to_nat (slotnum (ids x)) = Some p;
  co_count : num = Z.of_nat (size m);
  co_next : 0 ≤ slot ≤ MAX;
  co_parents : ∀ p x, m !! p = Some x → parent (ids x) = INIT_PID ∨ gone (parent (ids x)) ∨
    ∃ q y, m !! q = Some y ∧ pid (ids y) = parent (ids x) ∧ state y ≠ PS_EXITED;
  co_actions : ∀ p x, m !! p = Some x → length (actions (signals x)) = SIG_HANDLERS_NUM;
  co_heap : ∃ live, alloc_inv a live ∧ dom m ⊆ live;
}.

Definition sched_inv {A} `{AllocLaws A} (MAX : Z) (st : sched A) (rl bl : list Z) : Prop :=
  core (λ _, False) MAX (procs st) (nodes st) (run_queue st) (blocked_queue st) (current_proc st) (idle_proc st)
    (process_list st) (num_processes st) (next_process_slot st) (kheap st) rl bl.

Section core.
Context {A : Type} `{AllocLaws A} (MAX : Z).
Implicit Types m : gmap Z process.

(** One process changes, and may move between the queues. *)
Lemma core_update (gone gone' : Z → Prop) m h run blk cur idle tab num slot a rl bl p x x' h' run' blk' rl' bl' :
  core gone MAX m h run blk cur idle tab num slot a rl bl → m !! p = Some x →
  links h' run' blk' rl' bl' idle → dom h' = dom h →
  (∀ q, q ≠ p → (q ∈ rl' ↔ q ∈ rl) ∧ (q ∈ bl' ↔ q ∈ bl)) →
  (p ≠ idle → (p ∈ rl' ↔ PROC_IS_RUNNING x' = true) ∧ (p ∈ bl' ↔ state x' = PS_BLOCKED)) →
  (p = idle → state x' = PS_RUNNING) →
  ids x' = ids x → length (actions (signals x')) = SIG_HANDLERS_NUM →
  (∀ n, gone n → gone' n) → (state x' = PS_EXITED → state x = PS_EXITED ∨ gone' (pid (ids x))) →
  core gone' MAX (<[p := x']> m) h' run' blk' cur idle tab num slot a rl' bl'.
Proof.
  intros [C1 C2 C3 C4 C5 C6 C7 C8 C9 C10 C11 C12 C13 C14] Hp Hl Hd Hq Hrun Hidle Hids Hact Hg Hex.
  assert (Hlook : ∀ q y, <[p := x']> m !! q = Some y → (q = p ∧ y = x') ∨ (q ≠ p ∧ m !! q = Some y)).
  { intros q y [[<- <-]|[? ?]]%lookup_insert_Some; auto. }
  assert (Hdom : dom (<[p := x']> m) = dom m) by (apply dom_insert_lookup_L; eauto).
  split; try done.
  - by rewrite Hdom, Hd.
  - rewrite lookup_insert_ne; [done|]. intros ->. congruence.
  - intros q y [[-> ->]|[Hne Hy]]%Hlook Hi; [by apply Hrun|].
    destruct (Hq q Hne) as [-> ->]. by apply C4.
  - intros Hi. destruct (decide (p = idle)) as [->|Hne].
    + exists x'. rewrite lookup_insert_eq. auto.
    + rewrite lookup_insert_ne by done. auto.
  - destruct C6 as [?|[y Hy]]; [by left|]. right. destruct (decide (p = cur)) as [->|Hne].
    + rewrite lookup_insert_eq. eauto.
    + rewrite lookup_insert_ne by done. eauto.
  - intros k q Hk Hnz. destruct (C8 k q Hk Hnz) as (y & Hy & Hs). destruct (decide (p = q)) as [->|Hne].
    + exists x'. rewrite lookup_insert_eq, Hids. replace x with y by congruence. done.
    + exists y. by rewrite lookup_insert_ne.
  - intros q y [[-> ->]|[Hne Hy]]%Hlook; [|by apply C9]. rewrite Hids. by apply C9.
  - rewrite map_size_insert, Hp. done.
  - intros q y Hy. assert (∃ z, m !! q = Some z ∧ ids z = ids y) as (z & Hz & <-)
      by (apply Hlook in Hy as [[-> ->]|[? ?]]; eauto).
    destruct (C12 q z Hz) as [?|[?|(r & w & Hr & Hpid & Hw)]]; [by left|by right; left; apply Hg|].
    destruct (decide (r = p)) as [->|Hne].
    + assert (w = x) as -> by congruence. destruct (decide (state x' = PS_EXITED)) as [He|He].
      * destruct (Hex He); [done|]. rewrite <- Hpid. auto.
      * right; right. exists p, x'. rewrite lookup_insert_eq, Hids. done.
    + right; right. exists r, w. by rewrite lookup_insert_ne.
  - intros q y [[-> ->]|[Hne Hy]]%Hlook; [done|by eapply C13].
  - by rewrite Hdom.
Qed.

Implicit Types st : sched A.
Abbreviation sched_ok := (sched_inv MAX).

Definition without (p : Z) (l : list Z) : list Z := filter (λ q, q ≠ p) l.

Lemma without_id p l : (p ∉ l) → without p l = l.
Proof.
  induction l as [|q l IH]; intros Hl; [done|]. unfold without. rewrite filter_cons, decide_True by set_solver.
  f_equal. apply IH. set_solver.
Qed.

Lemma without_cut p l : NoDup l → p ∈ l → ∃ l1 l2, l = l1 ++ p :: l2 ∧ without p l = l1 ++ l2.
Proof.
  intros Hnd Hp. apply list_elem_of_split in Hp as (l1 & l2 & ->). exists l1, l2. split; [done|].
  apply NoDup_app in Hnd as (_ & Hd & [Hn _]%NoDup_cons). unfold without.
  rewrite filter_app, filter_cons, decide_False by (by intros []).
  change (without p l1 ++ without p l2 = l1 ++ l2). by rewrite !without_id; [|done|set_solver].
Qed.

Lemma elem_of_without p q l : q ∈ without p l ↔ q ∈ l ∧ q ≠ p.
Proof. unfold without. rewrite list_elem_of_filter. naive_solver. Qed.

(** What an operation on the queues leaves alone. *)
Definition frame st st' : Prop :=
  current_proc st' = current_proc st ∧ previous_proc st' = previous_proc st ∧ idle_proc st' = idle_proc st ∧
  current_syscall st' = current_syscall st ∧ process_list st' = process_list st.

(** The change of a process that leaves it where it is. *)
Record keeps (x x' : process) : Prop := {
  kp_ids : ids x' = ids x;
  kp_actions : length (actions (signals x')) = length (actions (signals x));
  kp_running : PROC_IS_RUNNING x' = PROC_IS_RUNNING x;
  kp_blocked : state x' = PS_BLOCKED ↔ state x = PS_BLOCKED;
  kp_exited : state x' = PS_EXITED → state x = PS_EXITED;
  kp_idle : state x = PS_RUNNING → state x' = PS_RUNNING;
}.

Lemma modify_ok st rl bl p x f : sched_ok st rl bl → procs st !! p = Some x → keeps x (f x) →
  modify st p f = Val (set_procs st (<[p := f x]> (procs st))) ∧
  sched_ok (set_procs st (<[p := f x]> (procs st))) rl bl.
Proof.
  intros Hok Hp [K1 K2 K3 K4 K5 K6]. unfold modify. rewrite Hp. split; [done|]. unfold sched_inv. simpl.
  pose proof Hok as [C1 C2 C3 C4 C5 C6 C7 C8 C9 C10 C11 C12 C13 C14].
  eapply core_update; try done.
  - intros Hi. destruct (C4 p x Hp Hi) as [-> ->]. by rewrite K3, K4.
  - intros ->. apply K6. destruct (decide (idle_proc st = NULL)) as [E|E]; [congruence|].
    destruct (C5 E) as (y & Hy & Hs). congruence.
  - rewrite K2. by eapply C13.
  - intros He. left. auto.
Qed.

(** The invariant after one process has changed and moved. *)
Ltac by_update := unfold sched_inv; simpl; eapply (core_update (λ _, False) (λ _, False)); try done.

(** ** The moves between the queues *)
Lemma run_remove_ok st rl bl p : links (nodes st) (run_queue st) (blocked_queue st) rl bl (idle_proc st) → p ∈ rl →
  ∃ h q, run_remove st p = Val (set_queues st h q (blocked_queue st)) ∧
    links h q (blocked_queue st) (without p rl) bl (idle_proc st) ∧ dom h = dom (nodes st).
Proof.
  intros Hl Hp. pose proof (lk_run _ _ _ _ _ _ Hl) as (Hnd & _).
  destruct (without_cut p rl Hnd Hp) as (l1 & l2 & -> & ->).
  destruct (links_remove _ _ _ _ _ _ _ _ Hl) as (h & q & E & Hl' & _ & Hd).
  exists h, q. unfold run_remove. by rewrite E.
Qed.

Lemma blocked_remove_ok st rl bl p : links (nodes st) (run_queue st) (blocked_queue st) rl bl (idle_proc st) → p ∈ bl →
  ∃ h q, blocked_remove st p = Val (set_queues st h (run_queue st) q) ∧
    links h (run_queue st) q rl (without p bl) (idle_proc st) ∧ dom h = dom (nodes st).
Proof.
  intros Hl%links_swap Hp. pose proof (lk_run _ _ _ _ _ _ Hl) as (Hnd & _).
  destruct (without_cut p bl Hnd Hp) as (l1 & l2 & -> & ->).
  destruct (links_remove _ _ _ _ _ _ _ _ Hl) as (h & q & E & Hl'%links_swap & _ & Hd).
  exists h, q. unfold blocked_remove. by rewrite E.
Qed.

Lemma run_insert_ok st rl bl p : links (nodes st) (run_queue st) (blocked_queue st) rl bl (idle_proc st) →
  (p ∉ rl) → (p ∉ bl) → p ≠ NULL → p ≠ idle_proc st → is_Some (nodes st !! p) →
  ∃ h q, run_insert st p = Val (set_queues st h q (blocked_queue st)) ∧
    links h q (blocked_queue st) (p :: rl) bl (idle_proc st) ∧ dom h = dom (nodes st).
Proof.
  intros Hl Hr Hb Hn Hi Hs. destruct (links_insert _ _ _ [] p _ _ _ Hl Hr Hb Hn Hi Hs) as (h & q & E & Hl' & Hd).
  exists h, q. unfold run_insert. rewrite queue_insert_as_insert_after. simpl in E. by rewrite E.
Qed.

Lemma blocked_insert_ok st rl bl p : links (nodes st) (run_queue st) (blocked_queue st) rl bl (idle_proc st) →
  (p ∉ rl) → (p ∉ bl) → p ≠ NULL → p ≠ idle_proc st → is_Some (nodes st !! p) →
  ∃ h q, blocked_insert st p = Val (set_queues st h (run_queue st) q) ∧
    links h (run_queue st) q rl (p :: bl) (idle_proc st) ∧ dom h = dom (nodes st).
Proof.
  intros Hl%links_swap Hr Hb Hn Hi Hs.
  destruct (links_insert _ _ _ [] p _ _ _ Hl Hb Hr Hn Hi Hs) as (h & q & E & Hl'%links_swap & Hd).
  exists h, q. unfold blocked_insert. rewrite queue_insert_as_insert_after. simpl in E. by rewrite E.
Qed.

Lemma proc_facts st rl bl p x : sched_ok st rl bl → procs st !! p = Some x →
  p ≠ NULL ∧ is_Some (nodes st !! p) ∧ (p = idle_proc st → state x = PS_RUNNING) ∧
  length (actions (signals x)) = SIG_HANDLERS_NUM ∧
  (p ≠ idle_proc st → (p ∈ rl ↔ PROC_IS_RUNNING x = true) ∧ (p ∈ bl ↔ state x = PS_BLOCKED)).
Proof.
  intros [C1 C2 C3 C4 C5 C6 C7 C8 C9 C10 C11 C12 C13 C14] Hp.
  assert (Hnz : p ≠ NULL) by congruence. split_and!; [done| | |by eapply C13|by apply C4].
  - apply elem_of_dom. rewrite <- C2. by apply elem_of_dom.
  - intros ->. destruct (C5 Hnz) as (y & Hy & Hs). congruence.
Qed.

Definition parked (x : process) : bool := bool_decide (state x = PS_BLOCKED ∨ state x = PS_STOPPED).
Definition resumed (x : process) : process := if parked x then set_wait (set_state x PS_RESUMING) 0 NULL else x.

Lemma resume_proc_ok st rl bl p x : sched_ok st rl bl → procs st !! p = Some x →
  ∃ st', resume_proc st p = Val st' ∧ procs st' = <[p := resumed x]> (procs st) ∧ frame st st' ∧
    sched_ok st' (if parked x then p :: rl else rl) (if parked x then without p bl else bl).
Proof.
  intros Hok Hp. destruct (proc_facts _ _ _ _ _ Hok Hp) as (Hnz & Hn & Hi & Ha & Hm). unfold resume_proc. rewrite Hp.
  res_simpl. assert (Hsame : parked x = false → ∃ st', Val st = Val st' ∧ procs st' = <[p := resumed x]> (procs st) ∧
    frame st st' ∧ sched_ok st' rl bl).
  { intros E. exists st. unfold resumed. rewrite E, insert_id by done. done. }
  assert (Hpark : parked x = true → p ≠ idle_proc st) by (intros E Ei; unfold parked in E; rewrite (Hi Ei) in E; done).
  destruct (state x) eqn:Es; unfold parked in *; rewrite Es in *; simpl in *; try (by apply Hsame).
  - specialize (Hpark eq_refl). destruct (Hm Hpark) as [Hr Hb].
    destruct (blocked_remove_ok st rl bl p (co_links _ _ _ _ _ _ _ _ _ _ _ _ _ _ Hok)) as (h & q & -> & Hl & Hd); [by apply Hb|].
    res_simpl. assert (p ∉ rl) as Hnr by (rewrite Hr; unfold PROC_IS_RUNNING; rewrite Es; by simpl).
    destruct (run_insert_ok (set_queues st h (run_queue st) q) rl (without p bl) p Hl) as (h' & q' & -> & Hl' & Hd'); try done.
    { rewrite elem_of_without. naive_solver. }
    { apply elem_of_dom. simpl. rewrite Hd. by apply elem_of_dom. }
    res_simpl. unfold modify. cbn [procs set_queues]. rewrite Hp. res_simpl. eexists. split; [done|].
    unfold resumed, parked. rewrite Es. split; [done|]. split; [done|]. simpl in *.
    by_update; [by rewrite Hd', Hd| | ].
    + intros y Hy. rewrite elem_of_without, elem_of_cons. naive_solver.
    + intros _. rewrite elem_of_without, elem_of_cons. simpl. naive_solver.
  - specialize (Hpark eq_refl). destruct (Hm Hpark) as [Hr Hb].
    assert (p ∉ rl) as Hnr by (rewrite Hr; unfold PROC_IS_RUNNING; rewrite Es; by simpl).
    assert (p ∉ bl) as Hnb by (rewrite Hb; done).
    destruct (run_insert_ok st rl bl p (co_links _ _ _ _ _ _ _ _ _ _ _ _ _ _ Hok)) as (h' & q' & -> & Hl' & Hd'); try done.
    res_simpl. unfold modify. cbn [procs set_queues]. rewrite Hp. res_simpl. eexists. split; [done|].
    unfold resumed, parked. rewrite Es. split; [done|]. split; [done|]. simpl in *. rewrite without_id by done.
    by_update.
    + intros y Hy. rewrite elem_of_cons. naive_solver.
    + intros _. rewrite elem_of_cons. simpl. naive_solver.
Qed.

Definition stopped (x : process) : process := match state x with PS_EXITED => x | _ => set_state x PS_STOPPED end.

(** Where the state of a process puts it. *)
Lemma state_lists st rl bl p x : sched_ok st rl bl → procs st !! p = Some x → p ≠ idle_proc st →
  match state x with
  | PS_RUNNING | PS_RESUMING => p ∈ rl ∧ (p ∉ bl)
  | PS_BLOCKED => (p ∉ rl) ∧ p ∈ bl
  | _ => (p ∉ rl) ∧ (p ∉ bl)
  end.
Proof.
  intros Hok Hp Hi. destruct (proc_facts _ _ _ _ _ Hok Hp) as (_ & _ & _ & _ & Hm).
  destruct (Hm Hi) as [Hr Hb]. unfold PROC_IS_RUNNING in Hr. destruct (state x); simpl in Hr; naive_solver.
Qed.

Lemma state_blocked st rl bl p x : sched_ok st rl bl → procs st !! p = Some x → p ∈ bl → state x = PS_BLOCKED.
Proof.
  intros Hok Hp Hin. destruct (proc_facts _ _ _ _ _ Hok Hp) as (Hnz & _ & _ & _ & Hm).
  destruct (decide (p = idle_proc st)) as [E|E]; [|by apply Hm].
  destruct (lk_idle _ _ _ _ _ _ (co_links _ _ _ _ _ _ _ _ _ _ _ _ _ _ Hok)) as (_ & _ & Hb); congruence.
Qed.

Lemma stop_proc_ok st rl bl p x : sched_ok st rl bl → procs st !! p = Some x → p ≠ idle_proc st →
  ∃ st', stop_proc st p = Val st' ∧ procs st' = <[p := stopped x]> (procs st) ∧ frame st st' ∧
    sched_ok st' (without p rl) (without p bl).
Proof.
  intros Hok Hp Hi. pose proof (state_lists _ _ _ _ _ Hok Hp Hi) as Hm.
  destruct (proc_facts _ _ _ _ _ Hok Hp) as (_ & _ & _ & Ha & _).
  unfold stop_proc, stopped. rewrite Hp. res_simpl.
  assert (Hnext : ∀ h r b, links h r b (without p rl) (without p bl) (idle_proc st) → dom h = dom (nodes st) →
    sched_ok (request_reschedule (set_procs (set_queues st h r b) (<[p := set_state x PS_STOPPED]> (procs st))))
      (without p rl) (without p bl)).
  { intros h r b Hl Hd. by_update.
    - intros q Hq. rewrite !elem_of_without. naive_solver.
    - intros _. rewrite !elem_of_without. simpl. naive_solver. }
  destruct (state x) eqn:Es; destruct Hm as [Hr Hb].
  1,2: destruct (run_remove_ok st rl bl p (co_links _ _ _ _ _ _ _ _ _ _ _ _ _ _ Hok) Hr) as (h & q & -> & Hl & Hd);
    res_simpl; unfold modify; cbn [procs set_queues]; rewrite Hp; res_simpl; eexists; (split; [done|]); (split; [done|]);
    (split; [done|]); apply Hnext; [by rewrite (without_id p bl)|done].
  - destruct (blocked_remove_ok st rl bl p (co_links _ _ _ _ _ _ _ _ _ _ _ _ _ _ Hok) Hb) as (h & q & -> & Hl & Hd).
    res_simpl. unfold modify. cbn [procs set_queues]. rewrite Hp. res_simpl. eexists. split; [done|]. split; [done|].
    split; [done|]. apply Hnext; [by rewrite (without_id p rl)|done].
  - exists st. rewrite !without_id by done. split; [done|]. split; [|done]. rewrite insert_id; [done|].
    destruct x; simpl in *. by rewrite <- Es.
  - exists st. by rewrite !without_id, insert_id by done.
Qed.

Definition suspended (x : process) (flags : Z) : process :=
  match state x with
  | PS_RUNNING => set_bits (set_state x PS_BLOCKED) (Z.lor (bits x) (u32 (Z.land flags PB_BLOCK_CONDITIONS)))
  | _ => x
  end.

Lemma suspend_proc_ok st rl bl p x flags : sched_ok st rl bl → procs st !! p = Some x → p ≠ idle_proc st →
  ∃ st', suspend_proc st p flags = Val st' ∧ procs st' = <[p := suspended x flags]> (procs st) ∧ frame st st' ∧
    sched_ok st' (if bool_decide (state x = PS_RUNNING) then without p rl else rl)
      (if bool_decide (state x = PS_RUNNING) then p :: bl else bl).
Proof.
  intros Hok Hp Hi. pose proof (state_lists _ _ _ _ _ Hok Hp Hi) as Hm.
  destruct (proc_facts _ _ _ _ _ Hok Hp) as (Hnz & Hn & _ & Ha & _).
  unfold suspend_proc, suspended. rewrite Hp. res_simpl.
  destruct (state x) eqn:Es; destruct Hm as [Hr Hb]; simpl; try (exists st; by rewrite insert_id by done).
  destruct (run_remove_ok st rl bl p (co_links _ _ _ _ _ _ _ _ _ _ _ _ _ _ Hok) Hr) as (h & q & -> & Hl & Hd). res_simpl.
  destruct (blocked_insert_ok (set_queues st h q (blocked_queue st)) (without p rl) bl p Hl) as (h' & q' & -> & Hl' & Hd'); try done.
  { rewrite elem_of_without. naive_solver. }
  { apply elem_of_dom. simpl. rewrite Hd. by apply elem_of_dom. }
  res_simpl. unfold modify. cbn [procs set_queues]. rewrite Hp. res_simpl. eexists. split; [done|]. split; [done|].
  split; [done|]. simpl in Hd'. by_update; [by rewrite Hd', Hd| |].
  - intros y Hy. rewrite elem_of_without, elem_of_cons. naive_solver.
  - intros _. rewrite elem_of_without, elem_of_cons. simpl. naive_solver.
Qed.

(** ** The compound operations *)

(** The process that is to run next goes behind the current one. *)
Lemma reschedule_now_ok st rl bl p x : sched_ok st rl bl → procs st !! p = Some x → p ≠ idle_proc st →
  p = current_proc st ∨ current_proc st ≠ NULL ∧ current_proc st ≠ idle_proc st →
  ∃ st' rl', reschedule_proc_to_now st p = Val st' ∧ procs st' = procs st ∧ frame st st' ∧ sched_ok st' rl' bl ∧
    rl' ≡ₚ rl.
Proof.
  intros Hok Hp Hi Hc. unfold reschedule_proc_to_now.
  assert (Hsame : ∃ st' rl', Val st = Val st' ∧ procs st' = procs st ∧ frame st st' ∧ sched_ok st' rl' bl ∧ rl' ≡ₚ rl)
    by (by exists st, rl).
  destruct (Z.eqb_spec p (current_proc st)) as [|Hne]; [done|]. destruct Hc as [|[Hcn Hci]]; [done|].
  rewrite Hp. res_simpl. destruct (PROC_IS_RUNNING x) eqn:Hx; [|done]. cbn [negb].
  destruct (co_current _ _ _ _ _ _ _ _ _ _ _ _ _ _ Hok) as [|[y Hy]]; [done|]. rewrite Hy. res_simpl.
  destruct (PROC_IS_RUNNING y) eqn:Hry; [|done]. cbn [negb].
  destruct (proc_facts _ _ _ _ _ Hok Hp) as (Hnz & Hn & _ & Ha & Hm). destruct (Hm Hi) as [Hr Hb].
  destruct (proc_facts _ _ _ _ _ Hok Hy) as (_ & _ & _ & _ & Hmy). destruct (Hmy Hci) as [Hcr _].
  pose proof (co_links _ _ _ _ _ _ _ _ _ _ _ _ _ _ Hok) as Hlk. pose proof (lk_run _ _ _ _ _ _ Hlk) as (Hnd & _).
  destruct (run_remove_ok st rl bl p Hlk) as (h & q & -> & Hl & Hd); [by apply Hr|]. res_simpl.
  assert (current_proc st ∈ without p rl) as Hin by (rewrite elem_of_without; naive_solver).
  apply list_elem_of_split in Hin as (l1 & l2 & E). rewrite E in Hl.
  replace (l1 ++ current_proc st :: l2) with ((l1 ++ [current_proc st]) ++ l2) in Hl by (by rewrite <- app_assoc).
  destruct (links_insert h q (blocked_queue st) _ p l2 bl (idle_proc st) Hl) as (h' & q' & Ei & Hl' & Hd'); try done.
  { rewrite <- app_assoc. change ([current_proc st] ++ l2) with (current_proc st :: l2). rewrite <- E, elem_of_without. naive_solver. }
  { intros Hpb. apply Hb in Hpb. unfold PROC_IS_RUNNING in Hx. by rewrite Hpb in Hx. }
  { apply elem_of_dom. rewrite Hd. by apply elem_of_dom. }
  rewrite last_of_app in Ei. cbn [nodes run_queue current_proc set_queues]. rewrite Ei. res_simpl.
  eexists _, _. split; [done|]. split; [done|]. split; [done|].
  assert (Hperm : (l1 ++ [current_proc st]) ++ p :: l2 ≡ₚ rl).
  { destruct (without_cut p rl Hnd) as (k1 & k2 & -> & Ek); [by apply Hr|]. rewrite <- Permutation_middle, <- app_assoc.
    change ([current_proc st] ++ l2) with (current_proc st :: l2). rewrite <- E, Ek. by rewrite Permutation_middle. }
  split; [|done]. unfold sched_inv. simpl. replace (procs st) with (<[p := x]> (procs st)) by (by apply insert_id).
  by_update; [by rewrite Hd', Hd| | |by left].
  - intros z _. by rewrite Hperm.
  - intros _. by rewrite Hperm.
Qed.

Definition sigs (x : process) : signal_data * Z := (signals x, signal_pending x).

(** Process [p], which was [x], is in state [s] now, and nobody else changed. *)
Definition becomes st st' (p : Z) (x : process) (s : proc_state) : Prop :=
  ∃ x' rl bl, procs st' = <[p := x']> (procs st) ∧ frame st st' ∧ sched_ok st' rl bl ∧
    ids x' = ids x ∧ sigs x' = sigs x ∧ state x' = s.

Lemma becomes_refl st rl bl p x : sched_ok st rl bl → procs st !! p = Some x → becomes st st p x (state x).
Proof. intros Hok Hp. exists x, rl, bl. by rewrite insert_id. Qed.

Lemma becomes_step st st' st'' p x s s' : becomes st st' p x s →
  (∀ x' rl bl, procs st' !! p = Some x' → sched_ok st' rl bl → state x' = s → ids x' = ids x → sigs x' = sigs x →
     becomes st' st'' p x' s') → becomes st st'' p x s'.
Proof.
  intros (y & rl' & bl' & Em & Hf & Hok & Hids & Hsig & Hs) Hstep.
  destruct (Hstep y rl' bl') as (z & rl2 & bl2 & Em' & Hf' & Hok' & Hids' & Hsig' & Hs'); try done.
  { rewrite Em. apply lookup_insert_eq. }
  exists z, rl2, bl2. rewrite Em', Em, insert_insert_eq. destruct Hf as (?&?&?&?&?), Hf' as (?&?&?&?&?).
  unfold frame. split_and!; congruence || done.
Qed.

(** A change that does not move the process. *)
Lemma modify_becomes st rl bl p x f : sched_ok st rl bl → procs st !! p = Some x → keeps x (f x) →
  sigs (f x) = sigs x → ∃ st', modify st p f = Val st' ∧ becomes st st' p x (state (f x)).
Proof.
  intros Hok Hp Hk Hs. destruct (modify_ok st rl bl p x f Hok Hp Hk) as [E Hok']. eexists. split; [exact E|].
  exists (f x), rl, bl. split; [done|]. split; [done|]. split; [done|]. split; [apply Hk|done].
Qed.

Lemma resume_becomes st rl bl p x : sched_ok st rl bl → procs st !! p = Some x →
  ∃ st', resume_proc st p = Val st' ∧ becomes st st' p x (if parked x then PS_RESUMING else state x).
Proof.
  intros Hok Hp. destruct (resume_proc_ok st rl bl p x Hok Hp) as (st' & E & Em & Hf & Hok').
  exists st'. split; [done|]. eexists (resumed x), _, _. split; [done|]. split; [done|]. split; [done|].
  unfold resumed. by destruct (parked x).
Qed.

Lemma keeps_running x x' : ids x' = ids x → sigs x' = sigs x → PROC_IS_RUNNING x = true → state x' = PS_RUNNING → keeps x x'.
Proof.
  intros Hi [= Hs _] Hr Hr'. unfold PROC_IS_RUNNING in *. split; try done; unfold PROC_IS_RUNNING; rewrite ?Hr', ?Hs; try done.
  split; [done|]. intros E. by rewrite E in Hr.
Qed.

Lemma keeps_state x x' : ids x' = ids x → signals x' = signals x → state x' = state x → keeps x x'.
Proof. intros Hi Hs Hr. split; unfold PROC_IS_RUNNING; rewrite ?Hr, ?Hs; done. Qed.

Lemma no_restart_ok st rl bl p x : sched_ok st rl bl → procs st !! p = Some x → p ≠ idle_proc st →
  state x ≠ PS_EXITED → p = current_proc st ∨ current_proc st ≠ NULL ∧ current_proc st ≠ idle_proc st →
  ∃ st', resume_proc_without_restart st p = Val st' ∧ becomes st st' p x PS_RUNNING.
Proof.
  intros Hok Hp Hi Hx Hc. unfold resume_proc_without_restart.
  destruct (resume_becomes st rl bl p x Hok Hp) as (st1 & -> & x1 & rl1 & bl1 & E1 & F1 & Hok1 & I1 & S1 & T1). res_simpl.
  assert (Hp1 : procs st1 !! p = Some x1) by (rewrite E1; apply lookup_insert_eq).
  assert (Hr : PROC_IS_RUNNING x1 = true)
    by (unfold PROC_IS_RUNNING; rewrite T1; unfold parked; destruct (state x) eqn:Es; simpl; congruence).
  destruct (modify_ok st1 rl1 bl1 p x1 (λ x, set_state x PS_RUNNING) Hok1 Hp1) as [-> Hok2]; [by apply keeps_running|].
  res_simpl. set (st2 := set_procs _ _) in *. destruct F1 as (G1 & G2 & G3 & G4 & G5).
  destruct (reschedule_now_ok st2 rl1 bl1 p (set_state x1 PS_RUNNING) Hok2) as (st3 & rl3 & E3 & Em & F3 & Hok3 & _).
  { apply lookup_insert_eq. }
  { simpl. by rewrite G3. }
  { simpl. by rewrite G1, G3. }
  rewrite E3. exists st3. split; [done|]. exists (set_state x1 PS_RUNNING), rl3, bl1. split.
  { rewrite Em. simpl. by rewrite E1, insert_insert_eq. }
  split; [|split; [done|by split]]. unfold frame in *. simpl in F3. by rewrite <- G1, <- G2, <- G3, <- G4, <- G5.
Qed.

(** What cancel_syscall leaves of a state. *)
Definition cancelled (s : proc_state) : proc_state :=
  match s with PS_BLOCKED | PS_RESUMING => PS_RUNNING | s => s end.

Lemma cancel_syscall_ok st rl bl p x : sched_ok st rl bl → procs st !! p = Some x →
  ∃ st', cancel_syscall st p = Val st' ∧ becomes st st' p x (cancelled (state x)).
Proof.
  intros Hok Hp. unfold cancel_syscall. rewrite Hp. res_simpl.
  assert (∃ st1, match state x with PS_BLOCKED => resume_proc st p | _ => Val st end = Val st1 ∧
    becomes st st1 p x (match state x with PS_BLOCKED => PS_RESUMING | s => s end))
    as (st1 & -> & x1 & rl1 & bl1 & E1 & F1 & Hok1 & I1 & S1 & T1).
  { destruct (state x) eqn:Es; try (exists st; split; [done|]; rewrite <- Es; by eapply becomes_refl).
    destruct (resume_becomes st rl bl p x Hok Hp) as (st1 & -> & Hb). unfold parked in Hb. rewrite Es in Hb. eauto. }
  res_simpl. assert (Hp1 : procs st1 !! p = Some x1) by (rewrite E1; apply lookup_insert_eq). rewrite Hp1. res_simpl.
  assert (∃ st2, match state x1 with PS_RESUMING => modify st1 p (λ x, set_state x PS_RUNNING) | _ => Val st1 end = Val st2 ∧
    becomes st1 st2 p x1 (cancelled (state x))) as (st2 & -> & x2 & rl2 & bl2 & E2 & F2 & Hok2 & I2 & S2 & T2).
  { rewrite T1. destruct (state x) eqn:Es; try (exists st1; split; [done|]; simpl; rewrite <- T1; by eapply becomes_refl).
    all: apply (modify_becomes st1 rl1 bl1 p x1 (λ x, set_state x PS_RUNNING)); try done; apply keeps_running; try done;
      unfold PROC_IS_RUNNING; by rewrite T1. }
  res_simpl. assert (Hp2 : procs st2 !! p = Some x2) by (rewrite E2; apply lookup_insert_eq).
  unfold set_proc_return_value, modify. rewrite Hp2. res_simpl. cbn [procs set_procs]. rewrite lookup_insert_eq.
  res_simpl. cbn [procs set_procs]. rewrite lookup_insert_eq. res_simpl. cbn [procs set_procs].
  rewrite !insert_insert_eq. eexists. split; [done|].
  set (x3 := set_bits (set_return_value _ _) _). exists x3, rl2, bl2. unfold frame in *.
  split; [simpl; by rewrite E2, E1, !insert_insert_eq|]. destruct F1 as (?&?&?&?&?), F2 as (?&?&?&?&?).
  split; [simpl; split_and!; congruence|]. split; [|simpl; split_and!; [congruence| |done]; unfold sigs in *; simpl; congruence].
  eapply (modify_ok st2 rl2 bl2 p x2 (λ _, x3)); [done|done|]. by apply keeps_state.
Qed.

(** ** Exiting *)

(** Children of [n] become children of init. *)
Definition adopt (n : Z) (x : process) : process := if parent (ids x) =? n then set_parent x INIT_PID else x.

Lemma adopt_fields n x : state (adopt n x) = state x ∧ signals (adopt n x) = signals x ∧
  slotnum (ids (adopt n x)) = slotnum (ids x) ∧ pid (ids (adopt n x)) = pid (ids x) ∧
  (parent (ids (adopt n x)) = INIT_PID ∨ parent (ids (adopt n x)) = parent (ids x) ∧ parent (ids x) ≠ n).
Proof. unfold adopt. destruct (Z.eqb_spec (parent (ids x)) n); simpl; auto 10. Qed.

Lemma adopt_twice n x : adopt n (adopt n x) = adopt n x.
Proof.
  unfold adopt. destruct (Z.eqb_spec (parent (ids x)) n) as [E|E]; [|by rewrite (proj2 (Z.eqb_neq _ _) E)].
  by destruct (parent (ids (set_parent x INIT_PID)) =? n).
Qed.

Lemma orphan_loop_ok n l : ∀ m k, (∀ q, q ∈ l → q ≠ NULL → is_Some (m !! q)) →
  ∃ m' k', orphan_loop m n l k = Val (m', k') ∧
    ∀ q, m' !! q = if decide (q ∈ l ∧ q ≠ NULL) then adopt n <$> m !! q else m !! q.
Proof.
  induction l as [|p l IH]; intros m k Hl; cbn [orphan_loop].
  { exists m, k. split; [done|]. intros q. rewrite decide_False by set_solver. done. }
  destruct (Z.eqb_spec p NULL) as [->|Hp].
  { destruct (IH m k) as (m' & k' & -> & Hm'); [set_solver|]. exists m', k'. split; [done|]. intros q. rewrite Hm'.
    destruct (decide (q ∈ l ∧ q ≠ NULL)), (decide (q ∈ NULL :: l ∧ q ≠ NULL)); set_solver. }
  destruct (Hl p) as [x Hx]; [set_solver|done|]. rewrite Hx. res_simpl.
  assert (Hgen : ∀ k, ∃ m' k', orphan_loop (<[p := adopt n x]> m) n l k = Val (m', k') ∧
    ∀ q, m' !! q = if decide (q ∈ p :: l ∧ q ≠ NULL) then adopt n <$> m !! q else m !! q).
  { intros k0. destruct (IH (<[p := adopt n x]> m) k0) as (m' & k' & -> & Hm').
    { intros q Hq Hnz. destruct (decide (p = q)) as [->|]; [rewrite lookup_insert_eq; eauto|].
      rewrite lookup_insert_ne by done. apply Hl; set_solver. }
    exists m', k'. split; [done|]. intros q. rewrite Hm'. destruct (decide (p = q)) as [->|Hne].
    - rewrite lookup_insert_eq, Hx. rewrite (decide_True (P := q ∈ q :: l ∧ q ≠ NULL)) by set_solver. simpl.
      case_decide; simpl; by rewrite ?adopt_twice.
    - rewrite lookup_insert_ne by done.
      destruct (decide (q ∈ l ∧ q ≠ NULL)), (decide (q ∈ p :: l ∧ q ≠ NULL)); set_solver. }
  unfold adopt in Hgen at 1. destruct (parent (ids x) =? n); [apply Hgen|].
  specialize (Hgen k). rewrite insert_id in Hgen by done. done.
Qed.

Lemma table_has gone m h run blk cur idle tab num slot a rl bl :
  core gone MAX m h run blk cur idle tab num slot a rl bl → ∀ q, q ∈ tab ∧ q ≠ NULL ↔ is_Some (m !! q).
Proof.
  intros [_ _ C3 _ _ _ _ C8 C9 _ _ _ _ _] q. split.
  - intros [[k Hk]%list_elem_of_lookup Hnz]. destruct (C8 k q Hk Hnz) as (x & Hx & _). eauto.
  - intros [x Hx]. destruct (C9 q x Hx) as [_ Ht]. split; [by eapply list_elem_of_lookup_2|congruence].
Qed.

Lemma core_adopt m h run blk cur idle tab num slot a rl bl n :
  core (λ k, k = n) MAX m h run blk cur idle tab num slot a rl bl →
  core (λ _, False) MAX (adopt n <$> m) h run blk cur idle tab num slot a rl bl.
Proof.
  intros [C1 C2 C3 C4 C5 C6 C7 C8 C9 C10 C11 C12 C13 C14].
  assert (Hl : ∀ p x, (adopt n <$> m) !! p = Some x → ∃ y, m !! p = Some y ∧ x = adopt n y).
  { intros p x. rewrite lookup_fmap. intros (y & ? & ?)%fmap_Some. eauto. }
  split; try done.
  - by rewrite dom_fmap_L.
  - by rewrite lookup_fmap, C3.
  - intros p x (y & Hy & ->)%Hl Hi. unfold PROC_IS_RUNNING. destruct (adopt_fields n y) as (-> & _). by apply C4.
  - intros Hi. destruct (C5 Hi) as (y & Hy & Hs). exists (adopt n y). rewrite lookup_fmap, Hy.
    destruct (adopt_fields n y) as (-> & _). done.
  - rewrite lookup_fmap. destruct C6 as [?|[y Hy]]; [by left|]. right. rewrite Hy. eauto.
  - intros k p Hk Hnz. destruct (C8 k p Hk Hnz) as (y & Hy & Hs). exists (adopt n y). rewrite lookup_fmap, Hy.
    destruct (adopt_fields n y) as (_ & _ & -> & _). done.
  - intros p x (y & Hy & ->)%Hl. destruct (adopt_fields n y) as (_ & _ & -> & _). by apply C9.
  - by rewrite map_size_fmap.
  - intros p x (y & Hy & ->)%Hl. destruct (adopt_fields n y) as (_ & _ & _ & _ & [->|[-> Hne]]); [by left|].
    destruct (C12 p y Hy) as [?|[?|(q & z & Hq & Hpid & Hz)]]; [by left|done|]. right; right.
    exists q, (adopt n z). rewrite lookup_fmap, Hq. destruct (adopt_fields n z) as (-> & _ & _ & -> & _). done.
  - intros p x (y & Hy & ->)%Hl. destruct (adopt_fields n y) as (_ & -> & _). by eapply C13.
  - by rewrite dom_fmap_L.
Qed.

(** The invariant while the children of the exiting process have no parent. *)
Definition exiting st (n : Z) (rl bl : list Z) : Prop :=
  core (λ k, k = n) MAX (procs st) (nodes st) (run_queue st) (blocked_queue st) (current_proc st) (idle_proc st)
    (process_list st) (num_processes st) (next_process_slot st) (kheap st) rl bl.

(** What happens to the others. *)
Definition later st st' : Prop :=
  current_proc st' = current_proc st ∧ idle_proc st' = idle_proc st ∧ current_syscall st' = current_syscall st ∧
  ∀ q y, procs st !! q = Some y → ∃ y', procs st' !! q = Some y' ∧ pid (ids y') = pid (ids y) ∧
    signals y' = signals y ∧ (state y = PS_EXITED → state y' = PS_EXITED) ∧ (state y' = PS_EXITED → state y = PS_EXITED).

Lemma later_refl st : later st st.
Proof. unfold later. naive_solver. Qed.

Lemma later_trans st1 st2 st3 : later st1 st2 → later st2 st3 → later st1 st3.
Proof.
  intros (A1 & A2 & A3 & A4) (B1 & B2 & B3 & B4). split_and!; try congruence.
  intros q y Hy. destruct (A4 q y Hy) as (y' & Hy' & ? & ? & ?). destruct (B4 q y' Hy') as (z & Hz & ? & ? & ?).
  exists z. split_and!; try congruence; naive_solver.
Qed.

Lemma close_proc_ok st p x rl bl : procs st !! p = Some x → state x = PS_EXITED → exiting st (pid (ids x)) rl bl →
  ∃ st' k, close_proc st p = Val (st', k) ∧ sched_ok st' rl bl ∧ later st st'.
Proof.
  intros Hp Hx Hok. unfold close_proc.
  set (st1 := add_call _ (RemoveTimer p)). assert (E1 : procs st1 = procs st) by (subst st1; by destruct (p =? previous_proc st)).
  rewrite E1, Hp. res_simpl. set (st2 := if fd_table x =? NULL then st1 else _).
  set (m3 := if map x =? NULL then procs st else <[p := set_map x NULL]> (procs st)).
  set (st3 := set_procs (if map x =? NULL then st2 else add_call st2 (FreeMap (map x))) m3).
  assert (E3 : (if map x =? NULL then Val st2 else modify (add_call st2 (FreeMap (map x))) p (λ x, set_map x NULL)) = Val st3).
  { assert (procs st2 = procs st) as E2 by (subst st2; by destruct (fd_table x =? NULL)). subst st3 m3.
    destruct (map x =? NULL); [|unfold modify; simpl; by rewrite E2, Hp]. rewrite <- E2. by destruct st2. }
  rewrite E3. res_simpl.
  assert (Hok3 : exiting st3 (pid (ids x)) rl bl).
  { assert (exiting (set_procs st m3) (pid (ids x)) rl bl) as He.
    { subst m3. destruct (map x =? NULL); [exact Hok|]. unfold exiting. simpl.
      pose proof Hok as [C1 C2 C3 C4 C5 C6 C7 C8 C9 C10 C11 C12 C13 C14].
      eapply core_update; try done; [exact (C4 p x Hp)| |exact (C13 p x Hp)|by left].
      intros Ei. destruct (C5 ltac:(congruence)) as (y & Hy & Hs). congruence. }
    unfold exiting in *. subst st3 st2 st1. by destruct (map x =? NULL), (fd_table x =? NULL), (p =? previous_proc st). }
  assert (Hc : later st st3).
  { split_and!; [subst st3 st2 st1; by destruct (map x =? NULL), (fd_table x =? NULL), (p =? previous_proc st)..|].
    intros q y Hy. subst st3. cbn [procs set_procs]. subst m3. destruct (map x =? NULL); [by exists y|].
    destruct (decide (p = q)) as [->|]; [|rewrite lookup_insert_ne by done; by exists y].
    rewrite lookup_insert_eq. replace y with x by congruence. by eexists. }
  clearbody st3. clear E3 m3 st2 st1 E1. unfold exiting in Hok3.
  destruct (orphan_loop_ok (pid (ids x)) (process_list st3) (procs st3) 0) as (m' & k & -> & Hm').
  { intros q Hq Hnz. by apply (table_has _ _ _ _ _ _ _ _ _ _ _ _ _ Hok3). }
  res_simpl. assert (m' = adopt (pid (ids x)) <$> procs st3) as ->.
  { apply map_eq. intros q. rewrite Hm', lookup_fmap. case_decide as Hd; [done|].
    destruct (procs st3 !! q) as [y|] eqn:Hy; [|done]. destruct Hd. apply (table_has _ _ _ _ _ _ _ _ _ _ _ _ _ Hok3). eauto. }
  eexists _, _. split; [done|]. split; [by apply core_adopt|]. eapply later_trans; [exact Hc|].
  split_and!; [done..|]. intros q y Hy. exists (adopt (pid (ids x)) y). simpl. rewrite lookup_fmap, Hy.
  destruct (adopt_fields (pid (ids x)) y) as (-> & -> & _ & -> & _). done.
Qed.

Lemma first_proc_ok m test l : (∀ q, q ∈ l → q ≠ NULL → is_Some (m !! q)) →
  ∃ p, first_proc m test l = Val p ∧
    ((p = NULL ∧ ∀ q x, q ∈ l → q ≠ NULL → m !! q = Some x → test x = false) ∨
     (p ∈ l ∧ p ≠ NULL ∧ ∃ x, m !! p = Some x ∧ test x = true)).
Proof.
  induction l as [|p l IH]; intros Hl; cbn [first_proc].
  { exists NULL. split; [done|]. left. split; [done|]. intros q x Hq. by apply elem_of_nil in Hq. }
  destruct IH as (r & Er & Hr); [set_solver|]. destruct (Z.eqb_spec p NULL) as [->|Hp].
  { exists r. split; [done|]. destruct Hr as [[-> Hr]|(Hin & Hrest)]; [left|right; set_solver].
    split; [done|]. intros q x [->|Hq]%elem_of_cons Hnz; [done|eauto]. }
  destruct (Hl p) as [x Hx]; [set_solver|done|]. rewrite Hx. res_simpl. destruct (test x) eqn:Ht.
  - exists p. split; [done|]. right. split; [set_solver|]. eauto.
  - exists r. split; [done|]. destruct Hr as [[-> Hr]|(Hin & Hrest)]; [left|right; set_solver].
    split; [done|]. intros q y [->|Hq]%elem_of_cons Hnz Hy; [congruence|eauto].
Qed.

Lemma get_proc_ok st rl bl n q y : sched_ok st rl bl → procs st !! q = Some y → pid (ids y) = n →
  ∃ p x, get_proc st n = Val p ∧ procs st !! p = Some x ∧ pid (ids x) = n.
Proof.
  intros Hok Hq Hn. pose proof (table_has _ _ _ _ _ _ _ _ _ _ _ _ _ Hok) as Ht.
  destruct (first_proc_ok (procs st) (λ x, pid (ids x) =? n) (process_list st)) as (p & E & [[-> Hno]|(_ & _ & x & Hx & Hpid)]).
  - intros r Hr Hnz. by apply Ht.
  - destruct (proj2 (Ht q)) as [Hin Hnz]; [eauto|]. specialize (Hno q y Hin Hnz Hq). simpl in Hno. lia.
  - exists p, x. split; [exact E|]. split; [done|]. lia.
Qed.

Definition has_init st : Prop := ∃ q y, procs st !! q = Some y ∧ pid (ids y) = INIT_PID.

Lemma has_init_later st st' : later st st' → has_init st → has_init st'.
Proof. intros (_ & _ & _ & Hl) (q & y & Hq & Hp). destruct (Hl q y Hq) as (y' & Hy' & Hpid & _). exists q, y'. split; [done|congruence]. Qed.

Lemma becomes_later st st' p x s : becomes st st' p x s → procs st !! p = Some x →
  (s = PS_EXITED ↔ state x = PS_EXITED) → later st st'.
Proof.
  intros (x' & rl & bl & Em & (F1 & F2 & F3 & F4 & F5) & _ & Hids & Hsig & Hs) Hp Hex. split_and!; try done.
  intros q y Hy. rewrite Em. destruct (decide (p = q)) as [->|]; [|rewrite lookup_insert_ne by done; by exists y].
  rewrite lookup_insert_eq. replace y with x by congruence. exists x'. split_and!; try congruence; naive_solver congruence.
Qed.

Lemma resume_waiting_parent_ok st rl bl p x : sched_ok st rl bl → procs st !! p = Some x → has_init st →
  ∃ st' rl' bl', resume_waiting_parent st p = Val st' ∧ sched_ok st' rl' bl' ∧ later st st'.
Proof.
  intros Hok Hp (i & z & Hi & Hz). unfold resume_waiting_parent. rewrite Hp. res_simpl.
  assert (∃ q y, procs st !! q = Some y ∧ pid (ids y) = parent (ids x)) as (q & y & Hq & Hpid).
  { destruct (co_parents _ _ _ _ _ _ _ _ _ _ _ _ _ _ Hok p x Hp) as [E|[[]|(q & y & ? & ? & _)]]; [|by exists q, y].
    exists i, z. by rewrite E. }
  destruct (get_proc_ok st rl bl _ q y Hok Hq Hpid) as (r & w & -> & Hw & _). res_simpl. rewrite Hw. res_simpl.
  assert (Hsame : ∃ st' rl' bl', Val st = Val st' ∧ sched_ok st' rl' bl' ∧ later st st')
    by (exists st, rl, bl; split; [done|]; split; [done|apply later_refl]).
  destruct (state w) eqn:Es; try done. destruct (Z.land (bits w) PB_WAITING =? 0); [done|].
  destruct (resume_becomes st rl bl r w Hok Hw) as (st' & -> & Hb). unfold parked in Hb. rewrite Es in Hb. simpl in Hb.
  pose proof Hb as (x' & rl' & bl' & _ & _ & Hok' & _). exists st', rl', bl'. split; [done|]. split; [done|].
  eapply becomes_later; [done|done|]. by rewrite Es.
Qed.

Definition exited (x : process) (status : Z) : process := set_exitcode (set_state x PS_EXITED) status.

(** The exiting process leaves its queue. *)
Lemma exit_remove_ok st rl bl p x status : sched_ok st rl bl → procs st !! p = Some x → p ≠ idle_proc st →
  state x ≠ PS_STOPPED → state x ≠ PS_EXITED →
  ∃ h r b, match state x with PS_BLOCKED => blocked_remove st p | _ => run_remove st p end = Val (set_queues st h r b) ∧
    exiting (set_procs (set_queues st h r b) (<[p := exited x status]> (procs st))) (pid (ids x)) (without p rl) (without p bl).
Proof.
  intros Hok Hp Hi Hns He. pose proof (state_lists _ _ _ _ _ Hok Hp Hi) as Hm.
  assert (Hnext : ∀ h r b, links h r b (without p rl) (without p bl) (idle_proc st) → dom h = dom (nodes st) →
    exiting (set_procs (set_queues st h r b) (<[p := exited x status]> (procs st))) (pid (ids x)) (without p rl) (without p bl)).
  { intros h r b Hl Hd. unfold exiting. simpl. eapply (core_update (λ _, False)); try done; [| | |auto].
    - intros q Hq. rewrite !elem_of_without. naive_solver.
    - intros _. rewrite !elem_of_without. simpl. naive_solver.
    - exact (co_actions _ _ _ _ _ _ _ _ _ _ _ _ _ _ Hok p x Hp). }
  pose proof (co_links _ _ _ _ _ _ _ _ _ _ _ _ _ _ Hok) as Hlk. destruct (state x); try done; destruct Hm as [Hr Hb].
  1,2: destruct (run_remove_ok st rl bl p Hlk Hr) as (h & q & -> & Hl & Hd); exists h, q, (blocked_queue st); split; [done|];
    apply Hnext; [by rewrite (without_id p bl)|done].
  destruct (blocked_remove_ok st rl bl p Hlk Hb) as (h & q & -> & Hl & Hd). exists h, (run_queue st), q. split; [done|].
  apply Hnext; [by rewrite (without_id p rl)|done].
Qed.

(** Waking init for the orphans. *)
Lemma wake_init_ok st rl bl k : sched_ok st rl bl → has_init st →
  ∃ st' rl' bl', (if k =? 0 then Val st else init ← get_proc st 1; resume_waiting_parent st init) = Val st' ∧
    sched_ok st' rl' bl' ∧ later st st'.
Proof.
  intros Hok Hi. destruct (k =? 0); [exists st, rl, bl; split; [done|]; split; [done|apply later_refl]|].
  pose proof Hi as (q & y & Hq & Hpid). destruct (get_proc_ok st _ _ 1 q y Hok Hq Hpid) as (r & w & -> & Hw & _).
  res_simpl. by eapply resume_waiting_parent_ok.
Qed.

Lemma exit_proc_ok st rl bl p x status : sched_ok st rl bl → procs st !! p = Some x → p ≠ idle_proc st →
  state x ≠ PS_STOPPED → has_init st →
  ∃ st' rl' bl', exit_proc st p status = Val st' ∧ sched_ok st' rl' bl' ∧
    (∃ x', procs st' !! p = Some x' ∧ state x' = PS_EXITED ∧ signals x' = signals x) ∧
    current_proc st' = current_proc st ∧ idle_proc st' = idle_proc st ∧ has_init st'.
Proof.
  intros Hok Hp Hi Hns (i & z & Hiz & Hz). unfold exit_proc. rewrite Hp. res_simpl.
  destruct (decide (state x = PS_EXITED)) as [He|He].
  { rewrite He. exists st, rl, bl. split; [done|]. split; [done|]. split; [by exists x|]. split; [done|]. split; [done|]. by exists i, z. }
  destruct (exit_remove_ok st rl bl p x status Hok Hp Hi Hns He) as (h & r & b & E & Hex).
  set (st1 := set_procs (set_queues st h r b) (<[p := exited x status]> (procs st))) in *.
  assert (Hp1 : procs st1 !! p = Some (exited x status)) by apply lookup_insert_eq.
  assert (Hi1 : has_init st1).
  { destruct (decide (p = i)) as [->|]; [exists i, (exited x status)|exists i, z]; simpl;
      rewrite ?lookup_insert_eq, ?lookup_insert_ne by done; [|done]. by replace x with z by congruence. }
  destruct (close_proc_ok st1 p (exited x status) _ _ Hp1 eq_refl Hex) as (st2 & k & E2 & Hok2 & L2).
  destruct (wake_init_ok st2 _ _ k Hok2 (has_init_later _ _ L2 Hi1)) as (st3 & rl3 & bl3 & E3 & Hok3 & L3).
  pose proof (later_trans _ _ _ L2 L3) as L13. pose proof L13 as (B1 & B2 & _ & B4).
  destruct (B4 p _ Hp1) as (x3 & Hx3 & _ & Hg3 & Hs3 & _).
  destruct (resume_waiting_parent_ok (request_reschedule st3) rl3 bl3 p x3) as (st4 & rl4 & bl4 & E4 & Hok4 & L4); try done.
  { exact (has_init_later _ _ L13 Hi1). }
  exists st4, rl4, bl4. assert (match state x with PS_EXITED => Val st | _ => _ end = Val st4) as ->.
  { transitivity (st ← match state x with PS_BLOCKED => blocked_remove st p | _ => run_remove st p end;
      st ← modify st p (λ x, exited x status); '(st, orphans) ← close_proc st p;
      st ← (if orphans =? 0 then Val st else init ← get_proc st 1; resume_waiting_parent st init);
      resume_waiting_parent (request_reschedule st) p); [by destruct (state x)|].
    rewrite E. res_simpl. unfold modify. cbn [procs set_queues]. rewrite Hp. res_simpl. fold st1. rewrite E2. res_simpl.
    rewrite E3. done. }
  split; [done|]. split; [done|]. pose proof (has_init_later _ _ L4 (has_init_later _ _ L13 Hi1)) as Hi4.
  destruct L4 as (A1 & A2 & _ & L4). destruct (L4 p x3 Hx3) as (y & Hy & _ & Hyg & Hye & _).
  split; [exists y; split; [done|]; split; [by apply Hye, Hs3|by rewrite Hyg, Hg3]|].
  simpl in *. split; [congruence|]. split; [congruence|done].
Qed.

(** ** Creating and reaping processes *)
Lemma core_insert m h run blk cur idle tab num slot a rl bl p x k h' run' slot' a' live :
  core (λ _, False) MAX m h run blk cur idle tab num slot a rl bl → m !! p = None → p ≠ NULL → p ≠ idle →
  tab !! k = Some NULL → slotnum (ids x) = Z.of_nat k → parent (ids x) = INIT_PID → state x = PS_RUNNING →
  length (actions (signals x)) = SIG_HANDLERS_NUM →
  links h' run' blk (p :: rl) bl idle → dom h' = {[p]} ∪ dom h → 0 ≤ slot' ≤ MAX →
  alloc_inv a' live → {[p]} ∪ dom m ⊆ live →
  core (λ _, False) MAX (<[p := x]> m) h' run' blk cur idle (<[k := p]> tab) (num + 1) slot' a' (p :: rl) bl.
Proof.
  intros [C1 C2 C3 C4 C5 C6 C7 C8 C9 C10 C11 C12 C13 C14] Hp Hnz Hpi Hk Hs Hpar Hx Hact Hl Hd Hsl Ha Hlive.
  assert (Hlook : ∀ q y, <[p := x]> m !! q = Some y → (q = p ∧ y = x) ∨ (q ≠ p ∧ m !! q = Some y)).
  { intros q y [[<- <-]|[? ?]]%lookup_insert_Some; auto. }
  assert (Hold : ∀ q y, m !! q = Some y → <[p := x]> m !! q = Some y).
  { intros q y Hq. rewrite lookup_insert_ne; [done|congruence]. }
  pose proof (lookup_lt_Some _ _ _ Hk) as Hlt.
  split; try done.
  - by rewrite dom_insert_L, C2, Hd.
  - by rewrite lookup_insert_ne.
  - intros q y [[-> ->]|[Hne Hy]]%Hlook Hi.
    + unfold PROC_IS_RUNNING. rewrite Hx. split; [set_solver|]. split; [|done].
      intros Hb. exfalso. by apply (lk_dis _ _ _ _ _ _ Hl p); [set_solver|].
    + destruct (C4 q y Hy Hi) as [<- <-]. set_solver.
  - intros Hi. destruct (C5 Hi) as (y & Hy & Hs'). exists y. auto.
  - destruct C6 as [?|[y Hy]]; [by left|right]. eauto.
  - by rewrite length_insert.
  - intros j q Hj Hqn. destruct (decide (j = k)) as [->|Hne].
    + rewrite list_lookup_insert_eq in Hj by done. injection Hj as <-. exists x. by rewrite lookup_insert_eq.
    + rewrite list_lookup_insert_ne in Hj by done. destruct (C8 j q Hj Hqn) as (y & Hy & ?). eauto.
  - intros q y [[-> ->]|[Hne Hy]]%Hlook.
    + rewrite Hs. split; [lia|]. rewrite Nat2Z.id. by rewrite list_lookup_insert_eq.
    + destruct (C9 q y Hy) as [? Ht]. split; [done|]. rewrite list_lookup_insert_ne; [done|]. intros ->. congruence.
  - rewrite map_size_insert, Hp. simpl. lia.
  - intros q y [[-> ->]|[Hne Hy]]%Hlook; [by left|].
    destruct (C12 q y Hy) as [?|[[]|(r & z & Hr & ? & ?)]]; [by left|]. right; right. exists r, z. auto.
  - intros q y [[-> ->]|[Hne Hy]]%Hlook; [done|by eapply C13].
  - exists live. by rewrite dom_insert_L.
Qed.

Lemma core_delete m h run blk cur idle tab num slot a rl bl p x a' live :
  core (λ _, False) MAX m h run blk cur idle tab num slot a rl bl → m !! p = Some x → state x = PS_EXITED → p ≠ cur → p ≠ idle →
  alloc_inv a' live → dom m ∖ {[p]} ⊆ live →
  core (λ _, False) MAX (delete p m) (delete p h) run blk cur idle (<[Z.to_nat (slotnum (ids x)) := NULL]> tab) (num - 1) slot a' rl bl.
Proof.
  intros [C1 C2 C3 C4 C5 C6 C7 C8 C9 C10 C11 C12 C13 C14] Hp Hx Hc Hi Ha Hlive.
  destruct (C4 p x Hp Hi) as [Hr Hb]. destruct (C9 p x Hp) as [Hs0 Hst].
  assert (p ∉ rl) as Hnr by (rewrite Hr; unfold PROC_IS_RUNNING; by rewrite Hx).
  assert (p ∉ bl) as Hnb by (rewrite Hb; by rewrite Hx).
  assert (Hold : ∀ q y, m !! q = Some y → q ≠ p → delete p m !! q = Some y) by (intros; by rewrite lookup_delete_ne).
  assert (Hlook : ∀ q y, delete p m !! q = Some y → q ≠ p ∧ m !! q = Some y) by (intros q y [? ?]%lookup_delete_Some; auto).
  assert (Hf : ∀ q, q ≠ p → delete p h !! q = h !! q) by (intros; by rewrite lookup_delete_ne).
  split; try done.
  - destruct C1 as [L1 L2 L3 L4]. split; try done.
    + eapply is_queue_frame; [|done]. intros q Hq. apply Hf. set_solver.
    + eapply is_queue_frame; [|done]. intros q Hq. apply Hf. set_solver.
    + intros Hin. destruct (L4 Hin) as (? & ? & ?). rewrite Hf by done. done.
  - by rewrite !dom_delete_L, C2.
  - by apply lookup_delete_None; right.
  - intros q y [_ Hy]%Hlook Hqi. by apply C4.
  - intros Hin. destruct (C5 Hin) as (y & Hy & ?). exists y. auto.
  - destruct C6 as [?|[y Hy]]; [by left|right]. eauto.
  - by rewrite length_insert.
  - intros j q Hj Hq. destruct (decide (j = Z.to_nat (slotnum (ids x)))) as [->|Hne].
    + rewrite list_lookup_insert_eq in Hj by (by eapply lookup_lt_Some). congruence.
    + rewrite list_lookup_insert_ne in Hj by done. destruct (C8 j q Hj Hq) as (y & Hy & Hsl). exists y. split; [|done].
      apply Hold; [done|]. intros ->. apply Hne. replace x with y by congruence. lia.
  - intros q y [Hne Hy]%Hlook. destruct (C9 q y Hy) as [? Ht]. split; [done|]. rewrite list_lookup_insert_ne; [done|].
    intros E. rewrite <- E in Ht. congruence.
  - rewrite map_size_delete, Hp, C10. assert (size m ≠ 0%nat); [|lia]. intros E%map_size_empty_inv. by rewrite E in Hp.
  - intros q y [Hne Hy]%Hlook. destruct (C12 q y Hy) as [?|[[]|(r & z & Hz & ? & Hze)]]; [by left|]. right; right.
    exists r, z. split; [|done]. apply Hold; [done|]. intros ->. congruence.
  - intros q y [Hne Hy]%Hlook. by eapply C13.
  - exists live. by rewrite dom_delete_L.
Qed.
End core.
