(* ===== verification/Signal.v ===== *)
(** * Signal: delivering signals (src/kernel/proc/signal.c, and the signal mask
      of src/kernel/arch/m68k/proc/context.c)

    The context of an interrupted process is on its kernel stack; of it, the
    part that holds the signal and the mask to restore is a value here
    ([sigcontext]), which do_signal produces and cleanup_signal_handler takes
    back.  [send_signal_ok] gives the process table after a signal, field by
    field for the process that gets it. *)

From S2P Require Import Prelude Queue Iovec Result Alloc Process Schedinv.

Definition SIGKILL : Z := 9.
Definition SIGALRM : Z := 14.
Definition SIGCONT : Z := 18.
Definition SA_RESTART : Z := 8.
Definition SA_RESTORER : Z := 1048576.
Definition SIG_MASK_DEFAULT_TERMINATE : Z := 1199603711.
Definition SIG_MASK_DEFAULT_STOP : Z := 3932160.
Definition SIG_MASK_MASKABLE : Z := 4294704895.

Definition signal_to_map (signum : Z) : Z := u32 (Z.shiftl 1 (signum - 1)).

(** [for (short i = 1; i < 31; i++)] *)
Fixpoint signum_loop (fuel : nat) (i mask : Z) : Z :=
  match fuel with
  | O => -1
  | S fuel => if Z.odd mask then i else signum_loop fuel (i + 1) (Z.shiftr mask 1)
  end.
Definition get_next_signum (mask : Z) : Z := signum_loop 30 1 mask.

Definition set_pending (s : signal_data) (v : Z) : signal_data := Signals (ignored s) (blocked s) v (actions s).
Definition set_blocked (s : signal_data) (v : Z) : signal_data := Signals (ignored s) v (pending s) (actions s).
Definition set_actions (s : signal_data) (l : list sigaction) : signal_data := Signals (ignored s) (blocked s) (pending s) l.

Record sigcontext := Sigcontext { sc_signum : Z; prev_mask : Z }.

Section signals.
Context {A : Type}.
Implicit Types st : sched A.

Definition get_signal_action st (p signum : Z) : res sigaction :=
  x ← lift (procs st !! p); lift (rd (actions (signals x)) (signum - 1)).

Definition set_signal_action st (p signum : Z) (act : sigaction) : res (sched A * Z) :=
  x ← lift (procs st !! p);
  let act := Sigaction (sa_handler act)
    (Z.land (Z.lor (sa_mask act) (signal_to_map signum)) SIG_MASK_MASKABLE) (sa_flags act) (sa_restorer act) in
  l ← lift (wr (actions (signals x)) (signum - 1) act);
  st ← modify st p (λ x, set_signals x (set_actions (signals x) l));
  Val (st, 0).

Definition run_signal_handler st (p signum : Z) : res (sched A) :=
  x ← lift (procs st !! p);
  act ← lift (rd (actions (signals x)) (signum - 1));
  st ← (if negb (Z.land (bits x) PB_PAUSED =? 0) || (Z.land (sa_flags act) SA_RESTART =? 0)
        then cancel_syscall st p else Val st);
  st ← modify st p (λ x, set_signal_pending x signum);
  resume_proc_without_restart st p.

Definition run_signal_default_action st (p signum sigmask : Z) : res (sched A) :=
  st ← (if negb (Z.land sigmask SIG_MASK_DEFAULT_TERMINATE =? 0)
        then st ← exit_proc st p (-1); resume_waiting_parent st p
        else if negb (Z.land sigmask SIG_MASK_DEFAULT_STOP =? 0) then stop_proc st p
        else if signum =? SIGCONT then resume_proc st p else Val st);
  x ← lift (procs st !! p);
  act ← lift (rd (actions (signals x)) (signum - 1));
  if Z.land (sa_flags act) SA_RESTART =? 0 then cancel_syscall st p else Val st.

Definition dispatch_signal st (p signum : Z) : res (sched A * Z) :=
  if (signum <=? 0) || (32 <=? signum) then Val (st, EINVAL)
  else
    let sigmask := signal_to_map signum in
    x ← lift (procs st !! p);
    if negb (Z.land sigmask (ignored (signals x)) =? 0) then Val (st, 0)
    else if negb (Z.land sigmask (blocked (signals x)) =? 0) then
      st ← modify st p (λ x, set_signals x (set_pending (signals x) (Z.lor (pending (signals x)) sigmask)));
      Val (st, 0)
    else
      act ← lift (rd (actions (signals x)) (signum - 1));
      st ← (if sa_handler act =? 0 then run_signal_default_action st p signum sigmask else run_signal_handler st p signum);
      Val (st, 0).

Definition send_signal st (n signum : Z) : res (sched A * Z) :=
  p ← get_proc st n;
  if p =? NULL then Val (st, ESRCH) else dispatch_signal st p signum.

Fixpoint group_loop (fuel : nat) st (slot group signum : Z) : res (sched A) :=
  match fuel with
  | O => Undef
  | S fuel =>
      let '(p, slot) := proc_iter_next st slot in
      if p =? NULL then Val st
      else
        x ← lift (procs st !! p);
        st ← (if pgid (ids x) =? group then '(st, _) ← dispatch_signal st p signum; Val st else Val st);
        group_loop fuel st slot group signum
  end.
Definition send_signal_process_group st (group signum : Z) : res (sched A * Z) :=
  st ← group_loop (S (length (process_list st))) st 0 group signum; Val (st, 0).

Definition check_pending_signals st : res (sched A) :=
  x ← lift (procs st !! current_proc st);
  if Z.land (pending (signals x)) (Z.lnot (blocked (signals x))) =? 0 then Val st
  else
    let signum := get_next_signum (pending (signals x)) in
    if signum <? 0 then Val st
    else
      st ← modify st (current_proc st) (λ x, set_signals x
             (set_pending (signals x) (Z.land (pending (signals x)) (Z.lnot (signal_to_map signum)))));
      '(st, _) ← dispatch_signal st (current_proc st) signum;
      Val st.

(** The first part of arch_add_signal_context: the mask of the action is
    added, and the previous one saved; without user mode the kernel has a
    restorer of its own. *)
Definition push_sigcontext (user_mode : bool) st (p signum : Z) : res (sched A * option sigcontext) :=
  x ← lift (procs st !! p);
  act ← lift (rd (actions (signals x)) (signum - 1));
  if user_mode && (Z.land (sa_flags act) SA_RESTORER =? 0) then Val (st, None)
  else
    st ← modify st p (λ x, set_signals x (set_blocked (signals x) (Z.lor (blocked (signals x)) (sa_mask act))));
    Val (st, Some (Sigcontext signum (blocked (signals x)))).

Definition do_signal (user_mode : bool) st : res (sched A * option sigcontext) :=
  let p := current_proc st in
  x ← lift (procs st !! p);
  '(st, ctx) ← push_sigcontext user_mode st p (signal_pending x);
  st ← modify st p (λ x, set_signal_pending x 0);
  Val (st, ctx).

(** [ctx] is the context that arch_remove_signal_context finds on the kernel stack. *)
Definition cleanup_signal_handler st (ctx : sigcontext) : res (sched A) :=
  let p := current_proc st in
  st ← modify st p (λ x, set_signals x (set_blocked (signals x) (prev_mask ctx)));
  x ← lift (procs st !! p);
  st ← (if Z.land (bits x) PB_SYSCALL =? 0 then Val st else suspend_proc st p 0);
  x ← lift (procs st !! p);
  act ← lift (rd (actions (signals x)) (sc_signum ctx - 1));
  st ← (if Z.land (sa_flags act) SA_RESTART =? 0 then
          st ← set_proc_return_value st p EINTR;
          modify st p (λ x, set_bits x (Z.lor (bits x) PB_DONT_SET_RETURN_VAL))
        else Val st);
  check_pending_signals st.

(** The callback of the alarm timer. *)
Definition on_alarm st (p : Z) : res (sched A * Z) :=
  st ← modify st p (λ x, set_bits x (Z.land (bits x) (Z.lnot PB_ALARM_ON)));
  x ← lift (procs st !! p);
  '(st, _) ← send_signal st (pid (ids x)) SIGALRM;
  Val (st, 0).
End signals.

(** ** What a signal does *)
Definition terminates (signum : Z) : bool := negb (Z.land (signal_to_map signum) SIG_MASK_DEFAULT_TERMINATE =? 0).
Definition stops (signum : Z) : bool := negb (Z.land (signal_to_map signum) SIG_MASK_DEFAULT_STOP =? 0).

(** The state of a process after a signal that is neither ignored nor blocked. *)
Definition after_signal (x : process) (act : sigaction) (signum : Z) : proc_state :=
  if negb (sa_handler act =? 0) then PS_RUNNING
  else
    let s := if terminates signum then PS_EXITED
             else if stops signum then (match state x with PS_EXITED => PS_EXITED | _ => PS_STOPPED end)
             else if (signum =? SIGCONT) && parked x then PS_RESUMING
             else state x in
    if Z.land (sa_flags act) SA_RESTART =? 0 then cancelled s else s.

Section delivery.
Context {A : Type} `{AllocLaws A} (MAX : Z).
Implicit Types st : sched A.
Abbreviation sched_ok := (sched_inv MAX).

(** The current process is one that the run queue holds. *)
Definition current_queued st : bool := negb (current_proc st =? NULL) && negb (current_proc st =? idle_proc st).

Definition has_initb st : bool :=
  existsb (λ p, match procs st !! p with Some y => pid (ids y) =? INIT_PID | None => false end) (process_list st).

Lemma has_initb_ok st : has_initb st = true → has_init st.
Proof.
  unfold has_initb. rewrite existsb_exists. intros (p & _ & Hp). destruct (procs st !! p) as [y|] eqn:Hy; [|done].
  exists p, y. split; [done|lia].
Qed.

(** When a signal may be sent: not to the idle process; one with a handler not
    to a process that has exited, nor while the idle process runs; one that
    terminates not to a process that is stopped. *)
Definition can_signal st (p signum : Z) : bool :=
  match procs st !! p with
  | None => false
  | Some x =>
      negb (p =? idle_proc st) &&
      match actions (signals x) !! Z.to_nat (signum - 1) with
      | None => true
      | Some act =>
          if sa_handler act =? 0
          then negb (terminates signum) || negb (bool_decide (state x = PS_STOPPED)) && has_initb st
          else negb (bool_decide (state x = PS_EXITED)) && ((p =? current_proc st) || current_queued st)
      end
  end.

Lemma run_handler_ok st rl bl p x signum act : sched_ok st rl bl → procs st !! p = Some x → p ≠ idle_proc st →
  0 < signum < 32 → actions (signals x) !! Z.to_nat (signum - 1) = Some act → state x ≠ PS_EXITED →
  (p =? current_proc st) || current_queued st = true →
  ∃ st' rl' bl' x', run_signal_handler st p signum = Val st' ∧ sched_ok st' rl' bl' ∧ frame st st' ∧
    procs st' = <[p := x']> (procs st) ∧ state x' = PS_RUNNING ∧ signals x' = signals x ∧ signal_pending x' = signum.
Proof.
  intros Hok Hp Hi Hs Ha Hx Hc. unfold run_signal_handler. rewrite Hp. res_simpl.
  assert (rd (actions (signals x)) (signum - 1) = Some act) as -> by (unfold rd; destruct (Z.ltb_spec (signum - 1) 0); [lia|done]).
  res_simpl.
  assert (∃ st1 s1, (if negb (Z.land (bits x) PB_PAUSED =? 0) || (Z.land (sa_flags act) SA_RESTART =? 0)
      then cancel_syscall st p else Val st) = Val st1 ∧ becomes MAX st st1 p x s1 ∧ s1 ≠ PS_EXITED)
    as (st1 & s1 & -> & (x1 & rl1 & bl1 & E1 & F1 & Hok1 & I1 & [= S1 _] & T1) & Hs1).
  { destruct (negb _ || _).
    - destruct (cancel_syscall_ok MAX st rl bl p x Hok Hp) as (st1 & -> & Hb). eexists _, _. split; [done|]. split; [done|].
      by destruct (state x).
    - exists st, (state x). split; [done|]. split; [|done]. by eapply becomes_refl. }
  res_simpl. assert (Hp1 : procs st1 !! p = Some x1) by (rewrite E1; apply lookup_insert_eq).
  destruct (modify_ok MAX st1 rl1 bl1 p x1 (λ x, set_signal_pending x signum) Hok1 Hp1) as [-> Hok2]; [by apply keeps_state|].
  res_simpl. set (st2 := set_procs _ _) in *. destruct F1 as (G1 & G2 & G3 & G4 & G5).
  destruct (no_restart_ok MAX st2 rl1 bl1 p (set_signal_pending x1 signum) Hok2)
    as (st3 & E3 & x3 & rl3 & bl3 & Em & F3 & Hok3 & I3 & [= S3 P3] & T3).
  { apply lookup_insert_eq. }
  { simpl. by rewrite G3. }
  { simpl. by rewrite T1. }
  { simpl. rewrite G1, G3. unfold current_queued in Hc. lia. }
  exists st3, rl3, bl3, x3. rewrite E3, Em. simpl in *. rewrite E1, !insert_insert_eq.
  split; [done|]. split; [done|]. unfold frame in *. simpl in F3. split; [by rewrite <- G1, <- G2, <- G3, <- G4, <- G5|].
  split; [done|]. split; [done|]. split; [congruence|done].
Qed.

(** The process after an operation, and what it needs of the rest. *)
Definition leaves st st' (p : Z) (x : process) (s : proc_state) : Prop :=
  ∃ rl bl x', sched_ok st' rl bl ∧ procs st' !! p = Some x' ∧ state x' = s ∧ signals x' = signals x ∧
    current_proc st' = current_proc st ∧ idle_proc st' = idle_proc st.

Lemma becomes_leaves st st' p x s : becomes MAX st st' p x s → leaves st st' p x s.
Proof.
  intros (x' & rl & bl & Em & (F1 & _ & F3 & _) & Hok & _ & [= Hs _] & Ht). exists rl, bl, x'.
  rewrite Em, lookup_insert_eq. done.
Qed.

Lemma terminate_ok st rl bl p x : sched_ok st rl bl → procs st !! p = Some x → p ≠ idle_proc st → state x ≠ PS_STOPPED →
  has_init st → ∃ st', (st ← exit_proc st p (-1); resume_waiting_parent st p) = Val st' ∧ leaves st st' p x PS_EXITED.
Proof.
  intros Hok Hp Hi Hs Hinit.
  destruct (exit_proc_ok MAX st rl bl p x (-1) Hok Hp Hi Hs Hinit) as (st1 & rl1 & bl1 & -> & Hok1 & (x1 & Hx1 & Hs1 & Hg1) & C1 & I1 & Hl1).
  res_simpl. destruct (resume_waiting_parent_ok MAX st1 rl1 bl1 p x1 Hok1 Hx1) as (st2 & rl2 & bl2 & -> & Hok2 & L1 & L2 & _ & L4).
  { exact Hl1. }
  exists st2. split; [done|]. destruct (L4 p x1 Hx1) as (x2 & Hx2 & _ & Hg2 & He2 & _).
  exists rl2, bl2, x2. split_and!; try congruence; auto.
Qed.

Lemma default_action_ok st rl bl p x signum act : sched_ok st rl bl → procs st !! p = Some x → p ≠ idle_proc st →
  0 < signum < 32 → actions (signals x) !! Z.to_nat (signum - 1) = Some act → sa_handler act = 0 →
  (terminates signum = true → state x ≠ PS_STOPPED ∧ has_init st) →
  ∃ st', run_signal_default_action st p signum (signal_to_map signum) = Val st' ∧
    leaves st st' p x (after_signal x act signum).
Proof.
  intros Hok Hp Hi Hs Ha Hh Ht. unfold run_signal_default_action, after_signal. rewrite Hh. simpl negb. cbv iota.
  fold (terminates signum) (stops signum).
  set (s := if terminates signum then PS_EXITED else _).
  assert (∃ st1, (if terminates signum then st ← exit_proc st p (-1); resume_waiting_parent st p
    else if stops signum then stop_proc st p else if signum =? SIGCONT then resume_proc st p else Val st) = Val st1 ∧
    leaves st st1 p x s) as (st1 & -> & rl1 & bl1 & x1 & Hok1 & Hx1 & Hs1 & Hg1 & C1 & I1).
  { subst s. destruct (terminates signum).
    - destruct (Ht eq_refl) as [Hst Hin]. by eapply terminate_ok.
    - destruct (stops signum).
      + destruct (stop_proc_ok MAX st rl bl p x Hok Hp Hi) as (st1 & -> & Em & (F1 & _ & F3 & _) & Hok1).
        exists st1. split; [done|]. exists (without p rl), (without p bl), (stopped x). rewrite Em, lookup_insert_eq.
        split_and!; try done; unfold stopped; by destruct (state x) eqn:E.
      + destruct (Z.eqb_spec signum SIGCONT); simpl.
        * destruct (resume_becomes MAX st rl bl p x Hok Hp) as (st1 & -> & Hb). exists st1. split; [done|]. by apply becomes_leaves.
        * exists st. split; [done|]. exists rl, bl, x. done. }
  res_simpl. rewrite Hx1. res_simpl. rewrite Hg1.
  assert (rd (actions (signals x)) (signum - 1) = Some act) as -> by (unfold rd; destruct (Z.ltb_spec (signum - 1) 0); [lia|done]).
  res_simpl. destruct (Z.land (sa_flags act) SA_RESTART =? 0).
  - destruct (cancel_syscall_ok MAX st1 rl1 bl1 p x1 Hok1 Hx1) as (st2 & -> & Hb). exists st2. split; [done|].
    apply becomes_leaves in Hb as (rl2 & bl2 & x2 & Hok2 & Hx2 & Hs2 & Hg2 & C2 & I2).
    exists rl2, bl2, x2. rewrite Hs1 in Hs2. split_and!; try done; congruence.
  - exists st1. split; [done|]. exists rl1, bl1, x1. done.
Qed.

Lemma dispatch_ok st rl bl p x signum : sched_ok st rl bl → procs st !! p = Some x → can_signal st p signum = true →
  ∃ st' rl' bl' x', dispatch_signal st p signum = Val (st', if (signum <=? 0) || (32 <=? signum) then EINVAL else 0) ∧
    sched_ok st' rl' bl' ∧ procs st' !! p = Some x' ∧ current_proc st' = current_proc st ∧ idle_proc st' = idle_proc st ∧
    if (signum <=? 0) || (32 <=? signum) || negb (Z.land (signal_to_map signum) (ignored (signals x)) =? 0) then st' = st
    else if negb (Z.land (signal_to_map signum) (blocked (signals x)) =? 0) then
      state x' = state x ∧
      signals x' = set_pending (signals x) (Z.lor (pending (signals x)) (signal_to_map signum))
    else ∃ act, actions (signals x) !! Z.to_nat (signum - 1) = Some act ∧ signals x' = signals x ∧
      state x' = after_signal x act signum ∧ (sa_handler act ≠ 0 → signal_pending x' = signum).
Proof.
  intros Hok Hp Hcan. unfold dispatch_signal. destruct ((signum <=? 0) || (32 <=? signum)) eqn:Er.
  { exists st, rl, bl, x. done. }
  assert (0 < signum < 32) as Hs by lia. rewrite Hp. res_simpl. simpl orb.
  destruct (negb (Z.land (signal_to_map signum) (ignored (signals x)) =? 0)); [by exists st, rl, bl, x|].
  destruct (negb (Z.land (signal_to_map signum) (blocked (signals x)) =? 0)).
  { destruct (modify_ok MAX st rl bl p x (λ x, set_signals x (set_pending (signals x)
      (Z.lor (pending (signals x)) (signal_to_map signum)))) Hok Hp) as [-> Hok1]; [by split|].
    res_simpl. eexists _, rl, bl, _. split; [done|]. split; [done|]. split; [apply lookup_insert_eq|done]. }
  unfold can_signal in Hcan. rewrite Hp in Hcan.
  destruct (lookup_lt_is_Some_2 (actions (signals x)) (Z.to_nat (signum - 1))) as [act Ha].
  { rewrite (co_actions _ _ _ _ _ _ _ _ _ _ _ _ _ _ Hok p x Hp). unfold SIG_HANDLERS_NUM. lia. }
  rewrite Ha in Hcan. assert (p ≠ idle_proc st) as Hi by lia.
  assert (rd (actions (signals x)) (signum - 1) = Some act) as -> by (unfold rd; destruct (Z.ltb_spec (signum - 1) 0); [lia|done]).
  res_simpl. destruct (Z.eqb_spec (sa_handler act) 0) as [Hh|Hh].
  - destruct (default_action_ok st rl bl p x signum act Hok Hp Hi Hs Ha Hh) as (st1 & -> & rl1 & bl1 & x1 & Hok1 & Hx1 & Hs1 & Hg1 & C1 & I1).
    { intros Ht. rewrite Ht in Hcan. simpl in Hcan. apply andb_prop in Hcan as [_ [Hst Hin]%andb_prop].
      split; [|by apply has_initb_ok]. intros E. by rewrite E in Hst. }
    res_simpl. exists st1, rl1, bl1, x1. split_and!; try done. by exists act.
  - destruct (run_handler_ok st rl bl p x signum act Hok Hp Hi Hs Ha) as (st1 & rl1 & bl1 & x1 & -> & Hok1 & (F1 & _ & F3 & _) & Em & Hs1 & Hg1 & P1).
    { intros E. rewrite E in Hcan. simpl in Hcan. lia. }
    { lia. }
    res_simpl. exists st1, rl1, bl1, x1. rewrite Em, lookup_insert_eq. split_and!; try done. exists act. split; [done|].
    split; [done|]. split; [|done]. unfold after_signal. by rewrite (proj2 (Z.eqb_neq _ _) Hh).
Qed.

(** ** The effect on the process table *)

(** Process [p] is [x'] now; the others, the table and the calls are as they were. *)
Definition turns st st' (p : Z) (x' : process) : Prop :=
  procs st' = <[p := x']> (procs st) ∧ process_list st' = process_list st ∧ calls st' = calls st.

(** A system call is cancelled: it returns EINTR, and is not waited for. *)
Definition interrupted (x : process) : process :=
  set_bits (set_return_value (set_state (match state x with PS_BLOCKED => set_wait x 0 NULL | _ => x end) (cancelled (state x))) (u32 EINTR))
    (Z.lor (Z.land (bits x) (Z.lnot PB_BLOCK_CONDITIONS)) PB_DONT_SET_RETURN_VAL).
(** A process that is to run the handler of a signal. *)
Definition handled (x : process) (act : sigaction) (signum : Z) : process :=
  let cancels := negb (Z.land (bits x) PB_PAUSED =? 0) || (Z.land (sa_flags act) SA_RESTART =? 0) in
  set_state (resumed (set_signal_pending (if cancels then interrupted x else x) signum)) PS_RUNNING.
(** The children of [x], which exits, get another parent. *)
Definition reparent (x y : process) : process := match state x with PS_EXITED => y | _ => adopt (pid (ids x)) y end.
Definition terminated (x : process) : process :=
  match state x with PS_EXITED => x | _ => adopt (pid (ids x)) (set_map (exited x (-1)) NULL) end.
(** The calls that give back what a process has. *)
Definition closing (p : Z) (x : process) : list call :=
  match state x with
  | PS_EXITED => []
  | _ => RemoveTimer p :: (if fd_table x =? NULL then [] else [FreeFdTable (fd_table x)]) ++
           (if map x =? NULL then [] else [FreeMap (map x)]) ++ [ReleaseTask p]
  end.
Definition defaulted (x : process) (act : sigaction) (signum : Z) : process :=
  let y := if terminates signum then terminated x else if stops signum then stopped x
           else if signum =? SIGCONT then resumed x else x in
  if Z.land (sa_flags act) SA_RESTART =? 0 then interrupted y else y.
Definition waiting (y : process) : bool := bool_decide (state y = PS_BLOCKED) && negb (Z.land (bits y) PB_WAITING =? 0).

(** Process [p], which was [x], exits: its children become children of init;
    its parent is woken if it waits, and so may be the parent of init; nobody
    else changes. *)
Definition woken st (x : process) (q : Z) : Prop :=
  get_proc st (parent (ids (terminated x))) = Val q ∨
  ∃ i z, get_proc st INIT_PID = Val i ∧ procs st !! i = Some z ∧ get_proc st (parent (ids (reparent x z))) = Val q.
Record leaving st st' (p : Z) (x x' : process) : Prop := {
  lv_list : process_list st' = process_list st;
  lv_calls : calls st' = calls st ++ closing p x;
  lv_dom : dom (procs st') = dom (procs st);
  lv_self : procs st' !! p = Some x';
  lv_others : ∀ q y, q ≠ p → procs st !! q = Some y → procs st' !! q = Some (reparent x y) ∨
    waiting y = true ∧ woken st x q ∧ procs st' !! q = Some (resumed (reparent x y));
}.
Definition parent_woken st st' (p : Z) (x : process) : Prop := ∀ q y, q ≠ p → get_proc st (parent (ids (terminated x))) = Val q →
  procs st !! q = Some y → waiting y = true → procs st' !! q = Some (resumed (reparent x y)).

(** Splits the steps of a call that has returned. *)
Ltac returned H := repeat match type of H with
  | ?r ≫= _ = Val _ => let E := fresh "E" in destruct r eqn:E; [cbn [mbind res_bind] in H|discriminate H..]
  end.

Lemma lift_val {B} (o : option B) b : lift o = Val b → o = Some b.
Proof. destruct o; simpl; congruence. Qed.

Lemma turns_refl st p x : procs st !! p = Some x → turns st st p x.
Proof. intros Hp. by unfold turns; rewrite insert_id. Qed.
Lemma turns_trans st st1 st2 p x1 x2 : turns st st1 p x1 → turns st1 st2 p x2 → turns st st2 p x2.
Proof. intros (E1 & L1 & C1) (E2 & L2 & C2). unfold turns. rewrite E2, E1, insert_insert_eq. split_and!; congruence. Qed.
Lemma turns_self st st' p x' : turns st st' p x' → procs st' !! p = Some x'.
Proof. intros (-> & _). apply lookup_insert_eq. Qed.
Lemma modify_turns st st' p x f : procs st !! p = Some x → modify st p f = Val st' → turns st st' p (f x).
Proof. intros Hp. unfold modify. rewrite Hp. res_simpl. intros [= <-]. done. Qed.

(** The moves between the queues do not touch the processes. *)
Definition moves st st' : Prop := procs st' = procs st ∧ process_list st' = process_list st ∧ calls st' = calls st.
Lemma queue_moves st st' p : run_insert st p = Val st' ∨ run_remove st p = Val st' ∨ blocked_remove st p = Val st' → moves st st'.
Proof.
  unfold run_insert, run_remove, blocked_remove. intros [E|[E|E]]; returned E; destruct a; by injection E as <-.
Qed.
Lemma moves_turns st st1 st' p x' : moves st st1 → turns st1 st' p x' → turns st st' p x'.
Proof. intros (E1 & L1 & C1) (E2 & L2 & C2). unfold turns. rewrite E2, E1. split_and!; congruence. Qed.

Lemma resume_turns st st' p x : procs st !! p = Some x → resume_proc st p = Val st' → turns st st' p (resumed x).
Proof.
  intros Hp. unfold resume_proc, resumed, parked. rewrite Hp. res_simpl.
  destruct (state x) eqn:Es; cbn [bool_decide decide]; intros E; [injection E as <-; by apply turns_refl|injection E as <-; by apply turns_refl| | |injection E as <-; by apply turns_refl].
  - returned E. eapply moves_turns; [by eapply queue_moves; right; right|]. eapply moves_turns; [by eapply queue_moves; left|].
    refine (modify_turns _ _ _ x _ _ E). destruct (queue_moves _ _ _ (or_introl E1)) as (-> & _). by destruct (queue_moves _ _ _ (or_intror (or_intror E0))) as (-> & _).
  - returned E. eapply moves_turns; [by eapply queue_moves; left|].
    refine (modify_turns _ _ _ x _ _ E). by destruct (queue_moves _ _ _ (or_introl E0)) as (-> & _).
Qed.

Lemma cancel_turns st st' p x : procs st !! p = Some x → cancel_syscall st p = Val st' → turns st st' p (interrupted x).
Proof.
  intros Hp. unfold cancel_syscall, set_proc_return_value. rewrite Hp. res_simpl. intros E. returned E.
  assert (T1 : turns st a p (match state x with PS_BLOCKED => resumed x | _ => x end)).
  { destruct (state x); try (injection E0 as <-; by apply turns_refl). by eapply resume_turns. }
  set (x1 := match state x with PS_BLOCKED => resumed x | _ => x end) in *.
  apply lift_val in E1. rewrite (turns_self _ _ _ _ T1) in E1. injection E1 as <-.
  assert (T2 : turns a a1 p (match state x1 with PS_RESUMING => set_state x1 PS_RUNNING | _ => x1 end)).
  { pose proof (turns_self _ _ _ _ T1) as H1. destruct (state x1); try (injection E2 as <-; by apply turns_refl). by apply (modify_turns _ _ _ x1 _ H1) in E2. }
  apply (modify_turns _ _ _ _ _ (turns_self _ _ _ _ T2)) in E3. apply (modify_turns _ _ _ _ _ (turns_self _ _ _ _ E3)) in E4.
  apply (modify_turns _ _ _ _ _ (turns_self _ _ _ _ E4)) in E.
  pose proof (turns_trans _ _ _ _ _ _ T1 (turns_trans _ _ _ _ _ _ T2 (turns_trans _ _ _ _ _ _ E3 (turns_trans _ _ _ _ _ _ E4 E)))) as T.
  replace (interrupted x) with (set_bits (set_return_value (set_bits (match state x1 with PS_RESUMING => set_state x1 PS_RUNNING | _ => x1 end)
    (Z.land (bits (match state x1 with PS_RESUMING => set_state x1 PS_RUNNING | _ => x1 end)) (Z.lnot PB_BLOCK_CONDITIONS))) (u32 EINTR))
    (Z.lor (Z.land (bits (match state x1 with PS_RESUMING => set_state x1 PS_RUNNING | _ => x1 end)) (Z.lnot PB_BLOCK_CONDITIONS)) PB_DONT_SET_RETURN_VAL)); [exact T|].
  subst x1. destruct x as [? []]; reflexivity.
Qed.

Lemma stop_turns st st' p x : procs st !! p = Some x → stop_proc st p = Val st' → turns st st' p (stopped x).
Proof.
  intros Hp. unfold stop_proc, stopped. rewrite Hp. res_simpl. destruct (state x) eqn:Es; intros E.
  4: { injection E as <-. apply turns_refl. rewrite Hp. f_equal. destruct x; simpl in *. by subst. }
  4: { injection E as <-. by apply turns_refl. }
  all: returned E; injection E as <-; eapply moves_turns; [by eapply queue_moves; eauto|];
    assert (Hm : moves st a) by (eapply queue_moves; eauto); rewrite <- (proj1 Hm) in Hp; by apply (modify_turns _ _ _ x _ Hp) in E1.
Qed.

Lemma now_moves st st' p : reschedule_proc_to_now st p = Val st' → moves st st'.
Proof.
  unfold reschedule_proc_to_now. intros E. destruct (_ =? _); [by injection E as <-|]. returned E. destruct (negb _); [by injection E as <-|].
  returned E. destruct (negb _); [by injection E as <-|]. returned E. destruct a2. injection E as <-.
  destruct (queue_moves _ _ _ (or_intror (or_introl E2))) as (? & ? & ?). done.
Qed.

Lemma handler_turns st st' p x act signum : procs st !! p = Some x → rd (actions (signals x)) (signum - 1) = Some act →
  run_signal_handler st p signum = Val st' → turns st st' p (handled x act signum).
Proof.
  intros Hp Ha. unfold run_signal_handler, resume_proc_without_restart. rewrite Hp. res_simpl. rewrite Ha. res_simpl. intros E. returned E.
  unfold handled. set (cancels := negb _ || _) in *.
  assert (T1 : turns st a p (if cancels then interrupted x else x)).
  { destruct cancels; [by eapply cancel_turns|]. injection E0 as <-. by apply turns_refl. }
  apply (modify_turns _ _ _ _ _ (turns_self _ _ _ _ T1)) in E1. apply (resume_turns _ _ _ _ (turns_self _ _ _ _ E1)) in E2.
  apply (modify_turns _ _ _ _ _ (turns_self _ _ _ _ E2)) in E3.
  pose proof (turns_trans _ _ _ _ _ _ T1 (turns_trans _ _ _ _ _ _ E1 (turns_trans _ _ _ _ _ _ E2 E3))) as (T & L & C).
  apply now_moves in E as (M1 & M2 & M3). unfold turns. rewrite M1, M2, M3. done.
Qed.

(** *** Exiting *)
Lemma get_proc_same st st' n : process_list st' = process_list st →
  (∀ q y, procs st !! q = Some y → ∃ y', procs st' !! q = Some y' ∧ pid (ids y') = pid (ids y)) → dom (procs st') = dom (procs st) →
  get_proc st' n = get_proc st n.
Proof.
  intros Hl Hp Hd. unfold get_proc. rewrite Hl. clear Hl. induction (process_list st) as [|q l IH]; [done|]. cbn [first_proc]. destruct (q =? NULL); [done|].
  destruct (procs st !! q) as [y|] eqn:Hy.
  - destruct (Hp q y Hy) as (y' & -> & Hpid). res_simpl. rewrite Hpid. destruct (_ =? _); [done|exact IH].
  - apply not_elem_of_dom in Hy. rewrite <- Hd in Hy. apply not_elem_of_dom in Hy. by rewrite Hy.
Qed.

Lemma reparent_fields x y : pid (ids (reparent x y)) = pid (ids y) ∧ state (reparent x y) = state y ∧ bits (reparent x y) = bits y.
Proof. unfold reparent, adopt. by destruct (state x), (parent (ids y) =? pid (ids x)). Qed.
Lemma resumed_pid y : pid (ids (resumed y)) = pid (ids y).
Proof. unfold resumed. by destruct (parked y). Qed.
Lemma waiting_reparent x y : waiting (reparent x y) = waiting y.
Proof. unfold waiting. by destruct (reparent_fields x y) as (_ & -> & ->). Qed.
Lemma resumed_wakes y : waiting y = true → waiting (resumed y) = false.
Proof. unfold waiting, resumed, parked. destruct (state y) eqn:E; simpl; try done. Qed.

Lemma leaving_procs st st' p x x' : procs st !! p = Some x → pid (ids x') = pid (ids x) → leaving st st' p x x' → ∀ n, get_proc st' n = get_proc st n.
Proof.
  intros Hp Hpid Hl n. apply get_proc_same; [by apply (lv_list _ _ _ _ _ Hl)| |by apply (lv_dom _ _ _ _ _ Hl)]. intros q y Hy.
  destruct (decide (q = p)) as [->|Hne].
  - exists x'. rewrite Hp in Hy. injection Hy as <-. split; [by apply (lv_self _ _ _ _ _ Hl)|done].
  - destruct (lv_others _ _ _ _ _ Hl q y Hne Hy) as [E|(_ & _ & E)]; eexists; (split; [exact E|]); rewrite ?resumed_pid; by apply reparent_fields.
Qed.

(** The parent of [c] is woken. *)
Lemma wake_leaving st st1 st2 p x x' c z : procs st !! p = Some x → pid (ids x') = pid (ids x) → state x' = PS_EXITED → leaving st st1 p x x' →
  procs st1 !! c = Some z → (∀ q, get_proc st (parent (ids z)) = Val q → woken st x q) → resume_waiting_parent st1 c = Val st2 →
  leaving st st2 p x x' ∧ ∀ q y, q ≠ p → get_proc st (parent (ids z)) = Val q → procs st !! q = Some y → waiting y = true →
    procs st2 !! q = Some (resumed (reparent x y)).
Proof.
  intros Hp Hpid Hx Hl Hc Hw. pose proof (leaving_procs _ _ _ _ _ Hp Hpid Hl) as Hg. unfold resume_waiting_parent. rewrite Hc. res_simpl. intros E. returned E.
  rename a into r. apply lift_val in E1. rename a0 into w. rewrite Hg in E0. specialize (Hw r E0).
  assert (E2 : moves st1 st2 ∧ waiting w = false ∨ turns st1 st2 r (resumed w) ∧ waiting w = true).
  { unfold waiting. destruct (state w) eqn:Es; simpl; try (left; by injection E as <-). destruct (_ =? 0) eqn:Eb; simpl; [left; by injection E as <-|].
    right. split; [by apply resume_turns|done]. }
  destruct Hl as [L1 L2 L3 L4 L5].
  destruct E2 as [[(M1 & M2 & M3) Ew]|[(M1 & M2 & M3) Ew]].
  - split; [split; rewrite ?M1, ?M2, ?M3; done|]. intros q y Hq Eq Hy Hwy. rewrite Eq in E0. injection E0 as <-. rewrite M1.
    destruct (L5 q y Hq Hy) as [E2|(_ & _ & E2)]; [|done]. rewrite E1 in E2. injection E2 as ->. rewrite waiting_reparent in Ew. congruence.
  - assert (Hr : r ≠ p). { intros ->. rewrite L4 in E1. injection E1 as <-. unfold waiting in Ew. by rewrite Hx in Ew. }
    assert (Hself : ∀ y, procs st !! r = Some y → waiting y = true ∧ w = reparent x y).
    { intros y Hy. destruct (L5 r y Hr Hy) as [E2|(Hwy & _ & E2)]; rewrite E1 in E2; injection E2 as ->.
      - by rewrite waiting_reparent in Ew.
      - rewrite resumed_wakes in Ew; [done|]. by rewrite waiting_reparent. }
    split; [split; rewrite ?M2, ?M3; try done|].
    + rewrite M1, dom_insert_L, L3. apply elem_of_dom_2 in E1. rewrite L3 in E1. set_solver.
    + by rewrite M1, lookup_insert_ne.
    + intros q y Hq Hy. destruct (decide (q = r)) as [->|Hqr]; [|rewrite M1, lookup_insert_ne by done; by apply L5].
      right. destruct (Hself y Hy) as [? ->]. rewrite M1, lookup_insert_eq. done.
    + intros q y Hq Eq Hy Hwy. rewrite Eq in E0. injection E0 as <-. rewrite M1, lookup_insert_eq. by destruct (Hself y Hy) as [_ ->].
Qed.

Lemma set_map_null x : map x = NULL → set_map x NULL = x.
Proof. destruct x; simpl. by intros ->. Qed.

Lemma close_leaving st st1 st2 p x k : procs st !! p = Some x → state x ≠ PS_EXITED → (∀ q, q ∈ process_list st ∧ q ≠ NULL ↔ is_Some (procs st !! q)) →
  turns st st1 p (exited x (-1)) → close_proc st1 p = Val (st2, k) → leaving st st2 p x (terminated x).
Proof.
  intros Hp Hx Ht (T1 & T2 & T3). unfold close_proc. set (st3 := if p =? previous_proc st1 then _ else st1).
  assert (M3 : moves st1 st3) by (subst st3; by destruct (p =? previous_proc st1)). destruct M3 as (M1 & M2 & M4).
  cbn [procs add_call]. rewrite M1, T1, lookup_insert_eq. res_simpl. cbn [fd_table map exited set_exitcode set_state ids pid].
  set (st4 := if fd_table x =? NULL then _ else _). intros E. returned E. destruct a0 as [m orphans]. injection E as <- _.
  assert (H4 : procs st4 = procs st1 ∧ process_list st4 = process_list st ∧
    calls st4 = calls st ++ RemoveTimer p :: (if fd_table x =? NULL then [] else [FreeFdTable (fd_table x)])).
  { subst st4. destruct (fd_table x =? NULL); cbn [procs process_list calls add_call]; rewrite M1, M2, M4, T2, T3, <- ?app_assoc; done. }
  destruct H4 as (P4 & L4 & C4).
  assert (H5 : procs a = <[p := set_map (exited x (-1)) NULL]> (procs st) ∧ process_list a = process_list st ∧
    calls a = calls st ++ RemoveTimer p :: (if fd_table x =? NULL then [] else [FreeFdTable (fd_table x)]) ++ (if map x =? NULL then [] else [FreeMap (map x)])).
  { destruct (Z.eqb_spec (map x) NULL) as [Em|_].
    - injection E0 as <-. rewrite set_map_null, P4, T1, app_nil_r by done. done.
    - assert (Hp4 : procs (add_call st4 (FreeMap (map x))) !! p = Some (exited x (-1))) by (simpl; rewrite P4, T1; apply lookup_insert_eq).
      apply (modify_turns _ _ _ _ _ Hp4) in E0 as (Q1 & Q2 & Q3). rewrite Q1, Q2, Q3. simpl. rewrite P4, L4, C4, T1, insert_insert_eq, <- app_assoc. done. }
  destruct H5 as (P5 & L5 & C5). destruct (orphan_loop_ok (pid (ids x)) (process_list a) (procs a) 0) as (m' & k' & Eo & Hm).
  { intros q Hq Hnz. rewrite P5. destruct (decide (p = q)) as [->|]; [rewrite lookup_insert_eq; eauto|]. rewrite lookup_insert_ne by done. apply Ht. by rewrite <- L5. }
  rewrite Eo in E1. injection E1 as -> _. assert (m = adopt (pid (ids x)) <$> procs a) as ->.
  { apply map_eq. intros q. rewrite Hm, lookup_fmap. case_decide as Hd; [done|]. destruct (procs a !! q) eqn:Eq; [|done]. destruct Hd. rewrite L5. apply Ht.
    rewrite P5 in Eq. destruct (decide (p = q)) as [->|]; [eauto|]. rewrite lookup_insert_ne in Eq by done. eauto. }
  split; cbn [procs process_list calls add_call set_procs].
  - done.
  - rewrite C5, <- app_assoc. unfold closing. cbn [app]. rewrite <- app_assoc. by destruct (state x).
  - rewrite dom_fmap_L, P5, dom_insert_L. apply elem_of_dom_2 in Hp. set_solver.
  - rewrite lookup_fmap, P5, lookup_insert_eq. unfold terminated. by destruct (state x).
  - intros q y Hq Hy. left. rewrite lookup_fmap, P5, lookup_insert_ne, Hy by done. unfold reparent. by destruct (state x).
Qed.

Lemma terminated_fields x : pid (ids (terminated x)) = pid (ids x) ∧ state (terminated x) = PS_EXITED.
Proof. unfold terminated, adopt. destruct (state x) eqn:E; try done; simpl; by destruct (_ =? _). Qed.

(** The parent of init is woken, when [x] leaves children. *)
Lemma wake_init_leaving st st1 st2 p x k : procs st !! p = Some x → leaving st st1 p x (terminated x) →
  (if k =? 0 then Val st1 else init ← get_proc st1 1; resume_waiting_parent st1 init) = Val st2 → leaving st st2 p x (terminated x).
Proof.
  intros Hp Hl E. destruct (k =? 0); [by injection E as <-|]. returned E. destruct (terminated_fields x) as [Tp Ts].
  rewrite (leaving_procs _ _ _ _ _ Hp Tp Hl) in E0. pose proof E as E1. unfold resume_waiting_parent in E1. returned E1. apply lift_val in E2. clear E1 E3.
  refine (proj1 (wake_leaving _ _ _ _ _ _ _ _ Hp Tp Ts Hl E2 _ E)). intros q Hq.
  destruct (decide (a = p)) as [->|Hne]. { left. rewrite (lv_self _ _ _ _ _ Hl) in E2. by injection E2 as <-. }
  right. assert (Ha : is_Some (procs st !! a)). { apply elem_of_dom. rewrite <- (lv_dom _ _ _ _ _ Hl). by eapply elem_of_dom_2. }
  destruct Ha as [y Hy]. exists a, y. split_and!; [done..|]. destruct (lv_others _ _ _ _ _ Hl a y Hne Hy) as [E5|(_ & _ & E5)]; rewrite E2 in E5; injection E5 as ->; [done|].
  unfold resumed in Hq. by destruct (parked _).
Qed.

Lemma terminate_leaving st st' p x : procs st !! p = Some x → (∀ q, q ∈ process_list st ∧ q ≠ NULL ↔ is_Some (procs st !! q)) →
  (st ← exit_proc st p (-1); resume_waiting_parent st p) = Val st' → leaving st st' p x (terminated x) ∧ parent_woken st st' p x.
Proof.
  intros Hp Ht E. returned E. destruct (terminated_fields x) as [Tp Ts].
  assert (Hl : leaving st a p x (terminated x)).
  { unfold exit_proc in E0. rewrite Hp in E0. cbn [lift mbind res_bind] in E0. destruct (decide (state x = PS_EXITED)) as [Es|Es].
    { rewrite Es in E0. injection E0 as <-. assert (terminated x = x) as -> by (unfold terminated; by rewrite Es).
      split; [done| |done|done|]. { unfold closing. by rewrite Es, app_nil_r. } intros q y _ Hy. left. unfold reparent. by rewrite Es. }
    assert (E1 : (st ← match state x with PS_BLOCKED => blocked_remove st p | _ => run_remove st p end;
      st ← modify st p (λ x, exited x (-1)); '(st, orphans) ← close_proc st p;
      st ← (if orphans =? 0 then Val st else init ← get_proc st 1; resume_waiting_parent st init);
      resume_waiting_parent (request_reschedule st) p) = Val a) by (rewrite <- E0; by destruct (state x)).
    clear E0. returned E1. destruct a2 as [st2 k]. returned E1.
    assert (Hm : moves st a0) by (apply queue_moves with (p := p); destruct (state x); auto).
    assert (T : turns st a1 p (exited x (-1))). { eapply moves_turns; [done|]. apply (modify_turns a0 a1 p x (λ x, exited x (-1))); [by rewrite (proj1 Hm)|done]. }
    pose proof (close_leaving _ _ _ _ _ _ Hp Es Ht T E3) as L2. pose proof (wake_init_leaving _ _ _ _ _ _ Hp L2 E4) as L3.
    assert (L3' : leaving st (request_reschedule a2) p x (terminated x)) by (by destruct L3; split).
    refine (proj1 (wake_leaving _ _ _ _ _ _ p _ Hp Tp Ts L3' (lv_self _ _ _ _ _ L3') _ E1)). intros q Hq. by left. }
  apply (wake_leaving _ _ _ _ _ _ p _ Hp Tp Ts Hl (lv_self _ _ _ _ _ Hl)); [intros q Hq; by left|done].
Qed.

(** What a signal does to process [p], which was [x], and to the others. *)
Definition signalled st st' (p : Z) (x : process) (signum : Z) : Prop :=
  current_proc st' = current_proc st ∧ idle_proc st' = idle_proc st ∧
  if (signum <=? 0) || (32 <=? signum) || negb (Z.land (signal_to_map signum) (ignored (signals x)) =? 0) then st' = st
  else if negb (Z.land (signal_to_map signum) (blocked (signals x)) =? 0) then
    st' = set_procs st (<[p := set_signals x (set_pending (signals x) (Z.lor (pending (signals x)) (signal_to_map signum)))]> (procs st))
  else ∃ act, actions (signals x) !! Z.to_nat (signum - 1) = Some act ∧
    if negb (sa_handler act =? 0) then turns st st' p (handled x act signum)
    else if terminates signum then leaving st st' p x (defaulted x act signum) ∧ parent_woken st st' p x
    else turns st st' p (defaulted x act signum).

Lemma leaving_turns st st1 st2 p x x1 x2 : leaving st st1 p x x1 → parent_woken st st1 p x → turns st1 st2 p x2 →
  leaving st st2 p x x2 ∧ parent_woken st st2 p x.
Proof.
  intros [L1 L2 L3 L4 L5] Hw (T1 & T2 & T3). split; [split|].
  - congruence.
  - congruence.
  - rewrite T1, dom_insert_L, L3. apply elem_of_dom_2 in L4. rewrite L3 in L4. set_solver.
  - by rewrite T1, lookup_insert_eq.
  - intros q y Hq Hy. rewrite T1, lookup_insert_ne by done. by apply L5.
  - intros q y Hq. rewrite T1, lookup_insert_ne by done. by apply Hw.
Qed.

Lemma default_effect st st' p x act signum : procs st !! p = Some x → (∀ q, q ∈ process_list st ∧ q ≠ NULL ↔ is_Some (procs st !! q)) →
  rd (actions (signals x)) (signum - 1) = Some act → run_signal_default_action st p signum (signal_to_map signum) = Val st' →
  if terminates signum then leaving st st' p x (defaulted x act signum) ∧ parent_woken st st' p x else turns st st' p (defaulted x act signum).
Proof.
  intros Hp Ht Ha. unfold run_signal_default_action, defaulted. fold (terminates signum) (stops signum). intros E. returned E. apply lift_val in E1. apply lift_val in E2.
  assert (Hcancel : ∀ y, a0 = y → signals y = signals x →
    turns a st' p (if Z.land (sa_flags act) SA_RESTART =? 0 then interrupted y else y)).
  { intros y <- Hs. rewrite Hs, Ha in E2. injection E2 as <-. destruct (_ =? 0); [by apply cancel_turns|]. injection E as <-. by apply turns_refl. }
  destruct (terminates signum).
  - destruct (terminate_leaving _ _ _ _ Hp Ht E0) as [Hl Hw]. apply (leaving_turns _ a _ _ _ (terminated x)); [done..|]. cbn zeta. eapply Hcancel.
    + rewrite (lv_self _ _ _ _ _ Hl) in E1. congruence.
    + unfold terminated, adopt. destruct (state x), (parent (ids (set_map (exited x (-1)) NULL)) =? pid (ids x)); reflexivity.
  - assert (T : turns st a p (if stops signum then stopped x else if signum =? SIGCONT then resumed x else x)).
    { destruct (stops signum); [by apply stop_turns|]. destruct (_ =? _); [by apply resume_turns|]. injection E0 as <-. by apply turns_refl. }
    eapply turns_trans; [exact T|]. cbn zeta. eapply Hcancel.
    + rewrite (turns_self _ _ _ _ T) in E1. congruence.
    + unfold stopped, resumed. destruct (stops signum); [by destruct (state x)|]. destruct (_ =? _); [|done]. by destruct (parked x).
Qed.

Lemma dispatch_effect st rl bl p x signum st' err : sched_ok st rl bl → procs st !! p = Some x → dispatch_signal st p signum = Val (st', err) →
  current_proc st' = current_proc st → idle_proc st' = idle_proc st → signalled st st' p x signum.
Proof.
  intros Hok Hp E Hc Hi. split; [done|]. split; [done|]. unfold dispatch_signal in E.
  destruct ((signum <=? 0) || (32 <=? signum)) eqn:Er; [by injection E as <- _|]. rewrite Hp in E. cbn [lift mbind res_bind orb] in E |- *.
  destruct (negb (Z.land _ (ignored _) =? 0)); [by injection E as <- _|].
  destruct (negb (Z.land _ (blocked _) =? 0)). { unfold modify in E. rewrite Hp in E. by injection E as <- _. }
  destruct (rd (actions (signals x)) (signum - 1)) as [act|] eqn:Ea; [|done]. cbn [lift mbind res_bind] in E. returned E. injection E as <- _.
  exists act. split. { revert Ea. unfold rd. by destruct (_ <? 0). }
  destruct (sa_handler act =? 0); simpl; [|by eapply handler_turns]. eapply default_effect; [done| |done..].
  apply (table_has _ _ _ _ _ _ _ _ _ _ _ _ _ _ Hok).
Qed.

(** C21: a signal to a process id that nobody has is ESRCH.  Otherwise a number
    that is not a signal is EINVAL and changes nothing; an ignored signal
    changes nothing; a blocked one becomes pending and does no more.  With a
    handler, the process is made to run it, and its system call is cancelled
    if it paused or if the action does not restart calls.  The default action
    makes the process exit with code -1, stop or go on, and cancels its system
    call unless the action restarts calls; when it exits, its children become
    children of init, its parent is woken if it waits, and its timer, files
    and memory are given back.  In each case this is all that happens to the
    processes: the fields of the process are given, and the other processes
    are as they were.  The scheduler's invariant is kept. *)
Theorem send_signal_ok st rl bl n signum : sched_ok st rl bl →
  (∀ p x, procs st !! p = Some x → pid (ids x) = n → can_signal st p signum = true) →
  (∀ p x, procs st !! p = Some x → pid (ids x) ≠ n) ∧ send_signal st n signum = Val (st, ESRCH) ∨
  ∃ p x st' rl' bl', procs st !! p = Some x ∧ pid (ids x) = n ∧
    send_signal st n signum = Val (st', if (signum <=? 0) || (32 <=? signum) then EINVAL else 0) ∧
    sched_ok st' rl' bl' ∧ signalled st st' p x signum.
Proof.
  intros Hok Hcan. pose proof (table_has _ _ _ _ _ _ _ _ _ _ _ _ _ _ Hok) as Ht. unfold send_signal, get_proc.
  destruct (first_proc_ok (procs st) (λ x, pid (ids x) =? n) (process_list st)) as (p & -> & Hp); [by intros r Hr Hnz; apply Ht|].
  res_simpl. destruct Hp as [[-> Hno]|(_ & Hnz & x & Hx & Hpid)]; [left|right].
  - split; [|done]. intros q y Hy Hn. destruct (proj2 (Ht q)) as [Hin Hnz]; [eauto|]. specialize (Hno q y Hin Hnz Hy). simpl in Hno. lia.
  - apply Z.eqb_eq in Hpid. destruct (Z.eqb_spec p NULL); [done|].
    destruct (dispatch_ok st rl bl p x signum Hok Hx (Hcan p x Hx Hpid)) as (st' & rl' & bl' & x' & E & Hok' & Hx' & Hc & Hi & _).
    exists p, x, st', rl', bl'. split_and!; [done..|]. by eapply dispatch_effect.
Qed.
End delivery.
