(* ===== verification/Sched.v ===== *)
(** * Sched: the scheduler's turns, and the processes it has

    schedule gives the processor to the processes of the run queue in turn;
    resume_blocked_procs wakes those that wait for an event; and processes are
    made, cloned and cleaned up, each with the invariant of Schedinv.v kept. *)

From S2P Require Import Prelude Queue Iovec Result Alloc Process Schedinv Signal.

(** The ids that clone_process gives the new process. *)
Definition clone_ids (x par : process) : process :=
  let i := ids x in
  Process (Ids (slotnum i) (tid i) (tgid i) (pid i) (pid (ids par)) (pgid (ids par)) (session (ids par)) (uid i)
             (umask i) (ctty (ids par)) (start_time i))
    (state x) (bits x) (exitcode x) (return_value x) (signal_pending x) (wait_events x) (wait_check x)
    (blocked_call x) (signals x) (fd_table x) (map x).

(** The order in which schedule goes round. *)
Fixpoint rest_after (p : Z) (l : list Z) : list Z :=
  match l with [] => [] | x :: l => if x =? p then l else rest_after p l end.
Definition pick (rl : list Z) (cur idle : Z) : Z := first_of (first_of idle rl) (rest_after cur rl).

Lemma rest_after_split p l1 l2 : (p ∉ l1) → rest_after p (l1 ++ p :: l2) = l2.
Proof.
  induction l1 as [|x l1 IH]; intros Hp; simpl; [by rewrite Z.eqb_refl|].
  destruct (Z.eqb_spec x p) as [->|]; [set_solver|]. apply IH. set_solver.
Qed.

Lemma rest_after_none p l : (p ∉ l) → rest_after p l = [].
Proof. induction l as [|x l IH]; intros Hp; simpl; [done|]. destruct (Z.eqb_spec x p); set_solver. Qed.

Lemma rest_after_last p l1 l2 : NoDup ((l1 ++ [p]) ++ l2) → rest_after (last_of p l2) ((l1 ++ [p]) ++ l2) = [].
Proof.
  intros Hnd. destruct l2 as [|q l2 _] using rev_ind.
  - rewrite app_nil_r in *. apply rest_after_split. apply NoDup_app in Hnd as (_ & Hd & _). intros Hx. apply (Hd _ Hx). set_solver.
  - rewrite last_of_app. rewrite app_assoc in *. apply rest_after_split. apply NoDup_app in Hnd as (_ & Hd & _).
    intros Hx. apply (Hd _ Hx). set_solver.
Qed.

Section turns.
Context {A : Type} `{AllocLaws A} (CONFIG_MAX_PROCESSES CONFIG_RESCHEDULE_PERIOD_MS : Z).
Implicit Types st : sched A.
Abbreviation sched_ok := (sched_inv CONFIG_MAX_PROCESSES).
Abbreviation schedule := (schedule CONFIG_RESCHEDULE_PERIOD_MS).

(** ** schedule *)
Lemma sched_current st rl bl p : sched_ok st rl bl → p = NULL ∨ is_Some (procs st !! p) → sched_ok (set_current st p) rl bl.
Proof. intros [] Hp. split; done. Qed.

Lemma pick_proc st rl bl : sched_ok st rl bl → (rl = [] → idle_proc st ≠ NULL) →
  is_Some (procs st !! pick rl (current_proc st) (idle_proc st)).
Proof.
  intros Hok Hi. assert (Hr : ∀ q, q ∈ rl → is_Some (procs st !! q)).
  { intros q Hq. apply elem_of_dom. rewrite (co_dom _ _ _ _ _ _ _ _ _ _ _ _ _ _ Hok). apply elem_of_dom.
    apply (is_queue_elem _ _ _ q (lk_run _ _ _ _ _ _ (co_links _ _ _ _ _ _ _ _ _ _ _ _ _ _ Hok)) Hq). }
  assert (Hsub : ∀ p l q, q ∈ rest_after p l → q ∈ l).
  { intros p l q. induction l as [|x l IH]; simpl; [done|]. destruct (x =? p); set_solver. }
  unfold pick. destruct (rest_after (current_proc st) rl) as [|q l] eqn:E; simpl.
  - destruct rl as [|q l]; simpl; [|apply Hr; set_solver].
    destruct (co_idle _ _ _ _ _ _ _ _ _ _ _ _ _ _ Hok (Hi eq_refl)) as (x & Hx & _). eauto.
  - apply Hr, (Hsub (current_proc st)). rewrite E. set_solver.
Qed.

(** The node that schedule finds. *)
Lemma schedule_node st rl bl : sched_ok st rl bl →
  (if current_proc st =? NULL then Val (_queue_head (run_queue st))
   else
     x ← lift (procs st !! current_proc st);
     if negb (PROC_IS_RUNNING x) then Val (_queue_head (run_queue st))
     else
       nx ← lift (_queue_next (nodes st) (current_proc st));
       if nx =? NULL then Val (_queue_head (run_queue st)) else Val nx) =
  Val (first_of (first_of NULL rl) (rest_after (current_proc st) rl)).
Proof.
  intros Hok. pose proof (co_links _ _ _ _ _ _ _ _ _ _ _ _ _ _ Hok) as Hl.
  pose proof (lk_run _ _ _ _ _ _ Hl) as (Hnd & Hs & Hh & _). unfold _queue_head. rewrite Hh.
  assert (Hout : (current_proc st ∉ rl) → Val (first_of NULL rl) = Val (first_of (first_of NULL rl) (rest_after (current_proc st) rl)))
    by (intros Hno; by rewrite rest_after_none).
  destruct (Z.eqb_spec (current_proc st) NULL) as [E|E].
  { apply Hout. intros Hin. destruct (is_queue_elem _ _ _ _ (lk_run _ _ _ _ _ _ Hl) Hin). done. }
  destruct (co_current _ _ _ _ _ _ _ _ _ _ _ _ _ _ Hok) as [|[x Hx]]; [done|]. rewrite Hx. res_simpl.
  destruct (decide (current_proc st = idle_proc st)) as [Ei|Ei].
  { destruct (lk_idle _ _ _ _ _ _ Hl) as (Hn & Hr & _); [congruence|]. rewrite <- Ei in Hn, Hr.
    destruct (PROC_IS_RUNNING x); simpl; [|by apply Hout]. unfold _queue_next. rewrite Hn. simpl. by apply Hout. }
  destruct (proc_facts _ _ _ _ _ _ Hok Hx) as (_ & _ & _ & _ & Hm). destruct (Hm Ei) as [Hr _].
  destruct (PROC_IS_RUNNING x); simpl; [|apply Hout; naive_solver].
  pose proof (proj2 Hr eq_refl) as Hin. apply list_elem_of_split in Hin as (l1 & l2 & ->).
  rewrite (links_next _ _ _ _ _ _ _ _ Hl). res_simpl.
  rewrite rest_after_split by (apply NoDup_app in Hnd as (_ & Hd & _); intros Hin; apply (Hd _ Hin); set_solver).
  apply dlseg_app in Hs as [_ (_ & _ & Hs2)]. rewrite (first_of_nonnull _ _ _ _ Hs2). by destruct l2.
Qed.

Lemma pick_node st rl bl : sched_ok st rl bl →
  (if first_of (first_of NULL rl) (rest_after (current_proc st) rl) =? NULL then idle_proc st
   else first_of (first_of NULL rl) (rest_after (current_proc st) rl)) = pick rl (current_proc st) (idle_proc st).
Proof.
  intros Hok. pose proof (lk_run _ _ _ _ _ _ (co_links _ _ _ _ _ _ _ _ _ _ _ _ _ _ Hok)) as Hq. unfold pick.
  assert (Hsub : ∀ p l q, q ∈ rest_after p l → q ∈ l).
  { intros p l q. induction l as [|x l IH]; simpl; [done|]. destruct (x =? p); set_solver. }
  destruct (rest_after (current_proc st) rl) as [|q l] eqn:E; simpl.
  - destruct rl as [|q l]; simpl; [done|]. destruct (is_queue_elem _ _ _ q Hq) as [Hn _]; [set_solver|]. by destruct (Z.eqb_spec q NULL).
  - destruct (is_queue_elem _ _ _ q Hq) as [Hn _]; [|by destruct (Z.eqb_spec q NULL)].
    apply (Hsub (current_proc st)). rewrite E. set_solver.
Qed.

Lemma restart_ok st rl bl : sched_ok st rl bl → is_Some (procs st !! current_proc st) →
  ∃ st', restart_current_syscall st = Val st' ∧ sched_ok st' rl bl ∧ current_proc st' = current_proc st ∧
    idle_proc st' = idle_proc st.
Proof.
  intros Hok [x Hx]. unfold restart_current_syscall. rewrite Hx. res_simpl.
  destruct (Z.land (bits x) PB_SYSCALL =? 0); [by exists st|].
  destruct (modify_ok _ st rl bl (current_proc st) x (λ x, set_bits x (Z.land (bits x) (Z.lnot PB_SYSCALL))) Hok Hx) as [-> Hok'];
    [by apply keeps_state|]. res_simpl. eexists. done.
Qed.

Lemma schedule_ok st rl bl uptime : sched_ok st rl bl → idle_proc st ≠ NULL →
  ∃ st', schedule st uptime = Val st' ∧ sched_ok st' rl bl ∧
    current_proc st' = pick rl (current_proc st) (idle_proc st) ∧ idle_proc st' = idle_proc st.
Proof.
  intros Hok Hi. destruct (pick_proc st rl bl Hok ltac:(done)) as [x Hx].
  unfold Process.schedule. rewrite (schedule_node (set_resched st 0 (next_reschedule_time st)) rl bl) by exact Hok. res_simpl.
  rewrite (pick_node (set_resched st 0 (next_reschedule_time st)) rl bl) by exact Hok.
  cbn [current_proc idle_proc set_resched set_current previous_proc]. set (next := pick _ _ _) in *.
  set (st1 := if next =? previous_proc st then _ else _).
  assert (Hok1 : sched_ok st1 rl bl) by (subst st1; destruct (next =? previous_proc st);
    apply (sched_current st rl bl next Hok); eauto).
  assert (Hx1 : procs st1 !! next = Some x) by (subst st1; by destruct (next =? previous_proc st)).
  assert (Hc1 : current_proc st1 = next) by (subst st1; by destruct (next =? previous_proc st)).
  assert (Hi1 : idle_proc st1 = idle_proc st) by (subst st1; by destruct (next =? previous_proc st)).
  clearbody st1. rewrite Hx1. res_simpl. destruct (state x) eqn:Es; try (by exists st1).
  destruct (modify_ok _ st1 rl bl next x (λ x, set_state x PS_RUNNING) Hok1 Hx1) as [-> Hok2].
  { apply keeps_running; try done. unfold PROC_IS_RUNNING. by rewrite Es. }
  res_simpl. destruct (restart_ok _ rl bl Hok2) as (st3 & -> & Hok3 & Hc3 & Hi3).
  { simpl. rewrite Hc1, lookup_insert_eq. eauto. }
  exists st3. simpl in *. split_and!; try done; congruence.
Qed.

(** *** Fairness *)
Fixpoint ticks (n : nat) st (uptime : Z) : res (sched A * list Z) :=
  match n with
  | O => Val (st, [])
  | S n =>
      st ← schedule st uptime;
      '(st', l) ← ticks n st uptime;
      Val (st', current_proc st :: l)
  end.

Lemma ticks_app n k st uptime : ticks (n + k) st uptime =
  ('(st1, l1) ← ticks n st uptime; '(st2, l2) ← ticks k st1 uptime; Val (st2, l1 ++ l2)).
Proof.
  revert st. induction n as [|n IH]; intros st; simpl.
  { by destruct (ticks k st uptime) as [[]| |]. }
  destruct (schedule st uptime) as [st1| |]; res_simpl; [|done..]. rewrite IH.
  destruct (ticks n st1 uptime) as [[st2 l2]| |]; res_simpl; [|done..].
  by destruct (ticks k st2 uptime) as [[]| |].
Qed.

(** From the process before [l2] on, the processes of [l2] get their turn. *)
Lemma ticks_through st uptime bl l1 p l2 l3 : sched_ok st (l1 ++ p :: l2 ++ l3) bl → idle_proc st ≠ NULL → current_proc st = p →
  ∃ st', ticks (length l2) st uptime = Val (st', l2) ∧ sched_ok st' (l1 ++ p :: l2 ++ l3) bl ∧
    current_proc st' = last_of p l2 ∧ idle_proc st' = idle_proc st.
Proof.
  revert st l1 p. induction l2 as [|q l2 IH]; intros st l1 p Hok Hi Hc; [by exists st|]. cbn [ticks length app] in *.
  pose proof (lk_run _ _ _ _ _ _ (co_links _ _ _ _ _ _ _ _ _ _ _ _ _ _ Hok)) as (Hnd & _).
  destruct (schedule_ok st _ _ uptime Hok Hi) as (st1 & -> & Hok1 & Hc1 & Hi1). res_simpl.
  assert (current_proc st1 = q) as Hq.
  { rewrite Hc1, Hc. unfold pick. rewrite rest_after_split; [done|]. apply NoDup_app in Hnd as (_ & Hd & _).
    intros Hin. apply (Hd _ Hin). set_solver. }
  replace (l1 ++ p :: q :: l2 ++ l3) with ((l1 ++ [p]) ++ q :: l2 ++ l3) in * by (by rewrite <- app_assoc).
  destruct (IH st1 (l1 ++ [p]) q Hok1 ltac:(congruence) Hq) as (st2 & -> & Hok2 & Hc2 & Hi2). res_simpl.
  exists st2. rewrite Hq. split; [done|]. split; [done|]. split; [by rewrite Hc2, last_of_cons|congruence].
Qed.

(** After the last process the first one is next. *)
Lemma ticks_wrap st uptime bl l l3 : sched_ok st (l ++ l3) bl → idle_proc st ≠ NULL → rest_after (current_proc st) (l ++ l3) = [] →
  ∃ st', ticks (length l) st uptime = Val (st', l) ∧ sched_ok st' (l ++ l3) bl ∧ idle_proc st' = idle_proc st.
Proof.
  intros Hok Hi Hr. destruct l as [|p l]; [by exists st|]. cbn [ticks length app] in *.
  destruct (schedule_ok st _ _ uptime Hok Hi) as (st1 & -> & Hok1 & Hc1 & Hi1). res_simpl.
  unfold pick in Hc1. rewrite Hr in Hc1. simpl in Hc1.
  destruct (ticks_through st1 uptime bl [] p l l3 Hok1 ltac:(congruence) Hc1) as (st2 & -> & Hok2 & _ & Hi2). res_simpl.
  exists st2. rewrite Hc1. split; [done|]. split; [done|congruence].
Qed.

(** C20: the scheduler is fair: when as many time slices go by as there are
    processes that can run, each of them has had exactly one, in the order of
    the run queue, beginning behind the process that ran before; when there is
    none the idle process runs. *)
Theorem schedule_fair st rl bl uptime : sched_ok st rl bl → idle_proc st ≠ NULL →
  (∃ st' l1 l2, rl = l1 ++ l2 ∧ ticks (length rl) st uptime = Val (st', l2 ++ l1) ∧ sched_ok st' rl bl ∧
     (current_proc st ∈ rl → last l1 = Some (current_proc st)) ∧ ((current_proc st ∉ rl) → l1 = [])) ∧
  (rl = [] → ∃ st', schedule st uptime = Val st' ∧ current_proc st' = idle_proc st).
Proof.
  intros Hok Hi. split; [|intros ->; destruct (schedule_ok st [] bl uptime Hok Hi) as (st1 & E & _ & Hc & _); by exists st1].
  destruct (decide (current_proc st ∈ rl)) as [Hin|Hin].
  - pose proof (lk_run _ _ _ _ _ _ (co_links _ _ _ _ _ _ _ _ _ _ _ _ _ _ Hok)) as (Hnd & _).
    apply list_elem_of_split in Hin as (l1 & l2 & E). set (p := current_proc st) in *.
    assert (rl = (l1 ++ [p]) ++ l2) as -> by (by rewrite <- app_assoc). clear E.
    assert (Hok' : sched_ok st (l1 ++ p :: l2 ++ []) bl) by (rewrite app_nil_r; by rewrite <- app_assoc in Hok).
    destruct (ticks_through st uptime bl l1 p l2 [] Hok' Hi eq_refl) as (st1 & E1 & Hok1 & Hc1 & Hi1).
    rewrite app_nil_r in Hok1. replace (l1 ++ p :: l2) with ((l1 ++ [p]) ++ l2) in Hok1 by (by rewrite <- app_assoc).
    destruct (ticks_wrap st1 uptime bl (l1 ++ [p]) l2 Hok1 ltac:(congruence)) as (st2 & E2 & Hok2 & Hi2).
    { rewrite Hc1. by apply rest_after_last. }
    exists st2, (l1 ++ [p]), l2. split; [done|]. rewrite length_app, Nat.add_comm, ticks_app, E1. res_simpl. rewrite E2. res_simpl.
    split; [done|]. split; [done|]. rewrite last_snoc. split; [done|]. set_solver.
  - destruct (ticks_wrap st uptime bl rl []) as (st1 & E1 & Hok1 & _); rewrite ?app_nil_r in *; [done|done|by apply rest_after_none|].
    exists st1, [], rl. rewrite app_nil_r. split_and!; done.
Qed.

End turns.

(** ** Waking processes *)
Section waking.
Context {A : Type} `{AllocLaws A} (CONFIG_MAX_PROCESSES SYSCALL_WAIT_CHECK : Z).
Context (fd_vnode : Z → Z → option (Z * Z)) (other_check : Z → process → Z → Z → Z → bool).
Implicit Types st : sched A.
Abbreviation sched_ok := (sched_inv CONFIG_MAX_PROCESSES).
Abbreviation call_wait_check := (call_wait_check SYSCALL_WAIT_CHECK fd_vnode other_check).

Definition ready (x : process) (events vnode rdev : Z) : res bool :=
  if (wait_check x =? NULL) || (Z.land events (wait_events x) =? 0) then Val false
  else call_wait_check x events vnode rdev.

Definition woken (x : process) (events vnode rdev : Z) : process :=
  match ready x events vnode rdev with Val true => resumed x | _ => x end.

Lemma resume_later st st' p x : procs st' = <[p := resumed x]> (procs st) → procs st !! p = Some x → frame st st' → later st st'.
Proof.
  intros Em Hp (F1 & F2 & F3 & F4 & F5). split_and!; try done. intros q y Hq. rewrite Em.
  destruct (decide (p = q)) as [->|]; [|rewrite lookup_insert_ne by done; by exists y].
  rewrite lookup_insert_eq. replace y with x by congruence. exists (resumed x). split; [done|].
  unfold resumed, parked. destruct (state x) eqn:E; simpl; rewrite ?E; done.
Qed.

Lemma resume_loop_ok events vnode rdev rest : ∀ fuel st rl pre, sched_ok st rl (pre ++ rest) → (length rest ≤ fuel)%nat →
  (∀ q y, q ∈ rest → procs st !! q = Some y → ∃ b, ready y events vnode rdev = Val b) →
  ∃ st' rl' bl', resume_loop SYSCALL_WAIT_CHECK fd_vnode other_check fuel st (first_of NULL rest) events vnode rdev = Val st' ∧
    sched_ok st' rl' bl' ∧ later st st' ∧
    ∀ q y, procs st !! q = Some y → procs st' !! q = Some (if decide (q ∈ rest) then woken y events vnode rdev else y).
Proof.
  induction rest as [|p rest IH]; intros fuel st rl pre Hok Hf Hready.
  { exists st, rl, (pre ++ []). split; [by destruct fuel|]. split; [done|]. split; [apply later_refl|].
    intros q y Hq. by rewrite decide_False by apply not_elem_of_nil. }
  destruct fuel as [|fuel]; [simpl in Hf; lia|]. cbn [resume_loop first_of].
  pose proof (links_swap _ _ _ _ _ _ (co_links _ _ _ _ _ _ _ _ _ _ _ _ _ _ Hok)) as Hl.
  pose proof (lk_run _ _ _ _ _ _ Hl) as Hq. pose proof Hq as (Hnd & _).
  destruct (is_queue_elem _ _ _ p Hq) as [Hpn Hpd]; [set_solver|]. destruct (Z.eqb_spec p NULL); [done|].
  rewrite (links_next _ _ _ _ _ _ _ _ Hl). res_simpl.
  apply elem_of_dom in Hpd. rewrite <- (co_dom _ _ _ _ _ _ _ _ _ _ _ _ _ _ Hok) in Hpd. apply elem_of_dom in Hpd as [x Hx].
  rewrite Hx. res_simpl. fold (ready x events vnode rdev). destruct (Hready p x) as [b Eb]; [set_solver|done|]. rewrite Eb. res_simpl.
  apply NoDup_app in Hnd as (_ & Hd & [Hpr _]%NoDup_cons).
  assert (Hpp : p ∉ pre) by (intros Hx'; apply (Hd _ Hx'); set_solver).
  assert (Hnext : ∀ st1 rl1 pre1, sched_ok st1 rl1 (pre1 ++ rest) → later st st1 →
    procs st1 = <[p := woken x events vnode rdev]> (procs st) →
    ∃ st' rl' bl', resume_loop SYSCALL_WAIT_CHECK fd_vnode other_check fuel st1 (first_of NULL rest) events vnode rdev = Val st' ∧
      sched_ok st' rl' bl' ∧ later st st' ∧
      ∀ q y, procs st !! q = Some y → procs st' !! q = Some (if decide (q ∈ p :: rest) then woken y events vnode rdev else y)).
  { intros st1 rl1 pre1 Hok1 L1 Em. destruct (IH fuel st1 rl1 pre1 Hok1) as (st2 & rl2 & bl2 & E2 & Hok2 & L2 & Hm2).
    - simpl in Hf. lia.
    - intros q y Hin Hy. apply (Hready q); [set_solver|]. rewrite Em, lookup_insert_ne in Hy by set_solver. done.
    - exists st2, rl2, bl2. split; [done|]. split; [done|]. split; [by eapply later_trans|]. intros q y Hy.
      destruct (decide (q = p)) as [->|Hne].
      + rewrite (decide_True (P := p ∈ p :: rest)) by set_solver. replace y with x by congruence.
        rewrite (Hm2 p (woken x events vnode rdev)) by (rewrite Em; apply lookup_insert_eq). by rewrite decide_False.
      + rewrite (Hm2 q y) by (by rewrite Em, lookup_insert_ne by done).
        destruct (decide (q ∈ rest)), (decide (q ∈ p :: rest)); set_solver. }
  destruct b.
  - destruct (resume_proc_ok _ st rl _ p x Hok Hx) as (st1 & -> & Em & Hf1 & Hok1). res_simpl.
    assert (state x = PS_BLOCKED) as Hs.
    { apply (state_blocked _ st rl (pre ++ p :: rest) p x Hok Hx). set_solver. }
    assert (parked x = true) as Hpk by (unfold parked; by rewrite Hs). rewrite Hpk in Hok1.
    eapply (Hnext st1 _ pre); [|by eapply resume_later|].
    + replace (pre ++ rest) with (without p (pre ++ p :: rest)); [exact Hok1|].
      unfold without. rewrite filter_app, filter_cons, decide_False by (by intros []).
      change (without p pre ++ without p rest = pre ++ rest). by rewrite !without_id.
    + unfold woken. by rewrite Eb.
  - res_simpl. apply (Hnext st rl (pre ++ [p])); [by rewrite <- app_assoc|apply later_refl|].
    unfold woken. by rewrite Eb, insert_id.
Qed.

End waking.

(** ** The process table *)
Section table.
Context {A : Type} `{AllocLaws A} (CONFIG_MAX_PROCESSES SIZEOF_PROCESS : Z).
Hypothesis max_processes : 0 < CONFIG_MAX_PROCESSES < 32767.
Hypothesis process_size : 0 ≤ SIZEOF_PROCESS ≤ 2 ^ 30.
Implicit Types st : sched A.
Abbreviation sched_ok := (sched_inv CONFIG_MAX_PROCESSES).

Lemma slot_loop_ok (l : list Z) : zlen l = CONFIG_MAX_PROCESSES → ∀ (d s fuel : nat), l !! (s + d)%nat = Some NULL → (d < fuel)%nat →
  ∃ k : nat, l !! k = Some NULL ∧
    slot_loop CONFIG_MAX_PROCESSES fuel l (Z.of_nat s) false = Val (Z.of_nat k, Z.of_nat k + 1).
Proof.
  intros Hl. induction d as [|d IH]; intros s fuel Hd Hf; destruct fuel as [|fuel]; try lia; cbn [slot_loop].
  all: pose proof (lookup_lt_Some _ _ _ Hd) as Hlt.
  all: destruct (lookup_lt_is_Some_2 l s) as [e He]; [lia|].
  all: assert (rd l (Z.of_nat s) = Some e) as -> by (unfold rd; destruct (Z.ltb_spec (Z.of_nat s) 0); [lia|by rewrite Nat2Z.id]).
  all: res_simpl; rewrite s32_small by lia.
  - rewrite Nat.add_0_r in Hd. replace e with NULL by congruence. exists s. done.
  - destruct (Z.eqb_spec e NULL) as [->|]; [by exists s|].
    destruct (Z.ltb_spec CONFIG_MAX_PROCESSES (Z.of_nat s + 1)); [lia|]. replace (Z.of_nat s + 1) with (Z.of_nat (S s)) by lia.
    apply IH; [|lia]. by replace (S s + d)%nat with (s + S d)%nat by lia.
Qed.

(** A slot that the search finds before it runs past the end of the table. *)
Definition slot_free st : bool :=
  bool_decide (NULL ∈ drop (Z.to_nat (next_process_slot st)) (process_list st)).

Lemma new_proc_ok st rl bl n user now : sched_ok st rl bl → (CONFIG_MAX_PROCESSES <=? num_processes st) || slot_free st = true →
  wp (new_proc CONFIG_MAX_PROCESSES SIZEOF_PROCESS st n user now) oom (λ '(st', p),
    current_proc st' = current_proc st ∧ idle_proc st' = idle_proc st ∧
    if CONFIG_MAX_PROCESSES <=? num_processes st then p = NULL ∧ sched_ok st' rl bl
    else p ≠ NULL ∧ procs st !! p = None ∧ sched_ok st' (p :: rl) bl ∧
      ∃ x, procs st' = <[p := x]> (procs st) ∧ state x = PS_RUNNING ∧ pid (ids x) = if n =? 0 then next_pid st else n).
Proof.
  intros Hok Hfree. unfold new_proc. set (st1 := if n =? 0 then _ else st).
  assert (Hok1 : sched_ok st1 rl bl) by (subst st1; by destruct (n =? 0)).
  assert (E : num_processes st1 = num_processes st ∧ process_list st1 = process_list st ∧ next_process_slot st1 = next_process_slot st ∧
    procs st1 = procs st ∧ current_proc st1 = current_proc st ∧ idle_proc st1 = idle_proc st ∧ nodes st1 = nodes st ∧
    run_queue st1 = run_queue st ∧ blocked_queue st1 = blocked_queue st) by (subst st1; by destruct (n =? 0)).
  clearbody st1. destruct E as (E1 & E2 & E3 & E4 & E5 & E6 & E7 & E8 & E9). rewrite E1.
  destruct (CONFIG_MAX_PROCESSES <=? num_processes st) eqn:Hnum; [by cbn [wp]|]. simpl in Hfree.
  pose proof Hok1 as [C1 C2 C3 C4 C5 C6 C7 C8 C9 C10 C11 C12 C13 C14].
  unfold slot_free in Hfree. apply bool_decide_eq_true in Hfree as [d Hd]%list_elem_of_lookup. rewrite lookup_drop in Hd.
  rewrite <- E2, <- E3 in Hd. unfold next_slotnum.
  destruct (slot_loop_ok (process_list st1) C7 d (Z.to_nat (next_process_slot st1)) (Z.to_nat (2 * CONFIG_MAX_PROCESSES + 3)) Hd) as (k & Hk & Ek).
  { pose proof (lookup_lt_Some _ _ _ Hd). lia. }
  rewrite Z2Nat.id in Ek by lia. rewrite Ek. res_simpl. pose proof (lookup_lt_Some _ _ _ Hk) as Hlt.
  rewrite s16_small by lia. destruct (Z.ltb_spec (Z.of_nat k) 0); [lia|]. cbn [kheap set_table].
  destruct C14 as (live & Hal & Hlive). eapply wp_call; [by apply (Alloc.kzalloc_law _ live)|]. intros [a p] (Hp & Hpl & Ha).
  destruct (Z.eqb_spec p NULL) as [->|Hpn]; [unfold NULL in Hp; lia|]. cbn [process_list set_kheap set_table].
  assert (wr (process_list st1) (Z.of_nat k) p = Some (<[k := p]> (process_list st1))) as ->
    by (unfold wr; destruct (Z.leb_spec 0 (Z.of_nat k)), (Z.ltb_spec (Z.of_nat k) (zlen (process_list st1))); simpl; rewrite ?Nat2Z.id; lia || done).
  res_simpl. assert (Hpm : procs st1 !! p = None) by (apply not_elem_of_dom; set_solver).
  assert (Hpd : p ∉ dom (nodes st1)) by (rewrite <- C2; set_solver).
  assert (Hpi : p ≠ idle_proc st1).
  { intros ->. destruct (C5 Hpn) as (y & Hy & _). congruence. }
  set (st2 := add_call (set_procs _ _) (InitTask p)).
  destruct (links_fresh _ _ _ _ _ _ p (mk_node NULL NULL) C1 Hpd Hpi) as (Hl2 & Hpr & Hpb).
  destruct (run_insert_ok st2 rl bl p Hl2) as (h & q & Er & Hl3 & Hd3); [done..| |].
  { subst st2. simpl. rewrite lookup_insert_eq. eauto. }
  unfold insert_proc. rewrite Er. cbn [wp]. subst st2. simpl in *. split; [done|]. split; [done|]. split; [done|]. split; [by rewrite <- E4|].
  split; [|eexists; rewrite E4; split; [done|]; split; [done|]; by destruct (n =? 0)].
  rewrite s32_small by (rewrite C10 in *; lia). unfold sched_inv. simpl.
  rewrite <- E1. eapply core_insert; [exact Hok1|try done..]; [by rewrite Hd3, dom_insert_L|lia|by apply union_mono_l].
Qed.

Lemma core_size m h run blk cur idle tab num slot (a : A) rl bl gone :
  core gone CONFIG_MAX_PROCESSES m h run blk cur idle tab num slot a rl bl → Z.of_nat (size m) ≤ CONFIG_MAX_PROCESSES.
Proof.
  intros Hok. rewrite <- (co_length _ _ _ _ _ _ _ _ _ _ _ _ _ _ Hok). apply Nat2Z.inj_le.
  rewrite <- length_map_to_list, <- (length_fmap fst). apply submseteq_length, NoDup_submseteq; [apply NoDup_fst_map_to_list|].
  intros p ([q x] & -> & Hq)%list_elem_of_fmap. apply elem_of_map_to_list in Hq. simpl.
  eapply list_elem_of_lookup_2, (co_slots _ _ _ _ _ _ _ _ _ _ _ _ _ _ Hok q x Hq).
Qed.

Lemma cleanup_proc_ok st rl bl p x : sched_ok st rl bl → procs st !! p = Some x → state x = PS_EXITED →
  p ≠ current_proc st → p ≠ idle_proc st →
  ∃ st', cleanup_proc st p = Val st' ∧ sched_ok st' rl bl ∧ procs st' = delete p (procs st) ∧ idle_proc st' = idle_proc st.
Proof.
  intros Hok Hp Hx Hc Hi. pose proof Hok as [C1 C2 C3 C4 C5 C6 C7 C8 C9 C10 C11 C12 C13 C14].
  destruct (C9 p x Hp) as [Hs0 Hst]. unfold cleanup_proc. rewrite Hp. res_simpl. pose proof (lookup_lt_Some _ _ _ Hst) as Hlt.
  assert (rd (process_list st) (slotnum (ids x)) = Some p) as ->
    by (unfold rd; by destruct (Z.ltb_spec (slotnum (ids x)) 0); [lia|]).
  res_simpl. rewrite Z.eqb_refl.
  assert (wr (process_list st) (slotnum (ids x)) NULL = Some (<[Z.to_nat (slotnum (ids x)) := NULL]> (process_list st))) as ->
    by (unfold wr; destruct (Z.leb_spec 0 (slotnum (ids x))), (Z.ltb_spec (slotnum (ids x)) (zlen (process_list st))); simpl; lia || done).
  res_simpl. destruct C14 as (live & Ha & Hlive). cbn [kheap set_table].
  destruct (wp_returns _ _ (Alloc.kmfree_law (kheap st) live p Ha ltac:(apply Hlive, elem_of_dom; eauto))) as (a & -> & Ha').
  res_simpl. eexists. split; [done|]. split; [|done]. unfold sched_inv. simpl.
  assert (0 < Z.of_nat (size (procs st)) ≤ CONFIG_MAX_PROCESSES) as Hsz.
  { pose proof (core_size _ _ _ _ _ _ _ _ _ _ _ _ _ Hok). assert (size (procs st) ≠ 0%nat); [|lia].
    intros E%map_size_empty_inv. by rewrite E in Hp. }
  rewrite s32_small by lia. eapply core_delete; try done. by apply difference_mono_r.
Qed.

(** The ids of a clone. *)
Lemma clone_ok st rl bl p x q y : sched_ok st rl bl → procs st !! p = Some x → procs st !! q = Some y → state y ≠ PS_EXITED →
  modify st p (λ x, clone_ids x y) = Val (set_procs st (<[p := clone_ids x y]> (procs st))) ∧
  sched_ok (set_procs st (<[p := clone_ids x y]> (procs st))) rl bl.
Proof.
  intros Hok Hp Hq Hy. unfold modify. rewrite Hp. split; [done|]. unfold sched_inv. simpl.
  pose proof Hok as [C1 C2 C3 C4 C5 C6 C7 C8 C9 C10 C11 C12 C13 C14].
  set (x' := clone_ids x y).
  assert (Hlook : ∀ r z, <[p := x']> (procs st) !! r = Some z → ∃ w, procs st !! r = Some w ∧ state z = state w ∧
    slotnum (ids z) = slotnum (ids w) ∧ signals z = signals w ∧ (z = w ∨ parent (ids z) = pid (ids y))).
  { intros r z [[<- <-]|[? ?]]%lookup_insert_Some; [exists x|exists z]; eauto 10. }
  assert (Hold : ∀ r z, procs st !! r = Some z → ∃ w, <[p := x']> (procs st) !! r = Some w ∧ state w = state z ∧
    slotnum (ids w) = slotnum (ids z) ∧ pid (ids w) = pid (ids z)).
  { intros r z Hr. destruct (decide (p = r)) as [->|]; [|rewrite lookup_insert_ne by done; by exists z].
    exists x'. rewrite lookup_insert_eq. by replace z with x by congruence. }
  assert (Hdom : dom (<[p := x']> (procs st)) = dom (procs st)) by (apply dom_insert_lookup_L; eauto).
  split; try done.
  - by rewrite Hdom.
  - rewrite lookup_insert_ne; [done|]. intros ->. congruence.
  - intros r z (w & Hw & Hs & _)%Hlook Hi. unfold PROC_IS_RUNNING. rewrite Hs. by apply C4.
  - intros Hi. destruct (C5 Hi) as (z & Hz & Hs). destruct (Hold _ _ Hz) as (w & Hw & Hsw & _). exists w. split; [done|congruence].
  - destruct C6 as [?|[z Hz]]; [by left|right]. destruct (Hold _ _ Hz) as (w & Hw & _). eauto.
  - intros k r Hk Hr. destruct (C8 k r Hk Hr) as (z & Hz & Hs). destruct (Hold _ _ Hz) as (w & Hw & _ & Hsw & _). exists w. split; [done|lia].
  - intros r z (w & Hw & _ & -> & _)%Hlook. by apply C9.
  - rewrite map_size_insert, Hp. done.
  - intros r z (w & Hw & _ & _ & _ & [->|Hpar])%Hlook.
    + destruct (C12 r w Hw) as [?|[[]|(q' & y' & Hq' & Hpid & Hex)]]; [by left|]. right; right.
      destruct (Hold q' y' Hq') as (v & Hv & Hsv & _ & Hpv). exists q', v. split; [done|]. split; congruence.
    + right; right. destruct (Hold q y Hq) as (v & Hv & Hsv & _ & Hpv). exists q, v. split; [done|]. split; congruence.
  - intros r z (w & Hw & _ & _ & -> & _)%Hlook. by eapply C13.
  - by rewrite Hdom.
Qed.

(** ** The start *)
Definition boot_state (a : A) : sched A :=
  init_proc CONFIG_MAX_PROCESSES
    (Sched ∅ ∅ _queue_init _queue_init NULL NULL NULL (inr (Syscall 0 0 0 0 0 0)) 0 0 [] 0 0 0 a []).

Lemma boot_ok a live : alloc_inv a live → sched_ok (boot_state a) [] [].
Proof.
  intros Ha. assert (Hnil : is_queue ∅ _queue_init []) by (split_and!; [apply NoDup_nil_2|done..]).
  split; simpl; try done; try (intros; by rewrite lookup_empty in *).
  - split; [done|done|set_solver|done].
  - by left.
  - rewrite length_replicate. lia.
  - intros k p [-> _]%lookup_replicate. done.
  - lia.
  - exists live. set_solver.
Qed.

(** The idle process leaves the run queue for good. *)
Lemma idle_ok st p x : sched_ok st [p] [] → idle_proc st = NULL → procs st !! p = Some x → state x = PS_RUNNING →
  ∃ st', run_remove (set_idle st p) p = Val st' ∧ sched_ok st' [] [] ∧ idle_proc st' = p ∧ current_proc st' = current_proc st.
Proof.
  intros [C1 C2 C3 C4 C5 C6 C7 C8 C9 C10 C11 C12 C13 C14] Hi Hp Hx. rewrite Hi in *.
  destruct (links_remove _ _ _ [] p [] _ _ C1) as (h & q & E & [L1 L2 L3 L4] & Hn & Hd). simpl in *.
  unfold run_remove. simpl. rewrite E. eexists. split; [done|]. split; [|done]. split; simpl; try done.
  - split; try done. intros _. split; [done|]. split; apply not_elem_of_nil.
  - by rewrite C2, Hd.
  - intros r y Hy Hr. destruct (C4 r y Hy) as [H1 H2]; [congruence|]. rewrite <- H1, <- H2. set_solver.
  - intros _. by exists x.
Qed.

Lemma init_scheduler_ok a live now kmap files : alloc_inv a live → files ≠ NULL →
  wp (init_scheduler CONFIG_MAX_PROCESSES SIZEOF_PROCESS (boot_state a) now kmap files) oom (λ st,
    sched_ok st [] [] ∧ idle_proc st ≠ NULL ∧ current_proc st = NULL).
Proof.
  intros Ha Hf. unfold init_scheduler, create_idle_thread. set (st0 := set_queues _ _ _ _).
  assert (Hok : sched_ok st0 [] []) by (exact (boot_ok a live Ha)).
  apply wp_bind. eapply wp_call; [apply (new_proc_ok st0 [] [] 0 0 now Hok)|].
  { apply orb_true_intro. right. unfold slot_free. apply bool_decide_eq_true. simpl.
    destruct (Z.to_nat CONFIG_MAX_PROCESSES) eqn:E; [lia|]. simpl. set_solver. }
  intros [st1 p] (Hc & Hi & Hnew). assert ((CONFIG_MAX_PROCESSES <=? num_processes st0) = false) as E by (simpl; lia).
  rewrite E in Hnew. destruct Hnew as (Hp & _ & Hok1 & x & Em & Hx & _). destruct (Z.eqb_spec p NULL); [done|].
  destruct (modify_ok _ st1 [p] [] p x (λ x, set_map x kmap) Hok1) as [-> Hok2]; [rewrite Em; apply lookup_insert_eq|by apply keeps_state|].
  res_simpl. set (st2 := set_procs _ _) in *.
  destruct (modify_ok _ st2 [p] [] p (set_map x kmap) (λ x, set_fd_table x files) Hok2) as [-> Hok3]; [apply lookup_insert_eq|by apply keeps_state|].
  res_simpl. destruct (Z.eqb_spec files NULL); [done|]. cbn [wp]. set (st3 := set_procs st2 _) in *.
  destruct (idle_ok st3 p (set_fd_table (set_map x kmap) files) Hok3) as (st4 & -> & Hok4 & Hi4 & Hc4); [by simpl; rewrite Hi|apply lookup_insert_eq|done|].
  cbn [wp]. split; [done|]. split; [by rewrite Hi4|]. by rewrite Hc4.
Qed.
End table.
