(* ===== verification/Schedrun.v ===== *)
(** * Schedrun: every run of the scheduler

    The operations that the rest of the kernel calls, as the steps of a state
    machine that starts in init_scheduler; every state that is reachable
    satisfies the invariant of Schedinv.v, and no step that is [allowed] there
    runs into undefined behaviour.  The conditions leave out what the code does
    not handle: the examples at the end show what it does then. *)

From S2P Require Import Prelude Queue Iovec Result Alloc Process Schedinv Signal Sched.

(** The calls of src/kernel/proc that other parts of the kernel make. *)
Inductive sched_op :=
  | NewProc (n user now : Z)
  | CloneIds (p par : Z)
  | ExitProc (p status : Z)
  | StopProc (p : Z)
  | SuspendProc (p flags : Z)
  | SuspendSyscall (p flags events check : Z) (r : syscall_record)
  | SuspendCurrent (events : Z)
  | ResumeProc (p : Z)
  | ResumeNoRestart (p : Z)
  | ToNow (p : Z)
  | ResumeBlocked (events vnode rdev : Z)
  | CancelSyscall (p : Z)
  | ReturnToCurrent (ret : Z)
  | SetAlarm (p seconds : Z)
  | CheckReschedule (uptime : Z)
  | Schedule (uptime : Z)
  | DispatchSignal (p signum : Z)
  | SetAction (p signum : Z) (act : sigaction)
  | CheckPending
  | DoSignal (user_mode : bool)
  | CleanupProc (p : Z).

Section runs.
Context {A : Type} `{AllocLaws A}.
Context (CONFIG_MAX_PROCESSES CONFIG_RESCHEDULE_PERIOD_MS SIZEOF_PROCESS SYSCALL_WAIT_CHECK : Z).
Context (fd_vnode : Z → Z → option (Z * Z)) (other_check : Z → process → Z → Z → Z → bool).
Implicit Types st : sched A.
Abbreviation sched_ok := (sched_inv CONFIG_MAX_PROCESSES).

Definition sched_step (op : sched_op) st : res (sched A) :=
  match op with
  | NewProc n user now => '(st, _) ← new_proc CONFIG_MAX_PROCESSES SIZEOF_PROCESS st n user now; Val st
  | CloneIds p par => y ← lift (procs st !! par); modify st p (λ x, clone_ids x y)
  | ExitProc p status => exit_proc st p status
  | StopProc p => stop_proc st p
  | SuspendProc p flags => suspend_proc st p flags
  | SuspendSyscall p flags events check r => suspend_syscall st p flags events check r
  | SuspendCurrent events => suspend_current_syscall SYSCALL_WAIT_CHECK st events
  | ResumeProc p => resume_proc st p
  | ResumeNoRestart p => resume_proc_without_restart st p
  | ToNow p => reschedule_proc_to_now st p
  | ResumeBlocked events vnode rdev => resume_blocked_procs SYSCALL_WAIT_CHECK fd_vnode other_check st events vnode rdev
  | CancelSyscall p => cancel_syscall st p
  | ReturnToCurrent ret => return_to_current_proc st ret
  | SetAlarm p seconds => '(st, _) ← set_proc_alarm st p seconds; Val st
  | CheckReschedule uptime => Val (check_reschedule CONFIG_RESCHEDULE_PERIOD_MS st uptime)
  | Schedule uptime => schedule CONFIG_RESCHEDULE_PERIOD_MS st uptime
  | DispatchSignal p signum => '(st, _) ← dispatch_signal st p signum; Val st
  | SetAction p signum act => '(st, _) ← set_signal_action st p signum act; Val st
  | CheckPending => check_pending_signals st
  | DoSignal user_mode => '(st, _) ← do_signal user_mode st; Val st
  | CleanupProc p => cleanup_proc st p
  end.

(** [p] is a process for which [test] holds. *)
Definition proc_with st (p : Z) (test : process → bool) : bool :=
  match procs st !! p with Some x => test x | None => false end.
Definition in_state (s : proc_state) (x : process) : bool := bool_decide (state x = s).
Definition valid_signum (n : Z) : bool := (1 <=? n) && (n <=? 32).

(** What the rest of the kernel has to see to. *)
Definition allowed st (op : sched_op) : bool :=
  let exists_ p := proc_with st p (λ _, true) in
  let queued p := exists_ p && negb (p =? idle_proc st) in
  match op with
  | NewProc _ _ _ => (CONFIG_MAX_PROCESSES <=? num_processes st) || slot_free st
  | CloneIds p par => exists_ p && proc_with st par (λ y, negb (in_state PS_EXITED y))
  | ExitProc p _ => queued p && proc_with st p (λ x, negb (in_state PS_STOPPED x)) && has_initb st
  | StopProc p | SuspendProc p _ | SuspendSyscall p _ _ _ _ => queued p
  | SuspendCurrent _ =>
      queued (current_proc st) && match the_syscall st with Val _ => true | _ => false end
  | ResumeProc p | CancelSyscall p | SetAlarm p _ => exists_ p
  | ResumeNoRestart p =>
      queued p && proc_with st p (λ x, negb (in_state PS_EXITED x)) && ((p =? current_proc st) || current_queued st)
  | ToNow p => queued p && ((p =? current_proc st) || current_queued st)
  | ResumeBlocked events vnode rdev =>
      forallb (λ '(_, x), negb (in_state PS_BLOCKED x) ||
        match ready SYSCALL_WAIT_CHECK fd_vnode other_check x events vnode rdev with Val _ => true | _ => false end)
        (map_to_list (procs st))
  | ReturnToCurrent _ => exists_ (current_proc st)
  | CheckReschedule _ | Schedule _ => true
  | DispatchSignal p signum => can_signal st p signum
  | SetAction p signum _ => exists_ p && valid_signum signum
  | CheckPending =>
      proc_with st (current_proc st) (λ x,
        can_signal st (current_proc st) (get_next_signum (pending (signals x))))
  | DoSignal _ => proc_with st (current_proc st) (λ x, valid_signum (signal_pending x))
  | CleanupProc p => queued p && proc_with st p (in_state PS_EXITED) && negb (p =? current_proc st)
  end.

Inductive reachable : sched A → Prop :=
  | reach_init a live now kmap files st : alloc_inv a live → files ≠ NULL →
      init_scheduler CONFIG_MAX_PROCESSES SIZEOF_PROCESS (boot_state CONFIG_MAX_PROCESSES a) now kmap files = Val st →
      reachable st
  | reach_step st op st' : reachable st → allowed st op = true → sched_step op st = Val st' → reachable st'.

(** ** The steps *)
Definition sched_safe st : Prop := (∃ rl bl, sched_ok st rl bl) ∧ idle_proc st ≠ NULL.

Hypothesis max_processes : 0 < CONFIG_MAX_PROCESSES < 32767.
Hypothesis process_size : 0 ≤ SIZEOF_PROCESS ≤ 2 ^ 30.
Section step.
Context st rl bl (Hok : sched_ok st rl bl) (Hidle : idle_proc st ≠ NULL).
Implicit Types (p : Z) (x : process).

Lemma proc_with_inv p test : proc_with st p test = true → ∃ x, procs st !! p = Some x ∧ test x = true.
Proof. unfold proc_with. intros E. destruct (procs st !! p) as [x|]; [by exists x|done]. Qed.

Lemma safe_frame st' rl' bl' : frame st st' → sched_ok st' rl' bl' → sched_safe st'.
Proof. intros (_ & _ & Hi & _) Hok'. split; [by exists rl', bl'|]. by rewrite Hi. Qed.

Lemma safe_becomes st' p x s : becomes CONFIG_MAX_PROCESSES st st' p x s → sched_safe st'.
Proof. intros (x' & rl' & bl' & _ & Hf & Hok' & _). by eapply safe_frame. Qed.

Lemma safe_modify p x f : procs st !! p = Some x → keeps x (f x) → ∃ st', modify st p f = Val st' ∧ sched_safe st' ∧
  procs st' = <[p := f x]> (procs st) ∧ frame st st' ∧ process_list st' = process_list st.
Proof.
  intros Hp Hk. destruct (modify_ok _ st rl bl p x f Hok Hp Hk) as [E Hok']. eexists. split; [exact E|].
  split; [by eapply safe_frame|]. done.
Qed.

Lemma suspend_syscall_safe p x flags events check r : procs st !! p = Some x → p ≠ idle_proc st →
  ∃ st', suspend_syscall st p flags events check r = Val st' ∧ sched_safe st'.
Proof.
  intros Hp Hi. unfold suspend_syscall.
  destruct (suspend_proc_ok _ st rl bl p x (Z.lor PB_SYSCALL flags) Hok Hp Hi) as (st1 & -> & Em & Hf1 & Hok1). res_simpl.
  set (x1 := suspended x _) in *.
  destruct (modify_ok _ st1 _ _ p x1 (λ x, set_blocked_call (set_wait x events check) r) Hok1) as [-> Hok2];
    [rewrite Em; apply lookup_insert_eq|by apply keeps_state|].
  eexists. split; [done|]. by eapply safe_frame.
Qed.

Lemma return_safe ret x : procs st !! current_proc st = Some x → ∃ st', return_to_current_proc st ret = Val st' ∧ sched_safe st'.
Proof.
  intros Hp. unfold return_to_current_proc, set_proc_return_value. rewrite Hp. res_simpl. destruct (negb _).
  - edestruct safe_modify as (st' & -> & Hs & _); [exact Hp| |by exists st']. by apply keeps_state.
  - destruct (state x) eqn:E; try by (exists st; split; [done|]; split; [by exists rl, bl|done]).
    edestruct safe_modify as (st' & -> & Hs & _); [exact Hp| |by exists st']. by apply keeps_state.
Qed.

Lemma wake_safe events vnode rdev : allowed st (ResumeBlocked events vnode rdev) = true →
  ∃ st', resume_blocked_procs SYSCALL_WAIT_CHECK fd_vnode other_check st events vnode rdev = Val st' ∧ sched_safe st'.
Proof.
  intros Ha. unfold resume_blocked_procs.
  pose proof (links_swap _ _ _ _ _ _ (co_links _ _ _ _ _ _ _ _ _ _ _ _ _ _ Hok)) as Hl.
  pose proof (lk_run _ _ _ _ _ _ Hl) as Hq.
  replace (_queue_head (blocked_queue st)) with (first_of NULL bl) by (symmetry; apply Hq).
  destruct (resume_loop_ok CONFIG_MAX_PROCESSES SYSCALL_WAIT_CHECK fd_vnode other_check events vnode rdev bl (size (nodes st)) st rl [] Hok)
    as (st' & rl' & bl' & E & Hok' & Hl' & _).
  - apply (queue_fuel _ _ _ Hq).
  - intros q y Hin Hy. unfold allowed in Ha. rewrite forallb_forall in Ha.
    specialize (Ha (q, y) ltac:(by apply list_elem_of_In, elem_of_map_to_list)). simpl in Ha.
    unfold in_state in Ha. rewrite bool_decide_true in Ha by (by eapply state_blocked).
    destruct (ready _ _ _ _ _ _ _) as [b| |]; [by exists b|done..].
  - exists st'. split; [done|]. split; [by exists rl', bl'|]. destruct Hl' as (_ & Hi & _). congruence.
Qed.

Lemma set_action_safe p x signum act : procs st !! p = Some x → valid_signum signum = true →
  ∃ st' r, set_signal_action st p signum act = Val (st', r) ∧ sched_safe st'.
Proof.
  intros Hp Hs. unfold set_signal_action, valid_signum in *. rewrite Hp. res_simpl.
  pose proof (co_actions _ _ _ _ _ _ _ _ _ _ _ _ _ _ Hok p x Hp) as Hlen. unfold SIG_HANDLERS_NUM in Hlen.
  unfold wr. destruct (Z.leb_spec 0 (signum - 1)), (Z.ltb_spec (signum - 1) (zlen (actions (signals x)))); simpl; try lia. res_simpl.
  edestruct safe_modify as (st' & -> & Hs' & _); [exact Hp| |res_simpl; by exists st', 0].
  split; try done. simpl. apply length_insert.
Qed.

Lemma do_signal_safe user_mode x : procs st !! current_proc st = Some x → valid_signum (signal_pending x) = true →
  ∃ st' r, do_signal user_mode st = Val (st', r) ∧ sched_safe st'.
Proof.
  intros Hp Hs. unfold do_signal, push_sigcontext, valid_signum in *. rewrite Hp. res_simpl.
  pose proof (co_actions _ _ _ _ _ _ _ _ _ _ _ _ _ _ Hok _ x Hp) as Hlen. unfold SIG_HANDLERS_NUM in Hlen.
  destruct (lookup_lt_is_Some_2 (actions (signals x)) (Z.to_nat (signal_pending x - 1))) as [act Ha]; [lia|].
  assert (rd (actions (signals x)) (signal_pending x - 1) = Some act) as ->
    by (unfold rd; destruct (Z.ltb_spec (signal_pending x - 1) 0); [lia|done]). res_simpl.
  destruct (user_mode && _); res_simpl.
  - edestruct safe_modify as (st' & -> & Hs' & _); [exact Hp| |res_simpl; by exists st', None]. by apply keeps_state.
  - destruct (modify_ok _ st rl bl _ x (λ x, set_signals x (set_blocked (signals x) (Z.lor (blocked (signals x)) (sa_mask act)))) Hok Hp)
      as [-> Hok1]; [by split|]. res_simpl. set (st1 := set_procs _ _) in *.
    set (x1 := set_signals x _) in *.
    destruct (modify_ok _ st1 rl bl (current_proc st) x1 (λ x, set_signal_pending x 0) Hok1) as [-> Hok2];
      [apply lookup_insert_eq|by apply keeps_state|]. res_simpl. eexists _, _. split; [done|]. by eapply safe_frame.
Qed.

Lemma dispatch_safe p signum : can_signal st p signum = true → ∃ st' r, dispatch_signal st p signum = Val (st', r) ∧ sched_safe st'.
Proof.
  intros Hc. destruct (procs st !! p) as [x|] eqn:Hp; [|by unfold can_signal in Hc; rewrite Hp in Hc].
  destruct (dispatch_ok CONFIG_MAX_PROCESSES st rl bl p x signum Hok Hp Hc) as (st' & rl' & bl' & x' & E & Hok' & _ & _ & Hi & _).
  eexists _, _. split; [exact E|]. split; [by exists rl', bl'|]. by rewrite Hi.
Qed.
End step.

(** A process whose pending signals change is as fit for a signal as before. *)
Lemma can_signal_pending st p x v signum : procs st !! p = Some x →
  can_signal (set_procs st (<[p := set_signals x (set_pending (signals x) v)]> (procs st))) p signum = can_signal st p signum.
Proof.
  intros Hp. unfold can_signal. simpl. rewrite Hp, lookup_insert_eq. simpl.
  assert (∀ m : gmap Z process, m = <[p := set_signals x (set_pending (signals x) v)]> (procs st) →
    has_initb (set_procs st m) = has_initb st) as E.
  { intros m ->. unfold has_initb. simpl. induction (process_list st) as [|q l IH]; [done|]. simpl. rewrite IH. f_equal.
    destruct (decide (p = q)) as [<-|]; [by rewrite lookup_insert_eq, Hp|by rewrite lookup_insert_ne by done]. }
  by rewrite E.
Qed.

Lemma check_pending_safe st rl bl : sched_ok st rl bl → idle_proc st ≠ NULL → allowed st CheckPending = true →
  ∃ st', check_pending_signals st = Val st' ∧ sched_safe st'.
Proof.
  intros Hok Hi Ha. simpl in Ha. apply proc_with_inv in Ha as (x & Hp & Hc). unfold check_pending_signals. rewrite Hp. res_simpl.
  assert (sched_safe st) as Hst by (split; [by exists rl, bl|done]).
  destruct (_ =? 0); [by exists st|]. destruct (_ <? 0); [by exists st|]. set (n := get_next_signum _) in *.
  set (v := Z.land (pending (signals x)) (Z.lnot (signal_to_map n))).
  destruct (modify_ok _ st rl bl _ x (λ x, set_signals x (set_pending (signals x) v)) Hok Hp) as [_ Hok1]; [by split|].
  unfold modify. rewrite Hp. res_simpl. fold v.
  rewrite <- (can_signal_pending st _ x v n Hp) in Hc.
  edestruct (dispatch_safe _ _ _ Hok1) as (st' & r & -> & Hs); [done|exact Hc|]. res_simpl. by exists st'.
Qed.

(** A step that returns. *)
Definition returns_safe (r : res (sched A)) : Prop := ∃ st', r = Val st' ∧ sched_safe st'.

Lemma val_wp r : returns_safe r → wp r oom sched_safe.
Proof. by intros (st' & -> & Hs). Qed.

Lemma drop_value {B} (r : res (sched A * B)) : (∃ st' b, r = Val (st', b) ∧ sched_safe st') → returns_safe ('(st, _) ← r; Val st).
Proof. intros (st' & b & -> & Hs). by exists st'. Qed.

Ltac allowed_facts Ha :=
  cbn [allowed] in Ha; repeat (apply andb_prop in Ha as [Ha ?]);
  repeat match goal with
  | E : negb (_ =? _) = true |- _ => apply negb_true_iff, Z.eqb_neq in E
  | E : proc_with _ _ _ = true |- _ => apply proc_with_inv in E as (? & ? & ?)
  | E : proc_with _ _ _ && _ = true |- _ => apply andb_prop in E as [? ?]
  | E : negb (in_state _ _) = true |- _ => apply negb_true_iff, bool_decide_eq_false in E
  | E : in_state _ _ = true |- _ => apply bool_decide_eq_true in E
  | E1 : procs ?st !! ?p = Some ?x, E2 : procs ?st !! ?p = Some ?y |- _ =>
      assert (y = x) by congruence; subst y; clear E2
  end.

Lemma new_safe st rl bl n user now : sched_ok st rl bl → idle_proc st ≠ NULL → allowed st (NewProc n user now) = true →
  wp (sched_step (NewProc n user now) st) oom sched_safe.
Proof.
  intros Hok Hi Ha. cbn [sched_step]. eapply wp_call.
  { exact (new_proc_ok _ _ max_processes process_size st rl bl n user now Hok Ha). }
  intros [st' p] (_ & Hi' & Hcase). split; [|congruence].
  destruct (_ <=? _); [destruct Hcase as (_ & Hok')|destruct Hcase as (_ & _ & Hok' & _)]; eauto.
Qed.

(** The operations on the queues. *)
Lemma queue_ops_safe st rl bl op : sched_ok st rl bl → idle_proc st ≠ NULL → allowed st op = true →
  match op with
  | ExitProc _ _ | StopProc _ | SuspendProc _ _ | SuspendSyscall _ _ _ _ _ | SuspendCurrent _ | ResumeProc _
  | ResumeNoRestart _ | ToNow _ | CancelSyscall _ | Schedule _ | CleanupProc _ => returns_safe (sched_step op st)
  | _ => True
  end.
Proof.
  intros Hok Hi Ha. destruct op; try exact I; cbn [sched_step]; allowed_facts Ha.
  - destruct (exit_proc_ok _ st rl bl p _ status Hok ltac:(eassumption)) as (st' & rl' & bl' & E & Hok' & _ & _ & Hi' & _);
      [done|done|by apply has_initb_ok|]. exists st'. split; [done|]. split; [by exists rl', bl'|congruence].
  - edestruct stop_proc_ok as (st' & E & _ & Hf & Hok'); [done..|]. exists st'. split; [done|]. by eapply safe_frame.
  - edestruct suspend_proc_ok as (st' & E & _ & Hf & Hok'); [done..|]. exists st'. split; [done|]. by eapply safe_frame.
  - by eapply suspend_syscall_safe.
  - unfold suspend_current_syscall. destruct (the_syscall st); [|done..]. res_simpl. by eapply suspend_syscall_safe.
  - edestruct resume_proc_ok as (st' & E & _ & Hf & Hok'); [done..|]. exists st'. split; [done|]. by eapply safe_frame.
  - edestruct no_restart_ok as (st' & E & Hb); [done..| |exists st'; split; [done|by eapply safe_becomes]].
    unfold current_queued in *. lia.
  - edestruct reschedule_now_ok as (st' & rl' & E & _ & Hf & Hok' & _); [done..| |exists st'; split; [done|by eapply safe_frame]].
    unfold current_queued in *. lia.
  - edestruct cancel_syscall_ok as (st' & E & Hb); [done..|]. exists st'. split; [done|by eapply safe_becomes].
  - destruct (schedule_ok _ CONFIG_RESCHEDULE_PERIOD_MS st rl bl uptime Hok Hi) as (st' & E & Hok' & _ & Hi').
    exists st'. split; [done|]. split; [by exists rl, bl|congruence].
  - edestruct cleanup_proc_ok as (st' & E & Hok' & _ & Hi'); [done..|]. exists st'. split; [done|]. split; [by exists rl, bl|congruence].
Qed.

Lemma step_safe st op : sched_safe st → allowed st op = true → wp (sched_step op st) oom sched_safe.
Proof.
  intros [(rl & bl & Hok) Hi] Ha. pose proof (queue_ops_safe st rl bl op Hok Hi Ha) as Hq.
  destruct op; try (apply val_wp, Hq); clear Hq; [by eapply new_safe|apply val_wp; cbn [sched_step]..].
  - cbn [allowed] in Ha. apply andb_prop in Ha as [(x & Hp & _)%proc_with_inv (y & Hy & Hex)%proc_with_inv]. rewrite Hy. res_simpl.
    apply negb_true_iff, bool_decide_eq_false in Hex.
    destruct (clone_ok _ st rl bl p x par y Hok Hp Hy Hex) as [E Hok']. eexists. split; [exact E|]. by eapply safe_frame.
  - by eapply wake_safe.
  - allowed_facts Ha. by eapply return_safe.
  - apply proc_with_inv in Ha as (x & Hp & _). apply drop_value. unfold set_proc_alarm. destruct (seconds =? 0).
    { eexists _, _. split; [done|]. by eapply safe_frame. }
    edestruct safe_modify as (st' & -> & Hs & _ & Hf & _); [done|done|exact Hp|by apply keeps_state|].
    res_simpl. eexists _, _. by split.
  - unfold check_reschedule. eexists. split; [done|]. destruct (_ <? _); by eapply safe_frame.
  - apply drop_value. by eapply dispatch_safe.
  - allowed_facts Ha. apply drop_value. by eapply set_action_safe.
  - by eapply check_pending_safe.
  - allowed_facts Ha. apply drop_value. by eapply do_signal_safe.
Qed.

Lemma reachable_safe st : reachable st → sched_safe st.
Proof.
  induction 1 as [a live now kmap files st Ha Hf E|st op st' _ IH Hall E].
  - pose proof (init_scheduler_ok _ _ max_processes process_size a live now kmap files Ha Hf) as Hw. rewrite E in Hw.
    destruct Hw as (Hok & Hi & _). split; [by exists [], []|done].
  - pose proof (step_safe st op IH Hall) as Hw. by rewrite E in Hw.
Qed.

(** C8: in every state that the scheduler reaches from init_scheduler the
    processes that can run are in the run queue and those that wait in the
    blocked queue, each once; the table holds every process under its slot;
    every parent is there; and any operation that is allowed runs without
    undefined behaviour, and halts only for want of memory. *)
Theorem scheduler_safe st : reachable st →
  (∃ rl bl, sched_ok st rl bl) ∧
  (∀ op, allowed st op = true → wp (sched_step op st) oom reachable).
Proof.
  intros Hr. pose proof (reachable_safe st Hr) as Hs.
  split; [apply Hs|]. intros op Hall. pose proof (step_safe st op Hs Hall) as Hw.
  destruct (sched_step op st) eqn:E; try done. by eapply reach_step.
Qed.

(** ** Runs *)
Fixpoint run_ops (ops : list sched_op) st : res (sched A) :=
  match ops with [] => Val st | op :: ops => st ← sched_step op st; run_ops ops st end.
Fixpoint all_allowed (ops : list sched_op) st : bool :=
  match ops with
  | [] => true
  | op :: ops => allowed st op && match sched_step op st with Val st => all_allowed ops st | _ => false end
  end.

Lemma run_reachable ops : ∀ st st', reachable st → all_allowed ops st = true → run_ops ops st = Val st' → reachable st'.
Proof.
  induction ops as [|op ops IH]; simpl; intros st st' Hr Ha E; [by simplify_eq|]. apply andb_prop in Ha as [Ha Hrest].
  destruct (sched_step op st) as [st1| |] eqn:E1; try done. eapply IH; [by eapply reach_step|done|done].
Qed.

(** A run from the start. *)
Definition boot_run (a : A) (now kmap files : Z) (ops : list sched_op) : res (sched A) :=
  st ← init_scheduler CONFIG_MAX_PROCESSES SIZEOF_PROCESS (boot_state CONFIG_MAX_PROCESSES a) now kmap files;
  run_ops ops st.
Definition boot_allowed (a : A) (now kmap files : Z) (ops : list sched_op) : bool :=
  match init_scheduler CONFIG_MAX_PROCESSES SIZEOF_PROCESS (boot_state CONFIG_MAX_PROCESSES a) now kmap files with
  | Val st => all_allowed ops st
  | _ => false
  end.

Lemma boot_reachable a live now kmap files ops st : alloc_inv a live → files ≠ NULL →
  boot_allowed a now kmap files ops = true → boot_run a now kmap files ops = Val st → reachable st.
Proof.
  unfold boot_allowed, boot_run. intros Ha Hf. destruct (init_scheduler _ _ _ _ _ _) as [st0| |] eqn:E; [|done..].
  intros Hall Hr. eapply run_reachable; [by eapply reach_init|done|done].
Qed.
End runs.

(** ** Examples: a table of four processes *)
#[local] Existing Instance example_allocator.
#[local] Existing Instance example_alloc_laws.
Definition example_procs : list sched_op := [NewProc 1 0 0; NewProc 0 0 0; NewProc 0 0 0].
Definition handler : sigaction := Sigaction 64 0 8 0.
Abbreviation example_state ops :=
  (boot_run 4 10 64 1 (λ _ _, None) (λ _ _ _ _ _, true) example_kheap 0 4096 8192 (example_procs ++ ops)).
Abbreviation example_allowed ops :=
  (boot_allowed 4 10 64 1 (λ _ _, None) (λ _ _ _ _ _, true) example_kheap 0 4096 8192 (example_procs ++ ops)).
Abbreviation example_reachable := (reachable 4 10 64 1 (λ _ _, None) (λ _ _ _ _ _, true)).

Definition example_view (ops : list sched_op) : res (queue * list (Z * proc_state)) :=
  st ← example_state ops; Val (run_queue st, (λ '(p, x), (p, state x)) <$> map_to_list (procs st)).

Lemma example_reaches ops st : example_allowed ops = true → example_state ops = Val st → example_reachable st.
Proof. apply (boot_reachable _ _ _ _ _ _ _ ∅); [apply example_kheap_inv|discriminate]. Qed.

(** A test of the state after [ops]. *)
Lemma example_check (check : sched Alloc.kheap → bool) ops :
  example_allowed ops && match example_state ops with Val st => check st | _ => false end = true →
  ∃ st, example_state ops = Val st ∧ example_reachable st ∧ check st = true.
Proof.
  intros [Ha Hc]%andb_prop. destruct (example_state ops) as [st| |] eqn:E; [|discriminate..].
  exists st. split; [reflexivity|]. split; [exact (example_reaches ops st Ha E)|exact Hc].
Qed.

Lemma scheduler_safe_witness :
  ∃ st, example_reachable st ∧ (∃ rl bl, sched_inv 4 st rl bl) ∧
    wp (sched_step 4 10 64 1 (λ _ _, None) (λ _ _ _ _ _, true) (ExitProc 66312 0) st) oom example_reachable.
Proof.
  destruct (example_check (λ st, allowed 4 1 (λ _ _, None) (λ _ _ _ _ _, true) st (ExitProc 66312 0)) [SuspendProc 66200 0; Schedule 0])
    as (st & _ & Hr & Ha); [by vm_compute|].
  exists st. destruct (scheduler_safe 4 10 64 1 (λ _ _, None) (λ _ _ _ _ _, true) ltac:(lia) ltac:(lia) st Hr) as [Hok Hstep].
  split; [exact Hr|]. split; [exact Hok|]. apply Hstep. exact Ha.
Defined.

Lemma send_signal_ok_witness :
  ∃ st p x st', example_reachable st ∧ send_signal st 3 15 = Val (st', 0) ∧ procs st !! p = Some x ∧ signalled st st' p x 15.
Proof.
  destruct (example_check (λ st, forallb (λ '(p, x), negb (pid (ids x) =? 3) || can_signal st p 15) (map_to_list (procs st)) &&
    proc_with st 66200 (λ x, pid (ids x) =? 3)) [SetAction 66200 15 handler; SuspendProc 66200 0; Schedule 0])
    as (st & _ & Hr & [Hc (x0 & Hx0 & Hpid)%proc_with_inv]%andb_prop); [by vm_compute|]. rewrite forallb_forall in Hc.
  destruct (reachable_safe 4 10 64 1 (λ _ _, None) (λ _ _ _ _ _, true) ltac:(lia) ltac:(lia) st Hr) as [(rl & bl & Hok) _].
  destruct (send_signal_ok 4 st rl bl 3 15 Hok) as [[Hno _]|(p & x & st' & rl' & bl' & Hx & _ & Es & _ & Heff)].
  - intros p x Hx Hp. specialize (Hc (p, x) ltac:(by apply list_elem_of_In, elem_of_map_to_list)). simpl in Hc.
    rewrite Hp in Hc. exact Hc.
  - exfalso. apply (Hno _ _ Hx0). lia.
  - exists st, p, x, st'. split; [exact Hr|]. split; [exact Es|]. split; [exact Hx|exact Heff].
Defined.

Lemma schedule_fair_witness :
  ∃ st st' rl order, example_reachable st ∧ ticks 10 (length rl) st 0 = Val (st', order) ∧ Permutation order rl.
Proof.
  destruct (example_check (λ _, true) []) as (st & _ & Hr & _); [by vm_compute|].
  destruct (reachable_safe 4 10 64 1 (λ _ _, None) (λ _ _ _ _ _, true) ltac:(lia) ltac:(lia) st Hr) as [(rl & bl & Hok) Hi].
  destruct (schedule_fair 4 10 st rl bl 0 Hok Hi) as [(st' & l1 & l2 & El & Et & _) _].
  exists st, st', rl, (l2 ++ l1). split; [exact Hr|]. split; [exact Et|]. rewrite El. apply Permutation_app_comm.
Defined.

(** *** What the conditions leave out *)

(** A process that is stopped and then terminated takes the run queue with it:
    exit_proc removes a node that is in no queue. *)
Lemma exit_stopped_process : example_view [StopProc 66312; ExitProc 66312 0] =
  Val (Queue.mk_queue NULL NULL,
    [(66200, PS_RUNNING); (66312, PS_EXITED); (66056, PS_RUNNING); (66128, PS_RUNNING)]).
Proof. by vm_compute. Qed.

(** The same when a signal terminates the idle process, whose pid is 2. *)
Lemma kill_idle_process : example_view [DispatchSignal 66056 SIGKILL] =
  Val (Queue.mk_queue NULL NULL,
    [(66200, PS_RUNNING); (66312, PS_RUNNING); (66056, PS_EXITED); (66128, PS_RUNNING)]).
Proof. by vm_compute. Qed.

(** While the idle process runs, a process that is woken by a signal is put
    behind the idle process, which is in no queue: it is lost when the next
    process is resumed. *)
Lemma wake_while_idle :
  example_view [SuspendProc 66312 0; SuspendProc 66200 0; SuspendProc 66128 0; Schedule 0;
                ResumeNoRestart 66200; ResumeProc 66312] =
  Val (Queue.mk_queue 66312 66312,
    [(66200, PS_RUNNING); (66312, PS_RESUMING); (66056, PS_RUNNING); (66128, PS_BLOCKED)]).
Proof. by vm_compute. Qed.

(** The search for a free slot reads behind the process table. *)
Lemma slot_search_overrun : example_view [ExitProc 66200 0; CleanupProc 66200; NewProc 0 0 0] = Undef.
Proof. by vm_compute. Qed.

(** A signal with a handler makes a process that has exited run again, in no queue. *)
Lemma signal_exited_process : (st ← example_state [SetAction 66200 15 handler; ExitProc 66200 0; Schedule 0; DispatchSignal 66200 15];
  x ← lift (procs st !! 66200); Val (state x, _queue_head (run_queue st))) = Val (PS_RUNNING, NULL).
Proof. by vm_compute. Qed.

(** Signal 31 is never taken from the pending ones. *)
Lemma pending_31 : get_next_signum (signal_to_map 31) = -1.
Proof. by vm_compute. Qed.

(** A pending signal that is blocked keeps one with a higher number, which is
    not, from being delivered. *)
Definition with_pending (st : sched Alloc.kheap) : sched Alloc.kheap :=
  let x := default zero_process (procs st !! current_proc st) in
  set_procs st (<[current_proc st := set_signals x (Signals 0 (signal_to_map 1)
    (Z.lor (signal_to_map 1) (signal_to_map 15)) (actions (signals x)))]> (procs st)).
Lemma pending_behind_blocked :
  (st ← example_state [Schedule 0]; st ← check_pending_signals (with_pending st);
   x ← lift (procs st !! current_proc st); Val (state x, pending (signals x))) =
  Val (PS_RUNNING, Z.lor (signal_to_map 1) (signal_to_map 15)).
Proof. by vm_compute. Qed.

(** sigaction does not check the number of the signal. *)
Lemma set_action_out_of_range : (st ← example_state []; set_signal_action st 66128 40 handler) = Undef.
Proof. by vm_compute. Qed.
