(* ===== verification/Memmap.v ===== *)
(** * Memmap: the memory maps of processes (src/kernel/mm/map.c, include/kernel/mm/map.h)

    A map is a queue of segments in the order of their addresses; without an
    MMU a segment looks into a region, a piece of memory that is shared between
    segments and freed with the last of them.  Maps, segments and regions live
    in a store, by their addresses; calls of the file system and of the page
    allocator are recorded.  This is the configuration without CONFIG_MMU. *)

From S2P Require Import Prelude Queue Result Alloc Pages.

Definition EFAULT : Z := -14.
Definition EINVAL : Z := -22.
Definition ENOMEM : Z := -12.

Definition SEG_TYPE_CODE : Z := 1.
Definition SEG_TYPE_DATA : Z := 2.
Definition SEG_TYPE_HEAP : Z := 3.
Definition SEG_TYPE_STACK : Z := 4.
Definition SEG_READ : Z := 16.
Definition SEG_WRITE : Z := 32.
Definition SEG_EXECUTABLE : Z := 64.
Definition SEG_GROWSDOWN : Z := 256.
Definition SEG_ANONYMOUS : Z := 4096.

Record memory_region := Region { r_refcount : Z; file : Z; mem_start : Z; mem_length : Z }.

(** [offset] is [None] as long as nobody has written it. *)
Record memory_segment := Segment { flags : Z; start : Z; end_ : Z; region : Z; offset : option Z }.

Record memory_map := Map {
  refcount : Z; segments : queue; code_start : Z; data_start : Z; heap_start : Z; sbrk : Z; stack_end : Z;
}.

Inductive mm_call := VfsClose (file : Z) | PageFree (addr length : Z).

Record mm (A : Type) := Mm {
  maps : gmap Z memory_map; segs : gmap Z memory_segment; nodes : Queue.heap; regions : gmap Z memory_region;
  kheap : A; calls : list mm_call;
}.
Arguments Mm {_} _ _ _ _ _ _.
Arguments maps {_} _.
Arguments segs {_} _.
Arguments nodes {_} _.
Arguments regions {_} _.
Arguments kheap {_} _.
Arguments calls {_} _.

Definition set_start (s : memory_segment) (v : Z) : memory_segment := Segment (flags s) v (end_ s) (region s) (offset s).
Definition set_end (s : memory_segment) (v : Z) : memory_segment := Segment (flags s) (start s) v (region s) (offset s).
Definition set_region (s : memory_segment) (v : Z) : memory_segment := Segment (flags s) (start s) (end_ s) v (offset s).
Definition set_offset (s : memory_segment) (v : option Z) : memory_segment := Segment (flags s) (start s) (end_ s) (region s) v.
Definition set_segments (m : memory_map) (q : queue) : memory_map :=
  Map (refcount m) q (code_start m) (data_start m) (heap_start m) (sbrk m) (stack_end m).
Definition set_refcount (m : memory_map) (n : Z) : memory_map :=
  Map n (segments m) (code_start m) (data_start m) (heap_start m) (sbrk m) (stack_end m).
Definition set_markers (m : memory_map) (code data heap brk stack : Z) : memory_map :=
  Map (refcount m) (segments m) code data heap brk stack.

Definition within_memory_segment_start (s : memory_segment) (address : Z) : bool := start s <=? address.
Definition overlapping_memory_segment_start (s : memory_segment) (address : Z) : bool := start s <? address.
Definition within_memory_segment_end (s : memory_segment) (address : Z) : bool := (end_ s =? 0) || (address <? end_ s).
Definition within_or_at_memory_segment_end (s : memory_segment) (address : Z) : bool := (end_ s =? 0) || (address <=? end_ s).

Section store.
Context {A : Type}.
Implicit Types st : mm A.

Definition put_map st (p : Z) (m : memory_map) : mm A :=
  Mm (<[p := m]> (maps st)) (segs st) (nodes st) (regions st) (kheap st) (calls st).
Definition put_seg st (p : Z) (s : memory_segment) : mm A :=
  Mm (maps st) (<[p := s]> (segs st)) (nodes st) (regions st) (kheap st) (calls st).
Definition put_region st (p : Z) (r : memory_region) : mm A :=
  Mm (maps st) (segs st) (nodes st) (<[p := r]> (regions st)) (kheap st) (calls st).
Definition put_nodes st (h : Queue.heap) : mm A := Mm (maps st) (segs st) h (regions st) (kheap st) (calls st).
Definition put_kheap st (a : A) : mm A := Mm (maps st) (segs st) (nodes st) (regions st) a (calls st).
Definition mm_called st (c : mm_call) : mm A :=
  Mm (maps st) (segs st) (nodes st) (regions st) (kheap st) (calls st ++ [c]).

(** ** Finding a segment *)
Fixpoint memory_segment_find_next (fuel : nat) st (cur address : Z) : res Z :=
  if cur =? NULL then Val NULL
  else
    match fuel with
    | O => Undef
    | S fuel =>
        s ← lift (segs st !! cur);
        if within_memory_segment_start s address && within_memory_segment_end s address then Val cur
        else nx ← lift (_queue_next (nodes st) cur); memory_segment_find_next fuel st nx address
    end.

Fixpoint memory_segment_find_prev (fuel : nat) st (cur address : Z) : res Z :=
  if cur =? NULL then Val NULL
  else
    match fuel with
    | O => Undef
    | S fuel =>
        s ← lift (segs st !! cur);
        if within_memory_segment_start s address && within_memory_segment_end s address then Val cur
        else pv ← lift (_queue_prev (nodes st) cur); memory_segment_find_prev fuel st pv address
    end.

Definition memory_map_find st (map address : Z) : res Z :=
  m ← lift (maps st !! map);
  memory_segment_find_next (size (nodes st)) st (_queue_head (segments m)) address.

(** memory_map_validate_address_range, with CONFIG_VALIDATE_ADDRESSES *)
Fixpoint validate_loop (fuel : nat) st (cur address length : Z) : res Z :=
  if cur =? NULL then Val EFAULT
  else
    match fuel with
    | O => Undef
    | S fuel =>
        s ← lift (segs st !! cur);
        if within_memory_segment_start s address then Val EFAULT
        else if within_memory_segment_end s (u32 (address + length)) then Val 0
        else
          nx ← lift (_queue_next (nodes st) cur);
          validate_loop fuel st nx (end_ s) (u32 (length - (end_ s - start s)))
    end.
Definition memory_map_validate_address_range st (map address length : Z) : res Z :=
  cur ← memory_map_find st map address;
  validate_loop (size (nodes st)) st cur address length.

(** ** References *)
Definition memory_map_make_ref st (map : Z) : res (mm A) :=
  m ← lift (maps st !! map); Val (put_map st map (set_refcount m (s32 (refcount m + 1)))).

Definition memory_region_make_ref st (r : Z) : res (mm A) :=
  x ← lift (regions st !! r);
  Val (put_region st r (Region (s32 (r_refcount x + 1)) (file x) (mem_start x) (mem_length x))).
Definition MEMORY_OBJECT_MAKE_REF st (object : Z) : res (mm A) :=
  if object =? NULL then Val st else memory_region_make_ref st object.

(** ** Changing the size of a segment *)
Definition memory_map_resize st (segment diff : Z) : res (mm A * Z) :=
  s ← lift (segs st !! segment);
  if negb (Z.land (flags s) SEG_GROWSDOWN =? 0) then
    let new_addr := u32 (start s - diff) in
    adjacent ← lift (_queue_prev (nodes st) segment);
    if adjacent =? NULL then Val (put_seg st segment (set_start s new_addr), 0)
    else
      a ← lift (segs st !! adjacent);
      if within_memory_segment_end a new_addr then
        if negb (within_memory_segment_start a new_addr) then Val (st, EFAULT)
        else Val (put_seg (put_seg st adjacent (set_end a new_addr)) segment (set_start s new_addr), 0)
      else Val (put_seg st segment (set_start s new_addr), 0)
  else
    let new_addr := u32 (end_ s + diff) in
    adjacent ← lift (_queue_next (nodes st) segment);
    if adjacent =? NULL then Val (put_seg st segment (set_end s new_addr), 0)
    else
      a ← lift (segs st !! adjacent);
      if within_memory_segment_start a new_addr then
        if negb (within_or_at_memory_segment_end a new_addr) then Val (st, EFAULT)
        else Val (put_seg (put_seg st adjacent (set_start a new_addr)) segment (set_end s new_addr), 0)
      else Val (put_seg st segment (set_end s new_addr), 0).

Definition memory_map_adjust_markers st (map segment : Z) : res (mm A) :=
  m ← lift (maps st !! map);
  s ← lift (segs st !! segment);
  let exec := negb (Z.land (flags s) SEG_EXECUTABLE =? 0) in
  let code := if exec && (code_start m =? 0) then start s else code_start m in
  let data := if negb exec && (data_start m =? 0) then start s else data_start m in
  let stack := if negb (Z.land (flags s) SEG_TYPE_STACK =? 0) && ((end_ s =? 0) || (stack_end m <? end_ s))
               then end_ s else stack_end m in
  Val (put_map st map (set_markers m code data (heap_start m) (sbrk m) stack)).
End store.

Section config.
Context {A : Type} `{Allocator A} (PAGE_ADDR_BITS SIZEOF_MAP SIZEOF_SEGMENT SIZEOF_REGION : Z).
Implicit Types st : mm A.
Abbreviation page_size := (PAGE_SIZE PAGE_ADDR_BITS).

(** ** Regions *)

(** [memory] is what page_alloc returns. *)
Definition memory_region_alloc_user_memory st (sz f memory : Z) : res (mm A * Z) :=
  let sz := u32 (align_up sz page_size) in
  let fail st := Val (if f =? NULL then st else mm_called st (VfsClose f), NULL) in
  '(a, r) ← kzalloc (kheap st) SIZEOF_REGION;
  let st := put_kheap st a in
  if r =? NULL then fail st
  else if memory =? NULL then fail st
  else Val (put_region st r (Region 1 f memory sz), r).

Definition memory_region_free st (r : Z) : res (mm A) :=
  if r =? NULL then Val st
  else
    x ← lift (regions st !! r);
    let n := s32 (r_refcount x - 1) in
    let st := put_region st r (Region n (file x) (mem_start x) (mem_length x)) in
    if n <? 0 then Val st
    else if n =? 0 then
      let st := if file x =? NULL then st else mm_called st (VfsClose (file x)) in
      let st := mm_called st (PageFree (mem_start x) (mem_length x)) in
      a ← kmfree (kheap st) r;
      Val (Mm (maps st) (segs st) (nodes st) (delete r (regions st)) a (calls st))
    else Val st.

(** ** Segments *)
Definition memory_segment_alloc st (s e fl : Z) : res (mm A * Z) :=
  '(a, p) ← kmalloc (kheap st) SIZEOF_SEGMENT;
  let st := put_kheap st a in
  if p =? NULL then Val (st, NULL)
  else Val (put_nodes (put_seg st p (Segment fl s e NULL None)) (<[p := mk_node NULL NULL]> (nodes st)), p).

Definition memory_segment_free st (p : Z) : res (mm A) :=
  s ← lift (segs st !! p);
  st ← memory_region_free st (region s);
  a ← kmfree (kheap st) p;
  Val (Mm (maps st) (delete p (segs st)) (delete p (nodes st)) (regions st) a (calls st)).

(** ** Maps *)
Definition memory_map_alloc st : res (mm A * Z) :=
  '(a, p) ← kzalloc (kheap st) SIZEOF_MAP;
  let st := put_kheap st a in
  if p =? NULL then Val (st, NULL)
  else Val (put_map st p (Map 1 _queue_init 0 0 0 0 0), p).

Fixpoint free_segments (fuel : nat) st (cur : Z) : res (mm A) :=
  if cur =? NULL then Val st
  else
    match fuel with
    | O => Undef
    | S fuel =>
        nx ← lift (_queue_next (nodes st) cur);
        st ← memory_segment_free st cur;
        free_segments fuel st nx
    end.
Definition memory_map_free st (map : Z) : res (mm A) :=
  if map =? NULL then Val st
  else
    m ← lift (maps st !! map);
    let n := s32 (refcount m - 1) in
    let st := put_map st map (set_refcount m n) in
    if n <? 0 then Val st
    else if n =? 0 then
      st ← free_segments (size (nodes st)) st (_queue_head (segments m));
      a ← kmfree (kheap st) map;
      Val (Mm (delete map (maps st)) (segs st) (nodes st) (regions st) a (calls st))
    else Val st.

(** The segment behind which a new one belongs. *)
Fixpoint insert_point (fuel : nat) st (cur s e : Z) : res Z :=
  if cur =? NULL then Val NULL
  else
    match fuel with
    | O => Undef
    | S fuel =>
        nx ← lift (_queue_next (nodes st) cur);
        c ← lift (segs st !! cur);
        if within_memory_segment_end c s then insert_point fuel st nx s e
        else if nx =? NULL then Val cur
        else
          n ← lift (segs st !! nx);
          if overlapping_memory_segment_start n e then insert_point fuel st nx s e else Val cur
    end.

Definition insert_after st (map p after : Z) : res (mm A) :=
  m ← lift (maps st !! map);
  '(h, q) ← lift (_queue_insert_after (nodes st) (segments m) p after);
  Val (put_map (put_nodes st h) map (set_segments m q)).

Definition memory_map_insert_segment st (map s length fl : Z) : res (mm A * Z) :=
  let e := u32 (s + length) in
  m ← lift (maps st !! map);
  cur ← insert_point (size (nodes st)) st (_queue_head (segments m)) s e;
  '(st, p) ← memory_segment_alloc st s e fl;
  if p =? NULL then Val (st, NULL)
  else st ← insert_after st map p cur; Val (st, p).

Definition memory_map_mmap st (map s length fl object off : Z) : res (mm A * Z) :=
  if negb (align_remainder length page_size =? 0) then Val (st, EINVAL)
  else if negb (align_remainder s page_size =? 0) then Val (st, EINVAL)
  else if (0 <? u32 (s + length)) && (u32 (s + length) <? s) then Val (st, EINVAL)
  else
    '(st, p) ← memory_map_insert_segment st map s length fl;
    if p =? NULL then st ← (if object =? NULL then Val st else memory_region_free st object); Val (st, ENOMEM)
    else
      x ← lift (segs st !! p);
      st ← memory_map_adjust_markers (put_seg st p (set_region x object)) map p;
      Val (st, 0).

(** One round of the loop of memory_map_unmap; [false] when it is left with ENOMEM. *)
Definition unmap_segment st (map cur s e : Z) : res (mm A * bool) :=
  c ← lift (segs st !! cur);
  if (s <=? start c) && (start c <=? e) then
    if (s <=? end_ c) && (end_ c <=? e) then
      m ← lift (maps st !! map);
      '(h, q) ← lift (_queue_remove (nodes st) (segments m) cur);
      st ← memory_segment_free (put_map (put_nodes st h) map (set_segments m q)) cur;
      Val (st, true)
    else Val (put_seg st cur (set_start c e), true)
  else if (s <=? end_ c) && (end_ c <=? e) then Val (put_seg st cur (set_end c s), true)
  else if (start c <=? s) && (s <=? end_ c) then
    '(st, p) ← memory_segment_alloc st e (end_ c) (flags c);
    if p =? NULL then Val (st, false)
    else
      st ← MEMORY_OBJECT_MAKE_REF st (region c);
      n ← lift (segs st !! p);
      let st := put_seg st p (set_offset (set_region n (region c)) ((λ o, s32 (o + (e - start c))) <$> offset c)) in
      st ← insert_after st map p cur;
      Val (put_seg st cur (set_end c s), true)
  else Val (st, true).

Fixpoint unmap_loop (fuel : nat) st (map cur s e : Z) : res (mm A * bool) :=
  if cur =? NULL then Val (st, true)
  else
    match fuel with
    | O => Undef
    | S fuel =>
        nx ← lift (_queue_next (nodes st) cur);
        '(st, ok) ← unmap_segment st map cur s e;
        if ok : bool then unmap_loop fuel st map nx s e else Val (st, false)
    end.

Definition memory_map_unmap st (map s length : Z) : res (mm A * Z) :=
  let e := u32 (s + length) in
  m ← lift (maps st !! map);
  '(st, ok) ← unmap_loop (size (nodes st)) st map (_queue_head (segments m)) s e;
  if negb ok then Val (st, ENOMEM)
  else
    m ← lift (maps st !! map);
    let move v := if (s <=? v) && (v <=? e) then s else v in
    Val (put_map st map (set_markers m (move (code_start m)) (move (data_start m)) (move (heap_start m))
           (sbrk m) (stack_end m)), 0).

Definition memory_map_copy_segment st (dest_map src_segment : Z) : res (mm A * Z) :=
  x ← lift (segs st !! src_segment);
  '(st, p) ← memory_map_insert_segment st dest_map (start x) (u32 (end_ x - start x)) (flags x);
  if p =? NULL then Val (st, ENOMEM)
  else
    st ← MEMORY_OBJECT_MAKE_REF st (region x);
    n ← lift (segs st !! p);
    st ← memory_map_adjust_markers (put_seg st p (set_region (set_offset n (offset x)) (region x))) dest_map p;
    Val (st, 0).

Definition memory_map_move_sbrk st (map diff : Z) : res (mm A * Z) :=
  m ← lift (maps st !! map);
  let new_sbrk := u32 (sbrk m + diff) in
  stack ← memory_segment_find_prev (size (nodes st)) st (_queue_tail (segments m)) (sbrk m);
  if stack =? NULL then Val (st, EFAULT)
  else
    heap ← lift (_queue_prev (nodes st) stack);
    if heap =? NULL then Val (st, EFAULT)
    else
      s ← lift (segs st !! stack);
      if negb (sbrk m =? start s) then Val (st, EFAULT)
      else if s32 (s32 (end_ s - start s) + diff) <? 0 then Val (st, ENOMEM)
      else if negb (align_remainder (Z.abs diff) page_size =? 0) then Val (st, ENOMEM)
      else
        '(st, error) ← (if 0 <=? diff then memory_map_resize st stack (- diff) else memory_map_resize st heap diff);
        if error <? 0 then Val (st, error)
        else
          '(st, error) ← (if 0 <=? diff then memory_map_resize st heap diff else memory_map_resize st stack (- diff));
          if error <? 0 then Val (st, error)
          else
            m ← lift (maps st !! map);
            Val (put_map st map (set_markers m (code_start m) (data_start m) (heap_start m) new_sbrk (stack_end m)), 0).

Definition memory_map_reset_sbrk st (map : Z) : res (mm A * Z) :=
  m ← lift (maps st !! map); memory_map_move_sbrk st map (s32 (-1 * (sbrk m - heap_start m))).

(** [memory] is what page_alloc returns for the region. *)
Definition memory_map_insert_heap_stack st (map stack_size memory : Z) : res (mm A * Z) :=
  '(st, r) ← memory_region_alloc_user_memory st stack_size NULL memory;
  if r =? NULL then Val (st, ENOMEM)
  else
    x ← lift (regions st !! r);
    let s := mem_start x in
    st ← MEMORY_OBJECT_MAKE_REF st r;
    '(st, error) ← memory_map_mmap st map s 0 (Z.lor SEG_TYPE_HEAP (Z.lor SEG_READ (Z.lor SEG_WRITE SEG_ANONYMOUS))) r 0;
    if error <? 0 then st ← memory_region_free st r; Val (st, error)
    else
      '(st, error) ← memory_map_mmap st map s stack_size
          (Z.lor SEG_TYPE_STACK (Z.lor SEG_GROWSDOWN (Z.lor SEG_READ (Z.lor SEG_WRITE SEG_ANONYMOUS)))) r 0;
      if error <? 0 then st ← memory_region_free st r; Val (st, error)
      else
        m ← lift (maps st !! map);
        Val (put_map st map (set_markers m (code_start m) (data_start m) s s (u32 (s + stack_size))), 0).

(** duplicate_memory_map of src/kernel/proc/fork.c: the error and the new map. *)
Fixpoint copy_segments (fuel : nat) st (new_map cur : Z) : res (mm A * Z) :=
  if cur =? NULL then Val (st, 0)
  else
    match fuel with
    | O => Undef
    | S fuel =>
        '(st, error) ← memory_map_copy_segment st new_map cur;
        if error <? 0 then Val (st, error)
        else nx ← lift (_queue_next (nodes st) cur); copy_segments fuel st new_map nx
    end.
Definition duplicate_memory_map st (parent_map : Z) : res (mm A * Z * Z) :=
  if parent_map =? NULL then Val (st, 0, NULL)
  else
    '(st, p) ← memory_map_alloc st;
    if p =? NULL then Val (st, ENOMEM, NULL)
    else
      m ← lift (maps st !! parent_map);
      '(st, error) ← copy_segments (size (nodes st)) st p (_queue_head (segments m));
      if error <? 0 then st ← memory_map_free st p; Val (st, error, NULL)
      else
        n ← lift (maps st !! p);
        m ← lift (maps st !! parent_map);
        Val (put_map st p (set_markers n (code_start n) (data_start n) (heap_start m) (sbrk m) (stack_end n)), 0, p).
End config.
