(* ===== verification/Mapinv.v ===== *)
(** * Mapinv: what the memory maps keep to

    Every map lists its segments in the order of their addresses, and they do
    not overlap; a segment belongs to one map; and the reference count of a
    region is the number of the segments that look into it and of the
    references that callers hold. *)

From S2P Require Import Prelude Queue Result Alloc Memmap.

(** ** Segments in order *)
Abbreviation layout := (list (Z * memory_segment)).

Fixpoint sorted (lo : Z) (l : layout) : Prop :=
  match l with
  | [] => True
  | (_, s) :: l => lo ≤ start s ∧ start s ≤ end_ s ∧ 0 < end_ s < 2 ^ 32 ∧ sorted (end_ s) l
  end.

(** What an address is mapped to: the flags and the region. *)
Definition holds (s : memory_segment) (a : Z) : bool := (start s <=? a) && (a <? end_ s).
Fixpoint view (l : layout) (a : Z) : option (Z * Z) :=
  match l with [] => None | (_, s) :: l => if holds s a then Some (flags s, region s) else view l a end.

(** Where the segments of [l] end, from [lo] on. *)
Fixpoint top (lo : Z) (l : layout) : Z := match l with [] => lo | (_, s) :: l => top (end_ s) l end.

Lemma sorted_app lo l1 l2 : sorted lo (l1 ++ l2) ↔ sorted lo l1 ∧ sorted (top lo l1) l2.
Proof. revert lo. induction l1 as [|[q s] l1 IH]; intros lo; simpl; [naive_solver|]. rewrite IH. naive_solver. Qed.

Lemma sorted_lower lo lo' l : lo' ≤ lo → sorted lo l → sorted lo' l.
Proof. destruct l as [|[q s] l]; simpl; [done|]. intros ? (? & ?). split; [lia|done]. Qed.

Lemma top_app lo l1 l2 : top lo (l1 ++ l2) = top (top lo l1) l2.
Proof. revert lo. induction l1 as [|[q s] l1 IH]; intros lo; simpl; [done|]. apply IH. Qed.

Lemma view_app l1 l2 a : view (l1 ++ l2) a = match view l1 a with Some v => Some v | None => view l2 a end.
Proof. induction l1 as [|[q s] l1 IH]; simpl; [done|]. destruct (holds s a); [done|]. apply IH. Qed.

Lemma sorted_top lo l : sorted lo l → lo ≤ top lo l.
Proof. revert lo. induction l as [|[q s] l IH]; intros lo; simpl; [lia|]. intros (? & ? & ? & Hs%IH). lia. Qed.

Lemma sorted_in lo l q s : sorted lo l → (q, s) ∈ l → lo ≤ start s ∧ start s ≤ end_ s ∧ 0 < end_ s < 2 ^ 32 ∧ end_ s ≤ top lo l.
Proof.
  revert lo. induction l as [|[q' s'] l IH]; intros lo; simpl; [by intros _ ?%elem_of_nil|].
  intros (H1 & H2 & H3 & H4) [[= -> ->]|Hin]%elem_of_cons.
  - apply sorted_top in H4. lia.
  - destruct (IH _ H4 Hin) as (? & ?). lia.
Qed.

Lemma view_outside lo l a : sorted lo l → a < lo ∨ top lo l ≤ a → view l a = None.
Proof.
  revert lo. induction l as [|[q s] l IH]; intros lo; simpl; [done|]. intros (H1 & H2 & H3 & H4) Ha.
  pose proof (sorted_top _ _ H4) as Ht.
  unfold holds. destruct (Z.leb_spec (start s) a), (Z.ltb_spec a (end_ s)); simpl; try lia; apply (IH (end_ s)); auto; lia.
Qed.

(** ** A new segment *)
Definition fits (l : layout) (s e : Z) : Prop := ∀ q x, (q, x) ∈ l → end_ x ≤ s ∨ e ≤ start x.

Lemma sorted_insert lo l1 q x l2 : sorted lo (l1 ++ l2) → top lo l1 ≤ start x → start x ≤ end_ x → 0 < end_ x < 2 ^ 32 →
  sorted (end_ x) l2 → sorted lo (l1 ++ (q, x) :: l2).
Proof. rewrite !sorted_app. simpl. naive_solver. Qed.

Lemma view_insert lo l1 q x l2 a : sorted lo (l1 ++ (q, x) :: l2) →
  view (l1 ++ (q, x) :: l2) a = if holds x a then Some (flags x, region x) else view (l1 ++ l2) a.
Proof.
  rewrite sorted_app. simpl. intros (H1 & H2 & H3 & H4 & H5). rewrite !view_app. simpl.
  destruct (holds x a) eqn:E; [|done]. unfold holds in E. by rewrite (view_outside lo l1 a) by (done || lia).
Qed.

(** ** Counting the references *)
Definition uses (m : gmap Z memory_segment) (r : Z) : Z := Z.of_nat (size (filter (λ kv, region kv.2 = r) m)).

Lemma uses_insert m q s r : m !! q = None → uses (<[q := s]> m) r = uses m r + (if region s =? r then 1 else 0).
Proof.
  intros Hq. unfold uses. destruct (Z.eqb_spec (region s) r).
  - rewrite map_filter_insert_True by done. rewrite map_size_insert_None; [lia|]. apply map_lookup_filter_None. by left.
  - rewrite map_filter_insert_False by done. rewrite delete_id by done. lia.
Qed.

Lemma uses_delete m q s r : m !! q = Some s → uses (delete q m) r = uses m r - (if region s =? r then 1 else 0).
Proof. intros Hq. rewrite <- (insert_delete_id m q s Hq) at 2. rewrite uses_insert by apply lookup_delete_eq. lia. Qed.

Lemma uses_update m q s s' r : m !! q = Some s →
  uses (<[q := s']> m) r = uses m r - (if region s =? r then 1 else 0) + (if region s' =? r then 1 else 0).
Proof. intros Hq. rewrite <- insert_delete_eq, uses_insert by apply lookup_delete_eq. by rewrite (uses_delete m q s). Qed.

Lemma uses_nonneg m r : 0 ≤ uses m r.
Proof. unfold uses. lia. Qed.

Lemma uses_pos m q s : m !! q = Some s → 0 < uses m (region s).
Proof.
  intros Hq. pose proof (uses_delete m q s (region s) Hq) as E. rewrite Z.eqb_refl in E.
  pose proof (uses_nonneg (delete q m) (region s)). lia.
Qed.

Definition counted (regs : gmap Z memory_region) (sg : gmap Z memory_segment) (ext : Z → Z) : Prop :=
  regs !! NULL = None ∧
  ∀ r, 0 ≤ ext r ∧
    match regs !! r with
    | Some x => 0 < r_refcount x < 2 ^ 31 ∧ r_refcount x = ext r + uses sg r
    | None => ext r = 0 ∧ (r ≠ NULL → uses sg r = 0)
    end.

(** ** References *)

(** The references that callers hold, with [d] more to region [r]. *)
Definition held (ext : Z → Z) (r d : Z) : Z → Z := λ r', if (r' =? r) && negb (r =? NULL) then ext r' + d else ext r'.

Definition with_refs (x : memory_region) (n : Z) : memory_region := Region n (file x) (mem_start x) (mem_length x).
Definition take_ref (regs : gmap Z memory_region) (r : Z) : gmap Z memory_region :=
  match regs !! r with Some x => <[r := with_refs x (r_refcount x + 1)]> regs | None => regs end.
Definition drop_ref (regs : gmap Z memory_region) (r : Z) : gmap Z memory_region :=
  match regs !! r with
  | Some x => if r_refcount x =? 1 then delete r regs else <[r := with_refs x (r_refcount x - 1)]> regs
  | None => regs
  end.

Lemma dom_take_ref regs r : dom (take_ref regs r) = dom regs.
Proof. unfold take_ref. destruct (regs !! r) eqn:E; [|done]. apply elem_of_dom_2 in E. rewrite dom_insert_L. set_solver. Qed.

(** Room for one more reference. *)
Definition ref_room (regs : gmap Z memory_region) (r : Z) : Prop :=
  r = NULL ∨ ∃ x, regs !! r = Some x ∧ 0 ≤ r_refcount x < 2 ^ 31 - 1.

Lemma counted_hand_over regs sg ext p x : counted regs sg ext → sg !! p = None → (region x = NULL ∨ 0 < ext (region x)) →
  counted regs (<[p := x]> sg) (held ext (region x) (-1)).
Proof.
  intros [Hn Hc] Hp Hx. split; [done|]. intros r. destruct (Hc r) as [He Hr]. rewrite uses_insert by done. unfold held.
  rewrite (Z.eqb_sym (region x) r). destruct (Z.eqb_spec r (region x)) as [->|]; simpl.
  - destruct (Z.eqb_spec (region x) NULL) as [E|E]; simpl.
    + rewrite E in *. split; [done|]. rewrite Hn in Hr |- *. naive_solver.
    + split; [lia|]. destruct (regs !! region x); lia.
  - split; [done|]. by rewrite Z.add_0_r.
Qed.

Lemma counted_take regs sg ext p x : counted regs sg ext → sg !! p = None → ref_room regs (region x) →
  counted (take_ref regs (region x)) (<[p := x]> sg) ext.
Proof.
  intros [Hn Hc] Hp Hx. unfold take_ref. destruct Hx as [E|(y & Hy & Hroom)].
  { rewrite E, Hn. split; [done|]. intros r. destruct (Hc r) as [He Hr]. split; [done|]. rewrite uses_insert, E by done.
    destruct (Z.eqb_spec NULL r) as [<-|]; [rewrite Hn in Hr |- *; naive_solver|]. by rewrite Z.add_0_r. }
  rewrite Hy. assert (region x ≠ NULL) by (intros E; by rewrite E, Hn in Hy). split; [by rewrite lookup_insert_ne|].
  intros r. destruct (Hc r) as [He Hr]. split; [done|]. rewrite uses_insert by done.
  destruct (decide (region x = r)) as [<-|Hne].
  - rewrite lookup_insert_eq, Z.eqb_refl. rewrite Hy in Hr. simpl. lia.
  - rewrite lookup_insert_ne by done. destruct (Z.eqb_spec (region x) r); [done|]. by rewrite Z.add_0_r.
Qed.

Lemma counted_drop regs sg ext sg' ext' r : counted regs sg ext → (r = NULL ∨ is_Some (regs !! r)) →
  (∀ r', 0 ≤ ext' r' ∧ 0 ≤ uses sg' r' ∧ (r' ≠ NULL → ext' r' + uses sg' r' = ext r' + uses sg r' - (if r' =? r then 1 else 0)) ∧
    (r' = NULL → ext' r' = 0)) →
  counted (drop_ref regs r) sg' ext'.
Proof.
  intros [Hn Hc] Hr Hrest. unfold drop_ref. destruct (regs !! r) as [x|] eqn:Hx.
  - assert (r ≠ NULL) as Hnz by (intros ->; congruence). assert (∀ m : gmap Z memory_region, (∀ r', r' ≠ r → m !! r' = regs !! r') →
      match m !! r with
      | Some y => r_refcount y = r_refcount x - 1 ∧ 1 < r_refcount x | None => r_refcount x = 1 end → counted m sg' ext') as Hm.
    { intros m Hsame Hat. split; [by rewrite Hsame|]. intros r'. destruct (Hc r') as [He Hr'], (Hrest r') as (H1 & H2 & H3 & H4).
      split; [done|]. destruct (decide (r' = r)) as [->|Hne].
      - rewrite Hx in Hr'. rewrite Z.eqb_refl in H3. specialize (H3 Hnz). destruct (m !! r) as [y|]; [|lia]. lia.
      - rewrite Hsame by done. destruct (Z.eqb_spec r' r); [done|]. destruct (regs !! r') as [y|] eqn:Ey.
        + assert (r' ≠ NULL) by (intros ->; congruence). specialize (H3 ltac:(done)). lia.
        + destruct (decide (r' = NULL)) as [E|E]; [split; [by apply H4|done]|]. specialize (H3 E). destruct Hr' as [? Hu]. specialize (Hu E). lia. }
    destruct (Z.eqb_spec (r_refcount x) 1).
    + apply Hm; [intros; by apply lookup_delete_ne|by rewrite lookup_delete_eq].
    + apply Hm; [intros; by apply lookup_insert_ne|]. rewrite lookup_insert_eq. destruct (Hc r) as [_ Hr']. rewrite Hx in Hr'. simpl. lia.
  - destruct Hr as [->|[? ?]]; [|done]. split; [done|]. intros r'. destruct (Hc r') as [He Hr'], (Hrest r') as (H1 & H2 & H3 & H4).
    split; [done|]. destruct (decide (r' = NULL)) as [->|E].
    + rewrite Hn. split; [by apply H4|done].
    + specialize (H3 E). destruct (Z.eqb_spec r' NULL); [done|]. destruct (regs !! r'); [lia|]. destruct Hr' as [? Hu]. specialize (Hu E). lia.
Qed.

(** ** The store *)
Section store.
Context {A : Type} `{AllocLaws A}.
Implicit Types st : mm A.

(** The kernel heap has the maps, segments and regions apart. *)
Definition own (a : A) (M S R : gset Z) : Prop :=
  ∃ live, alloc_inv a live ∧ M ∪ S ∪ R ⊆ live ∧ M ## S ∧ M ## R ∧ S ## R.

Definition own_new (a a' : A) (p : Z) (M S R : gset Z) : Prop :=
  p ≠ NULL ∧ (p ∉ M ∪ S ∪ R) ∧ own a' M S R ∧ own a' ({[p]} ∪ M) S R ∧ own a' M ({[p]} ∪ S) R ∧ own a' M S ({[p]} ∪ R).

Lemma own_new_ok a live a' p M S R : alloc_inv a live → M ∪ S ∪ R ⊆ live → M ## S → M ## R → S ## R →
  0 < p ∧ (p ∉ live) ∧ alloc_inv a' ({[p]} ∪ live) → own_new a a' p M S R.
Proof.
  intros Ha Hl H1 H2 H3 (Hp & Hnew & Ha'). split; [unfold NULL; lia|]. split; [set_solver|].
  split_and!; exists ({[p]} ∪ live); split_and!; try done; set_solver.
Qed.

Lemma own_kmalloc a M S R sz : own a M S R → 0 ≤ sz ≤ 2 ^ 30 → wp (kmalloc a sz) oom (λ '(a', p), own_new a a' p M S R).
Proof.
  intros (live & Ha & Hl & H1 & H2 & H3) Hsz. eapply wp_mono; [by apply kmalloc_law|done|]. intros [a' p]. by apply own_new_ok.
Qed.

Lemma own_kzalloc a M S R sz : own a M S R → 0 ≤ sz ≤ 2 ^ 30 → wp (kzalloc a sz) oom (λ '(a', p), own_new a a' p M S R).
Proof.
  intros (live & Ha & Hl & H1 & H2 & H3) Hsz. eapply wp_mono; [by apply kzalloc_law|done|]. intros [a' p]. by apply own_new_ok.
Qed.

Lemma own_free a M S R p : own a M S R → p ∈ M ∪ S ∪ R →
  ∃ a', kmfree a p = Val a' ∧ own a' (M ∖ {[p]}) (S ∖ {[p]}) (R ∖ {[p]}).
Proof.
  intros (live & Ha & Hl & H1 & H2 & H3) Hp. destruct (wp_returns _ _ (kmfree_law a live p Ha (Hl _ Hp))) as (a' & E & Ha').
  exists a'. split; [done|]. exists (live ∖ {[p]}). split; [done|]. split; [set_solver|]. set_solver.
Qed.

(** The map [but] is being freed, and need not be in order. *)
Record mm_core (but : Z) st (lay : gmap Z layout) (ext : Z → Z) : Prop := {
  mi_dom : dom (maps st) = dom lay;
  mi_map : ∀ p m l, p ≠ but → maps st !! p = Some m → lay !! p = Some l →
    is_queue (nodes st) (segments m) l.*1 ∧ sorted 0 l ∧ 0 < refcount m < 2 ^ 31;
  mi_segs : ∀ p l q s, lay !! p = Some l → (q, s) ∈ l → segs st !! q = Some s;
  mi_have : ∀ q s, segs st !! q = Some s → ∃ p l, lay !! p = Some l ∧ (q, s) ∈ l;
  mi_apart : ∀ p1 p2 l1 l2 q, lay !! p1 = Some l1 → lay !! p2 = Some l2 → q ∈ l1.*1 → q ∈ l2.*1 → p1 = p2;
  mi_nodes : dom (nodes st) = dom (segs st);
  mi_refs : counted (regions st) (segs st) ext;
  mi_own : own (kheap st) (dom (maps st)) (dom (segs st)) (dom (regions st));
}.

Definition mm_inv st (lay : gmap Z layout) (ext : Z → Z) : Prop := mm_core NULL st lay ext ∧ lay !! NULL = None.

(** A change of the segments of one map. *)
Lemma mm_update but st st' lay ext ext' p l m' l' : mm_core but st lay ext → lay !! p = Some l →
  maps st' = <[p := m']> (maps st) →
  (p ≠ but → is_queue (nodes st') (segments m') l'.*1 ∧ sorted 0 l' ∧ 0 < refcount m' < 2 ^ 31) →
  (∀ q s, (q, s) ∈ l' → segs st' !! q = Some s) →
  (∀ q, q ∈ l.*1 → (q ∉ l'.*1) → segs st' !! q = None) →
  (∀ q, q ∈ l'.*1 → (q ∉ l.*1) → segs st !! q = None) →
  (∀ q, (q ∉ l.*1) → (q ∉ l'.*1) → segs st' !! q = segs st !! q ∧ nodes st' !! q = nodes st !! q) →
  dom (nodes st') = dom (segs st') → counted (regions st') (segs st') ext' →
  own (kheap st') (dom (maps st')) (dom (segs st')) (dom (regions st')) →
  mm_core but st' (<[p := l']> lay) ext'.
Proof.
  intros [I1 I2 I3 I4 I5 I6 I7 I8] Hp Em Hq Hin Hgone Hnew Hsame Hdom Hcount Hown.
  assert (Hother : ∀ p2 l2 q, p2 ≠ p → lay !! p2 = Some l2 → q ∈ l2.*1 → (q ∉ l.*1) ∧ (q ∉ l'.*1)).
  { intros p2 l2 q Hne Hl2 Hx. assert (q ∉ l.*1) as Hnl by (intros Hl; apply Hne, (I5 p2 p l2 l q); done). split; [done|].
    intros Hl'. apply list_elem_of_fmap in Hx as ([q' s] & -> & Hqs). specialize (Hnew q' Hl' Hnl). by rewrite (I3 _ _ _ _ Hl2 Hqs) in Hnew. }
  split; try done.
  - rewrite Em, !dom_insert_L. by rewrite I1.
  - intros p2 m2 l2 Hb. rewrite Em. destruct (decide (p = p2)) as [<-|Hne].
    + rewrite !lookup_insert_eq. intros [= <-] [= <-]. by apply Hq.
    + rewrite !lookup_insert_ne by done. intros Hm2 Hl2. destruct (I2 _ _ _ Hb Hm2 Hl2) as (Hq2 & ? & ?). split; [|done].
      destruct Hq2 as (N1 & N2 & N3). split; [done|]. split; [|done]. eapply dlseg_ext; [|exact N2].
      intros x Hx. destruct (Hother p2 l2 x) as [X1 X2]; [done..|]. by apply Hsame.
  - intros p2 l2 q s. destruct (decide (p = p2)) as [<-|Hne].
    + rewrite lookup_insert_eq. intros [= <-]. apply Hin.
    + rewrite lookup_insert_ne by done. intros Hl2 Hqs. destruct (Hother p2 l2 q) as [X1 X2]; [done..|by apply list_elem_of_fmap; exists (q, s)|].
      rewrite (proj1 (Hsame q X1 X2)). by eapply I3.
  - intros q s Hqs. destruct (decide (q ∈ l'.*1)) as [Hl'|Hl'].
    + exists p, l'. rewrite lookup_insert_eq. split; [done|]. apply list_elem_of_fmap in Hl' as ([q' s'] & -> & Hx). simpl in *.
      rewrite (Hin _ _ Hx) in Hqs. by injection Hqs as ->.
    + destruct (decide (q ∈ l.*1)) as [Hl|Hl]; [by rewrite Hgone in Hqs|].
      rewrite (proj1 (Hsame q Hl Hl')) in Hqs. destruct (I4 q s Hqs) as (p2 & l2 & Hl2 & Hx).
      exists p2, l2. split; [|done]. rewrite lookup_insert_ne; [done|]. intros <-. apply Hl. replace l with l2 by congruence.
      apply list_elem_of_fmap. by exists (q, s).
  - intros p1 p2 l1 l2 q. destruct (decide (p = p1)) as [<-|H1], (decide (p = p2)) as [<-|H2]; rewrite ?lookup_insert_eq, ?lookup_insert_ne by done; [done|..].
    + intros [= <-] Hl2 Hx1 Hx2. by destruct (Hother p2 l2 q) as [_ []].
    + intros Hl1 [= <-] Hx1 Hx2. by destruct (Hother p1 l1 q) as [_ []].
    + by apply I5.
Qed.
End store.
