(* ===== verification/Mapops.v ===== *)
(** * Mapops: the operations on memory maps keep the invariant

    Each operation from a state that satisfies the invariant of Mapinv.v; the
    effect on a map is given by what its addresses are mapped to. *)

From S2P Require Import Prelude Queue Result Alloc Pages Memmap Mapinv.

Fixpoint find_ptr (l : layout) (a : Z) : Z :=
  match l with [] => NULL | (q, s) :: l => if holds s a then q else find_ptr l a end.

Lemma last_ptr (l : layout) p x : last_of NULL (l ++ [(p, x)]).*1 = p.
Proof. rewrite fmap_app. apply last_of_app. Qed.

(** A region that can be given back. *)
Definition counted_ref (regs : gmap Z memory_region) (r : Z) : Prop :=
  r = NULL ∧ regs !! r = None ∨ ∃ x, regs !! r = Some x ∧ r ≠ NULL ∧ 0 < r_refcount x < 2 ^ 31.

Lemma counted_is_ref regs sg ext r : counted regs sg ext → (r ≠ NULL → 0 < ext r + uses sg r) → counted_ref regs r.
Proof.
  intros [Hn Hc] Hr. destruct (decide (r = NULL)) as [->|Hnz]; [by left|]. right. destruct (Hc r) as [He Hx].
  specialize (Hr Hnz). destruct (regs !! r) as [x|]; [exists x; split_and!; (done || lia)|]. destruct Hx as [? Hu]. specialize (Hu Hnz). lia.
Qed.

Section ops.
Context {A : Type} `{AllocLaws A}.
Implicit Types st : mm A.

(** A part of the store: the segments [l] in a queue. *)
Definition listed st (q : queue) (l : layout) : Prop :=
  is_queue (nodes st) q l.*1 ∧ (∀ p s, (p, s) ∈ l → segs st !! p = Some s) ∧ sorted 0 l.

Lemma listed_node st q l1 p s l2 : listed st q (l1 ++ (p, s) :: l2) →
  p ≠ NULL ∧ segs st !! p = Some s ∧ _queue_next (nodes st) p = Some (first_of NULL l2.*1) ∧
  _queue_prev (nodes st) p = Some (last_of NULL l1.*1) ∧ start s ≤ end_ s ∧ 0 < end_ s < 2 ^ 32 ∧ 0 ≤ start s.
Proof.
  intros (Hq & Hs & Hord). rewrite fmap_app, fmap_cons in Hq. simpl in Hq.
  destruct (is_queue_elem _ _ _ p Hq) as [Hp _]; [set_solver|].
  destruct (sorted_in 0 _ p s Hord) as (S1 & S2 & S3 & _); [set_solver|].
  split; [done|]. split; [apply Hs; set_solver|]. split; [by eapply queue_next_at|]. split; [by eapply queue_prev_at|]. lia.
Qed.

Lemma listed_shift st q l1 x l2 : listed st q (l1 ++ x :: l2) → listed st q ((l1 ++ [x]) ++ l2).
Proof. by rewrite <- app_assoc. Qed.

Lemma find_next_ok st q address l2 : ∀ fuel l1, listed st q (l1 ++ l2) → (length l2 ≤ fuel)%nat →
  memory_segment_find_next fuel st (first_of NULL l2.*1) address = Val (find_ptr l2 address).
Proof.
  induction l2 as [|[p s] l2 IH]; intros fuel l1 Hl Hf; [by destruct fuel|].
  destruct fuel as [|fuel]; [simpl in Hf; lia|]. cbn [memory_segment_find_next fmap list_fmap first_of find_ptr fst].
  destruct (listed_node _ _ _ _ _ _ Hl) as (Hp & Hs & Hn & _ & _ & He & _). destruct (Z.eqb_spec p NULL); [done|].
  rewrite Hs. res_simpl. unfold within_memory_segment_start, within_memory_segment_end, holds.
  destruct (Z.eqb_spec (end_ s) 0); [lia|]. simpl orb. destruct (_ && _); [done|]. rewrite Hn. res_simpl.
  apply (IH fuel (l1 ++ [(p, s)])); [by apply listed_shift|simpl in Hf; lia].
Qed.

Lemma find_ptr_view st q address l1 l2 : listed st q (l1 ++ l2) →
  match view l2 address with
  | None => find_ptr l2 address = NULL
  | Some v => ∃ s, segs st !! find_ptr l2 address = Some s ∧ find_ptr l2 address ≠ NULL ∧ v = (flags s, region s)
  end.
Proof.
  revert l1. induction l2 as [|[p s] l2 IH]; intros l1 Hl; simpl; [done|].
  destruct (listed_node _ _ _ _ _ _ Hl) as (Hp & Hs & _). destruct (holds s address).
  - by exists s.
  - apply (IH (l1 ++ [(p, s)])). by apply listed_shift.
Qed.

(** ** Where a new segment belongs *)
Lemma insert_point_passed st q s e l2 : ∀ fuel l1, listed st q (l1 ++ l2) → (length l2 ≤ fuel)%nat →
  (∀ p x, (p, x) ∈ l2 → s < end_ x) → insert_point fuel st (first_of NULL l2.*1) s e = Val NULL.
Proof.
  induction l2 as [|[p x] l2 IH]; intros fuel l1 Hl Hf Hs; [by destruct fuel|].
  destruct fuel as [|fuel]; [simpl in Hf; lia|]. cbn [insert_point fmap list_fmap first_of fst].
  destruct (listed_node _ _ _ _ _ _ Hl) as (Hp & Hx & Hn & _). destruct (Z.eqb_spec p NULL); [done|].
  rewrite Hn, Hx. res_simpl. specialize (Hs p x ltac:(set_solver)) as Hsx.
  assert (within_memory_segment_end x s = true) as -> by (unfold within_memory_segment_end; lia).
  apply (IH fuel (l1 ++ [(p, x)])); [by apply listed_shift|simpl in Hf; lia|]. intros p' x' Hin. apply (Hs p' x'). set_solver.
Qed.

Lemma insert_point_ok st q s e l2 : 0 ≤ s → ∀ fuel l1, listed st q (l1 ++ l2) → (length l2 ≤ fuel)%nat →
  fits (l1 ++ l2) s e → top 0 l1 ≤ s → (l1 = [] ∨ ∃ p x l, l2 = (p, x) :: l ∧ start x < e) →
  ∃ l1' l2', l1 ++ l2 = l1' ++ l2' ∧ insert_point fuel st (first_of NULL l2.*1) s e = Val (last_of NULL l1'.*1) ∧
    top 0 l1' ≤ s ∧ sorted e l2'.
Proof.
  intros Hs0. induction l2 as [|[p x] l2 IH]; intros fuel l1 Hl Hf Hfit Ht Hfirst.
  { exists l1, []. split; [done|]. split; [|done]. destruct Hfirst as [->|(? & ? & ? & ? & _)]; [by destruct fuel|done]. }
  destruct fuel as [|fuel]; [simpl in Hf; lia|].
  destruct (listed_node _ _ _ _ _ _ Hl) as (Hp & Hx & Hn & _ & Hse & He & _).
  pose proof Hl as (_ & _ & [_ (Hlo & _ & _ & Hrest)]%sorted_app).
  destruct (decide (end_ x ≤ s)) as [Hend|Hend].
  - cbn [insert_point fmap list_fmap first_of fst]. destruct (Z.eqb_spec p NULL); [done|]. rewrite Hn, Hx. res_simpl.
    assert (within_memory_segment_end x s = false) as -> by (unfold within_memory_segment_end; lia).
    destruct l2 as [|[p2 x2] l2]; simpl first_of.
    { exists (l1 ++ [(p, x)]), []. rewrite app_nil_r. split; [done|]. split; [by rewrite last_ptr|].
      rewrite top_app. simpl. split; [lia|done]. }
    destruct (listed_node _ _ _ _ _ _ (listed_shift _ _ _ _ _ Hl)) as (Hp2 & Hx2 & _). destruct (Z.eqb_spec p2 NULL); [done|].
    rewrite Hx2. res_simpl. unfold overlapping_memory_segment_start. destruct (Z.ltb_spec (start x2) e).
    + destruct (IH fuel (l1 ++ [(p, x)])) as (l1' & l2' & E & Hi & Hr).
      * by apply listed_shift.
      * simpl in *. lia.
      * by rewrite <- app_assoc.
      * rewrite top_app. simpl. lia.
      * right. by exists p2, x2, l2.
      * exists l1', l2'. split; [by rewrite <- E, <- app_assoc|]. done.
    + exists (l1 ++ [(p, x)]), ((p2, x2) :: l2). split; [by rewrite <- app_assoc|]. split; [by rewrite last_ptr|].
      rewrite top_app. simpl in *. split; [lia|]. destruct Hrest as (? & ? & ? & ?). split_and!; try done; lia.
  - assert (e ≤ start x) as Hstart by (destruct (Hfit p x ltac:(set_solver)); [lia|done]).
    assert (l1 = []) as -> by (destruct Hfirst as [?|(? & ? & ? & [= <- <- <-] & ?)]; [done|lia]).
    exists [], ((p, x) :: l2). split; [done|]. split; [|split; [simpl; lia|simpl; by split_and!; lia || done]].
    apply (insert_point_passed st q s e ((p, x) :: l2) (S fuel) []); [done|simpl in *; lia|].
    intros p' x' [[= -> ->]|Hin]%elem_of_cons; [lia|].
    destruct (sorted_in _ _ p' x' Hrest Hin) as (? & ? & _). lia.
Qed.

(** ** Changes of one map *)
Lemma inv_map st lay ext p l : mm_inv st lay ext → lay !! p = Some l →
  ∃ m, maps st !! p = Some m ∧ listed st (segments m) l ∧ 0 < refcount m < 2 ^ 31.
Proof.
  intros [Hinv Hnull] Hl. assert (p ∈ dom (maps st)) as [m Hm]%elem_of_dom by (rewrite (mi_dom _ _ _ _ Hinv); by apply elem_of_dom_2 in Hl).
  destruct (mi_map _ _ _ _ Hinv p m l ltac:(congruence) Hm Hl) as (Hq & Hs & Hr). exists m. split; [done|]. split; [|done].
  split; [done|]. split; [|done]. intros q s. by eapply mi_segs.
Qed.

Lemma fuel_ok st q l : listed st q l → (length l ≤ size (nodes st))%nat.
Proof. intros (Hq & _). rewrite <- (length_fmap fst). by eapply queue_fuel. Qed.

Lemma fst_in (l : layout) q : q ∈ l.*1 ↔ ∃ s, (q, s) ∈ l.
Proof. rewrite list_elem_of_fmap. split; [intros ([q' s] & -> & Hx); by exists s|intros [s Hx]; by exists (q, s)]. Qed.

Lemma listed_nodup st q l1 p s l2 : listed st q (l1 ++ (p, s) :: l2) → (p ∉ l1.*1) ∧ (p ∉ l2.*1).
Proof.
  intros ((Hnd & _) & _). rewrite fmap_app, fmap_cons in Hnd. apply NoDup_app in Hnd as (_ & Hd & [? _]%NoDup_cons).
  split; [|done]. intros Hx. apply (Hd _ Hx). set_solver.
Qed.

(** The contents of a segment change. *)
Lemma change_inv st lay ext p l1 q s s' l2 : mm_inv st lay ext → lay !! p = Some (l1 ++ (q, s) :: l2) → region s' = region s →
  sorted 0 (l1 ++ (q, s') :: l2) → mm_inv (put_seg st q s') (<[p := l1 ++ (q, s') :: l2]> lay) ext.
Proof.
  intros Hinv Hl Hr Hs. destruct (inv_map _ _ _ _ _ Hinv Hl) as (m & Hm & Hlist & Hrc).
  pose proof (listed_node _ _ _ _ _ _ Hlist) as (_ & Hq & _). pose proof (listed_nodup _ _ _ _ _ _ Hlist) as [N1 N2].
  assert (Hsame : (l1 ++ (q, s') :: l2).*1 = (l1 ++ (q, s) :: l2).*1) by (by rewrite !fmap_app).
  assert (Hdom : dom (<[q := s']> (segs st)) = dom (segs st)).
  { rewrite dom_insert_L. assert (q ∈ dom (segs st)) by (by eapply elem_of_dom_2). set_solver. }
  destruct Hinv as [Hinv Hnull]. split; [|rewrite lookup_insert_ne by congruence; done].
  eapply (mm_update NULL st _ lay ext ext p _ m); try done; simpl; rewrite ?Hsame; try done.
  - by rewrite insert_id.
  - intros _. split; [apply Hlist|]. by split.
  - intros q' x Hx. destruct (decide (q = q')) as [<-|Hne].
    + rewrite lookup_insert_eq. apply elem_of_app in Hx as [Hx|[[= ->]|Hx]%elem_of_cons]; [|done|].
      * destruct N1. apply fst_in. by exists x.
      * destruct N2. apply fst_in. by exists x.
    + rewrite lookup_insert_ne by done. destruct Hlist as (_ & Hin & _). apply Hin. set_solver.
  - intros q' Hq' _. split; [|done]. rewrite lookup_insert_ne; [done|]. intros <-. apply Hq'. rewrite fmap_app, fmap_cons. set_solver.
  - rewrite Hdom. apply Hinv.
  - destruct (mi_refs _ _ _ _ Hinv) as [Hn Hc]. split; [done|]. intros r. destruct (Hc r) as [He Hr']. split; [done|].
    rewrite (uses_update _ _ s s' r Hq), Hr. by rewrite Z.sub_add.
  - rewrite Hdom. apply Hinv.
Qed.

(** A new segment comes in behind the segments [l1]. *)
Lemma insert_inv st lay ext p m l1 l2 q a' : mm_inv st lay ext → maps st !! p = Some m → lay !! p = Some (l1 ++ l2) →
  own_new (kheap st) a' q (dom (maps st)) (dom (segs st)) (dom (regions st)) →
  ∃ h' qu', _queue_insert_after (<[q := mk_node NULL NULL]> (nodes st)) (segments m) q (last_of NULL l1.*1) = Some (h', qu') ∧
    ∀ x m' regs' cs' ext', sorted 0 (l1 ++ (q, x) :: l2) → segments m' = qu' → refcount m' = refcount m → counted regs' (<[q := x]> (segs st)) ext' →
      dom regs' = dom (regions st) →
      mm_inv (Mm (<[p := m']> (maps st)) (<[q := x]> (segs st)) h' regs' a' cs') (<[p := l1 ++ (q, x) :: l2]> lay) ext'.
Proof.
  intros Hinv Hm Hl (Hq0 & Hqn & _ & _ & Hown & _). destruct (inv_map _ _ _ _ _ Hinv Hl) as (m0 & Hm0 & Hlist & Hrc).
  destruct Hinv as [Hinv Hnull].
  replace m0 with m in * by congruence. pose proof Hlist as (Hqu & Hin & _). rewrite fmap_app in Hqu.
  assert (Hqs : segs st !! q = None) by (apply not_elem_of_dom; set_solver).
  assert (Hql : q ∉ (l1 ++ l2).*1).
  { intros [s Hx]%fst_in. apply Hin in Hx. congruence. }
  assert (Hqd : q ∉ dom (nodes st)) by (rewrite (mi_nodes _ _ _ _ Hinv); set_solver).
  destruct (queue_insert_after_split (<[q := mk_node NULL NULL]> (nodes st)) (segments m) l1.*1 l2.*1 q) as (h' & qu' & E & Hqu' & Hf).
  - destruct Hqu as (N1 & N2 & N3). split; [done|]. split; [|done]. eapply dlseg_ext; [|exact N2]. intros y Hy.
    rewrite lookup_insert_ne; [done|]. intros <-. by rewrite fmap_app in Hql.
  - by rewrite fmap_app in Hql.
  - done.
  - by rewrite lookup_insert_eq.
  - exists h', qu'. split; [done|]. intros x m' regs' cs' ext' Hs Hsg Hrf Hc Hd.
    assert (El : (l1 ++ (q, x) :: l2).*1 = l1.*1 ++ q :: l2.*1) by (by rewrite fmap_app).
    split; [|rewrite lookup_insert_ne by congruence; done].
    eapply (mm_update NULL st _ lay ext ext' p _ m'); try done; simpl; rewrite ?El; try done.
    + intros _. by rewrite Hsg, Hrf.
    + intros q' y Hy. destruct (decide (q = q')) as [<-|Hne].
      * rewrite lookup_insert_eq. apply elem_of_app in Hy as [Hy|[[= ->]|Hy]%elem_of_cons]; [|done|].
        -- destruct Hql. apply fst_in. exists y. set_solver.
        -- destruct Hql. apply fst_in. exists y. set_solver.
      * rewrite lookup_insert_ne by done. apply Hin. set_solver.
    + intros q' Hq' Hno. destruct Hno. rewrite fmap_app in Hq'. set_solver.
    + intros q' Hq' Hno. rewrite fmap_app in Hno. assert (q' = q) as -> by set_solver. done.
    + intros q' Hq' Hno. assert (q ≠ q') by set_solver. rewrite lookup_insert_ne by done. split; [done|].
      rewrite Hf by set_solver. by rewrite lookup_insert_ne.
    + rewrite dom_insert_L, <- (mi_nodes _ _ _ _ Hinv). apply set_eq. intros y. rewrite elem_of_union, elem_of_singleton.
      destruct (decide (y ∈ q :: l1.*1 ++ l2.*1)) as [Hy|Hy].
      * assert (is_Some (h' !! y)) by (apply (is_queue_elem h' qu' _ y Hqu'); set_solver).
        rewrite elem_of_dom. split; [|done]. intros _. destruct (decide (y = q)) as [|Hne]; [by left|right].
        apply elem_of_dom, (is_queue_elem _ _ _ y Hqu). set_solver.
      * rewrite !elem_of_dom, Hf by done. rewrite lookup_insert_ne by set_solver. set_solver.
    + rewrite !dom_insert_L, Hd. assert (p ∈ dom (maps st)) by (by eapply elem_of_dom_2).
      replace ({[p]} ∪ dom (maps st)) with (dom (maps st)) by set_solver. done.
Qed.

(** ** Giving a region back *)
Lemma region_free_ok st M S r : counted_ref (regions st) r → own (kheap st) M S (dom (regions st)) →
  ∃ a' cs', memory_region_free st r = Val (Mm (maps st) (segs st) (nodes st) (drop_ref (regions st) r) a' cs') ∧
    own a' M S (dom (drop_ref (regions st) r)).
Proof.
  intros Hr Hown. unfold memory_region_free, drop_ref. destruct Hr as [[-> Hn]|(x & Hx & Hc)].
  { rewrite Hn. destruct st. simpl in *. eauto. }
  destruct (Z.eqb_spec r NULL); [lia|]. rewrite Hx. res_simpl. rewrite s32_small by lia.
  destruct (Z.ltb_spec (r_refcount x - 1) 0); [lia|]. destruct (Z.eqb_spec (r_refcount x - 1) 0), (Z.eqb_spec (r_refcount x) 1); try lia.
  - assert (r ∈ dom (regions st)) as Hd by (by eapply elem_of_dom_2).
    destruct (own_free _ _ _ _ r Hown) as (a' & Ea & Hown'); [set_solver|].
    assert (own a' M S (dom (delete r (regions st)))) as Hown2.
    { destruct Hown as (live & _ & _ & D1 & D2 & D3). rewrite dom_delete_L.
      replace (M ∖ {[r]}) with M in Hown' by set_solver. replace (S ∖ {[r]}) with S in Hown' by set_solver. done. }
    destruct (file x =? NULL); simpl; rewrite Ea; res_simpl; simpl; eexists _, _; (split; [|exact Hown2]);
      by rewrite delete_insert_eq.
  - eexists _, _. split; [reflexivity|]. rewrite dom_insert_L.
    assert (r ∈ dom (regions st)) as Hd by (by eapply elem_of_dom_2). by replace ({[r]} ∪ dom (regions st)) with (dom (regions st)) by set_solver.
Qed.

(** A segment goes, after its map has become [m'] and the nodes [h]. *)
Lemma segment_free_ok but st lay ext p l1 q s l2 m' h : mm_core but st lay ext → lay !! p = Some (l1 ++ (q, s) :: l2) →
  NoDup (l1 ++ (q, s) :: l2).*1 → p ∈ dom (maps st) → (∀ y, y ∉ (l1 ++ (q, s) :: l2).*1 → h !! y = nodes st !! y) →
  dom h = dom (nodes st) →
  (p ≠ but → is_queue (delete q h) (segments m') (l1 ++ l2).*1 ∧ sorted 0 (l1 ++ l2) ∧ 0 < refcount m' < 2 ^ 31) →
  ∃ st', memory_segment_free (put_map (put_nodes st h) p m') q = Val st' ∧ mm_core but st' (<[p := l1 ++ l2]> lay) ext ∧
    maps st' = <[p := m']> (maps st) ∧ nodes st' = delete q h.
Proof.
  intros Hinv Hl Hnd Hp Hh Hdom Hmap. unfold memory_segment_free. simpl.
  assert (segs st !! q = Some s) as Hq by (eapply mi_segs; [done|done|set_solver]). rewrite Hq. res_simpl.
  assert (q ∈ dom (segs st)) as Hqd by (by eapply elem_of_dom_2).
  pose proof (mi_refs _ _ _ _ Hinv) as Hc. pose proof (mi_own _ _ _ _ Hinv) as Hown.
  assert (0 < uses (segs st) (region s)) as Hu by (by eapply uses_pos).
  destruct (region_free_ok (put_map (put_nodes st h) p m') (dom (maps st)) (dom (segs st)) (region s)) as (a1 & cs & -> & Hown1).
  { eapply counted_is_ref; [exact Hc|]. intros _. destruct Hc as [_ Hc]. destruct (Hc (region s)). lia. }
  { done. }
  res_simpl. cbn [kheap maps segs nodes regions calls put_map put_nodes] in *.
  destruct (own_free _ _ _ _ q Hown1) as (a2 & -> & Hown2); [set_solver|]. res_simpl.
  eexists. split; [done|]. split; [|done].
  rewrite fmap_app, fmap_cons in Hnd, Hh. simpl in Hnd, Hh. apply NoDup_app in Hnd as (_ & Hd & [Hq2 _]%NoDup_cons).
  assert (Hq1 : q ∉ l1.*1) by (intros Hx; apply (Hd _ Hx); set_solver).
  assert (El : (l1 ++ l2).*1 = l1.*1 ++ l2.*1) by (by rewrite fmap_app).
  assert (El' : (l1 ++ (q, s) :: l2).*1 = l1.*1 ++ q :: l2.*1) by (by rewrite fmap_app).
  eapply (mm_update but st _ lay ext ext p _ m'); try done; simpl; rewrite ?El, ?El'; try done.
  - intros q' x Hx. rewrite lookup_delete_ne; [eapply mi_segs; [done|done|set_solver]|].
    intros <-. assert (q ∈ (l1 ++ l2).*1) by (apply fst_in; by exists x). rewrite El in *. set_solver.
  - intros q' Hx Hno. assert (q' = q) as -> by set_solver. apply lookup_delete_eq.
  - intros q' Hx Hno. set_solver.
  - intros q' Hno _. assert (q ≠ q') by set_solver. rewrite !lookup_delete_ne by done. split; [done|]. by apply Hh.
  - by rewrite !dom_delete_L, Hdom, (mi_nodes _ _ _ _ Hinv).
  - eapply counted_drop; [exact Hc| |].
    + destruct (decide (region s = NULL)) as [|Hnz]; [by left|right]. destruct Hc as [_ Hc]. destruct (Hc (region s)) as [_ Hr].
      destruct (regions st !! region s); [by eexists|]. destruct Hr as [_ Hr]. specialize (Hr Hnz). lia.
    + intros r. destruct Hc as [Hn Hc]. destruct (Hc r) as [He _]. rewrite (uses_delete _ _ s) by done. rewrite (Z.eqb_sym (region s)).
      split; [done|]. split; [rewrite (Z.eqb_sym r), <- (uses_delete _ q) by done; apply uses_nonneg|].
      split; [lia|]. intros ->. destruct (Hc NULL) as [_ Hx]. rewrite Hn in Hx. apply Hx.
  - destruct Hown as (live & _ & _ & D1 & D2 & D3). rewrite !dom_delete_L, dom_insert_L.
    assert (dom (drop_ref (regions st) (region s)) ⊆ dom (regions st)) as Hsub.
    { unfold drop_ref. destruct (regions st !! region s) as [x|] eqn:Hx; [|done]. apply elem_of_dom_2 in Hx. case_match; set_solver. }
    replace ({[p]} ∪ dom (maps st)) with (dom (maps st) ∖ {[q]}) by set_solver.
    replace (dom (drop_ref (regions st) (region s))) with (dom (drop_ref (regions st) (region s)) ∖ {[q]}) by set_solver. done.
Qed.

(** Only the markers of a map change. *)
Lemma markers_inv st lay ext p m m' : mm_inv st lay ext → maps st !! p = Some m → segments m' = segments m → refcount m' = refcount m →
  mm_inv (put_map st p m') lay ext.
Proof.
  intros [[I1 I2 I3 I4 I5 I6 I7 I8] Hn] Hm Hq Hr. split; [|done]. assert (p ∈ dom (maps st)) as Hp by (by eapply elem_of_dom_2).
  assert (dom (<[p := m']> (maps st)) = dom (maps st)) as Hd by (rewrite dom_insert_L; set_solver).
  split; try done; simpl; rewrite ?Hd; try done. intros p2 m2 l2 Hb Hm2 Hl2. destruct (decide (p = p2)) as [<-|Hne].
  - rewrite lookup_insert_eq in Hm2. injection Hm2 as <-. rewrite Hq, Hr. by apply (I2 p m l2).
  - rewrite lookup_insert_ne in Hm2 by done. by apply (I2 p2 m2 l2).
Qed.
End ops.
