(* ===== verification/Mapspace.v ===== *)
(** * Mapspace: mapping and unmapping

    What memory_map_mmap, memory_map_copy_segment and memory_map_unmap do to the
    addresses of a map. *)

From S2P Require Import Prelude Queue Result Alloc Pages Memmap Mapinv Mapops.

(** What is left of a segment when the addresses from [s] to [e] go. *)
Definition cut (s e : Z) (c : memory_segment) : list memory_segment :=
  if (s <=? start c) && (start c <=? e) then
    if (s <=? end_ c) && (end_ c <=? e) then [] else [set_start c e]
  else if (s <=? end_ c) && (end_ c <=? e) then [set_end c s]
  else if (start c <=? s) && (s <=? end_ c) then
    [set_end c s; Segment (flags c) e (end_ c) (region c) ((λ o, s32 (o + (e - start c))) <$> offset c)]
  else [c].

Definition same_markers (m m' : memory_map) : Prop :=
  refcount m' = refcount m ∧ code_start m' = code_start m ∧ data_start m' = data_start m ∧ heap_start m' = heap_start m ∧
  sbrk m' = sbrk m ∧ stack_end m' = stack_end m.

Section ops.
Context {A : Type} `{AllocLaws A} (PAGE_ADDR_BITS SIZEOF_SEGMENT : Z).
Hypothesis segment_size : 0 ≤ SIZEOF_SEGMENT ≤ 2 ^ 30.
Implicit Types st : mm A.


(** ** One more reference *)
Lemma make_ref_ok st r : regions st !! NULL = None → ref_room (regions st) r →
  MEMORY_OBJECT_MAKE_REF st r = Val (Mm (maps st) (segs st) (nodes st) (take_ref (regions st) r) (kheap st) (calls st)).
Proof.
  intros Hn Hr. unfold MEMORY_OBJECT_MAKE_REF, memory_region_make_ref, take_ref. destruct Hr as [->|(x & Hx & Hroom)].
  - rewrite Hn. by destruct st.
  - destruct (Z.eqb_spec r NULL) as [->|]; [congruence|]. rewrite Hx. res_simpl. by rewrite s32_small by lia.
Qed.

(** ** Unmapping *)
Lemma unmap_remove_ok st lay ext p m l1 q c l2 s e : mm_inv st lay ext → maps st !! p = Some m → lay !! p = Some (l1 ++ (q, c) :: l2) →
  cut s e c = [] →
  ∃ st' m', unmap_segment SIZEOF_SEGMENT st p q s e = Val (st', true) ∧ mm_inv st' (<[p := l1 ++ l2]> lay) ext ∧
    maps st' = <[p := m']> (maps st) ∧ same_markers m m'.
Proof.
  intros Hinv Hm Hl Hcut. destruct (inv_map _ _ _ _ _ Hinv Hl) as (m0 & Hm0 & Hlist & Hrc).
  replace m0 with m in * by congruence. destruct (listed_node _ _ _ _ _ _ Hlist) as (Hq & Hc & _ & _ & Hse & He & Hst0).
  unfold unmap_segment. rewrite Hc. res_simpl. unfold cut in Hcut.
  destruct ((s <=? start c) && _), ((s <=? end_ c) && _); try done; [|by destruct (_ && _)]. rewrite Hm. res_simpl.
  pose proof Hlist as (Hqu & _ & Hsort). rewrite fmap_app, fmap_cons in Hqu. simpl in Hqu.
  destruct (queue_remove_split _ _ _ _ _ Hqu) as (h & qu & -> & Hqu' & Hqn & Hf). res_simpl.
  pose proof Hqu as (Hnd & _). apply NoDup_app in Hnd as (Hnd1 & Hd & [Hq2 Hnd2]%NoDup_cons).
  assert (Hq1 : q ∉ l1.*1) by (intros Hx; apply (Hd _ Hx); set_solver).
  destruct Hinv as [Hinv Hnull].
  destruct (segment_free_ok NULL st lay ext p l1 q c l2 (set_segments m qu) h) as (st' & -> & Hinv' & Em & _); try done.
  - rewrite fmap_app, fmap_cons. apply Hqu.
  - by eapply elem_of_dom_2.
  - intros y Hy. apply Hf. by rewrite fmap_app, fmap_cons in Hy.
  - apply set_eq. intros y. rewrite !elem_of_dom. destruct (decide (y ∈ l1.*1 ++ q :: l2.*1)) as [Hy|Hy]; [|by rewrite Hf].
    split; intros _; [apply (is_queue_elem _ _ _ y Hqu Hy)|].
    destruct (decide (y = q)) as [->|Hne]; [by rewrite Hqn|apply (is_queue_elem _ _ _ y Hqu'); set_solver].
  - intros _. rewrite fmap_app. split; [|split; [|done]].
    + destruct Hqu' as (N1 & N2 & N3). split; [done|]. split; [|done]. eapply dlseg_ext; [|exact N2]. intros y Hy.
      apply lookup_delete_ne. intros <-. set_solver.
    + rewrite sorted_app in Hsort |- *. destruct Hsort as [S1 (S2 & S3 & S4 & S5)]. split; [done|]. eapply sorted_lower; [|done]. lia.
  - res_simpl. eexists _, _. split; [done|]. split; [|split; [exact Em|done]]. split; [done|]. rewrite lookup_insert_ne by congruence. done.
Qed.

Lemma unmap_change_ok st lay ext p m l1 q c c' l2 s e : mm_inv st lay ext → maps st !! p = Some m → lay !! p = Some (l1 ++ (q, c) :: l2) →
  0 ≤ s ≤ e → e < 2 ^ 32 → cut s e c = [c'] →
  ∃ st', unmap_segment SIZEOF_SEGMENT st p q s e = Val (st', true) ∧ mm_inv st' (<[p := l1 ++ (q, c') :: l2]> lay) ext ∧
    maps st' = maps st ∧ regions st' = regions st.
Proof.
  intros Hinv Hm Hl Hs He' Hcut. destruct (inv_map _ _ _ _ _ Hinv Hl) as (m0 & Hm0 & Hlist & Hrc).
  destruct (listed_node _ _ _ _ _ _ Hlist) as (Hq & Hc & _ & _ & Hse & He & Hst0).
  pose proof Hlist as (_ & _ & Hsort). rewrite sorted_app in Hsort. destruct Hsort as [S1 (S2 & S3 & S4 & S5)].
  unfold unmap_segment. rewrite Hc. res_simpl. unfold cut in Hcut.
  destruct ((s <=? start c) && _) eqn:E1, ((s <=? end_ c) && _) eqn:E2; try done; [..|destruct ((start c <=? s) && _) eqn:E3]; try done.
  all: injection Hcut as Hc'. all: subst c'. all: eexists. all: split; [reflexivity|].
  1,2: split; [|done]; eapply change_inv; try done; rewrite sorted_app; simpl; split; [done|]; split_and!; (done || lia || (eapply sorted_lower; [|done]; simpl; lia)).
  rewrite insert_id by done. done.
Qed.

Lemma unmap_split_ok st lay ext p m l1 q c c1 c2 l2 s e : mm_inv st lay ext → maps st !! p = Some m → lay !! p = Some (l1 ++ (q, c) :: l2) →
  0 ≤ s ≤ e → e < 2 ^ 32 → cut s e c = [c1; c2] → ref_room (regions st) (region c) →
  wp (unmap_segment SIZEOF_SEGMENT st p q s e) oom (λ '(st', ok), ok = true ∧ ∃ q2 m', 
    mm_inv st' (<[p := l1 ++ (q, c1) :: (q2, c2) :: l2]> lay) ext ∧ maps st' = <[p := m']> (maps st) ∧ same_markers m m').
Proof.
  intros Hinv Hm Hl Hs He' Hcut Hroom. destruct (inv_map _ _ _ _ _ Hinv Hl) as (m0 & Hm0 & Hlist & Hrc).
  destruct (listed_node _ _ _ _ _ _ Hlist) as (Hq & Hc & _ & _ & Hse & He & Hst0).
  pose proof Hlist as (_ & _ & Hsort). rewrite sorted_app in Hsort. destruct Hsort as [S1 (S2 & S3 & S4 & S5)].
  unfold unmap_segment. rewrite Hc. res_simpl. unfold cut in Hcut.
  destruct ((s <=? start c) && _) eqn:E1, ((s <=? end_ c) && _) eqn:E2; try done. destruct ((start c <=? s) && _) eqn:E3; try done.
  injection Hcut as <- <-. unfold memory_segment_alloc.
  pose proof (change_inv st lay ext p l1 q c (set_end c s) l2 Hinv Hl eq_refl) as Hinv1.
  specialize (Hinv1 ltac:(rewrite sorted_app; simpl; split; [done|]; split_and!; try (done || lia); eapply sorted_lower; [|done]; lia)).
  set (st1 := put_seg st q (set_end c s)) in *.
  apply wp_bind. eapply wp_call; [apply own_kmalloc; [apply Hinv|done]|]. intros [a' q2] Hnew. change (own_new (kheap st) a' q2 (dom (maps st)) (dom (segs st)) (dom (regions st))) in Hnew. assert (q2 ≠ NULL) as Hnz by apply Hnew.
  rewrite (proj2 (Z.eqb_neq q2 NULL) Hnz). cbn [wp]. rewrite (proj2 (Z.eqb_neq q2 NULL) Hnz). set (x2 := Segment (flags c) e (end_ c) (region c) _).
  assert (q ≠ q2) as Hne by (intros ->; destruct Hnew as (_ & Hn & _); apply Hn; apply elem_of_dom_2 in Hc; set_solver).
  assert (own_new (kheap st1) a' q2 (dom (maps st1)) (dom (segs st1)) (dom (regions st1))) as Hnew1.
  { simpl. rewrite dom_insert_L. apply elem_of_dom_2 in Hc. by replace ({[q]} ∪ dom (segs st)) with (dom (segs st)) by set_solver. }
  assert (segs st1 !! q2 = None) as Hq2.
  { destruct Hnew1 as (_ & Hn & _). apply not_elem_of_dom. set_solver. }
  destruct (insert_inv st1 (<[p := l1 ++ (q, set_end c s) :: l2]> lay) ext p m (l1 ++ [(q, set_end c s)]) l2 q2 a' Hinv1) as (h & qu & E & Hins).
  { done. }
  { rewrite lookup_insert_eq. by rewrite <- app_assoc. }
  { done. }
  rewrite last_ptr in E. rewrite make_ref_ok by (apply Hinv || done). res_simpl. simpl. rewrite lookup_insert_eq. res_simpl.
  unfold insert_after. simpl. rewrite Hm. res_simpl. simpl in E. rewrite E. res_simpl. cbn [wp]. split; [done|].
  exists q2, (set_segments m qu). split; [|done].
  unfold put_seg, put_map, put_nodes. simpl. rewrite insert_insert_eq, insert_insert_ne by done.
  specialize (Hins x2 (set_segments m qu) (take_ref (regions st) (region c)) (calls st) ext). rewrite insert_insert_eq, <- app_assoc in Hins.
  apply Hins; [|done|done| |].
  - rewrite sorted_app. simpl. split; [done|]. split_and!; (done || lia).
  - apply (counted_take _ _ _ q2 x2); [apply Hinv1|done|done].
  - apply dom_take_ref.
Qed.

(** A segment that is split needs room for one more reference to its region. *)
Definition split_room (regs : gmap Z memory_region) (l : layout) (s e : Z) : Prop :=
  ∀ q c, (q, c) ∈ l → start c < s → e < end_ c → ref_room regs (region c).

Lemma unmap_segment_ok st lay ext p m l1 q c l2 s e : mm_inv st lay ext → maps st !! p = Some m →
  lay !! p = Some (l1 ++ (q, c) :: l2) → 0 ≤ s ≤ e → e < 2 ^ 32 → split_room (regions st) [(q, c)] s e →
  wp (unmap_segment SIZEOF_SEGMENT st p q s e) oom (λ '(st', ok), ok = true ∧ ∃ ls m', ls.*2 = cut s e c ∧
    mm_inv st' (<[p := l1 ++ ls ++ l2]> lay) ext ∧ maps st' = <[p := m']> (maps st) ∧ same_markers m m' ∧
    (end_ c < s → regions st' = regions st)).
Proof.
  intros Hinv Hm Hl Hs He Hroom. destruct (inv_map _ _ _ _ _ Hinv Hl) as (m0 & Hm0 & Hlist & Hrc).
  destruct (listed_node _ _ _ _ _ _ Hlist) as (_ & _ & _ & _ & Hse & Hce & Hst0).
  destruct (cut s e c) as [|c1 [|c2 [|]]] eqn:Hcut.
  - destruct (unmap_remove_ok st lay ext p m l1 q c l2 s e Hinv Hm Hl Hcut) as (st' & m' & -> & Hinv' & Em & Hk).
    split; [done|]. exists [], m'. split_and!; try done. intros ?. unfold cut in Hcut. repeat case_match; (done || lia).
  - destruct (unmap_change_ok st lay ext p m l1 q c c1 l2 s e Hinv Hm Hl Hs He Hcut) as (st' & -> & Hinv' & Em & Hk).
    split; [done|]. exists [(q, c1)], m. split_and!; try done. by rewrite Em, insert_id.
  - assert (start c < s ∧ e < end_ c) as [H1 H2] by (unfold cut in Hcut; repeat case_match; (done || lia)).
    eapply wp_mono; [eapply (unmap_split_ok st lay ext p m l1 q c c1 c2 l2 s e); try done; by eapply (Hroom q c); [set_solver|..]|done|].
    intros [st' ok] (-> & q2 & m' & Hinv' & Em & Hk). split; [done|]. exists [(q, c1); (q2, c2)], m'. split_and!; try done. lia.
  - exfalso. unfold cut in Hcut. repeat case_match; done.
Qed.

Lemma unmap_loop_ok ext p s e l2 : 0 ≤ s ≤ e → e < 2 ^ 32 → ∀ fuel st lay m l1, mm_inv st lay ext → maps st !! p = Some m →
  lay !! p = Some (l1 ++ l2) → (length l2 ≤ fuel)%nat → split_room (regions st) l2 s e →
  wp (unmap_loop SIZEOF_SEGMENT fuel st p (first_of NULL l2.*1) s e) oom (λ '(st', ok), ok = true ∧ ∃ l2' m',
    l2'.*2 = l2.*2 ≫= cut s e ∧ mm_inv st' (<[p := l1 ++ l2']> lay) ext ∧ maps st' = <[p := m']> (maps st) ∧ same_markers m m').
Proof.
  intros Hs He. induction l2 as [|[q c] l2 IH]; intros fuel st lay m l1 Hinv Hm Hl Hf Hroom.
  { destruct fuel; simpl; (split; [done|]); exists [], m; rewrite !insert_id by done; done. }
  destruct fuel as [|fuel]; [simpl in Hf; lia|]. destruct (inv_map _ _ _ _ _ Hinv Hl) as (m0 & Hm0 & Hlist & Hrc).
  destruct (listed_node _ _ _ _ _ _ Hlist) as (Hq & Hc & Hn & _ & Hse & Hce & Hst0).
  pose proof Hlist as (_ & _ & [_ (_ & _ & _ & Hrest)]%sorted_app).
  cbn [unmap_loop fmap list_fmap first_of fst]. destruct (Z.eqb_spec q NULL); [done|]. rewrite Hn. res_simpl.
  wp_step (unmap_segment_ok st lay ext p m l1 q c l2 s e Hinv Hm Hl Hs He).
  { intros q' c' Hin. apply (Hroom q' c'). set_solver. }
  intros [st1 ok] (-> & ls & m1 & Hls & Hinv1 & Em1 & Hk1 & Hreg). simpl.
  eapply wp_mono; [apply (IH fuel st1 (<[p := l1 ++ ls ++ l2]> lay) m1 (l1 ++ ls) Hinv1)|done|].
  - rewrite Em1. apply lookup_insert_eq.
  - rewrite lookup_insert_eq. by rewrite app_assoc.
  - simpl in Hf. lia.
  - intros q' c' Hin H1 H2. destruct (sorted_in _ _ q' c' Hrest Hin) as (H3 & _). rewrite Hreg by lia. apply (Hroom q' c'); [set_solver|done|done].
  - intros [st2 ok] (-> & l2' & m2 & Hl2 & Hinv2 & Em2 & Hk2). split; [done|]. exists (ls ++ l2'), m2.
    rewrite fmap_app, Hls, Hl2. split; [done|]. rewrite insert_insert_eq, <- app_assoc in Hinv2. split; [done|].
    rewrite Em2, Em1, insert_insert_eq. split; [done|]. unfold same_markers in *. naive_solver congruence.
Qed.

Lemma view_cut s e l : 0 ≤ s ≤ e → ∀ lo l' a, sorted lo l → l'.*2 = l.*2 ≫= cut s e →
  view l' a = if (s <=? a) && (a <? e) then None else view l a.
Proof.
  intros Hs. induction l as [|[q c] l IH]; intros lo l' a Hsort E; simpl in E.
  { destruct l'; [|done]. simpl. by destruct (_ && _). }
  destruct Hsort as (S1 & S2 & S3 & S4). apply fmap_app_inv in E as (la & lb & Ea & Eb & ->). rewrite view_app.
  rewrite (IH _ lb a S4 (eq_sym Eb)). clear IH Eb. simpl.
  assert (view la a = if (s <=? a) && (a <? e) then None else if holds c a then Some (flags c, region c) else None) as ->.
  { unfold cut in Ea. repeat case_match; repeat (destruct la as [|[? ?] la]; simplify_eq/=); unfold holds in *; simpl;
      repeat case_match; (done || lia). }
  by destruct (_ && _), (holds c a).
Qed.

Lemma unmap_ok st lay ext p m l s length : mm_inv st lay ext → maps st !! p = Some m → lay !! p = Some l →
  0 ≤ s → 0 ≤ length → s + length < 2 ^ 32 → split_room (regions st) l s (s + length) →
  wp (memory_map_unmap SIZEOF_SEGMENT st p s length) oom (λ '(st', r), r = 0 ∧ ∃ l' m', mm_inv st' (<[p := l']> lay) ext ∧
    maps st' = <[p := m']> (maps st) ∧ sbrk m' = sbrk m ∧ stack_end m' = stack_end m ∧ refcount m' = refcount m ∧
    l'.*2 = l.*2 ≫= cut s (s + length) ∧ ∀ a, view l' a = if (s <=? a) && (a <? s + length) then None else view l a).
Proof.
  intros Hinv Hm Hl Hs Hlen He Hroom. destruct (inv_map _ _ _ _ _ Hinv Hl) as (m0 & Hm0 & Hlist & Hrc).
  replace m0 with m in * by congruence. unfold memory_map_unmap. rewrite Hm. res_simpl. rewrite u32_small by lia.
  replace (_queue_head (segments m)) with (first_of NULL l.*1) by (symmetry; apply Hlist).
  eapply wp_call; [apply (unmap_loop_ok ext p s (s + length) l ltac:(lia) He (size (nodes st)) st lay m [] Hinv Hm Hl); [by eapply fuel_ok|done]|].
  intros [st1 ok] (-> & l' & m1 & El & Hinv1 & Em & (K1 & K2 & K3 & K4 & K5 & K6)). cbn [negb].
  rewrite Em, lookup_insert_eq. res_simpl. cbn [wp]. split; [done|]. eexists l', _. split; [|split; [simpl; rewrite Em; apply insert_insert_eq|]].
  - apply (markers_inv st1 _ ext p m1); [done| |done|done]. rewrite Em. apply lookup_insert_eq.
  - simpl. split_and!; try done. intros a. eapply view_cut; [lia|apply Hlist|done].
Qed.

(** ** Mapping *)
Lemma insert_segment_ok st lay ext p m l s length fl : mm_inv st lay ext → maps st !! p = Some m → lay !! p = Some l →
  0 ≤ s → 0 ≤ length → 0 < s + length < 2 ^ 32 → fits l s (s + length) →
  wp (memory_map_insert_segment SIZEOF_SEGMENT st p s length fl) oom (λ '(st', q), q ≠ NULL ∧ segs st !! q = None ∧
    ∃ l1 l2 qu, l = l1 ++ l2 ∧ maps st' = <[p := set_segments m qu]> (maps st) ∧
      segs st' = <[q := Segment fl s (s + length) NULL None]> (segs st) ∧ regions st' = regions st ∧
      ∀ x m' regs' cs' ext', start x = s → end_ x = s + length → segments m' = qu → refcount m' = refcount m →
        counted regs' (<[q := x]> (segs st)) ext' → dom regs' = dom (regions st) →
        mm_inv (Mm (<[p := m']> (maps st)) (<[q := x]> (segs st)) (nodes st') regs' (kheap st') cs') (<[p := l1 ++ (q, x) :: l2]> lay) ext' ∧
        ∀ a, view (l1 ++ (q, x) :: l2) a = if (s <=? a) && (a <? s + length) then Some (flags x, region x) else view l a).
Proof.
  intros Hinv Hm Hl Hs Hlen He Hfit. destruct (inv_map _ _ _ _ _ Hinv Hl) as (m0 & Hm0 & Hlist & Hrc).
  replace m0 with m in * by congruence. unfold memory_map_insert_segment. rewrite u32_small by lia. rewrite Hm. res_simpl.
  replace (_queue_head (segments m)) with (first_of NULL l.*1) by (symmetry; apply Hlist).
  destruct (insert_point_ok st (segments m) s (s + length) l Hs (size (nodes st)) []) as (l1 & l2 & El & -> & Htop & Hsort2);
    [done|by eapply fuel_ok|done|simpl; lia|by left|]. res_simpl. simpl in El. unfold memory_segment_alloc.
  apply wp_bind. eapply wp_call; [apply own_kmalloc; [apply Hinv|done]|]. intros [a' q] Hnew.
  change (own_new (kheap st) a' q (dom (maps st)) (dom (segs st)) (dom (regions st))) in Hnew. assert (q ≠ NULL) as Hnz by apply Hnew.
  rewrite (proj2 (Z.eqb_neq q NULL) Hnz). cbn [wp]. rewrite (proj2 (Z.eqb_neq q NULL) Hnz). rewrite El in Hl.
  destruct (insert_inv st lay ext p m l1 l2 q a' Hinv Hm Hl Hnew) as (h & qu & E & Hins).
  unfold insert_after. simpl. rewrite Hm. res_simpl. rewrite E. res_simpl. cbn [wp]. split; [done|].
  split; [destruct Hnew as (_ & Hn & _); apply not_elem_of_dom; set_solver|].
  exists l1, l2, qu. split; [done|]. split; [done|]. split; [done|]. split; [done|].
  intros x m' regs' cs' ext' Hx1 Hx2 Hq Hr Hc Hd. assert (sorted 0 (l1 ++ (q, x) :: l2)) as Hsort.
  { destruct Hlist as (_ & _ & Hsort). rewrite El in Hsort. apply sorted_insert; rewrite ?Hx1, ?Hx2; (done || lia). }
  split; [by apply Hins|]. intros a. rewrite (view_insert 0) by done. unfold holds. by rewrite Hx1, Hx2, El.
Qed.

(** The map [m] with the markers moved for segment [x]. *)
Definition marked (m : memory_map) (x : memory_segment) : memory_map :=
  let exec := negb (Z.land (flags x) SEG_EXECUTABLE =? 0) in
  set_markers m (if exec && (code_start m =? 0) then start x else code_start m)
    (if negb exec && (data_start m =? 0) then start x else data_start m) (heap_start m) (sbrk m)
    (if negb (Z.land (flags x) SEG_TYPE_STACK =? 0) && ((end_ x =? 0) || (stack_end m <? end_ x)) then end_ x else stack_end m).

(** When memory_map_mmap does not refuse. *)
Definition mappable (s length : Z) : bool :=
  (align_remainder length (PAGE_SIZE PAGE_ADDR_BITS) =? 0) && (align_remainder s (PAGE_SIZE PAGE_ADDR_BITS) =? 0).

Lemma mmap_ok st lay ext p m l s length fl object off : mm_inv st lay ext → maps st !! p = Some m → lay !! p = Some l →
  0 ≤ s → 0 ≤ length → 0 < s + length < 2 ^ 32 → mappable s length = true → fits l s (s + length) →
  (object = NULL ∨ 0 < ext object) →
  wp (memory_map_mmap PAGE_ADDR_BITS SIZEOF_SEGMENT st p s length fl object off) oom (λ '(st', r), r = 0 ∧
    ∃ l' qu, mm_inv st' (<[p := l']> lay) (held ext object (-1)) ∧
      maps st' = <[p := marked (set_segments m qu) (Segment fl s (s + length) object None)]> (maps st) ∧ regions st' = regions st ∧
      (∃ q l1 l2, l = l1 ++ l2 ∧ l' = l1 ++ (q, Segment fl s (s + length) object None) :: l2) ∧
      ∀ a, view l' a = if (s <=? a) && (a <? s + length) then Some (fl, object) else view l a).
Proof.
  intros Hinv Hm Hl Hs Hlen He Hal Hfit Hobj. unfold mappable in Hal. apply andb_prop in Hal as [A1 A2].
  unfold memory_map_mmap. rewrite A1, A2, u32_small by lia. cbn [negb].
  assert ((0 <? s + length) && (s + length <? s) = false) as -> by lia.
  eapply wp_call; [by apply (insert_segment_ok st lay ext p m l)|].
  intros [st1 q] (Hq & Hq0 & l1 & l2 & qu & El & Em & Eg & Er & Hins). rewrite (proj2 (Z.eqb_neq q NULL) Hq).
  rewrite Eg, lookup_insert_eq. res_simpl. unfold memory_map_adjust_markers. simpl. rewrite Em, lookup_insert_eq. res_simpl.
  rewrite lookup_insert_eq. res_simpl. cbn [wp]. split; [done|].
  set (x := Segment fl s (s + length) object None).
  destruct (Hins x (marked (set_segments m qu) x) (regions st1) (calls st1) (held ext object (-1))) as [Hinv' Hv]; try done.
  - rewrite Er. apply (counted_hand_over _ _ _ q x); [apply Hinv|done|done].
  - by rewrite Er.
  - exists (l1 ++ (q, x) :: l2), qu. unfold put_map, put_seg. simpl. rewrite ?Em, ?Eg, !insert_insert_eq.
    split; [exact Hinv'|]. split; [done|]. split; [done|]. split; [by exists q, l1, l2|]. exact Hv.
Qed.

Lemma copy_segment_ok st lay ext p m l src x : mm_inv st lay ext → maps st !! p = Some m → lay !! p = Some l →
  segs st !! src = Some x → fits l (start x) (end_ x) → ref_room (regions st) (region x) →
  wp (memory_map_copy_segment SIZEOF_SEGMENT st p src) oom (λ '(st', r), r = 0 ∧ ∃ l' m', mm_inv st' (<[p := l']> lay) ext ∧
    maps st' = <[p := m']> (maps st) ∧ refcount m' = refcount m ∧ regions st' = take_ref (regions st) (region x) ∧
    (∃ q l1 l2, l = l1 ++ l2 ∧ l' = l1 ++ (q, x) :: l2 ∧ segs st !! q = None) ∧
    (∀ q y, segs st !! q = Some y → segs st' !! q = Some y) ∧
    ∀ a, view l' a = if holds x a then Some (flags x, region x) else view l a).
Proof.
  intros Hinv Hm Hl Hx Hfit Hroom. unfold memory_map_copy_segment. rewrite Hx. res_simpl.
  destruct (mi_have _ _ _ _ (proj1 Hinv) _ _ Hx) as (p0 & l0 & Hl0 & Hin). destruct (inv_map _ _ _ _ _ Hinv Hl0) as (m0 & _ & Hlist0 & _).
  destruct Hlist0 as (_ & _ & Hsort0). destruct (sorted_in _ _ _ _ Hsort0 Hin) as (S1 & S2 & S3 & _). rewrite u32_small by lia.
  eapply wp_call; [apply (insert_segment_ok st lay ext p m l (start x) (end_ x - start x) (flags x)); try done; try lia; by rewrite Zplus_minus|].
  intros [st1 q] (Hq & Hq0 & l1 & l2 & qu & El & Em & Eg & Er & Hins). rewrite (proj2 (Z.eqb_neq q NULL) Hq). rewrite Zplus_minus in *.
  rewrite make_ref_ok by (rewrite Er; apply Hinv || done). res_simpl. simpl. rewrite Eg, lookup_insert_eq. res_simpl.
  unfold memory_map_adjust_markers. simpl. rewrite Em, lookup_insert_eq. res_simpl. rewrite lookup_insert_eq. res_simpl. cbn [wp]. split; [done|].
  destruct (Hins x (marked (set_segments m qu) x) (take_ref (regions st) (region x)) (calls st1) ext) as [Hinv' Hv]; try done.
  - apply (counted_take _ _ _ q x); [apply Hinv|done|done].
  - apply dom_take_ref.
  - exists (l1 ++ (q, x) :: l2), (marked (set_segments m qu) x). unfold put_map, put_seg. simpl. rewrite ?Em, ?Eg, ?Er, !insert_insert_eq.
    replace (set_region _ _) with x by (by destruct x). split; [exact Hinv'|]. split; [done|]. split; [done|]. split; [done|].
    split; [by exists q, l1, l2|]. split; [|exact Hv]. intros q' y Hy. rewrite lookup_insert_ne; [done|]. intros <-. congruence.
Qed.

End ops.
