(* ===== verification/Maprun.v ===== *)
(** * Maprun: the life of memory maps

    Maps and regions come and go, are copied for a new process and give the
    heap and the stack their share; every run of these operations. *)

From S2P Require Import Prelude Queue Result Alloc Pages Memmap Mapinv Mapops Mapspace.

Section ops.
Context {A : Type} `{AllocLaws A}.
Implicit Types st : mm A.


(** ** Maps come and go *)
Lemma map_alloc_ok SIZEOF_MAP st lay ext : 0 ≤ SIZEOF_MAP ≤ 2 ^ 30 → mm_inv st lay ext →
  wp (memory_map_alloc SIZEOF_MAP st) oom (λ '(st', p), p ≠ NULL ∧ lay !! p = None ∧ mm_inv st' (<[p := []]> lay) ext ∧
    maps st' = <[p := Map 1 _queue_init 0 0 0 0 0]> (maps st) ∧ maps st !! p = None ∧ segs st' = segs st ∧ nodes st' = nodes st ∧
    regions st' = regions st).
Proof.
  intros Hsz [Hinv Hnull]. unfold memory_map_alloc. eapply wp_call; [apply own_kzalloc; [apply Hinv|done]|].
  intros [a' p] (Hp & Hfresh & _ & Hown & _). rewrite (proj2 (Z.eqb_neq p NULL) Hp). cbn [wp].
  assert (maps st !! p = None) as Hm by (apply not_elem_of_dom; set_solver).
  assert (lay !! p = None) as Hl by (apply not_elem_of_dom; rewrite <- (mi_dom _ _ _ _ Hinv); by apply not_elem_of_dom).
  split; [done|]. split; [done|]. split; [|done]. split; [|by rewrite lookup_insert_ne].
  pose proof Hinv as [I1 I2 I3 I4 I5 I6 I7 I8]. split; simpl; try done.
  - by rewrite !dom_insert_L, I1.
  - intros p2 m2 l2 Hb. destruct (decide (p = p2)) as [<-|Hne].
    + rewrite !lookup_insert_eq. intros [= <-] [= <-]. simpl. split; [|split; [done|lia]].
      split; [apply NoDup_nil_2|]. done.
    + rewrite !lookup_insert_ne by done. by apply I2.
  - intros p2 l2 q s. destruct (decide (p = p2)) as [<-|Hne].
    + rewrite lookup_insert_eq. intros [= <-] Hx. by apply elem_of_nil in Hx.
    + rewrite lookup_insert_ne by done. by apply I3.
  - intros q s (p2 & l2 & Hl2 & Hx)%I4. exists p2, l2. rewrite lookup_insert_ne by congruence. done.
  - intros p1 p2 l1 l2 q. destruct (decide (p = p1)) as [<-|H1], (decide (p = p2)) as [<-|H2]; rewrite ?lookup_insert_eq, ?lookup_insert_ne by done;
      [done| | |by apply I5]; intros ? ? X1 X2; simplify_eq; set_solver.
  - by rewrite dom_insert_L.
Qed.

Lemma free_segments_ok p ext l2 : ∀ fuel st lay pv, mm_core p st lay ext → lay !! p = Some l2 → p ∈ dom (maps st) → (length l2 ≤ fuel)%nat →
  NoDup l2.*1 → dlseg (nodes st) pv l2.*1 NULL →
  ∃ st', free_segments fuel st (first_of NULL l2.*1) = Val st' ∧ mm_core p st' (<[p := []]> lay) ext ∧ maps st' = maps st.
Proof.
  induction l2 as [|[q s] l2 IH]; intros fuel st lay pv Hinv Hl Hp Hf Hnd Hseg.
  { exists st. split; [by destruct fuel|]. by rewrite insert_id. }
  destruct fuel as [|fuel]; [simpl in Hf; lia|]. cbn [free_segments fmap list_fmap first_of fst].
  destruct Hseg as (Hq & Hn & Hrest). simpl in Hq, Hn, Hrest. destruct (Z.eqb_spec q NULL); [done|]. unfold _queue_next. rewrite Hn. res_simpl. simpl next.
  apply elem_of_dom in Hp as [m Hm].
  destruct (segment_free_ok p st lay ext p [] q s l2 m (nodes st)) as (st1 & E1 & Hinv1 & Em1 & En1); try done; [by eapply elem_of_dom_2|].
  replace (put_map (put_nodes st (nodes st)) p m) with st in E1
    by (destruct st; unfold put_map, put_nodes; simpl in *; by rewrite insert_id).
  rewrite E1. res_simpl. apply NoDup_cons in Hnd as [Hq2 Hnd].
  destruct (IH fuel st1 (<[p := l2]> lay) q) as (st2 & E2 & Hinv2 & Em2); try done.
  - by rewrite lookup_insert_eq.
  - rewrite Em1, dom_insert_L. set_solver.
  - simpl in Hf. lia.
  - rewrite En1. eapply dlseg_ext; [|exact Hrest]. intros x Hx. apply lookup_delete_ne. by intros <-.
  - exists st2. split; [done|]. rewrite insert_insert_eq in Hinv2. split; [done|]. by rewrite Em2, Em1, insert_id.
Qed.

(** The last of a map, when its segments are gone. *)
Lemma map_gone st lay ext p : mm_core p st (<[p := []]> lay) ext → p ∈ dom (maps st) → lay !! NULL = None → p ≠ NULL →
  ∃ a', kmfree (kheap st) p = Val a' ∧
    mm_inv (Mm (delete p (maps st)) (segs st) (nodes st) (regions st) a' (calls st)) (delete p lay) ext.
Proof.
  intros [I1 I2 I3 I4 I5 I6 I7 I8] Hpd Hnull Hp. destruct (own_free _ _ _ _ p I8) as (a' & -> & Hown); [set_solver|].
  eexists. split; [done|]. split; [|by rewrite lookup_delete_ne].
  assert (∀ p2 l2, delete p lay !! p2 = Some l2 → p2 ≠ p ∧ p2 ≠ NULL ∧ <[p := []]> lay !! p2 = Some l2) as Hsub.
  { intros p2 l2 H2. destruct (decide (p = p2)) as [<-|Hne]; [by rewrite lookup_delete_eq in H2|].
    rewrite lookup_delete_ne in H2 by done. rewrite lookup_insert_ne by done. split_and!; congruence. }
  split; simpl; try done.
  - rewrite !dom_delete_L. rewrite dom_insert_L in I1. rewrite I1. set_solver.
  - intros p2 m2 l2 Hb Hm2 Hl2. destruct (Hsub _ _ Hl2) as (? & ? & ?). apply (I2 p2 m2 l2); [done| |done]. by rewrite lookup_delete_ne in Hm2.
  - intros p2 l2 q s Hl2. destruct (Hsub _ _ Hl2) as (? & ? & ?). by apply (I3 p2 l2).
  - intros q s (p2 & l2 & Hl2 & Hx)%I4. exists p2, l2. split; [|done]. destruct (decide (p = p2)) as [<-|Hne].
    + rewrite lookup_insert_eq in Hl2. injection Hl2 as <-. by apply elem_of_nil in Hx.
    + rewrite lookup_insert_ne in Hl2 by done. by rewrite lookup_delete_ne.
  - intros p1 p2 l1 l2 q Ha Hb. destruct (Hsub _ _ Ha) as (? & ? & ?), (Hsub _ _ Hb) as (? & ? & ?). by apply (I5 p1 p2 l1 l2 q).
  - destruct I8 as (live & _ & _ & D1 & D2 & D3). rewrite dom_delete_L.
    replace (dom (segs st) ∖ {[p]}) with (dom (segs st)) in Hown by set_solver.
    by replace (dom (regions st) ∖ {[p]}) with (dom (regions st)) in Hown by set_solver.
Qed.

(** The reference count of a map changes. *)
Lemma refcount_core but but' st lay ext p m n : mm_core but st lay ext → maps st !! p = Some m → (but = but' ∨ lay !! but = None) →
  (p = but' ∨ 0 < n < 2 ^ 31) → mm_core but' (put_map st p (set_refcount m n)) lay ext.
Proof.
  intros [I1 I2 I3 I4 I5 I6 I7 I8] Hm Hbut Hn. assert (p ∈ dom (maps st)) as Hpd by (by eapply elem_of_dom_2).
  assert (Hd : dom (<[p := set_refcount m n]> (maps st)) = dom (maps st)) by (rewrite dom_insert_L; set_solver).
  split; simpl; rewrite ?Hd; try done. intros p2 m2 l2 Hb Hm2 Hl2.
  assert (p2 ≠ but) by (destruct Hbut as [->|?]; congruence). destruct (decide (p = p2)) as [<-|Hne].
  - rewrite lookup_insert_eq in Hm2. injection Hm2 as <-. simpl. destruct (I2 p m l2) as (? & ? & ?); [done..|]. by destruct Hn as [->|?].
  - rewrite lookup_insert_ne in Hm2 by done. by apply (I2 p2 m2 l2).
Qed.

Lemma map_free_ok st lay ext p m l : mm_inv st lay ext → maps st !! p = Some m → lay !! p = Some l →
  ∃ st', memory_map_free st p = Val st' ∧
    if refcount m =? 1 then mm_inv st' (delete p lay) ext ∧ maps st' = delete p (maps st)
    else mm_inv st' lay ext ∧ maps st' = <[p := set_refcount m (refcount m - 1)]> (maps st).
Proof.
  intros Hinv Hm Hl. destruct (inv_map _ _ _ _ _ Hinv Hl) as (m0 & Hm0 & Hlist & Hrc). replace m0 with m in * by congruence.
  destruct Hinv as [Hinv Hnull]. assert (p ≠ NULL) as Hp by congruence. unfold memory_map_free. rewrite (proj2 (Z.eqb_neq p NULL) Hp), Hm. res_simpl.
  rewrite s32_small by lia. destruct (Z.ltb_spec (refcount m - 1) 0); [lia|].
  destruct (Z.eqb_spec (refcount m - 1) 0) as [E0|E0], (Z.eqb_spec (refcount m) 1); try lia.
  - rewrite E0. pose proof (refcount_core NULL p st lay ext p m 0 Hinv Hm ltac:(by right) ltac:(by left)) as Hinv1.
    set (st1 := put_map st p _) in *. assert (p ∈ dom (maps st1)) as Hpd by (simpl; rewrite dom_insert_L; set_solver).
    destruct Hlist as ((N1 & N2 & N3 & N4) & _ & _). replace (_queue_head (segments m)) with (first_of NULL l.*1) by done.
    destruct (free_segments_ok p ext l (size (nodes st1)) st1 lay NULL Hinv1 Hl) as (st2 & -> & Hinv2 & Em2); try done.
    { rewrite <- (length_fmap fst). eapply (queue_fuel (nodes st) (segments m)). by split_and!. }
    res_simpl. destruct (map_gone st2 lay ext p Hinv2) as (a' & -> & Hinv3); [by rewrite Em2|done|done|].
    res_simpl. eexists. split; [done|]. split; [done|]. simpl. rewrite Em2. simpl. by rewrite delete_insert_eq.
  - eexists. split; [done|]. split; [|done]. split; [|done]. apply (refcount_core NULL NULL); [done|done|by left|right; lia].
Qed.

(** ** Regions *)
Lemma region_alloc_ok PAGE_ADDR_BITS SIZEOF_REGION st lay ext sz f memory : 0 ≤ SIZEOF_REGION ≤ 2 ^ 30 → mm_inv st lay ext → memory ≠ NULL →
  wp (memory_region_alloc_user_memory PAGE_ADDR_BITS SIZEOF_REGION st sz f memory) oom (λ '(st', r), r ≠ NULL ∧ regions st !! r = None ∧
    mm_inv st' lay (held ext r 1) ∧ maps st' = maps st ∧
    regions st' = <[r := Region 1 f memory (u32 (align_up sz (PAGE_SIZE PAGE_ADDR_BITS)))]> (regions st)).
Proof.
  intros Hsz [Hinv Hnull] Hmem. unfold memory_region_alloc_user_memory. eapply wp_call; [apply own_kzalloc; [apply Hinv|done]|].
  intros [a' r] (Hr & Hfresh & _ & _ & _ & Hown). rewrite (proj2 (Z.eqb_neq r NULL) Hr), (proj2 (Z.eqb_neq memory NULL) Hmem). cbn [wp].
  assert (regions st !! r = None) as Hr0 by (apply not_elem_of_dom; set_solver).
  split; [done|]. split; [done|]. split; [|done]. split; [|done]. destruct Hinv as [I1 I2 I3 I4 I5 I6 I7 I8]. split; simpl; try done.
  - destruct I7 as [Hn Hc]. split; [by rewrite lookup_insert_ne|]. intros r'. destruct (Hc r') as [He Hx]. unfold held.
    destruct (decide (r' = r)) as [->|Hne].
    + rewrite lookup_insert_eq, Z.eqb_refl, (proj2 (Z.eqb_neq r NULL) Hr). simpl. rewrite Hr0 in Hx. destruct Hx as [E Hu]. rewrite E, (Hu Hr). lia.
    + rewrite lookup_insert_ne by done. by rewrite (proj2 (Z.eqb_neq r' r) Hne).
  - by rewrite dom_insert_L.
Qed.

Lemma region_ref_ok st lay ext r : mm_inv st lay ext → ref_room (regions st) r →
  ∃ st', MEMORY_OBJECT_MAKE_REF st r = Val st' ∧ mm_inv st' lay (held ext r 1) ∧ maps st' = maps st ∧ regions st' = take_ref (regions st) r.
Proof.
  intros [Hinv Hnull] Hroom. rewrite make_ref_ok by (apply Hinv || done). eexists. split; [done|]. split; [|done]. split; [|done].
  destruct Hinv as [I1 I2 I3 I4 I5 I6 I7 I8]. split; simpl; rewrite ?dom_take_ref; try done. destruct I7 as [Hn Hc].
  destruct Hroom as [->|(x & Hx & Hroom)].
  - unfold take_ref. rewrite Hn. split; [done|]. intros r. unfold held. rewrite andb_false_r. apply Hc.
  - assert (r ≠ NULL) as Hr by congruence. unfold take_ref. rewrite Hx. split; [by rewrite lookup_insert_ne|].
    intros r'. destruct (Hc r') as [He Hx']. unfold held. destruct (decide (r' = r)) as [->|Hne].
    + rewrite lookup_insert_eq, Z.eqb_refl, (proj2 (Z.eqb_neq r NULL) Hr). simpl. rewrite Hx in Hx'. lia.
    + rewrite lookup_insert_ne by done. by rewrite (proj2 (Z.eqb_neq r' r) Hne).
Qed.

Lemma region_drop_ok st lay ext r : mm_inv st lay ext → (r = NULL ∨ 0 < ext r) →
  ∃ st', memory_region_free st r = Val st' ∧ mm_inv st' lay (held ext r (-1)) ∧ maps st' = maps st ∧ regions st' = drop_ref (regions st) r.
Proof.
  intros [Hinv Hnull] Hr. pose proof Hinv as [I1 I2 I3 I4 I5 I6 I7 I8].
  destruct (region_free_ok st (dom (maps st)) (dom (segs st)) r) as (a' & cs' & -> & Hown).
  - eapply counted_is_ref; [done|]. intros Hnz. pose proof (uses_nonneg (segs st) r). destruct Hr; [done|lia].
  - done.
  - eexists. split; [done|]. split; [|done]. split; [|done]. split; simpl; try done. eapply counted_drop; [done| |].
    + destruct Hr as [|Hpos]; [by left|right]. destruct I7 as [_ Hc]. destruct (Hc r) as [_ Hx].
      destruct (regions st !! r); [by eexists|]. lia.
    + intros r'. destruct I7 as [Hn Hc]. destruct (Hc r') as [He Hx]. unfold held. pose proof (uses_nonneg (segs st) r').
      assert (r' = NULL → ext r' = 0) as Hz by (intros ->; rewrite Hn in Hx; apply Hx).
      destruct (Z.eqb_spec r' r) as [->|], (Z.eqb_spec r NULL) as [En|En]; simpl; destruct Hr as [Er|Er]; split_and!; try done; lia.
Qed.

Lemma mm_inv_ext st lay ext ext' : (∀ r, ext r = ext' r) → mm_inv st lay ext → mm_inv st lay ext'.
Proof.
  intros E [[I1 I2 I3 I4 I5 I6 [Hn Hc] I8] Hnull]. split; [|done]. split; try done. split; [done|]. intros r. rewrite <- E. apply Hc.
Qed.

(** ** The heap and the stack *)
Lemma find_prev_ok st q address l1 p s l2 : holds s address = true → (∀ p' s', (p', s') ∈ l2 → holds s' address = false) →
  ∀ fuel l3, listed st q ((l1 ++ (p, s) :: l2) ++ l3) → (length (l1 ++ (p, s) :: l2) ≤ fuel)%nat →
  memory_segment_find_prev fuel st (last_of NULL (l1 ++ (p, s) :: l2).*1) address = Val p.
Proof.
  intros Hs. induction l2 as [|[p' s'] l2 IH] using rev_ind; intros Hno fuel l3 Hl Hf;
    (destruct fuel as [|fuel]; [rewrite length_app in Hf; simpl in Hf; lia|]).
  - assert (El : (l1 ++ [(p, s)]) ++ l3 = l1 ++ (p, s) :: l3) by (by rewrite <- app_assoc). rewrite El in Hl.
    destruct (listed_node _ _ _ _ _ _ Hl) as (Hp & Hx & _ & _ & _ & He & _). rewrite last_ptr. cbn [memory_segment_find_prev].
    rewrite (proj2 (Z.eqb_neq p NULL) Hp), Hx. res_simpl. unfold within_memory_segment_start, within_memory_segment_end.
    destruct (Z.eqb_spec (end_ s) 0); [lia|]. simpl orb. unfold holds in Hs. by rewrite Hs.
  - assert (El : l1 ++ (p, s) :: l2 ++ [(p', s')] = (l1 ++ (p, s) :: l2) ++ [(p', s')]) by (by rewrite <- app_assoc).
    rewrite El in *. rewrite <- app_assoc in Hl. simpl in Hl.
    destruct (listed_node _ _ _ _ _ _ Hl) as (Hp & Hx & _ & Hpv & _ & He & _). rewrite last_ptr. cbn [memory_segment_find_prev].
    rewrite (proj2 (Z.eqb_neq p' NULL) Hp), Hx. res_simpl. unfold within_memory_segment_start, within_memory_segment_end.
    destruct (Z.eqb_spec (end_ s') 0); [lia|]. simpl orb. specialize (Hno p' s' ltac:(set_solver)) as Hno'. unfold holds in Hno'. rewrite Hno'.
    rewrite Hpv. res_simpl. eapply IH; [|exact Hl|rewrite length_app in Hf; simpl in Hf; lia].
    intros p2 s2 Hin. apply (Hno p2 s2). set_solver.
Qed.

(** The break lies between the heap and the stack. *)
Record break_at (m : memory_map) (l l1 : layout) (hp : Z) (h : memory_segment) (sp : Z) (x : memory_segment) (l2 : layout) : Prop := {
  bk_list : l = l1 ++ (hp, h) :: (sp, x) :: l2;
  bk_heap : end_ h = sbrk m;
  bk_stack : start x = sbrk m;
  bk_down : Z.land (flags x) SEG_GROWSDOWN ≠ 0;
  bk_up : Z.land (flags h) SEG_GROWSDOWN = 0;
}.

(** The two segments that meet at the break. *)
Lemma break_facts st lay ext p m l l1 hp h sp x l2 : mm_inv st lay ext → maps st !! p = Some m → lay !! p = Some l →
  break_at m l l1 hp h sp x l2 →
  (hp ≠ NULL ∧ sp ≠ NULL ∧ hp ≠ sp) ∧ (segs st !! hp = Some h ∧ segs st !! sp = Some x) ∧
  (_queue_next (nodes st) hp = Some sp ∧ _queue_prev (nodes st) sp = Some hp) ∧
  0 ≤ start h ≤ sbrk m ∧ sbrk m ≤ end_ x ∧ 0 < sbrk m ∧ end_ x < 2 ^ 32 ∧ sorted 0 l1 ∧ top 0 l1 ≤ start h ∧ sorted (end_ x) l2.
Proof.
  intros Hinv Hm Hl [-> B1 B2 B3 B4]. destruct (inv_map _ _ _ _ _ Hinv Hl) as (m0 & Hm0 & Hlist & Hrc).
  destruct (listed_node _ _ _ _ _ _ Hlist) as (Hhp & Hh & Hhn & _ & Hh1 & Hh2 & Hh0).
  destruct (listed_node _ _ _ _ _ _ (listed_shift _ _ _ _ _ Hlist)) as (Hsp & Hx & _ & Hsv & Hx1 & Hx2 & _). rewrite last_ptr in Hsv. simpl in Hhn.
  assert (hp ≠ sp) as Hne.
  { destruct (listed_nodup _ _ _ _ _ _ Hlist) as [_ Hn]. intros ->. apply Hn. simpl. set_solver. }
  pose proof Hlist as (_ & _ & Hsort). rewrite sorted_app in Hsort. destruct Hsort as (S1 & S2 & S3 & S4 & S5 & S6 & S7 & S8).
  split; [done|]. split; [done|]. split; [done|]. split_and!; (done || lia).
Qed.

(** The break moves. *)
Lemma break_inv st lay ext p m l l1 hp h sp x l2 b : mm_inv st lay ext → maps st !! p = Some m → lay !! p = Some l →
  break_at m l l1 hp h sp x l2 → start h ≤ b ≤ end_ x → 0 < b →
  mm_inv (put_seg (put_seg st sp (set_start x b)) hp (set_end h b)) (<[p := l1 ++ (hp, set_end h b) :: (sp, set_start x b) :: l2]> lay) ext.
Proof.
  intros Hinv Hm Hl Hbk Hb Hb0. destruct (break_facts _ _ _ _ _ _ _ _ _ _ _ _ Hinv Hm Hl Hbk) as ((_ & _ & Hne) & _ & _ & F1 & F2 & F3 & F4 & F5 & F6 & F7).
  destruct Hbk as [-> B1 B2 _ _]. destruct (decide (sbrk m ≤ b)).
  - pose proof (change_inv st lay ext p (l1 ++ [(hp, h)]) sp x (set_start x b) l2 Hinv) as I1. rewrite <- !app_assoc in I1. specialize (I1 Hl eq_refl).
    assert (mm_inv (put_seg st sp (set_start x b)) (<[p := l1 ++ (hp, h) :: (sp, set_start x b) :: l2]> lay) ext) as I1'.
    { apply I1. rewrite sorted_app. simpl. split; [done|]. split_and!; (done || lia). }
    pose proof (change_inv _ _ ext p l1 hp h (set_end h b) ((sp, set_start x b) :: l2) I1') as I2.
    rewrite lookup_insert_eq, insert_insert_eq in I2. apply I2; [done|done|]. rewrite sorted_app. simpl. split; [done|]. split_and!; (done || lia).
  - pose proof (change_inv st lay ext p l1 hp h (set_end h b) ((sp, x) :: l2) Hinv Hl eq_refl) as I1.
    assert (mm_inv (put_seg st hp (set_end h b)) (<[p := l1 ++ (hp, set_end h b) :: (sp, x) :: l2]> lay) ext) as I1'.
    { apply I1. rewrite sorted_app. simpl. split; [done|]. split_and!; (done || lia). }
    pose proof (change_inv _ _ ext p (l1 ++ [(hp, set_end h b)]) sp x (set_start x b) l2 I1') as I2.
    rewrite lookup_insert_eq, insert_insert_eq, <- !app_assoc in I2. specialize (I2 eq_refl eq_refl). simpl in I2.
    unfold put_seg in I2 |- *. simpl in I2 |- *. rewrite insert_insert_ne by done. apply I2.
    rewrite sorted_app. simpl. split; [done|]. split_and!; (done || lia).
Qed.

Lemma sbrk_grow_ok st lay ext p m l l1 hp h sp x l2 diff : mm_inv st lay ext → maps st !! p = Some m → lay !! p = Some l →
  break_at m l l1 hp h sp x l2 → 0 ≤ diff < 2 ^ 31 → sbrk m + diff ≤ end_ x →
  ∃ st1, memory_map_resize st sp (- diff) = Val (st1, 0) ∧
    memory_map_resize st1 hp diff = Val (put_seg (put_seg st sp (set_start x (sbrk m + diff))) hp (set_end h (sbrk m + diff)), 0).
Proof.
  intros Hinv Hm Hl Hbk Hd Hfit.
  destruct (break_facts _ _ _ _ _ _ _ _ _ _ _ _ Hinv Hm Hl Hbk) as ((Hhp & Hsp & Hne) & (Hh & Hx) & (Hhn & Hsv) & F1 & F2 & F3 & F4 & _).
  destruct Hbk as [-> B1 B2 B3 B4].
  unfold memory_map_resize at 1. rewrite Hx. res_simpl. rewrite (proj2 (Z.eqb_neq _ 0) B3). simpl negb. cbv iota. rewrite Hsv. res_simpl.
  rewrite (proj2 (Z.eqb_neq _ _) Hhp), Hh. res_simpl. rewrite u32_small by lia. unfold within_memory_segment_end.
  destruct (Z.eqb_spec (end_ h) 0); [lia|]. destruct (Z.ltb_spec (start x - - diff) (end_ h)); [lia|]. simpl orb. cbv iota.
  eexists. split; [done|]. unfold memory_map_resize. simpl. rewrite lookup_insert_ne by done. rewrite Hh. res_simpl.
  rewrite B4. simpl negb. cbv iota. rewrite Hhn. res_simpl. rewrite (proj2 (Z.eqb_neq _ _) Hsp), lookup_insert_eq. res_simpl.
  rewrite u32_small by lia. unfold within_memory_segment_start, within_or_at_memory_segment_end. simpl.
  destruct (Z.leb_spec (start x - - diff) (end_ h + diff)); [|lia]. destruct (Z.leb_spec (end_ h + diff) (end_ x)); [|lia]. rewrite orb_true_r.
  simpl negb. cbv iota. unfold put_seg. simpl. rewrite insert_insert_eq. unfold set_start, set_end. simpl. by rewrite B1.
Qed.

Lemma sbrk_shrink_ok st lay ext p m l l1 hp h sp x l2 diff : mm_inv st lay ext → maps st !! p = Some m → lay !! p = Some l →
  break_at m l l1 hp h sp x l2 → - 2 ^ 31 < diff < 0 → start h ≤ sbrk m + diff → 0 < sbrk m + diff →
  ∃ st1, memory_map_resize st hp diff = Val (st1, 0) ∧
    memory_map_resize st1 sp (- diff) = Val (put_seg (put_seg st sp (set_start x (sbrk m + diff))) hp (set_end h (sbrk m + diff)), 0).
Proof.
  intros Hinv Hm Hl Hbk Hd Hfit Hpos.
  destruct (break_facts _ _ _ _ _ _ _ _ _ _ _ _ Hinv Hm Hl Hbk) as ((Hhp & Hsp & Hne) & (Hh & Hx) & (Hhn & Hsv) & F1 & F2 & F3 & F4 & _).
  destruct Hbk as [-> B1 B2 B3 B4].
  unfold memory_map_resize at 1. rewrite Hh. res_simpl. rewrite B4. simpl negb. cbv iota. rewrite Hhn. res_simpl.
  rewrite (proj2 (Z.eqb_neq _ _) Hsp), Hx. res_simpl. rewrite u32_small by lia. unfold within_memory_segment_start.
  destruct (Z.leb_spec (start x) (end_ h + diff)); [lia|]. cbv iota.
  eexists. split; [done|]. unfold memory_map_resize. simpl. rewrite lookup_insert_ne by done. rewrite Hx. res_simpl.
  rewrite (proj2 (Z.eqb_neq _ 0) B3). simpl negb. cbv iota. rewrite Hsv. res_simpl. rewrite (proj2 (Z.eqb_neq _ _) Hhp), lookup_insert_eq. res_simpl.
  rewrite u32_small by lia. unfold within_memory_segment_end. simpl.
  destruct (Z.eqb_spec (end_ h + diff) 0); [lia|]. destruct (Z.ltb_spec (start x - - diff) (end_ h + diff)); [lia|]. simpl orb. cbv iota.
  unfold put_seg. simpl. rewrite insert_insert_ne by done. replace (start x - - diff) with (sbrk m + diff) by lia. by rewrite B1.
Qed.

Lemma move_sbrk_ok PAGE_ADDR_BITS st lay ext p m l l1 hp h sp x l2 diff : mm_inv st lay ext → maps st !! p = Some m → lay !! p = Some l →
  break_at m l l1 hp h sp x l2 → sbrk m < end_ x → - 2 ^ 31 < diff < 2 ^ 31 → end_ x - start x < 2 ^ 31 → 0 ≤ end_ x - start x + diff < 2 ^ 31 →
  align_remainder (Z.abs diff) (PAGE_SIZE PAGE_ADDR_BITS) = 0 →
  start h ≤ sbrk m + diff ≤ end_ x → 0 < sbrk m + diff →
  let b := sbrk m + diff in
  ∃ st', memory_map_move_sbrk PAGE_ADDR_BITS st p diff = Val (st', 0) ∧
    maps st' = <[p := set_markers m (code_start m) (data_start m) (heap_start m) b (stack_end m)]> (maps st) ∧ regions st' = regions st ∧
    mm_inv st' (<[p := l1 ++ (hp, set_end h b) :: (sp, set_start x b) :: l2]> lay) ext ∧
    ∀ a, view (l1 ++ (hp, set_end h b) :: (sp, set_start x b) :: l2) a =
      if (start h <=? a) && (a <? b) then Some (flags h, region h)
      else if (b <=? a) && (a <? end_ x) then Some (flags x, region x) else view l a.
Proof.
  intros Hinv Hm Hl Hbk Hne Hd Hlen Hsize Hal Hb Hpos b.
  destruct (break_facts _ _ _ _ _ _ _ _ _ _ _ _ Hinv Hm Hl Hbk) as ((Hhp & Hsp & Hne') & (Hh & Hx) & (Hhn & Hsv) & F1 & F2 & F3 & F4 & F5 & F6 & F7).
  pose proof (break_inv st lay ext p m l l1 hp h sp x l2 b Hinv Hm Hl Hbk Hb Hpos) as Hinv'.
  destruct (inv_map _ _ _ _ _ Hinv Hl) as (m0 & Hm0 & Hlist & Hrc). replace m0 with m in * by congruence.
  unfold memory_map_move_sbrk. rewrite Hm. res_simpl.
  replace (_queue_tail (segments m)) with (last_of NULL l.*1) by (symmetry; apply Hlist). pose proof Hbk as [El B1 B2 B3 B4].
  assert (El2 : l = (l1 ++ [(hp, h)]) ++ (sp, x) :: l2) by (by rewrite El, <- app_assoc).
  assert (memory_segment_find_prev (size (nodes st)) st (last_of NULL l.*1) (sbrk m) = Val sp) as ->.
  { rewrite El2. eapply (find_prev_ok st (segments m) (sbrk m) (l1 ++ [(hp, h)]) sp x l2) with (l3 := []).
    - unfold holds. lia.
    - intros p' s' Hin. destruct (sorted_in _ _ _ _ F7 Hin). unfold holds. lia.
    - rewrite app_nil_r, <- El2. done.
    - rewrite <- El2. by eapply fuel_ok. }
  res_simpl. rewrite (proj2 (Z.eqb_neq _ _) Hsp), Hsv. res_simpl. rewrite (proj2 (Z.eqb_neq _ _) Hhp), Hx. res_simpl.
  rewrite (proj2 (Z.eqb_eq (sbrk m) (start x))) by done. simpl negb. cbv iota. rewrite (s32_small (end_ x - start x)) by lia. rewrite s32_small by lia.
  destruct (Z.ltb_spec (end_ x - start x + diff) 0); [lia|]. rewrite Hal. simpl negb. cbv iota. rewrite (u32_small (sbrk m + diff)) by lia.
  assert (∃ st1, (if 0 <=? diff then memory_map_resize st sp (- diff) else memory_map_resize st hp diff) = Val (st1, 0) ∧
    (if 0 <=? diff then memory_map_resize st1 hp diff else memory_map_resize st1 sp (- diff)) =
      Val (put_seg (put_seg st sp (set_start x b)) hp (set_end h b), 0)) as (st1 & -> & E2).
  { destruct (Z.leb_spec 0 diff).
    - eapply (sbrk_grow_ok st lay ext p m l l1 hp h sp x l2 diff); try done; lia.
    - eapply (sbrk_shrink_ok st lay ext p m l l1 hp h sp x l2 diff); try done; lia. }
  res_simpl. cbn [Z.ltb Z.compare]. rewrite E2. res_simpl. cbn [Z.ltb Z.compare]. simpl maps. rewrite Hm. res_simpl.
  eexists. split; [done|]. split; [done|]. split; [done|]. split; [by eapply markers_inv|]. intros a. subst l b.
  rewrite !view_app. cbn [view]. unfold holds. simpl.
  destruct ((start h <=? a) && (a <? sbrk m + diff)) eqn:E3; [rewrite (view_outside 0 l1 a) by (done || lia); done|].
  destruct ((sbrk m + diff <=? a) && (a <? end_ x)) eqn:E4; [rewrite (view_outside 0 l1 a) by (done || lia); done|].
  destruct ((start h <=? a) && (a <? end_ h)) eqn:E5; [lia|]. destruct ((start x <=? a) && (a <? end_ x)) eqn:E6; [lia|]. done.
Qed.
End ops.
