(* ===== verification/Mapexec.v ===== *)
(** * Mapexec: memory maps of processes, and every run

    The heap and stack of a new program, the copy of a map for a new process,
    and the runs of all operations on maps and regions. *)

From S2P Require Import Prelude Queue Result Alloc Pages Memmap Mapinv Mapops Mapspace Maprun.

Section exec.
Context {A : Type} `{AllocLaws A} (PAGE_ADDR_BITS SIZEOF_MAP SIZEOF_SEGMENT SIZEOF_REGION : Z).
Hypothesis map_size : 0 ≤ SIZEOF_MAP ≤ 2 ^ 30.
Hypothesis segment_size : 0 ≤ SIZEOF_SEGMENT ≤ 2 ^ 30.
Hypothesis region_size : 0 ≤ SIZEOF_REGION ≤ 2 ^ 30.
Implicit Types st : mm A.


Lemma held_same ext r r' : held ext r 1 r' = ext r' + (if (r' =? r) && negb (r =? NULL) then 1 else 0).
Proof. unfold held. destruct (_ && _); lia. Qed.


(** ** The copy of a map *)





(** ** Every run *)



(** The segments of a map. *)
Definition layout_of st (map : Z) : option layout :=
  m ← maps st !! map;
  ps ← queue_walk (size (nodes st)) (nodes st) (_queue_head (segments m));
  mapM (λ p, s ← segs st !! p; Some (p, s)) ps.


Inductive mm_op :=
  | MapAlloc
  | MapRef (map : Z)
  | MapFree (map : Z)
  | Duplicate (map : Z)
  | RegionAlloc (sz f memory : Z)
  | RegionRef (r : Z)
  | RegionFree (r : Z)
  | Mmap (map s length fl object off : Z)
  | Unmap (map s length : Z)
  | HeapStack (map stack_size memory : Z)
  | MoveSbrk (map diff : Z).

(** The state after an operation, with the error or the pointer it returns. *)
Definition mm_step (op : mm_op) st : res (mm A * Z) :=
  match op with
  | MapAlloc => memory_map_alloc SIZEOF_MAP st
  | MapRef map => st ← memory_map_make_ref st map; Val (st, 0)
  | MapFree map => st ← memory_map_free st map; Val (st, 0)
  | Duplicate map => '(st, error, p) ← duplicate_memory_map SIZEOF_MAP SIZEOF_SEGMENT st map; Val (st, if error <? 0 then error else p)
  | RegionAlloc sz f memory => memory_region_alloc_user_memory PAGE_ADDR_BITS SIZEOF_REGION st sz f memory
  | RegionRef r => st ← MEMORY_OBJECT_MAKE_REF st r; Val (st, 0)
  | RegionFree r => st ← memory_region_free st r; Val (st, 0)
  | Mmap map s length fl object off => memory_map_mmap PAGE_ADDR_BITS SIZEOF_SEGMENT st map s length fl object off
  | Unmap map s length => memory_map_unmap SIZEOF_SEGMENT st map s length
  | HeapStack map stack_size memory =>
      memory_map_insert_heap_stack PAGE_ADDR_BITS SIZEOF_SEGMENT SIZEOF_REGION st map stack_size memory
  | MoveSbrk map diff => memory_map_move_sbrk PAGE_ADDR_BITS st map diff
  end.

(** The references the callers hold afterwards; [r] is what was returned. *)
Definition ext_after (op : mm_op) (r : Z) (ext : Z → Z) : Z → Z :=
  match op with
  | RegionAlloc _ _ _ => held ext r 1
  | RegionRef r => held ext r 1
  | RegionFree r => held ext r (-1)
  | Mmap _ _ _ _ object _ => held ext object (-1)
  | _ => ext
  end.



























End exec.

(** memory_map_validate_address_range, when it is compiled in, refuses every
    address: the segment it finds begins at or below the address, which is
    what it takes for a fault. *)
Theorem validate_always_faults {A} `{AllocLaws A} (st : mm A) lay ext p l address length :
  mm_inv st lay ext → lay !! p = Some l → memory_map_validate_address_range st p address length = Val EFAULT.
Proof.
  intros Hinv Hl. destruct (inv_map _ _ _ _ _ Hinv Hl) as (m & Hm & Hlist & _).
  unfold memory_map_validate_address_range, memory_map_find. rewrite Hm. res_simpl.
  replace (_queue_head (segments m)) with (first_of NULL l.*1) by (symmetry; apply Hlist).
  rewrite (find_next_ok st (segments m) address l (size (nodes st)) []) by (done || by eapply fuel_ok). res_simpl.
  pose proof (find_ptr_view st (segments m) address [] l Hlist) as Hv. destruct (view l address) as [v|] eqn:Ev.
  - destruct Hv as (x & Hx & Hnz & _). destruct (size (nodes st)) as [|n] eqn:En.
    + pose proof (fuel_ok _ _ _ Hlist) as Hf. rewrite En in Hf. destruct l; [done|simpl in Hf; lia].
    + cbn [validate_loop]. rewrite (proj2 (Z.eqb_neq _ _) Hnz), Hx. res_simpl.
      assert (start x ≤ address) as Hs.
      { clear -Hx Ev Hlist. destruct Hlist as (_ & Hin & _). induction l as [|[q s] l IH]; [done|]. simpl in *.
        destruct (holds s address) eqn:Eh; [|apply IH; [intros p y Hy; apply Hin; set_solver|done|done]].
        rewrite (Hin q s) in Hx by set_solver. injection Hx as <-. unfold holds in Eh. lia. }
      unfold within_memory_segment_start. by rewrite (proj2 (Z.leb_le _ _) Hs).
  - rewrite Hv. by destruct (size (nodes st)).
Qed.

(** ** Examples *)
#[local] Existing Instance example_allocator.
#[local] Existing Instance example_alloc_laws.

Fixpoint mm_run (ops : list mm_op) (st : mm Alloc.kheap) (ext : Z → Z) : res (mm Alloc.kheap * (Z → Z)) :=
  match ops with
  | [] => Val (st, ext)
  | op :: ops => '(st, r) ← mm_step 12 48 28 20 op st; mm_run ops st (ext_after op r ext)
  end.
Definition mm_empty : mm Alloc.kheap := Mm ∅ ∅ ∅ ∅ example_kheap [].
Definition example_maps (ops : list mm_op) : res (list (Z * list (Z * Z * Z * Z)) * list (Z * Z)) :=
  '(st, _) ← mm_run ops mm_empty (λ _, 0);
  Val ((λ '(p, _), (p, match layout_of st p with Some l => (λ '(_, s), (start s, end_ s, flags s, region s)) <$> l | None => [] end)) <$> map_to_list (maps st),
       (λ '(r, x), (r, r_refcount x)) <$> map_to_list (regions st)).
Definition example_ops : list mm_op :=
  [MapAlloc; RegionAlloc 16384 0 65536; Mmap 66056 65536 16384 SEG_TYPE_CODE 66112 0; HeapStack 66056 65536 131072].


(** A program is mapped and given a heap and a stack, the break moves, the map
    is copied and a page in the middle of the code unmapped. *)
Definition example_run : list mm_op := example_ops ++ [MoveSbrk 66056 8192; Duplicate 66056; Unmap 66056 69632 4096].


(** The run gives two maps that share the regions, which the last segments give back. *)
Lemma example_run_maps : example_maps example_run =
  Val ([(66312, [(65536, 81920, 1, 66112); (131072, 139264, 4147, 66176); (139264, 196608, 4404, 66176)]);
        (66056, [(65536, 69632, 1, 66112); (73728, 81920, 1, 66112); (131072, 139264, 4147, 66176); (139264, 196608, 4404, 66176)])],
       [(66112, 3); (66176, 4)]).
Proof. by vm_compute. Qed.

(** *** What the conditions leave out *)

(** A break below the start of the heap is not refused: the heap ends before it begins. *)
Lemma sbrk_below_heap : example_maps (example_ops ++ [MoveSbrk 66056 (-4096)]) =
  Val ([(66056, [(65536, 81920, 1, 66112); (131072, 126976, 4147, 66176); (126976, 196608, 4404, 66176)])], [(66112, 1); (66176, 2)]).
Proof. by vm_compute. Qed.

(** A break above the end of the stack is refused only after the start of the stack has been moved there. *)
Lemma sbrk_past_stack : example_maps (example_ops ++ [MoveSbrk 66056 69632]) =
  Val ([(66056, [(65536, 81920, 1, 66112); (131072, 131072, 4147, 66176); (200704, 196608, 4404, 66176)])], [(66112, 1); (66176, 2)]).
Proof. by vm_compute. Qed.

(** What is mapped up to the end of the address space cannot be unmapped. *)
Lemma unmap_at_top : example_maps [MapAlloc; Mmap 66056 4278190080 16777216 0 0 0; Unmap 66056 4278190080 16777216] =
  Val ([(66056, [(4278190080, 0, 0, 0)])], []).
Proof. by vm_compute. Qed.
