(* ===== verification/Mmu.v ===== *)
(** * Mmu: the page tables of the 68030 (src/kernel/arch/m68k/mm/mmu.c, asm/mmu.h)

    A table is a page of short descriptors: an address with a status in its low
    bits, that leads to a page or to a table of the next level.  The tables
    live in a store, by their addresses; the pages come from an allocator. *)

From S2P Require Import Prelude Queue Result Pages.

Definition EEXIST : Z := -17.
Definition ENOENT : Z := -2.
Definition EINVAL : Z := -22.
Definition EFAULT : Z := -14.

Definition MMU_DT_INVALID : Z := 0.
Definition MMU_DT_PAGE_DESCRIPTOR : Z := 1.
Definition MMU_DT_TABLE : Z := 2.
Definition MMU_STATUS_DESC_TYPE : Z := 3.
Definition MMU_STATUS_DESC_WP : Z := 4.
Definition MMU_STATUS_DESC_CI : Z := 64.
Definition MMU_FLAG_OP : Z := 3.
Definition MMU_OP_MAP : Z := 1.
Definition MMU_OP_UNMAP : Z := 2.
Definition MMU_FLAG_TYPE : Z := 48.
Definition MMU_TYPE_UNALLOCATED : Z := 0.
Definition MMU_TYPE_PREALLOCATED : Z := 16.
Definition MMU_TYPE_FIXED : Z := 32.
Definition MMU_FLAG_COPY_ON_WRITE : Z := 512.
Definition MMU_FLAG_NOCACHE : Z := 1024.
Definition MMU_FLAG_WRITE : Z := 4096.
Definition GET_TABLE_CREATE_IF_NEEDED : Z := 1.
Definition GET_TABLE_RETURN_ANY_SIZE : Z := 2.
Definition PAGE_F_USER : Z := 0.
Definition PAGE_F_SUPERVISOR : Z := 16384.

(** The pages that the tables and the mappings are made of. *)
Class PagePool (P : Type) := {
  pool_alloc : P → Z → Z → res (P * Z);
  pool_free : P → Z → Z → res P;
  pool_ref : P → Z → Z → res P;
}.

Record mmu (P : Type) := Mmu { tables : gmap Z (list Z); pool : P }.
Arguments Mmu {_} _ _.
Arguments tables {_} _.
Arguments pool {_} _.

Section mmu.
Context {P : Type} `{PagePool P} (PAGE_ADDR_BITS : Z).
Implicit Types st : mmu P.
Abbreviation page_size := (PAGE_SIZE PAGE_ADDR_BITS).

Definition MMU_TABLE_SIZE : Z := page_size / 4.
Definition MMU_TABLE_ADDR_BITS : Z := PAGE_ADDR_BITS - 2.
Definition MMU_TABLE_LEVELS : Z := (32 - PAGE_ADDR_BITS) / MMU_TABLE_ADDR_BITS.
Definition MMU_TABLE_INITIAL_SHIFT : Z := (32 - PAGE_ADDR_BITS) mod MMU_TABLE_ADDR_BITS.
Definition MMU_TABLE_ADDRESS (desc : Z) : Z := align_down desc page_size.
Definition MMU_TABLE_STATUS (desc : Z) : Z := align_remainder desc page_size.
Definition MMU_TABLE_DESCRIPTOR (address status : Z) : Z := u32 (Z.lor address status).
Definition MMU_DT (desc : Z) : Z := Z.land (MMU_TABLE_STATUS desc) MMU_STATUS_DESC_TYPE.

Definition TABLE_INDEX (vaddr bits : Z) : Z := Z.land (Z.shiftr vaddr bits) (Z.shiftl 1 MMU_TABLE_ADDR_BITS - 1).

(** The translation control register that init_mmu sets. *)
Fixpoint tcr_levels (levels : nat) (tcr : Z) : Z :=
  match levels with
  | O => tcr
  | S levels => tcr_levels levels (u32 (Z.lor (Z.shiftr tcr 4) (Z.shiftl MMU_TABLE_ADDR_BITS 12)))
  end.
Definition init_mmu_tcr : Z :=
  u32 (Z.lor (tcr_levels (Z.to_nat MMU_TABLE_LEVELS) 0) (Z.lor 2147483648 (Z.lor 33554432
        (Z.lor (Z.shiftl PAGE_ADDR_BITS 20) (Z.shiftl MMU_TABLE_INITIAL_SHIFT 16))))).

(** An entry of a table. *)
Definition entry st (table i : Z) : res Z := t ← lift (tables st !! table); lift (rd t i).
Definition set_entry st (table i e : Z) : res (mmu P) :=
  t ← lift (tables st !! table); t ← lift (wr t i e); Val (Mmu (<[table := t]> (tables st)) (pool st)).
Definition set_pool st (p : P) : mmu P := Mmu (tables st) p.

(** init_mmu_table, on a page that is not a table yet; there is no page at 0. *)
Definition init_mmu_table st (table : Z) : res (mmu P) :=
  if table =? NULL then Undef
  else Val (Mmu (<[table := replicate (Z.to_nat MMU_TABLE_SIZE) 0]> (tables st)) (pool st)).

Definition mmu_table_alloc st : res (mmu P * Z) :=
  '(p, t) ← pool_alloc (pool st) page_size PAGE_F_SUPERVISOR;
  st ← init_mmu_table (set_pool st p) t;
  Val (st, t).

(** mmu_table_free_inner: [free_entries] is its loop. *)
Fixpoint mmu_table_free_inner (fuel : nat) st (table bits : Z) : res (mmu P) :=
  match fuel with
  | O => Undef
  | S fuel =>
      t ← lift (tables st !! table);
      let fix free_entries (t : list Z) st : res (mmu P) :=
        match t with
        | [] => Val st
        | e :: t =>
            st ← (if MMU_DT e =? MMU_DT_PAGE_DESCRIPTOR then
                    p ← pool_free (pool st) (MMU_TABLE_ADDRESS e) (Z.shiftl 1 bits); Val (set_pool st p)
                  else if MMU_DT e =? MMU_DT_INVALID then Val st
                  else mmu_table_free_inner fuel st (MMU_TABLE_ADDRESS e) (bits - MMU_TABLE_ADDR_BITS));
            free_entries t st
        end in
      st ← free_entries t st;
      p ← pool_free (pool st) table page_size;
      Val (Mmu (delete table (tables st)) p)
  end.
Definition top_bits : Z := 32 - MMU_TABLE_INITIAL_SHIFT - MMU_TABLE_ADDR_BITS.
Definition mmu_table_free st (root_table : Z) : res (mmu P) :=
  mmu_table_free_inner (Z.to_nat MMU_TABLE_LEVELS) st root_table top_bits.

(** get_table: the error, result->table and result->bits. *)
Fixpoint get_table_loop (fuel : nat) st (table virtual_addr length flags bits : Z) : res (mmu P * Z * Z * Z) :=
  match fuel with
  | O => Undef
  | S fuel =>
      let i := TABLE_INDEX virtual_addr bits in
      let covers := (Z.land virtual_addr (Z.shiftl 1 bits - 1) =? 0) && (Z.shiftl 1 bits <=? length) in
      let any := negb (Z.land flags GET_TABLE_RETURN_ANY_SIZE =? 0) in
      e ← entry st table i;
      if MMU_DT e =? MMU_DT_PAGE_DESCRIPTOR then
        if negb covers && negb any then Val (st, EEXIST, NULL, bits) else Val (st, 0, table, bits)
      else if (MMU_DT e =? MMU_DT_INVALID) && ((bits <=? PAGE_ADDR_BITS) || (covers && any)) then Val (st, 0, table, bits)
      else if MMU_DT e =? MMU_DT_INVALID then
        if Z.land flags GET_TABLE_CREATE_IF_NEEDED =? 0 then Val (st, ENOENT, NULL, bits)
        else
          '(p, next_table) ← pool_alloc (pool st) page_size PAGE_F_USER;
          st ← init_mmu_table (set_pool st p) next_table;
          let e := MMU_TABLE_DESCRIPTOR next_table MMU_DT_TABLE in
          st ← set_entry st table i e;
          get_table_loop fuel st (MMU_TABLE_ADDRESS e) virtual_addr length flags (bits - MMU_TABLE_ADDR_BITS)
      else get_table_loop fuel st (MMU_TABLE_ADDRESS e) virtual_addr length flags (bits - MMU_TABLE_ADDR_BITS)
  end.
Definition get_table st (root_table virtual_addr length flags : Z) : res (mmu P * Z * Z * Z) :=
  get_table_loop (Z.to_nat MMU_TABLE_LEVELS) st root_table virtual_addr length flags top_bits.

(** What one descriptor of mmu_table_map becomes, or an error. *)
Definition map_entry st (e virtual_addr flags : Z) : res (mmu P * Z * Z) :=
  let status := Z.lor (if Z.land flags MMU_FLAG_NOCACHE =? 0 then 0 else MMU_STATUS_DESC_CI)
                      (if Z.land flags MMU_FLAG_WRITE =? 0 then MMU_STATUS_DESC_WP else 0) in
  let op := Z.land flags MMU_FLAG_OP in
  let type := Z.land flags MMU_FLAG_TYPE in
  if op =? MMU_OP_MAP then
    if negb (MMU_TABLE_ADDRESS e =? 0) then Val (st, EEXIST, 0)
    else if type =? MMU_TYPE_UNALLOCATED then Val (st, 0, MMU_TABLE_DESCRIPTOR 0 status)
    else if type =? MMU_TYPE_FIXED then
      Val (st, 0, MMU_TABLE_DESCRIPTOR virtual_addr (Z.lor status MMU_DT_PAGE_DESCRIPTOR))
    else if type =? MMU_TYPE_PREALLOCATED then
      '(p, physical_addr) ← pool_alloc (pool st) page_size PAGE_F_USER;
      Val (set_pool st p, 0, MMU_TABLE_DESCRIPTOR physical_addr (Z.lor status MMU_DT_PAGE_DESCRIPTOR))
    else Val (st, EINVAL, 0)
  else if op =? MMU_OP_UNMAP then
    st ← (if negb (MMU_TABLE_ADDRESS e =? 0) && negb (type =? MMU_TYPE_FIXED)
          then p ← pool_free (pool st) (MMU_TABLE_ADDRESS e) page_size; Val (set_pool st p) else Val st);
    Val (st, 0, MMU_TABLE_DESCRIPTOR 0 status)
  else Val (st, EINVAL, 0).

Definition table_flags (flags : Z) : Z :=
  Z.lor GET_TABLE_CREATE_IF_NEEDED
    (if Z.land flags MMU_FLAG_TYPE =? MMU_TYPE_FIXED then GET_TABLE_RETURN_ANY_SIZE else 0).

(** The loop of mmu_table_map, with the table and the size of its entries that
    the last get_table gave. *)
Fixpoint map_loop (fuel : nat) st (root_table virtual_addr length flags i table bits : Z) : res (mmu P * Z) :=
  if length =? 0 then Val (st, 0)
  else
    match fuel with
    | O => Undef
    | S fuel =>
        '(st, error, table, bits) ←
          (if (MMU_TABLE_SIZE <=? i + 1) || (negb (table =? NULL) && (length <? Z.shiftl 1 bits))
           then get_table st root_table virtual_addr length (table_flags flags)
           else Val (st, 0, table, bits));
        if error <? 0 then Val (st, error)
        else
          let i := TABLE_INDEX virtual_addr bits in
          e ← entry st table i;
          '(st, error, e) ← map_entry st e virtual_addr flags;
          if error <? 0 then Val (st, error)
          else
            st ← set_entry st table i e;
            if length <? Z.shiftl 1 bits then Halt
            else map_loop fuel st root_table (u32 (virtual_addr + Z.shiftl 1 bits)) (length - Z.shiftl 1 bits) flags (i + 1) table bits
    end.
Definition mmu_table_map st (root_table virtual_addr length flags : Z) : res (mmu P * Z) :=
  map_loop (Z.to_nat (length / page_size + 1)) st root_table virtual_addr length flags MMU_TABLE_SIZE NULL 0.

Fixpoint copy_loop (fuel : nat) st (dest_table src_table virtual_addr length flags i stable dtable bits : Z) : res (mmu P * Z) :=
  if length =? 0 then Val (st, 0)
  else
    match fuel with
    | O => Undef
    | S fuel =>
        let fixed := Z.land flags MMU_FLAG_TYPE =? MMU_TYPE_FIXED in
        let additional := if negb (Z.land flags MMU_FLAG_COPY_ON_WRITE =? 0) && negb fixed then MMU_STATUS_DESC_WP else 0 in
        '(st, error, stable, dtable, bits) ←
          (if (MMU_TABLE_SIZE <=? i + 1) || (length <? Z.shiftl 1 bits) then
             '(st, error, stable, sbits) ← get_table st src_table virtual_addr length (table_flags flags);
             if error <? 0 then Val (st, error, stable, dtable, sbits)
             else
               '(st, error, dtable, dbits) ← get_table st dest_table virtual_addr length (table_flags flags);
               if error <? 0 then Val (st, error, stable, dtable, sbits)
               else if sbits =? dbits then Val (st, 0, stable, dtable, sbits) else Val (st, EFAULT, stable, dtable, sbits)
           else Val (st, 0, stable, dtable, bits));
        if error <? 0 then Val (st, error)
        else
          let i := TABLE_INDEX virtual_addr bits in
          e ← entry st stable i;
          st ← set_entry st dtable i (Z.lor e additional);
          e ← entry st stable i;
          let e := Z.lor e additional in
          st ← set_entry st stable i e;
          st ← (if negb fixed && negb (MMU_TABLE_ADDRESS e =? 0)
                then p ← pool_ref (pool st) (MMU_TABLE_ADDRESS e) (Z.shiftl 1 bits); Val (set_pool st p) else Val st);
          if length <? Z.shiftl 1 bits then Halt
          else copy_loop fuel st dest_table src_table (u32 (virtual_addr + Z.shiftl 1 bits)) (length - Z.shiftl 1 bits) flags (i + 1)
                 stable dtable bits
    end.
Definition mmu_table_copy st (dest_table src_table virtual_addr length flags : Z) : res (mmu P * Z) :=
  copy_loop (Z.to_nat (length / page_size + 1)) st dest_table src_table virtual_addr length flags MMU_TABLE_SIZE NULL NULL 0.

(** The error, and the address and size of the page. *)
Definition mmu_table_get_page st (root_table virtual_addr : Z) : res (Z * Z * Z) :=
  '(st, error, table, bits) ← get_table st root_table virtual_addr page_size GET_TABLE_RETURN_ANY_SIZE;
  if error <? 0 then Val (error, 0, 0)
  else
    e ← entry st table (TABLE_INDEX virtual_addr bits);
    if (MMU_TABLE_ADDRESS e =? 0) && (Z.shiftl 1 bits <? virtual_addr) then Val (ENOENT, 0, 0)
    else Val (0, MMU_TABLE_ADDRESS e, Z.shiftl 1 bits).

Definition mmu_table_set_page st (root_table virtual_addr physical_addr size flags : Z) : res (mmu P * Z) :=
  '(st, error, table, bits) ← get_table st root_table virtual_addr page_size
      (Z.lor GET_TABLE_CREATE_IF_NEEDED GET_TABLE_RETURN_ANY_SIZE);
  if error <? 0 then Val (st, error)
  else if negb (Z.shiftl 1 bits =? size) then Val (st, EFAULT)
  else
    let i := TABLE_INDEX virtual_addr bits in
    e ← entry st table i;
    let status := Z.lor (MMU_TABLE_STATUS e) MMU_DT_PAGE_DESCRIPTOR in
    let status := if Z.land flags MMU_FLAG_WRITE =? 0 then Z.lor status MMU_STATUS_DESC_WP
                  else Z.land status (Z.lnot MMU_STATUS_DESC_WP) in
    st ← set_entry st table i (MMU_TABLE_DESCRIPTOR physical_addr status);
    Val (st, 0).

(** [crp] is the root that the processor uses, [ptestr] the status that its
    test instruction gives. *)
Definition mmu_table_validate_user_address st (crp : Z) (ptestr : Z → Z) (root_table virtual_addr : Z) : res bool :=
  if crp =? root_table then Val (Z.land (ptestr virtual_addr) 60416 =? 0)
  else
    '(_, error, _, _) ← get_table st root_table (align_down virtual_addr page_size) page_size GET_TABLE_RETURN_ANY_SIZE;
    Val (0 <=? error).
End mmu.
