(* ===== verification/Mmuinv.v ===== *)
(** * Mmuinv: page tables as address spaces

    A table belongs to one root, at one level, for one range of addresses;
    what an address is mapped to is found by the walk that the processor does.
    get_table finds the entry at which the walk ends, and the tables that it
    makes do not change what any address is mapped to. *)

From S2P Require Import Prelude Queue Result Pages Builtins Mmu.

Ltac dt := unfold MMU_DT_INVALID, MMU_DT_PAGE_DESCRIPTOR, MMU_DT_TABLE in *; lia.

(** What the tables need of the pages: the references of every page, and the
    pages that can still be had. *)
Class PoolLaws (P : Type) `{PagePool P} (PAGE_ADDR_BITS : Z) := {
  pool_inv : P → Prop;
  pool_refs : P → Z → Z;
  pool_room : P → Z → Z;
  pool_alloc_law p flags : pool_inv p → 0 < pool_room p flags →
    wp (pool_alloc p (PAGE_SIZE PAGE_ADDR_BITS) flags) False (λ '(p', a),
      pool_inv p' ∧ 0 < a < 2 ^ 32 ∧ a mod PAGE_SIZE PAGE_ADDR_BITS = 0 ∧ pool_refs p a = 0 ∧
      (∀ x, x mod PAGE_SIZE PAGE_ADDR_BITS = 0 → pool_refs p' x = if x =? a then 1 else pool_refs p x) ∧
      ∀ f, pool_room p f - 1 ≤ pool_room p' f);
  pool_free_law p a : pool_inv p → 0 < pool_refs p a → a mod PAGE_SIZE PAGE_ADDR_BITS = 0 →
    wp (pool_free p a (PAGE_SIZE PAGE_ADDR_BITS)) False (λ p', pool_inv p' ∧
      (∀ x, x mod PAGE_SIZE PAGE_ADDR_BITS = 0 → pool_refs p' x = if x =? a then pool_refs p x - 1 else pool_refs p x) ∧
      ∀ f, pool_room p f ≤ pool_room p' f);
}.

Section walk.
Context {P : Type} (PAGE_ADDR_BITS : Z).
Hypothesis page_bits : 8 ≤ PAGE_ADDR_BITS ≤ 16.
Implicit Types st : mmu P.
Abbreviation w := (MMU_TABLE_ADDR_BITS PAGE_ADDR_BITS).
Abbreviation page_size := (PAGE_SIZE PAGE_ADDR_BITS).
Abbreviation levels := (Z.to_nat (MMU_TABLE_LEVELS PAGE_ADDR_BITS)).
Abbreviation address := (MMU_TABLE_ADDRESS PAGE_ADDR_BITS).
Abbreviation status := (MMU_TABLE_STATUS PAGE_ADDR_BITS).
Abbreviation DT := (MMU_DT PAGE_ADDR_BITS).

(** The bits of an address below an entry of level [n]. *)
Definition bits (n : nat) : Z := PAGE_ADDR_BITS + Z.of_nat n * w.
Definition chunk (n : nat) : Z := 2 ^ bits n.
(** The addresses that the tables can map. *)
Definition space : Z := 2 ^ (32 - MMU_TABLE_INITIAL_SHIFT PAGE_ADDR_BITS).

Definition index (n : nat) (v : Z) : Z := (v / chunk n) mod 2 ^ w.
(** The first address of the table of level [n] that maps [v]. *)
Definition base (n : nat) (v : Z) : Z := v / chunk (S n) * chunk (S n).

Lemma w_range : 6 ≤ w ≤ 14.
Proof. unfold MMU_TABLE_ADDR_BITS. lia. Qed.

Lemma bits_S n : bits (S n) = bits n + w.
Proof. unfold bits. rewrite Nat2Z.inj_succ. pose proof w_range. lia. Qed.

Lemma chunk_pos n : 0 < chunk n.
Proof. unfold chunk. apply Z.pow_pos_nonneg; [lia|]. unfold bits. pose proof w_range. nia. Qed.

Lemma chunk_S n : chunk (S n) = chunk n * 2 ^ w.
Proof. unfold chunk. rewrite bits_S, Z.pow_add_r; [done| |]; unfold bits; pose proof w_range; nia. Qed.

Lemma chunk_0 : chunk 0 = page_size.
Proof. unfold chunk, bits. rewrite PAGE_SIZE_pow by done. f_equal. lia. Qed.

Lemma table_size : MMU_TABLE_SIZE PAGE_ADDR_BITS = 2 ^ w.
Proof.
  unfold MMU_TABLE_SIZE, MMU_TABLE_ADDR_BITS. rewrite PAGE_SIZE_pow by done. change 4 with (2 ^ 2). rewrite <- Z.pow_sub_r by lia. done.
Qed.

Lemma levels_pos : (0 < levels)%nat.
Proof.
  unfold MMU_TABLE_LEVELS. pose proof w_range. assert (1 ≤ (32 - PAGE_ADDR_BITS) / w) by (apply Z.div_le_lower_bound; unfold MMU_TABLE_ADDR_BITS in *; lia). lia.
Qed.

Lemma top_bits_ok : top_bits PAGE_ADDR_BITS = bits (levels - 1).
Proof.
  unfold top_bits, bits, MMU_TABLE_INITIAL_SHIFT, MMU_TABLE_LEVELS. pose proof w_range. pose proof levels_pos as Hl. unfold MMU_TABLE_LEVELS in Hl.
  pose proof (Z.div_mod (32 - PAGE_ADDR_BITS) w ltac:(lia)). nia.
Qed.

Lemma space_ok : space = chunk levels.
Proof.
  unfold space, chunk, bits, MMU_TABLE_INITIAL_SHIFT. pose proof w_range. pose proof levels_pos as Hl. unfold MMU_TABLE_LEVELS in *.
  pose proof (Z.div_mod (32 - PAGE_ADDR_BITS) w ltac:(lia)). f_equal. nia.
Qed.

Lemma index_range n v : 0 ≤ index n v < 2 ^ w.
Proof. apply Z.mod_pos_bound, Z.pow_pos_nonneg; [lia|]. pose proof w_range. lia. Qed.

Lemma table_index n v : TABLE_INDEX PAGE_ADDR_BITS v (bits n) = index n v.
Proof.
  unfold TABLE_INDEX, index, chunk. pose proof w_range. assert (0 ≤ bits n) by (unfold bits; nia).
  rewrite Z.shiftr_div_pow2, Z.shiftl_mul_pow2, Z.mul_1_l, Z.sub_1_r, <- Z.ones_equiv by lia. apply Z.land_ones. lia.
Qed.

(** The entry of [v] of level [n] begins where the table does, and [index] entries further. *)
Lemma base_index n v : v / chunk n * chunk n = base n v + index n v * chunk n.
Proof.
  unfold base, index. rewrite chunk_S. pose proof (chunk_pos n). pose proof w_range. assert (0 < 2 ^ w) by (apply Z.pow_pos_nonneg; lia).
  rewrite <- Z.div_div by lia. pose proof (Z.div_mod (v / chunk n) (2 ^ w) ltac:(lia)). nia.
Qed.

Lemma base_below n v : base n v = (base (S n) v + index (S n) v * chunk (S n)).
Proof. unfold base at 1. apply base_index. Qed.

Lemma base_top v : 0 ≤ v < space → base (levels - 1) v = 0.
Proof.
  intros Hv. rewrite space_ok in Hv. unfold base. pose proof levels_pos. replace (S (levels - 1)) with levels by lia. by rewrite Z.div_small.
Qed.

(** ** Descriptors *)

Lemma address_eq e : address e = e / page_size * page_size.
Proof. unfold MMU_TABLE_ADDRESS. rewrite PAGE_SIZE_pow by done. apply align_down_pow2. lia. Qed.
Lemma status_eq e : status e = e mod page_size.
Proof. unfold MMU_TABLE_STATUS. rewrite PAGE_SIZE_pow by done. apply align_remainder_pow2. lia. Qed.
Lemma page_size_range : 256 ≤ page_size ≤ 65536.
Proof. by apply PAGE_SIZE_range. Qed.

Lemma desc_eq a s : 0 ≤ a < 2 ^ 32 → a mod page_size = 0 → 0 ≤ s < page_size → MMU_TABLE_DESCRIPTOR a s = a + s.
Proof.
  intros Ha Hm Hs. unfold MMU_TABLE_DESCRIPTOR. pose proof page_size_range. rewrite PAGE_SIZE_pow in * by done.
  apply Z_div_exact_full_2 in Hm; [|lia]. set (q := a / 2 ^ PAGE_ADDR_BITS) in *. replace a with (Z.shiftl q PAGE_ADDR_BITS) by (rewrite Z.shiftl_mul_pow2; lia).
  rewrite Z.lor_comm, lor_shift_join, Z.shiftl_mul_pow2 by lia. unfold u32, uwrap. apply Z.mod_small.
  assert (2 ^ 32 = 2 ^ (32 - PAGE_ADDR_BITS) * 2 ^ PAGE_ADDR_BITS) as E by (rewrite <- Z.pow_add_r; [f_equal|..]; lia).
  assert (q < 2 ^ (32 - PAGE_ADDR_BITS)) by nia. nia.
Qed.

Lemma desc_ok a s : 0 ≤ a < 2 ^ 32 → a mod page_size = 0 → 0 ≤ s < page_size →
  address (MMU_TABLE_DESCRIPTOR a s) = a ∧ status (MMU_TABLE_DESCRIPTOR a s) = s ∧ 0 ≤ MMU_TABLE_DESCRIPTOR a s < 2 ^ 32.
Proof.
  intros Ha Hm Hs. pose proof page_size_range. split_and!.
  - rewrite address_eq, desc_eq by done. apply Z_div_exact_full_2 in Hm; [|lia]. set (q := a / page_size) in *.
    replace (a + s) with (q * page_size + s) by lia. rewrite Z.div_add_l, (Z.div_small s) by lia. lia.
  - rewrite status_eq, desc_eq, <- Z.add_mod_idemp_l, Hm by (done || lia). apply Z.mod_small. lia.
  - unfold MMU_TABLE_DESCRIPTOR, u32, uwrap. apply Z.mod_pos_bound. lia.
  - unfold MMU_TABLE_DESCRIPTOR, u32, uwrap. apply Z.mod_pos_bound. lia.
Qed.

Lemma address_ok e : 0 ≤ e < 2 ^ 32 → 0 ≤ address e < 2 ^ 32 ∧ address e mod page_size = 0 ∧ 0 ≤ status e < page_size.
Proof.
  intros He. rewrite address_eq, status_eq. pose proof page_size_range. pose proof (Z.mod_pos_bound e page_size ltac:(lia)).
  pose proof (Z.div_mod e page_size ltac:(lia)). rewrite Z.mod_mul by lia. pose proof (Z.div_pos e page_size ltac:(lia) ltac:(lia)). lia.
Qed.

(** ** The walk *)
Fixpoint walk (n : nat) (tbs : gmap Z (list Z)) (table v : Z) : option (nat * Z * Z) :=
  t ← tbs !! table;
  e ← rd t (index n v);
  if DT e =? MMU_DT_TABLE then match n with O => None | S n => walk n tbs (address e) v end
  else Some (n, table, e).

(** What an address is mapped to: the physical address and the status. *)
Definition translate (tbs : gmap Z (list Z)) (root v : Z) : option (Z * Z) :=
  '(n, _, e) ← walk (levels - 1) tbs root v;
  if DT e =? MMU_DT_PAGE_DESCRIPTOR then Some (address e + v mod chunk n, status e) else None.

(** The root, level and first address of every table. *)
Definition entry_ok (path : gmap Z (Z * nat * Z)) (r : Z) (n : nat) (b i e : Z) : Prop :=
  0 ≤ e < 2 ^ 32 ∧
  (DT e = MMU_DT_INVALID ∧ address e = 0 ∨ DT e = MMU_DT_PAGE_DESCRIPTOR ∨
   DT e = MMU_DT_TABLE ∧ ∃ n', n = S n' ∧ path !! address e = Some (r, n', b + i * chunk n)).

Definition table_ok (path : gmap Z (Z * nat * Z)) (tbs : gmap Z (list Z)) (table r : Z) (n : nat) (b : Z) : Prop :=
  0 < table < 2 ^ 32 ∧ table mod page_size = 0 ∧ ∃ t, tbs !! table = Some t ∧ zlen t = 2 ^ w ∧
    ∀ i e, rd t i = Some e → entry_ok path r n b i e.

Definition paths_ok (path : gmap Z (Z * nat * Z)) (tbs : gmap Z (list Z)) : Prop :=
  ∀ table r n b, path !! table = Some (r, n, b) → table_ok path tbs table r n b.

Definition is_root (path : gmap Z (Z * nat * Z)) (root : Z) : Prop := path !! root = Some (root, (levels - 1)%nat, 0).

Lemma rd_index {T} (t : list T) n v : zlen t = 2 ^ w → ∃ e, rd t (index n v) = Some e.
Proof. intros Ht. pose proof (index_range n v). apply rd_in_range. lia. Qed.

Lemma walk_ok path tbs r v n : paths_ok path tbs → ∀ table, path !! table = Some (r, n, base n v) →
  ∃ n' table' e, walk n tbs table v = Some (n', table', e) ∧ (n' ≤ n)%nat ∧ path !! table' = Some (r, n', base n' v) ∧
    (∃ t, tbs !! table' = Some t ∧ rd t (index n' v) = Some e) ∧ entry_ok path r n' (base n' v) (index n' v) e ∧ DT e ≠ MMU_DT_TABLE.
Proof.
  intros Hok. induction n as [|n IH]; intros table Hp; destruct (Hok _ _ _ _ Hp) as (_ & _ & t & Ht & Hlen & Hent); cbn [walk]; rewrite Ht; simpl.
  all: match goal with |- context [index ?k ?x] => destruct (rd_index t k x Hlen) as [e He] end; rewrite He; simpl; pose proof (Hent _ _ He) as Hee.
  - destruct (Z.eqb_spec (DT e) MMU_DT_TABLE) as [E|E].
    + destruct Hee as (_ & [[? ?]|[?|(_ & n' & ? & _)]]); [dt..|done].
    + exists 0%nat, table, e. split_and!; try done. by exists t.
  - destruct (Z.eqb_spec (DT e) MMU_DT_TABLE) as [E|E].
    + destruct Hee as (_ & [[? ?]|[?|(_ & n' & [= <-] & Hc)]]); [dt..|].
      rewrite <- base_below in Hc. destruct (IH _ Hc) as (n2 & t2 & e2 & E2 & Hle & Hrest). exists n2, t2, e2. split; [done|]. split; [lia|done].
    + exists (S n), table, e. split_and!; try done. by exists t.
Qed.

Lemma walk_agree path tbs tbs' r v n : paths_ok path tbs → (∀ table, is_Some (path !! table) → tbs' !! table = tbs !! table) →
  ∀ table, path !! table = Some (r, n, base n v) → walk n tbs' table v = walk n tbs table v.
Proof.
  intros Hok Hag. induction n as [|n IH]; intros table Hp; cbn [walk]; rewrite (Hag table) by eauto;
    destruct (Hok _ _ _ _ Hp) as (_ & _ & t & Ht & Hlen & Hent); rewrite Ht; simpl; [done|].
  destruct (rd_index t (S n) v Hlen) as [e He]. rewrite He. simpl.
  destruct (Z.eqb_spec (DT e) MMU_DT_TABLE) as [E|E]; [|done].
  destruct (Hent _ _ He) as (_ & [[? ?]|[?|(_ & n' & [= <-] & Hc)]]); [dt..|]. rewrite <- base_below in Hc. by apply IH.
Qed.

(** ** The table of level [k] that a walk comes through *)
Fixpoint reach (n : nat) (tbs : gmap Z (list Z)) (table v : Z) (k : nat) : option Z :=
  if Nat.eqb n k then Some table
  else match n with
       | O => None
       | S m => t ← tbs !! table; e ← rd t (index n v); if DT e =? MMU_DT_TABLE then reach m tbs (address e) v k else None
       end.

Lemma reach_refl n tbs table v : reach n tbs table v n = Some table.
Proof. destruct n; simpl; by rewrite ?Nat.eqb_refl. Qed.

Lemma div_chunk_add n k v : v / chunk (n + k) = v / chunk n / 2 ^ (Z.of_nat k * w).
Proof.
  pose proof w_range. pose proof (chunk_pos n). assert (0 < 2 ^ (Z.of_nat k * w)) by (apply Z.pow_pos_nonneg; lia).
  rewrite Z.div_div by lia. f_equal. unfold chunk. rewrite <- Z.pow_add_r by (unfold bits; nia). f_equal. unfold bits. lia.
Qed.

Lemma index_above k n v v' : (k < n)%nat → base k v = base k v' → index n v = index n v'.
Proof.
  intros Hkn Hb. unfold base in Hb. pose proof (chunk_pos (S k)). assert (Hd : v / chunk (S k) = v' / chunk (S k)) by nia.
  unfold index. replace n with (S k + (n - S k))%nat by lia. by rewrite !div_chunk_add, Hd.
Qed.

Lemma same_chunk n v v' : v / chunk n = v' / chunk n ↔ base n v = base n v' ∧ index n v = index n v'.
Proof.
  pose proof (chunk_pos n). split.
  - intros E. split; [|unfold index; by rewrite E]. unfold base. replace (S n) with (n + 1)%nat by lia. by rewrite !div_chunk_add, E.
  - intros [Hb Hi]. pose proof (base_index n v). pose proof (base_index n v'). rewrite Hb, Hi in *. nia.
Qed.

Lemma reach_above tbs k v n : (n < k)%nat → ∀ table, reach n tbs table v k = None.
Proof.
  induction n as [|n IH]; intros Hn table; cbn [reach]; (destruct (Nat.eqb _ k) eqn:E; [lia|]); [done|].
  destruct (tbs !! table); simpl; [|done]. destruct (rd _ _); simpl; [|done]. destruct (_ =? _); [|done]. apply IH. lia.
Qed.

Lemma reach_same n tbs k v v' : base k v = base k v' → ∀ table, reach n tbs table v k = reach n tbs table v' k.
Proof.
  intros Hb. induction n as [|n IH]; intros table; [done|]. destruct (decide (S n < k)%nat) as [Hlt|Hge]; [by rewrite !reach_above|].
  cbn [reach]. destruct (Nat.eqb_spec (S n) k) as [|E]; [done|].
  destruct (tbs !! table); simpl; [|done]. rewrite (index_above k (S n) v v') by (done || lia). destruct (rd _ _); simpl; [|done]. by rewrite IH.
Qed.

Lemma reach_walk n tbs k v table' : ∀ table, reach n tbs table v k = Some table' → walk n tbs table v = walk k tbs table' v.
Proof.
  induction n as [|n IH]; intros table; cbn [reach]; destruct (Nat.eqb _ k) eqn:E; try done;
    try (apply Nat.eqb_eq in E; intros; by simplify_eq).
  cbn [walk]. destruct (tbs !! table); simpl; [|done]. destruct (rd _ _); simpl; [|done]. destruct (_ =? _); [|done]. apply IH.
Qed.

Lemma walk_le n tbs v k table' e : ∀ table, walk n tbs table v = Some (k, table', e) → (k ≤ n)%nat.
Proof.
  induction n as [|n IH]; intros table; cbn [walk]; destruct (tbs !! table); simpl; try done; destruct (rd _ _); simpl; try done;
    destruct (_ =? _); try done; try (intros; simplify_eq; lia). intros Hw. apply IH in Hw. lia.
Qed.

Lemma walk_reach n tbs v k table' e : ∀ table, walk n tbs table v = Some (k, table', e) → reach n tbs table v k = Some table'.
Proof.
  induction n as [|n IH]; intros table; cbn [walk reach]; destruct (tbs !! table); simpl; try done; destruct (rd _ _); simpl; try done;
    destruct (_ =? _); try done; try (intros; simplify_eq; by rewrite ?Nat.eqb_refl).
  intros Hw. pose proof (walk_le _ _ _ _ _ _ _ Hw). assert (Hne : (S n =? k)%nat = false) by lia. simpl in Hne. rewrite Hne. by apply IH.
Qed.

Lemma reach_step n tbs v m table1 t e : ∀ table, reach n tbs table v (S m) = Some table1 → tbs !! table1 = Some t → rd t (index (S m) v) = Some e →
  DT e = MMU_DT_TABLE → reach n tbs table v m = Some (address e).
Proof.
  induction n as [|n IH]; intros table Hr Ht He Hdt; [done|]. cbn [reach] in Hr. destruct (Nat.eqb_spec (S n) (S m)) as [[= ->]|Hne].
  - injection Hr as ->. cbn [reach]. destruct (Nat.eqb_spec (S m) m); [lia|]. rewrite Ht. cbn [mbind option_bind]. rewrite He. cbn [mbind option_bind].
    rewrite Hdt. apply reach_refl.
  - cbn [reach]. destruct (tbs !! table) as [t1|]; [|done]. cbn [mbind option_bind] in *. destruct (rd t1 _) as [e1|]; [|done]. cbn [mbind option_bind] in *.
    destruct (_ =? _); [|done]. destruct (Nat.eqb_spec (S n) m) as [<-|]; [by rewrite reach_above in Hr by lia|]. eauto.
Qed.

Lemma reach_agree path tbs tbs' r v k n : paths_ok path tbs → (∀ table, is_Some (path !! table) → tbs' !! table = tbs !! table) →
  ∀ table, path !! table = Some (r, n, base n v) → reach n tbs' table v k = reach n tbs table v k.
Proof.
  intros Hok Hag. induction n as [|n IH]; intros table Hp; cbn [reach]; destruct (Nat.eqb _ k); [done..|]. rewrite (Hag table) by eauto.
  destruct (Hok _ _ _ _ Hp) as (_ & _ & t & Ht & Hlen & Hent). rewrite Ht. simpl. destruct (rd_index t (S n) v Hlen) as [e He].
  rewrite He. simpl. destruct (Z.eqb_spec (DT e) MMU_DT_TABLE) as [Et|Et]; [|done].
  destruct (Hent _ _ He) as (_ & [[? ?]|[?|(_ & n' & [= <-] & Hc)]]); [dt..|]. rewrite <- base_below in Hc. by apply IH.
Qed.

Lemma reach_path path tbs r v k n : paths_ok path tbs → ∀ table table', path !! table = Some (r, n, base n v) →
  reach n tbs table v k = Some table' → path !! table' = Some (r, k, base k v) ∧ (k ≤ n)%nat.
Proof.
  intros Hok. induction n as [|n IH]; intros table table' Hp; cbn [reach]; destruct (Nat.eqb _ k) eqn:E;
    try (apply Nat.eqb_eq in E; intros; simplify_eq; split; [done|lia]); [done|].
  destruct (Hok _ _ _ _ Hp) as (_ & _ & t & Ht & Hlen & Hent). rewrite Ht. simpl. destruct (rd_index t (S n) v Hlen) as [e He].
  rewrite He. simpl. destruct (Z.eqb_spec (DT e) MMU_DT_TABLE) as [Et|Et]; [|done].
  destruct (Hent _ _ He) as (_ & [[? ?]|[?|(_ & n' & [= <-] & Hc)]]); [dt..|]. rewrite <- base_below in Hc.
  intros Hr. destruct (IH _ _ Hc Hr). split; [done|lia].
Qed.

(** ** One entry changes *)
Section update.
Context (path : gmap Z (Z * nat * Z)) (tbs : gmap Z (list Z)) (table0 r0 : Z) (n0 : nat) (b0 : Z) (t0 : list Z) (i0 e0 : Z).
Hypothesis Hok : paths_ok path tbs.
Hypothesis Hp0 : path !! table0 = Some (r0, n0, b0).
Hypothesis Ht0 : tbs !! table0 = Some t0.
Hypothesis Hi0 : 0 ≤ i0 < zlen t0.
Definition updated : gmap Z (list Z) := <[table0 := <[Z.to_nat i0 := e0]> t0]> tbs.

Lemma updated_here : updated !! table0 = Some (<[Z.to_nat i0 := e0]> t0).
Proof. apply lookup_insert_eq. Qed.
Lemma updated_other table : table ≠ table0 → updated !! table = tbs !! table.
Proof. intros Hne. by apply lookup_insert_ne. Qed.

Lemma rd_updated i : rd (<[Z.to_nat i0 := e0]> t0) i = if i =? i0 then Some e0 else rd t0 i.
Proof.
  unfold rd. destruct (Z.ltb_spec i 0); [destruct (Z.eqb_spec i i0); [lia|done]|].
  destruct (Z.eqb_spec i i0) as [->|Hne]; [|apply list_lookup_insert_ne; lia]. apply list_lookup_insert_eq. lia.
Qed.

Lemma reach_updated r v n k : (n0 ≤ k)%nat → ∀ table, path !! table = Some (r, n, base n v) →
  reach n updated table v k = reach n tbs table v k.
Proof.
  intros Hk. induction n as [|n IH]; intros table Hp; cbn [reach]; destruct (Nat.eqb _ k) eqn:E; try done.
  destruct (decide (S n < k)%nat) as [Hlt|Hge].
  - destruct (updated !! table), (tbs !! table); simpl; repeat (destruct (rd _ _); simpl); repeat (destruct (_ =? _)); rewrite ?reach_above by lia; done.
  - rewrite updated_other by (intros ->; rewrite Hp0 in Hp; simplify_eq; lia).
    destruct (Hok _ _ _ _ Hp) as (_ & _ & t & Ht & Hlen & Hent). rewrite Ht. simpl. destruct (rd_index t (S n) v Hlen) as [e He].
    rewrite He. simpl. destruct (Z.eqb_spec (DT e) MMU_DT_TABLE) as [Et|Et]; [|done].
    destruct (Hent _ _ He) as (_ & [[? ?]|[?|(_ & n' & [= <-] & Hc)]]); [dt..|]. rewrite <- base_below in Hc. by apply IH.
Qed.

Lemma updated_rd r v n table t : ¬ (r = r0 ∧ base n0 v = b0 ∧ index n0 v = i0) → path !! table = Some (r, n, base n v) →
  tbs !! table = Some t → ∃ t', updated !! table = Some t' ∧ rd t' (index n v) = rd t (index n v).
Proof.
  intros Hnot Hp Ht. destruct (decide (table = table0)) as [->|Hne]; [|exists t; by rewrite updated_other]. eexists. split; [apply updated_here|].
  rewrite rd_updated. assert (t = t0 ∧ r = r0 ∧ n = n0 ∧ base n v = b0) as (-> & -> & -> & Hb) by (split_and!; congruence).
  destruct (Z.eqb_spec (index n0 v) i0); [tauto|done].
Qed.

(** The walk of an address that does not come to the entry stays the same. *)
Lemma walk_frame r v n : ¬ (r = r0 ∧ base n0 v = b0 ∧ index n0 v = i0) → ∀ table, path !! table = Some (r, n, base n v) →
  walk n updated table v = walk n tbs table v.
Proof.
  intros Hnot. induction n as [|n IH]; intros table Hp; destruct (Hok _ _ _ _ Hp) as (_ & _ & t & Ht & Hlen & Hent);
    destruct (updated_rd _ _ _ _ _ Hnot Hp Ht) as (t' & Ht' & Hrd); cbn [walk]; rewrite Ht', Ht; cbn [mbind option_bind]; rewrite Hrd; [done|].
  destruct (rd_index t (S n) v Hlen) as [e He]; rewrite He; cbn [mbind option_bind].
  destruct (Z.eqb_spec (DT e) MMU_DT_TABLE) as [Et|Et]; [|done].
  destruct (Hent _ _ He) as (_ & [[? ?]|[?|(_ & n' & [= <-] & Hc)]]); [dt..|]. rewrite <- base_below in Hc. by apply IH.
Qed.

Lemma updated_paths : entry_ok path r0 n0 b0 i0 e0 → paths_ok path updated.
Proof.
  intros He table r n b Hp. destruct (Hok _ _ _ _ Hp) as (Hr & Ha & t & Ht & Hlen & Hent). split_and!; try done; try lia.
  destruct (decide (table = table0)) as [->|Hne]; [|exists t; by rewrite updated_other].
  assert (t = t0 ∧ r = r0 ∧ n = n0 ∧ b = b0) as (-> & -> & -> & ->) by (split_and!; congruence).
  eexists. split; [apply updated_here|]. split; [by rewrite length_insert|]. intros i e. rewrite rd_updated. destruct (Z.eqb_spec i i0) as [->|Hi]; [|apply Hent]. by intros [= <-].
Qed.
End update.

Lemma root_path path r v : is_root path r → 0 ≤ v < space → path !! r = Some (r, (levels - 1)%nat, base (levels - 1) v).
Proof. intros Hr Hv. by rewrite (base_top v Hv). Qed.

Lemma walk_entry k tbs table t e v : tbs !! table = Some t → rd t (index k v) = Some e → DT e ≠ MMU_DT_TABLE → walk k tbs table v = Some (k, table, e).
Proof. intros Ht He Hne. destruct k; cbn [walk]; rewrite Ht; cbn [mbind option_bind]; rewrite He; cbn [mbind option_bind]; destruct (Z.eqb_spec (DT e) MMU_DT_TABLE); done. Qed.

(** What an entry that leads to no table does. *)
Lemma set_effect path tbs r0 v n0 table0 t0 e' :
  paths_ok path tbs → is_root path r0 → 0 ≤ v < space → reach (levels - 1) tbs r0 v n0 = Some table0 → tbs !! table0 = Some t0 →
  entry_ok path r0 n0 (base n0 v) (index n0 v) e' → DT e' ≠ MMU_DT_TABLE →
  let tbs' := updated tbs table0 t0 (index n0 v) e' in
  paths_ok path tbs' ∧ ∀ r a, is_root path r → 0 ≤ a < space →
    walk (levels - 1) tbs' r a =
      if bool_decide (r = r0 ∧ a / chunk n0 = v / chunk n0) then Some (n0, table0, e') else walk (levels - 1) tbs r a.
Proof.
  intros Hok Hr0 Hv Hre Ht0 Hent Hdt tbs'. destruct (reach_path _ _ _ _ _ _ Hok _ _ (root_path _ _ _ Hr0 Hv) Hre) as [Hp0 Hle].
  assert (Hi0 : 0 ≤ index n0 v < zlen t0).
  { destruct (Hok _ _ _ _ Hp0) as (_ & _ & t & Ht & Hlen & _). simplify_eq. rewrite Hlen. apply index_range. }
  split; [by eapply updated_paths|]. intros r a Hr Ha. case_bool_decide as Hc.
  - destruct Hc as [-> [Hb Hi]%same_chunk].
    assert (Hra : reach (levels - 1) tbs' r0 a n0 = Some table0).
    { unfold tbs'. rewrite (reach_updated _ _ _ _ _ _ _ _ _ Hok Hp0 r0) by (done || by apply root_path). by rewrite (reach_same _ _ _ a v). }
    rewrite (reach_walk _ _ _ _ _ _ Hra). eapply walk_entry; [apply updated_here| |done]. rewrite rd_updated by done. by rewrite Hi, Z.eqb_refl.
  - eapply walk_frame; [done..| |by apply root_path]. intros (-> & Hb & Hi). apply Hc. split; [done|]. by apply same_chunk.
Qed.

Lemma entry_ok_mono path path' r n b i e : path ⊆ path' → entry_ok path r n b i e → entry_ok path' r n b i e.
Proof.
  intros Hsub (Hr & [?|[?|(Ht & n' & Hn & Hc)]]); (split; [done|]); [tauto..|]. right. right. split; [done|]. exists n'. split; [done|].
  by eapply lookup_weaken.
Qed.

Lemma desc_dt a s : 0 ≤ a < 2 ^ 32 → a mod page_size = 0 → 0 ≤ s < page_size → DT (MMU_TABLE_DESCRIPTOR a s) = Z.land s 3.
Proof. intros. unfold MMU_DT. by destruct (desc_ok a s) as (_ & -> & _). Qed.

Lemma dt_zero : DT 0 = MMU_DT_INVALID.
Proof. unfold MMU_DT. rewrite status_eq. pose proof page_size_range. by rewrite Z.mod_0_l by lia. Qed.
Lemma zero_entry path r n b i : entry_ok path r n b i 0.
Proof. split; [lia|]. left. split; [apply dt_zero|]. rewrite address_eq. pose proof page_size_range. by rewrite Z.div_0_l by lia. Qed.

Lemma new_table_paths path tbs new r m b : paths_ok path tbs → path !! new = None → 0 < new < 2 ^ 32 → new mod page_size = 0 →
  paths_ok (<[new := (r, m, b)]> path) (<[new := replicate (Z.to_nat (MMU_TABLE_SIZE PAGE_ADDR_BITS)) 0]> tbs).
Proof.
  intros Hok Hnew Hr Hm table r' n b' Hp. destruct (decide (table = new)) as [->|Hne].
  - rewrite lookup_insert_eq in Hp. injection Hp as <- <- <-. split; [done|]. split; [done|]. rewrite lookup_insert_eq, table_size. eexists. split; [done|].
    split; [rewrite length_replicate; pose proof w_range; assert (0 < 2 ^ w) by (apply Z.pow_pos_nonneg; lia); lia|].
    intros i e [_ [-> _]%lookup_replicate]%rd_some. apply zero_entry.
  - rewrite lookup_insert_ne in Hp by done. destruct (Hok _ _ _ _ Hp) as (H1 & H2 & t & Ht & Hl & Hent). split; [done|]. split; [done|].
    rewrite lookup_insert_ne by done. exists t. split; [done|]. split; [done|]. intros i e He. eapply entry_ok_mono; [|by apply Hent]. by apply insert_subseteq.
Qed.

(** What a new table in an entry that led nowhere does. *)
Lemma grow_effect path tbs r0 v m table0 t0 e new :
  paths_ok path tbs → is_root path r0 → 0 ≤ v < space → reach (levels - 1) tbs r0 v (S m) = Some table0 → tbs !! table0 = Some t0 →
  rd t0 (index (S m) v) = Some e → DT e = MMU_DT_INVALID → path !! new = None → 0 < new < 2 ^ 32 → new mod page_size = 0 →
  let tbs' := updated (<[new := replicate (Z.to_nat (MMU_TABLE_SIZE PAGE_ADDR_BITS)) 0]> tbs) table0 t0 (index (S m) v)
                (MMU_TABLE_DESCRIPTOR new MMU_DT_TABLE) in
  let path' := <[new := (r0, m, base m v)]> path in
  paths_ok path' tbs' ∧ reach (levels - 1) tbs' r0 v m = Some new ∧
  ∀ r a, is_root path r → 0 ≤ a < space →
    walk (levels - 1) tbs' r a =
      if bool_decide (r = r0 ∧ a / chunk (S m) = v / chunk (S m)) then Some (m, new, 0) else walk (levels - 1) tbs r a.
Proof.
  intros Hok Hr0 Hv Hre Ht0 He Hdt Hnew Hrange Hal. set (zs := replicate _ 0). set (e' := MMU_TABLE_DESCRIPTOR new _).
  intros tbs' path'. pose proof page_size_range as Hps. pose proof (new_table_paths path tbs new r0 m (base m v) Hok Hnew Hrange Hal) as Hok1. fold zs path' in Hok1.
  destruct (reach_path _ _ _ _ _ _ Hok _ _ (root_path _ _ _ Hr0 Hv) Hre) as [Hp0 Hle].
  assert (Hne : table0 ≠ new) by congruence. assert (Hsub : path ⊆ path') by (by apply insert_subseteq).
  assert (Hr : ∀ r, is_root path r → is_root path' r) by (intros r Hr; by eapply lookup_weaken).
  assert (Hp0' : path' !! table0 = Some (r0, S m, base (S m) v)) by (by eapply lookup_weaken).
  assert (Ht0' : <[new := zs]> tbs !! table0 = Some t0) by (by rewrite lookup_insert_ne).
  assert (Hi0 : 0 ≤ index (S m) v < zlen t0).
  { destruct (Hok _ _ _ _ Hp0) as (_ & _ & t & Ht & Hlen & _). simplify_eq. rewrite Hlen. apply index_range. }
  assert (Hde : DT e' = MMU_DT_TABLE) by (unfold e'; rewrite desc_dt by (done || lia || dt); done).
  assert (Hae : address e' = new) by (unfold e'; destruct (desc_ok new MMU_DT_TABLE) as (-> & _); [lia|done|dt|done]).
  assert (Hag : ∀ table, is_Some (path !! table) → <[new := zs]> tbs !! table = tbs !! table).
  { intros table [x Hx]. apply lookup_insert_ne. congruence. }
  assert (Hhit : ∀ a, 0 ≤ a < space → a / chunk (S m) = v / chunk (S m) → reach (levels - 1) tbs' r0 a m = Some new).
  { intros a Ha [Hb Hi]%same_chunk.
    assert (Hra : reach (levels - 1) tbs' r0 a (S m) = Some table0).
    { unfold tbs'. rewrite (reach_updated _ _ _ _ _ _ _ _ _ Hok1 Hp0' r0) by (done || (apply root_path; auto)).
      rewrite (reach_same _ _ _ a v Hb), (reach_agree path tbs) with (r := r0); [done..|by apply root_path]. }
    rewrite <- Hae. eapply reach_step; [exact Hra|apply updated_here| |done]. rewrite rd_updated by done. by rewrite Hi, Z.eqb_refl. }
  assert (Hok' : paths_ok path' tbs').
  { eapply updated_paths; try done. split; [apply desc_ok; [lia|done|dt]|]. right. right. split; [done|]. exists m. split; [done|].
    rewrite Hae, <- base_below. apply lookup_insert_eq. }
  split_and!; [done|by apply Hhit|]. intros r a Hra Ha. case_bool_decide as Hc.
  - destruct Hc as [-> Hc]. rewrite (reach_walk _ _ _ _ _ _ (Hhit a Ha Hc)).
    eapply (walk_entry m tbs' new zs 0); [unfold tbs'; rewrite updated_other by done; apply lookup_insert_eq| |].
    + destruct (rd_index zs m a) as [x Hx]; [|rewrite Hx; apply rd_some in Hx as [_ [-> _]%lookup_replicate]; done].
      destruct (Hok1 new r0 m (base m v)) as (_ & _ & t & Ht & Hlen & _); [apply lookup_insert_eq|]. rewrite lookup_insert_eq in Ht. by simplify_eq.
    + rewrite dt_zero. dt.
  - trans (walk (levels - 1) (<[new := zs]> tbs) r a); [|eapply walk_agree; [done..|by apply root_path]].
    eapply (walk_frame path'); [done..| |by apply root_path; auto].
    intros (-> & Hb & Hi). apply Hc. split; [done|]. by apply same_chunk.
Qed.
End walk.
