(* ===== verification/Mmuops.v ===== *)
(** * Mmuops: what the operations on page tables do to the mappings

    A mapping is the size and the descriptor that the walk of an address ends
    at.  mmu_table_map adds or removes the mappings of a range, and leaves all
    others, and those of other address spaces, alone. *)

From S2P Require Import Prelude Queue Result Bits Pages Mmu Mmuinv.

Section ops.
Context {P : Type} `{PagePool P} (PAGE_ADDR_BITS : Z) `{!PoolLaws P PAGE_ADDR_BITS}.
Hypothesis page_bits : 8 ≤ PAGE_ADDR_BITS ≤ 16.
Implicit Types st : mmu P.
Implicit Types path : gmap Z (Z * nat * Z).
Abbreviation page_size := (PAGE_SIZE PAGE_ADDR_BITS).
Abbreviation levels := (Z.to_nat (MMU_TABLE_LEVELS PAGE_ADDR_BITS)).
Abbreviation address := (MMU_TABLE_ADDRESS PAGE_ADDR_BITS).
Abbreviation status := (MMU_TABLE_STATUS PAGE_ADDR_BITS).
Abbreviation DT := (MMU_DT PAGE_ADDR_BITS).
Abbreviation bits := (bits PAGE_ADDR_BITS).
Abbreviation chunk := (chunk PAGE_ADDR_BITS).
Abbreviation space := (space PAGE_ADDR_BITS).
Abbreviation index := (index PAGE_ADDR_BITS).
Abbreviation base := (base PAGE_ADDR_BITS).
Abbreviation walk := (walk PAGE_ADDR_BITS).
Abbreviation reach := (reach PAGE_ADDR_BITS).
Abbreviation is_root := (is_root PAGE_ADDR_BITS).

Definition leaf (w : option (nat * Z * Z)) : option (nat * Z) :=
  '(n, _, e) ← w; if DT e =? MMU_DT_PAGE_DESCRIPTOR then Some (n, e) else None.
(** The page of an address: the level of its descriptor, and the descriptor. *)
Definition mapping st (root a : Z) : option (nat * Z) := leaf (walk (levels - 1) (tables st) root a).

Definition mmu_inv path st : Prop :=
  pool_inv (pool st) ∧ paths_ok PAGE_ADDR_BITS path (tables st) ∧ ∀ table, is_Some (path !! table) → 0 < pool_refs (pool st) table.

(** [st'] has the mappings of [st], but for the entries of [root] in [range]. *)
Definition only path st st' (root : Z) (range : Z → Prop) : Prop :=
  ∀ r a, is_root path r → 0 ≤ a < space → ¬ (r = root ∧ range a) → mapping st' r a = mapping st r a.
Definition same path st st' : Prop := ∀ r a, is_root path r → 0 ≤ a < space → mapping st' r a = mapping st r a.
(** Pages that had references keep them. *)
Definition keeps st st' : Prop :=
  ∀ x, x mod page_size = 0 → pool_refs (pool st) x ≠ 0 → pool_refs (pool st') x = pool_refs (pool st) x.

(** New tables are on the way of [root] to [v], in pages that had no
    references; the references of all other pages are as they were. *)
Definition grown (root v : Z) path path' st st' : Prop :=
  (∀ table x, path' !! table = Some x → path !! table = Some x ∨ pool_refs (pool st) table = 0 ∧ ∃ n, x = (root, n, base n v)) ∧
  (∀ x, x mod page_size = 0 → path' !! x = path !! x → pool_refs (pool st') x = pool_refs (pool st) x).

(** The entry at which the walk of an address ends. *)
Definition ends_at st (root v : Z) (n : nat) (table e : Z) : Prop :=
  (n < levels)%nat ∧ reach (levels - 1) (tables st) root v n = Some table ∧ DT e ≠ MMU_DT_TABLE ∧
  ∃ t, tables st !! table = Some t ∧ rd t (index n v) = Some e.

Definition covers (n : nat) (v length : Z) : Prop := v mod chunk n = 0 ∧ chunk n ≤ length.

Lemma covers_ok n v length :
  (Z.land v (Z.shiftl 1 (bits n) - 1) =? 0) && (Z.shiftl 1 (bits n) <=? length) = bool_decide (covers n v length).
Proof.
  assert (0 ≤ bits n) by (unfold Mmuinv.bits; pose proof (w_range PAGE_ADDR_BITS page_bits); nia).
  rewrite Z.shiftl_mul_pow2, Z.mul_1_l, Z.sub_1_r, <- Z.ones_equiv, Z.land_ones by lia. change (2 ^ bits n) with (chunk n).
  unfold covers. case_bool_decide; lia.
Qed.

Lemma ends_mapping st root v n table e : ends_at st root v n table e →
  walk (levels - 1) (tables st) root v = Some (n, table, e).
Proof. intros (_ & Hr & Hdt & t & Ht & He). rewrite (reach_walk _ _ _ _ _ _ _ Hr). by eapply walk_entry. Qed.

Definition get_table_post path st root v length (any create : bool) (k : Z) : mmu P * Z * Z * Z → Prop := λ '(st', err, table, b),
  ∃ path', path ⊆ path' ∧ mmu_inv path' st' ∧ same path st st' ∧ keeps st st' ∧ grown root v path path' st st' ∧ (∀ f, pool_room (pool st) f - k ≤ pool_room (pool st') f) ∧
  ((∃ n e, err = 0 ∧ b = bits n ∧ ends_at st' root v n table e ∧
      (DT e = MMU_DT_PAGE_DESCRIPTOR ∧ (covers n v length ∨ any = true) ∨
       DT e = MMU_DT_INVALID ∧ (n = 0%nat ∨ covers n v length ∧ any = true))) ∨
   (err = EEXIST ∧ any = false ∧ ∃ n e, mapping st root v = Some (n, e) ∧ ¬ covers n v length) ∨
   (err = ENOENT ∧ create = false ∧ mapping st root v = None)).

Lemma reach_entry path st root v n table : mmu_inv path st → is_root path root → 0 ≤ v < space →
  reach (levels - 1) (tables st) root v n = Some table →
  ∃ t e, tables st !! table = Some t ∧ zlen t = 2 ^ MMU_TABLE_ADDR_BITS PAGE_ADDR_BITS ∧ rd t (index n v) = Some e ∧ (n < levels)%nat ∧
    entry_ok PAGE_ADDR_BITS path root n (base n v) (index n v) e ∧ path !! table = Some (root, n, base n v).
Proof.
  intros (_ & Hok & _) Hroot Hv Hre. destruct (reach_path _ page_bits _ _ _ _ _ _ Hok _ _ (root_path _ page_bits _ _ _ Hroot Hv) Hre) as [Hp Hle].
  destruct (Hok _ _ _ _ Hp) as (_ & _ & t & Ht & Hlen & Hent). destruct (rd_index _ page_bits t n v Hlen) as [e He].
  exists t, e. pose proof (levels_pos _ page_bits). split_and!; auto. lia.
Qed.

Lemma same_refl path st : same path st st.
Proof. done. Qed.
Lemma keeps_refl st : keeps st st.
Proof. done. Qed.

Lemma grown_refl root v path st : grown root v path path st st.
Proof. split; [by left|done]. Qed.

Lemma found path st root v length any create n table e k : mmu_inv path st → ends_at st root v n table e → 0 ≤ k →
  (DT e = MMU_DT_PAGE_DESCRIPTOR ∧ (covers n v length ∨ any = true) ∨ DT e = MMU_DT_INVALID ∧ (n = 0%nat ∨ covers n v length ∧ any = true)) →
  get_table_post path st root v length any create k (st, 0, table, bits n).
Proof. intros Hinv He Hk Hc. exists path. split_and!; try done; [apply grown_refl|lia|]. left. by exists n, e. Qed.

Lemma bits_leb n : (bits n <=? PAGE_ADDR_BITS) = bool_decide (n = 0%nat).
Proof. unfold Mmuinv.bits. pose proof (w_range _ page_bits). case_bool_decide; nia. Qed.

Lemma post_compose path path1 st st1 root v length any create k1 k2 x : path ⊆ path1 → same path st st1 → keeps st st1 →
  (∀ f, pool_room (pool st) f - k1 ≤ pool_room (pool st1) f) → grown root v path path1 st st1 → is_root path root → 0 ≤ v < space →
  get_table_post path1 st1 root v length any create k2 x → get_table_post path st root v length any create (k1 + k2) x.
Proof.
  destruct x as [[[st2 err] table] b]. intros Hsub Hsame Hkeep Hroom Hfr Hroot Hv (path2 & Hsub2 & Hinv2 & Hsame2 & Hkeep2 & Hfr2 & Hroom2 & Hc).
  exists path2. split_and!; try done.
  - by etrans.
  - intros r a Hr Ha. rewrite Hsame2; [by apply Hsame|by eapply lookup_weaken|done].
  - intros x Hx Hne. rewrite Hkeep2; [by apply Hkeep|done|]. by rewrite Hkeep.
  - destruct Hfr as [Hfr Hsm], Hfr2 as [Hfr2 Hsm2]. split.
    + intros tb x Htb. destruct (Hfr2 tb x Htb) as [?|[Hz Hx]]; [by apply Hfr|]. right. split; [|done].
      destruct (Z.eq_dec (pool_refs (pool st) tb) 0) as [|Hne]; [done|].
      rewrite <- (Hkeep tb); [done| |done]. destruct x as [[r1 n1] b1]. by apply (proj1 (proj2 Hinv2) _ _ _ _ Htb).
    + intros x Hx E. assert (E1 : path1 !! x = path !! x).
      { destruct (path !! x) eqn:Ex; [by apply (lookup_weaken path)|]. destruct (path1 !! x) eqn:Ex1; [|done]. pose proof (lookup_weaken _ _ _ _ Ex1 Hsub2). congruence. }
      rewrite Hsm2; [by apply Hsm|done|congruence].
  - intros f. specialize (Hroom f). specialize (Hroom2 f). lia.
  - by rewrite <- (Hsame root v Hroot Hv).
Qed.

(** A table is made where there was none. *)
Lemma make_table {A} path st root v m table t e (K : mmu P → Z → res A) Q : mmu_inv path st → is_root path root → 0 ≤ v < space →
  reach (levels - 1) (tables st) root v (S m) = Some table → tables st !! table = Some t → rd t (index (S m) v) = Some e →
  DT e = MMU_DT_INVALID → 0 < pool_room (pool st) PAGE_F_USER →
  (∀ path' st' new, path ⊆ path' → mmu_inv path' st' → same path st st' → keeps st st' →
    (∀ f, pool_room (pool st) f - 1 ≤ pool_room (pool st') f) → grown root v path path' st st' → reach (levels - 1) (tables st') root v m = Some new →
    address (MMU_TABLE_DESCRIPTOR new MMU_DT_TABLE) = new → wp (K st' new) False Q) →
  wp ('(p, next_table) ← pool_alloc (pool st) page_size PAGE_F_USER;
      st ← init_mmu_table PAGE_ADDR_BITS (set_pool st p) next_table;
      st ← set_entry st table (index (S m) v) (MMU_TABLE_DESCRIPTOR next_table MMU_DT_TABLE); K st next_table) False Q.
Proof.
  intros Hinv Hroot Hv Hre Ht He Hdt Hroom HK. destruct (reach_entry _ _ _ _ _ _ Hinv Hroot Hv Hre) as (t' & e' & Ht' & Hlen & _ & _ & _ & Hp). simplify_eq.
  destruct Hinv as (Hpool & Hok & Href). wp_step (pool_alloc_law (pool st) PAGE_F_USER Hpool Hroom).
  intros [p new] (Hp' & Hr & Hal & H0 & Hrefs & Hrm).
  assert (Hnew : path !! new = None). { destruct (path !! new) eqn:E; [|done]. specialize (Href new ltac:(eauto)). lia. }
  unfold init_mmu_table. destruct (Z.eqb_spec new NULL) as [E|E]; [unfold NULL in E; lia|]. simpl. unfold set_entry. simpl.
  rewrite lookup_insert_ne, Ht by congruence. simpl. rewrite wr_in_range by (rewrite Hlen; by apply index_range). simpl.
  destruct (grow_effect _ page_bits _ _ _ _ _ _ _ _ _ Hok Hroot Hv Hre Ht He Hdt Hnew Hr Hal) as (Hok' & Hre' & Hwalk).
  assert (Hend : ends_at st root v (S m) table e).
  { destruct (reach_path _ page_bits _ _ _ _ _ _ Hok _ _ (root_path _ page_bits _ _ _ Hroot Hv) Hre) as [_ Hle].
    pose proof (levels_pos _ page_bits). split; [lia|]. split; [done|]. split; [dt|eauto]. }
  apply (HK (<[new := (root, m, base m v)]> path)); [by apply insert_subseteq| | | |done| |done|].
  - split; [done|]. split; [done|]. intros tb Htb. simpl.
    destruct (decide (tb = new)) as [->|Hne]; [rewrite Hrefs, Z.eqb_refl by done; lia|]. rewrite lookup_insert_ne in Htb by done.
    destruct Htb as [[[r1 n1] b1] Htb]. destruct (Hok _ _ _ _ Htb) as (_ & Hal1 & _). rewrite Hrefs by done. destruct (Z.eqb_spec tb new); [done|]. by apply Href; eauto.
  - intros r a Hra Ha. unfold mapping. simpl. rewrite Hwalk by done. case_bool_decide as Hc; [|done]. unfold leaf. cbn [mbind option_bind]. rewrite (dt_zero _ page_bits). cbn [Z.eqb MMU_DT_INVALID MMU_DT_PAGE_DESCRIPTOR].
    destruct Hc as [-> [Hb Hi]%(same_chunk _ page_bits)]. rewrite (reach_same _ page_bits _ _ _ v a) in Hre by done. rewrite (reach_walk _ _ _ _ _ _ _ Hre).
    erewrite walk_entry; [|done|by rewrite Hi|dt]. simpl. by rewrite Hdt.
  - intros x Hx Hne. simpl. rewrite Hrefs by done. destruct (Z.eqb_spec x new); [congruence|done].
  - split.
    + intros tb x Htb. destruct (decide (tb = new)) as [->|Hne]; [|rewrite lookup_insert_ne in Htb by done; by left].
      rewrite lookup_insert_eq in Htb. right. split; [done|]. exists m. congruence.
    + intros x Hx Eq. simpl. rewrite Hrefs by done. destruct (Z.eqb_spec x new) as [->|]; [|done]. by rewrite lookup_insert_eq, Hnew in Eq.
  - pose proof (page_size_range _ page_bits). apply (desc_ok _ page_bits); [lia|done|dt].
Qed.

(** get_table goes into the tables that there are. *)
Lemma get_table_loop_ok root v length flags n : ∀ path st table, mmu_inv path st → is_root path root → 0 ≤ v < space →
  reach (levels - 1) (tables st) root v n = Some table →
  let any := negb (Z.land flags GET_TABLE_RETURN_ANY_SIZE =? 0) in
  let create := negb (Z.land flags GET_TABLE_CREATE_IF_NEEDED =? 0) in
  (create = true → Z.of_nat n ≤ pool_room (pool st) PAGE_F_USER) →
  wp (get_table_loop PAGE_ADDR_BITS (S n) st table v length flags (bits n)) False (get_table_post path st root v length any create (Z.of_nat n)).
Proof.
  induction n as [n IH] using lt_wf_ind. intros path st table Hinv Hroot Hv Hre any create Hroom. cbn [get_table_loop].
  destruct (reach_entry _ _ _ _ _ _ Hinv Hroot Hv Hre) as (t & e & Ht & Hlen & He & Hn & Hee & Hp).
  rewrite covers_ok, bits_leb, table_index by done. fold any. unfold entry. rewrite Ht. cbn [lift mbind]. simpl. rewrite He. simpl.
  assert (Hend : DT e ≠ MMU_DT_TABLE → ends_at st root v n table e) by (intros; split_and!; eauto).
  destruct (Z.eqb_spec (DT e) MMU_DT_PAGE_DESCRIPTOR) as [Epg|Epg].
  { specialize (Hend ltac:(dt)). destruct (bool_decide (covers n v length)) eqn:Ec, any eqn:Ea; simpl.
    1-3: apply (found path st root v length _ _ n table e); [done|done|lia|]; left; split; [done|]; case_bool_decide; tauto.
    exists path. split_and!; try done; [apply grown_refl|lia|]. right. left. split; [done|]. split; [done|]. exists n, e.
    unfold mapping. rewrite (ends_mapping _ _ _ _ _ _ Hend). simpl. rewrite Epg. split; [done|]. by case_bool_decide. }
  destruct (Z.eqb_spec (DT e) MMU_DT_INVALID) as [Einv|Einv].
  { specialize (Hend ltac:(dt)). destruct (bool_decide (n = 0%nat) || bool_decide (covers n v length) && any) eqn:Ec; simpl.
    { apply (found path st root v length _ _ n table e); [done|done|lia|]. right. split; [done|]. case_bool_decide; [tauto|]. simpl in Ec.
      apply andb_true_iff in Ec as [Ec%bool_decide_eq_true ->]. tauto. }
    unfold create in *. destruct (Z.land flags GET_TABLE_CREATE_IF_NEEDED =? 0) eqn:Ecr; simpl.
    { exists path. split_and!; try done; [apply grown_refl|lia|]. right. right. split_and!; try done. unfold mapping. rewrite (ends_mapping _ _ _ _ _ _ Hend). simpl.
      by rewrite Einv. }
    destruct n as [|m]; [done|]. specialize (Hroom eq_refl).
    eapply (make_table path st root v m table t e (λ st1 new, get_table_loop PAGE_ADDR_BITS (S m) st1
      (address (MMU_TABLE_DESCRIPTOR new MMU_DT_TABLE)) v length flags (bits (S m) - MMU_TABLE_ADDR_BITS PAGE_ADDR_BITS))); try done; [lia|].
    intros path1 st1 new Hsub Hinv1 Hsame1 Hkeep1 Hroom1 Hfr1 Hre1 ->. rewrite bits_S by done. replace (bits m + _ - _) with (bits m) by lia.
    eapply (wp_mono _ False); [|done|intros x; replace (Z.of_nat (S m)) with (1 + Z.of_nat m) by lia; by apply (post_compose path path1 st st1)].
    pose proof (IH m ltac:(lia) path1 st1 new) as IHm. cbn beta zeta in IHm. fold any in IHm. apply IHm; try done.
    + by eapply lookup_weaken.
    + intros _. specialize (Hroom1 PAGE_F_USER). lia. }
  destruct Hee as (_ & [[? ?]|[?|(Edt & m & Hm & Hc)]]); [dt..|]. subst n. rewrite bits_S by done. replace (bits m + _ - _) with (bits m) by lia.
  eapply (wp_mono _ False); [eapply (IH m); [lia|done..| |]|done|].
  - by eapply reach_step.
  - intros Hcr. specialize (Hroom Hcr). lia.
  - intros x. replace (Z.of_nat (S m)) with (1 + Z.of_nat m) by lia. apply (post_compose path path st st); try done; [lia|apply grown_refl].
Qed.

Lemma get_table_ok path st root v length flags : mmu_inv path st → is_root path root → 0 ≤ v < space →
  let any := negb (Z.land flags GET_TABLE_RETURN_ANY_SIZE =? 0) in
  let create := negb (Z.land flags GET_TABLE_CREATE_IF_NEEDED =? 0) in
  (create = true → Z.of_nat levels - 1 ≤ pool_room (pool st) PAGE_F_USER) →
  wp (get_table PAGE_ADDR_BITS st root v length flags) False (get_table_post path st root v length any create (Z.of_nat levels - 1)).
Proof.
  intros Hinv Hroot Hv any create Hroom. unfold get_table. pose proof (levels_pos _ page_bits).
  rewrite top_bits_ok by done. replace levels with (S (levels - 1)) at 1 by lia. replace (Z.of_nat levels - 1) with (Z.of_nat (levels - 1)) in * by lia.
  apply get_table_loop_ok; try done. apply reach_refl.
Qed.

(** A new root maps nothing. *)
Lemma table_alloc_ok path st : mmu_inv path st → 0 < pool_room (pool st) PAGE_F_SUPERVISOR →
  wp (mmu_table_alloc PAGE_ADDR_BITS st) False (λ '(st', root), ∃ path', path ⊆ path' ∧ mmu_inv path' st' ∧ is_root path' root ∧ same path st st' ∧
    keeps st st' ∧ (∀ f, pool_room (pool st) f - 1 ≤ pool_room (pool st') f) ∧ ∀ a, mapping st' root a = None).
Proof.
  intros (Hpool & Hok & Href) Hroom. unfold mmu_table_alloc. wp_step (pool_alloc_law (pool st) PAGE_F_SUPERVISOR Hpool Hroom).
  intros [p new] (Hp' & Hr & Hal & Hz & Hrefs & Hrm). unfold init_mmu_table. destruct (Z.eqb_spec new NULL) as [E|E]; [unfold NULL in E; lia|]. res_simpl. cbn [wp].
  assert (Hnew : path !! new = None). { destruct (path !! new) eqn:E'; [|done]. specialize (Href new ltac:(eauto)). lia. }
  pose proof (new_table_paths _ page_bits path (tables st) new new (levels - 1) 0 Hok Hnew Hr Hal) as Hok'.
  exists (<[new := (new, (levels - 1)%nat, 0)]> path). split; [by apply insert_subseteq|]. split_and!; [|apply lookup_insert_eq| | |done|].
  - split; [done|]. split; [done|]. intros tb Htb. simpl. destruct (decide (tb = new)) as [->|Hne]; [rewrite Hrefs, Z.eqb_refl by done; lia|].
    rewrite lookup_insert_ne in Htb by done. destruct Htb as [[[r1 n1] b1] Htb]. destruct (Hok _ _ _ _ Htb) as (_ & Hal1 & _). rewrite Hrefs by done.
    destruct (Z.eqb_spec tb new); [done|]. by apply Href; eauto.
  - intros r a Hra Ha. unfold mapping. f_equal. simpl. eapply walk_agree; [done|done| |by apply root_path]. intros tb [x Hx]. apply lookup_insert_ne. congruence.
  - intros x Hx Hne. simpl. rewrite Hrefs by done. destruct (Z.eqb_spec x new); [congruence|done].
  - intros a. unfold mapping. simpl.
    set (zs := replicate _ 0). assert (Hzs : rd zs (index (levels - 1) a) = Some 0).
    { destruct (rd_index _ page_bits zs (levels - 1) a) as [x Hx].
      - unfold zs. rewrite length_replicate, table_size by done. pose proof (index_range _ page_bits 0 0). lia.
      - rewrite Hx. apply rd_some in Hx as [_ [-> _]%lookup_replicate]. done. }
    rewrite (walk_entry _ (levels - 1) _ new zs 0); [|apply lookup_insert_eq|done|rewrite dt_zero by done; dt]. unfold leaf. cbn [mbind option_bind]. by rewrite dt_zero.
Qed.

(** ** One entry is written *)

(** The mappings of [st] with the addresses of one entry led to [e']. *)
Definition written path st st' root (v : Z) (n : nat) (e' : Z) : Prop :=
  ∀ r a, is_root path r → 0 ≤ a < space →
    mapping st' r a = if bool_decide (r = root ∧ a / chunk n = v / chunk n) then leaf (Some (n, 0, e')) else mapping st r a.

Lemma set_ok path st root v n table e' : mmu_inv path st → is_root path root → 0 ≤ v < space →
  reach (levels - 1) (tables st) root v n = Some table →
  entry_ok PAGE_ADDR_BITS path root n (base n v) (index n v) e' → DT e' ≠ MMU_DT_TABLE →
  ∃ st', set_entry st table (index n v) e' = Val st' ∧ pool st' = pool st ∧ mmu_inv path st' ∧ written path st st' root v n e' ∧
    ends_at st' root v n table e'.
Proof.
  intros Hinv Hroot Hv Hre Hent Hdt. destruct (reach_entry _ _ _ _ _ _ Hinv Hroot Hv Hre) as (t & e & Ht & Hlen & He & Hn & _ & Hp).
  destruct Hinv as (Hpool & Hok & Href). unfold set_entry. rewrite Ht. cbn [lift mbind res_bind].
  pose proof (index_range _ page_bits n v). rewrite wr_in_range by (rewrite Hlen; by apply index_range). cbn [lift mbind res_bind].
  destruct (set_effect _ page_bits _ _ _ _ _ _ _ _ Hok Hroot Hv Hre Ht Hent Hdt) as [Hok' Hwalk].
  exists (Mmu (updated (tables st) table t (index n v) e') (pool st)). split; [done|]. split; [done|]. split; [done|]. split.
  - intros r a Hr Ha. unfold mapping. simpl. rewrite Hwalk by done. by case_bool_decide.
  - split; [done|]. simpl. split.
    + erewrite reach_updated; [exact Hre|done..|by apply root_path].
    + split; [done|]. eexists. split; [apply updated_here|]. rewrite rd_updated by lia. by rewrite Z.eqb_refl.
Qed.

(** ** Pages are set and got one at a time *)

Lemma shiftl_bits n : Z.shiftl 1 (bits n) = chunk n.
Proof. rewrite Z.shiftl_mul_pow2, Z.mul_1_l; [done|]. unfold Mmuinv.bits. pose proof (w_range _ page_bits). nia. Qed.

Lemma chunk_inj n m : chunk n = chunk m → n = m.
Proof. intros E%Z.pow_inj_r; unfold Mmuinv.bits in *; pose proof (w_range _ page_bits); nia. Qed.

Lemma covers_page n v : covers n v page_size → n = 0%nat.
Proof.
  intros [_ Hc]. destruct n as [|n]; [done|]. rewrite chunk_S in Hc by done. pose proof (w_range _ page_bits).
  assert (page_size ≤ chunk n). { rewrite <- chunk_0 by done. apply Z.pow_le_mono_r; [lia|]. unfold Mmuinv.bits. nia. }
  assert (2 ^ 1 ≤ 2 ^ MMU_TABLE_ADDR_BITS PAGE_ADDR_BITS) by (apply Z.pow_le_mono_r; lia). pose proof (page_size_range _ page_bits). nia.
Qed.

Definition page_level st (root v : Z) : nat := match mapping st root v with Some (n, _) => n | None => 0%nat end.

(** The descriptor that mmu_table_set_page writes. *)
Definition page_desc (e phys flags : Z) : Z :=
  let s := Z.lor (status e) MMU_DT_PAGE_DESCRIPTOR in
  MMU_TABLE_DESCRIPTOR phys (if Z.land flags MMU_FLAG_WRITE =? 0 then Z.lor s MMU_STATUS_DESC_WP else Z.land s (Z.lnot MMU_STATUS_DESC_WP)).

Lemma page_desc_ok e phys flags : 0 ≤ e < 2 ^ 32 → DT e = MMU_DT_INVALID ∨ DT e = MMU_DT_PAGE_DESCRIPTOR → 0 ≤ phys < 2 ^ 32 → phys mod page_size = 0 →
  let e' := page_desc e phys flags in
  0 ≤ e' < 2 ^ 32 ∧ address e' = phys ∧ DT e' = MMU_DT_PAGE_DESCRIPTOR ∧
  Z.land (status e') MMU_STATUS_DESC_WP = if Z.land flags MMU_FLAG_WRITE =? 0 then MMU_STATUS_DESC_WP else 0.
Proof.
  intros He Hdt Hp Hal. unfold page_desc. destruct (address_ok _ page_bits e He) as (_ & _ & Hs). pose proof (page_size_range _ page_bits) as Hps.
  set (s := status e) in *. change (Z.land s 3 = 0 ∨ Z.land s 3 = 1) in Hdt.
  set (s1 := Z.lor s MMU_DT_PAGE_DESCRIPTOR). rewrite PAGE_SIZE_pow in Hs by done.
  assert (Hs1 : 0 ≤ s1 < 2 ^ PAGE_ADDR_BITS) by (apply (word_set_range _ _ 0); lia).
  assert (Hd1 : Z.land s1 3 = 1) by (unfold s1; rewrite Z.land_lor_distr_l; destruct Hdt as [-> | ->]; done).
  set (s2 := if Z.land flags MMU_FLAG_WRITE =? 0 then Z.lor s1 MMU_STATUS_DESC_WP else Z.land s1 (Z.lnot MMU_STATUS_DESC_WP)).
  assert (Hs2 : 0 ≤ s2 < page_size).
  { rewrite PAGE_SIZE_pow by done. unfold s2. destruct (_ =? _); [apply (word_set_range _ _ 2)|apply (word_clear_range _ _ 2)]; lia. }
  destruct (desc_ok _ page_bits phys s2 Hp Hal Hs2) as (-> & Est & Hr). split; [done|]. split; [done|]. split.
  - rewrite desc_dt by done. unfold s2. destruct (_ =? _); [by rewrite Z.land_lor_distr_l, Hd1|]. rewrite <- Z.land_assoc. exact Hd1.
  - rewrite Est. unfold s2. destruct (_ =? _); [|by rewrite <- Z.land_assoc, Z.land_0_r].
    apply Z.bits_inj'. intros k _. rewrite Z.land_spec, Z.lor_spec. by destruct (Z.testbit s1 k), (Z.testbit MMU_STATUS_DESC_WP k).
Qed.

Lemma entry_at st table i t e : tables st !! table = Some t → rd t i = Some e → entry st table i = Val e.
Proof. intros Ht He. unfold entry. rewrite Ht. simpl. by rewrite He. Qed.

(** mmu_table_get_page finds the page of a mapped address. *)
Lemma get_page_ok path st root v n e : mmu_inv path st → is_root path root → 0 ≤ v < space → mapping st root v = Some (n, e) → address e ≠ 0 →
  mmu_table_get_page PAGE_ADDR_BITS st root v = Val (0, address e, chunk n).
Proof.
  intros Hinv Hroot Hv Hm Ha.
  pose proof (get_table_ok path st root v page_size GET_TABLE_RETURN_ANY_SIZE Hinv Hroot Hv ltac:(done)) as Hg.
  apply wp_returns in Hg as ([[[st' err] table] b] & Eg & path' & Hsub & Hinv' & Hsame & _ & _ & _ & Hc). unfold mmu_table_get_page. rewrite Eg.
  specialize (Hsame root v Hroot Hv). rewrite Hm in Hsame.
  destruct Hc as [(n' & e' & -> & -> & Hend & _)|[(_ & Hf & _)|(_ & _ & Hn)]]; [|done|congruence].
  unfold mapping in Hsame. rewrite (ends_mapping _ _ _ _ _ _ Hend) in Hsame. unfold leaf in Hsame. cbn [mbind option_bind] in Hsame.
  destruct (_ =? _); [|done]. simplify_eq. destruct Hend as (_ & _ & _ & t & Ht & He).
  cbn [mbind res_bind]. rewrite table_index, (entry_at _ _ _ _ _ Ht He), shiftl_bits by done. simpl. destruct (Z.eqb_spec (address e) 0); [done|]. done.
Qed.

Lemma set_page_ok path st root v phys size flags :
  mmu_inv path st → is_root path root → 0 ≤ v < space → 0 < phys < 2 ^ 32 → phys mod page_size = 0 →
  Z.of_nat levels - 1 ≤ pool_room (pool st) PAGE_F_USER →
  let n := page_level st root v in
  wp (mmu_table_set_page PAGE_ADDR_BITS st root v phys size flags) False (λ '(st', err), ∃ path', path ⊆ path' ∧ mmu_inv path' st' ∧ keeps st st' ∧ grown root v path path' st st' ∧
    (∀ f, pool_room (pool st) f - (Z.of_nat levels - 1) ≤ pool_room (pool st') f) ∧
    if size =? chunk n then
      err = 0 ∧ mmu_table_get_page PAGE_ADDR_BITS st' root v = Val (0, phys, size) ∧
      ∃ e, address e = phys ∧ DT e = MMU_DT_PAGE_DESCRIPTOR ∧ written path st st' root v n e ∧
           Z.land (status e) MMU_STATUS_DESC_WP = if Z.land flags MMU_FLAG_WRITE =? 0 then MMU_STATUS_DESC_WP else 0
    else err = EFAULT ∧ same path st st').
Proof.
  intros Hinv Hroot Hv Hp Hal Hroom n. unfold mmu_table_set_page. set (gf := Z.lor _ _).
  wp_step (get_table_ok path st root v page_size gf Hinv Hroot Hv ltac:(done)).
  intros [[[st' err] table] b] (path' & Hsub & Hinv' & Hsame & Hkeep & Hfr & Hrm & [(n' & e & -> & -> & Hend & Hc)|[(_ & Hf & _)|(_ & Hf & _)]]); [|done..].
  change (0 <? 0) with false. cbn [mbind]. rewrite shiftl_bits.
  assert (n' = n) as ->.
  { specialize (Hsame root v Hroot Hv). unfold n, page_level. rewrite <- Hsame. unfold mapping. rewrite (ends_mapping _ _ _ _ _ _ Hend). unfold leaf.
    cbn [mbind option_bind]. destruct Hc as [[-> _]|[-> Hc]]; [done|]. destruct Hc as [->|[Hc%covers_page _]]; done. }
  rewrite Z.eqb_sym. destruct (Z.eqb_spec size (chunk n)) as [->|Hsz]; simpl; [|by exists path'].
  rewrite table_index by done. pose proof Hend as (_ & Hre & Hdt & t & Ht & He). rewrite (entry_at _ _ _ _ _ Ht He). cbn [mbind res_bind].
  assert (Hroot' : is_root path' root) by (by eapply lookup_weaken).
  destruct (reach_entry _ _ _ _ _ _ Hinv' Hroot' Hv Hre) as (t1 & e1 & Ht1 & _ & He1 & _ & Hent & _). simplify_eq.
  destruct (page_desc_ok e phys flags) as (Hr & Ha & Hd & Hwp); [apply Hent|tauto|lia|done|].
  destruct (set_ok path' st' root v n table (page_desc e phys flags) Hinv' Hroot' Hv Hre) as (st2 & E2 & Hpl & Hinv2 & Hw & Hend2); [split; [done|]; tauto|rewrite Hd; dt|].
  unfold page_desc in E2. cbn zeta in E2. rewrite E2. simpl. exists path'. split_and!; try done.
  - intros x Hx Hne. rewrite Hpl. by apply Hkeep.
  - destruct Hfr as [Hfr1 Hfr2]. split; [done|]. rewrite Hpl. done.
  - by rewrite Hpl.
  - rewrite <- Ha at 1. eapply get_page_ok; [done..| |lia]. rewrite Hw by done. rewrite bool_decide_true by done. unfold leaf. simpl. by rewrite Hd.
  - exists (page_desc e phys flags). split_and!; try done. intros r a Hr' Ha'. rewrite Hw; [|by eapply lookup_weaken|done]. case_bool_decide; [done|]. by apply Hsame.
Qed.
End ops.
