(* ===== verification/Mmumap.v ===== *)
(** * Mmumap: mmu_table_map over a range of addresses

    The loop of mmu_table_map with an invariant of its own for mapping and for
    unmapping: which addresses are done, which tables it has made, and what has
    happened to the references of the pages. *)

From S2P Require Import Prelude Queue Result Bits Pages Mmu Mmuinv Mmuops.

Section map.
Context {P : Type} `{PagePool P} (PAGE_ADDR_BITS : Z) `{!PoolLaws P PAGE_ADDR_BITS}.
Hypothesis page_bits : 8 ≤ PAGE_ADDR_BITS ≤ 16.
Implicit Types st : mmu P.
Implicit Types path : gmap Z (Z * nat * Z).
Abbreviation page_size := (PAGE_SIZE PAGE_ADDR_BITS).
Abbreviation levels := (Z.to_nat (MMU_TABLE_LEVELS PAGE_ADDR_BITS)).
Abbreviation address := (MMU_TABLE_ADDRESS PAGE_ADDR_BITS).
Abbreviation status := (MMU_TABLE_STATUS PAGE_ADDR_BITS).
Abbreviation DT := (MMU_DT PAGE_ADDR_BITS).
Abbreviation bits := (bits PAGE_ADDR_BITS).
Abbreviation chunk := (chunk PAGE_ADDR_BITS).
Abbreviation space := (space PAGE_ADDR_BITS).
Abbreviation index := (index PAGE_ADDR_BITS).
Abbreviation base := (base PAGE_ADDR_BITS).
Abbreviation reach := (reach PAGE_ADDR_BITS).
Abbreviation is_root := (is_root PAGE_ADDR_BITS).
Abbreviation mapping := (mapping PAGE_ADDR_BITS).
Abbreviation mmu_inv := (mmu_inv PAGE_ADDR_BITS).
Abbreviation covers := (covers PAGE_ADDR_BITS).

Lemma chunk_page n : chunk n mod page_size = 0.
Proof.
  rewrite <- chunk_0 by done. apply Z.mod_divide; [pose proof (chunk_pos _ page_bits 0); lia|]. exists (2 ^ (Z.of_nat n * MMU_TABLE_ADDR_BITS PAGE_ADDR_BITS)).
  pose proof (w_range _ page_bits). unfold Mmuinv.chunk. rewrite <- Z.pow_add_r by (unfold Mmuinv.bits; nia). f_equal. unfold Mmuinv.bits. lia.
Qed.

(** The entry after this one, when it is in the same table. *)
Lemma next_entry n v : index n v + 1 < 2 ^ MMU_TABLE_ADDR_BITS PAGE_ADDR_BITS → base n (v + chunk n) = base n v ∧ index n (v + chunk n) = index n v + 1.
Proof.
  pose proof (chunk_pos _ page_bits n). pose proof (w_range _ page_bits). assert (0 < 2 ^ MMU_TABLE_ADDR_BITS PAGE_ADDR_BITS) by (apply Z.pow_pos_nonneg; lia).
  intros Hi. unfold Mmuinv.base, Mmuinv.index in *. rewrite chunk_S by done. rewrite <- !Z.div_div by lia.
  replace (v + chunk n) with (v + 1 * chunk n) by lia. rewrite Z.div_add by lia.
  set (q := v / chunk n) in *. set (w := 2 ^ MMU_TABLE_ADDR_BITS PAGE_ADDR_BITS) in *. pose proof (Z.div_mod q w ltac:(lia)) as Hq. pose proof (Z.mod_pos_bound q w ltac:(lia)).
  assert ((q + 1) / w = q / w) as ->. { symmetry. apply (Z.div_unique _ _ _ (q mod w + 1)); lia. }
  split; [done|]. symmetry. apply (Z.mod_unique _ _ (q / w)); lia.
Qed.

Lemma whole_page x : 0 < x → x mod page_size = 0 → page_size ≤ x.
Proof. intros Hx Hm. pose proof (page_size_range _ page_bits). destruct (Z.lt_ge_cases x page_size); [|done]. rewrite Z.mod_small in Hm; lia. Qed.

Lemma space_word : space ≤ 2 ^ 32.
Proof. apply Z.pow_le_mono_r; [lia|]. pose proof (w_range _ page_bits). unfold MMU_TABLE_INITIAL_SHIFT. pose proof (Z.mod_pos_bound (32 - PAGE_ADDR_BITS) (MMU_TABLE_ADDR_BITS PAGE_ADDR_BITS)). lia. Qed.

(** ** The loop of mmu_table_map *)
Section loop.
Context (root v0 len0 flags : Z).
Definition any : bool := Z.land flags MMU_FLAG_TYPE =? MMU_TYPE_FIXED.
(** [I v]: the state with the addresses below [v] done; [J v]: the same, once
    the tables on the way to [v] are made; [E]: the state of an error. *)
Context (I J : Z → gmap Z (Z * nat * Z) → mmu P → Prop) (E : Z → gmap Z (Z * nat * Z) → mmu P → Prop).

Definition fits (n : nat) (v : Z) : Prop := v mod chunk n = 0 ∧ chunk n ≤ v0 + len0 - v ∧ (any = true ∨ n = 0%nat).
Definition lands (n : nat) (v e : Z) : Prop :=
  DT e = MMU_DT_PAGE_DESCRIPTOR ∧ (covers n v (v0 + len0 - v) ∨ any = true) ∨
  DT e = MMU_DT_INVALID ∧ (n = 0%nat ∨ covers n v (v0 + len0 - v) ∧ any = true).

Hypothesis range : 0 ≤ v0 ∧ 0 ≤ len0 ∧ v0 + len0 ≤ space ∧ v0 mod page_size = 0 ∧ len0 mod page_size = 0.
Hypothesis I_weak : ∀ path st v, I v path st → J v path st.
(** New tables on the way to [v] make [J] of [I]. *)
Hypothesis I_stable : ∀ path path' st st' v, v0 ≤ v ≤ v0 + len0 → I v path st → path ⊆ path' → mmu_inv path' st' → same PAGE_ADDR_BITS path st st' → keeps PAGE_ADDR_BITS st st' →
  grown PAGE_ADDR_BITS root v path path' st st' → J v path' st'.
Hypothesis I_entry : ∀ path st v n table e, J v path st → mmu_inv path st → is_root path root → v0 ≤ v < v0 + len0 → v mod page_size = 0 →
  reach (levels - 1) (tables st) root v n = Some table → (∃ t, tables st !! table = Some t ∧ rd t (index n v) = Some e) →
  entry_ok PAGE_ADDR_BITS path root n (base n v) (index n v) e → v0 < v ∧ I v path st ∧ fits n v ∨ lands n v e → 0 < pool_room (pool st) PAGE_F_USER →
  wp (map_entry PAGE_ADDR_BITS st e v flags) False (λ '(st1, err, e'),
    (err = 0 ∧ fits n v ∧ tables st1 = tables st ∧ mmu_inv path st1 ∧ pool_room (pool st) PAGE_F_USER - 1 ≤ pool_room (pool st1) PAGE_F_USER ∧
       0 ≤ e' < 2 ^ 32 ∧ (DT e' = MMU_DT_INVALID ∧ address e' = 0 ∨ DT e' = MMU_DT_PAGE_DESCRIPTOR) ∧
       ∀ st2, pool st2 = pool st1 → mmu_inv path st2 → written PAGE_ADDR_BITS path st st2 root v n e' → I (v + chunk n) path st2) ∨
    (err < 0 ∧ E err path st1)).
Hypothesis I_exists : ∀ path st v n e, J v path st → mmu_inv path st → v0 ≤ v < v0 + len0 → v mod page_size = 0 → any = false → mapping st root v = Some (n, e) →
  ¬ covers n v (v0 + len0 - v) → E EEXIST path st.

(** The table that the loop holds on to, if it does not look for one. *)
Definition cached st (v i table b : Z) : Prop :=
  MMU_TABLE_SIZE PAGE_ADDR_BITS ≤ i + 1 ∨ table ≠ NULL ∧ v0 + len0 - v < Z.shiftl 1 b ∨
  ∃ n, b = bits n ∧ reach (levels - 1) (tables st) root v n = Some table ∧ fits n v ∧ v0 < v.

Lemma table_flags_any : negb (Z.land (table_flags flags) GET_TABLE_RETURN_ANY_SIZE =? 0) = any ∧ negb (Z.land (table_flags flags) GET_TABLE_CREATE_IF_NEEDED =? 0) = true.
Proof. unfold table_flags, any. by destruct (Z.land flags MMU_FLAG_TYPE =? MMU_TYPE_FIXED). Qed.

(** The entry for the next address is found. *)
Lemma pick_ok path st v i table b : I v path st → mmu_inv path st → is_root path root → v0 ≤ v < v0 + len0 → v mod page_size = 0 → cached st v i table b →
  Z.of_nat levels ≤ pool_room (pool st) PAGE_F_USER →
  wp (if (MMU_TABLE_SIZE PAGE_ADDR_BITS <=? i + 1) || (negb (table =? NULL) && (v0 + len0 - v <? Z.shiftl 1 b))
      then get_table PAGE_ADDR_BITS st root v (v0 + len0 - v) (table_flags flags) else Val (st, 0, table, b)) False (λ '(st1, err, table1, b1),
    ∃ path1, path ⊆ path1 ∧ mmu_inv path1 st1 ∧ J v path1 st1 ∧ pool_room (pool st) PAGE_F_USER - (Z.of_nat levels - 1) ≤ pool_room (pool st1) PAGE_F_USER ∧
      (err = 0 ∧ (∃ n e, b1 = bits n ∧ reach (levels - 1) (tables st1) root v n = Some table1 ∧
         (∃ t, tables st1 !! table1 = Some t ∧ rd t (index n v) = Some e) ∧
         entry_ok PAGE_ADDR_BITS path1 root n (base n v) (index n v) e ∧ (v0 < v ∧ I v path1 st1 ∧ fits n v ∨ lands n v e)) ∨
       err < 0 ∧ E err path1 st1)).
Proof.
  intros HI Hinv Hroot Hv Hal Hc Hroom. assert (Hsp : 0 ≤ v < space) by lia. destruct table_flags_any as [Hany Hcr]. pose proof (levels_pos _ page_bits).
  destruct ((_ <=? _) || _) eqn:Ec.
  - eapply wp_mono; [apply (get_table_ok _ page_bits path _ _ _ _ _ Hinv Hroot Hsp); lia|done|]. rewrite Hany, Hcr.
    intros [[[st1 err] table1] b1] (path1 & Hsub & Hinv1 & Hsame & Hkeep & Hfr & Hrm & Hcase).
    assert (HI1 : J v path1 st1) by (eapply I_stable; [|done..]; lia). exists path1. do 3 (split; [done|]). split; [apply Hrm|].
    destruct Hcase as [(n & e & -> & -> & Hend & Hl)|[(-> & Ha & n & e & Hm & Hnc)|(_ & Hf & _)]]; [left|right|done].
    + split; [done|]. exists n, e. destruct Hend as (Hn & Hre & Hdt & Ht). split_and!; try done; [|by right].
      assert (Hroot1 : is_root path1 root) by (by eapply lookup_weaken).
      destruct (reach_entry _ page_bits _ _ _ _ _ _ Hinv1 Hroot1 Hsp Hre) as (t' & e' & Ht' & _ & He' & _ & Hent & _).
      destruct Ht as (t & Ht & He). by simplify_eq.
    + split; [done|]. eapply I_exists; [done..| |done]. by rewrite (Hsame root v Hroot Hsp).
  - destruct Hc as [Hc|[Hc|(n & -> & Hre & Hfit & Hlt)]]; [lia|unfold NULL in *; lia|].
    destruct (reach_entry _ page_bits _ _ _ _ _ _ Hinv Hroot Hsp Hre) as (t & e & Ht & _ & He & _ & Hent & _).
    exists path. do 2 (split; [done|]). split; [by apply I_weak|]. split; [lia|]. left. split; [done|]. exists n, e. split_and!; eauto.
Qed.

Lemma map_loop_ok fuel : ∀ path st v i table b, I v path st → mmu_inv path st → is_root path root → v0 ≤ v ≤ v0 + len0 → v mod page_size = 0 →
  cached st v i table b → (v0 + len0 - v) / page_size < Z.of_nat fuel →
  Z.of_nat levels * ((v0 + len0 - v) / page_size) ≤ pool_room (pool st) PAGE_F_USER →
  wp (map_loop PAGE_ADDR_BITS fuel st root (u32 v) (v0 + len0 - v) flags i table b) False (λ '(st', err), ∃ path', path ⊆ path' ∧
    (err = 0 ∧ I (v0 + len0) path' st' ∧ mmu_inv path' st' ∨ err < 0 ∧ E err path' st')).
Proof.
  pose proof (page_size_range _ page_bits) as Hps.
  induction fuel as [|fuel IH]; intros path st v i table b HI Hinv Hroot Hv Hal Hc Hfuel Hroom.
  { pose proof (Z.div_pos (v0 + len0 - v) page_size ltac:(lia) ltac:(lia)). lia. }
  cbn [map_loop]. destruct (Z.eqb_spec (v0 + len0 - v) 0) as [Hz|Hz].
  { exists path. split; [done|]. left. replace (v0 + len0) with v by lia. done. }
  assert (Hge : page_size ≤ v0 + len0 - v).
  { apply whole_page; [lia|]. destruct range as (_ & _ & _ & Hr1 & Hr2). rewrite Zminus_mod, Zplus_mod, Hr1, Hr2, Hal, !Z.mod_0_l; lia. }
  assert (H1 : 1 ≤ (v0 + len0 - v) / page_size) by (apply Z.div_le_lower_bound; lia).
  assert (Hu : u32 v = v). { pose proof space_word. unfold u32, uwrap. apply Z.mod_small. lia. } rewrite Hu. clear Hu.
  wp_step pick_ok; [done..|lia|done|done|nia|].
  intros [[[st1 err] table1] b1] (path1 & Hsub1 & Hinv1 & HI1 & Hrm1 & [(-> & n & e & -> & Hre & Ht & Hent & Hfl)|[Herr HE]]); cycle 1.
  { destruct (Z.ltb_spec err 0); [|lia]. exists path1. split; [done|]. by right. }
  assert (Hroot1 : is_root path1 root) by (by eapply lookup_weaken).
  change (0 <? 0) with false. cbn iota zeta. rewrite table_index by done. destruct Ht as (t & Ht & He). rewrite (entry_at _ _ _ _ _ Ht He). res_simpl.
  wp_step (I_entry path1 st1 v n table1 e); [done..|lia|done|done|eauto|done|done|nia|].
  intros [[st2 err] e'] [(-> & Hfit & Htb & Hinv2 & Hrm2 & Hre' & Hdt' & HI2)|[Herr HE]]; cycle 1.
  { destruct (Z.ltb_spec err 0); [|lia]. exists path1. split; [done|]. by right. }
  change (0 <? 0) with false. cbn iota.
  destruct (set_ok _ page_bits path1 st2 root v n table1 e' Hinv2 Hroot1 ltac:(lia)) as (st3 & E3 & Hpl & Hinv3 & Hw & Hend).
  { by rewrite Htb. } { split; [done|]. tauto. } { destruct Hdt' as [[-> _]| ->]; dt. }
  rewrite E3, shiftl_bits by done. res_simpl. destruct Hfit as (Hf1 & Hf2 & Hf3). destruct (Z.ltb_spec (v0 + len0 - v) (chunk n)); [lia|].
  assert (Hsp : 0 ≤ v < space) by lia. replace (v0 + len0 - v - chunk n) with (v0 + len0 - (v + chunk n)) by lia. pose proof (chunk_pos _ page_bits n).
  assert (Hrest : (v0 + len0 - (v + chunk n)) / page_size ≤ (v0 + len0 - v) / page_size - 1).
  { pose proof (whole_page (chunk n) ltac:(lia) (chunk_page n)).
    trans ((v0 + len0 - v + -1 * page_size) / page_size); [apply Z.div_le_mono; lia|rewrite Z.div_add; lia]. }
  eapply (wp_mono _ False); [eapply (IH path1); try done|done|].
  - apply HI2; [done|done|]. intros r a Hr Ha. rewrite Hw by done. case_bool_decide; [done|]. unfold Mmuops.mapping. by rewrite Htb.
  - lia.
  - by rewrite Zplus_mod, Hal, chunk_page, Z.mod_0_l by lia.
  - destruct (decide (MMU_TABLE_SIZE PAGE_ADDR_BITS ≤ index n v + 1 + 1)) as [|Hi]; [by left|]. right.
    rewrite table_size in Hi by done. destruct (next_entry n v ltac:(lia)) as [Hb _]. unfold cached. rewrite shiftl_bits by done.
    destruct (decide (v0 + len0 - (v + chunk n) < chunk n)) as [Hlt|Hle]; [left|right].
    + split; [|done]. destruct (reach_entry _ page_bits _ _ _ _ _ _ Hinv1 Hroot1 Hsp Hre) as (_ & _ & _ & _ & _ & _ & _ & Hp).
      destruct Hinv1 as (_ & Hok & _). destruct (Hok _ _ _ _ Hp) as (? & _). unfold NULL. lia.
    + exists n. split; [done|]. split; [rewrite (reach_same _ page_bits _ _ _ _ v) by done; apply Hend|].
      split; [|lia]. split; [|split; [lia|done]]. by rewrite <- Z.add_mod_idemp_r, Z.mod_same, Z.add_0_r by lia.
  - lia.
  - rewrite Hpl. nia.
  - intros [st' err] (path' & Hsub' & Hpost). exists path'. split; [by etrans|done].
Qed.
(** The call, from the first address on. *)
Lemma map_run_ok path st : I v0 path st → mmu_inv path st → is_root path root → Z.of_nat levels * (len0 / page_size) ≤ pool_room (pool st) PAGE_F_USER →
  wp (mmu_table_map PAGE_ADDR_BITS st root v0 len0 flags) False (λ '(st', err), ∃ path', path ⊆ path' ∧
    (err = 0 ∧ I (v0 + len0) path' st' ∧ mmu_inv path' st' ∨ err < 0 ∧ E err path' st')).
Proof.
  intros HI Hinv Hroot Hroom. unfold mmu_table_map. pose proof (page_size_range _ page_bits). pose proof space_word.
  pose proof (Z.div_pos len0 page_size ltac:(lia) ltac:(lia)). destruct (Z.eq_dec len0 0) as [Ez|Hnz].
  { replace (Z.to_nat _) with 1%nat by (rewrite Ez, Z.div_0_l; lia). cbn [map_loop]. rewrite (proj2 (Z.eqb_eq len0 0) Ez).
    exists path. split; [done|]. left. replace (v0 + len0) with v0 by lia. done. }
  assert (Hu : u32 v0 = v0) by (unfold u32, uwrap; apply Z.mod_small; lia).
  rewrite <- Hu at 1. replace len0 with (v0 + len0 - v0) at 2 by lia. apply map_loop_ok; try done; try lia.
  - left. lia.
  - replace (v0 + len0 - v0) with len0 by lia. lia.
  - replace (v0 + len0 - v0) with len0 by lia. lia.
Qed.
End loop.

(** ** The descriptors that mmu_table_map writes *)
Definition map_status (flags : Z) : Z :=
  Z.lor (if Z.land flags MMU_FLAG_NOCACHE =? 0 then 0 else MMU_STATUS_DESC_CI) (if Z.land flags MMU_FLAG_WRITE =? 0 then MMU_STATUS_DESC_WP else 0).

Lemma map_desc_ok a flags (page : bool) : 0 ≤ a < 2 ^ 32 → a mod page_size = 0 → (page = false → a = 0) →
  let s := if page then Z.lor (map_status flags) MMU_DT_PAGE_DESCRIPTOR else map_status flags in
  let e := MMU_TABLE_DESCRIPTOR a s in
  0 ≤ e < 2 ^ 32 ∧ (if page then DT e = MMU_DT_PAGE_DESCRIPTOR else DT e = MMU_DT_INVALID ∧ address e = 0) ∧ address e = a ∧ status e = s.
Proof.
  intros Ha Hal H0 s e. pose proof (page_size_range _ page_bits).
  assert (Hs : 0 ≤ s < page_size ∧ Z.land s 3 = if page then 1 else 0).
  { unfold s, map_status. destruct page, (_ =? _), (_ =? _); vm_compute Z.lor; (split; [lia|done]). }
  destruct (desc_ok _ page_bits a s Ha Hal ltac:(lia)) as (Ea & Es & Hr). unfold e. rewrite Ea, Es, desc_dt by (done || lia).
  split_and!; try done; try lia. destruct page; [tauto|]. split; [tauto|auto].
Qed.

Lemma address_al e : address e mod page_size = 0.
Proof. pose proof (page_size_range _ page_bits). rewrite address_eq, Z.mod_mul by (done || lia). done. Qed.

Lemma same_chunk_range n v a : v mod chunk n = 0 → a / chunk n = v / chunk n ↔ v ≤ a < v + chunk n.
Proof.
  intros Hm. pose proof (chunk_pos _ page_bits n). apply Z_div_exact_full_2 in Hm; [|lia]. split.
  - intros E. pose proof (Z.div_mod a (chunk n) ltac:(lia)). pose proof (Z.mod_pos_bound a (chunk n) ltac:(lia)). nia.
  - intros Hr. symmetry. apply (Z.div_unique _ _ _ (a - v)); lia.
Qed.

Lemma entry_mapping st root v n table e t : (n < levels)%nat → reach (levels - 1) (tables st) root v n = Some table → tables st !! table = Some t → rd t (index n v) = Some e →
  DT e ≠ MMU_DT_TABLE → mapping st root v = if DT e =? MMU_DT_PAGE_DESCRIPTOR then Some (n, e) else None.
Proof. intros Hn Hre Ht He Hdt. unfold Mmuops.mapping. rewrite (ends_mapping _ st root v n table e); [done|]. split_and!; eauto. Qed.

(** ** Mapping *)
Section mapping.
Context (path0 : gmap Z (Z * nat * Z)) (st0 : mmu P) (root v0 len0 flags : Z).
Hypothesis range : 0 ≤ v0 ∧ 0 ≤ len0 ∧ v0 + len0 ≤ space ∧ v0 mod page_size = 0 ∧ len0 mod page_size = 0.
Hypothesis is_map : Z.land flags MMU_FLAG_OP = MMU_OP_MAP.
Abbreviation type := (Z.land flags MMU_FLAG_TYPE).
Hypothesis is_type : type = MMU_TYPE_UNALLOCATED ∨ type = MMU_TYPE_FIXED ∨ type = MMU_TYPE_PREALLOCATED.
Hypothesis vacant : ∀ a, v0 ≤ a < v0 + len0 → mapping st0 root a = None.
Hypothesis root0 : is_root path0 root.

(** What mmu_table_map makes of an address: nothing yet, the address itself, or a new page. *)
Definition mapped st (a : Z) : Prop :=
  if type =? MMU_TYPE_UNALLOCATED then mapping st root a = None
  else ∃ n e, mapping st root a = Some (n, e) ∧ status e = Z.lor (map_status flags) MMU_DT_PAGE_DESCRIPTOR ∧
    if type =? MMU_TYPE_FIXED then address e = a / chunk n * chunk n
    else n = 0%nat ∧ pool_refs (pool st0) (address e) = 0 ∧ pool_refs (pool st) (address e) = 1.
Definition apart st (v : Z) : Prop := type = MMU_TYPE_PREALLOCATED → ∀ a a' n n' e e', v0 ≤ a < v → v0 ≤ a' < v → mapping st root a = Some (n, e) →
  mapping st root a' = Some (n', e') → address e = address e' → a / page_size = a' / page_size.

(** The tables that the call made start below [s]. *)
Definition made (s : Z) path : Prop := ∀ table x, path !! table = Some x → path0 !! table = Some x ∨ x.2 < s.
Definition map_done (s v : Z) path st : Prop :=
  path0 ⊆ path ∧ made s path ∧ only PAGE_ADDR_BITS path0 st0 st root (λ a, v0 ≤ a < v) ∧ (∀ a, v0 ≤ a < v → mapped st a) ∧ apart st v ∧ keeps PAGE_ADDR_BITS st0 st.
(** A fixed mapping meets a table that was there before the call: the table
    is for the addresses from [v] on, of which there are [chunk (S n)], all
    in the range and after its start. *)
Definition stopped_at (v : Z) : Prop := ∃ n table, path0 !! table = Some (root, n, v) ∧ v0 < v ∧ v + chunk (S n) ≤ v0 + len0.
Definition map_error (err : Z) path st : Prop :=
  err = EEXIST ∧ type = MMU_TYPE_FIXED ∧ mmu_inv path st ∧ ∃ v, stopped_at v ∧ map_done v v path st.

Lemma base_le n v : base n v ≤ v.
Proof. unfold Mmuinv.base. pose proof (chunk_pos _ page_bits (S n)). pose proof (Z.mul_div_le v (chunk (S n)) ltac:(lia)). lia. Qed.

Lemma map_done_weak s v path st : s ≤ v + 1 → map_done s v path st → map_done (v + 1) v path st.
Proof. intros Hs (Hsub & Hmade & Hrest). split; [done|]. split; [|done]. intros tb x Hx. destruct (Hmade tb x Hx); [by left|right; lia]. Qed.

Lemma map_done_stable path path' st st' v : v0 ≤ v ≤ v0 + len0 → map_done v v path st → path ⊆ path' → mmu_inv path' st' → same PAGE_ADDR_BITS path st st' →
  keeps PAGE_ADDR_BITS st st' → grown PAGE_ADDR_BITS root v path path' st st' → map_done (v + 1) v path' st'.
Proof.
  intros Hv (Hsub & Hmade & Honly & Hdone & Hap & Hkeep) Hsub' Hinv Hsame Hkeep' [Hgr _].
  assert (Hr : ∀ r, is_root path0 r → is_root path r) by (intros; by eapply lookup_weaken).
  assert (Hm : ∀ a, v0 ≤ a < v → mapping st' root a = mapping st root a) by (intros a Ha; apply Hsame; [auto|lia]).
  assert (Hk0 : keeps PAGE_ADDR_BITS st0 st'). { intros x Hx Hne. rewrite Hkeep'; [by apply Hkeep|done|]. by rewrite Hkeep. }
  split_and!; [by etrans| | | | |done].
  - intros tb x Hx. destruct (Hgr tb x Hx) as [Hx'|(_ & n & ->)]; [destruct (Hmade tb x Hx'); [by left|right; lia]|]. right. simpl. pose proof (base_le n v). lia.
  - intros r a Hra Ha Hn. rewrite Hsame by auto. by apply Honly.
  - intros a Ha. specialize (Hdone a Ha). unfold mapped in *. rewrite Hm by done. destruct (_ =? _); [done|].
    destruct Hdone as (n & e & ? & ? & Hc). exists n, e. split; [done|]. split; [done|]. destruct (_ =? _); [done|]. destruct Hc as (? & ? & Hr1).
    split_and!; try done. rewrite Hkeep'; [done|apply address_al|lia].
  - intros Ht a a' n n' e e' Ha Ha' Hma Hma'. rewrite Hm in Hma, Hma' by done. by apply (Hap Ht a a' n n' e e').
Qed.

Lemma keeps_trans st st1 st2 : keeps PAGE_ADDR_BITS st st1 → keeps PAGE_ADDR_BITS st1 st2 → keeps PAGE_ADDR_BITS st st2.
Proof. intros H1 H2 x Hx Hne. rewrite H2; [by apply H1|done|]. by rewrite H1. Qed.

(** One more entry is done. *)
Lemma map_done_step path st st2 v n e' : map_done (v + 1) v path st → v0 ≤ v → v mod chunk n = 0 → chunk n ≤ v0 + len0 - v →
  written PAGE_ADDR_BITS path st st2 root v n e' → keeps PAGE_ADDR_BITS st st2 → (∀ a, v ≤ a < v + chunk n → mapped st2 a) →
  (type = MMU_TYPE_PREALLOCATED → n = 0%nat ∧ pool_refs (pool st) (address e') = 0) → map_done (v + chunk n) (v + chunk n) path st2.
Proof.
  intros (Hsub & Hmade & Honly & Hdone & Hap & Hkeep) Hv Hal Hle Hw Hkeep2 Hnew Hfresh. pose proof (chunk_pos _ page_bits n).
  assert (Hr : ∀ r, is_root path0 r → is_root path r) by (intros; by eapply lookup_weaken).
  assert (Hm : ∀ a, v0 ≤ a < v → mapping st2 root a = mapping st root a).
  { intros a Ha. rewrite Hw; [|auto|lia]. rewrite bool_decide_false; [done|]. rewrite same_chunk_range by done. lia. }
  split_and!; [done| | | | |by eapply keeps_trans].
  - intros tb x Hx. destruct (Hmade tb x Hx); [by left|right; lia].
  - intros r a Hra Ha Hn. rewrite Hw; [|auto|done]. rewrite bool_decide_false; [apply Honly; [done..|]; intros [-> ?]; apply Hn; split; [done|lia]|].
    rewrite same_chunk_range by done. intros [-> ?]. apply Hn. split; [done|lia].
  - intros a Ha. destruct (decide (a < v)) as [Hlt|Hge]; [|apply Hnew; lia]. specialize (Hdone a ltac:(lia)). unfold mapped in *. rewrite Hm by lia.
    destruct (_ =? _); [done|]. destruct Hdone as (m & e & ? & ? & Hc). exists m, e. split; [done|]. split; [done|]. destruct (_ =? _); [done|].
    destruct Hc as (? & ? & Hr1). split_and!; try done. rewrite Hkeep2; [done|apply address_al|lia].
  - intros Ht a a' m m' e1 e2 Ha Ha' Hma Hma' Heq. destruct (Hfresh Ht) as [-> Hz]. rewrite (chunk_0 _ page_bits) in *.
    assert (Hin : ∀ b k e3, v ≤ b < v + page_size → mapping st2 root b = Some (k, e3) → e3 = e' ∧ b / page_size = v / page_size).
    { intros b k e3 Hb. pose proof Hb as Hc. rewrite <- (chunk_0 _ page_bits), <- same_chunk_range in Hc by (by rewrite (chunk_0 _ page_bits)).
      rewrite Hw by (auto || lia). rewrite bool_decide_true by done. unfold leaf. cbn [mbind option_bind]. rewrite (chunk_0 _ page_bits) in Hc. destruct (_ =? _); [|done]. intros. by simplify_eq. }
    assert (Hold : ∀ b k e3, v0 ≤ b < v → mapping st2 root b = Some (k, e3) → address e3 ≠ address e').
    { intros b k e3 Hb Hmb E. specialize (Hdone b ltac:(lia)). unfold mapped in Hdone. rewrite Ht in Hdone. simpl in Hdone. rewrite Hm in Hmb by lia.
      destruct Hdone as (k' & e4 & Hb4 & _ & _ & _ & Hr1). rewrite Hmb in Hb4. simplify_eq. rewrite E in Hr1. lia. }
    destruct (decide (a < v)), (decide (a' < v)).
    + rewrite Hm in Hma, Hma' by lia. apply (Hap Ht a a' m m' e1 e2); (done || lia).
    + destruct (Hin a' m' e2 ltac:(lia) Hma') as [-> _]. by destruct (Hold a m e1 ltac:(lia) Hma).
    + destruct (Hin a m e1 ltac:(lia) Hma) as [-> _]. by destruct (Hold a' m' e2 ltac:(lia) Hma').
    + destruct (Hin a m e1 ltac:(lia) Hma) as [-> ->]. by destruct (Hin a' m' e2 ltac:(lia) Hma') as [_ ->].
Qed.

Lemma entry_start n v : v mod chunk n = 0 → base n v + index n v * chunk n = v.
Proof. intros Hm. pose proof (chunk_pos _ page_bits n). rewrite <- (base_index _ page_bits). apply Z_div_exact_full_2 in Hm; lia. Qed.

Lemma vacant_entry path st v n table e : map_done (v + 1) v path st → mmu_inv path st → v0 ≤ v < v0 + len0 → v mod page_size = 0 →
  reach (levels - 1) (tables st) root v n = Some table → (∃ t, tables st !! table = Some t ∧ rd t (index n v) = Some e) →
  entry_ok PAGE_ADDR_BITS path root n (base n v) (index n v) e →
  v0 < v ∧ map_done v v path st ∧ fits v0 len0 flags n v ∨ lands v0 len0 flags n v e →
  (DT e = MMU_DT_INVALID ∧ address e = 0 ∧ fits v0 len0 flags n v) ∨ (address e ≠ 0 ∧ type = MMU_TYPE_FIXED ∧ map_done v v path st ∧ stopped_at v).
Proof.
  intros (Hsub & _ & Honly & _) Hinv Hv Hal Hre (t & Ht & He) Hent Hfl.
  assert (Hroot : is_root path root) by (by eapply lookup_weaken). assert (Hsp : 0 ≤ v < space) by lia.
  destruct (reach_entry _ page_bits _ _ _ _ _ _ Hinv Hroot Hsp Hre) as (_ & _ & _ & _ & _ & Hn & _).
  assert (Hm : mapping st root v = None) by (rewrite (Honly root v root0 Hsp); [by apply vacant|lia]).
  destruct (Z.eq_dec (DT e) MMU_DT_TABLE) as [Et|Et].
  - right. destruct Hent as (_ & [[? ?]|[?|(_ & m & -> & Hc)]]); [dt..|]. destruct Hfl as [(Hlt & Hd & Hf1 & Hf2 & Hf3)|[[? _]|[? _]]]; [|dt..]. split_and!.
    + destruct Hinv as (_ & Hok & _). destruct (Hok _ _ _ _ Hc) as (? & _). lia.
    + destruct Hf3 as [Ha|?]; [unfold any in Ha; lia|done].
    + done.
    + rewrite entry_start in Hc by done. exists m, (address e). split; [|lia]. destruct Hd as (_ & Hmade & _).
      destruct (Hmade _ _ Hc) as [?|Hl]; [done|]. simpl in Hl. lia.
  - rewrite (entry_mapping st root v n table e t) in Hm by done. destruct (Z.eqb_spec (DT e) MMU_DT_PAGE_DESCRIPTOR) as [|Ep]; [done|].
    destruct Hent as (_ & [[Ei Ea]|[?|[? _]]]); [|done..]. left. split_and!; try done.
    destruct Hfl as [(_ & _ & Hf)|[[? _]|[_ [->|[[? ?] ?]]]]]; [done|done| |by split; auto].
    split; [by rewrite chunk_0|]. split; [|by right]. rewrite chunk_0 by done. apply whole_page; [lia|].
    destruct range as (_ & _ & _ & Hr1 & Hr2). pose proof (page_size_range _ page_bits). rewrite Zminus_mod, Zplus_mod, Hr1, Hr2, Hal, !Z.mod_0_l; lia.
Qed.

(** One entry of a mapping. *)
Lemma map_entry_ok path st v n table e : map_done (v + 1) v path st → mmu_inv path st → is_root path root → v0 ≤ v < v0 + len0 → v mod page_size = 0 →
  reach (levels - 1) (tables st) root v n = Some table → (∃ t, tables st !! table = Some t ∧ rd t (index n v) = Some e) →
  entry_ok PAGE_ADDR_BITS path root n (base n v) (index n v) e → v0 < v ∧ map_done v v path st ∧ fits v0 len0 flags n v ∨ lands v0 len0 flags n v e → 0 < pool_room (pool st) PAGE_F_USER →
  wp (map_entry PAGE_ADDR_BITS st e v flags) False (λ '(st1, err, e'),
    (err = 0 ∧ fits v0 len0 flags n v ∧ tables st1 = tables st ∧ mmu_inv path st1 ∧ pool_room (pool st) PAGE_F_USER - 1 ≤ pool_room (pool st1) PAGE_F_USER ∧
       0 ≤ e' < 2 ^ 32 ∧ (DT e' = MMU_DT_INVALID ∧ address e' = 0 ∨ DT e' = MMU_DT_PAGE_DESCRIPTOR) ∧
       ∀ st2, pool st2 = pool st1 → mmu_inv path st2 → written PAGE_ADDR_BITS path st st2 root v n e' → map_done (v + chunk n) (v + chunk n) path st2) ∨
    (err < 0 ∧ map_error err path st1)).
Proof.
  intros Hd Hinv Hroot Hv Hal Hre Ht Hent Hfl Hroom. pose proof (page_size_range _ page_bits).
  unfold map_entry. rewrite is_map. change (MMU_OP_MAP =? MMU_OP_MAP) with true. cbn iota zeta.
  fold (map_status flags). destruct (vacant_entry _ _ _ _ _ _ Hd Hinv Hv Hal Hre Ht Hent Hfl) as [(Hi & Ha & Hfit)|(Hne & Hty & Hd' & Hst)]; cycle 1.
  { destruct (Z.eqb_spec (address e) 0); [done|]. right. split; [done|]. split_and!; try done. by exists v. }
  rewrite Ha. change (0 =? 0) with true. cbn [negb]. pose proof Hfit as (Hf1 & Hf2 & Hf3). pose proof space_word.
  assert (Hvr : 0 ≤ v < 2 ^ 32) by lia.
  assert (Hin : ∀ st2 e' a, written PAGE_ADDR_BITS path st st2 root v n e' → v ≤ a < v + chunk n → mapping st2 root a = leaf PAGE_ADDR_BITS (Some (n, 0, e'))).
  { intros st2 e' a Hw Hr. rewrite Hw by (done || lia). rewrite bool_decide_true; [done|]. by rewrite same_chunk_range. }
  destruct (Z.eqb_spec type MMU_TYPE_UNALLOCATED) as [Eu|Eu].
  { destruct (map_desc_ok 0 flags false) as (Hr & [Hd' Ha'] & _ & Hs); [lia|by apply Z.mod_0_l; lia|done|].
    left. split_and!; try done; try lia. intros st2 Hp2 _ Hw. eapply map_done_step; try done; [lia| | |by rewrite Eu].
    - intros x Hx Hne. by rewrite Hp2.
    - intros a Hr'. unfold mapped. rewrite Eu. simpl. rewrite (Hin _ _ _ Hw) by lia. unfold leaf. cbn [mbind option_bind]. by rewrite Hd'. }
  destruct (Z.eqb_spec type MMU_TYPE_FIXED) as [Ef|Ef].
  { destruct (map_desc_ok v flags true) as (Hr & Hd' & Ha' & Hs); [lia|done|done|].
    left. split_and!; try done; try lia. intros st2 Hp2 _ Hw. eapply map_done_step; try done; [lia| | |by rewrite Ef].
    - intros x Hx Hne. by rewrite Hp2.
    - intros a Hr'. unfold mapped. rewrite Ef. simpl. rewrite (Hin _ _ _ Hw) by lia. unfold leaf. cbn [mbind option_bind]. rewrite Hd'. eexists _, _.
      split; [done|]. split; [done|]. rewrite Ha'. apply same_chunk_range in Hr' as ->; [|done]. pose proof (chunk_pos _ page_bits n).
      apply Z_div_exact_full_2 in Hf1; lia. }
  destruct is_type as [?|[?|Ep]]; [done..|]. rewrite Ep. change (MMU_TYPE_PREALLOCATED =? MMU_TYPE_PREALLOCATED) with true. cbn iota.
  pose proof Hinv as (Hpool & Hok & Href). wp_step (pool_alloc_law (pool st) PAGE_F_USER Hpool Hroom).
  intros [p phys] (Hp' & Hr & Hpal & Hz & Hrefs & Hrm). destruct (map_desc_ok phys flags true) as (Hr' & Hd' & Ha' & Hs); [lia|done|done|].
  assert (Hn : n = 0%nat). { destruct Hf3 as [Hany|]; [|done]. unfold any in Hany. rewrite Ep in Hany. done. } subst n.
  assert (Hkp : ∀ st2, pool st2 = p → keeps PAGE_ADDR_BITS st st2).
  { intros st2 E2 x Hx Hne. rewrite E2, Hrefs by done. destruct (Z.eqb_spec x phys); [congruence|done]. }
  left. split_and!; try done; try lia.
  { split; [done|]. split; [done|]. intros tb Htb. specialize (Href tb Htb). destruct Htb as [[[r1 n1] b1] Htb]. destruct (Hok _ _ _ _ Htb) as (_ & Hal1 & _).
    rewrite (Hkp (set_pool st p)); [done..|lia]. }
  intros st2 Hp2 _ Hw. simpl in Hp2. eapply map_done_step; try done; [lia|by apply Hkp| |by rewrite Ha'].
  intros a Hra. unfold mapped. rewrite Ep. simpl. rewrite (Hin _ _ _ Hw) by lia. unfold leaf. cbn [mbind option_bind]. rewrite Hd'. eexists _, _.
  split; [done|]. split; [done|]. split; [done|]. rewrite Ha', Hp2, Hrefs, Z.eqb_refl by done. split; [|done].
  destruct Hd as (_ & _ & _ & _ & _ & Hkeep). destruct (Z.eq_dec (pool_refs (pool st0) phys) 0); [done|]. rewrite <- (Hkeep phys) by done. done.
Qed.

(** C12: mmu_table_map on a range where nothing is mapped: every address of the
    range is mapped to itself (fixed), to a page of its own that had no
    references (preallocated), or to nothing yet (unallocated), with the asked
    for cache and write protection; other addresses, other address spaces and
    the references of other pages stay as they were.  The one failure is that
    of a fixed mapping that comes, after its first entry, to a table that was
    there before the call: it gives EEXIST, with the range mapped up to the
    addresses of that table and not mapped from there on. *)
Theorem mmu_map_ok : mmu_inv path0 st0 → Z.of_nat levels * (len0 / page_size) ≤ pool_room (pool st0) PAGE_F_USER →
  wp (mmu_table_map PAGE_ADDR_BITS st0 root v0 len0 flags) False (λ '(st', err), ∃ path', path0 ⊆ path' ∧ mmu_inv path' st' ∧
    only PAGE_ADDR_BITS path0 st0 st' root (λ a, v0 ≤ a < v0 + len0) ∧ keeps PAGE_ADDR_BITS st0 st' ∧
    (err = 0 ∧ (∀ a, v0 ≤ a < v0 + len0 → mapped st' a) ∧ apart st' (v0 + len0) ∨
     err = EEXIST ∧ type = MMU_TYPE_FIXED ∧ ∃ v, stopped_at v ∧ (∀ a, v0 ≤ a < v → mapped st' a) ∧ ∀ a, v ≤ a < v0 + len0 → mapping st' root a = None)).
Proof.
  intros Hinv Hroom. assert (Hd0 : map_done v0 v0 path0 st0).
  { split_and!; try done; [by left|intros; lia|]. intros ? a a' n n' e e' ?. lia. }
  eapply (wp_mono _ False); [apply (map_run_ok root v0 len0 flags (λ v, map_done v v) (λ v, map_done (v + 1) v) map_error) with (path := path0); try done|done|].
  - intros path st v. apply map_done_weak. lia.
  - intros. by eapply map_done_stable.
  - intros. by eapply map_entry_ok.
  - intros path st v n e (Hsub & _ & Honly & _) Hi Hv _ Hany Hm. rewrite (Honly root v), vacant in Hm by (done || lia). done.
  - intros [st' err] (path' & Hsub & [(-> & (_ & _ & Ho & Hd & Ha & Hk) & Hi)|(_ & -> & Hty & Hi & v & Hst & _ & _ & Ho & Hd & _ & Hk)]); exists path'.
    { split_and!; try done. by left. }
    assert (Hv : v0 < v ≤ v0 + len0). { destruct Hst as (n & table & _ & ? & ?). pose proof (chunk_pos _ page_bits (S n)). lia. }
    split_and!; try done.
    + intros r a Hr Ha Hn. apply Ho; [done..|]. intros [-> ?]. apply Hn. split; [done|lia].
    + right. split_and!; try done. exists v. split_and!; try done. intros a Ha. rewrite Ho; [by apply vacant; lia|done|lia..].
Qed.
End mapping.

(** ** Unmapping *)
Section unmapping.
Context (path0 : gmap Z (Z * nat * Z)) (st0 : mmu P) (root v0 len0 flags : Z).
Hypothesis range : 0 ≤ v0 ∧ 0 ≤ len0 ∧ v0 + len0 ≤ space ∧ v0 mod page_size = 0 ∧ len0 mod page_size = 0.
Hypothesis is_unmap : Z.land flags MMU_FLAG_OP = MMU_OP_UNMAP.
Hypothesis root0 : is_root path0 root.
Abbreviation fixed := (any flags).
Definition inside (a : Z) : Prop := v0 ≤ a < v0 + len0.
(** A fixed mapping is removed whole. *)
Hypothesis whole : fixed = true → ∀ a n e, inside a → mapping st0 root a = Some (n, e) →
  v0 ≤ a / chunk n * chunk n ∧ a / chunk n * chunk n + chunk n ≤ v0 + len0.
(** The pages of the others have references that are theirs, and are not tables. *)
Hypothesis owned : fixed = false → ∀ a n e, inside a → mapping st0 root a = Some (n, e) →
  n = 0%nat ∧ (address e ≠ 0 → 0 < pool_refs (pool st0) (address e) ∧ path0 !! address e = None).
Hypothesis distinct : fixed = false → ∀ a a' n n' e e', inside a → inside a' → mapping st0 root a = Some (n, e) → mapping st0 root a' = Some (n', e') →
  address e = address e' → address e ≠ 0 → a / page_size = a' / page_size.

Definition page_of_range (x : Z) : Prop := ∃ a n e, inside a ∧ mapping st0 root a = Some (n, e) ∧ x = address e.

(** A page has lost a reference; if that was the last one, the page may be a
    table by now. *)
Definition released path st (x : Z) : Prop :=
  pool_refs (pool st) x = pool_refs (pool st0) x - 1 ∨ pool_refs (pool st0) x = 1 ∧ is_Some (path !! x).

Definition unmap_done (v : Z) path st : Prop :=
  path0 ⊆ path ∧ only PAGE_ADDR_BITS path0 st0 st root (λ a, v0 ≤ a < v) ∧ (∀ a, v0 ≤ a < v → mapping st root a = None) ∧
  (fixed = false → ∀ a n e, v ≤ a < v0 + len0 → mapping st0 root a = Some (n, e) → address e ≠ 0 →
    pool_refs (pool st) (address e) = pool_refs (pool st0) (address e) ∧ path !! address e = None) ∧
  (fixed = false → ∀ a n e, v0 ≤ a < v → mapping st0 root a = Some (n, e) → address e ≠ 0 → released path st (address e)) ∧
  (∀ x, x mod page_size = 0 → pool_refs (pool st0) x ≠ 0 → ¬ (fixed = false ∧ page_of_range x) → pool_refs (pool st) x = pool_refs (pool st0) x).

Lemma unmap_done_stable path path' st st' v : v0 ≤ v ≤ v0 + len0 → unmap_done v path st → path ⊆ path' → mmu_inv path' st' → same PAGE_ADDR_BITS path st st' →
  keeps PAGE_ADDR_BITS st st' → grown PAGE_ADDR_BITS root v path path' st st' → unmap_done v path' st'.
Proof.
  intros Hv (Hsub & Honly & Hdone & Hown & Hrel & Hkeep) Hsub' Hinv Hsame Hkeep' [Hgr Hsm].
  assert (Hr : ∀ r, is_root path0 r → is_root path r) by (intros; by eapply lookup_weaken). split_and!.
  - by etrans.
  - intros r a Hra Ha Hn. rewrite Hsame by auto. by apply Honly.
  - intros a Ha. rewrite Hsame by (auto || lia). by apply Hdone.
  - intros Hf a n e Ha Hm Hne. destruct (Hown Hf a n e Ha Hm Hne) as [Hpos Hnp].
    pose proof (proj2 (owned Hf a n e ltac:(unfold inside; lia) Hm) Hne). rewrite Hkeep' by (apply address_al || lia). split; [done|].
    destruct (path' !! address e) eqn:E; [|done]. destruct (Hgr _ _ E) as [Hx|[Hz _]]; [congruence|lia].
  - intros Hf a n e Ha Hm Hne. specialize (Hrel Hf a n e Ha Hm Hne). unfold released in *. destruct Hrel as [Hl|[H1 [x Hx]]]; [|right; split; [done|]; exists x; by eapply lookup_weaken].
    destruct (path' !! address e) eqn:E; [|left; rewrite Hsm; [done|apply address_al|]]; cycle 1.
    { rewrite E. destruct (path !! address e) eqn:E1; [|done]. pose proof (lookup_weaken _ _ _ _ E1 Hsub'). congruence. }
    destruct (Hgr _ _ E) as [Hx|[Hz _]]; [|right; split; [lia|by eexists]]. left. rewrite Hsm; [done|apply address_al|congruence].
  - intros x Hx Hne Hnot. rewrite Hkeep'; [by apply Hkeep|done|]. by rewrite Hkeep.
Qed.

(** The whole entry is in what is left of the range. *)
Lemma unmap_fits path st v n table e t : unmap_done v path st → mmu_inv path st → inside v → v mod page_size = 0 →
  reach (levels - 1) (tables st) root v n = Some table → tables st !! table = Some t → rd t (index n v) = Some e → (n < levels)%nat →
  fits v0 len0 flags n v ∨ lands v0 len0 flags n v e → fits v0 len0 flags n v.
Proof.
  intros (Hsub & Honly & Hdone & _) Hinv Hv Hal Hre Ht He Hn [Hf|Hl]; [done|]. assert (Hsp : 0 ≤ v < space) by (unfold inside in Hv; lia).
  pose proof (chunk_pos _ page_bits n). pose proof (page_size_range _ page_bits).
  assert (Hps : page_size ≤ v0 + len0 - v).
  { apply whole_page; [unfold inside in Hv; lia|]. destruct range as (_ & _ & _ & Hr1 & Hr2). rewrite Zminus_mod, Zplus_mod, Hr1, Hr2, Hal, !Z.mod_0_l; lia. }
  assert (Hm : DT e = MMU_DT_PAGE_DESCRIPTOR → mapping st root v = Some (n, e) ∧ mapping st0 root v = Some (n, e)).
  { intros Ed. assert (E : mapping st root v = Some (n, e)) by (rewrite (entry_mapping st root v n table e t) by (done || dt); by rewrite Ed).
    split; [done|]. rewrite <- E. symmetry. apply Honly; [done..|]. lia. }
  assert (Hn0 : n = 0%nat → fits v0 len0 flags n v) by (intros ->; split_and!; [by rewrite chunk_0|by rewrite chunk_0|by right]).
  destruct Hl as [[Ed Hc]|[Ed [->|[[Hc1 Hc2] Ha]]]]; [|by apply Hn0|by split; auto]. destruct (Hm Ed) as [Hmv Hm0].
  destruct (Bool.bool_dec fixed false) as [Ef|Ef%not_false_iff_true]. { apply Hn0. by apply (owned Ef v n e). }
  destruct (whole Ef v n e Hv Hm0) as [Hlo Hhi]. set (s := v / chunk n * chunk n) in *.
  pose proof (Z.div_mod v (chunk n) ltac:(lia)). pose proof (Z.mod_pos_bound v (chunk n) ltac:(lia)).
  assert (Hs : v mod chunk n = 0).
  { destruct (Z.eq_dec (v mod chunk n) 0) as [|Hne]; [done|]. specialize (Hdone s ltac:(lia)).
    assert (Hsc : s / chunk n = v / chunk n) by (unfold s; apply Z.div_mul; lia). apply (same_chunk _ page_bits) in Hsc as [Hb Hi].
    rewrite (entry_mapping st root s n table e t), Ed in Hdone; try done; [|by rewrite Hi|dt]. by rewrite (reach_same _ page_bits _ _ _ s v). }
  split_and!; [done|lia|by left].
Qed.

Lemma unmap_done_step path st st2 v n e' : unmap_done v path st → inside v → fits v0 len0 flags n v → written PAGE_ADDR_BITS path st st2 root v n e' →
  DT e' = MMU_DT_INVALID →
  (∀ x, x mod page_size = 0 → pool_refs (pool st2) x = pool_refs (pool st) x ∨
     fixed = false ∧ x ≠ 0 ∧ n = 0%nat ∧ ∃ e, mapping st0 root v = Some (0%nat, e) ∧ x = address e) →
  (fixed = false → ∀ a m e, v ≤ a < v + chunk n → mapping st0 root a = Some (m, e) → address e ≠ 0 →
     pool_refs (pool st2) (address e) = pool_refs (pool st) (address e) - 1) →
  unmap_done (v + chunk n) path st2.
Proof.
  intros (Hsub & Honly & Hdone & Hown & Hrel & Hkeep) Hv (Hal & Hle & Hlv) Hw Hdt Hrefs Hdrop. pose proof (chunk_pos _ page_bits n). unfold inside in Hv.
  assert (Hr : ∀ r, is_root path0 r → is_root path r) by (intros; by eapply lookup_weaken).
  assert (Hother : fixed = false → ∀ a m e, inside a → ¬ v ≤ a < v + chunk n → mapping st0 root a = Some (m, e) → address e ≠ 0 →
    pool_refs (pool st2) (address e) = pool_refs (pool st) (address e)).
  { intros Hf a m e Ha Hout Hm Hne. destruct (Hrefs (address e) (address_al _)) as [->|(_ & _ & -> & e1 & Hm1 & Heq)]; [done|]. destruct Hout.
    pose proof (distinct Hf a v m 0 e e1 Ha ltac:(unfold inside; lia) Hm Hm1 Heq Hne) as Hd.
    rewrite <- (chunk_0 _ page_bits) in Hd. by apply same_chunk_range in Hd. }
  split_and!.
  - done.
  - intros r a Hra Ha Hn. rewrite Hw; [|auto|done]. rewrite bool_decide_false; [apply Honly; [done..|]; intros [-> ?]; apply Hn; split; [done|lia]|].
    rewrite same_chunk_range by done. intros [-> ?]. apply Hn. split; [done|lia].
  - intros a Ha. rewrite Hw by (auto || lia). case_bool_decide as Hc; [unfold leaf; cbn [mbind option_bind]; by rewrite Hdt|].
    apply Hdone. rewrite same_chunk_range in Hc by done. destruct (decide (a < v)); [lia|]. exfalso. apply Hc. split; [done|lia].
  - intros Hf a m e Ha Hm Hne. destruct (Hown Hf a m e ltac:(lia) Hm Hne) as [Hpos Hnp]. split; [|done]. rewrite (Hother Hf a m e) by (done || (unfold inside; lia)). done.
  - intros Hf a m e Ha Hm Hne. destruct (decide (a < v)) as [Hlt|Hge].
    + specialize (Hrel Hf a m e ltac:(lia) Hm Hne). unfold released in *. rewrite (Hother Hf a m e) by (done || (unfold inside; lia)). done.
    + left. rewrite (Hdrop Hf a m e) by (done || lia). destruct (Hown Hf a m e ltac:(lia) Hm Hne) as [-> _]. done.
  - intros x Hx Hne Hnot. rewrite <- Hkeep by done. destruct (Hrefs x Hx) as [->|(Hf & _ & _ & e1 & Hm1 & ->)]; [done|]. exfalso. apply Hnot. split; [done|].
    exists v, 0%nat, e1. done.
Qed.

(** An entry is for all addresses of its chunk. *)
Lemma chunk_mapping st r v n table e t a : (n < levels)%nat → reach (levels - 1) (tables st) r v n = Some table → tables st !! table = Some t →
  rd t (index n v) = Some e → DT e ≠ MMU_DT_TABLE → a / chunk n = v / chunk n → mapping st r a = if DT e =? MMU_DT_PAGE_DESCRIPTOR then Some (n, e) else None.
Proof.
  intros Hn Hre Ht He Hdt Hc. apply (same_chunk _ page_bits) in Hc as [Hb Hi]. eapply (entry_mapping st r a n table e t); try done; [|by rewrite Hi].
  by rewrite (reach_same _ page_bits _ _ _ a v).
Qed.

(** One entry of an unmapping. *)
Lemma unmap_entry_ok path st v n table e : unmap_done v path st → mmu_inv path st → is_root path root → inside v → v mod page_size = 0 →
  reach (levels - 1) (tables st) root v n = Some table → (∃ t, tables st !! table = Some t ∧ rd t (index n v) = Some e) →
  entry_ok PAGE_ADDR_BITS path root n (base n v) (index n v) e → v0 < v ∧ unmap_done v path st ∧ fits v0 len0 flags n v ∨ lands v0 len0 flags n v e → 0 < pool_room (pool st) PAGE_F_USER →
  wp (map_entry PAGE_ADDR_BITS st e v flags) False (λ '(st1, err, e'),
    (err = 0 ∧ fits v0 len0 flags n v ∧ tables st1 = tables st ∧ mmu_inv path st1 ∧ pool_room (pool st) PAGE_F_USER - 1 ≤ pool_room (pool st1) PAGE_F_USER ∧
       0 ≤ e' < 2 ^ 32 ∧ (DT e' = MMU_DT_INVALID ∧ address e' = 0 ∨ DT e' = MMU_DT_PAGE_DESCRIPTOR) ∧
       ∀ st2, pool st2 = pool st1 → mmu_inv path st2 → written PAGE_ADDR_BITS path st st2 root v n e' → unmap_done (v + chunk n) path st2) ∨
    (err < 0 ∧ False)).
Proof.
  intros Hd Hinv Hroot Hv Hal Hre (t & Ht & He) Hent Hfl Hroom. pose proof (page_size_range _ page_bits).
  assert (Hsp : 0 ≤ v < space) by (unfold inside in Hv; lia).
  destruct (reach_entry _ page_bits _ _ _ _ _ _ Hinv Hroot Hsp Hre) as (_ & _ & _ & _ & _ & Hn & _).
  pose proof (unmap_fits _ _ _ _ _ _ _ Hd Hinv Hv Hal Hre Ht He Hn ltac:(tauto)) as Hfit.
  assert (Hall : fixed = false → ∀ a m e1, v ≤ a < v + chunk n → mapping st0 root a = Some (m, e1) → n = 0%nat ∧ e1 = e ∧ DT e = MMU_DT_PAGE_DESCRIPTOR).
  { intros Hf a m e1 Ha Hm. destruct Hfit as (Hf1 & Hf2 & [?| ->]); [congruence|]. split; [done|]. destruct Hd as (_ & Honly & _).
    rewrite <- (Honly root a root0) in Hm by lia. assert (Hdt : DT e ≠ MMU_DT_TABLE) by (destruct Hent as (_ & [[-> _]|[->|(_ & ? & ? & _)]]); [dt|dt|done]).
    rewrite (chunk_mapping st root v 0 table e t) in Hm by (done || by apply same_chunk_range). destruct (Z.eqb_spec (DT e) MMU_DT_PAGE_DESCRIPTOR); [|done]. by simplify_eq. }
  unfold map_entry. rewrite is_unmap. change (MMU_OP_UNMAP =? MMU_OP_MAP) with false. change (MMU_OP_UNMAP =? MMU_OP_UNMAP) with true. cbn iota zeta.
  fold (map_status flags). change (Z.land flags MMU_FLAG_TYPE =? MMU_TYPE_FIXED) with (any flags).
  destruct (map_desc_ok 0 flags false) as (Hr & [Hd' Ha'] & _ & _); [lia|by apply Z.mod_0_l; lia|done|].
  destruct (negb (address e =? 0) && negb (any flags)) eqn:Ec; cycle 1.
  { res_simpl. left. split_and!; try done; try lia. intros st2 Hp2 _ Hw. eapply unmap_done_step; try done; [intros x Hx; rewrite Hp2; by left|].
    intros Hf a m e1 Ha Hm Hne. destruct (Hall Hf a m e1 Ha Hm) as (_ & -> & _). rewrite Hf, andb_true_r in Ec. apply negb_false_iff in Ec. lia. }
  apply andb_true_iff in Ec as [Ea%negb_true_iff%Z.eqb_neq Ef%negb_true_iff].
  pose proof Hfit as (_ & _ & [?|E0]); [congruence|]. subst n.
  destruct Hent as (_ & [[? ?]|[Epd|(_ & ? & ? & _)]]); [done| |done].
  assert (Hm0 : mapping st0 root v = Some (0%nat, e)).
  { destruct Hd as (_ & Honly & _). rewrite <- (Honly root v root0 Hsp) by lia. rewrite (entry_mapping st root v 0 table e t) by (done || dt). by rewrite Epd. }
  pose proof Hd as (_ & _ & _ & Hown & _). destruct (Hown Ef v 0%nat e ltac:(unfold inside in Hv; lia) Hm0 Ea) as [Hrf Hnp].
  pose proof (proj2 (owned Ef v 0%nat e Hv Hm0) Ea) as [Hpos _]. rewrite <- Hrf in Hpos.
  pose proof Hinv as (Hpool & Hok & Href). apply wp_bind. wp_step (pool_free_law (pool st) (address e) Hpool Hpos (address_al e)).
  intros p (Hp' & Hrefs & Hrm). res_simpl. cbn [wp]. left. split_and!; try done; try lia.
  - split; [done|]. split; [done|]. intros tb [x Hx]. simpl. destruct x as [[r1 n1] b1]. rewrite Hrefs by (by destruct (Hok _ _ _ _ Hx) as (_ & ? & _)).
    destruct (Z.eqb_spec tb (address e)); [congruence|]. apply Href. by eexists.
  - simpl. specialize (Hrm PAGE_F_USER). lia.
  - intros st2 Hp2 _ Hw. eapply unmap_done_step; try done.
    + intros x Hx. rewrite Hp2. simpl. rewrite Hrefs by done. destruct (Z.eqb_spec x (address e)) as [->|]; [|by left]. right. split_and!; try done. by exists e.
    + intros Hf a m e1 Ha Hm Hne. destruct (Hall Hf a m e1 Ha Hm) as (_ & -> & _). rewrite Hp2. simpl. rewrite Hrefs, Z.eqb_refl by apply address_al. done.
Qed.

(** C13: mmu_table_map that unmaps a range, where a fixed mapping has all its
    chunks in the range, and where the pages of another one are single pages,
    each with a reference of the mapping's own, none of them a table or mapped
    twice in the range.  It succeeds, nothing in the range is mapped
    afterwards, and each page of a mapping that is not fixed has lost exactly
    one reference (when it was the last, the page may have become one of the
    tables that the call makes); other addresses, other address spaces and the
    references of other pages stay as they were. *)
Theorem mmu_unmap_ok : mmu_inv path0 st0 → Z.of_nat levels * (len0 / page_size) ≤ pool_room (pool st0) PAGE_F_USER →
  wp (mmu_table_map PAGE_ADDR_BITS st0 root v0 len0 flags) False (λ '(st', err), err = 0 ∧ ∃ path', path0 ⊆ path' ∧ mmu_inv path' st' ∧
    only PAGE_ADDR_BITS path0 st0 st' root inside ∧ (∀ a, inside a → mapping st' root a = None) ∧
    (fixed = false → ∀ a n e, inside a → mapping st0 root a = Some (n, e) → address e ≠ 0 → released path' st' (address e)) ∧
    ∀ x, x mod page_size = 0 → pool_refs (pool st0) x ≠ 0 → ¬ (fixed = false ∧ page_of_range x) → pool_refs (pool st') x = pool_refs (pool st0) x).
Proof.
  intros Hinv Hroom. assert (Hd0 : unmap_done v0 path0 st0).
  { split_and!; try done; [intros; lia| |intros; lia]. intros Hf a n e Ha Hm Hne. split; [done|]. by apply (owned Hf a n e). }
  eapply (wp_mono _ False); [apply (map_run_ok root v0 len0 flags unmap_done unmap_done (λ _ _ _, False)) with (path := path0); try done|done|].
  - intros path path' st st' v. apply unmap_done_stable.
  - intros path st v n table e. apply unmap_entry_ok.
  - intros path st v n e (Hsub & Honly & _) Hi Hv Hal Hany Hm Hnc. rewrite (Honly root v) in Hm; [|done|lia..]. destruct (owned Hany v n e Hv Hm) as [-> _].
    apply Hnc. split; rewrite chunk_0 by done; [done|]. apply whole_page; [lia|].
    destruct range as (_ & _ & _ & Hr1 & Hr2). pose proof (page_size_range _ page_bits). rewrite Zminus_mod, Zplus_mod, Hr1, Hr2, Hal, !Z.mod_0_l; lia.
  - intros [st' err] (path' & Hsub & [(-> & (_ & Ho & Hd & _ & Hrel & Hk) & Hi)|[_ []]]). split; [done|]. by exists path'.
Qed.
End unmapping.
End map.
