(* ===== verification/Mmupool.v ===== *)
(** * Mmupool: the page allocator as the source of page tables

    The pages of pages.c satisfy what the page tables ask for: every page has
    a count of references, a page that is handed out had none, and there is
    one to be had as long as a block has two that are free. *)

From S2P Require Import Prelude Queue Result Bits Pages Mmu Mmuinv.

Section pool.
Context (PAGE_ADDR_BITS : Z).
Hypothesis page_bits : 8 ≤ PAGE_ADDR_BITS ≤ 16.
Abbreviation page_size := (PAGE_SIZE PAGE_ADDR_BITS).
Abbreviation global_rel := (global_rel true PAGE_ADDR_BITS).
Abbreviation base := Pages.base.

Definition block_has (x : Z) (b : page_block) : bool := (base b <=? x) && (x <? base b + total_pages b * page_size).
Definition block_refs (b : page_block) (x : Z) : Z :=
  let k := Z.to_nat ((x - base b) / page_size) in if bit_at 16 (bitmap b) k then nth k (page_descriptors b) 0 else 0.
Definition blocks (g : global_pages) : list page_block := take (Z.to_nat (num_global_blocks g)) (global_blocks g).
Definition refs_at (g : global_pages) (x : Z) : Z :=
  match List.find (block_has x) (blocks g) with Some b => block_refs b x | None => 0 end.

(** The pages that a request of the given type may take. *)
Definition block_room (flags : Z) (b : page_block) : Z :=
  if Z.land (pb_flags b) (Z.land PAGE_F_TYPE flags) =? Z.land PAGE_F_TYPE flags then Z.max 0 (free_pages b - 1) else 0.
Fixpoint room (flags : Z) (bs : list page_block) : Z := match bs with [] => 0 | b :: bs => block_room flags b + room flags bs end.

Definition pool_ok (g : global_pages) : Prop :=
  (∃ ls, global_rel g ls) ∧ ∀ i b, global_blocks g !! i = Some b → base b mod page_size = 0.

Lemma blocks_lookup g ls i : global_rel g ls → blocks g !! i = if decide (i < length ls)%nat then global_blocks g !! i else None.
Proof.
  intros Hg. unfold blocks. rewrite (gr_num _ _ _ _ Hg), Nat2Z.id. destruct (decide _) as [Hi|Hi]; [by apply lookup_take_lt|].
  apply lookup_take_ge. lia.
Qed.

Lemma block_refs_ok g ls i b l k r : global_rel g ls → global_blocks g !! i = Some b → ls !! i = Some l → l !! k = Some r →
  block_refs b (base b + Z.of_nat k * page_size) = r.
Proof.
  intros Hg Hb Hl Hr. destruct (gr_rel _ _ _ _ Hg i b l Hb Hl) as [[Ht _] _]. destruct (tr_refs _ _ _ _ Ht k r Hr) as (_ & Hbit & Hd).
  pose proof (PAGE_SIZE_range _ page_bits). unfold block_refs. replace (base b + Z.of_nat k * page_size - base b) with (Z.of_nat k * page_size) by lia.
  rewrite Z.div_mul, Nat2Z.id, Hbit by lia. destruct (Z.eqb_spec r 0) as [->|Hne]; [done|]. destruct Hd as [?|Hd]; [done|]. simpl.
  by apply nth_lookup_Some.
Qed.

Lemma refs_in g ls i b l k r : global_rel g ls → global_blocks g !! i = Some b → ls !! i = Some l → l !! k = Some r →
  refs_at g (base b + Z.of_nat k * page_size) = r.
Proof.
  intros Hg Hb Hl Hr. pose proof (PAGE_SIZE_range _ page_bits) as Hps. unfold refs_at. set (x := base b + _).
  destruct (gr_rel _ _ _ _ Hg i b l Hb Hl) as [[Ht _] _]. pose proof (lookup_lt_Some _ _ _ Hr). pose proof (lookup_lt_Some _ _ _ Hl).
  assert (Hhas : block_has x b = true) by (unfold block_has, x; rewrite (tr_total _ _ _ _ Ht); nia).
  destruct (List.find (block_has x) (blocks g)) as [c|] eqn:Ef.
  - apply List.find_some in Ef as [Hin Hc]. apply list_elem_of_In, list_elem_of_lookup in Hin as [j Hj]. rewrite (blocks_lookup _ _ _ Hg) in Hj.
    destruct (decide _) as [Hjl|]; [|done]. destruct (lookup_lt_is_Some_2 ls j Hjl) as [lc Hlc]. destruct (gr_rel _ _ _ _ Hg j c lc Hj Hlc) as [[Htc _] _].
    unfold block_has in Hc. rewrite (tr_total _ _ _ _ Htc) in Hc. set (kc := Z.to_nat ((x - base c) / page_size)).
    pose proof (Z.div_mod (x - base c) page_size ltac:(lia)). pose proof (Z.mod_pos_bound (x - base c) page_size ltac:(lia)).
    assert (0 ≤ (x - base c) / page_size < zlen lc) by (split; [apply Z.div_pos; lia|apply Z.div_lt_upper_bound; lia]).
    destruct (block_unique true _ page_bits g ls i j b c l lc k kc x Hg) as [-> _]; try done; [unfold kc; lia|unfold x; lia|unfold kc; lia|].
    simplify_eq. by eapply block_refs_ok.
  - pose proof (List.find_none _ _ Ef b) as Hno. rewrite Hhas in Hno. discriminate Hno. apply list_elem_of_In, list_elem_of_lookup. exists i.
    rewrite (blocks_lookup _ _ _ Hg), decide_True by done. done.
Qed.

Lemma refs_out g ls x : global_rel g ls → (∀ i b l, global_blocks g !! i = Some b → ls !! i = Some l → ¬ base b ≤ x < base b + zlen l * page_size) → refs_at g x = 0.
Proof.
  intros Hg Hno. unfold refs_at. destruct (List.find _ _) as [c|] eqn:Ef; [|done]. exfalso.
  apply List.find_some in Ef as [Hin Hc]. apply list_elem_of_In, list_elem_of_lookup in Hin as [j Hj]. rewrite (blocks_lookup _ _ _ Hg) in Hj.
  destruct (decide _) as [Hjl|]; [|done]. destruct (lookup_lt_is_Some_2 ls j Hjl) as [lc Hlc]. destruct (gr_rel _ _ _ _ Hg j c lc Hj Hlc) as [[Htc _] _].
  apply (Hno j c lc Hj Hlc). unfold block_has in Hc. rewrite (tr_total _ _ _ _ Htc) in Hc. lia.
Qed.

Lemma page_where g ls x : global_rel g ls → (∀ j c, global_blocks g !! j = Some c → base c mod page_size = 0) → x mod page_size = 0 →
  (∃ j c lc k r, global_blocks g !! j = Some c ∧ ls !! j = Some lc ∧ lc !! k = Some r ∧ x = base c + Z.of_nat k * page_size) ∨
  (∀ j c lc, global_blocks g !! j = Some c → ls !! j = Some lc → ¬ base c ≤ x < base c + zlen lc * page_size).
Proof.
  intros Hg Hal Hx. pose proof (PAGE_SIZE_range _ page_bits). destruct (List.find (block_has x) (blocks g)) as [c|] eqn:Ef.
  - left. apply List.find_some in Ef as [Hin Hc]. apply list_elem_of_In, list_elem_of_lookup in Hin as [j Hj]. rewrite (blocks_lookup _ _ _ Hg) in Hj.
    destruct (decide _) as [Hjl|]; [|done]. destruct (lookup_lt_is_Some_2 ls j Hjl) as [lc Hlc]. destruct (gr_rel _ _ _ _ Hg j c lc Hj Hlc) as [[Htc _] _].
    unfold block_has in Hc. rewrite (tr_total _ _ _ _ Htc) in Hc.
    assert (Hm : (x - base c) mod page_size = 0) by (rewrite Zminus_mod, Hx, (Hal j c Hj); apply Z.mod_0_l; lia).
    apply Z_div_exact_full_2 in Hm; [|lia]. assert (0 ≤ (x - base c) / page_size < zlen lc) by (split; [apply Z.div_pos; lia|apply Z.div_lt_upper_bound; lia]).
    destruct (lookup_lt_is_Some_2 lc (Z.to_nat ((x - base c) / page_size))) as [r Hr]; [lia|]. exists j, c, lc, (Z.to_nat ((x - base c) / page_size)), r. split_and!; try done. lia.
  - right. intros j c lc Hc Hlc Hin. pose proof (List.find_none _ _ Ef c) as Hno. destruct (gr_rel _ _ _ _ Hg j c lc Hc Hlc) as [[Htc _] _].
    pose proof (lookup_lt_Some _ _ _ Hlc). assert (block_has x c = true) by (unfold block_has; rewrite (tr_total _ _ _ _ Htc); lia).
    rewrite Hno in *; [done|]. apply list_elem_of_In, list_elem_of_lookup. exists j. by rewrite (blocks_lookup _ _ _ Hg), decide_True.
Qed.

(** One count of one block changes. *)
Lemma refs_change g g' ls i b b' l k r r' : global_rel g ls → global_blocks g !! i = Some b → ls !! i = Some l → l !! k = Some r →
  global_rel g' (<[i := <[k := r']> l]> ls) → global_blocks g' !! i = Some b' → same_block b b' →
  (∀ j, j ≠ i → global_blocks g' !! j = global_blocks g !! j) → (∀ j c, global_blocks g !! j = Some c → base c mod page_size = 0) →
  ∀ x, x mod page_size = 0 → refs_at g' x = if x =? base b + Z.of_nat k * page_size then r' else refs_at g x.
Proof.
  intros Hg Hb Hl Hr Hg' Hb' (Hsb & _) Hoth Hal x Hx. pose proof (PAGE_SIZE_range _ page_bits). pose proof (lookup_lt_Some _ _ _ Hr). pose proof (lookup_lt_Some _ _ _ Hl).
  assert (Hl' : <[i := <[k := r']> l]> ls !! i = Some (<[k := r']> l)) by (by apply list_lookup_insert_eq).
  destruct (Z.eqb_spec x (base b + Z.of_nat k * page_size)) as [->|Hne].
  { rewrite <- Hsb. eapply refs_in; [done..|]. by apply list_lookup_insert_eq. }
  destruct (page_where g ls x Hg Hal Hx) as [(j & c & lc & kc & rc & Hc & Hlc & Hrc & ->)|Hout].
  - rewrite (refs_in g ls j c lc kc rc Hg Hc Hlc Hrc). destruct (decide (j = i)) as [->|Hji].
    + simplify_eq. rewrite <- Hsb. eapply refs_in; [done..|]. rewrite list_lookup_insert_ne; [done|]. intros ->. done.
    + eapply refs_in; [done|by rewrite Hoth| |done]. by rewrite list_lookup_insert_ne.
  - rewrite (refs_out g ls x Hg Hout). eapply refs_out; [done|]. intros j c lc Hc Hlc. destruct (decide (j = i)) as [->|Hji].
    + simplify_eq. rewrite Hsb, length_insert. by apply (Hout i).
    + rewrite Hoth in Hc by done. rewrite list_lookup_insert_ne in Hlc by done. by apply (Hout j).
Qed.

Lemma room_pos flags bs : 0 ≤ room flags bs.
Proof. induction bs as [|b bs IH]; simpl; [lia|]. unfold block_room. destruct (_ =? _); lia. Qed.

Lemma room_insert flags bs i b b' : bs !! i = Some b → room flags (<[i := b']> bs) = room flags bs - block_room flags b + block_room flags b'.
Proof. revert i. induction bs as [|c bs IH]; intros [|i] Hi; simplify_eq/=; [lia|]. rewrite IH by done. lia. Qed.

Lemma room_block flags bs : 0 < room flags bs → ∃ i b, bs !! i = Some b ∧ 0 < block_room flags b.
Proof.
  induction bs as [|b bs IH]; simpl; [lia|]. intros Hr. destruct (decide (0 < block_room flags b)); [by exists 0%nat, b|].
  destruct IH as (i & c & Hi & Hc); [lia|]. by exists (S i), c.
Qed.

Lemma first_fit_page l : 0 < count0 l → ∃ s, first_fit l 1 = Some s.
Proof.
  intros Hc. destruct (first_fit l 1) as [s|] eqn:E; [by exists s|]. exfalso.
  assert (Hno : ∀ k, (k < length l)%nat → l !! k ≠ Some 0).
  { intros k Hk Hl. pose proof (List.find_none _ _ E k) as Hn. rewrite in_seq in Hn. specialize (Hn ltac:(lia)).
    assert (run_at l 1 k = true); [|congruence]. apply run_at_true. intros j Hj. by replace (k + j)%nat with k by lia. }
  revert Hc Hno. clear E. induction l as [|r l IH]; simpl; [lia|]. intros Hc Hno. destruct (Z.eqb_spec r 0) as [->|].
  - by apply (Hno 0%nat); [lia|].
  - apply IH; [lia|]. intros k Hk. apply (Hno (S k)). lia.
Qed.

Lemma pages_one : page_count PAGE_ADDR_BITS page_size = 1%nat.
Proof. unfold page_count. pose proof (PAGE_SIZE_range _ page_bits). rewrite Z.div_same by lia. done. Qed.

Lemma room_change g g' ls i b b' l l' : global_rel g ls → global_blocks g !! i = Some b → ls !! i = Some l → global_rel g' (<[i := l']> ls) →
  global_blocks g' !! i = Some b' → same_block b b' → (∀ j, j ≠ i → global_blocks g' !! j = global_blocks g !! j) → count0 l - 1 ≤ count0 l' →
  ∀ f, room f (blocks g) - (if count0 l <=? count0 l' then 0 else 1) ≤ room f (blocks g').
Proof.
  intros Hg Hb Hl Hg' Hb' (_ & _ & Hf) Hoth Hc f. pose proof (lookup_lt_Some _ _ _ Hl).
  assert (E : blocks g' = <[i := b']> (blocks g)).
  { apply list_eq. intros j. rewrite (blocks_lookup _ _ _ Hg'), length_insert. destruct (decide (j = i)) as [->|Hne].
    - rewrite decide_True, list_lookup_insert_eq by (done || eapply lookup_lt_Some; rewrite (blocks_lookup _ _ _ Hg), decide_True by done; done). done.
    - rewrite list_lookup_insert_ne, (blocks_lookup _ _ _ Hg), Hoth by done. done. }
  rewrite E, (room_insert f _ i b) by (by rewrite (blocks_lookup _ _ _ Hg), decide_True).
  destruct (gr_rel _ _ _ _ Hg i b l Hb Hl) as [[_ Hfb] _].
  destruct (gr_rel _ _ _ _ Hg' i b' l' Hb') as [[_ Hfb'] _]; [by apply list_lookup_insert_eq|].
  unfold block_room. rewrite Hf, Hfb, Hfb'. destruct (_ =? _); [|zif; lia]. zif; lia.
Qed.

Lemma pool_ok_change g g' ls i b b' : pool_ok g → global_rel g' ls → global_blocks g !! i = Some b → global_blocks g' !! i = Some b' → same_block b b' →
  (∀ j, j ≠ i → global_blocks g' !! j = global_blocks g !! j) → pool_ok g'.
Proof.
  intros [_ Hal] Hg' Hb Hb' (Hsb & _) Hoth. split; [by exists ls|]. intros j c Hc. destruct (decide (j = i)) as [->|Hne].
  - simplify_eq. rewrite Hsb. by apply (Hal i).
  - rewrite Hoth in Hc by done. by apply (Hal j).
Qed.

Lemma pages_alloc_law g flags : pool_ok g → 0 < room flags (blocks g) →
  wp (lift (page_alloc true PAGE_ADDR_BITS g page_size flags)) False (λ '(g', a),
    pool_ok g' ∧ 0 < a < 2 ^ 32 ∧ a mod page_size = 0 ∧ refs_at g a = 0 ∧
    (∀ x, x mod page_size = 0 → refs_at g' x = if x =? a then 1 else refs_at g x) ∧ ∀ f, room f (blocks g) - 1 ≤ room f (blocks g')).
Proof.
  intros [[ls Hg] Hal] Hroom. pose proof (PAGE_SIZE_range _ page_bits) as Hps.
  assert (Hel : ∀ b, eligible PAGE_ADDR_BITS page_size flags b = true → 1 < free_pages b).
  { intros b. unfold eligible. rewrite Z.div_same by lia. lia. }
  destruct (page_alloc_ok true _ page_bits g ls page_size flags Hg ltac:(lia)) as
    [[_ [Hnone|(i & b & l & Hb & Hl & He & Hff)]]|(i & b & l & s & g' & b' & Hb & Hl & He & _ & Hrun & Hle & -> & Hg' & Hb' & Hsame & Hoth)].
  - exfalso. destruct (room_block _ _ Hroom) as (i & b & Hi & Hb). rewrite (blocks_lookup _ _ _ Hg) in Hi. destruct (decide _) as [Hlt|]; [|done].
    specialize (Hnone i b Hlt Hi). unfold eligible in Hnone. rewrite Z.div_same in Hnone by lia. unfold block_room in Hb. destruct (_ =? _); [|lia]. simpl in Hnone. lia.
  - exfalso. destruct (gr_rel _ _ _ _ Hg i b l Hb Hl) as [[_ Hf] _]. destruct He as [(c & Hc & He) _]. simplify_eq. specialize (Hel _ He). rewrite pages_one in Hff.
    destruct (first_fit_page l ltac:(lia)) as [s Hs]. congruence.
  - rewrite pages_one in *. rewrite run_at_true in Hrun. specialize (Hrun 0%nat ltac:(lia)). rewrite Nat.add_0_r in Hrun.
    simpl in Hg'. rewrite <- insert_splice in Hg' by (by eapply lookup_lt_Some). simpl.
    destruct (gr_rel _ _ _ _ Hg i b l Hb Hl) as [[Ht _] Hend]. pose proof (tr_base _ _ _ _ Ht). pose proof (lookup_lt_Some _ _ _ Hrun).
    split_and!.
    + eapply pool_ok_change; [by split; [exists ls|]|done..].
    + lia.
    + nia.
    + by rewrite Z.mod_add, (Hal i b Hb) by lia.
    + by apply (refs_in g ls i b l s 0).
    + by eapply refs_change.
    + intros f. pose proof (room_change g g' ls i b b' l _ Hg Hb Hl Hg' Hb' Hsame Hoth) as Hrc. rewrite (count0_insert l s 0 1 Hrun) in Hrc. simpl in Hrc.
      specialize (Hrc ltac:(lia) f). zif_in Hrc; lia.
Qed.

Lemma pages_free_law g a : pool_ok g → 0 < refs_at g a → a mod page_size = 0 →
  wp (lift (page_free true PAGE_ADDR_BITS g a page_size)) False (λ g', pool_ok g' ∧
    (∀ x, x mod page_size = 0 → refs_at g' x = if x =? a then refs_at g x - 1 else refs_at g x) ∧ ∀ f, room f (blocks g) ≤ room f (blocks g')).
Proof.
  intros [[ls Hg] Hal] Hpos Ha. pose proof (PAGE_SIZE_range _ page_bits) as Hps.
  destruct (page_where g ls a Hg Hal Ha) as [(i & b & l & k & r & Hb & Hl & Hr & ->)|Hout]; [|rewrite (refs_out g ls) in Hpos by done; lia].
  rewrite (refs_in g ls i b l k r Hg Hb Hl Hr) in Hpos. pose proof (lookup_lt_Some _ _ _ Hr). pose proof (lookup_lt_Some _ _ _ Hl).
  destruct (gr_rel _ _ _ _ Hg i b l Hb Hl) as [Hrel Hend]. pose proof (tr_base _ _ _ _ (proj1 Hrel)). destruct (tr_refs _ _ _ _ (proj1 Hrel) k r Hr) as (Hrr & _).
  assert (Hpg : page_of PAGE_ADDR_BITS (base b) (base b + Z.of_nat k * page_size) = k).
  { unfold page_of. replace (base b + Z.of_nat k * page_size - base b) with (Z.of_nat k * page_size) by lia. rewrite Z.div_mul by lia. lia. }
  assert (Hsl : slice l k 1 = [r]). { unfold slice. by rewrite (drop_S l r k). }
  destruct (page_block_free_ok true _ page_bits b l (base b + Z.of_nat k * page_size) page_size Hrel) as (b' & Ef & Hrel' & Hsame); [nia|lia| | |].
  { rewrite Hpg, pages_one. lia. } { rewrite Hpg, pages_one, Hsl. repeat constructor; lia. }
  rewrite Hpg, pages_one in Hrel'. unfold add_refs in Hrel'. rewrite Hsl in Hrel'. simpl in Hrel'. rewrite <- insert_splice in Hrel' by done.
  destruct (set_block_rel true _ g ls i b b' (<[k := r + -1]> l) Hg Hb) as (g' & Es & Hg' & Hb' & _ & Hoth); [done..|].
  unfold page_free. rewrite (in_block_own true _ page_bits g ls i b l) by (done || nia). simpl. rewrite Ef. simpl. rewrite Es. simpl. split_and!.
  - eapply pool_ok_change; [by split; [exists ls|]|done..].
  - intros x Hx. rewrite (refs_change g g' ls i b b' l k r (r + -1)) by done. destruct (Z.eqb_spec x (base b + Z.of_nat k * page_size)) as [->|]; [|done].
    by rewrite (refs_in g ls i b l k r).
  - intros f. pose proof (room_change g g' ls i b b' l _ Hg Hb Hl Hg' Hb' Hsame Hoth) as Hrc. rewrite (count0_insert l k r (r + -1) Hr) in Hrc.
    destruct (Z.eqb_spec r 0); [lia|]. destruct (_ =? 0); specialize (Hrc ltac:(lia) f); zif_in Hrc; lia.
Qed.

#[export] Instance pages_pool : PagePool global_pages := {
  pool_alloc g size flags := lift (page_alloc true PAGE_ADDR_BITS g size flags);
  pool_free g ptr size := lift (page_free true PAGE_ADDR_BITS g ptr size);
  pool_ref g ptr size := '(g, _) ← lift (page_make_ref PAGE_ADDR_BITS g ptr size); Val g;
}.

#[export] Instance pages_pool_laws : PoolLaws global_pages PAGE_ADDR_BITS := {
  pool_inv := pool_ok;
  pool_refs := refs_at;
  pool_room g flags := room flags (blocks g);
  pool_alloc_law := pages_alloc_law;
  pool_free_law := pages_free_law;
}.
End pool.
