(* ===== verification/Mmurun.v ===== *)
(** * Mmurun: page tables over the page allocator, and what mmu.c gets wrong

    Examples of the theorems of Mmumap.v with the page allocator of Pages.v, and
    calls of mmu_table_map that do not do what they should. *)

From S2P Require Import Prelude Queue Result Bits Pages Mmu Mmuinv Mmuops Mmumap Mmupool.

Lemma bits_8 : 8 ≤ 8 ≤ 16.
Proof. lia. Qed.

#[local] Instance example_pool : PagePool global_pages := pages_pool 8.
#[local] Instance example_pool_laws : PoolLaws global_pages 8 := pages_pool_laws 8 bits_8.
Abbreviation mapping8 := (mapping 8).
Abbreviation inv8 := (mmu_inv 8).

Definition start : mmu global_pages := Mmu ∅ example_global.

Lemma start_inv : inv8 ∅ start.
Proof.
  split; [|split].
  - split; [eexists; apply example_global_rel|]. intros [|i] b Hb; [|done]. by injection Hb as <-.
  - by intros ? ? ? ?.
  - intros table [? ?]. done.
Qed.

(** A root table that maps nothing. *)
Lemma start_root : ∃ path st root, inv8 path st ∧ is_root 8 path root ∧ 28 ≤ pool_room (pool st) PAGE_F_USER ∧ ∀ a, mapping8 st root a = None.
Proof.
  destruct (wp_returns _ _ (table_alloc_ok 8 bits_8 ∅ start start_inv ltac:(done))) as ([st root] & _ & path & _ & Hinv & Hroot & _ & _ & Hroom & Hno).
  exists path, st, root. split_and!; try done. specialize (Hroom PAGE_F_USER). change (pool_room (pool start) PAGE_F_USER) with 29 in Hroom. lia.
Qed.

Lemma mmu_map_ok_witness : ∃ path st root, inv8 path st ∧
  wp (mmu_table_map 8 st root 4096 512 (Z.lor MMU_OP_MAP (Z.lor MMU_TYPE_PREALLOCATED MMU_FLAG_WRITE))) False (λ '(st', err), ∃ path', path ⊆ path' ∧ inv8 path' st' ∧
    only 8 path st st' root (λ a, 4096 ≤ a < 4096 + 512) ∧ keeps 8 st st' ∧
    (err = 0 ∧ (∀ a, 4096 ≤ a < 4096 + 512 → mapped 8 st root (Z.lor MMU_OP_MAP (Z.lor MMU_TYPE_PREALLOCATED MMU_FLAG_WRITE)) st' a) ∧
       apart 8 root 4096 (Z.lor MMU_OP_MAP (Z.lor MMU_TYPE_PREALLOCATED MMU_FLAG_WRITE)) st' (4096 + 512) ∨
     err = EEXIST ∧ Z.land (Z.lor MMU_OP_MAP (Z.lor MMU_TYPE_PREALLOCATED MMU_FLAG_WRITE)) MMU_FLAG_TYPE = MMU_TYPE_FIXED ∧
       ∃ v, stopped_at 8 path root 4096 512 v ∧
         (∀ a, 4096 ≤ a < v → mapped 8 st root (Z.lor MMU_OP_MAP (Z.lor MMU_TYPE_PREALLOCATED MMU_FLAG_WRITE)) st' a) ∧
         ∀ a, v ≤ a < 4096 + 512 → mapping8 st' root a = None)).
Proof.
  destruct start_root as (path & st & root & Hinv & Hroot & Hroom & Hno). exists path, st, root. split; [done|].
  apply (mmu_map_ok 8 bits_8); [vm_compute; intuition discriminate|done|by right; right|intros; apply Hno|done|done|].
  change (Z.of_nat (Z.to_nat (MMU_TABLE_LEVELS 8)) * (512 / PAGE_SIZE 8)) with 8. lia.
Defined.

(** ... and one that maps a page. *)
Lemma start_page : ∃ path st root phys e, inv8 path st ∧ is_root 8 path root ∧ 20 ≤ pool_room (pool st) PAGE_F_USER ∧
  0 < pool_refs (pool st) phys ∧ path !! phys = None ∧ MMU_TABLE_ADDRESS 8 e = phys ∧
  ∀ a, 0 ≤ a < space 8 → mapping8 st root a = if a / 256 =? 16 then Some (0%nat, e) else None.
Proof.
  destruct start_root as (path & st & root & Hinv & Hroot & Hroom & Hno). pose proof Hinv as (Hpool & Hok & Href).
  destruct (wp_returns _ _ (pool_alloc_law (pool st) PAGE_F_USER Hpool ltac:(lia))) as ([p phys] & _ & Hp & Hr & Hal & Hz & Hrefs & Hrm).
  assert (Hinv1 : inv8 path (set_pool st p)).
  { split; [done|]. split; [done|]. intros tb [[[r n] b] Htb]. destruct (Hok _ _ _ _ Htb) as (_ & Ha & _). change (pool (set_pool st p)) with p. rewrite Hrefs by done.
    destruct (tb =? phys); [lia|]. apply Href. by eexists. }
  assert (Hnp : path !! phys = None). { destruct (path !! phys) eqn:E; [|done]. specialize (Href phys ltac:(by eexists)). lia. }
  specialize (Hrm PAGE_F_USER).
  destruct (wp_returns _ _ (set_page_ok 8 bits_8 path (set_pool st p) root 4096 phys 256 MMU_FLAG_WRITE Hinv1 Hroot ltac:(vm_compute; intuition discriminate) Hr Hal ltac:(change (3 ≤ pool_room p PAGE_F_USER); lia)))
    as ([st' err] & _ & path' & Hsub & Hinv' & Hkeep & Hgr & Hroom' & Hpost).
  assert (Hl : page_level 8 (set_pool st p) root 4096 = 0%nat) by (unfold page_level; change (mapping 8 (set_pool st p) root 4096) with (mapping8 st root 4096); by rewrite Hno).
  rewrite Hl in Hpost. change (256 =? chunk 8 0) with true in Hpost. destruct Hpost as (-> & _ & e & He & Hd & Hw & _).
  specialize (Hroom' PAGE_F_USER). change (pool_room p PAGE_F_USER - 3 ≤ pool_room (pool st') PAGE_F_USER) in Hroom'.
  specialize (Hkeep phys Hal). change (pool (set_pool st p)) with p in Hkeep. rewrite Hrefs, Z.eqb_refl in Hkeep by done.
  exists path', st', root, phys, e. split_and!; try done; [by eapply lookup_weaken|lia|rewrite Hkeep; lia| |].
  - destruct (path' !! phys) eqn:E; [|done]. destruct Hgr as [Hgr _]. destruct (Hgr phys _ E) as [Hx|[Hx _]]; [congruence|]. change (pool (set_pool st p)) with p in Hx. rewrite Hrefs, Z.eqb_refl in Hx by done. lia.
  - intros a Ha. rewrite Hw by done. change (chunk 8 0) with 256. change (4096 / 256) with 16. change (mapping 8 (set_pool st p) root a) with (mapping8 st root a). rewrite Hno.
    unfold leaf. cbn [mbind option_bind]. rewrite Hd. case_bool_decide as Hc; destruct (Z.eqb_spec (a / 256) 16); (tauto || done).
Qed.

Lemma mmu_unmap_ok_witness : ∃ path st root e, mapping8 st root 4100 = Some (0%nat, e) ∧
  wp (mmu_table_map 8 st root 4096 512 (Z.lor MMU_OP_UNMAP MMU_TYPE_PREALLOCATED)) False (λ '(st', err), err = 0 ∧ ∃ path', path ⊆ path' ∧ inv8 path' st' ∧
    only 8 path st st' root (inside 4096 512) ∧ (∀ a, inside 4096 512 a → mapping8 st' root a = None) ∧
    (any (Z.lor MMU_OP_UNMAP MMU_TYPE_PREALLOCATED) = false → ∀ a n e, inside 4096 512 a → mapping8 st root a = Some (n, e) → MMU_TABLE_ADDRESS 8 e ≠ 0 →
       released 8 st path' st' (MMU_TABLE_ADDRESS 8 e)) ∧
    ∀ x, x mod PAGE_SIZE 8 = 0 → pool_refs (pool st) x ≠ 0 →
      ¬ (any (Z.lor MMU_OP_UNMAP MMU_TYPE_PREALLOCATED) = false ∧ page_of_range 8 st root 4096 512 x) → pool_refs (pool st') x = pool_refs (pool st) x).
Proof.
  destruct start_page as (path & st & root & phys & e & Hinv & Hroot & Hroom & Hrefs & Hnp & He & Hm). exists path, st, root, e.
  assert (Hin : ∀ a n e', inside 4096 512 a → mapping8 st root a = Some (n, e') → n = 0%nat ∧ e' = e ∧ a / 256 = 16).
  { intros a n e' Ha. unfold inside in Ha. rewrite Hm by (change (space 8) with (2 ^ 32); lia). destruct (Z.eqb_spec (a / 256) 16); [|done]. intros. by simplify_eq. }
  split; [by rewrite Hm|]. apply (mmu_unmap_ok 8 bits_8).
  - vm_compute. intuition discriminate.
  - done.
  - done.
  - done.
  - intros _ a n e' Ha Hma. destruct (Hin a n e' Ha Hma) as (-> & -> & _). split; [done|]. by rewrite He.
  - intros _ a a' n n' e1 e2 Ha Ha' Hma Hma' _ _. destruct (Hin _ _ _ Ha Hma) as (_ & _ & H1). destruct (Hin _ _ _ Ha' Hma') as (_ & _ & H2).
    change (PAGE_SIZE 8) with 256. congruence.
  - done.
  - change (Z.of_nat (Z.to_nat (MMU_TABLE_LEVELS 8)) * (512 / PAGE_SIZE 8)) with 8. lia.
Defined.

(** ** Examples *)

(** Calls of mmu_table_map in turn, on a new root; their results. *)
Fixpoint map_calls (st : mmu global_pages) (root : Z) (calls : list (Z * Z * Z)) : res (mmu global_pages * list Z) :=
  match calls with
  | [] => Val (st, [])
  | (v, len, flags) :: calls =>
      '(st, err) ← mmu_table_map 8 st root v len flags; '(st, errs) ← map_calls st root calls; Val (st, err :: errs)
  end.
Definition map_calls_then {A} (calls : list (Z * Z * Z)) (f : mmu global_pages → Z → list Z → A) : res A :=
  '(st, root) ← mmu_table_alloc 8 start; '(st, errs) ← map_calls st root calls; Val (f st root errs).
Definition map_fixed : Z := Z.lor MMU_OP_MAP (Z.lor MMU_TYPE_FIXED MMU_FLAG_WRITE).
Definition unmap_fixed : Z := Z.lor MMU_OP_UNMAP MMU_TYPE_FIXED.
Definition where_is (st : mmu global_pages) (root a : Z) : option (nat * Z) := mapping8 st root a.

(** 16384 bytes, the reach of one entry of level 1, are one descriptor. *)
Lemma fixed_uses_chunks : map_calls_then [(0, 16384 + 256, map_fixed)]
  (λ st root errs, (errs, fst <$> where_is st root 300, fst <$> where_is st root 16384, where_is st root 16640)) = Val ([0], Some 1%nat, Some 0%nat, None).
Proof. vm_compute. reflexivity. Qed.

(** An address of the first page that nothing maps is found, at physical address 0. *)
Lemma get_page_low : map_calls_then [(512, 256, map_fixed)]
  (λ st root errs, (where_is st root 256, mmu_table_get_page 8 st root 256)) = Val (None, Val (0, 0, 256)).
Proof. vm_compute. reflexivity. Qed.

(** A second chunk that has a table, although it maps nothing any more, makes a
    fixed mapping fail when the first chunk has been mapped. *)
Lemma fixed_stops_at_table :
  map_calls_then [(16384, 256, map_fixed); (16384, 256, unmap_fixed); (0, 32768, map_fixed)]
    (λ st root errs, (errs, fst <$> where_is st root 0, where_is st root 16384)) = Val ([0; 0; EEXIST], Some 1%nat, None).
Proof. vm_compute. reflexivity. Qed.

(** Unmapping from the middle of a chunk takes what is before it, and leaves the end. *)
Lemma unmap_in_chunk :
  map_calls_then [(0, 32768, map_fixed); (8192, 16384, unmap_fixed)]
    (λ st root errs, (errs, where_is st root 0, fst <$> where_is st root 20000)) = Val ([0; 0], None, Some 1%nat).
Proof. vm_compute. reflexivity. Qed.

(** Without a free page there is no table: the code clears the memory at address 0. *)
Lemma no_page_for_table : mmu_table_alloc 8 (Mmu ∅ (GlobalPages 0 [])) = Undef.
Proof. vm_compute. reflexivity. Qed.
