(* ===== verification/Packet.v ===== *)
(** * Packet: packets and the internet checksum (kernel/net/packet.c, ipv4.c)

    A packet is a buffer of bytes with the offsets of its headers.  The
    processor is big endian, so be16toh and the like are the identity; a 16 or
    32 bit field is read from and written to its bytes.  The checksum of
    ipv4.c is compared with the sum in ones' complement arithmetic that the
    protocols define. *)

From S2P Require Import Prelude Queue Result Iovec.

(** ** Fields *)

Definition get16 (d : list Z) (i : Z) : option Z := a ← rd d i; b ← rd d (i + 1); Some (a * 256 + b).
Definition get32 (d : list Z) (i : Z) : option Z := a ← get16 d i; b ← get16 d (i + 2); Some (a * 65536 + b).
Definition put16 (d : list Z) (i v : Z) : option (list Z) := d ← wr d i (v / 256 mod 256); wr d (i + 1) (v mod 256).
Definition put32 (d : list Z) (i v : Z) : option (list Z) := d ← put16 d i (v / 65536 mod 65536); put16 d (i + 2) (v mod 65536).

(** ** Protocols and packets *)

Record protocol := Protocol { domain : Z; type : Z; protocol_num : Z }.
Record ipv4_address := Ipv4 { addr : Z; port : Z }.

(** [packet_custom_data] holds the addresses (struct ipv4_custom_data). *)
Record packet := Packet {
  proto : option protocol;
  ifdev : Z;
  network_offset : Z;
  transport_offset : Z;
  data_offset : Z;
  custom_src : ipv4_address;
  custom_dest : ipv4_address;
  pack_length : Z;
  capacity : Z;
  pack_data : list Z;
}.

Definition set_proto p x := Packet x (ifdev p) (network_offset p) (transport_offset p) (data_offset p) (custom_src p) (custom_dest p) (pack_length p) (capacity p) (pack_data p).
Definition set_ifdev p x := Packet (proto p) x (network_offset p) (transport_offset p) (data_offset p) (custom_src p) (custom_dest p) (pack_length p) (capacity p) (pack_data p).
Definition set_network p x := Packet (proto p) (ifdev p) x (transport_offset p) (data_offset p) (custom_src p) (custom_dest p) (pack_length p) (capacity p) (pack_data p).
Definition set_transport p x := Packet (proto p) (ifdev p) (network_offset p) x (data_offset p) (custom_src p) (custom_dest p) (pack_length p) (capacity p) (pack_data p).
Definition set_data_offset p x := Packet (proto p) (ifdev p) (network_offset p) (transport_offset p) x (custom_src p) (custom_dest p) (pack_length p) (capacity p) (pack_data p).
Definition set_custom p s d := Packet (proto p) (ifdev p) (network_offset p) (transport_offset p) (data_offset p) s d (pack_length p) (capacity p) (pack_data p).
Definition set_length p x := Packet (proto p) (ifdev p) (network_offset p) (transport_offset p) (data_offset p) (custom_src p) (custom_dest p) x (capacity p) (pack_data p).
Definition set_pack_data p x := Packet (proto p) (ifdev p) (network_offset p) (transport_offset p) (data_offset p) (custom_src p) (custom_dest p) (pack_length p) (capacity p) x.

(** kzalloc panics when there is no memory, so there is always a packet; the
    capacity is kept in 16 bits. *)
Definition packet_alloc (ifdev : Z) (proto : option protocol) (cap : Z) : packet :=
  Packet proto ifdev 0 0 0 (Ipv4 0 0) (Ipv4 0 0) 0 (u16 cap) (replicate (Z.to_nat cap) 0).

Definition ENOMEM : Z := -12.

Definition packet_append (pack : packet) (ptr : list Z) (nbytes : Z) : option (packet * Z) :=
  if capacity pack <? pack_length pack + nbytes then Some (pack, ENOMEM)
  else
    src ← rd_range ptr 0 nbytes;
    d ← wr_range (pack_data pack) (pack_length pack) src;
    Some (set_length (set_pack_data pack d) (u16 (pack_length pack + nbytes)), 0).

Definition packet_append_iovec (pack : packet) (iter : iovec_iter) : option (packet * iovec_iter * Z) :=
  let nbytes := iovec_iter_remaining iter in
  if capacity pack <? u32 (pack_length pack + nbytes) then Some (pack, iter, ENOMEM)
  else
    dest ← rd_range (pack_data pack) (pack_length pack) (zlen (pack_data pack) - pack_length pack);
    '(iter, dest, nbytes) ← memcpy_out_of_iter iter dest nbytes;
    d ← wr_range (pack_data pack) (pack_length pack) dest;
    Some (set_length (set_pack_data pack d) (u16 (pack_length pack + nbytes)), iter, 0).

(** ** The table of protocols (kernel/net/protocol.c) *)

Definition PROTOCOLS_MAX : Z := 4.

Definition init_net_protocol : list (option protocol) := replicate 4 None.

Fixpoint net_register_protocol (proto_list : list (option protocol)) (proto : protocol) : list (option protocol) * Z :=
  match proto_list with
  | [] => ([], ENOMEM)
  | None :: l => (Some proto :: l, 0)
  | Some q :: l => let '(l, e) := net_register_protocol l proto in (Some q :: l, e)
  end.

Fixpoint net_get_protocol (proto_list : list (option protocol)) (dom typ num : Z) : option protocol :=
  match proto_list with
  | [] => None
  | Some q :: l =>
      if (domain q =? dom) && ((num =? 0) || (protocol_num q =? num)) && ((typ =? 0) || (type q =? typ)) then Some q
      else net_get_protocol l dom typ num
  | None :: l => net_get_protocol l dom typ num
  end.

(** ** The checksum *)

Fixpoint sum_words (n : nat) (d : list Z) (i checksum : Z) : option Z :=
  match n with
  | O => Some checksum
  | S n => w ← get16 d i; sum_words n d (i + 2) (u32 (checksum + w))
  end.

(** ipv4_calculate_checksum on the [len] bytes from [off] on. *)
Definition ipv4_calculate_checksum (d : list Z) (off len start : Z) : option Z :=
  checksum ← sum_words (Z.to_nat (Z.shiftr len 1)) d off start;
  checksum ← (if Z.land len 1 =? 0 then Some checksum else b ← rd d (off + len - 1); Some (u32 (checksum + Z.shiftl b 8)));
  let carry := u16 (Z.shiftr checksum 16) in
  let checksum := Z.land checksum 65535 in
  let checksum := checksum + carry in
  let checksum := if Z.shiftr checksum 16 =? 0 then checksum else checksum + 1 in
  Some (Z.land (Z.lnot checksum) 65535).

(** ** The reference: ones' complement sums (RFC 1071) *)

Definition onec_add (a b : Z) : Z := let s := a + b in s mod 65536 + s / 65536.

(** The 16 bit words of a byte string, a last byte padded with zero. *)
Fixpoint words (l : list Z) : list Z :=
  match l with
  | [] => []
  | [a] => [a * 256]
  | a :: b :: l => (a * 256 + b) :: words l
  end.

Definition onec_sum (start : Z) (ws : list Z) : Z := fold_left onec_add ws start.
(** The checksum of [l] after a sum [start] of other words. *)
Definition internet_checksum (start : Z) (l : list Z) : Z := 65535 - onec_sum start (words l).

Definition bytes_ok (l : list Z) : Prop := Forall (λ b, 0 ≤ b < 256) l.

(** ** Lemmas *)

Lemma bytes_slice l i n : bytes_ok l → bytes_ok (slice l i n).
Proof. intros Hl. by apply Forall_take, Forall_drop. Qed.

Lemma bytes_splice l i bs : bytes_ok l → bytes_ok bs → bytes_ok (splice l i bs).
Proof. intros Hl Hb. unfold splice. apply Forall_app. split; [by apply Forall_take|]. apply Forall_app. split; [done|by apply Forall_drop]. Qed.

Lemma bytes_rd l i b : bytes_ok l → rd l i = Some b → 0 ≤ b < 256.
Proof. intros Hl [_ Hi]%rd_some. by eapply Forall_lookup_1 in Hl. Qed.

Lemma get16_ok d i : 0 ≤ i → i + 1 < zlen d → ∃ a b, d !! Z.to_nat i = Some a ∧ d !! S (Z.to_nat i) = Some b ∧ get16 d i = Some (a * 256 + b).
Proof.
  intros Hi Hl. destruct (rd_in_range d i) as [a Ha]; [lia|]. destruct (rd_in_range d (i + 1)) as [b Hb]; [lia|]. exists a, b. unfold get16.
  rewrite Ha, Hb. apply rd_some in Ha as [_ Ha], Hb as [_ Hb]. split; [done|]. split; [|done]. by replace (S (Z.to_nat i)) with (Z.to_nat (i + 1)) by lia.
Qed.

Lemma put16_ok d i v : 0 ≤ i → i + 1 < zlen d → 0 ≤ v < 65536 → put16 d i v = Some (splice d (Z.to_nat i) [v / 256; v mod 256]).
Proof.
  intros Hi Hl Hv. unfold put16. rewrite (Z.mod_small (v / 256)) by (split; [apply Z.div_pos; lia|apply Z.div_lt_upper_bound; lia]).
  rewrite wr_in_range by lia. simpl. rewrite wr_in_range by (rewrite length_insert; lia). f_equal.
  replace (Z.to_nat (i + 1)) with (S (Z.to_nat i)) by lia. set (k := Z.to_nat i) in *. apply list_eq. intros j.
  rewrite lookup_splice by (simpl; lia). simpl. destruct (Nat.ltb_spec j k); [rewrite !list_lookup_insert_ne by lia; done|].
  destruct (Nat.ltb_spec j (k + 2)); [|rewrite !list_lookup_insert_ne by lia; done].
  destruct (decide (j = k)) as [->|]; [rewrite list_lookup_insert_ne, list_lookup_insert_eq, Nat.sub_diag by lia; done|].
  replace j with (S k) by lia. rewrite list_lookup_insert_eq by (rewrite length_insert; lia). by replace (S k - k)%nat with 1%nat by lia.
Qed.

Lemma splice_within_range (d bs : list Z) k : (k + length bs ≤ length d)%nat → splice d k (splice (slice d k (length d - k)) 0 bs) = splice d k bs.
Proof.
  intros Hl. unfold splice, slice. rewrite (take_ge (drop k d)) by (rewrite length_drop; lia). simpl. rewrite drop_drop, <- !app_assoc. do 2 f_equal.
  rewrite (drop_ge d (k + length (bs ++ drop (k + length bs) d))) by (rewrite length_app, length_drop; lia). apply app_nil_r.
Qed.

(** ** Sums *)

Definition sum (ws : list Z) : Z := fold_right Z.add 0 ws.
(** The ones' complement value of a sum. *)
Definition norm (s : Z) : Z := if s =? 0 then 0 else (s - 1) mod 65535 + 1.
Definition word16 (w : Z) : Prop := 0 ≤ w < 65536.

Lemma norm_spec s : 0 ≤ s → ∃ q, s = 65535 * q + norm s ∧ 0 ≤ norm s ≤ 65535 ∧ (s = 0 ↔ norm s = 0).
Proof.
  intros Hs. unfold norm. destruct (Z.eqb_spec s 0) as [->|Hne]; [exists 0; lia|]. exists ((s - 1) / 65535).
  pose proof (Z.div_mod (s - 1) 65535 ltac:(lia)). pose proof (Z.mod_pos_bound (s - 1) 65535 ltac:(lia)). lia.
Qed.

Lemma norm_unique s r q : 0 ≤ s → s = 65535 * q + r → 0 ≤ r ≤ 65535 → (s = 0 ↔ r = 0) → norm s = r.
Proof. intros Hs E Hr H0. destruct (norm_spec s Hs) as (q' & E' & Hr' & H0'). lia. Qed.

Lemma norm_add a b : 0 ≤ a → 0 ≤ b → norm (norm a + b) = norm (a + b).
Proof.
  intros Ha Hb. destruct (norm_spec a Ha) as (q & E & Hr & H0). destruct (norm_spec (a + b) ltac:(lia)) as (q' & E' & Hr' & H0').
  apply (norm_unique _ _ (q' - q)); lia.
Qed.

Lemma onec_add_norm a b : word16 a → word16 b → onec_add a b = norm (a + b) ∧ word16 (onec_add a b).
Proof.
  intros Ha Hb. unfold word16 in *. pose proof (Z.div_mod (a + b) 65536 ltac:(lia)). pose proof (Z.mod_pos_bound (a + b) 65536 ltac:(lia)).
  assert (0 ≤ (a + b) / 65536 < 2) by (split; [apply Z.div_pos; lia|apply Z.div_lt_upper_bound; lia]).
  unfold onec_add. split; [|lia]. symmetry. apply (norm_unique _ _ ((a + b) / 65536)); lia.
Qed.

Lemma sum_pos ws : Forall word16 ws → 0 ≤ sum ws ≤ 65535 * zlen ws.
Proof. induction 1 as [|w ws Hw _ IH]; simpl; [lia|]. unfold word16 in Hw. lia. Qed.

Lemma sum_app ws1 ws2 : sum (ws1 ++ ws2) = sum ws1 + sum ws2.
Proof. induction ws1 as [|w ws IH]; simpl; lia. Qed.

Lemma onec_sum_norm ws : Forall word16 ws → ∀ s, word16 s → onec_sum s ws = norm (s + sum ws).
Proof.
  induction 1 as [|w ws Hw Hws IH]; intros s Hs; simpl.
  - unfold word16 in Hs. rewrite (norm_unique _ s 0); lia.
  - destruct (onec_add_norm s w Hs Hw) as [E Hr]. rewrite (IH _ Hr), E. rewrite norm_add by (unfold word16 in *; pose proof (sum_pos _ Hws); lia).
    f_equal. lia.
Qed.

Lemma words_ok l : bytes_ok l → Forall word16 (words l) ∧ (2 * length (words l) ≤ length l + 1)%nat.
Proof.
  revert l. fix IH 1. intros [|a [|b l]] Hl.
  - split; [constructor|simpl; lia].
  - apply Forall_cons in Hl as [Ha _]. split; [|simpl; lia]. repeat constructor; unfold word16; lia.
  - apply Forall_cons in Hl as [Ha [Hb Hl]%Forall_cons]. destruct (IH l Hl) as [Hw Hn]. split; [|simpl; lia]. constructor; [unfold word16; lia|done].
Qed.

Lemma words_app n l1 l2 : length l1 = (2 * n)%nat → words (l1 ++ l2) = words l1 ++ words l2.
Proof.
  revert l1. induction n as [|n IH]; intros l1 Hl; [by destruct l1|]. destruct l1 as [|a [|b l1]]; [simpl in Hl; lia..|]. simpl in *. rewrite IH by lia. done.
Qed.

Lemma slice_2 (d : list Z) i m a b : d !! i = Some a → d !! S i = Some b → slice d i (S (S m)) = a :: b :: slice d (S (S i)) m.
Proof. intros Ha Hb. unfold slice. rewrite (drop_S _ _ _ Ha), (drop_S _ _ _ Hb). done. Qed.

Lemma sum_words_ok n d : ∀ i c, bytes_ok d → 0 ≤ i → i + 2 * Z.of_nat n ≤ zlen d → 0 ≤ c → c + 65535 * Z.of_nat n < 2 ^ 32 →
  sum_words n d i c = Some (c + sum (words (slice d (Z.to_nat i) (2 * n)))).
Proof.
  induction n as [|n IH]; intros i c Hd Hi Hl Hc Hs; [change (2 * 0)%nat with 0%nat; rewrite slice_0; simpl; f_equal; lia|].
  destruct (get16_ok d i) as (a & b & Ha & Hb & E); [lia..|]. cbn [sum_words]. rewrite E. cbn [mbind option_bind].
  assert (0 ≤ a < 256) by (by eapply Forall_lookup_1 in Hd). assert (0 ≤ b < 256) by (by eapply (Forall_lookup_1 _ _ _ _ Hd)).
  rewrite u32_small by lia. rewrite IH by (done || lia). replace (2 * S n)%nat with (S (S (2 * n))) by lia.
  rewrite (slice_2 _ _ _ _ _ Ha Hb). replace (Z.to_nat (i + 2)) with (S (S (Z.to_nat i))) by lia. cbn [words]. change (sum (?x :: ?l)) with (x + sum l). f_equal. simpl. lia.
Qed.

Lemma fold_norm s : 0 ≤ s < 2 ^ 32 →
  (let carry := u16 (Z.shiftr s 16) in let c := Z.land s 65535 in let c := c + carry in
   let c := if Z.shiftr c 16 =? 0 then c else c + 1 in Z.land (Z.lnot c) 65535) = 65535 - norm s.
Proof.
  intros Hs. cbn zeta. assert (Hl : ∀ x, Z.land x 65535 = x mod 65536) by (intros x; apply (Z.land_ones x 16); lia).
  rewrite !Hl, !Z.shiftr_div_pow2 by lia. change (2 ^ 16) with 65536.
  assert (0 ≤ s / 65536 < 65536) by (split; [apply Z.div_pos; lia|apply Z.div_lt_upper_bound; lia]). rewrite u16_small by lia.
  pose proof (Z.div_mod s 65536 ltac:(lia)). pose proof (Z.mod_pos_bound s 65536 ltac:(lia)). set (x := s mod 65536 + s / 65536) in *.
  assert (Hc : ∀ c, 0 ≤ c < 65536 → Z.lnot c mod 65536 = 65535 - c).
  { intros c Hc. unfold Z.lnot. symmetry. apply (Z.mod_unique _ _ (-1)); lia. }
  destruct (Z.eqb_spec (x / 65536) 0) as [E|E].
  - assert (x < 65536). { apply Z.div_small_iff in E; lia. } rewrite Hc by lia. f_equal. symmetry. apply (norm_unique _ _ (s / 65536)); lia.
  - assert (65536 ≤ x). { destruct (Z.lt_ge_cases x 65536); [|done]. rewrite Z.div_small in E; lia. }
    replace (Z.lnot (x + 1) mod 65536) with (65535 - (x - 65535)).
    + f_equal. symmetry. apply (norm_unique _ _ (s / 65536 + 1)); lia.
    + unfold Z.lnot. apply (Z.mod_unique _ _ (-2)); lia.
Qed.

(** The code's checksum in terms of the sum. *)
Lemma checksum_sum d off len start : bytes_ok d → 0 ≤ off → 0 ≤ len < 65536 → off + len ≤ zlen d → 0 ≤ start < 2 ^ 30 →
  ipv4_calculate_checksum d off len start = Some (65535 - norm (start + sum (words (slice d (Z.to_nat off) (Z.to_nat len))))).
Proof.
  intros Hd Ho Hl Hlen Hs. unfold ipv4_calculate_checksum. rewrite Z.shiftr_div_pow2 by lia. change (Z.land len 1) with (Z.land len (Z.ones 1)). rewrite Z.land_ones by lia. change (2 ^ 1) with 2.
  pose proof (Z.div_mod len 2 ltac:(lia)). pose proof (Z.mod_pos_bound len 2 ltac:(lia)). pose proof (Z.div_pos len 2 ltac:(lia) ltac:(lia)).
  rewrite sum_words_ok by (done || lia). cbn [mbind option_bind]. set (n := Z.to_nat (len / 2)).
  destruct (words_ok _ (bytes_slice d (Z.to_nat off) (2 * n) Hd)) as [Hw Hwn]. rewrite length_slice in Hwn. pose proof (sum_pos _ Hw) as Hsum.
  destruct (Z.eqb_spec (len mod 2) 0) as [E|E].
  - cbn [mbind option_bind]. replace (Z.to_nat len) with (2 * n)%nat by lia. rewrite <- fold_norm by lia. done.
  - destruct (rd_in_range d (off + len - 1)) as [b Hb]; [lia|]. rewrite Hb. cbn [mbind option_bind]. pose proof (bytes_rd _ _ _ Hd Hb).
    rewrite Z.shiftl_mul_pow2 by lia. change (2 ^ 8) with 256. rewrite u32_small by lia. replace (Z.to_nat len) with (2 * n + 1)%nat by lia.
    apply rd_some in Hb as [_ Hb]. assert (Hsl : slice d (Z.to_nat off) (2 * n + 1) = slice d (Z.to_nat off) (2 * n) ++ [b]).
    { rewrite <- slice_app_adj by lia. f_equal. unfold slice. rewrite (drop_S _ b); [done|]. replace (Z.to_nat off + 2 * n)%nat with (Z.to_nat (off + len - 1)) by lia. done. }
    rewrite Hsl, (words_app n) by (rewrite length_slice; lia). cbn [words]. rewrite sum_app. change (sum [b * 256]) with (b * 256 + 0). 
    replace (start + (sum (words (slice d (Z.to_nat off) (2 * n))) + (b * 256 + 0))) with (start + sum (words (slice d (Z.to_nat off) (2 * n))) + b * 256) by lia.
    rewrite <- fold_norm by lia. done.
Qed.

(** C14: ipv4_calculate_checksum, which adds up in 32 bits and folds the carries
    at the end, gives the complement of the ones' complement sum of the words
    before it (the pseudo header) and of the bytes, for every length and also
    when the length is odd. *)
Theorem checksum_equivalent d off len ws : bytes_ok d → 0 ≤ off → 0 ≤ len < 65536 → off + len ≤ zlen d → Forall word16 ws → zlen ws < 8192 →
  ipv4_calculate_checksum d off len (sum ws) = Some (internet_checksum (onec_sum 0 ws) (slice d (Z.to_nat off) (Z.to_nat len))).
Proof.
  intros Hd Ho Hl Hlen Hws Hn. pose proof (sum_pos _ Hws). rewrite checksum_sum by (done || lia). f_equal. unfold internet_checksum. f_equal.
  destruct (words_ok _ (bytes_slice d (Z.to_nat off) (Z.to_nat len) Hd)) as [Hw _]. pose proof (sum_pos _ Hw).
  assert (Hz : word16 0) by (unfold word16; lia). rewrite (onec_sum_norm _ Hws 0 Hz).
  assert (Hr : word16 (norm (0 + sum ws))) by (destruct (norm_spec (0 + sum ws) ltac:(lia)) as (_ & _ & Hr & _); unfold word16; lia).
  rewrite (onec_sum_norm _ Hw _ Hr), norm_add by lia. done.
Qed.

Lemma checksum_equivalent_witness : ipv4_calculate_checksum [69; 255; 255; 3; 200] 0 5 (sum [17; 65535]) =
  Some (internet_checksum (onec_sum 0 [17; 65535]) (slice [69; 255; 255; 3; 200] 0 5)).
Proof. apply (checksum_equivalent [69; 255; 255; 3; 200] 0 5 [17; 65535]); [repeat constructor; lia|lia|lia|simpl; lia|repeat constructor; lia|simpl; lia]. Defined.
