(* ===== verification/Inet.v ===== *)
(** * Inet: the headers of IPv4, ICMP, UDP and TCP (kernel/net/protocol)

    Headers are written to and read from the bytes of a packet, field by
    field.  What the encoders make, the decoders accept, with the addresses
    and the payload that went in. *)

From S2P Require Import Prelude Queue Result Iovec Packet.

Definition PF_INET : Z := 2.
Definition SOCK_STREAM : Z := 1.
Definition SOCK_DGRAM : Z := 2.
Definition SOCK_RAW : Z := 3.
Definition IPPROTO_IP : Z := 0.
Definition IPPROTO_ICMP : Z := 1.
Definition IPPROTO_TCP : Z := 6.
Definition IPPROTO_UDP : Z := 17.
Definition PACKET_DELIVERED : Z := 1.
Definition PACKET_DROPPED : Z := 0.
Definition PACKET_ERROR : Z := -1.

Definition ipv4_protocol : protocol := Protocol PF_INET SOCK_RAW IPPROTO_IP.
Definition icmp_protocol : protocol := Protocol PF_INET SOCK_RAW IPPROTO_ICMP.
Definition udp_protocol : protocol := Protocol PF_INET SOCK_DGRAM IPPROTO_UDP.
Definition tcp_protocol : protocol := Protocol PF_INET SOCK_STREAM IPPROTO_TCP.

(** The protocols in the order in which main.c registers them. *)
Definition registered : list (option protocol) :=
  fold_left (λ l q, fst (net_register_protocol l q)) [ipv4_protocol; icmp_protocol; udp_protocol; tcp_protocol] init_net_protocol.

Definition IPV4_HEADER : Z := 20.
Definition UDP_HEADER : Z := 8.
Definition ICMP_HEADER : Z := 8.
Definition TCP_HEADER : Z := 20.

(** ** IPv4 *)

(** The fields of struct ipv4_header at [o], but for the checksum. *)
Definition write_ipv4_header (d : list Z) (o length protocol src dest : Z) : option (list Z) :=
  d ← wr d o (Z.lor (Z.shiftl 4 4) 5);
  d ← wr d (o + 1) 0;
  d ← put16 d (o + 2) (u16 (IPV4_HEADER + length));
  d ← put16 d (o + 4) 0;
  d ← put16 d (o + 6) (Z.shiftl 2 13);
  d ← wr d (o + 8) 64;
  d ← wr d (o + 9) protocol;
  d ← put16 d (o + 10) 0;
  d ← put32 d (o + 12) src;
  put32 d (o + 16) dest.

Definition ipv4_encode_header (pack : packet) (src dest : ipv4_address) (length : Z) : option (packet * Z) :=
  match proto pack with
  | None => Some (pack, -1)
  | Some q =>
      if capacity pack <? u32 (pack_length pack + IPV4_HEADER + length) then Some (pack, -2)
      else
        let o := pack_length pack in
        let pack := set_network pack o in
        let pack := set_length pack (u16 (o + IPV4_HEADER)) in
        d ← write_ipv4_header (pack_data pack) o length (protocol_num q) (addr src) (addr dest);
        checksum ← ipv4_calculate_checksum d o IPV4_HEADER 0;
        d ← put16 d (o + 10) checksum;
        let pack := set_custom (set_pack_data pack d) src dest in
        Some (set_transport pack (pack_length pack), 0)
  end.

(** ** Pseudo headers of UDP and TCP *)
Definition pseudo_sum (num : Z) (pack : packet) : Z :=
  let s := addr (custom_src pack) in let d := addr (custom_dest pack) in
  u32 (Z.shiftr s 16 + Z.land s 65535 + (Z.shiftr d 16 + Z.land d 65535) + num + (pack_length pack - transport_offset pack)).
Definition udp_calculate_checksum (q : protocol) (pack : packet) : option Z :=
  ipv4_calculate_checksum (pack_data pack) (transport_offset pack) (pack_length pack - transport_offset pack) (pseudo_sum (protocol_num q) pack).
Definition tcp_calculate_checksum (q : protocol) (pack : packet) : option Z :=
  ipv4_calculate_checksum (pack_data pack) (transport_offset pack) (pack_length pack - transport_offset pack) (pseudo_sum (protocol_num q) pack).

(** ** UDP *)

(** The fields of struct udp_header at [o], with no checksum yet. *)
Definition write_udp_header (d : list Z) (o src dest length : Z) : option (list Z) :=
  d ← put16 d o src;
  d ← put16 d (o + 2) dest;
  d ← put16 d (o + 4) length;
  put16 d (o + 6) 0.

Definition udp_encode_packet (pack : packet) (src dest : ipv4_address) (iter : iovec_iter) : option (packet * iovec_iter * Z) :=
  let length := iovec_iter_remaining iter in
  '(pack, error) ← ipv4_encode_header pack src dest (UDP_HEADER + length);
  if negb (error =? 0) then Some (pack, iter, error)
  else
    let o := pack_length pack in
    let pack := set_transport pack o in
    let pack := set_length pack (u16 (o + UDP_HEADER)) in
    d ← write_udp_header (pack_data pack) o (port src) (port dest) (u16 (UDP_HEADER + length));
    let pack := set_data_offset (set_pack_data pack d) (pack_length pack) in
    '(pack, iter, error) ← packet_append_iovec pack iter;
    if negb (error =? 0) then None (* the packet is freed, and 0 returned for it *)
    else
      q ← proto pack;
      checksum ← udp_calculate_checksum q pack;
      d ← put16 (pack_data pack) (o + 6) checksum;
      Some (set_pack_data pack d, iter, 0).

Definition udp_create_packet (q : protocol) (src dest : ipv4_address) (iter : iovec_iter) : option (option packet * iovec_iter) :=
  let pack := packet_alloc 0 (Some q) (u32 (iovec_iter_remaining iter + 100)) in
  '(pack, iter, error) ← udp_encode_packet pack src dest iter;
  Some (if negb (error =? 0) then None else Some pack, iter).

Definition udp_decode_header (q : protocol) (pack : packet) (offset : Z) : option (packet * Z) :=
  if u32 (pack_length pack - offset) <? UDP_HEADER then Some (pack, -5)
  else
    src ← get16 (pack_data pack) offset;
    dest ← get16 (pack_data pack) (offset + 2);
    len ← get16 (pack_data pack) (offset + 4);
    checksum ← get16 (pack_data pack) (offset + 6);
    if negb (len =? pack_length pack - offset) then Some (pack, -6)
    else
      let pack := set_data_offset (set_transport pack offset) (u16 (offset + UDP_HEADER)) in
      let pack := set_custom pack (Ipv4 (addr (custom_src pack)) src) (Ipv4 (addr (custom_dest pack)) dest) in
      d ← put16 (pack_data pack) (offset + 6) 0;
      let pack := set_pack_data pack d in
      sum ← udp_calculate_checksum q pack;
      if negb (checksum =? sum) then Some (pack, -7)
      else d ← put16 d (offset + 6) checksum; Some (set_pack_data pack d, 0).

(** ** ICMP *)

Definition ICMP_TYPE_ECHO : Z := 8.

(** [data] is what follows the address that the caller gives. *)
Definition icmp_encode_packet (pack : packet) (typ code : Z) (src dest : ipv4_address) (data : list Z) (length : Z) : option (packet * Z) :=
  '(pack, error) ← ipv4_encode_header pack src dest length;
  if negb (error =? 0) then Some (pack, error)
  else
    data ← wr data 0 typ;
    data ← wr data 1 code;
    data ← put16 data 2 0;
    checksum ← ipv4_calculate_checksum data 0 length 0;
    data ← put16 data 2 checksum;
    let pack := set_data_offset pack (pack_length pack) in
    packet_append pack data length.

Definition icmp_create_packet (q : protocol) (typ code : Z) (src dest : ipv4_address) (data : list Z) (length : Z) : option (option packet) :=
  '(pack, error) ← icmp_encode_packet (packet_alloc 0 (Some q) (u32 (length + 100))) typ code src dest data length;
  Some (if negb (error =? 0) then None else Some pack).

Definition icmp_decode_header (q : protocol) (pack : packet) (offset : Z) : option (packet * Z) :=
  if u32 (pack_length pack - offset) <? ICMP_HEADER then Some (pack, -1)
  else
    let pack := set_data_offset (set_transport pack offset) (u16 (offset + ICMP_HEADER)) in
    checksum ← get16 (pack_data pack) (offset + 2);
    d ← put16 (pack_data pack) (offset + 2) 0;
    let pack := set_pack_data pack d in
    sum ← ipv4_calculate_checksum d offset (pack_length pack - offset) 0;
    if negb (checksum =? sum) then Some (pack, -2)
    else d ← put16 d (offset + 2) checksum; Some (set_pack_data pack d, 0).

(** icmp_forward_packet: the reply to an echo, to be sent by the interface of the packet. *)
Definition icmp_forward_packet (q : protocol) (pack : packet) : option (Z * option packet) :=
  typ ← rd (pack_data pack) (transport_offset pack);
  if typ =? ICMP_TYPE_ECHO then
    data ← rd_range (pack_data pack) (transport_offset pack) (zlen (pack_data pack) - transport_offset pack);
    reply ← icmp_create_packet q 0 0 (custom_dest pack) (custom_src pack) data (pack_length pack - transport_offset pack);
    match reply with
    | None => Some (PACKET_DROPPED, None)
    | Some reply => Some (PACKET_DELIVERED, Some (set_ifdev reply (ifdev pack)))
    end
  else Some (PACKET_DROPPED, None).

(** ** TCP *)

Definition tcp_decode_header (q : protocol) (pack : packet) (offset : Z) : option (packet * Z) :=
  if u32 (pack_length pack - offset) <? TCP_HEADER then Some (pack, -5)
  else
    src ← get16 (pack_data pack) offset;
    dest ← get16 (pack_data pack) (offset + 2);
    off ← rd (pack_data pack) (offset + 12);
    checksum ← get16 (pack_data pack) (offset + 16);
    let pack := set_data_offset (set_transport pack offset) (u16 (offset + Z.shiftl (Z.shiftr off 4) 2)) in
    let pack := set_custom pack (Ipv4 (addr (custom_src pack)) src) (Ipv4 (addr (custom_dest pack)) dest) in
    d ← put16 (pack_data pack) (offset + 16) 0;
    let pack := set_pack_data pack d in
    sum ← tcp_calculate_checksum q pack;
    if negb (checksum =? sum) then Some (pack, -7)
    else d ← put16 d (offset + 16) checksum; Some (set_pack_data pack d, 0).

(** ** The decoder of IPv4, which goes on with that of the next protocol *)
Fixpoint ipv4_decode_header (fuel : nat) (proto_list : list (option protocol)) (pack : packet) (offset : Z) : option (packet * Z) :=
  match fuel with
  | O => None
  | S fuel =>
      let pack := set_network pack offset in
      if u32 (pack_length pack - offset) <? IPV4_HEADER then Some (pack, -1)
      else
        vi ← rd (pack_data pack) offset;
        let ihl := Z.land vi 15 in
        if negb (Z.shiftr vi 4 =? 4) || (ihl <? 5) || (9 <? ihl) then Some (pack, -2)
        else
          num ← rd (pack_data pack) (offset + 9);
          checksum ← get16 (pack_data pack) (offset + 10);
          src ← get32 (pack_data pack) (offset + 12);
          dest ← get32 (pack_data pack) (offset + 16);
          d ← put16 (pack_data pack) (offset + 10) 0;
          sum ← ipv4_calculate_checksum d offset IPV4_HEADER 0;
          if negb (checksum =? sum) then Some (set_pack_data pack d, -3)
          else
            d ← put16 d (offset + 10) checksum;
            let pack := set_custom (set_pack_data pack d) (Ipv4 src 0) (Ipv4 dest 0) in
            match net_get_protocol proto_list PF_INET 0 num with
            | None => Some (pack, -4)
            | Some next =>
                let pack := set_proto pack (Some next) in
                let pack := set_transport pack (u16 (offset + Z.shiftl ihl 2)) in
                let o := transport_offset pack in
                if protocol_num next =? IPPROTO_UDP then udp_decode_header next pack o
                else if protocol_num next =? IPPROTO_TCP then tcp_decode_header next pack o
                else if protocol_num next =? IPPROTO_ICMP then icmp_decode_header next pack o
                else ipv4_decode_header fuel proto_list pack o
            end
  end.

(** ** Fields inside a byte string *)

Section mid.
Context (pre h post : list Z).

Lemma rd_mid i : 0 ≤ i < zlen h → rd (pre ++ h ++ post) (zlen pre + i) = rd h i.
Proof.
  intros Hi. unfold rd. destruct (Z.ltb_spec (zlen pre + i) 0); [lia|]. destruct (Z.ltb_spec i 0); [lia|].
  rewrite lookup_app_r by lia. rewrite lookup_app_l by lia. f_equal. lia.
Qed.

Lemma wr_mid i v : 0 ≤ i < zlen h → wr (pre ++ h ++ post) (zlen pre + i) v = Some (pre ++ <[Z.to_nat i := v]> h ++ post).
Proof.
  intros Hi. rewrite wr_in_range by (rewrite !length_app; lia). f_equal. replace (Z.to_nat (zlen pre + i)) with (length pre + Z.to_nat i)%nat by lia.
  rewrite insert_app_r, insert_app_l by lia. done.
Qed.

Lemma get16_mid i : 0 ≤ i → i + 1 < zlen h → get16 (pre ++ h ++ post) (zlen pre + i) = get16 h i.
Proof. intros Hi Hl. unfold get16. rewrite <- Z.add_assoc, !rd_mid by lia. done. Qed.

Lemma get32_mid i : 0 ≤ i → i + 3 < zlen h → get32 (pre ++ h ++ post) (zlen pre + i) = get32 h i.
Proof. intros Hi Hl. unfold get32. rewrite <- Z.add_assoc, !get16_mid by lia. done. Qed.
End mid.

Lemma put16_mid pre h post i v : 0 ≤ i → i + 1 < zlen h →
  put16 (pre ++ h ++ post) (zlen pre + i) v = Some (pre ++ <[Z.to_nat (i + 1) := v mod 256]> (<[Z.to_nat i := v / 256 mod 256]> h) ++ post).
Proof. intros Hi Hl. unfold put16. rewrite <- Z.add_assoc, wr_mid by lia. simpl. rewrite wr_mid by (rewrite length_insert; lia). done. Qed.

Lemma put32_mid pre h post i v : 0 ≤ i → i + 3 < zlen h →
  put32 (pre ++ h ++ post) (zlen pre + i) v =
    Some (pre ++ <[Z.to_nat (i + 2 + 1) := v mod 65536 mod 256]> (<[Z.to_nat (i + 2) := v mod 65536 / 256 mod 256]>
           (<[Z.to_nat (i + 1) := v / 65536 mod 65536 mod 256]> (<[Z.to_nat i := v / 65536 mod 65536 / 256 mod 256]> h))) ++ post).
Proof. intros Hi Hl. unfold put32. rewrite put16_mid by lia. simpl. rewrite <- Z.add_assoc, put16_mid by (rewrite ?length_insert; lia). done. Qed.

(** ** IPv4 headers as bytes *)

Definition bytes16 (v : Z) : list Z := [v / 256 mod 256; v mod 256].
Definition bytes32 (v : Z) : list Z := bytes16 (v / 65536 mod 65536) ++ bytes16 (v mod 65536).
Definition ipv4_bytes (num total src dest checksum : Z) : list Z :=
  [69; 0] ++ bytes16 total ++ [0; 0; 64; 0; 64; num] ++ bytes16 checksum ++ bytes32 src ++ bytes32 dest.
Definition ipv4_sum (num total src dest : Z) : Z := 65535 - norm (sum (words (ipv4_bytes num total src dest 0))).

Lemma get_bytes16 v : 0 ≤ v < 65536 → get16 (bytes16 v) 0 = Some v.
Proof.
  intros Hv. unfold get16, bytes16. simpl. f_equal. rewrite (Z.mod_small (v / 256)) by (split; [apply Z.div_pos; lia|apply Z.div_lt_upper_bound; lia]).
  pose proof (Z.div_mod v 256 ltac:(lia)). lia.
Qed.

Lemma net16_ok v : bytes_ok (bytes16 v).
Proof. repeat constructor; apply Z.mod_pos_bound; lia. Qed.
Lemma net32_ok v : bytes_ok (bytes32 v).
Proof. apply Forall_app. split; apply net16_ok. Qed.
Lemma ipv4_bytes_ok num total src dest c : 0 ≤ num < 256 → bytes_ok (ipv4_bytes num total src dest c).
Proof.
  intros Hn. unfold ipv4_bytes. repeat (apply Forall_app; split); try apply net16_ok; try apply net32_ok; repeat constructor; lia.
Qed.

(** Reads and writes fields one after the other. *)
Ltac fields :=
  repeat (first [rewrite wr_mid by (rewrite ?length_insert; simpl; lia) | rewrite put16_mid by (rewrite ?length_insert; simpl; lia)
                |rewrite put32_mid by (rewrite ?length_insert; simpl; lia) | rewrite rd_mid by (rewrite ?length_insert; simpl; lia)
                |rewrite get16_mid by (rewrite ?length_insert; simpl; lia) | rewrite get32_mid by (rewrite ?length_insert; simpl; lia)];
          rewrite ?bind_some).

Lemma write_ipv4_ok pre h post length num src dest : List.length h = 20%nat →
  write_ipv4_header (pre ++ h ++ post) (zlen pre) length num src dest = Some (pre ++ ipv4_bytes num (u16 (IPV4_HEADER + length)) src dest 0 ++ post).
Proof.
  intros Hh. do 20 (destruct h as [|? h]; [discriminate Hh|]). destruct h; [|discriminate Hh]. unfold write_ipv4_header.
  rewrite <- (Z.add_0_r (zlen pre)) at 1. fields. done.
Qed.

Lemma length_ipv4_bytes num total src dest c : length (ipv4_bytes num total src dest c) = 20%nat.
Proof. done. Qed.

Lemma slice_front (h post : list Z) : slice (h ++ post) 0 (length h) = h.
Proof. unfold slice. rewrite drop_0, take_app_le, take_ge by lia. done. Qed.

Lemma ipv4_sum_ok num total src dest post : 0 ≤ num < 256 → bytes_ok post →
  ipv4_calculate_checksum (ipv4_bytes num total src dest 0 ++ post) 0 IPV4_HEADER 0 = Some (ipv4_sum num total src dest).
Proof.
  intros Hn Hp. rewrite checksum_sum; [|apply Forall_app; split; [by apply ipv4_bytes_ok|done]|lia|unfold IPV4_HEADER; lia|rewrite length_app, length_ipv4_bytes; unfold IPV4_HEADER; lia|lia].
  change (Z.to_nat IPV4_HEADER) with (length (ipv4_bytes num total src dest 0)). rewrite slice_front. done.
Qed.

Lemma ipv4_sum_range num total src dest : 0 ≤ num < 256 → 0 ≤ ipv4_sum num total src dest < 65536.
Proof.
  intros Hn. unfold ipv4_sum. destruct (words_ok _ (ipv4_bytes_ok num total src dest 0 Hn)) as [Hw _]. pose proof (sum_pos _ Hw).
  destruct (norm_spec (sum (words (ipv4_bytes num total src dest 0)))) as (_ & _ & ? & _); lia.
Qed.

Lemma put_ipv4_sum num total src dest c c' post : put16 (ipv4_bytes num total src dest c ++ post) (0 + 10) c' = Some (ipv4_bytes num total src dest c' ++ post).
Proof. apply (put16_mid [] (ipv4_bytes num total src dest c) post 10 c'); simpl; lia. Qed.

Lemma ipv4_encode_ok pack q src dest length : proto pack = Some q → pack_length pack = 0 → zlen (pack_data pack) = capacity pack → capacity pack < 65536 →
  0 ≤ length → 20 + length ≤ capacity pack → 0 ≤ protocol_num q < 256 → bytes_ok (pack_data pack) →
  ipv4_encode_header pack src dest length =
    Some (Packet (Some q) (ifdev pack) 0 20 (data_offset pack) src dest 20 (capacity pack)
            (ipv4_bytes (protocol_num q) (20 + length) (addr src) (addr dest) (ipv4_sum (protocol_num q) (20 + length) (addr src) (addr dest)) ++ drop 20 (pack_data pack)), 0).
Proof.
  intros Hq Hl Hd Hc Hlen Hcap Hn Hb. unfold ipv4_encode_header. rewrite Hq, Hl. unfold IPV4_HEADER at 1. rewrite u32_small by lia.
  destruct (Z.ltb_spec (capacity pack) (0 + 20 + length)); [lia|]. cbn [pack_data set_network set_length set_pack_data]. 
  rewrite <- (take_drop 20 (pack_data pack)) at 1.
  pose proof (write_ipv4_ok [] (take 20 (pack_data pack)) (drop 20 (pack_data pack)) length (protocol_num q) (addr src) (addr dest)) as Hw.
  rewrite length_take in Hw. specialize (Hw ltac:(lia)). change (zlen []) with 0 in Hw. rewrite !app_nil_l in Hw. rewrite Hw. rewrite ?bind_some. clear Hw.
  replace (u16 (IPV4_HEADER + length)) with (20 + length) by (unfold IPV4_HEADER; rewrite u16_small; lia).
  rewrite ipv4_sum_ok by (done || by apply Forall_drop). rewrite ?bind_some.
  rewrite (put_ipv4_sum _ _ _ _ 0). rewrite ?bind_some. unfold set_transport, set_custom, set_pack_data, set_length, set_network.
  cbn [proto ifdev network_offset data_offset pack_length capacity pack_data]. rewrite Hq. change (u16 (0 + IPV4_HEADER)) with 20. done.
Qed.

Lemma get32_bytes v l1 l2 k : zlen l1 = k → 0 ≤ v < 2 ^ 32 → get32 (l1 ++ bytes32 v ++ l2) k = Some v.
Proof.
  intros <- Hv. rewrite <- (Z.add_0_r (zlen l1)), get32_mid by (simpl; lia). unfold get32, get16, bytes32, bytes16. simpl. f_equal.
  assert (0 ≤ v / 65536 < 65536) by (split; [apply Z.div_pos; lia|apply Z.div_lt_upper_bound; lia]). rewrite (Z.mod_small (v / 65536)) by lia.
  pose proof (Z.mod_pos_bound v 65536 ltac:(lia)).
  assert (Hs : ∀ x, 0 ≤ x < 65536 → x / 256 mod 256 * 256 + x mod 256 = x).
  { intros x Hx. rewrite (Z.mod_small (x / 256)) by (split; [apply Z.div_pos; lia|apply Z.div_lt_upper_bound; lia]). pose proof (Z.div_mod x 256 ltac:(lia)). lia. }
  rewrite !Hs by lia. pose proof (Z.div_mod v 65536 ltac:(lia)). lia.
Qed.

Lemma get16_bytes v l1 l2 k : zlen l1 = k → 0 ≤ v < 65536 → get16 (l1 ++ bytes16 v ++ l2) k = Some v.
Proof. intros <- Hv. rewrite <- (Z.add_0_r (zlen l1)), get16_mid by (simpl; lia). by apply get_bytes16. Qed.

(** Where the fields of a header are. *)
Lemma ipv4_fields num total src dest c post : 0 ≤ num → 0 ≤ c < 65536 → 0 ≤ src < 2 ^ 32 → 0 ≤ dest < 2 ^ 32 →
  let d := ipv4_bytes num total src dest c ++ post in
  rd d 0 = Some 69 ∧ rd d 9 = Some num ∧ get16 d 10 = Some c ∧ get32 d 12 = Some src ∧ get32 d 16 = Some dest.
Proof.
  intros Hn Hc Hs Hd d. split_and!; [done|done| | |].
  - by apply (get16_bytes c ([69; 0] ++ bytes16 total ++ [0; 0; 64; 0; 64; num]) (bytes32 src ++ bytes32 dest ++ post) 10).
  - by apply (get32_bytes src ([69; 0] ++ bytes16 total ++ [0; 0; 64; 0; 64; num] ++ bytes16 c) (bytes32 dest ++ post) 12).
  - by apply (get32_bytes dest ([69; 0] ++ bytes16 total ++ [0; 0; 64; 0; 64; num] ++ bytes16 c ++ bytes32 src) post 16).
Qed.

(** What ipv4_decode_header hands to the next protocol. *)
Definition ipv4_decoded (pack : packet) (q : protocol) (src dest : Z) : packet :=
  Packet (Some q) (ifdev pack) 0 20 (data_offset pack) (Ipv4 src 0) (Ipv4 dest 0) (pack_length pack) (capacity pack) (pack_data pack).

Definition transport_decode (fuel : nat) (q : protocol) (pack : packet) : option (packet * Z) :=
  if protocol_num q =? IPPROTO_UDP then udp_decode_header q pack 20
  else if protocol_num q =? IPPROTO_TCP then tcp_decode_header q pack 20
  else if protocol_num q =? IPPROTO_ICMP then icmp_decode_header q pack 20
  else ipv4_decode_header fuel registered pack 20.

Lemma ipv4_decode_ok fuel pack num total src dest post q : 0 ≤ num < 256 → 0 ≤ src < 2 ^ 32 → 0 ≤ dest < 2 ^ 32 → bytes_ok post →
  pack_data pack = ipv4_bytes num total src dest (ipv4_sum num total src dest) ++ post → 20 ≤ pack_length pack < 65536 →
  net_get_protocol registered PF_INET 0 num = Some q →
  ipv4_decode_header (S fuel) registered pack 0 = transport_decode fuel q (ipv4_decoded pack q src dest).
Proof.
  intros Hn Hs Hd Hp E Hl Hq. cbn [ipv4_decode_header]. cbn [pack_length set_network pack_data]. rewrite E.
  unfold IPV4_HEADER at 1. rewrite u32_small by lia. destruct (Z.ltb_spec (pack_length pack - 0) 20); [lia|].
  pose proof (ipv4_sum_range num total src dest Hn) as Hc.
  destruct (ipv4_fields num total src dest (ipv4_sum num total src dest) post) as (F1 & F2 & F3 & F4 & F5); [lia|done..|].
  rewrite F1, bind_some. change (negb (Z.shiftr 69 4 =? 4) || (Z.land 69 15 <? 5) || (9 <? Z.land 69 15)) with false. cbn iota.
  change (0 + 9) with 9. change (0 + 10) with 10. change (0 + 12) with 12. change (0 + 16) with 16.
  rewrite F2, bind_some, F3, bind_some, F4, bind_some, F5, bind_some. change 10 with (0 + 10). rewrite put_ipv4_sum, bind_some, ipv4_sum_ok, bind_some, Z.eqb_refl by done.
  cbn [negb]. rewrite put_ipv4_sum, bind_some, Hq. unfold transport_decode, ipv4_decoded, set_transport, set_proto, set_custom, set_pack_data.
  cbn [proto ifdev network_offset transport_offset data_offset custom_src custom_dest pack_length capacity pack_data set_network]. rewrite <- E.
  change (u16 (0 + Z.shiftl (Z.land 69 15) 2)) with 20. done.
Qed.

(** ** UDP datagrams as bytes *)

Definition udp_bytes (sport dport len checksum : Z) : list Z := bytes16 sport ++ bytes16 dport ++ bytes16 len ++ bytes16 checksum.
Definition pseudo (num src dest len : Z) : Z := src / 65536 + src mod 65536 + (dest / 65536 + dest mod 65536) + num + len.
Definition udp_sum (src dest : ipv4_address) (payload : list Z) : Z :=
  65535 - norm (pseudo IPPROTO_UDP (addr src) (addr dest) (8 + zlen payload) + sum (words (udp_bytes (port src) (port dest) (8 + zlen payload) 0 ++ payload))).
(** The datagram as it goes over the wire. *)
Definition udp_wire (src dest : ipv4_address) (payload : list Z) : list Z :=
  let total := 28 + zlen payload in
  ipv4_bytes IPPROTO_UDP total (addr src) (addr dest) (ipv4_sum IPPROTO_UDP total (addr src) (addr dest)) ++
  udp_bytes (port src) (port dest) (8 + zlen payload) (udp_sum src dest payload) ++ payload.

Definition address_ok (a : ipv4_address) : Prop := 0 ≤ addr a < 2 ^ 32 ∧ 0 ≤ port a < 65536.

Lemma pseudo_ok num src dest len pack : custom_src pack = src → custom_dest pack = dest → address_ok src → address_ok dest →
  pack_length pack - transport_offset pack = len → 0 ≤ num < 256 → 0 ≤ len < 65536 →
  pseudo_sum num pack = pseudo num (addr src) (addr dest) len ∧ 0 ≤ pseudo num (addr src) (addr dest) len < 2 ^ 20.
Proof.
  intros <- <- [Hs _] [Hd _] <- Hn Hl. unfold pseudo_sum, pseudo. assert (H16 : ∀ x, Z.land x 65535 = x mod 65536) by (intros x; apply (Z.land_ones x 16); lia).
  rewrite !H16, !Z.shiftr_div_pow2 by lia. change (2 ^ 16) with 65536.
  assert (Hb : ∀ x, 0 ≤ x < 2 ^ 32 → 0 ≤ x / 65536 < 65536) by (intros x Hx; split; [apply Z.div_pos; lia|apply Z.div_lt_upper_bound; lia]).
  pose proof (Hb _ Hs). pose proof (Hb _ Hd). pose proof (Z.mod_pos_bound (addr (custom_src pack)) 65536 ltac:(lia)). pose proof (Z.mod_pos_bound (addr (custom_dest pack)) 65536 ltac:(lia)).
  rewrite u32_small by lia. split; [done|lia].
Qed.

Lemma udp_bytes_ok sp dp len c : bytes_ok (udp_bytes sp dp len c).
Proof. repeat (apply Forall_app; split); apply net16_ok. Qed.

Lemma norm_range s : 0 ≤ s → 0 ≤ 65535 - norm s < 65536.
Proof. intros Hs. destruct (norm_spec s Hs) as (_ & _ & ? & _). lia. Qed.

Lemma transport_sum_ok pre body post start : bytes_ok (pre ++ body ++ post) → zlen body < 65536 → 0 ≤ start < 2 ^ 30 →
  ipv4_calculate_checksum (pre ++ body ++ post) (zlen pre) (zlen body) start = Some (65535 - norm (start + sum (words body))).
Proof.
  intros Hb Hl Hs. rewrite checksum_sum by (done || lia || (rewrite !length_app; lia)). do 5 f_equal.
  unfold slice. rewrite !Nat2Z.id, drop_app_length, take_app_length. done.
Qed.

Lemma udp_sum_ok src dest payload pre post pack : address_ok src → address_ok dest → bytes_ok pre → bytes_ok payload → bytes_ok post → zlen payload < 65000 →
  custom_src pack = src → custom_dest pack = dest → transport_offset pack = zlen pre → pack_length pack = zlen pre + 8 + zlen payload →
  pack_data pack = pre ++ (udp_bytes (port src) (port dest) (8 + zlen payload) 0 ++ payload) ++ post →
  udp_calculate_checksum udp_protocol pack = Some (udp_sum src dest payload).
Proof.
  intros Hs Hd Hpre Hpay Hpost Hl E1 E2 E3 E4 E5. unfold udp_calculate_checksum. change (protocol_num udp_protocol) with IPPROTO_UDP.
  destruct (pseudo_ok IPPROTO_UDP src dest (8 + zlen payload) pack) as [-> Hr]; try done; try (unfold IPPROTO_UDP; lia).
  rewrite E3, E4, E5. replace (zlen pre + 8 + zlen payload - zlen pre) with (zlen (udp_bytes (port src) (port dest) (8 + zlen payload) 0 ++ payload)) by (rewrite length_app; simpl; lia).
  rewrite transport_sum_ok; [done| |rewrite length_app; simpl; lia|lia].
  apply Forall_app; split; [done|]. apply Forall_app; split; [|done]. apply Forall_app; split; [apply udp_bytes_ok|done].
Qed.

Lemma udp_sum_range src dest payload : address_ok src → address_ok dest → bytes_ok payload → 0 ≤ udp_sum src dest payload < 65536.
Proof.
  intros [Hs _] [Hd _] Hp. unfold udp_sum. apply norm_range.
  destruct (words_ok (udp_bytes (port src) (port dest) (8 + zlen payload) 0 ++ payload)) as [Hw _]; [apply Forall_app; split; [apply udp_bytes_ok|done]|].
  pose proof (sum_pos _ Hw). unfold pseudo. pose proof (Z.div_pos (addr src) 65536 ltac:(lia) ltac:(lia)). pose proof (Z.div_pos (addr dest) 65536 ltac:(lia) ltac:(lia)).
  pose proof (Z.mod_pos_bound (addr src) 65536 ltac:(lia)). pose proof (Z.mod_pos_bound (addr dest) 65536 ltac:(lia)). unfold IPPROTO_UDP. lia.
Qed.

Lemma put_udp_sum pre sp dp len c c' post : put16 (pre ++ udp_bytes sp dp len c ++ post) (zlen pre + 6) c' = Some (pre ++ udp_bytes sp dp len c' ++ post).
Proof. rewrite put16_mid by (simpl; lia). done. Qed.

Lemma udp_fields pre sp dp len c post : 0 ≤ sp < 65536 → 0 ≤ dp < 65536 → 0 ≤ len < 65536 → 0 ≤ c < 65536 →
  let d := pre ++ udp_bytes sp dp len c ++ post in
  get16 d (zlen pre) = Some sp ∧ get16 d (zlen pre + 2) = Some dp ∧ get16 d (zlen pre + 4) = Some len ∧ get16 d (zlen pre + 6) = Some c.
Proof.
  intros H1 H2 H3 H4 d. unfold d. split_and!.
  - rewrite <- (Z.add_0_r (zlen pre)), get16_mid by (simpl; lia). by apply (get16_bytes sp [] (bytes16 dp ++ bytes16 len ++ bytes16 c)).
  - rewrite get16_mid by (simpl; lia). by apply (get16_bytes dp (bytes16 sp) (bytes16 len ++ bytes16 c)).
  - rewrite get16_mid by (simpl; lia). by apply (get16_bytes len (bytes16 sp ++ bytes16 dp) (bytes16 c)).
  - rewrite get16_mid by (simpl; lia). by apply (get16_bytes c (bytes16 sp ++ bytes16 dp ++ bytes16 len) []).
Qed.

(** udp_decode_header accepts the datagram. *)
Lemma udp_decode_ok pack src dest payload pre post : address_ok src → address_ok dest → bytes_ok pre → bytes_ok payload → bytes_ok post → zlen payload < 65000 →
  zlen pre < 400 → addr (custom_src pack) = addr src → addr (custom_dest pack) = addr dest → pack_length pack = zlen pre + 8 + zlen payload →
  pack_data pack = pre ++ udp_bytes (port src) (port dest) (8 + zlen payload) (udp_sum src dest payload) ++ payload ++ post →
  udp_decode_header udp_protocol pack (zlen pre) =
    Some (Packet (proto pack) (ifdev pack) (network_offset pack) (zlen pre) (zlen pre + 8) src dest (pack_length pack) (capacity pack) (pack_data pack), 0).
Proof.
  intros Hs Hd Hpre Hpay Hpost Hl Hpl E1 E2 E3 E4. unfold udp_decode_header. pose proof (udp_sum_range src dest payload Hs Hd Hpay) as Hc.
  rewrite u32_small by lia. destruct (Z.ltb_spec (pack_length pack - zlen pre) UDP_HEADER) as [Hx|_]; [unfold UDP_HEADER in Hx; lia|]. rewrite E4.
  destruct (udp_fields pre (port src) (port dest) (8 + zlen payload) (udp_sum src dest payload) (payload ++ post)) as (F1 & F2 & F3 & F4); [apply Hs|apply Hd|lia|done|].
  rewrite F1, bind_some, F2, bind_some, F3, bind_some, F4, bind_some. clear F1 F2 F3 F4.
  replace (8 + zlen payload =? pack_length pack - zlen pre) with true by lia. cbn [negb].
  cbn [pack_data set_custom set_data_offset set_transport]. rewrite E4, put_udp_sum, bind_some.
  rewrite (udp_sum_ok src dest payload pre post); try done; cycle 1.
  { simpl. rewrite E1. by destruct src. } { simpl. rewrite E2. by destruct dest. }
  rewrite bind_some, Z.eqb_refl. cbn [negb]. rewrite put_udp_sum, bind_some, <- E4. unfold set_pack_data, set_custom, set_data_offset, set_transport.
  cbn [proto ifdev network_offset transport_offset data_offset custom_src custom_dest pack_length capacity pack_data]. rewrite E1, E2.
  replace (u16 (zlen pre + UDP_HEADER)) with (zlen pre + 8) by (unfold UDP_HEADER; rewrite u16_small; lia). by destruct src, dest.
Qed.

(** The packet that udp_create_packet makes. *)
Definition udp_packet (src dest : ipv4_address) (payload : list Z) : packet :=
  Packet (Some udp_protocol) 0 0 20 28 src dest (28 + zlen payload) (zlen payload + 100) (udp_wire src dest payload ++ replicate 72 0).

Lemma bytes_zeros n : bytes_ok (replicate n 0).
Proof. apply Forall_replicate. lia. Qed.

Lemma write_udp_ok pre h post sp dp len : length h = 8%nat →
  write_udp_header (pre ++ h ++ post) (zlen pre) sp dp len = Some (pre ++ udp_bytes sp dp len 0 ++ post).
Proof.
  intros Hh. do 8 (destruct h as [|? h]; [discriminate Hh|]). destruct h; [|discriminate Hh]. unfold write_udp_header.
  rewrite <- (Z.add_0_r (zlen pre)) at 1. fields. done.
Qed.

Lemma append_iovec_ok pack iter s pos : iter_rel iter s pos → 0 ≤ pack_length pack → pack_length pack + (zlen s - Z.of_nat pos) ≤ capacity pack →
  capacity pack < 65536 → zlen (pack_data pack) = capacity pack →
  ∃ iter', packet_append_iovec pack iter =
      Some (set_length (set_pack_data pack (splice (pack_data pack) (Z.to_nat (pack_length pack)) (drop pos s))) (pack_length pack + (zlen s - Z.of_nat pos)), iter', 0) ∧
    iter_rel iter' s (length s).
Proof.
  intros Hrel Hl Hc Hc2 Hd. pose proof Hrel as (Hlen & Hpos & _). unfold packet_append_iovec. rewrite (iter_remaining_spec _ _ _ Hrel), u32_small by lia.
  destruct (Z.ltb_spec (capacity pack) (pack_length pack + Z.of_nat (length s - pos))); [lia|]. rewrite rd_range_ok by lia. rewrite bind_some.
  set (dest := slice (pack_data pack) _ _). assert (Hdl : length dest = (length (pack_data pack) - Z.to_nat (pack_length pack))%nat) by (unfold dest; rewrite length_slice; lia).
  destruct (memcpy_out_of_iter_spec iter s pos dest (length s - pos)) as (iter' & -> & Hrel'); [done|lia|lia|].
  rewrite bind_some. replace ((length s - pos) `min` (length s - pos))%nat with (length s - pos)%nat in * by lia.
  assert (Hsl : slice s pos (length s - pos) = drop pos s) by (unfold slice; rewrite take_ge by (rewrite length_drop; lia); done). rewrite Hsl.
  assert (Hdd : zlen (drop pos s) = zlen s - Z.of_nat pos) by (rewrite length_drop; lia).
  rewrite wr_range_ok; [|lia|rewrite length_splice by lia; lia]. rewrite bind_some. exists iter'. split; [|by replace (pos + (length s - pos))%nat with (length s) in Hrel' by lia].
  rewrite u16_small by lia. unfold dest. replace (Z.to_nat (zlen (pack_data pack) - pack_length pack)) with (length (pack_data pack) - Z.to_nat (pack_length pack))%nat by lia.
  rewrite splice_within_range by lia. by replace (pack_length pack + Z.of_nat (length s - pos)) with (pack_length pack + (zlen s - Z.of_nat pos)) by lia.
Qed.

Lemma splice_mid (pre h post bs : list Z) : length bs = length h → splice (pre ++ h ++ post) (length pre) bs = pre ++ bs ++ post.
Proof.
  intros Hl. unfold splice. rewrite take_app_length. f_equal. f_equal. rewrite <- drop_drop, drop_app_length, Hl. apply drop_app_length.
Qed.

Lemma udp_create_ok src dest iter s pos : address_ok src → address_ok dest → iter_rel iter s pos → bytes_ok s → zlen s - Z.of_nat pos < 65000 →
  ∃ iter', udp_create_packet udp_protocol src dest iter = Some (Some (udp_packet src dest (drop pos s)), iter') ∧ iter_rel iter' s (length s).
Proof.
  intros Hs Hd Hrel Hb Hl. pose proof Hrel as (Hlen & Hpos & _). pose proof (iter_remaining_spec _ _ _ Hrel) as Hrem.
  set (payload := drop pos s) in *. assert (Hpl : zlen payload = zlen s - Z.of_nat pos) by (unfold payload; rewrite length_drop; lia).
  assert (Hn : iovec_iter_remaining iter = zlen payload) by lia.
  unfold udp_create_packet. rewrite Hn, u32_small by lia. unfold udp_encode_packet. rewrite Hn. unfold packet_alloc. rewrite (u16_small (zlen payload + 100)) by lia.
  set (n := Z.to_nat (zlen payload + 100)). assert (Hnn : n = (length payload + 100)%nat) by lia.
  rewrite (ipv4_encode_ok _ udp_protocol); [|done|done|simpl; rewrite length_replicate; lia|simpl; lia|unfold UDP_HEADER; lia|simpl; unfold UDP_HEADER; lia|simpl; unfold IPPROTO_UDP; lia|apply bytes_zeros].
  rewrite bind_some. change (negb (0 =? 0)) with false. cbn iota zeta. cbn [pack_length pack_data set_transport set_length ifdev data_offset capacity].
  rewrite drop_replicate. replace (n - 20)%nat with (8 + (length payload + 72))%nat by lia. rewrite (replicate_add 8).
  change (protocol_num udp_protocol) with IPPROTO_UDP. replace (20 + (UDP_HEADER + zlen payload)) with (28 + zlen payload) by (unfold UDP_HEADER; lia).
  set (hdr := ipv4_bytes _ _ _ _ _). assert (Hh : bytes_ok hdr) by (apply ipv4_bytes_ok; unfold IPPROTO_UDP; lia).
  replace (u16 (UDP_HEADER + zlen payload)) with (8 + zlen payload) by (unfold UDP_HEADER; rewrite u16_small; lia). change (u16 (20 + UDP_HEADER)) with 28.
  rewrite (write_udp_ok hdr (replicate 8 0) (replicate (length payload + 72) 0)) by done. rewrite bind_some.
  unfold set_data_offset, set_pack_data, set_length, set_transport. cbn [proto ifdev network_offset transport_offset custom_src custom_dest pack_length capacity pack_data].
  set (pack := Packet _ _ _ _ _ _ _ _ _ _).
  destruct (append_iovec_ok pack iter s pos Hrel) as (iter' & Ea & Hrel'); [simpl; lia|simpl; lia|simpl; lia|simpl; rewrite length_replicate; lia|].
  exists iter'. split; [|done]. rewrite Ea, bind_some. change (negb (0 =? 0)) with false. cbn iota.
  assert (Hsp : splice (pack_data pack) (Z.to_nat (pack_length pack)) (drop pos s) =
    hdr ++ udp_bytes (port src) (port dest) (8 + zlen payload) 0 ++ payload ++ replicate 72 0).
  { unfold pack. cbn [pack_data pack_length]. rewrite replicate_add, !(app_assoc hdr).
    change (Z.to_nat 28) with (length (hdr ++ udp_bytes (port src) (port dest) (8 + zlen payload) 0)). apply splice_mid. by rewrite length_replicate. }
  rewrite Hsp. unfold pack. clear Ea Hsp pack. unfold set_length, set_pack_data.
  cbn [proto ifdev network_offset transport_offset data_offset custom_src custom_dest pack_length capacity pack_data]. rewrite bind_some.
  rewrite (udp_sum_ok src dest payload hdr (replicate 72 0)); try done; [|by apply Forall_drop|apply bytes_zeros|lia|cbn [pack_length]; change (zlen hdr) with 20; lia].
  rewrite bind_some. change (20 + 6) with (zlen hdr + 6). rewrite put_udp_sum, !bind_some. change (negb (0 =? 0)) with false. cbn iota.
  unfold udp_packet, udp_wire. rewrite <- !app_assoc. rewrite <- Hpl. done.
Qed.
