(* ===== verification/Slip.v ===== *)
(** * Slip: the serial line interface (kernel/drivers/net/slip/slip.c)

    Packets to send are framed into a transmit buffer and written to a byte
    device as it takes them; bytes read from the device are gathered in a
    receive buffer and cut into packets at each frame end.  The device is the
    interface [ByteDevice]; the serial driver implements it.  The queues of
    the interface are lists ([Queue] shows that the linked ones are). *)

From S2P Require Import Prelude Queue Result Iovec Packet.

Definition SLIP_MTU_MAX : Z := 1500.
(** The address of slip_devices[0], as packets refer to it. *)
Definition SLIP0 : Z := 1.
Definition SLIP_FRAME_END : Z := 192.
Definition SLIP_FRAME_ESC : Z := 219.
Definition SLIP_FRAME_ESC_END : Z := 220.
Definition SLIP_FRAME_ESC_ESC : Z := 221.

(** struct if_device: flags, address (family, address), protocol, queues and statistics. *)
Record if_device := IfDevice {
  if_flags : Z;
  if_family : Z;
  if_address : ipv4_address;
  incoming_proto : option protocol;
  rx_queue : list packet;
  tx_queue : list packet;
  rx_packets : Z; rx_errors : Z; rx_dropped : Z;
  tx_packets : Z;
}.

Definition set_rx_queue i x := IfDevice (if_flags i) (if_family i) (if_address i) (incoming_proto i) x (tx_queue i) (rx_packets i) (rx_errors i) (rx_dropped i) (tx_packets i).
Definition set_tx_queue i x := IfDevice (if_flags i) (if_family i) (if_address i) (incoming_proto i) (rx_queue i) x (rx_packets i) (rx_errors i) (rx_dropped i) (tx_packets i).

Record slip_if_device := SlipIfDevice {
  sl_if : if_device;
  rx_read : Z;
  rx_write : Z;
  rx_buffer : list Z;
  tx_read : Z;
  tx_write : Z;
  tx_buffer : list Z;
  (** request_bh_run(BH_NET) has been called. *)
  net_requested : bool;
}.

Definition set_if s x := SlipIfDevice x (rx_read s) (rx_write s) (rx_buffer s) (tx_read s) (tx_write s) (tx_buffer s) (net_requested s).
Definition set_rx s r w b := SlipIfDevice (sl_if s) r w b (tx_read s) (tx_write s) (tx_buffer s) (net_requested s).
Definition set_tx s r w b := SlipIfDevice (sl_if s) (rx_read s) (rx_write s) (rx_buffer s) r w b (net_requested s).
Definition request_net s := SlipIfDevice (sl_if s) (rx_read s) (rx_write s) (rx_buffer s) (tx_read s) (tx_write s) (tx_buffer s) true.

(** slip_if_init: the device is zero. *)
Definition slip_if_init : slip_if_device :=
  SlipIfDevice (IfDevice 0 0 (Ipv4 0 0) None [] [] 0 0 0 0) 0 0 (replicate 1500 0) 0 0 (replicate 1500 0) false.

(** ** Framing *)

Fixpoint slip_encode_loop (n : nat) (d : list Z) (i : Z) (buffer : list Z) (j : Z) : option (list Z * Z) :=
  match n with
  | O => Some (buffer, j)
  | S n =>
      c ← rd d i;
      if c =? SLIP_FRAME_END then
        buffer ← wr buffer j SLIP_FRAME_ESC;
        buffer ← wr buffer (j + 1) SLIP_FRAME_ESC_END;
        slip_encode_loop n d (i + 1) buffer (j + 2)
      else if c =? SLIP_FRAME_ESC then
        buffer ← wr buffer j SLIP_FRAME_ESC;
        buffer ← wr buffer (j + 1) SLIP_FRAME_ESC_ESC;
        slip_encode_loop n d (i + 1) buffer (j + 2)
      else
        buffer ← wr buffer j c;
        slip_encode_loop n d (i + 1) buffer (j + 1)
  end.

Definition slip_encode_packet (s : slip_if_device) : option slip_if_device :=
  match tx_queue (sl_if s) with
  | [] => Some s
  | pack :: q =>
      let s := set_if s (set_tx_queue (sl_if s) q) in
      buffer ← wr (tx_buffer s) 0 SLIP_FRAME_END;
      '(buffer, j) ← slip_encode_loop (Z.to_nat (pack_length pack)) (pack_data pack) 0 buffer 1;
      buffer ← wr buffer j SLIP_FRAME_END;
      Some (set_tx s 0 (s16 (j + 1)) buffer)
  end.

(** The loop of slip_decode_packet; [fuel] is more than the bytes left. *)
Fixpoint slip_decode_loop (fuel : nat) (buffer : list Z) (length i j : Z) (d : list Z) : option (list Z * Z) :=
  match fuel with
  | O => None
  | S fuel =>
      if length <=? i then Some (d, j)
      else
        c ← rd buffer i;
        if c =? SLIP_FRAME_END then Some (d, j)
        else if c =? SLIP_FRAME_ESC then
          e ← rd buffer (i + 1);
          d ← (if e =? SLIP_FRAME_ESC_END then wr d j SLIP_FRAME_END
               else if e =? SLIP_FRAME_ESC_ESC then wr d j SLIP_FRAME_ESC else Some d);
          slip_decode_loop fuel buffer length (i + 2) (j + 1) d
        else
          d ← wr d j c;
          slip_decode_loop fuel buffer length (i + 1) (j + 1) d
  end.

(** The packet goes to the receive queue and the network bottom half is requested. *)
Definition slip_decode_packet (s : slip_if_device) (length : Z) : option slip_if_device :=
  let pack := packet_alloc SLIP0 (incoming_proto (sl_if s)) length in
  '(d, j) ← slip_decode_loop (S (Z.to_nat length)) (rx_buffer s) length 0 0 (pack_data pack);
  let pack := set_length (set_pack_data pack d) (u16 j) in
  Some (request_net (set_if s (set_rx_queue (sl_if s) (rx_queue (sl_if s) ++ [pack])))).

(** memcpy from [src] down to [dest] of the same buffer, byte by byte. *)
Fixpoint memcpy_down (n : nat) (buffer : list Z) (dest src : Z) : option (list Z) :=
  match n with
  | O => Some buffer
  | S n => c ← rd buffer src; buffer ← wr buffer dest c; memcpy_down n buffer (dest + 1) (src + 1)
  end.

(** The loop of slip_if_read_data, once for each byte read. *)
Fixpoint slip_scan (read : nat) (s : slip_if_device) : option slip_if_device :=
  match read with
  | O => Some s
  | S read =>
      c ← rd (rx_buffer s) (rx_read s);
      s ← (if c =? SLIP_FRAME_END then
             s ← (if rx_read s =? 0 then Some s else slip_decode_packet s (rx_read s));
             let r := s16 (rx_read s + 1) in
             b ← (if r <? rx_write s then memcpy_down (Z.to_nat (rx_write s - r)) (rx_buffer s) 0 r else Some (rx_buffer s));
             Some (set_rx s 0 (s16 (rx_write s - r)) b)
           else Some (set_rx s (s16 (rx_read s + 1)) (rx_write s) (rx_buffer s)));
      slip_scan read s
  end.

(** ** Polling the device *)

Class ByteDevice (W : Type) := {
  dev_read : W → iovec_iter → option (W * iovec_iter * Z);
  dev_write : W → iovec_iter → option (W * iovec_iter * Z);
}.

(** The bytes of the (single) segment of an iterator. *)
Definition segment (it : iovec_iter) : list Z :=
  match it_data it with ITER_KVEC segs => flat segs | _ => [] end.

Section poll.
Context {W : Type} `{ByteDevice W}.

(** slip_if_read_data; the segment of the iterator is the free part of the buffer. *)
Definition slip_if_read_data (w : W) (s : slip_if_device) : option (W * slip_if_device) :=
  free ← rd_range (rx_buffer s) (rx_write s) (SLIP_MTU_MAX - rx_write s);
  '(w, it, read) ← dev_read w (iovec_iter_init_simple_kvec free (SLIP_MTU_MAX - rx_write s));
  b ← wr_range (rx_buffer s) (rx_write s) (segment it);
  let s := set_rx s (rx_read s) (rx_write s) b in
  if read <? 0 then Some (w, s)
  else
    let s := set_rx s (rx_read s) (s16 (rx_write s + read)) b in
    s ← slip_scan (Z.to_nat read) s;
    Some (w, set_rx s (rx_write s) (rx_write s) (rx_buffer s)).

(** The loop of slip_if_write_data; [fuel] is more than the bytes to send. *)
Fixpoint slip_write_loop (fuel : nat) (w : W) (s : slip_if_device) : option (W * slip_if_device) :=
  match fuel with
  | O => None
  | S fuel =>
      s ← (if tx_write s =? 0 then slip_encode_packet s else Some s);
      if tx_read s <? tx_write s then
        data ← rd_range (tx_buffer s) (tx_read s) (tx_write s - tx_read s);
        '(w, _, written) ← dev_write w (iovec_iter_init_simple_kvec data (tx_write s - tx_read s));
        if written <? 0 then Some (w, s)
        else
          let r := s16 (tx_read s + written) in
          let s := if tx_write s <=? r then set_tx s 0 0 (tx_buffer s) else set_tx s r (tx_write s) (tx_buffer s) in
          if written =? 0 then Some (w, s) else slip_write_loop fuel w s
      else Some (w, s)
  end.

Definition write_fuel (s : slip_if_device) : nat :=
  S (Z.to_nat (tx_write s - tx_read s) + sum_list ((λ p, 2 * Z.to_nat (pack_length p) + 2)%nat <$> tx_queue (sl_if s))).

Definition slip_if_write_data (w : W) (s : slip_if_device) : option (W * slip_if_device) := slip_write_loop (write_fuel s) w s.

Definition slip_if_poll (w : W) (s : slip_if_device) : option (W * slip_if_device) :=
  '(w, s) ← slip_if_write_data w s; slip_if_read_data w s.

(** net_if_send_packet of if.c, for this interface. *)
Definition net_if_send_packet (w : W) (s : slip_if_device) (pack : packet) : option (W * slip_if_device) :=
  let i := sl_if s in
  let i := IfDevice (if_flags i) (if_family i) (if_address i) (incoming_proto i) (rx_queue i) (tx_queue i ++ [pack])
             (rx_packets i) (rx_errors i) (rx_dropped i) (s32 (tx_packets i + 1)) in
  slip_if_poll w (set_if s i).

(** The bottom half. *)
Definition slip_if_process_input (w : W) (s : slip_if_device) : option (W * slip_if_device) :=
  '(w, s) ← slip_if_read_data w s; slip_if_write_data w s.
End poll.
