(* ===== verification/Slipinv.v ===== *)
(** * Slipinv: what the serial line interface sends and receives

    Frames are compared with the escaping that SLIP defines.  Whatever the
    sizes in which the device takes and gives bytes, the frames that go out
    are those of the packets sent, in order, and the packets queued are the
    frames that came in. *)

From S2P Require Import Prelude Queue Result Iovec Packet Slip.

(** ** The reference *)

Definition escape1 (c : Z) : list Z :=
  if c =? SLIP_FRAME_END then [SLIP_FRAME_ESC; SLIP_FRAME_ESC_END]
  else if c =? SLIP_FRAME_ESC then [SLIP_FRAME_ESC; SLIP_FRAME_ESC_ESC] else [c].
Definition escape (l : list Z) : list Z := concat (escape1 <$> l).
Definition frame (l : list Z) : list Z := SLIP_FRAME_END :: escape l ++ [SLIP_FRAME_END].

(** An escape that is not one of the two stands for a zero byte. *)
Fixpoint unescape (l : list Z) : list Z :=
  match l with
  | [] => []
  | c :: l =>
      if c =? SLIP_FRAME_ESC then
        match l with
        | [] => [0]
        | e :: l => (if e =? SLIP_FRAME_ESC_END then SLIP_FRAME_END else if e =? SLIP_FRAME_ESC_ESC then SLIP_FRAME_ESC else 0) :: unescape l
        end
      else c :: unescape l
  end.

(** The frames that end in [new] when [part] has been read of the first, and what is read of the next. *)
Fixpoint frames (part new : list Z) : list (list Z) * list Z :=
  match new with
  | [] => ([], part)
  | c :: new =>
      if c =? SLIP_FRAME_END then let '(fs, r) := frames [] new in (part :: fs, r) else frames (part ++ [c]) new
  end.
Definition nonempty (f : list Z) : bool := match f with [] => false | _ => true end.
(** The payloads received from a stream of bytes. *)
Definition received (stream : list Z) : list (list Z) := unescape <$> List.filter nonempty (frames [] stream).1.

Lemma unescape_escape l : unescape (escape l) = l.
Proof.
  induction l as [|c l IH]; [done|]. unfold escape in *. cbn [fmap list_fmap concat]. unfold escape1 at 1.
  destruct (Z.eqb_spec c SLIP_FRAME_END) as [->|H1]; [cbn; by rewrite IH|].
  destruct (Z.eqb_spec c SLIP_FRAME_ESC) as [->|H2]; [cbn; by rewrite IH|].
  cbn [app unescape]. rewrite (proj2 (Z.eqb_neq c _) H2). by rewrite IH.
Qed.

Lemma escape_no_end l : SLIP_FRAME_END ∉ escape l.
Proof.
  induction l as [|c l IH]; [apply not_elem_of_nil|]. unfold escape in *. cbn [fmap list_fmap concat]. rewrite not_elem_of_app. split; [|done].
  unfold escape1. destruct (Z.eqb_spec c SLIP_FRAME_END); [|destruct (Z.eqb_spec c SLIP_FRAME_ESC)]; rewrite ?not_elem_of_cons; unfold SLIP_FRAME_END, SLIP_FRAME_ESC in *; 
    repeat split; try done; try apply not_elem_of_nil; congruence.
Qed.

Lemma escape_nonempty l : l ≠ [] → nonempty (escape l) = true.
Proof. destruct l as [|c l]; [done|]. intros _. unfold escape. cbn. unfold escape1. by repeat case_match. Qed.

Lemma frames_app part a b : frames part (a ++ b) = ((frames part a).1 ++ (frames (frames part a).2 b).1, (frames (frames part a).2 b).2).
Proof.
  revert part. induction a as [|c a IH]; intros part; [cbn; by destruct (frames part b)|]. cbn [app frames]. destruct (c =? SLIP_FRAME_END); [|apply IH].
  rewrite IH. by destruct (frames [] a).
Qed.

Lemma frames_no_end part l : SLIP_FRAME_END ∉ l → frames part l = ([], part ++ l).
Proof.
  revert part. induction l as [|c l IH]; intros part Hl; [by rewrite app_nil_r|]. apply not_elem_of_cons in Hl as [Hc Hl]. cbn [frames].
  rewrite (proj2 (Z.eqb_neq c _)) by congruence. rewrite IH by done. by rewrite <- app_assoc.
Qed.

Lemma frames_frame l : frames [] (frame l) = ([[]; escape l], []).
Proof. unfold frame. cbn [frames]. rewrite Z.eqb_refl, frames_app, frames_no_end by apply escape_no_end. by cbn. Qed.

(** What is received from the frames of some packets is what the packets hold. *)
Lemma received_frames ps : Forall (λ p, p ≠ []) ps → received (concat (frame <$> ps)) = ps ∧ (frames [] (concat (frame <$> ps))).2 = [].
Proof.
  unfold received. induction 1 as [|p ps Hp _ [IH1 IH2]]; [done|]. cbn [fmap list_fmap concat]. rewrite frames_app, frames_frame. cbn [fst snd].
  split; [|done]. cbn [app List.filter nonempty]. rewrite (escape_nonempty _ Hp). cbn [fmap list_fmap]. by rewrite unescape_escape, IH1.
Qed.

Lemma received_app a b : received a `prefix_of` received (a ++ b).
Proof. unfold received. rewrite frames_app. cbn [fst]. rewrite List.filter_app, fmap_app. by eexists. Qed.

(** The part of a frame that is waiting has no end mark in it. *)
Lemma frames_rest part l : SLIP_FRAME_END ∉ part → SLIP_FRAME_END ∉ (frames part l).2.
Proof.
  revert part. induction l as [|c l IH]; intros part Hp; [done|]. cbn [frames]. destruct (Z.eqb_spec c SLIP_FRAME_END) as [->|Hc].
  - specialize (IH [] (not_elem_of_nil _)). by destruct (frames [] l).
  - apply IH. rewrite not_elem_of_app, list_elem_of_singleton. split; congruence.
Qed.

Lemma length_unescape l : (length (unescape l) ≤ length l)%nat.
Proof.
  induction l as [l IH] using (well_founded_induction (well_founded_ltof _ (@length Z))). unfold ltof in IH.
  destruct l as [|c l]; [done|]. cbn [unescape]. destruct (c =? SLIP_FRAME_ESC).
  - destruct l as [|e l]; [done|]. specialize (IH l ltac:(simpl; lia)). simpl. lia.
  - specialize (IH l ltac:(simpl; lia)). simpl. lia.
Qed.

(** ** Encoding *)

Lemma slip_encode_loop_ok n d (i : nat) buf (j : nat) : (i + n ≤ length d)%nat → (j + length (escape (slice d i n)) ≤ length buf)%nat →
  slip_encode_loop n d (Z.of_nat i) buf (Z.of_nat j) =
    Some (splice buf j (escape (slice d i n)), Z.of_nat (j + length (escape (slice d i n)))).
Proof.
  revert i buf j. induction n as [|n IH]; intros i buf j Hi Hj; cbn [slip_encode_loop].
  { rewrite slice_0. cbn. rewrite splice_nil. do 2 f_equal. lia. }
  destruct (lookup_lt_is_Some_2 d i) as [c Hc]; [lia|]. rewrite rd_nat, Hc, bind_some.
  assert (Hs : slice d i (S n) = c :: slice d (S i) n).
  { unfold slice. rewrite (drop_S _ _ _ Hc). done. }
  rewrite Hs in *. unfold escape in Hj |- *. cbn [fmap list_fmap concat] in Hj |- *. fold (escape (slice d (S i) n)) in Hj |- *.
  replace (Z.of_nat i + 1) with (Z.of_nat (S i)) by lia. rewrite length_app in *.
  assert (H2 : ∀ a b, (j + (2 + length (escape (slice d (S i) n))) ≤ length buf)%nat →
    (buffer ← wr buf (Z.of_nat j) a; buffer ← wr buffer (Z.of_nat j + 1) b; slip_encode_loop n d (Z.of_nat (S i)) buffer (Z.of_nat j + 2)) =
    Some (splice buf j ([a; b] ++ escape (slice d (S i) n)), Z.of_nat (j + (2 + length (escape (slice d (S i) n)))))).
  { intros a b Hl. rewrite wr_in_range by lia. rewrite bind_some, Nat2Z.id, wr_in_range by (rewrite length_insert; lia). rewrite bind_some.
    rewrite !insert_splice by (rewrite ?length_insert; lia). replace (Z.to_nat (Z.of_nat j + 1)) with (j + 1)%nat by lia.
    rewrite splice_splice_adj by (simpl; lia). replace (Z.of_nat j + 2) with (Z.of_nat (j + 2)) by lia.
    rewrite IH by (rewrite ?length_splice; simpl; lia). rewrite splice_splice_adj by (simpl; lia). do 2 f_equal. lia. }
  unfold escape1 in *. destruct (c =? SLIP_FRAME_END); [by apply H2|]. destruct (c =? SLIP_FRAME_ESC); [by apply H2|].
  cbn [length] in Hj. rewrite wr_in_range by lia. rewrite bind_some, Nat2Z.id, insert_splice by lia.
  replace (Z.of_nat j + 1) with (Z.of_nat (j + 1)) by lia. rewrite IH by (rewrite ?length_splice; simpl; lia).
  rewrite splice_splice_adj by (simpl; lia). cbn [length]. do 2 f_equal. lia.
Qed.

(** What a packet holds, and that it is one the interface can send: its
    frame fits the transmit buffer. *)
Definition payload (pack : packet) : list Z := take (Z.to_nat (pack_length pack)) (pack_data pack).
Definition sendable (pack : packet) : Prop :=
  (0 ≤ pack_length pack ≤ zlen (pack_data pack) ∧ zlen (frame (payload pack)) ≤ SLIP_MTU_MAX) ∧ bytes_ok (pack_data pack).

Lemma frame_bytes l : bytes_ok l → bytes_ok (frame l).
Proof.
  intros Hl. unfold frame. apply Forall_cons. split; [done|]. apply Forall_app. split; [|by apply Forall_singleton].
  induction Hl as [|c l Hc Hl IH]; [by apply Forall_nil|]. unfold escape in *. cbn [fmap list_fmap concat]. apply Forall_app. split; [|done].
  unfold escape1. repeat case_match; repeat (apply Forall_cons; split); done || by apply Forall_nil.
Qed.

Lemma length_frame l : length (frame l) = (length (escape l) + 2)%nat.
Proof. unfold frame. cbn [length]. rewrite length_app. simpl. lia. Qed.

Lemma slip_encode_ok s pack q : tx_queue (sl_if s) = pack :: q → sendable pack → length (tx_buffer s) = 1500%nat →
  ∃ b, slip_encode_packet s = Some (set_tx (set_if s (set_tx_queue (sl_if s) q)) 0 (zlen (frame (payload pack))) b) ∧
    length b = 1500%nat ∧ take (length (frame (payload pack))) b = frame (payload pack).
Proof.
  intros Hq [[Hl Hf] _] Hb. unfold slip_encode_packet. rewrite Hq. cbn [tx_buffer set_if]. rewrite wr_in_range by lia. rewrite bind_some.
  assert (Hs : slice (pack_data pack) 0 (Z.to_nat (pack_length pack)) = payload pack) by (unfold slice, payload; by rewrite drop_0).
  pose proof (length_frame (payload pack)) as Hlf. unfold SLIP_MTU_MAX in Hf. change 0 with (Z.of_nat 0) at 2. change 1 with (Z.of_nat 1).
  rewrite slip_encode_loop_ok by (rewrite ?Hs, ?length_insert; lia). rewrite bind_some, Hs. cbn [fst snd].
  rewrite insert_splice by lia. change (Z.to_nat 0) with 0%nat. rewrite (splice_splice_adj _ 0 1) by (simpl; lia).
  rewrite wr_in_range by (rewrite length_splice; simpl; lia). rewrite bind_some, insert_splice by (rewrite length_splice; simpl; lia).
  rewrite (splice_splice_adj _ 0) by (simpl; lia). change (([SLIP_FRAME_END] ++ escape (payload pack)) ++ [SLIP_FRAME_END]) with (frame (payload pack)).
  exists (splice (tx_buffer s) 0 (frame (payload pack))). split; [|split; [by rewrite length_splice by lia|]].
  - do 2 f_equal. rewrite s16_small; lia.
  - unfold splice. cbn [take]. rewrite app_nil_l. apply take_app_length.
Qed.

(** ** Decoding *)

(** The packet made of the frame [f]. *)
Definition rx_packet (p : option protocol) (f : list Z) : packet :=
  Packet p SLIP0 0 0 0 (Ipv4 0 0) (Ipv4 0 0) (zlen (unescape f)) (zlen f) (unescape f ++ replicate (length f - length (unescape f)) 0).

Lemma payload_rx p f : payload (rx_packet p f) = unescape f.
Proof. unfold payload. cbn [pack_length pack_data rx_packet]. rewrite Nat2Z.id. apply take_app_length. Qed.

Lemma wr_zero done m v : (0 < m)%nat → wr (done ++ replicate m 0) (zlen done) v = Some ((done ++ [v]) ++ replicate (m - 1) 0).
Proof.
  intros Hm. destruct m as [|m]; [lia|]. rewrite wr_in_range by (rewrite length_app, length_replicate; lia).
  rewrite Nat2Z.id, insert_app_r_alt, Nat.sub_diag by lia. cbn [replicate insert list_insert]. rewrite <- app_assoc. simpl. by rewrite Nat.sub_0_r.
Qed.

Lemma slip_decode_loop_ok fuel pre l rest done m : SLIP_FRAME_END ∉ l → (length (unescape l) ≤ m)%nat → (length l < fuel)%nat →
  slip_decode_loop fuel (pre ++ l ++ SLIP_FRAME_END :: rest) (zlen pre + zlen l) (zlen pre) (zlen done) (done ++ replicate m 0) =
    Some (done ++ unescape l ++ replicate (m - length (unescape l)) 0, zlen done + zlen (unescape l)).
Proof.
  revert pre l done m. induction fuel as [|fuel IH]; intros pre l done m Hl Hm Hf; [lia|]. cbn [slip_decode_loop].
  destruct l as [|c l].
  { destruct (Z.leb_spec (zlen pre + zlen (@nil Z)) (zlen pre)) as [_|Hx]; [|simpl in Hx; lia]. cbn [unescape app length]. by rewrite Nat.sub_0_r, Z.add_0_r. }
  destruct (Z.leb_spec (zlen pre + zlen (c :: l)) (zlen pre)) as [Hx|_]; [simpl in Hx; lia|].
  apply not_elem_of_cons in Hl as [Hc Hl]. cbn [app]. rewrite rd_nat, lookup_app_r, Nat.sub_diag by lia. cbn [lookup list_lookup]. rewrite bind_some.
  rewrite (proj2 (Z.eqb_neq c _)) by congruence. cbn [unescape] in Hm |- *.
  assert (Hd : ∀ v : Z, zlen (done ++ [v]) = zlen done + 1) by (intros v; rewrite length_app; simpl; lia).
  destruct (Z.eqb_spec c SLIP_FRAME_ESC) as [->|Hce].
  - destruct l as [|e l].
    + cbn [app] in *. replace (rd (pre ++ SLIP_FRAME_ESC :: SLIP_FRAME_END :: rest) (zlen pre + 1)) with (Some SLIP_FRAME_END).
      2: { symmetry. apply rd_some. split; [lia|]. rewrite lookup_app_r by lia. by replace (Z.to_nat (zlen pre + 1) - length pre)%nat with 1%nat by lia. }
      rewrite bind_some. cbn in Hm. change (SLIP_FRAME_END =? SLIP_FRAME_ESC_END) with false. change (SLIP_FRAME_END =? SLIP_FRAME_ESC_ESC) with false. cbn iota. rewrite bind_some.
      destruct fuel as [|fuel]; [simpl in Hf; lia|]. cbn [slip_decode_loop]. destruct (Z.leb_spec (zlen pre + zlen [SLIP_FRAME_ESC]) (zlen pre + 2)) as [_|Hx]; [|simpl in Hx; lia].
      cbn [length app]. destruct m as [|m]; [lia|]. simpl. rewrite Nat.sub_0_r. done.
    + apply not_elem_of_cons in Hl as [He Hl]. cbn [app length] in *.
      replace (rd (pre ++ SLIP_FRAME_ESC :: e :: l ++ SLIP_FRAME_END :: rest) (zlen pre + 1)) with (Some e).
      2: { symmetry. apply rd_some. split; [lia|]. rewrite lookup_app_r by lia. by replace (Z.to_nat (zlen pre + 1) - length pre)%nat with 1%nat by lia. }
      rewrite bind_some. set (v := if e =? SLIP_FRAME_ESC_END then SLIP_FRAME_END else if e =? SLIP_FRAME_ESC_ESC then SLIP_FRAME_ESC else 0) in *.
      assert (Hw : (if e =? SLIP_FRAME_ESC_END then wr (done ++ replicate m 0) (zlen done) SLIP_FRAME_END
                    else if e =? SLIP_FRAME_ESC_ESC then wr (done ++ replicate m 0) (zlen done) SLIP_FRAME_ESC else Some (done ++ replicate m 0)) =
                   Some ((done ++ [v]) ++ replicate (m - 1) 0)).
      { unfold v. repeat case_match; [by apply wr_zero; lia..|]. destruct m as [|m]; [lia|]. rewrite <- app_assoc. simpl. by rewrite Nat.sub_0_r. }
      rewrite Hw, bind_some. clear Hw.
      specialize (IH (pre ++ [SLIP_FRAME_ESC; e]) l (done ++ [v]) (m - 1)%nat Hl ltac:(lia) ltac:(lia)).
      rewrite Hd, !length_app in IH. cbn [length] in IH. replace (Z.of_nat (length pre + 2)) with (zlen pre + 2) in IH by lia.
      rewrite <- (app_assoc pre) in IH. cbn [app] in IH. replace (zlen pre + Z.of_nat (S (S (length l)))) with (zlen pre + 2 + zlen l) by lia. rewrite IH.
      rewrite <- app_assoc. cbn [app length]. replace (m - 1 - length (unescape l))%nat with (m - S (length (unescape l)))%nat by lia. do 2 f_equal. lia.
  - cbn [length] in *. rewrite wr_zero by lia. rewrite bind_some. specialize (IH (pre ++ [c]) l (done ++ [c]) (m - 1)%nat Hl ltac:(lia) ltac:(lia)).
    rewrite Hd, !length_app in IH. cbn [length] in IH. replace (Z.of_nat (length pre + 1)) with (zlen pre + 1) in IH by lia.
    rewrite <- (app_assoc pre) in IH. cbn [app] in IH. replace (zlen pre + Z.of_nat (S (length l))) with (zlen pre + 1 + zlen l) by lia. rewrite IH.
    rewrite <- app_assoc. cbn [app length]. replace (m - 1 - length (unescape l))%nat with (m - S (length (unescape l)))%nat by lia. do 2 f_equal. lia.
Qed.

Lemma slip_decode_ok s f rest : rx_buffer s = f ++ SLIP_FRAME_END :: rest → SLIP_FRAME_END ∉ f → zlen f < 1500 →
  slip_decode_packet s (zlen f) = Some (request_net (set_if s (set_rx_queue (sl_if s) (rx_queue (sl_if s) ++ [rx_packet (incoming_proto (sl_if s)) f])))).
Proof.
  intros Hb Hf Hl. unfold slip_decode_packet. rewrite Hb. cbn [pack_data packet_alloc]. rewrite Nat2Z.id.
  pose proof (length_unescape f). pose proof (slip_decode_loop_ok (S (length f)) [] f rest [] (length f) Hf ltac:(lia) ltac:(lia)) as HH.
  change (zlen (@nil Z)) with 0 in HH. rewrite !app_nil_l, Z.add_0_l in HH. rewrite HH, bind_some. cbn [fst snd]. rewrite Z.add_0_l.
  unfold rx_packet. do 5 f_equal. unfold set_length, set_pack_data, packet_alloc. cbn [proto ifdev network_offset transport_offset data_offset custom_src custom_dest pack_length capacity pack_data].
  rewrite !u16_small by lia. done.
Qed.

(** ** Receiving *)

Lemma memcpy_down_ok n b (dest k : nat) : (0 < k)%nat → (dest + k + n ≤ length b)%nat →
  memcpy_down n b (Z.of_nat dest) (Z.of_nat (dest + k)) = Some (splice b dest (slice b (dest + k) n)).
Proof.
  revert b dest. induction n as [|n IH]; intros b dest Hk Hl; cbn [memcpy_down]; [by rewrite slice_0, splice_nil|].
  destruct (lookup_lt_is_Some_2 b (dest + k)) as [c Hc]; [lia|]. rewrite rd_nat, Hc, bind_some, wr_in_range by lia. rewrite bind_some, Nat2Z.id.
  replace (Z.of_nat dest + 1) with (Z.of_nat (S dest)) by lia. replace (Z.of_nat (dest + k) + 1) with (Z.of_nat (S dest + k)) by lia.
  rewrite IH by (rewrite ?length_insert; lia). f_equal. rewrite insert_splice by lia.
  rewrite slice_splice_disjoint by (simpl; lia). rewrite <- (Nat.add_1_r dest) at 1. rewrite splice_splice_adj.
  - f_equal. unfold slice. rewrite (drop_S _ _ _ Hc). done.
  - done.
  - rewrite length_slice. simpl. lia.
Qed.

Lemma shift_down b part new rest : b = part ++ SLIP_FRAME_END :: new ++ rest → new ≠ [] →
  ∃ rest', memcpy_down (length new) b 0 (Z.of_nat (length part + 1)) = Some (new ++ rest') ∧ length (new ++ rest') = length b.
Proof.
  intros -> Hn. exists (drop (length new) (part ++ SLIP_FRAME_END :: new ++ rest)). rewrite length_app, length_drop, !length_app. cbn [length].
  change 0 with (Z.of_nat 0). change (length part + 1)%nat with (0 + (length part + 1))%nat at 1. rewrite length_app.
  rewrite memcpy_down_ok; [|lia|rewrite length_app; cbn [length]; rewrite length_app; lia]. split; [|lia]. f_equal.
  assert (Hs : slice (part ++ SLIP_FRAME_END :: new ++ rest) (0 + (length part + 1)) (length new) = new).
  { unfold slice. replace (0 + (length part + 1))%nat with (length (part ++ [SLIP_FRAME_END])) by (rewrite length_app; done).
    change (part ++ SLIP_FRAME_END :: new ++ rest) with (part ++ [SLIP_FRAME_END] ++ new ++ rest). rewrite (app_assoc part). rewrite drop_app_length. apply take_app_length. }
  rewrite Hs. done.
Qed.

Definition same_tx (s s' : slip_if_device) : Prop := tx_read s' = tx_read s ∧ tx_write s' = tx_write s ∧ tx_buffer s' = tx_buffer s.

(** The interface with the packets of the frames [fs] added to its queue. *)
Definition queued (i : if_device) (fs : list (list Z)) : if_device :=
  set_rx_queue i (rx_queue i ++ (rx_packet (incoming_proto i) <$> List.filter nonempty fs)).

Lemma queued_nil i : queued i [] = i.
Proof. unfold queued. cbn. rewrite app_nil_r. by destruct i. Qed.

Lemma queued_app i f1 f2 : queued (queued i f1) f2 = queued i (f1 ++ f2).
Proof. unfold queued. cbn [rx_queue set_rx_queue incoming_proto]. rewrite List.filter_app, fmap_app, <- app_assoc. done. Qed.

Lemma slip_scan_ok new s part rest : rx_buffer s = part ++ new ++ rest → rx_read s = zlen part → rx_write s = zlen part + zlen new →
  SLIP_FRAME_END ∉ part → length (rx_buffer s) = 1500%nat →
  ∃ s' rest', slip_scan (length new) s = Some s' ∧ rx_buffer s' = (frames part new).2 ++ rest' ∧ rx_read s' = zlen (frames part new).2 ∧
    rx_write s' = zlen (frames part new).2 ∧ length (rx_buffer s') = 1500%nat ∧ same_tx s s' ∧ sl_if s' = queued (sl_if s) (frames part new).1.
Proof.
  revert s part rest. induction new as [|c new IH]; intros s part rest Hb Hr Hw Hp Hl; cbn [slip_scan length].
  { exists s, rest. cbn. rewrite queued_nil. split_and!; done || (rewrite Hw; simpl; lia). }
  assert (Hpl : (length part + S (length new) ≤ 1500)%nat) by (rewrite <- Hl, Hb, !length_app; simpl; lia).
  assert (Hrd : rd (rx_buffer s) (rx_read s) = Some c) by (by rewrite Hr, Hb, rd_nat, lookup_app_r, Nat.sub_diag by lia).
  rewrite Hrd, bind_some, Hr. cbn [frames]. destruct (Z.eqb_spec c SLIP_FRAME_END) as [->|Hc].
  2: { rewrite bind_some. destruct (IH (set_rx s (s16 (zlen part + 1)) (rx_write s) (rx_buffer s)) (part ++ [c]) rest) as (s' & rest' & E & H1 & H2 & H3 & H4 & H5 & H6).
    - cbn [rx_buffer set_rx]. by rewrite Hb, <- app_assoc.
    - cbn [rx_read set_rx]. rewrite s16_small by lia. rewrite length_app. simpl. lia.
    - cbn [rx_write set_rx]. rewrite Hw, length_app. simpl. lia.
    - rewrite not_elem_of_app, list_elem_of_singleton. split; congruence.
    - done.
    - exists s', rest'. split_and!; done. }
  set (s1 := if zlen part =? 0 then s else request_net (set_if s (queued (sl_if s) [part]))).
  assert (E1 : (if zlen part =? 0 then Some s else slip_decode_packet s (zlen part)) = Some s1).
  { unfold s1. destruct (Z.eqb_spec (zlen part) 0); [done|]. rewrite (slip_decode_ok s part (new ++ rest)) by (done || lia).
    unfold queued. cbn. destruct part; [simpl in *; lia|]. done. }
  assert (Hs1 : rx_read s1 = rx_read s ∧ rx_write s1 = rx_write s ∧ rx_buffer s1 = rx_buffer s ∧ same_tx s s1 ∧ sl_if s1 = queued (sl_if s) [part]).
  { unfold s1. destruct (Z.eqb_spec (zlen part) 0) as [E0|]; [|done]. destruct part; [|simpl in E0; lia]. split_and!; try done. unfold queued. cbn. rewrite app_nil_r. by destruct (sl_if s). }
  rewrite E1, bind_some. clear E1. clearbody s1. destruct Hs1 as (Q1 & Q2 & Q3 & Q4 & Q5). rewrite Q1, Q2, Q3, Hr, Hw.
  rewrite (s16_small (zlen part + 1)) by lia. replace (zlen part + zlen (SLIP_FRAME_END :: new) - (zlen part + 1)) with (zlen new) by (simpl; lia). rewrite (s16_small (zlen new)) by lia. rewrite Nat2Z.id.
  assert (Hsh : ∃ b rest', (if zlen part + 1 <? zlen part + zlen (SLIP_FRAME_END :: new) then memcpy_down (length new) (rx_buffer s) 0 (zlen part + 1) else Some (rx_buffer s)) = Some b ∧
    b = new ++ rest' ∧ length b = 1500%nat).
  { destruct (Z.ltb_spec (zlen part + 1) (zlen part + zlen (SLIP_FRAME_END :: new))) as [Hlt|Hge].
    - destruct (shift_down (rx_buffer s) part new rest Hb) as (rest' & E & El); [intros ->; simpl in Hlt; lia|].
      replace (zlen part + 1) with (Z.of_nat (length part + 1)) by lia. rewrite E. exists (new ++ rest'), rest'. split_and!; [done|done|lia].
    - destruct new; [|simpl in Hge; lia]. exists (rx_buffer s), (rx_buffer s). done. }
  destruct Hsh as (b & rest' & -> & Hbb & Hbl). rewrite !bind_some.
  destruct (IH (set_rx s1 0 (zlen new) b) [] rest') as (s' & rest2 & E & H1 & H2 & H3 & H4 & H5 & H6); [done..|apply not_elem_of_nil|done|].
  rewrite E. exists s', rest2. destruct (frames [] new) as [fs r]. cbn [fst snd] in *. split_and!; try done.
  - destruct H5 as (? & ? & ?), Q4 as (? & ? & ?). split_and!; etrans; done.
  - rewrite H6. cbn [sl_if set_rx]. rewrite Q5, queued_app. done.
Qed.

(** ** The device: a stream of bytes each way *)

Class DeviceLaws (W : Type) `{ByteDevice W} := {
  dev_inv : W → Prop;
  (** The bytes that reads have still to give, and those that writes have taken. *)
  dev_in : W → list Z;
  dev_out : W → list Z;
  dev_read_law w s : dev_inv w → zlen s ≤ SLIP_MTU_MAX →
    ∃ w' it n bs, dev_read w (iovec_iter_init_simple_kvec s (zlen s)) = Some (w', it, n) ∧ dev_inv w' ∧ dev_out w' = dev_out w ∧
      dev_in w = bs ++ dev_in w' ∧ zlen bs ≤ zlen s ∧ segment it = splice s 0 bs ∧ (n = zlen bs ∨ n < 0 ∧ bs = []);
  dev_write_law w s : dev_inv w → zlen s ≤ SLIP_MTU_MAX → bytes_ok s →
    ∃ w' it n, dev_write w (iovec_iter_init_simple_kvec s (zlen s)) = Some (w', it, n) ∧ dev_inv w' ∧ dev_in w' = dev_in w ∧
      n ≤ zlen s ∧ dev_out w' = dev_out w ++ take (Z.to_nat n) s;
}.

Section run.
Context {W : Type} {BD : ByteDevice W} {DL : DeviceLaws W}.

(** [part] of a frame has been received. *)
Definition rx_rel (s : slip_if_device) (part : list Z) : Prop :=
  rx_read s = zlen part ∧ rx_write s = zlen part ∧ length (rx_buffer s) = 1500%nat ∧ take (length part) (rx_buffer s) = part ∧
  (SLIP_FRAME_END ∉ part) ∧ (length part ≤ 1500)%nat.

(** [cur] of the frame in the transmit buffer has still to be sent. *)
Definition tx_rel (s : slip_if_device) (cur : list Z) : Prop :=
  0 ≤ tx_read s ≤ tx_write s ∧ tx_write s ≤ 1500 ∧ length (tx_buffer s) = 1500%nat ∧
  slice (tx_buffer s) (Z.to_nat (tx_read s)) (Z.to_nat (tx_write s - tx_read s)) = cur ∧ (tx_write s = 0 ∨ tx_read s < tx_write s) ∧ bytes_ok cur ∧
  Forall sendable (tx_queue (sl_if s)).

(** All that has still to be sent. *)
Definition unsent (s : slip_if_device) (cur : list Z) : list Z := cur ++ concat (frame <$> (payload <$> tx_queue (sl_if s))).

Lemma slip_read_ok w s part : dev_inv w → rx_rel s part →
  ∃ w' s' bs, slip_if_read_data w s = Some (w', s') ∧ dev_inv w' ∧ dev_out w' = dev_out w ∧ dev_in w = bs ++ dev_in w' ∧
    rx_rel s' (frames part bs).2 ∧ same_tx s s' ∧ sl_if s' = queued (sl_if s) (frames part bs).1.
Proof.
  intros Hi (Hr & Hw & Hl & Ht & He & Hpl). unfold slip_if_read_data, SLIP_MTU_MAX. rewrite Hw, rd_range_ok by lia. rewrite bind_some, Nat2Z.id.
  set (free := slice _ _ _). assert (Hfree : zlen free = 1500 - zlen part) by (unfold free; rewrite length_slice; lia).
  destruct (dev_read_law w free Hi) as (w' & it & n & bs & E & Hi' & Ho & Hin & Hbs & Hseg & Hn); [unfold SLIP_MTU_MAX; lia|].
  rewrite Hfree in E. rewrite E, bind_some, Hseg. rewrite wr_range_ok by (rewrite ?length_splice; lia). rewrite bind_some, Nat2Z.id.
  assert (Hb : splice (rx_buffer s) (length part) (splice free 0 bs) = part ++ bs ++ drop (length bs) free).
  { unfold splice at 1. rewrite Ht, length_splice by lia. rewrite (drop_ge (rx_buffer s)), app_nil_r by lia. done. }
  assert (Hbl : length (part ++ bs ++ drop (length bs) free) = 1500%nat) by (rewrite !length_app, length_drop; lia).
  rewrite Hb. exists w'. destruct Hn as [->|[Hn ->]].
  - destruct (Z.ltb_spec (zlen bs) 0); [lia|]. cbn [rx_write rx_read set_rx].
    destruct (slip_scan_ok bs (set_rx (set_rx s (rx_read s) (zlen part) (part ++ bs ++ drop (length bs) free)) (rx_read s) (s16 (zlen part + zlen bs)) (part ++ bs ++ drop (length bs) free)) part (drop (length bs) free))
      as (s' & rest' & Es & H1 & H2 & H3 & H4 & H5 & H6); [done|done|cbn [rx_write set_rx]; rewrite s16_small by lia; done|done|done|].
    rewrite Nat2Z.id. cbn [rx_read rx_write set_rx] in *. rewrite Es, bind_some. eexists _, bs. split; [done|]. split_and!; try done.
    pose proof (frames_rest part bs He). split_and!; cbn [rx_read rx_write rx_buffer set_rx]; try done.
    + rewrite H1. apply take_app_length.
    + rewrite H1, length_app in H4. lia.
  - destruct (Z.ltb_spec n 0); [|lia]. eexists _, []. split; [done|]. cbn [frames fst snd]. rewrite queued_nil. split_and!; try done.
    cbn [rx_buffer set_rx]. rewrite app_nil_l in *. split_and!; try done. apply take_app_length.
Qed.

(** What is left of the sizes in the fuel of the write loop. *)
Definition to_write (s : slip_if_device) : nat := Z.to_nat (tx_write s - tx_read s) + sum_list ((λ p, 2 * Z.to_nat (pack_length p) + 2)%nat <$> tx_queue (sl_if s)).

Lemma length_escape l : (length (escape l) ≤ 2 * length l)%nat.
Proof. induction l as [|c l IH]; [done|]. unfold escape in *. cbn [fmap list_fmap concat length]. rewrite length_app. assert (length (escape1 c) ≤ 2)%nat by (unfold escape1; repeat case_match; simpl; lia). lia. Qed.

Definition same_rx (s s' : slip_if_device) : Prop :=
  rx_read s' = rx_read s ∧ rx_write s' = rx_write s ∧ rx_buffer s' = rx_buffer s ∧ ∃ q, sl_if s' = set_tx_queue (sl_if s) q.

Lemma same_rx_refl s : same_rx s s.
Proof. split_and!; try done. exists (tx_queue (sl_if s)). by destruct (sl_if s). Qed.

Lemma same_rx_trans s1 s2 s3 : same_rx s1 s2 → same_rx s2 s3 → same_rx s1 s3.
Proof. intros (? & ? & ? & q1 & E1) (? & ? & ? & q2 & E2). split_and!; [congruence..|]. exists q2. by rewrite E2, E1. Qed.

(** Taking the next packet when the transmit buffer is empty. *)
Lemma slip_next_ok s cur : tx_rel s cur →
  ∃ s' cur', (if tx_write s =? 0 then slip_encode_packet s else Some s) = Some s' ∧ tx_rel s' cur' ∧ unsent s' cur' = unsent s cur ∧
    same_rx s s' ∧ (to_write s' ≤ to_write s)%nat.
Proof.
  intros Hrel. pose proof Hrel as (Hrw & Hw & Hl & Hc & Hne & Hcb & Hq). destruct (Z.eqb_spec (tx_write s) 0) as [E0|]; [|exists s, cur; split_and!; done || apply same_rx_refl].
  assert (cur = []) as -> by (rewrite <- Hc; replace (Z.to_nat (tx_write s - tx_read s)) with 0%nat by lia; apply slice_0).
  destruct (tx_queue (sl_if s)) as [|pack q] eqn:Eq.
  { exists s, []. split; [unfold slip_encode_packet; by rewrite Eq|]. split_and!; done || apply same_rx_refl. }
  apply Forall_cons in Hq as [Hp Hq]. destruct (slip_encode_ok s pack q Eq Hp Hl) as (b & -> & Hbl & Hb). pose proof Hp as [[Hpl Hf] Hby]. unfold SLIP_MTU_MAX in Hf.
  eexists _, (frame (payload pack)). split; [done|]. pose proof (length_frame (payload pack)). split_and!.
  - unfold tx_rel. cbn [tx_read tx_write tx_buffer sl_if set_tx set_if tx_queue set_tx_queue]. split_and!; try done; try lia; [|by apply frame_bytes, Forall_take].
    rewrite Z.sub_0_r, Nat2Z.id. unfold slice. change (Z.to_nat 0) with 0%nat. rewrite drop_0. done.
  - unfold unsent. rewrite Eq. cbn [fmap list_fmap concat tx_queue set_tx_queue sl_if set_tx set_if]. done.
  - split_and!; try done. by exists q.
  - unfold to_write. cbn [tx_read tx_write sl_if set_tx set_if tx_queue set_tx_queue]. rewrite Eq. cbn [fmap list_fmap sum_list sum_list_with].
    pose proof (length_escape (payload pack)). assert (length (payload pack) ≤ Z.to_nat (pack_length pack))%nat by (unfold payload; rewrite length_take; lia). unfold id. lia.
Qed.

Lemma slip_write_loop_ok fuel w s cur : (to_write s < fuel)%nat → dev_inv w → tx_rel s cur →
  ∃ w' s' cur', slip_write_loop fuel w s = Some (w', s') ∧ dev_inv w' ∧ dev_in w' = dev_in w ∧ tx_rel s' cur' ∧ same_rx s s' ∧
    dev_out w' ++ unsent s' cur' = dev_out w ++ unsent s cur.
Proof.
  revert w s cur. induction fuel as [|fuel IH]; intros w s cur Hf Hi Hrel; [lia|]. cbn [slip_write_loop].
  destruct (slip_next_ok s cur Hrel) as (s1 & cur1 & -> & Hrel1 & Hu & Hsr & Hm). rewrite bind_some, <- Hu.
  pose proof Hrel1 as (Hrw & Hw & Hl & Hc & Hne & Hcb & Hq).
  destruct (Z.ltb_spec (tx_read s1) (tx_write s1)) as [Hlt|Hge].
  2: { exists w, s1, cur1. split_and!; done. }
  rewrite rd_range_ok by lia. rewrite bind_some, Hc.
  assert (Hcl : zlen cur1 = tx_write s1 - tx_read s1) by (rewrite <- Hc, length_slice; lia). rewrite <- Hcl.
  destruct (dev_write_law w cur1 Hi) as (w' & it & n & -> & Hi' & Hin & Hn & Ho); [unfold SLIP_MTU_MAX; lia|done|]. rewrite bind_some.
  destruct (Z.ltb_spec n 0) as [Hneg|Hpos].
  { exists w', s1, cur1. replace (Z.to_nat n) with 0%nat in Ho by lia. cbn [take] in Ho. rewrite app_nil_r in Ho. split_and!; try done. by rewrite Ho. }
  rewrite s16_small by lia.
  set (s2 := if tx_write s1 <=? tx_read s1 + n then set_tx s1 0 0 (tx_buffer s1) else set_tx s1 (tx_read s1 + n) (tx_write s1) (tx_buffer s1)).
  assert (Hrel2 : tx_rel s2 (drop (Z.to_nat n) cur1)).
  { unfold s2, tx_rel. destruct (Z.leb_spec (tx_write s1) (tx_read s1 + n)); cbn [tx_read tx_write tx_buffer sl_if set_tx].
    - rewrite drop_ge by lia. split_and!; done || lia || (by left) || by apply Forall_nil.
    - split_and!; try done; try lia; [|by apply Forall_drop]. rewrite <- Hc, drop_slice. f_equal; lia. }
  assert (Hu2 : (dev_out w ++ take (Z.to_nat n) cur1) ++ unsent s2 (drop (Z.to_nat n) cur1) = dev_out w ++ unsent s1 cur1).
  { replace (unsent s2) with (unsent s1) by (unfold s2; by destruct (_ <=? _)). unfold unsent. rewrite <- !app_assoc. f_equal. rewrite (app_assoc (take _ _)), take_drop. done. }
  assert (Hm2 : (to_write s2 + Z.to_nat n ≤ to_write s1)%nat).
  { unfold s2, to_write. destruct (Z.leb_spec (tx_write s1) (tx_read s1 + n)); cbn [tx_read tx_write sl_if set_tx]; lia. }
  assert (Hsr2 : same_rx s s2).
  { eapply same_rx_trans; [exact Hsr|]. unfold s2. destruct (_ <=? _); (split_and!; try done; exists (tx_queue (sl_if s1)); cbn [sl_if set_tx]; by destruct (sl_if s1)). }
  clearbody s2. destruct (Z.eqb_spec n 0).
  - exists w', s2, (drop (Z.to_nat n) cur1). rewrite Ho. split_and!; done.
  - destruct (IH w' s2 _ ltac:(lia) Hi' Hrel2) as (w3 & s3 & cur3 & -> & Hi3 & Hin3 & Hrel3 & Hsr3 & Hu3).
    exists w3, s3, cur3. split_and!; try done; [congruence|by eapply same_rx_trans|]. by rewrite Hu3, Ho.
Qed.

Lemma slip_write_ok w s cur : dev_inv w → tx_rel s cur →
  ∃ w' s' cur', slip_if_write_data w s = Some (w', s') ∧ dev_inv w' ∧ dev_in w' = dev_in w ∧ tx_rel s' cur' ∧ same_rx s s' ∧
    dev_out w' ++ unsent s' cur' = dev_out w ++ unsent s cur.
Proof. intros. apply slip_write_loop_ok; [|done..]. unfold write_fuel, to_write. lia. Qed.

(** ** Runs of the interface *)

(** A packet is sent, the interface polled, its bottom half run, the next
    packet taken from its queue; or the device does something of its own. *)
Inductive slip_op :=
  | SlSend (pack : packet)
  | SlPoll
  | SlInput
  | SlTake
  | SlDevice (f : W → W).

Definition slip_step (w : W) (s : slip_if_device) (op : slip_op) : option (W * slip_if_device * list packet) :=
  match op with
  | SlSend pack => '(w, s) ← net_if_send_packet w s pack; Some (w, s, [])
  | SlPoll => '(w, s) ← slip_if_poll w s; Some (w, s, [])
  | SlInput => '(w, s) ← slip_if_process_input w s; Some (w, s, [])
  | SlTake => let q := rx_queue (sl_if s) in Some (w, set_if s (set_rx_queue (sl_if s) (drop 1 q)), take 1 q)
  | SlDevice f => Some (f w, s, [])
  end.

Fixpoint slip_run (w : W) (s : slip_if_device) (ops : list slip_op) : option (W * slip_if_device * list packet) :=
  match ops with
  | [] => Some (w, s, [])
  | op :: ops => '(w, s, t1) ← slip_step w s op; '(w, s, t2) ← slip_run w s ops; Some (w, s, t1 ++ t2)
  end.

(** What the device does of its own loses and invents nothing. *)
Definition quiet (f : W → W) : Prop := ∀ w, dev_inv w → dev_inv (f w) ∧ dev_in (f w) = dev_in w ∧ dev_out (f w) = dev_out w.
Definition slip_op_ok (op : slip_op) : Prop :=
  match op with SlSend pack => sendable pack | SlDevice f => quiet f | _ => True end.
Definition slip_sent (ops : list slip_op) : list (list Z) := omap (λ op, match op with SlSend pack => Some (payload pack) | _ => None end) ops.

(** [got] has been read, [taken] taken from the queue and [sent] sent. *)
Definition slip_rel (w : W) (s : slip_if_device) (w0 : W) (got : list Z) (taken : list packet) (sent : list (list Z)) : Prop :=
  dev_inv w ∧ dev_in w0 = got ++ dev_in w ∧ rx_rel s (frames [] got).2 ∧ payload <$> (taken ++ rx_queue (sl_if s)) = received got ∧
  ∃ cur, tx_rel s cur ∧ dev_out w ++ unsent s cur = dev_out w0 ++ concat (frame <$> sent).

Lemma received_step got bs : received (got ++ bs) = received got ++ (unescape <$> List.filter nonempty (frames (frames [] got).2 bs).1).
Proof. unfold received. rewrite frames_app. cbn [fst]. by rewrite List.filter_app, fmap_app. Qed.

Lemma payload_queued i fs : payload <$> rx_queue (queued i fs) = (payload <$> rx_queue i) ++ (unescape <$> List.filter nonempty fs).
Proof.
  unfold queued. cbn [rx_queue set_rx_queue]. rewrite fmap_app, <- list_fmap_compose. f_equal. apply list_fmap_ext. intros ? f _. apply payload_rx.
Qed.

Lemma rx_rel_same s s' part : same_rx s s' → rx_rel s part → rx_rel s' part.
Proof. intros (E1 & E2 & E3 & _) (? & ? & ? & ? & ? & ?). unfold rx_rel. rewrite E1, E2, E3. done. Qed.

(** What reading and writing leave of the interface: packets are added to its queue. *)
Definition keeps (i i' : if_device) : Prop := incoming_proto i' = incoming_proto i ∧ ∃ fs, rx_queue i' = rx_queue i ++ (rx_packet (incoming_proto i) <$> fs).

Lemma if_keeps_trans i j k : keeps i j → keeps j k → keeps i k.
Proof.
  intros (E & fs & Ej) (E' & fs' & Ek). split; [congruence|]. exists (fs ++ fs'). by rewrite Ek, Ej, E, fmap_app, app_assoc.
Qed.

Lemma step_read w s w0 got taken sent : slip_rel w s w0 got taken sent →
  ∃ w' s' got', slip_if_read_data w s = Some (w', s') ∧ slip_rel w' s' w0 got' taken sent ∧ keeps (sl_if s) (sl_if s').
Proof.
  intros (Hi & Hin & Hrx & Hq & cur & Htx & Hout). destruct (slip_read_ok w s _ Hi Hrx) as (w' & s' & bs & E & Hi' & Ho & Hb & Hrx' & (T1 & T2 & T3) & Hif).
  exists w', s', (got ++ bs). split; [done|]. split; [|rewrite Hif; split; [done|by eexists]]. split_and!; [done|by rewrite Hin, Hb, app_assoc|by rewrite frames_app| |].
  - rewrite fmap_app, Hif, payload_queued, app_assoc, <- fmap_app, Hq, received_step. done.
  - exists cur. unfold tx_rel, unsent in *. rewrite T1, T2, T3, Hif, Ho. done.
Qed.

Lemma step_write w s w0 got taken sent : slip_rel w s w0 got taken sent →
  ∃ w' s', slip_if_write_data w s = Some (w', s') ∧ slip_rel w' s' w0 got taken sent ∧ keeps (sl_if s) (sl_if s').
Proof.
  intros (Hi & Hin & Hrx & Hq & cur & Htx & Hout). destruct (slip_write_ok w s cur Hi Htx) as (w' & s' & cur' & E & Hi' & Hin' & Htx' & Hsr & Ho).
  exists w', s'. split; [done|]. split; [|destruct Hsr as (_ & _ & _ & q & ->); split; [done|exists []; by rewrite app_nil_r]]. split_and!; [done|by rewrite Hin'|by eapply rx_rel_same| |].
  - destruct Hsr as (_ & _ & _ & q & ->). done.
  - exists cur'. split; [done|]. by rewrite Ho.
Qed.

Lemma step_poll w s w0 got taken sent : slip_rel w s w0 got taken sent →
  ∃ w' s' got', slip_if_poll w s = Some (w', s') ∧ slip_rel w' s' w0 got' taken sent ∧ keeps (sl_if s) (sl_if s').
Proof.
  intros Hr. destruct (step_write _ _ _ _ _ _ Hr) as (w1 & s1 & E & Hr1 & Hk). unfold slip_if_poll. rewrite E, bind_some.
  destruct (step_read _ _ _ _ _ _ Hr1) as (w2 & s2 & got' & E2 & Hr2 & Hk2). exists w2, s2, got'. split; [done|]. split; [done|]. by eapply if_keeps_trans.
Qed.

Lemma step_input w s w0 got taken sent : slip_rel w s w0 got taken sent →
  ∃ w' s' got', slip_if_process_input w s = Some (w', s') ∧ slip_rel w' s' w0 got' taken sent ∧ keeps (sl_if s) (sl_if s').
Proof.
  intros Hr. destruct (step_read _ _ _ _ _ _ Hr) as (w1 & s1 & got' & E & Hr1 & Hk1). destruct (step_write _ _ _ _ _ _ Hr1) as (w' & s' & E' & Hr' & Hk').
  unfold slip_if_process_input. rewrite E, bind_some, E'. exists w', s', got'. split; [done|]. split; [done|]. by eapply if_keeps_trans.
Qed.

Lemma slip_step_ok w s w0 got taken sent op : slip_rel w s w0 got taken sent → slip_op_ok op →
  ∃ w' s' t got', slip_step w s op = Some (w', s', t) ∧ slip_rel w' s' w0 got' (taken ++ t) (sent ++ slip_sent [op]).
Proof.
  intros Hr Hok. destruct op as [pack| | | |f]; cbn [slip_step slip_sent omap list_omap] in *; rewrite ?app_nil_r.
  - unfold net_if_send_packet. set (s1 := set_if s _). assert (Hr1 : slip_rel w s1 w0 got taken (sent ++ [payload pack])).
    { destruct Hr as (Hi & Hin & Hrx & Hq & cur & (? & ? & ? & ? & ? & ? & Hs) & Hout). split_and!; try done. exists cur. split.
      - unfold tx_rel, s1. cbn [tx_read tx_write tx_buffer sl_if set_if tx_queue]. split_and!; try done; try lia. apply Forall_app; split; [done|by apply Forall_singleton].
      - unfold unsent in *. cbn [sl_if set_if tx_queue s1]. rewrite !fmap_app, !concat_app, (app_assoc cur), (app_assoc (dev_out w)), Hout, <- app_assoc. done. }
    destruct (step_poll _ _ _ _ _ _ Hr1) as (w' & s' & got' & -> & Hr' & _). rewrite bind_some. eexists _, _, [], got'. split; [done|]. by rewrite app_nil_r.
  - destruct (step_poll _ _ _ _ _ _ Hr) as (w' & s' & got' & -> & Hr' & _). rewrite bind_some. eexists _, _, [], got'. split; [done|]. by rewrite app_nil_r.
  - destruct (step_input _ _ _ _ _ _ Hr) as (w' & s' & got' & -> & Hr' & _). rewrite bind_some. eexists _, _, [], got'. split; [done|]. by rewrite app_nil_r.
  - destruct Hr as (Hi & Hin & Hrx & Hq & cur & Htx & Hout). eexists _, _, _, got. split; [done|]. split_and!; try done; [|by exists cur].
    cbn [sl_if set_if rx_queue set_rx_queue]. by rewrite <- app_assoc, take_drop.
  - destruct Hr as (Hi & Hin & Hrx & Hq & cur & Htx & Hout). destruct (Hok w Hi) as (Hi' & Hin' & Hout'). eexists _, _, [], got. split; [done|].
    rewrite app_nil_r. split_and!; try done; [by rewrite Hin'|]. exists cur. by rewrite Hout'.
Qed.

Lemma slip_run_ok w s w0 got taken sent ops : slip_rel w s w0 got taken sent → Forall slip_op_ok ops →
  ∃ w' s' t got', slip_run w s ops = Some (w', s', t) ∧ slip_rel w' s' w0 got' (taken ++ t) (sent ++ slip_sent ops).
Proof.
  intros Hr Hok. revert w s got taken sent Hr. induction Hok as [|op ops Hop _ IH]; intros w s got taken sent Hr; cbn [slip_run].
  { eexists _, _, [], got. split; [done|]. by rewrite !app_nil_r. }
  destruct (slip_step_ok _ _ _ _ _ _ op Hr Hop) as (w1 & s1 & t1 & got1 & -> & Hr1). rewrite bind_some.
  destruct (IH _ _ _ _ _ Hr1) as (w2 & s2 & t2 & got2 & -> & Hr2). rewrite bind_some. eexists _, _, (t1 ++ t2), got2. split; [done|].
  replace (sent ++ slip_sent (op :: ops)) with ((sent ++ slip_sent [op]) ++ slip_sent ops); [by rewrite app_assoc|].
  rewrite <- app_assoc. f_equal. unfold slip_sent. by destruct op.
Qed.

Lemma slip_init_rel w : dev_inv w → slip_rel w slip_if_init w [] [] [].
Proof.
  intros Hi. split_and!; [done|done| |done|].
  - unfold rx_rel. cbn [frames snd length]. split_and!; [done..|apply not_elem_of_nil|lia].
  - exists []. split; [|by rewrite !app_nil_r]. unfold tx_rel. cbn [tx_read tx_write tx_buffer slip_if_init sl_if tx_queue]. split_and!; try done; [lia..|by left|by apply Forall_nil].
Qed.
End run.

(** ** Two interfaces on one line *)

Section link.
Context {WA WB : Type} {DA : ByteDevice WA} {LA : DeviceLaws WA} {DB : ByteDevice WB} {LB : DeviceLaws WB}.

(** C11: SLIP carries packets over a serial line.  One interface sends packets
    whose frames fit its buffer, another reads the bytes that the first one's
    device puts out, in whatever portions the devices take and give them and
    however polls, interrupts and bottom halves come: the packets in (and
    taken from) the second one's queue are at any time the first of those
    sent, byte for byte and in order; and they are all of them once
    everything has been sent and read.  No access is outside the buffers and
    the loops end.  The packets are not empty, their frames have at most the
    1500 bytes of the buffer, and the devices lose nothing: an interrupt leaves
    what is on the way as it was ([slip_op_ok]). *)
Theorem slip_link_delivers (a : WA) (b : WB) opsa opsb : dev_inv a → dev_inv b → dev_out a = [] → Forall slip_op_ok opsa → Forall slip_op_ok opsb →
  Forall (λ p, p ≠ []) (slip_sent opsa) →
  ∃ a' sa ta b' sb tb, slip_run a slip_if_init opsa = Some (a', sa, ta) ∧ slip_run b slip_if_init opsb = Some (b', sb, tb) ∧
    (dev_in b `prefix_of` dev_out a' → (payload <$> (tb ++ rx_queue (sl_if sb))) `prefix_of` slip_sent opsa) ∧
    (dev_in b = dev_out a' → dev_in b' = [] → tx_write sa = 0 → tx_queue (sl_if sa) = [] → payload <$> (tb ++ rx_queue (sl_if sb)) = slip_sent opsa).
Proof.
  intros Ia Ib Ha Oa Ob Hne. destruct (slip_run_ok a _ a [] [] [] opsa (slip_init_rel a Ia) Oa) as (a' & sa & ta & ga & Ea & Ra).
  destruct (slip_run_ok b _ b [] [] [] opsb (slip_init_rel b Ib) Ob) as (b' & sb & tb & gb & Eb & Rb). exists a', sa, ta, b', sb, tb.
  destruct Ra as (_ & _ & _ & _ & cur & Htx & Hout), Rb as (_ & Hin & _ & Hq & _). rewrite Ha, !app_nil_l in *.
  destruct (received_frames _ Hne) as [Hrec _]. split_and!; [done|done| |].
  - intros Hp. rewrite Hq, <- Hrec. assert (Hpre : gb `prefix_of` concat (frame <$> slip_sent opsa)).
    { rewrite <- Hout. apply prefix_app_r. etrans; [|exact Hp]. rewrite Hin. by apply prefix_app_r. }
    destruct Hpre as [rest ->]. apply received_app.
  - intros Hp Hb Hw Htq. assert (Hgb : gb = concat (frame <$> slip_sent opsa)).
    { rewrite Hb, app_nil_r in Hin. destruct Htx as (Hrw & _ & _ & Hc & _). replace (Z.to_nat (tx_write sa - tx_read sa)) with 0%nat in Hc by lia. rewrite slice_0 in Hc. subst cur.
      unfold unsent in Hout. rewrite Htq in Hout. cbn in Hout. rewrite app_nil_r in Hout. congruence. }
    by rewrite Hq, Hgb, Hrec.
Qed.
End link.
