(* ===== verification/Bh.v ===== *)
(** * Bh: bottom halves (kernel/irq/bh.c)

    Interrupt handlers request a bottom half by its number; the requested and
    enabled ones run when the kernel is left.  Handlers are kept by name and
    may themselves change the requests ([exec]). *)

From S2P Require Import Prelude.

Definition BH_MAX : nat := 10.
Definition BH_TTY68681 : Z := 1.
Definition BH_TTY : Z := 2.
Definition BH_SLIP : Z := 3.
Definition BH_NET : Z := 4.

Record bh := Bh { bh_enabled : Z; bh_requested : Z; bh_handlers : list (option Z) }.

Definition init_bh : bh := Bh 0 0 (replicate BH_MAX None).

Definition register_bh (b : bh) (bhnum fn : Z) : option bh :=
  h ← wr (bh_handlers b) bhnum (Some fn);
  Some (Bh (u16 (Z.lor (bh_enabled b) (Z.shiftl 1 bhnum))) (bh_requested b) h).
Definition enable_bh (b : bh) (bhnum : Z) : bh :=
  Bh (u16 (Z.lor (bh_enabled b) (Z.shiftl 1 bhnum))) (bh_requested b) (bh_handlers b).
Definition disable_bh (b : bh) (bhnum : Z) : bh :=
  Bh (Z.land (bh_enabled b) (Z.lnot (Z.shiftl 1 bhnum))) (bh_requested b) (bh_handlers b).
Definition request_bh_run (b : bh) (bhnum : Z) : bh :=
  Bh (bh_enabled b) (u16 (Z.lor (bh_requested b) (Z.shiftl 1 bhnum))) (bh_handlers b).
Definition clear_bh (b : bh) (bit : Z) : bh := Bh (bh_enabled b) (Z.land (bh_requested b) (Z.lnot bit)) (bh_handlers b).

Section run.
Context {W : Type} (exec : Z → bh → W → option (bh * W)).

(** The loop of run_bh_handlers from number [i] on, [n] numbers. *)
Fixpoint run_bh_loop (n : nat) (i : Z) (requested : Z) (b : bh) (w : W) : option (bh * W) :=
  match n with
  | O => Some (b, w)
  | S n =>
      let bit := Z.shiftl 1 i in
      '(b, w) ← (if Z.land requested bit =? 0 then Some (b, w)
                 else
                   let b := clear_bh b bit in
                   h ← rd (bh_handlers b) i;
                   match h with None => Some (b, w) | Some fn => exec fn b w end);
      run_bh_loop n (i + 1) requested b w
  end.

Definition run_bh_handlers (b : bh) (w : W) : option (bh * W) :=
  run_bh_loop BH_MAX 0 (Z.land (bh_enabled b) (bh_requested b)) b w.

End run.
