(* ===== verification/Serial.v ===== *)
(** * Serial: the MC68681 serial driver (kernel/drivers/tty/mc68681/tty_68681.c)

    Each of the two channels has a ring buffer of bytes received and one of
    bytes to send; the interrupt handler moves bytes between them and the
    chip, read and write move bytes between them and the caller.  The chip is
    a parameter: its registers are the operations of [Uart], and what its data
    sheet says of them is [UartLaws].  Interrupts are masked while a byte is
    taken from or put into a buffer, so these are single steps.  The code for
    the debug LEDs, which no configuration selects, is left out. *)

From S2P Require Import Prelude Queue Result Iovec Ringbuffer Packet Slip Slipinv Bh.

Definition O_EXCL : Z := 128.
Definition O_NONBLOCK : Z := 2048.
Definition EBUSY : Z := -16.
Definition ENODEV : Z := -19.
Definition VFS_POLL_READ : Z := 1.
Definition VFS_POLL_WRITE : Z := 2.

Definition DEVMAJOR_TTY68681 : Z := 1.
Definition DEVMAJOR_TTY : Z := 2.

Definition CMD_RESET_ERROR : Z := 64.
Definition CMD_RESET_BREAK : Z := 80.
Definition CMD_ENABLE_TX : Z := 4.
Definition CMD_DISABLE_TX : Z := 8.

Definition SR_RECEIVED_BREAK : Z := 128.
Definition SR_FRAMING_ERROR : Z := 64.
Definition SR_PARITY_ERROR : Z := 32.
Definition SR_OVERRUN_ERROR : Z := 16.
Definition SR_TX_EMPTY : Z := 8.
Definition SR_RX_READY : Z := 1.
Definition SR_ERRORS : Z := Z.lor (Z.lor SR_RECEIVED_BREAK SR_FRAMING_ERROR) (Z.lor SR_PARITY_ERROR SR_OVERRUN_ERROR).

Definition ISR_INPUT_CHANGE : Z := 128.
Definition ISR_TIMER_CHANGE : Z := 8.
Definition ISR_S_RX_READY_FULL : Z := 2.
Definition ISR_S_TX_READY : Z := 1.
Definition CH_A : Z := 0.
Definition CH_B : Z := 1.
Definition TTY_68681_CLOCK_MAX_CYCLES : Z := 60.

(** The registers of the chip that are read and written after its setup; those
    of a channel have the number of the channel as their first argument. *)
Class Uart (H : Type) := {
  rd_isr : H → H * Z;
  rd_stop : H → H;
  rd_ipcr : H → H;
  rd_status : Z → H → H * Z;
  rd_recv : Z → H → H * Z;
  wr_send : Z → Z → H → H;
  wr_command : Z → Z → H → H;
  wr_out_set : Z → H → H;
  wr_out_reset : Z → H → H;
}.

Record serial_channel := SerialChannel {
  ch_rx : ringbuffer;
  ch_tx : ringbuffer;
  ch_opens : Z;
  ch_open_mode : Z;
  ch_error : Z;
  ch_rx_ready : Z;
  ch_bh_num : Z;
}.

Definition set_ch_rx c x := SerialChannel x (ch_tx c) (ch_opens c) (ch_open_mode c) (ch_error c) (ch_rx_ready c) (ch_bh_num c).
Definition set_ch_tx c x := SerialChannel (ch_rx c) x (ch_opens c) (ch_open_mode c) (ch_error c) (ch_rx_ready c) (ch_bh_num c).
Definition set_ch_open c o m := SerialChannel (ch_rx c) (ch_tx c) o m (ch_error c) (ch_rx_ready c) (ch_bh_num c).
Definition set_ch_error c x := SerialChannel (ch_rx c) (ch_tx c) (ch_opens c) (ch_open_mode c) x (ch_rx_ready c) (ch_bh_num c).
Definition set_ch_ready c x := SerialChannel (ch_rx c) (ch_tx c) (ch_opens c) (ch_open_mode c) (ch_error c) x (ch_bh_num c).

(** The state of config_serial_channel, but for the ring buffers. *)
Definition config_serial_channel (c : serial_channel) : serial_channel :=
  SerialChannel (ch_rx c) (ch_tx c) 0 0 0 0 BH_TTY.

Definition ctsbit (minor : Z) : Z := if minor =? CH_A then 1 else 2.

(** A call to the scheduler: [Suspend events] of the current system call, or
    [Resume events major minor] of the processes blocked on the device. *)
Inductive sched_call := Suspend (events : Z) | Resume (events major minor : Z).

Section serial.
Context {H : Type} `{Uart H}.

Record serial := Serial {
  uart : H;
  channels : list serial_channel;
  handle_timer : Z;
  clock_cycles : Z;
  the_bh : bh;
  sched_calls : list sched_call;
}.

Definition set_uart s x := Serial x (channels s) (handle_timer s) (clock_cycles s) (the_bh s) (sched_calls s).
Definition set_channels s x := Serial (uart s) x (handle_timer s) (clock_cycles s) (the_bh s) (sched_calls s).
Definition set_clock s t x := Serial (uart s) (channels s) t x (the_bh s) (sched_calls s).
Definition set_bh s x := Serial (uart s) (channels s) (handle_timer s) (clock_cycles s) x (sched_calls s).
Definition sched_call_made s x := Serial (uart s) (channels s) (handle_timer s) (clock_cycles s) (the_bh s) (sched_calls s ++ [x]).
Definition request_bh s n := set_bh s (request_bh_run (the_bh s) n).

(** ** Interrupts *)

(** The loop of handle_channel_io over the bytes received, at most [n] more. *)
Fixpoint receive_loop (n : nat) (h : H) (c : serial_channel) (minor : Z) : option (H * serial_channel) :=
  match n with
  | O => Some (h, c)
  | S n =>
      let '(h, status) := rd_status minor h in
      if Z.land status SR_RX_READY =? 0 then Some (h, c)
      else if negb (Z.land status SR_ERRORS =? 0) then
        let c := set_ch_error c 1 in
        let h := wr_command minor CMD_RESET_ERROR h in
        let h := if Z.land status SR_RECEIVED_BREAK =? 0 then h else wr_command minor CMD_RESET_BREAK h in
        let '(h, _) := rd_recv minor h in
        receive_loop n h c minor
      else
        let '(h, byte) := rd_recv minor h in
        if _buf_is_full (ch_rx c) then Some (h, c)
        else '(rx, _) ← _buf_put_char (ch_rx c) byte; receive_loop n h (set_ch_rx c rx) minor
  end.

(** Its two halves, for the channel [c] with the bits of its interrupts in the low half of [isr]. *)
Definition channel_receive (s : serial) (c : serial_channel) (isr minor : Z) : option serial :=
  if Z.land isr ISR_S_RX_READY_FULL =? 0 then Some s
  else
    '(h, c) ← receive_loop 100 (uart s) c minor;
    let h := if _buf_free_space (ch_rx c) <? 10 then wr_out_reset (ctsbit minor) h else h in
    cs ← wr (channels s) minor (set_ch_ready c 1);
    Some (request_bh (set_channels (set_uart s h) cs) BH_TTY68681).

Definition channel_transmit (s : serial) (c : serial_channel) (isr minor : Z) : option serial :=
  if Z.land isr ISR_S_TX_READY =? 0 then Some s
  else
    '(tx, ch) ← _buf_get_char (ch_tx c);
    cs ← wr (channels s) minor (set_ch_tx c tx);
    let s := set_channels s cs in
    if negb (ch =? -1) then Some (set_uart s (wr_send minor (u8 ch) (uart s)))
    else
      let '(h, status) := rd_status minor (uart s) in
      let h := if Z.land status SR_TX_EMPTY =? 0 then h else wr_command minor CMD_DISABLE_TX h in
      Some (request_bh (set_uart s h) BH_TTY68681).

Definition handle_channel_io (s : serial) (isr minor : Z) : option serial :=
  let isr := if minor =? CH_B then Z.shiftr isr 4 else isr in
  c ← rd (channels s) minor;
  s ← channel_receive s c isr minor;
  c ← rd (channels s) minor;
  channel_transmit s c isr minor.

Definition handle_serial_irq (s : serial) : option serial :=
  let '(h, isr) := rd_isr (uart s) in
  let isr := s8 isr in
  s ← handle_channel_io (set_uart s h) isr CH_A;
  s ← handle_channel_io s isr CH_B;
  let s :=
    if Z.land isr ISR_TIMER_CHANGE =? 0 then s
    else
      let s := set_uart s (rd_stop (uart s)) in
      let n := u16 (clock_cycles s + 1) in
      request_bh (set_clock s 1 (if TTY_68681_CLOCK_MAX_CYCLES <=? n then 0 else n)) BH_TTY68681 in
  Some (if Z.land isr ISR_INPUT_CHANGE =? 0 then s else set_uart s (rd_ipcr (uart s))).

(** The bottom half, for one channel and for both ([update_time] of time.c is
    in [Time.Clock]). *)
Definition process_channel (s : serial) (minor : Z) : option serial :=
  c ← rd (channels s) minor;
  s ← (if ch_rx_ready c =? 0 then Some s
       else
         cs ← wr (channels s) minor (set_ch_ready c 0);
         let s := sched_call_made (set_channels s cs) (Resume VFS_POLL_READ DEVMAJOR_TTY68681 minor) in
         Some (request_bh s (ch_bh_num c)));
  Some (if _buf_is_empty (ch_tx c) then sched_call_made (sched_call_made s (Resume VFS_POLL_WRITE DEVMAJOR_TTY68681 minor)) (Resume VFS_POLL_WRITE DEVMAJOR_TTY minor) else s).

Definition tty_68681_process_input (s : serial) : option serial :=
  let s := if handle_timer s =? 0 then s else set_clock s 0 (clock_cycles s) in
  s ← process_channel s CH_A; process_channel s CH_B.

(** ** The character device *)

Definition from_minor_dev (s : serial) (minor : Z) : option serial_channel :=
  if (minor =? 0) || (minor =? 1) then rd (channels s) minor else None.

(** tty_68681_getchar_buffered; with interrupts masked it waits for ever on an empty buffer. *)
Definition tty_68681_getchar_buffered (h : H) (c : serial_channel) (minor : Z) : option (H * serial_channel * Z) :=
  if _buf_is_empty (ch_rx c) then None
  else
    '(rx, ch) ← _buf_get_char (ch_rx c);
    Some (if 100 <? _buf_free_space rx then wr_out_set (ctsbit minor) h else h, set_ch_rx c rx, u8 ch).

(** tty_68681_putchar_buffered; with interrupts masked its wait changes nothing. *)
Definition tty_68681_putchar_buffered (h : H) (c : serial_channel) (minor ch : Z) : option (H * serial_channel) :=
  '(tx, _) ← _buf_put_char (ch_tx c) (u8 ch);
  Some (wr_command minor CMD_ENABLE_TX h, set_ch_tx c tx).

Definition tty_68681_open (s : serial) (minor mode : Z) : option (serial * Z) :=
  match from_minor_dev s minor with
  | None => Some (s, ENODEV)
  | Some c =>
      if mode =? 0 then Some (s, EBUSY)
      else if negb (ch_opens c =? 0) && (negb (Z.land (ch_open_mode c) O_EXCL =? 0) || negb (Z.land mode O_EXCL =? 0)) then Some (s, EBUSY)
      else cs ← wr (channels s) minor (set_ch_open c (s32 (ch_opens c + 1)) mode); Some (set_channels s cs, 0)
  end.

Definition tty_68681_close (s : serial) (minor : Z) : option (serial * Z) :=
  match from_minor_dev s minor with
  | None => Some (s, ENODEV)
  | Some c => cs ← wr (channels s) minor (set_ch_open c (s32 (ch_opens c - 1)) 0); Some (set_channels s cs, 0)
  end.

(** The loop of tty_68681_read; it ends early when the buffer is empty. *)
Fixpoint read_loop (remain : nat) (h : H) (c : serial_channel) (minor : Z) (iter : iovec_iter) : option (H * serial_channel * iovec_iter * nat) :=
  match remain with
  | O => Some (h, c, iter, remain)
  | S n =>
      if _buf_is_empty (ch_rx c) then Some (h, c, iter, remain)
      else
        '(h, c, ch) ← tty_68681_getchar_buffered h c minor;
        '(iter, _) ← copy_uint8_into_iter iter ch;
        read_loop n h c minor iter
  end.

Definition tty_68681_read (minor : Z) (s : serial) (iter : iovec_iter) : option (serial * iovec_iter * Z) :=
  let size := iovec_iter_remaining iter in
  match from_minor_dev s minor with
  | None => Some (s, iter, ENODEV)
  | Some c =>
      if negb (ch_error c =? 0) then Some (s, iter, EIO)
      else
        '(h, c, iter, remain) ← read_loop (Z.to_nat size) (uart s) c minor iter;
        cs ← wr (channels s) minor c;
        let s := set_channels (set_uart s h) cs in
        let s := if (Z.of_nat remain =? size) && negb (size =? 0) && (Z.land (ch_open_mode c) O_NONBLOCK =? 0)
                 then sched_call_made s (Suspend VFS_POLL_READ) else s in
        Some (s, iter, s32 (size - Z.of_nat remain))
  end.

Fixpoint write_loop (remain : nat) (h : H) (c : serial_channel) (minor : Z) (iter : iovec_iter) : option (H * serial_channel * iovec_iter) :=
  match remain with
  | O => Some (h, c, iter)
  | S n =>
      '(iter, ch) ← copy_uint8_out_of_iter iter;
      '(h, c) ← tty_68681_putchar_buffered h c minor ch;
      write_loop n h c minor iter
  end.

Definition tty_68681_write (minor : Z) (s : serial) (iter : iovec_iter) : option (serial * iovec_iter * Z) :=
  let size := iovec_iter_remaining iter in
  match from_minor_dev s minor with
  | None => Some (s, iter, ENODEV)
  | Some c =>
      if u32 (_buf_free_space (ch_tx c)) <? size then
        Some (if Z.land (ch_open_mode c) O_NONBLOCK =? 0 then sched_call_made s (Suspend VFS_POLL_WRITE) else s, iter, 0)
      else
        '(h, c, iter) ← write_loop (Z.to_nat size) (uart s) c minor iter;
        cs ← wr (channels s) minor c;
        Some (set_channels (set_uart s h) cs, iter, s32 size)
  end.

(** tty_68681_poll, which uses the channel without a check. *)
Definition tty_68681_poll (s : serial) (minor events : Z) : option Z :=
  c ← from_minor_dev s minor;
  let r := if negb (Z.land events VFS_POLL_READ =? 0) && (0 <? ch_opens c) && negb (_buf_is_empty (ch_rx c)) then VFS_POLL_READ else 0 in
  Some (if negb (Z.land events VFS_POLL_WRITE =? 0) && (0 <? ch_opens c) && negb (_buf_is_full (ch_tx c)) then Z.lor r VFS_POLL_WRITE else r).
End serial.
Arguments serial : clear implicits.
