(* ===== verification/Serialinv.v ===== *)
(** * Serialinv: a serial channel carries bytes in order

    What is written to a channel is sent, and what is received is read, each
    byte once and in order; so the second channel is a device as [Slip] needs
    it. *)

From S2P Require Import Prelude Queue Result Iovec Ringbuffer Packet Slip Slipinv Bh Serial.

(** ** What the data sheet says of the registers *)

(** [h'] follows [h] and neither line has moved. *)
Class UartLaws (H : Type) {U : Uart H} := {
  (** The bytes that are still to be read from a channel, and those given to it to send. *)
  line_in : Z → H → list Z;
  line_out : Z → H → list Z;
  has_byte : Z → H → Prop;
  tx_ready : Z → H → Prop;
  same_lines (h h' : H) := ∀ c, line_in c h' = line_in c h ∧ line_out c h' = line_out c h;
  keeps_ready (h h' : H) := ∀ c, tx_ready c h → tx_ready c h';
  rd_isr_law h : same_lines h (rd_isr h).1 ∧ 0 ≤ (rd_isr h).2 < 256 ∧
    (Z.testbit (rd_isr h).2 0 = true → tx_ready 0 (rd_isr h).1) ∧ (Z.testbit (rd_isr h).2 4 = true → tx_ready 1 (rd_isr h).1);
  rd_stop_law h : same_lines h (rd_stop h);
  rd_ipcr_law h : same_lines h (rd_ipcr h);
  wr_out_set_law v h : same_lines h (wr_out_set v h) ∧ keeps_ready h (wr_out_set v h);
  wr_out_reset_law v h : same_lines h (wr_out_reset v h) ∧ keeps_ready h (wr_out_reset v h);
  wr_command_law c v h : same_lines h (wr_command c v h) ∧ ∀ d, d ≠ c → tx_ready d h → tx_ready d (wr_command c v h);
  (** A line without errors: a byte is there when the status says so. *)
  rd_status_law c h : same_lines h (rd_status c h).1 ∧ keeps_ready h (rd_status c h).1 ∧ Z.land (rd_status c h).2 SR_ERRORS = 0 ∧
    (Z.land (rd_status c h).2 SR_RX_READY ≠ 0 → has_byte c (rd_status c h).1);
  rd_recv_law c h : has_byte c h → line_in c h = (rd_recv c h).2 :: line_in c (rd_recv c h).1 ∧ 0 ≤ (rd_recv c h).2 < 256 ∧
    keeps_ready h (rd_recv c h).1 ∧ (∀ d, line_out d (rd_recv c h).1 = line_out d h) ∧ (∀ d, d ≠ c → line_in d (rd_recv c h).1 = line_in d h);
  wr_send_law c b h : tx_ready c h → line_out c (wr_send c b h) = line_out c h ++ [b] ∧ (∀ d, line_in d (wr_send c b h) = line_in d h) ∧
    (∀ d, d ≠ c → line_out d (wr_send c b h) = line_out d h ∧ (tx_ready d h → tx_ready d (wr_send c b h)));
}.

(** ** The iterator over one segment, byte by byte *)

(** Over [s], at byte [pos]; at the end it is past the segment. *)
Definition single (s : list Z) (pos : nat) : iovec_iter :=
  if (pos <? length s)%nat then mk_iter (zlen s) 0 (Z.of_nat pos) 0 1 (ITER_KVEC [mk_kvec s (zlen s)])
  else mk_iter (zlen s) (zlen s) 0 1 1 (ITER_KVEC [mk_kvec s (zlen s)]).

Lemma single_init (s : list Z) : s ≠ [] → iovec_iter_init_simple_kvec s (zlen s) = single s 0.
Proof. intros Hs. destruct s; [done|]. done. Qed.

Lemma single_remaining (s : list Z) pos : (pos ≤ length s)%nat → zlen s < 2 ^ 31 → iovec_iter_remaining (single s pos) = zlen s - Z.of_nat pos.
Proof. intros Hp Hs. unfold single, iovec_iter_remaining. destruct (Nat.ltb_spec pos (length s)); cbn [it_length seg_start seg_offset]; rewrite u32_small; lia. Qed.

Lemma single_segment (s : list Z) pos : segment (single s pos) = s.
Proof. unfold single, segment. destruct (pos <? length s)%nat; cbn; by rewrite app_nil_r. Qed.

Lemma single_bump (s : list Z) pos (s' : list Z) : (pos < length s)%nat → zlen s < 2 ^ 31 → length s' = length s →
  bump_position (mk_iter (zlen s) 0 (Z.of_nat pos) 0 1 (ITER_KVEC [mk_kvec s' (zlen s)])) (zlen s) = single s' (S pos).
Proof.
  intros Hp Hs Hl. unfold bump_position, single. cbn [seg_offset seg_start cur_seg]. rewrite Hl, !u32_small by lia.
  destruct (Z.leb_spec (zlen s) (Z.of_nat pos + 1)), (Nat.ltb_spec (S pos) (length s)); try lia; unfold set_position; cbn [it_length num_segs it_data].
  - done.
  - f_equal. lia.
Qed.

Lemma single_put (s : list Z) pos b : (pos < length s)%nat → zlen s < 2 ^ 31 → copy_uint8_into_iter (single s pos) b = Some (single (splice s pos [b]) (S pos), 1).
Proof.
  intros Hp Hs. unfold single at 1. destruct (Nat.ltb_spec pos (length s)); [|lia]. unfold copy_uint8_into_iter. cbn [it_data num_segs cur_seg seg_offset Z.ltb Z.compare].
  change (rd [mk_kvec s (zlen s)] 0) with (Some (mk_kvec s (zlen s))). rewrite bind_some. cbn [buf bytes]. rewrite wr_in_range by lia. rewrite bind_some, Nat2Z.id, insert_splice by lia.
  change (wr [mk_kvec s (zlen s)] 0 (mk_kvec (splice s pos [b]) (zlen s))) with (Some [mk_kvec (splice s pos [b]) (zlen s)]). rewrite bind_some.
  unfold set_data. cbn [it_length seg_start seg_offset cur_seg num_segs]. rewrite single_bump; [done|lia..|]. by rewrite length_splice by (simpl; lia).
Qed.

Lemma single_get (s : list Z) pos c : s !! pos = Some c → zlen s < 2 ^ 31 → copy_uint8_out_of_iter (single s pos) = Some (single s (S pos), c).
Proof.
  intros Hp Hs. pose proof (lookup_lt_Some _ _ _ Hp). unfold single at 1. destruct (Nat.ltb_spec pos (length s)); [|lia]. unfold copy_uint8_out_of_iter. cbn [it_data num_segs cur_seg seg_offset Z.ltb Z.compare].
  change (rd [mk_kvec s (zlen s)] 0) with (Some (mk_kvec s (zlen s))). rewrite bind_some. cbn [buf bytes]. rewrite rd_nat, Hp, bind_some. by rewrite single_bump.
Qed.

(** ** One channel *)

Section serial.
Context {H : Type} {U : Uart H} {L : UartLaws H}.

(** The bytes in the buffers of a channel. *)
Definition channel_ok (c : serial_channel) (rx tx : list Z) : Prop := holds (ch_rx c) 511 rx ∧ holds (ch_tx c) 511 tx ∧ bytes_ok rx ∧ bytes_ok tx.

Lemma rx_empty cb l : holds cb 511 l → _buf_is_empty cb = match l with [] => true | _ => false end.
Proof.
  intros (i & o & E & Hl)%holds_nat. pose proof (empty_nat _ _ _ _ E) as He. rewrite Hl in He. unfold _buf_is_empty. rewrite (rbn_in _ _ _ _ E), (rbn_out _ _ _ _ E).
  destruct l; destruct (Z.eqb_spec (Z.of_nat i) (Z.of_nat o)); try done; destruct He as [He1 He2]; [specialize (He2 eq_refl); lia|specialize (He1 ltac:(lia)); done].
Qed.

Lemma ring_full cb l : holds cb 511 l → _buf_is_full cb = (length l =? 511)%nat.
Proof.
  intros (i & o & E & Hl)%holds_nat. pose proof (full_nat _ _ _ _ E) as He. rewrite Hl in He. unfold _buf_is_full. rewrite (next_in_nat _ _ _ _ E), (rbn_out _ _ _ _ E).
  destruct (Z.eqb_spec (Z.of_nat (wrapi 512 (S i))) (Z.of_nat o)), (Nat.eqb_spec (length l) 511); try done; destruct He as [He1 He2]; [specialize (He1 ltac:(lia)); lia|specialize (He2 ltac:(lia)); lia].
Qed.

Lemma ring_free cb l : holds cb 511 l → _buf_free_space cb = 511 - zlen l.
Proof. intros (Hw & Hm & Hl). rewrite (free_space_spec _ Hw), Hm, Hl. lia. Qed.

Lemma same_channel_refl (h : H) : same_lines h h.
Proof. done. Qed.

Lemma same_trans (h1 h2 h3 : H) : same_lines h1 h2 → same_lines h2 h3 → same_lines h1 h3.
Proof. intros H1 H2 c. destruct (H1 c) as [A B], (H2 c) as [C D]. split; congruence. Qed.

Lemma read_loop_ok n h c minor s pos rx tx : channel_ok c rx tx → (pos + n ≤ length s)%nat → zlen s < 2 ^ 31 →
  let k := (n `min` length rx)%nat in
  ∃ h' c', read_loop n h c minor (single s pos) = Some (h', c', single (splice s pos (take k rx)) (pos + k), (n - k)%nat) ∧
    channel_ok c' (drop k rx) tx ∧ same_lines h h' ∧ ch_open_mode c' = ch_open_mode c ∧ ch_error c' = ch_error c.
Proof.
  revert h c s pos rx. induction n as [|n IH]; intros h c s pos rx Hc Hp Hs k; cbn [read_loop].
  { exists h, c. unfold k. cbn [Nat.min]. rewrite take_0, drop_0, splice_nil, Nat.add_0_r. split_and!; try done; apply Hc. }
  pose proof Hc as (Hrx & Htx & Hb & Hb2). pose proof (get_char_spec _ _ _ Hrx) as Hg. rewrite (rx_empty _ _ Hrx).
  destruct rx as [|b rx].
  { exists h, c. replace k with 0%nat by (unfold k; simpl; lia). rewrite take_0, drop_0, splice_nil, Nat.add_0_r. split_and!; try done; apply Hc. }
  destruct Hg as (rb & Eg & Hrb). apply Forall_cons in Hb as [Hbb Hb]. unfold tty_68681_getchar_buffered. rewrite (rx_empty _ _ Hrx), Eg, bind_some. rewrite bind_some, u8_small by done.
  rewrite single_put by lia. rewrite bind_some. set (h1 := if 100 <? _ then _ else _).
  assert (Hh1 : same_lines h h1) by (unfold h1; destruct (100 <? _); [apply wr_out_set_law|done]).
  destruct (IH h1 (set_ch_rx c rb) (splice s pos [b]) (S pos) rx) as (h' & c' & E & Hc' & Hh' & Hm & He).
  { split_and!; done. } { rewrite length_splice by (simpl; lia). lia. } { rewrite length_splice by (simpl; lia). lia. }
  rewrite E. exists h', c'. unfold k. cbn [length Nat.min take drop]. split_and!; try done; try apply Hc'; [|by eapply same_trans].
  rewrite <- (Nat.add_1_r pos) at 1. rewrite splice_splice_adj; [|done|rewrite length_take; simpl; lia]. do 3 f_equal. f_equal. lia.
Qed.

Lemma write_loop_ok n h c minor s pos rx tx : channel_ok c rx tx → (pos + n = length s)%nat → zlen s < 2 ^ 31 → bytes_ok s → (length tx + n ≤ 511)%nat →
  ∃ h' c', write_loop n h c minor (single s pos) = Some (h', c', single s (pos + n)) ∧ channel_ok c' rx (tx ++ drop pos s) ∧ same_lines h h' ∧
    ch_error c' = ch_error c.
Proof.
  revert h c pos tx. induction n as [|n IH]; intros h c pos tx Hc Hp Hs Hby Hl; cbn [write_loop].
  { exists h, c. rewrite drop_ge, app_nil_r, Nat.add_0_r by lia. split_and!; try done; apply Hc. }
  pose proof Hc as (Hrx & Htx & Hb & Hb2). destruct (lookup_lt_is_Some_2 s pos) as [b Hbs]; [lia|]. rewrite (single_get _ _ _ Hbs Hs), bind_some.
  pose proof (Forall_lookup_1 _ _ _ _ Hby Hbs) as Hbb. unfold tty_68681_putchar_buffered. rewrite u8_small by done.
  pose proof (put_char_spec _ _ _ b Htx) as Hput. destruct (Nat.ltb_spec (length tx) 511); [|lia]. destruct Hput as (rb & -> & Hrb). rewrite !bind_some.
  destruct (IH (wr_command minor CMD_ENABLE_TX h) (set_ch_tx c rb) (S pos) (tx ++ [b])) as (h' & c' & E & Hc' & Hh' & He); [|lia|done|done|rewrite length_app; simpl; lia|].
  { split_and!; try done. apply Forall_app; split; [done|by apply Forall_singleton]. }
  rewrite E. exists h', c'. rewrite (drop_S _ _ _ Hbs). rewrite <- app_assoc in Hc'. cbn [app] in Hc'.
  split_and!; try done; try apply Hc'; [do 3 f_equal; lia|]. eapply same_trans; [apply wr_command_law|done].
Qed.

Lemma receive_loop_ok n h c minor rx tx : channel_ok c rx tx → (length rx + n ≤ 511)%nat →
  ∃ h' c' bs, receive_loop n h c minor = Some (h', c') ∧ channel_ok c' (rx ++ bs) tx ∧ line_in minor h = bs ++ line_in minor h' ∧
    (∀ d, line_out d h' = line_out d h) ∧ (∀ d, d ≠ minor → line_in d h' = line_in d h) ∧ keeps_ready h h'.
Proof.
  revert h c rx. induction n as [|n IH]; intros h c rx Hc Hl; cbn [receive_loop].
  { exists h, c, []. rewrite app_nil_r. refine (conj eq_refl (conj Hc _)). split_and!; try done. by intros d Hd. }
  pose proof (rd_status_law minor h) as (Hs1 & Hs2 & Hs3 & Hs4). destruct (rd_status minor h) as [h1 status]. cbn [fst snd] in *.
  assert (Hin : ∀ d, line_in d h1 = line_in d h) by apply Hs1. assert (Hout : ∀ d, line_out d h1 = line_out d h) by apply Hs1.
  destruct (Z.eqb_spec (Z.land status SR_RX_READY) 0) as [_|Hr].
  { exists h1, c, []. rewrite app_nil_r. refine (conj eq_refl (conj Hc _)). split_and!; [by rewrite Hin|done|by intros d _|done]. }
  rewrite Hs3. cbn [Z.eqb negb]. pose proof (rd_recv_law minor h1 (Hs4 Hr)) as (R1 & R2 & R3 & R4 & R5). destruct (rd_recv minor h1) as [h2 byte]. cbn [fst snd] in *.
  pose proof Hc as (Hrx & Htx & Hb & Hb2). rewrite (ring_full _ _ Hrx). destruct (Nat.eqb_spec (length rx) 511); [lia|].
  pose proof (put_char_spec _ _ _ byte Hrx) as Hput. destruct (Nat.ltb_spec (length rx) 511); [|lia]. destruct Hput as (rb & -> & Hrb). rewrite bind_some.
  destruct (IH h2 (set_ch_rx c rb) (rx ++ [byte])) as (h' & c' & bs & -> & Hc' & I1 & I2 & I3 & I4).
  { split_and!; try done. apply Forall_app; split; [done|by apply Forall_singleton]. } { rewrite length_app. simpl. lia. }
  exists h', c', (byte :: bs). rewrite <- app_assoc in Hc'. split; [done|]. split; [done|]. split_and!.
  - by rewrite <- Hin, R1, I1.
  - intros d. by rewrite I2, R4.
  - intros d Hd. rewrite I3, R5 by done. apply Hin.
  - intros d Hd. by apply I4, R3, Hs2.
Qed.

(** ** The driver *)

Definition chan_ok (s : serial H) (minor : Z) (rx tx : list Z) : Prop := ∃ c, channels s !! Z.to_nat minor = Some c ∧ channel_ok c rx tx.
Definition serial_inv (s : serial H) : Prop := length (channels s) = 2%nat ∧ ∀ minor, 0 ≤ minor < 2 → ∃ rx tx, chan_ok s minor rx tx.

(** The bytes that reads of a channel have still to give, and those that writes have taken. *)
Definition port_in (minor : Z) (s : serial H) : list Z :=
  match channels s !! Z.to_nat minor with Some c => contents (ch_rx c) ++ line_in minor (uart s) | None => [] end.
Definition port_out (minor : Z) (s : serial H) : list Z :=
  match channels s !! Z.to_nat minor with Some c => line_out minor (uart s) ++ contents (ch_tx c) | None => [] end.

Lemma port_ok s minor rx tx : chan_ok s minor rx tx → port_in minor s = rx ++ line_in minor (uart s) ∧ port_out minor s = line_out minor (uart s) ++ tx.
Proof. intros (c & Hc & (_ & _ & E1) & (_ & _ & E2) & _). unfold port_in, port_out. by rewrite Hc, E1, E2. Qed.

(** Channel [minor] has been given [c'], and the chip has moved to [h']. *)
Lemma chan_update s minor c' h' cs rx tx : serial_inv s → 0 ≤ minor < 2 → wr (channels s) minor c' = Some cs → channel_ok c' rx tx →
  chan_ok (set_channels (set_uart s h') cs) minor rx tx ∧ serial_inv (set_channels (set_uart s h') cs) ∧
  ∀ d, 0 ≤ d < 2 → d ≠ minor → channels (set_channels (set_uart s h') cs) !! Z.to_nat d = channels s !! Z.to_nat d.
Proof.
  intros [Hl Hi] Hm Hw Hc. apply wr_some in Hw as [Hr ->]. cbn [channels set_channels].
  assert (Hself : chan_ok (set_channels (set_uart s h') (<[Z.to_nat minor := c']> (channels s))) minor rx tx).
  { exists c'. split; [|done]. cbn [channels set_channels]. apply list_lookup_insert_eq. lia. }
  assert (Ho : ∀ d, 0 ≤ d < 2 → d ≠ minor → <[Z.to_nat minor := c']> (channels s) !! Z.to_nat d = channels s !! Z.to_nat d).
  { intros d Hd Hne. apply list_lookup_insert_ne. lia. }
  split_and!; [done| |done]. split; [cbn [channels set_channels]; by rewrite length_insert|]. intros d Hd. destruct (decide (d = minor)) as [->|Hne]; [by eauto|].
  destruct (Hi d Hd) as (rx' & tx' & c & Hlk & Hok). exists rx', tx', c. cbn [channels set_channels]. by rewrite Ho.
Qed.

#[export] Instance channel_b_device : ByteDevice (serial H) := {| dev_read := tty_68681_read CH_B; dev_write := tty_68681_write CH_B |}.

Lemma chan_rd (s : serial H) minor c : 0 ≤ minor < 2 → channels s !! Z.to_nat minor = Some c → rd (channels s) minor = Some c ∧ from_minor_dev s minor = Some c.
Proof.
  intros Hm Hc. assert (Hr : rd (channels s) minor = Some c) by (apply rd_some; split; [lia|done]). split; [done|].
  unfold from_minor_dev. replace ((minor =? 0) || (minor =? 1)) with true by lia. done.
Qed.

Lemma tty_read_ok minor s0 s : serial_inv s0 → 0 ≤ minor < 2 → zlen s ≤ SLIP_MTU_MAX →
  ∃ s1 it n bs, tty_68681_read minor s0 (iovec_iter_init_simple_kvec s (zlen s)) = Some (s1, it, n) ∧ serial_inv s1 ∧
    port_out minor s1 = port_out minor s0 ∧ port_in minor s0 = bs ++ port_in minor s1 ∧ zlen bs ≤ zlen s ∧ segment it = splice s 0 bs ∧ (n = zlen bs ∨ n < 0 ∧ bs = []).
Proof.
  intros Hi Hm Hs. pose proof Hi as [Hl Hch]. unfold SLIP_MTU_MAX in Hs. destruct (Hch minor Hm) as (rx & tx & c & Hlk & Hc). destruct (chan_rd _ _ _ Hm Hlk) as [Erd Efr].
  assert (Hrem : iovec_iter_remaining (iovec_iter_init_simple_kvec s (zlen s)) = zlen s) by (unfold iovec_iter_remaining; cbn [it_length seg_start seg_offset iovec_iter_init_simple_kvec]; rewrite u32_small; lia).
  assert (Hseg : segment (iovec_iter_init_simple_kvec s (zlen s)) = s) by (unfold segment; cbn; by rewrite app_nil_r).
  unfold tty_68681_read. rewrite Efr, Hrem. destruct (Z.eqb_spec (ch_error c) 0) as [He|He]; cbn [negb].
  2: { eexists _, _, _, []. split; [done|]. rewrite splice_nil. unfold EIO. split_and!; try done; [simpl; lia|right; split; [lia|done]]. }
  assert (Hloop : ∃ h' c' it k, read_loop (length s) (uart s0) c minor (iovec_iter_init_simple_kvec s (zlen s)) = Some (h', c', it, (length s - k)%nat) ∧
    k = (length s `min` length rx)%nat ∧ segment it = splice s 0 (take k rx) ∧ channel_ok c' (drop k rx) tx ∧ same_lines (uart s0) h').
  { destruct (decide (s = [])) as [->|Hne].
    - exists (uart s0), c, (iovec_iter_init_simple_kvec [] 0), 0%nat. cbn [length Nat.min]. rewrite take_0, drop_0, splice_nil. done.
    - rewrite single_init by done. destruct (read_loop_ok (length s) (uart s0) c minor s 0 rx tx Hc) as (h' & c' & E & Hc' & Hh & _); [lia..|].
      eexists h', c', _, (length s `min` length rx)%nat. split; [exact E|]. rewrite single_segment. done. }
  rewrite Nat2Z.id. destruct Hloop as (h' & c' & it & k & -> & Hk & Hsg & Hc' & Hh). rewrite bind_some.
  destruct (wr (channels s0) minor c') as [cs|] eqn:Ew; [|rewrite wr_in_range in Ew by lia; done]. rewrite bind_some.
  destruct (chan_update s0 minor c' h' cs _ _ Hi Hm Ew Hc') as (Hck & Hi' & Hoth).
  set (s1 := set_channels (set_uart s0 h') cs) in *. set (s2 := if _ && _ then _ else _).
  assert (Hs2 : uart s2 = uart s1 ∧ channels s2 = channels s1) by (unfold s2; by destruct (_ && _)). destruct Hs2 as [Hu2 Hch2].
  assert (Hck2 : chan_ok s2 minor (drop k rx) tx) by (unfold chan_ok in *; by rewrite Hch2).
  assert (Hi2 : serial_inv s2) by (unfold serial_inv, chan_ok in *; by rewrite Hch2). clearbody s2.
  destruct (port_ok s0 minor rx tx) as [Ei Eo]; [by exists c|]. destruct (port_ok s2 minor _ _ Hck2) as [Ei2 Eo2].
  destruct (Hh minor) as [Hh1 Hh2]. cbn [uart s1 set_channels set_uart] in Hu2.
  exists s2, it, (zlen (take k rx)), (take k rx). split_and!; try done.
  - do 3 f_equal. rewrite length_take, s32_small; lia.
  - by rewrite Eo, Eo2, Hu2, Hh2.
  - by rewrite Ei, Ei2, Hu2, Hh1, app_assoc, take_drop.
  - rewrite length_take. lia.
  - by left.
Qed.

Lemma tty_write_ok minor s0 s : serial_inv s0 → 0 ≤ minor < 2 → zlen s ≤ SLIP_MTU_MAX → bytes_ok s →
  ∃ s1 it n, tty_68681_write minor s0 (iovec_iter_init_simple_kvec s (zlen s)) = Some (s1, it, n) ∧ serial_inv s1 ∧
    port_in minor s1 = port_in minor s0 ∧ n ≤ zlen s ∧ port_out minor s1 = port_out minor s0 ++ take (Z.to_nat n) s.
Proof.
  intros Hi Hm Hs Hby. pose proof Hi as [Hl Hch]. unfold SLIP_MTU_MAX in Hs. destruct (Hch minor Hm) as (rx & tx & c & Hlk & Hc). destruct (chan_rd _ _ _ Hm Hlk) as [Erd Efr].
  assert (Hrem : iovec_iter_remaining (iovec_iter_init_simple_kvec s (zlen s)) = zlen s) by (unfold iovec_iter_remaining; cbn [it_length seg_start seg_offset iovec_iter_init_simple_kvec]; rewrite u32_small; lia).
  pose proof Hc as (Hrx & Htx & Hb1 & Hb2). pose proof (holds_bound _ _ _ Htx) as [Htl _].
  unfold tty_68681_write. rewrite Efr, Hrem, (ring_free _ _ Htx), u32_small by lia. destruct (Z.ltb_spec (511 - zlen tx) (zlen s)) as [_|Hfit].
  { eexists _, _, 0. split; [done|]. rewrite take_0, app_nil_r. destruct (_ =? 0); split_and!; done || lia. }
  assert (Hloop : ∃ h' c' it, write_loop (length s) (uart s0) c minor (iovec_iter_init_simple_kvec s (zlen s)) = Some (h', c', it) ∧ channel_ok c' rx (tx ++ s) ∧ same_lines (uart s0) h').
  { destruct (decide (s = [])) as [->|Hne].
    - exists (uart s0), c, (iovec_iter_init_simple_kvec [] 0). by rewrite app_nil_r.
    - rewrite single_init by done. destruct (write_loop_ok (length s) (uart s0) c minor s 0 rx tx Hc) as (h' & c' & E & Hc' & Hh & _); [lia..|done|lia|]. rewrite E. rewrite drop_0 in Hc'. eexists _, _, _. split; [done|]. done. }
  rewrite Nat2Z.id. destruct Hloop as (h' & c' & it & -> & Hc' & Hh). rewrite bind_some.
  destruct (wr (channels s0) minor c') as [cs|] eqn:Ew; [|rewrite wr_in_range in Ew by lia; done]. rewrite bind_some.
  destruct (chan_update s0 minor c' h' cs _ _ Hi Hm Ew Hc') as (Hck & Hi' & Hoth). destruct (port_ok s0 minor rx tx) as [Ei Eo]; [by exists c|]. destruct (port_ok _ minor _ _ Hck) as [Ei2 Eo2].
  destruct (Hh minor) as [Hh1 Hh2]. cbn [uart set_channels set_uart] in *.
  eexists _, it, (zlen s). rewrite s32_small by lia. split_and!; try done; [by rewrite Ei, Ei2, Hh1|]. by rewrite Eo, Eo2, Hh2, Nat2Z.id, firstn_all, app_assoc.
Qed.

#[export] Program Instance channel_b_laws : DeviceLaws (serial H) := {| dev_inv := serial_inv; dev_in := port_in CH_B; dev_out := port_out CH_B |}.
Next Obligation. intros. by apply tty_read_ok. Qed.
Next Obligation. intros. by apply tty_write_ok. Qed.

(** ** Interrupts lose nothing while there is room *)

(** The ring buffer of received bytes can take all that one interrupt may bring. *)
Definition room (minor : Z) (s : serial H) : bool :=
  match channels s !! Z.to_nat minor with Some c => 100 <=? _buf_free_space (ch_rx c) | None => false end.
Definition same_ports (s s' : serial H) : Prop := ∀ d, 0 ≤ d < 2 → port_in d s' = port_in d s ∧ port_out d s' = port_out d s.

Lemma same_ports_trans s1 s2 s3 : same_ports s1 s2 → same_ports s2 s3 → same_ports s1 s3.
Proof. intros H1 H2 d Hd. destruct (H1 d Hd) as [A B], (H2 d Hd) as [C D]. split; congruence. Qed.

(** Only channel [minor] and the lines may have changed. *)
Definition only_channel (minor : Z) (s s' : serial H) : Prop :=
  ∀ d, 0 ≤ d < 2 → d ≠ minor → channels s' !! Z.to_nat d = channels s !! Z.to_nat d ∧ line_in d (uart s') = line_in d (uart s) ∧ line_out d (uart s') = line_out d (uart s) ∧
    (tx_ready d (uart s) → tx_ready d (uart s')).

Lemma ports_from minor s s' rx tx rx' tx' : chan_ok s minor rx tx → chan_ok s' minor rx' tx' → only_channel minor s s' →
  rx ++ line_in minor (uart s) = rx' ++ line_in minor (uart s') → line_out minor (uart s) ++ tx = line_out minor (uart s') ++ tx' → same_ports s s'.
Proof.
  intros H1 H2 Ho E1 E2 d Hd. destruct (decide (d = minor)) as [->|Hne].
  - destruct (port_ok _ _ _ _ H1) as [-> ->], (port_ok _ _ _ _ H2) as [-> ->]. done.
  - destruct (Ho d Hd Hne) as (A & B & C & _). unfold port_in, port_out. by rewrite A, B, C.
Qed.

Lemma receive_ok s isr minor c rx tx : serial_inv s → 0 ≤ minor < 2 → channels s !! Z.to_nat minor = Some c → channel_ok c rx tx → (length rx ≤ 411)%nat →
  ∃ s' rx', channel_receive s c isr minor = Some s' ∧
    serial_inv s' ∧ chan_ok s' minor rx' tx ∧ only_channel minor s s' ∧ same_ports s s' ∧ (tx_ready minor (uart s) → tx_ready minor (uart s')).
Proof.
  intros Hi Hm Hlk Hc Hroom. unfold channel_receive. destruct (_ =? 0).
  { exists s, rx. split_and!; try done. by exists c. }
  destruct (receive_loop_ok 100 (uart s) c minor rx tx Hc ltac:(lia)) as (h1 & c1 & bs & -> & Hc1 & R1 & R2 & R3 & R4). rewrite bind_some. cbv zeta.
  set (h2 := if _ <? 10 then _ else _). assert (Hh2 : same_lines h1 h2 ∧ keeps_ready h1 h2).
  { unfold h2. destruct (_ <? 10); [apply wr_out_reset_law|by split; intros d]. }
  clearbody h2. destruct Hh2 as [Hh2 Hk2]. destruct (wr (channels s) minor (set_ch_ready c1 1)) as [cs|] eqn:Ew; [|rewrite wr_in_range in Ew by (rewrite (proj1 Hi); lia); done].
  rewrite bind_some. destruct (chan_update s minor (set_ch_ready c1 1) h2 cs (rx ++ bs) tx Hi Hm Ew Hc1) as (Hck & Hi' & Hoth).
  set (s1 := set_channels (set_uart s h2) cs) in *. exists (request_bh s1 BH_TTY68681), (rx ++ bs).
  assert (Hon : only_channel minor s (request_bh s1 BH_TTY68681)).
  { intros d Hd Hne. cbn [channels uart request_bh set_bh s1 set_channels set_uart]. destruct (Hh2 d) as [A B]. rewrite A, B, R2, R3 by done.
    split_and!; try done; [by apply Hoth|]. intros Ht. by apply Hk2, R4. }
  split_and!; try done; [|intros Ht; by apply Hk2, R4]. destruct (Hh2 minor) as [A B]. eapply ports_from; [by exists c|done|done|..]; cbn [uart request_bh set_bh s1 set_channels set_uart].
  - by rewrite A, R1, app_assoc.
  - by rewrite B, R2.
Qed.

Lemma transmit_ok s isr minor c rx tx : serial_inv s → 0 ≤ minor < 2 → channels s !! Z.to_nat minor = Some c → channel_ok c rx tx →
  (Z.land isr ISR_S_TX_READY ≠ 0 → tx_ready minor (uart s)) →
  ∃ s', channel_transmit s c isr minor = Some s' ∧ serial_inv s' ∧ only_channel minor s s' ∧ same_ports s s'.
Proof.
  intros Hi Hm Hlk Hc Hready. unfold channel_transmit. destruct (Z.eqb_spec (Z.land isr ISR_S_TX_READY) 0) as [_|Hne]; [by exists s|]. specialize (Hready Hne).
  pose proof Hc as (Hrx & Htx & Hb1 & Hb2). pose proof (get_char_spec _ _ _ Htx) as Hg. pose proof (proj1 Hi) as Hl.
  destruct tx as [|b tx].
  - rewrite Hg, bind_some. destruct (wr (channels s) minor (set_ch_tx c (ch_tx c))) as [cs|] eqn:Ew; [|rewrite wr_in_range in Ew by lia; done]. rewrite bind_some. cbn [Z.eqb negb uart set_channels].
    pose proof (rd_status_law minor (uart s)) as (Hs1 & Hs2 & _ & _). destruct (rd_status minor (uart s)) as [h1 status]. cbn [fst snd] in *.
    set (h2 := if _ =? 0 then _ else _). assert (Hh2 : same_lines (uart s) h2 ∧ ∀ d, d ≠ minor → tx_ready d (uart s) → tx_ready d h2).
    { unfold h2. destruct (_ =? 0); [by split; [done|intros d _; apply Hs2]|]. destruct (wr_command_law minor CMD_DISABLE_TX h1) as [A B]. split; [by eapply same_trans|]. intros d Hd Ht. by apply B, Hs2. }
    clearbody h2. destruct Hh2 as [Hh2 Hk2]. destruct (chan_update s minor (set_ch_tx c (ch_tx c)) h2 cs rx [] Hi Hm Ew Hc) as (Hck & Hi' & Hoth).
    eexists. split; [done|]. assert (Hon : only_channel minor s (request_bh (set_uart (set_channels s cs) h2) BH_TTY68681)).
    { intros d Hd Hdm. destruct (Hh2 d) as [A B]. split_and!; try done; [by apply Hoth|by apply Hk2]. }
    split_and!; try done. destruct (Hh2 minor) as [A B]. eapply ports_from; [by exists c|exact Hck|done|..]; cbn [uart set_channels set_uart request_bh set_bh]; by rewrite ?A, ?B.
  - destruct Hg as (rb & -> & Hrb). apply Forall_cons in Hb2 as [Hbb Hb2]. rewrite bind_some. destruct (wr (channels s) minor (set_ch_tx c rb)) as [cs|] eqn:Ew; [|rewrite wr_in_range in Ew by lia; done]. rewrite bind_some.
    replace (negb (b =? -1)) with true by lia. cbv zeta. cbn [uart set_channels]. rewrite u8_small by done. destruct (wr_send_law minor b (uart s) Hready) as (S1 & S2 & S3).
    destruct (chan_update s minor (set_ch_tx c rb) (wr_send minor b (uart s)) cs rx tx Hi Hm Ew) as (Hck & Hi' & Hoth); [split_and!; done|].
    eexists. split; [done|]. assert (Hon : only_channel minor s (set_uart (set_channels s cs) (wr_send minor b (uart s)))).
    { intros d Hd Hdm. destruct (S3 d Hdm) as [A B]. split_and!; [by apply Hoth|by apply S2|done|done]. }
    split_and!; try done. eapply ports_from; [by exists c|exact Hck|done|..]; cbn [uart set_channels set_uart]; [by rewrite S2|]. by rewrite S1, <- app_assoc.
Qed.

Lemma handle_channel_ok s isr minor : serial_inv s → 0 ≤ minor < 2 → room minor s = true →
  let isr' := if minor =? CH_B then Z.shiftr isr 4 else isr in
  (Z.land isr' ISR_S_TX_READY ≠ 0 → tx_ready minor (uart s)) →
  ∃ s', handle_channel_io s isr minor = Some s' ∧ serial_inv s' ∧ only_channel minor s s' ∧ same_ports s s'.
Proof.
  intros Hi Hm Hroom isr' Hready. destruct (proj2 Hi minor Hm) as (rx & tx & c & Hlk & Hc). destruct (chan_rd _ _ _ Hm Hlk) as [Erd _].
  unfold room in Hroom. rewrite Hlk, (ring_free _ _ (proj1 Hc)) in Hroom.
  unfold handle_channel_io. fold isr'. rewrite Erd, bind_some.
  destruct (receive_ok s isr' minor c rx tx Hi Hm Hlk Hc ltac:(lia)) as (s1 & rx1 & -> & Hi1 & (c1 & Hlk1 & Hc1) & Ho1 & Hp1 & Ht1). rewrite bind_some.
  destruct (chan_rd _ _ _ Hm Hlk1) as [-> _]. rewrite bind_some.
  destruct (transmit_ok s1 isr' minor c1 rx1 tx Hi1 Hm Hlk1 Hc1 (λ Hn, Ht1 (Hready Hn))) as (s2 & -> & Hi2 & Ho2 & Hp2). exists s2. split_and!; try done; [|by eapply same_ports_trans].
  intros d Hd Hne. destruct (Ho1 d Hd Hne) as (A1 & A2 & A3 & A4), (Ho2 d Hd Hne) as (B1 & B2 & B3 & B4). split_and!; [congruence..|]. intros Ht. by apply B4, A4.
Qed.

Definition isr_agrees (x : Z) : bool :=
  implb (negb (Z.land (s8 x) ISR_S_TX_READY =? 0)) (Z.testbit x 0) && implb (negb (Z.land (Z.shiftr (s8 x) 4) ISR_S_TX_READY =? 0)) (Z.testbit x 4).

Lemma isr_bits x : 0 ≤ x < 256 →
  (Z.land (s8 x) ISR_S_TX_READY ≠ 0 → Z.testbit x 0 = true) ∧ (Z.land (Z.shiftr (s8 x) 4) ISR_S_TX_READY ≠ 0 → Z.testbit x 4 = true).
Proof.
  intros Hx. assert (Hall : forallb isr_agrees (seqZ 0 256) = true) by (vm_compute; reflexivity).
  rewrite forallb_forall in Hall. specialize (Hall x). rewrite <- list_elem_of_In, elem_of_seqZ in Hall. specialize (Hall ltac:(lia)).
  unfold isr_agrees in Hall. apply andb_true_iff in Hall as [A B]. split; intros Hn; [destruct (Z.eqb_spec (Z.land (s8 x) ISR_S_TX_READY) 0)|destruct (Z.eqb_spec (Z.land (Z.shiftr (s8 x) 4) ISR_S_TX_READY) 0)]; done.
Qed.

Lemma handle_irq_ok s : serial_inv s → room CH_A s = true → room CH_B s = true →
  ∃ s', handle_serial_irq s = Some s' ∧ serial_inv s' ∧ same_ports s s'.
Proof.
  intros Hi Ha Hb. unfold handle_serial_irq. destruct (rd_isr_law (uart s)) as (I1 & I2 & I3 & I4). destruct (rd_isr (uart s)) as [h isr]. cbn [fst snd] in *.
  destruct (isr_bits isr I2) as [B0 B4]. set (s0 := set_uart s h). assert (Hp0 : same_ports s s0).
  { intros d Hd. unfold port_in, port_out. cbn [channels s0 set_uart uart]. destruct (I1 d) as [-> ->]. done. }
  destruct (handle_channel_ok s0 (s8 isr) CH_A Hi ltac:(unfold CH_A; lia) Ha) as (s1 & -> & Hi1 & Ho1 & Hp1); [intros Hn; by apply I3, B0|]. rewrite bind_some.
  destruct (Ho1 CH_B ltac:(unfold CH_B; lia) ltac:(done)) as (C1 & C2 & C3 & C4).
  destruct (handle_channel_ok s1 (s8 isr) CH_B Hi1 ltac:(unfold CH_B; lia)) as (s2 & -> & Hi2 & Ho2 & Hp2); [unfold room in *; by rewrite C1|intros Hn; by apply C4, I4, B4|]. rewrite bind_some.
  set (s3 := if Z.land (s8 isr) ISR_TIMER_CHANGE =? 0 then _ else _). assert (Hs3 : channels s3 = channels s2 ∧ same_lines (uart s2) (uart s3)).
  { unfold s3. destruct (_ =? 0); [done|]. split; [done|]. apply rd_stop_law. }
  clearbody s3. set (s4 := if Z.land (s8 isr) ISR_INPUT_CHANGE =? 0 then _ else _). assert (Hs4 : channels s4 = channels s2 ∧ same_lines (uart s2) (uart s4)).
  { unfold s4. destruct Hs3 as [E3 L3]. destruct (_ =? 0); [done|]. split; [done|]. eapply same_trans; [done|]. apply rd_ipcr_law. }
  clearbody s4. destruct Hs4 as [E4 L4]. exists s4. split; [done|]. split.
  - unfold serial_inv, chan_ok in *. by rewrite E4.
  - eapply same_ports_trans; [exact Hp0|]. eapply same_ports_trans; [exact Hp1|]. eapply same_ports_trans; [exact Hp2|].
    intros d Hd. unfold port_in, port_out. rewrite E4. destruct (L4 d) as [-> ->]. done.
Qed.

(** An interrupt that comes when there is room for all the bytes that it may
    bring.  (The handler runs in any case, and drops the bytes for which there
    is no room; a run with such an interrupt is left out here, by doing nothing.) *)
Definition irq_with_room (s : serial H) : serial H :=
  if room CH_A s && room CH_B s then match handle_serial_irq s with Some s' => s' | None => s end else s.

Lemma irq_with_room_quiet : quiet irq_with_room.
Proof.
  intros s Hi. unfold irq_with_room. destruct (room CH_A s) eqn:Ea; [|done]. destruct (room CH_B s) eqn:Eb; [|done]. cbn [andb].
  destruct (handle_irq_ok s Hi Ea Eb) as (s' & -> & Hi' & Hp). destruct (Hp CH_B ltac:(unfold CH_B; lia)) as [A B]. done.
Qed.

(** ** A frame that is too large *)

(** More than 511 bytes are never taken, whatever the state of the channel. *)
Lemma tty_write_too_large minor s0 s : serial_inv s0 → 0 ≤ minor < 2 → 511 < zlen s ≤ SLIP_MTU_MAX →
  ∃ s1 it, tty_68681_write minor s0 (iovec_iter_init_simple_kvec s (zlen s)) = Some (s1, it, 0) ∧ uart s1 = uart s0 ∧ channels s1 = channels s0.
Proof.
  intros Hi Hm Hs. unfold SLIP_MTU_MAX in Hs. destruct (proj2 Hi minor Hm) as (rx & tx & c & Hlk & Hc). destruct (chan_rd _ _ _ Hm Hlk) as [Erd Efr].
  assert (Hrem : iovec_iter_remaining (iovec_iter_init_simple_kvec s (zlen s)) = zlen s) by (unfold iovec_iter_remaining; cbn [it_length seg_start seg_offset iovec_iter_init_simple_kvec]; rewrite u32_small; lia).
  pose proof Hc as (_ & Htx & _). pose proof (holds_bound _ _ _ Htx) as [Htl _]. unfold tty_68681_write. rewrite Efr, Hrem, (ring_free _ _ Htx), u32_small by lia.
  destruct (Z.ltb_spec (511 - zlen tx) (zlen s)) as [_|Hx]; [|lia]. destruct (_ =? 0); by eexists _, _.
Qed.

(** So the interface stops at such a frame: polling it again sends nothing, now or later. *)
Theorem slip_large_frame_stuck s0 s cur : serial_inv s0 → tx_rel s cur → 511 < zlen cur →
  ∃ s1, slip_if_write_data s0 s = Some (s1, s) ∧ uart s1 = uart s0 ∧ channels s1 = channels s0.
Proof.
  intros Hi (Hrw & Hw & Hl & Hc & Hne & Hcb & Hq) Hlt. assert (Hcl : zlen cur = tx_write s - tx_read s) by (rewrite <- Hc, length_slice; lia).
  destruct (tty_write_too_large CH_B s0 cur Hi) as (s1 & it & E & Hu & Hch); [unfold CH_B; lia|unfold SLIP_MTU_MAX; lia|].
  exists s1. split; [|done]. unfold slip_if_write_data, write_fuel. cbn [slip_write_loop]. destruct (Z.eqb_spec (tx_write s) 0); [lia|]. rewrite bind_some.
  destruct (Z.ltb_spec (tx_read s) (tx_write s)); [|lia]. rewrite rd_range_ok by lia. rewrite bind_some, Hc, <- Hcl.
  change (dev_write s0 (iovec_iter_init_simple_kvec cur (zlen cur))) with (tty_68681_write CH_B s0 (iovec_iter_init_simple_kvec cur (zlen cur))). rewrite E, bind_some. cbn [Z.ltb Z.compare Z.eqb].
  rewrite Z.add_0_r, s16_small by lia. destruct (Z.leb_spec (tx_write s) (tx_read s)); [lia|]. by destruct s.
Qed.
End serial.
