(* ===== verification/Sliprun.v ===== *)
(** * Sliprun: two interfaces on one line

    What one machine sends arrives at the other, over the serial driver and
    any chip that behaves as its data sheet says; with a chip to run it on. *)

From S2P Require Import Prelude Queue Result Iovec Ringbuffer Packet Slip Slipinv Bh Serial Serialinv.

(** ** A chip *)

(** A chip that is always ready; the bytes to come are in a list for each channel. *)
Record chip := Chip { in_a : list Z; in_b : list Z; out_a : list Z; out_b : list Z }.
Definition chip_in (c : Z) (h : chip) : list Z := if c =? 0 then in_a h else if c =? 1 then in_b h else [].
Definition chip_out (c : Z) (h : chip) : list Z := if c =? 0 then out_a h else if c =? 1 then out_b h else [].
Definition chip_pop (c : Z) (h : chip) : chip :=
  if c =? 0 then Chip (drop 1 (in_a h)) (in_b h) (out_a h) (out_b h) else if c =? 1 then Chip (in_a h) (drop 1 (in_b h)) (out_a h) (out_b h) else h.
Definition chip_send (c v : Z) (h : chip) : chip :=
  if c =? 0 then Chip (in_a h) (in_b h) (out_a h ++ [v]) (out_b h) else if c =? 1 then Chip (in_a h) (in_b h) (out_a h) (out_b h ++ [v]) else h.

#[export] Instance chip_uart : Uart chip := {|
  rd_isr h := (h, 51);
  rd_stop h := h;
  rd_ipcr h := h;
  rd_status c h := (h, match chip_in c h with [] => 12 | _ => 13 end);
  rd_recv c h := (chip_pop c h, match chip_in c h with [] => 0 | b :: _ => u8 b end);
  wr_send := chip_send;
  wr_command _ _ h := h;
  wr_out_set _ h := h;
  wr_out_reset _ h := h;
|}.

#[export] Program Instance chip_laws : UartLaws chip := {|
  line_in c h := u8 <$> chip_in c h;
  line_out c h := chip_out c h;
  has_byte c h := chip_in c h ≠ [];
  tx_ready c h := c = 0 ∨ c = 1;
|}.
Next Obligation. intros h. cbn. split_and!; try done; intros _; [by left|by right]. Qed.
Next Obligation. done. Qed.
Next Obligation. done. Qed.
Next Obligation. done. Qed.
Next Obligation. done. Qed.
Next Obligation. done. Qed.
Next Obligation. intros c h. cbn. destruct (chip_in c h); by split_and!. Qed.
Next Obligation.
  intros c h Hh. cbn. unfold chip_in, chip_out, chip_pop in *. destruct (Z.eqb_spec c 0) as [->|]; [|destruct (Z.eqb_spec c 1) as [->|]; [|done]].
  - destruct h as [[|b ia] ib oa ob]; [done|]. cbn. split_and!; try done; try (apply uwrap_range; lia). intros d Hd. by destruct (Z.eqb_spec d 0).
  - destruct h as [ia [|b ib] oa ob]; [done|]. cbn. split_and!; try done; try (apply uwrap_range; lia). intros d Hd. destruct (Z.eqb_spec d 0); [done|]. by destruct (Z.eqb_spec d 1).
Qed.
Next Obligation.
  intros c b h [->| ->]; cbn; unfold chip_out; cbn; (split_and!; try done; intros d Hd; destruct (Z.eqb_spec d 0), (Z.eqb_spec d 1); done).
Qed.

Definition empty_ring : ringbuffer := _buf_init (mk_rb 0 0 0 (replicate 512 0)) 0.
Definition idle_channel (bh_num : Z) : serial_channel := SerialChannel empty_ring empty_ring 1 (Z.lor 2 O_NONBLOCK) 0 0 bh_num.
(** A machine whose second channel has been opened by the interface. *)
Definition machine (incoming : list Z) : serial chip := Serial (Chip [] incoming [] []) [idle_channel BH_TTY; idle_channel BH_SLIP] 0 0 init_bh [].

Lemma idle_channel_ok n : channel_ok (idle_channel n) [] [].
Proof. split_and!; try apply init_holds; try done; by apply Forall_nil. Qed.

Lemma machine_inv l : serial_inv (machine l).
Proof.
  split; [done|]. intros minor Hm. exists [], []. destruct (decide (minor = 0)) as [->|]; [exists (idle_channel BH_TTY); split; [done|apply idle_channel_ok]|].
  replace minor with 1 by lia. exists (idle_channel BH_SLIP). split; [done|apply idle_channel_ok].
Qed.

Definition ping : packet := Packet None 0 0 0 0 (Ipv4 0 0) (Ipv4 0 0) 4 4 [69; 192; 219; 7].
Definition irq : slip_op (W := serial chip) := SlDevice irq_with_room.

Lemma slip_link_delivers_witness :
  ∃ a' sa ta b' sb tb,
    slip_run (machine []) slip_if_init [SlSend ping; irq; SlSend ping; irq; SlPoll; irq] = Some (a', sa, ta) ∧
    slip_run (machine [192; 69; 219; 220; 219; 221; 7; 192]) slip_if_init [irq; SlInput; irq; SlPoll; SlTake] = Some (b', sb, tb) ∧
    (dev_in (machine [192; 69; 219; 220; 219; 221; 7; 192]) `prefix_of` dev_out a' →
     (payload <$> (tb ++ rx_queue (sl_if sb))) `prefix_of` [[69; 192; 219; 7]; [69; 192; 219; 7]]).
Proof.
  destruct (slip_link_delivers (machine []) (machine [192; 69; 219; 220; 219; 221; 7; 192]) [SlSend ping; irq; SlSend ping; irq; SlPoll; irq] [irq; SlInput; irq; SlPoll; SlTake])
    as (a' & sa & ta & b' & sb & tb & E1 & E2 & E3 & _).
  - apply machine_inv.
  - apply machine_inv.
  - reflexivity.
  - assert (sendable ping) by (split; [split; [simpl; lia|by vm_compute]|repeat constructor; simpl; lia]).
    repeat (apply Forall_cons; split; [first [done|apply irq_with_room_quiet]|]). by apply Forall_nil.
  - repeat (apply Forall_cons; split; [first [done|apply irq_with_room_quiet]|]). by apply Forall_nil.
  - repeat constructor; done.
  - exists a', sa, ta, b', sb, tb. split_and!; [exact E1|exact E2|exact E3].
Defined.

(** The bytes that go over the line, and the packet that comes out of them. *)
Example ping_over_the_line :
  match slip_run (machine []) slip_if_init (SlSend ping :: replicate 8 irq) with
  | Some (a', _, _) => out_b (uart a') = [192; 69; 219; 220; 219; 221; 7; 192]
  | None => False
  end ∧
  match slip_run (machine [192; 69; 219; 220; 219; 221; 7; 192]) slip_if_init [irq; SlInput] with
  | Some (_, sb, _) => payload <$> rx_queue (sl_if sb) = [[69; 192; 219; 7]]
  | None => False
  end.
Proof. split; vm_compute; reflexivity. Qed.
