(* ===== verification/Tty.v ===== *)
(** * Tty: the terminal (kernel/drivers/tty/tty.c, include/termios.h)

    A terminal edits the characters that come from a serial device into lines,
    echoes them, and lets readers have a line at a time.  The drivers below and
    the parts of the kernel that a terminal calls are the class [TtyHost] on the
    state [W] of the machine; the interrupt that keeps the device filled is not
    part of it.  Characters are bytes; a char that is compared is signed.  The
    offset of reads and writes, which the serial driver does not look at, is not
    passed on. *)

From S2P Require Import Prelude Result Iovec Packet Slip Serial Bh Device.

Definition TTY_DEVICE_NUM : nat := 2.
Definition MAX_CANNON : Z := 256.
Definition SIGINT : Z := 2.
Definition SIGSTOP : Z := 19.
Definition EBADF : Z := -9.
Definition ECHO : Z := 1.
Definition ECHOE : Z := 2.
Definition ICANON : Z := 16.
Definition ISIG : Z := 64.
Definition VERASE : Z := 2.
Definition VINTR : Z := 3.
Definition VSUSP : Z := 8.
Definition VFS_POLL_ERROR : Z := 4.
Definition SIZEOF_TERMIOS : Z := 28.
Definition _IOR (x y size : Z) : Z := Z.lor (Z.lor (Z.lor (Z.shiftl x 8) y) (Z.shiftl (Z.land size 8191) 16)) (2 ^ 31).
Definition _IOW (x y size : Z) : Z := Z.lor (Z.lor (Z.lor (Z.shiftl x 8) y) (Z.shiftl (Z.land size 8191) 16)) (2 ^ 30).
Definition TCGETS : Z := _IOR 84 8 SIZEOF_TERMIOS.
Definition TCSETS : Z := _IOW 84 9 SIZEOF_TERMIOS.
Definition TIOCGPGRP : Z := _IOW 84 18 4.
Definition TIOCSPGRP : Z := _IOW 84 19 4.

Record termios := Termios { c_iflag : Z; c_oflag : Z; c_cflag : Z; c_lflag : Z; c_cc : list Z }.

Definition default_tio : termios :=
  Termios (Z.lor (Z.lor 1 2) (Z.lor 512 1024)) (Z.lor 1 2) (Z.lor (Z.lor 2 12) 32) (Z.lor (Z.lor ISIG 32) (Z.lor ICANON (Z.lor ECHO ECHOE)))
    ([4; 255; 8; 3; 21; 1; 28; 0; 26; 19; 17] ++ replicate 9 0).

(** The bytes of the struct: four shorts and the control characters. *)
Definition short_bytes (v : Z) : list Z := [v / 256; v mod 256].
Definition termios_bytes (t : termios) : list Z := short_bytes (c_iflag t) ++ short_bytes (c_oflag t) ++ short_bytes (c_cflag t) ++ short_bytes (c_lflag t) ++ c_cc t.
Definition termios_of (l : list Z) : option termios :=
  let at_ i := hi ← rd l i; lo ← rd l (i + 1); Some (hi * 256 + lo) in
  a ← at_ 0; b ← at_ 2; c ← at_ 4; d ← at_ 6; cc ← rd_range l 8 20; Some (Termios a b c d cc).

(** The bytes of an int. *)
Definition int_bytes (v : Z) : list Z := let v := u32 v in [v / 2 ^ 24; v / 2 ^ 16 mod 256; v / 256 mod 256; v mod 256].
Definition int_of (l : list Z) : option Z := a ← rd l 0; b ← rd l 1; c ← rd l 2; d ← rd l 3; Some (s32 (((a * 256 + b) * 256 + c) * 256 + d)).

Record tty_device := Tty {
  rdev : Z;
  pgid : Z;
  tio : termios;
  tt_error : Z;
  ready : Z;
  escape : Z;
  opens : Z;
  buf_read : Z;
  buf_write : Z;
  buffer : list Z;
}.
Definition set_pgid t x := Tty (rdev t) x (tio t) (tt_error t) (ready t) (escape t) (opens t) (buf_read t) (buf_write t) (buffer t).
Definition set_tio t x := Tty (rdev t) (pgid t) x (tt_error t) (ready t) (escape t) (opens t) (buf_read t) (buf_write t) (buffer t).
Definition set_tt_error t x := Tty (rdev t) (pgid t) (tio t) x (ready t) (escape t) (opens t) (buf_read t) (buf_write t) (buffer t).
Definition set_ready t x := Tty (rdev t) (pgid t) (tio t) (tt_error t) x (escape t) (opens t) (buf_read t) (buf_write t) (buffer t).
Definition set_escape t x := Tty (rdev t) (pgid t) (tio t) (tt_error t) (ready t) x (opens t) (buf_read t) (buf_write t) (buffer t).
Definition set_opens t x := Tty (rdev t) (pgid t) (tio t) (tt_error t) (ready t) (escape t) x (buf_read t) (buf_write t) (buffer t).
Definition set_buf t r w b := Tty (rdev t) (pgid t) (tio t) (tt_error t) (ready t) (escape t) (opens t) r w b.

Definition lflag (t : tty_device) (f : Z) : bool := negb (Z.land (c_lflag (tio t)) f =? 0).
Definition tty_reset_input (t : tty_device) : tty_device := set_buf (set_ready t 0) 0 0 (buffer t).

(** The devices by number, and the kernel. *)
Class TtyHost (W : Type) := {
  device : Z → ByteDevice W;
  host_open : W → Z → Z → option (W * Z);
  host_close : W → Z → option (W * Z);
  host_ioctl : W → Z → Z → iovec_iter → Z → option (W * iovec_iter * Z);
  host_poll : W → Z → Z → option Z;
  resume_blocked_procs : W → Z → Z → W;
  suspend_current_syscall : W → Z → W;
  send_signal_process_group : W → Z → Z → W;
  request_bh_run : W → Z → W;
  register_driver : W → Z → W * Z;
  register_bh : W → Z → option W;
  enable_bh : W → Z → W;
}.

Section tty.
Context {W : Type} `{TtyHost W}.

(** [dev_write(tty->rdev, 0, &iter)] of a few characters; the result is not looked at. *)
Definition echo (w : W) (t : tty_device) (s : list Z) : option W :=
  '(w, _, _) ← Slip.dev_write (ByteDevice := device (rdev t)) w (iovec_iter_init_simple_kvec s (zlen s)); Some w.

(** The case of an erase character. *)
Definition erase (w : W) (t : tty_device) : option (W * tty_device) :=
  if buf_write t <? 1 then Some (w, t)
  else
    let t := set_buf t (buf_read t) (s16 (buf_write t - 1)) (buffer t) in
    if lflag t ECHOE then b ← rd (buffer t) (buf_write t); w ← echo w t (if b =? 9 then replicate 8 8 else [8; 32; 8]); Some (w, t)
    else Some (w, t).

(** A character that is put into the line. *)
Definition enter (w : W) (t : tty_device) (c : Z) : option (W * tty_device) :=
  b ← wr (buffer t) (buf_write t) c;
  let t := set_buf t (buf_read t) (s16 (buf_write t + 1)) b in
  w ← (if lflag t ECHO then echo w t [c] else Some w);
  Some (w, t).

(** tty_read_input: the loop over the characters that there are. *)
Fixpoint tty_read_input (fuel : nat) (w : W) (t : tty_device) (minor : Z) : option (W * tty_device) :=
  match fuel with
  | O => None
  | S fuel =>
      if MAX_CANNON <=? buf_write t then Some (resume_blocked_procs w VFS_POLL_READ (DEVNUM DEVMAJOR_TTY minor), set_ready t 1)
      else
        '(w, it, error) ← Slip.dev_read (ByteDevice := device (rdev t)) w (iovec_iter_init_simple_kvec [0] 1);
        if error <=? 0 then Some (w, set_tt_error t error)
        else
          c ← rd (segment it) 0;
          let ch := s8 c in
          intr ← rd (c_cc (tio t)) VINTR; susp ← rd (c_cc (tio t)) VSUSP; verase ← rd (c_cc (tio t)) VERASE;
          if lflag t ISIG && (ch =? intr) then
            let t := tty_reset_input t in Some (send_signal_process_group w (pgid t) SIGINT, t)
          else if lflag t ISIG && (ch =? susp) then Some (send_signal_process_group w (pgid t) SIGSTOP, t)
          else if ch =? 27 then tty_read_input fuel w (set_escape t 1) minor
          else if escape t =? 1 then tty_read_input fuel w (set_escape t (if ch =? 91 then 2 else 0)) minor
          else if escape t =? 2 then tty_read_input fuel w (set_escape t 0) minor
          else if ch =? verase then '(w, t) ← erase w t; tty_read_input fuel w t minor
          else if ch =? 13 then tty_read_input fuel w t minor
          else
            '(w, t) ← enter w t c;
            if ch =? 10 then Some (resume_blocked_procs w VFS_POLL_READ (DEVNUM DEVMAJOR_TTY minor), set_ready t 1)
            else tty_read_input fuel w t minor
  end.

(** ** The driver: the state is that of the machine and the terminals *)
Definition ttys : Type := W * list tty_device.

Fixpoint process_ttys (n : nat) (fuel : nat) (minor : Z) (s : ttys) : option ttys :=
  match n with
  | O => Some s
  | S n =>
      t ← rd s.2 minor;
      s ← (if negb (opens t =? 0) && lflag t ICANON then
             '(w, t) ← tty_read_input fuel s.1 t minor; l ← wr s.2 minor t; Some (w, l)
           else Some s);
      process_ttys n fuel (minor + 1) s
  end.
Definition tty_process_input (fuel : nat) (s : ttys) : option ttys := process_ttys TTY_DEVICE_NUM fuel 0 s.

(** The terminals that tty_init sets up, in place of [old]. *)
Definition init_tty (i : nat) (old : tty_device) : tty_device :=
  Tty (DEVNUM DEVMAJOR_TTY68681 (Z.of_nat i)) 0 default_tio 0 0 (escape old) 0 0 0 (buffer old).
Definition tty_init (s : ttys) : option (ttys * Z) :=
  let l := imap init_tty s.2 in
  let '(w, error) := register_driver s.1 DEVMAJOR_TTY in
  if error <? 0 then Some (w, l, error)
  else w ← register_bh w BH_TTY; Some (enable_bh w BH_TTY, l, 0).

Definition no_tty (minor : Z) : bool := Z.of_nat TTY_DEVICE_NUM <=? minor.
Definition put_tty (s : ttys) (w : W) (minor : Z) (t : tty_device) : option ttys := l ← wr s.2 minor t; Some (w, l).

Definition tty_open (s : ttys) (minor mode : Z) : option (ttys * Z) :=
  if no_tty minor then Some (s, ENODEV)
  else
    t ← rd s.2 minor;
    s' ← put_tty s s.1 minor (set_opens t (s16 (opens t + 1)));
    if opens t =? 0 then '(w, r) ← host_open s'.1 (rdev t) (Z.lor (Z.lor mode O_NONBLOCK) O_EXCL); Some (w, s'.2, r)
    else Some (s', 0).

Definition tty_close (s : ttys) (minor : Z) : option (ttys * Z) :=
  if no_tty minor then Some (s, ENODEV)
  else
    t ← rd s.2 minor;
    if opens t =? 0 then Some (s, EBADF)
    else
      let o := s16 (opens t - 1) in
      s' ← put_tty s s.1 minor (set_opens t o);
      if o =? 0 then '(w, r) ← host_close s'.1 (rdev t); Some (w, s'.2, r) else Some (s', 0).

(** The loop of tty_read over the bytes of a line. *)
Fixpoint read_line (n : nat) (t : tty_device) (iter : iovec_iter) (count : Z) : option (tty_device * iovec_iter * Z) :=
  match n with
  | O => Some (t, iter, count)
  | S n =>
      byte ← rd (buffer t) (buf_read t);
      let t := set_buf t (s16 (buf_read t + 1)) (buf_write t) (buffer t) in
      '(iter, _) ← copy_uint8_into_iter iter byte;
      if byte =? 10 then
        let remaining := buf_write t - buf_read t in
        if remaining =? 0 then Some (t, iter, count + 1)
        else if remaining <? 0 then None
        else
          b ← memcpy_down (Z.to_nat remaining) (buffer t) 0 (buf_read t);
          Some (set_buf t 0 (s16 (buf_write t - buf_read t)) b, iter, count + 1)
      else read_line n t iter (count + 1)
  end.

Definition read_raw (w : W) (t : tty_device) (offset : Z) (iter : iovec_iter) : option (W * tty_device * iovec_iter * Z) :=
  if buf_read t <? buf_write t then
    let have := buf_write t - buf_read t in
    let max := if iovec_iter_remaining iter <? have then iovec_iter_remaining iter else have in
    '(iter, _) ← memcpy_into_iter iter (drop (Z.to_nat (buf_read t)) (buffer t)) max;
    let t := set_buf t (s16 (buf_read t + max)) (buf_write t) (buffer t) in
    Some (w, (if buf_write t <=? buf_read t then tty_reset_input t else t), iter, max)
  else
    '(w, iter, read) ← Slip.dev_read (ByteDevice := device (rdev t)) w iter;
    Some (if read =? 0 then suspend_current_syscall w VFS_POLL_READ else w, t, iter, read).

Definition read_canon (w : W) (t : tty_device) (iter : iovec_iter) : option (W * tty_device * iovec_iter * Z) :=
  if ready t =? 0 then Some (suspend_current_syscall w VFS_POLL_READ, t, iter, 0)
  else
    let have := u32 (buf_write t - buf_read t) in
    let size := iovec_iter_remaining iter in
    '(t, iter, count) ← read_line (Z.to_nat (if size <? have then size else have)) t iter 0;
    if buf_write t <=? buf_read t then Some (request_bh_run w BH_TTY, tty_reset_input t, iter, count)
    else Some (w, t, iter, count).

Definition tty_read (s : ttys) (minor offset : Z) (iter : iovec_iter) : option (ttys * iovec_iter * Z) :=
  if no_tty minor then Some (s, iter, ENODEV)
  else
    t ← rd s.2 minor;
    if negb (tt_error t =? 0) then s ← put_tty s s.1 minor (set_tt_error t 0); Some (s, iter, tt_error t)
    else
      '(w, t, iter, r) ← (if lflag t ICANON then read_canon s.1 t iter else read_raw s.1 t offset iter);
      s ← put_tty s w minor t;
      Some (s, iter, r).

Definition tty_write (s : ttys) (minor offset : Z) (iter : iovec_iter) : option (ttys * iovec_iter * Z) :=
  if no_tty minor then Some (s, iter, ENODEV)
  else
    t ← rd s.2 minor;
    '(w, iter, written) ← Slip.dev_write (ByteDevice := device (rdev t)) s.1 iter;
    Some ((if written =? 0 then suspend_current_syscall w VFS_POLL_WRITE else w, s.2), iter, written).

(** [arg] of TIOCSPGRP is not set before the copy; here it is 0. *)
Definition tty_ioctl (s : ttys) (minor request : Z) (iter : iovec_iter) (uid : Z) : option (ttys * iovec_iter * Z) :=
  if no_tty minor then Some (s, iter, ENODEV)
  else
    t ← rd s.2 minor;
    if request =? TCGETS then '(iter, _) ← memcpy_into_iter iter (termios_bytes (tio t)) SIZEOF_TERMIOS; Some (s, iter, 0)
    else if request =? TCSETS then
      '(iter, l, _) ← memcpy_out_of_iter iter (termios_bytes (tio t)) SIZEOF_TERMIOS;
      x ← termios_of l; s ← put_tty s s.1 minor (set_tio t x); Some (s, iter, 0)
    else if request =? TIOCGPGRP then
      '(iter, _) ← memcpy_into_iter iter (int_bytes (pgid t)) 4; Some (s, iter, 0)
    else if request =? TIOCSPGRP then
      '(iter, l, _) ← memcpy_out_of_iter iter (replicate 4 0) 4;
      x ← int_of l; s ← put_tty s s.1 minor (set_pgid t x); Some (s, iter, 0)
    else '(w, iter, r) ← host_ioctl s.1 (rdev t) request iter uid; Some ((w, s.2), iter, r).

Definition tty_poll (s : ttys) (minor events : Z) : option Z :=
  t ← rd s.2 minor;
  let r := if negb (Z.land events VFS_POLL_READ =? 0) && (0 <? opens t) && negb (ready t =? 0) then VFS_POLL_READ else 0 in
  r ← (if negb (Z.land events VFS_POLL_WRITE =? 0) && (0 <? opens t) then x ← host_poll s.1 (rdev t) VFS_POLL_WRITE; Some (Z.lor r x) else Some r);
  Some (if negb (Z.land events VFS_POLL_ERROR =? 0) && (0 <? opens t) && negb (tt_error t =? 0) then Z.lor r VFS_POLL_ERROR else r).

(** offset_t is unsigned. *)
Definition tty_seek (minor position whence offset : Z) : Z := u32 (-1).
End tty.
