(* ===== verification/Ttyinv.v ===== *)
(** * Ttyinv: a terminal delivers the lines that were typed

    The characters of the device, taken by the bottom half whenever it runs,
    are edited into a text; readers get the lines of the text.  This holds for
    every device with the laws that SLIP relies on too, the serial driver being
    one. *)

From S2P Require Import Prelude Result Iovec Packet Slip Slipinv Bh Serial Serialinv Tty.

Class TtyLaws (W : Type) `{TtyHost W} (d : Z) := {
  tl_dev :: DeviceLaws W (H := device d);
  (** The calls to the kernel leave the device alone. *)
  keeps (w w' : W) := dev_inv (DeviceLaws := tl_dev) w → dev_inv (DeviceLaws := tl_dev) w' ∧ dev_in (DeviceLaws := tl_dev) w' = dev_in (DeviceLaws := tl_dev) w;
  resume_law w e x : keeps w (resume_blocked_procs w e x);
  suspend_law w e : keeps w (suspend_current_syscall w e);
  signal_law w p n : keeps w (send_signal_process_group w p n);
  request_law w n : keeps w (request_bh_run w n);
}.

Section ttyinv.
Context {W : Type} `{TtyHost W} (d : Z) `{!TtyLaws W d} (conf : termios) (minor : Z).
Local Abbreviation inv := (dev_inv (DeviceLaws := tl_dev (d := d))).
Local Abbreviation input := (dev_in (DeviceLaws := tl_dev (d := d))).
Context (intr susp verase : Z).
Hypothesis conf_ok : Z.land (c_lflag conf) ICANON ≠ 0 ∧ c_cc conf !! 3%nat = Some intr ∧ c_cc conf !! 8%nat = Some susp ∧ c_cc conf !! 2%nat = Some verase.
(** Whether there are erase characters among those typed. *)
Context (erasing : bool).


(** ** Editing *)



(** ** What a terminal holds *)














(** ** Reading a line *)










(** ** Runs *)





Hypothesis minor_ok : 0 ≤ minor < 2.







End ttyinv.
