(* ===== verification/Ttyrun.v ===== *)
(** * Ttyrun: terminals on the serial driver

    The two terminals are on the two channels of the serial driver, which has
    the laws that a terminal relies on; with a machine to run them on. *)

From S2P Require Import Prelude Result Iovec Ringbuffer Packet Slip Slipinv Bh Serial Serialinv Sliprun Tty Ttyinv.

Section host.
Context {H : Type} {U : Uart H} {L : UartLaws H}.
(** The ioctl of the serial driver; signals go to processes, which are not part of this state, and neither is the driver table. *)
Context (serial_ioctl : serial H → Z → Z → iovec_iter → Z → option (serial H * iovec_iter * Z)).

(** The name of tty_process_input among the bottom halves. *)
Definition TTY_PROCESS_INPUT : Z := 1000.

#[local] Instance serial_port (d : Z) : ByteDevice (serial H) := {| dev_read := tty_68681_read (Device.DEVMINOR d); dev_write := tty_68681_write (Device.DEVMINOR d) |}.

#[export] Instance serial_host : TtyHost (serial H) := {|
  device := serial_port;
  host_open w d mode := tty_68681_open w (Device.DEVMINOR d) mode;
  host_close w d := tty_68681_close w (Device.DEVMINOR d);
  host_ioctl w d := serial_ioctl w (Device.DEVMINOR d);
  host_poll w d events := tty_68681_poll w (Device.DEVMINOR d) events;
  resume_blocked_procs w events d := sched_call_made w (Resume events (Device.DEVMAJOR d) (Device.DEVMINOR d));
  suspend_current_syscall w events := sched_call_made w (Suspend events);
  send_signal_process_group w _ _ := w;
  request_bh_run w n := request_bh w n;
  register_driver w _ := (w, 0);
  register_bh w n := b ← Bh.register_bh (the_bh w) n TTY_PROCESS_INPUT; Some (set_bh w b);
  enable_bh w n := set_bh w (Bh.enable_bh (the_bh w) n);
|}.


End host.

(** ** A line is typed and read *)

Definition no_ioctl (s : serial chip) (_ _ : Z) (it : iovec_iter) (_ : Z) : option (serial chip * iovec_iter * Z) := Some (s, it, -22).
#[local] Instance chip_host : TtyHost (serial chip) := serial_host no_ioctl.

(** The keys l, x, erase, s, return and newline are on their way. *)
Definition typing : serial chip := Serial (Chip [108; 120; 8; 115; 13; 10] [] [] []) [idle_channel BH_TTY; idle_channel BH_SLIP] 0 0 init_bh [].
Definition fresh_tty : tty_device := Tty 0 0 default_tio 0 0 0 0 0 0 (replicate 256 0).
(** The first terminal is open. *)
Definition console_tty : tty_device := set_opens (init_tty 0 fresh_tty) 1.
Definition two_ttys : list tty_device := [console_tty; init_tty 1 fresh_tty].
Definition demo_start : ttys := (typing, two_ttys).
Definition demo_after_irq : ttys := (irq_with_room typing, two_ttys).
Definition demo_reader : list Z := replicate 256 0.
Definition demo_edited : option (serial chip * tty_device) := tty_read_input 7 demo_after_irq.1 console_tty 0.
Definition demo_typed : ttys := match demo_edited with Some (w, t) => (w, <[0%nat := t]> two_ttys) | None => demo_start end.
Definition demo_read : option (ttys * iovec_iter * Z) := tty_read demo_typed 0 0 (iovec_iter_init_simple_kvec demo_reader 256).

(** What tty_init sets up, with the bottom half of the terminals enabled. *)
Example demo_init : (λ '(s, r), (s.2, r, Z.land (bh_enabled (the_bh s.1)) (Z.shiftl 1 BH_TTY), bh_handlers (the_bh s.1) !! Z.to_nat BH_TTY)) <$> tty_init (typing, [fresh_tty; fresh_tty]) =
  Some ([init_tty 0 fresh_tty; init_tty 1 fresh_tty], 0, Z.shiftl 1 BH_TTY, Some (Some TTY_PROCESS_INPUT)).
Proof. vm_compute. reflexivity. Qed.

(** The reader gets the line as it was edited, and the screen shows the editing. *)
Example demo_line :
  match demo_read with
  | Some (s, it, r) => take (Z.to_nat r) (segment it) = [108; 115; 10] ∧ port_out 0 s.1 = [108; 120; 8; 32; 8; 115; 10] ∧ (t ← rd s.2 0; Some (ready t, buf_write t)) = Some (0, 0)
  | None => False
  end.
Proof. vm_compute. by split_and!. Qed.

(** An erase character that comes after a line was completed and before it was read takes its end away. *)
Example newline_erased :
  match (t ← rd two_ttys 0; '(w, t) ← tty_read_input 7 (irq_with_room (set_uart typing (Chip [108; 10; 8] [] [] []))) t 0; '(w, t) ← tty_read_input 7 w t 0;
         '(_, it, r) ← tty_read (w, <[0%nat := t]> two_ttys) 0 0 (iovec_iter_init_simple_kvec demo_reader 256); Some (take (Z.to_nat r) (segment it))) with
  | Some line => line = [108]
  | None => False
  end.
Proof. vm_compute. done. Qed.





Abbreviation demo_runs_bh := (tty_read_input 7 (irq_with_room typing) console_tty 0).





