(* ===== verification/Udp.v ===== *)
(** * Udp: addresses and UDP endpoints (kernel/net/protocol/inet_af.c, udp.c)

    An endpoint is known by its address in memory ([ue_id]).  Sending a packet
    and waking the processes of a socket are the operations of [NetWorld]. *)

From S2P Require Import Prelude Queue Result Iovec Numconv Packet Inet Serial.

Definition EWOULDBLOCK : Z := -41.
Definition EISCONN : Z := -42.
Definition EADDRINUSE : Z := -43.
Definition ENOTCONN : Z := -47.
Definition EAFNOSUPPORT : Z := -40.
Definition INADDR_ANY : Z := 0.
Definition AF_INET : Z := 2.
Definition SO_GETSOCKNAME : Z := 128.
Definition SO_GETPEERNAME : Z := 129.
Definition SOCKADDR_IN_SIZE : Z := 16.
Definition EPHEMERAL_BASE : Z := 49152.
Definition EPHEMERAL_RANGE : Z := 16383.

Record sockaddr_in := SockaddrIn { sin_family : Z; sin_port : Z; sin_addr : Z }.

(** The address stored and its length. *)
Definition inet_load_sockaddr (ipv4 : ipv4_address) : sockaddr_in * Z := (SockaddrIn AF_INET (port ipv4) (addr ipv4), SOCKADDR_IN_SIZE).

(** [actual] is the address of the interface, if there is one; the address is
    used without a check.  The first result is the state of [rand]. *)
Definition inet_resolve_address (rand_next : Z) (requested : option sockaddr_in) (len : Z) (actual : option ipv4_address) : option (Z * ipv4_address * Z) :=
  let finish (ipv4 : ipv4_address) :=
    a ← (if addr ipv4 =? INADDR_ANY then act ← actual; Some (addr act) else Some (addr ipv4));
    Some (if port ipv4 =? 0 then let '(next, r) := rand rand_next in (next, Ipv4 a (u16 (EPHEMERAL_BASE + Z.land r EPHEMERAL_RANGE)), 0)
          else (rand_next, Ipv4 a (port ipv4), 0)) in
  match requested with
  | None => finish (Ipv4 INADDR_ANY 0)
  | Some req =>
      if negb (len =? SOCKADDR_IN_SIZE) then Some (rand_next, Ipv4 0 0, EINVAL)
      else
        bad ← (if sin_addr req =? INADDR_ANY then Some false else act ← actual; Some (negb (sin_addr req =? addr act)));
        if bad : bool then Some (rand_next, Ipv4 0 0, EINVAL) else finish (Ipv4 (sin_addr req) (sin_port req))
  end.

Class NetWorld (W : Type) := {
  net_send : W → Z → packet → option W;
  net_wakeup : W → Z → Z → W;
}.

Record udp_endpoint := UdpEndpoint {
  ue_id : Z;
  ue_sock : Z;
  ue_ifdev : Z;
  ue_recv : list packet;
  ue_src : ipv4_address;
  ue_dest : ipv4_address;
}.
Definition set_ue_recv e x := UdpEndpoint (ue_id e) (ue_sock e) (ue_ifdev e) x (ue_src e) (ue_dest e).
Definition set_ue_dest e x := UdpEndpoint (ue_id e) (ue_sock e) (ue_ifdev e) (ue_recv e) (ue_src e) x.

Fixpoint udp_lookup_endpoint (eps : list udp_endpoint) (p : Z) : option udp_endpoint :=
  match eps with
  | [] => None
  | e :: eps => if port (ue_src e) =? p then Some e else udp_lookup_endpoint eps p
  end.

(** Storing an endpoint that has changed. *)
Definition update_endpoint (eps : list udp_endpoint) (e : udp_endpoint) : list udp_endpoint :=
  (λ x, if ue_id x =? ue_id e then e else x) <$> eps.

Section udp.
Context {W : Type} `{NetWorld W}.

Definition udp_forward_packet (w : W) (eps : list udp_endpoint) (pack : packet) : W * list udp_endpoint * Z :=
  match udp_lookup_endpoint eps (port (custom_dest pack)) with
  | None => (w, eps, PACKET_DROPPED)
  | Some e => (net_wakeup w (ue_sock e) VFS_POLL_READ, update_endpoint eps (set_ue_recv e (ue_recv e ++ [pack])), PACKET_DELIVERED)
  end.

(** [ifdev] is what net_if_find gives, [new] the memory from kmalloc. *)
Definition udp_create_endpoint (rand_next : Z) (eps : list udp_endpoint) (ifdev : option (Z * ipv4_address)) (sock : Z)
    (sockaddr : option sockaddr_in) (len new : Z) : option (Z * list udp_endpoint * option Z * Z) :=
  '(rand_next, src, error) ← inet_resolve_address rand_next sockaddr len (snd <$> ifdev);
  if negb (error =? 0) then Some (rand_next, eps, None, error)
  else match udp_lookup_endpoint eps (port src) with
       | Some _ => Some (rand_next, eps, None, EADDRINUSE)
       | None => d ← ifdev; Some (rand_next, eps ++ [UdpEndpoint new sock (fst d) [] src (Ipv4 0 0)], Some new, 0)
       end.

Definition udp_destroy_endpoint (eps : list udp_endpoint) (id : Z) : list udp_endpoint := List.filter (λ e, negb (ue_id e =? id)) eps.

Definition udp_endpoint_connect (e : udp_endpoint) (addr : sockaddr_in) : udp_endpoint * Z := (set_ue_dest e (Ipv4 (sin_addr addr) (sin_port addr)), 0).

(** When no packet could be made, a null pointer is sent. *)
Definition udp_endpoint_send_to (w : W) (e : udp_endpoint) (iter : iovec_iter) (sockaddr : option sockaddr_in) : option (W * iovec_iter * Z) :=
  match sockaddr, port (ue_dest e) =? 0 with
  | None, true => Some (w, iter, ENOTCONN)
  | _, _ =>
      let dest := match sockaddr with Some a => Ipv4 (sin_addr a) (sin_port a) | None => ue_dest e end in
      let nbytes := iovec_iter_remaining iter in
      '(pack, iter) ← udp_create_packet udp_protocol (ue_src e) dest iter;
      pack ← pack;
      w ← net_send w (ue_ifdev e) pack;
      Some (w, iter, s32 nbytes)
  end.

(** The endpoint, the iterator, the address of the sender when [want] says so, and the result. *)
Definition udp_endpoint_recv_from (e : udp_endpoint) (iter : iovec_iter) (want : bool) : option (udp_endpoint * iovec_iter * option (sockaddr_in * Z) * Z) :=
  match ue_recv e with
  | [] => Some (e, iter, None, EWOULDBLOCK)
  | pack :: q =>
      let e := set_ue_recv e q in
      let nbytes := iovec_iter_remaining iter in
      let have := u32 (pack_length pack - data_offset pack) in
      let nbytes := if have <? nbytes then have else nbytes in
      data ← rd_range (pack_data pack) (data_offset pack) nbytes;
      '(iter, _) ← memcpy_into_iter iter data nbytes;
      Some (e, iter, if want then Some (inet_load_sockaddr (custom_src pack)) else None, s32 nbytes)
  end.

Definition udp_endpoint_get_options (e : udp_endpoint) (optname : Z) : option (sockaddr_in * Z) * Z :=
  if optname =? SO_GETSOCKNAME then
    if addr (ue_src e) =? 0 then (None, ENOTCONN) else (Some (inet_load_sockaddr (ue_src e)), 0)
  else if optname =? SO_GETPEERNAME then
    if addr (ue_dest e) =? 0 then (None, ENOTCONN) else (Some (inet_load_sockaddr (ue_dest e)), 0)
  else (None, EINVAL).

Definition udp_endpoint_poll (e : udp_endpoint) (events : Z) : Z :=
  let r := if negb (Z.land events VFS_POLL_READ =? 0) && match ue_recv e with [] => false | _ => true end then VFS_POLL_READ else 0 in
  Z.lor r VFS_POLL_WRITE.
End udp.
