(* ===== verification/Tcp.v ===== *)
(** * Tcp: TCP endpoints (kernel/net/protocol/tcp.c)

    The state machine of an endpoint, with its ring buffers of bytes received
    and of bytes sent and not acknowledged, and its queue of segments received
    out of order (of connections asked for, when it listens).  Header fields
    are read from and written to the bytes of the packet. *)

From S2P Require Import Prelude Queue Result Iovec Ringbuffer Numconv Packet Inet Serial Udp.

Definition TCP_RX_BUFFER : Z := 1024.
Definition TCP_TX_BUFFER : Z := 1024.

Definition ACK : Z := 16.
Definition PSH : Z := 8.
Definition RST : Z := 4.
Definition SYN : Z := 2.
Definition FIN : Z := 1.

Definition TS_CLOSED : Z := 0.
Definition TS_LISTEN : Z := 1.
Definition TS_SYN_SENT : Z := 2.
Definition TS_SYN_RECV : Z := 3.
Definition TS_ESTABLISHED : Z := 4.
Definition TS_FIN_WAIT1 : Z := 5.
Definition TS_FIN_WAIT2 : Z := 6.
Definition TS_CLOSE_WAIT : Z := 7.
Definition TS_CLOSING : Z := 8.
Definition TS_LAST_ACK : Z := 9.
Definition TS_TIME_WAIT : Z := 10.

Record tcp_endpoint := TcpEndpoint {
  te_id : Z;
  te_sock : Z;
  te_ifdev : Z;
  local : ipv4_address;
  remote : ipv4_address;
  queue_size : Z;
  recv_queue : list packet;
  state : Z;
  fin_sent : bool;
  fin_recv : bool;
  listen_queue_max : Z;
  connect_return : Z;
  tx_last_seq : Z;
  rx_last_seq : Z;
  tx_acks_repeated : Z;
  te_rx : ringbuffer;
  te_tx : ringbuffer;
}.

Definition set_te_remote t x := TcpEndpoint (te_id t) (te_sock t) (te_ifdev t) (local t) x (queue_size t) (recv_queue t) (state t) (fin_sent t) (fin_recv t) (listen_queue_max t) (connect_return t) (tx_last_seq t) (rx_last_seq t) (tx_acks_repeated t) (te_rx t) (te_tx t).
Definition set_te_sock t x := TcpEndpoint (te_id t) x (te_ifdev t) (local t) (remote t) (queue_size t) (recv_queue t) (state t) (fin_sent t) (fin_recv t) (listen_queue_max t) (connect_return t) (tx_last_seq t) (rx_last_seq t) (tx_acks_repeated t) (te_rx t) (te_tx t).
Definition set_recv_queue t q n := TcpEndpoint (te_id t) (te_sock t) (te_ifdev t) (local t) (remote t) n q (state t) (fin_sent t) (fin_recv t) (listen_queue_max t) (connect_return t) (tx_last_seq t) (rx_last_seq t) (tx_acks_repeated t) (te_rx t) (te_tx t).
Definition set_state t x := TcpEndpoint (te_id t) (te_sock t) (te_ifdev t) (local t) (remote t) (queue_size t) (recv_queue t) x (fin_sent t) (fin_recv t) (listen_queue_max t) (connect_return t) (tx_last_seq t) (rx_last_seq t) (tx_acks_repeated t) (te_rx t) (te_tx t).
Definition set_fin_sent t := TcpEndpoint (te_id t) (te_sock t) (te_ifdev t) (local t) (remote t) (queue_size t) (recv_queue t) (state t) true (fin_recv t) (listen_queue_max t) (connect_return t) (tx_last_seq t) (rx_last_seq t) (tx_acks_repeated t) (te_rx t) (te_tx t).
Definition set_fin_recv t := TcpEndpoint (te_id t) (te_sock t) (te_ifdev t) (local t) (remote t) (queue_size t) (recv_queue t) (state t) (fin_sent t) true (listen_queue_max t) (connect_return t) (tx_last_seq t) (rx_last_seq t) (tx_acks_repeated t) (te_rx t) (te_tx t).
Definition set_listen_max t x := TcpEndpoint (te_id t) (te_sock t) (te_ifdev t) (local t) (remote t) (queue_size t) (recv_queue t) (state t) (fin_sent t) (fin_recv t) x (connect_return t) (tx_last_seq t) (rx_last_seq t) (tx_acks_repeated t) (te_rx t) (te_tx t).
Definition set_connect_return t x := TcpEndpoint (te_id t) (te_sock t) (te_ifdev t) (local t) (remote t) (queue_size t) (recv_queue t) (state t) (fin_sent t) (fin_recv t) (listen_queue_max t) x (tx_last_seq t) (rx_last_seq t) (tx_acks_repeated t) (te_rx t) (te_tx t).
Definition set_tx_last t x := TcpEndpoint (te_id t) (te_sock t) (te_ifdev t) (local t) (remote t) (queue_size t) (recv_queue t) (state t) (fin_sent t) (fin_recv t) (listen_queue_max t) (connect_return t) x (rx_last_seq t) (tx_acks_repeated t) (te_rx t) (te_tx t).
Definition set_rx_last t x := TcpEndpoint (te_id t) (te_sock t) (te_ifdev t) (local t) (remote t) (queue_size t) (recv_queue t) (state t) (fin_sent t) (fin_recv t) (listen_queue_max t) (connect_return t) (tx_last_seq t) x (tx_acks_repeated t) (te_rx t) (te_tx t).
Definition set_acks t x := TcpEndpoint (te_id t) (te_sock t) (te_ifdev t) (local t) (remote t) (queue_size t) (recv_queue t) (state t) (fin_sent t) (fin_recv t) (listen_queue_max t) (connect_return t) (tx_last_seq t) (rx_last_seq t) x (te_rx t) (te_tx t).
Definition set_te_rx t x := TcpEndpoint (te_id t) (te_sock t) (te_ifdev t) (local t) (remote t) (queue_size t) (recv_queue t) (state t) (fin_sent t) (fin_recv t) (listen_queue_max t) (connect_return t) (tx_last_seq t) (rx_last_seq t) (tx_acks_repeated t) x (te_tx t).
Definition set_te_tx t x := TcpEndpoint (te_id t) (te_sock t) (te_ifdev t) (local t) (remote t) (queue_size t) (recv_queue t) (state t) (fin_sent t) (fin_recv t) (listen_queue_max t) (connect_return t) (tx_last_seq t) (rx_last_seq t) (tx_acks_repeated t) (te_rx t) x.

(** ** Segments *)

Definition has (flags bit : Z) : bool := negb (Z.land flags bit =? 0).

(** The header fields of a packet. *)
Definition hdr_seqnum (pack : packet) : option Z := get32 (pack_data pack) (transport_offset pack + 4).
Definition hdr_acknum (pack : packet) : option Z := get32 (pack_data pack) (transport_offset pack + 8).
Definition hdr_flags (pack : packet) : option Z := w ← get16 (pack_data pack) (transport_offset pack + 12); Some (Z.land w 4095).

Definition tcp_setup_packet (pack : packet) (src dest : ipv4_address) (length : Z) : option (packet * Z) :=
  '(pack, error) ← ipv4_encode_header pack src dest (TCP_HEADER + length);
  if negb (error =? 0) then Some (pack, error)
  else
    let o := pack_length pack in
    let pack := set_length (set_transport pack o) (u16 (o + TCP_HEADER)) in
    d ← wr_range (pack_data pack) o (replicate 20 0);
    d ← put16 d o (port src);
    d ← put16 d (o + 2) (port dest);
    d ← put16 d (o + 12) (Z.shiftl 5 12);
    Some (set_data_offset (set_pack_data pack d) (pack_length pack), 0).

Definition tcp_create_empty_packet (q : protocol) (src dest : ipv4_address) (nbytes : Z) : option (option packet) :=
  '(pack, error) ← tcp_setup_packet (packet_alloc 0 (Some q) (u32 (nbytes + 100))) src dest nbytes;
  Some (if negb (error =? 0) then None else Some pack).

(** The part of tcp_finalize_and_send_packet before the packet is sent. *)
Definition tcp_finalize_packet (q : protocol) (pack : packet) : option packet :=
  let o := transport_offset pack in
  d ← put16 (pack_data pack) (o + 14) 65535;
  d ← put16 d (o + 16) 65535;
  checksum ← tcp_calculate_checksum q (set_pack_data pack d);
  d ← put16 d (o + 16) checksum;
  Some (set_pack_data pack d).

Section tcp.
Context {W : Type} `{NetWorld W}.

Definition tcp_finalize_and_send_packet (w : W) (t : tcp_endpoint) (pack : packet) : option W :=
  pack ← tcp_finalize_packet tcp_protocol pack; net_send w (te_ifdev t) pack.

(** Its result, that of the interface, is not used. *)
Definition tcp_send_packet (w : W) (t : tcp_endpoint) (flags nbytes ackbytes : Z) : option (W * tcp_endpoint) :=
  let nbytes := if has flags PSH && (nbytes =? -1) then _buf_used_space (te_tx t) else nbytes in
  pack ← tcp_create_empty_packet tcp_protocol (local t) (remote t) nbytes;
  pack ← pack;
  let o := transport_offset pack in
  d ← put16 (pack_data pack) (o + 12) (Z.lor (Z.shiftl 5 12) flags);
  let t := if has flags ACK then set_rx_last t (u32 (rx_last_seq t + ackbytes)) else t in
  d ← (if has flags ACK then put32 d (o + 8) (rx_last_seq t) else Some d);
  if has flags PSH then
    d ← put32 d (o + 4) (u32 (tx_last_seq t - nbytes));
    dest ← rd_range d (pack_length pack) (zlen d - pack_length pack);
    '(dest, _) ← _buf_peek (te_tx t) dest (s16 (_buf_used_space (te_tx t) - nbytes)) (s16 nbytes);
    d ← wr_range d (pack_length pack) dest;
    w ← tcp_finalize_and_send_packet w t (set_length (set_pack_data pack d) (u16 (pack_length pack + nbytes)));
    Some (w, t)
  else
    d ← put32 d (o + 4) (tx_last_seq t);
    let t := if (flags =? SYN) || has flags FIN then set_tx_last t (u32 (tx_last_seq t + 1)) else t in
    w ← tcp_finalize_and_send_packet w t (set_pack_data pack d);
    Some (w, t).

(** ** Endpoints *)

Fixpoint tcp_lookup_endpoint (eps : list tcp_endpoint) (loc : ipv4_address) (rem : option ipv4_address) : option tcp_endpoint :=
  match eps with
  | [] => None
  | cur :: eps =>
      if (port (local cur) =? port loc) &&
         ((state cur =? TS_LISTEN) ||
          match rem with Some r => (addr (remote cur) =? addr r) && (port (remote cur) =? port r) | None => false end)
      then Some cur else tcp_lookup_endpoint eps loc rem
  end.

Definition new_ring (size : Z) : ringbuffer := _buf_init (mk_rb 0 0 0 (replicate (Z.to_nat (size - 6)) 0)) size.

(** tcp_alloc_endpoint puts the new endpoint, at [new], before the others. *)
Definition tcp_alloc_endpoint (new sock ifdev : Z) (loc : ipv4_address) (rem : option ipv4_address) : tcp_endpoint :=
  TcpEndpoint new sock ifdev loc (match rem with Some r => r | None => Ipv4 0 0 end) 0 [] TS_CLOSED false false 0 0 0 0 0
    (new_ring TCP_RX_BUFFER) (new_ring TCP_TX_BUFFER).

Definition tcp_create_endpoint (rand_next : Z) (eps : list tcp_endpoint) (ifdev : option (Z * ipv4_address)) (sock : Z)
    (sockaddr : option sockaddr_in) (len new : Z) : option (Z * list tcp_endpoint * option Z * Z) :=
  '(rand_next, src, error) ← inet_resolve_address rand_next sockaddr len (snd <$> ifdev);
  if negb (error =? 0) then Some (rand_next, eps, None, error)
  else match tcp_lookup_endpoint eps src None with
       | Some _ => Some (rand_next, eps, None, EADDRINUSE)
       | None => d ← ifdev; Some (rand_next, tcp_alloc_endpoint new sock (fst d) src None :: eps, Some new, 0)
       end.

Definition tcp_destroy_endpoint (w : W) (eps : list tcp_endpoint) (t : tcp_endpoint) : option (W * list tcp_endpoint) :=
  '(w, _) ← (if negb (addr (remote t) =? 0) && negb (state t =? TS_CLOSED) && negb (state t =? TS_CLOSING) && negb (fin_sent t)
             then tcp_send_packet w t (Z.lor RST ACK) 0 0 else Some (w, t));
  Some (w, List.filter (λ e, negb (te_id e =? te_id t)) eps).

Definition tcp_endpoint_listen (t : tcp_endpoint) (queue : Z) : tcp_endpoint * Z :=
  if negb (state t =? TS_CLOSED) then (t, EISCONN)
  else (set_state (set_listen_max t (s8 (if queue <? 10 then queue else 10))) TS_LISTEN, 0).

(** The endpoint made for the connection that [pack] asks for. *)
Definition tcp_create_client_endpoint (w : W) (rand_next : Z) (t : tcp_endpoint) (pack : packet) (new : Z) : option (W * Z * tcp_endpoint) :=
  seq ← hdr_seqnum pack;
  let '(rand_next, r) := rand rand_next in
  let c := tcp_alloc_endpoint new 0 (ifdev pack) (local t) (Some (custom_src pack)) in
  let c := set_tx_last (set_rx_last (set_state c TS_SYN_RECV) seq) (u32 r) in
  '(w, c) ← tcp_send_packet w c (Z.lor SYN ACK) 0 1;
  Some (w, rand_next, c).

(** The listening endpoint, the one accepted (to go before the others) and the result. *)
Definition tcp_endpoint_accept (w : W) (rand_next : Z) (t : tcp_endpoint) (new : Z) : option (W * Z * tcp_endpoint * option tcp_endpoint * Z) :=
  if negb (state t =? TS_LISTEN) then Some (w, rand_next, t, None, EINVAL)
  else match recv_queue t with
       | [] => Some (w, rand_next, t, None, EWOULDBLOCK)
       | pack :: q =>
           let t := set_recv_queue t q (s32 (queue_size t - 1)) in
           '(w, rand_next, c) ← tcp_create_client_endpoint w rand_next t pack new;
           Some (w, rand_next, t, Some c, 0)
       end.

Definition tcp_endpoint_connect (w : W) (rand_next : Z) (t : tcp_endpoint) (a : sockaddr_in) : option (W * Z * tcp_endpoint * Z) :=
  if (state t =? TS_ESTABLISHED) && negb (connect_return t =? 0) then Some (w, rand_next, t, if connect_return t <? 0 then connect_return t else 0)
  else if negb (state t =? TS_CLOSED) then Some (w, rand_next, t, EISCONN)
  else
    let '(rand_next, r) := rand rand_next in
    let t := set_acks (set_tx_last (set_te_remote t (Ipv4 (sin_addr a) (sin_port a))) (u32 r)) 0 in
    '(w, t) ← tcp_send_packet w t SYN 0 1;
    Some (w, rand_next, set_state t TS_SYN_SENT, EWOULDBLOCK).

Definition tcp_endpoint_shutdown (w : W) (t : tcp_endpoint) : option (W * tcp_endpoint * Z) :=
  if negb (state t =? TS_SYN_RECV) && negb (state t =? TS_ESTABLISHED) && negb (state t =? TS_CLOSE_WAIT) then Some (w, t, 0)
  else
    '(w, t) ← tcp_send_packet w (set_fin_sent t) (Z.lor FIN ACK) 0 0;
    Some (w, set_state t (if state t =? TS_CLOSE_WAIT then TS_LAST_ACK else TS_FIN_WAIT1), 0).

Definition tcp_endpoint_send (w : W) (t : tcp_endpoint) (iter : iovec_iter) : option (W * tcp_endpoint * iovec_iter * Z) :=
  if port (remote t) =? 0 then Some (w, t, iter, ENOTCONN)
  else if negb (state t =? TS_ESTABLISHED) || (u32 (_buf_free_space (te_tx t)) <? iovec_iter_remaining iter) then Some (w, t, iter, EWOULDBLOCK)
  else
    '(tx, iter, nbytes) ← _buf_put_iter (te_tx t) iter;
    let t := set_tx_last (set_te_tx t tx) (u32 (tx_last_seq t + nbytes)) in
    '(w, t) ← tcp_send_packet w t (Z.lor PSH ACK) nbytes 0;
    Some (w, t, iter, s32 nbytes).

Definition tcp_endpoint_recv (t : tcp_endpoint) (iter : iovec_iter) : option (tcp_endpoint * iovec_iter * Z) :=
  if state t =? TS_CLOSED then Some (t, iter, 0)
  else if state t =? TS_LISTEN then Some (t, iter, EINVAL)
  else if (state t =? TS_SYN_SENT) || (state t =? TS_SYN_RECV) then Some (t, iter, EWOULDBLOCK)
  else
    '(rx, iter, nbytes) ← _buf_get_iter (te_rx t) iter;
    let t := set_te_rx t rx in
    if (nbytes =? 0) && negb (fin_recv t) then Some (t, iter, EWOULDBLOCK) else Some (t, iter, s32 nbytes).

Definition tcp_endpoint_poll (t : tcp_endpoint) (events : Z) : Z :=
  let r := if has events VFS_POLL_READ &&
              (((state t =? TS_ESTABLISHED) && negb (_buf_is_empty (te_rx t))) ||
               ((state t =? TS_LISTEN) && match recv_queue t with [] => false | _ => true end) ||
               ((state t =? TS_CLOSED) || (TS_FIN_WAIT1 <=? state t))) then VFS_POLL_READ else 0 in
  if has events VFS_POLL_WRITE && negb (_buf_is_full (te_tx t)) then Z.lor r VFS_POLL_WRITE else r.

Definition tcp_endpoint_get_options (t : tcp_endpoint) (optname : Z) : option (sockaddr_in * Z) * Z :=
  if optname =? SO_GETSOCKNAME then
    if addr (local t) =? 0 then (None, ENOTCONN) else (Some (inet_load_sockaddr (local t)), 0)
  else if optname =? SO_GETPEERNAME then
    if addr (remote t) =? 0 then (None, ENOTCONN) else (Some (inet_load_sockaddr (remote t)), 0)
  else (None, EINVAL).

(** ** Segments received *)

(** tcp_queue_packet: before the first segment of a higher number. *)
Fixpoint tcp_queue_insert (seq : Z) (pack : packet) (q : list packet) : option (list packet) :=
  match q with
  | [] => Some [pack]
  | cur :: q' =>
      s ← hdr_seqnum cur;
      if seq <? s then Some (pack :: q) else q'' ← tcp_queue_insert seq pack q'; Some (cur :: q'')
  end.

Definition tcp_queue_packet (t : tcp_endpoint) (pack : packet) : option tcp_endpoint :=
  seq ← hdr_seqnum pack;
  q ← tcp_queue_insert seq pack (recv_queue t);
  Some (set_recv_queue t q (queue_size t)).

(** tcp_check_waiting_packet, from the segments [q] on, which are the queue. *)
Fixpoint tcp_check_waiting (t : tcp_endpoint) (q : list packet) : option (tcp_endpoint * Z) :=
  match q with
  | [] => Some (set_recv_queue t [] (queue_size t), 1)
  | cur :: q' =>
      seq ← hdr_seqnum cur;
      if rx_last_seq t <? seq then Some (set_recv_queue t q (queue_size t), 1)
      else
        let length := pack_length cur - data_offset cur in
        if rx_last_seq t <? u32 (seq + length) then
          let index := s32 (rx_last_seq t - seq) in
          let length := s32 (length - index) in
          data ← rd_range (pack_data cur) (data_offset cur + index) length;
          '(rx, n) ← _buf_put (te_rx t) data (s16 length);
          let t := set_rx_last (set_te_rx t rx) (u32 (rx_last_seq t + n)) in
          if n <? length then Some (set_recv_queue t q (queue_size t), 0) else tcp_check_waiting t q'
        else tcp_check_waiting t q'
  end.

Definition tcp_check_waiting_packet (t : tcp_endpoint) : option (tcp_endpoint * Z) := tcp_check_waiting t (recv_queue t).

Definition tcp_check_close (w : W) (t : tcp_endpoint) (pack : packet) : option (W * tcp_endpoint * Z) :=
  flags ← hdr_flags pack;
  seq ← hdr_seqnum pack;
  ack ← hdr_acknum pack;
  '(w, t, ret) ←
    (if has flags RST then
       '(w, t) ← tcp_send_packet w (set_state (set_fin_recv t) TS_CLOSING) (Z.lor RST ACK) 0 1;
       Some (net_wakeup w (te_sock t) VFS_POLL_READ, t, PACKET_DELIVERED)
     else Some (w, t, PACKET_DROPPED));
  if has flags FIN && negb (seq =? rx_last_seq t) then Some (w, set_fin_recv t, PACKET_DROPPED)
  else
    '(w, t, ret) ←
      (if has flags FIN then
         let t := set_fin_recv t in
         let t := set_state t (if state t =? TS_ESTABLISHED then TS_CLOSE_WAIT else TS_CLOSING) in
         '(w, t) ← tcp_send_packet w t ACK 0 1;
         Some (net_wakeup w (te_sock t) VFS_POLL_READ, t, PACKET_DELIVERED)
       else Some (w, t, ret));
    if fin_sent t && has flags ACK && (ack =? tx_last_seq t) then Some (w, set_state t TS_CLOSED, PACKET_DELIVERED)
    else Some (w, t, ret).

Definition tcp_forward_listen (w : W) (t : tcp_endpoint) (pack : packet) : option (W * tcp_endpoint * Z) :=
  flags ← hdr_flags pack;
  if negb (flags =? SYN) then Some (w, t, PACKET_DROPPED)
  else if listen_queue_max t <=? queue_size t then Some (w, t, PACKET_DROPPED)
  else Some (net_wakeup w (te_sock t) VFS_POLL_READ, set_recv_queue t (recv_queue t ++ [pack]) (s32 (queue_size t + 1)), PACKET_DELIVERED).

Definition tcp_forward_syn_recv (w : W) (t : tcp_endpoint) (pack : packet) : option (W * tcp_endpoint * Z) :=
  '(w, t, ret) ← tcp_check_close w t pack;
  if ret =? PACKET_DELIVERED then Some (w, t, PACKET_DELIVERED)
  else
    flags ← hdr_flags pack;
    seq ← hdr_seqnum pack;
    ack ← hdr_acknum pack;
    if negb (flags =? ACK) then Some (w, t, PACKET_DROPPED)
    else if negb (seq =? rx_last_seq t) then Some (w, t, PACKET_DROPPED)
    else Some (net_wakeup w (te_sock t) VFS_POLL_READ, set_state (set_acks (set_tx_last t ack) 0) TS_ESTABLISHED, PACKET_DELIVERED).

Definition tcp_forward_syn_sent (w : W) (t : tcp_endpoint) (pack : packet) : option (W * tcp_endpoint * Z) :=
  '(w, t, ret) ← tcp_check_close w t pack;
  if ret =? PACKET_DELIVERED then Some (w, t, PACKET_DELIVERED)
  else
    flags ← hdr_flags pack;
    seq ← hdr_seqnum pack;
    ack ← hdr_acknum pack;
    if negb (flags =? Z.lor SYN ACK) then Some (w, t, PACKET_DROPPED)
    else if negb (ack =? tx_last_seq t) then Some (w, t, PACKET_DROPPED)
    else
      '(w, t) ← tcp_send_packet w (set_state (set_rx_last t seq) TS_ESTABLISHED) ACK 0 1;
      Some (net_wakeup w (te_sock t) VFS_POLL_READ, set_connect_return t 1, PACKET_DELIVERED).

(** The acknowledgement in [ack]: what it covers is dropped, and what it does
    not cover sent again when that has happened three times. *)
Definition tcp_take_ack (w : W) (t : tcp_endpoint) (ack : Z) : option (W * tcp_endpoint) :=
  let last_acked := s32 (tx_last_seq t - _buf_used_space (te_tx t)) in
  let '(w, t, last_acked) :=
    if u32 last_acked <? ack then
      let '(tx, _) := _buf_drop (te_tx t) (s16 (ack - last_acked)) in
      (net_wakeup w (te_sock t) VFS_POLL_WRITE, set_te_tx (set_acks t 0) tx, s32 ack)
    else (w, t, last_acked) in
  if u32 last_acked <? tx_last_seq t then
    let t := set_acks t (s16 (tx_acks_repeated t + 1)) in
    if 3 <=? tx_acks_repeated t then tcp_send_packet w (set_acks t 0) (Z.lor PSH ACK) (-1) 0 else Some (w, t)
  else Some (w, t).

Definition tcp_forward_established (w : W) (t : tcp_endpoint) (pack : packet) : option (W * tcp_endpoint * Z) :=
  '(w, t, ret) ← tcp_check_close w t pack;
  if ret =? PACKET_DELIVERED then Some (w, t, PACKET_DELIVERED)
  else
    flags ← hdr_flags pack;
    ack ← hdr_acknum pack;
    '(w, t) ← (if has flags ACK then tcp_take_ack w t ack else Some (w, t));
    if 0 <? pack_length pack - data_offset pack then
      t ← tcp_queue_packet t pack;
      '(t, all) ← tcp_check_waiting_packet t;
      '(w, t) ← (if all =? 0 then Some (w, t) else tcp_send_packet w t ACK 0 0);
      let w := if negb (te_sock t =? 0) && negb (_buf_is_empty (te_rx t)) then net_wakeup w (te_sock t) VFS_POLL_READ else w in
      Some (w, t, PACKET_DELIVERED)
    else Some (w, t, PACKET_DELIVERED).

Definition tcp_forward_closing (w : W) (t : tcp_endpoint) (pack : packet) : option (W * tcp_endpoint * Z) :=
  '(w, t, ret) ← tcp_check_close w t pack;
  Some (w, t, if ret =? PACKET_DELIVERED then PACKET_DELIVERED else PACKET_DROPPED).

(** The handler of the state of the endpoint. *)
Definition tcp_forward_state (w : W) (t : tcp_endpoint) (pack : packet) : option (W * tcp_endpoint * Z) :=
  if state t =? TS_CLOSED then Some (w, t, PACKET_DROPPED)
  else if state t =? TS_LISTEN then tcp_forward_listen w t pack
  else if state t =? TS_SYN_SENT then tcp_forward_syn_sent w t pack
  else if state t =? TS_SYN_RECV then tcp_forward_syn_recv w t pack
  else if state t =? TS_ESTABLISHED then tcp_forward_established w t pack
  else if (TS_FIN_WAIT1 <=? state t) && (state t <=? TS_TIME_WAIT) then tcp_forward_closing w t pack
  else Some (w, t, PACKET_DROPPED).

Definition update_tcp (eps : list tcp_endpoint) (t : tcp_endpoint) : list tcp_endpoint := (λ x, if te_id x =? te_id t then t else x) <$> eps.

Definition tcp_forward_packet (w : W) (eps : list tcp_endpoint) (pack : packet) : option (W * list tcp_endpoint * Z) :=
  match tcp_lookup_endpoint eps (custom_dest pack) (Some (custom_src pack)) with
  | None => Some (w, eps, PACKET_DROPPED)
  | Some t => '(w, t, ret) ← tcp_forward_state w t pack; Some (w, update_tcp eps t, ret)
  end.
End tcp.
