(* ===== verification/Tcpwire.v ===== *)
(** * Tcpwire: the segments that endpoints send and receive

    tcp_send_packet makes one packet, whose bytes are given here; decoded at
    the other end it has the same fields and data. *)

From S2P Require Import Prelude Queue Result Iovec Ringbuffer Numconv Packet Inet Slip Slipinv Serial Udp Tcp.

Definition tcp_bytes (sport dport seq ack flags window checksum : Z) : list Z :=
  bytes16 sport ++ bytes16 dport ++ bytes32 seq ++ bytes32 ack ++ bytes16 (20480 + flags) ++ bytes16 window ++ bytes16 checksum ++ bytes16 0.
Definition tcp_sum (src dest : ipv4_address) (seq ack flags : Z) (data : list Z) : Z :=
  65535 - norm (pseudo IPPROTO_TCP (addr src) (addr dest) (20 + zlen data) + sum (words (tcp_bytes (port src) (port dest) seq ack flags 65535 0 ++ data))).
Definition tcp_wire (src dest : ipv4_address) (seq ack flags : Z) (data : list Z) : list Z :=
  let total := 40 + zlen data in
  ipv4_bytes IPPROTO_TCP total (addr src) (addr dest) (ipv4_sum IPPROTO_TCP total (addr src) (addr dest)) ++
  tcp_bytes (port src) (port dest) seq ack flags 65535 (tcp_sum src dest seq ack flags data) ++ data.

Lemma tcp_bytes_ok sp dp seq ack flags win c : bytes_ok (tcp_bytes sp dp seq ack flags win c).
Proof. repeat (apply Forall_app; split); apply net16_ok || apply net32_ok. Qed.

(** The checksum is taken over a field of all ones, which sums like zero. *)
Lemma norm_ones s : 0 < s → norm (s + 65535) = norm s.
Proof. intros Hs. destruct (norm_spec s ltac:(lia)) as (q & E & Hr & H0). apply (norm_unique _ _ (q + 1)); lia. Qed.

Lemma tcp_words sp dp seq ack flags win c data : sum (words (tcp_bytes sp dp seq ack flags win c ++ data)) =
  sum (words (tcp_bytes sp dp seq ack flags win 0 ++ data)) + (c / 256 mod 256 * 256 + c mod 256).
Proof.
  rewrite !(words_app 10) by done. rewrite !sum_app. unfold tcp_bytes, bytes32, bytes16. cbn [app words]. unfold sum. cbn [foldr].
  change (0 / 256 mod 256 * 256 + 0 mod 256) with 0. lia.
Qed.

Lemma pseudo_pos num src dest len : 0 < num → 0 ≤ len → 0 ≤ addr src → 0 ≤ addr dest → 0 < pseudo num (addr src) (addr dest) len.
Proof.
  intros Hn Hl Hs Hd. unfold pseudo. pose proof (Z.div_pos (addr src) 65536 Hs ltac:(lia)). pose proof (Z.div_pos (addr dest) 65536 Hd ltac:(lia)).
  pose proof (Z.mod_pos_bound (addr src) 65536 ltac:(lia)). pose proof (Z.mod_pos_bound (addr dest) 65536 ltac:(lia)). lia.
Qed.

(** tcp_calculate_checksum, with the field zero or all ones. *)
Lemma tcp_sum_ok src dest seq ack flags c data pre post pack : address_ok src → address_ok dest → bytes_ok pre → bytes_ok data → bytes_ok post → zlen data < 65000 →
  c = 0 ∨ c = 65535 → custom_src pack = src → custom_dest pack = dest → transport_offset pack = zlen pre → pack_length pack = zlen pre + 20 + zlen data →
  pack_data pack = pre ++ (tcp_bytes (port src) (port dest) seq ack flags 65535 c ++ data) ++ post →
  tcp_calculate_checksum tcp_protocol pack = Some (tcp_sum src dest seq ack flags data).
Proof.
  intros Hs Hd Hpre Hdat Hpost Hl Hc E1 E2 E3 E4 E5. unfold tcp_calculate_checksum. change (protocol_num tcp_protocol) with IPPROTO_TCP.
  destruct (pseudo_ok IPPROTO_TCP src dest (20 + zlen data) pack) as [-> Hr]; try done; try (unfold IPPROTO_TCP; lia).
  rewrite E3, E4, E5. replace (zlen pre + 20 + zlen data - zlen pre) with (zlen (tcp_bytes (port src) (port dest) seq ack flags 65535 c ++ data)) by (rewrite length_app; simpl; lia).
  rewrite transport_sum_ok; [| |rewrite length_app; simpl; lia|lia].
  2: { apply Forall_app; split; [done|]. apply Forall_app; split; [|done]. apply Forall_app; split; [apply tcp_bytes_ok|done]. }
  f_equal. unfold tcp_sum. f_equal. rewrite tcp_words. destruct Hc as [->| ->]; [by rewrite Z.add_0_r|].
  change (65535 / 256 mod 256 * 256 + 65535 mod 256) with 65535. rewrite Z.add_assoc. apply norm_ones.
  pose proof (pseudo_pos IPPROTO_TCP src dest (20 + zlen data) ltac:(unfold IPPROTO_TCP; lia) ltac:(lia) ltac:(apply Hs) ltac:(apply Hd)).
  destruct (words_ok (tcp_bytes (port src) (port dest) seq ack flags 65535 0 ++ data)) as [Hw _]; [apply Forall_app; split; [apply tcp_bytes_ok|done]|].
  pose proof (sum_pos _ Hw). lia.
Qed.

Lemma tcp_sum_range src dest seq ack flags data : address_ok src → address_ok dest → bytes_ok data → 0 ≤ tcp_sum src dest seq ack flags data < 65536.
Proof.
  intros Hs Hd Hb. unfold tcp_sum. apply norm_range.
  pose proof (pseudo_pos IPPROTO_TCP src dest (20 + zlen data) ltac:(unfold IPPROTO_TCP; lia) ltac:(lia) ltac:(apply Hs) ltac:(apply Hd)).
  destruct (words_ok (tcp_bytes (port src) (port dest) seq ack flags 65535 0 ++ data)) as [Hw _]; [apply Forall_app; split; [apply tcp_bytes_ok|done]|].
  pose proof (sum_pos _ Hw). lia.
Qed.

Lemma put_tcp_sum pre sp dp seq ack flags win c c' post : put16 (pre ++ tcp_bytes sp dp seq ack flags win c ++ post) (zlen pre + 16) c' = Some (pre ++ tcp_bytes sp dp seq ack flags win c' ++ post).
Proof. rewrite put16_mid by (simpl; lia). done. Qed.
Lemma put_tcp_window pre sp dp seq ack flags win c win' post : put16 (pre ++ tcp_bytes sp dp seq ack flags win c ++ post) (zlen pre + 14) win' = Some (pre ++ tcp_bytes sp dp seq ack flags win' c ++ post).
Proof. rewrite put16_mid by (simpl; lia). done. Qed.
Lemma put_tcp_flags pre sp dp seq ack flags win c v post : put16 (pre ++ tcp_bytes sp dp seq ack flags win c ++ post) (zlen pre + 12) (20480 + v) = Some (pre ++ tcp_bytes sp dp seq ack v win c ++ post).
Proof. rewrite put16_mid by (simpl; lia). done. Qed.
Lemma put_tcp_ack pre sp dp seq ack flags win c v post : put32 (pre ++ tcp_bytes sp dp seq ack flags win c ++ post) (zlen pre + 8) v = Some (pre ++ tcp_bytes sp dp seq v flags win c ++ post).
Proof. rewrite put32_mid by (simpl; lia). done. Qed.
Lemma put_tcp_seq pre sp dp seq ack flags win c v post : put32 (pre ++ tcp_bytes sp dp seq ack flags win c ++ post) (zlen pre + 4) v = Some (pre ++ tcp_bytes sp dp v ack flags win c ++ post).
Proof. rewrite put32_mid by (simpl; lia). done. Qed.

Lemma tcp_fields pre sp dp seq ack flags win c post : 0 ≤ sp < 65536 → 0 ≤ dp < 65536 → 0 ≤ seq < 2 ^ 32 → 0 ≤ ack < 2 ^ 32 → 0 ≤ flags < 4096 → 0 ≤ c < 65536 →
  let d := pre ++ tcp_bytes sp dp seq ack flags win c ++ post in
  get16 d (zlen pre) = Some sp ∧ get16 d (zlen pre + 2) = Some dp ∧ get32 d (zlen pre + 4) = Some seq ∧ get32 d (zlen pre + 8) = Some ack ∧
  get16 d (zlen pre + 12) = Some (20480 + flags) ∧ get16 d (zlen pre + 16) = Some c ∧ ∃ v, rd d (zlen pre + 12) = Some v ∧ Z.shiftr v 4 = 5.
Proof.
  intros H1 H2 H3 H4 H5 H6 d. unfold d, tcp_bytes. split_and!.
  - rewrite <- (Z.add_0_r (zlen pre)), get16_mid by (simpl; lia). by apply (get16_bytes sp [] (bytes16 dp ++ bytes32 seq ++ bytes32 ack ++ bytes16 (20480 + flags) ++ bytes16 win ++ bytes16 c ++ bytes16 0)).
  - rewrite get16_mid by (simpl; lia). by apply (get16_bytes dp (bytes16 sp) (bytes32 seq ++ bytes32 ack ++ bytes16 (20480 + flags) ++ bytes16 win ++ bytes16 c ++ bytes16 0)).
  - rewrite get32_mid by (simpl; lia). by apply (get32_bytes seq (bytes16 sp ++ bytes16 dp) (bytes32 ack ++ bytes16 (20480 + flags) ++ bytes16 win ++ bytes16 c ++ bytes16 0)).
  - rewrite get32_mid by (simpl; lia). by apply (get32_bytes ack (bytes16 sp ++ bytes16 dp ++ bytes32 seq) (bytes16 (20480 + flags) ++ bytes16 win ++ bytes16 c ++ bytes16 0)).
  - rewrite get16_mid by (simpl; lia). apply (get16_bytes (20480 + flags) (bytes16 sp ++ bytes16 dp ++ bytes32 seq ++ bytes32 ack) (bytes16 win ++ bytes16 c ++ bytes16 0)); [done|lia].
  - rewrite get16_mid by (simpl; lia). by apply (get16_bytes c (bytes16 sp ++ bytes16 dp ++ bytes32 seq ++ bytes32 ack ++ bytes16 (20480 + flags) ++ bytes16 win) (bytes16 0)).
  - exists ((20480 + flags) / 256 mod 256). split; [rewrite rd_mid by (simpl; lia); done|].
    rewrite Z.mod_small by (split; [apply Z.div_pos; lia|apply Z.div_lt_upper_bound; lia]). rewrite Z.shiftr_div_pow2, Z.div_div by lia.
    symmetry. apply (Z.div_unique _ _ 5 flags); lia.
Qed.

(** ** Receiving a segment *)

Lemma tcp_decode_ok pack src dest seq ack flags data pre post : address_ok src → address_ok dest → bytes_ok pre → bytes_ok data → bytes_ok post → zlen data < 65000 →
  zlen pre < 400 → 0 ≤ seq < 2 ^ 32 → 0 ≤ ack < 2 ^ 32 → 0 ≤ flags < 4096 →
  addr (custom_src pack) = addr src → addr (custom_dest pack) = addr dest → pack_length pack = zlen pre + 20 + zlen data →
  pack_data pack = pre ++ tcp_bytes (port src) (port dest) seq ack flags 65535 (tcp_sum src dest seq ack flags data) ++ data ++ post →
  tcp_decode_header tcp_protocol pack (zlen pre) =
    Some (Packet (proto pack) (ifdev pack) (network_offset pack) (zlen pre) (zlen pre + 20) src dest (pack_length pack) (capacity pack) (pack_data pack), 0).
Proof.
  intros Hs Hd Hpre Hdat Hpost Hl Hpl Hseq Hack Hfl E1 E2 E3 E4. unfold tcp_decode_header. pose proof (tcp_sum_range src dest seq ack flags data Hs Hd Hdat) as Hc.
  rewrite u32_small by lia. destruct (Z.ltb_spec (pack_length pack - zlen pre) TCP_HEADER) as [Hx|_]; [unfold TCP_HEADER in Hx; lia|]. rewrite E4.
  destruct (tcp_fields pre (port src) (port dest) seq ack flags 65535 (tcp_sum src dest seq ack flags data) (data ++ post)) as (F1 & F2 & _ & _ & _ & F6 & v & F7 & F8); try done; [apply Hs|apply Hd|].
  rewrite F1, bind_some, F2, bind_some, F7, bind_some, F6, bind_some, F8. clear F1 F2 F6 F7 F8.
  cbn [pack_data set_custom set_data_offset set_transport]. rewrite E4, put_tcp_sum, bind_some.
  rewrite (tcp_sum_ok src dest seq ack flags 0 data pre post); try done; cycle 1.
  { by left. } { simpl. rewrite E1. by destruct src. } { simpl. rewrite E2. by destruct dest. }
  rewrite bind_some, Z.eqb_refl. cbn [negb]. rewrite put_tcp_sum, bind_some, <- E4. unfold set_pack_data, set_custom, set_data_offset, set_transport.
  cbn [proto ifdev network_offset transport_offset data_offset custom_src custom_dest pack_length capacity pack_data]. rewrite E1, E2.
  replace (u16 (zlen pre + Z.shiftl 5 2)) with (zlen pre + 20) by (change (Z.shiftl 5 2) with 20; rewrite u16_small; lia). by destruct src, dest.
Qed.

(** A segment as tcp_forward_packet gets it, with [post] after the data in its buffer. *)
Definition segment_in (src dest : ipv4_address) (seq ack flags : Z) (data post : list Z) (cap : Z) : packet :=
  Packet (Some tcp_protocol) SLIP0 0 20 40 src dest (40 + zlen data) cap (tcp_wire src dest seq ack flags data ++ post).

Lemma registered_tcp : net_get_protocol registered PF_INET 0 IPPROTO_TCP = Some tcp_protocol.
Proof. reflexivity. Qed.
Lemma registered_udp : net_get_protocol registered PF_INET 0 IPPROTO_UDP = Some udp_protocol.
Proof. reflexivity. Qed.

(** What arrives over the interface: a packet with these bytes, and room after them. *)
Definition arrival (l : list Z) (post : list Z) (cap : Z) : packet := Packet (Some ipv4_protocol) SLIP0 0 0 0 (Ipv4 0 0) (Ipv4 0 0) (zlen l) cap (l ++ post).

Lemma tcp_arrives fuel src dest seq ack flags data post cap : address_ok src → address_ok dest → bytes_ok data → bytes_ok post → zlen data < 65000 →
  0 ≤ seq < 2 ^ 32 → 0 ≤ ack < 2 ^ 32 → 0 ≤ flags < 4096 →
  ipv4_decode_header (S fuel) registered (arrival (tcp_wire src dest seq ack flags data) post cap) 0 = Some (segment_in src dest seq ack flags data post cap, 0).
Proof.
  intros Hs Hd Hdat Hpost Hl Hseq Hack Hfl. set (total := 40 + zlen data). pose proof (tcp_bytes_ok (port src) (port dest) seq ack flags 65535 (tcp_sum src dest seq ack flags data)) as Htb.
  assert (Hwl : zlen (tcp_wire src dest seq ack flags data) = 40 + zlen data) by (unfold tcp_wire; rewrite !length_app; simpl; lia).
  rewrite (ipv4_decode_ok fuel _ IPPROTO_TCP total (addr src) (addr dest) ((tcp_bytes (port src) (port dest) seq ack flags 65535 (tcp_sum src dest seq ack flags data) ++ data) ++ post) tcp_protocol).
  - unfold transport_decode. change (protocol_num tcp_protocol =? IPPROTO_UDP) with false. change (protocol_num tcp_protocol =? IPPROTO_TCP) with true. cbn iota.
    change 20 with (zlen (ipv4_bytes IPPROTO_TCP total (addr src) (addr dest) (ipv4_sum IPPROTO_TCP total (addr src) (addr dest)))).
    rewrite (tcp_decode_ok _ src dest seq ack flags data _ post); try done.
    + unfold segment_in, ipv4_decoded. cbn [proto ifdev network_offset pack_length capacity pack_data arrival]. rewrite Hwl. done.
    + apply ipv4_bytes_ok. unfold IPPROTO_TCP. lia.
  - unfold IPPROTO_TCP. lia.
  - apply Hs.
  - apply Hd.
  - apply Forall_app; split; [|done]. by apply Forall_app.
  - cbn [pack_data arrival]. unfold tcp_wire. by rewrite <- !app_assoc.
  - cbn [pack_length arrival]. lia.
  - reflexivity.
Qed.

Lemma udp_arrives fuel src dest data post cap : address_ok src → address_ok dest → bytes_ok data → bytes_ok post → zlen data < 65000 →
  ipv4_decode_header (S fuel) registered (arrival (udp_wire src dest data) post cap) 0 =
    Some (Packet (Some udp_protocol) SLIP0 0 20 28 src dest (28 + zlen data) cap (udp_wire src dest data ++ post), 0).
Proof.
  intros Hs Hd Hdat Hpost Hl. set (total := 28 + zlen data). pose proof (udp_bytes_ok (port src) (port dest) (8 + zlen data) (udp_sum src dest data)) as Htb.
  assert (Hwl : zlen (udp_wire src dest data) = 28 + zlen data) by (unfold udp_wire; rewrite !length_app; simpl; lia).
  rewrite (ipv4_decode_ok fuel _ IPPROTO_UDP total (addr src) (addr dest) ((udp_bytes (port src) (port dest) (8 + zlen data) (udp_sum src dest data) ++ data) ++ post) udp_protocol).
  - unfold transport_decode. change (protocol_num udp_protocol =? IPPROTO_UDP) with true. cbn iota.
    change 20 with (zlen (ipv4_bytes IPPROTO_UDP total (addr src) (addr dest) (ipv4_sum IPPROTO_UDP total (addr src) (addr dest)))).
    rewrite (udp_decode_ok _ src dest data _ post); try done.
    + unfold ipv4_decoded. cbn [proto ifdev network_offset pack_length capacity pack_data arrival]. rewrite Hwl. done.
    + apply ipv4_bytes_ok. unfold IPPROTO_UDP. lia.
  - unfold IPPROTO_UDP. lia.
  - apply Hs.
  - apply Hd.
  - apply Forall_app; split; [|done]. by apply Forall_app.
  - cbn [pack_data arrival]. unfold udp_wire. by rewrite <- !app_assoc.
  - cbn [pack_length arrival]. lia.
  - reflexivity.
Qed.

(** ** Sending a segment *)

Definition tcp_packet (src dest : ipv4_address) (seq ack flags : Z) (data : list Z) : packet :=
  Packet (Some tcp_protocol) 0 0 20 40 src dest (40 + zlen data) (zlen data + 100) (tcp_wire src dest seq ack flags data ++ replicate 60 0).

(** The packet of tcp_create_empty_packet for [n] bytes of data. *)
Definition empty_segment (src dest : ipv4_address) (n : nat) (seq ack flags : Z) (data : list Z) : packet :=
  Packet (Some tcp_protocol) 0 0 20 40 src dest 40 (Z.of_nat n + 100)
    (ipv4_bytes IPPROTO_TCP (40 + Z.of_nat n) (addr src) (addr dest) (ipv4_sum IPPROTO_TCP (40 + Z.of_nat n) (addr src) (addr dest)) ++
     tcp_bytes (port src) (port dest) seq ack flags 0 0 ++ data ++ replicate 60 0).

Lemma tcp_create_ok src dest n : address_ok src → address_ok dest → Z.of_nat n < 65000 →
  tcp_create_empty_packet tcp_protocol src dest (Z.of_nat n) = Some (Some (empty_segment src dest n 0 0 0 (replicate n 0))).
Proof.
  intros Hs Hd Hn. unfold tcp_create_empty_packet, tcp_setup_packet, packet_alloc. rewrite u32_small, (u16_small (Z.of_nat n + 100)) by lia.
  rewrite (ipv4_encode_ok _ tcp_protocol); [|done|done|simpl; rewrite length_replicate; lia|simpl; lia|unfold TCP_HEADER; lia|simpl; unfold TCP_HEADER; lia|simpl; unfold IPPROTO_TCP; lia|apply bytes_zeros].
  rewrite bind_some. change (negb (0 =? 0)) with false. cbn iota zeta. cbn [pack_length pack_data set_transport set_length ifdev data_offset capacity].
  rewrite drop_replicate. replace (Z.to_nat (Z.of_nat n + 100) - 20)%nat with (20 + (n + 60))%nat by lia. rewrite (replicate_add 20).
  change (protocol_num tcp_protocol) with IPPROTO_TCP. replace (20 + (TCP_HEADER + Z.of_nat n)) with (40 + Z.of_nat n) by (unfold TCP_HEADER; lia).
  set (hdr := ipv4_bytes _ _ _ _ _). rewrite wr_range_ok; [|lia|rewrite !length_app, !length_replicate; simpl; lia]. rewrite bind_some.
  change (Z.to_nat 20) with (length hdr). rewrite splice_mid by done.
  match goal with |- context [put16 ?d 20 ?v] => change (put16 d 20 v) with (put16 d (zlen hdr + 0) v) end. change (20 + 2) with (zlen hdr + 2). change (20 + 12) with (zlen hdr + 12).
  fields. change (negb (0 =? 0)) with false. cbn iota. unfold set_data_offset, set_pack_data, set_length, set_transport, empty_segment.
  cbn [proto ifdev network_offset transport_offset custom_src custom_dest pack_length capacity pack_data]. change (u16 (20 + TCP_HEADER)) with 40.
  rewrite replicate_add. done.
Qed.

(** The checksum goes in last. *)
Lemma tcp_finalize_ok src dest seq ack flags data cap : address_ok src → address_ok dest → bytes_ok data → zlen data < 65000 →
  tcp_finalize_packet tcp_protocol (Packet (Some tcp_protocol) 0 0 20 40 src dest (40 + zlen data) cap
    (ipv4_bytes IPPROTO_TCP (40 + zlen data) (addr src) (addr dest) (ipv4_sum IPPROTO_TCP (40 + zlen data) (addr src) (addr dest)) ++
     tcp_bytes (port src) (port dest) seq ack flags 0 0 ++ data ++ replicate 60 0)) =
  Some (Packet (Some tcp_protocol) 0 0 20 40 src dest (40 + zlen data) cap (tcp_wire src dest seq ack flags data ++ replicate 60 0)).
Proof.
  intros Hs Hd Hb Hl. unfold tcp_finalize_packet. cbn [transport_offset pack_data]. set (hdr := ipv4_bytes _ _ _ _ _).
  assert (Hh : bytes_ok hdr) by (apply ipv4_bytes_ok; unfold IPPROTO_TCP; lia).
  change 20 with (zlen hdr) at 1 2 4. rewrite put_tcp_window, bind_some, put_tcp_sum, bind_some. unfold set_pack_data.
  cbn [proto ifdev network_offset transport_offset data_offset custom_src custom_dest pack_length capacity pack_data].
  rewrite (tcp_sum_ok src dest seq ack flags 65535 data hdr (replicate 60 0)); try done; [|apply bytes_zeros|by right].
  rewrite bind_some, put_tcp_sum, bind_some. unfold tcp_wire. rewrite <- !app_assoc. done.
Qed.

Section send.
Context {W : Type} {NW : NetWorld W}.

Definition endpoints_ok (t : tcp_endpoint) : Prop := address_ok (local t) ∧ address_ok (remote t).

Lemma u32_range x : 0 ≤ u32 x < 2 ^ 32.
Proof. apply uwrap_range. lia. Qed.

(** A segment without data. *)
Lemma tcp_send_control (w : W) t flags ackbytes : endpoints_ok t → has flags PSH = false → Z.lor (Z.shiftl 5 12) flags = 20480 + flags →
  let t1 := if has flags ACK then set_rx_last t (u32 (rx_last_seq t + ackbytes)) else t in
  tcp_send_packet w t flags 0 ackbytes =
    (w' ← net_send w (te_ifdev t) (tcp_packet (local t) (remote t) (tx_last_seq t) (if has flags ACK then rx_last_seq t1 else 0) flags []);
     Some (w', if (flags =? SYN) || has flags FIN then set_tx_last t1 (u32 (tx_last_seq t + 1)) else t1)).
Proof.
  intros [Hs Hd] Hpsh Hor t1. unfold tcp_send_packet. rewrite Hpsh. cbn [andb]. change 0 with (Z.of_nat 0) at 1. rewrite tcp_create_ok by (done || lia). rewrite !bind_some.
  unfold empty_segment. cbn [transport_offset pack_data]. change (replicate 0 0 ++ replicate 60 0) with (replicate 60 0). change (40 + Z.of_nat 0) with 40. rewrite Hor. set (hdr := ipv4_bytes _ _ _ _ _).
  change 20 with (zlen hdr). rewrite put_tcp_flags, bind_some. fold t1.
  assert (Hack : (if has flags ACK then put32 (hdr ++ tcp_bytes (port (local t)) (port (remote t)) 0 0 flags 0 0 ++ replicate 60 0) (zlen hdr + 8) (rx_last_seq t1) else Some (hdr ++ tcp_bytes (port (local t)) (port (remote t)) 0 0 flags 0 0 ++ replicate 60 0)) =
    Some (hdr ++ tcp_bytes (port (local t)) (port (remote t)) 0 (if has flags ACK then rx_last_seq t1 else 0) flags 0 0 ++ replicate 60 0)).
  { destruct (has flags ACK); [|done]. by rewrite put_tcp_ack. }
  rewrite Hack, bind_some. clear Hack. assert (Ht1 : tx_last_seq t1 = tx_last_seq t ∧ te_ifdev t1 = te_ifdev t) by (unfold t1; by destruct (has flags ACK)). destruct Ht1 as [-> Hif].
  rewrite put_tcp_seq, bind_some. unfold tcp_finalize_and_send_packet, set_pack_data.
  cbn [proto ifdev network_offset transport_offset data_offset custom_src custom_dest pack_length capacity].
  pose proof (tcp_finalize_ok (local t) (remote t) (tx_last_seq t) (if has flags ACK then rx_last_seq t1 else 0) flags [] 100 Hs Hd ltac:(by apply Forall_nil) ltac:(simpl; lia)) as HH.
  change ([] ++ replicate 60 0) with (replicate 60 0) in HH. change (40 + zlen []) with 40 in HH. change (Z.of_nat 0 + 100) with 100. change (zlen hdr) with 20. unfold hdr. rewrite HH, bind_some. clear HH.
  set (t2 := if (flags =? SYN) || has flags FIN then _ else _). assert (Ht2 : te_ifdev t2 = te_ifdev t) by (unfold t2; by destruct (_ || _)). rewrite Ht2. done.
Qed.

(** A segment with the last [n] bytes of the transmit buffer. *)
Lemma tcp_send_data (w : W) t nb (n : nat) l : endpoints_ok t → holds (te_tx t) 1017 l → bytes_ok l → (n ≤ length l)%nat → nb = Z.of_nat n ∨ nb = -1 ∧ n = length l →
  rb_out (te_tx t) + Z.of_nat (length l - n) ≠ rb_max (te_tx t) → 0 ≤ rx_last_seq t < 2 ^ 32 →
  tcp_send_packet w t (Z.lor PSH ACK) nb 0 =
    (w' ← net_send w (te_ifdev t) (tcp_packet (local t) (remote t) (u32 (tx_last_seq t - Z.of_nat n)) (rx_last_seq t) (Z.lor PSH ACK) (drop (length l - n) l));
     Some (w', t)).
Proof.
  intros [Hs Hd] Htx Hb Hn Hnb Hpk Hrx. pose proof (holds_bound _ _ _ Htx) as [Hl _]. unfold tcp_send_packet. change (has (Z.lor PSH ACK) PSH) with true. change (has (Z.lor PSH ACK) ACK) with true. cbn [andb].
  assert (Hused : _buf_used_space (te_tx t) = zlen l) by (destruct Htx as (Hwf & _ & Hc); by rewrite (used_space_spec _ Hwf), Hc).
  assert (Hnn : (if nb =? -1 then _buf_used_space (te_tx t) else nb) = Z.of_nat n) by (destruct (Z.eqb_spec nb (-1)); lia).
  rewrite Hnn. rewrite tcp_create_ok by (done || lia). rewrite !bind_some. unfold empty_segment. cbn [transport_offset pack_data pack_length].
  set (hdr := ipv4_bytes _ _ _ _ _). change (Z.lor (Z.shiftl 5 12) (Z.lor PSH ACK)) with (20480 + Z.lor PSH ACK). change 20 with (zlen hdr). rewrite put_tcp_flags, bind_some.
  replace (set_rx_last t (u32 (rx_last_seq t + 0))) with t by (rewrite Z.add_0_r, u32_small by lia; by destruct t). rewrite put_tcp_ack, bind_some, put_tcp_seq, bind_some.
  set (tb := tcp_bytes (port (local t)) (port (remote t)) (u32 (tx_last_seq t - Z.of_nat n)) (rx_last_seq t) (Z.lor PSH ACK) 0 0). assert (Htb : length tb = 20%nat) by done. assert (Hh : length hdr = 20%nat) by done.
  rewrite rd_range_ok by (rewrite ?length_app, ?length_replicate; lia). rewrite bind_some.
  assert (Hsl : slice (hdr ++ tb ++ replicate n 0 ++ replicate 60 0) (Z.to_nat 40) (Z.to_nat (zlen (hdr ++ tb ++ replicate n 0 ++ replicate 60 0) - 40)) = replicate n 0 ++ replicate 60 0).
  { unfold slice. rewrite (app_assoc hdr). change (Z.to_nat 40) with (length (hdr ++ tb)). rewrite drop_app_length, take_ge; [done|]. rewrite !length_app, !length_replicate. lia. }
  rewrite Hsl, Hused. rewrite !s16_small by lia. replace (zlen l - Z.of_nat n) with (Z.of_nat (length l - n)) by lia.
  rewrite (peek_spec _ 1017 l); [|done|rewrite length_app, !length_replicate; lia|lia|by rewrite Nat.min_l by lia]. rewrite bind_some.
  replace (n `min` (length l - (length l - n)))%nat with n by lia. set (bs := slice l (length l - n) n). assert (Hbs : bs = drop (length l - n) l) by (unfold bs, slice; apply take_ge; rewrite length_drop; lia).
  assert (Hbl : length bs = n) by (rewrite Hbs, length_drop; lia).
  rewrite wr_range_ok; [|lia|rewrite length_splice, !length_app, !length_replicate by (rewrite length_app, !length_replicate; lia); lia]. rewrite bind_some.
  assert (Hsp : splice (hdr ++ tb ++ replicate n 0 ++ replicate 60 0) (Z.to_nat 40) (splice (replicate n 0 ++ replicate 60 0) 0 bs) = hdr ++ tb ++ bs ++ replicate 60 0).
  { unfold splice at 2. rewrite take_0, app_nil_l, Nat.add_0_l, Hbl. rewrite drop_app_length' by (by rewrite length_replicate).
    rewrite !(app_assoc hdr tb). change (Z.to_nat 40) with (length (hdr ++ tb)). unfold splice. rewrite take_app_length. f_equal. rewrite drop_ge, app_nil_r; [done|]. rewrite !length_app, !length_replicate. lia. }
  rewrite Hsp. unfold tcp_finalize_and_send_packet, set_length, set_pack_data. cbn [proto ifdev network_offset transport_offset data_offset custom_src custom_dest pack_length capacity pack_data].
  rewrite u16_small by lia. rewrite <- Hbl. unfold hdr, tb. rewrite <- Hbl. rewrite tcp_finalize_ok by (done || lia || (rewrite Hbs; by apply Forall_drop)). rewrite bind_some, Hbs. unfold tcp_packet. rewrite Hbs in Hbl. rewrite !Hbl. done.
Qed.
End send.
