(* ===== verification/Tcpinv.v ===== *)
(** * Tcpinv: what holds at the two ends of a connection

    A host is an endpoint, the packets it has sent, and the bytes that its
    process has written and read.  Two hosts are joined by a network that
    delivers any packet ever sent, any number of times and in any order, or
    never. *)

From S2P Require Import Prelude Queue Result Iovec Ringbuffer Numconv Packet Inet Slip Slipinv Serial Udp Tcp Tcpwire.

#[export] Instance sent_packets : NetWorld (list packet) := {| net_send w _ pack := Some (w ++ [pack]); net_wakeup w _ _ := w |}.

Record host := Host { h_sent : list packet; h_tep : tcp_endpoint; h_written : list Z; h_read : list Z }.

(** The bytes an iterator runs over. *)
Definition iter_bytes (it : iovec_iter) : list Z :=
  match it_data it with ITER_USER_BUF b _ => b | ITER_KVEC segs => flat segs | ITER_INVALID _ => [] end.

Lemma simple_iter_rel (bs : list Z) : zlen bs < 2 ^ 31 → iter_rel (iovec_iter_init_simple_kvec bs (zlen bs)) bs 0.
Proof.
  intros Hl. unfold iter_rel. cbn [it_length it_data iovec_iter_init_simple_kvec num_segs cur_seg seg_offset seg_start].
  assert (Hf : flat [mk_kvec bs (zlen bs)] = bs) by (unfold flat; cbn; apply app_nil_r). split_and!; try done; try lia.
  - split; [by repeat constructor|]. by rewrite Hf.
  - exists 0%nat, 0%nat, (mk_kvec bs (zlen bs)). split_and!; try done. split_and!; [done|cbn [buf]; lia|done].
Qed.

Lemma iter_rel_bytes it s pos : iter_rel it s pos → iter_bytes it = s.
Proof. intros (_ & _ & _ & H). unfold iter_bytes. destruct (it_data it); [by destruct H as (-> & _)|by destruct H as (_ & H & _)|done]. Qed.

Definition host_send (h : host) (bs : list Z) : option host :=
  '(w, t, _, n) ← tcp_endpoint_send (h_sent h) (h_tep h) (iovec_iter_init_simple_kvec bs (zlen bs));
  Some (Host w t (h_written h ++ take (Z.to_nat n) bs) (h_read h)).

Definition host_recv (h : host) (size : nat) : option host :=
  '(t, it, n) ← tcp_endpoint_recv (h_tep h) (iovec_iter_init_simple_kvec (replicate size 0) (Z.of_nat size));
  Some (Host (h_sent h) t (h_written h) (h_read h ++ take (Z.to_nat n) (iter_bytes it))).

Definition host_shutdown (h : host) : option host :=
  '(w, t, _) ← tcp_endpoint_shutdown (h_sent h) (h_tep h);
  Some (Host w t (h_written h) (h_read h)).

(** The bytes of packet [p] arrive. *)
Definition host_deliver (h : host) (p : packet) : option host :=
  '(pack, error) ← ipv4_decode_header 1 registered (arrival (payload p) [] (zlen (payload p))) 0;
  if negb (error =? 0) then Some h
  else
    '(w, eps, _) ← tcp_forward_packet (h_sent h) [h_tep h] pack;
    t ← eps !! 0%nat;
    Some (Host w t (h_written h) (h_read h)).

(** ** Segments *)

(** [data] is part of the stream [s], whose first byte has number [isn]. *)
Definition part_of (isn : Z) (s : list Z) (seq : Z) (data : list Z) : Prop :=
  ∃ o, seq = isn + Z.of_nat o ∧ data = slice s o (length data) ∧ (o + length data ≤ length s)%nat.

(** A packet sent by a host whose stream is [s] (and which has closed it, if
    [fin]) to one whose stream is [s']. *)
Definition packet_ok (src dest : ipv4_address) (isn : Z) (s : list Z) (fin : bool) (isn' : Z) (s' : list Z) (fin' : bool) (p : packet) : Prop :=
  ∃ seq ack flags data, p = tcp_packet src dest seq ack flags data ∧ 0 ≤ seq < 2 ^ 32 ∧ 0 ≤ ack < 2 ^ 32 ∧ 0 ≤ flags < 4096 ∧ bytes_ok data ∧
    has flags RST = false ∧ (has flags FIN = true → fin = true) ∧ (ack ≤ isn' + zlen s' ∨ fin' = true) ∧ zlen data ≤ 1017 ∧ (data = [] ∨ part_of isn s seq data).

Definition queued_ok (isn : Z) (s : list Z) (p : packet) : Prop :=
  ∃ src dest seq ack flags data cap, p = segment_in src dest seq ack flags data [] cap ∧ address_ok src ∧ address_ok dest ∧ 0 ≤ seq < 2 ^ 32 ∧ 0 ≤ ack < 2 ^ 32 ∧
    0 ≤ flags < 4096 ∧ bytes_ok data ∧ zlen data ≤ 1017 ∧ part_of isn s seq data.

(** The endpoint [t] of a host that has written [s] and read [r] of the stream [s']. *)
Record end_ok (t : tcp_endpoint) (isn : Z) (s : list Z) (isn' : Z) (s' : list Z) (fin' : bool) (r : list Z) : Prop := {
  eo_addr : endpoints_ok t;
  eo_seq : 0 ≤ tx_last_seq t < 2 ^ 32 ∧ 0 ≤ rx_last_seq t < 2 ^ 32;
  eo_state : state t = TS_CLOSED ∨ TS_ESTABLISHED ≤ state t ≤ TS_TIME_WAIT;
  eo_bytes : bytes_ok s ∧ bytes_ok s';
  eo_tx : ∃ k, (k ≤ length s)%nat ∧ holds (te_tx t) 1017 (drop k s);
  eo_tx_last : state t = TS_ESTABLISHED → tx_last_seq t = isn + zlen s;
  eo_rx : ∃ m, (length r ≤ m ≤ length s')%nat ∧ r = take (length r) s' ∧ holds (te_rx t) 1017 (drop (length r) (take m s')) ∧
            (state t = TS_ESTABLISHED → rx_last_seq t = isn' + Z.of_nat m);
  eo_rx_last : rx_last_seq t ≤ isn' + zlen s' ∨ fin' = true;
  eo_fin : fin_sent t = true → state t ≠ TS_ESTABLISHED;
  eo_queue : Forall (queued_ok isn' s') (recv_queue t);
}.

(** ** Streams that grow *)

Lemma part_of_app isn s seq data x : part_of isn s seq data → part_of isn (s ++ x) seq data.
Proof.
  intros (o & -> & Hd & Hl). exists o. split; [done|]. split; [|rewrite length_app; lia]. rewrite Hd at 1. unfold slice. rewrite drop_app_le, take_app_le; [done|..]; rewrite ?length_drop; lia.
Qed.

Lemma packet_ok_mono src dest isn s fin isn' s' fin' p x y f f' : (fin = true → f = true) → (fin' = true → f' = true) →
  packet_ok src dest isn s fin isn' s' fin' p → packet_ok src dest isn (s ++ x) f isn' (s' ++ y) f' p.
Proof.
  intros Hf Hf' (seq & ack & flags & data & -> & H1 & H2 & H3 & H4 & H5 & H6 & H7 & H8 & H9). exists seq, ack, flags, data. split_and!; try done; try lia.
  - destruct H7 as [H7|H7]; [left; rewrite length_app; lia|right; by apply Hf'].
  - destruct H9 as [H9|H9]; [by left|right; by apply part_of_app].
Qed.

Lemma end_ok_mono t isn s isn' s' fin' r y f' : bytes_ok y → (fin' = true → f' = true) → end_ok t isn s isn' s' fin' r → end_ok t isn s isn' (s' ++ y) f' r.
Proof.
  intros Hy Hf' []. split; try done.
  - destruct eo_bytes0. split; [done|]. by apply Forall_app.
  - destruct eo_rx0 as (m & Hm & Hr & Hh & Hl). exists m. rewrite length_app, !take_app_le by lia. split_and!; try done; lia.
  - destruct eo_rx_last0 as [H|H]; [left; rewrite length_app; lia|right; by apply Hf'].
  - eapply Forall_impl; [exact eo_queue0|]. intros p (a & b & seq & ack & fl & d & cap & -> & H1 & H2 & H3 & H4 & H5 & H6 & H7 & H8).
    exists a, b, seq, ack, fl, d, cap. split_and!; try done; try lia. by apply part_of_app.
Qed.

Lemma payload_tcp src dest seq ack flags data : payload (tcp_packet src dest seq ack flags data) = tcp_wire src dest seq ack flags data.
Proof.
  unfold payload, tcp_packet. cbn [pack_length pack_data]. apply take_app_length'. unfold tcp_wire. rewrite !length_app. simpl. lia.
Qed.

(** The fields of a segment as it arrives. *)
Lemma segment_fields src dest seq ack flags data cap : address_ok src → address_ok dest → 0 ≤ seq < 2 ^ 32 → 0 ≤ ack < 2 ^ 32 → 0 ≤ flags < 4096 → bytes_ok data →
  let p := segment_in src dest seq ack flags data [] cap in
  hdr_seqnum p = Some seq ∧ hdr_acknum p = Some ack ∧ hdr_flags p = Some flags ∧ pack_length p - data_offset p = zlen data ∧
  (∀ i n : nat, (i + n ≤ length data)%nat → rd_range (pack_data p) (data_offset p + Z.of_nat i) (Z.of_nat n) = Some (slice data i n)).
Proof.
  intros Hs Hd Hseq Hack Hfl Hb p. pose proof (tcp_sum_range src dest seq ack flags data Hs Hd Hb) as Hc. unfold hdr_seqnum, hdr_acknum, hdr_flags, p, segment_in.
  cbn [pack_data transport_offset pack_length data_offset]. unfold tcp_wire. set (hdr := ipv4_bytes _ _ _ _ _). rewrite app_nil_r.
  destruct (tcp_fields hdr (port src) (port dest) seq ack flags 65535 (tcp_sum src dest seq ack flags data) data) as (_ & _ & F3 & F4 & F5 & _); try done; [apply Hs|apply Hd|].
  change (zlen hdr) with 20 in *. rewrite F3, F4, F5, bind_some. split_and!; try done; [|lia|].
  - f_equal. change 4095 with (Z.ones 12). rewrite Z.land_ones by lia. rewrite <- (Z.mod_small flags (2 ^ 12)) at 2 by lia. change 20480 with (5 * 2 ^ 12). by rewrite Z.add_comm, Z.mod_add by lia.
  - intros i n Hin. set (tb := tcp_bytes _ _ _ _ _ _ _). rewrite rd_range_ok; [|lia..|rewrite !length_app; change (length hdr) with 20%nat; change (length tb) with 20%nat; lia].
    f_equal. rewrite app_assoc. replace (Z.to_nat (40 + Z.of_nat i)) with (length (hdr ++ tb) + i)%nat by (rewrite length_app; change (length hdr) with 20%nat; change (length tb) with 20%nat; lia).
    rewrite Nat2Z.id. unfold slice. rewrite <- drop_drop, drop_app_length. done.
Qed.

(** ** Data received *)

Lemma queue_insert_ok isn s seq pack q : Forall (queued_ok isn s) q → queued_ok isn s pack →
  ∃ q', tcp_queue_insert seq pack q = Some q' ∧ Forall (queued_ok isn s) q'.
Proof.
  intros Hq Hp. induction Hq as [|cur q Hc Hq (q' & E & IH)]; cbn [tcp_queue_insert]; [exists [pack]; split; [done|by apply Forall_singleton]|].
  pose proof Hc as (a & b & sq & ack & fl & d & cap & -> & H1 & H2 & H3 & H4 & H5 & H6 & H7 & H8).
  destruct (segment_fields a b sq ack fl d cap) as (-> & _); try done. rewrite bind_some. destruct (seq <? sq).
  - eexists. split; [done|]. by repeat (apply Forall_cons; split).
  - rewrite E, bind_some. eexists. split; [done|]. by apply Forall_cons.
Qed.

(** The endpoint with its receiving side changed. *)
Definition set_receive (t : tcp_endpoint) (rx : ringbuffer) (last : Z) (q : list packet) : tcp_endpoint := set_recv_queue (set_rx_last (set_te_rx t rx) last) q (queue_size t).

Lemma take_more (s' : list Z) k m n : (k ≤ m)%nat → (m + n ≤ length s')%nat → drop k (take m s') ++ slice s' m n = drop k (take (m + n) s').
Proof.
  intros Hk Hl. unfold slice. rewrite <- (take_drop m (take (m + n) s')), take_take, Nat.min_l by lia. rewrite drop_app_le by (rewrite length_take; lia). f_equal.
  rewrite <- take_drop_commute. done.
Qed.

Lemma check_waiting_ok q t isn s (k m : nat) : Forall (queued_ok isn s) q → 0 ≤ isn → isn + zlen s < 2 ^ 32 → (k ≤ m ≤ length s)%nat →
  holds (te_rx t) 1017 (drop k (take m s)) → rx_last_seq t = isn + Z.of_nat m →
  ∃ rx m' q' all, tcp_check_waiting t q = Some (set_receive t rx (isn + Z.of_nat m') q', all) ∧ (m ≤ m' ≤ length s)%nat ∧
    holds rx 1017 (drop k (take m' s)) ∧ Forall (queued_ok isn s) q'.
Proof.
  intros Hq Hisn Hbound. revert t m. induction Hq as [|cur q Hc Hq IH]; intros t m Hm Hrx Hlast; cbn [tcp_check_waiting].
  { exists (te_rx t), m, [], 1. split; [|by split_and!; try lia; [|apply Forall_nil]]. do 2 f_equal. unfold set_receive. rewrite <- Hlast. by destruct t. }
  pose proof Hc as (a & b & seq & ack & fl & d & cap & -> & H1 & H2 & H3 & H4 & H5 & H6 & H7 & (o & -> & Hd & Ho)).
  destruct (segment_fields a b (isn + Z.of_nat o) ack fl d cap) as (-> & _ & _ & Hlen & Hrd); try done. rewrite bind_some, Hlast.
  destruct (Z.ltb_spec (isn + Z.of_nat m) (isn + Z.of_nat o)) as [Hlt|Hge].
  { eexists (te_rx t), m, _, 1. split; [|split_and!; try lia; [done|]; by apply Forall_cons]. do 2 f_equal. unfold set_receive. rewrite <- Hlast. by destruct t. }
  rewrite Hlen, u32_small by lia. destruct (Z.ltb_spec (isn + Z.of_nat m) (isn + Z.of_nat o + zlen d)) as [Hnew|Hold]; [|by apply IH].
  replace (isn + Z.of_nat m - (isn + Z.of_nat o)) with (Z.of_nat (m - o)) by lia. rewrite (s32_small (Z.of_nat (m - o))) by lia.
  replace (zlen d - Z.of_nat (m - o)) with (Z.of_nat (length d - (m - o))) by lia. rewrite s32_small by lia. rewrite Hrd by lia. rewrite bind_some, s16_small by lia.
  set (rest := slice d (m - o) (length d - (m - o))). assert (Hrest : rest = slice s m (length rest)).
  { unfold rest. rewrite length_slice. rewrite Hd at 1. unfold slice. rewrite take_ge by (rewrite length_drop, length_take, length_drop; lia).
    replace (take (length d) (drop o s)) with (take ((m - o) + (length d - (m - o))) (drop o s)) by (f_equal; lia). rewrite <- take_drop_commute, drop_drop. replace (o + (m - o))%nat with m by lia. f_equal. lia. }
  assert (Hrl : length rest = (length d - (m - o))%nat) by (unfold rest; rewrite length_slice; lia). rewrite <- Hrl.
  unfold _buf_put. rewrite Nat2Z.id. destruct (put_loop_spec (length rest) (te_rx t) 1017 (drop k (take m s)) rest 0 Hrx ltac:(lia)) as (rx & E & Hrx').
  change (Z.of_nat 0) with 0 in E. rewrite E, bind_some. clear E. rewrite Nat.add_0_l in *. set (n := (length rest `min` _)%nat) in *.
  assert (Hn : (n ≤ length rest)%nat) by (unfold n; lia). clearbody n.
  assert (Hsl : slice rest 0 n = slice s m n) by (rewrite Hrest; unfold slice; rewrite drop_0, take_take, Nat.min_l by lia; done).
  rewrite Hsl, take_more in Hrx' by lia. rewrite u32_small by lia. replace (isn + Z.of_nat m + Z.of_nat n) with (isn + Z.of_nat (m + n)) by lia.
  destruct (Z.ltb_spec (Z.of_nat n) (zlen rest)).
  - eexists rx, (m + n)%nat, _, 0. split; [done|]. split_and!; try lia; [done|]. by apply Forall_cons.
  - destruct (IH (set_rx_last (set_te_rx t rx) (isn + Z.of_nat (m + n))) (m + n)%nat) as (rx' & m' & q' & all & E & H10 & H11 & H12); [lia|done|done|].
    rewrite E. exists rx', m', q', all. split_and!; try done; lia.
Qed.
