(* ===== verification/Tcpops.v ===== *)
(** * Tcpops: the steps of an endpoint keep its state

    Every operation of an established endpoint, and every segment it gets,
    keeps [end_ok], and the packets sent carry bytes of the stream. *)

From S2P Require Import Prelude Queue Result Iovec Ringbuffer Numconv Packet Inet Slip Slipinv Serial Udp Tcp Tcpwire Tcpinv.

Section ops.
Context (isn : Z) (s : list Z) (isn' : Z) (s' : list Z) (fin' : bool) (r : list Z).
Context (Hisn : 0 ≤ isn) (Hmax : isn + zlen s < 2 ^ 32) (Hisn' : 0 ≤ isn') (Hmax' : isn' + zlen s' < 2 ^ 32).

(** Packets that [t] has sent since [w]. *)
Definition sends (t : tcp_endpoint) (w w' : list packet) : Prop := ∃ ps, w' = w ++ ps ∧ Forall (packet_ok (local t) (remote t) isn s (fin_sent t) isn' s' fin') ps.

Lemma sends_none t w : sends t w w.
Proof. exists []. split; [by rewrite app_nil_r|by apply Forall_nil]. Qed.
Lemma sends_one t w p : packet_ok (local t) (remote t) isn s (fin_sent t) isn' s' fin' p → sends t w (w ++ [p]).
Proof. intros Hp. exists [p]. split; [done|by apply Forall_singleton]. Qed.

Lemma sends_trans t t' w1 w2 w3 : local t' = local t → remote t' = remote t → fin_sent t' = fin_sent t → sends t w1 w2 → sends t' w2 w3 → sends t' w1 w3.
Proof.
  intros El Er Ef (p1 & -> & H1) (p2 & -> & H2). exists (p1 ++ p2). split; [by rewrite app_assoc|]. rewrite El, Er, Ef in *. by apply Forall_app.
Qed.

(** The same connection. *)
Definition same_peer (t t' : tcp_endpoint) : Prop := local t' = local t ∧ remote t' = remote t ∧ te_sock t' = te_sock t ∧ fin_sent t' = fin_sent t ∧ te_id t' = te_id t.

(** What does not matter to [end_ok]. *)
Definition same_ends (t t' : tcp_endpoint) : Prop :=
  local t' = local t ∧ remote t' = remote t ∧ state t' = state t ∧ fin_sent t' = fin_sent t ∧ tx_last_seq t' = tx_last_seq t ∧ rx_last_seq t' = rx_last_seq t ∧
  te_rx t' = te_rx t ∧ te_tx t' = te_tx t ∧ recv_queue t' = recv_queue t.

Lemma end_ok_same t t' : same_ends t t' → end_ok t isn s isn' s' fin' r → end_ok t' isn s isn' s' fin' r.
Proof.
  intros (E1 & E2 & E3 & E4 & E5 & E6 & E7 & E8 & E9) []. split; rewrite ?E3, ?E4, ?E5, ?E6, ?E7, ?E8, ?E9; try done. destruct eo_addr. split; by rewrite ?E1, ?E2.
Qed.

Lemma data_packet_ok t k (n : nat) l : end_ok t isn s isn' s' fin' r → state t = TS_ESTABLISHED → (k ≤ length s)%nat → l = drop k s → (n ≤ length l)%nat → (length l ≤ 1017)%nat →
  packet_ok (local t) (remote t) isn s (fin_sent t) isn' s' fin'
    (tcp_packet (local t) (remote t) (u32 (tx_last_seq t - Z.of_nat n)) (rx_last_seq t) (Z.lor PSH ACK) (drop (length l - n) l)).
Proof.
  intros [] Hst Hk -> Hn Hl. rewrite length_drop in *. rewrite eo_tx_last by done. destruct eo_seq, eo_bytes.
  eexists _, _, _, _. split; [done|]. split_and!; try apply u32_range; try done; try lia; try (rewrite !length_drop; lia).
  - by apply Forall_drop, Forall_drop.
  - right. exists (length s - n)%nat. rewrite u32_small by lia. rewrite drop_drop, length_drop. replace (k + (length s - k - n))%nat with (length s - n)%nat by lia.
    split_and!; [lia| |lia]. unfold slice. rewrite take_ge; [done|]. rewrite length_drop. lia.
Qed.

Lemma control_packet_ok t ack flags : 0 ≤ tx_last_seq t < 2 ^ 32 → 0 ≤ ack < 2 ^ 32 → ack ≤ isn' + zlen s' ∨ fin' = true → 0 ≤ flags < 4096 → has flags RST = false → (has flags FIN = true → fin_sent t = true) →
  packet_ok (local t) (remote t) isn s (fin_sent t) isn' s' fin' (tcp_packet (local t) (remote t) (tx_last_seq t) ack flags []).
Proof. intros H1 H2 H3 H4 H5 H6. eexists _, _, _, _. split; [done|]. split_and!; try done; try lia; [by apply Forall_nil|by left]. Qed.

Lemma s16_near a b : 0 ≤ a - b < 2 ^ 15 → s16 (a - s32 b) = a - b.
Proof.
  intros Hd. assert (E : s32 b = b + 2 ^ 32 * ((s32 b - b) / 2 ^ 32)).
  { unfold s32, swrap. change (2 ^ (32 - 1)) with 2147483648. pose proof (Z.div_mod (b + 2147483648) (2 ^ 32) ltac:(lia)) as Hm.
    replace ((b + 2147483648) mod 2 ^ 32 - 2147483648 - b) with (- ((b + 2147483648) / 2 ^ 32) * 2 ^ 32) by lia. rewrite Z.div_mul by lia. lia. }
  rewrite E. set (q := (s32 b - b) / 2 ^ 32). unfold s16, swrap. change (2 ^ (16 - 1)) with 32768. change (2 ^ 32) with (65536 * 65536).
  replace (a - (b + 65536 * 65536 * q) + 32768) with (a - b + 32768 + (- (65536 * q)) * 65536) by lia. rewrite Z.mod_add by lia. rewrite Z.mod_small; lia.
Qed.

Lemma u32_s32 x : 0 ≤ x < 2 ^ 32 → u32 (s32 x) = x.
Proof.
  intros Hx. unfold u32, uwrap, s32, swrap. change (2 ^ (32 - 1)) with 2147483648.
  pose proof (Z.div_mod (x + 2147483648) (2 ^ 32) ltac:(lia)) as Hm. replace ((x + 2147483648) mod 2 ^ 32 - 2147483648) with (x + (- ((x + 2147483648) / 2 ^ 32)) * 2 ^ 32) by lia.
  rewrite Z.mod_add by lia. apply Z.mod_small. lia.
Qed.

(** The endpoint with its sending side changed. *)
Definition set_transmit (t : tcp_endpoint) (tx : ringbuffer) (acks : Z) : tcp_endpoint := set_acks (set_te_tx t tx) acks.

Lemma transmit_end_ok t tx acks k : end_ok t isn s isn' s' fin' r → (k ≤ length s)%nat → holds tx 1017 (drop k s) → end_ok (set_transmit t tx acks) isn s isn' s' fin' r.
Proof. intros [] Hk Htx. split; try done. by exists k. Qed.

Lemma used_ok t l : holds (te_tx t) 1017 l → _buf_used_space (te_tx t) = zlen l.
Proof. intros (Hw & _ & Hc). by rewrite (used_space_spec _ Hw), Hc. Qed.

Lemma ring_out cb l : holds cb 1017 l → rb_out cb < rb_max cb.
Proof. intros (i & o & [Em Ei Eo Hi Ho Hm Hl] & _)%holds_nat. lia. Qed.

(** Sending again all that is not acknowledged. *)
Lemma resend_ok w t : end_ok t isn s isn' s' fin' r → state t = TS_ESTABLISHED →
  ∃ w', tcp_send_packet w t (Z.lor PSH ACK) (-1) 0 = Some (w', t) ∧ sends t w w'.
Proof.
  intros Ho Hst. pose proof Ho as []. destruct eo_tx as (k & Hk & Htx). pose proof (holds_bound _ _ _ Htx) as [Hl _]. pose proof (ring_out _ _ Htx).
  rewrite (tcp_send_data w t (-1) (length (drop k s)) (drop k s)); [|done|done|by apply Forall_drop, eo_bytes|lia|by right|rewrite Nat.sub_diag; lia|apply eo_seq].
  cbn [net_send sent_packets]. rewrite bind_some. eexists. split; [done|]. apply sends_one. eapply data_packet_ok; try done.
Qed.

Lemma take_ack_ok w t ack : end_ok t isn s isn' s' fin' r → state t = TS_ESTABLISHED → 0 ≤ ack ≤ isn + zlen s →
  ∃ w' tx acks, tcp_take_ack w t ack = Some (w', set_transmit t tx acks) ∧ end_ok (set_transmit t tx acks) isn s isn' s' fin' r ∧ sends t w w'.
Proof.
  intros Ho Hst Hack. pose proof Ho as []. destruct eo_tx as (k & Hk & Htx). pose proof (holds_bound _ _ _ Htx) as [Hl _]. rewrite length_drop in Hl.
  unfold tcp_take_ack. rewrite (used_ok _ _ Htx), eo_tx_last, length_drop by done. replace (isn + zlen s - Z.of_nat (length s - k)) with (isn + Z.of_nat k) by lia.
  rewrite u32_s32 by lia.
  assert (Hmid : ∃ tx acks last, (if isn + Z.of_nat k <? ack then
      let '(tx, _) := _buf_drop (te_tx t) (s16 (ack - s32 (isn + Z.of_nat k))) in
      (net_wakeup w (te_sock t) VFS_POLL_WRITE, set_te_tx (set_acks t 0) tx, s32 ack)
    else (w, t, s32 (isn + Z.of_nat k))) = (w, set_transmit t tx acks, s32 last) ∧ 0 ≤ last < 2 ^ 32 ∧ ∃ k', (k' ≤ length s)%nat ∧ holds tx 1017 (drop k' s)).
  { destruct (Z.ltb_spec (isn + Z.of_nat k) ack) as [Hlt|Hge].
    - rewrite s16_near by lia. replace (ack - (isn + Z.of_nat k)) with (Z.of_nat (Z.to_nat (ack - isn) - k)) by lia.
      destruct (drop_spec (te_tx t) 1017 (drop k s) (Z.to_nat (ack - isn) - k) Htx ltac:(lia)) as (tx & -> & Htx'). rewrite drop_drop in Htx'.
      exists tx, 0, ack. split; [done|]. split; [lia|]. eexists. split; [|exact Htx']. rewrite length_drop. lia.
    - exists (te_tx t), (tx_acks_repeated t), (isn + Z.of_nat k). split; [unfold set_transmit; by destruct t|]. split; [lia|]. by exists k. }
  destruct Hmid as (tx & acks & last & -> & Hlast & k' & Hk' & Htx'). rewrite u32_s32 by done.
  pose proof (transmit_end_ok t tx acks k' Ho Hk' Htx') as Ho1. destruct (last <? tx_last_seq (set_transmit t tx acks)).
  2: { eexists w, tx, acks. split; [done|]. split; [done|]. apply sends_none. }
  cbv zeta. cbn [tx_acks_repeated set_acks]. change (tx_acks_repeated (set_transmit t tx acks)) with acks. destruct (3 <=? s16 (acks + 1)).
  - pose proof (transmit_end_ok t tx 0 k' Ho Hk' Htx') as Ho2. change (set_acks (set_acks (set_transmit t tx acks) (s16 (acks + 1))) 0) with (set_transmit t tx 0).
    destruct (resend_ok w (set_transmit t tx 0) Ho2 Hst) as (w' & E & Hs). eexists w', tx, 0. split; [exact E|]. split; [done|]. exact Hs.
  - eexists w, tx, (s16 (acks + 1)). split; [done|]. split; [by eapply transmit_end_ok|]. apply sends_none.
Qed.

(** Putting a segment with data into the queue and taking from it what is next. *)
Lemma data_ok w t p src dest seq ack flags data cap : end_ok t isn s isn' s' fin' r → state t = TS_ESTABLISHED → p = segment_in src dest seq ack flags data [] cap → queued_ok isn' s' p →
  ∃ w' t', (t1 ← tcp_queue_packet t p; '(t2, all) ← tcp_check_waiting_packet t1; (if all =? 0 then Some (w, t2) else tcp_send_packet w t2 ACK 0 0)) = Some (w', t') ∧
    end_ok t' isn s isn' s' fin' r ∧ sends t w w' ∧ same_peer t t'.
Proof.
  intros Ho Hst Hp Hq. pose proof Ho as []. destruct eo_rx as (m & Hm & Hr & Hrx & Hlast). unfold tcp_queue_packet, tcp_check_waiting_packet.
  assert (Hseq : ∃ sq, hdr_seqnum p = Some sq).
  { destruct Hq as (a & b & sq & ak & fl & d & cp & -> & Q1 & Q2 & Q3 & Q4 & Q5 & Q6 & Q7 & Q8). exists sq. destruct (segment_fields a b sq ak fl d cp Q1 Q2 Q3 Q4 Q5 Q6) as (E & _). exact E. }
  destruct Hseq as (sq & ->). rewrite bind_some. destruct (queue_insert_ok isn' s' sq p (recv_queue t) eo_queue Hq) as (q & -> & Hq'). rewrite !bind_some.
  destruct (check_waiting_ok q (set_recv_queue t q (queue_size t)) isn' s' (length r) m Hq' Hisn' Hmax' ltac:(lia) Hrx (Hlast Hst)) as (rx & m' & q' & all & E & Hm' & Hrx' & Hq'').
  cbn [recv_queue set_recv_queue]. rewrite E, bind_some. set (t2 := set_receive _ _ _ _).
  assert (Ho2 : end_ok t2 isn s isn' s' fin' r).
  { split; try done.
    - cbn. split; [apply eo_seq|lia].
    - exists m'. split_and!; try done; lia.
    - left. cbn. lia. }
  destruct (all =? 0).
  - exists w, t2. split_and!; try done. apply sends_none.
  - rewrite (tcp_send_control w t2 ACK 0) by done. cbn [net_send sent_packets]. rewrite bind_some. change (has ACK ACK) with true. cbn iota.
    change ((ACK =? SYN) || has ACK FIN) with false. cbn iota. rewrite Z.add_0_r, (u32_small (rx_last_seq t2)) by apply Ho2.
    replace (set_rx_last t2 (rx_last_seq t2)) with t2 by done. exists (w ++ [tcp_packet (local t2) (remote t2) (tx_last_seq t2) (rx_last_seq t2) ACK []]), t2.
    split_and!; try done. apply (sends_one t2). apply control_packet_ok; try done; apply Ho2.
Qed.

(** ** Closing *)

Lemma state_end_ok t x : end_ok t isn s isn' s' fin' r → x ≠ TS_ESTABLISHED → x = TS_CLOSED ∨ TS_ESTABLISHED ≤ x ≤ TS_TIME_WAIT → end_ok (set_state t x) isn s isn' s' fin' r.
Proof.
  intros [] Hx Hr. split; try done. destruct eo_rx as (m & ? & ? & ? & _). exists m. split_and!; try done; try lia.
Qed.

Lemma rx_last_end_ok t v : end_ok t isn s isn' s' fin' r → state t ≠ TS_ESTABLISHED → fin' = true → end_ok (set_rx_last t (u32 v)) isn s isn' s' fin' r.
Proof.
  intros [] Hx Hf. split; try done.
  - split; [apply eo_seq|apply u32_range].
  - destruct eo_rx as (m & ? & ? & ? & _). exists m. split_and!; try done; try lia.
  - by right.
Qed.

Lemma fin_recv_end_ok t : end_ok t isn s isn' s' fin' r → end_ok (set_fin_recv t) isn s isn' s' fin' r.
Proof. by apply end_ok_same. Qed.

Lemma check_close_ok w t src dest seq ack flags data cap : end_ok t isn s isn' s' fin' r → address_ok src → address_ok dest → 0 ≤ seq < 2 ^ 32 → 0 ≤ ack < 2 ^ 32 → 0 ≤ flags < 4096 → bytes_ok data →
  has flags RST = false → (has flags FIN = true → fin' = true) →
  ∃ w' t' ret, tcp_check_close w t (segment_in src dest seq ack flags data [] cap) = Some (w', t', ret) ∧ end_ok t' isn s isn' s' fin' r ∧ sends t w w' ∧ same_peer t t' ∧
    (ret = PACKET_DELIVERED ∨ ret = PACKET_DROPPED ∧ state t' = state t).
Proof.
  intros Ho Hs Hd Hseq Hack Hfl Hb Hrst Hfin. unfold tcp_check_close. destruct (segment_fields src dest seq ack flags data cap Hs Hd Hseq Hack Hfl Hb) as (-> & -> & -> & _ & _).
  rewrite !bind_some, Hrst, bind_some. destruct (has flags FIN) eqn:Ef; cbn [andb].
  - specialize (Hfin eq_refl). destruct (Z.eqb_spec seq (rx_last_seq t)) as [_|Hne]; cbn [negb].
    2: { eexists _, _, _. split; [done|]. split; [by apply fin_recv_end_ok|]. split; [apply sends_none|]. split; [done|]. by right. }
    set (st := if state (set_fin_recv t) =? TS_ESTABLISHED then TS_CLOSE_WAIT else TS_CLOSING).
    assert (Ho1 : end_ok (set_state (set_fin_recv t) st) isn s isn' s' fin' r).
    { apply state_end_ok; [by apply fin_recv_end_ok|..]; unfold st; destruct (_ =? _); try done; right; unfold TS_ESTABLISHED, TS_CLOSE_WAIT, TS_CLOSING, TS_TIME_WAIT; lia. }
    assert (Hne1 : state (set_state (set_fin_recv t) st) ≠ TS_ESTABLISHED) by (cbn; unfold st; by destruct (_ =? _)). set (t1 := set_state (set_fin_recv t) st) in *.
    rewrite (tcp_send_control w t1 ACK 1) by (done || apply Ho1). cbn [net_send sent_packets]. rewrite bind_some. change (has ACK ACK) with true. change ((ACK =? SYN) || has ACK FIN) with false. cbn iota.
    rewrite bind_some. pose proof (rx_last_end_ok t1 (rx_last_seq t1 + 1) Ho1 Hne1 Hfin) as Ho2. set (t2 := set_rx_last t1 (u32 (rx_last_seq t1 + 1))) in *.
    assert (Hsend : sends t w (w ++ [tcp_packet (local t1) (remote t1) (tx_last_seq t1) (rx_last_seq t2) ACK []])).
    { apply (sends_one t1). apply control_packet_ok; try done; [apply Ho1|apply u32_range|by right]. }
    cbn [net_wakeup sent_packets]. rewrite bind_some. match goal with |- context [if ?b then _ else _] => destruct b end.
    + eexists _, _, _. split; [done|]. split; [apply state_end_ok; try done; by left|]. split; [done|]. split; [done|]. by left.
    + eexists _, _, _. split; [done|]. split; [done|]. split; [done|]. split; [done|]. by left.
  - rewrite bind_some. match goal with |- context [if ?b then _ else _] => destruct b end.
    + eexists _, _, _. split; [done|]. split; [apply state_end_ok; try done; by left|]. split; [apply sends_none|]. split; [done|]. by left.
    + eexists _, _, _. split; [done|]. split; [done|]. split; [apply sends_none|]. split; [done|]. by right.
Qed.

(** ** A segment arrives *)

Lemma sends_peer t t' w w' : same_peer t t' → sends t w w' → sends t' w w'.
Proof. intros (E1 & E2 & _ & E4 & _) (ps & -> & Hp). exists ps. split; [done|]. by rewrite E1, E2, E4. Qed.

Lemma forward_ok w t src dest seq ack flags data cap : end_ok t isn s isn' s' fin' r → address_ok src → address_ok dest → 0 ≤ seq < 2 ^ 32 → 0 ≤ ack < 2 ^ 32 → 0 ≤ flags < 4096 → bytes_ok data → zlen data ≤ 1017 →
  has flags RST = false → (has flags FIN = true → fin' = true) → (ack ≤ isn + zlen s ∨ fin_sent t = true) → (data = [] ∨ part_of isn' s' seq data) →
  ∃ w' t' ret, tcp_forward_state w t (segment_in src dest seq ack flags data [] cap) = Some (w', t', ret) ∧ end_ok t' isn s isn' s' fin' r ∧ sends t w w' ∧ same_peer t t'.
Proof.
  intros Ho Hs Hd Hseq Hack Hfl Hb Hlen Hrst Hfin Hbound Hdat. unfold tcp_forward_state. destruct (Z.eqb_spec (state t) TS_CLOSED) as [|Hnc].
  { eexists _, _, _. split; [done|]. split; [done|]. split; [apply sends_none|done]. }
  assert (Hrange : TS_ESTABLISHED ≤ state t ≤ TS_TIME_WAIT) by (destruct (eo_state _ _ _ _ _ _ _ Ho); [done|done]). unfold TS_ESTABLISHED, TS_TIME_WAIT in Hrange.
  unfold TS_LISTEN, TS_SYN_SENT, TS_SYN_RECV. destruct (Z.eqb_spec (state t) 1); [lia|]. destruct (Z.eqb_spec (state t) 2); [lia|]. destruct (Z.eqb_spec (state t) 3); [lia|].
  destruct (check_close_ok w t src dest seq ack flags data cap Ho Hs Hd Hseq Hack Hfl Hb Hrst Hfin) as (w1 & t1 & ret & E & Ho1 & Hs1 & Hp1 & Hret).
  destruct (Z.eqb_spec (state t) TS_ESTABLISHED) as [Hest|Hne].
  2: { replace ((TS_FIN_WAIT1 <=? state t) && (state t <=? TS_TIME_WAIT)) with true by (unfold TS_FIN_WAIT1, TS_TIME_WAIT, TS_ESTABLISHED in *; lia).
    unfold tcp_forward_closing. rewrite E, bind_some. eexists _, _, _. split; [done|]. by split. }
  unfold tcp_forward_established. rewrite E, bind_some. destruct (Z.eqb_spec ret PACKET_DELIVERED) as [|Hnd]; [by eexists _, _, _|].
  destruct Hret as [|[_ Hst1]]; [done|]. rewrite Hest in Hst1.
  destruct (segment_fields src dest seq ack flags data cap Hs Hd Hseq Hack Hfl Hb) as (_ & -> & -> & Hlen' & _). rewrite !bind_some.
  assert (Hack' : ∃ w2 t2, (if has flags ACK then tcp_take_ack w1 t1 ack else Some (w1, t1)) = Some (w2, t2) ∧ end_ok t2 isn s isn' s' fin' r ∧ sends t1 w1 w2 ∧ same_peer t1 t2 ∧ state t2 = TS_ESTABLISHED).
  { destruct (has flags ACK); [|exists w1, t1; split_and!; done || apply sends_none]. destruct Hbound as [Hbound|Hf]; [|by destruct (eo_fin _ _ _ _ _ _ _ Ho Hf)].
    destruct (take_ack_ok w1 t1 ack Ho1 Hst1 ltac:(lia)) as (w2 & tx & acks & -> & Ho2 & Hs2). by exists w2, (set_transmit t1 tx acks). }
  destruct Hack' as (w2 & t2 & -> & Ho2 & Hs2 & Hp2 & Hst2). rewrite bind_some, Hlen'.
  assert (Hsp : sends t w w2 ∧ same_peer t t2).
  { destruct Hp1 as (A1 & A2 & A3 & A4 & A5), Hp2 as (B1 & B2 & B3 & B4 & B5). split; [|split_and!; congruence].
    destruct Hs1 as (p1 & -> & Q1), Hs2 as (p2 & -> & Q2). exists (p1 ++ p2). split; [by rewrite app_assoc|]. rewrite A1, A2, A4 in Q2. by apply Forall_app. }
  destruct Hsp as [Hs12 Hp12]. destruct (Z.ltb_spec 0 (zlen data)) as [Hpos|Hzero].
  2: { eexists w2, t2, _. done. }
  assert (Hq : queued_ok isn' s' (segment_in src dest seq ack flags data [] cap)).
  { destruct Hdat as [->|Hdat]; [simpl in Hpos; lia|]. eexists _, _, _, _, _, _, _. split; [done|]. split_and!; done || lia. }
  destruct (data_ok w2 t2 _ src dest seq ack flags data cap Ho2 Hst2 eq_refl Hq) as (w3 & t3 & E3 & Ho3 & Hs3 & B1 & B2 & B3 & B4 & B5).
  set (pk := segment_in src dest seq ack flags data [] cap) in *.
  revert E3. destruct (tcp_queue_packet t2 pk) as [tq|]; [|done]. rewrite !bind_some. destruct (tcp_check_waiting_packet tq) as [[tw all]|]; [|done]. rewrite !bind_some.
  intros E3. rewrite E3, bind_some.
  cbn [net_wakeup sent_packets]. assert (Hp3 : same_peer t t3) by (destruct Hp12 as (A1 & A2 & A3 & A4 & A5); split_and!; congruence).
  assert (Hs13 : sends t w w3).
  { destruct Hs12 as (p1 & -> & Q1), Hs3 as (p2 & -> & Q2), Hp12 as (A1 & A2 & A3 & A4 & A5). exists (p1 ++ p2). split; [by rewrite app_assoc|]. rewrite A1, A2, A4 in Q2. by apply Forall_app. }
  match goal with |- context [if ?b then w3 else w3] => destruct b end; by eexists w3, t3, _.
Qed.
End ops.
