(* ===== verification/Tcprun.v ===== *)
(** * Tcprun: a TCP connection carries two streams

    The runs of two established endpoints over a network that loses,
    duplicates and reorders packets. *)

From S2P Require Import Prelude Queue Result Iovec Ringbuffer Numconv Packet Inet Slip Slipinv Serial Udp Tcp Tcpwire Tcpinv Tcpops.

(** Putting bytes moves neither the start nor the size of the buffer. *)
Lemma copy_from_out cb it i n cb' it' : copy_from_iter cb it i n = Some (cb', it') → rb_out cb' = rb_out cb ∧ rb_max cb' = rb_max cb.
Proof.
  unfold copy_from_iter. destruct (rd_range _ _ _) as [d|]; [|done]. rewrite bind_some. destruct (memcpy_out_of_iter _ _ _) as [[[it1 d'] x]|]; [|done]. rewrite bind_some.
  destruct (wr_range _ _ _) as [b|]; [|done]. rewrite bind_some. by intros [= <- _].
Qed.

Lemma put_iter_out cb it cb' it' n : _buf_put_iter cb it = Some (cb', it', n) → rb_out cb' = rb_out cb ∧ rb_max cb' = rb_max cb.
Proof.
  unfold _buf_put_iter. cbv zeta. destruct (copy_from_iter cb it _ _) as [[cb1 it1]|] eqn:E1; [|done]. rewrite bind_some. apply copy_from_out in E1 as [E1 E2].
  match goal with |- context [if ?b then Some _ else _] => destruct b end; [by intros [= <- _ _]|].
  destruct (copy_from_iter (set_in cb1 _) it1 _ _) as [[cb3 it3]|] eqn:E3; [|done]. rewrite bind_some. apply copy_from_out in E3 as [E3 E4]. intros [= <- _ _].
  cbn in *. split; congruence.
Qed.

Section host.
Context (isn : Z) (isn' : Z) (Hisn : 0 ≤ isn) (Hisn' : 0 ≤ isn').

(** ** Writing *)

Lemma put_room cb l n : holds cb 1017 l → (n ≤ 1017 - length l)%nat → ¬ (rb_out cb = 0 ∧ Z.of_nat n = rb_max cb - rb_in cb).
Proof.
  intros (i & o & H & Hl)%holds_nat Hn. assert (Hc : length (contents cb) = if (o <=? i)%nat then (i - o)%nat else (1018 - o + i)%nat) by (rewrite (contents_nat _ _ _ _ H); apply length_cont; apply H).
  rewrite Hl in Hc. destruct H as [Em Ei Eo Hi Ho Hm Hlb]. rewrite Em, Ei, Eo. intros [H0 H1]. assert (o = 0%nat) as -> by lia. change (0 <=? i)%nat with true in Hc. cbn iota in Hc. lia.
Qed.

(** The endpoint after [bs] have been put into its buffer. *)
Lemma written_ok t s s' fin' r tx bs k : end_ok t isn s isn' s' fin' r → state t = TS_ESTABLISHED → isn + zlen s + zlen bs < 2 ^ 32 → bytes_ok bs → (k ≤ length s)%nat →
  holds tx 1017 (drop k s ++ bs) → end_ok (set_tx_last (set_te_tx t tx) (isn + zlen s + zlen bs)) isn (s ++ bs) isn' s' fin' r.
Proof.
  intros [] Hst Hmax Hb Hk Htx. split; try done.
  - split; [cbn; lia|apply eo_seq].
  - split; [|apply eo_bytes]. apply Forall_app. split; [apply eo_bytes|done].
  - exists k. rewrite length_app, drop_app_le by lia. split; [lia|done].
  - intros _. cbn [tx_last_seq set_tx_last]. rewrite length_app. lia.
Qed.

Lemma host_send_ok w t s s' fin' r bs : end_ok t isn s isn' s' fin' r → isn + zlen s + zlen bs < 2 ^ 32 → isn' + zlen s' < 2 ^ 32 → bytes_ok bs → bs ≠ [] → zlen bs < 2 ^ 31 →
  rb_out (te_tx t) + _buf_used_space (te_tx t) ≠ rb_max (te_tx t) →
  ∃ w' t' bs', host_send (Host w t s r) bs = Some (Host w' t' (s ++ bs') r) ∧ (bs' = [] ∨ bs' = bs) ∧ end_ok t' isn (s ++ bs') isn' s' fin' r ∧ sends isn (s ++ bs') isn' s' fin' t' w w' ∧ same_peer t t'.
Proof.
  intros Ho Hmax Hmax' Hb Hne Hlen Hwrap. unfold host_send, tcp_endpoint_send. cbn [h_sent h_tep h_written h_read]. pose proof (simple_iter_rel bs Hlen) as Hrel.
  pose proof (iter_remaining_spec _ _ _ Hrel) as Hrem. rewrite Nat.sub_0_r in Hrem. rewrite Hrem.
  assert (Hnone : ∀ e, e < 0 → ∃ w' t' bs', ('(w0, t0, _, n) ← Some (w, t, iovec_iter_init_simple_kvec bs (zlen bs), e); Some (Host w0 t0 (s ++ take (Z.to_nat n) bs) r)) = Some (Host w' t' (s ++ bs') r) ∧
    (bs' = [] ∨ bs' = bs) ∧ end_ok t' isn (s ++ bs') isn' s' fin' r ∧ sends isn (s ++ bs') isn' s' fin' t' w w' ∧ same_peer t t').
  { intros e He. exists w, t, []. rewrite bind_some. replace (Z.to_nat e) with 0%nat by lia. rewrite take_0, app_nil_r. split_and!; try done; [by left|apply sends_none]. }
  destruct (port (remote t) =? 0); [by apply Hnone|]. destruct (Z.eqb_spec (state t) TS_ESTABLISHED) as [Hst|]; cbn [negb orb]; [|by apply Hnone].
  pose proof Ho as []. destruct eo_tx as (k & Hk & Htx). pose proof (holds_bound _ _ _ Htx) as [Hl _]. pose proof Htx as (Hwf & Hm & Hc).
  assert (Hfree : _buf_free_space (te_tx t) = 1017 - zlen (drop k s)) by (rewrite (free_space_spec _ Hwf), Hm, Hc; lia). rewrite Hfree, u32_small by lia.
  destruct (Z.ltb_spec (1017 - zlen (drop k s)) (zlen bs)) as [|Hfit]; [by apply Hnone|]. clear Hnone.
  destruct (buf_put_iter_spec (te_tx t) 1017 (drop k s) _ bs 0 Htx Hrel) as (tx & it & E & Htx' & _); [rewrite Nat.sub_0_r; apply (put_room _ _ _ Htx); lia|].
  rewrite Nat.sub_0_r in *. replace ((1017 - length (drop k s)) `min` length bs)%nat with (length bs) in * by lia. rewrite slice_all in Htx'. rewrite E, bind_some. apply put_iter_out in E as Hout. clear E.
  assert (Hused : _buf_used_space (te_tx t) = zlen (drop k s)) by (by rewrite (used_space_spec _ Hwf), Hc). rewrite eo_tx_last, u32_small by (done || lia).
  pose proof (written_ok t s s' fin' r tx bs k Ho Hst Hmax Hb Hk Htx') as Ho1. set (t1 := set_tx_last _ _) in *.
  rewrite (tcp_send_data w t1 (zlen bs) (length bs) (drop k s ++ bs)); [|done|done|apply Forall_app; split; [by apply Forall_drop, eo_bytes|done]|rewrite length_app; lia|by left| |apply eo_seq].
  2: { cbn [te_tx t1 set_tx_last set_te_tx]. rewrite length_app. replace (length (drop k s) + length bs - length bs)%nat with (length (drop k s)) by lia. destruct Hout as [-> ->]. by rewrite <- Hused. }
  cbn [net_send sent_packets]. rewrite !bind_some, s32_small, Nat2Z.id, firstn_all by lia. eexists _, t1, bs. split; [done|]. split; [by right|]. split; [done|]. split; [|done].
  apply sends_one. eapply (data_packet_ok _ _ _ _ _ r) with (k := k); try done; rewrite ?length_app; try lia. by rewrite drop_app_le by lia.
Qed.

(** ** Reading, closing and segments *)

Lemma host_recv_ok w t s s' fin' r size : end_ok t isn s isn' s' fin' r → Z.of_nat size < 2 ^ 31 → _buf_is_empty (te_rx t) = false →
  ∃ t' r', host_recv (Host w t s r) size = Some (Host w t' s r') ∧ end_ok t' isn s isn' s' fin' r' ∧ same_peer t t'.
Proof.
  intros Ho Hsize Hne. unfold host_recv, tcp_endpoint_recv. cbn [h_sent h_tep h_written h_read]. pose proof Ho as [].
  assert (Hnone : ∀ e it, e ≤ 0 → ∃ t' r', ('(t0, it, n) ← Some (t, it, e); Some (Host w t0 s (r ++ take (Z.to_nat n) (iter_bytes it)))) = Some (Host w t' s r') ∧ end_ok t' isn s isn' s' fin' r' ∧ same_peer t t').
  { intros e it He. exists t, r. rewrite bind_some. replace (Z.to_nat e) with 0%nat by lia. rewrite take_0, app_nil_r. done. }
  destruct (state t =? TS_CLOSED); [by apply Hnone|]. destruct (state t =? TS_LISTEN); [by apply Hnone|]. destruct ((state t =? TS_SYN_SENT) || (state t =? TS_SYN_RECV)); [by apply Hnone|]. clear Hnone.
  destruct eo_rx as (m & Hm & Hr & Hrx & Hlast). assert (Hl : drop (length r) (take m s') ≠ []).
  { intros E. rewrite E in Hrx. pose proof Hrx as (i & o & H & Hc)%holds_nat. pose proof (empty_nat _ _ _ _ H) as He. unfold _buf_is_empty in Hne. rewrite (rbn_in _ _ _ _ H), (rbn_out _ _ _ _ H) in Hne.
    assert (o = i) as -> by (by apply He). by rewrite Z.eqb_refl in Hne. }
  pose proof (simple_iter_rel (replicate size 0) ltac:(rewrite length_replicate; lia)) as Hrel. rewrite length_replicate in Hrel.
  pose proof (buf_get_iter_spec (te_rx t) 1017 _ _ _ 0 Hrx Hl Hrel) as Hget. cbv zeta in Hget. destruct Hget as (rx & it & -> & Hrx' & Hrel'). rewrite bind_some, length_replicate, Nat.sub_0_r, Nat.add_0_l in *.
  set (n := (length (drop (length r) (take m s')) `min` size)%nat) in *.
  assert (Hn : (length r + n ≤ m)%nat ∧ (n ≤ size)%nat) by (unfold n; rewrite length_drop, length_take; lia). clearbody n.
  assert (Hbytes : take n (iter_bytes it) = take n (drop (length r) (take m s'))).
  { rewrite (iter_rel_bytes _ _ _ Hrel'). unfold splice. rewrite take_0, app_nil_l, take_app_le by (rewrite length_take, length_drop, length_take; lia). by rewrite take_take, Nat.min_id. }
  assert (Hr' : r ++ take n (drop (length r) (take m s')) = take (length r + n) s').
  { rewrite Hr at 1. rewrite take_drop_commute, take_take, Nat.min_l by lia. etrans; [|apply (take_drop (length r))]. by rewrite take_take, Nat.min_l by lia. }
  rewrite drop_drop in Hrx'.
  assert (Ho' : end_ok (set_te_rx t rx) isn s isn' s' fin' (take (length r + n) s')).
  { split; try done. exists m. rewrite length_take, Nat.min_l by lia. split_and!; try done; lia. }
  assert (Hcases : ∃ e, (if (Z.of_nat n =? 0) && negb (fin_recv (set_te_rx t rx)) then Some (set_te_rx t rx, it, EWOULDBLOCK) else Some (set_te_rx t rx, it, s32 (Z.of_nat n))) = Some (set_te_rx t rx, it, e) ∧ Z.to_nat e = n).
  { rewrite s32_small by lia. destruct (Z.eqb_spec (Z.of_nat n) 0) as [Hz|]; cbn [andb]; [destruct (negb _)|]; eexists; (split; [done|]); unfold EWOULDBLOCK; lia. }
  destruct Hcases as (e & -> & He). rewrite bind_some, He, Hbytes, Hr'. by eexists _, _.
Qed.

Lemma host_shutdown_ok w t s s' fin' r : end_ok t isn s isn' s' fin' r →
  ∃ w' t', host_shutdown (Host w t s r) = Some (Host w' t' s r) ∧ end_ok t' isn s isn' s' fin' r ∧ (fin_sent t = true → fin_sent t' = true) ∧ local t' = local t ∧ remote t' = remote t ∧
    sends isn s isn' s' fin' t' w w'.
Proof.
  intros Ho. unfold host_shutdown, tcp_endpoint_shutdown. cbn [h_sent h_tep h_written h_read]. destruct (_ && _ && _).
  { rewrite bind_some. exists w, t. split_and!; try done. apply sends_none. }
  pose proof Ho as []. rewrite (tcp_send_control w (set_fin_sent t) (Z.lor FIN ACK) 0) by done. cbn [net_send sent_packets]. rewrite !bind_some.
  change (has (Z.lor FIN ACK) ACK) with true. change ((Z.lor FIN ACK =? SYN) || has (Z.lor FIN ACK) FIN) with true. cbn iota. rewrite Z.add_0_r, (u32_small (rx_last_seq (set_fin_sent t))) by apply eo_seq.
  set (st := if _ =? TS_CLOSE_WAIT then TS_LAST_ACK else TS_FIN_WAIT1).
  assert (Hst : st ≠ TS_ESTABLISHED ∧ TS_ESTABLISHED ≤ st ≤ TS_TIME_WAIT) by (unfold st; destruct (_ =? _); unfold TS_ESTABLISHED, TS_LAST_ACK, TS_FIN_WAIT1, TS_TIME_WAIT; lia). clearbody st.
  eexists _, _. split; [done|]. split_and!; try done.
  - destruct Hst as [Hst1 Hst2]. split; try done; cbn.
    + split; [apply u32_range|apply eo_seq].
    + by right.
    + destruct eo_rx as (m & ? & ? & ? & _). exists m. split_and!; try done; lia.
  - match goal with |- sends _ _ _ _ _ ?t' _ _ => apply (sends_one _ _ _ _ _ t') end. apply (control_packet_ok isn s isn' s' fin' (set_fin_sent t)); try done; apply eo_seq.
Qed.

Lemma host_deliver_ok w t s s' fin' r p : end_ok t isn s isn' s' fin' r → isn + zlen s < 2 ^ 32 → isn' + zlen s' < 2 ^ 32 → packet_ok (remote t) (local t) isn' s' fin' isn s (fin_sent t) p →
  ∃ w' t', host_deliver (Host w t s r) p = Some (Host w' t' s r) ∧ end_ok t' isn s isn' s' fin' r ∧ sends isn s isn' s' fin' t' w w' ∧ same_peer t t'.
Proof.
  intros Ho Hmax Hmax' (seq & ack & flags & data & -> & H1 & H2 & H3 & H4 & H5 & H6 & H7 & H8 & H9). destruct (eo_addr _ _ _ _ _ _ _ Ho) as [Hl Hr].
  unfold host_deliver. rewrite payload_tcp, tcp_arrives by (done || lia || by apply Forall_nil). rewrite bind_some. change (negb (0 =? 0)) with false. cbn iota.
  cbn [h_sent h_tep h_written h_read]. unfold tcp_forward_packet. cbn [custom_dest custom_src segment_in tcp_lookup_endpoint]. rewrite !Z.eqb_refl, orb_true_r. cbn [andb].
  destruct (forward_ok isn s isn' s' fin' r Hisn Hmax Hisn' Hmax' w t (remote t) (local t) seq ack flags data (zlen (tcp_wire (remote t) (local t) seq ack flags data))) as (w' & t' & ret & -> & Ho' & Hs' & Hp'); try done; try lia.
  pose proof Hp' as (_ & _ & _ & _ & Eid). rewrite bind_some. unfold update_tcp. cbn [fmap list_fmap]. rewrite Eid, Z.eqb_refl, bind_some. cbn [lookup list_lookup]. rewrite bind_some.
  exists w', t'. split; [done|]. split; [done|]. split; [|done]. by eapply sends_peer.
Qed.
End host.
