(* ===== verification/Tcplink.v ===== *)
(** * Tcplink: the two ends of a connection together

    Two hosts make a connection (connect, listen and accept, with the segments
    of the handshake carried between them) and then run in any order of
    writing, reading, closing and deliveries of packets. *)

From S2P Require Import Prelude Queue Result Iovec Ringbuffer Numconv Packet Inet Slip Slipinv Serial Udp Tcp Tcpwire Tcpinv Tcpops Tcprun.

Record link := Link { end_a : host; end_b : host }.

Definition side (b : bool) (l : link) : host := if b then end_b l else end_a l.
Definition set_side (b : bool) (l : link) (h : host) : link := if b then Link (end_a l) h else Link h (end_b l).

(** At end [b]: bytes are written, up to some bytes read, the connection
    closed, or the [i]-th packet of the other end arrives. *)
Inductive link_op :=
  | LSend (b : bool) (bs : list Z)
  | LRecv (b : bool) (size : nat)
  | LShutdown (b : bool)
  | LDeliver (b : bool) (i : nat).

Definition link_step (l : link) (op : link_op) : option link :=
  match op with
  | LSend b bs => h ← host_send (side b l) bs; Some (set_side b l h)
  | LRecv b size => h ← host_recv (side b l) size; Some (set_side b l h)
  | LShutdown b => h ← host_shutdown (side b l); Some (set_side b l h)
  | LDeliver b i =>
      match h_sent (side (negb b) l) !! i with
      | None => Some l
      | Some p => h ← host_deliver (side b l) p; Some (set_side b l h)
      end
  end.

Fixpoint link_run (l : link) (ops : list link_op) : option link :=
  match ops with
  | [] => Some l
  | op :: ops => l ← link_step l op; link_run l ops
  end.

(** The operations that the code gets right: what is written is not empty and
    does not start where the ring buffer ends (there the segment that is sent
    has the wrong bytes, see [Ringbuffer.buf_peek_spec]), and nothing is read
    from an empty buffer (which gives old bytes of the buffer, see
    [Ringbuffer.buf_get_iter_empty_delivers_garbage]). *)
Definition link_guard (l : link) (op : link_op) : bool :=
  match op with
  | LSend b bs =>
      let tx := te_tx (h_tep (side b l)) in
      negb (rb_out tx + _buf_used_space tx =? rb_max tx) && forallb (λ c, (0 <=? c) && (c <? 256)) bs && negb (zlen bs =? 0) && (zlen bs <? 2 ^ 31)
  | LRecv b size => negb (_buf_is_empty (te_rx (h_tep (side b l)))) && (Z.of_nat size <? 2 ^ 31)
  | _ => true
  end.

(** A run all of whose operations are such. *)
Fixpoint careful (l : link) (ops : list link_op) : bool :=
  match ops with
  | [] => true
  | op :: ops => link_guard l op && match link_step l op with Some l' => careful l' ops | None => true end
  end.

(** The bytes that end [b] is asked to write. *)
Definition to_send (b : bool) (ops : list link_op) : nat :=
  sum_list ((λ op, match op with LSend c bs => if Bool.eqb b c then length bs else 0%nat | _ => 0%nat end) <$> ops).

Section link.
Context (isna isnb : Z) (Hisna : 0 ≤ isna) (Hisnb : 0 ≤ isnb).

Definition isn (b : bool) : Z := if b then isnb else isna.

(** What holds at end [b]. *)
Definition side_ok (b : bool) (l : link) : Prop :=
  let h := side b l in let h' := side (negb b) l in
  end_ok (h_tep h) (isn b) (h_written h) (isn (negb b)) (h_written h') (fin_sent (h_tep h')) (h_read h) ∧
  Forall (packet_ok (local (h_tep h)) (remote (h_tep h)) (isn b) (h_written h) (fin_sent (h_tep h)) (isn (negb b)) (h_written h') (fin_sent (h_tep h'))) (h_sent h) ∧
  local (h_tep h) = remote (h_tep h').
Definition link_ok (l : link) : Prop := side_ok false l ∧ side_ok true l.

(** An end that has moved from [h] to [h']. *)
Definition moved (h h' : host) : Prop :=
  (∃ x, h_written h' = h_written h ++ x ∧ bytes_ok x) ∧ (fin_sent (h_tep h) = true → fin_sent (h_tep h') = true) ∧ local (h_tep h') = local (h_tep h) ∧ remote (h_tep h') = remote (h_tep h).

Lemma side_other_ok b l h : side_ok (negb b) l → moved (side b l) h → side_ok (negb b) (set_side b l h).
Proof.
  intros (Ho & Hp & Hl) ((x & Hw & Hx) & Hf & El & Er). unfold side_ok. rewrite negb_involutive in *.
  assert (E1 : side (negb b) (set_side b l h) = side (negb b) l) by (by destruct b). assert (E2 : side b (set_side b l h) = h) by (by destruct b). rewrite E1, E2, Hw, Er. split_and!; [|eapply Forall_impl; [exact Hp|]|done].
  - by eapply end_ok_mono.
  - intros p Hpk. rewrite <- (app_nil_r (h_written (side (negb b) l))). by eapply packet_ok_mono; [| |exact Hpk].
Qed.

(** A step of end [b] keeps what holds at both ends. *)
Lemma link_moved b l w' t' x r' : link_ok l → bytes_ok x →
  let h := side b l in let h' := side (negb b) l in
  end_ok t' (isn b) (h_written h ++ x) (isn (negb b)) (h_written h') (fin_sent (h_tep h')) r' →
  sends (isn b) (h_written h ++ x) (isn (negb b)) (h_written h') (fin_sent (h_tep h')) t' (h_sent h) w' →
  (fin_sent (h_tep h) = true → fin_sent t' = true) → local t' = local (h_tep h) → remote t' = remote (h_tep h) →
  link_ok (set_side b l (Host w' t' (h_written h ++ x) r')).
Proof.
  intros Hok Hx h h' Ho (ps & -> & Hps) Hf El Er. assert (Hb : side_ok b l ∧ side_ok (negb b) l) by (destruct Hok; by destruct b). destruct Hb as [(Ho0 & Hp0 & Hl0) Hoth].
  set (h2 := Host _ _ _ _). assert (Hmv : moved (side b l) h2) by (split_and!; try done; by exists x).
  pose proof (side_other_ok b l h2 Hoth Hmv) as Hoth'. assert (Hself : side_ok b (set_side b l h2)).
  { unfold side_ok. assert (E1 : side (negb b) (set_side b l h2) = h') by (by destruct b). assert (E2 : side b (set_side b l h2) = h2) by (by destruct b). rewrite E1, E2.
    cbn [h_tep h_written h_sent h_read h2]. split_and!; [done| |by rewrite El].
    rewrite El, Er in Hps |- *. apply Forall_app. split; [|done]. eapply Forall_impl; [exact Hp0|]. intros p Hpk. rewrite <- (app_nil_r (h_written h')). by eapply packet_ok_mono; [| |exact Hpk]. }
  destruct b; by split.
Qed.

Lemma link_step_ok l op : link_ok l → link_guard l op = true →
  (∀ b, isn b + zlen (h_written (side b l)) + Z.of_nat (to_send b [op]) < 2 ^ 32) →
  ∃ l', link_step l op = Some l' ∧ link_ok l' ∧ ∀ b, (length (h_written (side b l')) ≤ length (h_written (side b l)) + to_send b [op])%nat.
Proof.
  intros Hok Hg Hmax. assert (Hisn : ∀ b, 0 ≤ isn b) by (by intros []).
  assert (Hsides : ∀ b, side_ok b l) by (destruct Hok; by intros []).
  assert (Hlen : ∀ b h, (length (h_written h) ≤ length (h_written (side b l)) + to_send b [op])%nat → ∀ c, (length (h_written (side c (set_side b l h))) ≤ length (h_written (side c l)) + to_send c [op])%nat).
  { intros b h Hh c. destruct b, c; cbn [side set_side end_a end_b] in Hh |- *; lia. }
  assert (Hid : ∀ b, side b l = Host (h_sent (side b l)) (h_tep (side b l)) (h_written (side b l)) (h_read (side b l))) by (intros b; by destruct (side b l)).
  assert (Hw0 : ∀ c, isn c + zlen (h_written (side c l)) < 2 ^ 32) by (intros c; specialize (Hmax c); lia).
  destruct op as [b bs|b size|b|b i]; cbn [link_step link_guard] in *.
  - rewrite !andb_true_iff, !negb_true_iff in Hg. destruct Hg as [[[G1 G2] G3] G4]. destruct (Hsides b) as (Ho & Hp & Hl).
    assert (Hby : bytes_ok bs). { apply Forall_forall. intros c Hc. rewrite forallb_forall in G2. specialize (G2 c ltac:(by apply list_elem_of_In)). lia. }
    assert (Hts : to_send b [LSend b bs] = length bs) by (unfold to_send; cbn; rewrite Bool.eqb_reflx; lia). specialize (Hmax b). rewrite Hts in Hmax.
    destruct (host_send_ok (isn b) (isn (negb b)) (Hisn b) (h_sent (side b l)) (h_tep (side b l)) (h_written (side b l)) (h_written (side (negb b) l)) (fin_sent (h_tep (side (negb b) l))) (h_read (side b l)) bs)
      as (w' & t' & bs' & E & Hbs & Ho' & Hs' & (P1 & P2 & _ & P4 & _)); [done|done|apply Hw0|done|intros ->; simpl in G3; lia|lia|lia|].
    rewrite (Hid b), E, bind_some. eexists. split; [done|]. split.
    + apply link_moved; try done; [destruct Hbs as [->| ->]; [by apply Forall_nil|done]|]. by rewrite P4.
    + apply Hlen. cbn [h_written]. rewrite length_app, Hts. destruct Hbs as [->| ->]; simpl; lia.
  - rewrite andb_true_iff, negb_true_iff in Hg. destruct Hg as [G1 G2]. destruct (Hsides b) as (Ho & Hp & Hl).
    destruct (host_recv_ok (isn b) (isn (negb b)) (h_sent (side b l)) (h_tep (side b l)) (h_written (side b l)) (h_written (side (negb b) l)) (fin_sent (h_tep (side (negb b) l))) (h_read (side b l)) size)
      as (t' & r' & E & Ho' & (P1 & P2 & _ & P4 & _)); [done|lia|done|].
    rewrite (Hid b), E, bind_some. eexists. split; [done|]. split; [|apply Hlen; cbn [h_written]; lia].
    rewrite <- (app_nil_r (h_written (side b l))) in Ho' |- *. apply link_moved; try done; [by apply Forall_nil|apply sends_none|by rewrite P4].
  - destruct (Hsides b) as (Ho & Hp & Hl).
    destruct (host_shutdown_ok (isn b) (isn (negb b)) (h_sent (side b l)) (h_tep (side b l)) (h_written (side b l)) (h_written (side (negb b) l)) (fin_sent (h_tep (side (negb b) l))) (h_read (side b l)))
      as (w' & t' & E & Ho' & P4 & P1 & P2 & Hs'); [done|].
    rewrite (Hid b), E, bind_some. eexists. split; [done|]. split; [|apply Hlen; cbn [h_written]; lia].
    rewrite <- (app_nil_r (h_written (side b l))) in Ho', Hs' |- *. apply link_moved; try done. by apply Forall_nil.
  - destruct (h_sent (side (negb b) l) !! i) as [p|] eqn:Ei; [|by exists l; split_and!; [..|lia]].
    destruct (Hsides b) as (Ho & Hp & Hl), (Hsides (negb b)) as (_ & Hp' & Hl'). rewrite negb_involutive in Hp', Hl'.
    rewrite Hl', <- Hl in Hp'. pose proof (Forall_lookup_1 _ _ _ _ Hp' Ei) as Hpk.
    destruct (host_deliver_ok (isn b) (isn (negb b)) (Hisn b) (Hisn (negb b)) (h_sent (side b l)) (h_tep (side b l)) (h_written (side b l)) (h_written (side (negb b) l)) (fin_sent (h_tep (side (negb b) l))) (h_read (side b l)) p)
      as (w' & t' & E & Ho' & Hs' & (P1 & P2 & _ & P4 & _)); [done|apply Hw0|apply Hw0|done|].
    rewrite (Hid b), E, bind_some. eexists. split; [done|]. split; [|apply Hlen; cbn [h_written]; lia].
    rewrite <- (app_nil_r (h_written (side b l))) in Ho', Hs' |- *. apply link_moved; try done; [by apply Forall_nil|by rewrite P4].
Qed.
End link.
(** ** The handshake *)

(** What [h] makes of the packet: the packet as its interface gives it. *)
Definition received_packet (p : packet) : option packet :=
  '(pack, error) ← ipv4_decode_header 1 registered (arrival (payload p) [] (zlen (payload p))) 0;
  if negb (error =? 0) then None else Some pack.

(** The endpoint [ta] connects to the address of [tl], which listens and
    accepts; the endpoint accepted is found before [tl]. *)
Definition handshake (rand_a rand_b : Z) (ta tl : tcp_endpoint) (new : Z) : option link :=
  let '(tl, _) := tcp_endpoint_listen tl 5 in
  '(wa, _, ta, _) ← tcp_endpoint_connect [] rand_a ta (SockaddrIn AF_INET (port (local tl)) (addr (local tl)));
  syn ← wa !! 0%nat;
  pack ← received_packet syn;
  '(wb, eps, _) ← tcp_forward_packet [] [tl] pack;
  tl ← eps !! 0%nat;
  '(wb, _, tl, tb, _) ← tcp_endpoint_accept wb rand_b tl new;
  tb ← tb;
  syn_ack ← wb !! 0%nat;
  ha ← host_deliver (Host wa ta [] []) syn_ack;
  ack ← h_sent ha !! 1%nat;
  hb ← host_deliver (Host wb tb [] []) ack;
  Some (Link ha hb).

Lemma new_ring_holds : holds (new_ring TCP_RX_BUFFER) 1017 [].
Proof. unfold holds, rb_wf. vm_compute. split_and!; done. Qed.

Lemma rand_range x : 0 ≤ snd (rand x) ≤ RAND_MAX.
Proof.
  unfold rand, RAND_MAX. cbn [snd]. change 32767 with (Z.ones 15). rewrite Z.land_ones by lia. pose proof (Z.mod_pos_bound (u32 (x * 1103515245 + 12345) ≫ 16) (2 ^ 15) ltac:(lia)). change (Z.ones 15) with 32767. lia.
Qed.

(** A packet without data of [packet_ok]. *)
Lemma received_control src dest seq ack flags : address_ok src → address_ok dest → 0 ≤ seq < 2 ^ 32 → 0 ≤ ack < 2 ^ 32 → 0 ≤ flags < 4096 →
  received_packet (tcp_packet src dest seq ack flags []) = Some (segment_in src dest seq ack flags [] [] 40).
Proof.
  intros. unfold received_packet. rewrite payload_tcp, tcp_arrives by (done || (simpl; lia) || by apply Forall_nil). by rewrite bind_some.
Qed.

(** An endpoint that has just become established, its stream starting at [isn]. *)
Lemma fresh_end_ok t isn isn' fin' : endpoints_ok t → 0 ≤ isn < 2 ^ 32 → 0 ≤ isn' < 2 ^ 32 → state t = TS_ESTABLISHED → te_rx t = new_ring TCP_RX_BUFFER → te_tx t = new_ring TCP_TX_BUFFER →
  tx_last_seq t = isn → rx_last_seq t = isn' → fin_sent t = false → recv_queue t = [] → end_ok t isn [] isn' [] fin' [].
Proof.
  intros Ha Hi Hi' Hs Hrx Htx Htl Hrl Hf Hq. split; rewrite ?Hs, ?Hrx, ?Htx, ?Htl, ?Hrl, ?Hf, ?Hq; try done.
  - by right.
  - by split; apply Forall_nil.
  - exists 0%nat. split; [simpl; lia|]. apply new_ring_holds.
  - simpl. lia.
  - exists 0%nat. split_and!; try done; lia.
  - left. simpl. lia.
Qed.

(** An endpoint without data, in the state and with the numbers given. *)
Definition bare (id sock dev : Z) (loc rem : ipv4_address) (st conn tx rx : Z) : tcp_endpoint :=
  TcpEndpoint id sock dev loc rem 0 [] st false false 0 conn tx rx 0 (new_ring TCP_RX_BUFFER) (new_ring TCP_TX_BUFFER).

Ltac flag_range := split; [by apply Z.leb_le|by apply Z.ltb_lt].

Lemma connect_ok rand_a id sock dev a b : address_ok a → address_ok b → let r := snd (rand rand_a) in
  tcp_endpoint_connect [] rand_a (tcp_alloc_endpoint id sock dev a None) (SockaddrIn AF_INET (port b) (addr b)) =
  Some ([tcp_packet a b r 0 SYN []], fst (rand rand_a), bare id sock dev a b TS_SYN_SENT 0 (r + 1) 0, EWOULDBLOCK).
Proof.
  intros Ha Hb r. pose proof (rand_range rand_a) as Hr. unfold tcp_endpoint_connect. change (state (tcp_alloc_endpoint id sock dev a None)) with TS_CLOSED. change (connect_return (tcp_alloc_endpoint id sock dev a None)) with 0.
  change ((TS_CLOSED =? TS_ESTABLISHED) && negb (0 =? 0)) with false. change (negb (TS_CLOSED =? TS_CLOSED)) with false. cbn iota. unfold RAND_MAX, r in *. destruct (rand rand_a) as [n r'] eqn:E. cbn [fst snd] in *.
  rewrite tcp_send_control; [|by split; [|destruct b]|done|done]. change (has SYN ACK) with false. change ((SYN =? SYN) || has SYN FIN) with true. cbn iota.
  cbn [net_send sent_packets sin_addr sin_port]. assert (Eb : Ipv4 (addr b) (port b) = b) by (by destruct b). rewrite Eb, (u32_small r') by lia. rewrite !bind_some. cbn [tx_last_seq set_acks set_tx_last]. by rewrite (u32_small (r' + 1)) by lia.
Qed.

Lemma accept_ok rand_b id sock dev new a b seq cap : address_ok a → address_ok b → 0 ≤ seq < 2 ^ 32 - 1 → let r := snd (rand rand_b) in
  let t := fst (tcp_endpoint_listen (tcp_alloc_endpoint id sock dev b None) 5) in
  ∃ tl, tcp_forward_packet [] [t] (segment_in a b seq 0 SYN [] [] cap) = Some ([], [tl], PACKET_DELIVERED) ∧
  ∃ tl', tcp_endpoint_accept [] rand_b tl new = Some ([tcp_packet b a r (seq + 1) (Z.lor SYN ACK) []], fst (rand rand_b), tl', Some (bare new 0 SLIP0 b a TS_SYN_RECV 0 r (seq + 1)), 0).
Proof.
  intros Ha Hb Hseq r t. pose proof (rand_range rand_b) as Hr. unfold RAND_MAX, r in *. set (pack := segment_in a b seq 0 SYN [] [] cap).
  destruct (segment_fields a b seq 0 SYN [] cap) as (F1 & F2 & F3 & _); [done|done|lia|lia|flag_range|by apply Forall_nil|]. fold pack in F1, F2, F3.
  exists (set_recv_queue t [pack] 1). split.
  - unfold tcp_forward_packet. change (custom_dest pack) with b. cbn [tcp_lookup_endpoint]. change (local t) with b. change (state t) with TS_LISTEN. rewrite Z.eqb_refl. cbn [andb].
    change (TS_LISTEN =? TS_LISTEN) with true. cbn [orb]. unfold tcp_forward_state. change (state t) with TS_LISTEN. change (TS_LISTEN =? TS_CLOSED) with false. change (TS_LISTEN =? TS_LISTEN) with true. cbn iota.
    unfold tcp_forward_listen. rewrite F3, bind_some. change (negb (SYN =? SYN)) with false. change (listen_queue_max t <=? queue_size t) with false. cbn iota. rewrite bind_some. unfold update_tcp. cbn [fmap list_fmap].
    change (te_id (set_recv_queue t (recv_queue t ++ [pack]) (s32 (queue_size t + 1)))) with (te_id t). by rewrite Z.eqb_refl.
  - eexists. unfold tcp_endpoint_accept. change (state (set_recv_queue t [pack] 1)) with TS_LISTEN. change (negb (TS_LISTEN =? TS_LISTEN)) with false. cbn [recv_queue set_recv_queue]. unfold tcp_create_client_endpoint.
    rewrite F1, bind_some. destruct (rand rand_b) as [n r'] eqn:E. cbn [fst snd] in *. rewrite tcp_send_control; [|by split|done|done]. change (has (Z.lor SYN ACK) ACK) with true. change ((Z.lor SYN ACK =? SYN) || has (Z.lor SYN ACK) FIN) with false. cbn iota.
    cbn [net_send sent_packets]. rewrite !bind_some. cbn [tx_last_seq rx_last_seq set_tx_last set_rx_last]. by rewrite (u32_small (seq + 1)), (u32_small r') by lia.
Qed.

(** A control segment reaches the endpoint it is for. *)
Lemma deliver_control w t seq ack flags w' t' ret : address_ok (local t) → address_ok (remote t) → 0 ≤ seq < 2 ^ 32 → 0 ≤ ack < 2 ^ 32 → 0 ≤ flags < 4096 →
  te_id t' = te_id t →
  tcp_forward_state w t (segment_in (remote t) (local t) seq ack flags [] [] 40) = Some (w', t', ret) →
  host_deliver (Host w t [] []) (tcp_packet (remote t) (local t) seq ack flags []) = Some (Host w' t' [] []).
Proof.
  intros Hl Hr Hs Ha Hf Eid E. unfold host_deliver. rewrite payload_tcp, tcp_arrives by (done || (simpl; lia) || by apply Forall_nil). rewrite bind_some. change (negb (0 =? 0)) with false. cbn iota.
  cbn [h_sent h_tep h_written h_read]. unfold tcp_forward_packet. cbn [custom_dest custom_src segment_in tcp_lookup_endpoint]. rewrite !Z.eqb_refl, orb_true_r. cbn [andb].
  change (zlen (tcp_wire (remote t) (local t) seq ack flags [])) with 40. rewrite E, bind_some. unfold update_tcp. cbn [fmap list_fmap]. by rewrite Eid, Z.eqb_refl.
Qed.

Lemma check_close_none w t src dest seq ack flags cap : address_ok src → address_ok dest → 0 ≤ seq < 2 ^ 32 → 0 ≤ ack < 2 ^ 32 → 0 ≤ flags < 4096 →
  has flags RST = false → has flags FIN = false → fin_sent t = false →
  tcp_check_close w t (segment_in src dest seq ack flags [] [] cap) = Some (w, t, PACKET_DROPPED).
Proof.
  intros Hs Hd Hseq Hack Hf Hr Hfin Hfs. destruct (segment_fields src dest seq ack flags [] cap) as (F1 & F2 & F3 & _); try done; [by apply Forall_nil|].
  unfold tcp_check_close. rewrite F3, F1, F2, !bind_some, Hr, Hfin. cbn [andb]. rewrite !bind_some. cbn iota. by rewrite Hfs.
Qed.

Lemma syn_ack_ok w id sock dev a b tx seq : address_ok a → address_ok b → 0 ≤ tx < 2 ^ 32 → 0 ≤ seq < 2 ^ 32 - 1 →
  host_deliver (Host w (bare id sock dev a b TS_SYN_SENT 0 tx 0) [] []) (tcp_packet b a seq tx (Z.lor SYN ACK) []) =
  Some (Host (w ++ [tcp_packet a b tx (seq + 1) ACK []]) (bare id sock dev a b TS_ESTABLISHED 1 tx (seq + 1)) [] []).
Proof.
  intros Ha Hb Ht Hs. set (t := bare id sock dev a b TS_SYN_SENT 0 tx 0).
  destruct (segment_fields b a seq tx (Z.lor SYN ACK) [] 40) as (F1 & F2 & F3 & _); [done|done|lia|lia|flag_range|by apply Forall_nil|].
  apply (deliver_control w t seq tx (Z.lor SYN ACK) _ _ PACKET_DELIVERED); try done; [lia|]. unfold tcp_forward_state. change (state t) with TS_SYN_SENT. unfold TS_SYN_SENT at 1 2 3, TS_CLOSED, TS_LISTEN. cbn iota. cbn [Z.eqb Pos.eqb]. cbn iota.
  unfold tcp_forward_syn_sent. change (remote t) with b. change (local t) with a. rewrite check_close_none by (done || lia || flag_range). rewrite bind_some. change (PACKET_DROPPED =? PACKET_DELIVERED) with false. cbn iota. rewrite F3, F1, F2, !bind_some.
  change (negb (Z.lor SYN ACK =? Z.lor SYN ACK)) with false. change (tx_last_seq t) with tx. rewrite Z.eqb_refl. cbn [negb]. cbn iota.
  rewrite tcp_send_control; [|by split|done|done]. change (has ACK ACK) with true. change ((ACK =? SYN) || has ACK FIN) with false. cbn iota. cbn [net_send sent_packets]. rewrite !bind_some. cbn [rx_last_seq set_state set_rx_last]. by rewrite (u32_small (seq + 1)) by lia.
Qed.

Lemma last_ack_ok w id sock dev a b tx rx ack : address_ok a → address_ok b → 0 ≤ rx < 2 ^ 32 → 0 ≤ ack < 2 ^ 32 →
  host_deliver (Host w (bare id sock dev b a TS_SYN_RECV 0 tx rx) [] []) (tcp_packet a b rx ack ACK []) =
  Some (Host w (bare id sock dev b a TS_ESTABLISHED 0 ack rx) [] []).
Proof.
  intros Ha Hb Ht Hs. set (t := bare id sock dev b a TS_SYN_RECV 0 tx rx).
  destruct (segment_fields a b rx ack ACK [] 40) as (F1 & F2 & F3 & _); [done|done|lia|lia|flag_range|by apply Forall_nil|].
  apply (deliver_control w t rx ack ACK _ _ PACKET_DELIVERED); try done. unfold tcp_forward_state. change (state t) with TS_SYN_RECV. change (TS_SYN_RECV =? TS_CLOSED) with false. change (TS_SYN_RECV =? TS_LISTEN) with false. change (TS_SYN_RECV =? TS_SYN_SENT) with false. change (TS_SYN_RECV =? TS_SYN_RECV) with true. cbn iota.
  unfold tcp_forward_syn_recv. change (remote t) with a. change (local t) with b. rewrite check_close_none by (done || lia || flag_range). rewrite bind_some. change (PACKET_DROPPED =? PACKET_DELIVERED) with false. cbn iota. rewrite F3, F1, F2, !bind_some.
  change (negb (ACK =? ACK)) with false. change (rx_last_seq t) with rx. by rewrite Z.eqb_refl.
Qed.

Lemma control_ok src dest isn isn' fin fin' seq ack flags : 0 ≤ seq < 2 ^ 32 → 0 ≤ ack ≤ isn' → isn' < 2 ^ 32 → 0 ≤ flags < 4096 → has flags RST = false → has flags FIN = false →
  packet_ok src dest isn [] fin isn' [] fin' (tcp_packet src dest seq ack flags []).
Proof. intros ????? Hfin. exists seq, ack, flags, []. rewrite Hfin. split_and!; try done; try lia; simpl; [by apply Forall_nil|lia..|by left]. Qed.

Lemma handshake_ok rand_a rand_b ida idb idc socka sockb deva devb a b : address_ok a → address_ok b →
  let isna := snd (rand rand_a) + 1 in let isnb := snd (rand rand_b) + 1 in
  ∃ l, handshake rand_a rand_b (tcp_alloc_endpoint ida socka deva a None) (tcp_alloc_endpoint idb sockb devb b None) idc = Some l ∧ link_ok isna isnb l ∧
    ∀ c, h_written (side c l) = [] ∧ h_read (side c l) = [].
Proof.
  intros Ha Hb isna isnb. pose proof (rand_range rand_a) as Hra. pose proof (rand_range rand_b) as Hrb. unfold RAND_MAX in *. unfold handshake.
  destruct (accept_ok rand_b idb sockb devb idc a b (snd (rand rand_a)) 40 Ha Hb ltac:(lia)) as (tl & Efw & tl' & Eac).
  destruct (tcp_endpoint_listen (tcp_alloc_endpoint idb sockb devb b None) 5) as [t0 r0] eqn:El. cbn [fst] in Efw. assert (Elb : local t0 = b) by (unfold tcp_endpoint_listen in El; cbn in El; by injection El as <- <-). rewrite Elb.
  rewrite connect_ok, bind_some by done. cbn [lookup list_lookup]. rewrite bind_some, received_control, bind_some by (done || lia || flag_range).
  rewrite Efw, bind_some. cbn [lookup list_lookup]. rewrite bind_some, Eac, !bind_some. cbn [lookup list_lookup]. rewrite bind_some, syn_ack_ok, bind_some by (done || lia). cbn [h_sent lookup list_lookup app]. rewrite bind_some.
  rewrite last_ack_ok, bind_some by (done || lia). eexists. split; [done|]. split; [|by intros []].
  assert (F : ∀ id sock dev x y conn tx rx f, address_ok x → address_ok y → 0 ≤ tx < 2 ^ 32 → 0 ≤ rx < 2 ^ 32 → end_ok (bare id sock dev x y TS_ESTABLISHED conn tx rx) tx [] rx [] f []) by (intros; by apply fresh_end_ok).
  subst isna isnb. split; (split; [apply F; done || (cbn [isn negb]; lia)|]); (split; [|done]); repeat (apply Forall_cons; split); try apply Forall_nil; try done; apply control_ok; done || (cbn [isn negb]; lia) || flag_range.
Qed.

(** ** Runs *)

Lemma to_send_cons b op ops : to_send b (op :: ops) = (to_send b [op] + to_send b ops)%nat.
Proof. unfold to_send. cbn [fmap list_fmap sum_list]. lia. Qed.

Lemma link_run_ok isna isnb l ops : 0 ≤ isna → 0 ≤ isnb → link_ok isna isnb l → careful l ops = true →
  (∀ b, isn isna isnb b + zlen (h_written (side b l)) + Z.of_nat (to_send b ops) < 2 ^ 32) →
  ∃ l', link_run l ops = Some l' ∧ link_ok isna isnb l'.
Proof.
  intros Ha Hb. revert l. induction ops as [|op ops IH]; intros l Hok Hc Hmax; [by exists l|]. cbn [link_run careful] in *.
  assert (Hop : ∀ b, to_send b (op :: ops) = (to_send b [op] + to_send b ops)%nat) by (intros; apply to_send_cons).
  apply andb_true_iff in Hc as [Hg Hc]. destruct (link_step_ok isna isnb Ha Hb l op Hok Hg) as (l' & E & Hok' & Hlen).
  { intros b. specialize (Hmax b). rewrite Hop in Hmax. lia. }
  rewrite E in *. rewrite bind_some. apply IH; [done..|]. intros b. specialize (Hmax b). specialize (Hlen b). rewrite Hop in Hmax. lia.
Qed.

Lemma link_ok_prefix isna isnb l b : link_ok isna isnb l → h_read (side b l) `prefix_of` h_written (side (negb b) l).
Proof.
  intros Hok. assert (Hb : side_ok isna isnb b l) by (destruct Hok; by destruct b). destruct Hb as ([] & _). destruct eo_rx as (m & _ & -> & _). apply prefix_take.
Qed.

(** C2: Two hosts that have made a connection, over a network that loses,
    repeats and reorders packets, and that write, read and close it.  On a
    [careful] run, in which a host reads only when there are bytes to read and
    does not write where its ring buffer ends, and in which the streams are
    shorter than the numbers that count them: what a process has read is the
    beginning of what the other has written, and the code is defined (nothing
    is read or written outside the buffers). *)
Theorem tcp_stream_intact rand_a rand_b ida idb idc socka sockb deva devb a b : address_ok a → address_ok b →
  ∃ l0, handshake rand_a rand_b (tcp_alloc_endpoint ida socka deva a None) (tcp_alloc_endpoint idb sockb devb b None) idc = Some l0 ∧
    ∀ ops, careful l0 ops = true → (∀ c, Z.of_nat (to_send c ops) < 2 ^ 32 - 2 ^ 16) →
    ∃ l, link_run l0 ops = Some l ∧ ∀ c, h_read (side c l) `prefix_of` h_written (side (negb c) l).
Proof.
  intros Ha Hb. destruct (handshake_ok rand_a rand_b ida idb idc socka sockb deva devb a b Ha Hb) as (l0 & E0 & Hok & Hnil).
  pose proof (rand_range rand_a) as Hra. pose proof (rand_range rand_b) as Hrb. unfold RAND_MAX in *.
  exists l0. split; [done|]. intros ops Hc Hmax.
  destruct (link_run_ok (snd (rand rand_a) + 1) (snd (rand rand_b) + 1) l0 ops ltac:(lia) ltac:(lia) Hok Hc) as (l & E & Hok').
  { intros c. destruct (Hnil c) as [-> _]. specialize (Hmax c). destruct c; cbn [isn length]; lia. }
  exists l. split; [done|]. intros c. by eapply link_ok_prefix.
Qed.

(** Two segments that arrive in the wrong order, one of them twice, an answer and the end. *)
Definition chat : list link_op :=
  [LSend false [104; 101; 108]; LSend false [108; 111]; LDeliver true 3; LDeliver true 2; LRecv true 10; LDeliver true 2;
   LDeliver true 3; LSend true [104; 105]; LDeliver false 5; LRecv false 10; LShutdown false; LDeliver true 5].
Abbreviation chat_start := (handshake 1 2 (tcp_alloc_endpoint 1 10 SLIP0 (Ipv4 1 1000) None) (tcp_alloc_endpoint 2 11 SLIP0 (Ipv4 2 80) None) 3).

Lemma chat_careful l0 : chat_start = Some l0 → careful l0 chat = true.
Proof.
  intros E. assert (Hc : match chat_start with Some l => careful l chat | None => false end = true) by (vm_compute; reflexivity).
  rewrite E in Hc. exact Hc.
Qed.

Lemma tcp_stream_intact_witness : ∃ l0 l, chat_start = Some l0 ∧ careful l0 chat = true ∧
  link_run l0 chat = Some l ∧ ∀ c, h_read (side c l) `prefix_of` h_written (side (negb c) l).
Proof.
  destruct (tcp_stream_intact 1 2 1 2 3 10 11 SLIP0 SLIP0 (Ipv4 1 1000) (Ipv4 2 80)) as (l0 & E0 & Hrun); [vm_compute; by repeat split..|].
  pose proof (chat_careful l0 E0) as Hc. destruct (Hrun chat Hc) as (l & El & Hp); [by intros []|]. exists l0, l. exact (conj E0 (conj Hc (conj El Hp))).
Defined.

Example chat_arrives : (l0 ← chat_start; l ← link_run l0 chat; Some (h_read (end_a l), h_read (end_b l))) =
  Some ([104; 105], [104; 101; 108; 108; 111]).
Proof. vm_compute. reflexivity. Qed.
