(* ===== verification/Net.v ===== *)
(** * Net: interfaces and the delivery of packets (kernel/net/if.c, protocol.c, protocol/ipv4.c)

    The interface is the SLIP one: [active_ifdevs] holds in each slot a null
    pointer or its number [SLIP0].  What a socket sends goes to the interface
    and from there to the device; what the interface has received is given to
    the protocols by the bottom half. *)

From S2P Require Import Prelude Queue Result Iovec Ringbuffer Numconv Packet Inet Slip Slipinv Bh Udp Tcp.

Definition IFDEV_MAX : nat := 2.
Definition IFF_UP : Z := 1.
Definition IFF_DEBUG : Z := 4.
Definition IFF_SET_MASK : Z := Z.lor IFF_UP IFF_DEBUG.
Definition SU_UID : Z := 0.
Definition ENODEV : Z := -19.
Definition EPERM : Z := -1.
Definition IFREQ_SIZE : Z := 32.
Definition _IOC_OUT : Z := 0x80000000.
Definition _IOC_IN : Z := 0x40000000.
Definition _IOCPARM_MASK : Z := 0x1FFF.
Definition _IO_TYPE (req : Z) : Z := Z.land (Z.shiftr req 8) 255.
Definition _IO_PARAM (req : Z) : Z := Z.land (Z.shiftr req 16) _IOCPARM_MASK.
Definition if_request (num dir : Z) : Z := s32 (Z.lor (Z.lor (Z.lor (Z.shiftl 73 8) num) (Z.shiftl (Z.land IFREQ_SIZE _IOCPARM_MASK) 16)) dir).
Definition SIOCGIFFLAGS : Z := if_request 10 _IOC_OUT.
Definition SIOCSIFFLAGS : Z := if_request 11 _IOC_IN.
Definition SIOCGIFADDR : Z := if_request 12 _IOC_OUT.
Definition SIOCSIFADDR : Z := if_request 13 _IOC_IN.

(** struct ifreq: the name, and the union of an address and (where the family is) the flags. *)
Record ifreq := Ifreq { ifr_name : list Z; ifr_addr : sockaddr_in }.
Definition ifr_flags (r : ifreq) : Z := s16 (sin_family (ifr_addr r)).
Definition set_ifr_flags (r : ifreq) (x : Z) : ifreq := Ifreq (ifr_name r) (SockaddrIn (u16 x) (sin_port (ifr_addr r)) (sin_addr (ifr_addr r))).

(** The name of the interface, slip0. *)
Definition slip_name : list Z := [115; 108; 105; 112; 48].

Definition set_flags i x := IfDevice x (if_family i) (if_address i) (incoming_proto i) (rx_queue i) (tx_queue i) (rx_packets i) (rx_errors i) (rx_dropped i) (tx_packets i).
Definition set_incoming i x := IfDevice (if_flags i) (if_family i) (if_address i) x (rx_queue i) (tx_queue i) (rx_packets i) (rx_errors i) (rx_dropped i) (tx_packets i).
Definition set_address i f a := IfDevice (if_flags i) f a (incoming_proto i) (rx_queue i) (tx_queue i) (rx_packets i) (rx_errors i) (rx_dropped i) (tx_packets i).
Definition count_rx i p e d := IfDevice (if_flags i) (if_family i) (if_address i) (incoming_proto i) (rx_queue i) (tx_queue i) (s32 (rx_packets i + p)) (s32 (rx_errors i + e)) (s32 (rx_dropped i + d)) (tx_packets i).

#[export] Instance protocol_eq_dec : EqDecision protocol.
Proof. solve_decision. Defined.

(** The device, the interface on it, and the sockets woken and for what. *)
Record net_io (D : Type) := NetIo { io_dev : D; io_slip : slip_if_device; io_woken : list (Z * Z) }.
Arguments NetIo {D} _ _ _.
Arguments io_dev {D} _.
Arguments io_slip {D} _.
Arguments io_woken {D} _.

Record net (D : Type) := Net {
  n_io : net_io D;
  n_bh : bh;
  active_ifdevs : list (option Z);
  proto_list : list (option protocol);
  udp_endpoints : list udp_endpoint;
  tcp_endpoints : list tcp_endpoint;
  rand_next : Z;
}.
Arguments Net {D} _ _ _ _ _ _ _.
Arguments n_io {D} _.
Arguments n_bh {D} _.
Arguments active_ifdevs {D} _.
Arguments proto_list {D} _.
Arguments udp_endpoints {D} _.
Arguments tcp_endpoints {D} _.
Arguments rand_next {D} _.

Section net.
Context {D : Type} `{ByteDevice D}.

#[export] Instance net_world : NetWorld (net_io D) := {|
  net_send io dev pack := if dev =? SLIP0 then '(d, s) ← net_if_send_packet (io_dev io) (io_slip io) pack; Some (NetIo d s (io_woken io)) else None;
  net_wakeup io sock events := NetIo (io_dev io) (io_slip io) (io_woken io ++ [(sock, events)]);
|}.

Definition set_io (n : net D) (x : net_io D) : net D := Net x (n_bh n) (active_ifdevs n) (proto_list n) (udp_endpoints n) (tcp_endpoints n) (rand_next n).
Definition set_bh (n : net D) x : net D := Net (n_io n) x (active_ifdevs n) (proto_list n) (udp_endpoints n) (tcp_endpoints n) (rand_next n).
Definition set_active (n : net D) x : net D := Net (n_io n) (n_bh n) x (proto_list n) (udp_endpoints n) (tcp_endpoints n) (rand_next n).
Definition set_udp (n : net D) x : net D := Net (n_io n) (n_bh n) (active_ifdevs n) (proto_list n) x (tcp_endpoints n) (rand_next n).
Definition set_tcp (n : net D) x : net D := Net (n_io n) (n_bh n) (active_ifdevs n) (proto_list n) (udp_endpoints n) x (rand_next n).
Definition set_rand (n : net D) x : net D := Net (n_io n) (n_bh n) (active_ifdevs n) (proto_list n) (udp_endpoints n) (tcp_endpoints n) x.
Definition if_of (n : net D) : if_device := sl_if (io_slip (n_io n)).
Definition set_if_of (n : net D) (i : if_device) : net D := set_io n (NetIo (io_dev (n_io n)) (set_if (io_slip (n_io n)) i) (io_woken (n_io n))).

(** ** Interfaces *)

Definition init_net_if (n : net D) (process_bh : Z) : option (net D) :=
  b ← register_bh (n_bh n) BH_NET process_bh;
  Some (set_active (set_bh n (enable_bh b BH_NET)) (replicate IFDEV_MAX None)).

(** Every free slot is filled. *)
Definition net_if_register_device (n : net D) (dev : Z) : net D * Z :=
  (set_active n ((λ s, match s with None => Some dev | Some d => Some d end) <$> active_ifdevs n), 0).

(** [None] when a null pointer is used. *)
Fixpoint net_if_search (i : if_device) (slots : list (option Z)) (name : option (list Z)) (q : option protocol) : option (option Z) :=
  match slots with
  | [] => Some None
  | slot :: slots =>
      named ← match name with None => Some true | Some s => _ ← slot; Some (bool_decide (s = slip_name)) end;
      if negb named then net_if_search i slots name q
      else
        found ← match q with None => Some true | Some q => _ ← slot; Some (bool_decide (incoming_proto i = Some q)) end;
        if found : bool then Some slot else net_if_search i slots name q
  end.
Definition net_if_find (n : net D) (name : option (list Z)) (q : option protocol) : option (option Z) := net_if_search (if_of n) (active_ifdevs n) name q.

Section device.
(** dev_open and dev_close of the interface's device. *)
Context (dev_open dev_close : D → D * Z).

Definition slip_if_up (n : net D) : net D * Z :=
  let '(d, error) := dev_open (io_dev (n_io n)) in
  let n := set_io n (NetIo d (io_slip (n_io n)) (io_woken (n_io n))) in
  if negb (error =? 0) then (n, error) else (set_bh n (enable_bh (n_bh n) BH_SLIP), 0).

Definition slip_if_down (n : net D) : net D * Z :=
  let n := set_bh n (disable_bh (n_bh n) BH_SLIP) in
  let '(d, error) := dev_close (io_dev (n_io n)) in
  (set_io n (NetIo d (io_slip (n_io n)) (io_woken (n_io n))), error).

Definition net_if_change_state (n : net D) (state : Z) : net D * Z :=
  let finish n := (set_if_of n (set_flags (if_of n) (u16 (Z.land state IFF_SET_MASK))), 0) in
  if Z.lxor (Z.land (if_flags (if_of n)) IFF_UP) (Z.land state IFF_UP) =? 0 then finish n
  else if negb (Z.land state IFF_UP =? 0) then
    if if_family (if_of n) =? 0 then (n, -1)
    else
      let n := set_if_of n (set_incoming (if_of n) (Some ipv4_protocol)) in
      let '(n, error) := slip_if_up n in
      if negb (error =? 0) then (n, error) else finish n
  else
    let '(n, error) := slip_if_down n in
    if negb (error =? 0) then (n, error) else finish n.

Definition net_if_ioctl (n : net D) (request : Z) (r : ifreq) (uid : Z) : option (net D * ifreq * Z) :=
  if negb (_IO_TYPE request =? 73) || negb (_IO_PARAM request =? IFREQ_SIZE) then Some (n, r, EINVAL)
  else
    found ← net_if_find n (Some (ifr_name r)) None;
    match found with
    | None => Some (n, r, ENODEV)
    | Some _ =>
        if request =? SIOCGIFFLAGS then Some (n, set_ifr_flags r (if_flags (if_of n)), 0)
        else if request =? SIOCSIFFLAGS then
          if negb (uid =? SU_UID) then Some (n, r, EPERM) else let '(n, error) := net_if_change_state n (ifr_flags r) in Some (n, r, error)
        else if request =? SIOCGIFADDR then
          Some (n, Ifreq (ifr_name r) (SockaddrIn (if_family (if_of n)) (port (if_address (if_of n))) (addr (if_address (if_of n)))), 0)
        else if request =? SIOCSIFADDR then
          if negb (uid =? SU_UID) then Some (n, r, EPERM)
          else Some (set_if_of n (set_address (if_of n) (sin_family (ifr_addr r)) (Ipv4 (sin_addr (ifr_addr r)) (sin_port (ifr_addr r)))), r, 0)
        else Some (n, r, -1)
    end.
End device.

(** ** Packets that arrive *)

(** The forward_packet operation of a protocol. *)
Definition transport_forward (n : net D) (q : protocol) (pack : packet) : option (net D * Z) :=
  if protocol_num q =? IPPROTO_UDP then
    let '(io, eps, ret) := udp_forward_packet (n_io n) (udp_endpoints n) pack in Some (set_udp (set_io n io) eps, ret)
  else if protocol_num q =? IPPROTO_TCP then
    '(io, eps, ret) ← tcp_forward_packet (n_io n) (tcp_endpoints n) pack; Some (set_tcp (set_io n io) eps, ret)
  else
    '(ret, reply) ← icmp_forward_packet q pack;
    match reply with
    | None => Some (n, ret)
    | Some reply => io ← net_send (n_io n) (ifdev reply) reply; Some (set_io n io, ret)
    end.

Definition ipv4_forward_packet (n : net D) (q : protocol) (pack : packet) : option (net D * Z) :=
  match proto pack with
  | None => Some (n, PACKET_DROPPED)
  | Some p => if bool_decide (p = q) then Some (n, PACKET_DROPPED) else transport_forward n p pack
  end.

(** net_incoming_packet for the protocol of an interface, which is IPv4. *)
Definition net_incoming_packet (n : net D) (q : protocol) (pack : packet) : option (net D * Z) :=
  '(pack, error) ← ipv4_decode_header (S (Z.to_nat (pack_length pack))) (proto_list n) pack 0;
  if negb (error =? 0) then Some (n, PACKET_ERROR)
  else
    '(n, error) ← ipv4_forward_packet n q pack;
    Some (n, if error =? PACKET_DELIVERED then PACKET_DELIVERED else PACKET_DROPPED).

(** The while loop of net_if_process_bh; [fuel] bounds the packets. *)
Fixpoint process_queue (fuel : nat) (n : net D) : option (net D) :=
  match rx_queue (if_of n) with
  | [] => Some n
  | pack :: q =>
      match fuel with
      | O => None
      | S fuel =>
          let n := set_if_of n (set_rx_queue (count_rx (if_of n) 1 0 0) q) in
          match incoming_proto (if_of n) with
          | None => process_queue fuel (set_if_of n (count_rx (if_of n) 0 0 1))
          | Some p =>
              '(n, error) ← net_incoming_packet n p pack;
              process_queue fuel
                (if error =? PACKET_DROPPED then set_if_of n (count_rx (if_of n) 0 0 1)
                 else if error =? PACKET_ERROR then set_if_of n (count_rx (if_of n) 0 1 0) else n)
          end
      end
  end.

(** The slots of net_if_process_bh. *)
Fixpoint process_slots (fuel : nat) (n : net D) (slots : list (option Z)) : option (net D) :=
  match slots with
  | [] => Some n
  | slot :: slots => _ ← slot; n ← process_queue fuel n; process_slots fuel n slots
  end.
Definition net_if_process_bh (fuel : nat) (n : net D) : option (net D) := process_slots fuel n (active_ifdevs n).
End net.
