(* ===== verification/Socket.v ===== *)
(** * Socket: sockets (kernel/net/socket.c, the endpoints of protocol.c)

    A socket is the part of its vnode that follows the inode fields; its
    endpoint, of the protocol of the socket, is found by its number.  The
    operations give the new state, the result and, where the system call is
    suspended, the events it waits for. *)

From S2P Require Import Prelude Queue Result Iovec Ringbuffer Numconv Packet Inet Slip Slipinv Bh Serial Udp Tcp Net.

Definition ENFILE : Z := -23.
Definition EBADF : Z := -9.
Definition SHUT_RD : Z := 0.
Definition SHUT_WR : Z := 1.
Definition SHUT_RDWR : Z := 2.

Record socket := Socket {
  sk_id : Z;
  sk_domain : Z;
  sk_type : Z;
  wait_events : Z;
  sk_proto : protocol;
  sk_ep : option Z;
}.
Definition set_sk_ep k x := Socket (sk_id k) (sk_domain k) (sk_type k) (wait_events k) (sk_proto k) x.

Section socket.
Context {D : Type} `{ByteDevice D}.

(** [vnode] and [file] are what kmalloc and new_fileptr give. *)
Definition net_socket_create (n : net D) (domain type protocol : Z) (vnode : option Z) (file : bool) : option socket * Z :=
  match net_get_protocol (proto_list n) domain type protocol with
  | None => (None, EAFNOSUPPORT)
  | Some q =>
      match vnode with
      | None => (None, 0)
      | Some v => if file then (Some (Socket v (u8 domain) (u8 type) 0 q None), 0) else (None, ENFILE)
      end
  end.

Definition is_udp (q : protocol) : bool := protocol_num q =? IPPROTO_UDP.
Definition is_tcp (q : protocol) : bool := protocol_num q =? IPPROTO_TCP.
Definition find_udp (n : net D) (id : Z) : option udp_endpoint := List.find (λ e, ue_id e =? id) (udp_endpoints n).
Definition find_tcp (n : net D) (id : Z) : option tcp_endpoint := List.find (λ e, te_id e =? id) (tcp_endpoints n).
Definition put_udp (n : net D) (e : udp_endpoint) : net D := set_udp n (update_endpoint (udp_endpoints n) e).
Definition put_tcp (n : net D) (io : net_io D) (t : tcp_endpoint) : net D := set_tcp (set_io n io) (update_tcp (tcp_endpoints n) t).

(** The other protocols have no endpoints; [new] is the memory from kmalloc. *)
Definition net_create_endpoint (n : net D) (k : socket) (sockaddr : option sockaddr_in) (len new : Z) : option (net D * socket * Z) :=
  if is_udp (sk_proto k) || is_tcp (sk_proto k) then
    dev ← net_if_find n None (Some ipv4_protocol);
    let dev := (λ d, (d, if_address (if_of n))) <$> dev in
    if is_udp (sk_proto k) then
      '(r, eps, ep, error) ← udp_create_endpoint (rand_next n) (udp_endpoints n) dev (sk_id k) sockaddr len new;
      Some (set_udp (set_rand n r) eps, if error =? 0 then set_sk_ep k ep else k, error)
    else
      '(r, eps, ep, error) ← tcp_create_endpoint (rand_next n) (tcp_endpoints n) dev (sk_id k) sockaddr len new;
      Some (set_tcp (set_rand n r) eps, if error =? 0 then set_sk_ep k ep else k, error)
  else Some (n, k, EAFNOSUPPORT).

Definition net_destroy_endpoint (n : net D) (k : socket) (ep : Z) : option (net D * Z) :=
  if is_udp (sk_proto k) then Some (set_udp n (udp_destroy_endpoint (udp_endpoints n) ep), 0)
  else t ← find_tcp n ep; '(io, eps) ← tcp_destroy_endpoint (n_io n) (tcp_endpoints n) t; Some (set_tcp (set_io n io) eps, 0).

(** net_socket_close; net_socket_release_vnode then frees the vnode. *)
Definition net_socket_close (n : net D) (k : socket) : option (net D * socket * Z) :=
  match sk_ep k with
  | None => Some (n, k, 0)
  | Some ep => '(n, _) ← net_destroy_endpoint n k ep; Some (n, set_sk_ep k None, 0)
  end.
Definition net_socket_release_vnode (n : net D) (k : socket) : option (net D * Z) :=
  '(n, _, _) ← net_socket_close n k; Some (n, 0).

Definition net_socket_bind (n : net D) (k : socket) (a : option sockaddr_in) (len new : Z) : option (net D * socket * Z) :=
  match a with
  | None => Some (n, k, EAFNOSUPPORT)
  | Some s =>
      if negb (sin_family s =? sk_domain k) then Some (n, k, EAFNOSUPPORT)
      else match sk_ep k with Some _ => Some (n, k, EISCONN) | None => net_create_endpoint n k a len new end
  end.

(** Waiting for [events] when the operation would block. *)
Definition suspending (result events : Z) : Z * option Z := if result =? EWOULDBLOCK then (0, Some events) else (result, None).

Definition net_socket_connect (n : net D) (k : socket) (a : sockaddr_in) (new : Z) : option (net D * socket * (Z * option Z)) :=
  '(n, k, error) ← match sk_ep k with Some _ => Some (n, k, 0) | None => net_create_endpoint n k None 0 new end;
  if negb (error =? 0) then Some (n, k, (error, None))
  else
    ep ← sk_ep k;
    if is_udp (sk_proto k) then
      e ← find_udp n ep; let '(e, result) := udp_endpoint_connect e a in Some (put_udp n e, k, suspending result VFS_POLL_READ)
    else
      t ← find_tcp n ep; '(io, r, t, result) ← tcp_endpoint_connect (n_io n) (rand_next n) t a;
      Some (set_rand (put_tcp n io t) r, k, suspending result VFS_POLL_READ).

Definition net_socket_listen (n : net D) (k : socket) (queue : Z) : option (net D * Z) :=
  match sk_ep k with
  | None => Some (n, ENOTCONN)
  | Some ep =>
      if is_udp (sk_proto k) then Some (n, EAFNOSUPPORT)
      else t ← find_tcp n ep; let '(t, result) := tcp_endpoint_listen t queue in Some (put_tcp n (n_io n) t, result)
  end.

(** The new endpoint is [newep]; [vnode] and [file] are for the new socket.
    The address of the peer goes where the caller has it. *)
Definition net_socket_accept (n : net D) (k : socket) (newep : Z) (vnode : option Z) (file : bool) : option (net D * option socket * option sockaddr_in * (Z * option Z)) :=
  match sk_ep k with
  | None => Some (n, None, None, (ENOTCONN, None))
  | Some ep =>
      if is_udp (sk_proto k) then Some (n, None, None, (EAFNOSUPPORT, None))
      else
        t ← find_tcp n ep;
        '(io, r, t, c, error) ← tcp_endpoint_accept (n_io n) (rand_next n) t newep;
        let n := set_rand (put_tcp n io t) r in
        let n := match c with Some c => set_tcp n (c :: tcp_endpoints n) | None => n end in
        if error =? EWOULDBLOCK then Some (n, None, None, (0, Some VFS_POLL_READ))
        else if negb (error =? 0) then Some (n, None, None, (error, None))
        else
          c ← c;
          let peer := Some (inet_load_sockaddr (remote c)).1 in
          let '(client, error) := net_socket_create n (sk_domain k) (sk_type k) (protocol_num (sk_proto k)) vnode file in
          if negb (error =? 0) then Some (n, None, peer, (error, None))
          else client ← client; Some (put_tcp n (n_io n) (set_te_sock c (sk_id client)), Some (set_sk_ep client (Some newep)), peer, (0, None))
  end.

Definition net_socket_shutdown (n : net D) (k : socket) (how : Z) : option (net D * Z) :=
  match sk_ep k with
  | None => Some (n, ENOTCONN)
  | Some ep =>
      if negb (how =? SHUT_RD) && negb (how =? SHUT_WR) && negb (how =? SHUT_RDWR) then Some (n, EINVAL)
      else if is_udp (sk_proto k) then Some (n, 0)
      else t ← find_tcp n ep; '(io, t, result) ← tcp_endpoint_shutdown (n_io n) t; Some (put_tcp n io t, result)
  end.

Definition net_socket_send (n : net D) (k : socket) (iter : iovec_iter) : option (net D * iovec_iter * (Z * option Z)) :=
  match sk_ep k with
  | None => Some (n, iter, (ENOTCONN, None))
  | Some ep =>
      if is_udp (sk_proto k) then Some (n, iter, (EAFNOSUPPORT, None))
      else t ← find_tcp n ep; '(io, t, iter, result) ← tcp_endpoint_send (n_io n) t iter; Some (put_tcp n io t, iter, suspending result VFS_POLL_WRITE)
  end.

Definition net_socket_recv (n : net D) (k : socket) (iter : iovec_iter) : option (net D * iovec_iter * (Z * option Z)) :=
  match sk_ep k with
  | None => Some (n, iter, (ENOTCONN, None))
  | Some ep =>
      if is_udp (sk_proto k) then Some (n, iter, (EAFNOSUPPORT, None))
      else t ← find_tcp n ep; '(t, iter, result) ← tcp_endpoint_recv t iter; Some (put_tcp n (n_io n) t, iter, suspending result VFS_POLL_READ)
  end.

(** [is_sock] is S_ISSOCK of the mode of the vnode. *)
Definition net_socket_read (n : net D) (k : socket) (is_sock : bool) (iter : iovec_iter) : option (net D * iovec_iter * (Z * option Z)) :=
  if negb is_sock then Some (n, iter, (EBADF, None)) else net_socket_recv n k iter.
Definition net_socket_write (n : net D) (k : socket) (is_sock : bool) (iter : iovec_iter) : option (net D * iovec_iter * (Z * option Z)) :=
  if negb is_sock then Some (n, iter, (EBADF, None)) else net_socket_send n k iter.

Definition net_socket_sendto (n : net D) (k : socket) (iter : iovec_iter) (a : sockaddr_in) (new : Z) : option (net D * socket * iovec_iter * Z) :=
  if negb (sin_family a =? sk_domain k) then Some (n, k, iter, EINVAL)
  else
    '(n, k, error) ← match sk_ep k with Some _ => Some (n, k, 0) | None => net_create_endpoint n k None 0 new end;
    if negb (error =? 0) then Some (n, k, iter, error)
    else if negb (is_udp (sk_proto k)) then Some (n, k, iter, EAFNOSUPPORT)
    else
      ep ← sk_ep k; e ← find_udp n ep;
      '(io, iter, result) ← udp_endpoint_send_to (n_io n) e iter (Some a);
      Some (set_io n io, k, iter, result).

Definition net_socket_recvfrom (n : net D) (k : socket) (iter : iovec_iter) (want : bool) : option (net D * iovec_iter * option (sockaddr_in * Z) * (Z * option Z)) :=
  match sk_ep k with
  | None => Some (n, iter, None, (ENOTCONN, None))
  | Some ep =>
      if negb (is_udp (sk_proto k)) then Some (n, iter, None, (EAFNOSUPPORT, None))
      else e ← find_udp n ep; '(e, iter, from, result) ← udp_endpoint_recv_from e iter want; Some (put_udp n e, iter, from, suspending result VFS_POLL_READ)
  end.

(** The process's request is read and written back. *)
Definition net_socket_ioctl (dev_open dev_close : D → D * Z) (n : net D) (is_sock : bool) (request : Z) (r : ifreq) (uid : Z) : option (net D * ifreq * Z) :=
  if negb is_sock then Some (n, r, EBADF) else net_if_ioctl dev_open dev_close n (s32 request) r uid.

Definition net_socket_poll (n : net D) (k : socket) (is_sock : bool) (events : Z) : option Z :=
  if negb is_sock then Some EBADF
  else match sk_ep k with
       | None => Some ENOTCONN
       | Some ep => if is_udp (sk_proto k) then e ← find_udp n ep; Some (udp_endpoint_poll e events) else t ← find_tcp n ep; Some (tcp_endpoint_poll t events)
       end.

Definition net_socket_get_options (n : net D) (k : socket) (optname : Z) : option (option (sockaddr_in * Z) * Z) :=
  match sk_ep k with
  | None => Some (None, ENOTCONN)
  | Some ep => if is_udp (sk_proto k) then e ← find_udp n ep; Some (udp_endpoint_get_options e optname) else t ← find_tcp n ep; Some (tcp_endpoint_get_options t optname)
  end.

(** No protocol has an option that can be set. *)
Definition net_socket_set_options (k : socket) : Z := match sk_ep k with None => ENOTCONN | Some _ => EINVAL end.
End socket.
