(* ===== verification/Netrun.v ===== *)
(** * Netrun: datagrams from a process to a process

    One machine sends datagrams from a UDP socket, another one receives them:
    through the socket, UDP, IPv4, SLIP and the serial device at either end. *)

From S2P Require Import Prelude Queue Result Iovec Ringbuffer Numconv Packet Inet Slip Slipinv Bh Serial Serialinv Sliprun Udp Tcp Tcpwire Tcpinv Net Socket.

(** ** The sender *)

Section sender.
Context {D : Type} `{DeviceLaws D}.
Context (k : socket) (dst : ipv4_address).

Inductive sender_op := SSend (data : list Z) | SInput | SDevice (f : D → D).

Definition sender_step (n : net D) (op : sender_op) : option (net D) :=
  match op with
  | SSend data =>
      '(n, _, _, _) ← net_socket_sendto n k (iovec_iter_init_simple_kvec data (zlen data)) (SockaddrIn AF_INET (port dst) (addr dst)) 0; Some n
  | SInput =>
      '(d, s) ← slip_if_process_input (io_dev (n_io n)) (io_slip (n_io n)); Some (set_io n (NetIo d s (io_woken (n_io n))))
  | SDevice f => Some (set_io n (NetIo (f (io_dev (n_io n))) (io_slip (n_io n)) (io_woken (n_io n))))
  end.

Fixpoint sender_run (n : net D) (ops : list sender_op) : option (net D) :=
  match ops with [] => Some n | op :: ops => n ← sender_step n op; sender_run n ops end.

Definition datagrams (ops : list sender_op) : list (list Z) := omap (λ op, match op with SSend data => Some data | _ => None end) ops.

Definition sender_op_ok (op : sender_op) : Prop :=
  match op with SSend data => bytes_ok data ∧ zlen data ≤ 700 | SInput => True | SDevice f => quiet f end.

(** The socket has the endpoint [e], with address [src]. *)
Definition sender_ok (n : net D) (src : ipv4_address) : Prop :=
  sk_domain k = AF_INET ∧ sk_proto k = udp_protocol ∧ ∃ ep e, sk_ep k = Some ep ∧ find_udp n ep = Some e ∧ ue_src e = src ∧ ue_ifdev e = SLIP0.

Lemma escape_length l : zlen (escape l) ≤ 2 * zlen l.
Proof.
  induction l as [|c l IH]; [done|]. unfold escape in *. cbn [fmap list_fmap concat length]. rewrite length_app.
  assert (length (escape1 c) ≤ 2)%nat by (unfold escape1; repeat case_match; simpl; lia). lia.
Qed.

Lemma udp_wire_length src data : length (udp_wire src dst data) = (28 + length data)%nat.
Proof. unfold udp_wire. rewrite !length_app. simpl. lia. Qed.

Lemma payload_udp src data : payload (udp_packet src dst data) = udp_wire src dst data.
Proof.
  unfold payload, udp_packet. cbn [pack_length pack_data]. apply take_app_length'. rewrite udp_wire_length. lia.
Qed.

Lemma udp_sendable src data : bytes_ok data → zlen data ≤ 700 → sendable (udp_packet src dst data).
Proof.
  intros Hb Hl. unfold sendable. rewrite payload_udp. cbn [pack_length pack_data udp_packet]. pose proof (udp_wire_length src data) as Hw. split; [split|].
  - rewrite length_app. lia.
  - unfold frame, SLIP_MTU_MAX. pose proof (escape_length (udp_wire src dst data)). cbn [length]. rewrite length_app. cbn [length]. lia.
  - apply Forall_app. split; [|apply bytes_zeros]. unfold udp_wire. apply Forall_app. split; [apply ipv4_bytes_ok; unfold IPPROTO_UDP; lia|]. apply Forall_app. split; [apply udp_bytes_ok|done].
Qed.

(** Sending a datagram is sending its packet over the interface. *)
Lemma sendto_ok n src data : sender_ok n src → address_ok src → address_ok dst → bytes_ok data → zlen data ≤ 700 →
  ∃ it, net_socket_sendto n k (iovec_iter_init_simple_kvec data (zlen data)) (SockaddrIn AF_INET (port dst) (addr dst)) 0 =
    ('(d, s) ← net_if_send_packet (io_dev (n_io n)) (io_slip (n_io n)) (udp_packet src dst data);
     Some (set_io n (NetIo d s (io_woken (n_io n))), k, it, zlen data)).
Proof.
  intros (Hd & Hp & ep & e & Hep & Hf & Hsrc & Hdev) Hs Hdst Hb Hl. unfold net_socket_sendto. cbn [sin_family]. rewrite Hd, Z.eqb_refl, Hep, bind_some. cbn [negb Z.eqb]. cbn iota. rewrite Hp. change (negb (is_udp udp_protocol)) with false. cbn iota.
  rewrite Hep, bind_some, Hf, bind_some. unfold udp_endpoint_send_to. cbn [sin_addr sin_port]. assert (Edst : Ipv4 (addr dst) (port dst) = dst) by (by destruct dst). rewrite Edst, Hsrc.
  pose proof (simple_iter_rel data ltac:(lia)) as Hrel. rewrite (iter_remaining_spec _ _ _ Hrel).
  destruct (udp_create_ok src dst _ _ _ Hs Hdst Hrel Hb ltac:(lia)) as (it' & -> & _). exists it'. rewrite !bind_some. cbn [net_send net_world]. rewrite Hdev, Z.eqb_refl, drop_0.
  replace (s32 (Z.of_nat (length data - 0))) with (zlen data) by (rewrite s32_small; lia).
  by destruct (net_if_send_packet _ _ _) as [[d s]|].
Qed.

(** A run of the sender: its interface has sent the datagrams. *)
Lemma sender_run_ok n src w0 got sent ops : sender_ok n src → address_ok src → address_ok dst →
  slip_rel (io_dev (n_io n)) (io_slip (n_io n)) w0 got [] sent → Forall sender_op_ok ops →
  ∃ n' got', sender_run n ops = Some n' ∧ sender_ok n' src ∧ slip_rel (io_dev (n_io n')) (io_slip (n_io n')) w0 got' [] (sent ++ (udp_wire src dst <$> datagrams ops)).
Proof.
  intros Hn Hs Hd Hr Hops. revert n got sent Hn Hr. induction Hops as [|op ops Hop _ IH]; intros n got sent Hn Hr; cbn [sender_run].
  { exists n, got. cbn. by rewrite app_nil_r. }
  assert (Hstep : ∃ n1 got1, sender_step n op = Some n1 ∧ sender_ok n1 src ∧ slip_rel (io_dev (n_io n1)) (io_slip (n_io n1)) w0 got1 [] (sent ++ (udp_wire src dst <$> datagrams [op]))).
  { destruct op as [data| |f]; cbn [sender_step sender_op_ok datagrams omap list_omap fmap list_fmap] in *.
    - destruct Hop as [Hb Hl]. destruct (sendto_ok n src data Hn Hs Hd Hb Hl) as (it & ->).
      destruct (slip_step_ok _ _ _ _ _ _ (SlSend (udp_packet src dst data)) Hr (udp_sendable src data Hb Hl)) as (d & s & t & got' & E & Hr'). cbn [slip_step] in E.
      destruct (net_if_send_packet _ _ _) as [[d0 s0]|]; [|done]. injection E as -> -> <-. rewrite !bind_some. exists (set_io n (NetIo d s (io_woken (n_io n)))), got'. split; [done|]. split; [done|].
      cbn [slip_sent omap list_omap] in Hr'. by rewrite payload_udp in Hr'.
    - destruct (step_input _ _ _ _ _ _ Hr) as (d & s & got' & -> & Hr' & _). rewrite bind_some. eexists _, got'. split; [done|]. split; [done|]. by rewrite app_nil_r.
    - destruct (slip_step_ok _ _ _ _ _ _ (SlDevice f) Hr Hop) as (d & s & t & got' & E & Hr'). injection E as <- <- <-. eexists _, got'. split; [done|]. split; [done|]. done. }
  destruct Hstep as (n1 & got1 & -> & Hn1 & Hr1). rewrite bind_some. destruct (IH _ _ _ Hn1 Hr1) as (n2 & got2 & E & Hn2 & Hr2). exists n2, got2. split; [done|]. split; [done|].
  rewrite <- app_assoc, <- fmap_app in Hr2. unfold datagrams in *. by rewrite <- omap_app in Hr2.
Qed.
End sender.

(** ** The receiver *)

Lemma wires_nonempty src dst ds : Forall (λ p, p ≠ []) (udp_wire src dst <$> ds).
Proof. apply Forall_fmap, Forall_forall. intros d _. unfold compose. intros E. apply (f_equal length) in E. rewrite udp_wire_length in E. done. Qed.

Lemma lookup_port eps p e : udp_lookup_endpoint eps p = Some e → port (ue_src e) = p.
Proof.
  induction eps as [|x eps IH]; [done|]. cbn [udp_lookup_endpoint]. destruct (Z.eqb_spec (port (ue_src x)) p); [by intros [= <-]|done].
Qed.

Lemma lookup_update eps p e e' : udp_lookup_endpoint eps p = Some e → ue_id e' = ue_id e → port (ue_src e') = p → udp_lookup_endpoint (update_endpoint eps e') p = Some e'.
Proof.
  intros He Hid Hp. unfold update_endpoint. induction eps as [|x eps IH]; [done|]. cbn [udp_lookup_endpoint fmap list_fmap] in *. rewrite Hid in *.
  destruct (Z.eqb_spec (ue_id x) (ue_id e)) as [Ex|Ex]; [by rewrite Hp, Z.eqb_refl|].
  destruct (Z.eqb_spec (port (ue_src x)) p) as [Epx|Epx]; [congruence|]. by apply IH.
Qed.

Lemma find_update eps ep e e' : List.find (λ e, ue_id e =? ep) eps = Some e → ue_id e' = ue_id e → List.find (λ e, ue_id e =? ep) (update_endpoint eps e') = Some e'.
Proof.
  intros He Hid. pose proof (find_some _ _ He) as [_ Hep]. unfold update_endpoint. induction eps as [|x eps IH]; [done|]. cbn [List.find fmap list_fmap] in *. rewrite Hid in *.
  destruct (Z.eqb_spec (ue_id x) (ue_id e)) as [Ex|Ex]; [by rewrite Hid, Hep|].
  destruct (Z.eqb_spec (ue_id x) ep) as [Epx|Epx]; [lia|]. by apply IH.
Qed.

Section receiver.
Context {D : Type} `{DeviceLaws D}.
Context (k : socket) (ep : Z) (src dst : ipv4_address).

Inductive receiver_op := RInput | RBh | RRecv (size : nat) | RDevice (f : D → D).

(** The state, and for a datagram given to the process: the room there was,
    the bytes and the address of the sender. *)
Definition receiver_step (n : net D) (op : receiver_op) : option (net D * list (nat * list Z * sockaddr_in)) :=
  match op with
  | RInput =>
      '(d, s) ← slip_if_process_input (io_dev (n_io n)) (io_slip (n_io n)); Some (set_io n (NetIo d s (io_woken (n_io n))), [])
  | RBh => n ← net_if_process_bh (length (rx_queue (if_of n))) n; Some (n, [])
  | RRecv size =>
      '(n, it, from, r) ← net_socket_recvfrom n k (iovec_iter_init_simple_kvec (replicate size 0) (Z.of_nat size)) true;
      Some (n, match from with Some (a, _) => [(size, take (Z.to_nat r.1) (iter_bytes it), a)] | None => [] end)
  | RDevice f => Some (set_io n (NetIo (f (io_dev (n_io n))) (io_slip (n_io n)) (io_woken (n_io n))), [])
  end.

Fixpoint receiver_run (n : net D) (ops : list receiver_op) : option (net D * list (nat * list Z * sockaddr_in)) :=
  match ops with
  | [] => Some (n, [])
  | op :: ops => '(n, o) ← receiver_step n op; '(n, os) ← receiver_run n ops; Some (n, o ++ os)
  end.

Definition receiver_op_ok (op : receiver_op) : Prop := match op with RRecv size => Z.of_nat size < 2 ^ 31 | RDevice f => quiet f | _ => True end.

(** What the process gets of the datagram [d]. *)
Definition given (o : nat * list Z * sockaddr_in) (d : list Z) : Prop := o.1.2 = take o.1.1 d ∧ o.2 = SockaddrIn AF_INET (port src) (addr src).

(** The packet of the datagram [d], at the endpoint. *)
Definition held (p : packet) (d : list Z) : Prop := ∃ cap post, p = Packet (Some udp_protocol) SLIP0 0 20 28 src dst (28 + zlen d) cap (udp_wire src dst d ++ post).

(** The interface is up and the socket has an endpoint for the address. *)
Record receiver_ok (n : net D) (e : udp_endpoint) : Prop := {
  ro_sock : sk_proto k = udp_protocol ∧ sk_ep k = Some ep;
  ro_slots : Forall is_Some (active_ifdevs n);
  ro_protocols : proto_list n = registered;
  ro_incoming : incoming_proto (if_of n) = Some ipv4_protocol;
  ro_lookup : udp_lookup_endpoint (udp_endpoints n) (port dst) = Some e;
  ro_find : find_udp n ep = Some e;
}.

Section stream.
Context (w0 : D) (ds : list (list Z)).
Context (Hsrc : address_ok src) (Hdst : address_ok dst) (Hds : Forall (λ d, bytes_ok d ∧ zlen d ≤ 700) ds).
Context (Hline : dev_in w0 `prefix_of` concat (frame <$> (udp_wire src dst <$> ds))).

Definition receiver_rel (n : net D) (taken : list packet) (out : list (nat * list Z * sockaddr_in)) : Prop :=
  ∃ e got, receiver_ok n e ∧ slip_rel (io_dev (n_io n)) (io_slip (n_io n)) w0 got taken [] ∧
  Forall (λ p, ∃ f, p = rx_packet (Some ipv4_protocol) f) (rx_queue (if_of n)) ∧
  ∃ od qd rest, ds = od ++ qd ++ rest ∧ Forall2 given out od ∧ Forall2 held (ue_recv e) qd ∧ length taken = (length out + length (ue_recv e))%nat.

(** The packets received are those of the first datagrams. *)
Lemma received_datagrams n taken out : receiver_rel n taken out → (payload <$> (taken ++ rx_queue (if_of n))) `prefix_of` (udp_wire src dst <$> ds).
Proof.
  intros (e & got & _ & (_ & Hin & _ & Hq & _) & _). unfold if_of. rewrite Hq.
  destruct (received_frames _ (wires_nonempty src dst ds)) as [Hrec _].
  rewrite <- Hrec. assert (Hpre : got `prefix_of` concat (frame <$> (udp_wire src dst <$> ds))).
  { etrans; [|exact Hline]. rewrite Hin. by apply prefix_app_r. }
  destruct Hpre as [rest ->]. apply received_app.
Qed.

(** One packet goes to the endpoint. *)
Lemma receive_one n taken out p q fuel : receiver_rel n taken out → rx_queue (if_of n) = p :: q →
  ∃ n', process_queue (S fuel) n = process_queue fuel n' ∧ receiver_rel n' (taken ++ [p]) out ∧ rx_queue (if_of n') = q ∧ active_ifdevs n' = active_ifdevs n.
Proof.
  intros Hr Eq. pose proof (received_datagrams _ _ _ Hr) as Hpre. destruct Hr as (e & got & Hok & Hsl & Hsh & od & qd & rest & Eds & Hout & Hheld & Hlen).
  rewrite Eq in Hsh, Hpre. apply Forall_cons in Hsh as [[f Ef] Hsh]. assert (Hd : ∃ d rest', rest = d :: rest' ∧ unescape f = udp_wire src dst d).
  { destruct Hpre as [tl Htl]. rewrite Eds, fmap_app, !fmap_app, <- app_assoc, (app_assoc _ (udp_wire src dst <$> qd)) in Htl.
    apply app_inj_1 in Htl as [_ Htl]; [|rewrite length_app, !length_fmap, <- (Forall2_length _ _ _ Hout), <- (Forall2_length _ _ _ Hheld); lia].
    destruct rest as [|d rest']; [done|]. rewrite fmap_cons, fmap_cons in Htl. cbn [app] in Htl. injection Htl as Ep _. exists d, rest'. split; [done|]. by rewrite Ep, Ef, payload_rx. }
  destruct Hd as (d & rest' & -> & Ed). assert (Hdok : bytes_ok d ∧ zlen d ≤ 700) by (rewrite Eds, !Forall_app, Forall_cons in Hds; tauto). destruct Hdok as [Hdb Hdl].
  destruct Hok as [Hs1 Hs2 Hs3 Hs4 Hs5 Hs6].
  cbn [process_queue]. rewrite Eq. set (n1 := set_if_of n _). change (incoming_proto (if_of n1)) with (incoming_proto (if_of n)). rewrite Hs4.
  unfold net_incoming_packet. change (proto_list n1) with (proto_list n). rewrite Hs3.
  assert (Ep : p = arrival (udp_wire src dst d) (replicate (length f - length (udp_wire src dst d)) 0) (zlen f)) by (rewrite Ef; unfold rx_packet, arrival; by rewrite Ed).
  rewrite Ep, udp_arrives by (done || lia || apply bytes_zeros). rewrite <- Ep, bind_some. change (negb (0 =? 0)) with false. cbn iota. unfold ipv4_forward_packet. cbn [proto].
  rewrite bool_decide_false by done. unfold transport_forward. change (protocol_num udp_protocol =? IPPROTO_UDP) with true. cbn iota. unfold udp_forward_packet. cbn [custom_dest]. change (udp_endpoints n1) with (udp_endpoints n). rewrite Hs5.
  rewrite !bind_some. change (PACKET_DELIVERED =? PACKET_DELIVERED) with true. cbn iota. change (PACKET_DELIVERED =? PACKET_DROPPED) with false. change (PACKET_DELIVERED =? PACKET_ERROR) with false. cbn iota.
  set (pk := Packet _ _ _ _ _ _ _ _ _ _). set (e' := set_ue_recv e (ue_recv e ++ [pk])). eexists. split; [done|]. split; [|done]. exists e', got. split; [|split; [|split]].
  - split; [done..| |].
    + eapply lookup_update; [exact Hs5|done|]. exact (lookup_port _ _ _ Hs5).
    + by eapply find_update.
  - destruct Hsl as (Hi & Hin & Hrx & Hq & cur & Htx & Hout'). split_and!; try done; [|exists cur; split; [exact Htx|exact Hout']].
    unfold if_of in Eq. rewrite Eq in Hq. rewrite <- app_assoc. exact Hq.
  - done.
  - exists od, (qd ++ [d]), rest'. split; [by rewrite Eds, <- app_assoc|]. split; [done|]. split; [|unfold e'; cbn [ue_recv set_ue_recv]; rewrite !length_app; simpl; lia].
    unfold e'. cbn [ue_recv set_ue_recv]. apply Forall2_app; [done|]. apply Forall2_cons. split; [|done]. by eexists _, _.
Qed.

Lemma queue_ok fuel n taken out : receiver_rel n taken out → (length (rx_queue (if_of n)) ≤ fuel)%nat →
  ∃ n', process_queue fuel n = Some n' ∧ receiver_rel n' (taken ++ rx_queue (if_of n)) out ∧ rx_queue (if_of n') = [] ∧ active_ifdevs n' = active_ifdevs n.
Proof.
  revert n taken. induction fuel as [|fuel IH]; intros n taken Hr Hf; destruct (rx_queue (if_of n)) as [|p q] eqn:Eq; simpl in Hf; try lia.
  1, 2: exists n; cbn [process_queue]; rewrite Eq, app_nil_r; done.
  destruct (receive_one n taken out p q fuel Hr Eq) as (n1 & -> & Hr1 & Eq1 & Ea1). destruct (IH n1 _ Hr1) as (n2 & -> & Hr2 & Eq2 & Ea2); [rewrite Eq1; lia|].
  exists n2. split; [done|]. rewrite Eq1, <- app_assoc in Hr2. split; [done|]. split; [done|congruence].
Qed.

Lemma slots_ok fuel n taken out slots : receiver_rel n taken out → (length (rx_queue (if_of n)) ≤ fuel)%nat → Forall is_Some slots →
  ∃ n' taken', process_slots fuel n slots = Some n' ∧ receiver_rel n' taken' out.
Proof.
  intros Hr Hf Hs. revert n taken Hr Hf. induction Hs as [|slot slots [x ->] _ IH]; intros n taken Hr Hf; cbn [process_slots]; [by eauto|]. rewrite bind_some.
  destruct (queue_ok _ _ _ _ Hr Hf) as (n1 & -> & Hr1 & Eq1 & _). rewrite bind_some. apply (IH n1 _ Hr1). rewrite Eq1. simpl. lia.
Qed.

(** Reading: the oldest datagram at the endpoint. *)
Lemma recv_ok n taken out size : receiver_rel n taken out → Z.of_nat size < 2 ^ 31 →
  ∃ n' o, receiver_step n (RRecv size) = Some (n', o) ∧ receiver_rel n' taken (out ++ o).
Proof.
  intros (e & got & [[Hs1 Hs1'] Hs2 Hs3 Hs4 Hs5 Hs6] & Hsl & Hsh & od & qd & rest & Eds & Hout & Hheld & Hlen) Hsz. cbn [receiver_step]. unfold net_socket_recvfrom. rewrite Hs1', Hs1. change (negb (is_udp udp_protocol)) with false. cbn iota.
  rewrite Hs6, bind_some. unfold udp_endpoint_recv_from. set (it := iovec_iter_init_simple_kvec _ _). destruct (ue_recv e) as [|p q] eqn:Eq.
  - rewrite !bind_some. exists (put_udp n e), []. split; [done|]. rewrite app_nil_r. exists e, got. split; [|split; [done|split; [done|]]].
    + split; try done; [by eapply lookup_update; [..|eapply lookup_port]|by eapply find_update].
    + exists od, qd, rest. by rewrite Eq.
  - inversion Hheld as [|p' d q' qd' (cap & post & Ep) Hq' E1 E2]; subst p' q' qd. assert (Hdok : bytes_ok d ∧ zlen d ≤ 700) by (rewrite Eds, !Forall_app, Forall_cons in Hds; tauto). destruct Hdok as [Hdb Hdl].
    assert (Hrel : iter_rel it (replicate size 0) 0) by (unfold it; rewrite <- (length_replicate size 0) at 2; apply simple_iter_rel; rewrite length_replicate; lia).
    rewrite (iter_remaining_spec _ _ _ Hrel), length_replicate, Nat.sub_0_r, Ep. cbn [pack_length data_offset pack_data custom_src]. replace (28 + zlen d - 28) with (zlen d) by lia. rewrite (u32_small (zlen d)) by lia.
    set (nb := (length d `min` size)%nat). replace (if zlen d <? Z.of_nat size then zlen d else Z.of_nat size) with (Z.of_nat nb) by (destruct (Z.ltb_spec (zlen d) (Z.of_nat size)); lia).
    rewrite rd_range_ok by (rewrite ?length_app, ?udp_wire_length; lia). rewrite bind_some, Nat2Z.id. change (Z.to_nat 28) with 28%nat.
    assert (Hsl' : slice (udp_wire src dst d ++ post) 28 nb = take nb d).
    { unfold slice, udp_wire. rewrite (app_assoc (ipv4_bytes _ _ _ _ _)), <- app_assoc, drop_app_length' by done. apply take_app_le. lia. }
    rewrite Hsl'. destruct (memcpy_into_iter_spec it _ 0 (take nb d) nb Hrel) as (it' & -> & Hrel' & _); [rewrite length_take; lia|lia|].
    rewrite !bind_some. rewrite (iter_rel_bytes _ _ _ Hrel'), length_replicate. replace (nb `min` (size - 0))%nat with nb by lia. rewrite s32_small by lia.
    unfold suspending. replace (Z.of_nat nb =? EWOULDBLOCK) with false by (unfold EWOULDBLOCK; lia). cbn [fst]. rewrite Nat2Z.id. rewrite take_take, Nat.min_id.
    assert (Htk : take nb (splice (replicate size 0) 0 (take nb d)) = take size d).
    { unfold splice. rewrite take_0, app_nil_l, take_app_length' by (rewrite length_take; lia). unfold nb. destruct (Nat.le_ge_cases (length d) size); [rewrite Nat.min_l by lia; by rewrite !take_ge by lia|by rewrite Nat.min_r by lia]. }
    rewrite Htk.
    eexists _, _. split; [done|]. exists (set_ue_recv e q), got. split; [|split; [done|split; [done|]]].
    + split; try done; [by eapply lookup_update; [..|exact (lookup_port _ _ _ Hs5)]|by eapply find_update].
    + exists (od ++ [d]), qd', rest. split; [by rewrite Eds, <- app_assoc|]. cbn [ue_recv set_ue_recv]. rewrite length_app. simpl in Hlen |- *. split; [|split; [done|lia]]. apply Forall2_app; [done|]. by repeat constructor.
Qed.
End stream.
End receiver.

Lemma receiver_run_ok {D} `{DeviceLaws D} k ep src dst w0 ds n taken out ops : address_ok src → address_ok dst → Forall (λ d, bytes_ok d ∧ zlen d ≤ 700) ds →
  dev_in w0 `prefix_of` concat (frame <$> (udp_wire src dst <$> ds)) → receiver_rel k ep src dst w0 ds n taken out → Forall receiver_op_ok ops →
  ∃ n' o taken', receiver_run k n ops = Some (n', o) ∧ receiver_rel k ep src dst w0 ds n' taken' (out ++ o).
Proof.
  intros Hs Hd Hds Hline Hr Hops. revert n taken out Hr. induction Hops as [|op ops Hop _ IH]; intros n taken out Hr; cbn [receiver_run].
  { exists n, [], taken. by rewrite app_nil_r. }
  assert (Hstep : ∃ n1 o1 taken1, receiver_step k n op = Some (n1, o1) ∧ receiver_rel k ep src dst w0 ds n1 taken1 (out ++ o1)).
  { destruct op as [| |size|f]; cbn [receiver_step receiver_op_ok] in *.
    - destruct Hr as (e & got & [] & Hsl & Hsh & Hrest). destruct (step_input _ _ _ _ _ _ Hsl) as (d & s & got' & -> & Hsl' & Hin' & fs & Hq'). rewrite bind_some. eexists _, [], taken. split; [done|]. rewrite app_nil_r.
      exists e, got'. split; [|split; [done|split; [|done]]].
      + split; try done. unfold if_of in *. cbn [io_slip n_io set_io]. congruence.
      + unfold if_of in *. cbn [io_slip n_io set_io]. rewrite Hq'. apply Forall_app. split; [done|]. apply Forall_fmap, Forall_forall. intros f _. exists f. unfold compose. congruence.
    - unfold net_if_process_bh. destruct (slots_ok _ _ _ _ _ _ Hs Hd Hds Hline _ _ _ _ (active_ifdevs n) Hr (le_n _)) as (n1 & taken1 & -> & Hr1).
      { destruct Hr as (e & got & [] & _). done. }
      rewrite bind_some. eexists _, [], taken1. split; [done|]. by rewrite app_nil_r.
    - destruct (recv_ok _ _ _ _ _ _ Hds _ _ _ _ Hr Hop) as (n1 & o1 & E & Hr1). exists n1, o1, taken. split; [exact E|done].
    - destruct Hr as (e & got & [] & Hsl & Hsh & Hrest). destruct (slip_step_ok _ _ _ _ _ _ (SlDevice f) Hsl Hop) as (d & s & t & got' & E & Hsl'). injection E as <- <- <-. eexists _, [], taken. split; [done|]. rewrite app_nil_r.
      exists e, got'. split; [by split|]. split; [|done]. cbn [slip_sent omap list_omap] in Hsl'. by rewrite !app_nil_r in Hsl'. }
  destruct Hstep as (n1 & o1 & taken1 & -> & Hr1). rewrite bind_some. destruct (IH _ _ _ Hr1) as (n2 & o2 & taken2 & -> & Hr2). rewrite bind_some. exists n2, (o1 ++ o2), taken2. by rewrite app_assoc.
Qed.

(** ** Setting up a host *)

Section setup.
Context {D : Type} `{DeviceLaws D} (dev_open dev_close : D → D * Z).

(** What the kernel does when it starts, up to the first process. *)
Definition net_boot (d : D) : option (net D) :=
  n ← init_net_if (Net (NetIo d slip_if_init []) init_bh [] registered [] [] 1) 0;
  Some (net_if_register_device n SLIP0).1.

(** A process sets the address of the interface, brings it up and binds a UDP socket to the port. *)
Definition net_setup (d : D) (a : ipv4_address) : option (net D * socket) :=
  n ← net_boot d;
  '(n, _, _) ← net_if_ioctl dev_open dev_close n SIOCSIFADDR (Ifreq slip_name (SockaddrIn AF_INET 0 (addr a))) SU_UID;
  '(n, _, _) ← net_if_ioctl dev_open dev_close n SIOCSIFFLAGS (Ifreq slip_name (SockaddrIn IFF_UP 0 0)) SU_UID;
  k ← (net_socket_create n PF_INET SOCK_DGRAM 0 (Some 1) true).1;
  '(n, k, _) ← net_socket_bind n k (Some (SockaddrIn AF_INET (port a) INADDR_ANY)) SOCKADDR_IN_SIZE 2;
  Some (n, k).

(** The device can be opened, and that moves no bytes. *)
Definition opens (d : D) : Prop := (dev_open d).2 = 0 ∧ dev_inv (dev_open d).1 ∧ dev_in (dev_open d).1 = dev_in d ∧ dev_out (dev_open d).1 = dev_out d.

(** The interface with its address and flags, before anything has been sent or received. *)
Definition slip_at (a flags : Z) (p : option protocol) : slip_if_device := set_if slip_if_init (IfDevice flags AF_INET (Ipv4 a 0) p [] [] 0 0 0 0).

Lemma slip_at_rel d d' a flags p : dev_inv d' → dev_in d' = dev_in d → dev_out d' = dev_out d → slip_rel d' (slip_at a flags p) d [] [] [].
Proof.
  intros Hi Hin Hout. destruct (slip_init_rel d' Hi) as (_ & _ & Hrx & _ & cur & Htx & Ho). split_and!; try done. exists cur. split; [exact Htx|]. by rewrite <- Hout.
Qed.

Lemma set_address_ok d b a : net_if_ioctl dev_open dev_close (Net (NetIo d slip_if_init []) b [Some SLIP0; Some SLIP0] registered [] [] 1) SIOCSIFADDR (Ifreq slip_name (SockaddrIn AF_INET 0 a)) SU_UID =
  Some (Net (NetIo d (slip_at a 0 None) []) b [Some SLIP0; Some SLIP0] registered [] [] 1, Ifreq slip_name (SockaddrIn AF_INET 0 a), 0).
Proof. reflexivity. Qed.

Lemma bring_up_ok d d' b a : dev_open d = (d', 0) →
  net_if_ioctl dev_open dev_close (Net (NetIo d (slip_at a 0 None) []) b [Some SLIP0; Some SLIP0] registered [] [] 1) SIOCSIFFLAGS (Ifreq slip_name (SockaddrIn IFF_UP 0 0)) SU_UID =
  Some (Net (NetIo d' (slip_at a IFF_UP (Some ipv4_protocol)) []) (enable_bh b BH_SLIP) [Some SLIP0; Some SLIP0] registered [] [] 1, Ifreq slip_name (SockaddrIn IFF_UP 0 0), 0).
Proof.
  intros Ed. set (n := Net _ _ _ _ _ _ _). transitivity (let '(n', error) := net_if_change_state dev_open dev_close n IFF_UP in Some (n', Ifreq slip_name (SockaddrIn IFF_UP 0 0), error)); [reflexivity|].
  set (n1 := set_if_of n (set_incoming (if_of n) (Some ipv4_protocol))).
  assert (Eup : slip_if_up dev_open n1 = (Net (NetIo d' (slip_at a 0 (Some ipv4_protocol)) []) (enable_bh b BH_SLIP) [Some SLIP0; Some SLIP0] registered [] [] 1, 0)) by (unfold slip_if_up; change (io_dev (n_io n1)) with d; by rewrite Ed).
  unfold net_if_change_state. change (Z.lxor (Z.land (if_flags (if_of n)) IFF_UP) (Z.land IFF_UP IFF_UP) =? 0) with false. change (negb (Z.land IFF_UP IFF_UP =? 0)) with true. change (if_family (if_of n) =? 0) with false. cbn iota. fold n1. by rewrite Eup.
Qed.

Lemma net_setup_ok d a : opens d → port a ≠ 0 →
  ∃ n k e, net_setup d a = Some (n, k) ∧ sender_ok k n a ∧ receiver_ok k 2 a n e ∧ ue_recv e = [] ∧ rx_queue (if_of n) = [] ∧ slip_rel (io_dev (n_io n)) (io_slip (n_io n)) d [] [] [].
Proof.
  intros (E & Hi' & Hin & Hout) Hp. destruct (dev_open d) as [d' error] eqn:Ed. cbn [fst snd] in *. subst error.
  unfold net_setup. set (b := enable_bh (Bh 16 0 (replicate 4 None ++ [Some 0] ++ replicate 5 None)) BH_NET). change (net_boot d) with (Some (Net (NetIo d slip_if_init []) b [Some SLIP0; Some SLIP0] registered [] [] 1)).
  rewrite bind_some, set_address_ok, bind_some, (bring_up_ok d d'), bind_some by done. set (n := Net _ _ _ _ _ _ _).
  change ((net_socket_create n PF_INET SOCK_DGRAM 0 (Some 1) true).1) with (Some (Socket 1 AF_INET SOCK_DGRAM 0 udp_protocol None)). rewrite bind_some. set (k := Socket _ _ _ _ _ _).
  assert (Eb : net_socket_bind n k (Some (SockaddrIn AF_INET (port a) INADDR_ANY)) SOCKADDR_IN_SIZE 2 = Some (set_udp n [UdpEndpoint 2 1 SLIP0 [] a (Ipv4 0 0)], set_sk_ep k (Some 2), 0)).
  { unfold net_socket_bind, net_create_endpoint. change (net_if_find n None (Some ipv4_protocol)) with (Some (Some SLIP0)). cbn - [inet_resolve_address n].
    unfold inet_resolve_address. cbn. rewrite (proj2 (Z.eqb_neq (port a) 0) Hp). cbn. by destruct a. }
  rewrite Eb, bind_some. eexists _, _, _. split; [done|]. split; [|split; [|split; [|split]]].
  - split; [done|]. split; [done|]. by eexists _, _.
  - split; try done; [by repeat constructor|]. cbn. by rewrite Z.eqb_refl.
  - done.
  - done.
  - by apply slip_at_rel.
Qed.
End setup.

Lemma datagrams_ok {D} `{DeviceLaws D} (ops : list (@sender_op D)) : Forall sender_op_ok ops → Forall (λ d, bytes_ok d ∧ zlen d ≤ 700) (datagrams ops).
Proof. induction 1 as [|op ops Hop _ IH]; [done|]. destruct op; cbn; [by constructor|done..]. Qed.

Section datagrams.
Context {WA WB : Type} {DA : ByteDevice WA} {LA : DeviceLaws WA} {DB : ByteDevice WB} {LB : DeviceLaws WB}.
Context (opena closea : WA → WA * Z) (openb closeb : WB → WB * Z).

(** C10: Datagrams from process to process.  One machine sets up its interface
    and a UDP socket and sends datagrams to the address of a socket of
    another machine, whose device reads what the first one's has put out, all
    in whatever portions: what the second process receives are the first of
    the datagrams, in order, each with the address of the sender and cut to
    the room the process gave; and it has received them all once nothing is
    left in the line, the queues and the socket.  No step of the code on
    either machine is undefined.  The datagrams have at most 700 bytes, and the
    devices lose nothing ([DeviceLaws], and interrupts that keep them so). *)
Theorem udp_datagrams_arrive (a : WA) (b : WB) src dst opsa opsb : opens opena a → opens openb b → dev_out a = [] →
  address_ok src → address_ok dst → port src ≠ 0 → port dst ≠ 0 → Forall sender_op_ok opsa → Forall receiver_op_ok opsb →
  ∃ na ka na' nb kb, net_setup opena closea a src = Some (na, ka) ∧ sender_run ka dst na opsa = Some na' ∧ net_setup openb closeb b dst = Some (nb, kb) ∧
    (dev_in b `prefix_of` dev_out (io_dev (n_io na')) →
     ∃ nb' out, receiver_run kb nb opsb = Some (nb', out) ∧ Forall2 (given src) out (take (length out) (datagrams opsa)) ∧
       (dev_in b = dev_out (io_dev (n_io na')) → tx_write (io_slip (n_io na')) = 0 → tx_queue (if_of na') = [] → dev_in (io_dev (n_io nb')) = [] → rx_queue (if_of nb') = [] →
        ue_recv <$> find_udp nb' 2 = Some [] → length out = length (datagrams opsa))).
Proof.
  intros Ia Ib Ha Hs Hd Hps Hpd Oa Ob. destruct (net_setup_ok opena closea a src Ia Hps) as (na & ka & ea & Ea & Sa & _ & _ & _ & Ra).
  destruct (net_setup_ok openb closeb b dst Ib Hpd) as (nb & kb & eb & Eb & _ & Kb & Qe & Qb & Rb).
  destruct (sender_run_ok ka dst na src a [] [] opsa Sa Hs Hd Ra Oa) as (na' & gota & Ea' & _ & Ra'). set (ds := datagrams opsa) in *.
  exists na, ka, na', nb, kb. split; [done|]. split; [done|]. split; [done|]. intros Hline. destruct Ra' as (_ & _ & _ & _ & cur & Htx & Hout). rewrite Ha, !app_nil_l in Hout.
  assert (Hline' : dev_in b `prefix_of` concat (frame <$> (udp_wire src dst <$> ds))) by (etrans; [exact Hline|]; rewrite <- Hout; by apply prefix_app_r).
  assert (Hrel : receiver_rel kb 2 src dst b ds nb [] []).
  { exists eb, []. split; [done|]. split; [done|]. split; [by rewrite Qb|]. exists [], [], ds. rewrite Qe. split; [done|]. split; [constructor|]. split; [constructor|done]. }
  destruct (receiver_run_ok kb 2 src dst b ds nb [] [] opsb Hs Hd (datagrams_ok _ Oa) Hline' Hrel Ob) as (nb' & out & taken & E & Hrel'). exists nb', out. split; [done|]. cbn [app] in Hrel'.
  pose proof Hrel' as (e & got & [] & (_ & Hin & _ & Hq & _) & _ & od & qd & rest & Eds & Hgiven & _ & Hlen). split.
  - rewrite Eds, take_app_length' by exact (Forall2_length _ _ _ Hgiven). done.
  - intros Hall Hw Htq Hdin Hrxq Hrecv. unfold if_of in Hrxq. rewrite Hrxq, app_nil_r in Hq. rewrite Hdin, app_nil_r in Hin. rewrite ro_find0 in Hrecv. cbn in Hrecv. injection Hrecv as Hrecv. rewrite Hrecv in Hlen.
    destruct Htx as (Hrw & _ & _ & Hc & _). replace (Z.to_nat (tx_write (io_slip (n_io na')) - tx_read (io_slip (n_io na')))) with 0%nat in Hc by lia. rewrite slice_0 in Hc. subst cur.
    unfold unsent in Hout. unfold if_of in Htq. rewrite Htq in Hout. cbn [fmap list_fmap concat app] in Hout. rewrite app_nil_r in Hout.
    rewrite <- Hin, Hall, Hout, (proj1 (received_frames _ (wires_nonempty src dst ds))) in Hq. apply (f_equal length) in Hq. rewrite !length_fmap in Hq. simpl in Hlen. lia.
Qed.
End datagrams.

(** ** Two machines *)

(** dev_open and dev_close of the second channel of the serial chip. *)
Definition open_b {H} `{Uart H} (s : serial H) : serial H * Z := match tty_68681_open s CH_B (Z.lor 2 O_NONBLOCK) with Some r => r | None => (s, -1) end.
Definition close_b {H} `{Uart H} (s : serial H) : serial H * Z := match tty_68681_close s CH_B with Some r => r | None => (s, -1) end.

Lemma open_b_ok s c : serial_inv s → channels s !! 1%nat = Some c → Z.land (ch_open_mode c) O_EXCL = 0 → opens (D := serial chip) open_b s.
Proof.
  intros Hi Hc Hx. destruct (chan_rd s CH_B c ltac:(unfold CH_B; lia) Hc) as [_ Ef]. unfold opens, open_b, tty_68681_open. rewrite Ef, Hx. change (Z.lor 2 O_NONBLOCK =? 0) with false. change (negb (0 =? 0) || negb (Z.land (Z.lor 2 O_NONBLOCK) O_EXCL =? 0)) with false.
  rewrite andb_false_r. cbn iota. destruct Hi as [Hl Hch]. destruct (Hch CH_B ltac:(unfold CH_B; lia)) as (rx & tx & c0 & Hc0 & Hok). assert (c0 = c) as -> by (change (channels s !! 1%nat = Some c0) in Hc0; congruence).
  rewrite wr_in_range by (unfold CH_B; lia). rewrite bind_some. set (c' := set_ch_open _ _ _). set (cs := <[_ := _]> _).
  destruct (chan_update s CH_B c' (uart s) cs rx tx (conj Hl Hch)) as (Hb & Hinv & _); [unfold CH_B; lia|by apply wr_in_range; unfold CH_B; lia|exact Hok|].
  assert (Es : set_channels (set_uart s (uart s)) cs = set_channels s cs) by (by destruct s). rewrite Es in *. split; [done|]. split; [exact Hinv|]. cbn [fst dev_in dev_out channel_b_laws].
  destruct (port_ok _ _ _ _ Hb) as [-> ->]. destruct (port_ok s CH_B rx tx) as [-> ->]; [by exists c|]. by destruct s.
Qed.

(** Before the second channel is opened. *)
Definition cold (incoming : list Z) : serial chip := Serial (Chip [] incoming [] []) [idle_channel BH_TTY; SerialChannel empty_ring empty_ring 0 0 0 0 BH_SLIP] 0 0 init_bh [].
Lemma cold_opens l : opens open_b (cold l).
Proof.
  eapply open_b_ok; [|reflexivity|reflexivity]. split; [done|]. intros minor Hm. exists [], []. destruct (decide (minor = 0)) as [->|]; [exists (idle_channel BH_TTY); split; [done|apply idle_channel_ok]|].
  replace minor with 1 by lia. eexists. split; [reflexivity|exact (idle_channel_ok BH_SLIP)].
Qed.

Definition home : ipv4_address := Ipv4 3232235777 1024.
Definition away : ipv4_address := Ipv4 3232235778 53.
Definition greeting : list Z := [104; 105; 192; 219].
Definition greetings : list (@sender_op (serial chip)) := SSend greeting :: SSend [7] :: concat (replicate 80 [SDevice irq_with_room; SInput]).
Definition line_bytes : list Z := frame (udp_wire home away greeting) ++ frame (udp_wire home away [7]).
Definition reading : list (@receiver_op (serial chip)) := concat (replicate 4 [RDevice irq_with_room; RInput]) ++ [RBh; RRecv 3; RBh; RRecv 10; RRecv 10].

Lemma udp_datagrams_arrive_witness :
  ∃ na ka na' nb kb, net_setup open_b close_b (cold []) home = Some (na, ka) ∧ sender_run ka away na greetings = Some na' ∧ net_setup open_b close_b (cold line_bytes) away = Some (nb, kb) ∧
    (dev_in (cold line_bytes) `prefix_of` dev_out (io_dev (n_io na')) →
     ∃ nb' out, receiver_run kb nb reading = Some (nb', out) ∧ Forall2 (given home) out (take (length out) [greeting; [7]])).
Proof.
  destruct (udp_datagrams_arrive open_b close_b open_b close_b (cold []) (cold line_bytes) home away greetings reading) as (na & ka & na' & nb & kb & E1 & E2 & E3 & E4).
  1, 2: apply cold_opens.
  1: reflexivity.
  1, 2: by vm_compute.
  1, 2: done.
  - repeat (apply Forall_cons; split; [first [done|apply irq_with_room_quiet|by repeat constructor]|]). by apply Forall_nil.
  - repeat (apply Forall_cons; split; [first [done|apply irq_with_room_quiet]|]). by apply Forall_nil.
  - exists na, ka, na', nb, kb. split; [exact E1|]. split; [exact E2|]. split; [exact E3|]. intros Hp. destruct (E4 Hp) as (nb' & out & E5 & E6 & _). exists nb', out. split; [exact E5|exact E6].
Defined.

Example greetings_arrive :
  ('(na, ka) ← net_setup open_b close_b (cold []) home; na' ← sender_run ka away na greetings; Some (out_b (uart (io_dev (n_io na'))))) = Some line_bytes ∧
  ('(nb, kb) ← net_setup open_b close_b (cold line_bytes) away; '(_, out) ← receiver_run kb nb reading; Some out) =
    Some [(3%nat, [104; 105; 192], SockaddrIn AF_INET 1024 3232235777); (10%nat, [7], SockaddrIn AF_INET 1024 3232235777)].
Proof. split; vm_compute; reflexivity. Qed.
